(* ===== verification/_CoqProject ===== *)
-Q . S2P
Prelude.v
Chars.v
Glob.v
Strings.v
Base64.v
Utf8.v
Dbuf.v
Lists.v
Client.v
Hash.v
Whowas.v
Command.v
Parse.v
ChanMode.v
Channel.v
Bans.v
ModeParse.v
Crule.v
CruleFuncs.v
CruleSpec.v
Operclass.v
Badwords.v
User.v
Names.v
Nick.v
NickNet.v
MatchUser.v
Extban.v
BanMask.v
BanMode.v
ChanParam.v
Mode.v
ModeLine.v
ModeSync.v
Sjoin.v
SjoinSync.v
SjoinMerge.v
Tags.v
ConfPre.v
Conf.v
ConfSync.v
HTime.v
History.v
HistorySpec.v
HistoryReq.v
Join.v
JoinSafe.v
JoinSpec.v
