(* ===== verification/Prelude.v ===== *)
(** * UnrealIRCd: a verification development

    UnrealIRCd is an IRC server written in C.  A connection's bytes go into a
    receive queue (src/dbuf.c); the parser (src/parse.c) takes lines from it,
    finds out on whose behalf a line is sent and which command it names
    (src/hash.c, src/api-command.c), splits its parameters and calls the handler.
    Handlers, which mostly live in modules, work on clients, channels and bans
    with the help of the string, matching, encoding and list routines of the core,
    and ask the permission system, the limits, the rule language and the word filter
    whether a user may do what it asks for.  Servers exchange their users when they
    link and resolve collisions of nicknames.  This library models the core from the
    bytes up to the call of a handler, the data structures beneath it, and the
    services and handlers listed below.

    ** Files

    - [Prelude] (this file): C strings as lists of bytes with checked reads, the
      notation for loop bodies, loops with fuel and their total-correctness rule,
      generic lemmas and tactics.
    - [Chars]: the character tables of src/match.c, the macros of
      include/common.h, [smycmp] and [mycmp].
    - [Glob]: [match_simple], [match_esc], [collapse] (src/match.c), against the
      declarative relation [glob].
    - [Strings]: bounded copies, tokenisers, natural-order comparison and other
      string helpers of src/support.c.
    - [Base64]: [b64_encode], [b64_decode], [inetntop], [encode_ip], [decode_ip]
      (src/support.c).
    - [Utf8]: validation, repair and truncation of UTF-8 (src/utf8.c).
    - [Dbuf]: the block lists of src/dbuf.c, and the class [RecvQueue] that says
      what the parser needs of a receive queue.
    - [Lists]: the intrusive doubly linked lists of src/list.c on a heap of links,
      and the name lists, priority lists and tables built on them.
    - [Client]: the client record, its status and flags (include/struct.h).
    - [Hash]: SipHash and the name, ID and channel tables (src/hash.c).
    - [Whowas]: the nickname history (src/whowas.c).
    - [Command]: the command table (src/api-command.c).
    - [Parse]: the parser (src/parse.c) with [concat_params] (src/misc.c) and
      [dead_socket] (src/socket.c).
    - [ChanMode]: strings of member modes, ranks and prefixes
      (src/api-channelmode.c).
    - [Channel]: channels, their members and the memberships of users
      (src/channel.c), on a store of nodes.
    - [Bans]: the lists +b, +e, +I (src/channel.c) and nick!user\@host strings
      (src/misc.c).
    - [ModeParse]: the parser of mode lines, [parse_chanmode] (src/channel.c).
    - [Crule], [CruleFuncs], [CruleSpec]: the language of spamfilter and connection rules
      (src/modules/crule.c): scanner, recursive-descent parser and evaluation; the functions
      that rules call, on a network whose other modules are parameters; and the abstract
      syntax with its printer, against which the parser is proved.
    - [Operclass]: operator classes and permissions (src/operclass.c, the operclass block of
      src/conf.c).
    - [Badwords]: the word filter (src/match.c) and the removal of formatting codes
      (src/misc.c).
    - [User]: user modes as text, the limits on conversations and the flood counters
      (src/user.c).
    - [Names]: targets per command and UIDs (src/user.c), the syntax of names (src/serv.c,
      src/misc.c), spaces in reasons (src/misc.c).
    - [Nick]: the syntax of nicknames (src/modules/charsys.c) and the handlers by which servers
      introduce, rename and remove users (src/modules/nick.c, kill.c, quit.c).
    - [NickNet]: two linked servers as a transition system over the handlers of [Nick].
    - [MatchUser]: masks and addresses against a client (src/modules/tkl.c [_match_user],
      src/match.c), against a declarative reading of a mask.
    - [Extban]: extended bans (src/api-extban.c and the tests of src/modules/extbans/) and
      [is_banned] (src/channel.c).
    - [BanMask]: the conversion of masks, [clean_ban_mask] (src/channel.c) with the
      [conv_param] callbacks of the extended bans.
    - [BanMode]: the [is_ok] callbacks and [mode_ban_handler] (src/modules/mode.c).
    - [ChanParam]: the modules of channel modes (src/modules/chanmodes/): registration, unloading
      and re-registration with the bits and the slots for parameters (src/api-channelmode.c),
      access, and the parameters of +k, +l and +L behind the class [ParamLaws].
    - [Mode]: the MODE command, [set_mode] and [make_mode_str] (src/modules/mode.c).
    - [ModeLine], [ModeSync]: the lines of a change, and what they do on another server.
    - [Sjoin]: the burst of a channel, [send_channel_modes_sjoin3] (src/modules/server.c) and
      [cmd_sjoin] (src/modules/sjoin.c) with the hook that kicks insecure users of a channel
      that became +z (src/modules/chanmodes/secureonly.c) and the KICKs that result.
    - [SjoinSync], [SjoinMerge]: the effect of a line on modes, members and lists, and the two
      sides of a link.
    - [Tags]: message tags (src/modules/message-tags.c, src/api-messagetag.c) and the checks of
      the modules that define a tag.
    - [ConfPre]: the preprocessor of configuration files (src/conf_preprocessor.c).
    - [Conf]: the parser of configuration files, [config_parse_with_offset], and quoting
      (src/conf.c); [ConfSync]: its loop, files that are printed and read back, and safety.
    - [HTime]: the times of messages ([server_time_to_unix_time], src/misc.c) and their order.
    - [History]: channel history in memory (src/modules/history_backend_mem.c);
      [HistorySpec]: the invariant of a log, for any time tags and, stronger, for those that a
      server writes; [HistoryReq]: the requests.
    - [Join]: the JOIN command (src/modules/join.c) with the hooks of the shipped modules, forwarding
      (chanmodes/link.c), invitations (invite.c) and the join throttle (jointhrottle.c) on the
      channels of [Channel]; [JoinSafe]: its invariant and the steps that keep it; [JoinSpec]: who
      may join, and the command as a whole.

    ** How the code is modelled

    Pure string functions are functions on lists of bytes ([Z] below 256; the build
    makes [char] unsigned).  Where a loop could read past the end of a string or not
    terminate, the loop body is a step function with checked reads and the theorem says
    that it returns without a fault.  Linked structures are heaps: a finite map from
    pointers to links, a missing cell being a fault.  Stateful components are records
    with one function per C function, [None] (or [Oops] in [Crule]) standing for a fault
    ([NULL] dereference, [abort], a write behind an array); the theorems show that the
    fault does not happen, or under which condition.  Words of 64 bits (SipHash) and
    [int] results wrap around explicitly.  Fuel is always computed from the length of
    the input, the size of the heap or the queue length, and each use has a lemma that
    it suffices.  The UID loop of [Names] draws random numbers until one is free: its fuel
    is the number of draws.

    Code reached through function pointers (hooks, efunctions, command handlers), other
    modules that a modelled function asks (security groups, extended bans, GeoIP, text
    analysis, cloaking), regular expressions (PCRE2) and the C library's address
    conversions are parameters, with named hypotheses where a theorem depends on them.
    The directory of [Nick] is the map of clients that the tables of [Hash] implement: its
    keys stand for pointers, being the ID, and the ID with zero bytes behind it for a
    further client with an ID that is in use.

    ** What the theorems show

    - The network: two servers that link always end with the same users
      (C2), nicknames stay unique (C29) and are valid
      everywhere, the channels that two servers merge are the same on both
      (C1, C16), and a MODE command has the same effect on every server
      (C3).  Message tags arrive on the other side of a link
      (C17), and users cannot forge those of servers (C23).
    - JOIN: every path ends with consistent channels (C5), and what becomes of a
      request on every branch, where a user gets onto a channel exactly if it admits him
      (C6).
    - Configuration files: conditions select what is written (C7), text is
      read back (C14), and the parser finishes within its text, with
      directives or without (C39).
    - Channel history: logs stay sorted and within their limits (C9) and
      requests return what they ask for (C10).
    - Bans: what a mask means (C18), who is
      banned (C8), masks in canonical form
      (C13), changes of the lists
      (C12), and the registry of
      channel modes (C35).
    - Refinements of data structures: channel memberships, which are stored twice, are one map
      from (channel, user) to rights (C4); the
      name tables are finite maps (C11); the nickname history is a bounded
      log (C19); channel lists are maps (C30); dbufs are byte
      queues (C31).
    - The parser: bounded receive queues and termination (C25,
      C38), sources cannot be forged
      (C26), handlers run only for clients that the command permits
      (C27).
    - The rule language: printing and parsing (C20), typing and absence of
      faults (C21).
    - Permissions and limits: operator classes (C28), conversations
      (C36), flood counters (C37).
    - The word filter: against a word-by-word reference and, for regular expressions, the matches of
      PCRE2 (C22).
    - Texts and encodings: matching decides [glob] (C24), UTF-8
      (C32), member modes
      (C34), mode lines (C33,
      C15), texts of user modes (C40).

    Further theorems of the files, without a number, cover the copies and tokenisers of [Strings],
    [match_esc] and [collapse], base64 and address encoding, intrusive lists, CIDR ranges, the
    registry of extended bans, error codes of rules, single bad words, reachable command tables, priority lists and bisection, hashing, repair of
    UTF-8, lines of a dbuf, parameters and fake lag, prefixes of members, visibility of channels,
    measures of a text, formatting codes, UIDs, targets per command, and
    behaviour of the code that looks unintended (an operand missing from a rule, a validator that is
    never consulted, an overlapping bad word, a space that is not restored, changes of modes and
    lists that do not reach another server, a tag that is never accepted, messages
    that are stored twice, keys that belong to another channel, configuration files
    that are misread, a parameter slot that two modes share).

    ** What is not modelled

    Sockets, TLS, DNS, logging, sending, module loading, databases, authentication and most of
    the configuration blocks and of the modules.  In [Mode] the notices to users and the notice of an
    override are left out, in [Sjoin] the lines to local users and the forwarding to other servers;
    the modes +f, +F and +H have no model of their parameters.  In [Join] the
    lines to local users, NAMES and the flood protection +f are left out.  The timestamps of MODE, the
    INVITE command, the registration of local users, server bans, security groups, flood protection
    and the client life cycle of src/list.c have no model; each is a component of its own that rests on
    timers, sockets or the configuration blocks. *)From stdpp Require Export base tactics list gmap strings.
From Stdlib Require Export ZArith Lia.

#[global] Open Scope Z_scope.

(** ** C strings

    A C string is the list of its bytes, each an unsigned 8-bit value held in a
    [Z], without the terminating NUL.  [rd s i] is the C expression [s[i]]: the
    byte at [i], NUL at the terminator, and [None] past it, which is a read out
    of bounds. *)

Abbreviation cstring := (list Z).

Definition byte_ok (c : Z) : Prop := 0 < c < 256.

Definition cstr (s : cstring) : Prop := Forall byte_ok s.

Definition rd (s : cstring) (i : nat) : option Z :=
  if decide (i < length s)%nat then Some (nth i s 0)
  else if decide (i = length s) then Some 0
  else None.

(** A Rocq string literal as the bytes of the C literal. *)
Definition str (s : string) : cstring :=
  map (fun a => Z.of_N (Ascii.N_of_ascii a)) (String.list_ascii_of_string s).

Abbreviation ch_nul := 0 (only parsing).
Abbreviation ch_lf := 10 (only parsing).
Abbreviation ch_cr := 13 (only parsing).
Abbreviation ch_space := 32 (only parsing).
Abbreviation ch_star := 42 (only parsing).
Abbreviation ch_colon := 58 (only parsing).
Abbreviation ch_qmark := 63 (only parsing).
Abbreviation ch_at := 64 (only parsing).
Abbreviation ch_backslash := 92 (only parsing).
Abbreviation ch_underscore := 95 (only parsing).

(** ** Control flow

    A loop body maps the loop's state to either the next state ([inl]) or a
    result ([inr]).  A body that reads a C string can also fault: its result
    type is then an [option], with [None] for the fault. *)

Declare Scope ctl_scope.
Delimit Scope ctl_scope with ctl.

Notation "'fault'" := (inr None) (only parsing) : ctl_scope.
Notation "'return_' x" := (inr (Some x)) (at level 20, only parsing) : ctl_scope.
Notation "'goto' s" := (inl s) (at level 20, only parsing) : ctl_scope.
Notation "'read!' x := e ; k" :=
  (match e with Some x => k | None => inr None end)
  (at level 10, x name, e at level 90, k at level 200, only parsing) : ctl_scope.

Section iterate.
Context {S R : Type} (step : S -> S + R).

(** [iterate fuel s] runs the body at most [fuel] times; [None] says the fuel
    ran out. *)
Fixpoint iterate (fuel : nat) (s : S) : option R :=
  match fuel with
  | O => None
  | Datatypes.S fuel' =>
      match step s with
      | inl s' => iterate fuel' s'
      | inr r => Some r
      end
  end.

(** Total correctness of a loop: an invariant [Inv], a measure [mu] that every
    continuing iteration decreases, and the postcondition at the exits. *)
Lemma iterate_total (Inv : S -> Prop) (Post : R -> Prop) (mu : S -> nat) :
  (forall s, Inv s ->
     match step s with
     | inl s' => Inv s' /\ (mu s' < mu s)%nat
     | inr r => Post r
     end) ->
  forall fuel s, Inv s -> (mu s < fuel)%nat ->
  exists r, iterate fuel s = Some r /\ Post r.
Proof.
  intros Hstep fuel. induction fuel as [|fuel IH]; intros s HI Hmu; [lia|].
  simpl. specialize (Hstep s HI). destruct (step s) as [s'|r].
  - destruct Hstep as [HI' Hlt]. apply IH; [done|lia].
  - by exists r.
Qed.

End iterate.

Lemma iterate_ext {S R} (f g : S -> S + R) (Inv : S -> Prop) :
  (forall s, Inv s -> f s = g s) ->
  (forall s s', Inv s -> g s = inl s' -> Inv s') ->
  forall fuel s, Inv s -> iterate f fuel s = iterate g fuel s.
Proof.
  intros Heq Hinv fuel. induction fuel as [|fuel IH]; intros s HI; simpl; [done|].
  rewrite Heq by done. destruct (g s) eqn:E; [|done]. apply IH. by eapply Hinv.
Qed.

(** ** Reading at a known position *)

Lemma rd_app_cons pre c rest : rd (pre ++ c :: rest) (length pre) = Some c.
Proof.
  unfold rd. rewrite decide_True by (rewrite length_app; simpl; lia).
  by rewrite app_nth2, Nat.sub_diag by lia.
Qed.

Lemma rd_end s : rd s (length s) = Some 0.
Proof. unfold rd. by rewrite decide_False, decide_True by lia. Qed.

Lemma rd_in_range s i : (i <= length s)%nat -> exists c, rd s i = Some c.
Proof. intros H. unfold rd. repeat case_decide; eauto. lia. Qed.

Lemma rd_app_nil pre rest i :
  rest = [] -> i = length pre -> rd (pre ++ rest) i = Some 0.
Proof. intros -> ->. rewrite app_nil_r. apply rd_end. Qed.

Lemma cstr_app s t : cstr (s ++ t) <-> cstr s /\ cstr t.
Proof. apply Forall_app. Qed.

Lemma cstr_cons c s : cstr (c :: s) <-> byte_ok c /\ cstr s.
Proof. apply Forall_cons. Qed.

(** ** Filters *)

Lemma filter_agree {A} (P Q : A -> Prop) `{!forall x, Decision (P x), !forall x, Decision (Q x)}
    (l : list A) :
  (forall x, x ∈ l -> P x <-> Q x) -> filter P l = filter Q l.
Proof.
  induction l as [|x l IH]; intros Hag; [done|]. pose proof (Hag x ltac:(left)) as Hx.
  destruct (decide (P x)).
  - rewrite !filter_cons_True by tauto. f_equal. apply IH. intros. apply Hag. by right.
  - rewrite !filter_cons_False by tauto. apply IH. intros. apply Hag. by right.
Qed.

Lemma Forall2_mono_in {A B} (P Q : A -> B -> Prop) (l : list A) (k : list B) :
  Forall2 P l k -> (forall x y, x ∈ l -> P x y -> Q x y) -> Forall2 Q l k.
Proof.
  induction 1 as [|x y l k Hxy _ IH]; intros HQ; constructor; [apply HQ; [left|done]|].
  apply IH. intros. apply HQ; [by right|done].
Qed.

(** ** Automation *)

Create HintDb ircd discriminated.
Create Rewrite HintDb ircd_len.

#[export] Hint Rewrite @length_app @length_drop @length_take @length_replicate
  @length_map : ircd_len.

(** Case analysis on the boolean comparisons of the code. *)
Ltac bdestr :=
  repeat match goal with
  | |- context [?a =? ?b] => destruct (Z.eqb_spec a b); try lia
  | H : context [?a =? ?b] |- _ => destruct (Z.eqb_spec a b); try lia
  | |- context [?a <? ?b] => destruct (Z.ltb_spec a b); try lia
  | H : context [?a <? ?b] |- _ => destruct (Z.ltb_spec a b); try lia
  | |- context [?a <=? ?b] => destruct (Z.leb_spec a b); try lia
  | H : context [?a <=? ?b] |- _ => destruct (Z.leb_spec a b); try lia
  end.

(** ** Bytes, exhaustively

    A decidable fact about every byte is checked by evaluation. *)
Lemma byte_forall (P : Z -> bool) :
  forallb P (seqZ 0 256) = true -> forall c, 0 <= c < 256 -> P c = true.
Proof.
  intros H c Hc. rewrite forallb_forall in H. apply H.
  apply list_elem_of_In, elem_of_seqZ. lia.
Qed.

(** ** Loops that can fail

    A loop of steps with a fault stays in the fault. *)
Lemma foldl_fault {A B} (f : A -> B -> option A) (l : list B) : foldl (fun r x => a ← r; f a x) None l = None.
Proof. by induction l. Qed.

Lemma foldl_step {A B} (f : A -> B -> option A) (a : A) (x : B) (l : list B) :
  foldl (fun r x => a ← r; f a x) (Some a) (x :: l) = (a' ← f a x; foldl (fun r x => a ← r; f a x) (Some a') l).
Proof. cbn [foldl mbind option_bind]. destruct (f a x); [done|]. cbn [mbind option_bind]. apply foldl_fault. Qed.

Lemma foldl_split {A B} (f : A -> B -> option A) (a : A) (l k : list B) :
  foldl (fun r x => a ← r; f a x) (Some a) (l ++ k) =
  (a' ← foldl (fun r x => a ← r; f a x) (Some a) l; foldl (fun r x => a ← r; f a x) (Some a') k).
Proof. rewrite foldl_app. destruct (foldl _ (Some a) l); [done|]. apply foldl_fault. Qed.
