(* ===== verification/Chars.v ===== *)
(** * Character classes and case folding (src/match.c, include/common.h)

    The three 256-entry tables of [src/match.c] are copied as they are written
    there; the macros of [include/common.h] index them with a [u_char].  The
    theorems relate the tables to the arithmetic they stand for (ASCII case
    folding, and nothing else) and give [smycmp] / [mycmp], the comparison used
    for nicknames and channel names. *)
From S2P Require Import Prelude.

Definition tolowertab : list Z := [
     0;   1;   2;   3;   4;   5;   6;   7;   8;   9;  10;  11;  12;  13;  14;  15;
    16;  17;  18;  19;  20;  21;  22;  23;  24;  25;  26;  27;  28;  29;  30;  31;
    32;  33;  34;  35;  36;  37;  38;  39;  40;  41;  42;  43;  44;  45;  46;  47;
    48;  49;  50;  51;  52;  53;  54;  55;  56;  57;  58;  59;  60;  61;  62;  63;
    64;  97;  98;  99; 100; 101; 102; 103; 104; 105; 106; 107; 108; 109; 110; 111;
   112; 113; 114; 115; 116; 117; 118; 119; 120; 121; 122;  91;  92;  93;  94;  95;
    96;  97;  98;  99; 100; 101; 102; 103; 104; 105; 106; 107; 108; 109; 110; 111;
   112; 113; 114; 115; 116; 117; 118; 119; 120; 121; 122; 123; 124; 125; 126; 127;
   128; 129; 130; 131; 132; 133; 134; 135; 136; 137; 138; 139; 140; 141; 142; 143;
   144; 145; 146; 147; 148; 149; 150; 151; 152; 153; 154; 155; 156; 157; 158; 159;
   160; 161; 162; 163; 164; 165; 166; 167; 168; 169; 170; 171; 172; 173; 174; 175;
   176; 177; 178; 179; 180; 181; 182; 183; 184; 185; 186; 187; 188; 189; 190; 191;
   192; 193; 194; 195; 196; 197; 198; 199; 200; 201; 202; 203; 204; 205; 206; 207;
   208; 209; 210; 211; 212; 213; 214; 215; 216; 217; 218; 219; 220; 221; 222; 223;
   224; 225; 226; 227; 228; 229; 230; 231; 232; 233; 234; 235; 236; 237; 238; 239;
   240; 241; 242; 243; 244; 245; 246; 247; 248; 249; 250; 251; 252; 253; 254; 255 ].

Definition touppertab : list Z := [
     0;   1;   2;   3;   4;   5;   6;   7;   8;   9;  10;  11;  12;  13;  14;  15;
    16;  17;  18;  19;  20;  21;  22;  23;  24;  25;  26;  27;  28;  29;  30;  31;
    32;  33;  34;  35;  36;  37;  38;  39;  40;  41;  42;  43;  44;  45;  46;  47;
    48;  49;  50;  51;  52;  53;  54;  55;  56;  57;  58;  59;  60;  61;  62;  63;
    64;  65;  66;  67;  68;  69;  70;  71;  72;  73;  74;  75;  76;  77;  78;  79;
    80;  81;  82;  83;  84;  85;  86;  87;  88;  89;  90;  91;  92;  93;  94;  95;
    96;  65;  66;  67;  68;  69;  70;  71;  72;  73;  74;  75;  76;  77;  78;  79;
    80;  81;  82;  83;  84;  85;  86;  87;  88;  89;  90; 123; 124; 125; 126; 127;
   128; 129; 130; 131; 132; 133; 134; 135; 136; 137; 138; 139; 140; 141; 142; 143;
   144; 145; 146; 147; 148; 149; 150; 151; 152; 153; 154; 155; 156; 157; 158; 159;
   160; 161; 162; 163; 164; 165; 166; 167; 168; 169; 170; 171; 172; 173; 174; 175;
   176; 177; 178; 179; 180; 181; 182; 183; 184; 185; 186; 187; 188; 189; 190; 191;
   192; 193; 194; 195; 196; 197; 198; 199; 200; 201; 202; 203; 204; 205; 206; 207;
   208; 209; 210; 211; 212; 213; 214; 215; 216; 217; 218; 219; 220; 221; 222; 223;
   224; 225; 226; 227; 228; 229; 230; 231; 232; 233; 234; 235; 236; 237; 238; 239;
   240; 241; 242; 243; 244; 245; 246; 247; 248; 249; 250; 251; 252; 253; 254; 255 ].

(** PRINT 1, CNTRL 2, ALPHA 4, PUNCT 8, DIGIT 16, SPACE 32, ALLOW 64. *)
Definition char_atribs : list Z := [
     2;   2;   2;   2;   2;   2;   2;   2;   2;  34;  34;  34;  34;  34;   2;   2;
     2;   2;   2;   2;   2;   2;   2;   2;   2;   2;   2;   2;   2;   2;   2;   2;
    33;   1;   1;   1;   1;   1;   1;   1;   1;   1;   1;   1;   1;  65;  65;   1;
    81;  81;  81;  81;  81;  81;  81;  81;  81;  81;   1;   1;   1;   1;   1;   1;
     1;  69;  69;  69;  69;  69;  69;  69;  69;  69;  69;  69;  69;  69;  69;  69;
    69;  69;  69;  69;  69;  69;  69;  69;  69;  69;  69;   1;   1;   1;   1;  65;
     1;  69;  69;  69;  69;  69;  69;  69;  69;  69;  69;  69;  69;  69;  69;  69;
    69;  69;  69;  69;  69;  69;  69;  69;  69;  69;  69;   1;   1;   1;   1;   0;
     0;   0;   0;   0;   0;   0;   0;   0;   0;   0;   0;   0;   0;   0;   0;   0;
     0;   0;   0;   0;   0;   0;   0;   0;   0;   0;   0;   0;   0;   0;   0;   0;
     0;   0;   0;   0;   0;   0;   0;   0;   0;   0;   0;   0;   0;   0;   0;   0;
     0;   0;   0;   0;   0;   0;   0;   0;   0;   0;   0;   0;   0;   0;   0;   0;
     0;   0;   0;   0;   0;   0;   0;   0;   0;   0;   0;   0;   0;   0;   0;   0;
     0;   0;   0;   0;   0;   0;   0;   0;   0;   0;   0;   0;   0;   0;   0;   0;
     0;   0;   0;   0;   0;   0;   0;   0;   0;   0;   0;   0;   0;   0;   0;   0;
     0;   0;   0;   0;   0;   0;   0;   0;   0;   0;   0;   0;   0;   0;   0;   0 ].

(** The cast [(u_char)(c)] and the table access. *)
Definition tab (t : list Z) (c : Z) : Z := nth (Z.to_nat (c mod 256)) t 0.

Definition tolower (c : Z) : Z := tab tolowertab c.
Definition toupper (c : Z) : Z := tab touppertab c.

Definition attr (mask c : Z) : bool := negb (Z.land (tab char_atribs c) mask =? 0).
Definition isallowed (c : Z) : bool := attr 64 c.
Definition iscntrl (c : Z) : bool := attr 2 c.
Definition isalpha (c : Z) : bool := attr 4 c.
Definition isspace (c : Z) : bool := attr 32 c.
Definition isdigit (c : Z) : bool := attr 16 c.
Definition isalnum (c : Z) : bool := attr (16 + 4) c.
Definition isprint (c : Z) : bool := attr 1 c.
Definition isgraph (c : Z) : bool := attr 1 c && negb (c mod 256 =? 50).
Definition iswseperator (c : Z) : bool := negb (isalnum c) && negb (128 <=? c mod 256).

(** [smycmp]: both pointers advance while the upper-cased bytes agree. *)
Fixpoint smycmp (s1 s2 : cstring) : Z :=
  let res := toupper (hd 0 s1) - toupper (hd 0 s2) in
  if res =? 0 then
    match s1 with
    | [] => 0
    | _ :: t1 => smycmp t1 (tl s2)
    end
  else res.

(** The macro [mycmp], true when the strings differ.  It compares the first
    bytes and then calls [smycmp (a + 1) (b + 1)] without looking for the end of
    the string: with two empty strings [a + 1] is past the terminator, the
    fault [None]. *)
Definition mycmp (a b : cstring) : option bool :=
  if negb (toupper (hd 0 a) =? toupper (hd 0 b)) then Some true
  else
    match a with
    | [] => None
    | _ :: a' => Some (negb (smycmp a' (tl b) =? 0))
    end.

(** ** The tables are the arithmetic they stand for *)

Definition ascii_lower (c : Z) : Z := if (65 <=? c) && (c <=? 90) then c + 32 else c.
Definition ascii_upper (c : Z) : Z := if (97 <=? c) && (c <=? 122) then c - 32 else c.

Lemma tolower_ascii c : 0 <= c < 256 -> tolower c = ascii_lower c.
Proof.
  intros Hc. apply Z.eqb_eq. revert c Hc.
  apply (byte_forall (fun c => tolower c =? ascii_lower c)). vm_compute. reflexivity.
Qed.

Lemma toupper_ascii c : 0 <= c < 256 -> toupper c = ascii_upper c.
Proof.
  intros Hc. apply Z.eqb_eq. revert c Hc.
  apply (byte_forall (fun c => toupper c =? ascii_upper c)). vm_compute. reflexivity.
Qed.

Lemma fold_agree c d :
  0 <= c < 256 -> 0 <= d < 256 -> toupper c = toupper d <-> tolower c = tolower d.
Proof.
  intros Hc Hd. rewrite !toupper_ascii, !tolower_ascii by done.
  unfold ascii_upper, ascii_lower.
  repeat match goal with
  | |- context [?a <=? ?b] => destruct (Z.leb_spec a b)
  end; simpl; lia.
Qed.

Lemma toupper_nul c : 0 <= c < 256 -> toupper c = toupper 0 -> c = 0.
Proof.
  intros Hc. rewrite !toupper_ascii by lia. unfold ascii_upper.
  repeat match goal with
  | |- context [?a <=? ?b] => destruct (Z.leb_spec a b)
  end; simpl; lia.
Qed.

(** Equality of two names up to ASCII case. *)
Definition same_name (a b : cstring) : Prop := map tolower a = map tolower b.

#[export] Instance same_name_dec a b : Decision (same_name a b).
Proof. unfold same_name. apply _. Defined.

#[export] Instance same_name_equiv : Equivalence same_name.
Proof. unfold same_name. split; [by intros ?|by intros ??->|by intros ???->->]. Qed.

Lemma same_name_cons c a d b :
  same_name (c :: a) (d :: b) <-> tolower c = tolower d /\ same_name a b.
Proof.
  unfold same_name. simpl. split; [intros [= ? ?]; done | by intros [-> ->]].
Qed.

Lemma same_name_length a b : same_name a b -> length a = length b.
Proof. unfold same_name. intros H%(f_equal length). by rewrite !length_map in H. Qed.

Lemma smycmp_zero s1 s2 : cstr s1 -> cstr s2 -> smycmp s1 s2 = 0 <-> same_name s1 s2.
Proof.
  revert s2. induction s1 as [|c s1 IH]; intros [|d s2] H1 H2;
    rewrite ?cstr_cons in *; cbn [smycmp hd tl].
  - by rewrite Z.sub_diag.
  - destruct H2 as [Hd _]. unfold byte_ok in Hd. split; [|intros H%same_name_length; done].
    destruct (Z.eqb_spec (toupper 0 - toupper d) 0) as [E|E]; [|done].
    exfalso. assert (d = 0) by (apply toupper_nul; lia). lia.
  - destruct H1 as [Hc _]. unfold byte_ok in Hc. split; [|intros H%same_name_length; done].
    destruct (Z.eqb_spec (toupper c - toupper 0) 0) as [E|E]; [|done].
    exfalso. assert (c = 0) by (apply toupper_nul; lia). lia.
  - destruct H1 as [Hc H1], H2 as [Hd H2]. rewrite same_name_cons.
    rewrite <- fold_agree by (unfold byte_ok in *; lia).
    destruct (Z.eqb_spec (toupper c - toupper d) 0) as [E|E].
    + rewrite IH by done. split; [split; [lia|done]|by intros [_ ?]].
    + split; [done|]. intros [? _]. lia.
Qed.

Lemma smycmp_refl s : smycmp s s = 0.
Proof. induction s as [|c s IH]; cbn [smycmp hd tl]; rewrite Z.sub_diag; simpl; done. Qed.

Lemma smycmp_opp s1 s2 : cstr s1 -> cstr s2 -> smycmp s2 s1 = - smycmp s1 s2.
Proof.
  revert s2. induction s1 as [|c s1 IH]; intros [|d s2] H1 H2;
    rewrite ?cstr_cons in *; cbn [smycmp hd tl].
  - done.
  - destruct H2 as [Hd _]. unfold byte_ok in Hd.
    assert (toupper d <> toupper 0) by (intros ?%toupper_nul; lia). bdestr.
  - destruct H1 as [Hc _]. unfold byte_ok in Hc.
    assert (toupper c <> toupper 0) by (intros ?%toupper_nul; lia). bdestr.
  - destruct H1 as [Hc H1], H2 as [Hd H2].
    destruct (Z.eqb_spec (toupper c - toupper d) 0), (Z.eqb_spec (toupper d - toupper c) 0); try lia.
    by apply IH.
Qed.

(** [mycmp] decides [same_name], except that it faults on two empty strings. *)
Lemma mycmp_same_name a b :
  cstr a -> cstr b ->
  match mycmp a b with
  | Some differ => differ = false <-> same_name a b
  | None => a = [] /\ b = []
  end.
Proof.
  intros Ha Hb. unfold mycmp.
  destruct (Z.eqb_spec (toupper (hd 0 a)) (toupper (hd 0 b))) as [E|E]; simpl.
  - destruct a as [|c a], b as [|d b]; rewrite ?cstr_cons in *; simpl in *.
    + done.
    + destruct Hb as [Hd _]. unfold byte_ok in Hd.
      assert (d = 0) by (apply toupper_nul; lia). lia.
    + destruct Ha as [Hc _]. unfold byte_ok in Hc.
      assert (c = 0) by (apply toupper_nul; lia). lia.
    + destruct Ha as [Hc Ha], Hb as [Hd Hb]. unfold byte_ok in *.
      rewrite same_name_cons, <- fold_agree, <- smycmp_zero by (done || lia).
      destruct (Z.eqb_spec (smycmp a b) 0); simpl; split; naive_solver.
  - split; [done|]. intros H. exfalso. apply E.
    destruct a as [|c a], b as [|d b]; rewrite ?cstr_cons in *; simpl in *; try done.
    apply same_name_cons in H as [H _]. unfold byte_ok in *.
    apply fold_agree; lia || done.
Qed.
