(* ===== verification/Glob.v ===== *)
(** * Wildcard matching (src/match.c)

    [match_simple] and [match_esc] are the two glob matchers of the server: bans,
    server masks and extended bans all go through them.  Both are a single
    [while (1)] loop over four pointers with one level of backtracking; they are
    modelled as a loop body on the four indices, with every read of the two
    strings checked.  [glob] is the declarative meaning of a mask.  The main
    results: [match_simple] terminates, never reads out of bounds and decides
    [glob]; [match_esc] agrees with it on masks without a backslash, and does
    not implement its own escape on others.  [collapse] is the in-place
    normalisation of a mask. *)
From S2P Require Import Prelude Chars.

Definition lc (c : Z) : Z := tolower c.

(** The four pointers of the loop: [m], [n], [ma] (NULL before the first star)
    and [na]. *)
Record mstate := MState {
  ms_m : nat;
  ms_n : nat;
  ms_ma : option nat;
  ms_na : nat
}.

(** [while ( *m == '*') m++;] *)
Fixpoint count_stars (l : cstring) : nat :=
  match l with
  | c :: l' => if c =? ch_star then S (count_stars l') else O
  | [] => O
  end.

Definition skip_stars (mask : cstring) (m : nat) : nat :=
  (m + count_stars (drop m mask))%nat.

(** [for (; (m > mask) && ( *m == '?'); m--) ;] from the position after [m--]. *)
Fixpoint back_qmarks (mask : cstring) (m : nat) : nat :=
  match m with
  | O => O
  | S m' => if nth m mask 0 =? ch_qmark then back_qmarks mask m' else m
  end.

(** [m = ma; n = ++na;], or failure when no star has been seen. *)
Definition backtrack (ma : option nat) (na : nat) : mstate + option bool :=
  match ma with
  | None => inr (Some false)
  | Some a => inl (MState a (na + 1) ma (na + 1))
  end.

Section glob_loop.
(** The comparison at the end of the loop body, which is all the two matchers
    differ in. *)
Variable compare_at : cstring -> cstring -> mstate -> mstate + option bool.

Definition glob_step (mask name : cstring) (st : mstate) : mstate + option bool :=
  (let n := ms_n st in
   read! c0 := rd mask (ms_m st);
   let '(m, ma, na) :=
     if c0 =? ch_star
     then (skip_stars mask (ms_m st), Some (skip_stars mask (ms_m st)), n)
     else (ms_m st, ms_ma st, ms_na st) in
   read! cm := rd mask m;
   read! cn := rd name n;
   if cm =? 0 then
     if cn =? 0 then return_ true
     else
       match ma with
       | None => return_ false
       | Some a =>
           read! cb := rd mask (back_qmarks mask (m - 1));
           if cb =? ch_star then return_ true
           else compare_at mask name (MState a (na + 1) ma (na + 1))
       end
   else if cn =? 0 then
     read! c1 := rd mask (skip_stars mask m);
     return_ (c1 =? 0)
   else compare_at mask name (MState m n ma na))%ctl.

Definition glob_fuel (mask name : cstring) : nat :=
  S ((length name + 1) * (length mask + 2))%nat.

Definition glob_run (mask name : cstring) : option bool :=
  mjoin (iterate (glob_step mask name) (glob_fuel mask name) (MState 0 0 None 0)).
End glob_loop.

Definition simple_compare (mask name : cstring) (st : mstate) : mstate + option bool :=
  (read! cm := rd mask (ms_m st);
   read! cn := rd name (ms_n st);
   if negb (lc cm =? lc cn) && negb ((cm =? ch_underscore) && (cn =? ch_space))
      && negb (cm =? ch_qmark)
   then backtrack (ms_ma st) (ms_na st)
   else goto (MState (ms_m st + 1) (ms_n st + 1) (ms_ma st) (ms_na st)))%ctl.

Definition esc_compare (mask name : cstring) (st : mstate) : mstate + option bool :=
  (read! cm := rd mask (ms_m st);
   if negb (cm =? ch_qmark) then
     let m := if cm =? ch_backslash then (ms_m st + 1)%nat else ms_m st in
     read! cm' := rd mask m;
     if (cm =? ch_backslash) && (cm' =? 0) then return_ false
     else
       read! cn := rd name (ms_n st);
       if negb (lc cm' =? lc cn) && negb ((cm' =? ch_underscore) && (cn =? ch_space))
       then backtrack (ms_ma st) (ms_na st)
       else goto (MState (m + 1) (ms_n st + 1) (ms_ma st) (ms_na st))
   else goto (MState (ms_m st + 1) (ms_n st + 1) (ms_ma st) (ms_na st)))%ctl.

Definition match_simple (mask name : cstring) : option bool :=
  glob_run simple_compare mask name.

Definition match_esc (mask name : cstring) : option bool :=
  glob_run esc_compare mask name.

(** ** Normalisation of a mask *)

(** [while ( *t == '*') t++;] *)
Fixpoint drop_stars (t : cstring) : cstring :=
  match t with
  | c :: t' => if c =? ch_star then drop_stars t' else t
  | [] => []
  end.

(** [for (; *t == '*' || *t == '?'; t++) if ( *t == '?') *s1++ = *t;]: the
    question marks kept, and where [t] stops. *)
Fixpoint gather_qmarks (t : cstring) : cstring * cstring :=
  match t with
  | c :: t' =>
      if c =? ch_qmark then let '(q, r) := gather_qmarks t' in (c :: q, r)
      else if c =? ch_star then gather_qmarks t'
      else ([], t)
  | [] => ([], [])
  end.

Fixpoint collapse_from (fuel : nat) (s : cstring) : cstring :=
  match fuel with
  | O => s
  | S fuel' =>
      match s with
      | [] => []
      | c :: t =>
          if c =? ch_backslash then
            match t with
            | [] => s
            | d :: t' => c :: d :: collapse_from fuel' t'
            end
          else if c =? ch_star then
            if hd 0 t =? ch_star then c :: collapse_from fuel' (drop_stars t)
            else if hd 0 t =? ch_qmark then
              let '(q, r) := gather_qmarks (tl t) in
              c :: collapse_from fuel' (hd 0 t :: q ++ r)
            else c :: collapse_from fuel' t
          else c :: collapse_from fuel' t
      end
  end.

(** Every round consumes at least one byte. *)
Definition collapse (pattern : cstring) : cstring :=
  collapse_from (length pattern) pattern.

(** ** The meaning of a mask *)

(** One mask byte against one name byte: equal up to case, an underscore against
    a space, or a question mark. *)
Definition chmatch (c d : Z) : bool :=
  (lc c =? lc d) || ((c =? ch_underscore) && (d =? ch_space)) || (c =? ch_qmark).

Inductive glob : cstring -> cstring -> Prop :=
| glob_nil : glob [] []
| glob_star m n k : glob m (drop k n) -> glob (ch_star :: m) n
| glob_char c d m n :
    c <> ch_star -> chmatch c d = true -> glob m n -> glob (c :: m) (d :: n).

Definition nostar (s : cstring) : Prop := Forall (fun c => c <> ch_star) s.

(** Number of name bytes a mask needs at least. *)
Definition min_len (m : cstring) : nat :=
  length (filter (fun c => c <> ch_star) m).

Example glob_run_examples :
  match_simple (str "*!*@*.example.org") (str "nick!user@host.EXAMPLE.org") = Some true /\
  match_simple (str "a*b*c?") (str "axxbyybzzcd") = Some true /\
  match_simple (str "a*b*c?") (str "axxbyybzzc") = Some false /\
  match_simple (str "real_name") (str "real name") = Some true.
Proof. vm_compute. auto. Qed.

(** ** Facts about [glob] *)

Lemma glob_star_inv p s : glob (ch_star :: p) s -> exists k, glob p (drop k s).
Proof. inversion 1; subst; eauto. done. Qed.

Lemma glob_char_inv c p s :
  c <> ch_star -> glob (c :: p) s ->
  exists d s', s = d :: s' /\ chmatch c d = true /\ glob p s'.
Proof. intros Hc. inversion 1; subst; naive_solver. Qed.

Lemma glob_seg seg p s :
  nostar seg ->
  glob (seg ++ p) s <->
  exists s1 s2, s = s1 ++ s2 /\ Forall2 (fun c d => chmatch c d = true) seg s1 /\ glob p s2.
Proof.
  intros Hns. revert s. induction Hns as [|c seg Hc Hns IH]; intros s; simpl.
  - split; [intros H; by exists [], s|]. intros (s1 & s2 & -> & Hf & H).
    by inversion Hf; subst.
  - split.
    + intros (d & s' & -> & Hm & (s1 & s2 & -> & Hf & H)%IH)%glob_char_inv; [|done].
      exists (d :: s1), s2. eauto.
    + intros (s1 & s2 & -> & Hf & H). inversion Hf; subst. simpl.
      constructor; [done..|]. apply IH. eauto.
Qed.

Lemma glob_min_len p s : glob p s -> (min_len p <= length s)%nat.
Proof.
  induction 1 as [|m n k H IH|c d m n Hc Hm H IH]; unfold min_len in *.
  - done.
  - rewrite filter_cons_False by naive_solver. rewrite length_drop in IH. lia.
  - rewrite filter_cons_True by done. simpl. lia.
Qed.

Lemma min_len_seg seg p : nostar seg -> min_len (seg ++ p) = (length seg + min_len p)%nat.
Proof.
  induction 1 as [|c seg Hc H IH]; [done|]. unfold min_len in *. simpl.
  rewrite filter_cons_True by done. simpl. lia.
Qed.

Lemma glob_star_0 p s : glob p s -> glob (ch_star :: p) s.
Proof. intros H. by apply (glob_star p s 0). Qed.

Lemma glob_star_drop p s k : glob (ch_star :: p) (drop k s) -> glob (ch_star :: p) s.
Proof.
  intros [j H]%glob_star_inv. rewrite drop_drop in H. by apply (glob_star p s (k + j)).
Qed.

(** Backtracking past a position where the segment does not match is safe. *)
Lemma glob_star_skip p x s :
  ~ glob p (x :: s) -> glob (ch_star :: p) (x :: s) <-> glob (ch_star :: p) s.
Proof.
  intros Hno. split.
  - intros [k H]%glob_star_inv. destruct k as [|k]; [done|]. by apply (glob_star p s k).
  - intros H. by apply (glob_star_drop p (x :: s) 1).
Qed.

(** A new star makes the position of the old one final. *)
Lemma glob_star_commit seg p s1 s2 :
  nostar seg -> Forall2 (fun c d => chmatch c d = true) seg s1 ->
  glob (ch_star :: seg ++ ch_star :: p) (s1 ++ s2) <-> glob (ch_star :: p) s2.
Proof.
  intros Hns Hf. split.
  - intros [k (t1 & t2 & Ht & Hf' & [j H]%glob_star_inv)%glob_seg]%glob_star_inv; [|done].
    apply Forall2_length in Hf, Hf'.
    assert (t2 = drop k s2) as ->.
    { transitivity (drop (length s1) (t1 ++ t2)).
      - by rewrite <- Hf, Hf', drop_app_length.
      - rewrite <- Ht, drop_drop, Nat.add_comm, <- drop_drop.
        by rewrite drop_app_length. }
    rewrite drop_drop in H. by apply (glob_star p s2 (k + j)).
  - intros H. apply glob_star_0, glob_seg; [done|]. by exists s1, s2.
Qed.

Lemma glob_seg_exact seg p s1 s2 :
  nostar seg -> Forall2 (fun c d => chmatch c d = true) seg s1 ->
  glob (seg ++ p) (s1 ++ s2) <-> glob p s2.
Proof.
  intros Hns Hf. rewrite glob_seg by done. split.
  - intros (t1 & t2 & Ht & Hf' & H). apply Forall2_length in Hf, Hf'.
    apply app_inj_1 in Ht as [-> ->]; [done|lia].
  - intros H. by exists s1, s2.
Qed.

Lemma glob_stars k p s :
  glob (replicate k ch_star ++ ch_star :: p) s <-> glob (ch_star :: p) s.
Proof.
  revert s. induction k as [|k IH]; intros s; simpl; [done|]. split.
  - intros [j H%IH]%glob_star_inv. by eapply glob_star_drop.
  - intros H. by apply glob_star_0, IH.
Qed.

Lemma leading_stars p :
  exists k p', p = replicate k ch_star ++ p' /\ count_stars p = k /\ hd 0 p' <> ch_star.
Proof.
  induction p as [|c p (k & p' & -> & Hk & Hp)]; [by exists 0%nat, []|]. simpl.
  destruct (Z.eqb_spec c ch_star) as [->|Hc].
  - by exists (S k), p'; rewrite Hk.
  - by exists 0%nat, (c :: replicate k ch_star ++ p').
Qed.

(** ** The invariant of the loop

    [minv mask name p s st]: in state [st] the rest of the mask is [p] and the
    rest of the name is [s].  Before the first star the answer is [glob p s];
    after one, [seg] is the star-free part of the mask that has been matched
    against [s1] since the star. *)
Inductive minv (mask name : cstring) : cstring -> cstring -> mstate -> Prop :=
| minv_none pre p q s m n :
    mask = pre ++ p -> name = q ++ s ->
    (glob mask name <-> glob p s) ->
    m = length pre -> n = length q ->
    minv mask name p s (MState m n None 0)
| minv_some pre seg p q s1 s m n a na :
    mask = pre ++ ch_star :: seg ++ p -> name = q ++ s1 ++ s ->
    nostar seg -> Forall2 (fun c d => chmatch c d = true) seg s1 ->
    (glob mask name <-> glob (ch_star :: seg ++ p) (s1 ++ s)) ->
    a = (length pre + 1)%nat -> m = (a + length seg)%nat ->
    na = length q -> n = (na + length s1)%nat ->
    minv mask name p s (MState m n (Some a) na).

Definition mmeasure (mask name : cstring) (st : mstate) : nat :=
  ((length name - ms_na st) * (length mask + 2) + (length mask + 1 - ms_m st))%nat.

Lemma rd_rest pre p : rd (pre ++ p) (length pre) = Some (hd 0 p).
Proof. destruct p; [by apply rd_app_nil | apply rd_app_cons]. Qed.

Lemma minv_rd mask name p s st :
  minv mask name p s st ->
  rd mask (ms_m st) = Some (hd 0 p) /\ rd name (ms_n st) = Some (hd 0 s).
Proof.
  destruct 1 as [pre p q s m n -> -> _ -> ->|pre seg p q s1 s m n a na -> -> _ _ _ -> -> -> ->]; simpl.
  - by rewrite !rd_rest.
  - rewrite app_assoc. replace (pre ++ ch_star :: seg ++ p) with
      ((pre ++ ch_star :: seg) ++ p) by by rewrite <- app_assoc.
    split; (etransitivity; [|apply rd_rest]); f_equal;
      rewrite ?length_app; simpl; lia.
Qed.

Lemma minv_bounds mask name p s st :
  minv mask name p s st ->
  (ms_m st + length p = length mask)%nat /\ (ms_n st + length s = length name)%nat /\
  (ms_na st <= ms_n st)%nat.
Proof.
  destruct 1 as [pre p q s m n -> -> _ -> ->|pre seg p q s1 s m n a na -> -> _ _ _ -> -> -> ->]; simpl;
    rewrite !length_app; simpl; rewrite ?length_app; lia.
Qed.

(** The side conditions of [minv]: lengths and reassociated appends. *)
Ltac minv_solve :=
  simpl; rewrite ?length_app; simpl; rewrite ?length_app, ?length_replicate; try lia; try done;
  try (by rewrite <- ?app_assoc, <- ?app_comm_cons, <- ?app_assoc);
  try (by constructor).

(** Entering a star: the pointers [ma] and [na] move here. *)
Lemma minv_star mask name p s st :
  minv mask name p s st -> hd 0 p = ch_star ->
  exists p', hd 0 p' <> ch_star /\
    let m' := skip_stars mask (ms_m st) in
    minv mask name p' s (MState m' (ms_n st) (Some m') (ms_n st)) /\ (ms_m st < m')%nat.
Proof.
  intros Hinv Hp. destruct (leading_stars p) as (k & p' & Hsp & Hk & Hp').
  destruct k as [|k]; [by subst|]. exists p'. split; [done|]. cbv zeta.
  assert (Hm : skip_stars mask (ms_m st) = (ms_m st + S k)%nat).
  { unfold skip_stars. destruct Hinv as [pre p q s m n -> _ _ -> _|pre seg p q s1 s m n a na -> _ _ _ _ -> -> _ _]; simpl.
    - by rewrite drop_app_length, Hk.
    - rewrite <- Hk. do 2 f_equal. rewrite app_comm_cons, app_assoc.
      apply drop_app_length'. rewrite length_app. simpl. lia. }
  rewrite Hm. split; [|lia].
  destruct Hinv as [pre p q s m n -> -> Hiff -> ->|pre seg p q s1 s m n a na -> -> Hns Hf Hiff -> -> -> ->]; simpl.
  all: rewrite replicate_S_end, <- app_assoc in Hsp; simpl in Hsp; subst p.
  - eapply (minv_some _ _ (pre ++ replicate k ch_star) [] p' q []); minv_solve.
    by rewrite Hiff, glob_stars.
  - eapply (minv_some _ _ (pre ++ ch_star :: seg ++ replicate k ch_star) [] p' (q ++ s1) []);
      minv_solve.
    rewrite Hiff. destruct k as [|k]; simpl; [by rewrite glob_star_commit|].
    rewrite glob_star_commit by done.
    by rewrite app_comm_cons, <- (replicate_S k), glob_stars.
Qed.

(** What an iteration must establish: it either continues in the invariant with
    a smaller measure, or answers correctly. *)
Definition step_ok (mask name : cstring) (st : mstate) (r : mstate + option bool) : Prop :=
  match r with
  | inl st' =>
      (exists p s, minv mask name p s st') /\
      (mmeasure mask name st' < mmeasure mask name st)%nat
  | inr r => exists b, r = Some b /\ (b = true <-> glob mask name)
  end.

Lemma step_ok_mono mask name st st' r :
  step_ok mask name st' r -> (mmeasure mask name st' <= mmeasure mask name st)%nat ->
  step_ok mask name st r.
Proof. unfold step_ok. destruct r; [|done]. intros [? ?]; split; [done|lia]. Qed.

Lemma simple_compare_ok mask name c p d s st :
  c <> ch_star -> minv mask name (c :: p) (d :: s) st ->
  step_ok mask name st (simple_compare mask name st).
Proof.
  intros Hc Hinv. destruct (minv_rd _ _ _ _ _ Hinv) as [Hm Hn].
  pose proof (minv_bounds _ _ _ _ _ Hinv) as (Hb1 & Hb2 & Hb3). simpl in *.
  unfold simple_compare. rewrite Hm, Hn.
  assert (negb (lc c =? lc d) && negb ((c =? ch_underscore) && (d =? ch_space))
      && negb (c =? ch_qmark) = negb (chmatch c d)) as ->.
  { unfold chmatch. by rewrite !negb_orb. }
  destruct (chmatch c d) eqn:Hcd; cbn [negb].
  - split; [exists p, s|unfold mmeasure; simpl; lia].
    inversion Hinv as [pre p' q s' m n HM HN Hiff -> ->|pre seg p' q s1 s' m n a na HM HN Hns Hf Hiff -> -> -> ->];
      subst st mask name; simpl.
    + eapply (minv_none _ _ (pre ++ [c]) p (q ++ [d]) s); minv_solve.
      rewrite Hiff. split; [intros (?&?&[= <- <-]&?&?)%glob_char_inv; done|by constructor].
    + eapply (minv_some _ _ pre (seg ++ [c]) p q (s1 ++ [d]) s); minv_solve.
      * apply Forall_app; split; [done|by constructor].
      * apply Forall2_app; [done|by constructor].
  - inversion Hinv as [pre p' q s' m n HM HN Hiff -> ->|pre seg p' q s1 s' m n a na HM HN Hns Hf Hiff -> -> -> ->];
      subst st mask name; simpl.
    + eexists; split; [done|]. rewrite Hiff. split; [done|].
      intros (?&?&[= <- <-]&?&?)%glob_char_inv; congruence.
    + simpl in *. split; [|unfold mmeasure; simpl; nia].
      assert (Hno : ~ glob (seg ++ c :: p) (s1 ++ d :: s)).
      { rewrite glob_seg_exact by done. intros (?&?&[= <- <-]&?&?)%glob_char_inv; congruence. }
      destruct (s1 ++ d :: s) as [|x t] eqn:Hxt; [by destruct s1|].
      exists (seg ++ c :: p), t.
      eapply (minv_some _ _ pre [] _ (q ++ [x]) [] t); minv_solve.
      * rewrite Hiff. by rewrite glob_star_skip.
Qed.

Lemma back_qmarks_spec pre seg rest :
  nostar seg ->
  exists cb, rd (pre ++ ch_star :: seg ++ rest)
                (back_qmarks (pre ++ ch_star :: seg ++ rest) (length pre + length seg)) = Some cb
             /\ (cb = ch_star <-> Forall (fun c => c = ch_qmark) seg).
Proof.
  revert rest. induction seg as [|c seg IH] using rev_ind; intros rest Hns.
  - exists ch_star. split; [|naive_solver]. simpl. rewrite Nat.add_0_r.
    destruct (length pre) as [|k] eqn:Hk; cbn [back_qmarks].
    + by destruct pre.
    + rewrite <- Hk. rewrite app_nth2, Nat.sub_diag by lia. simpl. apply rd_app_cons.
  - apply Forall_app in Hns as [Hns Hc]. inversion Hc; subst.
    rewrite length_app, <- app_assoc. simpl.
    replace (length pre + (length seg + 1))%nat with (S (length pre + length seg)) by lia.
    cbn [back_qmarks].
    assert (Hnth : nth (S (length pre + length seg)) (pre ++ ch_star :: seg ++ c :: rest) 0 = c).
    { rewrite app_comm_cons, app_assoc, app_nth2; rewrite length_app; simpl; [|lia].
      by replace (_ - _)%nat with O by lia. }
    rewrite Hnth. destruct (Z.eqb_spec c ch_qmark) as [->|Hq].
    + destruct (IH (ch_qmark :: rest) Hns) as (cb & Hrd & Hcb). exists cb. split; [done|].
      rewrite Hcb, Forall_app, Forall_singleton. naive_solver.
    + exists c. split.
      * rewrite app_comm_cons, app_assoc. etransitivity; [|apply rd_app_cons].
        f_equal. rewrite length_app. simpl. lia.
      * rewrite Forall_app, Forall_singleton. naive_solver.
Qed.

Lemma chmatch_qmark d : chmatch ch_qmark d = true.
Proof. unfold chmatch. by rewrite orb_true_r. Qed.

Lemma chmatch_qmarks seg s :
  Forall (fun c => c = ch_qmark) seg -> length seg = length s ->
  Forall2 (fun c d => chmatch c d = true) seg s.
Proof.
  intros H. revert s. induction H as [|c seg -> H IH]; intros [|d s] Hl; try done; constructor.
  - apply chmatch_qmark.
  - apply IH. by injection Hl.
Qed.

(** The mask is exhausted and the name is not. *)
Lemma exhausted_mask_ok mask name d s st :
  minv mask name [] (d :: s) st ->
  step_ok mask name st
    (match ms_ma st with
     | None => inr (Some false)
     | Some a =>
         match rd mask (back_qmarks mask (ms_m st - 1)) with
         | Some cb =>
             if cb =? ch_star then inr (Some true)
             else simple_compare mask name (MState a (ms_na st + 1) (ms_ma st) (ms_na st + 1))
         | None => inr None
         end
     end).
Proof.
  intros Hinv.
  inversion Hinv as [pre p' q s' m n HM HN Hiff Em En|pre seg p' q s1 s' m n a na HM HN Hns Hf Hiff Ea Em Ena En];
    subst p' s' st m n; [|subst a na]; cbn [ms_ma ms_m ms_na ms_n].
  - eexists; split; [done|]. rewrite Hiff. split; [done|]. inversion 1.
  - destruct (back_qmarks_spec pre seg [] Hns) as (cb & Hrd & Hcb).
    rewrite <- HM in Hrd.
    replace (length pre + 1 + length seg - 1)%nat with (length pre + length seg)%nat by lia.
    rewrite Hrd. destruct (Z.eqb_spec cb ch_star) as [E|E].
    + eexists; split; [done|]. split; [|done]. intros _. apply Hiff.
      assert (Hlen : length seg = length s1) by by eapply Forall2_length.
      apply (glob_star _ _ (length (d :: s))). rewrite app_nil_r in *.
      rewrite <- (app_nil_r seg). apply glob_seg; [done|].
      exists (drop (length (d :: s)) (s1 ++ d :: s)), []. rewrite app_nil_r.
      split; [done|]. split; [|constructor]. apply chmatch_qmarks; [by apply Hcb|].
      rewrite length_drop, length_app. lia.
    + rewrite app_nil_r in *. destruct seg as [|c0 seg]; [naive_solver|].
      inversion Hns; subst. inversion Hf as [|? x ? t]; subst.
      eapply step_ok_mono.
      * eapply (simple_compare_ok _ _ c0 seg (hd 0 (t ++ d :: s)) (tl (t ++ d :: s))); [done|].
        replace (hd 0 (t ++ d :: s) :: tl (t ++ d :: s)) with (t ++ d :: s) by by destruct t.
        eapply (minv_some _ _ pre [] (c0 :: seg) (q ++ [x]) []); minv_solve.
        rewrite Hiff. simpl. apply glob_star_skip.
        rewrite <- (app_nil_r (c0 :: seg)).
        change (x :: t ++ d :: s) with ((x :: t) ++ d :: s).
        rewrite glob_seg_exact by done. inversion 1.
      * unfold mmeasure. simpl. rewrite !length_app. simpl. rewrite !length_app. simpl. nia.
Qed.

(** The name is exhausted and the mask is not. *)
Lemma exhausted_name_ok mask name c p st :
  byte_ok c -> c <> ch_star -> minv mask name (c :: p) [] st ->
  step_ok mask name st
    (match rd mask (skip_stars mask (ms_m st)) with
     | Some c1 => inr (Some (c1 =? 0))
     | None => inr None
     end).
Proof.
  intros Hb Hc Hinv. destruct (minv_rd _ _ _ _ _ Hinv) as [Hm _].
  assert (skip_stars mask (ms_m st) = ms_m st) as ->.
  { unfold skip_stars. assert (drop (ms_m st) mask = c :: p) as ->.
    { inversion Hinv as [pre p' q s' m n HM HN _ Em En|pre seg p' q s1 s' m n a na HM HN _ _ _ Ea Em Ena En]; subst; simpl.
      - by rewrite drop_app_length.
      - rewrite app_comm_cons, app_assoc. apply drop_app_length'. minv_solve. }
    simpl. destruct (Z.eqb_spec c ch_star); [done|lia]. }
  rewrite Hm. simpl. eexists; split; [done|].
  destruct (Z.eqb_spec c 0) as [|Hc0]; [unfold byte_ok in Hb; lia|]. split; [done|].
  intros Hg. exfalso.
  inversion Hinv as [pre p' q s' m n HM HN Hiff Em En|pre seg p' q s1 s' m n a na HM HN Hns Hf Hiff Ea Em Ena En].
  - apply Hiff in Hg. apply glob_min_len in Hg. unfold min_len in Hg.
    rewrite filter_cons_True in Hg by done. simpl in Hg. lia.
  - apply Hiff, glob_min_len in Hg. apply Forall2_length in Hf.
    unfold min_len in Hg. rewrite filter_cons_False in Hg by naive_solver.
    fold (min_len (seg ++ c :: p)) in Hg. rewrite min_len_seg in Hg by done.
    unfold min_len in Hg. rewrite filter_cons_True in Hg by done.
    rewrite app_nil_r in Hg. simpl in Hg. lia.
Qed.

Lemma both_exhausted_ok mask name st :
  minv mask name [] [] st -> step_ok mask name st (inr (Some true)).
Proof.
  intros Hinv. eexists; split; [done|]. split; [|done]. intros _.
  inversion Hinv as [pre p' q s' m n HM HN Hiff Em En|pre seg p' q s1 s' m n a na HM HN Hns Hf Hiff Ea Em Ena En];
    apply Hiff.
  - constructor.
  - apply glob_star_0, glob_seg; [done|]. exists s1, []. split; [done|]. split; [done|constructor].
Qed.

Lemma glob_step_ok mask name p s st :
  cstr mask -> cstr name -> minv mask name p s st ->
  step_ok mask name st (glob_step simple_compare mask name st).
Proof.
  intros Hcm Hcn Hinv. unfold glob_step.
  destruct (minv_rd _ _ _ _ _ Hinv) as [Hm Hn]. rewrite Hm.
  assert (Hnorm : exists p' st',
    hd 0 p' <> ch_star /\ minv mask name p' s st' /\ ms_n st' = ms_n st /\
    (mmeasure mask name st' <= mmeasure mask name st)%nat /\
    (if hd 0 p =? ch_star
     then (skip_stars mask (ms_m st), Some (skip_stars mask (ms_m st)), ms_n st)
     else (ms_m st, ms_ma st, ms_na st)) = (ms_m st', ms_ma st', ms_na st')).
  { destruct (Z.eqb_spec (hd 0 p) ch_star) as [E|E].
    - destruct (minv_star _ _ _ _ _ Hinv E) as (p' & Hp' & Hinv' & Hlt). eexists p', _.
      split_and!; [done|exact Hinv'|done| |done].
      pose proof (minv_bounds _ _ _ _ _ Hinv) as (_ & ? & ?).
      unfold mmeasure; simpl.
      apply Nat.add_le_mono; [apply Nat.mul_le_mono_r; lia|lia].
    - exists p, st. naive_solver. }
  destruct Hnorm as (p' & st' & Hp' & Hinv' & Hn' & Hle & ->).
  destruct (minv_rd _ _ _ _ _ Hinv') as [Hm' _]. rewrite Hm', Hn.
  apply (step_ok_mono _ _ _ st'); [|done].
  assert (Hc : cstr p' /\ cstr s).
  { inversion Hinv' as [pre p0 q s' m n HM HN _ _ _|pre seg p0 q s1 s' m n a na HM HN _ _ _ _ _ _ _]; subst;
      rewrite ?cstr_app, ?cstr_cons, ?cstr_app in *; naive_solver. }
  destruct Hc as [Hcp Hcs]. rewrite <- Hn'.
  destruct p' as [|c p']; simpl in *.
  - destruct s as [|d s]; simpl.
    + by apply (both_exhausted_ok mask name st').
    + apply cstr_cons in Hcs as [Hd _]. destruct (Z.eqb_spec d 0); [unfold byte_ok in Hd; lia|].
      by apply (exhausted_mask_ok mask name d s).
  - apply cstr_cons in Hcp as [Hcc _].
    destruct (Z.eqb_spec c 0); [unfold byte_ok in Hcc; lia|].
    destruct s as [|d s]; simpl.
    + by apply (exhausted_name_ok mask name c p').
    + apply cstr_cons in Hcs as [Hd _]. destruct (Z.eqb_spec d 0); [unfold byte_ok in Hd; lia|].
      destruct st' as [m' n' ma' na']. by apply (simple_compare_ok mask name c p' d s).
Qed.

Lemma match_simple_decides mask name :
  cstr mask -> cstr name ->
  exists b, match_simple mask name = Some b /\ (b = true <-> glob mask name).
Proof.
  intros Hm Hn. unfold match_simple, glob_run.
  destruct (iterate_total (glob_step simple_compare mask name)
    (fun st => exists p s, minv mask name p s st)
    (fun r => exists b, r = Some b /\ (b = true <-> glob mask name))
    (mmeasure mask name)) with (fuel := glob_fuel mask name) (s := MState 0 0 None 0)
    as (r & -> & b & -> & Hb).
  - intros st (p & s & Hinv). by apply (glob_step_ok mask name p s).
  - exists mask, name. by eapply (minv_none _ _ [] _ []).
  - unfold mmeasure, glob_fuel. simpl. lia.
  - eauto.
Qed.

(** ** [match_esc] *)

Lemma rd_not_backslash mask i c :
  ~ In ch_backslash mask -> rd mask i = Some c -> c <> ch_backslash.
Proof.
  unfold rd. intros Hno H ->. case_decide; [|case_decide; simplify_eq].
  injection H as H. apply Hno. rewrite <- H. by apply nth_In.
Qed.

Lemma esc_compare_plain mask name st :
  ~ In ch_backslash mask -> (ms_n st <= length name)%nat ->
  esc_compare mask name st = simple_compare mask name st.
Proof.
  intros Hno Hle. unfold esc_compare, simple_compare.
  destruct (rd mask (ms_m st)) as [cm|] eqn:Hm; [|done].
  pose proof (rd_not_backslash _ _ _ Hno Hm) as Hb.
  destruct (Z.eqb_spec cm ch_backslash) as [|_]; [done|]. rewrite Hm. simpl.
  destruct (rd_in_range name (ms_n st) Hle) as [cn ->].
  destruct (Z.eqb_spec cm ch_qmark) as [->|Hq]; cbn [negb].
  - by rewrite andb_false_r.
  - by rewrite andb_true_r.
Qed.

Lemma glob_step_plain mask name p s st :
  ~ In ch_backslash mask -> minv mask name p s st ->
  glob_step esc_compare mask name st = glob_step simple_compare mask name st.
Proof.
  intros Hno Hinv. pose proof (minv_bounds _ _ _ _ _ Hinv) as (_ & Hn & Hna).
  unfold glob_step. destruct (rd mask (ms_m st)) as [c0|]; [|done].
  destruct (if c0 =? ch_star then _ else _) as [[m ma] na] eqn:Hif.
  assert (Hna' : (na <= ms_n st)%nat) by (destruct (c0 =? ch_star); simplify_eq; lia).
  destruct (rd mask m) as [cm|]; [|done].
  destruct (rd name (ms_n st)) as [cn|] eqn:Hcn; [|done].
  rewrite !esc_compare_plain by (done || simpl; lia).
  destruct (cm =? 0); [|done]. destruct (Z.eqb_spec cn 0) as [|Hc0]; [done|].
  destruct ma as [a|]; [|done]. destruct (rd mask (back_qmarks _ _)) as [cb|]; [|done].
  destruct (cb =? ch_star); [done|].
  apply esc_compare_plain; [done|]. simpl.
  destruct s as [|d s]; simpl in *; [|lia].
  destruct (minv_rd _ _ _ _ _ Hinv) as [_ Hrd]. simpl in Hrd. congruence.
Qed.

Lemma match_esc_eq_simple mask name :
  cstr mask -> cstr name -> ~ In ch_backslash mask ->
  match_esc mask name = match_simple mask name.
Proof.
  intros Hm Hn Hno. unfold match_esc, match_simple, glob_run. f_equal.
  apply (iterate_ext _ _ (fun st => exists p s, minv mask name p s st)).
  - intros st (p & s & Hinv). by eapply glob_step_plain.
  - intros st st' (p & s & Hinv) Hst.
    pose proof (glob_step_ok mask name p s st Hm Hn Hinv) as Hok.
    rewrite Hst in Hok. apply Hok.
  - exists mask, name. by eapply (minv_none _ _ [] _ []).
Qed.

(** *** [match_esc] is total

    Its answer is not always the meaning of the mask, but it never reads outside its
    strings and always terminates: the positions stay in range, and while a star is
    remembered the name has advanced whenever the mask has. *)
Definition einv (mask name : cstring) (st : mstate) : Prop :=
  (ms_m st <= length mask)%nat /\ (ms_n st <= length name)%nat /\ (ms_na st <= ms_n st)%nat /\
  forall a, ms_ma st = Some a ->
    (0 < a <= ms_m st)%nat /\ nth (a - 1) mask 0 = ch_star /\ ((a < ms_m st)%nat -> (ms_na st < ms_n st)%nat).

Definition estep_ok (mask name : cstring) (st : mstate) (r : mstate + option bool) : Prop :=
  match r with
  | inl st' => einv mask name st' /\ (mmeasure mask name st' < mmeasure mask name st)%nat
  | inr r => is_Some r
  end.

Lemma estep_ok_mono mask name st st' r :
  estep_ok mask name st' r -> (mmeasure mask name st' <= mmeasure mask name st)%nat ->
  estep_ok mask name st r.
Proof. unfold estep_ok. destruct r; [|done]. intros [? ?]; split; [done|lia]. Qed.

Lemma rd_nonzero s i c : rd s i = Some c -> c <> 0 -> (i < length s)%nat.
Proof. unfold rd. intros H Hc. case_decide; [done|]. case_decide; simplify_eq. Qed.

Lemma rd_zero s i : cstr s -> rd s i = Some 0 -> i = length s.
Proof.
  unfold rd. intros Hs H. case_decide as Hi; [|by case_decide]. injection H as H.
  pose proof (proj1 (List.Forall_nth byte_ok s) Hs i 0 Hi) as Hf.
  unfold byte_ok in Hf. lia.
Qed.

Lemma mmeasure_back mask name st a na :
  (ms_na st < na <= length name)%nat ->
  (mmeasure mask name (MState a na (Some a) na) < mmeasure mask name st)%nat.
Proof.
  intros H. unfold mmeasure. simpl.
  assert ((length name - ms_na st) * (length mask + 2) =
          (length name - na) * (length mask + 2) + (na - ms_na st) * (length mask + 2))%nat by nia.
  assert (1 * (length mask + 2) <= (na - ms_na st) * (length mask + 2))%nat by (apply Nat.mul_le_mono_r; lia).
  lia.
Qed.

Lemma esc_compare_total mask name st :
  einv mask name st -> (ms_m st < length mask)%nat -> (ms_n st < length name)%nat ->
  estep_ok mask name st (esc_compare mask name st).
Proof.
  intros (Hm & Hn & Hna & Ha) Hm' Hn'. unfold esc_compare.
  destruct (rd_in_range mask (ms_m st) Hm) as [cm Hcm]. destruct (rd_in_range name (ms_n st) Hn) as [cn Hcn].
  rewrite Hcm. 
  assert (Hback : estep_ok mask name st (backtrack (ms_ma st) (ms_na st))).
  { unfold backtrack. destruct (ms_ma st) as [a|] eqn:Ema; [|simpl; eauto].
    destruct (Ha a eq_refl) as ([? ?] & Hstar & ?). split; [|apply mmeasure_back; lia].
    unfold einv. simpl. split; [lia|]. split; [lia|]. split; [lia|]. intros a' [= <-]. split; [lia|]. split; [done|lia]. }
  assert (Hfwd : forall k, (ms_m st < k <= length mask)%nat ->
            estep_ok mask name st (inl (MState k (ms_n st + 1) (ms_ma st) (ms_na st)))).
  { intros k Hk. split; [|unfold mmeasure; simpl; lia]. unfold einv. simpl. split; [lia|]. split; [lia|].
    split; [lia|]. intros a Ea. destruct (Ha a Ea) as (? & ? & ?). split; [lia|]. split; [done|]. lia. }
  destruct (negb (cm =? ch_qmark)); [|apply Hfwd; lia].
  destruct (cm =? ch_backslash) eqn:Hbs; cbn [andb].
  - destruct (rd_in_range mask (ms_m st + 1)) as [c2 Hc2]; [lia|]. rewrite Hc2, Hcn.
    destruct (Z.eqb_spec c2 0) as [|Hne]; [simpl; eauto|]. apply rd_nonzero in Hc2; [|done].
    destruct (_ && _); [done|]. apply Hfwd. lia.
  - rewrite Hcm, Hcn. destruct (_ && _); [done|]. apply Hfwd. lia.
Qed.

Lemma skip_stars_le mask m :
  (m <= length mask)%nat ->
  (m <= skip_stars mask m <= length mask)%nat /\
  ((m < skip_stars mask m)%nat -> nth (skip_stars mask m - 1) mask 0 = ch_star).
Proof.
  intros Hm. unfold skip_stars.
  assert (Hc : forall l, (count_stars l <= length l)%nat /\
             ((0 < count_stars l)%nat -> nth (count_stars l - 1) l 0 = ch_star)).
  { clear. induction l as [|c l [IH1 IH2]]; simpl; [split; lia|].
    destruct (Z.eqb_spec c ch_star) as [->|]; simpl; [|split; lia]. split; [lia|]. intros _.
    destruct (count_stars l) as [|k]; [done|]. simpl in *. rewrite Nat.sub_0_r in IH2. apply IH2. lia. }
  destruct (Hc (drop m mask)) as [H1 H2]. rewrite length_drop in H1. split; [lia|]. intros Hlt.
  rewrite <- H2 by lia. rewrite List.nth_skipn. f_equal. lia.
Qed.

Lemma esc_step_total mask name st :
  cstr mask -> cstr name -> einv mask name st -> estep_ok mask name st (glob_step esc_compare mask name st).
Proof.
  intros Hcm Hcn (Hm & Hn & Hna & Ha). unfold glob_step.
  destruct (rd_in_range mask _ Hm) as [c0 Hc0]. rewrite Hc0.
  destruct (skip_stars_le mask _ Hm) as [Hsk Hstar].
  assert (Hgo : exists m ma na, (if c0 =? ch_star
     then (skip_stars mask (ms_m st), Some (skip_stars mask (ms_m st)), ms_n st)
     else (ms_m st, ms_ma st, ms_na st)) = (m, ma, na) /\ einv mask name (MState m (ms_n st) ma na) /\
     (mmeasure mask name (MState m (ms_n st) ma na) <= mmeasure mask name st)%nat).
  { destruct (Z.eqb_spec c0 ch_star) as [->|Hc]; eexists _, _, _; (split; [reflexivity|]).
    - assert (ms_m st < skip_stars mask (ms_m st))%nat.
      { unfold skip_stars. unfold rd in Hc0. case_decide as Hlt; [|by case_decide]. injection Hc0 as Hc0.
        destruct (lookup_lt_is_Some_2 mask _ Hlt) as [x Hx]. rewrite (nth_lookup_Some _ _ _ _ Hx) in Hc0. subst x.
        rewrite (drop_S _ _ _ Hx). simpl. lia. }
      split; [|unfold mmeasure; simpl; apply Nat.add_le_mono; [apply Nat.mul_le_mono_r|]; lia].
      unfold einv. simpl. split; [lia|]. split; [lia|]. split; [lia|].
      intros a [= <-]. split; [lia|]. split; [auto|lia].
    - split; [done|by destruct st]. }
  destruct Hgo as (m & ma & na & -> & Hinv & Hle). eapply estep_ok_mono; [|exact Hle].
  clear Hle Ha Hm Hna Hsk Hstar Hc0. pose proof Hinv as (Hm & _ & Hna & Ha). simpl in *.
  destruct (rd_in_range mask m Hm) as [cm Erm]. destruct (rd_in_range name (ms_n st) Hn) as [cn Ern].
  rewrite Erm, Ern. destruct (Z.eqb_spec cm 0) as [->|Hc].
  - apply rd_zero in Erm as ->; [|done]. destruct (Z.eqb_spec cn 0) as [|Hn0]; [simpl; eauto|].
    apply rd_nonzero in Ern; [|done]. destruct ma as [a|]; [|simpl; eauto].
    destruct (Ha a eq_refl) as (Hpos & Hst & Hadv).
    destruct (decide (a = length mask)) as [->|Hlt].
    + assert (back_qmarks mask (length mask - 1) = (length mask - 1)%nat) as ->.
      { destruct (length mask - 1)%nat as [|k]; [done|]. cbn [back_qmarks]. by rewrite Hst. }
      unfold rd. rewrite decide_True by lia. rewrite Hst. simpl. eauto.
    + assert (Hbq : forall k, (back_qmarks mask k <= k)%nat).
      { induction k; cbn [back_qmarks]; [lia|]. case_match; lia. }
      specialize (Hbq (length mask - 1)%nat).
      destruct (rd_in_range mask (back_qmarks mask (length mask - 1))) as [cb Hcb]; [lia|]. rewrite Hcb.
      destruct (cb =? ch_star); [simpl; eauto|].
      eapply estep_ok_mono; [apply esc_compare_total|apply Nat.lt_le_incl, mmeasure_back; simpl; lia].
      * unfold einv. simpl. split; [lia|]. split; [lia|]. split; [lia|].
        intros a' [= <-]. split; [lia|]. split; [done|lia].
      * simpl. lia.
      * simpl. lia.
  - destruct (Z.eqb_spec cn 0) as [->|Hn0].
    + destruct (skip_stars_le mask m Hm) as [Hsk _].
      destruct (rd_in_range mask (skip_stars mask m)) as [c1 Hc1]; [lia|]. rewrite Hc1. simpl. eauto.
    + apply rd_nonzero in Erm; [|done]. apply rd_nonzero in Ern; [|done]. by apply esc_compare_total.
Qed.

Lemma match_esc_total mask name : cstr mask -> cstr name -> is_Some (match_esc mask name).
Proof.
  intros Hm Hn. unfold match_esc, glob_run.
  destruct (iterate_total (glob_step esc_compare mask name) (einv mask name) (fun r => is_Some r)
    (mmeasure mask name)) with (fuel := glob_fuel mask name) (s := MState 0 0 None 0) as (r & -> & b & ->).
  - intros st Hinv. by apply esc_step_total.
  - unfold einv. simpl. split; [lia|]. split; [lia|]. split; [lia|]. done.
  - unfold mmeasure, glob_fuel. simpl. lia.
  - simpl. eauto.
Qed.

(** The meaning of a mask in which a backslash makes the next byte literal. *)
Inductive eglob : cstring -> cstring -> Prop :=
| eglob_nil : eglob [] []
| eglob_star m n k : eglob m (drop k n) -> eglob (ch_star :: m) n
| eglob_any d m n : eglob m n -> eglob (ch_qmark :: m) (d :: n)
| eglob_esc c d m n :
    lc c = lc d \/ (c = ch_underscore /\ d = ch_space) ->
    eglob m n -> eglob (ch_backslash :: c :: m) (d :: n)
| eglob_lit c d m n :
    c <> ch_star -> c <> ch_qmark -> c <> ch_backslash ->
    lc c = lc d \/ (c = ch_underscore /\ d = ch_space) ->
    eglob m n -> eglob (c :: m) (d :: n).

(** ** [collapse] keeps the meaning of the mask *)

Definition mask_equiv (a b : cstring) : Prop := forall n, glob a n <-> glob b n.

#[export] Instance mask_equiv_equiv : Equivalence mask_equiv.
Proof.
  unfold mask_equiv. split.
  - by intros a n.
  - intros a b H n. by rewrite H.
  - intros a b c H1 H2 n. by rewrite H1, H2.
Qed.

#[export] Instance mask_cons_proper c : Proper (mask_equiv ==> mask_equiv) (cons c).
Proof.
  intros a b Hab n. destruct (decide (c = ch_star)) as [->|Hc].
  - split; intros [k H]%glob_star_inv; apply (glob_star _ _ k), Hab, H.
  - split; intros (d & s & -> & Hm & H)%glob_char_inv; try done;
      constructor; try done; by apply Hab.
Qed.

Lemma mask_equiv_two_stars p : mask_equiv (ch_star :: ch_star :: p) (ch_star :: p).
Proof. intros n. apply (glob_stars 1). Qed.

Lemma mask_equiv_star_qmark p :
  mask_equiv (ch_star :: ch_qmark :: p) (ch_qmark :: ch_star :: p).
Proof.
  intros n. split.
  - intros [k H]%glob_star_inv.
    apply glob_char_inv in H as (d & s & Hd & _ & H); [|done].
    destruct n as [|x n]; [by rewrite drop_nil in Hd|].
    constructor; [done|apply chmatch_qmark|].
    apply (glob_star _ _ k). replace (drop k n) with s; [done|].
    change n with (drop 1 (x :: n)). by rewrite drop_drop, Nat.add_comm, <- drop_drop, Hd.
  - intros (d & s & -> & _ & [k H]%glob_star_inv)%glob_char_inv; [|done].
    set (j := (k `min` length s)%nat). apply (glob_star _ _ j).
    assert (Hj : drop j s = drop k s).
    { subst j. destruct (decide (k <= length s)%nat); [by rewrite Nat.min_l|].
      rewrite Nat.min_r, !drop_ge by lia. done. }
    destruct (drop j (d :: s)) as [|x t] eqn:Hd.
    { apply (f_equal length) in Hd. rewrite length_drop in Hd. simpl in Hd. lia. }
    constructor; [done|apply chmatch_qmark|]. replace t with (drop k s); [done|].
    rewrite <- Hj. change s with (drop 1 (d :: s)).
    by rewrite drop_drop, Nat.add_comm, <- drop_drop, Hd.
Qed.

Lemma drop_stars_equiv t : mask_equiv (ch_star :: t) (ch_star :: drop_stars t).
Proof.
  induction t as [|c t IH]; [done|]. simpl. destruct (Z.eqb_spec c ch_star) as [->|]; [|done].
  by rewrite mask_equiv_two_stars.
Qed.

Lemma gather_qmarks_equiv t :
  mask_equiv (ch_star :: t)
    (ch_star :: (gather_qmarks t).1 ++ (gather_qmarks t).2).
Proof.
  induction t as [|c t IH]; [done|]. simpl.
  destruct (Z.eqb_spec c ch_qmark) as [->|].
  - destruct (gather_qmarks t) as [q r]. simpl in *.
    by rewrite !mask_equiv_star_qmark, IH.
  - destruct (Z.eqb_spec c ch_star) as [->|]; [|done]. by rewrite mask_equiv_two_stars.
Qed.

Lemma collapse_from_equiv fuel s : mask_equiv (collapse_from fuel s) s.
Proof.
  revert s. induction fuel as [|fuel IH]; intros s; [done|]. destruct s as [|c t]; [done|].
  cbn [collapse_from]. destruct (Z.eqb_spec c ch_backslash) as [->|].
  - destruct t as [|d t]; [done|]. by rewrite IH.
  - destruct (Z.eqb_spec c ch_star) as [->|]; [|by rewrite IH].
    destruct (Z.eqb_spec (hd 0 t) ch_star).
    { rewrite IH. symmetry. apply drop_stars_equiv. }
    destruct (Z.eqb_spec (hd 0 t) ch_qmark) as [Hq|]; [|by rewrite IH].
    destruct t as [|d t]; simpl in *; [done|]. subst d.
    destruct (gather_qmarks t) as [q r] eqn:Hg. rewrite IH.
    pose proof (gather_qmarks_equiv t) as H. rewrite Hg in H. simpl in H.
    by rewrite !mask_equiv_star_qmark, <- H.
Qed.

Lemma length_drop_stars t : (length (drop_stars t) <= length t)%nat.
Proof. induction t as [|c t IH]; simpl; [done|]. case_match; simpl; lia. Qed.

Lemma length_gather_qmarks t :
  (length (gather_qmarks t).1 + length (gather_qmarks t).2 <= length t)%nat.
Proof.
  induction t as [|c t IH]; simpl; [done|].
  destruct (gather_qmarks t); repeat case_match; simpl in *; lia.
Qed.

Lemma length_collapse_from fuel s : (length (collapse_from fuel s) <= length s)%nat.
Proof.
  revert s. induction fuel as [|fuel IH]; intros s; [done|]. destruct s as [|c t]; [done|].
  cbn [collapse_from]. case_match.
  - destruct t as [|d t]; [done|]. specialize (IH t). simpl. lia.
  - case_match; [|specialize (IH t); simpl; lia].
    case_match; [specialize (IH (drop_stars t)); pose proof (length_drop_stars t); simpl; lia|].
    case_match; [|specialize (IH t); simpl; lia].
    destruct t as [|d t]; [simpl in *; lia|]. simpl.
    pose proof (length_gather_qmarks t). destruct (gather_qmarks t) as [q r].
    specialize (IH (d :: q ++ r)). simpl in *. rewrite length_app in IH. lia.
Qed.

(** ** Properties *)

(** C24: on NUL-terminated strings [match_simple] terminates within its loop
    bound, never reads outside the mask or the name, and answers true exactly
    when the name is in the language of the mask ([*] any string, [?] any byte,
    [_] also a space, everything else up to ASCII case). *)
Theorem match_simple_correct (mask name : cstring) (Hm : cstr mask) (Hn : cstr name) :
  exists b, match_simple mask name = Some b /\ (b = true <-> glob mask name).
Proof. by apply match_simple_decides. Qed.

Lemma match_simple_correct_witness :
  exists b, match_simple (str "*a?c_*") (str "xxABC d") = Some b /\
            (b = true <-> glob (str "*a?c_*") (str "xxABC d")).
Proof. apply match_simple_correct; repeat constructor; vm_compute; auto. Defined.

(** On masks without a backslash [match_esc] is [match_simple]. *)
Theorem match_esc_without_escape (mask name : cstring)
  (Hm : cstr mask) (Hn : cstr name) (Hno : ~ In ch_backslash mask) :
  match_esc mask name = match_simple mask name.
Proof. by apply match_esc_eq_simple. Qed.

Lemma match_esc_without_escape_witness :
  match_esc (str "#chan*") (str "#Channel") = match_simple (str "#chan*") (str "#Channel").
Proof.
  apply match_esc_without_escape; [repeat constructor; vm_compute; auto..|].
  vm_compute. intuition discriminate.
Defined.

(** [match_esc] does not implement its escape: it accepts a name that the
    escaped mask excludes, because the scan back over the mask takes an escaped
    star at its end for a wildcard. *)
Theorem match_esc_escaped_star_defect :
  exists mask name, cstr mask /\ cstr name /\
    match_esc mask name = Some true /\ ~ eglob mask name.
Proof.
  exists [ch_star; ch_backslash; ch_star], [ch_star; 98].
  split_and!; [by repeat constructor..|reflexivity|].
  intros H. inversion H as [|m n k H1 E1 E2| | |]; subst; [|done].
  inversion H1 as [| | |c d m n Hl H2 E1 E2|c d m n Hx Hy Hz Hl H2 E1 E2]; subst; [|done].
  inversion H2; subst.
  destruct k as [|[|k]]; simpl in *; simplify_eq;
    [|by rewrite drop_nil in *]. destruct Hl as [Hl|[? _]]; [|done]. vm_compute in Hl. done.
Qed.

(** [collapse] never lengthens a mask (it writes in place) and the collapsed
    mask matches exactly the names the original mask matches. *)
Theorem collapse_preserves_matching (pattern : cstring) :
  (length (collapse pattern) <= length pattern)%nat /\
  forall name, glob (collapse pattern) name <-> glob pattern name.
Proof.
  split; [apply length_collapse_from|]. apply collapse_from_equiv.
Qed.
