(* ===== verification/Strings.v ===== *)
(** * String routines (src/support.c)

    The bounded copies ([strlcpy], [strlncpy], [strlcat], [strlncat],
    [strlcat_letter], [strldup]), the tokenisers [strtoken] and
    [strtoken_noskip], case conversion, prefix and suffix tests, and the natural
    order [strnatcmp].  A destination buffer is the C string it holds; a call
    that returns a length returns it beside the new contents. *)
From S2P Require Import Prelude Chars.

(** ** Bounded copies *)

Definition strnlen (s : cstring) (maxlen : nat) : nat := Nat.min (length s) maxlen.

Definition strlcpy (dst src : cstring) (size : nat) : cstring * nat :=
  let len := length src in
  if (size <=? 0)%nat then (dst, 0%nat)
  else
    let n := if (size <=? len)%nat then (size - 1)%nat else len in
    (take n src, len).

Definition strlncpy (dst src : cstring) (size n : nat) : cstring * nat :=
  let len := strnlen src n in
  if (size <=? 0)%nat then (dst, 0%nat)
  else
    let k := if (size <=? len)%nat then (size - 1)%nat else len in
    (take k src, len).

Definition strlcat (dst src : cstring) (size : nat) : cstring * nat :=
  let len1 := length dst in
  let len2 := length src in
  if (size <=? len1)%nat then (dst, size)
  else
    let n := if (size <=? len1 + len2)%nat then (size - (len1 + 1))%nat else len2 in
    (if (0 <? n)%nat then dst ++ take n src else dst, (len1 + len2)%nat).

Definition strlncat (dst src : cstring) (size n : nat) : cstring * nat :=
  let len1 := length dst in
  let len2 := strnlen src n in
  if (size <=? len1)%nat then (dst, size)
  else
    let k := if (size <=? len1 + len2)%nat then (size - (len1 + 1))%nat else len2 in
    (if (0 <? k)%nat then dst ++ take k src else dst, (len1 + len2)%nat).

Definition strlcat_letter (buf : cstring) (c : Z) (buflen : nat) : cstring :=
  if (buflen =? 0)%nat || (buflen - 1 <=? length buf)%nat then buf
  else buf ++ [c].

(** [src] is [None] for a NULL pointer. *)
Definition strldup (src : option cstring) (max : nat) : option cstring :=
  match src with
  | None => None
  | Some s =>
      if (max =? 0)%nat then None
      else
        let n := if (max - 1 <? length s)%nat then (max - 1)%nat else length s in
        Some (take n s)
  end.

(** Cut at the first CR or LF. *)
Fixpoint stripcrlf (s : cstring) : cstring :=
  match s with
  | [] => []
  | c :: s' => if (c =? ch_lf) || (c =? ch_cr) then [] else c :: stripcrlf s'
  end.

(** ** Tokens *)

(** [strchr(fs, c) != NULL] for a byte [c] of a C string. *)
Definition is_sep (fs : cstring) (c : Z) : bool := existsb (Z.eqb c) fs.

Fixpoint skip_while (p : Z -> bool) (s : cstring) : cstring :=
  match s with
  | c :: s' => if p c then skip_while p s' else s
  | [] => []
  end.

Fixpoint span (p : Z -> bool) (s : cstring) : cstring * cstring :=
  match s with
  | c :: s' => if p c then let '(a, b) := span p s' in (c :: a, b) else ([], s)
  | [] => ([], [])
  end.

(** The returned token and the new value of [*save]. *)
Definition strtoken (save s : option cstring) (fs : cstring)
  : option cstring * option cstring :=
  match (match s with Some _ => s | None => save end) with
  | None => (None, None)
  | Some pos =>
      match skip_while (is_sep fs) pos with
      | [] => (None, None)
      | pos' =>
          let '(tok, rest) := span (fun c => negb (is_sep fs c)) pos' in
          match rest with
          | [] => (Some tok, None)
          | _ :: rest' => (Some tok, Some rest')
          end
      end
  end.

Definition strtoken_noskip (save s : option cstring) (fs : cstring)
  : option cstring * option cstring :=
  match (match s with Some _ => s | None => save end) with
  | None => (None, None)
  | Some pos =>
      let '(tok, rest) := span (fun c => negb (is_sep fs c)) pos in
      match rest with
      | [] => (Some tok, None)
      | _ :: rest' => (Some tok, Some rest')
      end
  end.

(** The loop [for (t = f(&p, s, fs); t; t = f(&p, NULL, fs))] over either
    tokeniser: the tokens it visits. *)
Fixpoint token_loop
  (f : option cstring -> option cstring -> cstring -> option cstring * option cstring)
  (fuel : nat) (save s : option cstring) (fs : cstring) : list cstring :=
  match fuel with
  | O => []
  | S fuel' =>
      match f save s fs with
      | (Some tok, save') => tok :: token_loop f fuel' save' None fs
      | (None, _) => []
      end
  end.

Definition strtoken_all (s fs : cstring) : list cstring :=
  token_loop strtoken (S (length s)) None (Some s) fs.

Definition strtoken_noskip_all (s fs : cstring) : list cstring :=
  token_loop strtoken_noskip (S (S (length s))) None (Some s) fs.

(** ** Case conversion, prefixes and suffixes *)

Definition strtolower (s : cstring) : cstring := map tolower s.
Definition strtoupper (s : cstring) : cstring := map toupper s.

Definition strtolower_safe (dst src : cstring) (size : nat) : cstring :=
  if (size =? 0)%nat then dst else map tolower (take (size - 1) src).

Definition strtoupper_safe (dst src : cstring) (size : nat) : cstring :=
  if (size =? 0)%nat then dst else map toupper (take (size - 1) src).

(** [strncmp(a, b, n) == 0] and [strncasecmp(a, b, n) == 0]. *)
Definition strncmp_eq (a b : cstring) (n : nat) : bool := bool_decide (take n a = take n b).
Definition strncasecmp_eq (a b : cstring) (n : nat) : bool :=
  bool_decide (map ascii_lower (take n a) = map ascii_lower (take n b)).

Definition str_starts_with_case_sensitive (haystack needle : cstring) : bool :=
  strncmp_eq haystack needle (length needle).
Definition str_starts_with_case_insensitive (haystack needle : cstring) : bool :=
  strncasecmp_eq haystack needle (length needle).
Definition str_ends_with_case_sensitive (haystack needle : cstring) : bool :=
  if (length haystack <? length needle)%nat then false
  else strncmp_eq (drop (length haystack - length needle) haystack) needle (length needle).
Definition str_ends_with_case_insensitive (haystack needle : cstring) : bool :=
  if (length haystack <? length needle)%nat then false
  else strncasecmp_eq (drop (length haystack - length needle) haystack) needle (length needle).

(** ** Natural order *)

Fixpoint compare_right (bias : Z) (a b : cstring) : Z :=
  let ca := hd 0 a in
  let cb := hd 0 b in
  if negb (isdigit ca) && negb (isdigit cb) then bias
  else if negb (isdigit ca) then -1
  else if negb (isdigit cb) then 1
  else
    let bias' :=
      if ca <? cb then (if bias =? 0 then -1 else bias)
      else if cb <? ca then (if bias =? 0 then 1 else bias)
      else bias in
    match a with
    | [] => bias
    | _ :: a' => compare_right bias' a' (tl b)
    end.

Fixpoint compare_left (a b : cstring) : Z :=
  let ca := hd 0 a in
  let cb := hd 0 b in
  if negb (isdigit ca) && negb (isdigit cb) then 0
  else if negb (isdigit ca) then -1
  else if negb (isdigit cb) then 1
  else if ca <? cb then -1
  else if cb <? ca then 1
  else
    match a with
    | [] => 0
    | _ :: a' => compare_left a' (tl b)
    end.

(** [fuel] bounds the number of rounds: each one moves past at least one byte of
    [a] or is the last. *)
Fixpoint strnatcmp_go (fold_case : bool) (fuel : nat) (a b : cstring) : option Z :=
  match fuel with
  | O => None
  | S fuel' =>
      let a := skip_while isspace a in
      let b := skip_while isspace b in
      let ca := hd 0 a in
      let cb := hd 0 b in
      let result :=
        if isdigit ca && isdigit cb then
          if (ca =? 48) || (cb =? 48) then compare_left a b else compare_right 0 a b
        else 0 in
      if negb (result =? 0) then Some result
      else if (ca =? 0) && (cb =? 0) then Some 0
      else
        let ca := if fold_case then toupper ca else ca in
        let cb := if fold_case then toupper cb else cb in
        if ca <? cb then Some (-1)
        else if cb <? ca then Some 1
        else strnatcmp_go fold_case fuel' (tl a) (tl b)
  end.

Definition strnatcmp0 (a b : cstring) (fold_case : bool) : option Z :=
  strnatcmp_go fold_case (S (length a)) a b.
Definition strnatcmp (a b : cstring) : option Z := strnatcmp0 a b false.
Definition strnatcasecmp (a b : cstring) : option Z := strnatcmp0 a b true.

Example strnatcmp_ex : strnatcmp (str "1.4.10") (str "1.4.9") = Some 1.
Proof. reflexivity. Qed.

(** ** Bounded copies truncate *)

Lemma strlcpy_take dst src size :
  (0 < size)%nat -> (strlcpy dst src size).1 = take (size - 1) src.
Proof.
  intros H. unfold strlcpy. destruct (Nat.leb_spec size 0); [lia|]. simpl.
  destruct (Nat.leb_spec size (length src)); [done|]. rewrite !take_ge by lia. done.
Qed.

Lemma take_app_pos (n : nat) (d s : cstring) :
  (if (0 <? n)%nat then d ++ take n s else d) = d ++ take n s.
Proof. destruct n; simpl; [by rewrite app_nil_r|done]. Qed.

Lemma strlncat_take dst src size n :
  (length dst < size)%nat ->
  (strlncat dst src size n).1 = take (size - 1) (dst ++ take n src).
Proof.
  intros H. unfold strlncat, strnlen. destruct (Nat.leb_spec size (length dst)); [lia|]. simpl.
  rewrite take_app_pos, take_app, (take_ge dst) by lia. f_equal. rewrite take_take.
  destruct (Nat.leb_spec size (length dst + length src `min` n)).
  - f_equal. lia.
  - destruct (decide (n <= length src)%nat).
    + f_equal. lia.
    + rewrite !take_ge by lia. done.
Qed.

Lemma strlcat_strlncat dst src size :
  strlcat dst src size = strlncat dst src size (length src).
Proof. unfold strlcat, strlncat, strnlen. by rewrite Nat.min_id. Qed.

Lemma strlcat_take dst src size :
  (length dst < size)%nat -> (strlcat dst src size).1 = take (size - 1) (dst ++ src).
Proof. intros H. by rewrite strlcat_strlncat, strlncat_take, (take_ge src) by lia. Qed.

(** ** Tokens *)

(** All the pieces between separators, the empty ones included. *)
Fixpoint split_on (fs s : cstring) : list cstring :=
  match s with
  | [] => [[]]
  | c :: s' =>
      if is_sep fs c then [] :: split_on fs s'
      else
        match split_on fs s' with
        | [] => [[c]]
        | w :: ws => (c :: w) :: ws
        end
  end.

Definition nonempty (w : cstring) : bool := negb (length w =? 0)%nat.

(** What [strtok] of the C library returns one after the other. *)
Definition tokens (fs s : cstring) : list cstring := List.filter nonempty (split_on fs s).

Lemma split_on_cons fs s : exists w ws, split_on fs s = w :: ws.
Proof. induction s as [|c s (w & ws & IH)]; simpl; [eauto|]. destruct (is_sep fs c); [eauto|]. rewrite IH. eauto. Qed.

Lemma split_on_span fs s :
  split_on fs s =
  (span (fun c => negb (is_sep fs c)) s).1 ::
  match (span (fun c => negb (is_sep fs c)) s).2 with
  | [] => []
  | _ :: rest => split_on fs rest
  end.
Proof.
  induction s as [|c s IH]; simpl; [done|].
  destruct (is_sep fs c); simpl; [done|]. rewrite IH.
  destruct (span _ s) as [a b]. done.
Qed.

Lemma span_spec p s :
  let '(a, b) := span p s in
  s = a ++ b /\ Forall (fun c => p c = true) a /\
  match b with [] => True | c :: _ => p c = false end.
Proof.
  induction s as [|c s IH]; simpl; [done|]. destruct (p c) eqn:Hp; [|by rewrite Hp].
  destruct (span p s) as [a b]. naive_solver.
Qed.

Lemma filter_split_skip fs s :
  base.filter nonempty (split_on fs s) =
  base.filter nonempty (split_on fs (skip_while (is_sep fs) s)).
Proof.
  induction s as [|c s IH]; simpl; [done|]. destruct (is_sep fs c) eqn:E; simpl; [done|].
  by rewrite E.
Qed.

Lemma length_skip_while p s : (length (skip_while p s) <= length s)%nat.
Proof. induction s as [|c s IH]; simpl; [done|]. case_match; simpl; lia. Qed.

Lemma skip_while_head p s :
  match skip_while p s with [] => True | c :: _ => p c = false end.
Proof. induction s as [|c s IH]; simpl; [done|]. destruct (p c) eqn:E; [done|by rewrite E]. Qed.

Lemma token_loop_skip fs fuel save s x :
  (match s with Some _ => s | None => save end) = Some x -> (length x < fuel)%nat ->
  token_loop strtoken fuel save s fs = base.filter nonempty (split_on fs x).
Proof.
  revert save s x. induction fuel as [|fuel IH]; intros save s x Hx Hf; [lia|].
  cbn [token_loop]. rewrite filter_split_skip.
  destruct (strtoken save s fs) as [tok save'] eqn:E. unfold strtoken in E. rewrite Hx in E.
  pose proof (skip_while_head (is_sep fs) x) as Hhd.
  pose proof (length_skip_while (is_sep fs) x) as Hle.
  destruct (skip_while (is_sep fs) x) as [|c y]; [by simplify_eq|].
  rewrite split_on_span. simpl in *. rewrite Hhd in *. simpl in *.
  pose proof (span_spec (fun c => negb (is_sep fs c)) y) as Hsp.
  destruct (span _ y) as [a b]. destruct Hsp as (-> & _ & _). simpl in *.
  rewrite filter_cons_True by done. rewrite length_app in Hle.
  destruct b as [|d b]; simplify_eq; f_equal; [by destruct fuel|].
  apply IH; [done|]. simpl in Hle. lia.
Qed.

Lemma token_loop_noskip fs fuel save s x :
  (match s with Some _ => s | None => save end) = Some x -> (length x < fuel)%nat ->
  token_loop strtoken_noskip fuel save s fs = split_on fs x.
Proof.
  revert save s x. induction fuel as [|fuel IH]; intros save s x Hx Hf; [lia|].
  cbn [token_loop]. rewrite split_on_span.
  destruct (strtoken_noskip save s fs) as [tok save'] eqn:E.
  unfold strtoken_noskip in E. rewrite Hx in E.
  pose proof (span_spec (fun c => negb (is_sep fs c)) x) as Hsp.
  destruct (span _ x) as [a b]. destruct Hsp as (-> & _ & _). rewrite length_app in Hf.
  destruct b as [|d b]; simplify_eq/=; f_equal; [by destruct fuel|].
  apply IH; [done|]. lia.
Qed.

Fixpoint join (sep : Z) (ws : list cstring) : cstring :=
  match ws with
  | [] => []
  | [w] => w
  | w :: ws' => w ++ sep :: join sep ws'
  end.

Lemma join_split sep s : join sep (split_on [sep] s) = s.
Proof.
  induction s as [|c s IH]; [done|]. simpl. unfold is_sep. simpl.
  rewrite orb_false_r. rewrite split_on_span in *.
  destruct (Z.eqb_spec c sep) as [->|]; simpl in *.
  - by rewrite IH.
  - destruct (match (span _ s).2 with [] => [] | _ => _ end); simpl in *; by f_equal.
Qed.

Lemma split_on_no_sep fs s :
  Forall (fun w => Forall (fun c => is_sep fs c = false) w) (split_on fs s).
Proof.
  induction s as [|c s IH]; simpl; [by repeat constructor|].
  destruct (is_sep fs c) eqn:E; [by constructor|].
  destruct (split_on fs s); inversion IH; subst; repeat constructor; done.
Qed.

(** ** The natural order *)

Lemma compare_left_opp a b : compare_left b a = - compare_left a b.
Proof.
  revert b. induction a as [|c a IH]; intros b.
  - destruct b as [|d b]; [done|]. cbn [compare_left hd tl].
    replace (isdigit 0) with false by done. simpl. by destruct (isdigit d).
  - destruct b as [|d b]; cbn [compare_left hd tl].
    + replace (isdigit 0) with false by done. simpl. by destruct (isdigit c).
    + rewrite (andb_comm (negb (isdigit d))).
      destruct (isdigit c), (isdigit d); simpl; try done.
      destruct (Z.ltb_spec c d), (Z.ltb_spec d c); try lia. apply IH.
Qed.

Lemma compare_right_opp bias a b : compare_right (- bias) b a = - compare_right bias a b.
Proof.
  revert bias b. induction a as [|c a IH]; intros bias b.
  - destruct b as [|d b]; [done|]. cbn [compare_right hd tl].
    replace (isdigit 0) with false by done. simpl. by destruct (isdigit d).
  - destruct b as [|d b]; cbn [compare_right hd tl].
    + replace (isdigit 0) with false by done. simpl. by destruct (isdigit c).
    + rewrite (andb_comm (negb (isdigit d))).
      destruct (isdigit c), (isdigit d); simpl; try done.
      rewrite <- IH. f_equal.
      destruct (Z.ltb_spec c d), (Z.ltb_spec d c); try lia;
        destruct (Z.eqb_spec bias 0), (Z.eqb_spec (- bias) 0); lia.
Qed.

Lemma natcmp_digits_opp a b :
  (if isdigit (hd 0 b) && isdigit (hd 0 a) then
     if (hd 0 b =? 48) || (hd 0 a =? 48) then compare_left b a else compare_right 0 b a
   else 0) =
  - (if isdigit (hd 0 a) && isdigit (hd 0 b) then
     if (hd 0 a =? 48) || (hd 0 b =? 48) then compare_left a b else compare_right 0 a b
   else 0).
Proof.
  rewrite andb_comm, orb_comm. destruct (_ && _); [|done].
  destruct (_ || _); [apply compare_left_opp|apply (compare_right_opp 0)].
Qed.

Lemma strnatcmp_go_opp fold fuel a b :
  strnatcmp_go fold fuel b a = option_map Z.opp (strnatcmp_go fold fuel a b).
Proof.
  revert a b. induction fuel as [|fuel IH]; intros a b; [done|].
  cbn [strnatcmp_go]. set (a' := skip_while isspace a). set (b' := skip_while isspace b).
  rewrite natcmp_digits_opp. set (r := if isdigit (hd 0 a') && _ then _ else _).
  assert ((- r =? 0) = (r =? 0)) as -> by bdestr.
  destruct (r =? 0); simpl; [|done]. rewrite andb_comm.
  destruct ((hd 0 a' =? 0) && (hd 0 b' =? 0)); [done|]. set (x := if fold then toupper (hd 0 a') else hd 0 a').
  set (y := if fold then toupper (hd 0 b') else hd 0 b').
  destruct (Z.ltb_spec x y), (Z.ltb_spec y x); try lia; try done; apply IH.
Qed.

Lemma cstr_skip_while p s : cstr s -> cstr (skip_while p s).
Proof.
  induction s as [|c s IH]; simpl; [done|]. intros H. destruct (p c); [|done].
  apply IH. by apply cstr_cons in H as [_ H].
Qed.

Lemma toupper_pos c : byte_ok c -> 0 < toupper c.
Proof.
  unfold byte_ok. intros H. rewrite toupper_ascii by lia. unfold ascii_upper.
  repeat case_match; lia.
Qed.

(** When one side is at its end the round decides. *)
Lemma natcmp_end fold fuel b :
  cstr b -> exists r, strnatcmp_go fold (S fuel) [] b = Some r.
Proof.
  intros Hb. cbn [strnatcmp_go skip_while hd]. replace (isdigit 0) with false by done. simpl.
  apply (cstr_skip_while isspace) in Hb.
  destruct (skip_while isspace b) as [|d b']; simpl; [eauto|].
  apply cstr_cons in Hb as [Hd _]. pose proof (toupper_pos d Hd). unfold byte_ok in Hd.
  destruct (Z.eqb_spec d 0); [lia|]. destruct fold; simpl.
  - replace (toupper 0) with 0 by done. destruct (Z.ltb_spec 0 (toupper d)); [eauto|lia].
  - destruct (Z.ltb_spec 0 d); [eauto|lia].
Qed.

Lemma strnatcmp_go_total fold fuel a b :
  cstr a -> cstr b -> (length a < fuel)%nat -> exists r, strnatcmp_go fold fuel a b = Some r.
Proof.
  revert a b. induction fuel as [|fuel IH]; intros a b Ha Hb Hlt; [lia|].
  destruct (skip_while isspace a) as [|c a'] eqn:Hsk.
  - destruct (natcmp_end fold fuel b Hb) as [r Hr]. exists r. rewrite <- Hr.
    cbn [strnatcmp_go]. by rewrite Hsk.
  - cbn [strnatcmp_go]. pose proof (length_skip_while isspace a) as Hle.
    apply (cstr_skip_while isspace) in Ha, Hb. rewrite Hsk in *. simpl in *.
    apply cstr_cons in Ha as [_ Ha].
    repeat match goal with |- context [if ?x then _ else _] => destruct x; eauto end;
      apply IH; try lia; try done; destruct (skip_while isspace b); try done;
      by apply cstr_cons in Hb as [_ Hb].
Qed.

Lemma strnatcmp_go_mono fold fuel fuel' a b r :
  strnatcmp_go fold fuel a b = Some r -> (fuel <= fuel')%nat ->
  strnatcmp_go fold fuel' a b = Some r.
Proof.
  revert fuel' a b. induction fuel as [|fuel IH]; intros [|fuel'] a b H Hle;
    try done; [lia|].
  cbn [strnatcmp_go] in *.
  repeat match type of H with context [if ?x then _ else _] => destruct x; try done end;
    apply IH; (done || lia).
Qed.

Lemma strnatcmp0_antisym fold a b :
  cstr a -> cstr b ->
  exists r, strnatcmp0 a b fold = Some r /\ strnatcmp0 b a fold = Some (- r).
Proof.
  intros Ha Hb. unfold strnatcmp0.
  destruct (strnatcmp_go_total fold (S (length a)) a b Ha Hb) as [r Hr]; [lia|].
  destruct (strnatcmp_go_total fold (S (length b)) b a Hb Ha) as [r' Hr']; [lia|].
  exists r. split; [done|]. rewrite Hr'. f_equal.
  set (N := S (length a + length b)).
  apply (strnatcmp_go_mono _ _ N) in Hr, Hr'; [|lia..].
  rewrite strnatcmp_go_opp, Hr in Hr'. by simplify_eq/=.
Qed.

(** ** Properties *)

(** For a non-empty destination the bounded copies write exactly the
    truncation to [size - 1] bytes of what the unbounded operation would write,
    so the terminator always fits and the result never exceeds the buffer. *)
Theorem bounded_copies_truncate (dst src : cstring) (size n : nat)
  (Hsize : (length dst < size)%nat) :
  (strlcpy dst src size).1 = take (size - 1) src /\
  (strlcat dst src size).1 = take (size - 1) (dst ++ src) /\
  (strlncat dst src size n).1 = take (size - 1) (dst ++ take n src) /\
  (length (strlcpy dst src size).1 < size)%nat /\
  (length (strlcat dst src size).1 < size)%nat /\
  (length (strlncat dst src size n).1 < size)%nat.
Proof.
  rewrite strlcpy_take, strlcat_take, strlncat_take by lia.
  rewrite !length_take. split_and!; (done || lia).
Qed.

Lemma bounded_copies_truncate_witness :
  (length (str "ab") < 5)%nat /\ (strlcat (str "ab") (str "cdefg") 5).1 = str "abcd".
Proof.
  split; [vm_compute; lia|].
  destruct (bounded_copies_truncate (str "ab") (str "cdefg") 5 3) as (_ & H & _).
  - vm_compute. lia.
  - exact H.
Defined.

(** Iterating [strtoken] over a string visits exactly its non-empty pieces
    between separators, and [strtoken_noskip] all pieces; no piece contains a
    separator, and with one separator the pieces rejoin to the string. *)
Theorem tokenisers_split (s fs : cstring) (sep : Z) :
  strtoken_all s fs = base.filter nonempty (split_on fs s) /\
  strtoken_noskip_all s fs = split_on fs s /\
  Forall (fun w => Forall (fun c => is_sep fs c = false) w) (split_on fs s) /\
  join sep (strtoken_noskip_all s [sep]) = s.
Proof.
  assert (Hns : forall fs, strtoken_noskip_all s fs = split_on fs s)
    by (intros; apply token_loop_noskip; [done|lia]).
  split_and!.
  - apply token_loop_skip; [done|lia].
  - apply Hns.
  - apply split_on_no_sep.
  - rewrite Hns. apply join_split.
Qed.

(** The natural-order comparison always returns, and swapping its arguments
    negates the result. *)
Theorem strnatcmp0_antisymmetric (a b : cstring) (fold_case : bool)
  (Ha : cstr a) (Hb : cstr b) :
  exists r, strnatcmp0 a b fold_case = Some r /\ strnatcmp0 b a fold_case = Some (- r).
Proof. by apply strnatcmp0_antisym. Qed.

Lemma strnatcmp0_antisymmetric_witness :
  exists r, strnatcmp0 (str "v1.10") (str "V1.9") true = Some r /\
            strnatcmp0 (str "V1.9") (str "v1.10") true = Some (- r).
Proof. apply strnatcmp0_antisymmetric; repeat constructor; vm_compute; auto. Defined.
