(* ===== verification/Base64.v ===== *)
(** * Base64 (src/support.c: [b64_encode], [b64_decode], [encode_ip], [decode_ip])

    The encoder writes quanta of four characters into a bounded buffer; the
    decoder is a four-state machine that reassembles the bytes in place in its
    target array.  The round trip is proved for every byte string and every
    sufficient buffer, and lifted to the IP addresses that servers exchange. *)
From S2P Require Import Prelude Chars Strings.

Definition Base64 : cstring :=
  Eval vm_compute in
    str "ABCDEFGHIJKLMNOPQRSTUVWXYZabcdefghijklmnopqrstuvwxyz0123456789+/".
Definition Pad64 : Z := 61.

Definition b64_char (i : Z) : Z := nth (Z.to_nat i) Base64 0.

Definition out0 (i0 : Z) : Z := Z.shiftr i0 2.
Definition out1 (i0 i1 : Z) : Z := Z.shiftl (Z.land i0 3) 4 + Z.shiftr i1 4.
Definition out2 (i1 i2 : Z) : Z := Z.shiftl (Z.land i1 15) 2 + Z.shiftr i2 6.
Definition out3 (i2 : Z) : Z := Z.land i2 63.

(** What is written from [target + datalength] on; [None] is the return of -1. *)
Fixpoint b64_encode_go (targsize datalength : nat) (src : list Z) : option (list Z) :=
  match src with
  | i0 :: i1 :: i2 :: src' =>
      if (targsize <? datalength + 4)%nat then None
      else
        match b64_encode_go targsize (datalength + 4) src' with
        | None => None
        | Some t =>
            Some (b64_char (out0 i0) :: b64_char (out1 i0 i1) ::
                  b64_char (out2 i1 i2) :: b64_char (out3 i2) :: t)
        end
  | [i0; i1] =>
      if (targsize <? datalength + 4)%nat then None
      else if (targsize <=? datalength + 4)%nat then None
      else Some [b64_char (out0 i0); b64_char (out1 i0 i1); b64_char (out2 i1 0); Pad64]
  | [i0] =>
      if (targsize <? datalength + 4)%nat then None
      else if (targsize <=? datalength + 4)%nat then None
      else Some [b64_char (out0 i0); b64_char (out1 i0 0); Pad64; Pad64]
  | [] => if (targsize <=? datalength)%nat then None else Some []
  end.

Definition b64_encode (src : list Z) (targsize : nat) : option (list Z) :=
  b64_encode_go targsize 0 src.

(** [strchr(Base64, ch) - Base64] *)
Fixpoint index_of (c : Z) (l : list Z) : option Z :=
  match l with
  | [] => None
  | d :: l' => if c =? d then Some 0 else option_map Z.succ (index_of c l')
  end.

Definition u8 (x : Z) : Z := x mod 256.

(** A state that writes: nothing for a NULL target; the bounds check; the write. *)
Definition b64_write (target : option (list Z)) (targsize need : nat)
  (f : list Z -> list Z) : option (option (list Z)) :=
  match target with
  | None => Some None
  | Some l => if (targsize <=? need)%nat then None else Some (Some (f l))
  end.

(** [target[i] |= v] *)
Definition or_at (i : nat) (v : Z) (l : list Z) : list Z :=
  <[i := u8 (Z.lor (nth i l 0) v)]> l.

(** One character of the alphabet, at index [pos]: the new target, [tarindex]
    and [state]. *)
Definition b64_step (targsize : nat) (target : option (list Z)) (tarindex : nat)
  (state : nat) (pos : Z) : option (option (list Z) * nat * nat) :=
  match state with
  | 0%nat =>
      match b64_write target targsize tarindex
              (fun l => <[tarindex := u8 (Z.shiftl pos 2)]> l) with
      | None => None
      | Some t => Some (t, tarindex, 1%nat)
      end
  | 1%nat =>
      match b64_write target targsize (tarindex + 1)
              (fun l => <[(tarindex + 1)%nat := u8 (Z.shiftl (Z.land pos 15) 4)]>
                          (or_at tarindex (Z.shiftr pos 4) l)) with
      | None => None
      | Some t => Some (t, S tarindex, 2%nat)
      end
  | 2%nat =>
      match b64_write target targsize (tarindex + 1)
              (fun l => <[(tarindex + 1)%nat := u8 (Z.shiftl (Z.land pos 3) 6)]>
                          (or_at tarindex (Z.shiftr pos 2) l)) with
      | None => None
      | Some t => Some (t, S tarindex, 3%nat)
      end
  | _ =>
      match b64_write target targsize tarindex (or_at tarindex pos) with
      | None => None
      | Some t => Some (t, S tarindex, 0%nat)
      end
  end.

(** After a pad character: what may follow in each state. *)
Fixpoint only_spaces (src : cstring) : bool :=
  match src with
  | [] => true
  | c :: src' => isspace c && only_spaces src'
  end.

Fixpoint skip_spaces (src : cstring) : cstring :=
  match src with
  | c :: src' => if isspace c then skip_spaces src' else src
  | [] => []
  end.

Definition b64_padding (target : option (list Z)) (tarindex state : nat) (src : cstring)
  : option (nat * option (list Z)) :=
  let extra_bits :=
    match target with Some l => negb (nth tarindex l 0 =? 0) | None => false end in
  match state with
  | 2%nat =>
      match skip_spaces src with
      | c :: src' =>
          if negb (c =? Pad64) then None
          else if negb (only_spaces src') then None
          else if extra_bits then None
          else Some (tarindex, target)
      | [] => None
      end
  | 3%nat =>
      if negb (only_spaces src) then None
      else if extra_bits then None
      else Some (tarindex, target)
  | _ => None
  end.

Fixpoint b64_decode_go (targsize : nat) (target : option (list Z)) (tarindex state : nat)
  (src : cstring) : option (nat * option (list Z)) :=
  match src with
  | [] => if negb (state =? 0)%nat then None else Some (tarindex, target)
  | ch :: src' =>
      if isspace ch then b64_decode_go targsize target tarindex state src'
      else if ch =? Pad64 then b64_padding target tarindex state src'
      else
        match index_of ch Base64 with
        | None => None
        | Some pos =>
            match b64_step targsize target tarindex state pos with
            | None => None
            | Some (target', tarindex', state') =>
                b64_decode_go targsize target' tarindex' state' src'
            end
        end
  end.

Definition b64_decode (src : cstring) (target : option (list Z)) (targsize : nat)
  : option (nat * option (list Z)) :=
  b64_decode_go targsize target 0 0 src.

(** ** IP addresses on the wire

    [inet_pton] and [inet_ntop] are the C library's: parameters that give the
    bytes written to [addrbuf] and the printed form. *)

Inductive family := AF_INET | AF_INET6.

(** [strstr(tmp, "::")] *)
Fixpoint has_double_colon (s : cstring) : bool :=
  match s with
  | c :: s' => ((c =? ch_colon) && (hd 0 s' =? ch_colon)) || has_double_colon s'
  | [] => false
  end.

(** The first loop of [inetntop]: the groups that are present. *)
Fixpoint count_groups (cnt : Z) (s : cstring) : Z :=
  match s with
  | [] => cnt
  | c :: s' =>
      let cnt := if c =? ch_colon then cnt + 1 else cnt in
      if c =? 46 then cnt + 1 else count_groups cnt s'
  end.

(** [while (cnt++ < 7) { *op++ = ':'; *op++ = '0'; }] *)
Definition zero_groups (cnt : Z) : cstring :=
  concat (replicate (Z.to_nat (7 - cnt)) [ch_colon; 48]).

(** The second loop; [first] says that [cp] is still at [tmp].  After the
    insertion [cnt] is past 7 and stays there. *)
Fixpoint expand_groups (first : bool) (cnt : Z) (s : cstring) : cstring :=
  match s with
  | [] => []
  | c :: s' =>
      if (c =? ch_colon) && (hd 0 s' =? ch_colon) then
        (if first then [48; ch_colon] else [c]) ++ [48] ++ zero_groups cnt
        ++ expand_groups false (Z.max 7 cnt + 1) s'
      else c :: expand_groups false cnt s'
  end.

Section ip.
Variable inet_pton : family -> cstring -> list Z.
Variable inet_ntop : family -> list Z -> cstring.

Definition inetntop (af : family) (addr : list Z) (out : cstring) (size : nat) : cstring :=
  let tmp := inet_ntop af addr in
  if negb (has_double_colon tmp) then (strlcpy out tmp size).1
  else
    let out := expand_groups true (count_groups 0 tmp) tmp in
    if bool_decide (last out = Some ch_colon) then out ++ [48] else out.

(** The prefix of an IPv4 address carried in IPv6. *)
Definition v4_mapped (addrbuf : list Z) : bool :=
  bool_decide (take 12 addrbuf = replicate 10 0 ++ [255; 255]).

(** [retbuf] is the static buffer, whose old contents a failed encoding leaves. *)
Definition encode_ip (retbuf : cstring) (ip : option cstring) : cstring :=
  match ip with
  | None => str "*"
  | Some ip =>
      let payload :=
        if existsb (Z.eqb ch_colon) ip then
          let addrbuf := inet_pton AF_INET6 ip in
          if v4_mapped addrbuf then take 4 (drop 12 addrbuf) else take 16 addrbuf
        else take 4 (inet_pton AF_INET ip) in
      default retbuf (b64_encode payload 25)
  end.

(** [targ] is the uninitialised local array of 25 bytes. *)
Definition decode_ip (targ result buf : cstring) : option cstring :=
  match b64_decode buf (Some targ) 25 with
  | Some (4%nat, Some t) => Some (inetntop AF_INET (take 4 t) result 64)
  | Some (16%nat, Some t) => Some (inetntop AF_INET6 (take 16 t) result 64)
  | _ => None
  end.
End ip.

Example b64_ex :
  b64_encode [77; 97; 110; 33] 25 = Some (str "TWFuIQ==") /\
  option_map fst (b64_decode (str "TWFu IQ==") (Some (replicate 25 7)) 25) = Some 4%nat.
Proof. split; reflexivity. Qed.

(** ** Bits *)

Lemma lor_add k a b : 0 <= k -> 0 <= b < 2 ^ k -> Z.lor (a * 2 ^ k) b = a * 2 ^ k + b.
Proof.
  intros Hk Hb. rewrite <- Z.add_lor_land.
  enough (Z.land (a * 2 ^ k) b = 0) as -> by lia.
  apply Z.bits_inj'. intros n Hn. rewrite Z.land_spec, Z.bits_0.
  destruct (Z.lt_ge_cases n k).
  - by rewrite Z.mul_pow2_bits_low.
  - rewrite andb_false_iff. right. rewrite <- (Z.mod_small b (2 ^ k)) by lia.
    apply Z.mod_pow2_bits_high. lia.
Qed.

(** Shifts and masks by constants as quotients and remainders. *)
Lemma land_3 a : Z.land a 3 = a mod 4.
Proof. exact (Z.land_ones a 2 ltac:(lia)). Qed.
Lemma land_15 a : Z.land a 15 = a mod 16.
Proof. exact (Z.land_ones a 4 ltac:(lia)). Qed.
Lemma land_63 a : Z.land a 63 = a mod 64.
Proof. exact (Z.land_ones a 6 ltac:(lia)). Qed.

Ltac bits_to_arith :=
  rewrite ?Z.shiftr_div_pow2, ?Z.shiftl_mul_pow2, ?land_3, ?land_15, ?land_63 by lia;
  change (2 ^ 2) with 4 in *; change (2 ^ 4) with 16 in *; change (2 ^ 6) with 64 in *.

Definition octet (x : Z) : Prop := 0 <= x < 256.

Lemma out_range i0 i1 i2 :
  octet i0 -> octet i1 -> octet i2 ->
  0 <= out0 i0 < 64 /\ 0 <= out1 i0 i1 < 64 /\ 0 <= out2 i1 i2 < 64 /\ 0 <= out3 i2 < 64.
Proof.
  unfold octet, out0, out1, out2, out3. intros. bits_to_arith.
  Z.to_euclidean_division_equations. lia.
Qed.

(** The three bytes that the decoder assembles from an encoded quantum. *)
Lemma quantum_bytes i0 i1 i2 :
  octet i0 -> octet i1 -> octet i2 ->
  u8 (Z.lor (u8 (Z.shiftl (out0 i0) 2)) (Z.shiftr (out1 i0 i1) 4)) = i0 /\
  u8 (Z.lor (u8 (Z.shiftl (Z.land (out1 i0 i1) 15) 4)) (Z.shiftr (out2 i1 i2) 2)) = i1 /\
  u8 (Z.lor (u8 (Z.shiftl (Z.land (out2 i1 i2) 3) 6)) (out3 i2)) = i2.
Proof.
  unfold octet, u8, out0, out1, out2, out3. intros. bits_to_arith.
  assert (Hs : forall x, 0 <= x < 256 -> x mod 256 = x) by (intros; by apply Z.mod_small).
  split_and!.
  - rewrite (Hs (i0 / 4 * 4)) by (Z.to_euclidean_division_equations; lia).
    rewrite (lor_add 2) by (Z.to_euclidean_division_equations; lia).
    change (2 ^ 2) with 4. rewrite Hs; Z.to_euclidean_division_equations; lia.
  - rewrite (Hs (_ * 16)) by (Z.to_euclidean_division_equations; lia).
    rewrite (lor_add 4) by (Z.to_euclidean_division_equations; lia).
    change (2 ^ 4) with 16. rewrite Hs; Z.to_euclidean_division_equations; lia.
  - rewrite (Hs (_ * 64)) by (Z.to_euclidean_division_equations; lia).
    rewrite (lor_add 6) by (Z.to_euclidean_division_equations; lia).
    change (2 ^ 6) with 64. rewrite Hs; Z.to_euclidean_division_equations; lia.
Qed.

(** ** The alphabet *)

Lemma b64_char_ok i :
  0 <= i < 64 ->
  index_of (b64_char i) Base64 = Some i /\ isspace (b64_char i) = false /\
  (b64_char i =? Pad64) = false.
Proof.
  intros Hi.
  assert (H : implb (i <? 64)
    (bool_decide (index_of (b64_char i) Base64 = Some i) && negb (isspace (b64_char i))
     && negb (b64_char i =? Pad64)) = true).
  { assert (Hb : 0 <= i < 256) by lia. clear Hi. revert i Hb.
    apply (byte_forall (fun i => implb (i <? 64)
      (bool_decide (index_of (b64_char i) Base64 = Some i) && negb (isspace (b64_char i))
       && negb (b64_char i =? Pad64)))). vm_compute. reflexivity. }
  destruct (Z.ltb_spec i 64); [|lia]. simpl in H.
  rewrite !andb_true_iff, !negb_true_iff, bool_decide_eq_true in H. tauto.
Qed.

Lemma decode_char ts target ti st i rest :
  0 <= i < 64 ->
  b64_decode_go ts target ti st (b64_char i :: rest) =
  match b64_step ts target ti st i with
  | None => None
  | Some (target', ti', st') => b64_decode_go ts target' ti' st' rest
  end.
Proof.
  intros Hi. destruct (b64_char_ok i Hi) as (H1 & H2 & H3).
  cbn [b64_decode_go]. by rewrite H2, H3, H1.
Qed.

(** ** Decoding one quantum *)

Lemma nth_insert_eq (l : list Z) i x : (i < length l)%nat -> nth i (<[i := x]> l) 0 = x.
Proof. intros H. by rewrite nth_lookup, list_lookup_insert_eq. Qed.

Lemma take_insert_snoc (l : list Z) t x done :
  (t < length l)%nat -> take t l = done ->
  take (S t) (<[t := x]> l) = done ++ [x] /\ length (<[t := x]> l) = length l.
Proof.
  intros Hlt <-. rewrite length_insert. split; [|done].
  rewrite (take_S_r _ _ x) by by apply list_lookup_insert_eq.
  by rewrite take_insert_ge by lia.
Qed.

Section quantum.
Variables (ts t : nat) (l : list Z) (i0 i1 i2 : Z).
Hypothesis (Hlen : length l = ts) (H0 : octet i0) (H1 : octet i1) (H2 : octet i2).

(** The target after two, three and four characters. *)
Definition after2 : list Z :=
  <[(t + 1)%nat := u8 (Z.shiftl (Z.land (out1 i0 i1) 15) 4)]> (<[t := i0]> l).
Definition after3 : list Z :=
  <[(t + 2)%nat := u8 (Z.shiftl (Z.land (out2 i1 i2) 3) 6)]> (<[(t + 1)%nat := i1]> after2).
Definition after4 : list Z := <[(t + 2)%nat := i2]> after3.

Lemma decode_two rest :
  (t + 1 < ts)%nat ->
  b64_decode_go ts (Some l) t 0 (b64_char (out0 i0) :: b64_char (out1 i0 i1) :: rest) =
  b64_decode_go ts (Some after2) (S t) 2 rest.
Proof.
  intros Hts. destruct (out_range i0 i1 i2 H0 H1 H2) as (R0 & R1 & R2 & R3).
  destruct (quantum_bytes i0 i1 i2 H0 H1 H2) as (Q0 & Q1 & Q2).
  rewrite decode_char by done. cbn [b64_step b64_write].
  destruct (Nat.leb_spec ts t); [lia|].
  rewrite decode_char by done. cbn [b64_step b64_write].
  destruct (Nat.leb_spec ts (t + 1)); [lia|].
  unfold or_at. rewrite nth_insert_eq by lia. rewrite Q0, list_insert_insert_eq. done.
Qed.

Lemma decode_third rest :
  (t + 2 < ts)%nat ->
  b64_decode_go ts (Some after2) (S t) 2 (b64_char (out2 i1 i2) :: rest) =
  b64_decode_go ts (Some after3) (S (S t)) 3 rest.
Proof.
  intros Hts. destruct (out_range i0 i1 i2 H0 H1 H2) as (R0 & R1 & R2 & R3).
  destruct (quantum_bytes i0 i1 i2 H0 H1 H2) as (Q0 & Q1 & Q2).
  rewrite decode_char by done. cbn [b64_step b64_write].
  destruct (Nat.leb_spec ts (S t + 1)); [lia|].
  unfold or_at, after3, after2. replace (S t + 1)%nat with (t + 2)%nat by lia.
  replace (S t) with (t + 1)%nat by lia.
  rewrite nth_insert_eq by (rewrite length_insert; lia). by rewrite Q1.
Qed.

Lemma decode_fourth rest :
  (t + 2 < ts)%nat ->
  b64_decode_go ts (Some after3) (S (S t)) 3 (b64_char (out3 i2) :: rest) =
  b64_decode_go ts (Some after4) (S (S (S t))) 0 rest.
Proof.
  intros Hts. destruct (out_range i0 i1 i2 H0 H1 H2) as (R0 & R1 & R2 & R3).
  destruct (quantum_bytes i0 i1 i2 H0 H1 H2) as (Q0 & Q1 & Q2).
  rewrite decode_char by done. cbn [b64_step b64_write].
  destruct (Nat.leb_spec ts (S (S t))); [lia|].
  unfold or_at, after4, after3. replace (S (S t)) with (t + 2)%nat by lia.
  rewrite nth_insert_eq by (unfold after2; rewrite !length_insert; lia).
  by rewrite Q2, list_insert_insert_eq.
Qed.

Lemma after_prefix done :
  take t l = done -> (t + 1 < ts)%nat ->
  take (S t) after2 = done ++ [i0] /\ length after2 = ts /\
  ((t + 2 < ts)%nat ->
   take (S (S t)) after3 = done ++ [i0; i1] /\ length after3 = ts /\
   take (S (S (S t))) after4 = done ++ [i0; i1; i2] /\ length after4 = ts).
Proof.
  intros Hd Hts.
  destruct (take_insert_snoc l t i0 done) as [T0 L0]; [lia|done|].
  assert (T2 : take (S t) after2 = done ++ [i0]).
  { unfold after2. by rewrite take_insert_ge by lia. }
  assert (L2 : length after2 = ts) by (unfold after2; rewrite !length_insert; lia).
  split_and!; [done..|]. intros Hts2. replace (t + 1)%nat with (S t) in * by lia.
  destruct (take_insert_snoc after2 (S t) i1 (done ++ [i0])) as [T1 L1]; [lia|done|].
  assert (T3 : take (S (S t)) after3 = done ++ [i0; i1]).
  { unfold after3. rewrite take_insert_ge by lia. replace (t + 1)%nat with (S t) by lia.
    by rewrite T1, <- app_assoc. }
  assert (L3 : length after3 = ts) by (unfold after3; rewrite !length_insert; lia).
  destruct (take_insert_snoc after3 (S (S t)) i2 (done ++ [i0; i1])) as [T4 L4]; [lia|done|].
  split_and!; [done..| |].
  - unfold after4. replace (t + 2)%nat with (S (S t)) by lia. by rewrite T4, <- app_assoc.
  - unfold after4. rewrite length_insert. lia.
Qed.
End quantum.

(** ** Round trip *)

Lemma b64_roundtrip_go n src targsize dl ts t l done :
  (length src <= n)%nat -> Forall octet src ->
  (dl + 4 * ((length src + 2) / 3) < targsize)%nat ->
  length l = ts -> take t l = done -> (t + length src < ts)%nat ->
  exists e l',
    b64_encode_go targsize dl src = Some e /\
    length e = (4 * ((length src + 2) / 3))%nat /\
    b64_decode_go ts (Some l) t 0 e = Some ((t + length src)%nat, Some l') /\
    take (t + length src) l' = done ++ src.
Proof.
  revert src dl t l done. induction n as [n IH] using lt_wf_ind.
  intros src dl t l done Hn Hoct Hsz Hl Hd Hts.
  assert (O0 : octet 0) by (unfold octet; lia).
  destruct src as [|i0 [|i1 [|i2 src]]]; cbn [length b64_encode_go] in *.
  - destruct (Nat.leb_spec targsize dl) as [|]; [simpl in Hsz; lia|].
    exists [], l. rewrite Nat.add_0_r, app_nil_r. done.
  - inversion Hoct as [|? ? O1 _]; subst. change ((1 + 2) / 3)%nat with 1%nat in *.
    destruct (Nat.ltb_spec targsize (dl + 4)); [lia|].
    destruct (Nat.leb_spec targsize (dl + 4)); [lia|].
    destruct (after_prefix _ t l i0 0 0 eq_refl (take t l) eq_refl) as (T & _ & _); [lia|].
    eexists _, (after2 t l i0 0). split_and!; [done|done| |].
    + rewrite (decode_two _ _ _ _ _ 0 eq_refl O1 O0 O0) by lia.
      cbn. unfold after2. rewrite Nat.add_1_r, nth_insert_eq by (rewrite length_insert; lia).
      replace (u8 _) with 0; [done|]. unfold u8, out1. bits_to_arith. simpl.
      Z.to_euclidean_division_equations. lia.
    + by rewrite Nat.add_1_r.
  - inversion Hoct as [|? ? O1 Hoct']; subst. inversion Hoct' as [|? ? O2 _]; subst.
    change ((2 + 2) / 3)%nat with 1%nat in *.
    destruct (Nat.ltb_spec targsize (dl + 4)); [lia|].
    destruct (Nat.leb_spec targsize (dl + 4)); [lia|].
    destruct (after_prefix _ t l i0 i1 0 eq_refl (take t l) eq_refl) as (_ & _ & T); [lia|].
    destruct T as (T & _ & _); [lia|].
    eexists _, (after3 t l i0 i1 0). split_and!; [done|done| |].
    + rewrite (decode_two _ _ _ _ _ 0 eq_refl O1 O2 O0) by lia.
      rewrite (decode_third _ _ _ _ _ _ eq_refl O1 O2 O0) by lia.
      cbn. unfold after3, after2. replace (t + 2)%nat with (S (S t)) by lia.
      rewrite nth_insert_eq by (rewrite !length_insert; lia).
      replace (u8 _) with 0; [done|]. unfold u8, out2. bits_to_arith. simpl.
      Z.to_euclidean_division_equations. lia.
    + by replace (t + 2)%nat with (S (S t)) by lia.
  - rewrite !Forall_cons in Hoct. destruct Hoct as (O1 & O2 & O3 & Hoct).
    assert (Hdiv : ((S (S (S (length src))) + 2) / 3 = S ((length src + 2) / 3))%nat).
    { replace (S (S (S (length src))) + 2)%nat with (1 * 3 + (length src + 2))%nat by lia.
      rewrite Nat.div_add_l by lia. lia. }
    rewrite Hdiv in *. destruct (Nat.ltb_spec targsize (dl + 4)); [lia|].
    destruct (after_prefix _ t l i0 i1 i2 Hl done Hd) as (_ & _ & T); [lia|].
    destruct T as (_ & _ & T4 & L4); [lia|].
    destruct (IH (length src)) with (src := src) (dl := (dl + 4)%nat) (t := S (S (S t)))
      (l := after4 t l i0 i1 i2) (done := done ++ [i0; i1; i2])
      as (e & l' & -> & He & Hdec & Htake); try done; try lia.
    eexists _, l'. split_and!; [done|cbn [length]; lia| |].
    + rewrite (decode_two _ _ _ _ _ i2 Hl O1 O2 O3) by lia.
      rewrite (decode_third _ _ _ _ _ _ Hl O1 O2 O3) by lia.
      rewrite (decode_fourth _ _ _ _ _ _ Hl O1 O2 O3) by lia.
      rewrite Hdec. do 2 f_equal. lia.
    + replace (t + S (S (S (length src))))%nat with (S (S (S t)) + length src)%nat by lia.
      by rewrite Htake, <- app_assoc.
Qed.

Lemma b64_roundtrip_any src targsize targ ts :
  Forall octet src -> (4 * ((length src + 2) / 3) < targsize)%nat ->
  length targ = ts -> (length src < ts)%nat ->
  exists e t,
    b64_encode src targsize = Some e /\
    length e = (4 * ((length src + 2) / 3))%nat /\
    b64_decode e (Some targ) ts = Some (length src, Some t) /\
    take (length src) t = src.
Proof.
  intros Ho Hs Hl Hn.
  destruct (b64_roundtrip_go (length src) src targsize 0 ts 0 targ [])
    as (e & t & H1 & H2 & H3 & H4); try done.
  eauto 10.
Qed.

(** ** Properties *)

(** Every byte string survives encoding and decoding: with an output buffer
    one byte larger than the four characters per started group of three bytes,
    and a decoding buffer longer than the data, the decoder returns the length
    of the data and its first bytes are the data. *)
Theorem b64_roundtrip (src targ : list Z) (targsize ts : nat)
  (Hsrc : Forall octet src) (Hout : (4 * ((length src + 2) / 3) < targsize)%nat)
  (Htarg : length targ = ts) (Hin : (length src < ts)%nat) :
  exists e t,
    b64_encode src targsize = Some e /\
    length e = (4 * ((length src + 2) / 3))%nat /\
    b64_decode e (Some targ) ts = Some (length src, Some t) /\
    take (length src) t = src.
Proof. by apply b64_roundtrip_any. Qed.

Lemma b64_roundtrip_witness :
  exists e t, b64_encode [255; 0; 16; 9] 25 = Some e /\ length e = 8%nat /\
    b64_decode e (Some (replicate 25 170)) 25 = Some (4%nat, Some t) /\ take 4 t = [255; 0; 16; 9].
Proof.
  apply (b64_roundtrip [255; 0; 16; 9] (replicate 25 170) 25 25);
    [repeat constructor; vm_compute; intuition discriminate|vm_compute; lia|reflexivity|simpl; lia].
Defined.

(** The IP address a server sends to its peers with [encode_ip] is the one
    they read with [decode_ip]: an IPv4 address, or an IPv4 address mapped into
    IPv6, comes back as the IPv4 address, any other IPv6 address as itself. *)
Theorem ip_wire_roundtrip
  (inet_pton : family -> cstring -> list Z) (inet_ntop : family -> list Z -> cstring)
  (retbuf targ result ip : cstring)
  (H4 : forall s, length (inet_pton AF_INET s) = 4%nat /\ Forall octet (inet_pton AF_INET s))
  (H6 : forall s, length (inet_pton AF_INET6 s) = 16%nat /\ Forall octet (inet_pton AF_INET6 s))
  (Htarg : length targ = 25%nat) :
  decode_ip inet_ntop targ result (encode_ip inet_pton retbuf (Some ip)) =
  Some (if existsb (Z.eqb ch_colon) ip then
          if v4_mapped (inet_pton AF_INET6 ip)
          then inetntop inet_ntop AF_INET (drop 12 (inet_pton AF_INET6 ip)) result 64
          else inetntop inet_ntop AF_INET6 (inet_pton AF_INET6 ip) result 64
        else inetntop inet_ntop AF_INET (inet_pton AF_INET ip) result 64).
Proof.
  destruct (H4 ip) as [L4 O4], (H6 ip) as [L6 O6]. unfold encode_ip.
  assert (Hcase : forall payload k, length payload = k -> Forall octet payload ->
    (4 * ((k + 2) / 3) < 25)%nat -> (k < 25)%nat ->
    exists e t, b64_encode payload 25 = Some e /\
      b64_decode e (Some targ) 25 = Some (k, Some t) /\ take k t = payload).
  { intros p k <- Hp Hk Hk'.
    destruct (b64_roundtrip_any p 25 targ 25) as (e & t & ? & _ & ? & ?); eauto 10. }
  destruct (existsb _ ip); [destruct (v4_mapped _)|].
  - destruct (Hcase (take 4 (drop 12 (inet_pton AF_INET6 ip))) 4%nat) as (e & t & -> & He & Ht).
    + rewrite length_take, length_drop. lia.
    + apply Forall_take, Forall_drop, O6.
    + simpl. lia.
    + lia.
    + unfold decode_ip. simpl. rewrite He, Ht, take_ge by (rewrite length_drop; lia). done.
  - destruct (Hcase (take 16 (inet_pton AF_INET6 ip)) 16%nat) as (e & t & -> & He & Ht).
    + rewrite length_take. lia.
    + apply Forall_take, O6.
    + vm_compute. lia.
    + lia.
    + unfold decode_ip. simpl. rewrite He, Ht, take_ge by lia. done.
  - destruct (Hcase (take 4 (inet_pton AF_INET ip)) 4%nat) as (e & t & -> & He & Ht).
    + rewrite length_take. lia.
    + apply Forall_take, O4.
    + simpl. lia.
    + lia.
    + unfold decode_ip. simpl. rewrite He, Ht, take_ge by lia. done.
Qed.

Lemma ip_wire_roundtrip_witness :
  let pton af (_ : cstring) :=
    match af with AF_INET => [10; 0; 0; 1] | AF_INET6 => replicate 10 0 ++ [255; 255; 10; 0; 0; 1] end in
  let ntop (_ : family) (_ : list Z) := str "10.0.0.1" in
  decode_ip ntop (replicate 25 0) [] (encode_ip pton [] (Some (str "::ffff:10.0.0.1"))) =
  Some (inetntop ntop AF_INET [10; 0; 0; 1] [] 64).
Proof.
  apply (ip_wire_roundtrip
    (fun af _ => match af with AF_INET => [10; 0; 0; 1]
                 | AF_INET6 => replicate 10 0 ++ [255; 255; 10; 0; 0; 1] end)
    (fun _ _ => str "10.0.0.1") [] (replicate 25 0) [] (str "::ffff:10.0.0.1"));
    [intros; split; [reflexivity|repeat constructor; vm_compute; intuition discriminate]..|reflexivity].
Defined.
