(* ===== verification/Utf8.v ===== *)
(** * UTF-8 (src/utf8.c)

    [fast_validate] scans a string for the first ill-formed sequence;
    [unrl_utf8_make_valid] rebuilds a string with U+FFFD for each offending byte
    in a bounded buffer and cuts the result at a character boundary.  Validity is
    specified independently of the code, as RFC 3629 does: the concatenation of
    the encodings of Unicode scalar values. *)
From S2P Require Import Prelude Chars Strings.

(** [VALIDATE_BYTE(mask, expect)] at the byte [s] points to. *)
Definition validate_byte (mask expect : Z) (s : cstring) : bool :=
  Z.land (hd 0 s) mask =? expect.

(** The body of the scan for a lead byte of at least 128: the length of the
    sequence, or [None] for the jump to [error]. *)
Definition validate_seq (s : cstring) : option nat :=
  let c := hd 0 s in
  if c <? 224 then
    if c <? 194 then None
    else if validate_byte 192 128 (drop 1 s) then Some 2%nat else None
  else if c <? 240 then
    let low := Z.land c 15 in
    if (if low =? 0 then validate_byte 224 160 (drop 1 s)
        else if low =? 13 then validate_byte 224 128 (drop 1 s)
        else validate_byte 192 128 (drop 1 s))
    then if validate_byte 192 128 (drop 2 s) then Some 3%nat else None
    else None
  else if c <? 245 then
    let low := Z.land c 7 in
    if (if low =? 0 then
          validate_byte 192 128 (drop 1 s) && negb (Z.land (hd 0 (drop 1 s)) 48 =? 0)
        else if low =? 4 then validate_byte 240 128 (drop 1 s)
        else validate_byte 192 128 (drop 1 s))
    then
      if validate_byte 192 128 (drop 2 s)
      then if validate_byte 192 128 (drop 3 s) then Some 4%nat else None
      else None
    else None
  else None.

(** The scan, as the suffix at which it stops: the first ill-formed sequence or
    the end of the string. *)
Fixpoint fast_validate_go (fuel : nat) (s : cstring) : cstring :=
  match fuel with
  | O => s
  | S fuel' =>
      match s with
      | [] => []
      | c :: s' =>
          if c <? 128 then fast_validate_go fuel' s'
          else
            match validate_seq s with
            | Some n => fast_validate_go fuel' (drop n s)
            | None => s
            end
      end
  end.

Definition fast_validate (s : cstring) : cstring := fast_validate_go (length s) s.

(** The result and the value of [*end]. *)
Definition unrl_utf8_validate (s : cstring) : bool * cstring :=
  let p := fast_validate s in
  (match p with [] => true | _ => false end, p).

Definition is_cont (c : Z) : bool := Z.land c 192 =? 128.

(** [unrl_utf8_find_prev_char(begin, p)] where [pre] holds the bytes from
    [begin] up to [p]: the offset of the last one that is not a continuation. *)
Fixpoint find_prev_from (pre : cstring) (i : nat) : option nat :=
  match i with
  | O => None
  | S i' => if is_cont (nth i' pre 0) then find_prev_from pre i' else Some i'
  end.

Definition unrl_utf8_find_prev_char (pre : cstring) : option nat :=
  find_prev_from pre (length pre).

(** [char *cut_at = find_prev_char(...); if (cut_at) *cut_at = '\0';] *)
Definition cut_prev_char (out : cstring) : cstring :=
  match unrl_utf8_find_prev_char out with
  | Some i => take i out
  | None => out
  end.

Definition replacement : cstring := [239; 191; 189].

(** The loop of [unrl_utf8_make_valid]: the output buffer and [replaced]. *)
Fixpoint make_valid_loop (fuel : nat) (s : cstring) (size strictlen : nat)
  (out remainder : cstring) (replaced : bool) : cstring * bool :=
  match fuel with
  | O => (out, replaced)
  | S fuel' =>
      match remainder with
      | [] => (out, replaced)
      | _ =>
          let '(valid, invalid) := unrl_utf8_validate remainder in
          if valid then
            if negb replaced then
              if negb (strictlen =? 0)%nat then ((strlcpy out s size).1, true)
              else (out, replaced)
            else ((strlcat out remainder size).1, replaced)
          else
            let valid_bytes := (length remainder - length invalid)%nat in
            let out := (strlncat out remainder size valid_bytes).1 in
            let out := (strlcat out replacement size).1 in
            make_valid_loop fuel' s size strictlen out (tl invalid) true
      end
  end.

(** [strchr(out, ' ')] followed by [p++]: the offset of what comes after. *)
Fixpoint after_space (i : nat) (s : cstring) : option nat :=
  match s with
  | [] => None
  | c :: s' => if c =? ch_space then Some (S i) else after_space (S i) s'
  end.

(** The special cut for [strictlen == 2]: 511 bytes after the message tags.
    [Some] is the truncated line with [fix_line] set. *)
Definition line_cut (out : cstring) : option cstring :=
  if hd 0 out =? ch_at then
    match after_space 0 out with
    | Some p => if (511 <? length out - p)%nat then Some (take (p + 511) out) else None
    | None => None
    end
  else if (511 <? length out)%nat then Some (take 511 out)
  else None.

(** [None] for a NULL result. *)
Definition unrl_utf8_make_valid (s : option cstring) (size strictlen : nat)
  : option cstring :=
  match s with
  | None => None
  | Some s =>
      if (size =? 0)%nat then None
      else
        let '(out, replaced) := make_valid_loop (S (length s)) s size strictlen [] s false in
        if negb replaced then Some s
        else
          match (if (strictlen =? 2)%nat then line_cut out else None) with
          | Some cut => Some (cut_prev_char cut)
          | None =>
              if (length out =? size - 1)%nat then Some (cut_prev_char out) else Some out
          end
  end.

(** The new message and length; the search starts at [msg[len]]. *)
Definition utf8_valid_cutoff (msg : cstring) (len : nat) : cstring * nat :=
  match find_prev_from msg (len + 1) with
  | Some i => (take i msg, i)
  | None => (msg, len)
  end.

(** ** Well-formed UTF-8 (RFC 3629) *)

Definition scalar (cp : Z) : Prop := 0 < cp < 55296 \/ 57343 < cp < 1114112.

Definition utf8_enc (cp : Z) : cstring :=
  if cp <? 128 then [cp]
  else if cp <? 2048 then [192 + cp / 64; 128 + cp mod 64]
  else if cp <? 65536 then [224 + cp / 4096; 128 + cp / 64 mod 64; 128 + cp mod 64]
  else [240 + cp / 262144; 128 + cp / 4096 mod 64; 128 + cp / 64 mod 64; 128 + cp mod 64].

Definition utf8_text (cps : list Z) : cstring := concat (map utf8_enc cps).

Definition valid_utf8 (s : cstring) : Prop := exists cps, Forall scalar cps /\ s = utf8_text cps.

Example utf8_ex :
  (unrl_utf8_validate (utf8_text [104; 233; 8364; 128512])).1 = true /\
  unrl_utf8_make_valid (Some [97; 255; 98; 226; 130]) 100 0
    = Some ([97] ++ replacement ++ [98] ++ replacement ++ replacement).
Proof. vm_compute. auto. Qed.

(** ** Masks as ranges *)

Lemma mask_range (f : Z -> bool) lo hi :
  forallb (fun c => eqb (f c) ((lo <=? c) && (c <=? hi))) (seqZ 0 256) = true ->
  forall c, 0 <= c < 256 -> f c = true <-> lo <= c <= hi.
Proof.
  intros H c Hc. apply (byte_forall _ H) in Hc. apply eqb_prop in Hc. rewrite Hc.
  rewrite andb_true_iff, !Z.leb_le. done.
Qed.

Ltac range := apply mask_range; vm_compute; reflexivity.

Lemma cont_range c : 0 <= c < 256 -> (Z.land c 192 =? 128) = true <-> 128 <= c <= 191.
Proof. revert c. range. Qed.
Lemma e0_range c : 0 <= c < 256 -> (Z.land c 224 =? 160) = true <-> 160 <= c <= 191.
Proof. revert c. range. Qed.
Lemma ed_range c : 0 <= c < 256 -> (Z.land c 224 =? 128) = true <-> 128 <= c <= 159.
Proof. revert c. range. Qed.
Lemma f4_range c : 0 <= c < 256 -> (Z.land c 240 =? 128) = true <-> 128 <= c <= 143.
Proof. revert c. range. Qed.
Lemma f0_range c :
  0 <= c < 256 ->
  (Z.land c 192 =? 128) && negb (Z.land c 48 =? 0) = true <-> 144 <= c <= 191.
Proof.
  revert c. apply (mask_range (fun c => (Z.land c 192 =? 128) && negb (Z.land c 48 =? 0))).
  vm_compute. reflexivity.
Qed.

Lemma low4 c : 224 <= c < 240 -> Z.land c 15 = c - 224.
Proof.
  intros Hc. assert (H : implb ((224 <=? c) && (c <? 240)) (Z.land c 15 =? c - 224) = true).
  { assert (Hb : 0 <= c < 256) by lia. revert c Hc Hb. intros c _. revert c.
    apply (byte_forall (fun c => implb ((224 <=? c) && (c <? 240)) (Z.land c 15 =? c - 224))).
    vm_compute. reflexivity. }
  lia.
Qed.

Lemma low3 c : 240 <= c < 245 -> Z.land c 7 = c - 240.
Proof.
  intros Hc. assert (H : implb ((240 <=? c) && (c <? 245)) (Z.land c 7 =? c - 240) = true).
  { assert (Hb : 0 <= c < 256) by lia. revert c Hc Hb. intros c _. revert c.
    apply (byte_forall (fun c => implb ((240 <=? c) && (c <? 245)) (Z.land c 7 =? c - 240))).
    vm_compute. reflexivity. }
  lia.
Qed.

(** The byte ranges of the table in RFC 3629, section 4. *)
Definition seq_ranges (s : cstring) (n : nat) : Prop :=
  let c := hd 0 s in
  let d := hd 0 (drop 1 s) in
  let e := hd 0 (drop 2 s) in
  let f := hd 0 (drop 3 s) in
  (n = 2%nat /\ 194 <= c <= 223 /\ 128 <= d <= 191) \/
  (n = 3%nat /\ (c = 224 /\ 160 <= d <= 191 \/ c = 237 /\ 128 <= d <= 159 \/
                 225 <= c <= 239 /\ c <> 237 /\ 128 <= d <= 191) /\ 128 <= e <= 191) \/
  (n = 4%nat /\ (c = 240 /\ 144 <= d <= 191 \/ c = 244 /\ 128 <= d <= 143 \/
                 241 <= c <= 243 /\ 128 <= d <= 191) /\ 128 <= e <= 191 /\ 128 <= f <= 191).

Lemma cstr_hd_drop s k : cstr s -> 0 <= hd 0 (drop k s) < 256.
Proof.
  intros H. assert (Hd : cstr (drop k s)) by by apply Forall_drop.
  destruct (drop k s) as [|c t]; simpl; [lia|]. apply cstr_cons in Hd as [Hc _].
  unfold byte_ok in Hc. lia.
Qed.

Lemma validate_byte_iff (R : Z -> Prop) mask expect s k :
  (forall c, 0 <= c < 256 -> (Z.land c mask =? expect) = true <-> R c) -> cstr s ->
  (validate_byte mask expect (drop k s) = true <-> R (hd 0 (drop k s))).
Proof. intros H Hs. apply H. by apply cstr_hd_drop. Qed.

Lemma validate_seq_spec s n :
  cstr s -> 128 <= hd 0 s -> validate_seq s = Some n <-> seq_ranges s n.
Proof.
  intros Hs Hc. unfold validate_seq, seq_ranges.
  pose proof (cstr_hd_drop s 0 Hs) as Hc'. simpl in Hc'.
  pose proof (cstr_hd_drop s 1 Hs) as Hd'.
  pose proof (validate_byte_iff _ _ _ s 1 cont_range Hs) as C1.
  pose proof (validate_byte_iff _ _ _ s 2 cont_range Hs) as C2.
  pose proof (validate_byte_iff _ _ _ s 3 cont_range Hs) as C3.
  pose proof (validate_byte_iff _ _ _ s 1 e0_range Hs) as E0.
  pose proof (validate_byte_iff _ _ _ s 1 ed_range Hs) as ED.
  pose proof (validate_byte_iff _ _ _ s 1 f4_range Hs) as F4.
  pose proof (f0_range _ Hd') as F0. fold (validate_byte 192 128 (drop 1 s)) in F0.
  set (c := hd 0 s) in *. set (d := hd 0 (drop 1 s)) in *.
  set (e := hd 0 (drop 2 s)) in *. set (f := hd 0 (drop 3 s)) in *. clearbody c d e f.
  destruct (Z.ltb_spec c 224).
  { destruct (Z.ltb_spec c 194); [split; [done|lia]|].
    destruct (validate_byte 192 128 (drop 1 s)); split; intros; simplify_eq; (lia || (exfalso; lia) || (f_equal; lia)). }
  destruct (Z.ltb_spec c 240).
  { rewrite low4 by lia. bdestr;
      repeat match goal with
      | |- context [if validate_byte ?a ?b ?l then _ else _] =>
          destruct (validate_byte a b l)
      end; split; intros; simplify_eq; (lia || (exfalso; lia) || (f_equal; lia)). }
  destruct (Z.ltb_spec c 245); [|split; [done|lia]].
  rewrite low3 by lia. bdestr;
    repeat match goal with
    | |- context [if ?b then _ else _] => destruct b
    end; split; intros; simplify_eq; (lia || (exfalso; lia) || (f_equal; lia)).
Qed.

(** ** The scan recognises exactly the encodings *)

Lemma cstr_enc cp : scalar cp -> cstr (utf8_enc cp).
Proof.
  unfold scalar, utf8_enc, cstr. intros H.
  repeat case_match; repeat constructor; unfold byte_ok;
    Z.to_euclidean_division_equations; lia.
Qed.

Lemma enc_seq_ranges cp s :
  scalar cp -> 128 <= cp -> seq_ranges (utf8_enc cp ++ s) (length (utf8_enc cp)).
Proof.
  unfold scalar, utf8_enc, seq_ranges. intros H Hcp.
  destruct (Z.ltb_spec cp 128); [lia|].
  destruct (Z.ltb_spec cp 2048); [|destruct (Z.ltb_spec cp 65536)]; simpl.
  - left. Z.to_euclidean_division_equations. lia.
  - right. left. Z.to_euclidean_division_equations. lia.
  - right. right. Z.to_euclidean_division_equations. lia.
Qed.

Lemma ranges_enc s n :
  seq_ranges s n ->
  exists cp, scalar cp /\ 128 <= cp /\ length (utf8_enc cp) = n /\
             s = utf8_enc cp ++ drop n s.
Proof.
  unfold seq_ranges, scalar. intros H.
  destruct H as [(-> & Hc & Hd)|[(-> & Hc & He)|(-> & Hc & He & Hf)]].
  - destruct s as [|c [|d s]]; simpl in *; [lia..|].
    set (cp := (c - 192) * 64 + (d - 128)). assert (Hcp : 128 <= cp < 2048) by (subst cp; lia).
    exists cp. split; [lia|]. split; [lia|]. unfold utf8_enc.
    destruct (Z.ltb_spec cp 128), (Z.ltb_spec cp 2048); try lia.
    split; [done|]. simpl. subst cp. repeat f_equal; Z.to_euclidean_division_equations; lia.
  - destruct s as [|c [|d [|e s]]]; simpl in *; [lia..|].
    set (cp := (c - 224) * 4096 + (d - 128) * 64 + (e - 128)).
    assert (Hcp : 2048 <= cp < 65536) by (subst cp; lia).
    exists cp. split; [subst cp; lia|]. split; [lia|]. unfold utf8_enc.
    destruct (Z.ltb_spec cp 128), (Z.ltb_spec cp 2048), (Z.ltb_spec cp 65536); try lia.
    split; [done|]. simpl. subst cp. repeat f_equal; Z.to_euclidean_division_equations; lia.
  - destruct s as [|c [|d [|e [|f s]]]]; simpl in *; [lia..|].
    set (cp := (c - 240) * 262144 + (d - 128) * 4096 + (e - 128) * 64 + (f - 128)).
    assert (Hcp : 65536 <= cp < 1114112) by (subst cp; lia).
    exists cp. split; [lia|]. split; [lia|]. unfold utf8_enc.
    destruct (Z.ltb_spec cp 128), (Z.ltb_spec cp 2048), (Z.ltb_spec cp 65536); try lia.
    split; [done|]. simpl. subst cp. repeat f_equal; Z.to_euclidean_division_equations; lia.
Qed.

Lemma enc_head cp : scalar cp -> 128 <= cp -> 128 <= hd 0 (utf8_enc cp).
Proof.
  unfold scalar, utf8_enc. intros H Hcp. repeat case_match; simpl;
    Z.to_euclidean_division_equations; lia.
Qed.

Lemma hd_enc_app cp s : hd 0 (utf8_enc cp ++ s) = hd 0 (utf8_enc cp).
Proof. unfold utf8_enc. by repeat case_match. Qed.

Lemma enc_not_nil cp : exists c t, utf8_enc cp = c :: t.
Proof. unfold utf8_enc. repeat case_match; eauto. Qed.

Lemma validate_seq_enc cp s :
  scalar cp -> 128 <= cp -> cstr s ->
  validate_seq (utf8_enc cp ++ s) = Some (length (utf8_enc cp)).
Proof.
  intros H Hcp Hs. apply validate_seq_spec.
  - apply cstr_app. split; [by apply cstr_enc|done].
  - rewrite hd_enc_app. by apply enc_head.
  - by apply enc_seq_ranges.
Qed.

Lemma enc_ascii cp : cp < 128 -> utf8_enc cp = [cp].
Proof. unfold utf8_enc. intros H. destruct (Z.ltb_spec cp 128); [done|lia]. Qed.

(** The scan accepts a prefix of encodings and stops at something that does not
    start with one. *)
Lemma fast_validate_prefix fuel s :
  cstr s -> (length s <= fuel)%nat ->
  exists cps, Forall scalar cps /\ s = utf8_text cps ++ fast_validate_go fuel s.
Proof.
  revert s. induction fuel as [|fuel IH]; intros s Hs Hle.
  { destruct s; [|simpl in Hle; lia]. by exists []. }
  destruct s as [|c s]; [by exists []|]. cbn [fast_validate_go]. simpl in Hle.
  destruct (Z.ltb_spec c 128) as [Hc|Hc].
  - apply cstr_cons in Hs as [Hb Hs]. unfold byte_ok in Hb.
    destruct (IH s Hs) as (cps & Hf & Heq); [lia|].
    exists (c :: cps). split; [constructor; [unfold scalar; lia|done]|].
    unfold utf8_text in *. simpl. rewrite enc_ascii by lia. simpl. by rewrite <- Heq.
  - destruct (validate_seq (c :: s)) as [n|] eqn:Hv; [|by exists []].
    apply validate_seq_spec in Hv; [|done|done].
    destruct (ranges_enc _ _ Hv) as (cp & Hsc & Hcp & Hn & Heq).
    destruct (IH (drop n (c :: s))) as (cps & Hf & Heq').
    { by apply Forall_drop. }
    { destruct (enc_not_nil cp) as (x & t & Henc). rewrite Henc in Hn. simpl in Hn.
      rewrite length_drop. simpl. lia. }
    exists (cp :: cps). split; [by constructor|]. unfold utf8_text in *. simpl.
    by rewrite <- app_assoc, <- Heq'.
Qed.

(** Encodings at the front of the text are scanned over. *)
Lemma fast_validate_over cps t fuel :
  Forall scalar cps -> cstr t -> (length (utf8_text cps ++ t) <= fuel)%nat ->
  exists fuel', (length t <= fuel')%nat /\
    fast_validate_go fuel (utf8_text cps ++ t) = fast_validate_go fuel' t.
Proof.
  intros Hf Ht. revert fuel. induction Hf as [|cp cps Hsc Hf IH]; intros fuel Hle.
  { by exists fuel. }
  unfold utf8_text in *. simpl in *. rewrite !length_app in *.
  assert (Hcs : cstr (concat (map utf8_enc cps) ++ t)).
  { apply cstr_app. split; [|done].
    clear -Hf. induction Hf; simpl; [constructor|]. apply cstr_app. split; [by apply cstr_enc|done]. }
  destruct (enc_not_nil cp) as (x & r & Henc).
  destruct fuel as [|fuel]; [rewrite Henc in Hle; simpl in Hle; lia|].
  rewrite <- app_assoc. destruct (Z.lt_ge_cases cp 128) as [Hc|Hc].
  - rewrite enc_ascii in * by lia. cbn. destruct (Z.ltb_spec cp 128); [|lia].
    apply IH. simpl in Hle. lia.
  - pose proof (validate_seq_enc cp _ Hsc Hc Hcs) as Hv.
    pose proof (enc_head cp Hsc Hc) as Hh.
    rewrite Henc in *. simpl in *. destruct (Z.ltb_spec x 128); [lia|].
    rewrite Hv. simpl. rewrite drop_app_length. apply IH. lia.
Qed.

Lemma fast_validate_go_le fuel s : (length (fast_validate_go fuel s) <= length s)%nat.
Proof.
  revert s. induction fuel as [|fuel IH]; intros [|c s]; cbn [fast_validate_go]; [done..|].
  destruct (c <? 128); [simpl; specialize (IH s); lia|].
  destruct (validate_seq (c :: s)) as [n|]; [|done].
  specialize (IH (drop n (c :: s))). rewrite length_drop in IH. lia.
Qed.

Lemma fast_validate_complete cps fuel :
  Forall scalar cps -> (length (utf8_text cps) <= fuel)%nat ->
  fast_validate_go fuel (utf8_text cps) = [].
Proof.
  intros Hf Hle. rewrite <- (app_nil_r (utf8_text cps)).
  destruct (fast_validate_over cps [] fuel) as (f & _ & ->); [done|constructor|by rewrite app_nil_r|].
  by destruct f.
Qed.

Lemma valid_utf8_cstr s : valid_utf8 s -> cstr s.
Proof.
  intros (cps & Hf & ->). unfold utf8_text. induction Hf; simpl; [constructor|].
  apply cstr_app. split; [by apply cstr_enc|done].
Qed.

Lemma fast_validate_nil s : cstr s -> fast_validate s = [] <-> valid_utf8 s.
Proof.
  intros Hs. unfold fast_validate. split.
  - intros H. destruct (fast_validate_prefix (length s) s Hs) as (cps & Hf & Heq); [lia|].
    rewrite H, app_nil_r in Heq. by exists cps.
  - intros (cps & Hf & ->). by apply fast_validate_complete.
Qed.

(** What the scan accepts is the longest well-formed text the string starts
    with. *)
Lemma fast_validate_longest s p t q :
  cstr s -> valid_utf8 p -> s = p ++ t -> s = q ++ fast_validate s -> p `prefix_of` q.
Proof.
  intros Hs (cps & Hf & ->) -> Hq. apply cstr_app in Hs as [_ Ht].
  destruct (fast_validate_over cps t (length (utf8_text cps ++ t)) Hf Ht) as (f & _ & Hgo); [done|].
  pose proof (fast_validate_go_le f t) as Hle. unfold fast_validate in Hq. rewrite Hgo in Hq.
  assert (utf8_text cps = take (length (utf8_text cps)) q) as Hk.
  { apply (f_equal (take (length (utf8_text cps)))) in Hq as Hk. rewrite take_app_length in Hk.
    rewrite take_app_le in Hk; [done|]. apply (f_equal length) in Hq. rewrite !length_app in Hq. lia. }
  rewrite Hk. by apply prefix_take.
Qed.

Lemma valid_utf8_app s t : valid_utf8 s -> valid_utf8 t -> valid_utf8 (s ++ t).
Proof.
  intros (a & Ha & ->) (b & Hb & ->). exists (a ++ b). split; [by apply Forall_app|].
  unfold utf8_text. by rewrite map_app, concat_app.
Qed.

Lemma valid_utf8_replacement : valid_utf8 replacement.
Proof. exists [65533]. split; [repeat constructor; unfold scalar; lia|done]. Qed.

(** ** Cutting at a character boundary *)

Lemma find_prev_app_l a b i :
  (i <= length a)%nat -> find_prev_from (a ++ b) i = find_prev_from a i.
Proof.
  induction i as [|i IH]; intros Hi; [done|]. simpl. rewrite app_nth1 by lia.
  by rewrite IH by lia.
Qed.

Lemma find_prev_app a b j :
  find_prev_from (a ++ b) (length a + j) =
  match find_prev_from b j with
  | Some i => Some (length a + i)%nat
  | None => find_prev_from a (length a)
  end.
Proof.
  induction j as [|j IH].
  - simpl. rewrite Nat.add_0_r. by apply find_prev_app_l.
  - rewrite Nat.add_succ_r. simpl. rewrite app_nth2, Nat.add_comm, Nat.add_sub by lia.
    destruct (is_cont (nth j b 0)); [|by rewrite Nat.add_comm].
    by rewrite Nat.add_comm, IH.
Qed.

Lemma find_prev_all_cont b j :
  Forall (fun c => is_cont c = true) b -> (j <= length b)%nat -> find_prev_from b j = None.
Proof.
  intros Hb. induction j as [|j IH]; intros Hj; [done|]. simpl.
  assert (is_cont (nth j b 0) = true) as ->; [|apply IH; lia].
  rewrite Forall_forall in Hb. apply Hb, list_elem_of_In, nth_In. lia.
Qed.

Lemma enc_shape cp :
  scalar cp ->
  exists x t, utf8_enc cp = x :: t /\ is_cont x = false /\
              Forall (fun c => is_cont c = true) t /\ (length t <= 3)%nat.
Proof.
  intros H. assert (Hc : forall c, 0 <= c < 256 -> ~ 128 <= c <= 191 -> is_cont c = false).
  { intros c Hb Hn. apply not_true_is_false. unfold is_cont. by rewrite cont_range. }
  assert (Ht : forall c, 128 <= c <= 191 -> is_cont c = true).
  { intros c Hb. unfold is_cont. apply cont_range; lia. }
  unfold scalar, utf8_enc in *.
  repeat case_match; eexists _, _; (split; [done|]);
    (split; [apply Hc; Z.to_euclidean_division_equations; lia|]);
    (split; [|simpl; lia]); repeat constructor; apply Ht;
    Z.to_euclidean_division_equations; lia.
Qed.

Lemma find_prev_enc_prefix x t k :
  is_cont x = false -> Forall (fun c => is_cont c = true) t ->
  find_prev_from (x :: take k t) (S (length (take k t))) = Some 0%nat.
Proof.
  intros Hx Ht. change (x :: take k t) with ([x] ++ take k t).
  change (S (length (take k t))) with (length [x] + length (take k t))%nat.
  rewrite find_prev_app, find_prev_all_cont by (try apply Forall_take; done).
  simpl. by rewrite Hx.
Qed.

(** The cut of any prefix of a well-formed string is well-formed. *)
Lemma prefix_cut cps k :
  Forall scalar cps ->
  let P := take k (utf8_text cps) in
  match unrl_utf8_find_prev_char P with
  | Some i => valid_utf8 (take i P) /\ (i < length P <= i + 4)%nat
  | None => P = []
  end.
Proof.
  cbv zeta. unfold unrl_utf8_find_prev_char. intros Hf. revert k.
  induction Hf as [|cp cps Hsc Hf IH]; intros k; [by destruct k|].
  assert (Henc : valid_utf8 (utf8_enc cp)).
  { exists [cp]. split; [by constructor|]. unfold utf8_text. simpl. by rewrite app_nil_r. }
  destruct (enc_shape cp Hsc) as (x & t & Hxt & Hx & Ht & Hlt).
  unfold utf8_text in *. cbn [map concat]. destruct k as [|k]; [done|].
  assert (Hhead : forall j, valid_utf8 (take 0 (x :: take j t))) by (intros; by exists []).
  rewrite take_app. specialize (IH (S k - length (utf8_enc cp))%nat).
  destruct (take (S k - length (utf8_enc cp)) (concat (map utf8_enc cps))) as [|y P'] eqn:E.
  { rewrite app_nil_r, Hxt. cbn [take length]. rewrite find_prev_enc_prefix by done.
    split; [apply Hhead|]. cbn [length]. rewrite length_take. lia. }
  destruct (decide (length (utf8_enc cp) <= S k)%nat) as [Hle|Hgt].
  - rewrite (take_ge (utf8_enc cp)) by lia. rewrite length_app, find_prev_app.
    destruct (find_prev_from (y :: P') _) as [i|]; [|done].
    destruct IH as [IHv IHl]. split; [|lia].
    rewrite take_app, take_ge by lia. rewrite Nat.add_comm, Nat.add_sub.
    by apply valid_utf8_app.
  - replace (S k - length (utf8_enc cp))%nat with 0%nat in E by lia. done.
Qed.

Lemma cut_prefix_valid W k : valid_utf8 W -> valid_utf8 (cut_prev_char (take k W)).
Proof.
  intros (cps & Hf & ->). pose proof (prefix_cut cps k Hf) as H. simpl in H.
  unfold cut_prev_char. destruct (unrl_utf8_find_prev_char _) as [i|]; [apply H|].
  rewrite H. by exists [].
Qed.

Lemma cut_prev_char_le out : (length (cut_prev_char out) <= length out)%nat.
Proof.
  unfold cut_prev_char. destruct (unrl_utf8_find_prev_char out); [|done].
  rewrite length_take. lia.
Qed.

(** ** [unrl_utf8_make_valid] *)

Lemma take_app_take {A} k (W X : list A) : take k (take k W ++ X) = take k (W ++ X).
Proof.
  destruct (decide (length W <= k)%nat) as [H|H]; [by rewrite (take_ge W)|].
  rewrite !take_app_le by (rewrite ?length_take; lia). by rewrite take_take, Nat.min_id.
Qed.

(** The output buffer always holds the truncation of a well-formed string. *)
Lemma make_valid_loop_replaced fuel s size strict out remainder W :
  (0 < size)%nat -> cstr remainder -> (length remainder < fuel)%nat ->
  valid_utf8 W -> out = take (size - 1) W ->
  exists W', valid_utf8 W' /\
    make_valid_loop fuel s size strict out remainder true = (take (size - 1) W', true).
Proof.
  intros Hsz. revert out remainder W.
  induction fuel as [|fuel IH]; intros out remainder W Hrem Hf HW ->; [lia|].
  cbn [make_valid_loop]. destruct remainder as [|c rem] eqn:Er; [eauto|]. rewrite <- Er in *.
  unfold unrl_utf8_validate. assert (Hlen : (length (take (size - 1) W) < size)%nat).
  { rewrite length_take. lia. }
  destruct (fast_validate remainder) as [|x inv] eqn:Hv.
  - apply fast_validate_nil in Hv; [|done]. simpl. exists (W ++ remainder).
    split; [by apply valid_utf8_app|]. rewrite strlcat_take by done. by rewrite take_app_take.
  - destruct (fast_validate_prefix (length remainder) remainder Hrem) as (cps & Hcps & Heq); [lia|].
    fold (fast_validate remainder) in Heq. rewrite Hv in Heq.
    rewrite strlncat_take by done.
    assert (Htake : take (length remainder - length (x :: inv)) remainder = utf8_text cps).
    { rewrite Heq, length_app, Nat.add_sub. by rewrite take_app_length. }
    rewrite Htake, take_app_take.
    assert (Hl2 : (length (take (size - 1) (W ++ utf8_text cps)) < size)%nat)
      by (rewrite length_take; lia).
    rewrite strlcat_take, take_app_take by done.
    eapply (IH _ _ ((W ++ utf8_text cps) ++ replacement)); [| | |done].
    + rewrite Heq in Hrem. apply cstr_app in Hrem as [_ Hrem]. by apply cstr_cons in Hrem as [_ ?].
    + apply (f_equal length) in Heq. rewrite length_app in Heq. simpl in *. lia.
    + apply valid_utf8_app; [apply valid_utf8_app; [done|by exists cps]|apply valid_utf8_replacement].
Qed.

Lemma make_valid_loop_start s size strict :
  (0 < size)%nat -> cstr s ->
  (make_valid_loop (S (length s)) s size strict [] s false = ([], false) /\
   valid_utf8 s /\ (strict = 0%nat \/ s = [])) \/
  (exists W, valid_utf8 W /\
    make_valid_loop (S (length s)) s size strict [] s false = (take (size - 1) W, true) /\
    (valid_utf8 s -> strict <> 0%nat)).
Proof.
  intros Hsz Hs. cbn [make_valid_loop]. destruct s as [|c t] eqn:Es.
  { left. split_and!; [done|by exists []|by right]. }
  rewrite <- Es in *. unfold unrl_utf8_validate.
  destruct (fast_validate s) as [|x inv] eqn:Hv.
  - apply fast_validate_nil in Hv; [|done]. simpl. destruct (Nat.eqb_spec strict 0) as [->|Hst]; simpl.
    + left. auto.
    + right. exists s. by rewrite strlcpy_take.
  - right. assert (Hnv : ~ valid_utf8 s).
    { intros H. apply fast_validate_nil in H; [|done]. congruence. }
    assert (Hcut : exists W, valid_utf8 W /\
      make_valid_loop (S (length s)) s size strict [] s true = (take (size - 1) W, true)).
    { apply (make_valid_loop_replaced _ _ _ _ _ _ []); try done; [lia|by exists []|by rewrite take_nil]. }
    destruct Hcut as (W & HW & Hloop). exists W. split; [done|]. split; [|done].
    cbn [make_valid_loop] in Hloop. rewrite Es in Hloop. rewrite <- Es in Hloop.
    unfold unrl_utf8_validate in Hloop. rewrite Hv in Hloop. exact Hloop.
Qed.

Lemma line_cut_take out cut : line_cut out = Some cut -> exists k, cut = take k out.
Proof. unfold line_cut. intros H. repeat case_match; simplify_eq; eauto. Qed.

Lemma make_valid_result s size strict :
  (0 < size)%nat -> cstr s ->
  exists r, unrl_utf8_make_valid (Some s) size strict = Some r /\ valid_utf8 r /\
    (strict <> 0%nat \/ ~ valid_utf8 s -> (length r < size)%nat) /\
    (valid_utf8 s -> strict = 0%nat -> r = s).
Proof.
  intros Hsz Hs. unfold unrl_utf8_make_valid. destruct (Nat.eqb_spec size 0); [lia|].
  destruct (make_valid_loop_start s size strict Hsz Hs)
    as [(-> & Hval & Hst)|(W & HW & -> & Hst)]; simpl.
  - exists s. split_and!; try done. intros [H|H]; [|done].
    destruct Hst as [| -> ]; [done|]. simpl. lia.
  - assert (Hle : (length (take (size - 1) W) <= size - 1)%nat) by (rewrite length_take; lia).
    set (out := take (size - 1) W) in *.
    destruct (if (strict =? 2)%nat then line_cut out else None) as [cut|] eqn:Hcut.
    + assert (exists k, cut = take k out) as [k ->].
      { destruct (strict =? 2)%nat; [|done]. by eapply line_cut_take. }
      eexists. split_and!; [done| | |naive_solver].
      * subst out. rewrite take_take. by apply cut_prefix_valid.
      * intros _. pose proof (cut_prev_char_le (take k out)). rewrite length_take in *. lia.
    + destruct (Nat.eqb_spec (length out) (size - 1)).
      * eexists. split_and!; [done|by apply cut_prefix_valid| |naive_solver].
        intros _. pose proof (cut_prev_char_le out). lia.
      * eexists. split_and!; [done| |lia|naive_solver].
        subst out. rewrite length_take in *. by rewrite take_ge by lia.
Qed.

Lemma cutoff_spec msg len :
  valid_utf8 msg -> (len <= length msg)%nat ->
  let '(msg', len') := utf8_valid_cutoff msg len in
  msg' = take len' msg /\ valid_utf8 msg' /\ (len' <= len <= len' + 3)%nat.
Proof.
  intros (cps & Hf & ->) Hlen. unfold utf8_valid_cutoff.
  destruct (decide (len = length (utf8_text cps))) as [->|Hne].
  - rewrite Nat.add_1_r. cbn [find_prev_from]. rewrite nth_overflow by lia.
    cbn. split_and!; [done| |lia..]. rewrite take_ge by lia. by exists cps.
  - pose proof (prefix_cut cps (len + 1) Hf) as Hc. cbv zeta in Hc.
    set (P := take (len + 1) (utf8_text cps)) in *.
    assert (HP : length P = (len + 1)%nat) by (subst P; rewrite length_take; lia).
    unfold unrl_utf8_find_prev_char in Hc. rewrite HP in Hc.
    rewrite <- (find_prev_app_l P (drop (len + 1) (utf8_text cps))) in Hc by lia.
    subst P. rewrite take_drop in Hc. destruct (find_prev_from _ _) as [i|].
    + destruct Hc as [Hv Hi]. rewrite take_take in Hv.
      replace (i `min` (len + 1))%nat with i in Hv by lia. split_and!; (done || lia).
    + rewrite Hc in HP. simpl in HP. lia.
Qed.

(** ** Properties *)

(** C32: [unrl_utf8_validate] accepts exactly the well-formed UTF-8 strings of
    RFC 3629 (no overlong forms, no surrogates, nothing above U+10FFFF).  The
    text before the end pointer it stores is well-formed and is the longest
    well-formed one the string starts with: every other is a part of it, so the
    pointer is at the first ill-formed sequence, or at the end of the string
    just when the whole is well-formed. *)
Theorem utf8_validate_correct (s : cstring) (Hs : cstr s) :
  ((unrl_utf8_validate s).1 = true <-> valid_utf8 s) /\
  ((unrl_utf8_validate s).2 = [] <-> valid_utf8 s) /\
  exists prefix, valid_utf8 prefix /\ s = prefix ++ (unrl_utf8_validate s).2 /\
    forall p t, valid_utf8 p -> s = p ++ t -> p `prefix_of` prefix.
Proof.
  unfold unrl_utf8_validate. simpl. rewrite <- (fast_validate_nil s) by done.
  split_and!; [by destruct (fast_validate s)|done|].
  destruct (fast_validate_prefix (length s) s Hs) as (cps & Hf & Heq); [lia|].
  exists (utf8_text cps). split_and!; [by exists cps|done|].
  intros p t Hp Hst. by apply (fast_validate_longest s p t).
Qed.

Lemma utf8_validate_correct_witness :
  ((unrl_utf8_validate [97; 226; 130; 172; 226; 130; 98]).1 = true <->
     valid_utf8 [97; 226; 130; 172; 226; 130; 98]) /\
  ((unrl_utf8_validate [97; 226; 130; 172; 226; 130; 98]).2 = [] <->
     valid_utf8 [97; 226; 130; 172; 226; 130; 98]) /\
  exists prefix, valid_utf8 prefix /\
    [97; 226; 130; 172; 226; 130; 98] = prefix ++ [226; 130; 98] /\
    forall p t, valid_utf8 p -> [97; 226; 130; 172; 226; 130; 98] = p ++ t -> p `prefix_of` prefix.
Proof. apply (utf8_validate_correct [97; 226; 130; 172; 226; 130; 98]). repeat constructor. Defined.

(** [unrl_utf8_make_valid] always returns well-formed UTF-8; it fits the
    buffer whenever the caller asked for strictness or a replacement was needed,
    and a well-formed input is returned unchanged when no strictness is asked. *)
Theorem utf8_make_valid_correct (s : cstring) (size strictlen : nat)
  (Hsize : (0 < size)%nat) (Hs : cstr s) :
  exists r, unrl_utf8_make_valid (Some s) size strictlen = Some r /\ valid_utf8 r /\
    (strictlen <> 0%nat \/ ~ valid_utf8 s -> (length r < size)%nat) /\
    (valid_utf8 s -> strictlen = 0%nat -> r = s).
Proof. by apply make_valid_result. Qed.

Lemma utf8_make_valid_correct_witness :
  exists r, unrl_utf8_make_valid (Some [97; 226; 130]) 5 1 = Some r /\ valid_utf8 r /\
    (1%nat <> 0%nat \/ ~ valid_utf8 [97; 226; 130] -> (length r < 5)%nat) /\
    (valid_utf8 [97; 226; 130] -> 1%nat = 0%nat -> r = [97; 226; 130]).
Proof. apply utf8_make_valid_correct; [lia|repeat constructor]. Defined.

(** Cutting a well-formed message at [len] keeps it well-formed and removes
    at most the three bytes of an unfinished sequence before the cut. *)
Theorem utf8_valid_cutoff_correct (msg : cstring) (len : nat)
  (Hmsg : valid_utf8 msg) (Hlen : (len <= length msg)%nat) :
  let '(msg', len') := utf8_valid_cutoff msg len in
  msg' = take len' msg /\ valid_utf8 msg' /\ (len' <= len <= len' + 3)%nat.
Proof. by apply cutoff_spec. Qed.

Lemma utf8_valid_cutoff_correct_witness :
  let '(msg', len') := utf8_valid_cutoff (utf8_text [97; 128512]) 3 in
  msg' = take len' (utf8_text [97; 128512]) /\ valid_utf8 msg' /\ (len' <= 3 <= len' + 3)%nat.
Proof.
  apply utf8_valid_cutoff_correct; [|vm_compute; lia].
  exists [97; 128512]. split; [|reflexivity].
  constructor; [left; lia|constructor; [right; lia|constructor]].
Defined.
