(* ===== verification/Dbuf.v ===== *)
(** * Dynamic byte queues (src/dbuf.c)

    The receive and send queues of a connection are lists of fixed-size blocks
    with a byte count beside them.  The model keeps the blocks: [dbuf_put] fills
    the last one and allocates more, [dbuf_delete] frees from the front and
    shifts the first partially consumed block, [dbuf_getmsg] extracts one line
    with its three-phase scan.  The abstraction is the plain byte sequence; each
    operation refines its specification there, and the class [RecvQueue] is what
    the parser relies on. *)
From S2P Require Import Prelude Chars Strings.

Definition DBUF_BLOCK_SIZE : nat := Z.to_nat (4072 + 4096).
Definition READBUFSIZE : nat := Z.to_nat 16384.

(** [struct dbuf]: a block is the first [size] bytes of its [data]. *)
Record dbuf := Dbuf {
  db_length : nat;
  db_list : list (list Z)
}.

Definition dbuf_queue_init : dbuf := Dbuf 0 [].

(** [dbuf_alloc]: a cleared block at the tail. *)
Definition dbuf_alloc (d : dbuf) : dbuf := Dbuf (db_length d) (db_list d ++ [[]]).

(** [memcpy(&block->data[block->size], buf, amount)] into the last block, with
    the three counters. *)
Fixpoint fill_last (bs : list (list Z)) (data : list Z) : list (list Z) :=
  match bs with
  | [] => []
  | [b] => [b ++ data]
  | b :: bs' => b :: fill_last bs' data
  end.

Definition last_size (bs : list (list Z)) : nat :=
  match last bs with Some b => length b | None => 0 end.

(** The [while (length > 0)] loop; every round copies at least one byte. *)
Fixpoint put_loop (fuel : nat) (d : dbuf) (buf : list Z) : dbuf :=
  match fuel with
  | O => d
  | S fuel' =>
      match buf with
      | [] => d
      | _ =>
          let amount := (DBUF_BLOCK_SIZE - last_size (db_list d))%nat in
          let '(d, amount) :=
            if (amount =? 0)%nat then (dbuf_alloc d, DBUF_BLOCK_SIZE) else (d, amount) in
          let amount := if (length buf <? amount)%nat then length buf else amount in
          put_loop fuel'
            (Dbuf (db_length d + amount) (fill_last (db_list d) (take amount buf)))
            (drop amount buf)
      end
  end.

Definition dbuf_put (d : dbuf) (buf : list Z) : dbuf :=
  let d := match db_list d with [] => dbuf_alloc d | _ => d end in
  put_loop (length buf) d buf.

(** The [for (;;)] loop of [dbuf_delete] and the code after it.  [None] is the
    access to the first block of an empty list. *)
Fixpoint delete_loop (total : nat) (bs : list (list Z)) (n : nat) : option dbuf :=
  if (n =? 0)%nat then Some (Dbuf total bs)
  else
    match bs with
    | [] => None
    | b :: bs' =>
        if (n <? length b)%nat then Some (Dbuf (total - n) (drop n b :: bs'))
        else delete_loop (total - length b) bs' (n - length b)
    end.

(** [None] also for the failed assertion. *)
Definition dbuf_delete (d : dbuf) (n : nat) : option dbuf :=
  if (db_length d <? n)%nat then None else delete_loop (db_length d) (db_list d) n.

(** The locals of [dbuf_getmsg]; [out] is what has been written to [buf]. *)
Record gst := Gst {
  line_bytes : nat;
  empty_bytes : nat;
  phase : nat;
  out : cstring
}.

Definition is_eol (c : Z) : bool := (c =? ch_cr) || (c =? ch_lf).

(** One byte; [inr] is the [return] of phase 2. *)
Definition getmsg_byte (g : gst) (c : Z) : gst + gst :=
  if is_eol c || ((c =? ch_space) && negb (phase g =? 1)%nat) then
    inl (Gst (line_bytes g) (empty_bytes g + 1)
             (if (phase g =? 1)%nat then 2%nat else phase g) (out g))
  else if (phase g =? 2)%nat then inr g
  else
    inl (Gst (line_bytes g + 1) (empty_bytes g) 1
             (if (line_bytes g <? READBUFSIZE - 2)%nat then out g ++ [c] else out g)).

Fixpoint getmsg_block (g : gst) (data : list Z) : gst + gst :=
  match data with
  | [] => inl g
  | c :: data' =>
      match getmsg_byte g c with
      | inl g' => getmsg_block g' data'
      | inr g' => inr g'
      end
  end.

Fixpoint getmsg_blocks (g : gst) (bs : list (list Z)) : gst + gst :=
  match bs with
  | [] => inl g
  | b :: bs' =>
      match getmsg_block g b with
      | inl g' => getmsg_blocks g' bs'
      | inr g' => inr g'
      end
  end.

(** The return value, the contents of [buf] and the new queue. *)
Definition dbuf_getmsg (d : dbuf) : option (nat * cstring * dbuf) :=
  let finish g :=
    match dbuf_delete d (line_bytes g + empty_bytes g) with
    | Some d' => Some (Nat.min (line_bytes g) (READBUFSIZE - 2), out g, d')
    | None => None
    end in
  match getmsg_blocks (Gst 0 0 0 []) (db_list d) with
  | inr g => finish g
  | inl g =>
      if negb (phase g =? 2)%nat then finish (Gst 0 (empty_bytes g) (phase g) [])
      else finish g
  end.

Definition dbuf_get (d : dbuf) : option (nat * cstring * dbuf) :=
  let bytes := foldr (fun b n => (length b + n)%nat) 0%nat (db_list d) in
  let data := concat (db_list d) in
  match dbuf_delete d bytes with
  | Some d' => Some (bytes, data, d')
  | None => None
  end.

(** ** The abstraction *)

Definition dbuf_bytes (d : dbuf) : list Z := concat (db_list d).

Definition block_ok (b : list Z) : Prop := (0 < length b <= DBUF_BLOCK_SIZE)%nat.

(** Well-formed: no empty or overfull block, and the counter is right. *)
Definition dbuf_wf (d : dbuf) : Prop :=
  Forall block_ok (db_list d) /\ db_length d = length (dbuf_bytes d).

(** What [dbuf_getmsg] promises on the byte sequence: the line and the rest. *)
Definition is_blank (c : Z) : bool := is_eol c || (c =? ch_space).

Definition queue_getmsg (q : list Z) : cstring * list Z :=
  let q1 := skip_while is_blank q in
  let '(line, rest) := span (fun c => negb (is_eol c)) q1 in
  match rest with
  | [] => ([], q1)
  | _ => (take (READBUFSIZE - 2) line, skip_while is_blank rest)
  end.

(** The interface of a receive queue, as the parser uses it. *)
Class RecvQueue (Q : Type) := {
  rq_ok : Q -> Prop;
  rq_bytes : Q -> list Z;
  rq_length : Q -> nat;
  rq_put : Q -> list Z -> Q;
  rq_getmsg : Q -> option (nat * cstring * Q);
  rq_clear : Q -> option Q;
  rq_length_spec : forall q, rq_ok q -> rq_length q = length (rq_bytes q);
  rq_put_spec : forall q buf, rq_ok q -> buf <> [] ->
    rq_ok (rq_put q buf) /\ rq_bytes (rq_put q buf) = rq_bytes q ++ buf;
  rq_getmsg_spec : forall q, rq_ok q ->
    exists q', rq_ok q' /\
      rq_getmsg q = Some (length (queue_getmsg (rq_bytes q)).1, (queue_getmsg (rq_bytes q)).1, q') /\
      rq_bytes q' = (queue_getmsg (rq_bytes q)).2;
  rq_clear_spec : forall q, rq_ok q ->
    exists q', rq_clear q = Some q' /\ rq_ok q' /\ rq_bytes q' = []
}.

Lemma block_size_pos : (0 < DBUF_BLOCK_SIZE)%nat.
Proof. unfold DBUF_BLOCK_SIZE. lia. Qed.

Lemma readbuf_pos : (0 < READBUFSIZE - 2)%nat.
Proof. unfold READBUFSIZE. lia. Qed.

#[local] Opaque DBUF_BLOCK_SIZE READBUFSIZE.

(** ** [dbuf_put] appends *)

Lemma fill_last_snoc bs b data : fill_last (bs ++ [b]) data = bs ++ [b ++ data].
Proof.
  induction bs as [|x bs IH]; [done|]. simpl. rewrite IH.
  by destruct (bs ++ [b]) eqn:E; [destruct bs|].
Qed.

Lemma last_size_snoc bs b : last_size (bs ++ [b]) = length b.
Proof. unfold last_size. by rewrite last_snoc. Qed.

Lemma concat_snoc {A} (bs : list (list A)) b : concat (bs ++ [b]) = concat bs ++ b.
Proof. rewrite concat_app. simpl. by rewrite app_nil_r. Qed.

Lemma put_loop_spec fuel n bs b buf :
  (length buf <= fuel)%nat -> Forall block_ok bs -> (length b <= DBUF_BLOCK_SIZE)%nat ->
  (b = [] -> buf <> []) -> n = length (concat bs ++ b) ->
  dbuf_wf (put_loop fuel (Dbuf n (bs ++ [b])) buf) /\
  dbuf_bytes (put_loop fuel (Dbuf n (bs ++ [b])) buf) = (concat bs ++ b) ++ buf.
Proof.
  pose proof block_size_pos as HB.
  revert n bs b buf. induction fuel as [|fuel IH]; intros n bs b buf Hf Hbs Hb Hne Hn.
  { destruct buf; [|simpl in Hf; lia]. simpl. unfold dbuf_wf, dbuf_bytes. simpl.
    rewrite concat_snoc, app_nil_r. split; [split|]; try done.
    apply Forall_app. split; [done|]. constructor; [|done]. split; [|done].
    destruct b; [naive_solver|simpl; lia]. }
  cbn [put_loop]. destruct buf as [|c buf'] eqn:Ebuf.
  { unfold dbuf_wf, dbuf_bytes. simpl. rewrite concat_snoc, app_nil_r. split; [split|]; try done.
    apply Forall_app. split; [done|]. constructor; [|done]. split; [|done].
    destruct b; [naive_solver|simpl; lia]. }
  rewrite <- Ebuf in *. assert (0 < length buf)%nat by (subst; simpl; lia). clear Ebuf.
  cbn [db_list db_length]. rewrite last_size_snoc.
  assert (Hcopy : forall n bs b amount, Forall block_ok bs -> n = length (concat bs ++ b) ->
    (0 < amount <= length buf)%nat -> (length b + amount <= DBUF_BLOCK_SIZE)%nat ->
    let r := put_loop fuel (Dbuf (n + amount) (fill_last (bs ++ [b]) (take amount buf)))
                      (drop amount buf) in
    dbuf_wf r /\ dbuf_bytes r = (concat bs ++ b) ++ buf).
  { intros n' bs' b' amount Hbs' Hn' Ha Hroom. rewrite fill_last_snoc. cbv zeta.
    destruct (IH (n' + amount)%nat bs' (b' ++ take amount buf) (drop amount buf)) as [Hwf Hby].
    - rewrite length_drop. lia.
    - done.
    - rewrite length_app, length_take. lia.
    - intros Hnil. apply (f_equal length) in Hnil. rewrite length_app, length_take in Hnil.
      simpl in Hnil. lia.
    - rewrite !length_app, length_take in *. lia.
    - split; [done|]. rewrite Hby, <- !app_assoc, take_drop. done. }
  destruct (Nat.eqb_spec (DBUF_BLOCK_SIZE - length b) 0) as [Hfull|Hroom].
  - unfold dbuf_alloc. cbn [db_list db_length].
    replace (concat bs ++ b) with (concat (bs ++ [b]) ++ []) by by rewrite concat_snoc, app_nil_r.
    apply Hcopy.
    + apply Forall_app. split; [done|]. constructor; [|done]. split; lia.
    + by rewrite concat_snoc, app_nil_r.
    + destruct (Nat.ltb_spec (length buf) DBUF_BLOCK_SIZE); lia.
    + destruct (Nat.ltb_spec (length buf) DBUF_BLOCK_SIZE); simpl; lia.
  - apply Hcopy; [done|done| |];
      destruct (Nat.ltb_spec (length buf) (DBUF_BLOCK_SIZE - length b)); lia.
Qed.

Lemma dbuf_put_spec d buf :
  dbuf_wf d -> buf <> [] ->
  dbuf_wf (dbuf_put d buf) /\ dbuf_bytes (dbuf_put d buf) = dbuf_bytes d ++ buf.
Proof.
  intros [Hok Hlen] Hne. destruct d as [n bs]. unfold dbuf_put, dbuf_bytes in *. simpl in *.
  destruct bs as [|b0 bs] using rev_ind.
  - cbn. apply (put_loop_spec _ _ [] [] buf); simpl; try done; lia.
  - destruct (bs ++ [b0]) as [|x l] eqn:E; [by destruct bs|]. rewrite <- E in *.
    apply Forall_app in Hok as [Hbs Hb]. inversion Hb as [|? ? Hb0]; subst.
    unfold block_ok in Hb0. rewrite concat_snoc.
    apply put_loop_spec; try done; try lia.
Qed.

(** ** [dbuf_delete] drops *)

Lemma delete_loop_spec total bs n :
  Forall block_ok bs -> total = length (concat bs) -> (n <= total)%nat ->
  exists d, delete_loop total bs n = Some d /\ dbuf_wf d /\ dbuf_bytes d = drop n (concat bs).
Proof.
  intros Hok. revert total n. induction Hok as [|b bs Hb Hok IH]; intros total n Ht Hn.
  - simpl in *. destruct (Nat.eqb_spec n 0); [|lia]. subst. eexists. split; [done|].
    by unfold dbuf_wf, dbuf_bytes.
  - cbn [delete_loop]. destruct (Nat.eqb_spec n 0) as [->|Hn0].
    { eexists. split; [done|]. unfold dbuf_wf, dbuf_bytes. simpl. split; [|done].
      split; [by constructor|done]. }
    unfold block_ok in Hb. simpl in Ht. rewrite length_app in Ht.
    destruct (Nat.ltb_spec n (length b)) as [Hlt|Hge].
    + eexists. split; [done|]. unfold dbuf_wf, dbuf_bytes. simpl.
      rewrite drop_app_le by lia. split; [|done]. split.
      * constructor; [|done]. unfold block_ok. rewrite length_drop. lia.
      * rewrite length_app, length_drop. lia.
    + destruct (IH (total - length b)%nat (n - length b)%nat) as (d & Hd & Hwf & Hby); [lia..|].
      exists d. split; [done|]. split; [done|]. rewrite Hby. simpl.
      rewrite drop_app_ge by lia. done.
Qed.

Lemma dbuf_delete_spec d n :
  dbuf_wf d -> (n <= length (dbuf_bytes d))%nat ->
  exists d', dbuf_delete d n = Some d' /\ dbuf_wf d' /\ dbuf_bytes d' = drop n (dbuf_bytes d).
Proof.
  intros [Hok Hlen] Hn. unfold dbuf_delete. destruct (Nat.ltb_spec (db_length d) n); [lia|].
  by apply delete_loop_spec; [|done|lia].
Qed.

(** ** [dbuf_getmsg] extracts a line *)

Lemma getmsg_block_app g a b :
  getmsg_block g (a ++ b) =
  match getmsg_block g a with inl g' => getmsg_block g' b | inr g' => inr g' end.
Proof.
  revert g. induction a as [|c a IH]; intros g; simpl; [done|].
  destruct (getmsg_byte g c); [apply IH|done].
Qed.

Lemma getmsg_blocks_concat g bs : getmsg_blocks g bs = getmsg_block g (concat bs).
Proof.
  revert g. induction bs as [|b bs IH]; intros g; simpl; [done|].
  rewrite getmsg_block_app. destruct (getmsg_block g b); [apply IH|done].
Qed.

Lemma eol_not_space c : is_eol c = true -> (c =? ch_space) = false.
Proof. unfold is_eol. bdestr; done. Qed.

(** Phase 0: blanks are counted. *)
Lemma getmsg_phase0 e s :
  getmsg_block (Gst 0 e 0 []) s =
  getmsg_block (Gst 0 (e + (length s - length (skip_while is_blank s))) 0 [])
               (skip_while is_blank s).
Proof.
  revert e. induction s as [|c s IH]; intros e; [simpl; by rewrite Nat.add_0_r|].
  cbn [skip_while]. destruct (is_blank c) eqn:Hc.
  - cbn [getmsg_block]. unfold getmsg_byte. simpl. rewrite andb_true_r.
    fold (is_blank c). rewrite Hc, IH. do 2 f_equal.
    pose proof (length_skip_while is_blank s). lia.
  - by rewrite Nat.sub_diag, Nat.add_0_r.
Qed.

(** The line itself: from phase 0 on its first byte, then in phase 1. *)
Lemma getmsg_phase1 l e o line rest :
  Forall (fun c => negb (is_eol c) = true) line ->
  getmsg_block (Gst l e 1 o) (line ++ rest) =
  getmsg_block (Gst (l + length line) e 1 (o ++ take (READBUFSIZE - 2 - l) line)) rest.
Proof.
  intros Hl. revert l o. induction Hl as [|c line Hc Hl IH]; intros l o; simpl.
  { by rewrite take_nil, app_nil_r, Nat.add_0_r. }
  unfold getmsg_byte at 1. simpl. rewrite negb_true_iff in Hc. rewrite Hc, andb_false_r. simpl.
  rewrite IH. replace (l + 1 + length line)%nat with (l + S (length line))%nat by lia.
  do 2 f_equal. destruct (Nat.ltb_spec l (READBUFSIZE - 2)) as [Hlt|Hge].
  - replace (READBUFSIZE - 2 - l)%nat with (S (READBUFSIZE - 2 - (l + 1))) by lia.
    simpl. by rewrite <- app_assoc.
  - replace (READBUFSIZE - 2 - l)%nat with 0%nat by lia.
    by replace (READBUFSIZE - 2 - (l + 1))%nat with 0%nat by lia.
Qed.

Lemma getmsg_start e c line rest :
  is_blank c = false -> Forall (fun c => negb (is_eol c) = true) (c :: line) ->
  getmsg_block (Gst 0 e 0 []) ((c :: line) ++ rest) =
  getmsg_block (Gst (length (c :: line)) e 1 (take (READBUFSIZE - 2) (c :: line))) rest.
Proof.
  intros Hb Hl. inversion Hl; subst.
  transitivity (getmsg_block (Gst 0 e 1 []) ((c :: line) ++ rest)).
  - simpl. unfold getmsg_byte. simpl. unfold is_blank in Hb.
    rewrite andb_true_r, andb_false_r, orb_false_r, Hb.
    apply orb_false_iff in Hb as [-> _]. done.
  - rewrite getmsg_phase1 by done. by rewrite Nat.sub_0_r.
Qed.

(** Phase 2: blanks are counted until the next line begins. *)
Lemma getmsg_phase2 l e o s :
  let g := Gst l (e + (length s - length (skip_while is_blank s))) 2 o in
  getmsg_block (Gst l e 2 o) s = match skip_while is_blank s with [] => inl g | _ => inr g end.
Proof.
  cbv zeta. revert e. induction s as [|c s IH]; intros e; [simpl; by rewrite Nat.add_0_r|].
  cbn [skip_while getmsg_block]. unfold getmsg_byte. cbn [phase]. simpl (negb _).
  rewrite andb_true_r. fold (is_blank c). destruct (is_blank c) eqn:Hc.
  - cbn. rewrite IH. pose proof (length_skip_while is_blank s).
    replace (e + 1 + (length s - length (skip_while is_blank s)))%nat
      with (e + (S (length s) - length (skip_while is_blank s)))%nat by lia. done.
  - cbn. by rewrite Nat.sub_diag, Nat.add_0_r.
Qed.

Lemma skip_while_drop p s : skip_while p s = drop (length s - length (skip_while p s)) s.
Proof.
  induction s as [|c s IH]; [done|]. cbn [skip_while]. destruct (p c).
  - pose proof (length_skip_while p s). cbn [length].
    replace (S (length s) - length (skip_while p s))%nat
      with (S (length s - length (skip_while p s))) by lia. done.
  - by rewrite Nat.sub_diag.
Qed.

(** The scan of a byte sequence: how it ends, and that the counters add up to the
    prefix that [queue_getmsg] removes. *)
Lemma getmsg_scan q :
  match getmsg_block (Gst 0 0 0 []) q with
  | inr g =>
      (queue_getmsg q).1 = out g /\ (queue_getmsg q).2 = drop (line_bytes g + empty_bytes g) q /\
      length (out g) = Nat.min (line_bytes g) (READBUFSIZE - 2) /\
      (line_bytes g + empty_bytes g <= length q)%nat
  | inl g =>
      if (phase g =? 2)%nat then
        (queue_getmsg q).1 = out g /\ (queue_getmsg q).2 = drop (line_bytes g + empty_bytes g) q /\
        length (out g) = Nat.min (line_bytes g) (READBUFSIZE - 2) /\
        (line_bytes g + empty_bytes g <= length q)%nat
      else
        (queue_getmsg q).1 = [] /\ (queue_getmsg q).2 = drop (empty_bytes g) q /\
        (empty_bytes g <= length q)%nat
  end.
Proof.
  rewrite getmsg_phase0. unfold queue_getmsg.
  pose proof (skip_while_drop is_blank q) as Hdrop. pose proof (skip_while_head is_blank q) as Hhd.
  pose proof (length_skip_while is_blank q) as Hle. rewrite Nat.add_0_l.
  set (k := (length q - length (skip_while is_blank q))%nat) in *.
  destruct (skip_while is_blank q) as [|c s] eqn:Hs.
  { cbn. rewrite Hdrop. split_and!; [done..|subst k; lia]. }
  pose proof (span_spec (fun c => negb (is_eol c)) (c :: s)) as Hspan.
  destruct (span _ (c :: s)) as [line rest]. destruct Hspan as (Heq & Hl & Hr).
  destruct line as [|c' line].
  { destruct rest as [|x rest]; [done|]. simplify_eq/=. rewrite negb_false_iff in Hr.
    unfold is_blank in Hhd. by rewrite Hr in Hhd. }
  assert (c' = c) as -> by by simplify_eq/=. rewrite Heq, getmsg_start by done.
  assert (Hlen : length (c :: s) = (length (c :: line) + length rest)%nat)
    by by rewrite Heq, length_app.
  destruct rest as [|x rest].
  { cbn. rewrite <- Hdrop. split_and!; [done|by rewrite Heq|subst k; lia]. }
  rewrite negb_false_iff in Hr. cbn [getmsg_block]. unfold getmsg_byte. rewrite Hr. simpl orb.
  cbn [phase]. cbn -[length take skip_while]. rewrite getmsg_phase2.
  assert (Hskip : skip_while is_blank (x :: rest) = skip_while is_blank rest).
  { cbn [skip_while]. unfold is_blank at 1. by rewrite Hr. }
  rewrite Hskip. set (g := Gst _ _ 2 _).
  assert (Hfin : take (READBUFSIZE - 2) (c :: line) = out g /\
    skip_while is_blank rest = drop (line_bytes g + empty_bytes g) q /\
    length (out g) = Nat.min (line_bytes g) (READBUFSIZE - 2) /\
    (line_bytes g + empty_bytes g <= length q)%nat).
  { pose proof (length_skip_while is_blank rest). subst g. cbn [out line_bytes empty_bytes].
    split_and!; [done| |rewrite length_take; lia|subst k; simpl in *; lia].
    assert (Hrest : drop (k + length (c :: line) + 1) q = rest).
    { by rewrite <- drop_drop, <- drop_drop, <- Hdrop, Heq, drop_app_length. }
    rewrite (skip_while_drop is_blank rest) at 1. rewrite <- Hrest at 3.
    rewrite drop_drop. f_equal. simpl. lia. }
  destruct (skip_while is_blank rest); exact Hfin.
Qed.

Lemma dbuf_getmsg_spec d :
  dbuf_wf d ->
  exists d', dbuf_wf d' /\
    dbuf_getmsg d = Some (length (queue_getmsg (dbuf_bytes d)).1, (queue_getmsg (dbuf_bytes d)).1, d') /\
    dbuf_bytes d' = (queue_getmsg (dbuf_bytes d)).2.
Proof.
  intros Hwf. unfold dbuf_getmsg. rewrite getmsg_blocks_concat. fold (dbuf_bytes d).
  pose proof (getmsg_scan (dbuf_bytes d)) as H.
  destruct (getmsg_block _ _) as [g|g]; [destruct (phase g =? 2)%nat; simpl|].
  - destruct H as (H1 & H2 & H3 & H4).
    destruct (dbuf_delete_spec d _ Hwf H4) as (d' & -> & Hwf' & Hby).
    exists d'. rewrite H1, H2, H3. done.
  - destruct H as (H1 & H2 & H4).
    destruct (dbuf_delete_spec d _ Hwf H4) as (d' & -> & Hwf' & Hby).
    exists d'. rewrite H1, H2. done.
  - destruct H as (H1 & H2 & H3 & H4).
    destruct (dbuf_delete_spec d _ Hwf H4) as (d' & -> & Hwf' & Hby).
    exists d'. rewrite H1, H2, H3. done.
Qed.

(** The macro [DBufClear]. *)
Definition DBufClear (d : dbuf) : option dbuf := dbuf_delete d (db_length d).

Lemma DBufClear_spec d : dbuf_wf d -> exists d', DBufClear d = Some d' /\ dbuf_wf d' /\ dbuf_bytes d' = [].
Proof.
  intros Hwf. pose proof Hwf as [_ Hl]. unfold dbuf_bytes in Hl.
  destruct (dbuf_delete_spec d (db_length d) Hwf) as (d' & He & Hwf' & Hb); [unfold dbuf_bytes; lia|].
  exists d'. split_and!; [done|done|]. rewrite Hb. apply drop_ge. unfold dbuf_bytes. lia.
Qed.

#[export] Instance dbuf_recvq : RecvQueue dbuf := {|
  rq_ok := dbuf_wf;
  rq_bytes := dbuf_bytes;
  rq_length := db_length;
  rq_put := dbuf_put;
  rq_getmsg := dbuf_getmsg;
  rq_clear := DBufClear;
  rq_length_spec := fun q H => proj2 H;
  rq_put_spec := dbuf_put_spec;
  rq_getmsg_spec := dbuf_getmsg_spec;
  rq_clear_spec := DBufClear_spec
|}.

Lemma foldr_length_concat (bs : list (list Z)) :
  foldr (fun b n => (length b + n)%nat) 0%nat bs = length (concat bs).
Proof. induction bs as [|b bs IH]; simpl; [done|]. by rewrite length_app, IH. Qed.

Lemma dbuf_get_spec d :
  dbuf_wf d ->
  exists d', dbuf_wf d' /\ dbuf_get d = Some (length (dbuf_bytes d), dbuf_bytes d, d') /\
             dbuf_bytes d' = [].
Proof.
  intros Hwf. unfold dbuf_get. rewrite foldr_length_concat. fold (dbuf_bytes d).
  destruct (dbuf_delete_spec d (length (dbuf_bytes d)) Hwf) as (d' & -> & Hwf' & Hby); [lia|].
  exists d'. split; [done|]. split; [done|]. by rewrite Hby, drop_all.
Qed.

(** ** Sequences of operations *)

Inductive dop := DPut (buf : list Z) | DDelete (n : nat) | DGetmsg | DGet.

(** One call on the blocks and on the byte sequence: the new state and the data
    handed to the caller.  [None] is a failed assertion. *)
Definition dbuf_step (d : dbuf) (o : dop) : option (dbuf * cstring) :=
  match o with
  | DPut [] => None
  | DPut buf => Some (dbuf_put d buf, [])
  | DDelete n => option_map (fun d' => (d', [])) (dbuf_delete d n)
  | DGetmsg => option_map (fun '(_, l, d') => (d', l)) (dbuf_getmsg d)
  | DGet => option_map (fun '(_, l, d') => (d', l)) (dbuf_get d)
  end.

Definition queue_step (q : list Z) (o : dop) : option (list Z * cstring) :=
  match o with
  | DPut [] => None
  | DPut buf => Some (q ++ buf, [])
  | DDelete n => if (length q <? n)%nat then None else Some (drop n q, [])
  | DGetmsg => Some ((queue_getmsg q).2, (queue_getmsg q).1)
  | DGet => Some ([], q)
  end.

Fixpoint run {S} (step : S -> dop -> option (S * cstring)) (s : S) (os : list dop)
  : option (S * list cstring) :=
  match os with
  | [] => Some (s, [])
  | o :: os' =>
      match step s o with
      | None => None
      | Some (s', out) =>
          match run step s' os' with
          | None => None
          | Some (s'', outs) => Some (s'', out :: outs)
          end
      end
  end.

Lemma dbuf_step_refines d o :
  dbuf_wf d ->
  match queue_step (dbuf_bytes d) o with
  | Some (q', out) => exists d', dbuf_step d o = Some (d', out) /\ dbuf_wf d' /\ dbuf_bytes d' = q'
  | None => dbuf_step d o = None
  end.
Proof.
  intros Hwf. destruct o as [buf|n| |]; simpl.
  - destruct buf as [|c buf]; [done|].
    destruct (dbuf_put_spec d (c :: buf) Hwf) as [? ?]; [done|]. eauto.
  - destruct (Nat.ltb_spec (length (dbuf_bytes d)) n) as [Hlt|Hge].
    + unfold dbuf_delete. destruct Hwf as [_ ->].
      by destruct (Nat.ltb_spec (length (dbuf_bytes d)) n); [|lia].
    + destruct (dbuf_delete_spec d n Hwf Hge) as (d' & -> & ? & ?). simpl. eauto.
  - destruct (dbuf_getmsg_spec d Hwf) as (d' & ? & -> & ?). simpl. eauto.
  - destruct (dbuf_get_spec d Hwf) as (d' & ? & -> & ?). simpl. eauto.
Qed.

Lemma dbuf_run_refines os d :
  dbuf_wf d ->
  match run queue_step (dbuf_bytes d) os with
  | Some (q', outs) =>
      exists d', run dbuf_step d os = Some (d', outs) /\ dbuf_wf d' /\ dbuf_bytes d' = q'
  | None => run dbuf_step d os = None
  end.
Proof.
  revert d. induction os as [|o os IH]; intros d Hwf; simpl; [eauto|].
  pose proof (dbuf_step_refines d o Hwf) as Hs.
  destruct (queue_step (dbuf_bytes d) o) as [[q out]|]; [|by rewrite Hs].
  destruct Hs as (d' & -> & Hwf' & <-). specialize (IH d' Hwf').
  destruct (run queue_step (dbuf_bytes d') os) as [[q'' outs]|].
  - destruct IH as (d'' & -> & ? & ?). eauto.
  - by rewrite IH.
Qed.

Lemma skip_while_Forall (P : Z -> Prop) p s : Forall P s -> Forall P (skip_while p s).
Proof. rewrite skip_while_drop. apply Forall_drop. Qed.

(** ** Properties *)

(** C31: from an empty queue, every sequence of puts, deletions and extractions
    on the block list returns exactly what the same sequence returns on a plain
    byte sequence, fails its assertions exactly when that does, and leaves
    non-empty blocks within the block size and a correct byte count. *)
Theorem dbuf_refines_byte_queue (os : list dop) :
  match run queue_step [] os with
  | Some (q, outs) =>
      exists d, run dbuf_step dbuf_queue_init os = Some (d, outs) /\
                Forall block_ok (db_list d) /\
                db_length d = length q /\ concat (db_list d) = q
  | None => run dbuf_step dbuf_queue_init os = None
  end.
Proof.
  assert (Hwf : dbuf_wf dbuf_queue_init) by by unfold dbuf_wf, dbuf_bytes.
  pose proof (dbuf_run_refines os dbuf_queue_init Hwf) as H.
  change (dbuf_bytes dbuf_queue_init) with (@nil Z) in H.
  destruct (run queue_step [] os) as [[q outs]|]; [|done].
  destruct H as (d & Hr & [Hok Hl] & Hby). exists d. unfold dbuf_bytes in *. subst. auto.
Qed.

(** One line of a queue. *)
Lemma queue_getmsg_facts q :
  let line := (queue_getmsg q).1 in
  let rest := (queue_getmsg q).2 in
  (length line <= READBUFSIZE - 2)%nat /\ Forall (fun c => is_eol c = false) line /\
  (line <> [] -> (length rest < length q)%nat) /\
  (line = [] -> Forall (fun c => is_eol c = false) rest) /\ (length rest <= length q)%nat.
Proof.
  unfold queue_getmsg.
  pose proof (span_spec (fun c => negb (is_eol c)) (skip_while is_blank q)) as Hs.
  pose proof (length_skip_while is_blank q) as Hle.
  pose proof (skip_while_head is_blank q) as Hhd.
  destruct (span _ _) as [line rest]. destruct Hs as (Heq & Hl & Hr).
  assert (Hl' : Forall (fun c => is_eol c = false) line)
    by (eapply Forall_impl; [exact Hl|intros c ?%negb_true_iff; done]).
  destruct rest as [|x rest]; cbn [fst snd].
  - rewrite app_nil_r in Heq. rewrite Heq. split_and!; [simpl; lia|constructor|done|done|].
    rewrite <- Heq. done.
  - pose proof (length_skip_while is_blank (x :: rest)) as Hle'.
    pose proof (f_equal length Heq) as Hlen. rewrite length_app in Hlen.
    rewrite length_take. split_and!; [lia|by apply Forall_take| | |lia].
    + intros _. destruct line as [|c line].
      * rewrite negb_false_iff in Hr. cbn [skip_while]. unfold is_blank at 1. rewrite Hr. simpl.
        pose proof (length_skip_while is_blank rest). simpl in *. lia.
      * simpl in *. lia.
    + intros Hnil. destruct line as [|c line].
      * rewrite negb_false_iff in Hr. rewrite Heq in Hhd. simpl in Hhd.
        unfold is_blank in Hhd. by rewrite Hr in Hhd.
      * exfalso. pose proof readbuf_pos. destruct (READBUFSIZE - 2)%nat; [lia|done].
Qed.

(** A line handed out by [dbuf_getmsg] contains no CR or LF and at most
    [READBUFSIZE - 2] bytes, and the call returns its length; a non-empty line
    strictly shortens the queue, and when there is none every byte that remains
    after the leading blanks belongs to a single unterminated line. *)
Theorem dbuf_getmsg_lines (d : dbuf) (Hwf : dbuf_wf d) :
  exists ret line d',
    dbuf_getmsg d = Some (ret, line, d') /\ dbuf_wf d' /\
    ret = length line /\ (ret <= READBUFSIZE - 2)%nat /\
    Forall (fun c => is_eol c = false) line /\
    (line <> [] -> (length (dbuf_bytes d') < length (dbuf_bytes d))%nat) /\
    (line = [] -> Forall (fun c => is_eol c = false) (dbuf_bytes d')).
Proof.
  destruct (dbuf_getmsg_spec d Hwf) as (d' & Hwf' & Hg & Hby).
  eexists _, _, d'. split; [exact Hg|]. split; [done|]. split; [done|]. rewrite Hby.
  destruct (queue_getmsg_facts (dbuf_bytes d)) as (H1 & H2 & H3 & H4 & _). auto.
Qed.

Lemma dbuf_getmsg_lines_witness :
  exists ret line d',
    dbuf_getmsg (dbuf_put dbuf_queue_init (str "PING x")) = Some (ret, line, d') /\ dbuf_wf d' /\
    ret = length line /\ (ret <= READBUFSIZE - 2)%nat /\
    Forall (fun c => is_eol c = false) line /\
    (line <> [] -> (length (dbuf_bytes d') <
                    length (dbuf_bytes (dbuf_put dbuf_queue_init (str "PING x"))))%nat) /\
    (line = [] -> Forall (fun c => is_eol c = false) (dbuf_bytes d')).
Proof.
  apply dbuf_getmsg_lines.
  refine (proj1 (dbuf_put_spec dbuf_queue_init (str "PING x") _ _)).
  - split; [constructor|reflexivity].
  - discriminate.
Defined.
