(* ===== verification/Lists.v ===== *)
(** * Intrusive doubly linked lists and the containers on them (src/list.c)

    [add_ListItem], [append_ListItem], [del_ListItem] and [add_ListItemPrio] work
    on structures that start with [prev] and [next] pointers.  They are modelled
    on a heap of such links, every dereference of a missing cell being a fault
    ([None]), and proved to implement the operations of an ordinary list:
    [dlist h head l] says that the cells reachable from [head] are the items of
    [l], in that order, with consistent [prev] pointers.  The list functions with
    a payload ([NameList], [NameValuePrioList], the binary search over a
    [NameValue] table) are then modelled on plain lists. *)
From Stdlib Require Import Sorted.
From S2P Require Import Prelude Chars Strings Glob.

Abbreviation ptr := positive (only parsing).

Record link := Link { prev : option ptr; next : option ptr }.

Abbreviation heap := (gmap ptr link).

Definition set_prev (h : heap) (p : ptr) (v : option ptr) : option heap :=
  k ← h !! p; Some (<[p := Link v (next k)]> h).

Definition set_next (h : heap) (p : ptr) (v : option ptr) : option heap :=
  k ← h !! p; Some (<[p := Link (prev k) v]> h).

(** The assignments [if (q) q->prev = v] and [if (q) q->next = v]. *)
Definition set_prev_opt (h : heap) (q : option ptr) (v : option ptr) : option heap :=
  match q with Some q => set_prev h q v | None => Some h end.

Definition set_next_opt (h : heap) (q : option ptr) (v : option ptr) : option heap :=
  match q with Some q => set_next h q v | None => Some h end.

(** The macro [CHECK_NULL_LIST_ITEM]: [abort()] when the item is linked. *)
Definition check_null_list_item (h : heap) (item : ptr) : option unit :=
  k ← h !! item;
  match k with Link None None => Some tt | _ => None end.

Definition add_ListItem (h : heap) (list : option ptr) (item : ptr)
  : option (heap * option ptr) :=
  h1 ← set_next h item list;
  h2 ← set_prev h1 item None;
  h3 ← set_prev_opt h2 list (Some item);
  Some (h3, Some item).

(** [for (l = *list; l->next; l = l->next)]: the last cell. *)
Fixpoint last_item (fuel : nat) (h : heap) (l : ptr) : option ptr :=
  match fuel with
  | O => None
  | S fuel =>
      k ← h !! l;
      match next k with None => Some l | Some n => last_item fuel h n end
  end.

Definition append_ListItem (h : heap) (list : option ptr) (item : ptr)
  : option (heap * option ptr) :=
  match list with
  | None => Some (h, Some item)
  | Some first =>
      l ← last_item (size h) h first;
      h1 ← set_next h l (Some item);
      h2 ← set_prev h1 item (Some l);
      Some (h2, list)
  end.

Definition del_ListItem (h : heap) (list : option ptr) (item : option ptr)
  : option (heap * option ptr) :=
  match item with
  | None => Some (h, list)
  | Some i =>
      k ← h !! i;
      h1 ← set_next_opt h (prev k) (next k);
      k1 ← h1 !! i;
      h2 ← set_prev_opt h1 (next k1) (prev k1);
      k2 ← h2 !! i;
      let list' := if decide (list = Some i) then next k2 else list in
      Some (<[i := Link None None]> h2, list')
  end.

(** The loop of [add_ListItemPrio]: stops with [x] at the first item whose
    priority is at least [priority]; [last] is the last item visited. *)
Fixpoint prio_scan (fuel : nat) (h : heap) (pr : gmap ptr Z) (priority : Z)
    (last x : option ptr) : option (option ptr * option ptr) :=
  match fuel with
  | O => None
  | S fuel =>
      match x with
      | None => Some (last, None)
      | Some c =>
          p ← pr !! c;
          if priority <=? p then Some (Some c, Some c)
          else k ← h !! c; prio_scan fuel h pr priority (Some c) (next k)
      end
  end.

Definition add_ListItemPrio (h : heap) (pr : gmap ptr Z) (list : option ptr) (new : ptr)
    (priority : Z) : option (heap * option ptr) :=
  match list with
  | None => Some (h, Some new)
  | Some first =>
      s ← prio_scan (S (size h)) h pr priority None (Some first);
      match s with
      | (_, Some x) =>
          k ← h !! x;
          match prev k with
          | Some xp =>
              h1 ← set_prev h new (Some xp);
              h2 ← set_next h1 new (Some x);
              h3 ← set_next h2 xp (Some new);
              h4 ← set_prev h3 x (Some new);
              Some (h4, list)
          | None =>
              h1 ← set_next h new (Some x);
              h2 ← set_prev h1 x (Some new);
              Some (h2, Some new)
          end
      | (Some last, None) =>
          h1 ← set_next h last (Some new);
          h2 ← set_prev h1 new (Some last);
          Some (h2, list)
      | (None, None) => None
      end
  end.

(** The macros that the rest of the program uses. *)
Definition AddListItem (h : heap) (list : option ptr) (item : ptr)
  : option (heap * option ptr) :=
  _ ← check_null_list_item h item; add_ListItem h list item.

Definition AppendListItem (h : heap) (list : option ptr) (item : ptr)
  : option (heap * option ptr) :=
  _ ← check_null_list_item h item; append_ListItem h list item.

Definition DelListItem (h : heap) (list : option ptr) (item : ptr)
  : option (heap * option ptr) := del_ListItem h list (Some item).

Definition AddListItemPrio (h : heap) (pr : gmap ptr Z) (list : option ptr) (item : ptr)
    (prio : Z) : option (heap * option ptr * gmap ptr Z) :=
  _ ← check_null_list_item h item;
  let pr' := <[item := prio]> pr in
  r ← add_ListItemPrio h pr' list item prio;
  Some (r, pr').

(** [new] placed after the items that [skip] accepts, at the front. *)
Fixpoint insert_after {A} (skip : A -> bool) (new : A) (l : list A) : list A :=
  match l with
  | [] => [new]
  | x :: l' => if skip x then x :: insert_after skip new l' else new :: l
  end.

(** ** Lists with a payload

    On top of the links: a [NameList] is the list of its names, a
    [NameValuePrioList] the list of its entries. *)

(** [!strcasecmp(a, b)] *)
Definition strcaseeq (a b : cstring) : bool := bool_decide (same_name a b).

Definition _add_name_list (l : list cstring) (name : cstring) : list cstring := name :: l.

Definition _append_name_list (l : list cstring) (name : cstring) : list cstring := l ++ [name].

Fixpoint find_name_list (l : list cstring) (name : cstring) : option cstring :=
  match l with
  | [] => None
  | e :: l => if strcaseeq e name then Some e else find_name_list l name
  end.

(** [find_name_list_match]: [None] is a fault of [match_simple]. *)
Fixpoint find_name_list_match (l : list cstring) (name : cstring) : option (option cstring) :=
  match l with
  | [] => Some None
  | e :: l =>
      b ← match_simple e name;
      if (b : bool) then Some (Some e) else find_name_list_match l name
  end.

(** The first entry that compares equal is unlinked and freed. *)
Fixpoint _del_name_list (l : list cstring) (name : cstring) : list cstring :=
  match l with
  | [] => []
  | e :: l => if strcaseeq e name then l else e :: _del_name_list l name
  end.

Fixpoint duplicate_name_list (l : list cstring) : list cstring :=
  match l with [] => [] | e :: l => e :: duplicate_name_list l end.

Record nvp := NVP { nv_prio : Z; nv_name : cstring; nv_value : option cstring }.

(** [if (value && *value) safe_strdup(e->value, value)] *)
Definition nv_normal (value : option cstring) : option cstring :=
  match value with Some [] => None | v => v end.

Definition add_nvplist (l : list nvp) (priority : Z) (name : cstring) (value : option cstring)
  : list nvp :=
  insert_after (fun x => nv_prio x <? priority) (NVP priority name (nv_normal value)) l.

Fixpoint find_nvplist (l : list nvp) (name : cstring) : option nvp :=
  match l with
  | [] => None
  | e :: l => if strcaseeq (nv_name e) name then Some e else find_nvplist l name
  end.

Definition get_nvplist (l : list nvp) (name : cstring) : option cstring :=
  e ← find_nvplist l name; nv_value e.

Fixpoint duplicate_nvplist_append (e : list nvp) (l : list nvp) : list nvp :=
  match e with
  | [] => l
  | x :: e => duplicate_nvplist_append e (add_nvplist l (nv_prio x) (nv_name x) (nv_value x))
  end.

Definition duplicate_nvplist (e : list nvp) : list nvp := duplicate_nvplist_append e [].

(** [do_nv_find_by_name]: bisection, [start] and [stop] inclusive. *)
Fixpoint nv_search (fuel : nat) (table : list (cstring * Z)) (cmd : cstring) (start stop : Z)
  : option Z :=
  match fuel with
  | O => None
  | S fuel =>
      if start <=? stop then
        let mid := Z.quot (start + stop) 2 in
        '(name, value) ← (if 0 <=? mid then table !! Z.to_nat mid else None);
        if smycmp cmd name <? 0 then nv_search fuel table cmd start (mid - 1)
        else if bool_decide (cmd = name) then Some value
        else nv_search fuel table cmd (mid + 1) stop
      else Some 0
  end.

Definition do_nv_find_by_name (table : list (cstring * Z)) (cmd : cstring) : option Z :=
  nv_search (S (length table)) table cmd 0 (Z.of_nat (length table) - 1).

Fixpoint do_nv_find_by_value (table : list (cstring * Z)) (value : Z) : option cstring :=
  match table with
  | [] => None
  | (n, v) :: t => if v =? value then Some n else do_nv_find_by_value t value
  end.

(** ** The list a head pointer stands for *)

Definition first_or (l : list ptr) (nxt : option ptr) : option ptr :=
  match l with [] => nxt | x :: _ => Some x end.

Fixpoint last_or (pv : option ptr) (l : list ptr) : option ptr :=
  match l with [] => pv | x :: l => last_or (Some x) l end.

(** The cells of [l], entered from [pv] and leaving to [nxt]. *)
Fixpoint lseg (h : heap) (pv : option ptr) (l : list ptr) (nxt : option ptr) : Prop :=
  match l with
  | [] => True
  | x :: l' => h !! x = Some (Link pv (first_or l' nxt)) /\ lseg h (Some x) l' nxt
  end.

Definition dlist (h : heap) (head : option ptr) (l : list ptr) : Prop :=
  NoDup l /\ head = first_or l None /\ lseg h None l None.

(** What an operation on one list leaves alone: every other cell. *)
Definition frame (h h' : heap) (l : list ptr) : Prop :=
  forall y, y ∉ l -> h' !! y = h !! y.

Lemma lseg_app h pv l1 l2 nxt :
  lseg h pv (l1 ++ l2) nxt <->
  lseg h pv l1 (first_or l2 nxt) /\ lseg h (last_or pv l1) l2 nxt.
Proof.
  revert pv. induction l1 as [|x l1 IH]; intros pv; simpl; [tauto|].
  rewrite IH. destruct l1; simpl; tauto.
Qed.

Lemma lseg_insert h pv l nxt p k : p ∉ l -> lseg (<[p := k]> h) pv l nxt <-> lseg h pv l nxt.
Proof.
  revert pv. induction l as [|x l IH]; intros pv Hp; simpl; [done|].
  rewrite not_elem_of_cons in Hp. destruct Hp as [Hx Hp].
  rewrite lookup_insert_ne by done. by rewrite IH.
Qed.

Lemma last_or_snoc pv l x : last_or pv (l ++ [x]) = Some x.
Proof. revert pv. induction l; intros; simpl; auto. Qed.

Lemma first_or_snoc l x nxt : first_or (l ++ [x]) nxt = first_or l (Some x).
Proof. by destruct l. Qed.

(** A non-empty list seen from its end. *)
Lemma last_or_cases (l : list ptr) : l = [] \/ exists l' x, l = l' ++ [x].
Proof. destruct l using rev_ind; eauto. Qed.

(** The links of a whole list, around a distinguished cell. *)
Lemma lseg_mid h pv l1 x l2 nxt :
  lseg h pv (l1 ++ x :: l2) nxt <->
  lseg h pv l1 (Some x) /\ h !! x = Some (Link (last_or pv l1) (first_or l2 nxt)) /\
  lseg h (Some x) l2 nxt.
Proof. rewrite lseg_app. simpl. tauto. Qed.

(** Redirecting the exit of a segment is one write, to its last cell. *)
Lemma set_next_last h pv l nxt nxt' :
  NoDup l -> lseg h pv l nxt ->
  exists h', set_next_opt h (last_or None l) nxt' = Some h' /\
    lseg h' pv l nxt' /\ frame h h' l.
Proof.
  intros Hnd Hl. destruct (last_or_cases l) as [->|(l' & x & ->)].
  - exists h. simpl. by split_and!.
  - apply lseg_mid in Hl. destruct Hl as (Hl & Hx & _).
    apply NoDup_app in Hnd. destruct Hnd as (_ & Hd & _).
    rewrite last_or_snoc. simpl. unfold set_next. rewrite Hx. simpl.
    eexists. split; [done|]. split.
    + apply lseg_mid. split_and!; [|by rewrite lookup_insert_eq|done].
      apply lseg_insert; [|done]. intros ?. eapply Hd; [done|set_solver].
    + intros y Hy. rewrite lookup_insert_ne by set_solver. done.
Qed.

(** Redirecting the entry of a segment is one write, to its first cell. *)
Lemma set_prev_first h pv pv' l nxt :
  NoDup l -> lseg h pv l nxt ->
  exists h', set_prev_opt h (first_or l None) pv' = Some h' /\
    lseg h' pv' l nxt /\ frame h h' l.
Proof.
  intros Hnd Hl. destruct l as [|x l].
  - exists h. simpl. by split_and!.
  - simpl in Hl. destruct Hl as [Hx Hl]. apply NoDup_cons in Hnd. destruct Hnd as [Hn _].
    simpl. unfold set_prev. rewrite Hx. simpl. eexists. split; [done|]. split.
    + split; [by rewrite lookup_insert_eq|]. by apply lseg_insert.
    + intros y Hy. rewrite lookup_insert_ne by set_solver. done.
Qed.

Lemma lseg_frame h h' pv l nxt : (forall y, y ∈ l -> h' !! y = h !! y) ->
  lseg h pv l nxt -> lseg h' pv l nxt.
Proof.
  revert pv. induction l as [|x l IH]; intros pv Hf; simpl; [done|].
  intros [Hx Hl]. split; [rewrite Hf by set_solver; done|]. apply IH; [|done]. set_solver.
Qed.

Lemma last_item_spec h pv l x fuel :
  lseg h pv (l ++ [x]) None -> (length l < fuel)%nat ->
  forall f, first_or (l ++ [x]) None = Some f -> last_item fuel h f = Some x.
Proof.
  revert pv fuel. induction l as [|y l IH]; intros pv fuel Hl Hf f Hff; simpl in *;
    destruct fuel as [|fuel]; try lia; simplify_eq; destruct Hl as [Hx Hl]; simpl; rewrite Hx; simpl;
    [done|].
  destruct (l ++ [x]) as [|z l'] eqn:E; [by destruct l|]. simpl. eapply IH; [done|lia|done].
Qed.

Lemma lseg_dom h pv l nxt : lseg h pv l nxt -> forall x, x ∈ l -> is_Some (h !! x).
Proof.
  revert pv. induction l as [|y l IH]; intros pv Hl x Hx; [set_solver|].
  destruct Hl as [Hy Hl]. apply elem_of_cons in Hx as [->|Hx]; eauto.
Qed.

Lemma lseg_size h pv l nxt : NoDup l -> lseg h pv l nxt -> (length l <= size h)%nat.
Proof.
  intros Hnd Hl. rewrite <- (size_list_to_set (C := gset ptr)) by done.
  rewrite <- size_dom. apply subseteq_size. intros x Hx%elem_of_list_to_set.
  apply elem_of_dom. by eapply lseg_dom.
Qed.

Lemma first_or_none l : first_or l None = None -> l = [].
Proof. by destruct l. Qed.

Lemma add_ListItem_spec h list l item k :
  dlist h list l -> item ∉ l -> h !! item = Some k ->
  exists h', add_ListItem h list item = Some (h', Some item) /\
    dlist h' (Some item) (item :: l) /\ frame h h' (item :: l).
Proof.
  intros (Hnd & -> & Hl) Hi Hk. unfold add_ListItem, set_next, set_prev. rewrite Hk. simpl.
  rewrite lookup_insert_eq. simpl. rewrite insert_insert_eq.
  set (h1 := <[item := _]> h).
  destruct (set_prev_first h1 None (Some item) l None) as (h' & He & Hl' & Hf); [done| |].
  { by apply lseg_insert. }
  rewrite He. simpl. exists h'. split; [done|]. split; [split_and!; [by constructor|done|]|].
  - simpl. rewrite (Hf item) by done. unfold h1. by rewrite lookup_insert_eq.
  - intros y Hy. rewrite Hf by set_solver. apply lookup_insert_ne. set_solver.
Qed.

Lemma append_ListItem_spec h list l item :
  dlist h list l -> item ∉ l -> h !! item = Some (Link None None) ->
  exists h', append_ListItem h list item = Some (h', first_or (l ++ [item]) None) /\
    dlist h' (first_or (l ++ [item]) None) (l ++ [item]) /\ frame h h' (l ++ [item]).
Proof.
  intros (Hnd & -> & Hl) Hi Hk.
  assert (Hnd' : NoDup (l ++ [item])) by (apply NoDup_app; split_and!;
    [done|set_solver|apply NoDup_singleton]).
  destruct (last_or_cases l) as [->|(l' & x & ->)].
  - exists h. simpl. split; [done|]. split; [|done]. by split_and!.
  - pose proof (lseg_size _ _ _ _ Hnd Hl) as Hsz. rewrite length_app in Hsz. simpl in Hsz.
    destruct (set_next_last h None (l' ++ [x]) None (Some item) Hnd Hl) as (h1 & He & Hl1 & Hf).
    rewrite last_or_snoc in He. simpl in He. destruct (first_or (l' ++ [x]) None) as [f|] eqn:Ef;
      [|by apply first_or_none in Ef; destruct l'].
    unfold append_ListItem. rewrite (last_item_spec _ _ _ _ _ Hl) with (f := f) by (done || lia).
    simpl. rewrite He. simpl. unfold set_prev. rewrite (Hf item) by done. rewrite Hk. simpl.
    eexists. split; [f_equal; f_equal; rewrite <- Ef; by destruct l'|].
    split; [split_and!; [done|done|]|].
    + apply lseg_mid. split_and!; [|by rewrite lookup_insert_eq, last_or_snoc|done].
      by apply lseg_insert.
    + intros y Hy. rewrite lookup_insert_ne by set_solver. apply Hf. set_solver.
Qed.

(** Unlinking one cell, from anywhere in the list. *)
Lemma del_ListItem_spec h list l1 item l2 :
  dlist h list (l1 ++ item :: l2) ->
  exists h', del_ListItem h list (Some item) = Some (h', first_or (l1 ++ l2) None) /\
    dlist h' (first_or (l1 ++ l2) None) (l1 ++ l2) /\
    h' !! item = Some (Link None None) /\ frame h h' (l1 ++ item :: l2).
Proof.
  intros (Hnd & -> & Hl). apply lseg_mid in Hl. destruct Hl as (Hl1 & Hi & Hl2).
  apply NoDup_app in Hnd as (Hn1 & Hd & Hn2). apply NoDup_cons in Hn2 as [Hi2 Hn2].
  assert (Hi1 : item ∉ l1) by (intros ?; eapply Hd; [done|set_solver]).
  destruct (set_next_last h None l1 (Some item) (first_or l2 None) Hn1 Hl1) as (h1 & He1 & Hl1' & Hf1).
  assert (Hl2' : lseg h1 (Some item) l2 None).
  { eapply lseg_frame; [|done]. intros y Hy. apply Hf1. intros ?. eapply Hd; [done|set_solver]. }
  destruct (set_prev_first h1 (Some item) (last_or None l1) l2 None Hn2 Hl2') as (h2 & He2 & Hl2'' & Hf2).
  unfold del_ListItem. rewrite Hi. simpl. rewrite He1. simpl. rewrite (Hf1 item) by done. rewrite Hi.
  simpl. rewrite He2. simpl. rewrite (Hf2 item), (Hf1 item), Hi by done. simpl.
  eexists. split; [f_equal; f_equal|split; [split_and!|split]].
  - destruct l1 as [|a l1]; simpl; [by rewrite decide_True|]. rewrite decide_False; [done|set_solver].
  - apply NoDup_app. split_and!; [done| |done]. intros y Hy ?. eapply Hd; [done|set_solver].
  - done.
  - apply lseg_app. split; (apply lseg_insert; [done|]); [|done].
    eapply lseg_frame; [|done]. intros y Hy. apply Hf2. intros ?. eapply Hd; [done|set_solver].
  - apply lookup_insert_eq.
  - intros y Hy. rewrite lookup_insert_ne by set_solver. rewrite Hf2, Hf1 by set_solver. done.
Qed.

(** ** Insertion by priority *)

Definition below (pr : gmap ptr Z) (priority : Z) (x : ptr) : bool :=
  match pr !! x with Some p => p <? priority | None => false end.

Definition insert_prio (pr : gmap ptr Z) (priority : Z) (new : ptr) (l : list ptr) : list ptr :=
  insert_after (below pr priority) new l.

Definition covers (pr : gmap ptr Z) (l : list ptr) : Prop :=
  Forall (fun x => is_Some (pr !! x)) l.

(** The scan finds where [insert_prio] inserts. *)
Lemma prio_scan_spec h pr priority l1 l2 pv fuel :
  covers pr (l1 ++ l2) -> Forall (fun x => below pr priority x = true) l1 ->
  match l2 with x :: _ => below pr priority x = false | [] => True end ->
  lseg h pv (l1 ++ l2) None -> (length l1 < fuel)%nat ->
  prio_scan fuel h pr priority pv (first_or (l1 ++ l2) None) =
  Some (match l2 with x :: _ => (Some x, Some x) | [] => (last_or pv l1, None) end).
Proof.
  unfold covers.
  revert pv fuel. induction l1 as [|y l1 IH]; intros pv fuel Hc Hb H2 Hl Hf;
    (destruct fuel as [|fuel]; [simpl in Hf; lia|]).
  - destruct l2 as [|x l2]; simpl; [done|]. inv Hc as [|? ? [p Hp] _].
    unfold below in H2. rewrite Hp in H2 |- *. simpl. bdestr. done.
  - simpl in *. inv Hc as [|? ? [p Hp] Hc']. inv Hb as [|? ? Hy Hb']. destruct Hl as [Hy' Hl].
    unfold below in Hy. rewrite Hp in Hy |- *. simpl. bdestr. rewrite Hy'. simpl.
    apply IH; try done. lia.
Qed.

Lemma insert_after_split {A} (skip : A -> bool) new l : exists l1 l2,
  l = l1 ++ l2 /\ insert_after skip new l = l1 ++ new :: l2 /\
  Forall (fun x => skip x = true) l1 /\
  match l2 with x :: _ => skip x = false | [] => True end.
Proof.
  induction l as [|x l (l1 & l2 & -> & He & Hb & H2)]; simpl.
  - exists [], []. split_and!; constructor.
  - destruct (skip x) eqn:E.
    + exists (x :: l1), l2. rewrite He. split_and!; try done. by constructor.
    + exists [], (x :: l1 ++ l2). split_and!; try done; constructor.
Qed.

Lemma insert_after_perm {A} (skip : A -> bool) new l : Permutation (insert_after skip new l) (new :: l).
Proof.
  destruct (insert_after_split skip new l) as (l1 & l2 & -> & -> & _).
  by rewrite Permutation_middle.
Qed.

(** A cell spliced between [l1] and [l2]: three cells change. *)
Lemma lseg_splice h h' l1 new l2 :
  NoDup (l1 ++ new :: l2) -> lseg h None (l1 ++ l2) None ->
  h' !! new = Some (Link (last_or None l1) (first_or l2 None)) ->
  (forall l x, l1 = l ++ [x] -> h' !! x = Some (Link (last_or None l) (Some new))) ->
  (forall x l, l2 = x :: l -> h' !! x = Some (Link (Some new) (first_or l None))) ->
  (forall y, Some y <> last_or None l1 -> Some y <> first_or l2 None -> y <> new -> h' !! y = h !! y) ->
  lseg h' None (l1 ++ new :: l2) None.
Proof.
  intros Hnd Hl Hnew Hlast Hfirst Hrest. apply lseg_app in Hl as [H1 H2].
  apply NoDup_app in Hnd as (Hn1 & Hd & Hn2). apply NoDup_cons in Hn2 as [Hn Hn2].
  apply lseg_mid. split_and!; [|done|].
  - destruct (last_or_cases l1) as [->|(l & x & ->)]; [done|].
    apply lseg_mid in H1 as (H1 & _ & _). apply lseg_mid. split_and!; [|by apply Hlast|done].
    apply NoDup_app in Hn1 as (_ & Hx & _). eapply lseg_frame; [|done].
    intros y Hy. apply Hrest.
    + rewrite last_or_snoc. intros [= ->]. eapply Hx; [done|set_solver].
    + destruct l2 as [|z l2]; [done|]. simpl. intros [= ->].
      eapply (Hd z); set_solver.
    + intros ->. eapply (Hd new); set_solver.
  - destruct l2 as [|x l2]; [done|]. split; [by apply Hfirst|]. destruct H2 as [_ H2].
    apply NoDup_cons in Hn2 as [Hx Hn2].
    eapply lseg_frame; [|done]. intros y Hy. apply Hrest.
    + intros He. destruct (last_or_cases l1) as [->|(l & z & ->)]; [done|].
      rewrite last_or_snoc in He. simplify_eq. eapply (Hd z); set_solver.
    + simpl. intros [= ->]. done.
    + intros ->. set_solver.
Qed.

(** The three places where [add_ListItemPrio] links the new cell. *)
Lemma splice_head h x l2 new :
  NoDup (new :: x :: l2) -> lseg h None (x :: l2) None -> h !! new = Some (Link None None) ->
  exists h', (h1 ← set_next h new (Some x); h2 ← set_prev h1 x (Some new); Some h2) = Some h' /\
    lseg h' None (new :: x :: l2) None /\ frame h h' (new :: x :: l2).
Proof.
  intros Hnd Hl Hnew. assert (new <> x) by (apply NoDup_cons in Hnd; set_solver).
  pose proof Hl as [Hx _]. unfold set_next, set_prev. rewrite Hnew. simpl.
  rewrite lookup_insert_ne, Hx by done. simpl. eexists. split; [done|]. split.
  - apply (lseg_splice h _ [] new (x :: l2)); simpl; [done|done|..].
    + by rewrite lookup_insert_ne, lookup_insert_eq by done.
    + intros [|??] ?; done.
    + intros ? ? [= <- <-]. by rewrite lookup_insert_eq.
    + intros y _ ? ?. by rewrite !lookup_insert_ne by congruence.
  - intros y Hy. by rewrite !lookup_insert_ne by set_solver.
Qed.

Lemma splice_last h m z new :
  NoDup ((m ++ [z]) ++ [new]) -> lseg h None (m ++ [z]) None -> h !! new = Some (Link None None) ->
  exists h', (h1 ← set_next h z (Some new); h2 ← set_prev h1 new (Some z); Some h2) = Some h' /\
    lseg h' None ((m ++ [z]) ++ [new]) None /\ frame h h' ((m ++ [z]) ++ [new]).
Proof.
  intros Hnd Hl Hnew. assert (new <> z).
  { intros ->. apply NoDup_app in Hnd as (_ & Hd & _). eapply (Hd z); set_solver. }
  pose proof Hl as (_ & Hz & _)%lseg_mid. unfold set_next, set_prev. rewrite Hz. simpl.
  rewrite lookup_insert_ne, Hnew by done. simpl. eexists. split; [done|]. split.
  - apply (lseg_splice h _ (m ++ [z]) new []); [done|by rewrite app_nil_r|..].
    + by rewrite lookup_insert_eq, last_or_snoc.
    + intros l w [-> [= ->]]%app_inj_tail. by rewrite lookup_insert_ne, lookup_insert_eq by done.
    + done.
    + rewrite last_or_snoc. intros y ? _ ?. by rewrite !lookup_insert_ne by congruence.
  - intros y Hy. by rewrite !lookup_insert_ne by set_solver.
Qed.

Lemma splice_between h m z x l2 new :
  NoDup ((m ++ [z]) ++ new :: x :: l2) -> lseg h None ((m ++ [z]) ++ x :: l2) None ->
  h !! new = Some (Link None None) ->
  exists h', (h1 ← set_prev h new (Some z); h2 ← set_next h1 new (Some x);
              h3 ← set_next h2 z (Some new); h4 ← set_prev h3 x (Some new); Some h4) = Some h' /\
    lseg h' None ((m ++ [z]) ++ new :: x :: l2) None /\ frame h h' ((m ++ [z]) ++ new :: x :: l2).
Proof.
  intros Hnd Hl Hnew. pose proof Hnd as (_ & Hd & Hn2)%NoDup_app.
  assert (z <> new) by (intros ->; eapply (Hd new); set_solver).
  assert (z <> x) by (intros ->; eapply (Hd x); set_solver).
  assert (x <> new) by (apply NoDup_cons in Hn2; set_solver).
  pose proof Hl as (Hl1 & Hx & _)%lseg_mid. apply lseg_mid in Hl1 as (_ & Hz & _).
  rewrite last_or_snoc in Hx. unfold set_next, set_prev. rewrite Hnew. simpl.
  rewrite lookup_insert_eq. simpl. rewrite insert_insert_eq, lookup_insert_ne, Hz by done. simpl.
  rewrite !lookup_insert_ne, Hx by done. simpl. eexists. split; [done|]. split.
  - eapply lseg_splice; [done|exact Hl|..].
    + rewrite !lookup_insert_ne, lookup_insert_eq by done. by rewrite last_or_snoc.
    + intros l w [-> [= ->]]%app_inj_tail. by rewrite lookup_insert_ne, lookup_insert_eq by done.
    + intros ? ? [= <- <-]. by rewrite lookup_insert_eq.
    + rewrite last_or_snoc. simpl. intros y ? ? ?. by rewrite !lookup_insert_ne by congruence.
  - intros y Hy. by rewrite !lookup_insert_ne by set_solver.
Qed.

Lemma add_ListItemPrio_spec h pr list l new priority :
  dlist h list l -> new ∉ l -> h !! new = Some (Link None None) -> covers pr l ->
  let l' := insert_prio pr priority new l in
  exists h', add_ListItemPrio h pr list new priority = Some (h', first_or l' None) /\
    dlist h' (first_or l' None) l' /\ frame h h' l'.
Proof.
  intros (Hnd & -> & Hl) Hi Hnew Hc l'. subst l'. unfold insert_prio.
  destruct (insert_after_split (below pr priority) new l) as (l1 & l2 & -> & -> & Hb & H2).
  assert (Hnd' : NoDup (l1 ++ new :: l2)).
  { rewrite <- Permutation_middle. by constructor. }
  pose proof (lseg_size _ _ _ _ Hnd Hl) as Hsz. rewrite length_app in Hsz.
  pose proof (prio_scan_spec h pr priority l1 l2 None (S (size h)) Hc Hb H2 Hl ltac:(lia)) as Hs.
  destruct (first_or (l1 ++ l2) None) as [f|] eqn:Ef.
  2:{ apply first_or_none in Ef. apply app_nil in Ef as [-> ->]. exists h. by split_and!. }
  unfold add_ListItemPrio. rewrite Hs. simpl. clear Hs. destruct l2 as [|x l2].
  - destruct (last_or_cases l1) as [->|(m & z & ->)]; [done|]. rewrite last_or_snoc.
    rewrite app_nil_r in *. destruct (splice_last h m z new Hnd' Hl Hnew) as (h' & He & Hl' & Hf).
    exists h'. apply bind_Some in He as (h1 & -> & He). simpl. apply bind_Some in He as (h2 & -> & [= ->]).
    simpl. split; [f_equal; f_equal; rewrite <- Ef; by destruct m|by split_and!].
  - pose proof Hl as (_ & Hx & _)%lseg_mid. rewrite Hx. simpl.
    destruct (last_or_cases l1) as [->|(m & z & ->)]; simpl.
    + simpl in *. destruct (splice_head h x l2 new Hnd' Hl Hnew) as (h' & He & Hl' & Hf).
      exists h'. apply bind_Some in He as (h1 & -> & He). simpl. apply bind_Some in He as (h2 & -> & [= ->]).
      simpl. by split_and!.
    + rewrite last_or_snoc. destruct (splice_between h m z x l2 new Hnd' Hl Hnew) as (h' & He & Hl' & Hf).
      exists h'. apply bind_Some in He as (h1 & -> & He). simpl. apply bind_Some in He as (h2 & -> & He).
      simpl. apply bind_Some in He as (h3 & -> & He). simpl. apply bind_Some in He as (h4 & -> & [= ->]).
      simpl. split; [f_equal; f_equal; rewrite <- Ef; by destruct m|by split_and!].
Qed.

(** ** Histories of list operations *)

Inductive lop := LAdd (x : ptr) | LAppend (x : ptr) | LDel (x : ptr) | LAddPrio (x : ptr) (prio : Z).

Record lstate := LState { ls_heap : heap; ls_head : option ptr; ls_prio : gmap ptr Z }.

Definition lstep (s : lstate) (o : lop) : option lstate :=
  match o with
  | LAdd x => '(h, hd) ← AddListItem (ls_heap s) (ls_head s) x; Some (LState h hd (ls_prio s))
  | LAppend x => '(h, hd) ← AppendListItem (ls_heap s) (ls_head s) x; Some (LState h hd (ls_prio s))
  | LDel x => '(h, hd) ← DelListItem (ls_heap s) (ls_head s) x; Some (LState h hd (ls_prio s))
  | LAddPrio x p =>
      '(h, hd, pr) ← AddListItemPrio (ls_heap s) (ls_prio s) (ls_head s) x p;
      Some (LState h hd pr)
  end.

(** The list the same operations build, when no item is added twice. *)
Definition astep (cells : gset ptr) (a : list ptr * gmap ptr Z) (o : lop)
  : option (list ptr * gmap ptr Z) :=
  let '(l, pr) := a in
  let fresh x := bool_decide (x ∈ cells /\ x ∉ l) in
  match o with
  | LAdd x => if fresh x then Some (x :: l, pr) else None
  | LAppend x => if fresh x then Some (l ++ [x], pr) else None
  | LDel x => if bool_decide (x ∈ cells) then Some (filter (fun y => y <> x) l, pr) else None
  | LAddPrio x p =>
      if fresh x then let pr' := <[x := p]> pr in Some (insert_prio pr' p x l, pr') else None
  end.

Fixpoint steps {S} (step : S -> lop -> option S) (s : S) (ops : list lop) : option S :=
  match ops with [] => Some s | o :: ops => s' ← step s o; steps step s' ops end.

(** Zero-filled cells, as the allocator returns them. *)
Definition linit (cells : gset ptr) : lstate :=
  LState (gset_to_gmap (Link None None) cells) None (gset_to_gmap 0 cells).

Definition linv (cells : gset ptr) (s : lstate) (a : list ptr * gmap ptr Z) : Prop :=
  dlist (ls_heap s) (ls_head s) a.1 /\ ls_prio s = a.2 /\
  (forall x, x ∈ cells -> is_Some (a.2 !! x)) /\ (forall x, x ∈ a.1 -> x ∈ cells) /\
  (forall x, x ∈ cells -> x ∉ a.1 -> ls_heap s !! x = Some (Link None None)).

Lemma filter_not_in (x : ptr) (l : list ptr) : x ∉ l -> filter (fun y => y <> x) l = l.
Proof.
  intros Hx. induction l as [|y l IH]; [done|]. rewrite filter_cons_True by set_solver.
  f_equal. apply IH. set_solver.
Qed.

Lemma check_null_ok h x : h !! x = Some (Link None None) -> check_null_list_item h x = Some tt.
Proof. intros H. unfold check_null_list_item. by rewrite H. Qed.

Lemma insert_prio_elem pr p x l y : y ∈ insert_prio pr p x l <-> y = x \/ y ∈ l.
Proof. unfold insert_prio. rewrite insert_after_perm. set_solver. Qed.

Lemma lstep_del cells s l pr x :
  linv cells s (l, pr) -> x ∈ cells ->
  exists s', lstep s (LDel x) = Some s' /\ linv cells s' (filter (fun y => y <> x) l, pr).
Proof.
  intros (Hd & Hp & Hpr & Hin & Hfree) Hx. simpl in *. unfold DelListItem.
  destruct (decide (x ∈ l)) as [Hxl|Hxl].
  - apply list_elem_of_split in Hxl as (l1 & l2 & ->).
    destruct (del_ListItem_spec _ _ _ _ _ Hd) as (h' & -> & Hd' & Hx' & Hf). simpl.
    pose proof Hd as (Hnd & _ & _). apply NoDup_app in Hnd as (_ & Hdj & Hn2).
    apply NoDup_cons in Hn2 as [Hn2 _].
    rewrite filter_app, filter_cons_False by (intros ?; done).
    rewrite !filter_not_in by (done || intros ?; eapply Hdj; set_solver).
    eexists. split; [done|]. split_and!; simpl; [done|done|done|set_solver|].
    intros y Hy Hyn. destruct (decide (y = x)) as [->|]; [done|].
    rewrite Hf by set_solver. apply Hfree; set_solver.
  - rewrite filter_not_in by done. unfold del_ListItem. rewrite (Hfree x) by done. simpl.
    rewrite (Hfree x) by done. simpl. rewrite (Hfree x) by done. simpl.
    eexists. split; [done|]. rewrite insert_id by (by apply Hfree).
    rewrite decide_False; [by split_and!|]. destruct Hd as (_ & -> & _). destruct l; set_solver.
Qed.

Lemma lstep_ok cells s a o a' :
  linv cells s a -> astep cells a o = Some a' ->
  exists s', lstep s o = Some s' /\ linv cells s' a'.
Proof.
  intros Hinv. destruct a as [l pr]. destruct o as [x|x|x|x p]; simpl;
    (case_bool_decide as Hx; [|done]); intros [= <-].
  3:{ by apply lstep_del. }
  all: destruct Hinv as (Hd & Hp & Hpr & Hin & Hfree); simpl in *; destruct Hx as [Hxc Hxl];
    pose proof (Hfree x Hxc Hxl) as Hnull.
  - unfold AddListItem. rewrite check_null_ok by done. simpl.
    destruct (add_ListItem_spec _ _ _ _ _ Hd Hxl Hnull) as (h' & -> & Hd' & Hf). simpl.
    eexists. split; [done|]. split_and!; simpl; [done|done|done|set_solver|].
    intros y Hy Hyn. rewrite Hf by done. apply Hfree; set_solver.
  - unfold AppendListItem. rewrite check_null_ok by done. simpl.
    destruct (append_ListItem_spec _ _ _ _ Hd Hxl Hnull) as (h' & -> & Hd' & Hf). simpl.
    eexists. split; [done|]. split_and!; simpl; [done|done|done|set_solver|].
    intros y Hy Hyn. rewrite Hf by done. apply Hfree; set_solver.
  - unfold AddListItemPrio. rewrite check_null_ok by done. simpl. subst pr.
    destruct (add_ListItemPrio_spec _ (<[x := p]> (ls_prio s)) _ _ x p Hd Hxl Hnull)
      as (h' & -> & Hd' & Hf).
    { apply Forall_forall. intros y Hy. destruct (decide (y = x)) as [->|];
        [by rewrite lookup_insert_eq|]. rewrite lookup_insert_ne by done. eauto. }
    simpl. eexists. split; [done|]. split_and!; simpl; [done|done| | |].
    + intros y Hy. destruct (decide (y = x)) as [->|]; [by rewrite lookup_insert_eq|].
      rewrite lookup_insert_ne by done. eauto.
    + intros y [->|?]%insert_prio_elem; eauto.
    + intros y Hy Hyn. rewrite Hf by done. rewrite insert_prio_elem in Hyn. apply Hfree; tauto.
Qed.

Lemma linit_inv cells : linv cells (linit cells) ([], gset_to_gmap 0 cells).
Proof.
  split_and!; simpl.
  - split_and!; [constructor|done|done].
  - done.
  - intros x Hx. exists 0. by apply lookup_gset_to_gmap_Some.
  - set_solver.
  - intros x Hx _. by apply lookup_gset_to_gmap_Some.
Qed.

Lemma steps_ok cells ops s a a' :
  linv cells s a -> steps (astep cells) a ops = Some a' ->
  exists s', steps lstep s ops = Some s' /\ linv cells s' a'.
Proof.
  revert s a. induction ops as [|o ops IH]; intros s a Hinv; simpl.
  - intros [= <-]. eauto.
  - intros (a1 & Ha & Hr)%bind_Some. destruct (lstep_ok _ _ _ _ _ Hinv Ha) as (s1 & -> & Hinv1).
    simpl. eauto.
Qed.

(** *** Priorities *)

Definition nv_le (a b : nvp) : Prop := nv_prio a <= nv_prio b.

Lemma add_nvplist_split l priority name value :
  StronglySorted nv_le l ->
  exists l1 l2, l = l1 ++ l2 /\
    add_nvplist l priority name value = l1 ++ NVP priority name (nv_normal value) :: l2 /\
    Forall (fun x => nv_prio x < priority) l1 /\ Forall (fun x => priority <= nv_prio x) l2.
Proof.
  intros Hs. unfold add_nvplist. destruct (insert_after_split (fun x => nv_prio x <? priority)
    (NVP priority name (nv_normal value)) l) as (l1 & l2 & -> & He & H1 & H2).
  exists l1, l2. split_and!; [done|done| |].
  - eapply Forall_impl; [exact H1|]. intros x ?%Z.ltb_lt. done.
  - destruct l2 as [|x l2]; [constructor|]. apply Z.ltb_ge in H2. constructor; [done|].
    clear He H1. induction l1 as [|y l1 IH]; [|apply IH; by inv Hs].
    inv Hs as [|? ? _ Hf]. eapply Forall_impl; [exact Hf|]. unfold nv_le. intros z ?. lia.
Qed.

Lemma sorted_mid l1 x l2 :
  StronglySorted nv_le (l1 ++ l2) -> Forall (fun y => nv_prio y < nv_prio x) l1 ->
  Forall (fun y => nv_prio x <= nv_prio y) l2 -> StronglySorted nv_le (l1 ++ x :: l2).
Proof.
  induction l1 as [|y l1 IH]; simpl; intros Hs H1 H2.
  - by constructor.
  - inv Hs as [|? ? Hs' Hf]. inv H1 as [|? ? Hy H1']. constructor; [by apply IH|].
    apply Forall_app in Hf as [Hf1 Hf2]. apply Forall_app. split; [done|].
    constructor; [unfold nv_le; lia|done].
Qed.

Lemma add_nvplist_sorted l priority name value :
  StronglySorted nv_le l -> StronglySorted nv_le (add_nvplist l priority name value).
Proof.
  intros Hs. destruct (add_nvplist_split l priority name value Hs) as (l1 & l2 & -> & -> & H1 & H2).
  by apply sorted_mid.
Qed.

(** The copy of an entry. *)
Definition nv_copy (x : nvp) : nvp := NVP (nv_prio x) (nv_name x) (nv_normal (nv_value x)).

Lemma duplicate_append_spec e l :
  StronglySorted nv_le l ->
  StronglySorted nv_le (duplicate_nvplist_append e l) /\
  Permutation (duplicate_nvplist_append e l) (map nv_copy e ++ l).
Proof.
  revert l. induction e as [|x e IH]; intros l Hs; simpl; [done|].
  destruct (IH (add_nvplist l (nv_prio x) (nv_name x) (nv_value x))) as [H1 H2];
    [by apply add_nvplist_sorted|].
  split; [done|]. rewrite H2. unfold add_nvplist. rewrite insert_after_perm.
  by rewrite Permutation_middle.
Qed.

(** Among equal priorities every insertion goes to the front. *)
Lemma duplicate_append_equal p e l :
  Forall (fun x => nv_prio x = p) e -> Forall (fun x => nv_prio x = p) l ->
  duplicate_nvplist_append e l = rev (map nv_copy e) ++ l.
Proof.
  revert l. induction e as [|x e IH]; intros l He Hl; simpl; [done|].
  inv He as [|? ? Hx He']. rewrite IH; [|done|].
  - unfold add_nvplist. rewrite <- app_assoc. simpl. f_equal. destruct l as [|y l]; simpl; [done|].
    inv Hl as [|? ? Hy _]. by rewrite Hy, Z.ltb_irrefl.
  - apply Forall_forall. intros y. unfold add_nvplist. rewrite insert_after_perm.
    rewrite Forall_forall in Hl. intros [->|?]%elem_of_cons; [done|eauto].
Qed.

(** *** Bisection *)

(** A table as the program declares them: names in strictly increasing order. *)
Definition table_sorted (table : list (cstring * Z)) : Prop :=
  forall i j a b, (i < j)%nat -> table !! i = Some a -> table !! j = Some b ->
  smycmp a.1 b.1 < 0.

Lemma nv_search_found table cmd v k :
  Forall (fun e => cstr e.1) table -> table_sorted table -> table !! k = Some (cmd, v) ->
  forall fuel start stop,
  0 <= start -> start <= Z.of_nat k <= stop -> stop < Z.of_nat (length table) ->
  (Z.to_nat (stop - start) < fuel)%nat ->
  nv_search fuel table cmd start stop = Some v.
Proof.
  intros Hc Hs Hk. induction fuel as [|fuel IH]; intros start stop H0 Hr Hlen Hf; [lia|].
  cbn [nv_search]. rewrite (proj2 (Z.leb_le start stop)) by lia.
  rewrite Z.quot_div_nonneg by lia. set (mid := (start + stop) / 2).
  assert (Hm : start <= mid <= stop) by (unfold mid; split;
    [apply Z.div_le_lower_bound; lia|apply Z.div_le_upper_bound; lia]).
  rewrite (proj2 (Z.leb_le 0 mid)) by lia.
  destruct (lookup_lt_is_Some_2 table (Z.to_nat mid)) as [[n w] Hn]; [lia|]. rewrite Hn. simpl.
  rewrite Forall_forall in Hc.
  assert (Hcn : cstr n) by (eapply (Hc (n, w)), list_elem_of_lookup_2; done).
  assert (Hcc : cstr cmd) by (eapply (Hc (cmd, v)), list_elem_of_lookup_2; done).
  destruct (Z.ltb_spec (smycmp cmd n) 0) as [Hlt|Hge].
  - destruct (decide (Z.to_nat mid <= k)%nat) as [Hle|].
    + exfalso. destruct (decide (Z.to_nat mid = k)) as [<-|].
      * rewrite Hk in Hn. simplify_eq. rewrite smycmp_refl in Hlt. lia.
      * assert (smycmp n cmd < 0) by (apply (Hs (Z.to_nat mid) k (n, w) (cmd, v)); [lia|done|done]).
        rewrite smycmp_opp in Hlt by done. lia.
    + apply IH; lia.
  - case_bool_decide as E.
    + subst n. destruct (decide (Z.to_nat mid = k)) as [<-|]; [by simplify_eq|].
      exfalso. destruct (decide (k < Z.to_nat mid)%nat).
      * assert (smycmp cmd cmd < 0) by (apply (Hs k (Z.to_nat mid) (cmd, v) (cmd, w)); done).
        rewrite smycmp_refl in *. lia.
      * assert (smycmp cmd cmd < 0) by (apply (Hs (Z.to_nat mid) k (cmd, w) (cmd, v)); [lia|done|done]).
        rewrite smycmp_refl in *. lia.
    + destruct (decide (k <= Z.to_nat mid)%nat) as [Hle|]; [|apply IH; lia].
      exfalso. destruct (decide (Z.to_nat mid = k)) as [<-|]; [by simplify_eq|].
      assert (smycmp cmd n < 0) by (apply (Hs k (Z.to_nat mid) (cmd, v) (n, w)); [lia|done|done]). lia.
Qed.

Lemma nv_search_absent table cmd :
  Forall (fun e => e.1 <> cmd) table -> forall fuel start stop,
  0 <= start -> stop < Z.of_nat (length table) -> (Z.to_nat (stop - start + 1) < fuel)%nat ->
  nv_search fuel table cmd start stop = Some 0.
Proof.
  intros Ha. rewrite Forall_forall in Ha.
  induction fuel as [|fuel IH]; intros start stop H0 Hlen Hf; [lia|]. cbn [nv_search].
  destruct (Z.leb_spec start stop); [|done]. rewrite Z.quot_div_nonneg by lia.
  set (mid := (start + stop) / 2).
  assert (Hm : start <= mid <= stop) by (unfold mid; split;
    [apply Z.div_le_lower_bound; lia|apply Z.div_le_upper_bound; lia]).
  rewrite (proj2 (Z.leb_le 0 mid)) by lia.
  destruct (lookup_lt_is_Some_2 table (Z.to_nat mid)) as [[n w] Hn]; [lia|]. rewrite Hn. simpl.
  destruct (_ <? _); [apply IH; lia|]. case_bool_decide as E; [|apply IH; lia].
  exfalso. eapply (Ha (n, w)); [by eapply list_elem_of_lookup_2|done].
Qed.

(** ** The properties *)

(** The pointer manipulations of [AddListItem], [AppendListItem],
    [DelListItem] and [AddListItemPrio] implement the operations of an ordinary
    list.  For every sequence of operations that adds no item twice, starting
    from zero-filled items, the C code dereferences no missing cell, does not
    abort, and leaves a well-formed doubly linked list of exactly the items the
    abstract operations produce, in order. *)
Theorem list_items_refine (cells : gset ptr) (ops : list lop) (l : list ptr) (pr : gmap ptr Z)
  (Hops : steps (astep cells) ([], gset_to_gmap 0 cells) ops = Some (l, pr)) :
  exists s, steps lstep (linit cells) ops = Some s /\
    dlist (ls_heap s) (ls_head s) l /\ ls_prio s = pr.
Proof.
  destruct (steps_ok cells ops _ _ _ (linit_inv cells) Hops) as (s & Hs & Hd & Hp & _). eauto.
Qed.

Lemma list_items_refine_witness :
  exists s, steps lstep (linit {[ 1%positive; 2%positive; 3%positive ]})
    [LAddPrio 1 5; LAddPrio 2 5; LAppend 3; LDel 1] = Some s /\
    dlist (ls_heap s) (ls_head s) [2%positive; 3%positive] /\
    ls_prio s = <[2%positive := 5]> (<[1%positive := 5]>
      (gset_to_gmap 0 {[ 1%positive; 2%positive; 3%positive ]})).
Proof. apply list_items_refine. vm_compute. reflexivity. Defined.

(** A list built by [add_nvplist] stays sorted by priority, and a new
    entry goes in front of the entries of its own priority: everything before it
    has a smaller priority and everything after it one at least as large.  (The
    comment above [add_ListItemPrio] says that it is added last among them.) *)
Theorem add_nvplist_position (l : list nvp) (priority : Z) (name : cstring) (value : option cstring)
  (Hs : StronglySorted nv_le l) :
  StronglySorted nv_le (add_nvplist l priority name value) /\
  exists l1 l2, l = l1 ++ l2 /\
    add_nvplist l priority name value = l1 ++ NVP priority name (nv_normal value) :: l2 /\
    Forall (fun x => nv_prio x < priority) l1 /\ Forall (fun x => priority <= nv_prio x) l2.
Proof. split; [by apply add_nvplist_sorted|by apply add_nvplist_split]. Qed.

Lemma add_nvplist_position_witness :
  let l := [NVP 1 (str "a") None; NVP 2 (str "b") None] in
  StronglySorted nv_le (add_nvplist l 2 (str "c") None) /\
  exists l1 l2, l = l1 ++ l2 /\
    add_nvplist l 2 (str "c") None = l1 ++ NVP 2 (str "c") (nv_normal None) :: l2 /\
    Forall (fun x => nv_prio x < 2) l1 /\ Forall (fun x => 2 <= nv_prio x) l2.
Proof.
  apply (add_nvplist_position [NVP 1 (str "a") None; NVP 2 (str "b") None] 2 (str "c") None).
  repeat constructor; unfold nv_le; simpl; lia.
Defined.

(** [duplicate_nvplist] returns a list sorted by priority that holds a copy
    of every entry, and when all entries have one priority the copy is in the
    reverse order of the original. *)
Theorem duplicate_nvplist_correct (e : list nvp) :
  StronglySorted nv_le (duplicate_nvplist e) /\
  Permutation (duplicate_nvplist e) (map nv_copy e) /\
  (forall p, Forall (fun x => nv_prio x = p) e -> duplicate_nvplist e = rev (map nv_copy e)).
Proof.
  unfold duplicate_nvplist. destruct (duplicate_append_spec e []) as [Hs Hp]; [constructor|].
  rewrite app_nil_r in Hp. split_and!; [done|done|]. intros p He.
  by rewrite (duplicate_append_equal p), app_nil_r.
Qed.

(** On a table in strictly increasing order the bisection of
    [do_nv_find_by_name] stays inside the table, terminates, returns the value
    of the entry with exactly the given name, and 0 when there is none. *)
Theorem do_nv_find_by_name_correct (table : list (cstring * Z)) (cmd : cstring)
  (Hc : Forall (fun e => cstr e.1) table) (Hs : table_sorted table) :
  (forall v, (cmd, v) ∈ table -> do_nv_find_by_name table cmd = Some v) /\
  (Forall (fun e => e.1 <> cmd) table -> do_nv_find_by_name table cmd = Some 0).
Proof.
  unfold do_nv_find_by_name. split.
  - intros v [k Hk]%list_elem_of_lookup. pose proof (lookup_lt_Some _ _ _ Hk).
    eapply nv_search_found; [done|done|exact Hk|lia..].
  - intros Ha. apply nv_search_absent; [done|lia..].
Qed.

Lemma do_nv_find_by_name_correct_witness :
  let t := [(str "alpha", 1); (str "beta", 2); (str "gamma", 3)] in
  (forall v, (str "beta", v) ∈ t -> do_nv_find_by_name t (str "beta") = Some v) /\
  (Forall (fun e => e.1 <> str "beta") t -> do_nv_find_by_name t (str "beta") = Some 0).
Proof.
  apply (do_nv_find_by_name_correct [(str "alpha", 1); (str "beta", 2); (str "gamma", 3)] (str "beta")).
  - repeat constructor; compute; done.
  - intros i j a b Hij Hi Hj.
    destruct i as [|[|[|i]]], j as [|[|[|j]]]; try lia; try done; simplify_eq/=; done.
Defined.
