(* ===== verification/Client.v ===== *)
(** * The client record (include/struct.h)

    [struct Client] with its [LocalClient] and [User] parts, restricted to the
    fields that the modelled functions read or write, the client status and flag
    macros, and the store of all clients.  A pointer to a client is its key in
    the store; the receive queue of a local client, which has a module of its
    own, is kept beside the record by the components that use it. *)
From S2P Require Import Prelude Chars.

(** A [Client *]. *)
Abbreviation cid := positive (only parsing).

Inductive ClientStatus :=
| CLIENT_STATUS_RPC | CLIENT_STATUS_CONTROL | CLIENT_STATUS_LOG
| CLIENT_STATUS_TLS_STARTTLS_HANDSHAKE | CLIENT_STATUS_CONNECTING
| CLIENT_STATUS_TLS_CONNECT_HANDSHAKE | CLIENT_STATUS_TLS_ACCEPT_HANDSHAKE
| CLIENT_STATUS_HANDSHAKE | CLIENT_STATUS_ME | CLIENT_STATUS_UNKNOWN
| CLIENT_STATUS_SERVER | CLIENT_STATUS_USER.

#[export] Instance ClientStatus_eq_dec : EqDecision ClientStatus.
Proof. solve_decision. Defined.

(** The values of the enumeration, which [IsRegistered] and others compare. *)
Definition status_code (s : ClientStatus) : Z :=
  match s with
  | CLIENT_STATUS_RPC => -10 | CLIENT_STATUS_CONTROL => -9 | CLIENT_STATUS_LOG => -8
  | CLIENT_STATUS_TLS_STARTTLS_HANDSHAKE => -7 | CLIENT_STATUS_CONNECTING => -6
  | CLIENT_STATUS_TLS_CONNECT_HANDSHAKE => -5 | CLIENT_STATUS_TLS_ACCEPT_HANDSHAKE => -4
  | CLIENT_STATUS_HANDSHAKE => -3 | CLIENT_STATUS_ME => -2 | CLIENT_STATUS_UNKNOWN => -1
  | CLIENT_STATUS_SERVER => 0 | CLIENT_STATUS_USER => 1
  end.

Record TrafficStats := Traffic { messages_received : Z; bytes_received : Z }.

Record LocalClient := MkLocal {
  fake_lag : Z;                       (** a time, in seconds *)
  fake_lag_msec : Z;                  (** the remainder below a second *)
  creationtime : Z;
  idle_since : Z;
  unix_socket : bool;                 (** [socket_type == SOCKET_TYPE_UNIX] *)
  class_recvq : Z;                    (** [class->recvq], 0 for the default *)
  listener_options : option Z;        (** [listener->options], when there is one *)
  traffic : TrafficStats;
  tags_serial : Z;
  spamfilter_run_tags_serial : Z
}.

Record User := MkUser {
  account : cstring;
  username : cstring;
  realhost : cstring;
  virthost : option cstring;
  server_name : option cstring;       (** the field [server] *)
  whowas : option positive            (** head of the client's whowas entries *)
}.

Record Client := MkClient {
  name : cstring;
  id : cstring;
  status : ClientStatus;
  flags : Z;
  umodes : Z;
  direction : cid;
  lastnick : Z;
  info : cstring;
  ip : option cstring;
  local : option LocalClient;
  user : option User;
  server : option bool                (** the [Server] part: [flags.server_sent] *)
}.

Definition set_name (c : Client) (v : cstring) : Client :=
  MkClient v (id c) (status c) (flags c) (umodes c) (direction c) (lastnick c) (info c) (ip c)
    (local c) (user c) (server c).

Definition set_id (c : Client) (v : cstring) : Client :=
  MkClient (name c) v (status c) (flags c) (umodes c) (direction c) (lastnick c) (info c) (ip c)
    (local c) (user c) (server c).

Definition set_flags (c : Client) (v : Z) : Client :=
  MkClient (name c) (id c) (status c) v (umodes c) (direction c) (lastnick c) (info c) (ip c)
    (local c) (user c) (server c).

Definition set_local (c : Client) (v : option LocalClient) : Client :=
  MkClient (name c) (id c) (status c) (flags c) (umodes c) (direction c) (lastnick c) (info c) (ip c)
    v (user c) (server c).

Definition set_user (c : Client) (v : option User) : Client :=
  MkClient (name c) (id c) (status c) (flags c) (umodes c) (direction c) (lastnick c) (info c) (ip c)
    (local c) v (server c).

Definition set_whowas (u : User) (v : option positive) : User :=
  MkUser (account u) (username u) (realhost u) (virthost u) (server_name u) v.

Definition set_fake_lag (l : LocalClient) (secs msec : Z) : LocalClient :=
  MkLocal secs msec (creationtime l) (idle_since l) (unix_socket l) (class_recvq l)
    (listener_options l) (traffic l) (tags_serial l) (spamfilter_run_tags_serial l).

Definition set_traffic (l : LocalClient) (t : TrafficStats) : LocalClient :=
  MkLocal (fake_lag l) (fake_lag_msec l) (creationtime l) (idle_since l) (unix_socket l)
    (class_recvq l) (listener_options l) t (tags_serial l) (spamfilter_run_tags_serial l).

Definition set_idle_since (l : LocalClient) (t : Z) : LocalClient :=
  MkLocal (fake_lag l) (fake_lag_msec l) (creationtime l) t (unix_socket l)
    (class_recvq l) (listener_options l) (traffic l) (tags_serial l)
    (spamfilter_run_tags_serial l).

(** ** The macros *)

Definition MyConnect (c : Client) : bool := bool_decide (is_Some (local c)).
Definition IsUser (c : Client) : bool := bool_decide (status c = CLIENT_STATUS_USER).
Definition MyUser (c : Client) : bool := MyConnect c && IsUser c.
Definition IsRegistered (c : Client) : bool := 0 <=? status_code (status c).
Definition IsHandshake (c : Client) : bool := bool_decide (status c = CLIENT_STATUS_HANDSHAKE).
Definition IsMe (c : Client) : bool := bool_decide (status c = CLIENT_STATUS_ME).
Definition IsUnknown (c : Client) : bool :=
  bool_decide (status c = CLIENT_STATUS_UNKNOWN) ||
  bool_decide (status c = CLIENT_STATUS_TLS_STARTTLS_HANDSHAKE).
Definition IsServer (c : Client) : bool := bool_decide (status c = CLIENT_STATUS_SERVER).
Definition IsControl (c : Client) : bool := bool_decide (status c = CLIENT_STATUS_CONTROL).

Definition CLIENT_FLAG_DEAD : Z := 2.
Definition CLIENT_FLAG_DEADSOCKET : Z := 4.
Definition CLIENT_FLAG_DNSLOOKUP : Z := 256.
Definition CLIENT_FLAG_IDENTLOOKUP : Z := 512.
Definition CLIENT_FLAG_LOCALHOST : Z := 2048.
Definition CLIENT_FLAG_SHUNNED : Z := 4194304.
Definition CLIENT_FLAG_VIRUS : Z := 8388608.
Definition CLIENT_FLAG_NOFAKELAG : Z := 33554432.
Definition CLIENT_FLAG_NOHANDSHAKEDELAY : Z := 536870912.

(** [x & mask] as a condition. *)
Definition has (x mask : Z) : bool := negb (Z.land x mask =? 0).

Definition IsDead (c : Client) : bool := has (flags c) CLIENT_FLAG_DEAD.
Definition IsDeadSocket (c : Client) : bool := has (flags c) CLIENT_FLAG_DEADSOCKET.
Definition IsDNSLookup (c : Client) : bool := has (flags c) CLIENT_FLAG_DNSLOOKUP.
Definition IsIdentLookup (c : Client) : bool := has (flags c) CLIENT_FLAG_IDENTLOOKUP.
Definition IsLocalhost (c : Client) : bool := has (flags c) CLIENT_FLAG_LOCALHOST.
Definition IsShunned (c : Client) : bool := has (flags c) CLIENT_FLAG_SHUNNED.
Definition IsVirus (c : Client) : bool := has (flags c) CLIENT_FLAG_VIRUS.
Definition IsNoFakeLag (c : Client) : bool := has (flags c) CLIENT_FLAG_NOFAKELAG.
Definition IsNoHandshakeDelay (c : Client) : bool := has (flags c) CLIENT_FLAG_NOHANDSHAKEDELAY.

Abbreviation clients := (gmap cid Client).

(** A status excludes the others. *)
Lemma IsServer_not_user c : IsServer c = true -> IsUser c = false.
Proof. unfold IsServer, IsUser. intros ->%bool_decide_eq_true. done. Qed.
