(* ===== verification/Hash.v ===== *)
(** * SipHash and the hash tables of names (src/hash.c)

    The keyed hash functions are modelled on 64-bit words with their wrap-around
    (the final [U64TO8_LE] store is read back on a little-endian machine, which
    leaves the word as it is).  The tables are arrays of buckets: [clientTable]
    by name and [idTable] by UID/SID, whose nodes are embedded in the clients, and
    [channelTable], chained through [hnextch].  The theorems: the
    case-insensitive hash is the plain hash of the lower-cased string, so names
    that compare equal fall in one bucket, and the tables together with the
    lookup functions implement a finite map from case-folded names to clients. *)
From S2P Require Import Prelude Chars Strings Client.

(** ** SipHash-2-4 *)

Definition u64 (x : Z) : Z := x mod 2 ^ 64.

Definition ROTL (x b : Z) : Z := Z.lor (u64 (Z.shiftl x b)) (Z.shiftr x (64 - b)).

Record sip := Sip { v0 : Z; v1 : Z; v2 : Z; v3 : Z }.

Definition SIPROUND (s : sip) : sip :=
  let v0 := u64 (v0 s + v1 s) in
  let v1 := ROTL (v1 s) 13 in
  let v1 := Z.lxor v1 v0 in
  let v0 := ROTL v0 32 in
  let v2 := u64 (v2 s + v3 s) in
  let v3 := ROTL (v3 s) 16 in
  let v3 := Z.lxor v3 v2 in
  let v0 := u64 (v0 + v3) in
  let v3 := ROTL v3 21 in
  let v3 := Z.lxor v3 v0 in
  let v2 := u64 (v2 + v1) in
  let v1 := ROTL v1 17 in
  let v1 := Z.lxor v1 v2 in
  let v2 := ROTL v2 32 in
  Sip v0 v1 v2 v3.

(** Little-endian load of the bytes [p]: [U8TO64_LE] for eight of them, and the
    fall-through [switch (left)] for the bytes left over. *)
Fixpoint load_le (p : list Z) : Z :=
  match p with
  | [] => 0
  | b :: p => Z.lor b (Z.shiftl (load_le p) 8)
  end.

Definition U8TO64_LE (p : list Z) : Z := load_le (take 8 p).

Definition U8TO64_LE_NOCASE (p : list Z) : Z := load_le (map tolower (take 8 p)).

Definition sip_init (k : list Z) : sip :=
  let k0 := U8TO64_LE k in
  let k1 := U8TO64_LE (drop 8 k) in
  Sip (Z.lxor 0x736f6d6570736575 k0) (Z.lxor 0x646f72616e646f6d k1)
      (Z.lxor 0x6c7967656e657261 k0) (Z.lxor 0x7465646279746573 k1).

(** [v3 ^= m; SIPROUND; SIPROUND; v0 ^= m;] *)
Definition sip_absorb (s : sip) (m : Z) : sip :=
  let s := SIPROUND (SIPROUND (Sip (v0 s) (v1 s) (v2 s) (Z.lxor (v3 s) m))) in
  Sip (Z.lxor (v0 s) m) (v1 s) (v2 s) (v3 s).

Definition sip_finish (s : sip) (b : Z) : Z :=
  let s := sip_absorb s b in
  let s := Sip (v0 s) (v1 s) (Z.lxor (v2 s) 0xff) (v3 s) in
  let s := SIPROUND (SIPROUND (SIPROUND (SIPROUND s))) in
  Z.lxor (Z.lxor (Z.lxor (v0 s) (v1 s)) (v2 s)) (v3 s).

(** [for (; in != end; in += 8)]: the bytes left over and the state. *)
Fixpoint sip_blocks (load : list Z -> Z) (n : nat) (inp : list Z) (s : sip) : sip * list Z :=
  match n with
  | O => (s, inp)
  | S n => sip_blocks load n (drop 8 inp) (sip_absorb s (load inp))
  end.

Definition length_byte (inlen : nat) : Z := u64 (Z.shiftl (Z.of_nat inlen) 56).

Definition siphash_raw (inp k : list Z) : Z :=
  let inlen := length inp in
  let '(s, rest) := sip_blocks U8TO64_LE (inlen / 8) inp (sip_init k) in
  sip_finish s (Z.lor (length_byte inlen) (load_le rest)).

Definition siphash_nocase (inp k : list Z) : Z :=
  let inlen := length inp in
  let '(s, rest) := sip_blocks U8TO64_LE_NOCASE (inlen / 8) inp (sip_init k) in
  sip_finish s (Z.lor (length_byte inlen) (load_le (map tolower rest))).

Definition siphash (inp k : list Z) : Z := siphash_raw inp k.

(** The test vectors of the SipHash paper: key 00..0f, input 00..0e. *)
Example siphash_paper_vector :
  siphash_raw (seqZ 0 15) (seqZ 0 16) = 0xa129ca6149be45e5.
Proof. vm_compute. reflexivity. Qed.

Example siphash_empty_vector : siphash_raw [] (seqZ 0 16) = 0x726fdb47dd0e0e31.
Proof. vm_compute. reflexivity. Qed.

(** ** The tables *)

Definition NICK_HASH_TABLE_SIZE : Z := 32768.
Definition CHAN_HASH_TABLE_SIZE : Z := 32768.
Definition WHOWAS_HASH_TABLE_SIZE : Z := 32768.

(** An array of lists of pointers; the unset entries are empty lists. *)
Abbreviation buckets := (gmap Z (list positive)).

Definition bucket (t : buckets) (h : Z) : list positive := default [] (t !! h).

Record tables := Tables {
  clientTable : buckets;
  idTable : buckets;
  channelTable : buckets;
  tainted : bool
}.

(** [list_add] of a node into a bucket, and [list_del] of a node from whichever
    bucket it is in. *)
Definition bucket_add (t : buckets) (h : Z) (x : positive) : buckets := <[h := x :: bucket t h]> t.
Definition bucket_del (t : buckets) (x : positive) : buckets :=
  filter (fun y => y <> x) <$> t.

(** The walk over one bucket, with the client of each node. *)
Fixpoint bucket_find (st : clients) (p : Client -> bool) (l : list cid) : option cid :=
  match l with
  | [] => None
  | x :: l =>
      match st !! x with
      | Some c => if p c then Some x else bucket_find st p l
      | None => bucket_find st p l
      end
  end.

Section hash.

(** The random keys that [init_hash] generates. *)
Context (siphashkey_nick siphashkey_chan siphashkey_whowas : list Z).

Definition init_hash (tainted : bool) : tables := Tables ∅ ∅ ∅ tainted.

Definition hash_client_name (name : cstring) : Z :=
  siphash_nocase name siphashkey_nick mod NICK_HASH_TABLE_SIZE.
Definition hash_channel_name (name : cstring) : Z :=
  siphash_nocase name siphashkey_chan mod CHAN_HASH_TABLE_SIZE.
Definition hash_whowas_name (name : cstring) : Z :=
  siphash_nocase name siphashkey_whowas mod WHOWAS_HASH_TABLE_SIZE.

Definition add_to_client_hash_table (t : tables) (name : cstring) (client : cid) : tables :=
  if tainted t then t
  else Tables (bucket_add (clientTable t) (hash_client_name name) client)
         (idTable t) (channelTable t) (tainted t).

Definition add_to_id_hash_table (t : tables) (name : cstring) (client : cid) : tables :=
  Tables (clientTable t) (bucket_add (idTable t) (hash_client_name name) client)
    (channelTable t) (tainted t).

Definition add_to_channel_hash_table (t : tables) (name : cstring) (channel : positive) : tables :=
  Tables (clientTable t) (idTable t)
    (bucket_add (channelTable t) (hash_channel_name name) channel) (tainted t).

Definition del_from_client_hash_table (t : tables) (name : cstring) (client : cid) : tables :=
  Tables (bucket_del (clientTable t) client) (idTable t) (channelTable t) (tainted t).

Definition del_from_id_hash_table (t : tables) (name : cstring) (client : cid) : tables :=
  Tables (clientTable t) (bucket_del (idTable t) client) (channelTable t) (tainted t).

(** Unlinks the first node of the chain that is [channel]. *)
Fixpoint unchain (channel : positive) (l : list positive) : list positive :=
  match l with
  | [] => []
  | x :: l => if decide (x = channel) then l else x :: unchain channel l
  end.

Definition del_from_channel_hash_table (t : tables) (name : cstring) (channel : positive) : tables :=
  let hashv := hash_channel_name name in
  Tables (clientTable t) (idTable t)
    (<[hashv := unchain channel (bucket (channelTable t) hashv)]> (channelTable t)) (tainted t).

Definition hash_find_client (st : clients) (t : tables) (nm : cstring) (def : option cid)
  : option cid :=
  match bucket_find st (fun tmp => smycmp nm (name tmp) =? 0)
          (bucket (clientTable t) (hash_client_name nm)) with
  | Some tmp => Some tmp
  | None => def
  end.

Definition hash_find_id (st : clients) (t : tables) (nm : cstring) (def : option cid)
  : option cid :=
  match bucket_find st (fun tmp => smycmp nm (id tmp) =? 0)
          (bucket (idTable t) (hash_client_name nm)) with
  | Some tmp => Some tmp
  | None => def
  end.

Definition hash_find_server (st : clients) (t : tables) (nm : cstring) (def : option cid)
  : option cid :=
  match bucket_find st (fun tmp => if negb (IsServer tmp) && negb (IsMe tmp) then false
                                   else smycmp nm (name tmp) =? 0)
          (bucket (clientTable t) (hash_client_name nm)) with
  | Some tmp => Some tmp
  | None => def
  end.

(** The condition of [find_client] on its requester. *)
Definition may_use_id (st : clients) (requester : option cid) : bool :=
  match requester with
  | None => true
  | Some r => match st !! r with Some c => IsServer c | None => false end
  end.

Definition find_client (st : clients) (t : tables) (nm : cstring) (requester : option cid)
  : option cid :=
  match (if may_use_id st requester then hash_find_id st t nm None else None) with
  | Some client => Some client
  | None => hash_find_client st t nm None
  end.

Definition find_server (st : clients) (t : tables) (nm : option cstring) (requester : option cid)
  : option cid :=
  nm ← nm;
  x ← find_client st t nm None;
  c ← st !! x;
  if IsServer c || IsMe c then Some x else None.

Definition find_user (st : clients) (t : tables) (nm : cstring) (requester : option cid)
  : option cid :=
  x ← find_client st t nm requester;
  c ← st !! x;
  if IsUser c && bool_decide (is_Some (user c)) then Some x else None.

Definition NICKLEN : nat := 30.
Definition HOSTLEN : nat := 63.
Definition SIDLEN : nat := 3.

(** [strchr(s, c)]: what precedes the first [c] and what follows it. *)
Fixpoint cut_at (c : Z) (s : cstring) : option (cstring * cstring) :=
  match s with
  | [] => None
  | x :: s => if x =? c then Some ([], s) else
      match cut_at c s with Some (a, b) => Some (x :: a, b) | None => None end
  end.

Definition hash_find_nickatserver (st : clients) (t : tables) (s : cstring) (def : option cid)
  : option cid :=
  let nick := take (NICKLEN + HOSTLEN + 1 - 1) s in
  let '(nick, serv) := match cut_at ch_at nick with
                       | Some (n, sv) => (n, Some sv)
                       | None => (nick, None)
                       end in
  match find_user st t nick None with
  | None => None
  | Some client =>
      match serv with
      | None => Some client
      | Some serv =>
          match (c ← st !! client; u ← user c; server_name u) with
          | Some sn => if smycmp serv sn =? 0 then Some client else def
          | None => def
          end
      end
  end.

Definition find_channel (names : gmap positive cstring) (t : tables) (nm : cstring) : option positive :=
  List.find (fun ch => match names !! ch with Some n => smycmp nm n =? 0 | None => false end)
    (bucket (channelTable t) (hash_channel_name nm)).

Definition hash_get_chan_bucket (t : tables) (hashv : Z) : list positive :=
  if CHAN_HASH_TABLE_SIZE <=? hashv then [] else bucket (channelTable t) hashv.

Definition find_server_by_uid (st : clients) (t : tables) (uid : cstring) : option cid :=
  if negb (isdigit (hd 0 uid)) then None
  else hash_find_id st t (take SIDLEN uid) None.

(** ** The case-insensitive hash *)

Lemma sip_blocks_nocase n inp s :
  sip_blocks U8TO64_LE n (map tolower inp) s =
  (let '(s', rest) := sip_blocks U8TO64_LE_NOCASE n inp s in (s', map tolower rest)).
Proof.
  revert inp s. induction n as [|n IH]; intros inp s; cbn [sip_blocks]; [done|].
  rewrite skipn_map, IH. unfold U8TO64_LE at 1, U8TO64_LE_NOCASE at 2. by rewrite firstn_map.
Qed.

Lemma siphash_nocase_raw inp k : siphash_nocase inp k = siphash_raw (map tolower inp) k.
Proof.
  unfold siphash_nocase, siphash_raw. rewrite length_map, sip_blocks_nocase.
  by destruct (sip_blocks U8TO64_LE_NOCASE _ _ _).
Qed.

#[local] Instance hash_client_name_proper : Proper (same_name ==> eq) hash_client_name.
Proof.
  intros a b H. unfold hash_client_name. rewrite !siphash_nocase_raw. by rewrite H.
Qed.

#[local] Instance hash_channel_name_proper : Proper (same_name ==> eq) hash_channel_name.
Proof.
  intros a b H. unfold hash_channel_name. rewrite !siphash_nocase_raw. by rewrite H.
Qed.

Lemma name_hash_same a b : same_name a b -> hash_channel_name a = hash_channel_name b.
Proof. by intros ->. Qed.

Lemma hash_whowas_same a b : same_name a b -> hash_whowas_name a = hash_whowas_name b.
Proof. intros H. unfold hash_whowas_name. rewrite !siphash_nocase_raw. by rewrite H. Qed.

(** ** The tables as maps *)

(** The key under which a map stores a name. *)
Definition fold (s : cstring) : cstring := map tolower s.

Lemma bucket_add_elem t h x h' y :
  y ∈ bucket (bucket_add t h x) h' <-> (h' = h /\ y = x) \/ y ∈ bucket t h'.
Proof.
  unfold bucket_add, bucket. destruct (decide (h' = h)) as [->|].
  - rewrite lookup_insert_eq. simpl. rewrite elem_of_cons. tauto.
  - rewrite lookup_insert_ne by done. tauto.
Qed.

Lemma bucket_del_elem t x h y : y ∈ bucket (bucket_del t x) h <-> y <> x /\ y ∈ bucket t h.
Proof.
  unfold bucket_del, bucket. rewrite lookup_fmap. destruct (t !! h); simpl; [|set_solver].
  by rewrite list_elem_of_filter.
Qed.

Lemma bucket_find_Some st p l x :
  bucket_find st p l = Some x -> x ∈ l /\ exists c, st !! x = Some c /\ p c = true.
Proof.
  induction l as [|y l IH]; simpl; [done|]. destruct (st !! y) as [c|] eqn:E.
  - destruct (p c) eqn:Ep.
    + intros [= ->]. split; [left|eauto].
    + intros [? ?]%IH. split; [by right|done].
  - intros [? ?]%IH. split; [by right|done].
Qed.

Lemma bucket_find_None st p l :
  bucket_find st p l = None -> forall x c, x ∈ l -> st !! x = Some c -> p c = false.
Proof.
  induction l as [|y l IH]; simpl; intros H x c Hx Hc; [set_solver|].
  apply elem_of_cons in Hx as [->|Hx].
  - rewrite Hc in H. by destruct (p c).
  - destruct (st !! y) as [c'|]; [destruct (p c')|]; eauto; done.
Qed.

(** A lookup only returns clients of the store. *)
Lemma find_client_exists st t nm r x : find_client st t nm r = Some x -> is_Some (st !! x).
Proof.
  unfold find_client, hash_find_id, hash_find_client. destruct (may_use_id st r).
  - destruct (bucket_find st _ (bucket (idTable t) _)) as [y|] eqn:E.
    + intros [= ->]. apply bucket_find_Some in E as (_ & c & ? & _). eauto.
    + destruct (bucket_find st _ (bucket (clientTable t) _)) as [y|] eqn:E'; [|done].
      intros [= ->]. apply bucket_find_Some in E' as (_ & c & ? & _). eauto.
  - destruct (bucket_find st _ (bucket (clientTable t) _)) as [y|] eqn:E'; [|done].
    intros [= ->]. apply bucket_find_Some in E' as (_ & c & ? & _). eauto.
Qed.

Lemma nickatserver_exists st t s x : hash_find_nickatserver st t s None = Some x -> is_Some (st !! x).
Proof.
  unfold hash_find_nickatserver.
  set (r := match cut_at _ _ with Some (n, sv) => _ | None => _ end). destruct r as [nick serv].
  destruct (find_user st t nick None) as [y|] eqn:E; [|done].
  assert (Hy : is_Some (st !! y)).
  { apply bind_Some in E as (z & Hz & E). apply bind_Some in E as (c & Hc & E).
    case_match; simplify_eq. eauto. }
  destruct serv as [serv|]; [|by intros [= <-]].
  destruct (_ ≫= _) as [sn|]; [|done]. case_match; [|done]. by intros [= <-].
Qed.

(** Table [t], keyed by [key], holds the directory [dir]. *)
Record table_inv (key : Client -> cstring) (st : clients) (t : buckets) (dir : gmap cstring cid) := {
  ti_bucket : forall h x, x ∈ bucket t h ->
    exists c, st !! x = Some c /\ hash_client_name (key c) = h /\ dir !! fold (key c) = Some x;
  ti_dir : forall k x, dir !! k = Some x ->
    exists c, st !! x = Some c /\ fold (key c) = k /\ x ∈ bucket t (hash_client_name (key c))
}.

Lemma table_find key st t dir nm :
  table_inv key st t dir -> (forall x c, st !! x = Some c -> cstr (key c)) -> cstr nm ->
  bucket_find st (fun tmp => smycmp nm (key tmp) =? 0) (bucket t (hash_client_name nm)) =
  dir !! fold nm.
Proof.
  intros [Hb Hd] Hc Hnm. destruct (bucket_find _ _ _) as [x|] eqn:E.
  - apply bucket_find_Some in E as (Hx & c & Hst & Hp%Z.eqb_eq).
    apply smycmp_zero in Hp; [|done|eauto]. destruct (Hb _ _ Hx) as (c' & Hst' & _ & Hdir).
    simplify_eq. symmetry. unfold same_name in Hp. unfold fold in *. by rewrite Hp.
  - destruct (dir !! fold nm) as [x|] eqn:Edir; [|done]. exfalso.
    destruct (Hd _ _ Edir) as (c & Hst & Hk & Hx).
    assert (Hs : same_name nm (key c)) by (unfold same_name, fold in *; done).
    rewrite <- Hs in Hx. pose proof (bucket_find_None _ _ _ E _ _ Hx Hst) as Hf.
    apply Z.eqb_neq in Hf. apply Hf. apply smycmp_zero; eauto.
Qed.

Lemma table_inv_add key st t dir x c :
  table_inv key st t dir -> st !! x = Some c -> dir !! fold (key c) = None ->
  table_inv key st (bucket_add t (hash_client_name (key c)) x) (<[fold (key c) := x]> dir).
Proof.
  intros [Hb Hd] Hst Hn. split.
  - intros h y [[-> ->]|Hy]%bucket_add_elem.
    + exists c. by rewrite lookup_insert_eq.
    + destruct (Hb _ _ Hy) as (c' & ? & ? & Hdir). exists c'. split_and!; [done|done|].
      rewrite lookup_insert_ne; [done|]. intros He. congruence.
  - intros k y. destruct (decide (k = fold (key c))) as [->|].
    + rewrite lookup_insert_eq. intros [= <-]. exists c. split_and!; [done|done|].
      apply bucket_add_elem. tauto.
    + rewrite lookup_insert_ne by done. intros (c' & ? & ? & ?)%Hd. exists c'. split_and!; [done|done|].
      apply bucket_add_elem. tauto.
Qed.

Lemma table_inv_del key st t dir x :
  table_inv key st t dir ->
  table_inv key st (bucket_del t x) (filter (fun kv => kv.2 <> x) dir).
Proof.
  intros [Hb Hd]. split.
  - intros h y [Hn Hy]%bucket_del_elem. destruct (Hb _ _ Hy) as (c & ? & ? & ?).
    exists c. split_and!; [done|done|]. by apply map_lookup_filter_Some.
  - intros k y [Hk Hn]%map_lookup_filter_Some. destruct (Hd _ _ Hk) as (c & ? & ? & ?).
    exists c. split_and!; [done|done|]. by apply bucket_del_elem.
Qed.

(** A client outside the table may change, and so may what the key ignores. *)
Lemma table_inv_store key st t dir x c' :
  table_inv key st t dir ->
  (forall k, dir !! k <> Some x) \/ (exists c, st !! x = Some c /\ key c' = key c) ->
  table_inv key (<[x := c']> st) t dir.
Proof.
  intros [Hb Hd] Hx. split.
  - intros h y Hy. destruct (Hb _ _ Hy) as (c & Hst & Hh & Hdir).
    destruct (decide (y = x)) as [->|]; [|exists c; by rewrite lookup_insert_ne].
    destruct Hx as [Hx|(c0 & Hst0 & Hk)]; [naive_solver|]. simplify_eq.
    exists c'. rewrite lookup_insert_eq, Hk. done.
  - intros k y Hk. destruct (Hd _ _ Hk) as (c & Hst & Hf & Hy).
    destruct (decide (y = x)) as [->|]; [|exists c; by rewrite lookup_insert_ne].
    destruct Hx as [Hx|(c0 & Hst0 & Hke)]; [naive_solver|]. simplify_eq.
    exists c'. rewrite lookup_insert_eq, Hke. done.
Qed.

(** ** Histories of registrations *)

Inductive hop :=
| HAddName (x : cid) | HDelName (x : cid) | HSetName (x : cid) (nm : cstring)
| HAddId (x : cid) | HDelId (x : cid) | HSetId (x : cid) (nm : cstring).

Definition hstep (s : clients * tables) (o : hop) : option (clients * tables) :=
  let '(st, t) := s in
  match o with
  | HAddName x => c ← st !! x; Some (st, add_to_client_hash_table t (name c) x)
  | HDelName x => c ← st !! x; Some (st, del_from_client_hash_table t (name c) x)
  | HSetName x nm => c ← st !! x; Some (<[x := set_name c nm]> st, t)
  | HAddId x => c ← st !! x; Some (st, add_to_id_hash_table t (id c) x)
  | HDelId x => c ← st !! x; Some (st, del_from_id_hash_table t (id c) x)
  | HSetId x nm => c ← st !! x; Some (<[x := set_id c nm]> st, t)
  end.

(** Two maps from case-folded names, for names and for IDs.  A name is added
    once and is not in use, and changes only while it is not in the table. *)
Definition absent (dir : gmap cstring cid) (x : cid) : bool :=
  bool_decide (map_Forall (fun _ y => y <> x) dir).

Definition hspec (s : clients * gmap cstring cid * gmap cstring cid) (o : hop)
  : option (clients * gmap cstring cid * gmap cstring cid) :=
  let '(st, dn, di) := s in
  match o with
  | HAddName x =>
      c ← st !! x;
      if bool_decide (dn !! fold (name c) = None)
      then Some (st, <[fold (name c) := x]> dn, di) else None
  | HDelName x => c ← st !! x; Some (st, filter (fun kv => kv.2 <> x) dn, di)
  | HSetName x nm =>
      c ← st !! x;
      if absent dn x && bool_decide (Forall (fun b => 0 < b < 256) nm)
      then Some (<[x := set_name c nm]> st, dn, di) else None
  | HAddId x =>
      c ← st !! x;
      if bool_decide (di !! fold (id c) = None)
      then Some (st, dn, <[fold (id c) := x]> di) else None
  | HDelId x => c ← st !! x; Some (st, dn, filter (fun kv => kv.2 <> x) di)
  | HSetId x nm =>
      c ← st !! x;
      if absent di x && bool_decide (Forall (fun b => 0 < b < 256) nm)
      then Some (<[x := set_id c nm]> st, dn, di) else None
  end.

Fixpoint hrun {S} (step : S -> hop -> option S) (s : S) (os : list hop) : option S :=
  match os with [] => Some s | o :: os => s' ← step s o; hrun step s' os end.

Definition store_ok (st : clients) : Prop :=
  forall x c, st !! x = Some c -> cstr (name c) /\ cstr (id c).

Definition hrel (s : clients * tables) (a : clients * gmap cstring cid * gmap cstring cid) : Prop :=
  let '(st, t) := s in
  let '(st', dn, di) := a in
  st = st' /\ store_ok st /\ tainted t = false /\
  table_inv name st (clientTable t) dn /\ table_inv id st (idTable t) di.

Lemma absent_spec dir x : absent dir x = true -> forall k, dir !! k <> Some x.
Proof. unfold absent. intros H%bool_decide_eq_true k Hk. by apply (H k x Hk). Qed.

Lemma store_ok_insert st x c : store_ok st -> cstr (name c) -> cstr (id c) -> store_ok (<[x := c]> st).
Proof.
  intros Hs Hn Hi y c'. destruct (decide (y = x)) as [->|].
  - rewrite lookup_insert_eq. by intros [= <-].
  - rewrite lookup_insert_ne by done. apply Hs.
Qed.

Lemma hstep_ok s a o a' :
  hrel s a -> hspec a o = Some a' -> exists s', hstep s o = Some s' /\ hrel s' a'.
Proof.
  destruct s as [st t], a as [[st0 dn] di]. intros (<- & Hok & Ht & Hn & Hi).
  destruct o as [x|x|x nm|x|x|x nm]; simpl; intros (c & Hst & H)%bind_Some; rewrite Hst; simpl;
    repeat (case_bool_decide; try done); try (destruct (absent _ x) eqn:Ha; [|done]; simpl in H);
    simplify_eq/=; eexists; (split; [done|]).
  - unfold add_to_client_hash_table. rewrite Ht. split_and!; simpl; try done. by apply table_inv_add.
  - split_and!; simpl; try done. by apply table_inv_del.
  - split_and!; simpl; try done.
    + apply store_ok_insert; [done|done|]. apply (Hok x c Hst).
    + apply table_inv_store; [done|]. left. by apply absent_spec.
    + apply table_inv_store; [done|]. right. eauto.
  - split_and!; simpl; try done. by apply table_inv_add.
  - split_and!; simpl; try done. by apply table_inv_del.
  - split_and!; simpl; try done.
    + apply store_ok_insert; [done| |done]. apply (Hok x c Hst).
    + apply table_inv_store; [done|]. right. eauto.
    + apply table_inv_store; [done|]. left. by apply absent_spec.
Qed.

Lemma hrun_ok os s a a' :
  hrel s a -> hrun hspec a os = Some a' -> exists s', hrun hstep s os = Some s' /\ hrel s' a'.
Proof.
  revert s a. induction os as [|o os IH]; intros s a Hr; simpl; [intros [= <-]; eauto|].
  intros (a1 & Ha & Hrun)%bind_Some. destruct (hstep_ok _ _ _ _ Hr Ha) as (s1 & -> & Hr1).
  simpl. eauto.
Qed.

Lemma hrel_init st : store_ok st -> hrel (st, init_hash false) (st, ∅, ∅).
Proof.
  intros Hok. split_and!; try done; split; simpl.
  - intros h x. unfold bucket. rewrite lookup_empty. set_solver.
  - intros k x. by rewrite lookup_empty.
  - intros h x. unfold bucket. rewrite lookup_empty. set_solver.
  - intros k x. by rewrite lookup_empty.
Qed.

Lemma hrel_find st t st' dn di nm :
  hrel (st, t) (st', dn, di) -> cstr nm ->
  hash_find_client st t nm None = dn !! fold nm /\ hash_find_id st t nm None = di !! fold nm.
Proof.
  intros (<- & Hok & Ht & Hn & Hi) Hnm. unfold hash_find_client, hash_find_id. split.
  - rewrite (table_find name st _ dn); [by destruct (dn !! _)|done|intros x c Hx; by apply (Hok x c)|done].
  - rewrite (table_find id st _ di); [by destruct (di !! _)|done|intros x c Hx; by apply (Hok x c)|done].
Qed.

(** ** The properties *)

(** The hash of a name ignores ASCII case, so two names that compare equal
    always share a bucket in each of the three tables, and a bucket index is
    always inside its table: [siphash_nocase] computes the plain [siphash_raw] of
    the lower-cased input, for every input length and key. *)
Theorem name_hash_correct (a b k : cstring) :
  siphash_nocase a k = siphash_raw (map tolower a) k /\
  0 <= hash_client_name a < NICK_HASH_TABLE_SIZE /\
  0 <= hash_channel_name a < CHAN_HASH_TABLE_SIZE /\
  0 <= hash_whowas_name a < WHOWAS_HASH_TABLE_SIZE /\
  (same_name a b -> hash_client_name a = hash_client_name b /\
    hash_channel_name a = hash_channel_name b /\ hash_whowas_name a = hash_whowas_name b).
Proof.
  split_and!; try (by apply Z.mod_pos_bound); [apply siphash_nocase_raw|].
  intros H. split_and!; [by rewrite H|by rewrite H|by apply hash_whowas_same].
Qed.

(** C11: the name and ID tables implement finite maps from case-folded names to
    clients.  After every sequence of registrations, removals and renames in
    which a name in use is not added again and a name changes only while it is
    out of its table, [hash_find_client] and [hash_find_id] return exactly the
    client registered under a name that compares equal, and [find_client] tries
    the IDs first. *)
Theorem name_tables_refine (st : clients) (os : list hop) (st' : clients)
  (dn di : gmap cstring cid) (Hok : store_ok st)
  (Hos : hrun hspec (st, ∅, ∅) os = Some (st', dn, di)) :
  exists t, hrun hstep (st, init_hash false) os = Some (st', t) /\
    forall nm, cstr nm ->
      hash_find_client st' t nm None = dn !! fold nm /\
      hash_find_id st' t nm None = di !! fold nm /\
      find_client st' t nm None =
        match di !! fold nm with Some x => Some x | None => dn !! fold nm end.
Proof.
  destruct (hrun_ok os _ _ _ (hrel_init st Hok) Hos) as ([st1 t] & Hr & Hrel).
  pose proof Hrel as (-> & _). exists t. split; [done|]. intros nm Hnm.
  destruct (hrel_find _ _ _ _ _ _ Hrel Hnm) as [H1 H2]. split_and!; [done|done|].
  unfold find_client. simpl. by rewrite H1, H2.
Qed.

End hash.

(** Two clients, the second renamed. *)
Definition sample_client (nm ident : cstring) : Client :=
  MkClient nm ident CLIENT_STATUS_USER 0 0 1%positive 0 [] None None None None.

Lemma name_tables_refine_witness :
  let key := seqZ 0 16 in
  let st : clients := {[ 1%positive := sample_client (str "Alice") (str "001AAAAAA");
                         2%positive := sample_client (str "bob") (str "001AAAAAB") ]} in
  let st' : clients := <[ 2%positive := sample_client (str "Carol") (str "001AAAAAB") ]> st in
  let dn : gmap cstring cid := {[ str "alice" := 1%positive; str "carol" := 2%positive ]} in
  let di : gmap cstring cid := {[ str "001aaaaaa" := 1%positive ]} in
  exists t, hrun (hstep key) (st, init_hash false)
      [HAddName 1; HAddId 1; HAddName 2; HDelName 2; HSetName 2 (str "Carol"); HAddName 2]
      = Some (st', t) /\
    forall nm, cstr nm ->
      hash_find_client key st' t nm None = dn !! fold nm /\
      hash_find_id key st' t nm None = di !! fold nm /\
      find_client key st' t nm None =
        match di !! fold nm with Some x => Some x | None => dn !! fold nm end.
Proof.
  intros key st st' dn di. apply (name_tables_refine key).
  - intros x c Hx. apply lookup_insert_Some in Hx as [[_ <-]|[_ Hx]].
    + split; repeat constructor; compute; done.
    + apply lookup_singleton_Some in Hx as [_ <-].
      split; repeat constructor; compute; done.
  - vm_compute. reflexivity.
Defined.
