(* ===== verification/Whowas.v ===== *)
(** * The nickname history (src/whowas.c)

    [WHOWAS] is a fixed array used as a ring; an occupied slot is linked twice,
    into the hash bucket of its name ([prev]/[next] from [WHOWASHASH]) and, while
    the client is online, into the client's own list ([cprev]/[cnext] from
    [user->whowas]).  Both pointer structures are modelled on heaps of links, as
    in [Lists].  The theorem is a refinement: the ring with its two families of
    lists behaves as a log of the most recent entries, newest first, on which
    [off_history] forgets a client and [get_history] searches in order. *)
From S2P Require Import Prelude Chars Lists Client Hash.

Inductive WhoWasEvent := WHOWAS_EVENT_QUIT | WHOWAS_EVENT_NICK_CHANGE | WHOWAS_EVENT_SERVER_TERMINATING.

(** [struct WhoWas] without its links. *)
Record WhoWas := MkWhoWas {
  hashv : Z;
  event : option WhoWasEvent;
  connected_since : Z;
  logon : Z;
  logoff : Z;
  wumodes : Z;
  wname : option cstring;
  wusername : option cstring;
  whostname : option cstring;
  wip : option cstring;
  wvirthost : option cstring;
  servername : option cstring;
  wrealname : option cstring;
  waccount : option cstring;
  online : option cid
}.

Definition set_online (e : WhoWas) (v : option cid) : WhoWas :=
  MkWhoWas (hashv e) (event e) (connected_since e) (logon e) (logoff e) (wumodes e) (wname e)
    (wusername e) (whostname e) (wip e) (wvirthost e) (servername e) (wrealname e) (waccount e) v.

(** A slot of the array as a pointer. *)
Definition slot (i : nat) : ptr := Pos.of_succ_nat i.

Record wstate := WState {
  WHOWAS : gmap ptr WhoWas;
  links : heap;                       (** [prev], [next] *)
  clinks : heap;                      (** [cprev], [cnext] *)
  WHOWASHASH : gmap Z ptr;            (** the bucket heads that are not NULL *)
  whowas_next : nat;
  cl : clients
}.

(** The list primitives: [add_whowas_to_list] and [add_whowas_to_clist] are one
    function on two pairs of fields, and so are the two deletions. *)
Definition add_whowas_to_list (h : heap) (bucket : option ptr) (w : ptr)
  : option (heap * option ptr) :=
  h1 ← set_prev h w None;
  h2 ← set_next h1 w bucket;
  h3 ← set_prev_opt h2 bucket (Some w);
  Some (h3, Some w).

Definition add_whowas_to_clist := add_whowas_to_list.

Definition del_whowas_from_list (h : heap) (bucket : option ptr) (w : ptr)
  : option (heap * option ptr) :=
  k ← h !! w;
  '(h1, b1) ← (match prev k with
               | Some pv => h1 ← set_next h pv (next k); Some (h1, bucket)
               | None => Some (h, next k)
               end);
  k1 ← h1 !! w;
  h2 ← set_prev_opt h1 (next k1) (prev k1);
  Some (h2, b1).

Definition del_whowas_from_clist := del_whowas_from_list.

(** [client->user->whowas] *)
Definition whowas_head (cl : clients) (x : cid) : option ptr :=
  c ← cl !! x; u ← user c; whowas u.

Definition set_whowas_head (cl : clients) (x : cid) (v : option ptr) : option clients :=
  c ← cl !! x; u ← user c; Some (<[x := set_user c (Some (set_whowas u v))]> cl).

Definition hash_set (m : gmap Z ptr) (h : Z) (v : option ptr) : gmap Z ptr :=
  match v with Some p => <[h := p]> m | None => delete h m end.

Definition free_whowas_fields (e : WhoWas) : WhoWas :=
  MkWhoWas (-1) None 0 0 0 (wumodes e) None None None None None None None None (online e).

Definition free_whowas_entry (s : wstate) (p : ptr) : option wstate :=
  e ← WHOWAS s !! p;
  let h := hashv e in
  let ww := <[p := free_whowas_fields e]> (WHOWAS s) in
  '(clk, c1) ← (match online e with
                | Some x =>
                    '(clk, hd) ← del_whowas_from_clist (clinks s) (whowas_head (cl s) x) p;
                    c1 ← set_whowas_head (cl s) x hd;
                    Some (clk, c1)
                | None => Some (clinks s, cl s)
                end);
  '(lk, b) ← del_whowas_from_list (links s) (WHOWASHASH s !! h) p;
  Some (WState ww lk clk (hash_set (WHOWASHASH s) h b) (whowas_next s) c1).

Section whowas.

(** The build-time size of the ring and the hash key. *)
Context (NICKNAMEHISTORYLENGTH : nat) (Hsize : (0 < NICKNAMEHISTORYLENGTH)%nat).
Context (siphashkey_whowas : list Z).
(** The module data ["creationtime"] of a remote client. *)
Context (remote_creationtime : cid -> Z).

Definition get_creationtime (client : cid) (c : Client) : Z :=
  match local c with
  | Some l => creationtime l
  | None => remote_creationtime client
  end.

Definition create_whowas_entry (TStime : Z) (client : cid) (c : Client) (u : User) (e : WhoWas)
    (ev : WhoWasEvent) : WhoWas :=
  MkWhoWas (hash_whowas_name siphashkey_whowas (name c)) (Some ev) (get_creationtime client c)
    (lastnick c) TStime (umodes c) (Some (name c)) (Some (username u)) (Some (realhost u))
    (ip c) (Some (default [] (virthost u))) (server_name u) (Some (info c))
    (if decide (account u = str "0") then waccount e else Some (account u)) (online e).

Definition add_history (TStime : Z) (s : wstate) (client : cid) (is_online : bool)
    (ev : WhoWasEvent) : option wstate :=
  let new := slot (whowas_next s) in
  e0 ← WHOWAS s !! new;
  s1 ← (if negb (hashv e0 =? -1) then free_whowas_entry s new else Some s);
  c ← cl s1 !! client;
  u ← user c;
  e1 ← WHOWAS s1 !! new;
  let e2 := create_whowas_entry TStime client c u e1 ev in
  let e3 := set_online e2 (if is_online then Some client else None) in
  '(clk, c1) ← (if is_online then
                  '(clk, hd) ← add_whowas_to_clist (clinks s1) (whowas_head (cl s1) client) new;
                  c1 ← set_whowas_head (cl s1) client hd;
                  Some (clk, c1)
                else Some (clinks s1, cl s1));
  '(lk, b) ← add_whowas_to_list (links s1) (WHOWASHASH s1 !! hashv e3) new;
  let nxt := S (whowas_next s1) in
  Some (WState (<[new := e3]> (WHOWAS s1)) lk clk (hash_set (WHOWASHASH s1) (hashv e3) b)
          (if (nxt =? NICKNAMEHISTORYLENGTH)%nat then 0%nat else nxt) c1).

Fixpoint off_history_loop (fuel : nat) (s : wstate) (client : cid) (temp : option ptr)
  : option wstate :=
  match fuel with
  | O => None
  | S fuel =>
      match temp with
      | None => Some s
      | Some p =>
          k ← clinks s !! p;
          e ← WHOWAS s !! p;
          '(clk, hd) ← del_whowas_from_clist (clinks s) (whowas_head (cl s) client) p;
          c1 ← set_whowas_head (cl s) client hd;
          off_history_loop fuel
            (WState (<[p := set_online e None]> (WHOWAS s)) (links s) clk (WHOWASHASH s)
               (whowas_next s) c1) client (next k)
      end
  end.

Definition off_history (s : wstate) (client : cid) : option wstate :=
  c ← cl s !! client;
  u ← user c;
  off_history_loop (S NICKNAMEHISTORYLENGTH) s client (whowas u).

(** [get_history]: [None] is a fault, [Some None] the NULL result. *)
Fixpoint get_history_loop (fuel : nat) (s : wstate) (nick : cstring) (timelimit : Z)
    (temp : option ptr) : option (option cid) :=
  match fuel with
  | O => None
  | S fuel =>
      match temp with
      | None => Some None
      | Some p =>
          k ← links s !! p;
          e ← WHOWAS s !! p;
          nm ← wname e;
          differ ← mycmp nick nm;
          if (differ : bool) then get_history_loop fuel s nick timelimit (next k)
          else if logoff e <? timelimit then get_history_loop fuel s nick timelimit (next k)
          else Some (online e)
      end
  end.

Definition get_history (TStime : Z) (s : wstate) (nick : cstring) (timelimit : Z)
  : option (option cid) :=
  get_history_loop (S NICKNAMEHISTORYLENGTH) s nick (TStime - timelimit)
    (WHOWASHASH s !! hash_whowas_name siphashkey_whowas nick).

Definition count_whowas_memory (s : wstate) : nat :=
  length (List.filter (fun i => match WHOWAS s !! slot i with
                                | Some e => negb (hashv e =? -1) | None => false end)
            (seq 0 NICKNAMEHISTORYLENGTH)).

Definition zero_entry : WhoWas :=
  MkWhoWas (-1) None 0 0 0 0 None None None None None None None None None.

Definition initwhowas (cl0 : clients) : wstate :=
  let slots := list_to_set (map slot (seq 0 NICKNAMEHISTORYLENGTH)) : gset ptr in
  WState (gset_to_gmap zero_entry slots) (gset_to_gmap (Link None None) slots)
    (gset_to_gmap (Link None None) slots) ∅ 0 cl0.

(** ** The log *)

(** Newest entry first, at most [NICKNAMEHISTORYLENGTH] of them. *)
Definition log_add (log : list WhoWas) (e : WhoWas) : list WhoWas :=
  take NICKNAMEHISTORYLENGTH (e :: log).

Definition log_off (log : list WhoWas) (x : cid) : list WhoWas :=
  map (fun e => if decide (online e = Some x) then set_online e None else e) log.

Fixpoint log_get (log : list WhoWas) (nick : cstring) (limit : Z) : option cid :=
  match log with
  | [] => None
  | e :: log =>
      if bool_decide (same_name nick (default [] (wname e))) && (limit <=? logoff e)
      then online e else log_get log nick limit
  end.

Inductive wop :=
| WAdd (TStime : Z) (client : cid) (is_online : bool) (ev : WhoWasEvent)
| WOff (client : cid)
| WSet (client : cid) (c : Client).

(** The rest of the server may create, rename and remove clients, as long as
    [user->whowas] is left alone. *)
Definition keep_head (s : wstate) (x : cid) (c : Client) : Client :=
  set_user c ((fun u => set_whowas u (whowas_head (cl s) x)) <$> user c).

Definition wstep (s : wstate) (o : wop) : option wstate :=
  match o with
  | WAdd now x b ev => add_history now s x b ev
  | WOff x => off_history s x
  | WSet x c =>
      Some (WState (WHOWAS s) (links s) (clinks s) (WHOWASHASH s) (whowas_next s)
              (<[x := keep_head s x c]> (cl s)))
  end.

(** What is remembered of a client, for the log. *)
Definition log_entry (now : Z) (x : cid) (c : Client) (u : User) (ev : WhoWasEvent) (on : option cid)
  : WhoWas := set_online (create_whowas_entry now x c u zero_entry ev) on.

Definition wspec (a : list WhoWas * clients) (o : wop) : option (list WhoWas * clients) :=
  let '(log, st) := a in
  match o with
  | WAdd now x b ev =>
      c ← st !! x; u ← user c;
      if bool_decide (Forall (fun ch => 0 < ch < 256) (name c) /\ name c <> [])
      then Some (log_add log (log_entry now x c u ev (if b then Some x else None)), st)
      else None
  | WOff x => c ← st !! x; u ← user c; Some (log_off log x, st)
  | WSet x c =>
      if bool_decide (is_Some (user c) \/ Forall (fun e => online e <> Some x) log)
      then Some (log, <[x := c]> st) else None
  end.

(** ** Pointer level *)

Lemma dlist_frame h h' hd l m :
  frame h h' l -> (forall y, y ∈ m -> y ∉ l) -> dlist h hd m -> dlist h' hd m.
Proof.
  intros Hf Hd (Hn & He & Hl). split_and!; [done|done|]. eapply lseg_frame; [|done]. eauto.
Qed.

Lemma add_whowas_spec h hd l w k :
  dlist h hd l -> w ∉ l -> h !! w = Some k ->
  exists h', add_whowas_to_list h hd w = Some (h', Some w) /\
    dlist h' (Some w) (w :: l) /\ frame h h' (w :: l).
Proof.
  intros Hd Hw Hk. destruct (add_ListItem_spec h hd l w k Hd Hw Hk) as (h' & He & Hd' & Hf).
  exists h'. split; [|done]. rewrite <- He. unfold add_whowas_to_list, add_ListItem, set_next, set_prev.
  rewrite Hk. simpl. rewrite !lookup_insert_eq. simpl. by rewrite !insert_insert_eq.
Qed.

Lemma del_whowas_spec h hd l1 w l2 :
  dlist h hd (l1 ++ w :: l2) ->
  exists h', del_whowas_from_list h hd w = Some (h', first_or (l1 ++ l2) None) /\
    dlist h' (first_or (l1 ++ l2) None) (l1 ++ l2) /\ frame h h' (l1 ++ l2).
Proof.
  intros (Hnd & -> & Hl). apply lseg_mid in Hl as (Hl1 & Hw & Hl2).
  apply NoDup_app in Hnd as (Hn1 & Hd & Hn2). apply NoDup_cons in Hn2 as [Hw2 Hn2].
  assert (Hw1 : w ∉ l1) by (intros ?; eapply Hd; [done|set_solver]).
  destruct (set_next_last h None l1 (Some w) (first_or l2 None) Hn1 Hl1) as (h1 & He1 & Hl1' & Hf1).
  assert (Hl2' : lseg h1 (Some w) l2 None).
  { eapply lseg_frame; [|done]. intros y Hy. apply Hf1. intros ?. eapply Hd; [done|set_solver]. }
  destruct (set_prev_first h1 (Some w) (last_or None l1) l2 None Hn2 Hl2') as (h2 & He2 & Hl2'' & Hf2).
  exists h2. unfold del_whowas_from_list. rewrite Hw. simpl. split; [|split; [split_and!|]].
  - destruct (last_or None l1) as [pv|] eqn:E; simpl in *.
    + rewrite He1. simpl. rewrite (Hf1 w), Hw by done. simpl. rewrite He2. simpl.
      by destruct l1.
    + injection He1 as <-. rewrite Hw. simpl. rewrite He2. simpl. destruct l1 as [|a l1]; [done|].
      exfalso. clear -E. simpl in E. revert a E. induction l1; simpl; intros; [done|eauto].
  - apply NoDup_app. split_and!; [done| |done]. intros y Hy ?. eapply Hd; [done|set_solver].
  - done.
  - apply lseg_app. split; [|done]. eapply lseg_frame; [|done].
    intros y Hy. apply Hf2. intros ?. eapply Hd; [done|set_solver].
  - intros y Hy. rewrite Hf2, Hf1 by set_solver. done.
Qed.

Lemma head_set cl0 x v cl1 : set_whowas_head cl0 x v = Some cl1 ->
  forall y, whowas_head cl1 y = if decide (y = x) then v else whowas_head cl0 y.
Proof.
  unfold set_whowas_head, whowas_head. intros (c & Hc & H)%bind_Some.
  apply bind_Some in H as (u & Hu & [= <-]). intros y. case_decide as E.
  - subst. by rewrite lookup_insert_eq.
  - by rewrite lookup_insert_ne by done.
Qed.

(** A client whose list is not empty has a [User] to hold its head. *)
Lemma head_settable cl0 x p v : whowas_head cl0 x = Some p -> is_Some (set_whowas_head cl0 x v).
Proof.
  unfold whowas_head, set_whowas_head. intros (c & -> & H)%bind_Some. simpl.
  apply bind_Some in H as (u & -> & _). simpl. eauto.
Qed.

Lemma hash_set_lookup m h v h' : hash_set m h v !! h' = if decide (h' = h) then v else m !! h'.
Proof.
  unfold hash_set. destruct v; case_decide; subst;
    rewrite ?lookup_insert_eq, ?lookup_insert_ne, ?lookup_delete_eq, ?lookup_delete_ne by done; done.
Qed.

(** ** A family of lists over one heap

    [fam h heads key o]: for every [k], the list at [heads k] holds the items of
    [o] whose key is [k], in the order of [o]. *)
Section family.
Context {K : Type} `{EqDecision K}.

Definition fam (h : heap) (heads : K -> option ptr) (key : ptr -> option K) (o : list ptr) : Prop :=
  forall k, dlist h (heads k) (filter (fun p => key p = Some k) o).

Definition keeps (h h' : heap) : Prop := forall y, is_Some (h !! y) -> is_Some (h' !! y).

Lemma keeps_frame h h' hd l : frame h h' l -> dlist h' hd l -> keeps h h'.
Proof.
  intros Hf (_ & _ & Hl) y Hy. destruct (decide (y ∈ l)) as [Hin|Hout].
  - by eapply lseg_dom.
  - by rewrite Hf.
Qed.

Lemma fam_del h heads key key' o p k :
  fam h heads key o -> p ∈ o -> key p = Some k -> key' p = None ->
  (forall q, q <> p -> key' q = key q) ->
  exists h' hd', del_whowas_from_list h (heads k) p = Some (h', hd') /\
    fam h' (fun k' => if decide (k' = k) then hd' else heads k') key' o /\ keeps h h'.
Proof.
  intros Hfam Hp Hk Hk' Hag.
  assert (Hin : p ∈ filter (fun q => key q = Some k) o) by (by apply list_elem_of_filter).
  apply list_elem_of_split in Hin as (l1 & l2 & El). pose proof (Hfam k) as Hd. rewrite El in Hd.
  pose proof Hd as (Hnd & _ & _). apply NoDup_app in Hnd as (Hn1 & Hdj & Hn2).
  apply NoDup_cons in Hn2 as [Hp2 _].
  assert (Hp1 : p ∉ l1) by (intros ?; eapply Hdj; [done|set_solver]).
  assert (Hfil : filter (fun q => key' q = Some k) o = l1 ++ l2).
  { transitivity (filter (fun q => q <> p) (filter (fun q => key q = Some k) o)).
    - rewrite list_filter_filter. apply filter_agree. intros q Hq. destruct (decide (q = p)) as [->|].
      + rewrite Hk'. naive_solver.
      + rewrite Hag by done. tauto.
    - rewrite El, filter_app, filter_cons_False by (intros H; by apply H).
      by rewrite !filter_not_in. }
  destruct (del_whowas_spec _ _ _ _ _ Hd) as (h' & He & Hd' & Hf).
  exists h', (first_or (l1 ++ l2) None). split; [done|]. split; [|by eapply keeps_frame].
  intros k'. case_decide as E; [subst k'; by rewrite Hfil|].
  rewrite (filter_agree _ (fun q => key q = Some k')).
  - eapply dlist_frame; [exact Hf| |apply Hfam]. intros y [Hy _]%list_elem_of_filter Hy'.
    assert (y ∈ filter (fun q => key q = Some k) o) as [? _]%list_elem_of_filter;
      [rewrite El; set_solver|congruence].
  - intros q _. destruct (decide (q = p)) as [->|]; [rewrite Hk, Hk'; naive_solver|by rewrite Hag].
Qed.

Lemma fam_add h heads key key' o p k :
  fam h heads key o -> p ∉ o -> is_Some (h !! p) -> key' p = Some k ->
  (forall q, q <> p -> key' q = key q) ->
  exists h', add_whowas_to_list h (heads k) p = Some (h', Some p) /\
    fam h' (fun k' => if decide (k' = k) then Some p else heads k') key' (p :: o) /\ keeps h h'.
Proof.
  intros Hfam Hp [kp Hkp] Hk Hag.
  assert (Hsame : forall k', filter (fun q => key' q = Some k') o = filter (fun q => key q = Some k') o).
  { intros k'. apply filter_agree. intros q Hq. rewrite Hag; [done|]. by intros ->. }
  destruct (add_whowas_spec h (heads k) _ p kp (Hfam k)) as (h' & He & Hd' & Hf);
    [intros [_ ?]%list_elem_of_filter; done|done|].
  exists h'. split; [done|]. split; [|by eapply keeps_frame]. intros k'. case_decide as E.
  - subst k'. rewrite filter_cons_True by done. by rewrite Hsame.
  - rewrite filter_cons_False by congruence. rewrite Hsame.
    eapply dlist_frame; [exact Hf| |apply Hfam].
    intros y [Hy Hyo]%list_elem_of_filter [->|[? _]%list_elem_of_filter]%elem_of_cons; [done|congruence].
Qed.

(** A list with an item has a head. *)
Lemma fam_head h heads key o p k :
  fam h heads key o -> p ∈ o -> key p = Some k -> is_Some (heads k).
Proof.
  intros Hf Hp Hk. destruct (Hf k) as (_ & -> & _).
  assert (Hin : p ∈ filter (fun q => key q = Some k) o) by (by apply list_elem_of_filter).
  destruct (filter _ o); [set_solver|]. by eexists.
Qed.

(** Items without a key are in no list. *)
Lemma fam_drop_last h heads key o p : fam h heads key (o ++ [p]) -> key p = None -> fam h heads key o.
Proof.
  intros Hf Hp k. specialize (Hf k). rewrite filter_app, filter_cons_False in Hf by congruence.
  by rewrite app_nil_r in Hf.
Qed.

Lemma fam_cons h heads key key' o p :
  fam h heads key o -> key' p = None -> p ∉ o -> (forall q, q <> p -> key' q = key q) ->
  fam h heads key' (p :: o).
Proof.
  intros Hf Hp Hpo Hag k. rewrite filter_cons_False by congruence.
  rewrite (filter_agree _ (fun q => key q = Some k)); [apply Hf|].
  intros q Hq. rewrite Hag; [done|]. by intros ->.
Qed.

Lemma fam_ext h heads heads' key key' o :
  (forall k, heads' k = heads k) -> (forall q, q ∈ o -> key' q = key q) ->
  fam h heads key o -> fam h heads' key' o.
Proof.
  intros Hh Hk Hf k. rewrite Hh, (filter_agree _ (fun q => key q = Some k)); [apply Hf|].
  intros q Hq. by rewrite Hk.
Qed.

End family.

(** The two families of the whowas structure. *)
Definition hash_key (ww : gmap ptr WhoWas) (p : ptr) : option Z :=
  e ← ww !! p; if decide (hashv e = -1) then None else Some (hashv e).

Definition online_key (ww : gmap ptr WhoWas) (p : ptr) : option cid :=
  e ← ww !! p; if decide (hashv e = -1) then None else online e.

(** [o] lists the occupied slots, newest first. *)
Record lists_ok (s : wstate) (o : list ptr) : Prop := {
  lo_hash : fam (links s) (fun h => WHOWASHASH s !! h) (hash_key (WHOWAS s)) o;
  lo_cl : fam (clinks s) (whowas_head (cl s)) (online_key (WHOWAS s)) o
}.

Definition cells_ok (s : wstate) : Prop :=
  forall i, (i < NICKNAMEHISTORYLENGTH)%nat ->
    is_Some (links s !! slot i) /\ is_Some (clinks s !! slot i) /\ is_Some (WHOWAS s !! slot i).

(** Clients compared without the head of their whowas list. *)
Definition bare (c : Client) : Client := set_user c ((fun u => set_whowas u None) <$> user c).

Definition cl_sim (a b : clients) : Prop := forall x, bare <$> (a !! x) = bare <$> (b !! x).

Lemma set_head_sim cl0 x v cl1 : set_whowas_head cl0 x v = Some cl1 -> cl_sim cl0 cl1.
Proof.
  unfold set_whowas_head. intros (c & Hc & H)%bind_Some. apply bind_Some in H as (u & Hu & [= <-]).
  intros y. destruct (decide (y = x)) as [->|].
  - rewrite lookup_insert_eq, Hc. simpl. unfold bare. simpl. by rewrite Hu.
  - by rewrite lookup_insert_ne by done.
Qed.

Lemma key_other ww p q (e : WhoWas) :
  q <> p -> hash_key (<[p := e]> ww) q = hash_key ww q /\ online_key (<[p := e]> ww) q = online_key ww q.
Proof. intros. unfold hash_key, online_key. by rewrite !lookup_insert_ne by done. Qed.

Lemma key_at ww p (e : WhoWas) :
  hash_key (<[p := e]> ww) p = (if decide (hashv e = -1) then None else Some (hashv e)) /\
  online_key (<[p := e]> ww) p = (if decide (hashv e = -1) then None else online e).
Proof. unfold hash_key, online_key. by rewrite !lookup_insert_eq. Qed.

(** *** Freeing the oldest entry *)
Lemma free_whowas_entry_spec s o p e :
  lists_ok s (o ++ [p]) -> WHOWAS s !! p = Some e -> hashv e <> -1 ->
  exists s1, free_whowas_entry s p = Some s1 /\ lists_ok s1 o /\
    WHOWAS s1 = <[p := free_whowas_fields e]> (WHOWAS s) /\
    whowas_next s1 = whowas_next s /\ cl_sim (cl s) (cl s1) /\
    keeps (links s) (links s1) /\ keeps (clinks s) (clinks s1).
Proof.
  intros [Hh Hc] He Hne. set (ww := <[p := free_whowas_fields e]> (WHOWAS s)).
  assert (Hp : p ∈ o ++ [p]) by set_solver.
  destruct (fam_del _ _ _ (hash_key ww) _ p (hashv e) Hh Hp) as (lk & b & Hdel & Hfam & Hk).
  { unfold hash_key. rewrite He. simpl. by rewrite decide_False. }
  { apply key_at. }
  { intros q ?. by apply key_other. }
  apply fam_drop_last in Hfam; [|apply key_at].
  assert (Hcl : exists clk c1,
    (match online e with
     | Some x => '(clk, hd) ← del_whowas_from_clist (clinks s) (whowas_head (cl s) x) p;
                 c1 ← set_whowas_head (cl s) x hd; Some (clk, c1)
     | None => Some (clinks s, cl s)
     end) = Some (clk, c1) /\ fam clk (whowas_head c1) (online_key ww) o /\
    cl_sim (cl s) c1 /\ keeps (clinks s) clk).
  { destruct (online e) as [x|] eqn:Eo.
    - destruct (fam_del _ _ _ (online_key ww) _ p x Hc Hp) as (clk & hd & Hdc & Hfc & Hkc).
      { unfold online_key. rewrite He. simpl. by rewrite decide_False. }
      { apply key_at. }
      { intros q ?. by apply key_other. }
      unfold del_whowas_from_clist. rewrite Hdc. simpl. apply fam_drop_last in Hfc; [|apply key_at].
      destruct (fam_head _ _ _ _ p x Hc Hp) as [f Ef].
      { unfold online_key. rewrite He. simpl. by rewrite decide_False. }
      destruct (head_settable _ _ _ hd Ef) as [c1 Hc1]. rewrite Hc1. simpl. exists clk, c1.
      split_and!; [done| |by eapply set_head_sim|done].
      eapply fam_ext; [|done|exact Hfc]. intros y. simpl. by rewrite (head_set _ _ _ _ Hc1).
    - exists (clinks s), (cl s). split_and!; [done| |by intros ?|by intros ?].
      apply (fam_drop_last _ _ _ _ p); [|apply key_at].
      eapply fam_ext; [done| |exact Hc]. intros q _. destruct (decide (q = p)) as [->|];
        [|by apply key_other]. unfold online_key. rewrite He. unfold ww. rewrite lookup_insert_eq. simpl.
      by rewrite decide_False. }
  destruct Hcl as (clk & c1 & Hm & Hfc & Hsim & Hkc).
  unfold free_whowas_entry. rewrite He. simpl. rewrite Hm. simpl. rewrite Hdel. simpl.
  eexists. split; [done|]. split; [split|]; simpl; [|done|by split_and!].
  eapply fam_ext; [|done|exact Hfam]. intros k. simpl. by rewrite hash_set_lookup.
Qed.

(** *** Linking a new entry *)
Lemma link_entry s o p e x is_online :
  lists_ok s o -> p ∉ o -> is_Some (links s !! p) -> is_Some (clinks s !! p) -> hashv e <> -1 ->
  online e = (if (is_online : bool) then Some x else None) ->
  (forall v, is_Some (set_whowas_head (cl s) x v)) ->
  exists clk c1 lk b,
    (if is_online then
       '(clk, hd) ← add_whowas_to_clist (clinks s) (whowas_head (cl s) x) p;
       c1 ← set_whowas_head (cl s) x hd; Some (clk, c1)
     else Some (clinks s, cl s)) = Some (clk, c1) /\
    add_whowas_to_list (links s) (WHOWASHASH s !! hashv e) p = Some (lk, b) /\
    cl_sim (cl s) c1 /\ keeps (links s) lk /\ keeps (clinks s) clk /\
    forall n, lists_ok (WState (<[p := e]> (WHOWAS s)) lk clk (hash_set (WHOWASHASH s) (hashv e) b) n c1)
                (p :: o).
Proof.
  intros [Hh Hc] Hp Hlk Hclk Hne Hon Hset. set (ww := <[p := e]> (WHOWAS s)).
  destruct (fam_add _ _ _ (hash_key ww) _ p (hashv e) Hh Hp Hlk) as (lk & Hadd & Hfam & Hk).
  { unfold ww. destruct (key_at (WHOWAS s) p e) as [-> _]. by rewrite decide_False. }
  { intros q ?. by apply key_other. }
  assert (Hfin : fam lk (fun k => hash_set (WHOWASHASH s) (hashv e) (Some p) !! k) (hash_key ww) (p :: o)).
  { eapply fam_ext; [|done|exact Hfam]. intros k. apply hash_set_lookup. }
  assert (Hkey : online_key ww p = online e).
  { destruct (key_at (WHOWAS s) p e) as [_ Hk']. unfold ww. by rewrite Hk', decide_False. }
  destruct is_online.
  - destruct (fam_add _ _ _ (online_key ww) _ p x Hc Hp Hclk) as (clk & Hac & Hfc & Hkc).
    { by rewrite Hkey. }
    { intros q ?. by apply key_other. }
    destruct (Hset (Some p)) as [c1 Hc1]. exists clk, c1, lk, (Some p).
    unfold add_whowas_to_clist. rewrite Hac. simpl. rewrite Hc1. simpl.
    split_and!; [done|done|by eapply set_head_sim|done|done|]. intros n. split; simpl; [exact Hfin|].
    eapply fam_ext; [|done|exact Hfc]. intros y. simpl. by rewrite (head_set _ _ _ _ Hc1).
  - exists (clinks s), (cl s), lk, (Some p). split_and!; try done; [by intros ?|].
    intros n. split; simpl; [exact Hfin|]. eapply fam_cons; [exact Hc|by rewrite <- Hon|done|].
    intros q ?. by apply key_other.
Qed.

(** *** Forgetting a client *)
Definition forget (x : cid) (e : WhoWas) : WhoWas :=
  if decide (online e = Some x) then set_online e None else e.

Lemma off_step s o x p l e :
  lists_ok s o -> WHOWAS s !! p = Some e ->
  filter (fun q => online_key (WHOWAS s) q = Some x) o = p :: l ->
  exists clk hd c1, del_whowas_from_clist (clinks s) (whowas_head (cl s) x) p = Some (clk, hd) /\
    set_whowas_head (cl s) x hd = Some c1 /\ cl_sim (cl s) c1 /\ keeps (clinks s) clk /\
    online e = Some x /\ hashv e <> -1 /\ p ∈ o /\
    (exists pv, clinks s !! p = Some (Link pv (first_or l None))) /\
    lists_ok (WState (<[p := set_online e None]> (WHOWAS s)) (links s) clk (WHOWASHASH s)
                (whowas_next s) c1) o /\
    filter (fun q => online_key (<[p := set_online e None]> (WHOWAS s)) q = Some x) o = l.
Proof.
  intros [Hh Hc] He Hl. set (ww := <[p := set_online e None]> (WHOWAS s)).
  assert (Hin : p ∈ p :: l) by left. rewrite <- Hl in Hin.
  apply list_elem_of_filter in Hin as [Hkey Hp].
  assert (Hne : hashv e <> -1 /\ online e = Some x).
  { unfold online_key in Hkey. rewrite He in Hkey. simpl in Hkey. by case_decide. }
  destruct Hne as [Hne Hon].
  destruct (fam_del _ _ _ (online_key ww) _ p x Hc Hp Hkey) as (clk & hd & Hdel & Hfc & Hkc).
  { destruct (key_at (WHOWAS s) p (set_online e None)) as [_ Hk]. unfold ww. rewrite Hk.
    by rewrite decide_False. }
  { intros q ?. by apply key_other. }
  destruct (fam_head _ _ _ _ p x Hc Hp Hkey) as [f Ef].
  destruct (head_settable _ _ _ hd Ef) as [c1 Hc1]. pose proof (Hc x) as (Hnd & _ & Hseg).
  rewrite Hl in Hnd, Hseg. destruct Hseg as [Hlink _].
  exists clk, hd, c1. split_and!; try done; [by eapply set_head_sim|by eexists|split; simpl|].
  - eapply fam_ext; [done| |exact Hh]. intros q _. destruct (decide (q = p)) as [->|];
      [|by apply key_other]. unfold hash_key, ww. by rewrite lookup_insert_eq, He.
  - eapply fam_ext; [|done|exact Hfc]. intros y. simpl. by rewrite (head_set _ _ _ _ Hc1).
  - transitivity (filter (fun q => q <> p) (filter (fun q => online_key (WHOWAS s) q = Some x) o)).
    + rewrite list_filter_filter. apply filter_agree. intros q Hq. destruct (decide (q = p)) as [->|].
      * destruct (key_at (WHOWAS s) p (set_online e None)) as [_ Hk]. fold ww in Hk. rewrite Hk.
        case_decide; naive_solver.
      * destruct (key_other (WHOWAS s) p q (set_online e None)) as [_ Hk]; [done|]. fold ww in Hk.
        rewrite Hk. tauto.
    + rewrite Hl, filter_cons_False by (intros H; by apply H). apply NoDup_cons in Hnd as [? _].
      by apply filter_not_in.
Qed.

#[local] Instance cl_sim_equiv : Equivalence cl_sim.
Proof.
  split; [by intros ??|by intros ?? H x|].
  intros a b c H1 H2 x. etrans; [apply H1|apply H2].
Qed.

Lemma keeps_refl h : keeps h h.
Proof. by intros ?. Qed.

Lemma keeps_trans h1 h2 h3 : keeps h1 h2 -> keeps h2 h3 -> keeps h1 h3.
Proof. intros H1 H2 y Hy. apply H2, H1, Hy. Qed.

Lemma off_history_loop_spec x o : NoDup o -> forall l s fuel,
  lists_ok s o -> (forall p, p ∈ o -> is_Some (WHOWAS s !! p)) ->
  (forall p e, p ∈ o -> WHOWAS s !! p = Some e -> hashv e <> -1) ->
  filter (fun q => online_key (WHOWAS s) q = Some x) o = l -> (length l < fuel)%nat ->
  exists s', off_history_loop fuel s x (first_or l None) = Some s' /\ lists_ok s' o /\
    links s' = links s /\ whowas_next s' = whowas_next s /\
    cl_sim (cl s) (cl s') /\ keeps (clinks s) (clinks s') /\
    (forall p, WHOWAS s' !! p = if decide (p ∈ o) then forget x <$> (WHOWAS s !! p) else WHOWAS s !! p).
Proof.
  intros Hnd. induction l as [|p l IH]; intros s fuel Hok Hdom Hne Hl Hf;
    (destruct fuel as [|fuel]; [simpl in Hf; lia|]); cbn [off_history_loop first_or].
  - exists s. split_and!; try done; [apply keeps_refl|]. intros p. case_decide as Hp; [|done].
    destruct (Hdom p Hp) as [e He]. rewrite He. simpl. unfold forget. case_decide as Ho; [|done].
    exfalso. assert (Hin : p ∈ filter (fun q => online_key (WHOWAS s) q = Some x) o).
    { apply list_elem_of_filter. split; [|done]. unfold online_key. rewrite He. simpl.
      rewrite decide_False by eauto. done. }
    rewrite Hl in Hin. set_solver.
  - assert (Hpo : p ∈ o).
    { assert (p ∈ p :: l) as Hin by left. rewrite <- Hl in Hin. by apply list_elem_of_filter in Hin as [_ ?]. }
    destruct (Hdom p Hpo) as [e He].
    destruct (off_step s o x p l e Hok He Hl)
      as (clk & hd & c1 & Hdel & Hset & Hsim & Hk & Hon & Hh & _ & [pv Hlk] & Hok' & Hl').
    rewrite Hlk. simpl. rewrite He. simpl. rewrite Hdel. simpl. rewrite Hset. simpl.
    edestruct (IH _ fuel Hok') as (s' & Hr & Hok'' & Hls & Hn & Hs & Hkk & Hw); [| |exact Hl'|simpl in Hf; lia|].
    + simpl. intros q Hq. destruct (decide (q = p)) as [->|]; [by rewrite lookup_insert_eq|].
      rewrite lookup_insert_ne by done. eauto.
    + simpl. intros q e' Hq. destruct (decide (q = p)) as [->|].
      * rewrite lookup_insert_eq. by intros [= <-].
      * rewrite lookup_insert_ne by done. eauto.
    + exists s'. split_and!; try done.
      * by etrans.
      * by eapply keeps_trans.
      * intros q. rewrite Hw. simpl. destruct (decide (q = p)) as [->|].
        -- rewrite lookup_insert_eq, He. destruct (decide (p ∈ o)); [|done]. simpl. f_equal.
           unfold forget. rewrite (decide_True (P := online e = Some x)) by done.
           by rewrite decide_False.
        -- by rewrite lookup_insert_ne.
Qed.

(** *** Searching *)
Definition entry_ok (e : WhoWas) : Prop :=
  exists nm, wname e = Some nm /\ cstr nm /\ nm <> [] /\
    hashv e = hash_whowas_name siphashkey_whowas nm.

Lemma entry_hash e : entry_ok e -> hashv e <> -1.
Proof.
  intros (nm & _ & _ & _ & ->). unfold hash_whowas_name.
  pose proof (Z.mod_pos_bound (siphash_nocase nm siphashkey_whowas) WHOWAS_HASH_TABLE_SIZE ltac:(done)).
  lia.
Qed.

Lemma get_history_loop_spec s nick limit : cstr nick -> forall o log pv fuel,
  Forall2 (fun p e => WHOWAS s !! p = Some e) o log -> Forall entry_ok log ->
  let l := filter (fun p => hash_key (WHOWAS s) p = Some (hash_whowas_name siphashkey_whowas nick)) o in
  lseg (links s) pv l None -> (length o < fuel)%nat ->
  get_history_loop fuel s nick limit (first_or l None) = Some (log_get log nick limit).
Proof.
  intros Hnick o log pv fuel HF. revert pv fuel.
  induction HF as [|p e o log Hp HF IH]; intros pv fuel Hok l Hseg Hf; subst l.
  - destruct fuel; [simpl in Hf; lia|]. done.
  - inv Hok as [|? ? He Hok']. pose proof (entry_hash e He) as Hne.
    destruct He as (nm & Hnm & Hc & Hnil & Hh). cbn [log_get]. rewrite Hnm. simpl.
    assert (Hkey : hash_key (WHOWAS s) p = Some (hashv e)).
    { unfold hash_key. rewrite Hp. simpl. by rewrite decide_False. }
    destruct (decide (hashv e = hash_whowas_name siphashkey_whowas nick)) as [Eq|Eq].
    + rewrite filter_cons_True in Hseg |- * by congruence. destruct Hseg as [Hlk Hseg].
      destruct fuel as [|fuel]; [simpl in Hf; lia|]. cbn [get_history_loop first_or].
      rewrite Hlk. simpl. rewrite Hp. simpl. rewrite Hnm. simpl.
      pose proof (mycmp_same_name nick nm Hnick Hc) as Hcmp.
      destruct (mycmp nick nm) as [differ|]; [|by destruct Hcmp]. simpl.
      destruct differ.
      * rewrite bool_decide_false by naive_solver. simpl. eapply IH; [done|done|simpl in Hf; lia].
      * rewrite bool_decide_true by naive_solver. simpl.
        destruct (Z.ltb_spec (logoff e) limit); bdestr; [|done].
        eapply IH; [done|done|simpl in Hf; lia].
    + rewrite filter_cons_False in Hseg |- * by congruence.
      rewrite bool_decide_false; [|intros Hs; apply Eq; rewrite Hh; symmetry; by apply hash_whowas_same].
      simpl. eapply IH; [done|done|simpl in Hf; lia].
Qed.

(** *** The ring *)

(** The [k] slots before [nxt], going back from it. *)
Definition recent (nxt k : nat) : list nat :=
  map (fun j => (nxt + NICKNAMEHISTORYLENGTH - 1 - j) mod NICKNAMEHISTORYLENGTH)%nat (seq 0 k).

Definition bump (nxt : nat) : nat :=
  if (S nxt =? NICKNAMEHISTORYLENGTH)%nat then 0%nat else S nxt.

Lemma mod_back a : (NICKNAMEHISTORYLENGTH <= a < 2 * NICKNAMEHISTORYLENGTH)%nat ->
  (a mod NICKNAMEHISTORYLENGTH = a - NICKNAMEHISTORYLENGTH)%nat.
Proof.
  intros Ha. symmetry. apply (Nat.mod_unique _ _ 1); lia.
Qed.

Lemma recent_elem nxt k i : (nxt < NICKNAMEHISTORYLENGTH)%nat -> (k <= NICKNAMEHISTORYLENGTH)%nat ->
  i ∈ recent nxt k <->
  (exists j, (j < k)%nat /\ i = if (j <? nxt)%nat then (nxt - 1 - j)%nat
                                else (nxt + NICKNAMEHISTORYLENGTH - 1 - j)%nat).
Proof.
  intros Hn Hk. unfold recent. rewrite list_elem_of_fmap. split.
  - intros (j & -> & Hj%elem_of_seq). exists j. split; [lia|]. destruct (Nat.ltb_spec j nxt).
    + rewrite mod_back by lia. lia.
    + by rewrite Nat.mod_small by lia.
  - intros (j & Hj & ->). exists j. split; [|apply elem_of_seq; lia]. destruct (Nat.ltb_spec j nxt).
    + rewrite mod_back by lia. lia.
    + by rewrite Nat.mod_small by lia.
Qed.

Lemma recent_NoDup nxt k : (nxt < NICKNAMEHISTORYLENGTH)%nat -> (k <= NICKNAMEHISTORYLENGTH)%nat ->
  NoDup (recent nxt k).
Proof.
  intros Hn Hk. unfold recent. apply NoDup_fmap_2_strong; [|apply NoDup_seq].
  intros i j Hi%elem_of_seq Hj%elem_of_seq.
  destruct (decide (i < nxt)%nat), (decide (j < nxt)%nat);
    rewrite ?(mod_back (nxt + _ - 1 - i)%nat), ?(mod_back (nxt + _ - 1 - j)%nat),
      ?(Nat.mod_small (nxt + _ - 1 - i)%nat), ?(Nat.mod_small (nxt + _ - 1 - j)%nat) by lia; lia.
Qed.

Lemma recent_bump nxt k : (nxt < NICKNAMEHISTORYLENGTH)%nat -> (k < NICKNAMEHISTORYLENGTH)%nat ->
  recent (bump nxt) (S k) = nxt :: recent nxt k.
Proof.
  intros Hn Hk. unfold recent, bump. rewrite <- cons_seq, fmap_cons, <- fmap_S_seq, <- list_fmap_compose.
  destruct (Nat.eqb_spec (S nxt) NICKNAMEHISTORYLENGTH) as [E|E].
  - f_equal; [rewrite Nat.mod_small; lia|]. apply list_fmap_ext. intros i j Hj. apply lookup_seq in Hj.
    simpl. rewrite (Nat.mod_small (NICKNAMEHISTORYLENGTH - 1 - S j)%nat) by lia.
    rewrite (mod_back (nxt + _ - 1 - j)%nat) by lia. lia.
  - f_equal; [rewrite mod_back; lia|]. apply list_fmap_ext. intros i j Hj. apply lookup_seq in Hj.
    simpl. f_equal. lia.
Qed.

Lemma recent_full nxt : (nxt < NICKNAMEHISTORYLENGTH)%nat ->
  recent nxt NICKNAMEHISTORYLENGTH = recent nxt (NICKNAMEHISTORYLENGTH - 1) ++ [nxt].
Proof.
  intros Hn. unfold recent.
  assert (Hs : seq 0 NICKNAMEHISTORYLENGTH =
    seq 0 (NICKNAMEHISTORYLENGTH - 1) ++ [(0 + (NICKNAMEHISTORYLENGTH - 1))%nat])
    by (rewrite <- seq_S; f_equal; lia).
  rewrite Hs, fmap_app. f_equal. simpl. f_equal.
  replace (nxt + NICKNAMEHISTORYLENGTH - 1 - (NICKNAMEHISTORYLENGTH - 1))%nat with nxt by lia.
  by apply Nat.mod_small.
Qed.

Lemma slot_inj i j : slot i = slot j -> i = j.
Proof. apply SuccNat2Pos.inj. Qed.

(** *** The invariant that ties the ring to the log *)
Record winv (s : wstate) (log : list WhoWas) : Prop := {
  wi_next : (whowas_next s < NICKNAMEHISTORYLENGTH)%nat;
  wi_len : (length log <= NICKNAMEHISTORYLENGTH)%nat;
  wi_cells : cells_ok s;
  wi_lists : lists_ok s (map slot (recent (whowas_next s) (length log)));
  wi_free : forall i, (i < NICKNAMEHISTORYLENGTH)%nat ->
    slot i ∉ map slot (recent (whowas_next s) (length log)) -> WHOWAS s !! slot i = Some zero_entry;
  wi_log : Forall2 (fun p e => WHOWAS s !! p = Some e)
    (map slot (recent (whowas_next s) (length log))) log;
  wi_entries : Forall entry_ok log
}.

Lemma order_NoDup s log : winv s log -> NoDup (map slot (recent (whowas_next s) (length log))).
Proof.
  intros H. apply NoDup_fmap_2; [intros ? ?; apply slot_inj|]. apply recent_NoDup; apply H.
Qed.

(** Making room: the slot to be used is free afterwards. *)
Lemma make_room s log :
  winv s log ->
  let p := slot (whowas_next s) in
  let k := Nat.min (length log) (NICKNAMEHISTORYLENGTH - 1) in
  let o := map slot (recent (whowas_next s) k) in
  exists e0 s1 e1, WHOWAS s !! p = Some e0 /\
    (if negb (hashv e0 =? -1) then free_whowas_entry s p else Some s) = Some s1 /\
    lists_ok s1 o /\ p ∉ o /\ WHOWAS s1 !! p = Some e1 /\ waccount e1 = None /\
    (forall q, q <> p -> WHOWAS s1 !! q = WHOWAS s !! q) /\
    Forall2 (fun q e => WHOWAS s !! q = Some e) o (take k log) /\
    whowas_next s1 = whowas_next s /\ cl_sim (cl s) (cl s1) /\
    keeps (links s) (links s1) /\ keeps (clinks s) (clinks s1).
Proof.
  intros Hinv p k o. pose proof (order_NoDup _ _ Hinv) as Hnd. destruct Hinv as [Hn Hlen Hcells Hok Hfree Hlog Hent].
  assert (Hpo : p ∉ o).
  { intros (i & Hi & Hin)%list_elem_of_fmap. apply slot_inj in Hi. subst i.
    apply recent_elem in Hin; [|done|lia]. destruct Hin as (j & Hj & E).
    destruct (Nat.ltb_spec j (whowas_next s)); lia. }
  destruct (decide (length log = NICKNAMEHISTORYLENGTH)) as [E|E].
  - assert (Hk : k = (NICKNAMEHISTORYLENGTH - 1)%nat) by lia.
    rewrite E, recent_full, fmap_app in Hok, Hlog by done. rewrite <- Hk in Hok, Hlog. simpl in Hok, Hlog.
    fold o p in Hok, Hlog. apply Forall2_app_inv_l in Hlog as (l1 & l2 & HF1 & HF2 & ->).
    inv HF2 as [|? e0 ? ? He0 HF3]. inv HF3.
    apply Forall_app in Hent as [_ Hent]. inv Hent as [|? ? Heok _]. apply entry_hash in Heok.
    destruct (free_whowas_entry_spec s o p e0 Hok He0 Heok) as (s1 & Hf & Hok1 & Hw & Hn1 & Hs & Hk1 & Hk2).
    exists e0, s1, (free_whowas_fields e0). rewrite Hw.
    rewrite (proj2 (Z.eqb_neq _ _) Heok). simpl. split_and!; try done.
    + by rewrite lookup_insert_eq.
    + intros q ?. by rewrite lookup_insert_ne.
    + apply Forall2_length in HF1 as Hlen1. unfold o in Hlen1. rewrite length_fmap in Hlen1.
      unfold recent in Hlen1. rewrite length_map, length_seq in Hlen1. by rewrite take_app_length'.
  - assert (Hk : k = length log) by lia. unfold o in *. rewrite Hk in *. exists zero_entry, s, zero_entry.
    assert (He : WHOWAS s !! p = Some zero_entry) by (by apply Hfree). simpl.
    rewrite firstn_all. split_and!; try done; apply keeps_refl.
Qed.

(** The created entry reads nothing of the client but what [bare] keeps. *)
Lemma created_entry now x c c' u u' e1 ev v :
  bare c = bare c' -> user c = Some u -> user c' = Some u' -> waccount e1 = None ->
  set_online (create_whowas_entry now x c' u' e1 ev) v = log_entry now x c u ev v.
Proof.
  unfold bare. intros Hb Hu Hu' He. rewrite Hu, Hu' in Hb. destruct c, c', u, u'. simpl in *.
  simplify_eq. unfold log_entry, create_whowas_entry, set_online. simpl. by rewrite He.
Qed.

Lemma sim_user a b x c u : cl_sim a b -> a !! x = Some c -> user c = Some u ->
  exists c' u', b !! x = Some c' /\ user c' = Some u' /\ bare c = bare c'.
Proof.
  intros Hs Hc Hu. specialize (Hs x). rewrite Hc in Hs. destruct (b !! x) as [c'|]; [|done].
  simpl in Hs. apply (inj Some) in Hs. exists c'. assert (user (bare c) = user (bare c')) as Hb by congruence.
  simpl in Hb. rewrite Hu in Hb. destruct (user c') as [u'|]; [|done]. eauto.
Qed.

Lemma log_entry_ok now x c u ev v :
  cstr (name c) -> name c <> [] -> entry_ok (log_entry now x c u ev v).
Proof. intros. exists (name c). by split_and!. Qed.

Lemma cells_keep s lk clk ww hh n c1 :
  cells_ok s -> keeps (links s) lk -> keeps (clinks s) clk ->
  (forall p, is_Some (WHOWAS s !! p) -> is_Some (ww !! p)) -> cells_ok (WState ww lk clk hh n c1).
Proof. intros Hc H1 H2 H3 i Hi. destruct (Hc i Hi) as (? & ? & ?). simpl. auto. Qed.

Lemma add_history_ok now s log x b ev c u :
  winv s log -> cl s !! x = Some c -> user c = Some u -> cstr (name c) -> name c <> [] ->
  exists s', add_history now s x b ev = Some s' /\
    winv s' (log_add log (log_entry now x c u ev (if b then Some x else None))) /\
    cl_sim (cl s) (cl s').
Proof.
  intros Hinv Hc Hu Hcn Hnn. pose proof Hinv as [Hn Hlen Hcells _ Hfree _ Hent].
  destruct (make_room s log Hinv)
    as (e0 & s1 & e1 & He0 & Hs1 & Hok & Hpo & He1 & Hacc & Hother & HF & Hn1 & Hsim & Hk1 & Hk2).
  set (p := slot (whowas_next s)) in *.
  set (k := Nat.min (length log) (NICKNAMEHISTORYLENGTH - 1)) in *.
  set (new := log_entry now x c u ev (if b then Some x else None)).
  destruct (sim_user _ _ _ _ _ Hsim Hc Hu) as (c' & u' & Hc' & Hu' & Hbare).
  assert (Hnew : entry_ok new) by (by apply log_entry_ok).
  destruct (Hcells (whowas_next s) Hn) as (Hl1 & Hl2 & _).
  destruct (link_entry s1 _ p new x b Hok Hpo) as (clk & c1 & lk & bh & Hm & Ha & Hs2 & Hk3 & Hk4 & Hok2);
    [by apply Hk1|by apply Hk2|by apply entry_hash|done| |].
  { intros v. unfold set_whowas_head. rewrite Hc'. simpl. rewrite Hu'. simpl. eauto. }
  unfold add_history. fold p. rewrite He0. cbn [mbind option_bind]. rewrite Hs1. cbn [mbind option_bind]. rewrite Hc'. cbn [mbind option_bind]. rewrite Hu'. cbn [mbind option_bind].
  rewrite He1. cbn [mbind option_bind].
  rewrite (created_entry now x c c' u u' e1 ev _ Hbare Hu Hu' Hacc). fold new.
  rewrite Hm. cbn [mbind option_bind]. rewrite Ha. cbn [mbind option_bind]. rewrite Hn1. eexists. split; [done|]. split; [|by etrans].
  assert (Hlog : log_add log new = new :: take k log).
  { unfold log_add, k. destruct NICKNAMEHISTORYLENGTH as [|N]; [lia|]. simpl. f_equal.
    rewrite Nat.sub_0_r. destruct (decide (length log <= N)%nat).
    - rewrite !firstn_all2 by lia. done.
    - f_equal. lia. }
  assert (Hlk : length (take k log) = k) by (rewrite length_take; lia).
  assert (Hord : map slot (recent (bump (whowas_next s)) (length (new :: take k log))) =
    p :: map slot (recent (whowas_next s) k)).
  { cbn [length]. by rewrite Hlk, recent_bump by lia. }
  rewrite Hlog. split; cbn [whowas_next WHOWAS]; fold (bump (whowas_next s)).
  - unfold bump. destruct (Nat.eqb_spec (S (whowas_next s)) NICKNAMEHISTORYLENGTH); lia.
  - simpl. rewrite Hlk. lia.
  - apply (cells_keep s); [done|by eapply keeps_trans|by eapply keeps_trans|].
    intros q Hq. destruct (decide (q = p)) as [->|]; [by rewrite lookup_insert_eq|].
    rewrite lookup_insert_ne, Hother by done. done.
  - rewrite Hord. apply Hok2.
  - rewrite Hord. intros i Hi [Hip Hio]%not_elem_of_cons. rewrite lookup_insert_ne, Hother by done.
    apply Hfree; [done|]. destruct (decide (length log = NICKNAMEHISTORYLENGTH)) as [E|].
    + rewrite E, recent_full, fmap_app by done. unfold k in Hio. rewrite E in Hio.
      replace (Nat.min _ _) with (NICKNAMEHISTORYLENGTH - 1)%nat in Hio by lia. set_solver.
    + unfold k in Hio. by replace (Nat.min _ _) with (length log) in Hio by lia.
  - rewrite Hord. constructor; [by rewrite lookup_insert_eq|].
    eapply Forall2_mono_in; [exact HF|]. intros q e Hq He.
    rewrite lookup_insert_ne by (intros ->; done). by rewrite Hother by (intros ->; done).
  - constructor; [done|]. by apply Forall_take.
Qed.

Lemma off_history_ok s log x c u :
  winv s log -> cl s !! x = Some c -> user c = Some u ->
  exists s', off_history s x = Some s' /\ winv s' (log_off log x) /\ cl_sim (cl s) (cl s').
Proof.
  intros Hinv Hc Hu. pose proof (order_NoDup _ _ Hinv) as Hnd.
  destruct Hinv as [Hn Hlen Hcells Hok Hfree Hlog Hent]. set (o := map slot _) in *.
  assert (Hocc : forall p, p ∈ o -> exists e, WHOWAS s !! p = Some e /\ hashv e <> -1).
  { intros p [i Hi]%list_elem_of_lookup. destruct (Forall2_lookup_l _ _ _ _ _ Hlog Hi) as (e & He & Hp).
    exists e. split; [done|]. apply entry_hash. by eapply Forall_lookup_1. }
  edestruct (off_history_loop_spec x o Hnd) with (s := s) (fuel := S NICKNAMEHISTORYLENGTH) as
    (s' & Hr & Hok' & Hlk & Hnx & Hsim & Hk & Hw); [exact Hok| | |reflexivity| |].
  { intros p (e & ? & _)%Hocc. eauto. }
  { intros p e (e' & ? & ?)%Hocc ?. congruence. }
  { eapply Nat.le_lt_trans; [apply length_filter|]. unfold o. rewrite length_map. unfold recent.
    rewrite length_map, length_seq. lia. }
  destruct (lo_cl _ _ Hok x) as (_ & Hhd & _). unfold whowas_head in Hhd. rewrite Hc in Hhd. simpl in Hhd.
  rewrite Hu in Hhd. simpl in Hhd.
  unfold off_history. rewrite Hc. cbn [mbind option_bind]. rewrite Hu. cbn [mbind option_bind]. rewrite Hhd, Hr.
  exists s'. split; [done|]. split; [|done].
  split; rewrite ?Hnx; unfold log_off; rewrite ?length_map; fold o; try done.
  - intros i Hi. destruct (Hcells i Hi) as (? & ? & [e He]). rewrite Hlk, Hw, He.
    split_and!; [done|by apply Hk|]. case_decide; simpl; eauto.
  - intros i Hi Hio. rewrite Hw. rewrite decide_False by done. by apply Hfree.
  - apply Forall2_fmap_r. eapply Forall2_mono_in; [exact Hlog|]. intros p e Hp He. simpl.
    rewrite Hw, decide_True by done. by rewrite He.
  - apply Forall_fmap. eapply Forall_impl; [exact Hent|]. intros e (nm & ? & ? & ? & ?).
    exists nm. simpl. by case_decide.
Qed.

Lemma set_client_ok s log x c :
  winv s log -> is_Some (user c) \/ Forall (fun e => online e <> Some x) log ->
  winv (WState (WHOWAS s) (links s) (clinks s) (WHOWASHASH s) (whowas_next s)
          (<[x := keep_head s x c]> (cl s))) log.
Proof.
  intros [Hn Hlen Hcells Hok Hfree Hlog Hent] Hx. split; try done. simpl. destruct Hok as [Hh Hc].
  split; [done|]. simpl. eapply fam_ext; [|done|exact Hc]. intros y. unfold whowas_head at 1.
  destruct (decide (y = x)) as [->|]; [|by rewrite lookup_insert_ne].
  rewrite lookup_insert_eq. simpl. destruct (user c) as [v|] eqn:Eu; simpl; [done|].
  destruct Hx as [[? ?]|Hx]; [done|]. destruct (Hc x) as (_ & -> & _).
  destruct (filter _ _) as [|p l] eqn:Ef; [done|]. exfalso.
  assert (Hp0 : p ∈ p :: l) by left. rewrite <- Ef in Hp0.
  apply list_elem_of_filter in Hp0 as [Hk [i Hi]%list_elem_of_lookup].
  destruct (Forall2_lookup_l _ _ _ _ _ Hlog Hi) as (e & He & Hp).
  apply (Forall_lookup_1 _ _ _ _ Hx He). unfold online_key in Hk. rewrite Hp in Hk. simpl in Hk.
  by case_decide.
Qed.

Lemma initwhowas_inv cl0 : (forall x, whowas_head cl0 x = None) -> winv (initwhowas cl0) [].
Proof.
  intros Hcl.
  assert (Hin : forall i, (i < NICKNAMEHISTORYLENGTH)%nat ->
    slot i ∈ (list_to_set (map slot (seq 0 NICKNAMEHISTORYLENGTH)) : gset ptr)).
  { intros i Hi. apply elem_of_list_to_set, list_elem_of_fmap. exists i. split; [done|].
    apply elem_of_seq. lia. }
  assert (Hnull : forall (h : heap), dlist h None []) by (intros h; split_and!; [constructor|done|done]).
  split; simpl; try done; try lia.
  - intros i Hi. simpl. split_and!; eexists; apply lookup_gset_to_gmap_Some; eauto.
  - split; intros k; simpl; [rewrite lookup_empty|rewrite Hcl]; apply Hnull.
  - intros i Hi _. apply lookup_gset_to_gmap_Some. eauto.
Qed.

Definition wrel (s : wstate) (a : list WhoWas * clients) : Prop := winv s a.1 /\ cl_sim (cl s) a.2.

Lemma wstep_ok s a o a' :
  wrel s a -> wspec a o = Some a' -> exists s', wstep s o = Some s' /\ wrel s' a'.
Proof.
  destruct a as [log st]. intros [Hinv Hsim]. simpl in *. destruct o as [now x b ev|x|x c]; simpl.
  - intros (c & Hc & H)%bind_Some. apply bind_Some in H as (u & Hu & H). case_bool_decide as Hn; [|done].
    simplify_eq. symmetry in Hsim.
    destruct (sim_user _ _ _ _ _ Hsim Hc Hu) as (c' & u' & Hc' & Hu' & Hb).
    assert (Hnm : name c' = name c) by exact (eq_sym (f_equal name Hb)).
    destruct (add_history_ok now s log x b ev c' u' Hinv Hc' Hu') as (s' & Hr & Hinv' & Hsim');
      [rewrite Hnm; apply Hn|rewrite Hnm; apply Hn|].
    exists s'. split; [done|]. split; simpl; [|by etrans; [symmetry; exact Hsim'|symmetry]].
    replace (log_entry now x c u ev (if b then Some x else None)) with
      (log_entry now x c' u' ev (if b then Some x else None)); [done|].
    symmetry in Hb. by rewrite <- (created_entry now x c' c u' u zero_entry ev _ Hb Hu' Hu).
  - intros (c & Hc & H)%bind_Some. apply bind_Some in H as (u & Hu & [= <-]). symmetry in Hsim.
    destruct (sim_user _ _ _ _ _ Hsim Hc Hu) as (c' & u' & Hc' & Hu' & Hb).
    destruct (off_history_ok s log x c' u' Hinv Hc' Hu') as (s' & Hr & Hinv' & Hsim').
    exists s'. split; [done|]. split; simpl; [done|]. by etrans; [symmetry; exact Hsim'|symmetry].
  - case_bool_decide as Hx; [|done]. intros [= <-]. eexists. split; [done|]. split; simpl.
    + by apply set_client_ok.
    + intros y. destruct (decide (y = x)) as [->|]; [|rewrite !lookup_insert_ne by done; apply Hsim].
      rewrite !lookup_insert_eq. simpl. f_equal. unfold bare, keep_head. destruct c as [? ? ? ? ? ? ? ? ? ? [v|] ?]; done.
Qed.

Fixpoint wrun {S} (step : S -> wop -> option S) (s : S) (os : list wop) : option S :=
  match os with [] => Some s | o :: os => s' ← step s o; wrun step s' os end.

Lemma wrun_ok os s a a' :
  wrel s a -> wrun wspec a os = Some a' -> exists s', wrun wstep s os = Some s' /\ wrel s' a'.
Proof.
  revert s a. induction os as [|o os IH]; intros s a Hr; simpl; [intros [= <-]; eauto|].
  intros (a1 & Ha & Hrun)%bind_Some. destruct (wstep_ok _ _ _ _ Hr Ha) as (s1 & -> & Hr1).
  simpl. eauto.
Qed.

Lemma count_whowas_memory_spec s log : winv s log -> count_whowas_memory s = length log.
Proof.
  intros Hinv. pose proof (order_NoDup _ _ Hinv) as Hnd.
  destruct Hinv as [Hn Hlen Hcells Hok Hfree Hlog Hent].
  transitivity (length (recent (whowas_next s) (length log))).
  2:{ unfold recent. by rewrite length_map, length_seq. }
  unfold count_whowas_memory. apply Permutation_length, NoDup_Permutation.
  - apply NoDup_ListNoDup, List.NoDup_filter, NoDup_ListNoDup, NoDup_seq.
  - by apply recent_NoDup.
  - intros i. rewrite list_elem_of_In, List.filter_In, <- list_elem_of_In, elem_of_seq.
    assert (Hslot : slot i ∈ map slot (recent (whowas_next s) (length log)) <->
      i ∈ recent (whowas_next s) (length log)).
    { rewrite list_elem_of_fmap. split; [intros (j & ->%slot_inj & ?); done|eauto]. }
    rewrite <- Hslot. split.
    + intros [Hi Hf]. destruct (decide (slot i ∈ map slot (recent (whowas_next s) (length log)))) as [|Hno];
        [done|]. rewrite (Hfree i) in Hf by (done || lia). done.
    + intros Hin. split.
      * apply Hslot, recent_elem in Hin; [|done|done]. destruct Hin as (j & ? & ->).
        destruct (Nat.ltb_spec j (whowas_next s)); lia.
      * apply list_elem_of_lookup in Hin as [j Hj].
        destruct (Forall2_lookup_l _ _ _ _ _ Hlog Hj) as (e & He & ->).
        apply negb_true_iff, Z.eqb_neq, entry_hash. by eapply Forall_lookup_1.
Qed.

(** C19: the nickname history behaves as a log of its most recent entries.  For
    every sequence of additions, removals of quitting clients and changes to the
    clients by the rest of the server, the pointer code runs without a fault, and
    afterwards [get_history] returns the client of the newest entry whose name
    compares equal and that is recent enough, exactly as a search of the log
    would; a slot is reused only for the oldest entry, an entry no longer points
    to a client that [off_history] forgot, and the number of used slots is the
    length of the log. *)
Theorem whowas_refines_log (cl0 : clients) (os : list wop) (log : list WhoWas) (st : clients)
  (Hcl : forall x, whowas_head cl0 x = None) (Hos : wrun wspec ([], cl0) os = Some (log, st)) :
  exists s, wrun wstep (initwhowas cl0) os = Some s /\ count_whowas_memory s = length log /\
    forall now nick limit, cstr nick ->
      get_history now s nick limit = Some (log_get log nick (now - limit)).
Proof.
  destruct (wrun_ok os (initwhowas cl0) ([], cl0) (log, st)) as (s & Hr & Hinv & _);
    [by split; [apply initwhowas_inv|]|done|].
  exists s. split; [done|]. split; [by apply count_whowas_memory_spec|]. intros now nick limit Hn.
  destruct Hinv as [Hnx Hlen Hcells Hok Hfree Hlog Hent]. simpl in *.
  destruct (lo_hash _ _ Hok (hash_whowas_name siphashkey_whowas nick)) as (_ & Hhd & Hseg).
  unfold get_history. rewrite Hhd. eapply get_history_loop_spec; [done|done|done|exact Hseg|].
  rewrite length_map. unfold recent. rewrite length_map, length_seq. lia.
Qed.

End whowas.

Definition sample_user (nm : cstring) : Client :=
  MkClient nm [] CLIENT_STATUS_USER 0 0 1%positive 100 [] None None
    (Some (MkUser (str "0") (str "u") (str "h") None None None)) None.

(** Three entries in a ring of two, then the first client quits. *)
Lemma whowas_refines_log_witness :
  let st : clients := {[ 1%positive := sample_user (str "alice"); 2%positive := sample_user (str "bob") ]} in
  let key := seqZ 0 16 in
  let os := [WAdd 10 1 true WHOWAS_EVENT_NICK_CHANGE; WAdd 11 2 true WHOWAS_EVENT_NICK_CHANGE;
             WAdd 12 1 true WHOWAS_EVENT_NICK_CHANGE; WOff 1] in
  let log := log_off [log_entry key (fun _ => 0) 12 1 (sample_user (str "alice"))
                        (MkUser (str "0") (str "u") (str "h") None None None)
                        WHOWAS_EVENT_NICK_CHANGE (Some 1%positive);
                      log_entry key (fun _ => 0) 11 2 (sample_user (str "bob"))
                        (MkUser (str "0") (str "u") (str "h") None None None)
                        WHOWAS_EVENT_NICK_CHANGE (Some 2%positive)] 1 in
  exists s, wrun (wstep 2 key (fun _ => 0)) (initwhowas 2 st) os = Some s /\
    count_whowas_memory 2 s = length log /\
    forall now nick limit, cstr nick ->
      get_history 2 key now s nick limit = Some (log_get log nick (now - limit)).
Proof.
  intros st key os log.
  apply (whowas_refines_log 2 ltac:(lia) key (fun _ => 0) st os log st).
  - intros x. unfold whowas_head. destruct (st !! x) as [c|] eqn:E; [|done].
    unfold st in E. apply lookup_insert_Some in E as [[_ <-]|[_ E]]; [done|].
    apply lookup_singleton_Some in E as [_ <-]. done.
  - vm_compute. reflexivity.
Defined.
