(* ===== verification/Command.v ===== *)
(** * The command table (src/api-command.c)

    Commands are registered under their name in one of 256 chains, chosen by the
    upper-cased first byte; several commands may share a name with different
    flags.  [find_command] filters by the flags of the client that asks.  The
    invariant of the table (a command is in the chain of its first byte and takes
    at most [MAXPARA] parameters) is what the parser relies on to keep its
    parameter array within bounds. *)
From S2P Require Import Prelude Chars Lists Client.

Definition MAXPARA : Z := 30.
Definition MAXPARA_USER : Z := 15.

Definition CMD_UNREGISTERED : Z := 1.
Definition CMD_USER : Z := 2.
Definition CMD_SERVER : Z := 4.
Definition CMD_SHUN : Z := 8.
Definition CMD_NOLAG : Z := 16.
Definition CMD_ALIAS : Z := 32.
Definition CMD_RESETIDLE : Z := 64.
Definition CMD_VIRUS : Z := 128.
Definition CMD_OPER : Z := 512.
Definition CMD_CONTROL : Z := 1024.
Definition CMD_BIGLINES : Z := 2048.
Definition CMD_TEXTANALYSIS : Z := 4096.

Record RealCommand := MkCmd {
  cmd : cstring;
  cflags : Z;
  parameters : Z;
  cbytes : Z;                         (** bytes received, for statistics *)
  count : Z                           (** times executed *)
}.

(** A [RealCommand *]; the chains hold pointers, newest first. *)
Abbreviation cmdptr := positive (only parsing).

Record cmdtable := CmdTable {
  CommandHash : gmap Z (list cmdptr);
  commands : gmap cmdptr RealCommand
}.

Definition chain (t : cmdtable) (h : Z) : list cmdptr := default [] (CommandHash t !! h).

(** [toupper( *cmd)] *)
Definition cmd_slot (name : cstring) : Z := toupper (hd 0 name).

(** The filter of [find_command]: may a client with these flags see [p]? *)
Definition cmd_visible (flags : Z) (p : RealCommand) : bool :=
  if has flags CMD_CONTROL then has (cflags p) CMD_CONTROL
  else if has flags CMD_UNREGISTERED && negb (has (cflags p) CMD_UNREGISTERED) then false
  else if has flags CMD_SHUN && negb (has (cflags p) CMD_SHUN) then false
  else if has flags CMD_VIRUS && negb (has (cflags p) CMD_VIRUS) then false
  else if has flags CMD_ALIAS && negb (has (cflags p) CMD_ALIAS) then false
  else negb (has (cflags p) CMD_CONTROL).

Fixpoint find_in_chain (t : cmdtable) (accept : RealCommand -> bool) (name : cstring)
    (l : list cmdptr) : option cmdptr :=
  match l with
  | [] => None
  | x :: l =>
      match commands t !! x with
      | Some p => if accept p && strcaseeq (cmd p) name then Some x else find_in_chain t accept name l
      | None => find_in_chain t accept name l
      end
  end.

Definition find_command (t : cmdtable) (name : cstring) (flags : Z) : option cmdptr :=
  find_in_chain t (cmd_visible flags) name (chain t (cmd_slot name)).

Definition find_command_simple (t : cmdtable) (name : cstring) : option cmdptr :=
  find_in_chain t (fun _ => true) name (chain t (cmd_slot name)).

Definition CommandExists (t : cmdtable) (name : cstring) : bool :=
  match find_command_simple t name with Some _ => true | None => false end.

Inductive cmd_error := MODERR_EXISTS | MODERR_INVALID.

(** [add_Command_backend] links a fresh command at the head of its chain. *)
Definition add_Command_backend (t : cmdtable) (c : RealCommand) : cmdptr * cmdtable :=
  let x := fresh (dom (commands t)) in
  (x, CmdTable (<[cmd_slot (cmd c) := x :: chain t (cmd_slot (cmd c))]> (CommandHash t))
        (<[x := c]> (commands t))).

Definition CommandAddInternal (t : cmdtable) (name : cstring) (params flags : Z)
  : (cmdptr * cmdtable) + cmd_error :=
  let exists_ :=
    match find_command t name flags with
    | Some x => match commands t !! x with Some c => cflags c =? flags | None => false end
    | None => false
    end in
  if exists_ then inr MODERR_EXISTS
  else if flags =? 0 then inr MODERR_INVALID
  else
    let c := MkCmd name flags (if MAXPARA <? params then MAXPARA else params) 0 0 in
    inl (add_Command_backend t c).

Definition CommandAdd (t : cmdtable) (name : cstring) (params flags : Z)
  : option ((cmdptr * cmdtable) + cmd_error) :=
  if has flags CMD_ALIAS then None else Some (CommandAddInternal t name params flags).

Definition AliasAdd (t : cmdtable) (name : cstring) (params flags : Z)
  : (cmdptr * cmdtable) + cmd_error :=
  let flags := if has flags CMD_ALIAS then flags else Z.lor flags CMD_ALIAS in
  CommandAddInternal t name params flags.

Definition CommandDelX (t : cmdtable) (x : cmdptr) : option cmdtable :=
  c ← commands t !! x;
  let h := cmd_slot (cmd c) in
  Some (CmdTable (<[h := filter (fun y => y <> x) (chain t h)]> (CommandHash t))
          (delete x (commands t))).

(** ** The invariant *)

Definition cmd_wf (c : RealCommand) : Prop := cstr (cmd c) /\ 0 <= parameters c <= MAXPARA.

Record cmdtable_wf (t : cmdtable) : Prop := {
  cw_chain : forall h x, x ∈ chain t h -> exists c, commands t !! x = Some c /\ cmd_slot (cmd c) = h;
  cw_cmd : forall x c, commands t !! x = Some c -> x ∈ chain t (cmd_slot (cmd c)) /\ cmd_wf c;
  cw_nodup : forall h, NoDup (chain t h)
}.

Lemma find_in_chain_Some t accept name l x :
  find_in_chain t accept name l = Some x ->
  x ∈ l /\ exists c, commands t !! x = Some c /\ accept c = true /\ same_name (cmd c) name.
Proof.
  induction l as [|y l IH]; simpl; [done|]. destruct (commands t !! y) as [c|] eqn:E.
  - destruct (accept c && strcaseeq (cmd c) name) eqn:Ea.
    + intros [= ->]. apply andb_true_iff in Ea as [? Hs]. unfold strcaseeq in Hs.
      apply bool_decide_eq_true in Hs. split; [left|eauto].
    + intros [? ?]%IH. split; [by right|done].
  - intros [? ?]%IH. split; [by right|done].
Qed.

Lemma find_in_chain_None t accept name l :
  find_in_chain t accept name l = None -> forall x c, x ∈ l -> commands t !! x = Some c ->
  accept c = true -> ~ same_name (cmd c) name.
Proof.
  induction l as [|y l IH]; simpl; intros H x c Hx Hc Ha; [set_solver|].
  apply elem_of_cons in Hx as [->|Hx].
  - rewrite Hc, Ha in H. simpl in H. unfold strcaseeq in H. by case_bool_decide.
  - destruct (commands t !! y) as [c'|]; [|by eapply IH].
    destruct (accept c' && strcaseeq (cmd c') name); [done|]. by eapply IH.
Qed.

(** Names that compare equal select the same chain. *)
Lemma cmd_slot_same a b : cstr a -> cstr b -> same_name a b -> cmd_slot a = cmd_slot b.
Proof.
  intros Ha Hb H. destruct a as [|x a], b as [|y b]; try (by apply same_name_length in H).
  apply same_name_cons in H as [H _]. apply cstr_cons in Ha as [Hx _], Hb as [Hy _].
  unfold byte_ok in *. unfold cmd_slot. simpl. apply fold_agree; lia || done.
Qed.

Lemma chain_insert t h l m h' :
  chain (CmdTable (<[h := l]> (CommandHash t)) m) h' = if decide (h' = h) then l else chain t h'.
Proof.
  unfold chain. simpl. case_decide as E; [subst; by rewrite lookup_insert_eq|].
  by rewrite lookup_insert_ne.
Qed.

Lemma add_backend_wf t c : cmdtable_wf t -> cmd_wf c ->
  cmdtable_wf (add_Command_backend t c).2.
Proof.
  intros [Hch Hcm Hnd] Hc. unfold add_Command_backend. simpl. set (x := fresh (dom (commands t))).
  assert (Hx : commands t !! x = None) by (apply not_elem_of_dom, is_fresh).
  assert (Hxc : forall h, x ∉ chain t h) by (intros h (c' & ? & _)%Hch; congruence).
  split.
  - intros h y. rewrite chain_insert. simpl. case_decide as E.
    + intros [->|Hy]%elem_of_cons; [exists c; by rewrite lookup_insert_eq|].
      destruct (Hch _ _ Hy) as (c' & ? & ?). exists c'.
      rewrite lookup_insert_ne by (intros <-; congruence). by subst.
    + intros Hy. destruct (Hch _ _ Hy) as (c' & ? & ?). exists c'.
      by rewrite lookup_insert_ne by (intros <-; congruence).
  - intros y c'. simpl. rewrite chain_insert. destruct (decide (y = x)) as [->|].
    + rewrite lookup_insert_eq. intros [= <-]. rewrite decide_True by done. split; [left|done].
    + rewrite lookup_insert_ne by done. intros [Hin Hw]%Hcm. split; [|done].
      case_decide as E; [right; by rewrite <- E|done].
  - intros h. rewrite chain_insert. case_decide; [|done]. constructor; [apply Hxc|done].
Qed.

Lemma CommandDelX_wf t x t' : cmdtable_wf t -> CommandDelX t x = Some t' -> cmdtable_wf t'.
Proof.
  intros [Hch Hcm Hnd] (c & Hc & [= <-])%bind_Some. split.
  - intros h y. rewrite chain_insert. simpl. intros Hy.
    assert (Hy' : y ∈ chain t h /\ y <> x).
    { case_decide as E.
      - apply list_elem_of_filter in Hy as [? ?]. by subst.
      - split; [done|]. intros ->. destruct (Hch _ _ Hy) as (c' & ? & <-). congruence. }
    destruct Hy' as [Hin Hne]. destruct (Hch _ _ Hin) as (c' & ? & ?). exists c'.
    by rewrite lookup_delete_ne.
  - intros y c'. simpl. rewrite chain_insert. intros [Hne Hy]%lookup_delete_Some.
    destruct (Hcm _ _ Hy) as [Hin Hw]. split; [|done]. case_decide as E; [|done].
    apply list_elem_of_filter. split; [congruence|by rewrite <- E].
  - intros h. rewrite chain_insert. case_decide; [|done]. by apply NoDup_filter.
Qed.

Lemma empty_cmdtable_wf : cmdtable_wf (CmdTable ∅ ∅).
Proof.
  split; unfold chain; simpl.
  - intros h x. rewrite lookup_empty. set_solver.
  - intros x c. by rewrite lookup_empty.
  - intros h. rewrite lookup_empty. constructor.
Qed.

(** The tables a server can reach: commands are added (a parameter count is an
    [unsigned char]) and deleted, by the core and by modules. *)
Inductive cmd_reachable : cmdtable -> Prop :=
| cmd_init : cmd_reachable (CmdTable ∅ ∅)
| cmd_add t name params flags x t' :
    cmd_reachable t -> cstr name -> 0 <= params < 256 ->
    CommandAdd t name params flags = Some (inl (x, t')) -> cmd_reachable t'
| cmd_alias t name params flags x t' :
    cmd_reachable t -> cstr name -> 0 <= params < 256 ->
    AliasAdd t name params flags = inl (x, t') -> cmd_reachable t'
| cmd_del t x t' : cmd_reachable t -> CommandDelX t x = Some t' -> cmd_reachable t'.

Lemma CommandAddInternal_wf t name params flags x t' :
  cmdtable_wf t -> cstr name -> 0 <= params < 256 ->
  CommandAddInternal t name params flags = inl (x, t') -> cmdtable_wf t'.
Proof.
  intros Hwf Hn Hp. unfold CommandAddInternal.
  match goal with |- (if ?b then _ else _) = _ -> _ => destruct b; [done|] end.
  destruct (flags =? 0); [done|]. intros [= _ <-].
  apply (add_backend_wf t (MkCmd name flags _ 0 0)); [done|]. split; simpl; [done|].
  unfold MAXPARA. destruct (Z.ltb_spec 30 params); lia.
Qed.

Lemma cmd_reachable_wf t : cmd_reachable t -> cmdtable_wf t.
Proof.
  induction 1 as [|t name params flags x t' _ IH Hn Hp H|t name params flags x t' _ IH Hn Hp H|t x t' _ IH H].
  - apply empty_cmdtable_wf.
  - unfold CommandAdd in H. destruct (has flags CMD_ALIAS); [done|]. injection H as H.
    by eapply CommandAddInternal_wf.
  - unfold AliasAdd in H. by eapply CommandAddInternal_wf.
  - by eapply CommandDelX_wf.
Qed.

(** ** The property *)

(** In every command table that registrations and removals can reach,
    [find_command] returns a command of that name (up to case) that the caller's
    flags permit, with at most [MAXPARA] parameters; it returns NULL only when
    every command of that name is hidden from the caller, and in particular never
    hands a control-channel command to anyone else. *)
Theorem find_command_correct (t : cmdtable) (name : cstring) (flags : Z)
  (Ht : cmd_reachable t) (Hn : cstr name) :
  match find_command t name flags with
  | Some x => exists c, commands t !! x = Some c /\ same_name (cmd c) name /\
      cmd_visible flags c = true /\ 0 <= parameters c <= MAXPARA /\
      (has (cflags c) CMD_CONTROL = true -> has flags CMD_CONTROL = true)
  | None => forall x c, commands t !! x = Some c -> same_name (cmd c) name ->
      cmd_visible flags c = false
  end.
Proof.
  apply cmd_reachable_wf in Ht. destruct Ht as [Hch Hcm _].
  destruct (find_command t name flags) as [x|] eqn:E; unfold find_command in E.
  - apply find_in_chain_Some in E as (_ & c & Hc & Hv & Hs). exists c.
    destruct (Hcm _ _ Hc) as [_ [_ Hp]]. split_and!; try done; [lia..|]. intros Hctl.
    unfold cmd_visible in Hv. destruct (has flags CMD_CONTROL); [done|]. rewrite Hctl in Hv.
    by repeat destruct (_ && _).
  - intros x c Hc Hs. destruct (cmd_visible flags c) eqn:Hv; [|done]. exfalso.
    destruct (Hcm _ _ Hc) as [Hin [Hcs _]]. rewrite (cmd_slot_same _ name) in Hin by done.
    by eapply find_in_chain_None.
Qed.

Lemma find_command_correct_witness :
  let c := MkCmd (str "JOIN") CMD_USER 2 0 0 in
  match find_command (CmdTable {[ 74 := [1%positive] ]} {[ 1%positive := c ]}) (str "join") CMD_USER with
  | Some x => exists c', (CmdTable {[ 74 := [1%positive] ]} {[ 1%positive := c ]}).(commands) !! x = Some c' /\
      same_name (cmd c') (str "join") /\ cmd_visible CMD_USER c' = true /\
      0 <= parameters c' <= MAXPARA /\
      (has (cflags c') CMD_CONTROL = true -> has CMD_USER CMD_CONTROL = true)
  | None => forall x c', (CmdTable {[ 74 := [1%positive] ]} {[ 1%positive := c ]}).(commands) !! x = Some c' ->
      same_name (cmd c') (str "join") -> cmd_visible CMD_USER c' = false
  end.
Proof.
  apply (find_command_correct (CmdTable {[ 74 := [1%positive] ]}
           {[ 1%positive := MkCmd (str "JOIN") CMD_USER 2 0 0 ]}) (str "join") CMD_USER).
  - eapply (cmd_add (CmdTable ∅ ∅) (str "JOIN") 2 CMD_USER 1%positive).
    + constructor.
    + repeat constructor; compute; done.
    + lia.
    + vm_compute. reflexivity.
  - repeat constructor; compute; done.
Defined.
