(* ===== verification/Parse.v ===== *)
(** * Incoming lines (src/parse.c)

    From the receive queue to the command handler: [process_packet],
    [parse_client_queued], [dopacket], [parse], [parse2] with its helpers, the fake
    lag accounting, [do_numeric], and [concat_params] of src/misc.c.

    The state is a [world] of clients, name tables, commands, receive queues and
    counters; lines to be sent are recorded in [w_out].  What the core calls through
    function pointers (hooks, modules' efunctions, command handlers, the client exit
    path) is a record of callbacks; the theorems that need it assume of them what
    [calm_callbacks] says: they free no client and put nothing in a receive queue.
    The receive queue is used through the interface [RecvQueue]. *)
From S2P Require Import Prelude Chars Strings Dbuf Lists Client Hash Command.

(** ** Parameters *)

Definition is_space (c : Z) : bool := c =? ch_space.

(** The splitting loop of [parse2], from [s]; [i] parameters have been stored.
    Blanks are overwritten with NUL, so a parameter ends at the next blank unless
    it is the last one allowed. *)
Fixpoint split_params (fuel : nat) (paramcount i : Z) (s : cstring) : list cstring :=
  match fuel with
  | O => []
  | S fuel =>
      match skip_while is_space s with
      | [] => []
      | c :: t =>
          if c =? ch_colon then [t]
          else if paramcount <=? i + 1 then [c :: t]
          else
            let '(word, rest) := span (fun c => negb (is_space c)) (c :: t) in
            word :: split_params fuel paramcount (i + 1) rest
      end
  end.

Definition para (paramcount : Z) (s : cstring) : list cstring :=
  split_params (S (length s)) paramcount 0 s.

(** [concat_params] (src/misc.c): the parameters back as one line. *)
Fixpoint concat_go (len : nat) (buf : cstring) (parv : list cstring) : cstring :=
  match parv with
  | [] => buf
  | p :: parv =>
      let buf := match buf with [] => buf | _ => (strlcat buf [ch_space] len).1 end in
      if existsb is_space p || (hd 0 p =? ch_colon)
      then (strlcat (strlcat buf [ch_colon] len).1 p len).1
      else concat_go len (strlcat buf p len).1 parv
  end.

Definition concat_params (len : nat) (parv : list cstring) : cstring := concat_go len [] parv.

(** ** Fake lag *)

(** [fake_lag_msec += msec] and the carry into [fake_lag]. *)
Definition lag_add (secs ms msec : Z) : Z * Z :=
  let total := ms + msec in (secs + Z.quot total 1000, Z.rem total 1000).

Definition lag_sub (secs ms msec : Z) : Z * Z :=
  let total := ms - msec in
  if 0 <=? total then (secs, total)
  else let s := Z.quot (- total + 999) 1000 in (secs - s, total + s * 1000).

(** [client_lagged_up], its last test. *)
Definition lagged (secs now : Z) : bool := negb (secs - now <? 10).

(** ** The prefix of a line *)

(** [:sender] at the start of the line: the sender, cut to [HOSTLEN] bytes, and
    the rest without leading blanks. *)
Definition split_sender (ch : cstring) : option (cstring * cstring) :=
  match ch with
  | c :: t =>
      if (c =? ch_colon) || (c =? ch_at) then
        let '(sender, rest) := span (fun c => negb (is_space c)) t in
        Some (take HOSTLEN sender, skip_while is_space rest)
      else None
  | [] => None
  end.

(** ** What a line asks for *)

Inductive word :=
| WOversized
| WNumeric (numeric : Z) (rest : cstring)
| WCommand (name : cstring) (rest : option cstring).

Definition dec3 (a b c : Z) : Z := (a - 48) * 100 + (b - 48) * 10 + (c - 48).

(** The first word of the line; [rest] starts at the blank after a numeric and
    after the blank of a command. *)
Definition first_word (ch : cstring) : word :=
  let cut := cut_at ch_space ch in
  let len := match cut with Some (w, _) => length w | None => 0%nat end in
  if (512 <? len)%nat then WOversized
  else
    match cut with
    | Some ([a; b; c], rest) =>
        if isdigit a && isdigit b && isdigit c then WNumeric (dec3 a b c) (ch_space :: rest)
        else WCommand [a; b; c] (Some rest)
    | Some (w, rest) => WCommand w (Some rest)
    | None => WCommand ch None
    end.

(** The flags [parse2] looks a command up with. *)
Definition lookup_flags (UMODE_OPER : Z) (from : Client) : Z :=
  let add (b : bool) (f acc : Z) := if b then Z.lor acc f else acc in
  add (IsControl from) CMD_CONTROL
  (add (has (umodes from) UMODE_OPER) CMD_OPER
  (add (IsVirus from) CMD_VIRUS
  (add (IsShunned from) CMD_SHUN
  (add (IsServer from) CMD_SERVER
  (add (IsUser from) CMD_USER
  (add (negb (IsRegistered from)) CMD_UNREGISTERED 0)))))).

Inductive denial := DenyRegistered | DenyNotForUsers | DenyServer | DenyPrivileges.

(** The access checks after the lookup. *)
Definition access_denied (flags cf : Z) : option denial :=
  if has flags CMD_USER && negb (has cf CMD_USER) && negb (has cf CMD_OPER) then
    Some (if has cf CMD_UNREGISTERED then DenyRegistered else DenyNotForUsers)
  else if has flags CMD_SERVER && negb (has cf CMD_SERVER) then Some DenyServer
  else if has cf CMD_OPER && has flags CMD_USER && negb (has flags CMD_OPER) then Some DenyPrivileges
  else None.

(** The number of parameters to split into. *)
Definition param_limit (from : Client) (paramcount : Z) : Z :=
  if negb (IsServer from) && (MAXPARA_USER <? paramcount) then MAXPARA_USER else paramcount.

(** The cut at 510 bytes for lines from servers. *)
Definition cut_params (cptr : Client) (bytes : nat) (cf : option Z) (ps : list cstring) : list cstring :=
  if IsServer cptr && (510 <? bytes)%nat &&
     negb (match cf with Some f => has f CMD_BIGLINES | None => false end)
  then map (take 510) ps else ps.

(** ** The world *)

Inductive outmsg :=
| OUnknownCommand (to_ : cid) (ch : cstring)      (** ERR_UNKNOWNCOMMAND *)
| OControlUnknown (to_ : cid) (ch : cstring)      (** the control channel's ERROR and END *)
| ONumeric (to_ : cid) (numeric : Z)
| OSquit (to_ : cid) (sender : cstring)
| OKill (to_ : cid) (sender : cstring)
| ORelay (to_ from : cid) (numeric : Z) (text : cstring)
| OChannel (channel : positive) (from : cid) (numeric : Z) (text : cstring).

Definition ERR_NOTREGISTERED : Z := 451.
Definition ERR_ALREADYREGISTRED : Z := 462.
Definition ERR_NOTFORUSERS : Z := 487.
Definition ERR_NOPRIVILEGES : Z := 481.

Record ircstats := Stats { is_unpf : Z; is_wrdi : Z; is_num : Z; is_unco : Z }.

Section parse.
Context {Q : Type} `{RecvQueue Q} {MTags : Type}.

Record world := World {
  w_clients : clients;
  w_tables : tables;
  w_channels : gmap positive cstring;     (** channel names *)
  w_recvq : gmap cid Q;
  w_cmds : cmdtable;
  w_time : Z;                             (** [TStime()] *)
  w_boot : Z;                             (** [me.local->creationtime] *)
  w_stats : ircstats;
  w_me : TrafficStats;                    (** [me.local->traffic] *)
  w_backup : cstring;                     (** [backupbuf] *)
  w_out : list outmsg
}.

Definition put_client (w : world) (x : cid) (c : Client) : world :=
  World (<[x := c]> (w_clients w)) (w_tables w) (w_channels w) (w_recvq w) (w_cmds w) (w_time w)
    (w_boot w) (w_stats w) (w_me w) (w_backup w) (w_out w).

Definition put_recvq (w : world) (x : cid) (q : Q) : world :=
  World (w_clients w) (w_tables w) (w_channels w) (<[x := q]> (w_recvq w)) (w_cmds w) (w_time w)
    (w_boot w) (w_stats w) (w_me w) (w_backup w) (w_out w).

Definition put_cmds (w : world) (t : cmdtable) : world :=
  World (w_clients w) (w_tables w) (w_channels w) (w_recvq w) t (w_time w)
    (w_boot w) (w_stats w) (w_me w) (w_backup w) (w_out w).

Definition put_stats (w : world) (s : ircstats) : world :=
  World (w_clients w) (w_tables w) (w_channels w) (w_recvq w) (w_cmds w) (w_time w)
    (w_boot w) s (w_me w) (w_backup w) (w_out w).

Definition put_me (w : world) (t : TrafficStats) : world :=
  World (w_clients w) (w_tables w) (w_channels w) (w_recvq w) (w_cmds w) (w_time w)
    (w_boot w) (w_stats w) t (w_backup w) (w_out w).

Definition put_backup (w : world) (b : cstring) : world :=
  World (w_clients w) (w_tables w) (w_channels w) (w_recvq w) (w_cmds w) (w_time w)
    (w_boot w) (w_stats w) (w_me w) b (w_out w).

Definition send (w : world) (m : outmsg) : world :=
  World (w_clients w) (w_tables w) (w_channels w) (w_recvq w) (w_cmds w) (w_time w)
    (w_boot w) (w_stats w) (w_me w) (w_backup w) (w_out w ++ [m]).

(** The code reached through function pointers. *)
Record callbacks := Callbacks {
  cb_packet : cid -> cstring -> world -> world * option cstring;      (** HOOKTYPE_PACKET *)
  cb_mtags : cid -> cstring -> world -> world * (MTags * cstring);    (** parse_message_tags *)
  cb_pre_command : cid -> MTags -> cstring -> world -> world * bool;  (** HOOKTYPE_PRE_COMMAND *)
  cb_post_command : option cid -> MTags -> cstring -> world -> world; (** HOOKTYPE_POST_COMMAND *)
  cb_spamfilter_mtags : cid -> MTags -> option cmdptr -> world -> world * bool;
  cb_analyze_text : cid -> cstring -> world -> world;                 (** HOOKTYPE_ANALYZE_TEXT *)
  cb_run : cmdptr -> Z -> cid -> MTags -> list cstring -> world -> world; (** the handler *)
  cb_exit_client : cid -> cstring -> world -> world;
  cb_take_action : cid -> world -> world;
  cb_tkl_exception : cid -> world -> bool;
  cb_immune_lag : cid -> world -> bool;             (** ValidatePermissionsForPath immune:lag *)
  cb_lag_penalty : cid -> world -> Z * Z;           (** FLD_LAG_PENALTY: period and limit *)
  cb_deferred_spamfilters : cid -> world -> world;
  cb_server_handshake : cid -> world -> world;      (** start_server_handshake *)
  cb_reject_insecure : cid -> world -> world;
  cb_starttls : cid -> world -> world * Z;
  cb_link_insecure : cid -> world -> bool           (** the link block allows plaintext *)
}.

Context (cb : callbacks) (no_mtags : MTags) (siphashkey_nick siphashkey_chan : list Z) (UMODE_OPER : Z).
(** [iConf] settings. *)
Context (handshake_delay handshake_boot_delay handshake_data_flood_amount : Z).

Definition LISTENER_SERVERSONLY : Z := 4.
Definition DEFAULT_RECVQ : Z := 8000.

(** *** Fake lag *)

Definition parse_addlag (w : world) (client : cid) (command_bytes mtags_bytes : Z)
  : option (world * Z) :=
  c ← w_clients w !! client;
  if negb (IsServer c) && negb (IsNoFakeLag c) && negb (cb_immune_lag cb client w) then
    l ← local c;
    let '(lag_penalty, lag_penalty_bytes) := cb_lag_penalty cb client w in
    let msec := (1 + Z.quot command_bytes lag_penalty_bytes
                   + Z.quot mtags_bytes lag_penalty_bytes) * lag_penalty in
    let '(secs, ms) := lag_add (fake_lag l) (fake_lag_msec l) msec in
    Some (put_client w client (set_local c (Some (set_fake_lag l secs ms))), msec)
  else Some (w, 0).

Definition add_fake_lag (w : world) (client : cid) (msec : Z) : option world :=
  c ← w_clients w !! client;
  if negb (MyConnect c) || IsNoFakeLag c then Some w
  else
    l ← local c;
    let '(secs, ms) := lag_add (fake_lag l) (fake_lag_msec l) msec in
    Some (put_client w client (set_local c (Some (set_fake_lag l secs ms)))).

Definition subtract_fake_lag (w : world) (client : cid) (msec : Z) : option world :=
  c ← w_clients w !! client;
  match local c with
  | None => Some w
  | Some l =>
      let '(secs, ms) := lag_sub (fake_lag l) (fake_lag_msec l) msec in
      Some (put_client w client (set_local c (Some (set_fake_lag l secs ms))))
  end.

Definition client_lagged_up (w : world) (client : cid) : option bool :=
  c ← w_clients w !! client;
  if status_code (status c) <? -1 then Some false
  else if IsServer c then Some false
  else if cb_immune_lag cb client w then Some false
  else l ← local c; Some (lagged (fake_lag l) (w_time w)).

(** *** The source of a message *)

Inductive source :=
| SrcUnknown (sender : cstring)
| SrcWrongDirection (from : cid)
| SrcOk (from : cid) (ch : cstring).

Definition lookup_sender (w : world) (sender : cstring) : option cid :=
  match find_client siphashkey_nick (w_clients w) (w_tables w) sender None with
  | Some x => Some x
  | None => if existsb (Z.eqb ch_at) sender
            then hash_find_nickatserver siphashkey_nick (w_clients w) (w_tables w) sender None
            else None
  end.

(** The first part of [parse2], up to the PRE_COMMAND hook. *)
Definition parse_source (w : world) (cptr : cid) (c : Client) (line : cstring) : source :=
  match split_sender line with
  | None => SrcOk cptr line
  | Some (sender, ch) =>
      match sender with
      | [] => SrcOk cptr ch
      | _ =>
          if IsServer c then
            match lookup_sender w sender with
            | None => SrcUnknown sender
            | Some x =>
                match w_clients w !! x with
                | Some f => if decide (direction f = cptr) then SrcOk x ch else SrcWrongDirection x
                | None => SrcUnknown sender
                end
            end
          else SrcOk cptr ch
      end
  end.

Definition remove_unknown (w : world) (client : cid) (sender : cstring) : option world :=
  c ← w_clients w !! client;
  if negb (IsRegistered c) || IsUser c then Some w
  else if negb (IsServer c) then Some w
  else if (isdigit (hd 0 sender) && (length sender <=? SIDLEN)%nat) || existsb (Z.eqb 46) sender
  then Some (send w (OSquit client sender))
  else Some (send w (OKill client sender)).

Definition cancel_clients (w : world) (cptr client : cid) : option world :=
  cp ← w_clients w !! cptr;
  c ← w_clients w !! client;
  if IsServer cp || IsServer c || IsMe c then Some w
  else Some (cb_exit_client cb cptr (str "Fake prefix") w).

(** *** Numerics *)

(** The relaying loop of [do_numeric], over the comma-separated targets. *)
Fixpoint relay_targets (w : world) (client : cid) (numeric : Z) (buffer : cstring)
    (targets : list cstring) : option world :=
  match targets with
  | [] => Some w
  | nick :: targets =>
      me_dir ← direction <$> w_clients w !! client;
      w1 ← (match find_client siphashkey_nick (w_clients w) (w_tables w) nick None with
            | Some a =>
                ac ← w_clients w !! a;
                if negb (IsMe ac) && IsUser ac then
                  if MyConnect ac && isdigit (hd 0 nick) then
                    match cut_at ch_space buffer with
                    | Some (_, skip) =>
                        Some (send w (ORelay a client numeric (name ac ++ [ch_space] ++ skip)))
                    | None => Some w
                    end
                  else Some (send w (ORelay a client numeric buffer))
                else if IsServer ac && negb (bool_decide (direction ac = me_dir))
                then Some (send w (ORelay a client numeric buffer))
                else Some w
            | None =>
                match find_server siphashkey_nick (w_clients w) (w_tables w) (Some nick) None with
                | Some a =>
                    ac ← w_clients w !! a;
                    if negb (IsMe ac) && negb (bool_decide (direction ac = me_dir))
                    then Some (send w (ORelay a client numeric buffer)) else Some w
                | None =>
                    match find_channel siphashkey_chan (w_channels w) (w_tables w) nick with
                    | Some ch => Some (send w (OChannel ch client numeric buffer))
                    | None => Some w
                    end
                end
            end);
      relay_targets w1 client numeric buffer targets
  end.

Fixpoint strstr (hay needle : cstring) : bool :=
  bool_decide (take (length needle) hay = needle) ||
  match hay with [] => false | _ :: hay => strstr hay needle end.

Definition BUFSIZE : nat := 512.

Definition do_numeric (w : world) (numeric : Z) (client : cid) (params : list cstring) : option world :=
  if (numeric <? 0) || (999 <? numeric) then Some w
  else
    c ← w_clients w !! client;
    let parc := S (length params) in
    let handshake := MyConnect c && negb (IsServer c) && negb (IsUser c) && IsHandshake c &&
                     match server c with Some sent => negb sent | None => false end in
    if handshake && (numeric =? 451) && (2 <? parc)%nat && strstr (hd [] params) (str "STARTTLS") then
      Some (if cb_link_insecure cb client w then cb_server_handshake cb client w
            else cb_reject_insecure cb client w)
    else if handshake && (numeric =? 691) then Some (cb_reject_insecure cb client w)
    else if handshake && (numeric =? 670) then
      let '(w1, ret) := cb_starttls cb client w in
      Some (if ret <? 0 then cb_reject_insecure cb client w1 else w1)
    else
      match params with
      | [] => Some w
      | [] :: _ => Some w
      | target :: _ =>
          if negb (IsServer c) then Some w
          else
            let numeric := if numeric <? 100 then numeric + 100 else numeric in
            let buffer := concat_params BUFSIZE params in
            relay_targets w client numeric buffer
              (strtoken_all (take (BUFSIZE - 1) target) (str ","))
      end.

(** *** A line, after the hook *)

Definition deny (w : world) (cptr : cid) (d : denial) : world :=
  match d with
  | DenyRegistered => send w (ONumeric cptr ERR_ALREADYREGISTRED)
  | DenyNotForUsers => send w (ONumeric cptr ERR_NOTFORUSERS)
  | DenyServer => w
  | DenyPrivileges => send w (ONumeric cptr ERR_NOPRIVILEGES)
  end.

Definition bump_unco (w : world) : world :=
  let s := w_stats w in put_stats w (Stats (is_unpf s) (is_wrdi s) (is_num s) (is_unco s + 1)).
Definition bump_num (w : world) : world :=
  let s := w_stats w in put_stats w (Stats (is_unpf s) (is_wrdi s) (is_num s + 1) (is_unco s)).
Definition bump_unpf (w : world) : world :=
  let s := w_stats w in put_stats w (Stats (is_unpf s + 1) (is_wrdi s) (is_num s) (is_unco s)).
Definition bump_wrdi (w : world) : world :=
  let s := w_stats w in put_stats w (Stats (is_unpf s) (is_wrdi s + 1) (is_num s) (is_unco s)).

(** The replies to an unknown command. *)
Definition unknown_command (w : world) (cptr from : cid) (ch : cstring) : option world :=
  c ← w_clients w !! cptr;
  f ← w_clients w !! from;
  if IsControl f then Some (send w (OControlUnknown from ch))
  else if negb (IsRegistered c) && negb (strcaseeq ch (str "NOTICE")) then
    Some (send w (ONumeric from ERR_NOTREGISTERED))
  else if IsShunned c then Some w
  else
    let w := match ch with
             | [] => w
             | _ => if IsUser f then send w (OUnknownCommand from ch) else w
             end in
    Some (bump_unco w).

Definition upd_cmd (w : world) (x : cmdptr) (f : RealCommand -> RealCommand) : world :=
  match commands (w_cmds w) !! x with
  | Some c => put_cmds w (CmdTable (CommandHash (w_cmds w)) (<[x := f c]> (commands (w_cmds w))))
  | None => w
  end.

Definition add_bytes (n : Z) (c : RealCommand) : RealCommand :=
  MkCmd (cmd c) (cflags c) (parameters c) (cbytes c + n) (count c).
Definition add_count (c : RealCommand) : RealCommand :=
  MkCmd (cmd c) (cflags c) (parameters c) (cbytes c) (count c + 1).

(** The message-tag spamfilter, then the numeric or the handler. *)
Definition run_parsed (w : world) (cptr from : cid) (mtags : MTags) (command : option cmdptr)
    (numeric lag : Z) (params : list cstring) : option world :=
  f ← w_clients w !! from;
  let '(w, blocked) :=
    if MyConnect f && negb (IsServer f) then cb_spamfilter_mtags cb from mtags command w
    else (w, false) in
  if blocked then Some w
  else
    match command with
    | None => do_numeric w numeric from params
    | Some x =>
        p ← commands (w_cmds w) !! x;
        c ← w_clients w !! cptr;
        let w := upd_cmd w x add_count in
        w ← (if IsUser c && has (cflags p) CMD_RESETIDLE then
               l ← local c; Some (put_client w cptr (set_local c (Some (set_idle_since l (w_time w)))))
             else Some w);
        f ← w_clients w !! from;
        let w := if has (cflags p) CMD_TEXTANALYSIS && MyUser f && negb (bool_decide (params = []))
                 then cb_analyze_text cb from (List.last params []) w else w in
        Some (cb_run cb x lag from mtags params w)
    end.

Definition parse3 (w : world) (cptr from : cid) (mtags : MTags) (mtags_bytes : Z) (ch : cstring)
  : option world :=
  c ← w_clients w !! cptr;
  f ← w_clients w !! from;
  match ch with
  | [] =>
      if negb (IsServer c) then
        l ← local c;
        Some (put_client w cptr (set_local c (Some (set_fake_lag l (fake_lag l + 1) (fake_lag_msec l)))))
      else Some w
  | _ =>
      let bytes := length ch in
      match first_word ch with
      | WOversized => Some (bump_unco (send w (OUnknownCommand from (take 510 ch))))
      | WNumeric numeric rest =>
          '(w, _) ← parse_addlag (bump_num w) cptr (Z.of_nat bytes) mtags_bytes;
          let params := cut_params c bytes None (para (param_limit f MAXPARA) rest) in
          run_parsed w cptr from mtags None numeric 0 params
      | WCommand nm rest =>
          let flags := lookup_flags UMODE_OPER f in
          match find_command (w_cmds w) nm flags with
          | None =>
              '(w, _) ← parse_addlag w cptr (Z.of_nat bytes) mtags_bytes;
              unknown_command w cptr from nm
          | Some x =>
              p ← commands (w_cmds w) !! x;
              '(w, lag) ← (if has (cflags p) CMD_NOLAG then Some (w, 0)
                           else parse_addlag w cptr (Z.of_nat bytes) mtags_bytes);
              match access_denied flags (cflags p) with
              | Some d => Some (deny w cptr d)
              | None =>
                  let w := upd_cmd w x (add_bytes (Z.of_nat bytes)) in
                  let params := match rest with
                                | Some s => para (param_limit f (parameters p)) s
                                | None => []
                                end in
                  run_parsed w cptr from mtags (Some x) 0 lag
                    (cut_params c bytes (Some (cflags p)) params)
              end
          end
      end
  end.

(** [parse2]; the second result is [*fromptr]. *)
Definition parse2 (w : world) (cptr : cid) (mtags : MTags) (mtags_bytes : Z) (line : cstring)
  : option (world * cid) :=
  c ← w_clients w !! cptr;
  let line := if negb (IsServer c) && (510 <? length line)%nat then take 510 line else line in
  match parse_source w cptr c line with
  | SrcUnknown sender => w ← remove_unknown (bump_unpf w) cptr sender; Some (w, cptr)
  | SrcWrongDirection from => w ← cancel_clients (bump_wrdi w) cptr from; Some (w, cptr)
  | SrcOk from ch =>
      let '(w, stop) := cb_pre_command cb from mtags ch w in
      if stop then Some (w, from)
      else w ← parse3 w cptr from mtags mtags_bytes ch; Some (w, from)
  end.

(** *** Killing a client *)

Definition ban_handshake_data_flooder (w : world) (client : cid) : world :=
  if cb_tkl_exception cb client w
  then cb_exit_client cb client (str "Handshake data flood detected") w
  else cb_take_action cb client w.

(** [dead_socket] (src/socket.c): the queue is cleared and the socket marked; the
    send queue and the I/O notification are not modelled. *)
Definition dead_socket (w : world) (client : cid) : option world :=
  q ← w_recvq w !! client;
  q' ← rq_clear q;
  let w := put_recvq w client q' in
  c ← w_clients w !! client;
  if IsDeadSocket c then Some w
  else Some (put_client w client (set_flags c (Z.lor (flags c) CLIENT_FLAG_DEADSOCKET))).

(** *** A line *)

Definition parse (w : world) (cptr : cid) (buffer : cstring) : option world :=
  let '(w, buffer) := cb_packet cb cptr buffer w in
  match buffer with
  | None => Some w
  | Some buffer =>
      c ← w_clients w !! cptr;
      if IsDeadSocket c then Some w
      else
        l ← local c;
        if (handshake_data_flood_amount <=? bytes_received (traffic l)) && IsUnknown c
        then Some (ban_handshake_data_flooder w cptr)
        else
          let w := put_backup w (take (8192 - 1) buffer) in
          let ch := skip_while is_space buffer in
          let '(w, mtags, mtags_bytes, ch) :=
            if hd 0 ch =? ch_at then
              let '(w, (mtags, rest)) := cb_mtags cb cptr ch w in
              (w, mtags, Z.max 0 (Z.of_nat (length ch) - Z.of_nat (length rest)),
               skip_while is_space rest)
            else (w, no_mtags, 0, ch) in
          '(w, from) ← parse2 w cptr mtags mtags_bytes ch;
          c ← w_clients w !! cptr;
          Some (cb_post_command cb (if IsDead c then None else Some from) mtags ch w)
  end.

Definition add_traffic (t : TrafficStats) (length : Z) : TrafficStats :=
  Traffic (messages_received t + 1) (bytes_received t + length).

Definition dopacket (w : world) (client : cid) (buffer : cstring) (length : Z) : option world :=
  c ← w_clients w !! client;
  l ← local c;
  let w := put_client w client (set_local c (Some (set_traffic l (add_traffic (traffic l) length)))) in
  let w := put_me w (add_traffic (w_me w) length) in
  parse w client buffer.

(** *** The queue *)

(** The checks of [parse_client_queued] before its loop. *)
Definition must_wait (w : world) (c : Client) (l : LocalClient) : bool :=
  IsDNSLookup c || IsIdentLookup c ||
  (negb (IsUser c) && negb (IsServer c) && negb (unix_socket l) && negb (IsLocalhost c) &&
   ((0 <? handshake_delay) && negb (IsNoHandshakeDelay c) &&
    (w_time w - creationtime l <? handshake_delay) ||
    (0 <? handshake_boot_delay) && (w_time w - w_boot w <? handshake_boot_delay) &&
    match listener_options l with Some o => negb (has o LISTENER_SERVERSONLY) | None => false end)).

Fixpoint parse_queue_loop (fuel : nat) (w : world) (client : cid) : option world :=
  match fuel with
  | O => None
  | S fuel =>
      q ← w_recvq w !! client;
      lagged_up ← client_lagged_up w client;
      if (rq_length q =? 0)%nat || (lagged_up : bool) then Some w
      else
        '(dolen, buf, q') ← rq_getmsg q;
        let w := put_recvq w client q' in
        if (dolen =? 0)%nat then Some w
        else
          w ← dopacket w client buf (Z.of_nat dolen);
          c ← w_clients w !! client;
          let w := match local c with
                   | Some l =>
                       if negb (IsDead c) && negb (tags_serial l =? spamfilter_run_tags_serial l)
                       then cb_deferred_spamfilters cb client w else w
                   | None => w
                   end in
          c ← w_clients w !! client;
          if IsDead c then Some w else parse_queue_loop fuel w client
  end.

Definition parse_client_queued (w : world) (client : cid) : option world :=
  c ← w_clients w !! client;
  l ← local c;
  if must_wait w c l then Some w
  else
    q ← w_recvq w !! client;
    parse_queue_loop (S (rq_length q)) w client.

Definition get_recvq (l : LocalClient) : Z :=
  if class_recvq l =? 0 then DEFAULT_RECVQ else class_recvq l.

Definition process_packet (w : world) (client : cid) (readbuf : list Z) (killsafely : bool)
  : option (world * bool) :=
  q ← w_recvq w !! client;
  let w := put_recvq w client (rq_put q readbuf) in
  w ← parse_client_queued w client;
  c ← w_clients w !! client;
  if IsDead c then Some (w, false)
  else
    l ← local c;
    q ← w_recvq w !! client;
    if IsUnknown c && (handshake_data_flood_amount <? Z.of_nat (rq_length q)) then
      if negb killsafely then Some (ban_handshake_data_flooder w client, false)
      else w ← dead_socket w client; Some (w, false)
    else if IsUser c && (get_recvq l <? Z.of_nat (rq_length q)) then
      if negb killsafely then Some (cb_exit_client cb client (str "Excess Flood") w, false)
      else w ← dead_socket w client; Some (w, false)
    else Some (w, true).

(** ** Calm steps

    What a step of the parser and of its callbacks keeps: the clients stay
    allocated, local ones stay local, and no receive queue grows. *)
Definition calm (w w' : world) : Prop :=
  (forall x c, w_clients w !! x = Some c ->
     exists c', w_clients w' !! x = Some c' /\ (is_Some (local c) -> is_Some (local c'))) /\
  (forall x q, w_recvq w !! x = Some q -> rq_ok q ->
     exists q', w_recvq w' !! x = Some q' /\ rq_ok q' /\
       (length (rq_bytes q') <= length (rq_bytes q))%nat).

#[local] Instance calm_preorder : PreOrder calm.
Proof.
  split.
  - intros w. split; eauto.
  - intros w1 w2 w3 [H1 H2] [H3 H4]. split.
    + intros x c (c' & Hc' & Hl)%H1. destruct (H3 _ _ Hc') as (c'' & ? & ?). exists c''. auto.
    + intros x q Hq Hok. destruct (H2 _ _ Hq Hok) as (q' & Hq' & Hok' & Hle).
      destruct (H4 _ _ Hq' Hok') as (q'' & ? & ? & ?). exists q''. split_and!; [done|done|lia].
Qed.

Record calm_callbacks : Prop := {
  cc_packet : forall x b w, calm w (cb_packet cb x b w).1;
  cc_mtags : forall x b w, calm w (cb_mtags cb x b w).1;
  cc_pre : forall x m ch w, calm w (cb_pre_command cb x m ch w).1;
  cc_post : forall x m ch w, calm w (cb_post_command cb x m ch w);
  cc_spam : forall x m c w, calm w (cb_spamfilter_mtags cb x m c w).1;
  cc_analyze : forall x t w, calm w (cb_analyze_text cb x t w);
  cc_run : forall x lag f m ps w, calm w (cb_run cb x lag f m ps w);
  cc_exit : forall x r w, calm w (cb_exit_client cb x r w);
  cc_action : forall x w, calm w (cb_take_action cb x w);
  cc_deferred : forall x w, calm w (cb_deferred_spamfilters cb x w);
  cc_handshake : forall x w, calm w (cb_server_handshake cb x w);
  cc_reject : forall x w, calm w (cb_reject_insecure cb x w);
  cc_starttls : forall x w, calm w (cb_starttls cb x w).1;
  (** a command that passed the spamfilter has not been unloaded by it *)
  cc_cmds : forall x m c w y, is_Some (commands (w_cmds w) !! y) ->
    is_Some (commands (w_cmds (cb_spamfilter_mtags cb x m c w).1) !! y)
}.

(** A total, calm computation. *)
Definition does (w : world) (m : option world) : Prop := exists w', m = Some w' /\ calm w w'.

Lemma does_some w w' : calm w w' -> does w (Some w').
Proof. intros. by exists w'. Qed.

Lemma does_from w w1 m : calm w w1 -> does w1 m -> does w m.
Proof. intros H1 (w' & -> & H2). exists w'. split; [done|]. by etrans. Qed.

Lemma calm_same w w' : w_clients w' = w_clients w -> w_recvq w' = w_recvq w -> calm w w'.
Proof. intros H1 H2. split; rewrite ?H1, ?H2; eauto. Qed.

Lemma calm_put_client w x c c' :
  w_clients w !! x = Some c -> (is_Some (local c) -> is_Some (local c')) ->
  calm w (put_client w x c').
Proof.
  intros Hc Hl. split; simpl; [|eauto]. intros y d Hd. destruct (decide (y = x)) as [->|].
  - rewrite lookup_insert_eq. simplify_eq. eauto.
  - rewrite lookup_insert_ne by done. eauto.
Qed.

Lemma calm_client w w' x : calm w w' -> is_Some (w_clients w !! x) -> is_Some (w_clients w' !! x).
Proof. intros [H1 _] [c Hc]. destruct (H1 _ _ Hc) as (c' & ? & _). eauto. Qed.

(** A local client with a well-formed receive queue. *)
Definition connected (w : world) (x : cid) : Prop :=
  exists c l q, w_clients w !! x = Some c /\ local c = Some l /\ w_recvq w !! x = Some q /\ rq_ok q.

Lemma calm_connected w w' x : calm w w' -> connected w x -> connected w' x.
Proof.
  intros [H1 H2] (c & l & q & Hc & Hl & Hq & Hok).
  destruct (H1 _ _ Hc) as (c' & Hc' & Hl'). destruct Hl' as [l' Hl']; [eauto|].
  destruct (H2 _ _ Hq Hok) as (q' & ? & ? & _). exists c', l', q'. done.
Qed.

Create HintDb calm discriminated.
#[local] Hint Resolve does_some calm_same calm_client : calm.

Ltac look x Hc := destruct x as [? Hc]; rewrite Hc; cbn [mbind option_bind].

Lemma parse_addlag_does w x cbytes mb :
  connected w x -> exists w' lag, parse_addlag w x cbytes mb = Some (w', lag) /\ calm w w' /\
    w_cmds w' = w_cmds w.
Proof.
  intros (c & l & q & Hc & Hl & _). unfold parse_addlag. rewrite Hc. cbn [mbind option_bind].
  destruct (_ && _); [|by eexists _, _; split_and!; [done|reflexivity|done]].
  rewrite Hl. cbn [mbind option_bind]. destruct (cb_lag_penalty cb x w) as [p b].
  destruct (lag_add _ _ _) as [secs ms]. eexists _, _. split_and!; [done| |done].
  eapply calm_put_client; [done|]. simpl. eauto.
Qed.

Lemma client_lagged_does w x : connected w x -> is_Some (client_lagged_up w x).
Proof.
  intros (c & l & q & Hc & Hl & _). unfold client_lagged_up. rewrite Hc. cbn [mbind option_bind].
  repeat (destruct (_ : bool); [by eexists|]). rewrite Hl. by eexists.
Qed.

Lemma relay_targets_does w x n buf ts :
  is_Some (w_clients w !! x) -> does w (relay_targets w x n buf ts).
Proof.
  revert w. induction ts as [|nick ts IH]; intros w Hx; cbn [relay_targets]; [by apply does_some|].
  pose proof Hx as [c Hc]. rewrite Hc. cbn [fmap option_fmap option_map mbind option_bind].
  assert (Hsend : forall m, does w (relay_targets (send w m) x n buf ts)).
  { intros m. eapply does_from; [|apply IH; done]. by apply calm_same. }
  assert (Hfound : forall a, find_client siphashkey_nick (w_clients w) (w_tables w) nick None = Some a ->
    is_Some (w_clients w !! a)).
  { intros a. apply find_client_exists. }
  destruct (find_client _ _ _ _ _) as [a|] eqn:Ef.
  - destruct (Hfound a eq_refl) as [ac Hac]. rewrite Hac. cbn [mbind option_bind].
    repeat case_match; cbn [mbind option_bind]; auto.
  - unfold find_server. cbn [mbind option_bind]. rewrite Ef. cbn [mbind option_bind].
    case_match; cbn [mbind option_bind]; auto.
Qed.

Section total.
Context (Hcb : calm_callbacks).

Lemma do_numeric_does w n x ps : is_Some (w_clients w !! x) -> does w (do_numeric w n x ps).
Proof.
  intros Hx. unfold do_numeric. destruct (_ || _); [by apply does_some|]. pose proof Hx as [c Hc].
  rewrite Hc. cbn [mbind option_bind]. cbv zeta.
  destruct (_ && strstr _ _); [apply does_some; case_match; apply Hcb|].
  destruct (_ && (n =? 691)); [apply does_some, Hcb|].
  destruct (_ && (n =? 670)).
  - pose proof (cc_starttls Hcb x w) as Hs. destruct (cb_starttls cb x w) as [w1 ret]. simpl in Hs.
    apply does_some. case_match; [|done]. etrans; [exact Hs|apply Hcb].
  - destruct ps as [|[|] ?]; [by apply does_some..|]. case_match; [by apply does_some|].
    by apply relay_targets_does.
Qed.

Lemma run_parsed_does w cptr from m command n lag ps :
  connected w cptr -> is_Some (w_clients w !! from) ->
  (forall x, command = Some x -> is_Some (commands (w_cmds w) !! x)) ->
  does w (run_parsed w cptr from m command n lag ps).
Proof.
  intros Hcp Hf Hcmd. unfold run_parsed. pose proof Hf as [f Hfc]. rewrite Hfc. cbn [mbind option_bind].
  set (sp := if MyConnect f && negb (IsServer f) then cb_spamfilter_mtags cb from m command w else (w, false)).
  assert (Hsp : calm w sp.1 /\ forall y, is_Some (commands (w_cmds w) !! y) -> is_Some (commands (w_cmds sp.1) !! y)).
  { unfold sp. case_match; simpl; [|by split]. split; [apply Hcb|intros y; by apply Hcb]. }
  destruct sp as [w1 blocked]. simpl in Hsp. destruct Hsp as [Hw1 Hc1].
  assert (Hf1 : is_Some (w_clients w1 !! from)) by (eapply calm_client; eauto).
  apply (does_from _ w1); [done|]. destruct blocked; [by apply does_some|].
  destruct command as [x|]; [|by apply do_numeric_does].
  destruct (Hc1 x (Hcmd x eq_refl)) as [p Hp]. rewrite Hp. cbn [mbind option_bind].
  pose proof (calm_connected _ _ _ Hw1 Hcp) as (c & l & q & Hc & Hl & _). rewrite Hc. cbn [mbind option_bind].
  assert (Hu : calm w1 (upd_cmd w1 x add_count)).
  { unfold upd_cmd. rewrite Hp. by apply calm_same. }
  assert (Hcu : w_clients (upd_cmd w1 x add_count) = w_clients w1) by (unfold upd_cmd; by case_match).
  set (w2 := upd_cmd w1 x add_count) in *.
  assert (Hidle : exists w3, (if IsUser c && has (cflags p) CMD_RESETIDLE then
      l ← local c; Some (put_client w2 cptr (set_local c (Some (set_idle_since l (w_time w2)))))
      else Some w2) = Some w3 /\ calm w2 w3).
  { case_match; [|by exists w2]. rewrite Hl. cbn [mbind option_bind]. eexists. split; [done|].
    eapply calm_put_client; [by rewrite Hcu|]. simpl. eauto. }
  destruct Hidle as (w3 & -> & Hw3). cbn [mbind option_bind].
  assert (Hf3 : is_Some (w_clients w3 !! from)) by (eapply calm_client; [|exact Hf1]; by etrans).
  destruct Hf3 as [f3 Hf3]. rewrite Hf3. cbn [mbind option_bind]. apply does_some.
  etrans; [exact Hu|]. etrans; [exact Hw3|]. etrans; [|apply Hcb]. case_match; [apply Hcb|done].
Qed.

Lemma unknown_command_does w cptr from nm :
  is_Some (w_clients w !! cptr) -> is_Some (w_clients w !! from) ->
  does w (unknown_command w cptr from nm).
Proof.
  intros Hc Hf. unfold unknown_command. look Hc Hcc. look Hf Hfc.
  repeat case_match; apply does_some; by apply calm_same.
Qed.

Lemma parse3_does w cptr from m mb ch :
  connected w cptr -> is_Some (w_clients w !! from) -> does w (parse3 w cptr from m mb ch).
Proof.
  intros Hcp Hf. pose proof Hcp as (c & l & q & Hc & Hl & _). unfold parse3. rewrite Hc.
  cbn [mbind option_bind]. pose proof Hf as [f Hfc]. rewrite Hfc. cbn [mbind option_bind].
  destruct ch as [|b ch].
  { case_match; [|by apply does_some]. rewrite Hl. cbn [mbind option_bind]. apply does_some.
    eapply calm_put_client; [done|]. simpl. eauto. }
  set (line := b :: ch). destruct (first_word line) as [|n rest|nm rest].
  - apply does_some. by apply calm_same.
  - assert (Hb : calm w (bump_num w)) by (by apply calm_same).
    destruct (parse_addlag_does (bump_num w) cptr (Z.of_nat (length line)) mb) as (w1 & lag & -> & Hw1 & _);
      [by eapply calm_connected|]. cbn [mbind option_bind].
    eapply does_from; [etrans; [exact Hb|exact Hw1]|]. apply run_parsed_does; [| |done].
    + eapply calm_connected; [exact Hw1|]. by eapply calm_connected.
    + eapply calm_client; [exact Hw1|]. by eapply calm_client.
  - destruct (find_command _ nm _) as [x|] eqn:Efc.
    + apply find_in_chain_Some in Efc as (_ & p & Hp & _). rewrite Hp. cbn [mbind option_bind].
      assert (Hlag : exists w1 lag, (if has (cflags p) CMD_NOLAG then Some (w, 0)
         else parse_addlag w cptr (Z.of_nat (length line)) mb) = Some (w1, lag) /\ calm w w1 /\
         w_cmds w1 = w_cmds w).
      { case_match; [by eexists _, _; split_and!; [done|reflexivity|done]|]. by apply parse_addlag_does. }
      destruct Hlag as (w1 & lag & -> & Hw1 & Hcm). cbn [mbind option_bind].
      eapply does_from; [exact Hw1|]. destruct (access_denied _ _) as [d|].
      * apply does_some. destruct d; by apply calm_same.
      * assert (Hu : calm w1 (upd_cmd w1 x (add_bytes (Z.of_nat (length line))))).
        { unfold upd_cmd. case_match; by apply calm_same. }
        eapply does_from; [exact Hu|]. apply run_parsed_does.
        -- eapply calm_connected; [exact Hu|]. by eapply calm_connected.
        -- eapply calm_client; [exact Hu|]. by eapply calm_client.
        -- intros y [= <-]. unfold upd_cmd. rewrite Hcm, Hp. simpl. by rewrite lookup_insert_eq.
    + destruct (parse_addlag_does w cptr (Z.of_nat (length line)) mb) as (w1 & lag & -> & Hw1 & _); [done|].
      cbn [mbind option_bind]. eapply does_from; [exact Hw1|]. apply unknown_command_does.
      * eapply calm_client; [exact Hw1|eauto].
      * by eapply calm_client.
Qed.

(** The source of a message is always an existing client. *)
Lemma parse_source_exists w cptr c line from ch :
  w_clients w !! cptr = Some c -> parse_source w cptr c line = SrcOk from ch ->
  is_Some (w_clients w !! from).
Proof.
  intros Hc. unfold parse_source. destruct (split_sender line) as [[[|? ?] rest]|];
    [by intros [= <- <-]; eauto| |by intros [= <- <-]; eauto].
  destruct (IsServer c); [|by intros [= <- <-]; eauto].
  destruct (lookup_sender w _) as [x|]; [|done].
  destruct (w_clients w !! x) as [f|] eqn:Ef; [|done]. case_decide; [|done]. intros [= <- <-]. eauto.
Qed.

Lemma wrong_direction_exists w cptr c line from :
  parse_source w cptr c line = SrcWrongDirection from -> is_Some (w_clients w !! from).
Proof.
  unfold parse_source. destruct (split_sender line) as [[[|? ?] rest]|]; try done.
  destruct (IsServer c); [|done]. destruct (lookup_sender w _) as [x|]; [|done].
  destruct (w_clients w !! x) as [f|] eqn:Ef; [|done]. case_decide; [done|]. intros [= <-]. eauto.
Qed.

Lemma parse2_does w cptr m mb line :
  connected w cptr ->
  exists w' from, parse2 w cptr m mb line = Some (w', from) /\ calm w w'.
Proof.
  intros Hcp. pose proof Hcp as (c & l & q & Hc & Hl & _). unfold parse2. rewrite Hc. cbn [mbind option_bind].
  set (ln := if _ : bool then take 510 line else line). destruct (parse_source w cptr c ln) as [sender|from|from ch] eqn:Es.
  - unfold remove_unknown. simpl. rewrite Hc. cbn [mbind option_bind].
    repeat case_match; cbn [mbind option_bind]; eexists _, _; (split; [done|by apply calm_same]).
  - destruct (wrong_direction_exists _ _ _ _ _ Es) as [f Hf].
    unfold cancel_clients. simpl. rewrite Hc. cbn [mbind option_bind]. rewrite Hf. cbn [mbind option_bind].
    case_match; cbn [mbind option_bind]; eexists _, _; (split; [done|]); [by apply calm_same|].
    etrans; [|apply Hcb]. by apply calm_same.
  - pose proof (parse_source_exists _ _ _ _ _ _ Hc Es) as Hf. pose proof (cc_pre Hcb from m ch w) as Hp.
    destruct (cb_pre_command cb from m ch w) as [w1 stop]. simpl in Hp. destruct stop; [by eexists _, _|].
    destruct (parse3_does w1 cptr from m mb ch) as (w2 & -> & H2);
      [by eapply calm_connected|by eapply calm_client|].
    cbn [mbind option_bind]. eexists _, _. split; [done|]. by etrans.
Qed.

Lemma parse_does w cptr buf : connected w cptr -> does w (parse w cptr buf).
Proof.
  intros Hcp. unfold parse. pose proof (cc_packet Hcb cptr buf w) as Hpk.
  destruct (cb_packet cb cptr buf w) as [w1 [b|]]; simpl in Hpk; [|by apply does_some].
  apply (does_from _ w1); [done|]. apply (calm_connected _ _ _ Hpk) in Hcp. clear Hpk.
  pose proof Hcp as (c & l & q & Hc & Hl & _). rewrite Hc. cbn [mbind option_bind].
  case_match; [by apply does_some|]. rewrite Hl. cbn [mbind option_bind].
  case_match; [apply does_some; unfold ban_handshake_data_flooder; case_match; apply Hcb|].
  set (w2 := put_backup w1 _). assert (Hw2 : calm w1 w2) by (by apply calm_same).
  apply (does_from _ w2); [done|]. apply (calm_connected _ _ _ Hw2) in Hcp. clear Hw2 Hc. cbv zeta.
  set (ch := skip_while is_space b).
  set (pre := if hd 0 ch =? ch_at then _ else (w2, no_mtags, 0, ch)).
  assert (Hpre : calm w2 pre.1.1.1).
  { unfold pre. case_match; [|done]. pose proof (cc_mtags Hcb cptr ch w2) as Hm.
    by destruct (cb_mtags cb cptr ch w2) as [? [? ?]]. }
  destruct pre as [[[w3 mt] mb] ch']. simpl in Hpre.
  destruct (parse2_does w3 cptr mt mb ch') as (w4 & from & -> & H4); [by eapply calm_connected|].
  cbn [mbind option_bind].
  assert (Hc4 : connected w4 cptr) by (eapply calm_connected; [exact H4|]; by eapply calm_connected).
  destruct Hc4 as (c4 & ? & ? & Hc4 & _). rewrite Hc4. cbn [mbind option_bind].
  apply does_some. etrans; [exact Hpre|]. etrans; [exact H4|]. apply Hcb.
Qed.

Lemma dopacket_does w x buf n : connected w x -> does w (dopacket w x buf n).
Proof.
  intros Hcp. pose proof Hcp as (c & l & q & Hc & Hl & _). unfold dopacket. rewrite Hc.
  cbn [mbind option_bind]. rewrite Hl. cbn [mbind option_bind]. cbv zeta.
  set (w1 := put_client w x _). assert (H1 : calm w w1) by (eapply calm_put_client; [done|simpl; eauto]).
  set (w2 := put_me w1 _). assert (H2 : calm w w2) by (etrans; [exact H1|by apply calm_same]).
  eapply does_from; [exact H2|]. apply parse_does. by eapply calm_connected.
Qed.

(** Why [parse_client_queued] stopped. *)
Definition settled (w : world) (x : cid) : Prop :=
  exists c l q, w_clients w !! x = Some c /\ local c = Some l /\ w_recvq w !! x = Some q /\ rq_ok q /\
    (IsDead c = true \/ client_lagged_up w x = Some true \/
     Forall (fun b => is_eol b = false) (rq_bytes q)).

Lemma calm_put_recvq w x q q' :
  w_recvq w !! x = Some q -> rq_ok q' -> (length (rq_bytes q') <= length (rq_bytes q))%nat ->
  calm w (put_recvq w x q').
Proof.
  intros Hq Hok Hle. split; simpl; [eauto|]. intros y p Hp Hpo. destruct (decide (y = x)) as [->|].
  - rewrite lookup_insert_eq. simplify_eq. eauto.
  - rewrite lookup_insert_ne by done. eauto.
Qed.

Lemma parse_queue_loop_settles fuel w x q :
  connected w x -> w_recvq w !! x = Some q -> (length (rq_bytes q) < fuel)%nat ->
  exists w', parse_queue_loop fuel w x = Some w' /\ calm w w' /\ settled w' x.
Proof.
  revert w q. induction fuel as [|fuel IH]; intros w q Hcp Hq Hf; [lia|]. cbn [parse_queue_loop].
  pose proof Hcp as (c & l & q' & Hc & Hl & Hq' & Hok). simplify_eq. rewrite Hq. cbn [mbind option_bind].
  destruct (client_lagged_does w x Hcp) as [lg Hlg]. rewrite Hlg. cbn [mbind option_bind].
  destruct (Nat.eqb_spec (rq_length q) 0) as [E0|E0]; simpl.
  { exists w. split_and!; [done|done|]. exists c, l, q. split_and!; try done. right. right.
    rewrite rq_length_spec in E0 by done. destruct (rq_bytes q); [constructor|done]. }
  destruct lg; [exists w; split_and!; [done|done|]; exists c, l, q; by split_and!; auto|].
  destruct (rq_getmsg_spec q Hok) as (q1 & Hok1 & -> & Hb1). cbn [mbind option_bind].
  destruct (queue_getmsg_facts (rq_bytes q)) as (_ & _ & Hshort & Hnone & Hle).
  set (line := (queue_getmsg (rq_bytes q)).1) in *.
  assert (Hcalm1 : calm w (put_recvq w x q1)) by (eapply calm_put_recvq; [done|done|by rewrite Hb1]).
  pose proof (calm_connected _ _ _ Hcalm1 Hcp) as Hcp1.
  destruct (Nat.eqb_spec (length line) 0) as [En|En].
  { eexists. split_and!; [done|done|]. exists c, l, q1. simpl. rewrite lookup_insert_eq. split_and!; try done.
    right. right. rewrite Hb1. apply Hnone. by destruct line. }
  destruct (dopacket_does _ x line (Z.of_nat (length line)) Hcp1) as (w2 & -> & H2). cbn [mbind option_bind].
  pose proof (calm_connected _ _ _ H2 Hcp1) as (c2 & l2 & q2 & Hc2 & Hl2 & Hq2 & Hok2).
  rewrite Hc2. cbn [mbind option_bind]. rewrite Hl2.
  set (w3 := if _ : bool then cb_deferred_spamfilters cb x w2 else w2).
  assert (H3 : calm w2 w3) by (unfold w3; case_match; [apply Hcb|done]).
  assert (Hcp3 : connected w3 x) by (eapply calm_connected; [exact H3|]; by eapply calm_connected).
  assert (Hall : calm w w3) by (etrans; [exact Hcalm1|]; by etrans).
  pose proof Hcp3 as (c3 & l3 & q3 & Hc3 & Hl3 & Hq3 & Hok3). rewrite Hc3. cbn [mbind option_bind].
  destruct (IsDead c3) eqn:Ed.
  { exists w3. split_and!; [done|done|]. exists c3, l3, q3. split_and!; auto. }
  assert (Hlen : (length (rq_bytes q3) <= length (rq_bytes q1))%nat).
  { assert (Hc13 : calm (put_recvq w x q1) w3) by (by etrans). destruct Hc13 as [_ Hrq].
    destruct (Hrq x q1) as (q4 & Hq4 & _ & ?); [simpl; by rewrite lookup_insert_eq|done|]. by simplify_eq. }
  destruct (IH w3 q3 Hcp3 Hq3) as (w' & Hr & Hcw & Hs).
  { rewrite Hb1 in Hlen. specialize (Hshort ltac:(intros E; rewrite E in En; done)). lia. }
  exists w'. split_and!; [done| |done]. by etrans.
Qed.

Lemma parse_client_queued_settles w x :
  connected w x ->
  exists w' c l, parse_client_queued w x = Some w' /\ calm w w' /\
    w_clients w !! x = Some c /\ local c = Some l /\
    (if must_wait w c l then w' = w else settled w' x).
Proof.
  intros Hcp. pose proof Hcp as (c & l & q & Hc & Hl & Hq & Hok). unfold parse_client_queued.
  rewrite Hc. cbn [mbind option_bind]. rewrite Hl. cbn [mbind option_bind].
  destruct (must_wait w c l) eqn:Ew.
  - exists w, c, l. by rewrite Ew.
  - rewrite Hq. cbn [mbind option_bind].
    destruct (parse_queue_loop_settles (S (rq_length q)) w x q Hcp Hq) as (w' & Hr & Hw & Hs);
      [rewrite rq_length_spec by done; lia|].
    exists w', c, l. rewrite Ew. by split_and!.
Qed.

Lemma put_connected w x q :
  connected w x -> rq_ok q -> connected (put_recvq w x q) x.
Proof.
  intros (c & l & p & Hc & Hl & _) Hok. exists c, l, q. simpl. by rewrite lookup_insert_eq.
Qed.

Lemma dead_socket_total w x : connected w x -> is_Some (dead_socket w x).
Proof.
  intros (c & l & q & Hc & Hl & Hq & Hok). unfold dead_socket. rewrite Hq. cbn [mbind option_bind].
  destruct (rq_clear_spec q Hok) as (q' & -> & _). cbn [mbind option_bind]. simpl. rewrite Hc.
  cbn [mbind option_bind]. case_match; by eexists.
Qed.

(** C25: [process_packet] returns on every packet (it neither faults nor loops,
    whatever the bytes are), and when it returns 1 the client is alive and its
    receive queue is within the limits: at most [handshake_data_flood_amount]
    bytes before registration, at most the class's [recvq] for a user. *)
Theorem process_packet_bounded (w : world) (x : cid) (readbuf : list Z) (killsafely : bool)
  (Hcp : connected w x) (Hne : readbuf <> []) :
  exists w' r, process_packet w x readbuf killsafely = Some (w', r) /\
    (r = true -> exists c l q, w_clients w' !! x = Some c /\ local c = Some l /\
       w_recvq w' !! x = Some q /\ rq_ok q /\ IsDead c = false /\
       (IsUnknown c = true -> Z.of_nat (length (rq_bytes q)) <= handshake_data_flood_amount) /\
       (IsUser c = true -> Z.of_nat (length (rq_bytes q)) <= get_recvq l)).
Proof.
  pose proof Hcp as (c & l & q & Hc & Hl & Hq & Hok). unfold process_packet. rewrite Hq.
  cbn [mbind option_bind]. destruct (rq_put_spec q readbuf Hok Hne) as [Hok' _].
  pose proof (put_connected _ _ (rq_put q readbuf) Hcp Hok') as Hcp1.
  destruct (parse_client_queued_settles _ _ Hcp1) as (w1 & ? & ? & -> & Hw1 & _). cbn [mbind option_bind].
  pose proof (calm_connected _ _ _ Hw1 Hcp1) as Hcp2.
  pose proof Hcp2 as (c1 & l1 & q1 & Hc1 & Hl1 & Hq1 & Hok1).
  rewrite Hc1. cbn [mbind option_bind]. destruct (IsDead c1) eqn:Ed; [by eexists _, _|].
  rewrite Hl1. cbn [mbind option_bind]. rewrite Hq1. cbn [mbind option_bind].
  rewrite rq_length_spec by done. destruct (dead_socket_total w1 x Hcp2) as [w2 Hds].
  destruct (IsUnknown c1 && _) eqn:E1; [rewrite ?Hds; destruct killsafely; by eexists _, _|].
  destruct (IsUser c1 && _) eqn:E2; [rewrite ?Hds; destruct killsafely; by eexists _, _|].
  exists w1, true. split; [done|]. intros _. exists c1, l1, q1. split_and!; try done.
  - intros Hu. rewrite Hu in E1. by apply Z.ltb_ge in E1.
  - intros Hu. rewrite Hu in E2. by apply Z.ltb_ge in E2.
Qed.

(** C38: unless processing has to wait (DNS or ident lookup, handshake delays),
    [parse_client_queued] handles complete lines until the client dies, is lagged
    up, or has no complete line left in its queue: it does not leave work behind. *)
Theorem parse_client_queued_progress (w : world) (x : cid) (Hcp : connected w x) :
  exists w' c l, parse_client_queued w x = Some w' /\ w_clients w !! x = Some c /\ local c = Some l /\
    if must_wait w c l then w' = w
    else exists c' l' q', w_clients w' !! x = Some c' /\ local c' = Some l' /\
      w_recvq w' !! x = Some q' /\ rq_ok q' /\
      (IsDead c' = true \/ client_lagged_up w' x = Some true \/
       Forall (fun b => is_eol b = false) (rq_bytes q')).
Proof.
  destruct (parse_client_queued_settles w x Hcp) as (w' & c & l & Hr & _ & Hc & Hl & Hs).
  exists w', c, l. split_and!; done.
Qed.

End total.

(** ** Fake lag *)

Definition lag_total (secs ms : Z) : Z := secs * 1000 + ms.

Lemma lag_add_spec secs ms msec :
  0 <= ms < 1000 -> 0 <= msec ->
  let '(secs', ms') := lag_add secs ms msec in
  lag_total secs' ms' = lag_total secs ms + msec /\ 0 <= ms' < 1000.
Proof.
  intros Hm Hd. unfold lag_add, lag_total. rewrite Z.quot_div_nonneg, Z.rem_mod_nonneg by lia.
  pose proof (Z.div_mod (ms + msec) 1000 ltac:(lia)). pose proof (Z.mod_pos_bound (ms + msec) 1000 ltac:(lia)).
  lia.
Qed.

Lemma lag_sub_spec secs ms msec :
  0 <= ms < 1000 -> 0 <= msec ->
  let '(secs', ms') := lag_sub secs ms msec in
  lag_total secs' ms' = lag_total secs ms - msec /\ 0 <= ms' < 1000.
Proof.
  intros Hm Hd. unfold lag_sub, lag_total. destruct (Z.leb_spec 0 (ms - msec)); [lia|].
  rewrite Z.quot_div_nonneg by lia. pose proof (Z.div_mod (- (ms - msec) + 999) 1000 ltac:(lia)).
  pose proof (Z.mod_pos_bound (- (ms - msec) + 999) 1000 ltac:(lia)). lia.
Qed.

Lemma lag_unique s1 m1 s2 m2 : 0 <= m1 < 1000 -> 0 <= m2 < 1000 ->
  lag_total s1 m1 = lag_total s2 m2 -> s1 = s2 /\ m1 = m2.
Proof. unfold lag_total. lia. Qed.

Lemma lag_add_sub secs ms msec :
  0 <= ms < 1000 -> 0 <= msec ->
  (let '(s, m) := lag_add secs ms msec in lag_sub s m msec) = (secs, ms).
Proof.
  intros Hm Hd. pose proof (lag_add_spec secs ms msec Hm Hd) as Ha. destruct (lag_add secs ms msec) as [s m].
  destruct Ha as [Ha Hm']. pose proof (lag_sub_spec s m msec Hm' Hd) as Hs.
  destruct (lag_sub s m msec) as [s' m']. destruct Hs as [Hs Hm''].
  destruct (lag_unique s' m' secs ms) as [-> ->]; [done|done|lia|done].
Qed.

Lemma put_client_twice w x c c' : put_client (put_client w x c') x c = put_client w x c.
Proof. unfold put_client. simpl. by rewrite insert_insert_eq. Qed.

Lemma put_client_id w x c : w_clients w !! x = Some c -> put_client w x c = w.
Proof. intros Hc. unfold put_client. rewrite insert_id by done. by destruct w. Qed.

(** For a local client that is not exempt, [add_fake_lag] adds exactly the
    given number of milliseconds to the client's lag and keeps the remainder
    below one second, and [subtract_fake_lag] of the same amount restores the
    state exactly. *)
Theorem fake_lag_roundtrip (w : world) (x : cid) (c : Client) (l : LocalClient) (msec : Z)
  (Hc : w_clients w !! x = Some c) (Hl : local c = Some l) (Hex : IsNoFakeLag c = false)
  (Hms : 0 <= fake_lag_msec l < 1000) (Hd : 0 <= msec) :
  exists w' c' l', add_fake_lag w x msec = Some w' /\ w_clients w' !! x = Some c' /\
    local c' = Some l' /\
    lag_total (fake_lag l') (fake_lag_msec l') = lag_total (fake_lag l) (fake_lag_msec l) + msec /\
    0 <= fake_lag_msec l' < 1000 /\ subtract_fake_lag w' x msec = Some w.
Proof.
  pose proof (lag_add_spec (fake_lag l) (fake_lag_msec l) msec Hms Hd) as Ha.
  pose proof (lag_add_sub (fake_lag l) (fake_lag_msec l) msec Hms Hd) as Hs.
  unfold add_fake_lag. rewrite Hc. cbn [mbind option_bind]. unfold MyConnect.
  rewrite bool_decide_true by (rewrite Hl; eauto). rewrite Hex. cbn [negb orb]. rewrite Hl. cbn [mbind option_bind].
  destruct (lag_add _ _ _) as [s m]. destruct Ha as [Ha Hm]. eexists _, _, _.
  split; [done|]. simpl. rewrite lookup_insert_eq. split; [done|]. split; [done|]. split; [exact Ha|].
  split; [exact Hm|]. unfold subtract_fake_lag. simpl. rewrite lookup_insert_eq. cbn [mbind option_bind].
  simpl. rewrite Hs. f_equal. rewrite put_client_twice.
  replace (set_local _ _) with c; [by apply put_client_id|]. destruct c, l. unfold set_local, set_fake_lag. simpl in *. by rewrite Hl.
Qed.

(** Commands of the given sizes, one after the other. *)
Fixpoint addlag_all (w : world) (x : cid) (sizes : list (Z * Z)) : option world :=
  match sizes with
  | [] => Some w
  | (n, m) :: sizes => '(w, _) ← parse_addlag w x n m; addlag_all w x sizes
  end.

Lemma addlag_all_spec x p sizes :
  (forall w, cb_immune_lag cb x w = false) ->
  (forall w, 0 < (cb_lag_penalty cb x w).2 /\ p <= (cb_lag_penalty cb x w).1) -> 0 <= p ->
  Forall (fun s => 0 <= s.1 /\ 0 <= s.2) sizes -> forall w c l,
  w_clients w !! x = Some c -> local c = Some l -> IsServer c = false -> IsNoFakeLag c = false ->
  0 <= fake_lag_msec l < 1000 ->
  exists w' c' l', addlag_all w x sizes = Some w' /\ w_time w' = w_time w /\
    w_clients w' !! x = Some c' /\ local c' = Some l' /\ status c' = status c /\
    0 <= fake_lag_msec l' < 1000 /\
    lag_total (fake_lag l) (fake_lag_msec l) + Z.of_nat (length sizes) * p <=
      lag_total (fake_lag l') (fake_lag_msec l').
Proof.
  intros Him Hpen Hp. induction sizes as [|[n m] sizes IH]; intros Hs w c l Hc Hl Hsv Hnf Hms.
  - exists w, c, l. simpl. split_and!; try done; lia.
  - inv Hs as [|? ? [Hn Hm] Hs']. simpl in Hn, Hm. cbn [addlag_all]. unfold parse_addlag. rewrite Hc.
    cbn [mbind option_bind]. rewrite Hsv, Hnf, Him. cbn [negb andb]. rewrite Hl. cbn [mbind option_bind].
    destruct (Hpen w) as [Hlim Hper]. destruct (cb_lag_penalty cb x w) as [per lim]. simpl in Hlim, Hper.
    set (msec := (1 + _ + _) * per).
    assert (Hmsec : p <= msec).
    { unfold msec. pose proof (Z.quot_pos n lim Hn Hlim). pose proof (Z.quot_pos m lim Hm Hlim). nia. }
    pose proof (lag_add_spec (fake_lag l) (fake_lag_msec l) msec Hms ltac:(lia)) as Ha.
    destruct (lag_add _ _ msec) as [s ms]. destruct Ha as [Ha Hms'].
    set (l1 := set_fake_lag l s ms). set (c1 := set_local c (Some l1)).
    destruct (IH Hs' (put_client w x c1) c1 l1) as (w' & c' & l' & Hr & Ht & Hc' & Hl' & Hst & Hm' & Htot);
      [simpl; by rewrite lookup_insert_eq|done|done|done|done|].
    exists w', c', l'. split_and!; try done; [lia..|]. cbn [length]. unfold l1 in Htot. simpl in Htot. lia.
Qed.

(** Fake lag limits the rate of a client.  Whatever the lengths of its
    commands, a client that is not exempt and not ahead of the clock is lagged up,
    so that [parse_client_queued] stops, once it has sent enough commands for
    their minimum penalties to add up to ten seconds. *)
Theorem fake_lag_throttles (w : world) (x : cid) (c : Client) (l : LocalClient) (p : Z)
  (sizes : list (Z * Z))
  (Him : forall w, cb_immune_lag cb x w = false)
  (Hpen : forall w, 0 < (cb_lag_penalty cb x w).2 /\ p <= (cb_lag_penalty cb x w).1) (Hp : 0 <= p)
  (Hs : Forall (fun s => 0 <= s.1 /\ 0 <= s.2) sizes)
  (Hc : w_clients w !! x = Some c) (Hl : local c = Some l) (Hsv : IsUser c = true)
  (Hnf : IsNoFakeLag c = false) (Hms : 0 <= fake_lag_msec l < 1000) (Hnow : w_time w <= fake_lag l)
  (Hmany : 10000 <= Z.of_nat (length sizes) * p) :
  exists w', addlag_all w x sizes = Some w' /\ client_lagged_up w' x = Some true.
Proof.
  assert (Hst : status c = CLIENT_STATUS_USER) by (by apply bool_decide_eq_true in Hsv).
  assert (Hsrv : IsServer c = false) by (unfold IsServer; rewrite Hst; done).
  destruct (addlag_all_spec x p sizes Him Hpen Hp Hs w c l Hc Hl Hsrv Hnf Hms)
    as (w' & c' & l' & Hr & Ht & Hc' & Hl' & Hst' & Hms' & Htot).
  exists w'. split; [done|]. unfold client_lagged_up. rewrite Hc'. cbn [mbind option_bind].
  unfold IsServer. rewrite Hst', Hst. cbn [status_code]. rewrite Him, Hl'. simpl. f_equal.
  unfold lagged, lag_total in *. apply negb_true_iff, Z.ltb_ge. lia.
Qed.

(** ** The source of a message *)

(** C26: nobody can speak for a client that is not behind its own connection.
    When [parse2] goes on with a source, that source is the connection itself or,
    for a message from a server, a client whose direction is that server; and a
    connection that is not a server is always its own source, whatever prefix it
    sends. *)
Theorem message_source_authentic (w : world) (cptr from : cid) (c : Client) (line ch : cstring)
  (Hc : w_clients w !! cptr = Some c) (Hs : parse_source w cptr c line = SrcOk from ch) :
  (from = cptr \/
   IsServer c = true /\ exists f, w_clients w !! from = Some f /\ direction f = cptr) /\
  (IsServer c = false -> from = cptr).
Proof.
  revert Hs. unfold parse_source.
  destruct (split_sender line) as [[[|? ?] rest]|]; [by intros [= <- <-]; auto| |by intros [= <- <-]; auto].
  destruct (IsServer c); [|by intros [= <- <-]; auto].
  destruct (lookup_sender w _) as [x|]; [|done].
  destruct (w_clients w !! x) as [f|] eqn:Ef; [|done]. case_decide as Hd; [|done].
  intros [= <- <-]. split; [|done]. right. split; [done|]. exists f. done.
Qed.

(** ** Access to commands *)

(** The flags that the lookup computes, one by one. *)
Lemma lookup_flags_spec f :
  let fl := lookup_flags UMODE_OPER f in
  has fl CMD_UNREGISTERED = negb (IsRegistered f) /\ has fl CMD_USER = IsUser f /\
  has fl CMD_SERVER = IsServer f /\ has fl CMD_SHUN = IsShunned f /\ has fl CMD_VIRUS = IsVirus f /\
  has fl CMD_OPER = has (umodes f) UMODE_OPER /\ has fl CMD_CONTROL = IsControl f /\
  has fl CMD_ALIAS = false.
Proof.
  unfold lookup_flags. destruct (IsControl f), (has (umodes f) UMODE_OPER), (IsVirus f), (IsShunned f),
    (IsServer f), (IsUser f), (IsRegistered f); by vm_compute.
Qed.

(** What a command must declare for the client [f] to reach its handler. *)
Definition permitted (f : Client) (p : RealCommand) : Prop :=
  let d flag := has (cflags p) flag = true in
  (d CMD_CONTROL <-> IsControl f = true) /\
  (IsUser f = true -> d CMD_USER \/ d CMD_OPER) /\
  (IsUser f = true -> d CMD_OPER -> has (umodes f) UMODE_OPER = true) /\
  (IsServer f = true -> d CMD_SERVER) /\
  (IsControl f = false ->
    (IsRegistered f = false -> d CMD_UNREGISTERED) /\
    (IsShunned f = true -> d CMD_SHUN) /\ (IsVirus f = true -> d CMD_VIRUS)).

Lemma visible_permitted f p :
  cmd_visible (lookup_flags UMODE_OPER f) p = true ->
  let d flag := has (cflags p) flag = true in
  (d CMD_CONTROL <-> IsControl f = true) /\
  (IsControl f = false ->
    (IsRegistered f = false -> d CMD_UNREGISTERED) /\
    (IsShunned f = true -> d CMD_SHUN) /\ (IsVirus f = true -> d CMD_VIRUS)).
Proof.
  destruct (lookup_flags_spec f) as (H1 & _ & _ & H4 & H5 & _ & H7 & H8).
  unfold cmd_visible. rewrite H1, H4, H5, H7, H8. cbv zeta.
  destruct (IsControl f); [naive_solver|].
  destruct (IsRegistered f), (has (cflags p) CMD_UNREGISTERED); simpl; try done;
    destruct (IsShunned f), (has (cflags p) CMD_SHUN); simpl; try done;
    destruct (IsVirus f), (has (cflags p) CMD_VIRUS); simpl; try done;
    destruct (has (cflags p) CMD_CONTROL); naive_solver.
Qed.

Lemma access_permitted f p :
  access_denied (lookup_flags UMODE_OPER f) (cflags p) = None ->
  let d flag := has (cflags p) flag = true in
  (IsUser f = true -> d CMD_USER \/ d CMD_OPER) /\
  (IsUser f = true -> d CMD_OPER -> has (umodes f) UMODE_OPER = true) /\
  (IsServer f = true -> d CMD_SERVER).
Proof.
  destruct (lookup_flags_spec f) as (_ & H2 & H3 & _ & _ & H6 & _).
  unfold access_denied. rewrite H2, H3, H6. cbv zeta.
  destruct (IsUser f), (has (cflags p) CMD_USER), (has (cflags p) CMD_OPER); simpl; try done;
    destruct (IsServer f), (has (cflags p) CMD_SERVER); simpl; try done;
    destruct (has (umodes f) UMODE_OPER); naive_solver.
Qed.

Lemma lookup_permitted t nm f x p :
  find_command t nm (lookup_flags UMODE_OPER f) = Some x -> commands t !! x = Some p ->
  access_denied (lookup_flags UMODE_OPER f) (cflags p) = None -> permitted f p.
Proof.
  intros Hf Hp Ha. apply find_in_chain_Some in Hf as (_ & p' & Hp' & Hv & _).
  assert (p' = p) as -> by congruence. apply visible_permitted in Hv as [? ?].
  apply access_permitted in Ha as (? & ? & ?). by unfold permitted.
Qed.

End parse.

Arguments callbacks Q MTags : clear implicits.
Arguments world Q : clear implicits.

(** The same callbacks with other command handlers. *)
Definition with_run {Q MTags} (cb : callbacks Q MTags)
    (r : cmdptr -> Z -> cid -> MTags -> list cstring -> world Q -> world Q) : callbacks Q MTags :=
  Callbacks (cb_packet cb) (cb_mtags cb) (cb_pre_command cb) (cb_post_command cb)
    (cb_spamfilter_mtags cb) (cb_analyze_text cb) r (cb_exit_client cb) (cb_take_action cb)
    (cb_tkl_exception cb) (cb_immune_lag cb) (cb_lag_penalty cb) (cb_deferred_spamfilters cb)
    (cb_server_handshake cb) (cb_reject_insecure cb) (cb_starttls cb) (cb_link_insecure cb).

(** C27: a command handler runs only for a client that the command permits.
    [parse3], the part of [parse2] that looks the command up and calls its
    handler, does the same thing whatever the handlers of the commands not
    permitted to the source would do: those are never called. *)
Theorem handlers_need_permission {Q MTags} `{RecvQueue Q} (cb : callbacks Q MTags)
  (kn kc : list Z) (UMODE_OPER : Z) (w : world Q) (cptr from : cid) (f : Client)
  (mtags : MTags) (mtags_bytes : Z) (ch : cstring)
  (r : cmdptr -> Z -> cid -> MTags -> list cstring -> world Q -> world Q)
  (Hf : w_clients w !! from = Some f)
  (Hr : forall x p lag m ps w', commands (w_cmds w) !! x = Some p -> permitted UMODE_OPER f p ->
     r x lag from m ps w' = cb_run cb x lag from m ps w') :
  parse3 (with_run cb r) kn kc UMODE_OPER w cptr from mtags mtags_bytes ch =
  parse3 cb kn kc UMODE_OPER w cptr from mtags mtags_bytes ch.
Proof.
  assert (Hrun : forall x p w' lag ps, commands (w_cmds w) !! x = Some p -> permitted UMODE_OPER f p ->
    run_parsed (with_run cb r) kn kc w' cptr from mtags (Some x) 0 lag ps =
    run_parsed cb kn kc w' cptr from mtags (Some x) 0 lag ps).
  { intros x p w' lag ps Hp Hperm. unfold run_parsed. destruct (w_clients w' !! from); [|done].
    cbn [mbind option_bind with_run cb_spamfilter_mtags cb_analyze_text cb_run].
    match goal with |- (let '(_, _) := ?e in _) = _ => destruct e as [w1 blocked] end.
    destruct blocked; [done|].
    destruct (commands (w_cmds w1) !! x); [|done]. cbn [mbind option_bind].
    destruct (w_clients w1 !! cptr); [|done]. cbn [mbind option_bind].
    match goal with |- (?e ≫= _) = _ => destruct e as [w2|]; [|done] end. cbn [mbind option_bind].
    destruct (w_clients w2 !! from); [|done]. cbn [mbind option_bind]. f_equal. by eapply Hr. }
  unfold parse3. destruct (w_clients w !! cptr) as [c|]; [|done]. cbn [mbind option_bind].
  rewrite Hf. cbn [mbind option_bind]. destruct ch as [|b ch]; [done|].
  destruct (first_word (b :: ch)) as [|n rest|nm rest]; [done|done|].
  destruct (find_command _ nm _) as [x|] eqn:Ef; [|done].
  destruct (commands (w_cmds w) !! x) as [p|] eqn:Ep; [|done]. cbn [mbind option_bind].
  change (parse_addlag (with_run cb r)) with (parse_addlag cb).
  match goal with |- (?e ≫= _) = _ => destruct e as [[w1 lag]|]; [|done] end. cbn [mbind option_bind].
  destruct (access_denied _ _) eqn:Ea; [done|]. eapply Hrun; [done|]. by eapply lookup_permitted.
Qed.

(** ** Parameters *)

(** A parameter that can be followed by another one. *)
Definition middle (p : cstring) : Prop :=
  p <> [] /\ Forall (fun c => is_space c = false) p /\ hd 0 p <> ch_colon.

Lemma split_params_bound fuel n i s :
  (Z.of_nat (length (split_params fuel n i s)) <= Z.max 1 (n - i))%Z.
Proof.
  revert i s. induction fuel as [|fuel IH]; intros i s; cbn [split_params]; [simpl; lia|].
  destruct (skip_while is_space s) as [|c t]; [simpl; lia|]. destruct (c =? ch_colon); [simpl; lia|].
  destruct (Z.leb_spec n (i + 1)); [simpl; lia|]. destruct (span _ _) as [word rest].
  specialize (IH (i + 1) rest). cbn [length]. lia.
Qed.

Lemma split_params_middle fuel n i s l x :
  split_params fuel n i s = l ++ [x] -> Forall middle l.
Proof.
  revert i s l. induction fuel as [|fuel IH]; intros i s l; cbn [split_params]; [by destruct l|].
  pose proof (skip_while_head is_space s) as Hhd.
  destruct (skip_while is_space s) as [|c t]; [by destruct l|].
  destruct (Z.eqb_spec c ch_colon); [by destruct l as [|? [|]]; constructor|].
  destruct (Z.leb_spec n (i + 1)); [by destruct l as [|? [|]]; constructor|].
  pose proof (span_spec (fun c => negb (is_space c)) (c :: t)) as Hs.
  destruct (span _ (c :: t)) as [word rest]. destruct Hs as (Heq & Hw & Hrest).
  destruct l as [|y l]; [constructor|]. intros [= -> Hl]. constructor; [|by eapply IH].
  assert (Hne : y <> []).
  { intros ->. simpl in Heq. subst rest. by rewrite Hhd in Hrest. }
  split_and!; [done| |].
  - eapply Forall_impl; [exact Hw|]. intros d ?%negb_true_iff. done.
  - destruct y; [done|]. simpl in Heq. by injection Heq as <- _.
Qed.

(** The text of a parameter list, as [concat_params] writes it. *)
Definition needs_colon (p : cstring) : bool := existsb is_space p || (hd 0 p =? ch_colon).

Fixpoint params_text (ps : list cstring) : cstring :=
  match ps with
  | [] => []
  | [p] => if needs_colon p then ch_colon :: p else p
  | p :: ps => p ++ ch_space :: params_text ps
  end.

(** Parameters that a line can carry: all but the last are [middle], and the last
    is not empty. *)
Fixpoint params_ok (ps : list cstring) : Prop :=
  match ps with
  | [] => False
  | [p] => p <> []
  | p :: ps => middle p /\ params_ok ps
  end.

Lemma middle_no_colon p : middle p -> needs_colon p = false.
Proof.
  intros (_ & Hs & Hc). unfold needs_colon. apply orb_false_iff. split; [|by apply Z.eqb_neq].
  apply not_true_iff_false. intros (x & Hx & Hsp)%existsb_exists.
  rewrite Forall_forall in Hs. rewrite Hs in Hsp; [done|]. by apply list_elem_of_In.
Qed.

Lemma no_colon_middle p : p <> [] -> needs_colon p = false -> middle p.
Proof.
  intros Hp (Hs & Hc%Z.eqb_neq)%orb_false_iff. split_and!; [done| |done].
  apply Forall_forall. intros x Hx. apply not_true_iff_false. intros Hsp.
  apply not_true_iff_false in Hs. apply Hs. apply existsb_exists. exists x.
  split; [by apply list_elem_of_In|done].
Qed.

Lemma span_app p a b :
  Forall (fun c => p c = true) a -> match b with [] => True | c :: _ => p c = false end ->
  span p (a ++ b) = (a, b).
Proof.
  induction 1 as [|x a Hx _ IH]; intros Hb; simpl.
  - destruct b as [|c b]; simpl; [done|]. by rewrite Hb.
  - rewrite Hx, IH by done. done.
Qed.

Lemma middle_head p : middle p -> exists c t, p = c :: t /\ is_space c = false /\ (c =? ch_colon) = false.
Proof.
  intros (Hp & Hs & Hc). destruct p as [|c t]; [done|]. exists c, t. inv Hs as [|? ? Hcs _].
  split_and!; [done|done|by apply Z.eqb_neq].
Qed.

(** One parameter off the front. *)
Lemma split_params_word fuel n i p rest :
  middle p -> match rest with [] => True | c :: _ => is_space c = true end -> i + 1 < n ->
  split_params (S fuel) n i (p ++ rest) = p :: split_params fuel n (i + 1) rest.
Proof.
  intros Hm Hr Hn. pose proof (middle_head p Hm) as (c & t & -> & Hc & Hcol). destruct Hm as (_ & Hs & _).
  cbn [split_params app skip_while]. rewrite Hc, Hcol. rewrite (proj2 (Z.leb_gt _ _) Hn).
  change (c :: t ++ rest) with ((c :: t) ++ rest). rewrite span_app; [done| |].
  - eapply Forall_impl; [exact Hs|]. intros x Hx. by rewrite Hx.
  - destruct rest; [done|]. by rewrite Hr.
Qed.

Lemma split_params_space fuel n i s :
  split_params fuel n i (ch_space :: s) = split_params fuel n i s.
Proof. by destruct fuel. Qed.

Lemma split_params_text n : forall ps fuel i,
  params_ok ps -> (length ps < fuel)%nat -> i + Z.of_nat (length ps) <= n ->
  split_params fuel n i (params_text ps) = ps.
Proof.
  induction ps as [|p ps IH]; intros fuel i Hok Hf Hn; [done|].
  destruct fuel as [|fuel]; [simpl in Hf; lia|]. destruct ps as [|p' ps].
  - simpl in Hok. cbn [params_text]. destruct (needs_colon p) eqn:E; [done|].
    pose proof (no_colon_middle p Hok E) as Hm. destruct (Z.leb_spec n (i + 1)).
    + pose proof (middle_head p Hm) as (c & t & -> & Hc & Hcol). cbn [split_params skip_while].
      rewrite Hc, Hcol. by rewrite (proj2 (Z.leb_le _ _)).
    + rewrite <- (app_nil_r p) at 1. rewrite split_params_word by done. by destruct fuel.
  - destruct Hok as [Hm Hok]. change (params_text (p :: p' :: ps)) with (p ++ ch_space :: params_text (p' :: ps)).
    simpl in Hf. cbn [length] in Hn. rewrite split_params_word by (done || lia). rewrite split_params_space.
    f_equal. apply IH; [done|simpl; lia|cbn [length]; lia].
Qed.

(** The concatenation when nothing is cut off. *)
Lemma strlcat_fits dst src size :
  (length dst + length src < size)%nat -> (strlcat dst src size).1 = dst ++ src.
Proof.
  intros Hl. rewrite strlcat_take by lia. apply take_ge. rewrite length_app. lia.
Qed.

Definition sep_before (buf : cstring) (t : cstring) : cstring :=
  match buf with [] => t | _ => buf ++ ch_space :: t end.

Lemma concat_go_text len ps : forall buf,
  params_ok ps -> (length (sep_before buf (params_text ps)) < len)%nat ->
  concat_go len buf ps = sep_before buf (params_text ps).
Proof.
  induction ps as [|p ps IH]; intros buf Hok Hlen; [done|]. cbn [concat_go]. fold (needs_colon p).
  set (b1 := match buf with [] => buf | _ => (strlcat buf [ch_space] len).1 end).
  assert (Hb1 : b1 = match buf with [] => [] | _ => buf ++ [ch_space] end).
  { unfold b1. destruct buf; [done|]. apply strlcat_fits. unfold sep_before in Hlen.
    rewrite length_app in Hlen. simpl in *. lia. }
  assert (Hsep : forall t, b1 ++ t = sep_before buf t).
  { intros t. rewrite Hb1. unfold sep_before. destruct buf; [done|]. by rewrite <- app_assoc. }
  rewrite <- Hsep in Hlen |- *. rewrite length_app in Hlen. destruct ps as [|p' ps].
  - cbn [params_text] in *. destruct (needs_colon p).
    + rewrite (strlcat_fits b1) by (simpl in *; lia).
      rewrite strlcat_fits by (rewrite length_app; simpl in *; lia).
      by rewrite <- app_assoc.
    + simpl. by rewrite strlcat_fits by lia.
  - destruct Hok as [Hm Hok]. rewrite middle_no_colon by done.
    change (params_text (p :: p' :: ps)) with (p ++ ch_space :: params_text (p' :: ps)) in *.
    rewrite length_app in Hlen. cbn [length] in Hlen. rewrite strlcat_fits by lia. rewrite IH; [|done|].
    + unfold sep_before. destruct (b1 ++ p) eqn:E; [apply app_nil in E as [_ ->]; by destruct Hm|].
      by rewrite <- E, <- app_assoc.
    + unfold sep_before. destruct (b1 ++ p) eqn:E; [apply app_nil in E as [_ ->]; by destruct Hm|].
      rewrite <- E, !length_app. cbn [length]. lia.
Qed.

Lemma params_text_length ps : params_ok ps -> (length ps <= length (params_text ps))%nat.
Proof.
  induction ps as [|p ps IH]; [done|]. destruct ps as [|p' ps].
  - cbn [params_text params_ok]. intros Hp. destruct p as [|c p]; [done|].
    destruct (needs_colon (c :: p)); simpl; lia.
  - intros [(Hp & _) Hok]. change (params_text (p :: p' :: ps)) with (p ++ ch_space :: params_text (p' :: ps)).
    rewrite length_app. specialize (IH Hok). destruct p; [done|]. cbn [length] in *. lia.
Qed.

(** The parameter array of [parse2] stays within bounds and is split as the
    protocol says.  At most [max 1 paramcount] parameters are stored, so with the
    terminating NULL at most [MAXPARA + 1] is the last index used for any command
    that declares up to [MAXPARA] parameters; and every parameter but the last is
    non-empty, has no blank and does not start with a colon. *)
Theorem params_within_bounds (paramcount : Z) (s : cstring) :
  Z.of_nat (length (para paramcount s)) <= Z.max 1 paramcount /\
  (paramcount <= MAXPARA -> Z.of_nat (length (para paramcount s)) + 1 < MAXPARA + 2) /\
  (forall l x, para paramcount s = l ++ [x] -> Forall middle l).
Proof.
  unfold para. pose proof (split_params_bound (S (length s)) paramcount 0 s) as Hb. split_and!.
  - lia.
  - unfold MAXPARA. lia.
  - intros l x. apply split_params_middle.
Qed.

(** [concat_params] and the splitting loop are inverse: parameters joined
    into a line that fits the buffer are recovered one by one, blanks and a
    leading colon in the last one included. *)
Theorem params_roundtrip (len : nat) (paramcount : Z) (ps : list cstring)
  (Hok : params_ok ps) (Hlen : (length (params_text ps) < len)%nat)
  (Hn : Z.of_nat (length ps) <= paramcount) :
  concat_params len ps = params_text ps /\ para paramcount (concat_params len ps) = ps.
Proof.
  assert (Hc : concat_params len ps = params_text ps) by (by apply (concat_go_text len ps [])).
  split; [done|]. rewrite Hc. apply split_params_text; [done| |lia].
  pose proof (params_text_length ps Hok). lia.
Qed.

Lemma params_roundtrip_witness :
  concat_params 512 [str "#chan"; str "nick"; str ":hello world"] = str "#chan nick ::hello world" /\
  para 15 (concat_params 512 [str "#chan"; str "nick"; str ":hello world"]) =
    [str "#chan"; str "nick"; str ":hello world"].
Proof.
  apply (params_roundtrip 512 15 [str "#chan"; str "nick"; str ":hello world"]).
  - split; [|split; [|done]]; (split; [done|split; [|done]]); repeat constructor.
  - vm_compute. repeat constructor.
  - simpl. lia.
Defined.

(** ** A concrete server, for the statements above *)

(** Callbacks that do nothing; the lag penalty is 1000 ms per 90 bytes. *)
Definition quiet_callbacks : callbacks dbuf unit :=
  Callbacks (fun _ b w => (w, Some b)) (fun _ b w => (w, (tt, b))) (fun _ _ _ w => (w, false))
    (fun _ _ _ w => w) (fun _ _ _ w => (w, false)) (fun _ _ w => w) (fun _ _ _ _ _ w => w)
    (fun _ _ w => w) (fun _ w => w) (fun _ _ => false) (fun _ _ => false) (fun _ _ => (1000, 90))
    (fun _ w => w) (fun _ w => w) (fun _ w => w) (fun _ w => (w, 0)) (fun _ _ => false).

Lemma quiet_calm : calm_callbacks quiet_callbacks.
Proof. split; intros; simpl; try (split; by eauto); done. Qed.

Definition sample_local : LocalClient :=
  MkLocal 1000 0 900 900 false 0 None (Traffic 0 0) 0 0.

Definition local_user : Client :=
  MkClient (str "alice") (str "001AAAAAA") CLIENT_STATUS_USER 0 0 1%positive 900 [] None
    (Some sample_local) None None.

Definition sample_world : world dbuf :=
  World {[ 1%positive := local_user ]} (Tables ∅ ∅ ∅ false) ∅ {[ 1%positive := dbuf_queue_init ]}
    (CmdTable ∅ ∅) 1000 0 (Stats 0 0 0 0) (Traffic 0 0) [] [].

Lemma sample_connected : connected sample_world 1.
Proof. exists local_user, sample_local, dbuf_queue_init. split_and!; [done..|]. split; [constructor|done]. Qed.

Lemma process_packet_bounded_witness :
  exists w' r, process_packet quiet_callbacks tt [] [] 0 0 0 4096 sample_world 1
      (str "PING x") false = Some (w', r) /\
    (r = true -> exists c l q, w_clients w' !! 1%positive = Some c /\ local c = Some l /\
       w_recvq w' !! 1%positive = Some q /\ rq_ok q /\ IsDead c = false /\
       (IsUnknown c = true -> Z.of_nat (length (rq_bytes q)) <= 4096) /\
       (IsUser c = true -> Z.of_nat (length (rq_bytes q)) <= get_recvq l)).
Proof.
  apply (process_packet_bounded quiet_callbacks tt [] [] 0 0 0 4096 quiet_calm sample_world 1
           (str "PING x") false sample_connected). discriminate.
Defined.

Lemma parse_client_queued_progress_witness :
  exists w' c l, parse_client_queued quiet_callbacks tt [] [] 0 0 0 4096 sample_world 1 = Some w' /\
    w_clients sample_world !! 1%positive = Some c /\ local c = Some l /\
    if must_wait 0 0 sample_world c l then w' = sample_world
    else exists c' l' q', w_clients w' !! 1%positive = Some c' /\ local c' = Some l' /\
      w_recvq w' !! 1%positive = Some q' /\ rq_ok q' /\
      (IsDead c' = true \/ client_lagged_up quiet_callbacks w' 1 = Some true \/
       Forall (fun b => is_eol b = false) (rq_bytes q')).
Proof.
  exact (parse_client_queued_progress quiet_callbacks tt [] [] 0 0 0 4096 quiet_calm sample_world 1
           sample_connected).
Defined.

Lemma fake_lag_roundtrip_witness :
  exists w' c' l', add_fake_lag sample_world 1 2500 = Some w' /\ w_clients w' !! 1%positive = Some c' /\
    local c' = Some l' /\ lag_total (fake_lag l') (fake_lag_msec l') = lag_total 1000 0 + 2500 /\
    0 <= fake_lag_msec l' < 1000 /\ subtract_fake_lag w' 1 2500 = Some sample_world.
Proof.
  apply (fake_lag_roundtrip sample_world 1 local_user sample_local 2500);
    [reflexivity|reflexivity|reflexivity|simpl; lia|lia].
Defined.

Lemma fake_lag_throttles_witness :
  exists w', addlag_all quiet_callbacks sample_world 1 (replicate 10 (20, 0)) = Some w' /\
    client_lagged_up quiet_callbacks w' 1 = Some true.
Proof.
  apply (fake_lag_throttles quiet_callbacks sample_world 1 local_user sample_local 1000).
  - intros w. reflexivity.
  - intros w. simpl. lia.
  - lia.
  - repeat constructor; simpl; lia.
  - reflexivity.
  - reflexivity.
  - reflexivity.
  - reflexivity.
  - simpl. lia.
  - simpl. lia.
  - simpl. lia.
Defined.

Definition sample_server : Client :=
  MkClient (str "hub.example") (str "002") CLIENT_STATUS_SERVER 0 0 2%positive 900 [] None
    (Some sample_local) None None.

Definition remote_user : Client :=
  MkClient (str "bob") (str "002AAAAAA") CLIENT_STATUS_USER 0 0 2%positive 900 [] None None None None.

Definition linked_world : world dbuf :=
  let key := seqZ 0 16 in
  let t0 := Tables ∅ ∅ ∅ false in
  World {[ 2%positive := sample_server; 3%positive := remote_user ]}
    (add_to_client_hash_table key (add_to_client_hash_table key t0 (str "hub.example") 2) (str "bob") 3) ∅
    {[ 2%positive := dbuf_queue_init ]} (CmdTable ∅ ∅) 1000 0 (Stats 0 0 0 0) (Traffic 0 0) [] [].

Lemma message_source_authentic_witness :
  (3%positive = 2%positive \/
   IsServer sample_server = true /\
   exists f, w_clients linked_world !! 3%positive = Some f /\ direction f = 2%positive) /\
  (IsServer sample_server = false -> 3%positive = 2%positive).
Proof.
  apply (message_source_authentic (seqZ 0 16) linked_world 2 3 sample_server (str ":Bob AWAY") (str "AWAY"));
    vm_compute; reflexivity.
Defined.

(** A handler of an operator command that would make the caller an operator. *)
Lemma handlers_need_permission_witness :
  let p := MkCmd (str "DIE") CMD_OPER 1 0 0 in
  let w := put_cmds sample_world (CmdTable {[ 68 := [1%positive] ]} {[ 1%positive := p ]}) in
  let r := fun (_ : cmdptr) (_ : Z) (x : cid) (_ : unit) (_ : list cstring) (w : world dbuf) =>
             put_client w x sample_server in
  parse3 (with_run quiet_callbacks r) [] [] 1 w 1 1 tt 0 (str "DIE now") =
  parse3 quiet_callbacks [] [] 1 w 1 1 tt 0 (str "DIE now").
Proof.
  intros p w r.
  apply (handlers_need_permission quiet_callbacks [] [] 1 w 1 1 local_user tt 0 (str "DIE now") r).
  - reflexivity.
  - intros x q lag m ps w' Hq Hperm. exfalso. unfold w in Hq. simpl in Hq.
    apply lookup_singleton_Some in Hq as [_ <-].
    destruct Hperm as (_ & _ & Hoper & _). discriminate Hoper; reflexivity.
Defined.
