(* ===== verification/ChanMode.v ===== *)
(** * Member modes (src/api-channelmode.c)

    The access of a member is a string of mode letters kept in the order of their
    ranks.  This file models the loaded channel modes, the insertion and removal of
    letters, the tests on such strings and the translations between modes, ranks,
    prefixes and SJOIN prefixes; the list of loaded modes is a parameter, because
    it is filled by modules, with the facts their registration ensures as
    hypotheses where a theorem needs them. *)
From Stdlib Require Import Sorted.
From S2P Require Import Prelude Chars Strings.

(** ** Channel modes and member modes *)

Inductive cmode_type := CMODE_NORMAL | CMODE_MEMBER.

#[export] Instance cmode_type_eq_dec : EqDecision cmode_type.
Proof. solve_decision. Defined.

(** [struct Cmode], the fields used here. *)
Record Cmode := MkCmode {
  letter : Z;
  ctype : cmode_type;
  rank : Z;
  prefix : Z;
  sjoin_prefix : Z;
  paracount : Z;
  unset_with_param : bool
}.

Definition MEMBERMODESLEN : nat := 8.
Definition CHANNELLEN : nat := 32.

Section cmodes.
(** The list of loaded channel modes. *)
Context (channelmodes : list Cmode).

Definition find_channel_mode_handler (l : Z) : option Cmode :=
  List.find (fun cm => letter cm =? l) channelmodes.

Definition is_member_mode (cm : Cmode) : bool := bool_decide (ctype cm = CMODE_MEMBER).

Definition valid_channel_access_mode_letter (l : Z) : bool :=
  match find_channel_mode_handler l with
  | Some cm => is_member_mode cm
  | None => false
  end.

(** The insertion loop of [addlettertomstring]. *)
Fixpoint insert_letter (my_rank l : Z) (s : cstring) : cstring :=
  match s with
  | [] => [l]
  | p :: s' =>
      match find_channel_mode_handler p with
      | None => p :: insert_letter my_rank l s'
      | Some cm => if rank cm <? my_rank then l :: s else p :: insert_letter my_rank l s'
      end
  end.

Definition addlettertomstring (s : cstring) (l : Z) : cstring :=
  match find_channel_mode_handler l with
  | Some cm =>
      if negb (is_member_mode cm) then s
      else if (MEMBERMODESLEN - 1 <=? length s)%nat then s
      else insert_letter (rank cm) l s
  | None => s
  end.

(** [delletterfromstring] (src/misc.c): the first occurrence. *)
Fixpoint delletterfromstring (s : cstring) (l : Z) : cstring :=
  match s with
  | [] => []
  | c :: s => if c =? l then s else c :: delletterfromstring s l
  end.

Definition check_channel_access_string (current modes : cstring) : bool :=
  existsb (fun c => existsb (Z.eqb c) modes) current.

Definition check_channel_access_letter (current : cstring) (l : Z) : bool :=
  (l =? 0) || existsb (Z.eqb l) current.

Definition find_cm (p : Cmode -> bool) : option Cmode := List.find p channelmodes.

Definition sjoin_prefix_to_mode (s : Z) : Z :=
  if s =? 0 then 0
  else if s =? 38 then 98
  else if s =? 34 then 101
  else if s =? 39 then 73
  else match find_cm (fun cm => (sjoin_prefix cm =? s) && is_member_mode cm) with
       | Some cm => letter cm | None => 0 end.

Definition mode_to_sjoin_prefix (s : Z) : Z :=
  if s =? 0 then 0
  else if s =? 98 then 38
  else if s =? 101 then 34
  else if s =? 73 then 39
  else match find_cm (fun cm => (letter cm =? s) && is_member_mode cm) with
       | Some cm => sjoin_prefix cm | None => 0 end.

Definition mode_to_prefix (s : Z) : Z :=
  if s =? 0 then 0
  else match find_cm (fun cm => (letter cm =? s) && is_member_mode cm) with
       | Some cm => prefix cm | None => 0 end.

Definition prefix_to_mode (s : Z) : Z :=
  if s =? 0 then 0
  else match find_cm (fun cm => (prefix cm =? s) && is_member_mode cm) with
       | Some cm => letter cm | None => 0 end.

(** The loop of [modes_to_prefix] and [modes_to_sjoin_prefix]. *)
Definition map_letters (f : Z -> Z) (modes : cstring) : cstring :=
  fold_left (fun buf m => if f m =? 0 then buf else strlcat_letter buf (f m) MEMBERMODESLEN) modes [].

Definition modes_to_sjoin_prefix (modes : cstring) : cstring := map_letters mode_to_sjoin_prefix modes.
Definition modes_to_prefix (modes : cstring) : cstring := map_letters mode_to_prefix modes.

Definition rank_to_mode (r : Z) : Z :=
  match find_cm (fun cm => is_member_mode cm && (rank cm =? r)) with Some cm => letter cm | None => 0 end.
Definition mode_to_rank (m : Z) : Z :=
  match find_cm (fun cm => is_member_mode cm && (letter cm =? m)) with Some cm => rank cm | None => 0 end.
Definition prefix_to_rank (p : Z) : Z :=
  match find_cm (fun cm => is_member_mode cm && (prefix cm =? p)) with Some cm => rank cm | None => 0 end.
Definition rank_to_prefix (r : Z) : Z :=
  match find_cm (fun cm => is_member_mode cm && (rank cm =? r)) with Some cm => prefix cm | None => 0 end.

Definition INT_MAX : Z := 2147483647.

Definition lowest_rank (to_rank : Z -> Z) (s : cstring) : Z :=
  fold_left (fun w c => if to_rank c <? w then to_rank c else w) s INT_MAX.

Definition lowest_ranking_prefix (s : cstring) : Z :=
  let r := lowest_rank prefix_to_rank s in if r =? INT_MAX then 0 else rank_to_prefix r.

Definition lowest_ranking_mode (s : cstring) : Z :=
  let r := lowest_rank mode_to_rank s in if r =? INT_MAX then 0 else rank_to_mode r.

Definition channel_member_modes_generate_equal_or_greater (modes : cstring) (buflen : nat) : cstring :=
  let r := mode_to_rank (lowest_ranking_mode modes) in
  if r =? 0 then []
  else fold_left (fun buf cm => if is_member_mode cm && (r <=? rank cm)
                                then strlcat_letter buf (letter cm) buflen else buf)
         channelmodes [].

(** ** Finding a mode *)

Lemma find_cm_spec (p : Cmode -> bool) cm :
  find_cm p = Some cm -> cm ∈ channelmodes /\ p cm = true.
Proof. intros H%find_some. by rewrite list_elem_of_In. Qed.

(** A search by a key that is injective on what is searched finds that element. *)
Lemma find_cm_inj (p : Cmode -> bool) cm :
  cm ∈ channelmodes -> p cm = true ->
  (forall cm', cm' ∈ channelmodes -> p cm' = true -> cm' = cm) -> find_cm p = Some cm.
Proof.
  intros Hin Hp Huniq. destruct (find_cm p) as [cm'|] eqn:E.
  - apply find_cm_spec in E as [? ?]. f_equal. auto.
  - apply list_elem_of_In in Hin. by rewrite (find_none _ _ E cm Hin) in Hp.
Qed.

(** ** Strings of member modes *)

Definition letter_rank (l : Z) : Z :=
  match find_channel_mode_handler l with Some cm => rank cm | None => 0 end.

(** What [member_modes] holds: letters of member modes, highest rank first, and
    room for the terminator. *)
Definition mode_string (s : cstring) : Prop :=
  Forall (fun l => valid_channel_access_mode_letter l = true) s /\
  StronglySorted (fun a b => letter_rank b <= letter_rank a) s /\
  (length s <= MEMBERMODESLEN - 1)%nat.

Lemma valid_letter_found l :
  valid_channel_access_mode_letter l = true ->
  exists cm, find_channel_mode_handler l = Some cm /\ is_member_mode cm = true /\ rank cm = letter_rank l.
Proof.
  unfold valid_channel_access_mode_letter, letter_rank.
  destruct (find_channel_mode_handler l) as [cm|]; [|done]. eauto.
Qed.

Lemma insert_letter_perm r l s : insert_letter r l s ≡ₚ l :: s.
Proof.
  induction s as [|p s IH]; simpl; [done|].
  destruct (find_channel_mode_handler p) as [cm|]; [destruct (rank cm <? r); [done|]|];
    rewrite IH; apply perm_swap.
Qed.

Lemma insert_letter_sorted l s :
  Forall (fun l => valid_channel_access_mode_letter l = true) s ->
  StronglySorted (fun a b => letter_rank b <= letter_rank a) s ->
  StronglySorted (fun a b => letter_rank b <= letter_rank a) (insert_letter (letter_rank l) l s).
Proof.
  intros Hv Hs. induction Hs as [|p s Hs IH Hp]; simpl; [repeat constructor|].
  apply Forall_cons in Hv as [Hvp Hv].
  destruct (valid_letter_found _ Hvp) as (cm & -> & _ & Hr). rewrite Hr.
  destruct (Z.ltb_spec (letter_rank p) (letter_rank l)).
  - constructor; [by constructor|]. constructor; [lia|]. eapply Forall_impl; [exact Hp|]. simpl. lia.
  - constructor; [by apply IH|]. rewrite insert_letter_perm. constructor; [lia|done].
Qed.

Lemma delletter_perm s l : l ∈ s -> s ≡ₚ l :: delletterfromstring s l.
Proof.
  induction s as [|c s IH]; intros H; [set_solver|]. simpl. destruct (Z.eqb_spec c l) as [->|]; [done|].
  rewrite IH at 1 by set_solver. apply perm_swap.
Qed.

Lemma delletter_sublist s l : delletterfromstring s l `sublist_of` s.
Proof.
  induction s as [|c s IH]; simpl; [done|]. destruct (c =? l); [by constructor|by apply sublist_skip].
Qed.

Lemma delletter_insert r l s : l ∉ s -> delletterfromstring (insert_letter r l s) l = s.
Proof.
  intros Hl. induction s as [|p s IH]; simpl; [by rewrite Z.eqb_refl|].
  assert (p =? l = false) as Hp by (apply Z.eqb_neq; set_solver).
  destruct (find_channel_mode_handler p) as [cm|]; [destruct (rank cm <? r)|]; simpl;
    rewrite ?Z.eqb_refl, ?Hp; rewrite ?IH by set_solver; done.
Qed.

Lemma sorted_sublist (R : Z -> Z -> Prop) s t :
  s `sublist_of` t -> StronglySorted R t -> StronglySorted R s.
Proof.
  induction 1 as [|x s t Hst IH|x s t Hst IH]; intros Hs; [done| |];
    apply StronglySorted_inv in Hs as [Hs Hx]; auto.
  constructor; [auto|]. rewrite Forall_forall in *. intros y Hy. apply Hx.
  by eapply elem_of_sublist.
Qed.

Lemma mode_string_nil : mode_string [].
Proof. repeat constructor. Qed.

Lemma mode_string_add s l : mode_string s -> mode_string (addlettertomstring s l).
Proof.
  intros Hms. pose proof Hms as (Hv & Hs & Hl). unfold addlettertomstring.
  destruct (find_channel_mode_handler l) as [cm|] eqn:E; [|done].
  destruct (is_member_mode cm) eqn:Em; cbn [negb]; [|done].
  destruct (Nat.leb_spec (MEMBERMODESLEN - 1) (length s)); [done|].
  assert (rank cm = letter_rank l) as -> by (unfold letter_rank; by rewrite E).
  split_and!.
  - rewrite insert_letter_perm. constructor; [|done]. unfold valid_channel_access_mode_letter. by rewrite E.
  - by apply insert_letter_sorted.
  - rewrite insert_letter_perm. simpl in *. lia.
Qed.

Lemma mode_string_del s l : mode_string s -> mode_string (delletterfromstring s l).
Proof.
  intros (Hv & Hs & Hl). pose proof (delletter_sublist s l) as Hsub. split_and!.
  - rewrite Forall_forall in *. intros x Hx. apply Hv. by eapply elem_of_sublist.
  - by eapply sorted_sublist.
  - apply sublist_length in Hsub. lia.
Qed.

Lemma access_string_spec cur modes :
  check_channel_access_string cur modes = true <-> exists l, l ∈ cur /\ l ∈ modes.
Proof.
  unfold check_channel_access_string. rewrite existsb_exists. split.
  - intros (l & Hl & (l' & Hl' & ->%Z.eqb_eq)%existsb_exists). exists l'. by rewrite !list_elem_of_In.
  - intros (l & Hl & Hm). exists l. rewrite <- list_elem_of_In, existsb_exists. split; [done|].
    exists l. rewrite <- list_elem_of_In. split; [done|apply Z.eqb_refl].
Qed.

(** ** Translations *)

Definition member_modes : list Cmode := filter (fun cm => is_member_mode cm = true) channelmodes.

(** What the modules that register member modes ensure: no two of them share a
    letter, a prefix, an SJOIN prefix or a rank, these are not zero, and the list
    modes +b, +e and +I keep their letters and SJOIN prefixes for themselves.
    ([CmodeAdd] checks that letters differ and that the other fields are set.) *)
Record cmodes_ok : Prop := {
  co_letters : NoDup (letter <$> channelmodes);
  co_prefixes : NoDup (prefix <$> member_modes);
  co_sjoin : NoDup (sjoin_prefix <$> member_modes);
  co_ranks : NoDup (rank <$> member_modes);
  co_values : Forall (fun cm => letter cm ∉ [0; 98; 101; 73] /\ prefix cm <> 0 /\
                 sjoin_prefix cm ∉ [0; 38; 34; 39] /\ rank cm <> 0 /\ rank cm < INT_MAX) member_modes
}.

Lemma NoDup_fmap_inj {A B} (f : A -> B) (l : list A) x y :
  NoDup (f <$> l) -> x ∈ l -> y ∈ l -> f x = f y -> x = y.
Proof.
  intros Hnd [i Hi]%list_elem_of_lookup [j Hj]%list_elem_of_lookup Heq.
  assert (i = j) as ->; [|congruence].
  eapply NoDup_lookup; [exact Hnd| |]; rewrite list_lookup_fmap.
  - by rewrite Hi.
  - rewrite Hj. simpl. by rewrite Heq.
Qed.

Lemma elem_member_modes cm : cm ∈ member_modes <-> is_member_mode cm = true /\ cm ∈ channelmodes.
Proof. unfold member_modes. by rewrite list_elem_of_filter. Qed.

(** A search among the member modes by a key they do not share. *)
Lemma find_member_key {K} (key : Cmode -> K) (p : Cmode -> bool) cm :
  NoDup (key <$> member_modes) -> cm ∈ member_modes ->
  (forall cm', p cm' = true <-> is_member_mode cm' = true /\ key cm' = key cm) ->
  find_cm p = Some cm.
Proof.
  intros Hnd Hin Hp. pose proof Hin as [Hm Hc]%elem_member_modes.
  apply find_cm_inj; [done|by apply Hp|].
  intros cm' Hc' [Hm' Hk]%Hp. eapply NoDup_fmap_inj; [exact Hnd| |done|done]. by apply elem_member_modes.
Qed.

Section translations.
Context (Hok : cmodes_ok).

Lemma letters_of_members : NoDup (letter <$> member_modes).
Proof.
  pose proof (co_letters Hok) as Hnd. apply NoDup_fmap_2_strong.
  - intros x y [_ ?]%elem_member_modes [_ ?]%elem_member_modes. by eapply NoDup_fmap_inj.
  - apply NoDup_filter. by eapply NoDup_fmap_1.
Qed.

Lemma valid_letter_member l :
  valid_channel_access_mode_letter l = true <-> exists cm, cm ∈ member_modes /\ letter cm = l.
Proof.
  split.
  - intros (cm & Hf & Hm & _)%valid_letter_found. apply find_cm_spec in Hf as [Hin ?%Z.eqb_eq].
    exists cm. by rewrite elem_member_modes.
  - intros (cm & [Hm Hin]%elem_member_modes & <-). unfold valid_channel_access_mode_letter.
    assert (find_channel_mode_handler (letter cm) = Some cm) as ->; [|done].
    apply (find_cm_inj (fun c => letter c =? letter cm)); [done|by rewrite Z.eqb_refl|].
    intros cm' Hin' ?%Z.eqb_eq. by eapply NoDup_fmap_inj; [apply (co_letters Hok)|..].
Qed.

Ltac key_spec := intros cm'; rewrite andb_true_iff, ?Z.eqb_eq; tauto.

Lemma member_translations cm :
  cm ∈ member_modes ->
  mode_to_prefix (letter cm) = prefix cm /\ prefix_to_mode (prefix cm) = letter cm /\
  mode_to_sjoin_prefix (letter cm) = sjoin_prefix cm /\
  sjoin_prefix_to_mode (sjoin_prefix cm) = letter cm /\
  mode_to_rank (letter cm) = rank cm /\ rank_to_mode (rank cm) = letter cm /\
  prefix_to_rank (prefix cm) = rank cm /\ rank_to_prefix (rank cm) = prefix cm.
Proof.
  intros Hin. pose proof (co_values Hok) as Hv. rewrite Forall_forall in Hv.
  specialize (Hv cm Hin) as (Hl & Hp & Hs & Hr & _).
  rewrite !not_elem_of_cons in Hl, Hs. destruct Hl as (? & ? & ? & ? & _), Hs as (? & ? & ? & ? & _).
  pose proof letters_of_members as HL. pose proof (co_prefixes Hok) as HP.
  pose proof (co_sjoin Hok) as HS. pose proof (co_ranks Hok) as HR.
  unfold mode_to_prefix, prefix_to_mode, mode_to_sjoin_prefix, sjoin_prefix_to_mode, mode_to_rank,
    rank_to_mode, prefix_to_rank, rank_to_prefix.
  repeat match goal with |- context [?a =? ?b] => destruct (Z.eqb_spec a b) as [?|_]; [congruence|] end.
  split_and!;
    first [ rewrite (find_member_key letter _ cm HL Hin); [done|key_spec]
          | rewrite (find_member_key prefix _ cm HP Hin); [done|key_spec]
          | rewrite (find_member_key sjoin_prefix _ cm HS Hin); [done|key_spec]
          | rewrite (find_member_key rank _ cm HR Hin); [done|key_spec] ].
Qed.

Lemma map_letters_all (f : Z -> Z) s :
  Forall (fun l => f l <> 0) s -> (length s <= MEMBERMODESLEN - 1)%nat -> map_letters f s = map f s.
Proof.
  intros Hf Hlen. unfold map_letters. change (map f s) with ([] ++ map f s).
  assert (length (@nil Z) + length s <= MEMBERMODESLEN - 1)%nat as Hb by done.
  clear Hlen. revert Hb. generalize (@nil Z) as buf.
  induction Hf as [|l s Hl Hf IH]; intros buf Hb; simpl; [by rewrite app_nil_r|].
  rewrite (proj2 (Z.eqb_neq _ _)) by done.
  assert (strlcat_letter buf (f l) MEMBERMODESLEN = buf ++ [f l]) as ->.
  { unfold strlcat_letter. rewrite orb_false_l, (proj2 (Nat.leb_gt _ _)); [done|]. simpl in *. lia. }
  rewrite IH; [by rewrite <- app_assoc|]. rewrite length_app. simpl in *. lia.
Qed.

(** The minimum that the loop of [lowest_ranking_mode] computes. *)
Lemma lowest_rank_spec (f : Z -> Z) s :
  s <> [] -> Forall (fun l => f l < INT_MAX) s ->
  (exists l, l ∈ s /\ f l = lowest_rank f s) /\ Forall (fun l => lowest_rank f s <= f l) s.
Proof.
  unfold lowest_rank. intros Hne Hs.
  assert (forall w, Forall (fun l => f l < INT_MAX) s -> w <= INT_MAX ->
    let r := fold_left (fun w c => if f c <? w then f c else w) s w in
    r <= w /\ Forall (fun l => r <= f l) s /\ (r = w \/ exists l, l ∈ s /\ f l = r)) as H.
  { clear Hne Hs. induction s as [|c s IH]; intros w Hs Hw; simpl; [split_and!; [lia|constructor|by left]|].
    apply Forall_cons in Hs as [Hc Hs].
    destruct (IH (if f c <? w then f c else w) Hs ltac:(bdestr; lia)) as (H1 & H2 & H3).
    set (r := fold_left _ s _) in *. split_and!; [bdestr; lia|constructor; [bdestr; lia|done]|].
    destruct H3 as [H3|(l & Hl & H3)]; [|right; exists l; split; [by right|done]].
    destruct (f c <? w) eqn:E; [|by left]. right. exists c. split; [left|done]. }
  destruct (H INT_MAX Hs ltac:(lia)) as (_ & H2 & H3). split; [|done].
  destruct H3 as [H3|]; [|done]. destruct s as [|c s]; [done|].
  apply Forall_cons in Hs as [? _]. apply Forall_cons in H2 as [? _]. lia.
Qed.

Lemma lowest_ranking_mode_spec modes :
  modes <> [] -> Forall (fun l => valid_channel_access_mode_letter l = true) modes ->
  let r := mode_to_rank (lowest_ranking_mode modes) in
  r <> 0 /\ lowest_ranking_mode modes ∈ modes /\ Forall (fun l => r <= mode_to_rank l) modes.
Proof.
  intros Hne Hv. pose proof (co_values Hok) as Hvals. rewrite Forall_forall in Hvals. rewrite Forall_forall in Hv.
  destruct (lowest_rank_spec mode_to_rank modes Hne) as [(l & Hl & Hr) Hlow].
  { apply Forall_forall. intros l (cm & Hcm & <-)%Hv%valid_letter_member.
    destruct (member_translations cm Hcm) as (_ & _ & _ & _ & -> & _). apply Hvals, Hcm. }
  pose proof (Hv l Hl) as (cm & Hcm & <-)%valid_letter_member.
  destruct (member_translations cm Hcm) as (_ & _ & _ & _ & Hmr & Hrm & _). rewrite Hmr in Hr.
  destruct (Hvals cm Hcm) as (_ & _ & _ & Hnz & Hmax).
  assert (lowest_ranking_mode modes = letter cm) as ->.
  { unfold lowest_ranking_mode. rewrite <- Hr, (proj2 (Z.eqb_neq _ _)) by lia. done. }
  simpl. rewrite Hmr. split_and!; [done|done|by rewrite Hr].
Qed.

Lemma generate_all (p : Cmode -> bool) (l : list Cmode) (buf : cstring) (buflen : nat) :
  (length buf + length (filter (fun cm => p cm = true) l) < buflen)%nat ->
  fold_left (fun buf cm => if p cm then strlcat_letter buf (letter cm) buflen else buf) l buf =
  buf ++ map letter (filter (fun cm => p cm = true) l).
Proof.
  revert buf. induction l as [|cm l IH]; intros buf Hb; simpl; [by rewrite app_nil_r|].
  destruct (p cm) eqn:E.
  - rewrite filter_cons_True in * by done. simpl in Hb. rewrite (IH (strlcat_letter _ _ _)).
    + unfold strlcat_letter. rewrite (proj2 (Nat.eqb_neq _ _)), (proj2 (Nat.leb_gt _ _)) by lia. simpl.
      by rewrite <- app_assoc.
    + unfold strlcat_letter. rewrite (proj2 (Nat.eqb_neq _ _)), (proj2 (Nat.leb_gt _ _)) by lia. simpl.
      rewrite length_app. simpl. lia.
  - rewrite filter_cons_False in * by congruence. by apply IH.
Qed.

Lemma equal_or_greater_elem modes buflen l :
  modes <> [] -> Forall (fun l => valid_channel_access_mode_letter l = true) modes ->
  (length member_modes < buflen)%nat ->
  l ∈ channel_member_modes_generate_equal_or_greater modes buflen <->
  valid_channel_access_mode_letter l = true /\ exists m, m ∈ modes /\ mode_to_rank m <= mode_to_rank l.
Proof.
  intros Hne Hv Hb. destruct (lowest_ranking_mode_spec modes Hne Hv) as (Hnz & Hin & Hlow).
  unfold channel_member_modes_generate_equal_or_greater. rewrite (proj2 (Z.eqb_neq _ _)) by done.
  set (r := mode_to_rank (lowest_ranking_mode modes)) in *.
  assert (filter (fun cm => is_member_mode cm && (r <=? rank cm) = true) channelmodes =
          filter (fun cm => r <= rank cm) member_modes) as Hf.
  { unfold member_modes. rewrite list_filter_filter. apply filter_agree.
    intros cm _. rewrite andb_true_iff, Z.leb_le. tauto. }
  rewrite (generate_all (fun cm => is_member_mode cm && (r <=? rank cm))), Hf; last first.
  { simpl. rewrite Hf. eapply Nat.le_lt_trans; [apply length_filter|exact Hb]. }
  simpl. change (l ∈ letter <$> filter (fun cm => r <= rank cm) member_modes <->
    valid_channel_access_mode_letter l = true /\ exists m, m ∈ modes /\ mode_to_rank m <= mode_to_rank l).
  rewrite list_elem_of_fmap, valid_letter_member. split.
  - intros (cm & -> & [Hr Hcm]%list_elem_of_filter). split; [by eauto|].
    exists (lowest_ranking_mode modes). split; [done|]. fold r.
    by destruct (member_translations cm Hcm) as (_ & _ & _ & _ & -> & _).
  - intros [(cm & Hcm & <-) (m & Hm & Hr)]. exists cm. split; [done|]. apply list_elem_of_filter.
    split; [|done]. destruct (member_translations cm Hcm) as (_ & _ & _ & _ & Hmr & _).
    rewrite Hmr in Hr. rewrite Forall_forall in Hlow. specialize (Hlow m Hm). lia.
Qed.

End translations.

(** ** The properties *)

(** C34: [addlettertomstring] and [delletterfromstring] keep the string of a
    member's modes well formed: only letters of member modes, the highest rank
    first, and never more than fit into the buffer with its terminator.  Adding a
    member mode while there is room adds exactly that letter, another letter or a
    full string changes nothing, deleting removes exactly one occurrence, and
    deleting a letter just added restores the string. *)
Theorem member_modes_maintained (s : cstring) (l : Z) (Hs : mode_string s) :
  mode_string (addlettertomstring s l) /\ mode_string (delletterfromstring s l) /\
  (if valid_channel_access_mode_letter l && (length s <? MEMBERMODESLEN - 1)%nat
   then addlettertomstring s l ≡ₚ l :: s /\
        (l ∉ s -> delletterfromstring (addlettertomstring s l) l = s)
   else addlettertomstring s l = s) /\
  (l ∈ s -> s ≡ₚ l :: delletterfromstring s l).
Proof.
  split_and!; [by apply mode_string_add|by apply mode_string_del| |apply delletter_perm].
  unfold valid_channel_access_mode_letter, addlettertomstring.
  destruct (find_channel_mode_handler l) as [cm|]; [|done]. destruct (is_member_mode cm); [|done].
  rewrite andb_true_l, Nat.leb_antisym. destruct (_ <? _)%nat; [|done].
  split; [apply insert_letter_perm|apply delletter_insert].
Qed.

(** Under the registration rules for member modes, the strings that are sent
    to clients (NAMES prefixes) and to servers (SJOIN prefixes) carry the whole
    access of a member: translating each prefix back gives the string of modes,
    nothing is cut off by the buffer, and the rank of a mode identifies it. *)
Theorem prefixes_roundtrip (s : cstring) (Hok : cmodes_ok) (Hs : mode_string s) :
  map prefix_to_mode (modes_to_prefix s) = s /\
  map sjoin_prefix_to_mode (modes_to_sjoin_prefix s) = s /\
  map rank_to_mode (map mode_to_rank s) = s /\
  map prefix_to_rank (modes_to_prefix s) = map mode_to_rank s.
Proof.
  destruct Hs as (Hv & _ & Hlen). unfold modes_to_prefix, modes_to_sjoin_prefix.
  assert (Forall (fun l => exists cm, cm ∈ member_modes /\ letter cm = l) s) as Hm.
  { eapply Forall_impl; [exact Hv|]. intros l Hl. by apply valid_letter_member. }
  pose proof (co_values Hok) as Hvals. rewrite Forall_forall in Hvals.
  assert (Forall (fun l => mode_to_prefix l <> 0 /\ mode_to_sjoin_prefix l <> 0) s) as Hnz.
  { eapply Forall_impl; [exact Hm|]. intros l (cm & Hcm & <-).
    destruct (member_translations Hok cm Hcm) as (-> & _ & -> & _).
    destruct (Hvals cm Hcm) as (_ & ? & Hz & _). set_solver. }
  rewrite !map_letters_all by (done || (eapply Forall_impl; [exact Hnz|]; simpl; tauto)).
  rewrite !map_map. clear Hlen Hv Hnz.
  split_and!; induction Hm as [|l s (cm & Hcm & <-) _ IH]; try done; simpl; rewrite IH;
    destruct (member_translations Hok cm Hcm) as (H1 & H2 & H3 & H4 & H5 & H6 & H7 & H8); congruence.
Qed.

(** A message or a mode restricted to members "with at least these modes" is
    delivered by testing against the string of
    [channel_member_modes_generate_equal_or_greater]: the test succeeds exactly
    for a member who has a mode whose rank is at least that of some mode asked
    for, provided the buffer has room for all member modes. *)
Theorem equal_or_greater_correct (modes cur : cstring) (buflen : nat) (Hok : cmodes_ok)
  (Hne : modes <> []) (Hv : Forall (fun l => valid_channel_access_mode_letter l = true) modes)
  (Hb : (length member_modes < buflen)%nat) (Hcur : mode_string cur) :
  check_channel_access_string cur (channel_member_modes_generate_equal_or_greater modes buflen) = true <->
  exists c m, c ∈ cur /\ m ∈ modes /\ mode_to_rank m <= mode_to_rank c.
Proof.
  rewrite access_string_spec. destruct Hcur as (Hc & _). rewrite Forall_forall in Hc. split.
  - intros (l & Hl & (_ & m & Hm & Hr)%equal_or_greater_elem); eauto.
  - intros (c & m & Hl & Hm & Hr). exists c. split; [done|]. apply equal_or_greater_elem; eauto 6.
Qed.

End cmodes.

(** The member modes of the shipped modules, and one other mode. *)
Definition shipped_modes : list Cmode :=
  [MkCmode 97 CMODE_MEMBER 3000 38 126 1 true; MkCmode 104 CMODE_MEMBER 1000 37 37 1 true;
   MkCmode 109 CMODE_NORMAL 0 0 0 0 false; MkCmode 111 CMODE_MEMBER 2000 64 64 1 true;
   MkCmode 113 CMODE_MEMBER 4000 126 42 1 true; MkCmode 118 CMODE_MEMBER (-1) 43 43 1 true].

Lemma shipped_modes_ok : cmodes_ok shipped_modes.
Proof.
  split; try (apply (bool_decide_unpack _); vm_compute; exact I).
Qed.

Lemma mode_string_qo : mode_string shipped_modes (str "qo").
Proof.
  split_and!; [repeat constructor| |cbn; lia].
  repeat constructor; vm_compute; discriminate.
Qed.

Lemma member_modes_maintained_witness :
  mode_string shipped_modes (str "qo") /\
  addlettertomstring shipped_modes (str "qo") 97 = str "qao" /\
  mode_string shipped_modes (addlettertomstring shipped_modes (str "qo") 97).
Proof.
  split_and!; [exact mode_string_qo|vm_compute; reflexivity|].
  apply (member_modes_maintained shipped_modes (str "qo") 97), mode_string_qo.
Defined.

Lemma prefixes_roundtrip_witness :
  modes_to_prefix shipped_modes (str "qo") = str "~@" /\
  map (prefix_to_mode shipped_modes) (modes_to_prefix shipped_modes (str "qo")) = str "qo".
Proof.
  split; [vm_compute; reflexivity|].
  apply (prefixes_roundtrip shipped_modes (str "qo")); [exact shipped_modes_ok|exact mode_string_qo].
Defined.

Lemma equal_or_greater_correct_witness :
  channel_member_modes_generate_equal_or_greater shipped_modes (str "o") 8 = str "aoq" /\
  (check_channel_access_string (str "qo")
     (channel_member_modes_generate_equal_or_greater shipped_modes (str "o") 8) = true <->
   exists c m, c ∈ str "qo" /\ m ∈ str "o" /\ mode_to_rank shipped_modes m <= mode_to_rank shipped_modes c).
Proof.
  split; [vm_compute; reflexivity|]. apply (equal_or_greater_correct shipped_modes);
    [exact shipped_modes_ok|done|repeat constructor|vm_compute; lia|exact mode_string_qo].
Defined.
