(* ===== verification/Channel.v ===== *)
(** * Channels and their members (src/channel.c)

    A user on a channel is represented twice: by a [Member] in
    [channel->members] and by a [Membership] in [user->channel], which point to
    each other and both hold the user's modes on the channel; a local user has a
    third node in [channel->local_members].  The operations on these structures
    are modelled on a store of nodes (the lists themselves are the linked lists of
    [Lists]).  The theorem is the comment in include/struct.h, that both "must be
    kept synchronized 100% at all times", made precise: the structures always
    represent one map from (channel, user) to access rights, the counters agree
    with the lists, and a channel exists exactly as long as it has to. *)
From S2P Require Import Prelude Chars Strings Client Hash ChanMode.

(** ** The structures *)

Abbreviation ptr := positive (only parsing).

Record Member := MkMember {
  m_client : cid;
  m_modes : cstring;
  m_invisible : bool;                 (** [memb_flags & MEMB_FLAG_INVISIBLE] *)
  m_related : ptr;
  m_local : option ptr
}.

Record Membership := MkMembership {
  mb_channel : ptr;
  mb_modes : cstring;
  mb_invisible : bool;
  mb_related : ptr
}.

Record Channel := MkChannel {
  ch_name : cstring;
  ch_creationtime : Z;
  ch_users : Z;
  ch_members : list ptr;
  ch_local : list ptr                 (** [local_members] *)
}.

Record cstate := CState {
  chans : gmap ptr Channel;
  chan_list : list ptr;               (** [channels], in the order of [nextch] *)
  members : gmap ptr Member;
  lmembers : gmap ptr ptr;            (** a [LocalMember] is its [ptr] field *)
  memberships : gmap ptr Membership;
  uchannel : gmap cid (list ptr);     (** [user->channel] *)
  ujoined : gmap cid Z;               (** [user->joined] *)
  nchannels : Z;                      (** [irccounts.channels] *)
  ctabs : tables
}.

Definition uch (s : cstate) (u : cid) : list ptr := default [] (uchannel s !! u).
Definition joined (s : cstate) (u : cid) : Z := default 0 (ujoined s !! u).

(** [find_membership_link], and [find_member_link]. *)
Definition find_membership_link (s : cstate) (l : list ptr) (ch : ptr) : option ptr :=
  List.find (fun mb => match memberships s !! mb with
                       | Some b => bool_decide (mb_channel b = ch) | None => false end) l.

Definition find_member_link (s : cstate) (l : list ptr) (u : cid) : option ptr :=
  List.find (fun m => match members s !! m with
                      | Some b => bool_decide (m_client b = u) | None => false end) l.

Section channels.
Context (channelmodes : list Cmode) (siphashkey_chan : list Z).
(** Facts about clients: [MyConnect], [IsUser], and whether [client->user] is set. *)
Context (is_local is_user has_user : cid -> bool).

Definition chan_names (s : cstate) : gmap ptr cstring := ch_name <$> chans s.

(** The cut of [make_channel] at the first character that is not allowed. *)
Definition bad_chan_char (c : Z) : bool := (c <? 33) || (c =? 44) || (c =? 58).

Definition clean_name (name : cstring) : cstring :=
  (span (fun c => negb (bad_chan_char c)) (take CHANNELLEN name)).1.

Definition make_channel (TStime : Z) (s : cstate) (name : cstring) : option ptr * cstate :=
  match name with
  | [] => (None, s)
  | _ =>
      let namebuf := clean_name name in
      match find_channel siphashkey_chan (chan_names s) (ctabs s) namebuf with
      | Some ch => (Some ch, s)
      | None =>
          let ch := fresh (dom (chans s)) in
          (Some ch,
           CState (<[ch := MkChannel namebuf TStime 0 [] []]> (chans s)) (ch :: chan_list s)
             (members s) (lmembers s) (memberships s) (uchannel s) (ujoined s) (nchannels s + 1)
             (add_to_channel_hash_table siphashkey_chan (ctabs s) namebuf ch))
      end
  end.

Definition add_member_mode_fast (s : cstate) (m mb : ptr) (l : Z) : option cstate :=
  M ← members s !! m;
  MB ← memberships s !! mb;
  Some (CState (chans s) (chan_list s)
    (<[m := MkMember (m_client M) (addlettertomstring channelmodes (m_modes M) l) (m_invisible M)
              (m_related M) (m_local M)]> (members s))
    (lmembers s)
    (<[mb := MkMembership (mb_channel MB) (addlettertomstring channelmodes (mb_modes MB) l)
               (mb_invisible MB) (mb_related MB)]> (memberships s))
    (uchannel s) (ujoined s) (nchannels s) (ctabs s)).

Definition del_member_mode_fast (s : cstate) (m mb : ptr) (l : Z) : option cstate :=
  M ← members s !! m;
  MB ← memberships s !! mb;
  Some (CState (chans s) (chan_list s)
    (<[m := MkMember (m_client M) (delletterfromstring (m_modes M) l) (m_invisible M)
              (m_related M) (m_local M)]> (members s))
    (lmembers s)
    (<[mb := MkMembership (mb_channel MB) (delletterfromstring (mb_modes MB) l)
               (mb_invisible MB) (mb_related MB)]> (memberships s))
    (uchannel s) (ujoined s) (nchannels s) (ctabs s)).

(** [for (p = modes; *p; p++) add_member_mode_fast(m, mb, *p);] *)
Fixpoint add_modes (s : cstate) (m mb : ptr) (modes : cstring) : option cstate :=
  match modes with
  | [] => Some s
  | l :: modes => s1 ← add_member_mode_fast s m mb l; add_modes s1 m mb modes
  end.

Definition add_user_to_channel (s : cstate) (ch : ptr) (u : cid) (modes : cstring) : option cstate :=
  if negb (has_user u) then Some s
  else
    c ← chans s !! ch;
    let m := fresh (dom (members s)) in
    let lm := fresh (dom (lmembers s)) in
    let mb := fresh (dom (memberships s)) in
    let lmo := if is_local u then Some lm else None in
    let c' := MkChannel (ch_name c) (ch_creationtime c) (ch_users c + 1) (m :: ch_members c)
                (if is_local u then lm :: ch_local c else ch_local c) in
    let s1 := CState (<[ch := c']> (chans s)) (chan_list s)
                (<[m := MkMember u [] false mb lmo]> (members s))
                (if is_local u then <[lm := m]> (lmembers s) else lmembers s)
                (<[mb := MkMembership ch [] false m]> (memberships s))
                (<[u := mb :: uch s u]> (uchannel s)) (<[u := joined s u + 1]> (ujoined s))
                (nchannels s) (ctabs s) in
    add_modes s1 m mb modes.

(** [channel->users = n] *)
Definition set_users (s : cstate) (ch : ptr) (c : Channel) (n : Z) : cstate :=
  CState (<[ch := MkChannel (ch_name c) (ch_creationtime c) n (ch_members c) (ch_local c)]> (chans s))
    (chan_list s) (members s) (lmembers s) (memberships s) (uchannel s) (ujoined s) (nchannels s)
    (ctabs s).

(** [should_destroy] is what the CHANNEL_DESTROY hook leaves in that variable; it
    is run only when the channel is empty.  The second result says whether the
    channel was freed. *)
Definition sub1_from_channel (s : cstate) (ch : ptr) (should_destroy : bool) : option (cstate * bool) :=
  c ← chans s !! ch;
  if 0 <? ch_users c - 1 then Some (set_users s ch c (ch_users c - 1), false)
  else if negb should_destroy then Some (set_users s ch c 0, false)
  else
    Some (CState (delete ch (chans s)) (filter (fun x => x <> ch) (chan_list s)) (members s) (lmembers s)
            (memberships s) (uchannel s) (ujoined s) (nchannels s - 1)
            (del_from_channel_hash_table siphashkey_chan (ctabs s) (ch_name c) ch), true).

Definition remove_user_from_channel_withmb (s : cstate) (u : cid) (ch mb : ptr)
    (should_destroy : bool) : option (cstate * bool) :=
  MB ← memberships s !! mb;
  let m := mb_related MB in
  M ← members s !! m;
  c ← chans s !! ch;
  let '(lms, chl) := match m_local M with
                     | Some lm => (delete lm (lmembers s), filter (fun x => x <> lm) (ch_local c))
                     | None => (lmembers s, ch_local c)
                     end in
  let c' := MkChannel (ch_name c) (ch_creationtime c) (ch_users c)
              (filter (fun x => x <> m) (ch_members c)) chl in
  let s1 := CState (<[ch := c']> (chans s)) (chan_list s) (delete m (members s)) lms
              (delete mb (memberships s)) (<[u := filter (fun x => x <> mb) (uch s u)]> (uchannel s))
              (<[u := joined s u - 1]> (ujoined s)) (nchannels s) (ctabs s) in
  sub1_from_channel s1 ch should_destroy.

Definition remove_user_from_channel (s : cstate) (u : cid) (ch : ptr) (should_destroy : bool)
  : option (cstate * bool) :=
  match find_membership_link s (uch s u) ch with
  | Some mb => remove_user_from_channel_withmb s u ch mb should_destroy
  | None => Some (s, false)
  end.

Definition find_mbs (s : cstate) (u : cid) (ch : ptr) : option (option (ptr * ptr)) :=
  match find_membership_link s (uch s u) ch with
  | None => Some None
  | Some mb => MB ← memberships s !! mb; Some (Some (mb_related MB, mb))
  end.

Definition add_member_mode (s : cstate) (u : cid) (ch : ptr) (l : Z) : option cstate :=
  r ← find_mbs s u ch;
  match r with None => Some s | Some (m, mb) => add_member_mode_fast s m mb l end.

Definition del_member_mode (s : cstate) (u : cid) (ch : ptr) (l : Z) : option cstate :=
  r ← find_mbs s u ch;
  match r with None => Some s | Some (m, mb) => del_member_mode_fast s m mb l end.

Definition set_user_invisible (s : cstate) (u : cid) (ch : ptr) (invisible : bool) : option cstate :=
  if negb (is_user u) then Some s
  else
    r ← find_mbs s u ch;
    match r with
    | None => Some s
    | Some (m, mb) =>
        MB ← memberships s !! mb;
        M ← members s !! m;
        Some (CState (chans s) (chan_list s)
          (<[m := MkMember (m_client M) (m_modes M) invisible (m_related M) (m_local M)]> (members s))
          (lmembers s)
          (<[mb := MkMembership (mb_channel MB) (mb_modes MB) invisible (mb_related MB)]> (memberships s))
          (uchannel s) (ujoined s) (nchannels s) (ctabs s))
    end.

(** *** Queries *)

(** The membership entry of [u] on [ch], dereferenced. *)
Definition membership_of (s : cstate) (u : cid) (ch : ptr) : option Membership :=
  mb ← find_membership_link s (uch s u) ch; memberships s !! mb.

Definition IsMember (s : cstate) (u : cid) (ch : ptr) : bool :=
  has_user u && match find_membership_link s (uch s u) ch with Some _ => true | None => false end.

Definition get_channel_access (s : cstate) (u : cid) (ch : ptr) : cstring :=
  match membership_of s u ch with Some MB => mb_modes MB | None => [] end.

Definition check_channel_access (s : cstate) (u : cid) (ch : ptr) (modes : cstring) : bool :=
  if negb (is_user u) then false
  else match membership_of s u ch with
       | Some MB => check_channel_access_string (mb_modes MB) modes | None => false end.

Definition invisible_user_in_channel (s : cstate) (u : cid) (ch : ptr) : bool :=
  match membership_of s u ch with Some MB => mb_invisible MB | None => false end.

Definition channel_has_invisible_users (s : cstate) (ch : ptr) : bool :=
  match chans s !! ch with
  | Some c => existsb (fun m => match members s !! m with Some M => m_invisible M | None => false end)
                (ch_members c)
  | None => false
  end.

Definition user_can_see_membership_fast (u target : cid) (target_member : Membership)
    (user_member_modes : option cstring) : bool :=
  if decide (u = target) then true
  else negb (mb_invisible target_member &&
             negb (check_channel_access_string (mb_modes target_member) (str "vhoaq")) &&
             negb (match user_member_modes with
                   | Some modes => check_channel_access_string modes (str "hoaq")
                   | None => false end)).

(** [user_can_see_member]: may [u] see [target] on the channel? *)
Definition user_can_see_member (s : cstate) (u target : cid) (ch : ptr) : bool :=
  if decide (u = target) then true
  else
    let user_member := if is_user u then membership_of s u ch else None in
    let target_member := if is_user target then membership_of s target ch else None in
    match target_member with
    | None => false
    | Some MB => user_can_see_membership_fast u target MB (mb_modes <$> user_member)
    end.

Definition has_common_channels (s : cstate) (u1 u2 : cid) : bool :=
  existsb (fun mb => match memberships s !! mb with
                     | Some MB => IsMember s u2 (mb_channel MB) && user_can_see_member s u1 u2 (mb_channel MB)
                     | None => false end) (uch s u1).

(** ** Lists of nodes as sets

    [lists l P]: the list holds the nodes that satisfy [P], each once. *)
Definition lists (l : list ptr) (P : ptr -> Prop) : Prop := NoDup l /\ forall x, x ∈ l <-> P x.

Lemma lists_cons l (P P' : ptr -> Prop) x :
  lists l P -> ~ P x -> (forall y, P' y <-> y = x \/ P y) -> lists (x :: l) P'.
Proof.
  intros [Hnd Hl] Hx HP. split.
  - constructor; [by rewrite Hl|done].
  - intros y. by rewrite elem_of_cons, HP, Hl.
Qed.

Lemma lists_remove l (P P' : ptr -> Prop) x :
  lists l P -> (forall y, P' y <-> y <> x /\ P y) -> lists (filter (fun y => y <> x) l) P'.
Proof.
  intros [Hnd Hl] HP. split; [by apply NoDup_filter|]. intros y. by rewrite list_elem_of_filter, HP, Hl.
Qed.

Lemma lists_iff l (P P' : ptr -> Prop) : lists l P -> (forall y, P' y <-> P y) -> lists l P'.
Proof. intros [Hnd Hl] HP. split; [done|]. intros y. by rewrite HP. Qed.

Lemma remove_absent (l : list ptr) x : x ∉ l -> filter (fun y => y <> x) l = l.
Proof.
  induction l as [|y l IH]; intros Hx; [done|]. rewrite filter_cons_True by set_solver.
  f_equal. apply IH. set_solver.
Qed.

Lemma length_remove (l : list ptr) x :
  NoDup l -> x ∈ l -> Z.of_nat (length (filter (fun y => y <> x) l)) = Z.of_nat (length l) - 1.
Proof.
  induction 1 as [|y l Hy Hnd IH]; intros Hx; [set_solver|]. destruct (decide (y = x)) as [->|Hne].
  - rewrite filter_cons_False by tauto. rewrite remove_absent by done. simpl. lia.
  - rewrite filter_cons_True by done. simpl. rewrite !Nat2Z.inj_succ, IH by set_solver. lia.
Qed.

(** ** The directory of channels *)

Record dir_inv (names : gmap ptr cstring) (l : list ptr) (n : Z) (t : tables) : Prop := {
  d_list : lists l (fun x => is_Some (names !! x));
  d_count : n = Z.of_nat (length l);
  d_bucket h : lists (bucket (channelTable t) h)
                 (fun x => exists nm, names !! x = Some nm /\ hash_channel_name siphashkey_chan nm = h);
  d_cstr x nm : names !! x = Some nm -> cstr nm;
  d_inj x y a b : names !! x = Some a -> names !! y = Some b -> same_name a b -> x = y
}.

Lemma dir_find names l n t nm x :
  dir_inv names l n t -> cstr nm ->
  find_channel siphashkey_chan names t nm = Some x <->
  exists a, names !! x = Some a /\ same_name nm a.
Proof.
  intros D Hnm. unfold find_channel. set (p := fun ch => _).
  assert (forall y, p y = true <-> exists a, names !! y = Some a /\ same_name nm a) as Hp.
  { intros y. unfold p. destruct (names !! y) as [a|] eqn:E; [|naive_solver].
    rewrite Z.eqb_eq, smycmp_zero by (done || by eapply d_cstr). naive_solver. }
  split.
  - intros [_ H]%find_some. by apply Hp.
  - intros (a & Ha & Hs). destruct (List.find p _) as [y|] eqn:E.
    + apply find_some in E as [_ (b & Hb & Hsb)%Hp]. f_equal. eapply d_inj; eauto. by rewrite <- Hsb.
    + exfalso. assert (x ∈ bucket (channelTable t) (hash_channel_name siphashkey_chan nm)) as Hin.
      { apply (d_bucket _ _ _ _ D). exists a. split; [done|]. symmetry.
        by apply (name_hash_same siphashkey_chan). }
      apply list_elem_of_In in Hin. pose proof (find_none _ _ E x Hin) as Hf.
      rewrite (proj2 (Hp x)) in Hf; [done|eauto].
Qed.

Lemma dir_find_none names l n t nm :
  dir_inv names l n t -> cstr nm ->
  find_channel siphashkey_chan names t nm = None ->
  forall x a, names !! x = Some a -> ~ same_name nm a.
Proof.
  intros D Hnm Hf x a Ha Hs. rewrite (proj2 (dir_find _ _ _ _ nm x D Hnm)) in Hf; eauto. done.
Qed.

Lemma dir_add names l n t x nm :
  dir_inv names l n t -> cstr nm -> names !! x = None ->
  (forall y a, names !! y = Some a -> ~ same_name nm a) ->
  dir_inv (<[x := nm]> names) (x :: l) (n + 1) (add_to_channel_hash_table siphashkey_chan t nm x).
Proof.
  intros [D1 D2 D3 D4 D5] Hnm Hx Hnew. split.
  - eapply lists_cons; [exact D1|intros [? ?]; congruence|].
    intros y. rewrite lookup_insert_is_Some. destruct (decide (x = y)); naive_solver.
  - simpl. lia.
  - intros h. unfold add_to_channel_hash_table. simpl. unfold bucket_add, bucket.
    destruct (decide (h = hash_channel_name siphashkey_chan nm)) as [->|Hne].
    + rewrite lookup_insert_eq. eapply lists_cons; [apply D3|naive_solver|].
      intros y. destruct (decide (x = y)) as [->|]; [rewrite lookup_insert_eq|rewrite lookup_insert_ne by done];
        naive_solver.
    + rewrite lookup_insert_ne by done. eapply lists_iff; [apply D3|]. simpl.
      intros y. destruct (decide (x = y)) as [->|]; [rewrite lookup_insert_eq|rewrite lookup_insert_ne by done];
        naive_solver.
  - intros y a [[_ <-]|[_ ?]]%lookup_insert_Some; eauto.
  - intros y z a b [[<- <-]|[? Ha]]%lookup_insert_Some [[<- <-]|[? Hb]]%lookup_insert_Some Hs; eauto.
    + by destruct (Hnew z b).
    + by destruct (Hnew y a).
Qed.

Lemma unchain_filter x (l : list ptr) : NoDup l -> unchain x l = filter (fun y => y <> x) l.
Proof.
  induction 1 as [|y l Hy Hnd IH]; [done|]. simpl. destruct (decide (y = x)) as [->|].
  - rewrite filter_cons_False by tauto. by rewrite remove_absent.
  - rewrite filter_cons_True by done. by f_equal.
Qed.

Lemma dir_del names l n t x nm :
  dir_inv names l n t -> names !! x = Some nm ->
  dir_inv (delete x names) (filter (fun y => y <> x) l) (n - 1)
    (del_from_channel_hash_table siphashkey_chan t nm x).
Proof.
  intros [D1 D2 D3 D4 D5] Hx. split.
  - eapply lists_remove; [exact D1|]. intros y. rewrite lookup_delete_is_Some. naive_solver.
  - rewrite length_remove; [lia|apply D1|]. apply D1. eauto.
  - intros h. unfold del_from_channel_hash_table, bucket. simpl.
    destruct (decide (h = hash_channel_name siphashkey_chan nm)) as [->|Hne].
    + rewrite lookup_insert_eq. simpl. rewrite unchain_filter by apply D3.
      eapply lists_remove; [apply D3|]. intros y.
      destruct (decide (x = y)) as [->|]; [rewrite lookup_delete_eq|rewrite lookup_delete_ne by done];
        naive_solver.
    + rewrite lookup_insert_ne by done. eapply lists_iff; [apply D3|]. simpl. intros y.
      destruct (decide (x = y)) as [->|]; [rewrite lookup_delete_eq|rewrite lookup_delete_ne by done];
        naive_solver.
  - intros y a [_ ?]%lookup_delete_Some. eauto.
  - intros y z a b [_ ?]%lookup_delete_Some [_ ?]%lookup_delete_Some. eauto.
Qed.

(** ** The representation of memberships

    A node of the ghost map names the structures that represent one user on one
    channel and the access rights they hold. *)
Record node := Node {
  n_m : ptr;
  n_mb : ptr;
  n_lm : option ptr;
  n_modes : cstring;
  n_inv : bool
}.

Abbreviation ghost := (gmap (ptr * cid) node).

Definition on_chan {A} (G : gmap (ptr * cid) A) (ch : ptr) : gmap (ptr * cid) A :=
  filter (fun kv => kv.1.1 = ch) G.
Definition of_user {A} (G : gmap (ptr * cid) A) (u : cid) : gmap (ptr * cid) A :=
  filter (fun kv => kv.1.2 = u) G.

Definition share (n n' : node) : Prop :=
  n_m n = n_m n' \/ n_mb n = n_mb n' \/ (is_Some (n_lm n) /\ n_lm n = n_lm n').

Definition chan_ok (G : ghost) (ch : ptr) (c : Channel) : Prop :=
  lists (ch_members c) (fun m => exists u n, G !! (ch, u) = Some n /\ n_m n = m) /\
  lists (ch_local c) (fun lm => exists u n, G !! (ch, u) = Some n /\ n_lm n = Some lm) /\
  Z.of_nat (length (ch_members c)) = Z.of_nat (size (on_chan G ch)).

Definition user_ok (G : ghost) (u : cid) (l : list ptr) (j : Z) : Prop :=
  lists l (fun mb => exists ch n, G !! (ch, u) = Some n /\ n_mb n = mb) /\
  j = Z.of_nat (length l) /\ j = Z.of_nat (size (of_user G u)).

Record nodes_ok (s : cstate) (G : ghost) : Prop := {
  i_share k k' n n' : G !! k = Some n -> G !! k' = Some n' -> share n n' -> k = k';
  i_m ch u n : G !! (ch, u) = Some n ->
    members s !! n_m n = Some (MkMember u (n_modes n) (n_inv n) (n_mb n) (n_lm n));
  i_mb ch u n : G !! (ch, u) = Some n ->
    memberships s !! n_mb n = Some (MkMembership ch (n_modes n) (n_inv n) (n_m n));
  i_lm k n lm : G !! k = Some n -> n_lm n = Some lm -> lmembers s !! lm = Some (n_m n);
  i_m_used m : is_Some (members s !! m) -> exists k n, G !! k = Some n /\ n_m n = m;
  i_mb_used mb : is_Some (memberships s !! mb) -> exists k n, G !! k = Some n /\ n_mb n = mb;
  i_lm_used lm : is_Some (lmembers s !! lm) -> exists k n, G !! k = Some n /\ n_lm n = Some lm;
  i_key ch u n : G !! (ch, u) = Some n ->
    is_Some (chans s !! ch) /\ has_user u = true /\ (is_Some (n_lm n) <-> is_local u = true);
  i_user u : user_ok G u (uch s u) (joined s u)
}.

(** [spare ch] is the channel whose user counter is one too high between the removal
    of a member and [sub1_from_channel]. *)
Definition counts_ok (s : cstate) (G : ghost) (spare : option ptr) : Prop :=
  forall ch c, chans s !! ch = Some c ->
    chan_ok G ch c /\
    ch_users c = Z.of_nat (length (ch_members c)) + (if decide (spare = Some ch) then 1 else 0).

(** The links of a user found in its list are those of the ghost map. *)
Lemma find_membership_ghost s G u ch :
  nodes_ok s G -> find_membership_link s (uch s u) ch = n_mb <$> G !! (ch, u).
Proof.
  intros N. destruct (i_user _ _ N u) as ([_ Hl] & _). unfold find_membership_link.
  set (p := fun mb => _).
  assert (forall mb, mb ∈ uch s u -> p mb = true <-> exists n, G !! (ch, u) = Some n /\ n_mb n = mb) as Hp.
  { intros mb (ch' & n & Hn & <-)%Hl. unfold p. rewrite (i_mb _ _ N _ _ _ Hn). simpl.
    rewrite bool_decide_eq_true. split; [intros ->; eauto|]. intros (n' & Hn' & Hmb).
    assert ((ch, u) = (ch', u)) as [= ->]; [|done]. eapply i_share; [done..|]. right. by left. }
  destruct (G !! (ch, u)) as [n|] eqn:E; simpl.
  - assert (n_mb n ∈ uch s u) as Hin by (apply Hl; eauto).
    destruct (List.find p (uch s u)) as [mb|] eqn:Ef.
    + apply find_some in Ef as [Hi Ht]. apply list_elem_of_In in Hi.
      apply Hp in Ht as (n' & Hn' & <-); [|done]. congruence.
    + pose proof (find_none _ _ Ef (n_mb n) (proj1 (list_elem_of_In _ _) Hin)) as Hf.
      rewrite (proj2 (Hp _ Hin)) in Hf; [done|eauto].
  - destruct (List.find p (uch s u)) as [mb|] eqn:Ef; [|done].
    apply find_some in Ef as [Hi Ht]. apply list_elem_of_In in Hi.
    by apply Hp in Ht as (n' & Hn' & _).
Qed.

Lemma find_mbs_ghost s G u ch :
  nodes_ok s G -> find_mbs s u ch = Some ((fun n => (n_m n, n_mb n)) <$> G !! (ch, u)).
Proof.
  intros N. unfold find_mbs. rewrite (find_membership_ghost _ _ _ _ N).
  destruct (G !! (ch, u)) as [n|] eqn:E; simpl; [|done]. by rewrite (i_mb _ _ N _ _ _ E).
Qed.

Lemma membership_ghost s G u ch :
  nodes_ok s G ->
  membership_of s u ch = (fun n => MkMembership ch (n_modes n) (n_inv n) (n_m n)) <$> G !! (ch, u).
Proof.
  intros N. unfold membership_of. rewrite (find_membership_ghost _ _ _ _ N).
  destruct (G !! (ch, u)) as [n|] eqn:E; simpl; [|done]. by rewrite (i_mb _ _ N _ _ _ E).
Qed.

(** *** Changing the rights of a member *)

Definition set_node (s : cstate) (ch : ptr) (u : cid) (n : node) : cstate :=
  CState (chans s) (chan_list s)
    (<[n_m n := MkMember u (n_modes n) (n_inv n) (n_mb n) (n_lm n)]> (members s)) (lmembers s)
    (<[n_mb n := MkMembership ch (n_modes n) (n_inv n) (n_m n)]> (memberships s))
    (uchannel s) (ujoined s) (nchannels s) (ctabs s).

Definition same_place (n n' : node) : Prop :=
  n_m n' = n_m n /\ n_mb n' = n_mb n /\ n_lm n' = n_lm n.

Lemma upd_ex {B} (f : node -> B) (G : ghost) k n n' k1 x :
  G !! k = Some n -> f n' = f n ->
  (exists n1, <[k := n']> G !! k1 = Some n1 /\ f n1 = x) <-> (exists n1, G !! k1 = Some n1 /\ f n1 = x).
Proof.
  intros Hk Hf. destruct (decide (k = k1)) as [->|].
  - rewrite lookup_insert_eq, Hk. naive_solver congruence.
  - by rewrite lookup_insert_ne.
Qed.

Lemma on_chan_fmap {A B} (f : A -> B) (G : gmap (ptr * cid) A) ch : on_chan (f <$> G) ch = f <$> on_chan G ch.
Proof. unfold on_chan. rewrite map_filter_fmap. by f_equal. Qed.

Lemma of_user_fmap {A B} (f : A -> B) (G : gmap (ptr * cid) A) u : of_user (f <$> G) u = f <$> of_user G u.
Proof. unfold of_user. rewrite map_filter_fmap. by f_equal. Qed.

Lemma unit_upd (G : ghost) k n n' :
  G !! k = Some n -> (fun _ => tt) <$> <[k := n']> G = (fun _ => tt) <$> G.
Proof.
  intros Hk. rewrite fmap_insert. apply insert_id. by rewrite lookup_fmap, Hk.
Qed.

Lemma sizes_upd (G : ghost) k n n' ch u :
  G !! k = Some n ->
  size (on_chan (<[k := n']> G) ch) = size (on_chan G ch) /\
  size (of_user (<[k := n']> G) u) = size (of_user G u).
Proof.
  intros Hk. rewrite <- (map_size_fmap (fun _ => tt) (on_chan (<[k := n']> G) ch)),
    <- (map_size_fmap (fun _ => tt) (of_user (<[k := n']> G) u)).
  by rewrite <- on_chan_fmap, <- of_user_fmap, !(unit_upd _ _ _ n' Hk), on_chan_fmap, of_user_fmap,
    !map_size_fmap.
Qed.

Lemma share_place n n' n1 : same_place n n' -> share n' n1 <-> share n n1.
Proof. intros (H1 & H2 & H3). unfold share. by rewrite H1, H2, H3. Qed.

Lemma share_sym n n' : share n n' -> share n' n.
Proof. unfold share. intros [H|[H|[H1 H2]]]; rewrite ?H; auto. right. right. by rewrite <- H2. Qed.

Lemma upd_share (G : ghost) k n n' k1 k2 n1 n2 :
  G !! k = Some n -> same_place n n' ->
  (forall k k' n n', G !! k = Some n -> G !! k' = Some n' -> share n n' -> k = k') ->
  <[k := n']> G !! k1 = Some n1 -> <[k := n']> G !! k2 = Some n2 -> share n1 n2 -> k1 = k2.
Proof.
  intros Hk Hp Hs [[<- <-]|[? H1]]%lookup_insert_Some [[<- <-]|[? H2]]%lookup_insert_Some Hsh; eauto.
  - eapply Hs; eauto. by apply (share_place n n').
  - eapply Hs; eauto. apply share_sym, (share_place n n'), share_sym; done.
Qed.

Lemma set_node_ok s G sp ch u n n' :
  nodes_ok s G -> counts_ok s G sp -> G !! (ch, u) = Some n -> same_place n n' ->
  nodes_ok (set_node s ch u n') (<[(ch, u) := n']> G) /\
  counts_ok (set_node s ch u n') (<[(ch, u) := n']> G) sp.
Proof.
  intros N C Hn Hp. pose proof Hp as (P1 & P2 & P3). split; [split|].
  - intros *. eapply upd_share; [done..|]. intros *. apply (i_share _ _ N).
  - intros ch1 u1 n1 [[[= <- <-] <-]|[Hne H1]]%lookup_insert_Some; simpl; [by rewrite lookup_insert_eq|].
    rewrite lookup_insert_ne; [by eapply i_m|]. rewrite P1. intros Heq. apply Hne.
    eapply i_share; eauto. by left.
  - intros ch1 u1 n1 [[[= <- <-] <-]|[Hne H1]]%lookup_insert_Some; simpl; [by rewrite lookup_insert_eq|].
    rewrite lookup_insert_ne; [by eapply i_mb|]. rewrite P2. intros Heq. apply Hne.
    eapply i_share; eauto. right. by left.
  - intros k1 n1 lm [[<- <-]|[Hne H1]]%lookup_insert_Some; simpl.
    + rewrite P1, P3. by apply (i_lm _ _ N (ch, u)).
    + by apply (i_lm _ _ N k1).
  - intros m. simpl. rewrite lookup_insert_is_Some. intros H.
    assert (is_Some (members s !! m)) as (k & Hex)%(i_m_used _ _ N).
    { destruct H as [<-|[_ H]]; [rewrite P1, (i_m _ _ N _ _ _ Hn); eauto|done]. }
    exists k. by apply (upd_ex n_m _ _ n).
  - intros m. simpl. rewrite lookup_insert_is_Some. intros H.
    assert (is_Some (memberships s !! m)) as (k & Hex)%(i_mb_used _ _ N).
    { destruct H as [<-|[_ H]]; [rewrite P2, (i_mb _ _ N _ _ _ Hn); eauto|done]. }
    exists k. by apply (upd_ex n_mb _ _ n).
  - intros lm (k & Hex)%(i_lm_used _ _ N). exists k. by apply (upd_ex n_lm _ _ n).
  - intros ch1 u1 n1 [[[= <- <-] <-]|[Hne H1]]%lookup_insert_Some; simpl; [rewrite P3|]; by eapply i_key.
  - intros u1. destruct (i_user _ _ N u1) as (H1 & H2 & H3). split_and!; [|done|].
    + eapply lists_iff; [exact H1|]. intros mb.
      split; intros (ch1 & H); exists ch1; revert H; by apply (upd_ex n_mb _ _ n).
    + by rewrite (proj2 (sizes_upd _ _ _ n' ch u1 Hn)).
  - intros ch1 c Hc. destruct (C ch1 c Hc) as ((H1 & H2 & H3) & H4). split; [|done]. split_and!.
    + eapply lists_iff; [exact H1|]. intros m.
      split; intros (u1 & H); exists u1; revert H; by apply (upd_ex n_m _ _ n).
    + eapply lists_iff; [exact H2|]. intros m.
      split; intros (u1 & H); exists u1; revert H; by apply (upd_ex n_lm _ _ n).
    + by rewrite (proj1 (sizes_upd _ _ _ n' ch1 u Hn)).
Qed.

(** The operations on rights, in terms of the ghost map. *)
Definition set_modes (n : node) (modes : cstring) : node := Node (n_m n) (n_mb n) (n_lm n) modes (n_inv n).
Definition set_inv (n : node) (b : bool) : node := Node (n_m n) (n_mb n) (n_lm n) (n_modes n) b.

Lemma add_fast_ghost s G ch u n l :
  nodes_ok s G -> G !! (ch, u) = Some n ->
  add_member_mode_fast s (n_m n) (n_mb n) l =
  Some (set_node s ch u (set_modes n (addlettertomstring channelmodes (n_modes n) l))).
Proof.
  intros N Hn. unfold add_member_mode_fast. by rewrite (i_m _ _ N _ _ _ Hn), (i_mb _ _ N _ _ _ Hn).
Qed.

Lemma del_fast_ghost s G ch u n l :
  nodes_ok s G -> G !! (ch, u) = Some n ->
  del_member_mode_fast s (n_m n) (n_mb n) l =
  Some (set_node s ch u (set_modes n (delletterfromstring (n_modes n) l))).
Proof.
  intros N Hn. unfold del_member_mode_fast. by rewrite (i_m _ _ N _ _ _ Hn), (i_mb _ _ N _ _ _ Hn).
Qed.

(** *** A new member *)

Lemma sizes_insert (G : ghost) ch u n ch1 u1 :
  G !! (ch, u) = None ->
  Z.of_nat (size (on_chan (<[(ch, u) := n]> G) ch1)) =
    Z.of_nat (size (on_chan G ch1)) + (if decide (ch1 = ch) then 1 else 0) /\
  Z.of_nat (size (of_user (<[(ch, u) := n]> G) u1)) =
    Z.of_nat (size (of_user G u1)) + (if decide (u1 = u) then 1 else 0).
Proof.
  intros Hn. unfold on_chan, of_user. split; case_decide as Hd.
  - rewrite map_filter_insert_True, map_size_insert_None by (done || by apply map_lookup_filter_None; left). lia.
  - rewrite map_filter_insert_not; [lia|]. intros y ?. simpl in *. congruence.
  - rewrite map_filter_insert_True, map_size_insert_None by (done || by apply map_lookup_filter_None; left). lia.
  - rewrite map_filter_insert_not; [lia|]. intros y ?. simpl in *. congruence.
Qed.

Lemma sizes_delete (G : ghost) ch u n ch1 u1 :
  G !! (ch, u) = Some n ->
  Z.of_nat (size (on_chan (delete (ch, u) G) ch1)) =
    Z.of_nat (size (on_chan G ch1)) - (if decide (ch1 = ch) then 1 else 0) /\
  Z.of_nat (size (of_user (delete (ch, u) G) u1)) =
    Z.of_nat (size (of_user G u1)) - (if decide (u1 = u) then 1 else 0).
Proof.
  intros Hn. pose proof (sizes_insert (delete (ch, u) G) ch u n ch1 u1 (lookup_delete_eq _ _)) as [H1 H2].
  rewrite insert_delete_id in H1, H2 by done. lia.
Qed.

(** The predicates of the lists after an insertion of a new key. *)
Lemma ins_chan {B} (f : node -> B) (G : ghost) ch u n ch1 x :
  G !! (ch, u) = None ->
  (exists u1 n1, <[(ch, u) := n]> G !! (ch1, u1) = Some n1 /\ f n1 = x) <->
  (ch1 = ch /\ f n = x) \/ (exists u1 n1, G !! (ch1, u1) = Some n1 /\ f n1 = x).
Proof.
  intros Hn. split.
  - intros (u1 & n1 & [[[= -> ->] <-]|[? ?]]%lookup_insert_Some & Hf); eauto 6.
  - intros [[-> Hf]|(u1 & n1 & H & Hf)].
    + exists u, n. by rewrite lookup_insert_eq.
    + exists u1, n1. rewrite lookup_insert_ne by congruence. done.
Qed.

Lemma ins_user {B} (f : node -> B) (G : ghost) ch u n u1 x :
  G !! (ch, u) = None ->
  (exists ch1 n1, <[(ch, u) := n]> G !! (ch1, u1) = Some n1 /\ f n1 = x) <->
  (u1 = u /\ f n = x) \/ (exists ch1 n1, G !! (ch1, u1) = Some n1 /\ f n1 = x).
Proof.
  intros Hn. split.
  - intros (ch1 & n1 & [[[= -> ->] <-]|[? ?]]%lookup_insert_Some & Hf); eauto 6.
  - intros [[-> Hf]|(ch1 & n1 & H & Hf)].
    + exists ch, n. by rewrite lookup_insert_eq.
    + exists ch1, n1. rewrite lookup_insert_ne by congruence. done.
Qed.

Lemma fresh_lookup {A} (m : gmap ptr A) : m !! fresh (dom m) = None.
Proof. apply not_elem_of_dom, is_fresh. Qed.

(** The state after [add_user_to_channel] without modes. *)
Definition joined_state (s : cstate) (ch : ptr) (u : cid) (c : Channel) (m lm mb : ptr) : cstate :=
  CState (<[ch := MkChannel (ch_name c) (ch_creationtime c) (ch_users c + 1) (m :: ch_members c)
                    (if is_local u then lm :: ch_local c else ch_local c)]> (chans s)) (chan_list s)
    (<[m := MkMember u [] false mb (if is_local u then Some lm else None)]> (members s))
    (if is_local u then <[lm := m]> (lmembers s) else lmembers s)
    (<[mb := MkMembership ch [] false m]> (memberships s))
    (<[u := mb :: uch s u]> (uchannel s)) (<[u := joined s u + 1]> (ujoined s))
    (nchannels s) (ctabs s).

Section joining.
Context (s : cstate) (G : ghost) (ch : ptr) (u : cid) (c : Channel) (m lm mb : ptr).
Context (N : nodes_ok s G) (C : counts_ok s G None) (Hc : chans s !! ch = Some c)
        (Hu : has_user u = true) (Hnew : G !! (ch, u) = None)
        (Hm : members s !! m = None) (Hlm : lmembers s !! lm = None) (Hmb : memberships s !! mb = None).

Definition new_node : node := Node m mb (if is_local u then Some lm else None) [] false.

Lemma old_not_new k n : G !! k = Some n -> n_m n <> m /\ n_mb n <> mb /\ n_lm n <> Some lm.
Proof using All.
  intros Hn. destruct k as [ch1 u1]. split_and!.
  - intros <-. by rewrite (i_m _ _ N _ _ _ Hn) in Hm.
  - intros <-. by rewrite (i_mb _ _ N _ _ _ Hn) in Hmb.
  - intros H. by rewrite (i_lm _ _ N _ _ _ Hn H) in Hlm.
Qed.

Lemma old_no_share k n : G !! k = Some n -> ~ share new_node n.
Proof using All.
  intros (H1 & H2 & H3)%old_not_new [H|[H|[[x Hx] H]]]; simpl in *; [congruence..|].
  destruct (is_local u); congruence.
Qed.

Lemma join_nodes : nodes_ok (joined_state s ch u c m lm mb) (<[(ch, u) := new_node]> G).
Proof using All.
  split; simpl.
  - intros k1 k2 n1 n2 [[<- <-]|[? H1]]%lookup_insert_Some [[<- <-]|[? H2]]%lookup_insert_Some Hsh; auto.
    + by destruct (old_no_share _ _ H2).
    + destruct (old_no_share _ _ H1). by apply share_sym.
    + by eapply i_share.
  - intros ch1 u1 n1 [[[= <- <-] <-]|[Hne H1]]%lookup_insert_Some; [by rewrite lookup_insert_eq|].
    destruct (old_not_new _ _ H1) as (? & _). rewrite lookup_insert_ne by congruence. by eapply i_m.
  - intros ch1 u1 n1 [[[= <- <-] <-]|[Hne H1]]%lookup_insert_Some; [by rewrite lookup_insert_eq|].
    destruct (old_not_new _ _ H1) as (_ & ? & _). rewrite lookup_insert_ne by congruence. by eapply i_mb.
  - intros k1 n1 x [[<- <-]|[Hne H1]]%lookup_insert_Some Hx; simpl in *.
    + destruct (is_local u); [|done]. injection Hx as <-. by rewrite lookup_insert_eq.
    + pose proof (i_lm _ _ N _ _ _ H1 Hx) as Hl. destruct (is_local u); [|done].
      rewrite lookup_insert_ne by congruence. done.
  - intros x [<-|[_ (k & n & Hn & Hx)%(i_m_used _ _ N)]]%lookup_insert_is_Some.
    + exists (ch, u), new_node. by rewrite lookup_insert_eq.
    + exists k, n. rewrite lookup_insert_ne by congruence. done.
  - intros x [<-|[_ (k & n & Hn & Hx)%(i_mb_used _ _ N)]]%lookup_insert_is_Some.
    + exists (ch, u), new_node. by rewrite lookup_insert_eq.
    + exists k, n. rewrite lookup_insert_ne by congruence. done.
  - intros x Hx. assert ((is_local u = true /\ x = lm) \/ is_Some (lmembers s !! x)) as
      [[Hl ->]|(k & n & Hn & Hk)%(i_lm_used _ _ N)].
    { destruct (is_local u); [|by right]. apply lookup_insert_is_Some in Hx. naive_solver. }
    + exists (ch, u), new_node. rewrite lookup_insert_eq. unfold new_node. by rewrite Hl.
    + exists k, n. rewrite lookup_insert_ne by congruence. done.
  - intros ch1 u1 n1 [[[= <- <-] <-]|[Hne H1]]%lookup_insert_Some; simpl; rewrite lookup_insert_is_Some'.
    + split_and!; [by left|done|]. destruct (is_local u); [naive_solver|]. split; [intros [? ?]|]; done.
    + destruct (i_key _ _ N _ _ _ H1) as (? & ? & ?). split_and!; [by right|done|done].
  - intros u1. destruct (i_user _ _ N u1) as (H1 & H2 & H3).
    unfold uch, joined in *. simpl. unfold uch, joined. destruct (sizes_insert G ch u new_node ch u1 Hnew) as [_ Hsz].
    destruct (decide (u = u1)) as [<-|Hne].
    + rewrite !lookup_insert_eq. rewrite decide_True in Hsz by done. simpl. split_and!; [|simpl; lia|lia].
      eapply lists_cons; [exact H1| |intros y; rewrite (ins_user n_mb) by done; simpl; naive_solver].
      intros (ch1 & n1 & Hn1 & He). by destruct (old_not_new _ _ Hn1) as (_ & ? & _).
    + rewrite !lookup_insert_ne by done. rewrite decide_False in Hsz by done. split_and!; [|done|lia].
      eapply lists_iff; [exact H1|]. intros y. rewrite (ins_user n_mb) by done. naive_solver.
Qed.

Lemma join_counts : counts_ok (joined_state s ch u c m lm mb) (<[(ch, u) := new_node]> G) None.
Proof using All.
  intros ch1 c1. simpl. rewrite lookup_insert_Some.
  destruct (sizes_insert G ch u new_node ch1 u Hnew) as [Hsz _]. intros [[<- <-]|[Hne Hc1]].
  - destruct (C _ _ Hc) as ((H1 & H2 & H3) & H4). rewrite decide_False in * by done.
    rewrite decide_True in Hsz by done. split; simpl; [split_and!|simpl; lia]; simpl.
    + eapply lists_cons; [exact H1| |intros y; rewrite (ins_chan n_m) by done; simpl; naive_solver].
      intros (u1 & n1 & Hn1 & He). by destruct (old_not_new _ _ Hn1) as (? & _).
    + pose proof (fun y => ins_chan n_lm G ch u new_node ch (Some y) Hnew) as Hi. simpl in Hi.
      destruct (is_local u).
      * eapply lists_cons; [exact H2| |intros y; rewrite Hi; naive_solver].
        intros (u1 & n1 & Hn1 & He). by destruct (old_not_new _ _ Hn1) as (_ & _ & ?).
      * eapply lists_iff; [exact H2|]. intros y. rewrite Hi. naive_solver.
    + simpl. lia.
  - destruct (C _ _ Hc1) as ((H1 & H2 & H3) & H4). rewrite decide_False in Hsz by done.
    split; [|done]. split_and!; [| |lia].
    + eapply lists_iff; [exact H1|]. intros y. rewrite (ins_chan n_m) by done. naive_solver.
    + eapply lists_iff; [exact H2|]. intros y. rewrite (ins_chan n_lm) by done. naive_solver.
Qed.

End joining.

(** Name and creation time of the channels. *)
Definition heads (s : cstate) : gmap ptr (cstring * Z) :=
  (fun c => (ch_name c, ch_creationtime c)) <$> chans s.

Definition same_dir (s s' : cstate) : Prop :=
  heads s' = heads s /\ chan_list s' = chan_list s /\ nchannels s' = nchannels s /\
  ctabs s' = ctabs s.

Lemma same_dir_trans s1 s2 s3 : same_dir s1 s2 -> same_dir s2 s3 -> same_dir s1 s3.
Proof. unfold same_dir. intros (?&?&?&?) (?&?&?&?). split_and!; congruence. Qed.

Lemma same_dir_chan (s s' : cstate) ch c c' :
  chans s !! ch = Some c -> chans s' = <[ch := c']> (chans s) ->
  ch_name c' = ch_name c -> ch_creationtime c' = ch_creationtime c ->
  chan_list s' = chan_list s -> nchannels s' = nchannels s -> ctabs s' = ctabs s -> same_dir s s'.
Proof.
  intros Hc Hs Hn Ht ???. unfold same_dir, heads. rewrite Hs, fmap_insert, Hn, Ht.
  split_and!; try done. apply insert_id. by rewrite lookup_fmap, Hc.
Qed.

Definition all_modes (s0 modes : cstring) : cstring :=
  fold_left (addlettertomstring channelmodes) modes s0.

Lemma set_node_id (G : ghost) k n : G !! k = Some n -> <[k := set_modes n (n_modes n)]> G = G.
Proof. intros Hn. apply insert_id. rewrite Hn. by destruct n. Qed.

Lemma add_modes_ghost modes : forall s G ch u n,
  nodes_ok s G -> counts_ok s G None -> G !! (ch, u) = Some n ->
  exists s', add_modes s (n_m n) (n_mb n) modes = Some s' /\ same_dir s s' /\
    let G' := <[(ch, u) := set_modes n (all_modes (n_modes n) modes)]> G in
    nodes_ok s' G' /\ counts_ok s' G' None.
Proof.
  induction modes as [|l modes IH]; intros s G ch u n N C Hn; cbn [add_modes].
  - exists s. simpl. rewrite set_node_id by done. done.
  - rewrite (add_fast_ghost _ _ _ _ _ _ N Hn). cbn [mbind option_bind].
    set (n1 := set_modes n (addlettertomstring channelmodes (n_modes n) l)).
    destruct (set_node_ok s G None ch u n n1 N C Hn) as [N1 C1]; [done|].
    destruct (IH _ _ ch u n1 N1 C1 (lookup_insert_eq _ _ _)) as (s' & Hs' & Hd & H').
    exists s'. split; [exact Hs'|]. split; [eapply same_dir_trans; [|exact Hd]; by repeat split|].
    by rewrite insert_insert_eq in H'.
Qed.

Lemma join_ghost s G ch u c modes :
  nodes_ok s G -> counts_ok s G None -> chans s !! ch = Some c -> has_user u = true ->
  G !! (ch, u) = None ->
  exists s' n, add_user_to_channel s ch u modes = Some s' /\ same_dir s s' /\
    n_modes n = all_modes [] modes /\ n_inv n = false /\
    nodes_ok s' (<[(ch, u) := n]> G) /\ counts_ok s' (<[(ch, u) := n]> G) None.
Proof.
  intros N C Hc Hu Hnew. unfold add_user_to_channel. rewrite Hu, Hc. cbn [negb mbind option_bind].
  set (m := fresh (dom (members s))). set (lm := fresh (dom (lmembers s))).
  set (mb := fresh (dom (memberships s))).
  pose proof (join_nodes s G ch u c m lm mb N C Hc Hu Hnew (fresh_lookup _) (fresh_lookup _) (fresh_lookup _)) as N1.
  pose proof (join_counts s G ch u c m lm mb N C Hc Hu Hnew (fresh_lookup _) (fresh_lookup _) (fresh_lookup _)) as C1.
  destruct (add_modes_ghost modes _ _ ch u _ N1 C1 (lookup_insert_eq _ _ _)) as (s' & Hs' & Hd & N' & C').
  rewrite insert_insert_eq in N', C'. exists s', (set_modes (new_node u m lm mb) (all_modes [] modes)). split; [exact Hs'|].
  split_and!; [eapply same_dir_trans; [|exact Hd]; by eapply same_dir_chan|done|done|exact N'|exact C'].
Qed.

(** *** A member leaves *)

Lemma del_chan {B} (f : node -> B) (G : ghost) ch u n ch1 x :
  G !! (ch, u) = Some n ->
  (forall u1 n1, G !! (ch1, u1) = Some n1 -> f n1 = x -> f n = x -> (ch1, u1) = (ch, u)) ->
  (exists u1 n1, delete (ch, u) G !! (ch1, u1) = Some n1 /\ f n1 = x) <->
  ~ (ch1 = ch /\ f n = x) /\ (exists u1 n1, G !! (ch1, u1) = Some n1 /\ f n1 = x).
Proof.
  intros Hn Hinj. split.
  - intros (u1 & n1 & [Hne H1]%lookup_delete_Some & Hf). split; [|eauto]. intros [-> Hx].
    apply Hne. symmetry. eauto.
  - intros [Hne (u1 & n1 & H1 & Hf)]. exists u1, n1. rewrite lookup_delete_ne; [done|].
    intros [= -> ->]. apply Hne. split; congruence.
Qed.

Section leaving.
Context (s : cstate) (G : ghost) (ch : ptr) (u : cid) (c : Channel) (n : node).
Context (N : nodes_ok s G) (C : counts_ok s G None) (Hc : chans s !! ch = Some c)
        (Hn : G !! (ch, u) = Some n).

(** The state [sub1_from_channel] is called with. *)
Definition left_state : cstate :=
  CState (<[ch := MkChannel (ch_name c) (ch_creationtime c) (ch_users c)
                    (filter (fun x => x <> n_m n) (ch_members c))
                    (match n_lm n with Some lm => filter (fun x => x <> lm) (ch_local c)
                                  | None => ch_local c end)]> (chans s)) (chan_list s)
    (delete (n_m n) (members s))
    (match n_lm n with Some lm => delete lm (lmembers s) | None => lmembers s end)
    (delete (n_mb n) (memberships s)) (<[u := filter (fun x => x <> n_mb n) (uch s u)]> (uchannel s))
    (<[u := joined s u - 1]> (ujoined s)) (nchannels s) (ctabs s).

Lemma other_no_share k1 n1 : k1 <> (ch, u) -> G !! k1 = Some n1 -> ~ share n1 n.
Proof using All. intros Hne H1 Hsh. apply Hne. by eapply i_share. Qed.

Lemma leave_nodes : nodes_ok left_state (delete (ch, u) G).
Proof using All.
  split; simpl.
  - intros k1 k2 n1 n2 [_ H1]%lookup_delete_Some [_ H2]%lookup_delete_Some. by eapply i_share.
  - intros ch1 u1 n1 [Hne H1]%lookup_delete_Some. rewrite lookup_delete_ne; [by eapply i_m|].
    intros He. apply (other_no_share (ch1, u1) n1); [done..|]. by left.
  - intros ch1 u1 n1 [Hne H1]%lookup_delete_Some. rewrite lookup_delete_ne; [by eapply i_mb|].
    intros He. apply (other_no_share (ch1, u1) n1); [done..|]. right. by left.
  - intros k1 n1 lm [Hne H1]%lookup_delete_Some Hlm. pose proof (i_lm _ _ N _ _ _ H1 Hlm) as Hl.
    destruct (n_lm n) as [lm'|] eqn:E; [|done]. rewrite lookup_delete_ne; [done|]. intros ->.
    apply (other_no_share k1 n1); [done..|]. right. right. rewrite E, Hlm. eauto.
  - intros x [Hx (k & n1 & H1 & <-)%(i_m_used _ _ N)]%lookup_delete_is_Some.
    exists k, n1. rewrite lookup_delete_ne; [done|]. intros <-. congruence.
  - intros x [Hx (k & n1 & H1 & <-)%(i_mb_used _ _ N)]%lookup_delete_is_Some.
    exists k, n1. rewrite lookup_delete_ne; [done|]. intros <-. congruence.
  - intros x Hx. assert (is_Some (lmembers s !! x) /\ n_lm n <> Some x) as [(k & n1 & H1 & He)%(i_lm_used _ _ N) Hxn].
    { destruct (n_lm n); [apply lookup_delete_is_Some in Hx; naive_solver|done]. }
    exists k, n1. rewrite lookup_delete_ne; [done|]. intros <-. congruence.
  - intros ch1 u1 n1 [Hne H1]%lookup_delete_Some. rewrite lookup_insert_is_Some'.
    destruct (i_key _ _ N _ _ _ H1) as (? & ? & ?). split_and!; [by right|done|done].
  - intros u1. destruct (i_user _ _ N u1) as (H1 & H2 & H3).
    destruct (sizes_delete G ch u n ch u1 Hn) as [_ Hsz].
    unfold uch, joined in *. simpl. unfold uch, joined. destruct (decide (u = u1)) as [<-|Hne].
    + rewrite !lookup_insert_eq. rewrite decide_True in Hsz by done. unfold user_ok. simpl.
      rewrite length_remove; [split_and!; [|lia|lia]|apply H1|apply H1; eauto].
      eapply lists_remove; [exact H1|]. intros y. split.
      * intros (ch1 & n1 & [Hne Hl]%lookup_delete_Some & <-). split; [|eauto]. intros He.
        apply (other_no_share (ch1, u) n1); [done..|]. right. by left.
      * intros [Hy (ch1 & n1 & Hl & <-)]. exists ch1, n1. rewrite lookup_delete_ne by congruence. done.
    + rewrite !lookup_insert_ne by done. rewrite decide_False in Hsz by done. split_and!; [|done|lia].
      eapply lists_iff; [exact H1|]. intros y.
      split; intros (ch1 & H); exists ch1; revert H; by rewrite lookup_delete_ne by congruence.
Qed.

Lemma leave_counts : counts_ok left_state (delete (ch, u) G) (Some ch).
Proof using All.
  intros ch1 c1. simpl. rewrite lookup_insert_Some. intros Hc1.
  destruct (sizes_delete G ch u n ch1 u Hn) as [Hsz _]. destruct Hc1 as [[<- <-]|[Hne Hc1]].
  - destruct (C _ _ Hc) as ((H1 & H2 & H3) & H4). rewrite decide_False in H4 by done.
    rewrite decide_True in Hsz by done. rewrite decide_True by done. unfold chan_ok. simpl.
    rewrite length_remove; [|apply H1|apply H1; eauto]. split; [split_and!; [| |lia]|lia].
    + eapply lists_remove; [exact H1|]. intros y. rewrite (del_chan n_m G ch u n ch); [naive_solver|done|].
      intros u1 n1 Hn1 ? ?. eapply i_share; [done..|]. left. congruence.
    + assert (forall y, (exists u1 n1, delete (ch, u) G !! (ch, u1) = Some n1 /\ n_lm n1 = Some y) <->
        ~ (ch = ch /\ n_lm n = Some y) /\ (exists u1 n1, G !! (ch, u1) = Some n1 /\ n_lm n1 = Some y)) as Hd.
      { intros y. apply del_chan; [done|]. intros u1 n1 Hn1 E1 E2. eapply i_share; [done..|].
        right. right. rewrite E1, E2. eauto. }
      destruct (n_lm n) as [lm|]; [eapply lists_remove|eapply lists_iff]; [exact H2| |exact H2|];
        intros y; rewrite Hd; naive_solver.
  - destruct (C _ _ Hc1) as ((H1 & H2 & H3) & H4). rewrite decide_False in Hsz by done.
    rewrite decide_False in H4 by done. rewrite decide_False by congruence.
    split; [|done]. split_and!; [| |lia].
    + eapply lists_iff; [exact H1|]. intros y.
      split; intros (u1 & H); exists u1; revert H; by rewrite lookup_delete_ne by congruence.
    + eapply lists_iff; [exact H2|]. intros y.
      split; intros (u1 & H); exists u1; revert H; by rewrite lookup_delete_ne by congruence.
Qed.

Lemma leave_withmb should_destroy :
  remove_user_from_channel_withmb s u ch (n_mb n) should_destroy =
  sub1_from_channel left_state ch should_destroy.
Proof using All.
  unfold remove_user_from_channel_withmb, left_state.
  rewrite (i_mb _ _ N _ _ _ Hn). cbn [mbind option_bind mb_related].
  rewrite (i_m _ _ N _ _ _ Hn). cbn [mbind option_bind m_local]. rewrite Hc. cbn [mbind option_bind].
  by destruct (n_lm n).
Qed.

End leaving.

(** *** The end of a channel *)

Lemma empty_size {A} (G : gmap (ptr * cid) A) ch : size (on_chan G ch) = 0%nat <-> on_chan G ch = ∅.
Proof. apply map_size_empty_iff. Qed.

Lemma empty_no_keys {A} (G : gmap (ptr * cid) A) ch u : on_chan G ch = ∅ -> G !! (ch, u) = None.
Proof.
  intros He. destruct (G !! (ch, u)) as [x|] eqn:E; [|done].
  assert (on_chan G ch !! (ch, u) = Some x) as H by (by apply map_lookup_filter_Some).
  by rewrite He in H.
Qed.

Definition drop_channel (s : cstate) (ch : ptr) (nm : cstring) : cstate :=
  CState (delete ch (chans s)) (filter (fun x => x <> ch) (chan_list s)) (members s) (lmembers s)
    (memberships s) (uchannel s) (ujoined s) (nchannels s - 1)
    (del_from_channel_hash_table siphashkey_chan (ctabs s) nm ch).

Lemma set_users_ok s G ch c sp :
  nodes_ok s G -> chans s !! ch = Some c -> counts_ok s G sp -> sp = Some ch \/ sp = None ->
  let s' := set_users s ch c (Z.of_nat (size (on_chan G ch))) in
  nodes_ok s' G /\ counts_ok s' G None /\ same_dir s s'.
Proof.
  intros N Hc HC Hsp s'. split_and!.
  - destruct N as [N1 N2 N3 N4 N5 N6 N7 N8 N9]. split; try done. simpl.
    intros ch1 u1 n1 Hn1. rewrite lookup_insert_is_Some'. destruct (N8 _ _ _ Hn1) as (?&?&?). tauto.
  - intros ch1 c1. simpl. intros [[<- <-]|[Hne Hc1]]%lookup_insert_Some.
    + destruct (HC _ _ Hc) as [Hok _]. split; [done|]. destruct Hok as (_ & _ & Hsz). simpl in *. lia.
    + destruct (HC _ _ Hc1) as [? Hu]. rewrite decide_False in Hu; [done|].
      destruct Hsp as [->| ->]; congruence.
  - by eapply same_dir_chan.
Qed.

Lemma drop_channel_ok s G ch nm sp :
  nodes_ok s G -> on_chan G ch = ∅ -> counts_ok s G sp -> sp = Some ch \/ sp = None ->
  nodes_ok (drop_channel s ch nm) G /\ counts_ok (drop_channel s ch nm) G None.
Proof.
  intros N He HC Hsp. split.
  - destruct N as [N1 N2 N3 N4 N5 N6 N7 N8 N9]. split; try done. simpl.
    intros ch1 u1 n1 Hn1. rewrite lookup_delete_ne; [by apply N8|]. intros <-.
    by rewrite (empty_no_keys _ _ _ He) in Hn1.
  - intros ch1 c1. simpl. intros [Hne Hc1]%lookup_delete_Some.
    destruct (HC _ _ Hc1) as [? Hu]. rewrite decide_False in Hu; [done|]. destruct Hsp as [->| ->]; congruence.
Qed.

Lemma sub1_ghost s G ch c sp sd :
  nodes_ok s G -> chans s !! ch = Some c -> counts_ok s G sp ->
  sp = Some ch \/ (sp = None /\ on_chan G ch = ∅) ->
  exists s', sub1_from_channel s ch sd = Some (s', bool_decide (on_chan G ch = ∅) && sd) /\
    nodes_ok s' G /\ counts_ok s' G None /\
    if bool_decide (on_chan G ch = ∅) && sd then s' = drop_channel s ch (ch_name c) else same_dir s s'.
Proof.
  intros N Hc HC Hsp. unfold sub1_from_channel. rewrite Hc. cbn [mbind option_bind].
  assert (sp = Some ch \/ sp = None) as Hsp' by tauto.
  destruct (set_users_ok s G ch c sp N Hc HC Hsp') as (N' & C' & D'). simpl in *.
  pose proof (HC _ _ Hc) as [(_ & _ & Hsz) Hu].
  destruct (decide (on_chan G ch = ∅)) as [He|He]; pose proof (empty_size G ch) as Hes.
  - rewrite bool_decide_true by done. rewrite (proj2 Hes He) in *. simpl in *.
    destruct (Z.ltb_spec 0 (ch_users c - 1)); [case_decide; lia|]. destruct sd; simpl.
    + destruct (drop_channel_ok s G ch (ch_name c) sp N He HC Hsp') as [N1 C1]. by eexists.
    + by eexists.
  - rewrite bool_decide_false by done. destruct Hsp as [->|[_ ?]]; [|done]. rewrite decide_True in Hu by done.
    assert (ch_users c - 1 = Z.of_nat (size (on_chan G ch))) as -> by lia.
    destruct (Z.ltb_spec 0 (Z.of_nat (size (on_chan G ch)))); [by eexists|]. destruct He. apply Hes. lia.
Qed.

(** ** The abstract view and the operations *)

Abbreviation rights := (cstring * bool)%type.

(** Which channels exist (with their names and creation times), and who is on
    which of them with which modes, and invisibly or not. *)
Record aview := AView {
  a_chans : gmap ptr (cstring * Z);
  a_acc : gmap (ptr * cid) rights
}.

Inductive cop :=
| CMake (TStime : Z) (name : cstring)
| CJoin (ch : ptr) (u : cid) (modes : cstring)
| CPart (u : cid) (ch : ptr) (should_destroy : bool)
| CSub1 (ch : ptr) (should_destroy : bool)
| CAddMode (u : cid) (ch : ptr) (l : Z)
| CDelMode (u : cid) (ch : ptr) (l : Z)
| CInvisible (u : cid) (ch : ptr) (invisible : bool).

Definition cstep (s : cstate) (o : cop) : option cstate :=
  match o with
  | CMake t nm => Some (make_channel t s nm).2
  | CJoin ch u modes => add_user_to_channel s ch u modes
  | CPart u ch sd => fst <$> remove_user_from_channel s u ch sd
  | CSub1 ch sd => fst <$> sub1_from_channel s ch sd
  | CAddMode u ch l => add_member_mode s u ch l
  | CDelMode u ch l => del_member_mode s u ch l
  | CInvisible u ch b => set_user_invisible s u ch b
  end.

Definition change (acc : gmap (ptr * cid) rights) (k : ptr * cid) (f : rights -> rights)
  : gmap (ptr * cid) rights :=
  match acc !! k with Some r => <[k := f r]> acc | None => acc end.

Definition a_sub1 (a : aview) (ch : ptr) (sd : bool) : aview :=
  AView (if bool_decide (on_chan (a_acc a) ch = ∅) && sd then delete ch (a_chans a) else a_chans a) (a_acc a).

(** What the operations do to the view; [None] marks calls that no caller makes: a
    join of an unknown channel or by somebody who is on it, [sub1_from_channel] on
    a channel with members, and bytes outside 1 to 255 in a name. *)
Definition astep (a : aview) (o : cop) : option aview :=
  match o with
  | CMake t nm =>
      if negb (forallb (fun c => (0 <? c) && (c <? 256)) nm) then None
      else if decide (nm = []) then Some a
      else if decide (filter (fun kv => same_name (clean_name nm) kv.2.1) (a_chans a) = ∅)
      then Some (AView (<[fresh (dom (a_chans a)) := (clean_name nm, t)]> (a_chans a)) (a_acc a))
      else Some a
  | CJoin ch u modes =>
      if negb (has_user u) then Some a
      else if bool_decide (is_Some (a_chans a !! ch)) && bool_decide (a_acc a !! (ch, u) = None)
      then Some (AView (a_chans a) (<[(ch, u) := (all_modes [] modes, false)]> (a_acc a)))
      else None
  | CPart u ch sd =>
      match a_acc a !! (ch, u) with
      | None => Some a
      | Some _ => Some (a_sub1 (AView (a_chans a) (delete (ch, u) (a_acc a))) ch sd)
      end
  | CSub1 ch sd =>
      if bool_decide (is_Some (a_chans a !! ch)) && bool_decide (on_chan (a_acc a) ch = ∅)
      then Some (a_sub1 a ch sd) else None
  | CAddMode u ch l =>
      Some (AView (a_chans a)
        (change (a_acc a) (ch, u) (fun r => (addlettertomstring channelmodes r.1 l, r.2))))
  | CDelMode u ch l =>
      Some (AView (a_chans a) (change (a_acc a) (ch, u) (fun r => (delletterfromstring r.1 l, r.2))))
  | CInvisible u ch b =>
      if negb (is_user u) then Some a
      else Some (AView (a_chans a) (change (a_acc a) (ch, u) (fun r => (r.1, b))))
  end.

Definition crun {S} (step : S -> cop -> option S) (s : S) (os : list cop) : option S :=
  foldl (fun r o => s ← r; step s o) (Some s) os.

Definition no_channels (tainted : bool) : cstate :=
  CState ∅ [] ∅ ∅ ∅ ∅ ∅ 0 (init_hash tainted).

Definition node_rights (n : node) : rights := (n_modes n, n_inv n).

Definition crel (s : cstate) (a : aview) : Prop :=
  exists G, nodes_ok s G /\ counts_ok s G None /\
    dir_inv (chan_names s) (chan_list s) (nchannels s) (ctabs s) /\
    heads s = a_chans a /\ node_rights <$> G = a_acc a.

Lemma chan_names_heads s : chan_names s = fst <$> heads s.
Proof. unfold chan_names, heads. by rewrite <- map_fmap_compose. Qed.

Lemma dir_same s s' :
  same_dir s s' -> dir_inv (chan_names s) (chan_list s) (nchannels s) (ctabs s) ->
  dir_inv (chan_names s') (chan_list s') (nchannels s') (ctabs s').
Proof. intros (H1 & H2 & H3 & H4) D. rewrite chan_names_heads, H1, <- chan_names_heads. by rewrite H2, H3, H4. Qed.

Lemma on_chan_rights (G : ghost) ch : on_chan (node_rights <$> G) ch = ∅ <-> on_chan G ch = ∅.
Proof. rewrite on_chan_fmap. apply fmap_empty_iff. Qed.

Lemma crel_init tainted : crel (no_channels tainted) (AView ∅ ∅).
Proof.
  exists ∅. split_and!; [split|..].
  - intros * H. by rewrite lookup_empty in H.
  - intros * H. by rewrite lookup_empty in H.
  - intros * H. by rewrite lookup_empty in H.
  - intros * H. by rewrite lookup_empty in H.
  - intros * [? H]. simpl in H. by rewrite lookup_empty in H.
  - intros * [? H]. simpl in H. by rewrite lookup_empty in H.
  - intros * [? H]. simpl in H. by rewrite lookup_empty in H.
  - intros * H. by rewrite lookup_empty in H.
  - intros u. unfold user_ok, uch, joined. simpl. rewrite !lookup_empty. simpl. split_and!; [|done|done].
    split; [constructor|]. intros x. split; [set_solver|]. intros (? & ? & H & _). by rewrite lookup_empty in H.
  - intros ch c H. simpl in H. by rewrite lookup_empty in H.
  - unfold chan_names. simpl. rewrite fmap_empty. split.
    + split; [constructor|]. intros x. rewrite lookup_empty. split; [set_solver|]. by intros [? ?].
    + done.
    + intros h. unfold bucket, init_hash. simpl. rewrite lookup_empty. simpl. split; [constructor|].
      intros x. split; [set_solver|]. intros (? & H & _). by rewrite lookup_empty in H.
    + intros * H. by rewrite lookup_empty in H.
    + intros * H. by rewrite lookup_empty in H.
  - apply fmap_empty.
  - apply fmap_empty.
Qed.

(** *** Each operation implements its abstract step *)

(** The change of one member's rights. *)
Lemma crel_set_node s a G ch u n n' :
  nodes_ok s G -> counts_ok s G None ->
  dir_inv (chan_names s) (chan_list s) (nchannels s) (ctabs s) ->
  heads s = a_chans a -> node_rights <$> G = a_acc a -> G !! (ch, u) = Some n -> same_place n n' ->
  forall f, node_rights n' = f (node_rights n) ->
  crel (set_node s ch u n') (AView (a_chans a) (change (a_acc a) (ch, u) f)).
Proof.
  intros N C D Hh Ha Hn Hp f Hf. destruct (set_node_ok s G None ch u n n' N C Hn Hp) as [N1 C1].
  eexists. split_and!; [exact N1|exact C1|exact D|exact Hh|]. simpl. unfold change.
  by rewrite <- Ha, lookup_fmap, Hn, fmap_insert, Hf.
Qed.

Lemma change_none acc k f : acc !! k = None -> change acc k f = acc.
Proof. unfold change. by intros ->. Qed.

Lemma crel_rights s a G u ch f (op : ptr -> ptr -> option cstate) (g : node -> node) :
  nodes_ok s G -> counts_ok s G None ->
  dir_inv (chan_names s) (chan_list s) (nchannels s) (ctabs s) ->
  heads s = a_chans a -> node_rights <$> G = a_acc a ->
  (forall n, G !! (ch, u) = Some n -> op (n_m n) (n_mb n) = Some (set_node s ch u (g n))) ->
  (forall n, same_place n (g n) /\ node_rights (g n) = f (node_rights n)) ->
  exists s', (r ← find_mbs s u ch; match r with None => Some s | Some (m, mb) => op m mb end) = Some s' /\
    crel s' (AView (a_chans a) (change (a_acc a) (ch, u) f)).
Proof.
  intros N C D Hh Ha Hop Hg. rewrite (find_mbs_ghost _ _ _ _ N). cbn [mbind option_bind].
  destruct (G !! (ch, u)) as [n|] eqn:E; cbn.
  - rewrite (Hop n eq_refl). eexists. split; [done|]. eapply crel_set_node; eauto; apply Hg.
  - exists s. split; [done|]. rewrite change_none by (by rewrite <- Ha, lookup_fmap, E).
    exists G. done.
Qed.

Lemma crel_sub1 s G a ch c sp sd :
  nodes_ok s G -> chans s !! ch = Some c -> counts_ok s G sp ->
  sp = Some ch \/ (sp = None /\ on_chan G ch = ∅) ->
  dir_inv (chan_names s) (chan_list s) (nchannels s) (ctabs s) ->
  heads s = a_chans a -> node_rights <$> G = a_acc a ->
  exists s' freed, sub1_from_channel s ch sd = Some (s', freed) /\ crel s' (a_sub1 a ch sd).
Proof.
  intros N Hc HC Hsp D Hh Ha. destruct (sub1_ghost s G ch c sp sd N Hc HC Hsp) as (s' & Hs & N' & C' & H').
  exists s', (bool_decide (on_chan G ch = ∅) && sd). split; [exact Hs|].
  exists G. split_and!; [done|done| | |done].
  - destruct (_ && sd); [subst s'|by eapply dir_same]. unfold chan_names. simpl. rewrite fmap_delete.
    apply dir_del; [done|]. by rewrite lookup_fmap, Hc.
  - unfold a_sub1. simpl. rewrite <- Ha.
    rewrite (bool_decide_ext _ (on_chan G ch = ∅)) by apply on_chan_rights.
    destruct (_ && sd); [subst s'; unfold heads; simpl; by rewrite fmap_delete, <- Hh|].
    destruct H' as [-> _]. done.
Qed.

Lemma crel_part s a u ch sd a' :
  crel s a -> astep a (CPart u ch sd) = Some a' -> exists s', cstep s (CPart u ch sd) = Some s' /\ crel s' a'.
Proof.
  intros (G & N & C & D & Hh & Ha). simpl. unfold remove_user_from_channel.
  rewrite (find_membership_ghost _ _ _ _ N). rewrite <- Ha, lookup_fmap.
  destruct (G !! (ch, u)) as [n|] eqn:E; simpl; intros [= <-]; [|exists s; split; [done|by exists G]].
  destruct (i_key _ _ N _ _ _ E) as ([c Hc] & _). rewrite (leave_withmb s G ch u c n N C Hc E).
  destruct (crel_sub1 (left_state s ch u c n) (delete (ch, u) G)
    (AView (a_chans a) (delete (ch, u) (a_acc a))) ch
    (MkChannel (ch_name c) (ch_creationtime c) (ch_users c) (filter (fun x => x <> n_m n) (ch_members c))
       (match n_lm n with Some lm => filter (fun x => x <> lm) (ch_local c) | None => ch_local c end))
    (Some ch) sd) as (s' & b & Hs & Hr).
  - by eapply leave_nodes.
  - simpl. by rewrite lookup_insert_eq.
  - by eapply leave_counts.
  - by left.
  - by eapply dir_same; [eapply same_dir_chan|].
  - rewrite <- Hh. eapply (same_dir_chan s _ ch c); done.
  - simpl. by rewrite fmap_delete, Ha.
  - exists s'. rewrite Hs. split; [done|]. by rewrite Ha.
Qed.

Lemma crel_join s a ch u modes a' :
  crel s a -> astep a (CJoin ch u modes) = Some a' -> exists s', cstep s (CJoin ch u modes) = Some s' /\ crel s' a'.
Proof.
  intros (G & N & C & D & Hh & Ha). simpl. destruct (has_user u) eqn:Hu; simpl.
  - case_bool_decide as Hex; [|done]. case_bool_decide as Hno; [|done]. intros [= <-].
    rewrite <- Hh in Hex. unfold heads in Hex. rewrite lookup_fmap in Hex.
    apply fmap_is_Some in Hex as [c Hc].
    assert (G !! (ch, u) = None) as HGn by (rewrite <- Ha, lookup_fmap in Hno; by apply fmap_None in Hno).
    destruct (join_ghost s G ch u c modes N C Hc Hu HGn) as (s' & n & Hs & Hd & Hm & Hi & N' & C').
    exists s'. split; [done|]. eexists. split_and!; [exact N'|exact C'|by eapply dir_same| |].
    + destruct Hd as [-> _]. done.
    + simpl. rewrite fmap_insert, Ha. unfold node_rights. by rewrite Hm, Hi.
  - intros [= <-]. exists s. unfold add_user_to_channel. rewrite Hu. split; [done|by exists G].
Qed.

Lemma span_Forall (P : Z -> Prop) (p : Z -> bool) (l : cstring) : Forall P l -> Forall P (span p l).1.
Proof.
  induction 1 as [|x l Hx Hl IH]; simpl; [constructor|]. destruct (p x); [|constructor].
  destruct (span p l). by constructor.
Qed.

Lemma clean_name_cstr nm :
  forallb (fun c => (0 <? c) && (c <? 256)) nm = true -> cstr (clean_name nm).
Proof.
  intros H. apply span_Forall, Forall_take. rewrite forallb_forall in H. apply Forall_forall.
  intros x Hx. apply list_elem_of_In, H in Hx. unfold byte_ok. lia.
Qed.

Lemma no_same_name (s : cstate) (a : aview) nm :
  heads s = a_chans a ->
  filter (fun kv => same_name nm kv.2.1) (a_chans a) = ∅ <->
  (forall y b, chan_names s !! y = Some b -> ~ same_name nm b).
Proof.
  intros Hh. rewrite chan_names_heads, Hh. rewrite map_empty_filter. unfold map_Forall. split.
  - intros H y b Hb. rewrite lookup_fmap in Hb. apply fmap_Some in Hb as (x & Hx & ->). by apply (H y).
  - intros H y x Hx. apply (H y). by rewrite lookup_fmap, Hx.
Qed.

Lemma crel_make s a t nm a' :
  crel s a -> astep a (CMake t nm) = Some a' -> exists s', cstep s (CMake t nm) = Some s' /\ crel s' a'.
Proof.
  intros (G & N & C & D & Hh & Ha). simpl. destruct (forallb _ nm) eqn:Hb; [|done]. cbn [negb].
  apply clean_name_cstr in Hb. intros Hstep. eexists. split; [done|].
  destruct (decide (nm = [])) as [->|Hne]; [injection Hstep as <-; by exists G|].
  unfold make_channel. destruct nm as [|x nm]; [done|]. set (nb := clean_name _) in *.
  pose proof (no_same_name s a nb Hh) as Hiff.
  destruct (find_channel siphashkey_chan (chan_names s) (ctabs s) nb) as [ch|] eqn:Ef; simpl.
  - apply (dir_find _ _ _ _ _ _ D Hb) in Ef as (b & Hbn & Hs).
    case_decide as Hd; [by destruct (proj1 Hiff Hd _ _ Hbn)|]. injection Hstep as <-. by exists G.
  - pose proof (dir_find_none _ _ _ _ _ D Hb Ef) as Hnone.
    rewrite decide_True in Hstep by (by apply Hiff). injection Hstep as <-.
    set (ch := fresh (dom (chans s))).
    assert (fresh (dom (a_chans a)) = ch) as -> by (unfold ch; rewrite <- Hh; unfold heads; by rewrite dom_fmap_L).
    assert (chans s !! ch = None) as Hch by apply fresh_lookup.
    assert (forall u, G !! (ch, u) = None) as HG.
    { intros u. destruct (G !! (ch, u)) as [n|] eqn:E; [|done].
      destruct (i_key _ _ N _ _ _ E) as ([c Hc] & _). congruence. }
    exists G. split_and!; [| | | |done].
    + destruct N as [N1 N2 N3 N4 N5 N6 N7 N8 N9]. split; try done. simpl.
      intros ch1 u1 n1 Hn1. rewrite lookup_insert_is_Some'. destruct (N8 _ _ _ Hn1) as (?&?&?). tauto.
    + intros ch1 c1. simpl. intros [[<- <-]|[Hn Hc1]]%lookup_insert_Some; [|by apply (C ch1 c1)].
      simpl. assert (on_chan G ch = ∅) as He.
      { apply map_empty_filter. intros [ch1 u1] n1 H1 He. simpl in He. subst ch1. by rewrite HG in H1. }
      split; [|done]. unfold chan_ok. simpl. rewrite He. split_and!; [| |done];
        (split; [constructor|]; intros y; split; [set_solver|]; intros (u1 & n1 & H1 & _); by rewrite HG in H1).
    + simpl. unfold chan_names. simpl. rewrite fmap_insert. apply dir_add; [done|done| |done].
      by rewrite lookup_fmap, Hch.
    + unfold heads. simpl. by rewrite fmap_insert, <- Hh.
Qed.

Lemma cstep_ok s a o a' : crel s a -> astep a o = Some a' -> exists s', cstep s o = Some s' /\ crel s' a'.
Proof.
  intros Hrel. pose proof Hrel as (G & N & C & D & Hh & Ha). destruct o as [t nm|ch u modes|u ch sd|ch sd|u ch l|u ch l|u ch b].
  - by apply crel_make.
  - by apply crel_join.
  - by apply crel_part.
  - simpl. case_bool_decide as Hex; [|done]. case_bool_decide as He; [|done]. intros [= <-].
    rewrite <- Hh in Hex. unfold heads in Hex. rewrite lookup_fmap in Hex. apply fmap_is_Some in Hex as [c Hc].
    destruct (crel_sub1 s G a ch c None sd) as (s' & b & Hs & Hr); try done.
    + right. split; [done|]. rewrite <- Ha in He. by apply on_chan_rights.
    + exists s'. by rewrite Hs.
  - simpl. intros [= <-]. apply (crel_rights s a G u ch _ (fun m mb => add_member_mode_fast s m mb l)
      (fun n => set_modes n (addlettertomstring channelmodes (n_modes n) l))); try done.
    intros n Hn. by apply (add_fast_ghost s G).
  - simpl. intros [= <-]. apply (crel_rights s a G u ch _ (fun m mb => del_member_mode_fast s m mb l)
      (fun n => set_modes n (delletterfromstring (n_modes n) l))); try done.
    intros n Hn. by apply (del_fast_ghost s G).
  - simpl. unfold set_user_invisible. destruct (is_user u); simpl; [|intros [= <-]; by exists s].
    intros [= <-]. apply (crel_rights s a G u ch _ _
      (fun n => set_inv n b)); try done.
    intros n Hn. by rewrite (i_m _ _ N _ _ _ Hn), (i_mb _ _ N _ _ _ Hn).
Qed.

Lemma crun_ok os s a a' :
  crel s a -> crun astep a os = Some a' -> exists s', crun cstep s os = Some s' /\ crel s' a'.
Proof.
  revert s a. unfold crun. induction os as [|o os IH]; intros s a Hrel; simpl.
  - intros [= <-]. by exists s.
  - destruct (astep a o) as [a1|] eqn:E.
    + destruct (cstep_ok _ _ _ _ Hrel E) as (s1 & -> & Hrel1). by apply IH.
    + intros H. exfalso. clear -H. induction os; simpl in *; [done|auto].
Qed.

(** ** The properties *)

(** What the structures show of an abstract view. *)
Record represents (s : cstate) (a : aview) : Prop := {
  rp_find nm ch : cstr nm ->
    find_channel siphashkey_chan (chan_names s) (ctabs s) nm = Some ch <->
    exists b t, a_chans a !! ch = Some (b, t) /\ same_name nm b;
  rp_count : nchannels s = Z.of_nat (size (a_chans a));
  rp_chan ch c : chans s !! ch = Some c ->
    a_chans a !! ch = Some (ch_name c, ch_creationtime c) /\
    ch_users c = Z.of_nat (length (ch_members c)) /\ ch_users c = Z.of_nat (size (on_chan (a_acc a) ch));
  rp_member ch c u r : chans s !! ch = Some c ->
    a_acc a !! (ch, u) = Some r <->
    exists m M, m ∈ ch_members c /\ members s !! m = Some M /\ m_client M = u /\
                (m_modes M, m_invisible M) = r;
  rp_membership u ch :
    (fun MB => (mb_modes MB, mb_invisible MB)) <$> membership_of s u ch = a_acc a !! (ch, u);
  rp_joined u : joined s u = Z.of_nat (length (uch s u)) /\ joined s u = Z.of_nat (size (of_user (a_acc a) u));
  rp_local ch c u : chans s !! ch = Some c ->
    (is_local u = true /\ is_Some (a_acc a !! (ch, u))) <->
    exists lm m M, lm ∈ ch_local c /\ lmembers s !! lm = Some m /\ m ∈ ch_members c /\
                   members s !! m = Some M /\ m_client M = u;
  rp_sync m M : members s !! m = Some M ->
    exists MB, memberships s !! m_related M = Some MB /\ mb_related MB = m /\
      mb_modes MB = m_modes M /\ mb_invisible MB = m_invisible M /\
      m_related M ∈ uch s (m_client M);
  rp_exists ch u : is_Some (a_acc a !! (ch, u)) -> is_Some (chans s !! ch) /\ has_user u = true
}.

Lemma rel_size_heads s : size (heads s) = size (chans s).
Proof. apply map_size_fmap. Qed.

Lemma dir_size s :
  dir_inv (chan_names s) (chan_list s) (nchannels s) (ctabs s) -> nchannels s = Z.of_nat (size (chans s)).
Proof.
  intros D. rewrite (d_count _ _ _ _ D). f_equal. destruct (d_list _ _ _ _ D) as [Hnd Hl].
  rewrite <- size_dom, <- (size_list_to_set (C := gset ptr) (chan_list s) Hnd). f_equal. apply set_eq. intros x.
  rewrite elem_of_list_to_set, Hl, elem_of_dom. unfold chan_names. by rewrite lookup_fmap, fmap_is_Some.
Qed.

Lemma acc_lookup (G : ghost) acc k r :
  node_rights <$> G = acc -> acc !! k = Some r <-> exists n, G !! k = Some n /\ node_rights n = r.
Proof. intros <-. rewrite lookup_fmap, fmap_Some. naive_solver. Qed.

Lemma crel_represents s a : crel s a -> represents s a.
Proof.
  intros (G & N & C & D & Hh & Ha). pose proof (fun k r => acc_lookup G _ k r Ha) as Hacc. split.
  - intros nm ch Hnm. rewrite (dir_find _ _ _ _ _ _ D Hnm), chan_names_heads, Hh, lookup_fmap.
    destruct (a_chans a !! ch) as [[b t]|]; simpl; naive_solver.
  - by rewrite <- Hh, rel_size_heads, dir_size.
  - intros ch c Hc. destruct (C _ _ Hc) as ((_ & _ & Hsz) & Hu). rewrite decide_False in Hu by done.
    rewrite <- Hh, <- Ha, on_chan_fmap, map_size_fmap. unfold heads. rewrite lookup_fmap, Hc.
    split_and!; [done|lia|lia].
  - intros ch c u r Hc. destruct (C _ _ Hc) as (([_ Hl] & _ & _) & _). rewrite Hacc. split.
    + intros (n & Hn & <-). eexists (n_m n), _. split_and!; [apply Hl; eauto|by eapply i_m|done|done].
    + intros (m & M & (u1 & n & Hn & <-)%Hl & HM & <- & <-). rewrite (i_m _ _ N _ _ _ Hn) in HM.
      injection HM as <-. by exists n.
  - intros u ch. rewrite (membership_ghost _ _ _ _ N), <- Ha, lookup_fmap. by destruct (G !! (ch, u)).
  - intros u. destruct (i_user _ _ N u) as (_ & H1 & H2). by rewrite <- Ha, of_user_fmap, map_size_fmap.
  - intros ch c u Hc. destruct (C _ _ Hc) as (([_ Hl] & [_ Hlm] & _) & _). split.
    + intros [Hloc [r (n & Hn & _)%Hacc]]. destruct (i_key _ _ N _ _ _ Hn) as (_ & _ & [_ Hk]).
      destruct (Hk Hloc) as [lm Elm]. eexists lm, (n_m n), _.
      split_and!; [apply Hlm; eauto|by eapply i_lm|apply Hl; eauto|by eapply i_m|done].
    + intros (lm & m & M & (u1 & n & Hn & Elm)%Hlm & Hlmm & _ & HM & <-).
      rewrite (i_lm _ _ N _ _ _ Hn Elm) in Hlmm. injection Hlmm as <-. rewrite (i_m _ _ N _ _ _ Hn) in HM.
      injection HM as <-. destruct (i_key _ _ N _ _ _ Hn) as (_ & _ & [Hk _]). simpl.
      split; [apply Hk; eauto|]. exists (node_rights n). apply Hacc. eauto.
  - intros m M HM. destruct (i_m_used _ _ N m) as ([ch u] & n & Hn & <-); [eauto|].
    rewrite (i_m _ _ N _ _ _ Hn) in HM. injection HM as <-. eexists.
    split_and!; [by eapply i_mb|done|done|done|]. destruct (i_user _ _ N u) as ([_ Hl] & _).
    apply Hl. eauto.
  - intros ch u [r (n & Hn & _)%Hacc]. by destruct (i_key _ _ N _ _ _ Hn) as (? & ? & _).
Qed.

(** C4: the channel structures implement the map from (channel, user) to access
    rights.  Starting without channels, after every sequence of creations, joins,
    parts, mode changes and visibility changes that callers make, no operation has
    faulted and the structures represent the abstract view: channels are found by
    name ignoring case, [Member] and [Membership] point to each other and agree on
    modes and visibility ("must be kept synchronized 100% at all times"), the lists
    of a channel and of a user hold exactly the members, the local list exactly the
    local ones, all counters agree with the lists, and an empty channel is freed
    unless the hook keeps it. *)
Theorem channels_refine (tainted : bool) (os : list cop) (a : aview)
  (Hos : crun astep (AView ∅ ∅) os = Some a) :
  exists s, crun cstep (no_channels tainted) os = Some s /\ represents s a.
Proof.
  destruct (crun_ok os _ _ _ (crel_init tainted) Hos) as (s & Hs & Hrel).
  exists s. split; [done|]. by apply crel_represents.
Qed.

(** Who sees whom, on the abstract view. *)
Definition a_sees (a : aview) (u v : cid) (ch : ptr) : Prop :=
  u = v \/ exists modes inv, is_user v = true /\ a_acc a !! (ch, v) = Some (modes, inv) /\
    (inv = false \/ check_channel_access_string modes (str "vhoaq") = true \/
     (is_user u = true /\ exists umodes i, a_acc a !! (ch, u) = Some (umodes, i) /\
        check_channel_access_string umodes (str "hoaq") = true)).

Lemma rights_of_membership s a u ch : represents s a ->
  match membership_of s u ch with
  | Some MB => a_acc a !! (ch, u) = Some (mb_modes MB, mb_invisible MB)
  | None => a_acc a !! (ch, u) = None
  end.
Proof. intros R. pose proof (rp_membership _ _ R u ch) as H. by destruct (membership_of s u ch). Qed.

Lemma can_see_spec s a u v ch : represents s a -> user_can_see_member s u v ch = true <-> a_sees a u v ch.
Proof.
  intros R. unfold user_can_see_member, a_sees. case_decide as Huv; [naive_solver|].
  pose proof (rights_of_membership s a v ch R) as Hv. pose proof (rights_of_membership s a u ch R) as Hu.
  destruct (is_user v) eqn:Ev; [|naive_solver].
  destruct (membership_of s v ch) as [MB|]; rewrite Hv; [|naive_solver].
  unfold user_can_see_membership_fast. rewrite decide_False by done.
  set (uok := match mb_modes <$> _ with Some modes => _ | None => false end).
  assert (uok = true <-> is_user u = true /\ exists umodes i, a_acc a !! (ch, u) = Some (umodes, i) /\
            check_channel_access_string umodes (str "hoaq") = true) as Hok.
  { unfold uok. destruct (is_user u); [|naive_solver].
    destruct (membership_of s u ch) as [UB|]; rewrite Hu; cbn [fmap option_fmap option_map]; naive_solver. }
  rewrite negb_true_iff, !andb_false_iff, !negb_false_iff, Hok. split.
  - intros H. right. eexists _, _. split_and!; [done|done|tauto].
  - intros [?|(modes & inv & _ & [= <- <-] & H)]; [done|tauto].
Qed.

Lemma membership_link s u ch :
  match membership_of s u ch with
  | Some MB => exists mb, find_membership_link s (uch s u) ch = Some mb /\ mb ∈ uch s u /\
                 memberships s !! mb = Some MB /\ mb_channel MB = ch
  | None => find_membership_link s (uch s u) ch = None /\
            forall mb MB, mb ∈ uch s u -> memberships s !! mb = Some MB -> mb_channel MB <> ch
  end.
Proof.
  unfold membership_of. destruct (find_membership_link s (uch s u) ch) as [mb|] eqn:E; simpl.
  - unfold find_membership_link in E. apply find_some in E as [Hin Hp]. apply list_elem_of_In in Hin.
    destruct (memberships s !! mb) as [MB|] eqn:Em; [|done]. apply bool_decide_eq_true in Hp. eauto.
  - split; [done|]. intros mb MB Hin Hmb Hch. apply list_elem_of_In in Hin.
    pose proof (find_none _ _ E mb Hin) as Hf. simpl in Hf. rewrite Hmb in Hf.
    by apply bool_decide_eq_false in Hf.
Qed.

Lemma is_member_spec s a u ch :
  represents s a -> IsMember s u ch = true <-> is_Some (a_acc a !! (ch, u)).
Proof.
  intros R. pose proof (rp_exists _ _ R ch u) as Hu. pose proof (membership_link s u ch) as Hl.
  pose proof (rights_of_membership s a u ch R) as Ha. unfold IsMember. destruct (membership_of s u ch) as [MB|].
  - rewrite Ha in *. destruct Hl as (mb & -> & _). rewrite (proj2 (Hu ltac:(eauto))). simpl. naive_solver.
  - rewrite Ha. destruct Hl as [-> _]. rewrite andb_false_r. split; [done|]. by intros [? ?].
Qed.

Lemma common_channels_spec s a u v :
  represents s a -> has_common_channels s u v = true <->
  exists ch, is_Some (a_acc a !! (ch, u)) /\ is_Some (a_acc a !! (ch, v)) /\ a_sees a u v ch.
Proof.
  intros R. unfold has_common_channels. rewrite existsb_exists. split.
  - intros (mb & Hin & H). destruct (memberships s !! mb) as [MB|] eqn:E; [|done].
    apply andb_true_iff in H as [Hm Hs]. exists (mb_channel MB). split_and!.
    + apply list_elem_of_In in Hin. pose proof (membership_link s u (mb_channel MB)) as Hl.
      pose proof (rights_of_membership s a u (mb_channel MB) R) as Ha.
      destruct (membership_of s u (mb_channel MB)); [rewrite Ha; eauto|]. destruct Hl as [_ Hl].
      by destruct (Hl mb MB Hin E).
    + by apply (is_member_spec s a v _ R).
    + by apply (can_see_spec s a u v _ R).
  - intros (ch & Hu & Hv & Hs). pose proof (rights_of_membership s a u ch R) as Ha.
    pose proof (membership_link s u ch) as Hl. destruct (membership_of s u ch) as [MB|];
      [|rewrite Ha in Hu; by destruct Hu].
    destruct Hl as (mb & _ & Hin & Hmb & Hch). exists mb. rewrite <- list_elem_of_In. split; [done|].
    rewrite Hmb, Hch. apply andb_true_iff. split.
    + by apply (is_member_spec s a v _ R).
    + by apply (can_see_spec s a u v _ R).
Qed.

Lemma invisible_users_spec s a ch :
  represents s a ->
  channel_has_invisible_users s ch = true <-> exists w m, a_acc a !! (ch, w) = Some (m, true).
Proof.
  intros R. unfold channel_has_invisible_users. destruct (chans s !! ch) as [c|] eqn:E.
  - rewrite existsb_exists. split.
    + intros (m & Hin & Hm). destruct (members s !! m) as [M|] eqn:EM; [|done].
      exists (m_client M), (m_modes M). apply (rp_member _ _ R ch c); [done|]. exists m, M.
      rewrite list_elem_of_In. split_and!; [done..|]. by rewrite Hm.
    + intros (w & mo & (m & M & Hin & HM & Hw & [= Hmo Hi])%(rp_member _ _ R ch c w _ E)).
      exists m. rewrite <- list_elem_of_In, HM. done.
  - split; [done|]. intros (w & m & H). destruct (rp_exists _ _ R ch w) as [[? ?] _]; [eauto|congruence].
Qed.

(** Visibility on channels follows the rights alone.  A user sees a member of
    a channel exactly when it is the same user, or the member is not invisible or
    has a mode of [vhoaq], or the looking user has a mode of [hoaq] there; two
    users have a common channel exactly when there is a channel with both on it on
    which the first sees the second; and the access checks and
    [channel_has_invisible_users] answer from the same rights. *)
Theorem visibility_correct (s : cstate) (a : aview) (u v : cid) (ch : ptr) (modes : cstring)
  (R : represents s a) :
  (user_can_see_member s u v ch = true <-> a_sees a u v ch) /\
  (has_common_channels s u v = true <->
   exists ch, is_Some (a_acc a !! (ch, u)) /\ is_Some (a_acc a !! (ch, v)) /\ a_sees a u v ch) /\
  (check_channel_access s u ch modes = true <->
   is_user u = true /\ exists r l, a_acc a !! (ch, u) = Some r /\ l ∈ r.1 /\ l ∈ modes) /\
  (channel_has_invisible_users s ch = true <-> exists w m, a_acc a !! (ch, w) = Some (m, true)).
Proof.
  split_and!; [by apply can_see_spec|by apply common_channels_spec| |by apply invisible_users_spec].
  unfold check_channel_access. destruct (is_user u); [|naive_solver]. cbn [negb].
  pose proof (rights_of_membership s a u ch R) as Ha. destruct (membership_of s u ch) as [MB|]; rewrite Ha.
  - rewrite access_string_spec. naive_solver.
  - naive_solver.
Qed.

End channels.

(** Two users, the second remote, join a channel; the first becomes its owner and
    the second invisible; then the first leaves and the channel stays. *)
Definition sample_ops : list cop :=
  [CMake 1700000000 (str "#Test"); CJoin 1 1 (str "o"); CJoin 1 2 [];
   CAddMode 1 1 113; CInvisible 2 1 true; CMake 1700000001 (str "#tEST");
   CMake 1700000002 (str "#b"); CSub1 2 true; CPart 1 1 true].

Definition sample_view : aview :=
  AView {[ 1%positive := (str "#Test", 1700000000) ]} {[ (1%positive, 2%positive) := ([], true) ]}.

Lemma channels_refine_witness :
  exists s, crun (cstep shipped_modes (seqZ 0 16) (fun u => bool_decide (u = 1%positive)) (fun _ => true)
              (fun _ => true)) (no_channels false) sample_ops = Some s /\
    represents (seqZ 0 16) (fun u => bool_decide (u = 1%positive)) (fun _ => true) s sample_view.
Proof.
  apply (channels_refine shipped_modes (seqZ 0 16) (fun u => bool_decide (u = 1%positive)) (fun _ => true)
           (fun _ => true)).
  vm_compute. reflexivity.
Defined.

Lemma visibility_correct_witness :
  exists s, represents (seqZ 0 16) (fun u => bool_decide (u = 1%positive)) (fun _ => true) s sample_view /\
    (user_can_see_member (fun _ => true) s 1 2 1 = true <->
     a_sees (fun _ => true) sample_view 1 2 1).
Proof.
  destruct (crun_ok shipped_modes (seqZ 0 16) (fun u => bool_decide (u = 1%positive)) (fun _ => true)
           (fun _ => true) sample_ops (no_channels false) (AView ∅ ∅) sample_view) as (s & _ & R);
    [apply crel_init|vm_compute; reflexivity|]. apply (crel_represents _ _ (fun _ => true)) in R.
  exists s. split; [exact R|].
  apply (visibility_correct (seqZ 0 16) (fun u => bool_decide (u = 1%positive)) (fun _ => true) (fun _ => true)
           s sample_view 1 2 1 [] R).
Defined.
