(* ===== verification/Bans.v ===== *)
(** * Channel lists: bans, exceptions, invite exceptions (src/channel.c)

    The lists +b, +e and +I of a channel: adding and removing entries, the tests for
    an existing entry, and the strings that say who set one (src/misc.c).  A list is
    shown to be a map from masks, compared without case, to the oldest entry that
    was set, which is what makes two servers that merge their lists agree. *)
From S2P Require Import Prelude Chars Strings Client Hash.

Definition USERLEN : nat := 10.
Definition MAXBANLEN : nat := 200.

(** ** Who set an entry *)

Fixpoint find_index (p : Z -> bool) (s : cstring) : option nat :=
  match s with
  | [] => None
  | c :: s => if p c then Some O else S <$> find_index p s
  end.

(** [check_string].  At the first white space the code copies from that white
    space on ([strlncpy(buf, s, sizeof(buf), s - str)]). *)
Definition check_string (s : option cstring) : cstring :=
  match s with
  | None | Some [] => str "*"
  | Some st =>
      match find_index isspace st with
      | None => st
      | Some n => match (strlncpy [] (drop n st) 512 n).1 with [] => str "*" | b => b end
      end
  end.

Definition make_nick_user_host_r (namebuflen : nat) (nick nm host : option cstring) : cstring :=
  let b := (strlncpy [] (check_string nick) namebuflen (NICKLEN + 1)).1 in
  let b := (strlcat b (str "!") namebuflen).1 in
  let b := (strlncat b (check_string nm) namebuflen (USERLEN + 1)).1 in
  let b := (strlcat b (str "@") namebuflen).1 in
  (strlncat b (check_string host) namebuflen (HOSTLEN + 1)).1.

(** ** The lists *)

Record Ban := MkBan { banstr : cstring; who : cstring; when_ : Z }.

Definition identical_ban (one two : cstring) : option bool := negb <$> mycmp one two.

(** The loop of [add_listmode_ex]: [limited] is [MyUser(client) || IsMe(client)],
    [cnt] and [dna] are the variables [cnt] and [do_not_add]. *)
Fixpoint scan_list (MAXBANS : Z) (limited : bool) (banid : cstring) (l : list Ban) (i : nat) (cnt : Z)
    (dna : bool) : option (option (nat * Ban) * bool) :=
  match l with
  | [] => Some (None, dna)
  | ban :: l =>
      let cnt := if limited then cnt + 1 else cnt in
      let dna := dna || (limited && (MAXBANS <=? cnt)) in
      same ← identical_ban (banstr ban) banid;
      if same : bool then Some (Some (i, ban), dna)
      else scan_list MAXBANS limited banid l (S i) cnt dna
  end.

Definition fill_ban (banid setby : cstring) (seton : Z) : Ban :=
  MkBan (default [] (strldup (Some banid) (MAXBANLEN + 1)))
        (default [] (strldup (Some setby) (NICKLEN + USERLEN + HOSTLEN + 4))) seton.

(** The new list and the return value.  [None] is the fault of comparing two empty
    masks. *)
Definition add_listmode_ex (MAXBANS : Z) (limited : bool) (l : list Ban) (banid setby : cstring)
    (seton : Z) : option (list Ban * Z) :=
  let dna := bool_decide (l = []) && (MAXBANS <? 1) in
  r ← scan_list MAXBANS limited banid l 0 0 dna;
  match r with
  | (None, dna) =>
      if dna : bool then Some (l, -1) else Some (fill_ban banid setby seton :: l, 1)
  | (Some (i, ban), _) =>
      if (0 <? when_ ban) && (when_ ban <=? seton) then Some (l, -1)
      else Some (<[i := fill_ban banid setby seton]> l, 0)
  end.

(** [add_listmode]: the setter is the name, or nick!user@host when configured.
    [UMODE_HIDE] is a bit that the user mode module allocates. *)
Definition add_listmode (MAXBANS UMODE_HIDE TStime : Z) (setter_nuh : bool) (client : Client)
    (l : list Ban) (banid : cstring) : option (list Ban * Z) :=
  setby ← (if IsUser client && setter_nuh
           then u ← user client;
                Some (make_nick_user_host_r (NICKLEN + USERLEN + HOSTLEN + 4) (Some (name client))
                        (Some (username u))
                        (if has (umodes client) UMODE_HIDE then virthost u else Some (realhost u)))
           else Some (name client));
  add_listmode_ex MAXBANS (MyUser client || IsMe client) l banid setby TStime.

Fixpoint del_listmode (l : list Ban) (banid : cstring) : option (list Ban * Z) :=
  match l with
  | [] => Some ([], -1)
  | ban :: l =>
      same ← identical_ban banid (banstr ban);
      if same : bool then Some (l, 0)
      else r ← del_listmode l banid; Some (ban :: r.1, r.2)
  end.

Fixpoint ban_exists (l : list Ban) (s : cstring) : option bool :=
  match l with
  | [] => Some false
  | ban :: l => differ ← mycmp (banstr ban) s; if differ : bool then ban_exists l s else Some true
  end.

(** The mask behind a [~time:xx:] prefix, when there is one. *)
Definition after_time (b : cstring) : option cstring :=
  if bool_decide (take 6 b = str "~time:") then
    match find_index (Z.eqb 58) (drop 6 b) with
    | Some n => Some (drop (6 + n + 1) b)
    | None => None
    end
  else Some b.

Fixpoint ban_exists_ignore_time (l : list Ban) (s : cstring) : option bool :=
  match l with
  | [] => Some false
  | ban :: l =>
      match after_time (banstr ban) with
      | None => ban_exists_ignore_time l s
      | Some p => differ ← mycmp p s; if differ : bool then ban_exists_ignore_time l s else Some true
      end
  end.

(** ** Entries and their order *)

Definition mask_ok (m : cstring) : Prop := cstr m /\ m <> [] /\ (length m <= MAXBANLEN)%nat.

Definition key (m : cstring) : cstring := map tolower m.

Lemma identical_ban_spec a b :
  cstr a /\ a <> [] -> mask_ok b -> identical_ban a b = Some (bool_decide (key a = key b)).
Proof.
  intros (Ha & Hna) (Hb & _). unfold identical_ban. pose proof (mycmp_same_name a b Ha Hb) as H.
  destruct (mycmp a b) as [[]|]; simpl in *.
  - rewrite bool_decide_false; [done|]. intros Hk. by apply H in Hk.
  - by rewrite bool_decide_true by (by apply H).
  - tauto.
Qed.

Lemma mask_text m : mask_ok m -> cstr m /\ m <> [].
Proof. by intros (? & ? & _). Qed.

(** The stored entry for a mask that fits. *)
Lemma fill_ban_ok m setby t :
  mask_ok m -> (length setby <= NICKLEN + USERLEN + HOSTLEN + 3)%nat -> fill_ban m setby t = MkBan m setby t.
Proof.
  intros (_ & _ & Hl) Hs. unfold fill_ban, strldup. rewrite !(proj2 (Nat.eqb_neq _ _)) by (cbn; lia).
  rewrite !(proj2 (Nat.ltb_ge _ _)) by (unfold MAXBANLEN, NICKLEN, USERLEN, HOSTLEN in *; lia).
  simpl. by rewrite !take_ge.
Qed.

(** A list is well formed when its masks are, it has none twice, and each entry has
    a time. *)
Record list_ok (l : list Ban) : Prop := {
  lo_masks : Forall (fun b => mask_ok (banstr b) /\ 0 < when_ b) l;
  lo_nodup : NoDup (key ∘ banstr <$> l)
}.

Definition to_map (l : list Ban) : gmap cstring Ban := list_to_map ((fun b => (key (banstr b), b)) <$> l).

Lemma to_map_cons b l : to_map (b :: l) = <[key (banstr b) := b]> (to_map l).
Proof. done. Qed.

Lemma to_map_none l k : to_map l !! k = None <-> k ∉ (key ∘ banstr <$> l).
Proof.
  unfold to_map. rewrite <- not_elem_of_list_to_map. by rewrite <- list_fmap_compose.
Qed.

Lemma list_ok_cons b l :
  list_ok (b :: l) <-> mask_ok (banstr b) /\ 0 < when_ b /\ to_map l !! key (banstr b) = None /\ list_ok l.
Proof.
  rewrite to_map_none. split.
  - intros [H1 H2]. apply Forall_cons in H1 as [[? ?] H1]. rewrite fmap_cons in H2. apply NoDup_cons in H2 as [? ?].
    done.
  - intros (? & ? & ? & [? ?]). split; [by constructor|]. rewrite fmap_cons. by constructor.
Qed.

Lemma size_to_map l : list_ok l -> size (to_map l) = length l.
Proof.
  induction l as [|b l IH]; [done|]. intros (_ & _ & Hn & Hl)%list_ok_cons.
  rewrite to_map_cons, map_size_insert_None by done. simpl. by rewrite IH.
Qed.

(** The loop finds the entry with the same key; without one it has counted the
    whole list. *)
Lemma scan_list_spec M lim banid l i cnt dna :
  list_ok l -> mask_ok banid ->
  match to_map l !! key banid with
  | Some b => key (banstr b) = key banid /\ exists l1 l2 dna', l = l1 ++ b :: l2 /\
      scan_list M lim banid l i cnt dna = Some (Some ((i + length l1)%nat, b), dna')
  | None => exists dna', scan_list M lim banid l i cnt dna = Some (None, dna') /\
      (dna' = true <-> dna = true \/ (lim = true /\ l <> [] /\ M <= cnt + Z.of_nat (length l)))
  end.
Proof.
  intros Hl Hb. revert i cnt dna. induction l as [|b l IH]; intros i cnt dna; cbn [scan_list].
  - exists dna. split; [done|]. naive_solver.
  - apply list_ok_cons in Hl as (Hm & Hw & Hn & Hl). rewrite identical_ban_spec by (done || apply mask_text, Hm).
    cbn [mbind option_bind]. rewrite to_map_cons. destruct (decide (key (banstr b) = key banid)) as [E|E].
    + rewrite bool_decide_true by done. rewrite E, lookup_insert_eq. split; [done|]. eexists [], l, _.
      split; [done|]. simpl. by rewrite Nat.add_0_r.
    + rewrite bool_decide_false by done. rewrite lookup_insert_ne by done.
      specialize (IH Hl (S i) (if lim then cnt + 1 else cnt)
                    (dna || lim && (M <=? (if lim then cnt + 1 else cnt)))).
      destruct (to_map l !! key banid) as [b'|].
      * destruct IH as (? & l1 & l2 & dna' & -> & ->). split; [done|]. exists (b :: l1), l2, dna'.
        split; [done|]. simpl. by rewrite Nat.add_succ_r.
      * destruct IH as (dna' & -> & Hd). exists dna'. split; [done|]. rewrite Hd.
        destruct dna, lim; simpl; try naive_solver. rewrite Z.leb_le.
        split; [intros [?|(_ & _ & ?)]; right; split_and!; (done || lia)|].
        intros [?|(_ & _ & ?)]; [done|]. destruct l; [left; simpl in *; lia|right; split_and!; (done || lia)].
Qed.

(** ** Lists as maps *)

(** The oldest entry wins, the existing one if both are equally old. *)
Definition put (m : gmap cstring Ban) (b : Ban) : gmap cstring Ban :=
  match m !! key (banstr b) with
  | Some old => if when_ old <=? when_ b then m else <[key (banstr b) := b]> m
  | None => <[key (banstr b) := b]> m
  end.

Definition put_code (m : gmap cstring Ban) (b : Ban) : Z :=
  match m !! key (banstr b) with
  | Some old => if when_ old <=? when_ b then -1 else 0
  | None => 1
  end.

(** May a list of [n] entries not take another one? *)
Definition full (MAXBANS : Z) (limited : bool) (n : nat) : bool :=
  if (n =? 0)%nat then MAXBANS <? 1 else limited && (MAXBANS <=? Z.of_nat n).

Definition setter_ok (s : cstring) : Prop := (length s <= NICKLEN + USERLEN + HOSTLEN + 3)%nat.

Lemma to_map_app l1 l2 : to_map (l1 ++ l2) = to_map l1 ∪ to_map l2.
Proof. unfold to_map. by rewrite fmap_app, list_to_map_app. Qed.

Lemma list_ok_app l1 l2 : list_ok (l1 ++ l2) -> list_ok l1 /\ list_ok l2.
Proof.
  intros [H1 H2]. rewrite fmap_app in H2. apply Forall_app in H1 as [? ?]. apply NoDup_app in H2 as (? & _ & ?).
  done.
Qed.

(** Replacing an entry by one with the same key. *)
Lemma to_map_replace l1 l2 b b' :
  list_ok (l1 ++ b :: l2) -> key (banstr b') = key (banstr b) -> mask_ok (banstr b') -> 0 < when_ b' ->
  list_ok (l1 ++ b' :: l2) /\ to_map (l1 ++ b' :: l2) = <[key (banstr b') := b']> (to_map (l1 ++ b :: l2)).
Proof.
  intros [H1 H2] Hk Hm Hw. split; [split|].
  - apply Forall_app in H1 as [? H1]. apply Forall_cons in H1 as [_ ?]. apply Forall_app. split; [done|].
    by constructor.
  - by rewrite !fmap_app, !fmap_cons in *; simpl; rewrite Hk.
  - rewrite !to_map_app, !to_map_cons. rewrite Hk, insert_union_r, insert_insert_eq; [done|].
    rewrite to_map_none. rewrite fmap_app, fmap_cons in H2. apply NoDup_app in H2 as (_ & H2 & _).
    intros Hin. apply (H2 _ Hin). left.
Qed.

Lemma add_listmode_ex_spec M lim l banid setby seton :
  list_ok l -> mask_ok banid -> setter_ok setby -> 0 < seton ->
  let b := MkBan banid setby seton in
  let refuse := full M lim (length l) && bool_decide (to_map l !! key banid = None) in
  exists l', add_listmode_ex M lim l banid setby seton =
      Some (l', if refuse then -1 else put_code (to_map l) b) /\
    list_ok l' /\ to_map l' = (if refuse then to_map l else put (to_map l) b).
Proof.
  intros Hl Hb Hs Ht b refuse. unfold add_listmode_ex.
  pose proof (scan_list_spec M lim banid l 0 0 (bool_decide (l = []) && (M <? 1)) Hl Hb) as Hscan.
  unfold put, put_code, refuse. simpl. destruct (to_map l !! key banid) as [old|] eqn:E.
  - destruct Hscan as (Hk & l1 & l2 & dna & -> & ->). cbn [mbind option_bind].
    rewrite bool_decide_false, andb_false_r by done. rewrite fill_ban_ok by done.
    pose proof (lo_masks _ Hl) as Hm. apply Forall_app in Hm as [_ Hm]. apply Forall_cons in Hm as [[_ Hold] _].
    rewrite (proj2 (Z.ltb_lt _ _)), andb_true_l by done. destruct (when_ old <=? seton); [by eexists|].
    rewrite Nat.add_0_l, <- (Nat.add_0_r (length l1)), insert_app_r. simpl.
    eexists. split; [done|]. by apply (to_map_replace l1 l2 old (MkBan banid setby seton)).
  - destruct Hscan as (dna & -> & Hd). cbn [mbind option_bind].
    assert (dna = full M lim (length l)) as ->.
    { apply eq_true_iff_eq. rewrite Hd. unfold full. destruct l as [|x l]; simpl.
      - naive_solver.
      - rewrite andb_true_iff, Z.leb_le. naive_solver. }
    rewrite bool_decide_true, andb_true_r by done. destruct (full M lim (length l)); [by eexists|].
    rewrite fill_ban_ok by done. eexists. split; [done|]. split; [|done]. by apply list_ok_cons.
Qed.

Lemma del_listmode_spec l banid :
  list_ok l -> cstr banid /\ banid <> [] ->
  exists l', del_listmode l banid =
      Some (l', if bool_decide (to_map l !! key banid = None) then -1 else 0) /\
    list_ok l' /\ to_map l' = delete (key banid) (to_map l).
Proof.
  intros Hl Hb. induction l as [|b l IH]; simpl.
  - exists []. split; [done|]. split; [done|]. symmetry. apply delete_empty.
  - pose proof Hl as (Hm & Hw & Hn & Hl')%list_ok_cons. rewrite identical_ban_spec by done.
    cbn [mbind option_bind]. rewrite to_map_cons. destruct (decide (key banid = key (banstr b))) as [E|E].
    + rewrite bool_decide_true by done. exists l. rewrite E, lookup_insert_eq, bool_decide_false by done.
      split_and!; [done|done|]. by rewrite delete_insert_id.
    + rewrite bool_decide_false by done. destruct (IH Hl') as (l' & -> & Hok & Hmap). cbn [mbind option_bind fst snd].
      rewrite lookup_insert_ne by done. exists (b :: l'). split; [done|]. split.
      * apply list_ok_cons. split_and!; [done|done| |done]. rewrite Hmap, lookup_delete_ne by done. done.
      * rewrite to_map_cons, Hmap. by rewrite delete_insert_ne by done.
Qed.

Lemma ban_exists_spec l s :
  list_ok l -> mask_ok s -> ban_exists l s = Some (bool_decide (is_Some (to_map l !! key s))).
Proof.
  intros Hl Hs. induction l as [|b l IH]; simpl.
  - rewrite bool_decide_false; [done|]. by intros [? ?].
  - apply list_ok_cons in Hl as (Hm & Hw & Hn & Hl). rewrite to_map_cons.
    pose proof (identical_ban_spec _ _ (mask_text _ Hm) Hs) as Hi. unfold identical_ban in Hi.
    destruct (mycmp (banstr b) s) as [d|]; [|done]. injection Hi as Hi. cbn [mbind option_bind].
    destruct (decide (key (banstr b) = key s)) as [E|E].
    + rewrite bool_decide_true in Hi by done. destruct d; [done|]. rewrite E, lookup_insert_eq.
      by rewrite bool_decide_true by eauto.
    + rewrite bool_decide_false in Hi by done. destruct d; [|done]. by rewrite lookup_insert_ne, IH.
Qed.

(** ** Histories *)

Inductive lop :=
| LAdd (limited : bool) (banid setby : cstring) (seton : Z)
| LDel (banid : cstring).

Definition lop_ok (o : lop) : Prop :=
  match o with
  | LAdd _ banid setby seton => mask_ok banid /\ setter_ok setby /\ 0 < seton
  | LDel banid => mask_ok banid
  end.

(** The state and the return values so far, the latest first. *)
Definition lstep (M : Z) (s : list Ban * list Z) (o : lop) : option (list Ban * list Z) :=
  r ← match o with
      | LAdd lim banid setby seton => add_listmode_ex M lim s.1 banid setby seton
      | LDel banid => del_listmode s.1 banid
      end;
  Some (r.1, r.2 :: s.2).

Definition lspec (M : Z) (s : gmap cstring Ban * list Z) (o : lop) : gmap cstring Ban * list Z :=
  match o with
  | LAdd lim banid setby seton =>
      let b := MkBan banid setby seton in
      if full M lim (size s.1) && bool_decide (s.1 !! key banid = None) then (s.1, -1 :: s.2)
      else (put s.1 b, put_code s.1 b :: s.2)
  | LDel banid =>
      (delete (key banid) s.1, (if bool_decide (s.1 !! key banid = None) then -1 else 0) :: s.2)
  end.

Definition lrun (M : Z) (s : list Ban * list Z) (os : list lop) : option (list Ban * list Z) :=
  foldl (fun r o => s ← r; lstep M s o) (Some s) os.

Lemma ban_step_ok M l codes o :
  list_ok l -> lop_ok o ->
  exists l' codes', lstep M (l, codes) o = Some (l', codes') /\ list_ok l' /\
    (to_map l', codes') = lspec M (to_map l, codes) o.
Proof.
  intros Hl Ho. destruct o as [lim banid setby seton|banid]; unfold lstep; cbn [fst snd lspec].
  - destruct Ho as (Hb & Hs & Ht). rewrite size_to_map by done.
    destruct (add_listmode_ex_spec M lim l banid setby seton Hl Hb Hs Ht) as (l' & -> & Hl' & Hm).
    cbn [mbind option_bind]. eexists _, _. split; [done|]. split; [done|]. simpl.
    destruct (full M lim (length l) && _); by rewrite Hm.
  - destruct (del_listmode_spec l banid Hl (mask_text _ Ho)) as (l' & -> & Hl' & Hm).
    cbn [mbind option_bind]. eexists _, _. split; [done|]. split; [done|]. simpl. by rewrite Hm.
Qed.

Lemma ban_run_ok M os : forall l codes,
  list_ok l -> Forall lop_ok os ->
  exists l' codes', lrun M (l, codes) os = Some (l', codes') /\ list_ok l' /\
    (to_map l', codes') = foldl (lspec M) (to_map l, codes) os.
Proof.
  unfold lrun. induction os as [|o os IH]; intros l codes Hl Hos; [by eexists _, _|].
  apply Forall_cons in Hos as [Ho Hos]. destruct (ban_step_ok M l codes o Hl Ho) as (l1 & c1 & Hs & Hl1 & Hm1).
  cbn [foldl mbind option_bind]. rewrite Hs, <- Hm1. by apply IH.
Qed.

Lemma list_ok_nil : list_ok [].
Proof. split; constructor. Qed.

(** Equal maps: the same entries. *)
Lemma to_map_perm l l' : list_ok l -> list_ok l' -> to_map l = to_map l' -> l ≡ₚ l'.
Proof.
  assert (forall l, list_ok l -> l ≡ₚ (map_to_list (to_map l)).*2) as Hp.
  { clear. intros l Hl. unfold to_map. rewrite map_to_list_to_map.
    - by rewrite <- list_fmap_compose, list_fmap_id.
    - rewrite <- list_fmap_compose. apply (lo_nodup _ Hl). }
  intros Hl Hl' E. by rewrite (Hp l Hl), (Hp l' Hl'), E.
Qed.

(** Two entries for the same mask with the same time are the same entry. *)
Definition compat (a b : Ban) : Prop := key (banstr a) = key (banstr b) -> when_ a = when_ b -> a = b.

Lemma put_comm m a b : compat a b -> put (put m a) b = put (put m b) a.
Proof.
  intros Hc. unfold put. destruct (decide (key (banstr a) = key (banstr b))) as [E|E].
  - specialize (Hc E). rewrite <- E. destruct (m !! key (banstr a)) as [o|] eqn:Eo.
    + destruct (Z.leb_spec (when_ o) (when_ a)), (Z.leb_spec (when_ o) (when_ b));
        rewrite ?Eo, ?lookup_insert_eq, ?insert_insert_eq;
        bdestr; try done; rewrite ?insert_insert_eq; try (exfalso; lia);
        rewrite Hc by lia; done.
    + rewrite !lookup_insert_eq. bdestr; rewrite ?insert_insert_eq; try done. by rewrite Hc by lia.
  - destruct (m !! key (banstr a)) as [o|] eqn:Ea, (m !! key (banstr b)) as [o'|] eqn:Eb;
      bdestr; rewrite ?lookup_insert_ne, ?Ea, ?Eb by done; bdestr; try done;
      try (by rewrite insert_insert_ne); exfalso; lia.
Qed.

Lemma put_perm bs bs' : bs ≡ₚ bs' -> forall m,
  (forall a b, a ∈ bs -> b ∈ bs -> compat a b) -> foldl put m bs = foldl put m bs'.
Proof.
  induction 1 as [|x l l' Hp IH|x y l|l1 l2 l3 H1 IH1 H2 IH2]; intros m Hc; simpl.
  - done.
  - apply IH. intros a b Ha Hb. apply Hc; by right.
  - f_equal. apply put_comm, Hc; set_solver.
  - rewrite IH1 by done. apply IH2. intros a b Ha Hb. apply Hc; by rewrite H1.
Qed.

Lemma to_map_put l : list_ok l -> to_map l = foldl put ∅ (reverse l).
Proof.
  induction l as [|b l IH]; [done|]. intros (_ & _ & Hn & Hl)%list_ok_cons.
  rewrite reverse_cons, foldl_app, <- IH by done. simpl. unfold put. by rewrite Hn, to_map_cons.
Qed.

Lemma put_lookup m l k :
  list_ok l ->
  foldl put m (reverse l) !! k =
  match m !! k, to_map l !! k with
  | Some a, Some b => Some (if when_ a <=? when_ b then a else b)
  | Some a, None => Some a
  | None, r => r
  end.
Proof.
  induction l as [|b l IH]; [intros _; simpl; by destruct (m !! k)|].
  intros (_ & _ & Hn & Hl)%list_ok_cons. rewrite reverse_cons, foldl_app, to_map_cons. cbn [foldl].
  specialize (IH Hl). unfold put at 1. destruct (decide (key (banstr b) = k)) as [<-|Hne].
  - rewrite lookup_insert_eq, IH, Hn. destruct (m !! key (banstr b)) as [a|] eqn:E.
    + destruct (when_ a <=? when_ b); [by rewrite IH, Hn|by rewrite lookup_insert_eq].
    + by rewrite lookup_insert_eq.
  - rewrite lookup_insert_ne, <- IH by done. repeat case_match; by rewrite ?lookup_insert_ne.
Qed.

(** The entries of [bs] are received from another server. *)
Definition receive (M : Z) (l : list Ban) (bs : list Ban) : option (list Ban) :=
  fst <$> lrun M (l, []) (map (fun b => LAdd false (banstr b) (who b) (when_ b)) bs).

Lemma lspec_remote M bs : 1 <= M -> forall m codes,
  (foldl (lspec M) (m, codes) (map (fun b => LAdd false (banstr b) (who b) (when_ b)) bs)).1 = foldl put m bs.
Proof.
  intros HM. induction bs as [|[s w t] bs IH]; intros m codes; [done|]. simpl.
  assert (full M false (size m) = false) as -> by (unfold full; case_match; [lia|done]). simpl. apply IH.
Qed.

Lemma receive_spec M l bs :
  1 <= M -> list_ok l -> Forall (fun b => mask_ok (banstr b) /\ setter_ok (who b) /\ 0 < when_ b) bs ->
  exists l', receive M l bs = Some l' /\ list_ok l' /\ to_map l' = foldl put (to_map l) bs.
Proof.
  intros HM Hl Hbs. unfold receive.
  destruct (ban_run_ok M (map (fun b => LAdd false (banstr b) (who b) (when_ b)) bs) l [] Hl) as (l' & codes & -> & Hok & Hm).
  { apply Forall_fmap. done. }
  exists l'. split; [done|]. split; [done|]. rewrite <- (lspec_remote M bs HM (to_map l) []). by rewrite <- Hm.
Qed.

(** ** nick!user\@host *)

Lemma find_index_none p s : find_index p s = None <-> Forall (fun c => p c = false) s.
Proof.
  induction s as [|c s IH]; simpl; [split; [constructor|done]|]. destruct (p c) eqn:E.
  - split; [done|]. intros H. apply Forall_cons in H as [? _]. congruence.
  - rewrite fmap_None, IH, Forall_cons. tauto.
Qed.

(** A part that [check_string] passes through. *)
Definition word_ok (n : nat) (s : cstring) : Prop :=
  s <> [] /\ Forall (fun c => isspace c = false) s /\ (length s <= n)%nat.

Lemma check_string_word n s : word_ok n s -> check_string (Some s) = s.
Proof.
  intros (Hne & Hf & _). unfold check_string. destruct s as [|c s]; [done|]. by rewrite (proj2 (find_index_none _ _) Hf).
Qed.

Lemma find_index_drop p s n : find_index p s = Some n -> exists c r, drop n s = c :: r /\ p c = true.
Proof.
  revert n. induction s as [|c s IH]; intros n; simpl; [done|]. destruct (p c) eqn:Ec.
  - intros [= <-]. by exists c, s.
  - intros (k & Hk & ->)%fmap_Some. by apply IH.
Qed.

(** A part with white space after its first character comes out wrong: the text
    from the white space on, not the text before it. *)
Theorem check_string_defect (st : cstring) (n : nat) :
  find_index isspace st = Some n -> (0 < n < 512)%nat -> check_string (Some st) = take n (drop n st).
Proof.
  intros Hf Hn. destruct (find_index_drop _ _ _ Hf) as (c & r & Hd & _).
  unfold check_string. destruct st as [|c' st]; [done|]. rewrite Hf, Hd.
  unfold strlncpy, strnlen. rewrite (proj2 (Nat.leb_gt 512 0)), (proj2 (Nat.leb_gt _ _)) by lia. cbn [fst].
  rewrite <- take_take, (take_ge (take n _)) by (rewrite length_take; lia). destruct n; [lia|]. done.
Qed.

Lemma strlncat_fits dst src size n :
  (length dst + length src < size)%nat -> (length src <= n)%nat -> (strlncat dst src size n).1 = dst ++ src.
Proof. intros H1 H2. rewrite strlncat_take by lia. rewrite (take_ge src), take_ge; [done|..]; rewrite ?length_app; lia. Qed.

Lemma nuh_exact size nick nm host :
  (NICKLEN + USERLEN + HOSTLEN + 2 < size)%nat ->
  word_ok NICKLEN nick -> word_ok USERLEN nm -> word_ok HOSTLEN host ->
  make_nick_user_host_r size (Some nick) (Some nm) (Some host) =
  nick ++ str "!" ++ nm ++ str "@" ++ host.
Proof.
  intros Hsize Hn Hu Hh. unfold make_nick_user_host_r.
  rewrite (check_string_word _ _ Hn), (check_string_word _ _ Hu), (check_string_word _ _ Hh).
  destruct Hn as (_ & _ & Hn), Hu as (_ & _ & Hu), Hh as (_ & _ & Hh).
  unfold NICKLEN, USERLEN, HOSTLEN in *. unfold strlncpy, strnlen.
  rewrite (proj2 (Nat.leb_gt _ 0)), (proj2 (Nat.leb_gt _ (Nat.min (length nick) _))) by lia. cbn [fst].
  rewrite Nat.min_l, take_ge by lia. rewrite !strlcat_strlncat.
  assert (length (str "!") = 1%nat /\ length (str "@") = 1%nat) as [L1 L2] by done.
  rewrite (strlncat_fits nick) by lia. rewrite (strlncat_fits (nick ++ _)) by (rewrite ?length_app; lia).
  rewrite (strlncat_fits ((nick ++ _) ++ _)) by (rewrite ?length_app; lia).
  rewrite strlncat_fits by (rewrite ?length_app; lia).
  by rewrite <- !app_assoc.
Qed.

(** ** The properties *)

(** C30: a channel list is a map from masks, compared without case, to entries.
    After any sequence of additions and removals, whoever makes them, there was no
    fault, no mask is listed twice, the entries and all return values are those of
    the map, in which an existing entry is replaced only by an older one, a local
    addition finds the list full from [MAXBANS] entries on, and [ban_exists]
    answers by the map. *)
Theorem list_modes_refine (M : Z) (os : list lop) (Hos : Forall lop_ok os) :
  exists l codes, lrun M ([], []) os = Some (l, codes) /\
    (to_map l, codes) = foldl (lspec M) (∅, []) os /\
    NoDup (key ∘ banstr <$> l) /\ length l = size (to_map l) /\
    forall m, mask_ok m -> ban_exists l m = Some (bool_decide (is_Some (to_map l !! key m))).
Proof.
  destruct (ban_run_ok M os [] [] list_ok_nil Hos) as (l & codes & Hr & Hl & Hm).
  exists l, codes. split_and!; [done|done|apply (lo_nodup _ Hl)|by rewrite size_to_map|].
  intros m Hmask. by apply ban_exists_spec.
Qed.

(** Lists merge to the same result on both sides of a link.  When two servers
    with lists [la] and [lb] each receive the other's entries, both end up with the
    same entries, in whatever order they arrive; if a mask is on both lists, its
    entry is the older one. *)
Theorem list_modes_converge (M : Z) (la lb ra rb : list Ban) (HM : 1 <= M)
  (Ha : list_ok la) (Hb : list_ok lb)
  (Hsa : Forall (fun b => setter_ok (who b)) la) (Hsb : Forall (fun b => setter_ok (who b)) lb)
  (Hra : ra ≡ₚ la) (Hrb : rb ≡ₚ lb)
  (Hc : forall a b, a ∈ la ++ lb -> b ∈ la ++ lb -> compat a b) :
  exists la' lb', receive M la rb = Some la' /\ receive M lb ra = Some lb' /\ la' ≡ₚ lb' /\
    forall k, to_map la' !! k =
      match to_map la !! k, to_map lb !! k with
      | Some a, Some b => Some (if when_ a <=? when_ b then a else b)
      | Some a, None => Some a
      | None, r => r
      end.
Proof.
  assert (forall l r, r ≡ₚ l -> list_ok l -> Forall (fun b => setter_ok (who b)) l ->
    Forall (fun b => mask_ok (banstr b) /\ setter_ok (who b) /\ 0 < when_ b) r) as Hin.
  { intros l r -> [Hm _] Hs. rewrite Forall_forall in Hm. rewrite Forall_forall in Hs.
    apply Forall_forall. intros b Hbl. destruct (Hm b Hbl). auto. }
  destruct (receive_spec M la rb HM Ha (Hin _ _ Hrb Hb Hsb)) as (la' & H1 & Hla & Hma).
  destruct (receive_spec M lb ra HM Hb (Hin _ _ Hra Ha Hsa)) as (lb' & H2 & Hlb & Hmb).
  exists la', lb'. split_and!; [done|done| |].
  - apply to_map_perm; [done|done|]. rewrite Hma, Hmb, !to_map_put, <- !foldl_app by done.
    apply put_perm.
    + rewrite !reverse_Permutation, Hra, Hrb. apply Permutation_app_comm.
    + intros a b. rewrite reverse_Permutation, Hrb. apply Hc.
  - intros k. rewrite Hma, <- put_lookup by done. f_equal. apply put_perm.
    + by rewrite reverse_Permutation.
    + intros a b. rewrite Hrb. intros ??. apply Hc; apply elem_of_app; by right.
Qed.

(** An entry is replaced by an older one, a newer one is refused, and a full list
    takes no new entry. *)
Lemma list_modes_refine_witness :
  exists l codes, lrun 2 ([], [])
      [LAdd true (str "a!*@*") (str "x") 20; LAdd false (str "A!*@*") (str "y") 10;
       LAdd true (str "a!*@*") (str "z") 30; LAdd true (str "b!*@*") (str "x") 5;
       LAdd true (str "c!*@*") (str "x") 5; LDel (str "B!*@*")] = Some (l, codes) /\
    (to_map l, codes) = ({[ str "a!*@*" := MkBan (str "A!*@*") (str "y") 10 ]}, [0; -1; 1; -1; 0; 1]).
Proof.
  destruct (list_modes_refine 2
      [LAdd true (str "a!*@*") (str "x") 20; LAdd false (str "A!*@*") (str "y") 10;
       LAdd true (str "a!*@*") (str "z") 30; LAdd true (str "b!*@*") (str "x") 5;
       LAdd true (str "c!*@*") (str "x") 5; LDel (str "B!*@*")]) as (l & codes & H1 & H2 & _).
  - repeat constructor; vm_compute; (done || lia).
  - exists l, codes. split; [exact H1|]. rewrite H2. vm_compute. reflexivity.
Defined.

Lemma list_modes_converge_witness :
  exists la' lb',
    receive 60 [MkBan (str "a!*@*") (str "x") 20] [MkBan (str "A!*@*") (str "y") 10] = Some la' /\
    receive 60 [MkBan (str "A!*@*") (str "y") 10] [MkBan (str "a!*@*") (str "x") 20] = Some lb' /\
    la' ≡ₚ lb'.
Proof.
  destruct (list_modes_converge 60 [MkBan (str "a!*@*") (str "x") 20] [MkBan (str "A!*@*") (str "y") 10]
    [MkBan (str "a!*@*") (str "x") 20] [MkBan (str "A!*@*") (str "y") 10]) as (la' & lb' & H1 & H2 & H3 & _).
  - lia.
  - split; [repeat constructor; vm_compute; (done || lia)|apply NoDup_singleton].
  - split; [repeat constructor; vm_compute; (done || lia)|apply NoDup_singleton].
  - repeat constructor; vm_compute; lia.
  - repeat constructor; vm_compute; lia.
  - done.
  - done.
  - intros a b Ha Hb. apply elem_of_cons in Ha as [->| ->%list_elem_of_singleton];
      apply elem_of_cons in Hb as [->| ->%list_elem_of_singleton]; intros _; done.
  - exists la', lb'. done.
Defined.

