(* ===== verification/ModeParse.v ===== *)
(** * Parsing of channel mode lines (src/channel.c, [parse_chanmode])

    [parse_chanmode] is called again and again on one [ParseMode] and each time
    delivers the next change of a line such as [+snk-l key]: direction, letter,
    parameter.  It is modelled call by call, with the internal buffer and its size;
    [None] stands for a write outside that buffer.  The theorem describes the whole
    sequence of calls. *)
From S2P Require Import Prelude Chars Strings ChanMode.

Inductive direction := MODE_ADD | MODE_DEL.

#[export] Instance direction_eq_dec : EqDecision direction.
Proof. solve_decision. Defined.

(** [corechannelmodetable]: the letters +b, +e, +I, which all have a parameter. *)
Record CoreChannelModeTable := CoreMode { mode_bit : Z; flag : Z; halfop : bool; parameters : bool }.

Definition corechannelmodetable : list CoreChannelModeTable :=
  [CoreMode 1024 98 true true; CoreMode 512 101 true true; CoreMode 134217728 73 true true].

Definition Halfop_mode (mode : Z) : bool :=
  match List.find (fun tab => mode_bit tab =? mode) corechannelmodetable with
  | Some tab => halfop tab
  | None => true
  end.

Record ParseMode := PM {
  what : direction;
  modechar : Z;
  param : option cstring;
  extm : option Cmode;
  modebuf : cstring;                  (** what is left of the letters *)
  parabuf : option cstring            (** what is left of the parameters *)
}.

(** [sizeof(pm->buf)] *)
Definition PM_BUFSIZE : nat := 512.

Definition blank (c : Z) : bool := is_sep [ch_space] c.

(** Copying the word at [start]: [None] for a write outside [pm->buf], otherwise the
    parameter and the rest. *)
Definition copy_word (start : cstring) : option (option cstring * option cstring) :=
  let '(word, rest) := span (fun c => negb (blank c)) start in
  match rest with
  | _ :: rest =>
      let size := if (PM_BUFSIZE <? length word + 1)%nat then (PM_BUFSIZE + 1)%nat
                  else (length word + 1)%nat in
      let buf := (strlcpy [] start size).1 in
      if (PM_BUFSIZE <? length buf + 1)%nat then None
      else Some (Some (stripcrlf buf), Some rest)
  | [] => Some (Some (stripcrlf (strlcpy [] start PM_BUFSIZE).1), Some [])
  end.

(** Taking one parameter, if there is one. *)
Definition eat_param (para : option cstring) : option (option cstring * option cstring) :=
  match para with
  | None | Some [] => Some (None, para)
  | Some p =>
      match skip_while blank p with
      | [] => Some (None, Some [])
      | start => copy_word start
      end
  end.

Section parse.
Context (channelmodes : list Cmode).

(** Does the letter take a parameter?  [None] for an unknown letter. *)
Definition takes_param (w : direction) (c : Z) : option (option Cmode * bool) :=
  match List.find (fun tab => flag tab =? c) corechannelmodetable with
  | Some tab => Some (None, parameters tab)
  | None =>
      cm ← find_channel_mode_handler channelmodes c;
      Some (Some cm, (paracount cm =? 1) && match w with MODE_ADD => true | MODE_DEL => unset_with_param cm end)
  end.

(** The loop: [modes] is [pm->modebuf].  The result is the return value and the
    new [ParseMode]. *)
Fixpoint parse_loop (modes : cstring) (pm : ParseMode) : option (bool * ParseMode) :=
  match modes with
  | [] => Some (false, PM (what pm) (modechar pm) (param pm) (extm pm) [] (parabuf pm))
  | c :: modes =>
      if c =? 43 then parse_loop modes (PM MODE_ADD (modechar pm) (param pm) (extm pm) modes (parabuf pm))
      else if c =? 45 then parse_loop modes (PM MODE_DEL (modechar pm) (param pm) (extm pm) modes (parabuf pm))
      else
        match takes_param (what pm) c with
        | None => parse_loop modes (PM (what pm) c None None modes (parabuf pm))
        | Some (cm, false) => Some (true, PM (what pm) c None cm modes (parabuf pm))
        | Some (cm, true) =>
            r ← eat_param (parabuf pm);
            match r with
            | (None, para) => parse_loop modes (PM (what pm) c None cm modes para)
            | (Some p, para) => Some (true, PM (what pm) c (Some p) cm modes para)
            end
        end
  end.

(** [modebuf_in] is [Some] in the first call. *)
Definition parse_chanmode (pm : ParseMode) (modebuf_in parabuf_in : option cstring)
  : option (bool * ParseMode) :=
  let pm := match modebuf_in with
            | Some m => PM MODE_ADD 0 None None m parabuf_in
            | None => pm
            end in
  parse_loop (modebuf pm) pm.

(** The caller's loop
    [for (ret = parse_chanmode(&pm, m, p); ret; ret = parse_chanmode(&pm, NULL, NULL))],
    collecting what is delivered. *)
Fixpoint all_changes (fuel : nat) (pm : ParseMode) (m p : option cstring)
  : option (list (direction * Z * option cstring)) :=
  match fuel with
  | O => None
  | S fuel =>
      r ← parse_chanmode pm m p;
      if r.1 : bool
      then l ← all_changes fuel r.2 None None; Some ((what r.2, modechar r.2, param r.2) :: l)
      else Some []
  end.

(** ** The changes of a line *)

Definition words (s : cstring) : list cstring := base.filter nonempty (split_on [ch_space] s).

(** Does a letter want a word?  The list modes always do, another mode if it has a
    parameter and is set, or is unset and still has one; [None] if there is no such
    mode. *)
Definition wants_word (w : direction) (c : Z) : option bool :=
  if bool_decide (c ∈ [98; 101; 73]) then Some true
  else match find_channel_mode_handler channelmodes c with
       | None => None
       | Some cm =>
           Some (bool_decide (paracount cm = 1 /\ (w = MODE_ADD \/ unset_with_param cm = true)))
       end.

(** The letters from left to right; a letter with a parameter takes the next word
    and is dropped when there is none. *)
Fixpoint changes (w : direction) (modes : cstring) (ws : list cstring)
  : list (direction * Z * option cstring) :=
  match modes with
  | [] => []
  | c :: modes =>
      if c =? 43 then changes MODE_ADD modes ws
      else if c =? 45 then changes MODE_DEL modes ws
      else match wants_word w c, ws with
           | None, _ => changes w modes ws
           | Some false, _ => (w, c, None) :: changes w modes ws
           | Some true, [] => changes w modes []
           | Some true, p :: ws => (w, c, Some (stripcrlf p)) :: changes w modes ws
           end
  end.

Lemma takes_param_wants w c : wants_word w c = snd <$> takes_param w c.
Proof.
  unfold wants_word, takes_param, corechannelmodetable. cbn [List.find flag parameters].
  destruct (Z.eqb_spec 98 c) as [<-|]; [done|]. destruct (Z.eqb_spec 101 c) as [<-|]; [done|].
  destruct (Z.eqb_spec 73 c) as [<-|]; [done|]. rewrite bool_decide_false by set_solver.
  destruct (find_channel_mode_handler channelmodes c) as [cm|]; [|done]. simpl. f_equal.
  apply eq_true_iff_eq. rewrite bool_decide_eq_true, andb_true_iff, Z.eqb_eq. destruct w; naive_solver.
Qed.

Lemma words_skip s :
  words s = match skip_while blank s with
            | [] => []
            | start =>
                let '(w, rest) := span (fun c => negb (blank c)) start in
                w :: match rest with [] => [] | _ :: rest => words rest end
            end.
Proof.
  unfold words. rewrite filter_split_skip. pose proof (skip_while_head blank s) as Hh. unfold blank in *.
  destruct (skip_while _ s) as [|c t]; [done|]. rewrite split_on_span. cbn [span]. rewrite Hh. cbn [negb].
  destruct (span _ t) as [a b]. cbn [fst snd]. rewrite filter_cons_True by done. by destruct b.
Qed.


Lemma copy_word_spec start w rest :
  span (fun c => negb (blank c)) start = (w, rest) -> (length w < PM_BUFSIZE)%nat ->
  copy_word start = Some (Some (stripcrlf w), Some (tail rest)).
Proof.
  intros Hsp Hw. pose proof (span_spec (fun c => negb (blank c)) start) as H. unfold copy_word.
  rewrite Hsp in *. destruct H as (-> & _ & _). unfold strlcpy. destruct rest as [|d rest].
  - rewrite app_nil_r, (proj2 (Nat.leb_gt PM_BUFSIZE 0)), (proj2 (Nat.leb_gt PM_BUFSIZE (length w))) by (done || lia).
    cbn [fst]. by rewrite take_ge.
  - rewrite (proj2 (Nat.ltb_ge _ (length w + 1))) by lia. rewrite (proj2 (Nat.leb_gt _ 0)) by lia.
    rewrite (proj2 (Nat.leb_le _ _)) by (rewrite length_app; simpl; lia). cbn [fst].
    by rewrite Nat.add_sub, take_app_length, (proj2 (Nat.ltb_ge _ _)) by lia.
Qed.

(** One parameter is the next word. *)
Lemma eat_param_words (para : option cstring) :
  Forall (fun w => (length w < PM_BUFSIZE)%nat) (words (default [] para)) ->
  exists para', eat_param para =
      Some (match words (default [] para) with [] => None | w :: _ => Some (stripcrlf w) end, para') /\
    words (default [] para') = tail (words (default [] para)).
Proof.
  destruct para as [p|]; [|by exists None]. unfold default. cbn [id from_option]. rewrite words_skip.
  destruct p as [|x p]; [by exists (Some [])|]. unfold eat_param.
  destruct (skip_while blank (x :: p)) as [|c t]; [by exists (Some [])|].
  destruct (span (fun c => negb (blank c)) (c :: t)) as [w rest] eqn:E.
  intros [Hw _]%Forall_cons. rewrite (copy_word_spec _ _ _ E Hw). exists (Some (tail rest)). split; [done|].
  by destruct rest.
Qed.

(** One call delivers the first change of the line. *)
Lemma parse_loop_spec modes : forall pm,
  Forall (fun w => (length w < PM_BUFSIZE)%nat) (words (default [] (parabuf pm))) ->
  exists b pm', parse_loop modes pm = Some (b, pm') /\
    (length (modebuf pm') <= length modes - (if b then 1 else 0))%nat /\ (b = true -> modes <> []) /\
    Forall (fun w => (length w < PM_BUFSIZE)%nat) (words (default [] (parabuf pm'))) /\
    changes (what pm) modes (words (default [] (parabuf pm))) =
      if b then (what pm', modechar pm', param pm') ::
                changes (what pm') (modebuf pm') (words (default [] (parabuf pm')))
      else [].
Proof.
  induction modes as [|c modes IH]; intros pm Hf; cbn [parse_loop changes].
  - eexists false, _. split; [done|]. done.
  - assert (forall pm1, Forall (fun w => (length w < PM_BUFSIZE)%nat) (words (default [] (parabuf pm1))) ->
      exists b pm', parse_loop modes pm1 = Some (b, pm') /\
        (length (modebuf pm') <= length (c :: modes) - (if b then 1 else 0))%nat /\ (b = true -> c :: modes <> []) /\
        Forall (fun w => (length w < PM_BUFSIZE)%nat) (words (default [] (parabuf pm'))) /\
        changes (what pm1) modes (words (default [] (parabuf pm1))) =
          if b then (what pm', modechar pm', param pm') ::
                    changes (what pm') (modebuf pm') (words (default [] (parabuf pm')))
          else []) as IH'.
    { intros pm1 H1. destruct (IH pm1 H1) as (b & pm' & ? & ? & ? & ? & ?). exists b, pm'.
      split_and!; try done. simpl. lia. }
    destruct (c =? 43); [by apply (IH' (PM MODE_ADD (modechar pm) (param pm) (extm pm) modes (parabuf pm)))|].
    destruct (c =? 45); [by apply (IH' (PM MODE_DEL (modechar pm) (param pm) (extm pm) modes (parabuf pm)))|].
    rewrite takes_param_wants. destruct (takes_param (what pm) c) as [[cm []]|]; cbn [fmap option_fmap option_map snd];
      [| |by apply (IH' (PM (what pm) c None None modes (parabuf pm)))].
    2: { eexists true, _. split; [done|]. simpl. split_and!; [lia|done|done|done]. }
    destruct (eat_param_words _ Hf) as (para & -> & Hp). cbn [mbind option_bind].
    destruct (words (default [] (parabuf pm))) as [|w ws] eqn:Ew; simpl in Hp.
    + destruct (IH' (PM (what pm) c None cm modes para)) as (b & pm' & H); [simpl; by rewrite Hp|].
      exists b, pm'. simpl in H. by rewrite Hp in H.
    + eexists true, _. split; [done|]. simpl. rewrite Hp. apply Forall_cons in Hf as [_ Hf].
      split_and!; [lia|done|done|done].
Qed.

Lemma all_changes_spec fuel : forall pm,
  (length (modebuf pm) < fuel)%nat ->
  Forall (fun w => (length w < PM_BUFSIZE)%nat) (words (default [] (parabuf pm))) ->
  all_changes fuel pm None None =
  Some (changes (what pm) (modebuf pm) (words (default [] (parabuf pm)))).
Proof.
  induction fuel as [|fuel IH]; intros pm Hl Hf; [lia|]. cbn [all_changes]. unfold parse_chanmode.
  destruct (parse_loop_spec (modebuf pm) pm Hf) as (b & pm' & -> & Hlen & Hne & Hf' & ->).
  cbn [mbind option_bind fst snd]. destruct b; [|done]. rewrite IH; [done| |done].
  specialize (Hne eq_refl). destruct (modebuf pm); [done|]. simpl in *. lia.
Qed.

(** C33: the loop over [parse_chanmode] ends after at most one call per letter and
    one more, and delivers exactly the changes of the line: known letters from left
    to right with the direction in force, parameters word by word in order, letters
    whose parameter is missing and unknown letters dropped, as long as no parameter
    fills the buffer of [ParseMode]. *)
Theorem parse_chanmode_correct (pm : ParseMode) (m p : cstring)
  (Hp : Forall (fun w => (length w < PM_BUFSIZE)%nat) (words p)) :
  all_changes (S (length m)) pm (Some m) (Some p) = Some (changes MODE_ADD m (words p)).
Proof. apply (all_changes_spec (S (length m)) (PM MODE_ADD 0 None None m (Some p))); [simpl; lia|done]. Qed.

(** A parameter of at least the size of the buffer, followed by another one, is
    written past its end: the copy is limited to [sizeof(pm->buf) + 1] bytes. *)
Theorem parse_chanmode_overflow (word rest : cstring) :
  Forall (fun c => blank c = false) word -> (PM_BUFSIZE <= length word)%nat ->
  eat_param (Some (word ++ ch_space :: rest)) = None.
Proof.
  intros Hw Hl. destruct word as [|c w] eqn:E; [simpl in Hl; unfold PM_BUFSIZE in *; lia|]. rewrite <- E in *.
  assert (skip_while blank (word ++ ch_space :: rest) = word ++ ch_space :: rest) as Hs.
  { subst word. apply Forall_cons in Hw as [Hc _]. simpl. by rewrite Hc. }
  assert (span (fun c => negb (blank c)) (word ++ ch_space :: rest) = (word, ch_space :: rest)) as Hsp.
  { clear -Hw. induction Hw as [|c w Hc Hw IH]; [done|]. simpl. by rewrite Hc, IH. }
  unfold eat_param. rewrite Hs. rewrite E at 1. cbn [app]. rewrite E at 1. cbn [app].
  change (c :: w ++ ch_space :: rest) with ((c :: w) ++ ch_space :: rest). rewrite <- E.
  unfold copy_word. rewrite Hsp.
  rewrite (proj2 (Nat.ltb_lt PM_BUFSIZE (length word + 1))) by lia. unfold strlcpy.
  rewrite (proj2 (Nat.leb_gt _ 0)) by lia.
  rewrite (proj2 (Nat.leb_le _ _)) by (rewrite length_app; cbn [length]; lia).
  cbn [fst]. rewrite length_take, length_app, (proj2 (Nat.ltb_lt _ _)); [done|]. cbn [length]. lia.
Qed.

End parse.

Lemma parse_chanmode_correct_witness :
  all_changes shipped_modes 9 (PM MODE_ADD 0 None None [] None) (Some (str "+mo-xb+vh")) (Some (str "Alice *!*@*  Bob"))
  = Some (changes shipped_modes MODE_ADD (str "+mo-xb+vh") [str "Alice"; str "*!*@*"; str "Bob"]) /\
  changes shipped_modes MODE_ADD (str "+mo-xb+vh") [str "Alice"; str "*!*@*"; str "Bob"] =
  [(MODE_ADD, 109, None); (MODE_ADD, 111, Some (str "Alice")); (MODE_DEL, 98, Some (str "*!*@*"));
   (MODE_ADD, 118, Some (str "Bob"))].
Proof.
  split; [|vm_compute; reflexivity].
  apply (parse_chanmode_correct shipped_modes (PM MODE_ADD 0 None None [] None) (str "+mo-xb+vh") (str "Alice *!*@*  Bob")).
  repeat constructor; vm_compute; lia.
Defined.
