(* ===== verification/Crule.v ===== *)
(** * Rules of link and spamfilter blocks (src/modules/crule.c)

    A rule such as [online_time()<10 && !match_realname('x')] is scanned and parsed
    by recursive descent into a tree of nodes, which is evaluated later with
    function pointers.  The parser is modelled function by function on the suffix of
    the text that is left, with its error codes, with the partial trees it leaves on
    an error (they decide which code is returned), and with the two ways in which it
    can leave its memory: a quote that is not closed and a sixth argument.  The
    functions of the rules are reached through pointers and are a parameter of the
    evaluation; those that measure the text are defined at the end. *)
From S2P Require Import Prelude Chars Strings.

(** ** Tokens, errors, functions *)

Inductive crule_token :=
| CR_UNKNOWN | CR_END | CR_AND | CR_OR | CR_NOT | CR_OPENPAREN | CR_CLOSEPAREN | CR_COMMA
| CR_EQUAL | CR_LESS_THAN | CR_MORE_THAN | CR_WORD.

#[export] Instance crule_token_eq_dec : EqDecision crule_token.
Proof. solve_decision. Defined.

Definition IsComparisson (t : crule_token) : bool :=
  match t with CR_EQUAL | CR_LESS_THAN | CR_MORE_THAN => true | _ => false end.

Inductive crule_errcode :=
| CR_NOERR | CR_UNEXPCTTOK | CR_UNKNWTOK | CR_EXPCTAND | CR_EXPCTOR | CR_EXPCTPRIM | CR_EXPCTOPEN
| CR_EXPCTCLOSE | CR_UNKNWFUNC | CR_ARGMISMAT | CR_EXPCTVALUE.

#[export] Instance crule_errcode_eq_dec : EqDecision crule_errcode.
Proof. solve_decision. Defined.

(** The values of the enumeration. *)
Definition err_value (e : crule_errcode) : Z :=
  match e with
  | CR_NOERR => 0 | CR_UNEXPCTTOK => 1 | CR_UNKNWTOK => 2 | CR_EXPCTAND => 3 | CR_EXPCTOR => 4
  | CR_EXPCTPRIM => 5 | CR_EXPCTOPEN => 6 | CR_EXPCTCLOSE => 7 | CR_UNKNWFUNC => 8
  | CR_ARGMISMAT => 9 | CR_EXPCTVALUE => 10
  end.

Definition crule_errstr : list cstring :=
  [str "Unknown error"; str "Unexpected token"; str "Unknown token"; str "And expr expected";
   str "Or expr expected"; str "Primary expected"; str "( expected"; str ") expected";
   str "Unknown function"; str "Argument mismatch"; str "Missing value in comparisson"].

(** [None] is a read outside the array. *)
Definition _crule_errstring (errcode : Z) : option cstring :=
  if errcode =? 0 then Some (str "No error")
  else if errcode - 1 <? 0 then None else crule_errstr !! Z.to_nat (errcode - 1).

(** The function pointers of the table. *)
Inductive crule_fn :=
| F_bytes_received | F_bytes_sent | F_cap_set | F_cap_version
| F_channel_count | F_channel_member_count | F_connected
| F_connections_from_ip | F_destination | F_digit_percentage | F_directcon
| F_directop | F_has_channel_mode | F_has_swhois | F_has_user_mode
| F_idle_time | F_in_channel | F_in_security_group | F_away
| F_is_identified | F_is_local | F_is_oper | F_tls | F_is_webirc
| F_is_websocket | F_match_account | F_match_asn | F_match_asname
| F_match_away | F_match_certfp | F_match_class | F_match_country
| F_match_ip | F_match_mask | F_match_operclass | F_match_operlogin
| F_match_realhost | F_match_realname | F_match_server | F_match_sni
| F_match_tls_cipher | F_match_vhost | F_max_repeat_count
| F_messages_received | F_messages_sent | F_mixed_utf8_score
| F_non_ascii_percentage | F_online_time | F_reputation
| F_server_flood_count | F_server_port | F_tag | F_text_byte_count
| F_text_character_count | F_total_channel_flood_count | F_unicode_block_count
| F_unicode_count | F_uppercase_percentage | F_via | F_word_count.

Record crule_funclistent := Fn { fn_name : cstring; reqnumargs : Z; funcptr : crule_fn }.

Definition crule_funclist : list crule_funclistent :=
  [Fn (str "bytes_received") 0 F_bytes_received;
   Fn (str "bytes_sent") 0 F_bytes_sent;
   Fn (str "cap_set") 1 F_cap_set;
   Fn (str "cap_version") 0 F_cap_version;
   Fn (str "channel_count") 0 F_channel_count;
   Fn (str "channel_member_count") 0 F_channel_member_count;
   Fn (str "connected") 1 F_connected;
   Fn (str "connections_from_ip") 0 F_connections_from_ip;
   Fn (str "destination") 1 F_destination;
   Fn (str "digit_percentage") 0 F_digit_percentage;
   Fn (str "directcon") 1 F_directcon;
   Fn (str "directop") 0 F_directop;
   Fn (str "has_channel_mode") 1 F_has_channel_mode;
   Fn (str "has_swhois") 0 F_has_swhois;
   Fn (str "has_user_mode") 1 F_has_user_mode;
   Fn (str "idle_time") 0 F_idle_time;
   Fn (str "in_channel") 1 F_in_channel;
   Fn (str "in_security_group") 1 F_in_security_group;
   Fn (str "inchannel") 1 F_in_channel;
   Fn (str "is_away") 0 F_away;
   Fn (str "is_identified") 0 F_is_identified;
   Fn (str "is_local") 0 F_is_local;
   Fn (str "is_oper") 0 F_is_oper;
   Fn (str "is_tls") 0 F_tls;
   Fn (str "is_webirc") 0 F_is_webirc;
   Fn (str "is_websocket") 0 F_is_websocket;
   Fn (str "match_account") 1 F_match_account;
   Fn (str "match_asn") 1 F_match_asn;
   Fn (str "match_asname") 1 F_match_asname;
   Fn (str "match_away") 1 F_match_away;
   Fn (str "match_certfp") 1 F_match_certfp;
   Fn (str "match_class") 1 F_match_class;
   Fn (str "match_country") 1 F_match_country;
   Fn (str "match_ip") 1 F_match_ip;
   Fn (str "match_mask") 1 F_match_mask;
   Fn (str "match_operclass") 1 F_match_operclass;
   Fn (str "match_operlogin") 1 F_match_operlogin;
   Fn (str "match_realhost") 1 F_match_realhost;
   Fn (str "match_realname") 1 F_match_realname;
   Fn (str "match_server") 1 F_match_server;
   Fn (str "match_sni") 1 F_match_sni;
   Fn (str "match_tls_cipher") 1 F_match_tls_cipher;
   Fn (str "match_vhost") 1 F_match_vhost;
   Fn (str "max_repeat_count") 0 F_max_repeat_count;
   Fn (str "messages_received") 0 F_messages_received;
   Fn (str "messages_sent") 0 F_messages_sent;
   Fn (str "mixed_utf8_score") 0 F_mixed_utf8_score;
   Fn (str "non_ascii_percentage") 0 F_non_ascii_percentage;
   Fn (str "online_time") 0 F_online_time;
   Fn (str "reputation") 0 F_reputation;
   Fn (str "server_flood_count") 1 F_server_flood_count;
   Fn (str "server_port") 0 F_server_port;
   Fn (str "tag") 1 F_tag;
   Fn (str "text_byte_count") 0 F_text_byte_count;
   Fn (str "text_character_count") 0 F_text_character_count;
   Fn (str "total_channel_flood_count") 1 F_total_channel_flood_count;
   Fn (str "unicode_block_count") 0 F_unicode_block_count;
   Fn (str "unicode_count") 1 F_unicode_count;
   Fn (str "uppercase_percentage") 0 F_uppercase_percentage;
   Fn (str "via") 2 F_via;
   Fn (str "word_count") 0 F_word_count].

(** [strcasecmp] and [bsearch] of the C library. *)
Fixpoint strcasecmp (a b : cstring) : Z :=
  match a, b with
  | [], [] => 0
  | [], d :: _ => 0 - ascii_lower d
  | c :: _, [] => ascii_lower c
  | c :: a, d :: b =>
      let r := ascii_lower c - ascii_lower d in if r =? 0 then strcasecmp a b else r
  end.

Fixpoint bsearch {A} (cmp : A -> Z) (tab : list A) (fuel lo hi : nat) : option A :=
  match fuel with
  | O => None
  | S fuel =>
      if (hi <=? lo)%nat then None
      else
        let mid := ((lo + hi) / 2)%nat in
        x ← tab !! mid;
        if cmp x =? 0 then Some x
        else if cmp x <? 0 then bsearch cmp tab fuel lo mid
        else bsearch cmp tab fuel (S mid) hi
  end.

Definition crule_funclist_compare (key : cstring) (entry : crule_funclistent) : Z :=
  strcasecmp key (fn_name entry).

Definition find_function (name : cstring) : option crule_funclistent :=
  bsearch (crule_funclist_compare name) crule_funclist (S (length crule_funclist)) 0
    (length crule_funclist).

(** ** Nodes *)

Definition CR_MAXARGLEN : nat := 160.
Definition CR_MAXARGS : nat := 5.

(** A [CRuleNode]: [crule__not], [crule__andor] (with [arg[2]] as the flag), or a
    function with its string arguments and comparison.  Operands are [None] where
    the C pointer is NULL; a function pointer is NULL in a tree whose parsing was
    aborted. *)
Inductive CRuleNode :=
| NNot (arg0 : option CRuleNode)
| NAndOr (is_or : bool) (arg0 arg1 : option CRuleNode)
| NFunc (f : option crule_funclistent) (args : list cstring) (func_test : option (crule_token * Z)).

(** Results: [Fuel] when the bound on recursion is hit, [Oops] for an access
    outside the text or the node. *)
Inductive run (A : Type) := Fuel | Oops | Ret (a : A).
Arguments Fuel {A}.
Arguments Oops {A}.
Arguments Ret {A} a.

Definition rbind {A B} (r : run A) (k : A -> run B) : run B :=
  match r with Fuel => Fuel | Oops => Oops | Ret a => k a end.

Declare Scope run_scope.
Delimit Scope run_scope with run.
Notation "'let*' p := r 'in' k" := (rbind r (fun p => k))
  (at level 10, p pattern, r at level 100, k at level 200) : run_scope.
Open Scope run_scope.

(** ** The scanner *)

Definition word_char (c : Z) : bool :=
  isalnum c || (c =? 42) || (c =? 63) || (c =? 46) || (c =? 45) || (c =? 95).

(** [crule_gettoken]: the token and the rest, or the error. *)
Fixpoint gettoken_from (pending : Z) (s : cstring) : crule_errcode + crule_token * cstring :=
  match s with
  | [] => inr (CR_END, [])
  | c :: t =>
      if (c =? 32) || (c =? 9) then gettoken_from pending t
      else if c =? 38 then
        if pending =? 0 then gettoken_from 38 t
        else if pending =? 38 then inr (CR_AND, t) else inl CR_UNKNWTOK
      else if c =? 124 then
        if pending =? 0 then gettoken_from 124 t
        else if pending =? 124 then inr (CR_OR, t) else inl CR_UNKNWTOK
      else if c =? 33 then inr (CR_NOT, t)
      else if c =? 40 then inr (CR_OPENPAREN, t)
      else if c =? 41 then inr (CR_CLOSEPAREN, t)
      else if c =? 60 then inr (CR_LESS_THAN, t)
      else if c =? 62 then inr (CR_MORE_THAN, t)
      else if c =? 61 then
        if pending =? 0 then gettoken_from 61 t
        else if pending =? 61 then inr (CR_EQUAL, t) else inl CR_UNKNWTOK
      else if c =? 44 then inr (CR_COMMA, t)
      else if c =? 58 then inr (CR_END, t)
      else if word_char c || (c =? 39) then inr (CR_WORD, s)
      else inl CR_UNKNWTOK
  end.

Definition crule_gettoken (s : cstring) : crule_errcode + crule_token * cstring := gettoken_from 0 s.

(** The loop of [crule_getword].  Inside a quote the terminator of the text is
    copied like any other byte, and the next read is outside the text. *)
Fixpoint word_loop (quoted : bool) (maxlen : nat) (s : cstring) : run (cstring * cstring) :=
  match maxlen with
  | O => Ret ([], s)
  | S maxlen =>
      match s with
      | [] => if quoted then Oops else Ret ([], [])
      | c :: t =>
          if word_char c || (quoted && negb (c =? 39))
          then let* (w, rest) := word_loop quoted maxlen t in Ret (c :: w, rest)
          else Ret ([], s)
      end
  end.

Definition crule_getword (maxlen : nat) (s : cstring) : run (cstring * cstring) :=
  let quoted := hd 0 s =? 39 in
  let* (w, rest) := word_loop quoted maxlen (if quoted then tl s else s) in
  Ret (w, if quoted && (hd 0 rest =? 39) then tl rest else rest).

(** [atoi] of the C library on the words the scanner delivers: a sign and digits. *)
Fixpoint digits_value (acc : Z) (s : cstring) : Z :=
  match s with
  | c :: s => if (48 <=? c) && (c <=? 57) then digits_value (acc * 10 + (c - 48)) s else acc
  | [] => acc
  end.

Definition atoi (s : cstring) : Z :=
  let s := skip_while (fun c => (c =? 32) || ((9 <=? c) && (c <=? 13))) s in
  match s with
  | c :: t => if c =? 45 then - digits_value 0 t else if c =? 43 then digits_value 0 t else digits_value 0 s
  | [] => 0
  end.

(** ** The parser

    Every function gets the current token and the rest of the text, and returns an
    error code, the node it has built, the new token and the new rest. *)

Definition pres : Type := crule_errcode * option CRuleNode * crule_token * cstring.

(** [errcode = crule_gettoken(...)]; after an error the token is [CR_UNKNOWN]. *)
Definition next_token (s : cstring) : crule_errcode * crule_token * cstring :=
  match crule_gettoken s with
  | inl e => (e, CR_UNKNOWN, s)
  | inr (t, rest) => (CR_NOERR, t, rest)
  end.

(** [strcat] of a space and the word, or [strcpy]; a word that does not fit is dropped. *)
Definition join_word (cur word : cstring) : cstring :=
  match cur with
  | [] => word
  | _ => if (length cur + length word <? CR_MAXARGLEN - 1)%nat then cur ++ [ch_space] ++ word else cur
  end.

(** [argrootp->arg[argrootp->numargs++] = raw_strdup(currarg)] *)
Definition add_arg (cur : cstring) (args : list cstring) : run (list cstring) :=
  match cur with
  | [] => Ret args
  | _ => if (CR_MAXARGS <=? length args)%nat then Oops else Ret (args ++ [cur])
  end.

(** The loop of [crule_parsearglist]: [cur] is [currarg] ([arglen] is its length),
    [args] the arguments so far. *)
Fixpoint parse_args (fuel : nat) (cur : cstring) (args : list cstring) (tok : crule_token) (s : cstring)
  : run (crule_errcode * list cstring * crule_token * cstring) :=
  match fuel with
  | O => Fuel
  | S fuel =>
      if decide (tok = CR_WORD) then
        let* (word, s) := crule_getword (CR_MAXARGLEN - 1) s in
        let '(err, tok, s) := next_token s in
        if decide (err = CR_NOERR) then parse_args fuel (join_word cur word) args tok s
        else Ret (err, args, tok, s)
      else
        let* args := add_arg cur args in
        if decide (tok = CR_COMMA) then
          let '(err, tok, s) := next_token s in
          if decide (err = CR_NOERR) then parse_args fuel [] args tok s else Ret (err, args, tok, s)
        else Ret (CR_NOERR, args, tok, s)
  end.

Definition crule_parsearglist (fuel : nat) (tok : crule_token) (s : cstring)
  : run (crule_errcode * list cstring * crule_token * cstring) := parse_args fuel [] [] tok s.

(** The part of [crule_parsefunction] behind the closing parenthesis: the
    comparison. *)
Definition parse_test (func : crule_funclistent) (args : list cstring) (s : cstring) : run pres :=
  let partial := Some (NFunc None args None) in
  let '(err, tok, s) := next_token s in
  if decide (err <> CR_NOERR) then Ret (err, partial, tok, s)
  else if IsComparisson tok then
    let op := tok in
    let '(err, tok, s) := next_token s in
    if decide (err <> CR_NOERR) then Ret (err, partial, tok, s)
    else if decide (tok <> CR_WORD) then Ret (CR_EXPCTVALUE, partial, tok, s)
    else
      let* (value, s) := crule_getword (CR_MAXARGLEN - 1) s in
      let '(err, tok, s) := next_token s in
      if decide (err <> CR_NOERR) then Ret (err, partial, tok, s)
      else Ret (CR_NOERR, Some (NFunc (Some func) args (Some (op, atoi value))), tok, s)
  else Ret (CR_NOERR, Some (NFunc (Some func) args None), tok, s).

Definition crule_parsefunction (fuel : nat) (s : cstring) : run pres :=
  let* (funcname, s) := crule_getword (CR_MAXARGLEN - 1) s in
  let '(err, tok, s) := next_token s in
  if decide (err <> CR_NOERR) then Ret (err, None, tok, s)
  else if decide (tok = CR_OPENPAREN) then
    match find_function funcname with
    | None => Ret (CR_UNKNWFUNC, None, tok, s)
    | Some func =>
        let '(err, tok, s) := next_token s in
        if decide (err <> CR_NOERR) then Ret (err, None, tok, s)
        else
          let* (err, args, tok, s) := crule_parsearglist fuel tok s in
          let partial := Some (NFunc None args None) in
          if decide (err <> CR_NOERR) then Ret (err, partial, tok, s)
          else if decide (tok <> CR_CLOSEPAREN) then Ret (CR_EXPCTCLOSE, partial, tok, s)
          else if negb (reqnumargs func =? Z.of_nat (length args)) && negb (reqnumargs func =? -1)
          then Ret (CR_ARGMISMAT, partial, tok, s)
          else parse_test func args s
    end
  else Ret (CR_EXPCTOPEN, None, tok, s).

(** The assignment of [arg[1]] of an operator node. *)
Definition set_arg1 (root : CRuleNode) (x : option CRuleNode) : CRuleNode :=
  match root with NAndOr o a _ => NAndOr o a x | n => n end.

(** The new operator node: the old root becomes its first operand. *)
Definition grow (is_or : bool) (root expr : option CRuleNode) : CRuleNode :=
  NAndOr is_or (match root with Some r => Some (set_arg1 r expr) | None => expr end) None.

(** What the loops do when no operator follows. *)
Definition finish (missing : crule_errcode) (root expr : option CRuleNode) (err : crule_errcode)
    (tok : crule_token) (s : cstring) : run pres :=
  match root with
  | Some r =>
      match expr with
      | Some _ => Ret (err, Some (set_arg1 r expr), tok, s)
      | None => Ret (missing, Some (set_arg1 r None), tok, s)
      end
  | None => Ret (err, expr, tok, s)
  end.

Fixpoint crule_parseorexpr (fuel : nat) (root : option CRuleNode) (tok : crule_token) (s : cstring)
    {struct fuel} : run pres :=
  match fuel with
  | O => Fuel
  | S fuel =>
      let* (err, andexpr, tok, s) := crule_parseandexpr fuel None tok s in
      if decide (err = CR_NOERR /\ tok = CR_OR) then
        let root := grow true root andexpr in
        let '(err, tok, s) := next_token s in
        if decide (err = CR_NOERR) then crule_parseorexpr fuel (Some root) tok s
        else Ret (err, Some root, tok, s)
      else finish CR_EXPCTAND root andexpr err tok s
  end
with crule_parseandexpr (fuel : nat) (root : option CRuleNode) (tok : crule_token) (s : cstring)
    {struct fuel} : run pres :=
  match fuel with
  | O => Fuel
  | S fuel =>
      let* (err, primary, tok, s) := crule_parseprimary fuel false tok s in
      if decide (err = CR_NOERR /\ tok = CR_AND) then
        let root := grow false root primary in
        let '(err, tok, s) := next_token s in
        if decide (err = CR_NOERR) then crule_parseandexpr fuel (Some root) tok s
        else Ret (err, Some root, tok, s)
      else finish CR_EXPCTPRIM root primary err tok s
  end
with crule_parseprimary (fuel : nat) (nested : bool) (tok : crule_token) (s : cstring)
    {struct fuel} : run pres :=
  match fuel with
  | O => Fuel
  | S fuel =>
      match tok with
      | CR_OPENPAREN =>
          let '(err, tok, s) := next_token s in
          if decide (err <> CR_NOERR) then Ret (err, None, tok, s)
          else
            let* (err, node, tok, s) := crule_parseorexpr fuel None tok s in
            if decide (err <> CR_NOERR) then Ret (err, node, tok, s)
            else match node with
                 | None => Ret (CR_EXPCTAND, None, tok, s)
                 | Some _ =>
                     if decide (tok <> CR_CLOSEPAREN) then Ret (CR_EXPCTCLOSE, node, tok, s)
                     else let '(err, tok, s) := next_token s in Ret (err, node, tok, s)
                 end
      | CR_NOT =>
          let '(err, tok, s) := next_token s in
          if decide (err <> CR_NOERR) then Ret (err, Some (NNot None), tok, s)
          else let* (err, node, tok, s) := crule_parseprimary fuel true tok s in
               Ret (err, Some (NNot node), tok, s)
      | CR_WORD => crule_parsefunction fuel s
      | _ => Ret (if nested then CR_EXPCTPRIM else CR_NOERR, None, tok, s)
      end
  end.

(** The common part of [_crule_parse] and [_crule_test]: the error code and the
    root. *)
Definition parse_rule (rule : cstring) : run (crule_errcode * option CRuleNode) :=
  let '(err, tok, s) := next_token rule in
  if decide (err <> CR_NOERR) then Ret (err, None)
  else
    let* (err, root, tok, s) := crule_parseorexpr (3 * length rule + 3) None tok s in
    if decide (err <> CR_NOERR) then Ret (err, root)
    else match root with
         | Some _ => Ret (if decide (tok = CR_END) then CR_NOERR else CR_UNEXPCTTOK, root)
         | None => Ret (CR_EXPCTOR, None)
         end.

Definition _crule_parse (rule : cstring) : run (option CRuleNode) :=
  let* (err, root) := parse_rule rule in
  Ret (if decide (err = CR_NOERR) then root else None).

Definition _crule_test (rule : cstring) : run Z :=
  let* (err, root) := parse_rule rule in
  Ret (if decide (err = CR_NOERR) then 0 else err_value err + 1).

(** ** Evaluation

    [call] is a call through the function pointer; [None] is a NULL pointer that is
    followed, here or in the function. *)
Definition func_test (test : option (crule_token * Z)) (ret : Z) : Z :=
  match test with
  | Some (CR_EQUAL, v) => if ret =? v then 1 else 0
  | Some (CR_LESS_THAN, v) => if ret <? v then 1 else 0
  | Some (CR_MORE_THAN, v) => if v <? ret then 1 else 0
  | _ => ret
  end.

Section evaluation.
Context (call : crule_fn -> list cstring -> option Z).

Fixpoint _crule_eval (rule : CRuleNode) : option Z :=
  let eval := fun o => match o with Some n => _crule_eval n | None => None end in
  match rule with
  | NNot a => r ← eval a; Some (if r =? 0 then 1 else 0)
  | NAndOr true a b =>
      r ← eval a;
      if negb (r =? 0) then Some 1 else r2 ← eval b; Some (if r2 =? 0 then 0 else 1)
  | NAndOr false a b =>
      r ← eval a;
      if r =? 0 then Some 0 else r2 ← eval b; Some (if r2 =? 0 then 0 else 1)
  | NFunc f args test => f ← f; r ← call (funcptr f) args; Some (func_test test r)
  end.
End evaluation.

(** ** The scanner makes progress *)

(** What is left to read behind a token: the end of a rule counts nothing, a word
    is still to be read, any other token has been read. *)
Definition left_to_read (tok : crule_token) (s : cstring) : nat :=
  match tok with CR_END => 0 | CR_WORD => length s | _ => S (length s) end.

Definition starts_word (s : cstring) : Prop := exists c t, s = c :: t /\ word_char c || (c =? 39) = true.

(** A token and the text behind it: a word is there when one is announced. *)
Definition at_token (t : crule_token) (s : cstring) : Prop := cstr s /\ (t = CR_WORD -> starts_word s).

(** What [next_token] delivers. *)
Definition token_ok (n : nat) (r : crule_errcode * crule_token * cstring) : Prop :=
  let '(e, t, s) := r in
  e = CR_NOERR -> t <> CR_UNKNOWN /\ (left_to_read t s <= n)%nat /\ at_token t s.

Definition scanned (n : nat) (r : crule_errcode + crule_token * cstring) : Prop :=
  match r with inl e => e = CR_UNKNWTOK | inr (t, s) => token_ok n (CR_NOERR, t, s) end.

Lemma scanned_le n n' r : scanned n r -> (n <= n')%nat -> scanned n' r.
Proof.
  destruct r as [e|[t s]]; simpl; [done|]. intros H Hn He. destruct (H He) as (? & ? & ?).
  split; [done|]. split; [lia|done].
Qed.

Lemma gettoken_from_ok p s : cstr s -> scanned (length s) (gettoken_from p s).
Proof.
  revert p. induction s as [|c s IH]; intros p Hs; [by repeat split|].
  pose proof (proj2 (proj1 (cstr_cons _ _) Hs)) as Hs'.
  assert (Hle : forall q, scanned (length (c :: s)) (gettoken_from q s)).
  { intros q. eapply scanned_le; [by apply IH|simpl; lia]. }
  cbn [gettoken_from].
  repeat match goal with |- context [if ?b then _ else _] => destruct b eqn:? end; try done; try apply Hle;
    (split; [done|]; split; [simpl; lia|]; split; [done|]); try done.
  intros _. by exists c, s.
Qed.

Lemma next_token_ok s : cstr s -> token_ok (length s) (next_token s).
Proof.
  intros Hs. unfold next_token, crule_gettoken. pose proof (gettoken_from_ok 0 s Hs) as H.
  destruct (gettoken_from 0 s) as [e|[t r]]; [|done]. simpl in H. subst. by intros He.
Qed.

Lemma next_token_noerr s e t r :
  cstr s -> next_token s = (e, t, r) -> e = CR_NOERR ->
  t <> CR_UNKNOWN /\ (left_to_read t r <= length s)%nat /\ at_token t r.
Proof. intros Hs H He. pose proof (next_token_ok s Hs) as Hok. rewrite H in Hok. by apply Hok. Qed.

Lemma word_loop_ok q n s :
  match word_loop q n s with
  | Fuel => False
  | Oops => q = true
  | Ret (w, r) => s = w ++ r /\ (length w <= n)%nat
  end.
Proof.
  revert s. induction n as [|n IH]; intros s; [by simpl|]. destruct s as [|c s]; cbn [word_loop].
  - destruct q; simpl; [done|split; [done|lia]].
  - destruct (word_char c || _); [|simpl; split; [done|lia]].
    specialize (IH s). destruct (word_loop q n s) as [| |[w r]]; simpl in *; [done|done|].
    destruct IH as [-> ?]. split; [done|lia].
Qed.

(** A word at which the scanner stopped is consumed. *)
Definition word_read (s : cstring) (r : run (cstring * cstring)) : Prop :=
  match r with
  | Fuel => False
  | Oops => True
  | Ret (w, r) => (length r < length s)%nat /\ (length w <= CR_MAXARGLEN - 1)%nat /\ cstr w /\ cstr r
  end.

Lemma getword_ok s : at_token CR_WORD s -> word_read s (crule_getword (CR_MAXARGLEN - 1) s).
Proof.
  intros [Hs Hw]. destruct (Hw eq_refl) as (c & t & -> & Hc). apply cstr_cons in Hs as [Hbc Hs].
  assert (exists n, (CR_MAXARGLEN - 1)%nat = S n) as [n Hn] by (by exists 158%nat).
  rewrite Hn. unfold crule_getword. cbn [hd tl].
  destruct (Z.eqb_spec c 39) as [->|Hq].
  - pose proof (word_loop_ok true (S n) t) as H.
    destruct (word_loop true (S n) t) as [| |[w r]]; [done|done|]. cbn [rbind word_read].
    destruct H as [-> Hl]. apply cstr_app in Hs as [Hw' Hr]. cbn [length andb]. rewrite length_app.
    destruct (hd 0 r =? 39); [|repeat split; auto; lia].
    destruct r; [repeat split; auto; cbn [length tl]; lia|]. apply cstr_cons in Hr as [_ Hr].
    repeat split; auto; cbn [length tl]; lia.
  - rewrite orb_false_r in Hc. cbn [word_loop]. rewrite Hc. cbn [orb].
    pose proof (word_loop_ok false n t) as H.
    destruct (word_loop false n t) as [| |[w r]]; [done|done|]. cbn [rbind word_read andb].
    destruct H as [Ht Hl]. rewrite Ht in Hs |- *. apply cstr_app in Hs as [Hw' Hr]. cbn [length]. rewrite length_app.
    repeat split; auto; try lia. by apply cstr_cons.
Qed.

(** ** Function nodes are well typed

    A finished tree has a function of the table in every function node, with as many
    arguments as the function wants and within the bounds of the arrays. *)

Definition arg_ok (a : cstring) : Prop := cstr a /\ (0 < length a < CR_MAXARGLEN)%nat.

Fixpoint typed (n : CRuleNode) : Prop :=
  let typed' := fun o => match o with Some n => typed n | None => True end in
  match n with
  | NNot a => a <> None /\ typed' a
  | NAndOr _ a b => typed' a /\ typed' b
  | NFunc None _ _ => False
  | NFunc (Some f) args test =>
      f ∈ crule_funclist /\ Forall arg_ok args /\ (length args <= CR_MAXARGS)%nat /\
      (reqnumargs f = Z.of_nat (length args) \/ reqnumargs f = -1) /\
      match test with Some (op, _) => IsComparisson op = true | None => True end
  end.

Definition typed_opt (o : option CRuleNode) : Prop := match o with Some n => typed n | None => True end.

(** The trees under construction in the loops: an operator whose second operand is
    not set yet. *)
Definition open_root (o : option CRuleNode) : Prop :=
  match o with None => True | Some (NAndOr _ a None) => typed_opt a | Some _ => False end.

(** The common postcondition of the parsing functions: no fuel runs out, and
    without an error the tree is typed and nothing was put back. *)
Definition parsed (n : nat) (r : run pres) : Prop :=
  match r with
  | Fuel => False
  | Oops => True
  | Ret (e, node, t, s) =>
      e = CR_NOERR -> typed_opt node /\ t <> CR_UNKNOWN /\ (left_to_read t s <= n)%nat /\ at_token t s
  end.

Lemma bsearch_elem {A} (cmp : A -> Z) tab fuel lo hi x :
  bsearch cmp tab fuel lo hi = Some x -> x ∈ tab /\ cmp x = 0.
Proof.
  revert lo hi. induction fuel as [|fuel IH]; intros lo hi; [done|]. cbn [bsearch].
  destruct (hi <=? lo)%nat; [done|]. destruct (tab !! _) as [y|] eqn:Hy; [|done]. cbn [mbind option_bind].
  destruct (Z.eqb_spec (cmp y) 0).
  - intros [= ->]. split; [by eapply list_elem_of_lookup_2|done].
  - destruct (cmp y <? 0); apply IH.
Qed.

Lemma find_function_elem name f : find_function name = Some f -> f ∈ crule_funclist.
Proof. intros H. by apply bsearch_elem in H as [? _]. Qed.

Definition args_parsed (n : nat) (r : run (crule_errcode * list cstring * crule_token * cstring)) : Prop :=
  match r with
  | Fuel => False
  | Oops => True
  | Ret (e, args, t, s) =>
      e = CR_NOERR -> (Forall arg_ok args /\ (length args <= CR_MAXARGS)%nat) /\ (left_to_read t s <= n)%nat /\ cstr s
  end.

(** [currarg] while it is filled. *)
Definition cur_ok (cur : cstring) : Prop := cstr cur /\ (length cur < CR_MAXARGLEN)%nat.

Lemma join_word_ok cur word :
  cur_ok cur -> cstr word -> (length word <= CR_MAXARGLEN - 1)%nat -> cur_ok (join_word cur word).
Proof.
  intros [Hcs Hc] Hws Hw. unfold join_word, cur_ok, CR_MAXARGLEN in *. destruct cur as [|c cur]; [split; [done|lia]|].
  destruct (Nat.ltb_spec (length (c :: cur) + length word) (160 - 1)); [|done].
  split; [|rewrite !length_app; cbn [length] in *; lia].
  apply cstr_app. split; [done|]. apply cstr_cons. split; [by unfold byte_ok|done].
Qed.

Lemma args_parsed_weaken n n' r : args_parsed n r -> (n <= n')%nat -> args_parsed n' r.
Proof. destruct r as [| |[[[e a] t] s]]; simpl; [done|done|]. intros H Hn He. destruct (H He) as (? & ? & ?). split; [done|]. split; [lia|done]. Qed.

Lemma add_arg_ok cur args :
  cur_ok cur -> Forall arg_ok args -> (length args <= CR_MAXARGS)%nat ->
  match add_arg cur args with
  | Fuel => False
  | Oops => True
  | Ret args' => Forall arg_ok args' /\ (length args' <= CR_MAXARGS)%nat
  end.
Proof.
  intros [Hcs Hc] Ha Hl. unfold add_arg. destruct cur as [|c cur]; [done|].
  destruct (Nat.leb_spec CR_MAXARGS (length args)); [done|]. rewrite Forall_app, length_app.
  split; [|simpl; lia]. split; [done|]. apply Forall_singleton. split; [done|]. simpl in *. lia.
Qed.

Lemma parse_args_ok fuel cur args tok s :
  (left_to_read tok s < fuel)%nat -> at_token tok s -> cur_ok cur ->
  Forall arg_ok args -> (length args <= CR_MAXARGS)%nat ->
  args_parsed (left_to_read tok s) (parse_args fuel cur args tok s).
Proof.
  revert cur args tok s. induction fuel as [|fuel IH]; intros cur args tok s Hf Hw Hc Ha Hl; [lia|].
  cbn [parse_args]. case_decide as Htok.
  - subst tok. pose proof (getword_ok s Hw) as Hg.
    destruct (crule_getword (CR_MAXARGLEN - 1) s) as [| |[w r]]; [done|done|]. cbn [rbind].
    destruct Hg as (Hr & Hlen & Hws & Hrs). destruct (next_token r) as [[e t] s'] eqn:Ht.
    case_decide as He; [|by intros]. apply (next_token_noerr _ _ _ _ Hrs Ht) in He as (_ & Hm & Hsw).
    cbn [left_to_read] in *. eapply args_parsed_weaken; [apply IH; auto; [lia|by apply join_word_ok]|lia].
  - pose proof (add_arg_ok cur args Hc Ha Hl) as Hadd. destruct Hw as [Hs _].
    destruct (add_arg cur args) as [| |args']; [done|done|]. destruct Hadd as [Ha' Hl']. cbn [rbind].
    case_decide as Hcomma; [|intros _; by repeat split].
    subst tok. destruct (next_token s) as [[e t] s'] eqn:Ht. case_decide as He; [|by intros].
    apply (next_token_noerr _ _ _ _ Hs Ht) in He as (_ & Hm & Hsw). cbn [left_to_read] in *.
    eapply args_parsed_weaken; [apply IH; auto; [lia|]|lia]. split; [constructor|]. unfold CR_MAXARGLEN. simpl. lia.
Qed.

Lemma parsed_le n n' r : parsed n r -> (n <= n')%nat -> parsed n' r.
Proof.
  destruct r as [| |[[[e a] t] s]]; simpl; [done|done|]. intros H Hn He.
  destruct (H He) as (? & ? & ? & ?). split; [done|]. split; [done|]. split; [lia|done].
Qed.

(** An error stops the parser: nothing is promised of the tree. *)
Lemma parsed_err n e node t s : e <> CR_NOERR -> parsed n (Ret (e, node, t, s)).
Proof. intros H He. done. Qed.

Lemma parsed_token n s e t r node :
  cstr s -> next_token s = (e, t, r) -> typed_opt node -> (length s <= n)%nat -> parsed n (Ret (e, node, t, r)).
Proof.
  intros Hc Ht Hn Hs He. destruct (next_token_noerr _ _ _ _ Hc Ht He) as (? & ? & ?).
  split; [done|]. split; [done|]. split; [lia|done].
Qed.

#[local] Hint Resolve parsed_err : core.

Lemma parse_test_ok func args s :
  func ∈ crule_funclist -> Forall arg_ok args -> (length args <= CR_MAXARGS)%nat ->
  reqnumargs func = Z.of_nat (length args) \/ reqnumargs func = -1 ->
  cstr s -> parsed (length s) (parse_test func args s).
Proof.
  intros Hf Ha Hl Hn Hs. unfold parse_test. destruct (next_token s) as [[e t] r] eqn:Ht.
  case_decide as He; [auto|].
  destruct (IsComparisson t) eqn:Hcmp.
  - destruct (next_token_noerr _ _ _ _ Hs Ht He) as (_ & Hle & [Hs1 _]).
    destruct (next_token r) as [[e2 t2] r2] eqn:Ht2. case_decide as He2; [auto|].
    case_decide as Hw; [auto|]. subst t2.
    destruct (next_token_noerr _ _ _ _ Hs1 Ht2 He2) as (_ & Hle2 & Hsw). pose proof (getword_ok r2 Hsw) as Hg.
    destruct (crule_getword (CR_MAXARGLEN - 1) r2) as [| |[w r3]]; [done|done|]. cbn [rbind].
    destruct Hg as (Hr & _ & _ & Hs3).
    destruct (next_token r3) as [[e3 t3] r4] eqn:Ht3. case_decide as He3; [auto|].
    rewrite <- He3. eapply parsed_token; [exact Hs3|exact Ht3|by repeat split|].
    destruct t; try done; cbn [left_to_read] in *; lia.
  - rewrite <- He. eapply parsed_token; [exact Hs|exact Ht|by repeat split|done].
Qed.

Lemma crule_parsefunction_ok fuel s :
  at_token CR_WORD s -> (length s < fuel)%nat -> parsed (length s) (crule_parsefunction fuel s).
Proof.
  intros Hs Hf. unfold crule_parsefunction.
  pose proof (getword_ok s Hs) as Hg.
  destruct (crule_getword (CR_MAXARGLEN - 1) s) as [| |[name r]]; [done|done|]. cbn [rbind].
  destruct Hg as (Hr & _ & _ & Hs1). destruct (next_token r) as [[e t] r1] eqn:Ht. case_decide as He; [auto|].
  destruct (next_token_noerr _ _ _ _ Hs1 Ht He) as (_ & Hm & [Hs2 _]).
  case_decide as Hopen; [subst t|by apply parsed_err].
  destruct (find_function name) as [func|] eqn:Hfun; [|by apply parsed_err].
  destruct (next_token r1) as [[e2 t2] r2] eqn:Ht2. case_decide as He2; [auto|].
  destruct (next_token_noerr _ _ _ _ Hs2 Ht2 He2) as (_ & Hm2 & Hsw). cbn [left_to_read] in Hm.
  assert (Hargs := parse_args_ok fuel [] [] t2 r2 ltac:(lia) Hsw ltac:(split; [constructor|unfold CR_MAXARGLEN; simpl; lia])
                     (Forall_nil_2 _) ltac:(simpl; lia)).
  unfold crule_parsearglist. destruct (parse_args fuel [] [] t2 r2) as [| |[[[e3 args] t3] r3]]; [done|done|].
  cbn [rbind]. case_decide as He3; [auto|].
  destruct (Hargs He3) as ([Ha Hl] & Hm3 & Hs3).
  case_decide as Hclose; [by apply parsed_err|]. subst t3.
  destruct (negb _ && negb _) eqn:Hreq; [by apply parsed_err|].
  cbn [left_to_read] in Hm3. eapply parsed_le; [apply parse_test_ok; auto|lia].
  - by eapply find_function_elem.
  - apply andb_false_iff in Hreq. rewrite !negb_false_iff, !Z.eqb_eq in Hreq. done.
Qed.

Lemma grow_open is_or root expr :
  open_root root -> typed_opt expr -> open_root (Some (grow is_or root expr)).
Proof.
  intros Hr He. unfold grow. destruct root as [[a|o a b|]|]; simpl in *; try done.
  destruct b; [done|]. done.
Qed.

Lemma finish_ok n missing root expr e t s :
  missing <> CR_NOERR -> open_root root -> parsed n (Ret (e, expr, t, s)) ->
  parsed n (finish missing root expr e t s).
Proof.
  intros Hmiss Hroot Hp. unfold finish. destruct root as [r|]; [|done].
  destruct expr as [x|]; [|by apply parsed_err]. intros He. destruct (Hp He) as (Hx & ? & ? & ?).
  split; [|done]. destruct r as [a|o a b|]; simpl in *; try done. by destruct b.
Qed.

(** Without an error there is a node, where one is required. *)
Definition delivers (r : run pres) : Prop :=
  match r with Ret (e, None, _, _) => e <> CR_NOERR | _ => True end.

Lemma parse_test_delivers func args s : delivers (parse_test func args s).
Proof.
  unfold parse_test. destruct (next_token s) as [[e t] r]. case_decide; [done|].
  destruct (IsComparisson t); [|done]. destruct (next_token r) as [[e2 t2] r2]. do 2 (case_decide; [done|]).
  destruct (crule_getword _ _) as [| |[w r3]]; cbn [rbind]; [done..|].
  destruct (next_token r3) as [[e3 t3] r4]. by case_decide.
Qed.

Lemma crule_parsefunction_delivers fuel s : delivers (crule_parsefunction fuel s).
Proof.
  unfold crule_parsefunction. destruct (crule_getword _ _) as [| |[w r]]; cbn [rbind]; [done..|].
  destruct (next_token r) as [[e t] r1]. case_decide; [done|]. case_decide; [|done].
  destruct (find_function w); [|done]. destruct (next_token r1) as [[e2 t2] r2]. case_decide; [done|].
  unfold crule_parsearglist.
  destruct (parse_args _ _ _ _ _) as [| |[[[e3 a] t3] s2]]; cbn [rbind]; [done..|].
  do 2 (case_decide; [done|]). case_match; [done|apply parse_test_delivers].
Qed.

Lemma crule_parseprimary_delivers fuel tok s : delivers (crule_parseprimary fuel true tok s).
Proof.
  destruct fuel as [|fuel]; [done|]. cbn [crule_parseprimary].
  destruct tok; try done; [| |apply crule_parsefunction_delivers].
  - destruct (next_token s) as [[e t] r]. case_decide; [done|].
    destruct (crule_parseprimary _ _ _ _) as [| |[[[e2 n] t2] r2]]; done.
  - destruct (next_token s) as [[e t] r]. case_decide; [done|].
    destruct (crule_parseorexpr _ _ _ _) as [| |[[[e2 n] t2] r2]]; cbn [rbind]; [done..|].
    case_decide; [by destruct n|]. destruct n; [|done]. case_decide; [done|].
    by destruct (next_token r2) as [[e3 t3] r3].
Qed.

(** The three mutually recursive functions: the fuel covers three calls for every
    byte that is left. *)
Lemma parser_ok fuel :
  (forall root tok s, (3 * left_to_read tok s + 3 <= fuel)%nat -> tok <> CR_UNKNOWN ->
     at_token tok s -> open_root root ->
     parsed (left_to_read tok s) (crule_parseorexpr fuel root tok s)) /\
  (forall root tok s, (3 * left_to_read tok s + 2 <= fuel)%nat -> tok <> CR_UNKNOWN ->
     at_token tok s -> open_root root ->
     parsed (left_to_read tok s) (crule_parseandexpr fuel root tok s)) /\
  (forall nested tok s, (3 * left_to_read tok s + 1 <= fuel)%nat -> tok <> CR_UNKNOWN ->
     at_token tok s ->
     parsed (left_to_read tok s) (crule_parseprimary fuel nested tok s)).
Proof.
  induction fuel as [|fuel (IHor & IHand & IHprim)]; [repeat split; intros; lia|].
  split; [|split].
  - intros root tok s Hf Hu Hw Hroot. cbn [crule_parseorexpr].
    pose proof (IHand None tok s ltac:(lia) Hu Hw I) as Hp.
    destruct (crule_parseandexpr fuel None tok s) as [| |[[[e a] t] r]]; [done|done|]. cbn [rbind].
    case_decide as Hor; [|by apply finish_ok]. destruct Hor as [He ->].
    destruct (Hp He) as (Hty & _ & Hm & [Hs1 _]). destruct (next_token r) as [[e2 t2] r2] eqn:Ht.
    case_decide as He2; [|by apply parsed_err].
    destruct (next_token_noerr _ _ _ _ Hs1 Ht He2) as (Hu2 & Hm2 & Hw2). cbn [left_to_read] in Hm.
    eapply parsed_le; [apply IHor; auto; [lia|by apply grow_open]|lia].
  - intros root tok s Hf Hu Hw Hroot. cbn [crule_parseandexpr].
    pose proof (IHprim false tok s ltac:(lia) Hu Hw) as Hp.
    destruct (crule_parseprimary fuel false tok s) as [| |[[[e a] t] r]]; [done|done|]. cbn [rbind].
    case_decide as Hor; [|by apply finish_ok]. destruct Hor as [He ->].
    destruct (Hp He) as (Hty & _ & Hm & [Hs1 _]). destruct (next_token r) as [[e2 t2] r2] eqn:Ht.
    case_decide as He2; [|by apply parsed_err].
    destruct (next_token_noerr _ _ _ _ Hs1 Ht He2) as (Hu2 & Hm2 & Hw2). cbn [left_to_read] in Hm.
    eapply parsed_le; [apply IHand; auto; [lia|by apply grow_open]|lia].
  - intros nested tok s Hf Hu Hw. cbn [crule_parseprimary].
    assert (Hdef : parsed (left_to_read tok s) (Ret (if nested then CR_EXPCTPRIM else CR_NOERR, None, tok, s))).
    { intros _. by destruct Hw. }
    destruct tok; try done.
    + destruct (next_token s) as [[e t] r] eqn:Ht. case_decide as He; [auto|].
      destruct (next_token_noerr _ _ _ _ (proj1 Hw) Ht He) as (Hu2 & Hm2 & Hw2). cbn [left_to_read] in *.
      pose proof (IHprim true t r ltac:(lia) Hu2 Hw2) as Hp.
      pose proof (crule_parseprimary_delivers fuel t r) as Hd.
      destruct (crule_parseprimary _ _ _ _) as [| |[[[e2 n] t2] r2]]; [done|done|]. intros He2.
      destruct (Hp He2) as (Hty & ? & ? & ?). split; [split; [|done]; intros ->; by apply Hd|].
      split; [done|]. split; [lia|done].
    + destruct (next_token s) as [[e t] r] eqn:Ht. case_decide as He; [auto|].
      destruct (next_token_noerr _ _ _ _ (proj1 Hw) Ht He) as (Hu2 & Hm2 & Hw2). cbn [left_to_read] in *.
      pose proof (IHor None t r ltac:(lia) Hu2 Hw2 I) as Hp.
      destruct (crule_parseorexpr _ _ _ _) as [| |[[[e2 n] t2] r2]]; [done|done|]. cbn [rbind].
      case_decide as He2; [auto|]. destruct (Hp He2) as (Hty & ? & Hm3 & [Hs3 _]).
      destruct n; [|by apply parsed_err]. case_decide as Hc; [by apply parsed_err|]. subst t2.
      destruct (next_token r2) as [[e3 t3] r3] eqn:Ht3. cbn [left_to_read] in Hm3.
      eapply parsed_token; [exact Hs3|exact Ht3|done|lia].
    + cbn [left_to_read] in *. apply crule_parsefunction_ok; auto.
      destruct (proj2 Hw eq_refl) as (? & ? & -> & _). simpl in *. lia.
Qed.

Lemma parse_rule_ok rule :
  cstr rule ->
  match parse_rule rule with
  | Fuel => False
  | Oops => True
  | Ret (e, root) => e = CR_NOERR -> exists n, root = Some n /\ typed n
  end.
Proof.
  intros Hs. unfold parse_rule. destruct (next_token rule) as [[e t] s] eqn:Ht. case_decide as He; [done|].
  destruct (next_token_noerr _ _ _ _ Hs Ht He) as (Hu & Hm & Hw).
  destruct (parser_ok (3 * length rule + 3)) as [Hor _].
  specialize (Hor None t s ltac:(lia) Hu Hw I).
  destruct (crule_parseorexpr _ _ _ _) as [| |[[[e2 root] t2] s2]]; [done|done|]. cbn [rbind].
  case_decide as He2; [done|]. destruct (Hor He2) as (Hty & _). destruct root as [n|]; [|done]. eauto.
Qed.

(** No operand of a tree is NULL. *)
Fixpoint complete (n : CRuleNode) : Prop :=
  let complete' := fun o => match o with Some n => complete n | None => False end in
  match n with
  | NNot a => complete' a
  | NAndOr _ a b => complete' a /\ complete' b
  | NFunc _ _ _ => True
  end.

(** Induction on trees with their optional operands. *)
Lemma CRuleNode_ind' (P : CRuleNode -> Prop) :
  P (NNot None) -> (forall a, P a -> P (NNot (Some a))) ->
  (forall o a b, (forall x, a = Some x -> P x) -> (forall x, b = Some x -> P x) -> P (NAndOr o a b)) ->
  (forall f args t, P (NFunc f args t)) -> forall n, P n.
Proof.
  intros H1 H2 H3 H4. fix IH 1. intros n. destruct n as [[a|]|o a b|f args t].
  - apply H2, IH.
  - exact H1.
  - apply H3; intros x Hx; [destruct a; [|discriminate Hx]|destruct b; [|discriminate Hx]]; injection Hx as <-; apply IH.
  - apply H4.
Qed.

(** The table asks for as many arguments as a function uses. *)
Definition accepts (call : crule_fn -> list cstring -> option Z) (f : crule_funclistent) : Prop :=
  forall args, Forall arg_ok args -> reqnumargs f = Z.of_nat (length args) -> is_Some (call (funcptr f) args).

Lemma reqnumargs_nonneg f : f ∈ crule_funclist -> reqnumargs f <> -1.
Proof.
  intros Hf. apply list_elem_of_In in Hf.
  pose proof (proj1 (forallb_forall (fun f => negb (reqnumargs f =? -1)) crule_funclist)
                ltac:(vm_compute; reflexivity) f Hf) as H.
  simpl in H. apply negb_true_iff, Z.eqb_neq in H. done.
Qed.

Lemma typed_eval call n :
  (forall f, f ∈ crule_funclist -> accepts call f) -> typed n -> complete n -> is_Some (_crule_eval call n).
Proof.
  intros Hcall. induction n as [|a IH|o a b IHa IHb|f args t] using CRuleNode_ind'; intros Ht Hc; [done| | |].
  - destruct Ht as [_ Ht]. destruct (IH Ht Hc) as [v Hv]. simpl. rewrite Hv. eauto.
  - destruct Ht as [Hta Htb], Hc as [Hca Hcb]. destruct a as [a|]; [|done]. destruct b as [b|]; [|done].
    destruct (IHa a eq_refl Hta Hca) as [v Hv], (IHb b eq_refl Htb Hcb) as [w Hw].
    simpl. rewrite Hv, Hw. destruct o; simpl; case_match; eauto.
  - destruct f as [f|]; [|done]. destruct Ht as (Hf & Ha & _ & [Hn|Hn] & _); [|by apply reqnumargs_nonneg in Hn].
    destruct (Hcall f Hf args Ha Hn) as [v Hv]. simpl. rewrite Hv. simpl. eauto.
Qed.

Lemma crule_parse_ok rule root :
  cstr rule -> _crule_parse rule = Ret (Some root) -> typed root.
Proof.
  intros Hs. unfold _crule_parse. pose proof (parse_rule_ok rule Hs) as H.
  destruct (parse_rule rule) as [| |[e r]]; cbn [rbind]; [done..|].
  case_decide as He; [|done]. destruct (H He) as (n & -> & Hn). by intros [= <-].
Qed.

(** [crule_test] and [crule_parse] agree and terminate on every rule.  Either both
    leave the memory of the rule or the node (an unclosed quote, a sixth argument),
    or both return: the test yields 0 exactly when the parser returns a tree, and
    any other code, up to 11, is one that [crule_errstring] has a message for (and never the
    placeholder "Unknown error"). *)
Theorem crule_test_agrees rule :
  cstr rule ->
  (_crule_parse rule = Oops /\ _crule_test rule = Oops) \/
  exists root code, _crule_parse rule = Ret root /\ _crule_test rule = Ret code /\
    (code = 0 <-> root <> None) /\
    (root = None -> 2 <= code <= 11 /\ exists msg, _crule_errstring code = Some msg /\
                    crule_errstr !! Z.to_nat (code - 1) = Some msg).
Proof.
  intros Hs. unfold _crule_parse, _crule_test. pose proof (parse_rule_ok rule Hs) as H.
  destruct (parse_rule rule) as [| |[e r]]; cbn [rbind]; [done|by left|]. right.
  case_decide as He.
  - destruct (H He) as (n & -> & Hn). by exists (Some n), 0.
  - exists None, (err_value e + 1). repeat split; try done; try (by destruct e).
    destruct e; try done; eexists; split; reflexivity.
Qed.

Lemma crule_test_agrees_witness :
  (_crule_parse (str "tag(a) || (") = Oops /\ _crule_test (str "tag(a) || (") = Oops) \/
  exists root code, _crule_parse (str "tag(a) || (") = Ret root /\ _crule_test (str "tag(a) || (") = Ret code /\
    (code = 0 <-> root <> None) /\
    (root = None -> 2 <= code <= 11 /\ exists msg, _crule_errstring code = Some msg /\
                    crule_errstr !! Z.to_nat (code - 1) = Some msg).
Proof. apply (crule_test_agrees (str "tag(a) || (")). repeat constructor. Defined.

(** A rule in which an operand is missing is accepted, and evaluating it follows a
    NULL pointer. *)
Lemma crule_missing_operand call :
  exists root, _crule_test (str "&& directop()") = Ret 0 /\
    _crule_parse (str "&& directop()") = Ret (Some root) /\ _crule_eval call root = None.
Proof. eexists. split; [vm_compute; reflexivity|]. split; [vm_compute; reflexivity|]. reflexivity. Qed.

(** The two accesses outside the text and the node. *)
Lemma crule_unclosed_quote : _crule_test (str "match_realname('x)") = Oops.
Proof. vm_compute. reflexivity. Qed.

Lemma crule_six_arguments : _crule_test (str "via(a,b,c,d,e,f)") = Oops.
Proof. vm_compute. reflexivity. Qed.
