(* ===== verification/CruleFuncs.v ===== *)
(** * The functions that rules can call (src/modules/crule.c)

    The sixty functions behind the table of [Crule], on the parts of a client, of a
    message and of the network that they read.  An argument that is not there is a NULL
    pointer, and using it is the fault [None]; so is a read past the end of an empty
    argument.  What other modules provide through function pointers is a record of
    functions.  The main result is that an accepted rule never makes such a
    function use an argument that the table did not ask for. *)
From S2P Require Import Prelude Chars Glob Strings Client ChanMode Crule.

(** ** What the functions read *)

Record RuleTraffic := MkRuleTraffic {
  t_messages_sent : Z; t_messages_received : Z; t_bytes_sent : Z; t_bytes_received : Z
}.

Record RuleLocal := MkRuleLocal {
  r_flood : list Z;                          (** [flood[i].blocked] *)
  r_tags : list (cstring * Z);
  r_cap_protocol : Z;
  r_caps : Z;
  r_creationtime : Z;
  r_idle_since : Z;
  r_class : option cstring;                  (** [class->name] *)
  r_sni : option cstring;
  r_listener_port : option Z;
  r_traffic : RuleTraffic
}.

Record RuleUser := MkRuleUser {
  r_away : option cstring;
  r_account : cstring;
  r_joined : Z;
  r_server : option cstring;
  r_realhost : cstring;
  r_virthost : option cstring;
  r_operlogin : option cstring;
  r_swhois : bool;
  r_channel : list (cstring * cstring)       (** name and [member_modes] *)
}.

Record RuleClient := MkRuleClient {
  r_status : ClientStatus;
  r_flags : Z;
  r_umodes : Z;
  r_info : cstring;
  r_local : option RuleLocal;
  r_user : option RuleUser;
  r_moddata : cstring -> option cstring;     (** [moddata_client_get] *)
  r_moddata_port : Z                         (** the raw [server_port], 0 when unset *)
}.

Record TextAnalysis := MkTextAnalysis {
  antimixedutf8_points : Z;
  unicode_blocks : Z;
  num_unicode_characters : Z;
  unicode_blockmap : list Z
}.

Record crule_context := MkContext {
  c_client : option RuleClient;
  c_text : option cstring;
  c_destination : option cstring;
  c_textanalysis : option TextAnalysis
}.

(** The network and the functions of other modules. *)
Record network := MkNetwork {
  now : Z;                                                   (** [TStime()] *)
  UMODE_OPER : Z; UMODE_HIDE : Z; UMODE_SECURE : Z;
  global_servers : list (cstring * cstring);                 (** name and uplink of every server *)
  lclients : list (bool * bool * cstring);                   (** [IsServer], [IsOper] and name of local clients *)
  channelmodes_bits : list (Z * Z);                          (** letter and bit *)
  channel_of : cstring -> option (Z * Z);                    (** [find_channel]: users and mode bits *)
  find_user_mode : Z -> Z;
  capability_bit : cstring -> Z;
  operclass_of : cstring -> option cstring;                  (** the operclass of an oper block *)
  e_channel_flood_blocked_count : RuleClient -> cstring -> Z;
  e_match_user : cstring -> RuleClient -> Z -> bool;
  e_security_group : RuleClient -> cstring -> bool;
  e_extended_ban : RuleClient -> cstring -> cstring -> bool;
  e_utf8_get_block_number : cstring -> Z;
  e_get_connections_from_ip : RuleClient -> Z;
  e_geoip_asname : RuleClient -> option cstring
}.

(** A conversion to [int]. *)
Definition to_int (z : Z) : Z := (z + 2 ^ 31) mod 2 ^ 32 - 2 ^ 31.

Definition RIsUser (c : RuleClient) : bool := bool_decide (r_status c = CLIENT_STATUS_USER).
Definition CLIENT_FLAG_TLS : Z := 16777216.
Definition RIsSecure (c : RuleClient) : bool := has (r_flags c) CLIENT_FLAG_TLS.

(** [MyUser(client)], with the local part it promises. *)
Definition my_user (c : RuleClient) : option RuleLocal := if RIsUser c then r_local c else None.

(** [IsLoggedIn] *)
Definition IsLoggedIn (c : RuleClient) : bool :=
  match r_user c with
  | Some u => negb (hd 0 (r_account u) =? 42) && negb (isdigit (hd 0 (r_account u)))
  | None => false
  end.

Definition isupper (c : Z) : bool := attr 4 c && (c mod 256 <? 96).

(** [find_tag] *)
Definition find_tag (c : RuleClient) (name : cstring) : option Z :=
  match r_local c with
  | None => None
  | Some l => snd <$> List.find (fun e => strcasecmp (fst e) name =? 0) (r_tags l)
  end.

Definition inchannel_compareflags (symbol : Z) (member_modes : cstring) : Z :=
  let check := fun required => if check_channel_access_string member_modes required then 1 else 0 in
  if symbol =? 43 then check (str "vhoaq")
  else if symbol =? 37 then check (str "hoaq")
  else if symbol =? 64 then check (str "oaq")
  else if symbol =? 38 then check (str "aq")
  else if symbol =? 126 then check (str "q")
  else 0.

Section functions.
Context (net : network) (ctx : crule_context).

Definition RIsOper (c : RuleClient) : bool := has (r_umodes c) (UMODE_OPER net).
(** [None] is the null pointer. *)
Definition GetHost (c : RuleClient) (u : RuleUser) : option cstring :=
  if has (r_umodes c) (UMODE_HIDE net) then r_virthost u else Some (r_realhost u).

Definition has_user_mode (c : RuleClient) (mode : Z) : bool := has (r_umodes c) (find_user_mode net mode).

Definition has_channel_mode (bits mode : Z) : bool :=
  existsb (fun cm => (fst cm =? mode) && has bits (snd cm)) (channelmodes_bits net).

Definition get_connected_time (c : RuleClient) : Z :=
  match r_local c with
  | Some l => now net - r_creationtime l
  | None =>
      match r_moddata c (str "creationtime") with
      | Some (d :: s) => if d =? 48 then 0 else now net - atoi (d :: s)
      | _ => 0
      end
  end.

Definition get_server_port (c : RuleClient) : Z :=
  match r_local c with
  | Some l => match r_listener_port l with Some p => p | None => r_moddata_port c end
  | None => r_moddata_port c
  end.

Definition get_operclass (c : RuleClient) : option cstring :=
  let remote := r_moddata c (str "operclass") in
  match my_user c, r_user c with
  | Some _, Some u =>
      match r_operlogin u with
      | Some login => match operclass_of net login with Some cl => Some cl | None => remote end
      | None => remote
      end
  | _, _ => remote
  end.

(** ** The functions *)

(** [context && context->client] and the other guards: 0 without the object. *)
Definition on {A} (o : option A) (k : A -> option Z) : option Z :=
  match o with Some a => k a | None => Some 0 end.

Definition flag (b : bool) : option Z := Some (if b then 1 else 0).

(** [match_simple(arg, s) ? 1 : 0] with the argument of the rule. *)
Definition match_arg (args : list cstring) (s : cstring) : option Z :=
  a ← args !! 0%nat; b ← match_simple a s; flag b.

Definition crule_away : option Z :=
  on (c_client ctx) (fun c => if RIsUser c then u ← r_user c;
    match r_away u with Some (_ :: _) => Some 1 | _ => Some 0 end else Some 0).
Definition crule_is_identified : option Z := on (c_client ctx) (fun c => flag (IsLoggedIn c)).
Definition moddata_set (name : cstring) : option Z :=
  on (c_client ctx) (fun c => flag (bool_decide (is_Some (r_moddata c name)))).
Definition crule_is_websocket : option Z := moddata_set (str "websocket").
Definition crule_is_webirc : option Z := moddata_set (str "webirc").
Definition crule_tls : option Z :=
  on (c_client ctx) (fun c => flag (RIsSecure c || has (r_umodes c) (UMODE_SECURE net))).
Definition crule_has_user_mode (args : list cstring) : option Z :=
  on (c_client ctx) (fun c => modes ← args !! 0%nat;
    match modes with [] => Some 0 | _ => flag (forallb (has_user_mode c) modes) end).
Definition crule_has_channel_mode (args : list cstring) : option Z :=
  on (c_destination ctx) (fun d =>
    if negb (hd 0 d =? 35) then Some 0
    else on (channel_of net d) (fun ch => modes ← args !! 0%nat; flag (forallb (has_channel_mode (snd ch)) modes))).

(** The loops over servers and local clients: 1 at the first that matches. *)
Fixpoint first_match {A} (test : A -> option bool) (l : list A) : option Z :=
  match l with
  | [] => Some 0
  | x :: l => b ← test x; if (b : bool) then Some 1 else first_match test l
  end.

Definition crule_connected (args : list cstring) : option Z :=
  first_match (fun sv : cstring * cstring => a ← args !! 0%nat; match_simple a (fst sv)) (global_servers net).
Definition crule_directcon (args : list cstring) : option Z :=
  first_match (fun cl : bool * bool * cstring => if fst (fst cl) then a ← args !! 0%nat; match_simple a (snd cl) else Some false) (lclients net).
Definition crule_via (args : list cstring) : option Z :=
  first_match (fun sv : cstring * cstring =>
    a1 ← args !! 1%nat; b ← match_simple a1 (fst sv);
    if (b : bool) then a0 ← args !! 0%nat; match_simple a0 (snd sv) else Some false) (global_servers net).
Definition crule_directop : option Z := flag (existsb (fun cl => snd (fst cl)) (lclients net)).
Definition crule_online_time : option Z := on (c_client ctx) (fun c => Some (to_int (get_connected_time c))).
Definition crule_reputation : option Z :=
  on (c_client ctx) (fun c => on (r_moddata c (str "reputation")) (fun s => Some (atoi s))).

Definition MAXFLOODOPTIONS : nat := 10.
Definition floodoption_shortnames : list (option cstring) :=
  [Some (str "nick"); Some (str "join"); Some (str "away"); Some (str "invite"); Some (str "knock");
   Some (str "conversations"); None; Some (str "vhost"); None; None; None].

Definition crule_server_flood_count (args : list cstring) : option Z :=
  on (c_client ctx) (fun c => on (r_local c) (fun l =>
    type ← args !! 0%nat;
    if strcasecmp type (str "all") =? 0 then Some (foldr Z.add 0 (take MAXFLOODOPTIONS (r_flood l)))
    else
      on (List.find (fun nb => match fst nb with Some n => strcasecmp n type =? 0 | None => false end)
            (zip (take MAXFLOODOPTIONS floodoption_shortnames) (r_flood l)))
         (fun nb => Some (snd nb)))).
Definition crule_total_channel_flood_count (args : list cstring) : option Z :=
  on (c_client ctx) (fun c => a ← args !! 0%nat; Some (e_channel_flood_blocked_count net c a)).
Definition crule_tag (args : list cstring) : option Z :=
  on (c_client ctx) (fun c => a ← args !! 0%nat; on (find_tag c a) Some).

(** The loop over the channels of the user. *)
Fixpoint in_channel_loop (symbol : Z) (p : cstring) (l : list (cstring * cstring)) : option Z :=
  match l with
  | [] => Some 0
  | (name, modes) :: l =>
      b ← match_esc p name;
      if (b : bool) && ((symbol =? 0) || negb (inchannel_compareflags symbol modes =? 0)) then Some 1
      else in_channel_loop symbol p l
  end.

(** An argument that does not start with '#' starts with a symbol; an empty one has
    no byte behind its terminator. *)
Definition crule_in_channel (args : list cstring) : option Z :=
  on (c_client ctx) (fun c => on (r_user c) (fun u =>
    a ← args !! 0%nat;
    match a with
    | [] => None
    | d :: p => if d =? 35 then in_channel_loop 0 a (r_channel u) else in_channel_loop d p (r_channel u)
    end)).
Definition crule_destination (args : list cstring) : option Z := on (c_destination ctx) (match_arg args).
Definition crule_cap_version : option Z :=
  on (c_client ctx) (fun c => on (r_local c) (fun l => Some (r_cap_protocol l))).
Definition crule_cap_set (args : list cstring) : option Z :=
  on (c_client ctx) (fun c => on (r_local c) (fun l => a ← args !! 0%nat; flag (has (r_caps l) (capability_bit net a)))).
Definition crule_in_security_group (args : list cstring) : option Z :=
  on (c_client ctx) (fun c => a ← args !! 0%nat; flag (e_security_group net c a)).
Definition crule_match_mask (args : list cstring) : option Z :=
  on (c_client ctx) (fun c => a ← args !! 0%nat; flag (e_match_user net a c (Z.lor (Z.lor 2 1) 16))).
Definition crule_match_ip (args : list cstring) : option Z :=
  on (c_client ctx) (fun c => a ← args !! 0%nat; flag (e_match_user net a c (Z.lor 1 8192))).
Definition extban_arg (name : cstring) (args : list cstring) : option Z :=
  on (c_client ctx) (fun c => a ← args !! 0%nat; flag (e_extended_ban net c name a)).
Definition crule_match_account : list cstring -> option Z := extban_arg (str "account").
Definition crule_match_country : list cstring -> option Z := extban_arg (str "country").
Definition crule_match_asn : list cstring -> option Z := extban_arg (str "asn").
Definition crule_match_certfp : list cstring -> option Z := extban_arg (str "certfp").
Definition crule_match_realname (args : list cstring) : option Z :=
  on (c_client ctx) (fun c => match_arg args (r_info c)).
Definition crule_unicode_count (args : list cstring) : option Z :=
  on (c_textanalysis ctx) (fun ta =>
    a ← args !! 0%nat;
    let i := e_utf8_get_block_number net a in
    if i <? 0 then Some (-1) else unicode_blockmap ta !! Z.to_nat i).
Definition crule_server_port : option Z := on (c_client ctx) (fun c => Some (get_server_port c)).
Definition crule_match_class (args : list cstring) : option Z :=
  on (c_client ctx) (fun c => on (my_user c) (fun l => on (r_class l) (match_arg args))).
Definition crule_match_asname (args : list cstring) : option Z :=
  on (c_client ctx) (fun c => on (e_geoip_asname net c) (match_arg args)).
Definition crule_connections_from_ip : option Z :=
  on (c_client ctx) (fun c => Some (e_get_connections_from_ip net c)).
Definition crule_channel_count : option Z :=
  on (c_client ctx) (fun c => on (r_user c) (fun u => Some (r_joined u))).
Definition crule_text_byte_count : option Z := on (c_text ctx) (fun s => Some (to_int (Z.of_nat (length s)))).
Definition crule_is_local : option Z := on (c_client ctx) (fun c => flag (bool_decide (is_Some (my_user c)))).
Definition crule_match_sni (args : list cstring) : option Z :=
  on (c_client ctx) (fun c => on (my_user c) (fun l => on (r_sni l) (match_arg args))).
Definition crule_match_tls_cipher (args : list cstring) : option Z :=
  on (c_client ctx) (fun c => on (r_moddata c (str "tls_cipher")) (match_arg args)).
Definition crule_idle_time : option Z :=
  on (c_client ctx) (fun c => on (my_user c) (fun l => Some (to_int (now net - r_idle_since l)))).
Definition crule_match_server (args : list cstring) : option Z :=
  on (c_client ctx) (fun c => on (r_user c) (fun u => on (r_server u) (match_arg args))).
Definition crule_match_vhost (args : list cstring) : option Z :=
  on (c_client ctx) (fun c => if RIsUser c then u ← r_user c; h ← GetHost c u; match_arg args h else Some 0).
Definition crule_is_oper : option Z := on (c_client ctx) (fun c => flag (RIsOper c)).
Definition crule_match_operlogin (args : list cstring) : option Z :=
  on (c_client ctx) (fun c => on (r_user c) (fun u => on (r_operlogin u) (match_arg args))).

(** [upper * 100 / total] *)
Definition percentage (part total : Z) : Z := if 0 <? total then part * 100 / total else 0.

Definition crule_uppercase_percentage : option Z :=
  on (c_text ctx) (fun s =>
    let step := fun '(total, upper) c =>
      if isalpha c then (total + 1, if isupper c then upper + 1 else upper) else (total, upper) in
    let '(total, upper) := fold_left step s (0, 0) in Some (percentage upper total)).
Definition crule_messages_sent : option Z :=
  on (c_client ctx) (fun c => on (my_user c) (fun l => Some (to_int (t_messages_received (r_traffic l))))).
Definition crule_match_away (args : list cstring) : option Z :=
  on (c_client ctx) (fun c => on (r_user c) (fun u => on (r_away u) (match_arg args))).
Definition crule_channel_member_count : option Z :=
  on (c_destination ctx) (fun d => on (channel_of net d) (fun ch => Some (fst ch))).
Definition crule_match_realhost (args : list cstring) : option Z :=
  on (c_client ctx) (fun c => on (r_user c) (fun u => match_arg args (r_realhost u))).

(** The loop of [crule_word_count] over [(count, in_word)]. *)
Definition word_step (st : Z * bool) (c : Z) : Z * bool :=
  let '(count, in_word) := st in
  if (c =? 32) || (c =? 9) then (count, false)
  else if negb in_word then (count + 1, true) else (count, true).
Definition crule_word_count : option Z :=
  on (c_text ctx) (fun s => Some (fst (fold_left word_step s (0, false)))).
Definition crule_has_swhois : option Z :=
  on (c_client ctx) (fun c => on (r_user c) (fun u => flag (r_swhois u))).
Definition crule_match_operclass (args : list cstring) : option Z :=
  on (c_client ctx) (fun c => if RIsOper c then on (get_operclass c) (match_arg args) else Some 0).
Definition crule_messages_received : option Z :=
  on (c_client ctx) (fun c => on (my_user c) (fun l => Some (to_int (t_messages_sent (r_traffic l))))).
Definition crule_bytes_sent : option Z :=
  on (c_client ctx) (fun c => on (my_user c) (fun l => Some (to_int (t_bytes_received (r_traffic l))))).
Definition crule_bytes_received : option Z :=
  on (c_client ctx) (fun c => on (my_user c) (fun l => Some (to_int (t_bytes_sent (r_traffic l))))).
Definition crule_mixed_utf8_score : option Z := on (c_textanalysis ctx) (fun ta => Some (antimixedutf8_points ta)).
Definition crule_unicode_block_count : option Z := on (c_textanalysis ctx) (fun ta => Some (unicode_blocks ta)).
Definition crule_text_character_count : option Z :=
  on (c_textanalysis ctx) (fun ta => Some (num_unicode_characters ta)).
Definition crule_non_ascii_percentage : option Z :=
  on (c_text ctx) (fun s =>
    let step := fun '(total, n) c => (total + 1, if has c 128 then n + 1 else n) in
    let '(total, n) := fold_left step s (0, 0) in Some (percentage n total)).
Definition crule_digit_percentage : option Z :=
  on (c_text ctx) (fun s =>
    let step := fun '(total, n) c => (total + 1, if isdigit c then n + 1 else n) in
    let '(total, n) := fold_left step s (0, 0) in Some (percentage n total)).

(** The loop of [crule_max_repeat_count]: the previous byte, [cur] and [max]. *)
Fixpoint repeat_loop (prev cur max : Z) (s : cstring) : Z :=
  match s with
  | [] => if max <? cur then cur else max
  | c :: s =>
      if c =? prev then repeat_loop c (cur + 1) max s
      else repeat_loop c 1 (if max <? cur then cur else max) s
  end.
Definition crule_max_repeat_count : option Z :=
  on (c_text ctx) (fun s => match s with [] => Some 0 | c :: s => Some (repeat_loop c 1 0 s) end).

(** The call through the pointer. *)
Definition rule_call (f : crule_fn) (args : list cstring) : option Z :=
  match f with
  | F_bytes_received => crule_bytes_received | F_bytes_sent => crule_bytes_sent
  | F_cap_set => crule_cap_set args | F_cap_version => crule_cap_version
  | F_channel_count => crule_channel_count | F_channel_member_count => crule_channel_member_count
  | F_connected => crule_connected args | F_connections_from_ip => crule_connections_from_ip
  | F_destination => crule_destination args | F_digit_percentage => crule_digit_percentage
  | F_directcon => crule_directcon args | F_directop => crule_directop
  | F_has_channel_mode => crule_has_channel_mode args | F_has_swhois => crule_has_swhois
  | F_has_user_mode => crule_has_user_mode args | F_idle_time => crule_idle_time
  | F_in_channel => crule_in_channel args | F_in_security_group => crule_in_security_group args
  | F_away => crule_away | F_is_identified => crule_is_identified | F_is_local => crule_is_local
  | F_is_oper => crule_is_oper | F_tls => crule_tls | F_is_webirc => crule_is_webirc
  | F_is_websocket => crule_is_websocket | F_match_account => crule_match_account args
  | F_match_asn => crule_match_asn args | F_match_asname => crule_match_asname args
  | F_match_away => crule_match_away args | F_match_certfp => crule_match_certfp args
  | F_match_class => crule_match_class args | F_match_country => crule_match_country args
  | F_match_ip => crule_match_ip args | F_match_mask => crule_match_mask args
  | F_match_operclass => crule_match_operclass args | F_match_operlogin => crule_match_operlogin args
  | F_match_realhost => crule_match_realhost args | F_match_realname => crule_match_realname args
  | F_match_server => crule_match_server args | F_match_sni => crule_match_sni args
  | F_match_tls_cipher => crule_match_tls_cipher args | F_match_vhost => crule_match_vhost args
  | F_max_repeat_count => crule_max_repeat_count | F_messages_received => crule_messages_received
  | F_messages_sent => crule_messages_sent | F_mixed_utf8_score => crule_mixed_utf8_score
  | F_non_ascii_percentage => crule_non_ascii_percentage | F_online_time => crule_online_time
  | F_reputation => crule_reputation | F_server_flood_count => crule_server_flood_count args
  | F_server_port => crule_server_port | F_tag => crule_tag args
  | F_text_byte_count => crule_text_byte_count | F_text_character_count => crule_text_character_count
  | F_total_channel_flood_count => crule_total_channel_flood_count args
  | F_unicode_block_count => crule_unicode_block_count | F_unicode_count => crule_unicode_count args
  | F_uppercase_percentage => crule_uppercase_percentage | F_via => crule_via args
  | F_word_count => crule_word_count
  end.

(** ** Every function accepts the arguments of its table entry *)

(** The strings are C strings, a registered user has its [User] part, a user whose host is
    hidden has another one, and block numbers are within the map of counts. *)
Record client_ok (c : RuleClient) : Prop := {
  ok_info : cstr (r_info c);
  ok_moddata n s : r_moddata c n = Some s -> cstr s;
  ok_has_user : RIsUser c = true -> is_Some (r_user c);
  ok_user u : r_user c = Some u ->
    cstr (r_realhost u) /\ (forall s, r_virthost u = Some s -> cstr s) /\ (forall s, r_server u = Some s -> cstr s) /\
    (forall s, r_operlogin u = Some s -> cstr s) /\ (forall s, r_away u = Some s -> cstr s) /\
    Forall (fun ch => cstr (fst ch)) (r_channel u);
  ok_local l : r_local c = Some l ->
    (forall s, r_class l = Some s -> cstr s) /\ (forall s, r_sni l = Some s -> cstr s)
}.

Record context_ok : Prop := {
  ok_client c : c_client ctx = Some c -> client_ok c;
  ok_hidden c u : c_client ctx = Some c -> r_user c = Some u -> has (r_umodes c) (UMODE_HIDE net) = true ->
    is_Some (r_virthost u);
  ok_destination d : c_destination ctx = Some d -> cstr d;
  ok_blocks ta a : c_textanalysis ctx = Some ta ->
    e_utf8_get_block_number net a < Z.of_nat (length (unicode_blockmap ta));
  ok_servers : Forall (fun sv => cstr (fst sv) /\ cstr (snd sv)) (global_servers net);
  ok_lclients : Forall (fun cl => cstr (snd cl)) (lclients net);
  ok_operclass l s : operclass_of net l = Some s -> cstr s;
  ok_asname c s : e_geoip_asname net c = Some s -> cstr s
}.

Context (Hctx : context_ok).

Lemma on_ok {A} (o : option A) k : (forall a, o = Some a -> is_Some (k a)) -> is_Some (on o k).
Proof. destruct o; simpl; eauto. Qed.

Lemma on_client_ok k : (forall c, client_ok c -> is_Some (k c)) -> is_Some (on (c_client ctx) k).
Proof using Hctx. intros Hk. apply on_ok. intros c Hc. apply Hk. by apply (ok_client Hctx). Qed.

Lemma match_simple_some a s : cstr a -> cstr s -> exists b, match_simple a s = Some b.
Proof. intros Ha Hs. destruct (match_simple_decides a s Ha Hs) as (b & Hb & _). eauto. Qed.

Lemma match_arg_ok a s : cstr a -> cstr s -> is_Some (match_arg [a] s).
Proof. intros Ha Hs. unfold match_arg. simpl. destruct (match_simple_some a s Ha Hs) as [b ->]. simpl. unfold flag. eauto. Qed.

Lemma first_match_ok {A} (test : A -> option bool) l :
  Forall (fun x => is_Some (test x)) l -> is_Some (first_match test l).
Proof. induction 1 as [|x l [b Hb] _ IH]; simpl; [eauto|]. rewrite Hb. simpl. destruct b; eauto. Qed.

Lemma in_channel_loop_ok symbol p l :
  cstr p -> Forall (fun ch => cstr (fst ch)) l -> is_Some (in_channel_loop symbol p l).
Proof.
  intros Hp. induction 1 as [|[name modes] l Hn _ IH]; simpl; [eauto|].
  destruct (match_esc_total p name Hp Hn) as [b ->]. simpl. case_match; eauto.
Qed.

Lemma my_user_local c l : my_user c = Some l -> r_local c = Some l.
Proof. unfold my_user. by destruct (RIsUser c). Qed.

Lemma get_operclass_ok c s : client_ok c -> get_operclass c = Some s -> cstr s.
Proof using Hctx.
  intros Hc. unfold get_operclass. pose proof (ok_moddata c Hc (str "operclass")) as Hr.
  pose proof (ok_operclass Hctx) as Ho. repeat case_match; naive_solver.
Qed.

Lemma one_arg args : Forall arg_ok args -> 1 = Z.of_nat (length args) -> exists c a, args = [c :: a] /\ cstr (c :: a).
Proof.
  intros Ha Hl. destruct args as [|[|c a] [|b args]]; simpl in Hl; try lia;
    apply Forall_cons in Ha as [[Hcs Hlen] _]; [simpl in Hlen; lia|]. eauto.
Qed.

Lemma two_args args : Forall arg_ok args -> 2 = Z.of_nat (length args) -> exists a b, args = [a; b] /\ cstr a /\ cstr b.
Proof.
  intros Ha Hl. destruct args as [|a [|b [|c args]]]; simpl in Hl; try lia.
  apply Forall_cons in Ha as [[Ha _] Hb]. apply Forall_singleton in Hb as [Hb _]. eauto.
Qed.

Lemma crule_connected_ok a : cstr a -> is_Some (crule_connected [a]).
Proof using Hctx.
  intros Ha. apply first_match_ok. eapply Forall_impl; [apply (ok_servers Hctx)|].
  intros sv [Hs _]. simpl. by destruct (match_simple_some a (fst sv) Ha Hs) as [b ->].
Qed.

Lemma crule_directcon_ok a : cstr a -> is_Some (crule_directcon [a]).
Proof using Hctx.
  intros Ha. apply first_match_ok. eapply Forall_impl; [apply (ok_lclients Hctx)|].
  intros cl Hs. simpl. destruct (fst (fst cl)); [|eauto]. simpl.
  by destruct (match_simple_some a (snd cl) Ha Hs) as [b ->].
Qed.

Lemma crule_via_ok a a' : cstr a -> cstr a' -> is_Some (crule_via [a; a']).
Proof using Hctx.
  intros Ha Ha'. apply first_match_ok. eapply Forall_impl; [apply (ok_servers Hctx)|].
  intros sv [Hs Hu]. simpl. destruct (match_simple_some a' (fst sv) Ha' Hs) as [b ->]. simpl.
  destruct b; [|eauto]. by destruct (match_simple_some a (snd sv) Ha Hu) as [b ->].
Qed.

Lemma crule_in_channel_ok c a : cstr (c :: a) -> is_Some (crule_in_channel [c :: a]).
Proof using Hctx.
  intros Ha. apply on_client_ok. intros cl Hcl. apply on_ok. intros u Hu.
  destruct (ok_user cl Hcl u Hu) as (_ & _ & _ & _ & _ & Hch). simpl.
  apply cstr_cons in Ha as Hca. destruct Hca as [_ Hca].
  destruct (c =? 35); by apply in_channel_loop_ok.
Qed.

Lemma crule_unicode_count_ok a : is_Some (crule_unicode_count [a]).
Proof using Hctx.
  apply on_ok. intros ta Hta. simpl. destruct (Z.ltb_spec (e_utf8_get_block_number net a) 0); [eauto|].
  apply lookup_lt_is_Some_2. pose proof (ok_blocks Hctx ta a Hta). lia.
Qed.

Lemma crule_match_vhost_ok a : cstr a -> is_Some (crule_match_vhost [a]).
Proof using Hctx.
  intros Ha. apply on_ok. intros c Hcl. pose proof (ok_client Hctx c Hcl) as Hc. destruct (RIsUser c) eqn:Hu; [|eauto].
  destruct (ok_has_user c Hc Hu) as [u Eu]. rewrite Eu. simpl.
  destruct (ok_user c Hc u Eu) as (Hr & Hv & _). unfold GetHost.
  destruct (has _ _) eqn:Hhide; cbn [mbind option_bind]; [|by apply match_arg_ok].
  destruct (ok_hidden Hctx c u Hcl Eu Hhide) as [v Ev]. rewrite Ev. cbn [mbind option_bind]. apply match_arg_ok; [done|by apply Hv].
Qed.

Lemma crule_away_ok : is_Some crule_away.
Proof using Hctx.
  apply on_client_ok. intros c Hc. destruct (RIsUser c) eqn:Hu; [|eauto].
  destruct (ok_has_user c Hc Hu) as [u ->]. simpl. repeat case_match; eauto.
Qed.


(** Functions that compare their argument with a string that may be missing. *)
Lemma accepts_string f c a :
  f ∈ [F_destination; F_match_asname; F_match_away; F_match_class; F_match_operclass; F_match_operlogin;
       F_match_realhost; F_match_realname; F_match_server; F_match_sni; F_match_tls_cipher; F_match_vhost] ->
  cstr (c :: a) -> is_Some (rule_call f [c :: a]).
Proof using Hctx.
  intros Hf Ha. repeat (apply elem_of_cons in Hf as [->|Hf]); [..|by apply elem_of_nil in Hf]; simpl.
  - apply on_ok. intros d Hd. apply match_arg_ok; [done|]. by apply (ok_destination Hctx).
  - apply on_client_ok. intros cl Hc. apply on_ok. intros s Hs. apply match_arg_ok; [done|]. by eapply (ok_asname Hctx).
  - apply on_client_ok. intros cl Hc. apply on_ok. intros u Hu. apply on_ok. intros s Hs.
    apply match_arg_ok; [done|]. destruct (ok_user cl Hc u Hu) as (_ & _ & _ & _ & H & _). auto.
  - apply on_client_ok. intros cl Hc. apply on_ok. intros l Hl%my_user_local. apply on_ok. intros s Hs.
    apply match_arg_ok; [done|]. destruct (ok_local cl Hc l Hl) as [H _]. auto.
  - apply on_client_ok. intros cl Hc. destruct (RIsOper cl); [|eauto]. apply on_ok. intros s Hs.
    apply match_arg_ok; [done|]. by eapply get_operclass_ok.
  - apply on_client_ok. intros cl Hc. apply on_ok. intros u Hu. apply on_ok. intros s Hs.
    apply match_arg_ok; [done|]. destruct (ok_user cl Hc u Hu) as (_ & _ & _ & H & _). auto.
  - apply on_client_ok. intros cl Hc. apply on_ok. intros u Hu.
    apply match_arg_ok; [done|]. by destruct (ok_user cl Hc u Hu) as (H & _).
  - apply on_client_ok. intros cl Hc. apply match_arg_ok; [done|]. by apply ok_info.
  - apply on_client_ok. intros cl Hc. apply on_ok. intros u Hu. apply on_ok. intros s Hs.
    apply match_arg_ok; [done|]. destruct (ok_user cl Hc u Hu) as (_ & _ & H & _). auto.
  - apply on_client_ok. intros cl Hc. apply on_ok. intros l Hl%my_user_local. apply on_ok. intros s Hs.
    apply match_arg_ok; [done|]. destruct (ok_local cl Hc l Hl) as [_ H]. auto.
  - apply on_client_ok. intros cl Hc. apply on_ok. intros s Hs. apply match_arg_ok; [done|]. by eapply ok_moddata.
  - by apply crule_match_vhost_ok.
Qed.

(** The functions without arguments. *)
Lemma accepts_none f :
  f ∈ map funcptr (List.filter (fun e => reqnumargs e =? 0) crule_funclist) -> forall args, is_Some (rule_call f args).
Proof using Hctx.
  cbv [crule_funclist List.filter reqnumargs Z.eqb map funcptr]. intros Hf args.
  repeat (apply elem_of_cons in Hf as [->|Hf]; [simpl; try exact crule_away_ok;
    repeat first [apply on_ok; intros; cbv beta zeta
                 | match goal with |- context [fold_left ?g ?s ?i] => destruct (fold_left g s i) end
                 | case_match]; by eexists|]). by apply elem_of_nil in Hf.
Qed.

(** The functions with one argument. *)
Lemma accepts_one f c a :
  f ∈ map funcptr (List.filter (fun e => reqnumargs e =? 1) crule_funclist) ->
  cstr (c :: a) -> is_Some (rule_call f [c :: a]).
Proof using Hctx.
  cbv [crule_funclist List.filter reqnumargs Z.eqb map funcptr Pos.eqb]. intros Hf Ha.
  repeat (apply elem_of_cons in Hf as [->|Hf]; [first
    [ apply accepts_string; [set_solver|done]
    | by apply crule_connected_ok | by apply crule_directcon_ok | by apply crule_in_channel_ok
    | by apply crule_unicode_count_ok
    | simpl; repeat first [apply on_ok; intros | progress simpl | case_match]; by eexists ]|]).
  by apply elem_of_nil in Hf.
Qed.

Lemma rule_call_accepts f : f ∈ crule_funclist -> accepts rule_call f.
Proof using Hctx.
  intros Hf args Ha Hn.
  assert (Hreq : forall k, reqnumargs f = k -> funcptr f ∈ map funcptr (List.filter (fun e => reqnumargs e =? k) crule_funclist)).
  { intros k Hk. apply list_elem_of_In, in_map, filter_In. split; [by apply list_elem_of_In|]. by apply Z.eqb_eq. }
  assert (Hdom : reqnumargs f = 0 \/ reqnumargs f = 1 \/ funcptr f = F_via /\ reqnumargs f = 2).
  { pose proof (proj1 (forallb_forall (fun e => (reqnumargs e =? 0) || (reqnumargs e =? 1) ||
        match funcptr e with F_via => reqnumargs e =? 2 | _ => false end) crule_funclist)
      ltac:(vm_compute; reflexivity) f (proj1 (list_elem_of_In _ _) Hf)) as H.
    cbv beta in H. destruct (Z.eqb_spec (reqnumargs f) 0); [tauto|]. destruct (Z.eqb_spec (reqnumargs f) 1); [tauto|].
    right; right. destruct (funcptr f); try done. by apply Z.eqb_eq in H. }
  destruct Hdom as [H0|[H1|[Hv H2]]].
  - apply accepts_none. by apply Hreq.
  - destruct (one_arg args Ha ltac:(lia)) as (c & a & -> & Hcs). apply accepts_one; [by apply Hreq|done].
  - destruct (two_args args Ha ltac:(lia)) as (a & b & -> & Hca & Hcb). rewrite Hv. by apply crule_via_ok.
Qed.
End functions.

(** C21: Accepted rules are well typed and safe to evaluate.  Every function node of a
    rule that [crule_parse] accepts points to an entry of the table and has the
    number of arguments the entry asks for, each of 1 to 159 bytes and at most
    five; every negation has an operand and every comparison is ==, < or >.  When no
    operand of && or || is missing, evaluating the rule with the real functions, on
    any client, message and network, follows no NULL pointer and reads no string past
    its end: no function uses an argument the table does not ask for. *)
Theorem crule_parse_typed rule root :
  cstr rule -> _crule_parse rule = Ret (Some root) ->
  typed root /\
  forall net ctx, context_ok net ctx -> complete root -> is_Some (_crule_eval (rule_call net ctx) root).
Proof.
  intros Hs Hp. pose proof (crule_parse_ok _ _ Hs Hp) as Ht. split; [done|].
  intros net ctx Hctx Hc. apply typed_eval; auto. intros f Hf. by apply rule_call_accepts.
Qed.

Lemma crule_parse_typed_witness :
  exists root, _crule_parse (str "!directop() && via('a*',b c)") = Ret (Some root) /\ typed root /\
    forall net ctx, context_ok net ctx -> complete root -> is_Some (_crule_eval (rule_call net ctx) root).
Proof.
  eexists. split; [vm_compute; reflexivity|]. apply (crule_parse_typed (str "!directop() && via('a*',b c)")).
  - repeat constructor.
  - vm_compute. reflexivity.
Defined.

(** ** What the measures of a text mean *)

Definition blank (c : Z) : bool := (c =? 32) || (c =? 9).

Lemma blank_sep c : is_sep [32; 9] c = blank c.
Proof. unfold is_sep, blank. simpl. by rewrite orb_false_r. Qed.

Definition words (s : cstring) : list cstring := tokens [32; 9] s.

Lemma word_step_count s n b :
  fst (fold_left word_step s (n, b)) =
  n + Z.of_nat (length (words s)) - (if b && nonempty (hd [] (split_on [32; 9] s)) then 1 else 0).
Proof.
  revert n b. induction s as [|c s IH]; intros n b; [simpl; rewrite andb_false_r; lia|].
  unfold words, tokens in *. cbn [fold_left]. unfold word_step at 2. fold (blank c).
  destruct (split_on_cons [32; 9] s) as (w & ws & Hp). cbn [split_on]. rewrite blank_sep. rewrite Hp in IH |- *. destruct (blank c).
  - rewrite IH. simpl. rewrite andb_false_r. lia.
  - destruct b; cbn [negb]; rewrite IH; simpl; destruct w; simpl; lia.
Qed.

(** [t] occurs in [s]. *)
Definition occurs (t s : cstring) : Prop := exists a b, s = a ++ t ++ b.

Lemma run_across k n p d c s :
  c <> p -> occurs (replicate n d) (replicate k p ++ c :: s) -> (n <= k)%nat \/ occurs (replicate n d) (c :: s).
Proof.
  intros Hc (a & b & Heq). destruct (decide (k <= length a)%nat) as [Hk|Hk].
  - right. exists (drop k a), b. apply (f_equal (drop k)) in Heq.
    rewrite drop_app_length' in Heq by (by rewrite length_replicate). rewrite Heq.
    rewrite (drop_app_le a) by lia. done.
  - left. destruct (decide (n <= k)%nat) as [|Hn]; [done|]. exfalso. apply Hc.
    assert (Hd : forall i x, (replicate k p ++ c :: s) !! i = Some x -> (length a <= i < length a + n)%nat -> x = d).
    { intros i x Hx Hi. rewrite Heq in Hx. rewrite lookup_app_r in Hx by lia.
      rewrite lookup_app_l in Hx by (rewrite length_replicate; lia).
      rewrite lookup_replicate_2 in Hx by lia. congruence. }
    transitivity d.
    + apply (Hd k c); [|lia]. rewrite lookup_app_r by (rewrite length_replicate; lia).
      by rewrite length_replicate, Nat.sub_diag.
    + symmetry. apply (Hd (length a) p); [|lia]. rewrite lookup_app_l by (rewrite length_replicate; lia).
      rewrite lookup_replicate_2 by lia. done.
Qed.

Lemma run_of_replicate k n p d : occurs (replicate n d) (replicate k p) -> (n <= k)%nat.
Proof.
  intros (a & b & Heq). apply (f_equal length) in Heq. rewrite !length_app, !length_replicate in Heq. lia.
Qed.

Lemma repeat_loop_spec prev cur mx s :
  let text := replicate cur prev ++ s in
  let m := repeat_loop prev (Z.of_nat cur) mx s in
  mx <= m /\ (forall n d, occurs (replicate n d) text -> Z.of_nat n <= m) /\
  (m = mx \/ exists n d, m = Z.of_nat n /\ occurs (replicate n d) text).
Proof.
  revert prev cur mx. induction s as [|c s IH]; intros prev cur mx; cbn [repeat_loop].
  - cbv zeta. rewrite app_nil_r.
    assert (forall n d, occurs (replicate n d) (replicate cur prev) -> (n <= cur)%nat) by (intros; by eapply run_of_replicate).
    destruct (Z.ltb_spec mx (Z.of_nat cur)); (split; [lia|]); split; [naive_solver lia| |naive_solver lia|by left].
    right. exists cur, prev. split; [done|]. exists [], []. by rewrite app_nil_r.
  - cbv zeta. destruct (Z.eqb_spec c prev) as [->|Hne].
    + specialize (IH prev (S cur) mx). cbv zeta in IH. rewrite Nat2Z.inj_succ in IH.
      replace (replicate cur prev ++ prev :: s) with (replicate (S cur) prev ++ s); [exact IH|].
      rewrite replicate_S_end. by rewrite <- app_assoc.
    + destruct (IH c 1%nat (if mx <? Z.of_nat cur then Z.of_nat cur else mx)) as (H1 & H2 & H3).
      cbn [replicate app] in H1, H2, H3. change (Z.of_nat 1) with 1 in *.
      set (m := repeat_loop c 1 _ s) in *. split; [destruct (Z.ltb_spec mx (Z.of_nat cur)); lia|]. split.
      * intros n d Hocc. destruct (run_across _ _ _ _ _ _ Hne Hocc) as [Hle|Hocc2]; [|by apply (H2 n d)].
        destruct (Z.ltb_spec mx (Z.of_nat cur)); lia.
      * destruct H3 as [H3|(n & d & Hm & Hocc)].
        -- destruct (Z.ltb_spec mx (Z.of_nat cur)); [|by left]. right. exists cur, prev. split; [done|]. by exists [], (c :: s).
        -- right. exists n, d. split; [done|]. destruct Hocc as (a & b & Hab). exists (replicate cur prev ++ a), b.
           by rewrite Hab, <- app_assoc.
Qed.

Lemma percentage_range part total : 0 <= part <= total -> 0 <= percentage part total <= 100.
Proof.
  intros H. unfold percentage. destruct (Z.ltb_spec 0 total); [|lia].
  split; [apply Z.div_pos; lia|]. apply Z.div_le_upper_bound; lia.
Qed.

(** The counting loops. *)
Lemma count_loop (P : Z -> bool) s t n :
  fold_left (fun '(total, n) c => (total + 1, if P c then n + 1 else n)) s (t, n) =
  (t + Z.of_nat (length s), n + Z.of_nat (length (List.filter P s))).
Proof.
  revert t n. induction s as [|c s IH]; intros t n; simpl; [by rewrite !Z.add_0_r|].
  rewrite IH. destruct (P c); cbn [length]; f_equal; lia.
Qed.

Lemma count_loop_alpha s t n :
  fold_left (fun '(total, upper) c =>
      if isalpha c then (total + 1, if isupper c then upper + 1 else upper) else (total, upper)) s (t, n) =
  (t + Z.of_nat (length (List.filter isalpha s)), n + Z.of_nat (length (List.filter isupper s))).
Proof.
  revert t n. induction s as [|c s IH]; intros t n; simpl; [by rewrite !Z.add_0_r|].
  destruct (isalpha c) eqn:Ha.
  - rewrite IH. destruct (isupper c); cbn [length]; f_equal; lia.
  - assert (isupper c = false) as -> by (unfold isupper; unfold isalpha in Ha; by rewrite Ha). apply IH.
Qed.

Lemma filter_length_mono (P Q : Z -> bool) s :
  (forall c, P c = true -> Q c = true) -> (length (List.filter P s) <= length (List.filter Q s))%nat.
Proof.
  intros H. induction s as [|c s IH]; simpl; [lia|]. specialize (H c).
  destruct (P c), (Q c); simpl; (lia || by specialize (H eq_refl)).
Qed.

Lemma filter_length_all (P : Z -> bool) s : (length (List.filter P s) <= length s)%nat.
Proof. induction s as [|c s IH]; simpl; [lia|]. destruct (P c); simpl; lia. Qed.

(** The measures of a message are what their names say.  On any text, the word
    count is the number of non-empty pieces between blanks; the repeat count is
    the length of the longest run of one byte that occurs in the text; and the
    upper case, digit and non-ASCII percentages are the rounded down shares of such
    bytes (of the letters, for upper case), always from 0 to 100. *)
Theorem crule_text_measures net ctx s (Htext : c_text ctx = Some s) :
  rule_call net ctx F_word_count [] = Some (Z.of_nat (length (words s))) /\
  (exists m, rule_call net ctx F_max_repeat_count [] = Some m /\
     (forall n d, occurs (replicate n d) s -> Z.of_nat n <= m) /\
     exists n d, m = Z.of_nat n /\ occurs (replicate n d) s) /\
  (exists p, rule_call net ctx F_uppercase_percentage [] = Some p /\ 0 <= p <= 100 /\
     p = percentage (Z.of_nat (length (List.filter isupper s))) (Z.of_nat (length (List.filter isalpha s)))) /\
  (exists p, rule_call net ctx F_digit_percentage [] = Some p /\ 0 <= p <= 100 /\
     p = percentage (Z.of_nat (length (List.filter isdigit s))) (Z.of_nat (length s))) /\
  (exists p, rule_call net ctx F_non_ascii_percentage [] = Some p /\ 0 <= p <= 100 /\
     p = percentage (Z.of_nat (length (List.filter (fun c => has c 128) s))) (Z.of_nat (length s))).
Proof.
  cbn [rule_call]. unfold crule_word_count, crule_max_repeat_count, crule_uppercase_percentage,
    crule_digit_percentage, crule_non_ascii_percentage. rewrite Htext. cbn [on].
  split; [f_equal; rewrite word_step_count; simpl; lia|]. split.
  { destruct s as [|c s]; eexists; (split; [reflexivity|]).
    - split; [intros n d Hn; apply (run_of_replicate 0 n 0 d) in Hn; lia|]. exists 0%nat, 0. split; [done|]. by exists [], [].
    - destruct (repeat_loop_spec c 1 0 s) as (H1 & H2 & H3). split; [exact H2|]. destruct H3 as [H3|H3]; [|exact H3].
      exfalso. specialize (H2 1%nat c). cbn [replicate app] in H2. change (Z.of_nat 1) with 1 in *.
      rewrite H3 in H2. assert (1 <= 0); [|lia]. apply H2. by exists [], s. }
  rewrite count_loop_alpha, !count_loop. rewrite !Z.add_0_l.
  split; [|split]; eexists; (split; [reflexivity|]); split; try done; apply percentage_range.
  - pose proof (filter_length_mono isupper isalpha s). split; [lia|]. apply inj_le, H.
    intros c. unfold isupper, isalpha. by intros [? _]%andb_true_iff.
  - pose proof (filter_length_all isdigit s). lia.
  - pose proof (filter_length_all (fun c => has c 128) s). lia.
Qed.

Lemma crule_text_measures_witness :
  exists net ctx, c_text ctx = Some (str "AAA bb 12 aaaa") /\
    rule_call net ctx F_word_count [] = Some 4 /\ rule_call net ctx F_max_repeat_count [] = Some 4 /\
    exists p, rule_call net ctx F_uppercase_percentage [] = Some p /\ 0 <= p <= 100.
Proof.
  set (none := fun _ : cstring => @None cstring).
  exists (MkNetwork 0 1 2 4 [] [] [] (fun _ => None) (fun _ => 0) (fun _ => 0) none (fun _ _ => 0)
            (fun _ _ _ => false) (fun _ _ => false) (fun _ _ _ => false) (fun _ => -1) (fun _ => 0) (fun _ => None)).
  exists (MkContext None (Some (str "AAA bb 12 aaaa")) None None). split; [reflexivity|].
  split; [reflexivity|]. split; [reflexivity|].
  destruct (crule_text_measures
    (MkNetwork 0 1 2 4 [] [] [] (fun _ => None) (fun _ => 0) (fun _ => 0) none (fun _ _ => 0)
            (fun _ _ _ => false) (fun _ _ => false) (fun _ _ _ => false) (fun _ => -1) (fun _ => 0) (fun _ => None))
    (MkContext None (Some (str "AAA bb 12 aaaa")) None None) _ eq_refl) as (_ & _ & (p & H1 & H2 & _) & _).
  exists p. by split.
Defined.
