(* ===== verification/CruleSpec.v ===== *)
(** * The rule language: printing, parsing and meaning

    Abstract rules, their text with as few parentheses as possible, and their
    boolean meaning; the parser of [Crule] recovers the rule from the text and the
    evaluator computes the meaning.  Then the functions of rules that measure the
    text of a message. *)
From S2P Require Import Prelude Chars Strings Crule.

(** ** More fuel does not change a result *)

Definition le_run {A} (r1 r2 : run A) : Prop := r1 = Fuel \/ r1 = r2.

Lemma le_run_refl {A} (r : run A) : le_run r r.
Proof. by right. Qed.

Lemma le_run_fuel {A} (r : run A) : le_run Fuel r.
Proof. by left. Qed.

Lemma rbind_mono {A B} (r1 r2 : run A) (k1 k2 : A -> run B) :
  le_run r1 r2 -> (forall a, le_run (k1 a) (k2 a)) -> le_run (rbind r1 k1) (rbind r2 k2).
Proof. intros [->| ->] Hk; [by left|]. destruct r2; simpl; [by left|by right|apply Hk]. Qed.

#[local] Hint Resolve le_run_refl le_run_fuel : core.

(** Follows the common structure of two runs. *)
Ltac same_run :=
  repeat first
    [ assumption | apply le_run_refl
    | apply rbind_mono; [|intros]
    | match goal with
      | a : (_ * _)%type |- _ => destruct a
      | a : pres |- _ => destruct a as [[[? ?] ?] ?]
      | |- context [next_token ?s] => destruct (next_token s)
      end
    | case_decide ].

Lemma parse_args_mono fuel fuel' cur args tok s :
  (fuel <= fuel')%nat -> le_run (parse_args fuel cur args tok s) (parse_args fuel' cur args tok s).
Proof.
  revert fuel' cur args tok s. induction fuel as [|fuel IH]; intros fuel' cur args tok s Hle; [auto|].
  destruct fuel' as [|fuel']; [lia|]. cbn [parse_args]. same_run; apply IH; lia.
Qed.

Lemma crule_parsefunction_mono fuel fuel' s :
  (fuel <= fuel')%nat -> le_run (crule_parsefunction fuel s) (crule_parsefunction fuel' s).
Proof.
  intros Hle. unfold crule_parsefunction, crule_parsearglist.
  pose proof (fun tok s => parse_args_mono fuel fuel' [] [] tok s Hle).
  same_run. case_match; same_run. auto.
Qed.

Lemma parser_mono fuel fuel' :
  (fuel <= fuel')%nat ->
  (forall root tok s, le_run (crule_parseorexpr fuel root tok s) (crule_parseorexpr fuel' root tok s)) /\
  (forall root tok s, le_run (crule_parseandexpr fuel root tok s) (crule_parseandexpr fuel' root tok s)) /\
  (forall nested tok s, le_run (crule_parseprimary fuel nested tok s) (crule_parseprimary fuel' nested tok s)).
Proof.
  revert fuel'. induction fuel as [|fuel IH]; intros fuel' Hle; [repeat split; auto|].
  destruct fuel' as [|fuel']; [lia|]. destruct (IH fuel' ltac:(lia)) as (IHor & IHand & IHprim).
  split; [|split].
  - intros root tok s. cbn [crule_parseorexpr]. same_run; auto.
  - intros root tok s. cbn [crule_parseandexpr]. same_run; auto.
  - intros nested tok s. cbn [crule_parseprimary]. destruct tok;
      try (apply crule_parsefunction_mono; lia); same_run; auto; case_match; same_run.
Qed.

(** A result of the parser, whatever the fuel above some bound. *)
Definition yields {A} (P : nat -> run A) (a : A) : Prop := exists n, forall fuel, (n <= fuel)%nat -> P fuel = Ret a.

Lemma yields_pure {A} (P : nat -> run A) a : (forall n, P n = Ret a) -> yields P a.
Proof. intros H. by exists 0%nat. Qed.

Lemma yields_ext {A} (P Q : nat -> run A) a : (forall n, P n = Q n) -> yields Q a -> yields P a.
Proof. intros He [n Hn]. exists n. intros f Hf. rewrite He. auto. Qed.

Lemma yields_step {A} (P : nat -> run A) a : yields (fun n => P (S n)) a -> yields P a.
Proof. intros [n Hn]. exists (S n). intros [|f] Hf; [lia|]. apply Hn. lia. Qed.

Lemma yields_bind {A B} (P : nat -> run A) (k : nat -> A -> run B) a b :
  yields P a -> yields (fun n => k n a) b -> yields (fun n => rbind (P n) (k n)) b.
Proof.
  intros [n1 H1] [n2 H2]. exists (Nat.max n1 n2). intros f Hf. rewrite H1 by lia. simpl. apply H2. lia.
Qed.

(** The fuel of [parse_rule] is enough to see the result. *)
Lemma yields_parse_rule rule t s node r :
  cstr rule -> next_token rule = (CR_NOERR, t, s) ->
  yields (fun fuel => crule_parseorexpr fuel None t s) (CR_NOERR, Some node, CR_END, r) ->
  parse_rule rule = Ret (CR_NOERR, Some node).
Proof.
  intros Hcs Ht [n Hn]. unfold parse_rule. rewrite Ht. rewrite decide_False by naive_solver.
  destruct (next_token_noerr _ _ _ _ Hcs Ht eq_refl) as (Hu & Hm & Hw).
  pose proof (proj1 (parser_ok (3 * length rule + 3)) None t s ltac:(lia) Hu Hw I) as Hok.
  destruct (parser_mono (3 * length rule + 3) (Nat.max n (3 * length rule + 3)) ltac:(lia)) as [Hle _].
  specialize (Hle None t s). rewrite (Hn (Nat.max n (3 * length rule + 3))) in Hle by lia.
  destruct Hle as [Hle|Hle]; rewrite Hle in *; [done|]. reflexivity.
Qed.

(** ** Abstract rules *)

Inductive expr :=
| EFun (f : crule_funclistent) (args : list cstring) (test : option (crule_token * Z))
| ENot (e : expr)
| EAnd (e1 e2 : expr)
| EOr (e1 e2 : expr).

Fixpoint to_node (e : expr) : CRuleNode :=
  match e with
  | EFun f args test => NFunc (Some f) args test
  | ENot e => NNot (Some (to_node e))
  | EAnd a b => NAndOr false (Some (to_node a)) (Some (to_node b))
  | EOr a b => NAndOr true (Some (to_node a)) (Some (to_node b))
  end.

Fixpoint holds (call : crule_fn -> list cstring -> Z) (e : expr) : bool :=
  match e with
  | EFun f args None => negb (call (funcptr f) args =? 0)
  | EFun f args (Some (op, v)) =>
      let r := call (funcptr f) args in
      match op with CR_EQUAL => r =? v | CR_LESS_THAN => r <? v | CR_MORE_THAN => v <? r
               | _ => negb (r =? 0) end
  | ENot e => negb (holds call e)
  | EAnd a b => holds call a && holds call b
  | EOr a b => holds call a || holds call b
  end.

Lemma eval_holds call e :
  exists v, _crule_eval (fun f args => Some (call f args)) (to_node e) = Some v /\
    negb (v =? 0) = holds call e.
Proof.
  induction e as [f args test|e (v & IH & Hv)|a (v & IHa & Hv) b (w & IHb & Hw)|a (v & IHa & Hv) b (w & IHb & Hw)];
    cbn [to_node holds _crule_eval].
  - eexists. split; [reflexivity|]. destruct test as [[op v]|]; [|done]. destruct op; simpl; repeat case_match; done.
  - rewrite IH. eexists. split; [reflexivity|]. rewrite <- Hv. by destruct (v =? 0).
  - rewrite IHa, IHb. simpl. rewrite <- Hv, <- Hw. destruct (v =? 0), (w =? 0); simpl; eauto.
  - rewrite IHa, IHb. simpl. rewrite <- Hv, <- Hw. destruct (v =? 0), (w =? 0); simpl; eauto.
Qed.

(** ** Their text *)

(** Decimal digits; [fuel] digits are enough for numbers below [10 ^ fuel]. *)
Fixpoint decimal (fuel : nat) (n : Z) : cstring :=
  match fuel with
  | O => []
  | S fuel => if n <? 10 then [48 + n] else decimal fuel (n / 10) ++ [48 + n mod 10]
  end.

Definition print_int (v : Z) : cstring := if v <? 0 then 45 :: decimal 10 (- v) else decimal 10 v.

Definition quote (a : cstring) : cstring := [39] ++ a ++ [39].

Fixpoint print_args (args : list cstring) : cstring :=
  match args with
  | [] => []
  | [a] => quote a
  | a :: args => quote a ++ [44] ++ print_args args
  end.

Definition print_op (op : crule_token) : cstring :=
  match op with CR_EQUAL => str "==" | CR_LESS_THAN => str "<" | CR_MORE_THAN => str ">" | _ => [] end.

Definition print_test (test : option (crule_token * Z)) : cstring :=
  match test with Some (op, v) => print_op op ++ print_int v | None => [] end.

Definition level (e : expr) : nat := match e with EOr _ _ => 0 | EAnd _ _ => 1 | _ => 2 end.

Definition paren (b : bool) (s : cstring) : cstring := if b then str "(" ++ s ++ str ")" else s.

(** The text of [e] where an operand of precedence [p] is wanted. *)
Fixpoint print (p : nat) (e : expr) : cstring :=
  paren (level e <? p)%nat
    match e with
    | EFun f args test => fn_name f ++ str "(" ++ print_args args ++ str ")" ++ print_test test
    | ENot e => str "!" ++ print 2 e
    | EAnd a b => print 1 a ++ str "&&" ++ print 2 b
    | EOr a b => print 0 a ++ str "||" ++ print 1 b
    end.

(** The rules that can be written: known functions with the right number of
    arguments, which fit the buffers and contain no quote, and values of an [int]. *)
Fixpoint writable (e : expr) : Prop :=
  match e with
  | EFun f args test =>
      f ∈ crule_funclist /\ reqnumargs f = Z.of_nat (length args) /\
      Forall (fun a => arg_ok a /\ 39 ∉ a) args /\
      match test with
      | Some (op, v) => IsComparisson op = true /\ - 2 ^ 31 < v < 2 ^ 31
      | None => True
      end
  | ENot e => writable e
  | EAnd a b | EOr a b => writable a /\ writable b
  end.

(** ** Scanning what was printed *)

(** A byte with which a word starts, none of the operators. *)
Definition starts (c : Z) : bool :=
  (word_char c || (c =? 39)) &&
  negb (existsb (Z.eqb c) [32; 9; 38; 124; 33; 40; 41; 60; 62; 61; 44; 58]).

Lemma next_token_word c t : starts c = true -> next_token (c :: t) = (CR_NOERR, CR_WORD, c :: t).
Proof.
  unfold starts. rewrite andb_true_iff, negb_true_iff. intros [Hw Hn]. cbn [existsb] in Hn.
  repeat (apply orb_false_iff in Hn as [? Hn]).
  unfold next_token, crule_gettoken. cbn [gettoken_from].
  repeat match goal with H : (c =? _) = false |- _ => rewrite H; clear H end. cbn [orb]. by rewrite Hw.
Qed.

Lemma getword_plain w k :
  w <> [] -> forallb word_char w = true -> (length w < 160)%nat -> word_char (hd 0 k) = false ->
  crule_getword (CR_MAXARGLEN - 1) (w ++ k) = Ret (w, k).
Proof.
  intros Hne Hw Hl Hk. unfold crule_getword, CR_MAXARGLEN. 
  assert (Hloop : forall n w, (length w <= n)%nat -> forallb word_char w = true ->
            word_loop false n (w ++ k) = Ret (w, k)).
  { clear w Hne Hw Hl. induction n as [|n IH]; intros [|c w] Hl Hw; simpl in Hl; try lia; [done| |].
    - destruct k as [|c k]; [done|]. simpl in *. by rewrite Hk.
    - simpl in *. apply andb_true_iff in Hw as [-> Hw]. simpl. by rewrite IH by (auto; lia). }
  destruct w as [|c w]; [done|]. cbn [app hd].
  destruct (Z.eqb_spec c 39) as [->|Hc]; [by vm_compute in Hw|].
  change (c :: w ++ k) with ((c :: w) ++ k). rewrite Hloop by (auto; simpl in *; lia). reflexivity.
Qed.

Lemma getword_quote a k :
  (length a < 160)%nat -> 39 ∉ a -> crule_getword (CR_MAXARGLEN - 1) (quote a ++ k) = Ret (a, k).
Proof.
  intros Hl Hq. unfold crule_getword, CR_MAXARGLEN, quote.
  assert (Hloop : forall n a, (length a <= n)%nat -> 39 ∉ a -> word_loop true n (a ++ 39 :: k) = Ret (a, 39 :: k)).
  { clear a Hl Hq. induction n as [|n IH]; intros [|c a] Hl Hq; simpl in Hl; try lia; [done|done|].
    apply not_elem_of_cons in Hq as [Hc Hq]. simpl.
    assert ((c =? 39) = false) as -> by (apply Z.eqb_neq; congruence). rewrite orb_true_r. simpl.
    by rewrite IH by (auto; lia). }
  rewrite <- !app_assoc. cbn [app hd tl]. change (39 =? 39) with true. cbv iota.
  rewrite Hloop by (auto; lia). reflexivity.
Qed.

(** What may follow a printed operand. *)
Inductive follow : cstring -> crule_token -> cstring -> Prop :=
| follow_end : follow [] CR_END []
| follow_close k : follow (str ")" ++ k) CR_CLOSEPAREN k
| follow_and k : follow (str "&&" ++ k) CR_AND k
| follow_or k : follow (str "||" ++ k) CR_OR k.

Lemma follow_next k t k' :
  follow k t k' -> next_token k = (CR_NOERR, t, k') /\ word_char (hd 0 k) = false /\ IsComparisson t = false.
Proof. by intros []. Qed.

(** *** Numbers *)

Lemma digits_value_app acc l c :
  Forall (fun d => 48 <= d <= 57) l -> 48 <= c <= 57 ->
  digits_value acc (l ++ [c]) = digits_value acc l * 10 + (c - 48).
Proof.
  revert acc. induction l as [|d l IH]; intros acc Hl Hc; simpl.
  - by rewrite (proj2 (Z.leb_le 48 c)), (proj2 (Z.leb_le c 57)) by lia.
  - apply Forall_cons in Hl as [Hd Hl]. rewrite (proj2 (Z.leb_le 48 d)), (proj2 (Z.leb_le d 57)) by lia. simpl. auto.
Qed.

Lemma decimal_ok fuel n :
  0 <= n < 10 ^ Z.of_nat fuel ->
  Forall (fun d => 48 <= d <= 57) (decimal fuel n) /\ digits_value 0 (decimal fuel n) = n /\
  (length (decimal fuel n) <= fuel)%nat /\ ((0 < fuel)%nat -> decimal fuel n <> []).
Proof.
  revert n. induction fuel as [|fuel IH]; intros n Hn; [simpl in *; repeat split; [constructor|lia..]|].
  cbn [decimal]. destruct (Z.ltb_spec n 10).
  - repeat split; [apply Forall_singleton; lia| |simpl; lia|done]. simpl.
    rewrite (proj2 (Z.leb_le _ _)), (proj2 (Z.leb_le _ _)) by lia. simpl. lia.
  - rewrite Nat2Z.inj_succ, Z.pow_succ_r in Hn by lia.
    pose proof (Z.mod_pos_bound n 10). pose proof (Z.div_mod n 10).
    destruct (IH (n / 10)) as (IH1 & IH2 & IH3 & _).
    { split; [apply Z.div_pos; lia|apply Z.div_lt_upper_bound; lia]. }
    repeat split.
    + apply Forall_app. split; [done|]. apply Forall_singleton. lia.
    + rewrite digits_value_app by (auto; lia). lia.
    + rewrite length_app. simpl. lia.
    + intros _. by destruct (decimal fuel (n / 10)).
Qed.

Lemma print_int_ok v :
  - 2 ^ 31 < v < 2 ^ 31 ->
  atoi (print_int v) = v /\ forallb word_char (print_int v) = true /\ (length (print_int v) < 160)%nat /\
  exists c t, print_int v = c :: t /\ starts c = true.
Proof.
  intros Hv. destruct (decimal_ok 10 (Z.abs v)) as (Hd & Hval & Hlen & Hne); [simpl; lia|].
  assert (Hw : forall l, Forall (fun d => 48 <= d <= 57) l -> forallb word_char l = true).
  { intros l Hl. apply forallb_forall. intros d Hd'. rewrite Forall_forall in Hl.
    specialize (Hl d ltac:(by apply list_elem_of_In)).
    apply (proj1 (forallb_forall word_char (seqZ 48 10)) ltac:(vm_compute; reflexivity)).
    apply list_elem_of_In, elem_of_seqZ. lia. }
  assert (Hs : forall d, 48 <= d <= 57 -> starts d = true).
  { intros d Hd'. apply (proj1 (forallb_forall starts (seqZ 48 10)) ltac:(vm_compute; reflexivity)).
    apply list_elem_of_In, elem_of_seqZ. lia. }
  unfold print_int. destruct (Z.ltb_spec v 0) as [Hneg|Hpos].
  - rewrite Z.abs_neq in * by lia. repeat split.
    + change (atoi (45 :: decimal 10 (- v))) with (- digits_value 0 (decimal 10 (- v))). lia.
    + cbn [forallb]. by rewrite Hw.
    + cbn [length]. lia.
    + eexists _, _. split; [reflexivity|done].
  - rewrite Z.abs_eq in * by lia. specialize (Hne ltac:(lia)). rewrite <- Hval at 2. specialize (Hw _ Hd).
    destruct (decimal 10 v) as [|d l]; [done|]. apply Forall_cons in Hd as [Hd _]. repeat split; [|done|simpl in *; lia|eauto].
    unfold atoi. cbn [skip_while].
    assert ((d =? 32) || (9 <=? d) && (d <=? 13) = false) as -> by lia.
    by rewrite (proj2 (Z.eqb_neq d 45)), (proj2 (Z.eqb_neq d 43)) by lia.
Qed.

(** *** Functions *)

#[export] Instance crule_fn_eq_dec : EqDecision crule_fn.
Proof. solve_decision. Defined.

#[export] Instance crule_funclistent_eq_dec : EqDecision crule_funclistent.
Proof. solve_decision. Defined.

(** Facts about every entry of the table, by evaluation. *)
Definition entry_ok (f : crule_funclistent) : bool :=
  bool_decide (find_function (fn_name f) = Some f) && forallb word_char (fn_name f) &&
  starts (hd 0 (fn_name f)) && (length (fn_name f) <? 160)%nat && bool_decide (fn_name f <> []) &&
  (reqnumargs f <=? 5) && forallb (fun c => (0 <? c) && (c <? 256)) (fn_name f).

Lemma crule_funclist_ok f : f ∈ crule_funclist -> entry_ok f = true.
Proof.
  intros Hf. apply (proj1 (forallb_forall entry_ok crule_funclist) ltac:(vm_compute; reflexivity)).
  by apply list_elem_of_In.
Qed.

Lemma next_token_quote a k : next_token (quote a ++ k) = (CR_NOERR, CR_WORD, quote a ++ k).
Proof. by apply next_token_word. Qed.

Lemma parse_args_print args acc k t r :
  Forall (fun a => arg_ok a /\ 39 ∉ a) args -> (length acc + length args <= CR_MAXARGS)%nat ->
  next_token (print_args args ++ str ")" ++ k) = (CR_NOERR, t, r) ->
  yields (fun n => parse_args n [] acc t r) (CR_NOERR, acc ++ args, CR_CLOSEPAREN, k).
Proof.
  revert acc t r. induction args as [|a args IH]; intros acc t r Ha Hl Ht.
  - simpl in Ht. injection Ht as <- <-. rewrite app_nil_r. apply yields_step, yields_pure. reflexivity.
  - apply Forall_cons in Ha as [[Hok Hq] Ha]. cbn [length] in Hl.
    set (more := match args with [] => str ")" ++ k | _ => [44] ++ print_args args ++ str ")" ++ k end).
    assert (print_args (a :: args) ++ str ")" ++ k = quote a ++ more) as Htext.
    { destruct args; [done|]. cbn [print_args]. by rewrite <- !app_assoc. }
    rewrite Htext, next_token_quote in Ht. injection Ht as <- <-.
    assert (Hadd : add_arg a acc = Ret (acc ++ [a])).
    { unfold add_arg. destruct Hok as [_ Hok]. destruct a; [simpl in *; lia|]. by rewrite (proj2 (Nat.leb_gt _ _)) by lia. }
    apply yields_step, (yields_ext _ (fun n =>
      let '(err, tok, s) := next_token more in
        if decide (err = CR_NOERR) then parse_args n a acc tok s else Ret (err, acc, tok, s))).
    { intros n. cbn [parse_args]. rewrite decide_True by done.
      change (39 :: (a ++ [39]) ++ more) with (quote a ++ more).
      rewrite getword_quote by (destruct Hok as [_ [? ?]]; auto). done. }
    apply yields_step. unfold more. destruct args as [|a2 args].
    + apply yields_pure. intros n. change (next_token (str ")" ++ k)) with (CR_NOERR, CR_CLOSEPAREN, k).
      cbn [parse_args]. rewrite Hadd. reflexivity.
    + destruct (next_token (print_args (a2 :: args) ++ str ")" ++ k)) as [[e t] r] eqn:Ht.
      assert (e = CR_NOERR) as ->.
      { revert Ht. destruct args; cbn [print_args]; rewrite <- ?app_assoc, next_token_quote; by intros [= <-]. }
      apply (yields_ext _ (fun n => parse_args n [] (acc ++ [a]) t r)).
      * intros n. change (next_token ([44] ++ ?x)) with (CR_NOERR, CR_COMMA, x).
        cbn [parse_args]. rewrite Hadd. cbn [rbind]. rewrite !decide_True by done. by rewrite Ht.
      * change (acc ++ a :: a2 :: args) with (acc ++ [a] ++ a2 :: args). rewrite app_assoc.
        apply IH; auto. rewrite length_app. simpl in *. lia.
Qed.

Lemma parse_test_print f args test k t k' :
  match test with Some (op, v) => IsComparisson op = true /\ - 2 ^ 31 < v < 2 ^ 31 | None => True end ->
  follow k t k' ->
  parse_test f args (print_test test ++ k) = Ret (CR_NOERR, Some (NFunc (Some f) args test), t, k').
Proof.
  intros Htest Hk. apply follow_next in Hk as (Hnext & Hword & Hcmp).
  unfold parse_test. destruct test as [[op v]|]; cbn [print_test].
  - destruct Htest as [Hop Hv]. destruct (print_int_ok v Hv) as (Hatoi & Hw & Hlen & c & l & Hcl & Hc).
    assert (next_token ((print_op op ++ print_int v) ++ k) = (CR_NOERR, op, print_int v ++ k)) as ->.
    { rewrite <- app_assoc. by destruct op. }
    rewrite Hop. rewrite Hcl. cbn [app]. rewrite next_token_word by done.
    change (c :: l ++ k) with ((c :: l) ++ k). rewrite <- Hcl.
    rewrite getword_plain by (auto; by rewrite Hcl). cbn [rbind]. rewrite Hnext, Hatoi.
    clear Hv. by rewrite !decide_False by naive_solver.
  - cbn [app]. rewrite Hnext, Hcmp. by rewrite decide_False by naive_solver.
Qed.

Lemma parse_function_print f args test k t k' :
  writable (EFun f args test) -> follow k t k' ->
  exists c l, print 2 (EFun f args test) ++ k = c :: l /\ starts c = true /\
    yields (fun n => crule_parsefunction n (c :: l)) (CR_NOERR, Some (to_node (EFun f args test)), t, k').
Proof.
  intros (Hf & Hreq & Hargs & Htest) Hk. pose proof (crule_funclist_ok f Hf) as Hok.
  unfold entry_ok in Hok. repeat (apply andb_true_iff in Hok as [Hok ?]).
  repeat match goal with H : bool_decide _ = true |- _ => apply bool_decide_eq_true in H end.
  assert (Hlen : (length (fn_name f) < 160)%nat) by (by apply Nat.ltb_lt).
  cbn [print level paren to_node]. change (2 <? 2)%nat with false. cbn [paren].
  rewrite <- !app_assoc. set (rest := str "(" ++ _).
  destruct (fn_name f) as [|c l] eqn:Hname; [done|]. exists c, (l ++ rest). split; [done|]. split; [done|].
  change (c :: l ++ rest) with ((c :: l) ++ rest).
  destruct (next_token (print_args args ++ str ")" ++ print_test test ++ k)) as [[e t2] r2] eqn:Ht2.
  assert (e = CR_NOERR) as ->.
  { revert Ht2. destruct args as [|a [|a2 args]]; cbn [print_args]; [by intros [= <-]|..];
      rewrite <- ?app_assoc, next_token_quote; by intros [= <-]. }
  apply (yields_ext _ (fun n =>
     let* (err, args', tok, s) := crule_parsearglist n t2 r2 in
       let partial := Some (NFunc None args' None) in
       if decide (err <> CR_NOERR) then Ret (err, partial, tok, s)
       else if decide (tok <> CR_CLOSEPAREN) then Ret (CR_EXPCTCLOSE, partial, tok, s)
       else if negb (reqnumargs f =? Z.of_nat (length args')) && negb (reqnumargs f =? -1)
       then Ret (CR_ARGMISMAT, partial, tok, s)
       else parse_test f args' s)).
  { intros n. unfold crule_parsefunction. rewrite getword_plain by done. cbn [rbind].
    unfold rest. change (next_token (str "(" ++ ?x)) with (CR_NOERR, CR_OPENPAREN, x). cbv beta iota.
    rewrite decide_False by naive_solver. rewrite decide_True by done. rewrite Hok, Ht2.
    by rewrite decide_False by naive_solver. }
  eapply yields_bind.
  - apply (parse_args_print args []); [done| |exact Ht2]. unfold CR_MAXARGS. simpl. lia.
  - apply yields_pure. intros n. cbn [app]. rewrite !decide_False by naive_solver.
    rewrite Hreq, Z.eqb_refl. cbn [negb andb]. by apply parse_test_print.
Qed.

(** *** The text is a C string *)

Lemma digits_cstr l : Forall (fun d => 48 <= d <= 57) l -> cstr l.
Proof. intros Hl. eapply Forall_impl; [exact Hl|]. unfold byte_ok. simpl. lia. Qed.

Lemma print_int_cstr v : - 2 ^ 31 < v < 2 ^ 31 -> cstr (print_int v).
Proof.
  intros Hv. destruct (decimal_ok 10 (Z.abs v)) as [Hd _]; [simpl; lia|]. apply digits_cstr in Hd.
  unfold print_int. destruct (Z.ltb_spec v 0).
  - rewrite Z.abs_neq in Hd by lia. apply cstr_cons. split; [by unfold byte_ok|done].
  - by rewrite Z.abs_eq in Hd by lia.
Qed.

Lemma quote_cstr a : cstr a -> cstr (quote a).
Proof. intros Ha. unfold quote. rewrite !cstr_app. repeat split; [repeat constructor|done|repeat constructor]. Qed.

Lemma print_args_cstr args : Forall (fun a => arg_ok a /\ 39 ∉ a) args -> cstr (print_args args).
Proof.
  induction 1 as [|a args [[Ha _] _] Hargs IH]; [constructor|]. apply quote_cstr in Ha. cbn [print_args].
  destruct args; [done|]. rewrite !cstr_app. repeat split; [done|repeat constructor|done].
Qed.

Lemma paren_cstr b s : cstr s -> cstr (paren b s).
Proof. intros Hs. destruct b; [|done]. unfold paren. rewrite !cstr_app. repeat split; [repeat constructor|done|repeat constructor]. Qed.

Lemma print_cstr p e : writable e -> cstr (print p e).
Proof.
  revert p. induction e as [f args test|e IH|a IHa b IHb|a IHa b IHb]; intros p Hw; cbn [print]; apply paren_cstr.
  - destruct Hw as (Hf & _ & Hargs & Htest). pose proof (crule_funclist_ok f Hf) as Hok.
    unfold entry_ok in Hok. apply andb_true_iff in Hok as [_ Hok]. rewrite !cstr_app. repeat split.
    + apply Forall_forall. intros c Hc. rewrite forallb_forall in Hok. specialize (Hok c (proj1 (list_elem_of_In _ _) Hc)).
      unfold byte_ok. lia.
    + repeat constructor.
    + by apply print_args_cstr.
    + repeat constructor.
    + destruct test as [[op v]|]; [|constructor]. destruct Htest as [Hop Hv]. apply cstr_app.
      split; [destruct op; repeat constructor|by apply print_int_cstr].
  - apply cstr_app. split; [repeat constructor|auto].
  - destruct Hw. rewrite !cstr_app. repeat split; [auto|repeat constructor|auto].
  - destruct Hw. rewrite !cstr_app. repeat split; [auto|repeat constructor|auto].
Qed.

(** ** Parsing what was printed *)

Section loops.

(** What the loops do with an operand once it is parsed. *)
Definition after_and (n : nat) (root expr : option CRuleNode) (tok : crule_token) (s : cstring) : run pres :=
  if decide (tok = CR_AND) then
    let '(err, tok, s) := next_token s in
    if decide (err = CR_NOERR) then crule_parseandexpr n (Some (grow false root expr)) tok s
    else Ret (err, Some (grow false root expr), tok, s)
  else finish CR_EXPCTPRIM root expr CR_NOERR tok s.

Definition after_or (n : nat) (root expr : option CRuleNode) (tok : crule_token) (s : cstring) : run pres :=
  if decide (tok = CR_OR) then
    let '(err, tok, s) := next_token s in
    if decide (err = CR_NOERR) then crule_parseorexpr n (Some (grow true root expr)) tok s
    else Ret (err, Some (grow true root expr), tok, s)
  else finish CR_EXPCTAND root expr CR_NOERR tok s.

(** The loop that has read [a] and the operator behaves, after [b], like the loop
    that has read the whole. *)
Lemma after_and_join n a b tok s :
  after_and n (Some (grow false None (Some a))) (Some b) tok s =
  after_and n None (Some (NAndOr false (Some a) (Some b))) tok s.
Proof. done. Qed.

Lemma after_or_join n a b tok s :
  after_or n (Some (grow true None (Some a))) (Some b) tok s =
  after_or n None (Some (NAndOr true (Some a) (Some b))) tok s.
Proof. done. Qed.

Lemma and_step root t s expr t' s' res :
  yields (fun n => crule_parseprimary n false t s) (CR_NOERR, expr, t', s') ->
  yields (fun n => after_and n root expr t' s') res ->
  yields (fun n => crule_parseandexpr n root t s) res.
Proof.
  intros Hp Ha. apply yields_step. eapply (yields_bind _ (fun n '(err, primary, tok, s) =>
      if decide (err = CR_NOERR /\ tok = CR_AND) then
        let '(err, tok, s) := next_token s in
        if decide (err = CR_NOERR) then crule_parseandexpr n (Some (grow false root primary)) tok s
        else Ret (err, Some (grow false root primary), tok, s)
      else finish CR_EXPCTPRIM root primary err tok s)); [exact Hp|].
  eapply yields_ext; [|exact Ha]. intros n. unfold after_and. cbv beta iota.
  destruct (decide (t' = CR_AND)) as [Ht|Ht]; [by rewrite decide_True|by rewrite decide_False by tauto].
Qed.

Lemma or_step root t s expr t' s' res :
  yields (fun n => crule_parseandexpr n None t s) (CR_NOERR, expr, t', s') ->
  yields (fun n => after_or n root expr t' s') res ->
  yields (fun n => crule_parseorexpr n root t s) res.
Proof.
  intros Hp Ha. apply yields_step. eapply (yields_bind _ (fun n '(err, primary, tok, s) =>
      if decide (err = CR_NOERR /\ tok = CR_OR) then
        let '(err, tok, s) := next_token s in
        if decide (err = CR_NOERR) then crule_parseorexpr n (Some (grow true root primary)) tok s
        else Ret (err, Some (grow true root primary), tok, s)
      else finish CR_EXPCTAND root primary err tok s)); [exact Hp|].
  eapply yields_ext; [|exact Ha]. intros n. unfold after_or. cbv beta iota.
  destruct (decide (t' = CR_OR)) as [Ht|Ht]; [by rewrite decide_True|by rewrite decide_False by tauto].
Qed.

(** What the three functions do on the text of a rule. *)
Definition good_prim (e : expr) : Prop :=
  forall k t k', follow k t k' -> exists t0 s0, next_token (print 2 e ++ k) = (CR_NOERR, t0, s0) /\
    forall nested, yields (fun n => crule_parseprimary n nested t0 s0) (CR_NOERR, Some (to_node e), t, k').

Definition good_and (e : expr) : Prop :=
  forall k t k', follow k t k' -> exists t0 s0, next_token (print 1 e ++ k) = (CR_NOERR, t0, s0) /\
    forall res, yields (fun n => after_and n None (Some (to_node e)) t k') res ->
           yields (fun n => crule_parseandexpr n None t0 s0) res.

Definition good_or (e : expr) : Prop :=
  forall k t k', follow k t k' -> t <> CR_AND -> exists t0 s0, next_token (print 0 e ++ k) = (CR_NOERR, t0, s0) /\
    forall res, yields (fun n => after_or n None (Some (to_node e)) t k') res ->
           yields (fun n => crule_parseorexpr n None t0 s0) res.

(** An operand at the end of its loop. *)
Lemma after_and_done e t k : t <> CR_AND -> yields (fun n => after_and n None (Some (to_node e)) t k) (CR_NOERR, Some (to_node e), t, k).
Proof. intros Ht. apply yields_pure. intros n. unfold after_and. by rewrite decide_False. Qed.

Lemma after_or_done e t k : t <> CR_OR -> yields (fun n => after_or n None (Some (to_node e)) t k) (CR_NOERR, Some (to_node e), t, k).
Proof. intros Ht. apply yields_pure. intros n. unfold after_or. by rewrite decide_False. Qed.

Lemma good_prim_fun f args test : writable (EFun f args test) -> good_prim (EFun f args test).
Proof.
  intros Hw k t k' Hk. destruct (parse_function_print f args test k t k' Hw Hk) as (c & l & Heq & Hc & Hy).
  exists CR_WORD, (c :: l). split; [rewrite Heq; by apply next_token_word|].
  intros nested. apply yields_step. exact Hy.
Qed.

Lemma good_prim_not e : good_prim e -> good_prim (ENot e).
Proof.
  intros IH k t k' Hk. destruct (IH k t k' Hk) as (t0 & s0 & Ht0 & Hy).
  exists CR_NOT, (print 2 e ++ k). split; [done|]. intros nested. apply yields_step.
  eapply (yields_ext _ (fun n => let* (err, node, tok, s) := crule_parseprimary n true t0 s0 in
                                 Ret (err, Some (NNot node), tok, s))).
  { intros n. cbn [crule_parseprimary]. rewrite Ht0. by rewrite decide_False by naive_solver. }
  eapply yields_bind; [apply Hy|]. by apply yields_pure.
Qed.

Lemma good_prim_paren e : (level e < 2)%nat -> good_or e -> good_prim e.
Proof.
  intros Hl IH k t k' Hk.
  assert (print 2 e = str "(" ++ print 0 e ++ str ")") as ->.
  { destruct e; simpl in Hl; try lia; reflexivity. }
  destruct (IH (str ")" ++ k) CR_CLOSEPAREN k (follow_close k) ltac:(done)) as (t0 & s0 & Ht0 & Hy).
  rewrite <- !app_assoc. exists CR_OPENPAREN, (print 0 e ++ str ")" ++ k). split; [done|]. intros nested.
  specialize (Hy _ (after_or_done e CR_CLOSEPAREN k ltac:(done))). apply follow_next in Hk as (Hnext & _ & _).
  apply yields_step. eapply (yields_ext _ (fun n =>
            let* (err, node, tok, s) := crule_parseorexpr n None t0 s0 in
            if decide (err <> CR_NOERR) then Ret (err, node, tok, s)
            else match node with
                 | None => Ret (CR_EXPCTAND, None, tok, s)
                 | Some _ =>
                     if decide (tok <> CR_CLOSEPAREN) then Ret (CR_EXPCTCLOSE, node, tok, s)
                     else let '(err, tok, s) := next_token s in Ret (err, node, tok, s)
                 end)).
  { intros n. cbn [crule_parseprimary]. rewrite Ht0. by rewrite decide_False by naive_solver. }
  eapply yields_bind; [exact Hy|]. apply yields_pure. intros n. rewrite !decide_False by naive_solver.
  by rewrite Hnext.
Qed.

Lemma good_and_prim e : (level e <> 1)%nat -> good_prim e -> good_and e.
Proof.
  intros Hl IH k t k' Hk. destruct (IH k t k' Hk) as (t0 & s0 & Ht0 & Hy).
  assert (print 1 e = print 2 e) as -> by (by destruct e).
  exists t0, s0. split; [done|]. intros res Hres. eapply and_step; [apply Hy|done].
Qed.

Lemma good_and_and a b : good_and a -> good_prim b -> good_and (EAnd a b).
Proof.
  intros IHa IHb k t k' Hk. destruct (IHb k t k' Hk) as (tb & sb & Htb & Hyb).
  destruct (IHa (str "&&" ++ print 2 b ++ k) CR_AND _ (follow_and _)) as (ta & sa & Hta & Hya).
  change (print 1 (EAnd a b)) with (print 1 a ++ str "&&" ++ print 2 b). rewrite <- !app_assoc.
  exists ta, sa. split; [done|].
  intros res Hres. apply Hya. eapply (yields_ext _ (fun n => crule_parseandexpr n (Some (grow false None (Some (to_node a)))) tb sb)).
  { intros n. unfold after_and. rewrite decide_True by done. rewrite Htb. by rewrite decide_True. }
  eapply and_step; [apply Hyb|]. eapply yields_ext; [intros n; apply after_and_join|exact Hres].
Qed.

Lemma good_or_and e : (level e <> 0)%nat -> good_and e -> good_or e.
Proof.
  intros Hl IH k t k' Hk Hnand. destruct (IH k t k' Hk) as (t0 & s0 & Ht0 & Hy).
  assert (print 0 e = print 1 e) as -> by (by destruct e).
  exists t0, s0. split; [done|]. intros res Hres. eapply or_step; [apply Hy|done]. by apply after_and_done.
Qed.

Lemma good_or_or a b : good_or a -> good_and b -> good_or (EOr a b).
Proof.
  intros IHa IHb k t k' Hk Hnand. destruct (IHb k t k' Hk) as (tb & sb & Htb & Hyb).
  destruct (IHa (str "||" ++ print 1 b ++ k) CR_OR _ (follow_or _) ltac:(done)) as (ta & sa & Hta & Hya).
  change (print 0 (EOr a b)) with (print 0 a ++ str "||" ++ print 1 b). rewrite <- !app_assoc.
  exists ta, sa. split; [done|].
  intros res Hres. apply Hya. eapply (yields_ext _ (fun n => crule_parseorexpr n (Some (grow true None (Some (to_node a)))) tb sb)).
  { intros n. unfold after_or. rewrite decide_True by done. rewrite Htb. by rewrite decide_True. }
  eapply or_step; [apply Hyb; by apply after_and_done|].
  eapply yields_ext; [intros n; apply after_or_join|exact Hres].
Qed.

Lemma all_good e : writable e -> good_prim e /\ good_and e /\ good_or e.
Proof.
  induction e as [f args test|e IH|a IHa b IHb|a IHa b IHb]; intros Hw.
  - pose proof (good_prim_fun _ _ _ Hw). split; [done|]. split; [by apply good_and_prim|].
    by apply good_or_and, good_and_prim.
  - destruct (IH Hw) as [Hp _]. pose proof (good_prim_not _ Hp). split; [done|].
    split; [by apply good_and_prim|]. by apply good_or_and, good_and_prim.
  - destruct Hw as [Hwa Hwb]. destruct (IHa Hwa) as (_ & Ha & _), (IHb Hwb) as (Hb & _ & _).
    pose proof (good_and_and _ _ Ha Hb) as Hand. assert (good_or (EAnd a b)) by (by apply good_or_and).
    split; [|done]. by apply good_prim_paren; [simpl; lia|].
  - destruct Hw as [Hwa Hwb]. destruct (IHa Hwa) as (_ & _ & Ha), (IHb Hwb) as (_ & Hb & _).
    pose proof (good_or_or _ _ Ha Hb) as Hor. assert (good_prim (EOr a b)) by (apply good_prim_paren; [simpl; lia|done]).
    split; [done|]. split; [by apply good_and_prim|done].
Qed.

End loops.

(** C20: The rule language round-trips.  The text of a rule, written with only the
    parentheses that the precedence of !, && and || requires, is accepted by
    [crule_test]; [crule_parse] returns exactly the tree of that rule; and evaluating
    the tree yields a value that is non-zero if and only if the rule holds under
    the usual meaning of the operators and comparisons, whatever the functions
    return. *)
Theorem crule_parse_print e :
  writable e ->
  _crule_parse (print 0 e) = Ret (Some (to_node e)) /\ _crule_test (print 0 e) = Ret 0 /\
  forall call, exists v, _crule_eval (fun f args => Some (call f args)) (to_node e) = Some v /\
    negb (v =? 0) = holds call e.
Proof.
  intros Hw. destruct (all_good e Hw) as (_ & _ & Hor).
  destruct (Hor [] CR_END [] follow_end ltac:(done)) as (t & s & Ht & Hy). rewrite app_nil_r in Ht.
  specialize (Hy _ (after_or_done e CR_END [] ltac:(done))).
  pose proof (yields_parse_rule _ _ _ _ _ (print_cstr 0 e Hw) Ht Hy) as Hrule.
  unfold _crule_parse, _crule_test. rewrite Hrule. cbn [rbind]. rewrite !decide_True by done.
  repeat split. intros call. apply eval_holds.
Qed.

(** !(online_time()<10 || via('a*','b c')) && reputation()==-5 *)
Definition sample_rule : expr :=
  EAnd (ENot (EOr (EFun (Fn (str "online_time") 0 F_online_time) [] (Some (CR_LESS_THAN, 10)))
                  (EFun (Fn (str "via") 2 F_via) [str "a*"; str "b c"] None)))
       (EFun (Fn (str "reputation") 0 F_reputation) [] (Some (CR_EQUAL, -5))).

Lemma crule_parse_print_witness :
  print 0 sample_rule = str "!(online_time()<10||via('a*','b c'))&&reputation()==-5" /\
  writable sample_rule /\
  _crule_parse (print 0 sample_rule) = Ret (Some (to_node sample_rule)) /\ _crule_test (print 0 sample_rule) = Ret 0 /\
  forall call, exists v, _crule_eval (fun f args => Some (call f args)) (to_node sample_rule) = Some v /\
    negb (v =? 0) = holds call sample_rule.
Proof.
  split; [vm_compute; reflexivity|].
  assert (H : writable sample_rule).
  { repeat split; try (apply list_elem_of_In; vm_compute; tauto); try (vm_compute; reflexivity);
      try (apply Forall_nil_2); [].
    apply Forall_cons; split; [|apply Forall_singleton]; split; try (split; [repeat constructor|vm_compute; split; lia]);
      (intros Hin; apply list_elem_of_In in Hin; vm_compute in Hin; intuition discriminate). }
  split; [exact H|]. apply (crule_parse_print sample_rule H).
Defined.
