(* ===== verification/Operclass.v ===== *)
(** * Operator classes (src/operclass.c and the operclass block of src/conf.c)

    An operclass is a tree of permissions with allow and deny entries, and may
    name a parent.  A path such as "channel:override:topic" is looked up in the class
    of the operator or its nearest ancestor.  The trees are nested lists, newest
    first as [AddListItem] leaves them; [None] is a NULL pointer that is followed.
    The main theorem states which paths are granted to whom. *)
From S2P Require Import Prelude Chars Strings Client Crule CruleFuncs.

(** ** Data *)

Inductive OperClassEntryType := OPERCLASSENTRY_ALLOW | OPERCLASSENTRY_DENY.

#[export] Instance OperClassEntryType_eq_dec : EqDecision OperClassEntryType.
Proof. solve_decision. Defined.

(** Name and value of a variable. *)
Definition OperClassACLEntryVar : Type := cstring * option cstring.

Record OperClassACLEntry := MkEntry {
  variables : list OperClassACLEntryVar;
  e_type : OperClassEntryType
}.

Inductive OperClassACL := ACL (acl_name : cstring) (entries : list OperClassACLEntry) (acls : list OperClassACL).

Definition acl_name (a : OperClassACL) : cstring := let 'ACL n _ _ := a in n.
Definition entries (a : OperClassACL) : list OperClassACLEntry := let 'ACL _ e _ := a in e.
Definition sub_acls (a : OperClassACL) : list OperClassACL := let 'ACL _ _ s := a in s.

Record OperClass := MkOperClass {
  ISA : option cstring;
  oc_name : cstring;
  oc_acls : list OperClassACL
}.

(** An oper block: its name and operclass. *)
Record ConfigItem_oper := MkOper { oper_name : cstring; operclass : option cstring }.

Record configuration := MkConf { conf_oper : list ConfigItem_oper; conf_operclass : list OperClass }.

(** ** Reading the configuration *)

Inductive ConfigEntry := CE (ce_name : cstring) (ce_value : option cstring) (ce_items : list ConfigEntry).

Definition ce_name (ce : ConfigEntry) : cstring := let 'CE n _ _ := ce in n.
Definition ce_value (ce : ConfigEntry) : option cstring := let 'CE _ v _ := ce in v.
Definition ce_items (ce : ConfigEntry) : list ConfigEntry := let 'CE _ _ i := ce in i.

(** [AddListItem] in a loop. *)
Definition add_all {A} (items : list A) : list A := fold_left (fun l x => x :: l) items [].

Definition _conf_parseACLEntry (ce : ConfigEntry) : OperClassACLEntry :=
  MkEntry (add_all (map (fun cep => (ce_name cep, ce_value cep)) (ce_items ce)))
    (if bool_decide (ce_name ce = str "allow") then OPERCLASSENTRY_ALLOW else OPERCLASSENTRY_DENY).

Definition is_entry (ce : ConfigEntry) : bool :=
  bool_decide (ce_name ce = str "deny") || bool_decide (ce_name ce = str "allow").

Fixpoint _conf_parseACL (name : cstring) (ce : ConfigEntry) {struct ce} : OperClassACL :=
  let fix loop items entries acls :=
    match items with
    | [] => ACL name entries acls
    | cep :: items =>
        if is_entry cep then loop items (_conf_parseACLEntry cep :: entries) acls
        else loop items entries (_conf_parseACL (ce_name cep) cep :: acls)
    end in
  loop (ce_items ce) [] [].

(** A later parent replaces an earlier one. *)
Definition _conf_operclass (conf : list OperClass) (ce : ConfigEntry) : list OperClass :=
  let step := fun oc cep =>
    if bool_decide (ce_name cep = str "parent") then MkOperClass (ce_value cep) (oc_name oc) (oc_acls oc)
    else if bool_decide (ce_name cep = str "permissions") then
      MkOperClass (ISA oc) (oc_name oc)
        (fold_left (fun l cepp => _conf_parseACL (ce_name cepp) cepp :: l) (ce_items cep) (oc_acls oc))
    else oc in
  fold_left step (ce_items ce) (MkOperClass None (default [] (ce_value ce)) []) :: conf.

(** [find_oper] and [find_operclass] *)
Definition find_oper (conf : configuration) (name : option cstring) : option ConfigItem_oper :=
  n ← name; List.find (fun e => bool_decide (oper_name e = n)) (conf_oper conf).

Definition find_operclass (conf : configuration) (name : option cstring) : option OperClass :=
  n ← name; List.find (fun e => bool_decide (oc_name e = n)) (conf_operclass conf).

(** ** Paths *)

(** The tokens are put in front of a list, which is then reversed in place; without
    a token the reversal follows a NULL pointer. *)
Definition OperClass_parsePath (path : cstring) : option (list cstring) :=
  match add_all (tokens [58] path) with
  | [] => None
  | pathHead => Some (add_all pathHead)
  end.

Definition OperClass_FindACL (acls : list OperClassACL) (name : cstring) : option OperClassACL :=
  List.find (fun a => bool_decide (acl_name a = name)) acls.

(** ** Validators

    A node of the tree of validators; a pointer to a node is the node with its later
    siblings.  Callbacks carry a number that stands for their address. *)

Section validators.
Context {P : Type}.

Definition callback : Type := list OperClassACLEntryVar -> P -> Z.

Inductive OperClassPathNode :=
  PathNode (identifier : option cstring) (callbacks : list (positive * callback)) (children : list OperClassPathNode).

Definition identifier (n : OperClassPathNode) : option cstring := let 'PathNode i _ _ := n in i.
Definition callbacks (n : OperClassPathNode) : list (positive * callback) := let 'PathNode _ c _ := n in c.
Definition children (n : OperClassPathNode) : list OperClassPathNode := let 'PathNode _ _ c := n in c.

(** [strcmp] on a NULL identifier is a fault; [Some []] is NULL. *)
Fixpoint OperClass_findPathNodeForIdentifier (id : cstring) (head : list OperClassPathNode)
  : option (list OperClassPathNode) :=
  match head with
  | [] => Some []
  | n :: rest =>
      i ← identifier n;
      if bool_decide (i = id) then Some head else OperClass_findPathNodeForIdentifier id rest
  end.

(** The new branch below a node: the rest of the path and the callback. *)
Fixpoint new_branch (path : list cstring) (id : cstring) (cb : positive * callback) : OperClassPathNode :=
  match path with
  | [] => PathNode (Some id) [cb] []
  | id' :: path => PathNode (Some id) [] [new_branch path id' cb]
  end.

Fixpoint add_below (path : list cstring) (cb : positive * callback) (node : OperClassPathNode) : OperClassPathNode :=
  match path with
  | [] => PathNode (identifier node) (cb :: callbacks node) (children node)
  | id :: path =>
      let same := fun n => bool_decide (identifier n = Some id) in
      let fix at_first l :=
        match l with
        | [] => []
        | n :: l => if same n then add_below path cb n :: l else n :: at_first l
        end in
      PathNode (identifier node) (callbacks node)
        (if existsb same (children node) then at_first (children node)
         else new_branch path id cb :: children node)
  end.

(** [OperClassAddValidator], on [rootEvalNode]. *)
Definition OperClassAddValidator (root : option OperClassPathNode) (pathStr : cstring) (cb : positive * callback)
  : option (option OperClassPathNode) :=
  path ← OperClass_parsePath pathStr;
  Some (Some (add_below path cb (default (PathNode None [] []) root))).

(** [OperClassValidatorDel] takes the callback out of the node it is in. *)
Fixpoint OperClassValidatorDel (cb : positive) (node : OperClassPathNode) : OperClassPathNode :=
  PathNode (identifier node) (List.filter (fun c => negb (Pos.eqb (fst c) cb)) (callbacks node))
    (map (OperClassValidatorDel cb) (children node)).

(** The loop of [OperClass_evaluateACLEntry], over the identifiers that have a
    successor; [Some None] is the early return. *)
Fixpoint go_deep (path : list cstring) (node : list OperClassPathNode) : option (option (list OperClassPathNode)) :=
  match path with
  | id :: ((_ :: _) as rest) =>
      match node with
      | [] => Some None
      | _ =>
          found ← OperClass_findPathNodeForIdentifier id node;
          match found with
          | [] => Some None
          | n :: _ => go_deep rest (children n)
          end
      end
  | _ => Some (Some node)
  end.

Definition OperClass_evaluateACLEntry (root : option OperClassPathNode) (entry : OperClassACLEntry)
    (path : list cstring) (params : P) : option Z :=
  match variables entry with
  | [] => Some 1
  | vars =>
      deep ← go_deep path (option_list root);
      match deep with
      | None => Some 0
      | Some [] => None
      | Some (n :: _) => Some (fold_left (fun _ cb => snd cb vars params) (callbacks n) 0)
      end
  end.

(** ** Permissions *)

(** As deep as possible: the ACL and [aclNotFound]. *)
Fixpoint descend (acl : OperClassACL) (path : list cstring) {struct path} : OperClassACL * bool :=
  match path, sub_acls acl with
  | id :: path, (_ :: _) as subs =>
      match OperClass_FindACL subs id with
      | None => (acl, true)
      | Some tmp => descend tmp path
      end
  | _, _ => (acl, false)
  end.

(** The loop over the entries with [allow] and [deny]. *)
Fixpoint process (root : option OperClassPathNode) (basePath : list cstring) (params : P)
    (es : list OperClassACLEntry) (allow deny : Z) : option (Z * Z) :=
  match es with
  | [] => Some (allow, deny)
  | entry :: es =>
      match e_type entry with
      | OPERCLASSENTRY_ALLOW =>
          if negb (allow =? 0) then process root basePath params es allow deny
          else result ← OperClass_evaluateACLEntry root entry basePath params;
               process root basePath params es result deny
      | OPERCLASSENTRY_DENY =>
          if negb (deny =? 0) then process root basePath params es allow deny
          else result ← OperClass_evaluateACLEntry root entry basePath params;
               process root basePath params es allow result
      end
  end.

(** [true] is [OPER_ALLOW]. *)
Definition ValidatePermissionsForPathEx (root : option OperClassPathNode) (acl : OperClassACL)
    (path : list cstring) (params : P) : option bool :=
  let '(acl, aclNotFound) := descend acl (tl path) in
  if match sub_acls acl with [] => false | _ => true end && aclNotFound then Some false
  else
    match entries acl with
    | [] => Some true
    | es =>
        '(allow, deny) ← process root path params es 0 0;
        Some (negb (allow =? 0) && (deny =? 0))
    end.

(** The loop over a class and its parents; [budget] iterations are left before
    [looping++ > 10]. *)
Fixpoint class_loop (conf : configuration) (root : option OperClassPathNode) (budget : nat) (oc : OperClass)
    (operPath : list cstring) (params : P) : option bool :=
  match budget with
  | O => Some false
  | S budget =>
      id ← head operPath;
      match OperClass_FindACL (oc_acls oc) id with
      | Some acl => ValidatePermissionsForPathEx root acl operPath params
      | None =>
          match ISA oc with
          | None => Some false
          | Some _ =>
              match find_operclass conf (ISA oc) with
              | Some parent => class_loop conf root budget parent operPath params
              | None => Some false
              end
          end
      end
  end.

Definition CLIENT_FLAG_ULINE : Z := 32768.
Definition RIsServer (c : RuleClient) : bool := bool_decide (r_status c = CLIENT_STATUS_SERVER).
Definition RIsMe (c : RuleClient) : bool := bool_decide (r_status c = CLIENT_STATUS_ME).
Definition IsULine (c : RuleClient) : bool := has (r_flags c) CLIENT_FLAG_ULINE.
Definition RMyUser (c : RuleClient) : bool := bool_decide (is_Some (my_user c)).

Context (net : network).

(** "Trust Servers, U-Lines and remote opers" *)
Definition trusted (c : RuleClient) : bool :=
  RIsServer c || RIsMe c || IsULine c || (RIsOper net c && negb (RMyUser c)).

(** The name of the class of a local operator. *)
Definition client_operclass (conf : configuration) (c : RuleClient) : option (option cstring) :=
  u ← r_user c;
  match find_oper conf (r_operlogin u) with
  | None => Some (r_moddata c (str "operclass"))
  | Some ce_oper => Some (operclass ce_oper)
  end.

Definition ValidatePermissionsForPath (conf : configuration) (root : option OperClassPathNode)
    (path : cstring) (client : option RuleClient) (params : P) : option bool :=
  match client with
  | None => Some false
  | Some client =>
      if trusted client then Some true
      else if negb (RIsOper net client) then Some false
      else
        operclass ← client_operclass conf client;
        match find_operclass conf operclass with
        | None => Some false
        | Some oc =>
            operPath ← OperClass_parsePath path;
            class_loop conf root 11 oc operPath params
        end
  end.

(** ** What is granted *)

(** An entry with variables needs a validator; one without always matches. *)
Definition unconditional (e : OperClassACLEntry) : bool := match variables e with [] => true | _ => false end.

Definition is_allow (e : OperClassACLEntry) : bool := bool_decide (e_type e = OPERCLASSENTRY_ALLOW).

(** The entries of one ACL: nothing said is a yes, otherwise some allow and no deny. *)
Definition entries_allow (es : list OperClassACLEntry) : Prop :=
  es = [] \/
  (exists e, e ∈ es /\ is_allow e = true /\ unconditional e = true) /\
  (forall e, e ∈ es -> is_allow e = false -> unconditional e = false).

(** The path below an ACL is granted: the path ends, or nothing more specific is
    configured, and the entries allow it; or the next component is configured and
    the path below it is granted.  A component that is missing where others are
    configured is not granted. *)
Inductive granted : OperClassACL -> list cstring -> Prop :=
| granted_here acl rest :
    rest = [] \/ sub_acls acl = [] -> entries_allow (entries acl) -> granted acl rest
| granted_below acl sub id rest :
    OperClass_FindACL (sub_acls acl) id = Some sub -> granted sub rest -> granted acl (id :: rest).

(** The ACL for the first component in a class or its nearest ancestor, [n] steps up. *)
Inductive nearest (conf : configuration) (id : cstring) : nat -> OperClass -> OperClassACL -> Prop :=
| nearest_own oc acl : OperClass_FindACL (oc_acls oc) id = Some acl -> nearest conf id 0 oc acl
| nearest_parent n oc parent acl :
    OperClass_FindACL (oc_acls oc) id = None -> ISA oc <> None ->
    find_operclass conf (ISA oc) = Some parent -> nearest conf id n parent acl -> nearest conf id (S n) oc acl.

Fixpoint plain_acl (a : OperClassACL) : bool :=
  let 'ACL _ es subs := a in forallb unconditional es && forallb plain_acl subs.

Definition plain_conf (conf : configuration) : bool :=
  forallb (fun oc => forallb plain_acl (oc_acls oc)) (conf_operclass conf).

(** The entries are decided by being unconditional. *)
Definition decided (root : option OperClassPathNode) (path : list cstring) (params : P) (e : OperClassACLEntry) : Prop :=
  OperClass_evaluateACLEntry root e path params = Some (if unconditional e then 1 else 0).

Lemma decided_unconditional root path params e : unconditional e = true -> decided root path params e.
Proof. unfold decided, unconditional, OperClass_evaluateACLEntry. by destruct (variables e). Qed.

Lemma decided_no_validators id id' rest params e : decided None (id :: id' :: rest) params e.
Proof. unfold decided, unconditional, OperClass_evaluateACLEntry. by destruct (variables e). Qed.

Lemma process_decided root path params es allow deny :
  Forall (decided root path params) es ->
  exists a d, process root path params es allow deny = Some (a, d) /\
    (a <> 0 <-> allow <> 0 \/ exists e, e ∈ es /\ is_allow e = true /\ unconditional e = true) /\
    (d <> 0 <-> deny <> 0 \/ exists e, e ∈ es /\ is_allow e = false /\ unconditional e = true).
Proof.
  intros Hes. revert allow deny. induction Hes as [|e es He _ IH]; intros allow deny.
  - exists allow, deny. split; [done|]. split; (split; [by left|]); intros [?|(e & He & _)]; try done; by apply elem_of_nil in He.
  - cbn [process].
    assert (Hex : forall b, (exists x, x ∈ e :: es /\ is_allow x = b /\ unconditional x = true) <->
               (is_allow e = b /\ unconditional e = true) \/ (exists x, x ∈ es /\ is_allow x = b /\ unconditional x = true)).
    { intros b. split; [intros (x & [->|Hx]%elem_of_cons & H); eauto|].
      intros [H|(x & Hx & H)]; [exists e; split; [left|done]|exists x; split; [by right|done]]. }
    unfold decided in He. destruct (e_type e) eqn:Ht.
    + assert (Hal : is_allow e = true) by (unfold is_allow; by rewrite Ht).
      destruct (Z.eqb_spec allow 0) as [->|Ha]; cbn [negb].
      * rewrite He. cbn [mbind option_bind]. destruct (IH (if unconditional e then 1 else 0) deny) as (a & d & -> & H1 & H2).
        exists a, d. split; [done|]. rewrite H1, H2, !Hex, Hal.
        clear. destruct (unconditional e); intuition (lia || congruence).
      * destruct (IH allow deny) as (a & d & -> & H1 & H2). exists a, d. split; [done|]. rewrite H1, H2, !Hex, Hal.
        clear - Ha. intuition congruence.
    + assert (Hal : is_allow e = false) by (unfold is_allow; by rewrite Ht).
      destruct (Z.eqb_spec deny 0) as [->|Ha]; cbn [negb].
      * rewrite He. cbn [mbind option_bind]. destruct (IH allow (if unconditional e then 1 else 0)) as (a & d & -> & H1 & H2).
        exists a, d. split; [done|]. rewrite H1, H2, !Hex, Hal.
        clear. destruct (unconditional e); intuition (lia || congruence).
      * destruct (IH allow deny) as (a & d & -> & H1 & H2). exists a, d. split; [done|]. rewrite H1, H2, !Hex, Hal.
        clear - Ha. intuition congruence.
Qed.

(** The whole tree is decided. *)
Definition tree_decided (root : option OperClassPathNode) (path : list cstring) (params : P) (a : OperClassACL) : Prop :=
  plain_acl a = true \/ forall e, decided root path params e.

Lemma FindACL_elem l name a : OperClass_FindACL l name = Some a -> a ∈ l.
Proof. intros H. apply find_some in H as [H _]. by apply list_elem_of_In. Qed.

Lemma tree_decided_sub root path params a sub id :
  tree_decided root path params a -> OperClass_FindACL (sub_acls a) id = Some sub -> tree_decided root path params sub.
Proof.
  intros [Hp|Hd] Hf; [left|by right]. destruct a as [n es subs]. cbn [plain_acl] in Hp. apply andb_true_iff in Hp as [_ Hp].
  rewrite forallb_forall in Hp. apply Hp, list_elem_of_In. by eapply FindACL_elem.
Qed.

Lemma tree_decided_entries root path params a :
  tree_decided root path params a -> Forall (decided root path params) (entries a).
Proof.
  intros [Hp|Hd]; [|by apply Forall_forall]. destruct a as [n es subs]. cbn [plain_acl] in Hp.
  apply andb_true_iff in Hp as [Hp _]. rewrite forallb_forall in Hp. apply Forall_forall. intros e He.
  apply decided_unconditional, Hp. by apply list_elem_of_In.
Qed.

(** The decision at the ACL where the descent ends. *)
Lemma decide_here root path params a :
  Forall (decided root path params) (entries a) ->
  exists b, match entries a with
       | [] => Some true
       | es => '(allow, deny) ← process root path params es 0 0; Some (negb (allow =? 0) && (deny =? 0))
       end = Some b /\ (b = true <-> entries_allow (entries a)).
Proof.
  intros Hd. destruct (entries a) as [|e es] eqn:He; [exists true; split; [done|]; split; [by left|done]|].
  destruct (process_decided root path params (e :: es) 0 0 Hd) as (x & y & -> & Hx & Hy). simpl.
  eexists. split; [reflexivity|]. rewrite andb_true_iff, negb_true_iff, Z.eqb_neq, Z.eqb_eq.
  unfold entries_allow. split.
  - intros [Ha Hz]. right. split; [tauto|]. intros f Hf Hn. destruct (unconditional f) eqn:Hu; [|done].
    exfalso. apply Hy; [|done]. right. eauto.
  - intros [|[Ha Hn]]; [done|]. split; [apply Hx; by right|]. destruct (Z.eq_dec y 0) as [|Hne]; [done|].
    apply Hy in Hne as [|(f & Hf & Hf1 & Hf2)]; [done|]. rewrite (Hn f Hf Hf1) in Hf2. done.
Qed.

Lemma PathEx_granted root base acl id rest params :
  tree_decided root base params acl -> base = id :: rest ->
  exists b, ValidatePermissionsForPathEx root acl base params = Some b /\ (b = true <-> granted acl rest).
Proof.
  intros Hd ->. unfold ValidatePermissionsForPathEx. cbn [tl].
  assert (Hgen : forall rest' acl, tree_decided root (id :: rest) params acl ->
    exists b, (let '(acl, aclNotFound) := descend acl rest' in
      if match sub_acls acl with [] => false | _ => true end && aclNotFound then Some false
      else match entries acl with
           | [] => Some true
           | es => '(allow, deny) ← process root (id :: rest) params es 0 0; Some (negb (allow =? 0) && (deny =? 0))
           end) = Some b /\ (b = true <-> granted acl rest')).
  { clear Hd acl. induction rest' as [|x rest' IH]; intros acl Hd.
    - cbn [descend]. rewrite andb_false_r. destruct (decide_here _ _ _ acl (tree_decided_entries _ _ _ _ Hd)) as (b & Hb & Hiff).
      exists b. split; [done|]. rewrite Hiff. split; [by constructor; [left|]|]. by inversion 1.
    - cbn [descend]. destruct (sub_acls acl) as [|s subs] eqn:Hs.
      + rewrite Hs. cbn [andb]. destruct (decide_here _ _ _ acl (tree_decided_entries _ _ _ _ Hd)) as (b & Hb & Hiff).
        exists b. split; [done|]. rewrite Hiff. split; [by constructor; [right|]|].
        inversion 1 as [? ? ? ?|? sub ? ? Hf]; subst; [done|]. by rewrite Hs in Hf.
      + destruct (OperClass_FindACL (s :: subs) x) as [sub|] eqn:Hf.
        * rewrite <- Hs in Hf. destruct (IH sub (tree_decided_sub _ _ _ _ _ _ Hd Hf)) as (b & Hb & Hiff).
          exists b. split; [done|]. rewrite Hiff. split; [by econstructor|].
          inversion 1 as [? ? Hor ?|? sub' ? ? Hf']; subst; [destruct Hor; congruence|]. congruence.
        * rewrite Hs. cbn [andb]. exists false. split; [done|]. split; [done|].
          inversion 1 as [? ? Hor ?|? sub' ? ? Hf']; subst; [destruct Hor; congruence|]. rewrite Hs in Hf'. congruence. }
  by apply Hgen.
Qed.

(** All ACLs of all classes are decided for a path. *)
Definition conf_decided (conf : configuration) (root : option OperClassPathNode) (path : list cstring) (params : P) : Prop :=
  forall oc id acl, oc ∈ conf_operclass conf -> OperClass_FindACL (oc_acls oc) id = Some acl ->
    tree_decided root path params acl.

Lemma find_operclass_elem conf name oc : find_operclass conf name = Some oc -> oc ∈ conf_operclass conf.
Proof. unfold find_operclass. destruct name; [|done]. simpl. intros [H _]%find_some. by apply list_elem_of_In. Qed.

Lemma class_loop_spec conf root budget oc id rest params :
  conf_decided conf root (id :: rest) params -> oc ∈ conf_operclass conf ->
  exists b, class_loop conf root budget oc (id :: rest) params = Some b /\
    (b = true <-> exists n acl, (n < budget)%nat /\ nearest conf id n oc acl /\ granted acl rest).
Proof.
  intros Hd. revert oc. induction budget as [|budget IH]; intros oc Hoc.
  - exists false. split; [done|]. split; [done|]. intros (n & acl & ? & _). lia.
  - cbn [class_loop head mbind option_bind]. destruct (OperClass_FindACL (oc_acls oc) id) as [acl|] eqn:Hf.
    + destruct (PathEx_granted root (id :: rest) acl id rest params (Hd oc id acl Hoc Hf) eq_refl) as (b & Hb & Hiff).
      exists b. split; [done|]. rewrite Hiff. split.
      * intros Hg. exists 0%nat, acl. split; [lia|]. split; [by constructor|done].
      * intros (n & acl' & _ & Hn & Hg). inversion Hn; simplify_eq. done.
    + assert (Hno : find_operclass conf (ISA oc) = None \/ ISA oc = None ->
        (false = true <-> exists n acl, (n < S budget)%nat /\ nearest conf id n oc acl /\ granted acl rest)).
      { intros Hnone. split; [done|]. intros (n & acl' & _ & Hn & _). inversion Hn; simplify_eq; destruct Hnone; congruence. }
      destruct (ISA oc) as [parent|] eqn:Hisa; [|exists false; auto].
      destruct (find_operclass conf (Some parent)) as [poc|] eqn:Hp; [|exists false; auto].
      destruct (IH poc (find_operclass_elem _ _ _ Hp)) as (b & Hb & Hiff). exists b. split; [done|]. rewrite Hiff.
      split.
      * intros (n & acl & Hn & Hnear & Hg). exists (S n), acl. split; [lia|]. split; [|done].
        eapply nearest_parent; eauto; by rewrite Hisa.
      * intros (n & acl & Hn & Hnear & Hg). inversion Hnear as [|n' oc' parent' acl' ? ? Hp' ?]; simplify_eq.
        rewrite Hisa, Hp in Hp'. injection Hp' as <-. exists n', acl. split; [lia|done].
Qed.

Lemma parsePath_tokens path : OperClass_parsePath path = match tokens [58] path with [] => None | l => Some l end.
Proof.
  assert (Hadd : forall A (l acc : list A), fold_left (fun l x => x :: l) l acc = rev l ++ acc).
  { intros A l. induction l as [|x l IH]; intros acc; simpl; [done|]. by rewrite IH, <- app_assoc. }
  unfold OperClass_parsePath, add_all. rewrite !Hadd, !app_nil_r.
  destruct (tokens [58] path) as [|x l] eqn:Ht; [done|].
  destruct (rev (x :: l)) as [|y r] eqn:Hr.
  - apply (f_equal (@rev cstring)) in Hr. by rewrite rev_involutive in Hr.
  - rewrite Hadd, app_nil_r, <- Hr. by rewrite rev_involutive.
Qed.

Lemma conf_decided_cases conf root id rest params :
  plain_conf conf = true \/ root = None /\ rest <> [] -> conf_decided conf root (id :: rest) params.
Proof.
  intros [Hp|[-> Hr]] oc id' acl Hoc Hf.
  - left. unfold plain_conf in Hp. rewrite forallb_forall in Hp. specialize (Hp oc (proj1 (list_elem_of_In _ _) Hoc)).
    rewrite forallb_forall in Hp. apply Hp, list_elem_of_In. by eapply FindACL_elem.
  - right. intros e. destruct rest as [|id2 rest]; [done|]. apply decided_no_validators.
Qed.

(** C28: Who may do what.  For every configuration, also one whose operclasses name each
    other as parents in a circle, every path with at least one component and every
    client, the check returns (unless an entry with variables meets the broken
    validator lookup), and it allows exactly: servers, this server, U-lined clients
    and remote operators; and local operators whose operclass exists and, together
    with its ancestors up to ten steps away, has an ACL for the first component
    under which the rest of the path is granted: the nearest ancestor decides, a
    component missing among configured ones denies, a deny entry prevails over any
    allow entry, and an ACL without entries allows. *)
Theorem operclass_permissions conf root path client params id rest :
  client_ok client -> tokens [58] path = id :: rest ->
  plain_conf conf = true \/ root = None /\ rest <> [] ->
  exists b, ValidatePermissionsForPath conf root path (Some client) params = Some b /\
    (b = true <->
     trusted client = true \/
     RIsOper net client = true /\
     exists name oc n acl, client_operclass conf client = Some name /\ find_operclass conf name = Some oc /\
       (n <= 10)%nat /\ nearest conf id n oc acl /\ granted acl rest).
Proof.
  intros Hok Htok Hcases. unfold ValidatePermissionsForPath.
  destruct (trusted client) eqn:Htr; [exists true; split; [done|]; tauto|].
  destruct (RIsOper net client) eqn:Hop; cbn [negb]; [|exists false; split; [done|]; split; [done|]; intros [|[]]; done].
  assert (Huser : is_Some (r_user client)).
  { apply (ok_has_user _ Hok). unfold trusted in Htr. rewrite Hop in Htr.
    apply orb_false_iff in Htr as [_ Htr]. cbn [andb] in Htr. apply negb_false_iff in Htr.
    unfold RMyUser, my_user in Htr. apply bool_decide_eq_true in Htr. destruct (RIsUser client); [done|by destruct Htr]. }
  destruct Huser as [u Hu].
  assert (exists name, client_operclass conf client = Some name) as [name Hname].
  { unfold client_operclass. rewrite Hu. simpl. case_match; eauto. }
  rewrite Hname. cbn [mbind option_bind].
  destruct (find_operclass conf name) as [oc|] eqn:Hoc.
  - rewrite parsePath_tokens, Htok. cbn [mbind option_bind].
    destruct (class_loop_spec conf root 11 oc id rest params (conf_decided_cases _ _ _ _ _ Hcases)
                (find_operclass_elem _ _ _ Hoc)) as (b & Hb & Hiff).
    exists b. split; [done|]. rewrite Hiff. split.
    + intros (n & acl & Hn & Hnear & Hg). right. split; [done|]. exists name, oc, n, acl. split; [done|]. split; [done|].
      split; [lia|done].
    + intros [|(_ & name' & oc' & n & acl & Hn' & Hoc' & Hn & Hnear & Hg)]; [done|].
      simplify_eq. exists n, acl. split; [lia|done].
  - exists false. split; [done|]. split; [done|].
    intros [|(_ & name' & oc' & n & acl & Hn' & Hoc' & _)]; [done|]. simplify_eq.
Qed.

(** Users that are not operators get nothing, whatever is configured or registered. *)
Lemma operclass_not_oper conf root path client params :
  trusted client = false -> RIsOper net client = false ->
  ValidatePermissionsForPath conf root path (Some client) params = Some false.
Proof. intros Ht Ho. unfold ValidatePermissionsForPath. by rewrite Ht, Ho. Qed.

(** A validator never makes an entry match: with validators registered at any paths,
    looking one up for a path of two components compares with the NULL name of the
    root, and for a single component the callbacks of the root, which has none, are
    run. *)
Lemma add_below_root path cb node : path <> [] ->
  identifier (add_below path cb node) = identifier node /\ callbacks (add_below path cb node) = callbacks node.
Proof. destruct path; [done|]. by destruct node. Qed.

Lemma validators_never_match regs root entry path params :
  fold_left (fun r '(p, cb) => r ← r; OperClassAddValidator r p cb) regs (Some None) = Some root ->
  variables entry <> [] -> path <> [] ->
  OperClass_evaluateACLEntry root entry path params = None \/
  OperClass_evaluateACLEntry root entry path params = Some 0.
Proof.
  intros Hregs Hv Hp.
  assert (Hroot : forall r0 rs, fold_left (fun r '(p, cb) => r ← r; OperClassAddValidator r p cb) rs (Some r0) = Some root ->
    (r0 = None \/ exists ch, r0 = Some (PathNode None [] ch)) -> root = None \/ exists ch, root = Some (PathNode None [] ch)).
  { intros r0 rs. revert r0. induction rs as [|[p cb] rs IH]; intros r0; simpl; [naive_solver|].
    assert (Hnone : fold_left (fun r '(p, cb) => r ← r; OperClassAddValidator r p cb) rs None = None).
    { clear. induction rs as [|[p cb] rs IH]; [done|]. exact IH. }
    unfold OperClassAddValidator at 2. rewrite parsePath_tokens.
    destruct (tokens [58] p) as [|t ts]; simpl; [by rewrite Hnone|]. intros H Hr0. apply (IH _ H). right.
    destruct Hr0 as [->|[ch ->]]; eauto. }
  destruct (Hroot None regs Hregs ltac:(by left)) as [->|[ch ->]]; unfold OperClass_evaluateACLEntry;
    destruct (variables entry); try done; destruct path as [|x [|y path]]; try done; simpl; auto.
Qed.
End validators.

(** A class that denies one thing and inherits the rest. *)
Definition sample_conf : configuration :=
  let item := fun n items => CE n None items in
  MkConf [MkOper (str "bob") (Some (str "helper"))]
    (_conf_operclass
      (_conf_operclass []
        (CE (str "operclass") (Some (str "base"))
          [item (str "permissions") [item (str "kill") []; item (str "channel") [item (str "see") []]]]))
      (CE (str "operclass") (Some (str "helper"))
        [CE (str "parent") (Some (str "base")) [];
         item (str "permissions")
           [item (str "channel") [item (str "override") [item (str "topic") [item (str "allow") []];
                                                          item (str "mode") [item (str "deny") []; item (str "allow") []]]]]])).

Definition sample_client : RuleClient :=
  MkRuleClient CLIENT_STATUS_USER 0 1 [] (Some (MkRuleLocal [] [] 0 0 0 0 None None None (MkRuleTraffic 0 0 0 0)))
    (Some (MkRuleUser None (str "bob") 0 None [] None (Some (str "bob")) false [])) (fun _ => None) 0.

Definition sample_net : network :=
  MkNetwork 0 1 2 4 [] [] [] (fun _ => None) (fun _ => 0) (fun _ => 0) (fun _ => None) (fun _ _ => 0)
    (fun _ _ _ => false) (fun _ _ => false) (fun _ _ _ => false) (fun _ => -1) (fun _ => 0) (fun _ => None).

Lemma sample_client_ok : client_ok sample_client.
Proof.
  split.
  - constructor.
  - done.
  - intros _. by eexists.
  - intros u [= <-]. split; [constructor|]. split; [done|]. split; [done|].
    split; [intros s [= <-]; repeat constructor|]. split; [done|constructor].
  - by intros l [= <-].
Qed.

Lemma operclass_permissions_witness :
  ValidatePermissionsForPath sample_net sample_conf None (str "channel:override:mode") (Some sample_client) tt = Some false /\
  ValidatePermissionsForPath sample_net sample_conf None (str "kill:local") (Some sample_client) tt = Some true /\
  exists b, ValidatePermissionsForPath sample_net sample_conf None (str "channel:override:topic") (Some sample_client) tt = Some b /\
    (b = true <->
     trusted sample_net sample_client = true \/
     RIsOper sample_net sample_client = true /\
     exists name oc n acl, client_operclass sample_conf sample_client = Some name /\
       find_operclass sample_conf name = Some oc /\
       (n <= 10)%nat /\ nearest sample_conf (str "channel") n oc acl /\ granted acl [str "override"; str "topic"]).
Proof.
  split; [vm_compute; reflexivity|]. split; [vm_compute; reflexivity|].
  apply (operclass_permissions sample_net sample_conf None (str "channel:override:topic") sample_client tt).
  - exact sample_client_ok.
  - vm_compute. reflexivity.
  - left. vm_compute. reflexivity.
Defined.
