(* ===== verification/Badwords.v ===== *)
(** * Bad words and formatting codes (src/match.c, src/misc.c)

    The word filter of the censor modes: reading a word from the configuration,
    looking for it in a line, and replacing the words that contain it in a bounded
    buffer.  The reference is the function [censor], which works word by word.
    Regular expressions are matched by PCRE2, a parameter.  Also the removal of
    formatting codes, which is applied first. *)
From S2P Require Import Prelude Chars Strings.

(** ** Searching *)

(** [our_strcasestr]: the offset of the first occurrence. *)
Definition our_strcasestr (haystack needle : cstring) : option nat :=
  let nlength := length needle in
  let hlength := length haystack in
  if (hlength <? nlength)%nat then None
  else if (hlength <=? 0)%nat then None
  else if (nlength <=? 0)%nat then Some 0%nat
  else List.find (fun i => strncasecmp_eq (drop i haystack) needle nlength) (seq 0 (hlength - nlength + 1)).

Record ConfigItem_badword := MkBadword {
  word : cstring;
  replace : option cstring;
  fast_l : bool;                    (** [BADW_TYPE_FAST_L] *)
  fast_r : bool;                    (** [BADW_TYPE_FAST_R] *)
  action_block : bool;              (** [BADWORD_BLOCK], otherwise [BADWORD_REPLACE] *)
  regex : option (cstring -> option (Z * Z))
                                    (** [BADW_TYPE_REGEX]: [pcre2_match] with the compiled
                                        expression, its start and end *)
}.

Definition REPLACEWORD : cstring := str "<censored>".

(** ** Configuration *)

(** The loop of [badword_config_process]: [regex], [ast_l] and [ast_r]; [first] says
    whether [str == tmp]. *)
Fixpoint scan_word (first : bool) (tmp : cstring) (ast_l ast_r : bool) : bool * bool * bool :=
  match tmp with
  | [] => (false, ast_l, ast_r)
  | c :: rest =>
      if negb (isalnum c) && negb (128 <=? c) then
        if first && (c =? 42) then scan_word false rest true ast_r
        else if match rest with [] => true | _ => false end && (c =? 42) then scan_word false rest ast_l true
        else (true, ast_l, ast_r)
      else scan_word false rest ast_l ast_r
  end.

Section processing.
Context (pcre2 : cstring -> cstring -> option (Z * Z)).

Definition badword_config_process (repl : option cstring) (block : bool) (s : cstring) : ConfigItem_badword :=
  let '(is_regex, ast_l, ast_r) := scan_word true s false false in
  if (is_regex : bool) then MkBadword s repl false false block (Some (pcre2 s))
  else MkBadword (List.filter (fun c => negb (c =? 42)) s) repl ast_l ast_r block None.
End processing.

(** ** Matching *)

(** [line[i]], NUL at the end. *)
Definition at_ (line : cstring) (i : nat) : Z := nth i line 0.
Definition sep_at (line : cstring) (i : nat) : bool := iswseperator (at_ line i).

Fixpoint match_loop (bw : ConfigItem_badword) (line : cstring) (fuel p : nat) : option bool :=
  match fuel with
  | O => None
  | S fuel =>
      match our_strcasestr (drop p line) (word bw) with
      | None => Some false
      | Some k =>
          let p := (p + k)%nat in
          let bwlen := length (word bw) in
          if negb (fast_l bw) && negb (p =? 0)%nat && negb (sep_at line (p - 1))
             || negb (fast_r bw) && negb (sep_at line (p + bwlen))
          then match_loop bw line fuel (p + bwlen)
          else Some true
      end
  end.

Definition fast_badword_match (bw : ConfigItem_badword) (line : cstring) : option bool :=
  if fast_l bw && fast_r bw then Some (bool_decide (is_Some (our_strcasestr line (word bw))))
  else match_loop bw line (S (length line)) 0.

(** ** Replacing *)

(** Hunt for the start of the word: the loop, then [startw++] on a separator. *)
Fixpoint hunt_back (line : cstring) (i : nat) : nat :=
  match i with
  | O => O
  | S i' => if negb (sep_at line i) then hunt_back line i' else i
  end.

Definition hunt_start (line : cstring) (pold : nat) : nat :=
  if (0 <? pold)%nat then
    let startw := hunt_back line pold in if sep_at line startw then S startw else startw
  else pold.

(** Hunt for the end of the word, from the bytes behind the bad word. *)
Fixpoint hunt_end (rest : cstring) : nat :=
  match rest with
  | c :: rest => if negb (iswseperator c) then S (hunt_end rest) else O
  | [] => O
  end.

(** The loop of [fast_badword_replace]; [out] is the buffer up to [pnew] and [room] is
    [max - 1].  [None] is a copy of negative length, or no fuel. *)
Fixpoint replace_loop (bw : ConfigItem_badword) (line : cstring) (room : nat) (fuel pold poldx : nat)
    (out : cstring) (cleaned : bool) {struct fuel} : option (bool * cstring) :=
  match fuel with
  | O => None
  | S fuel =>
      match our_strcasestr (drop pold line) (word bw) with
      | None => Some (cleaned, out ++ take (room - length out) (drop poldx line))
      | Some k =>
          let pold := (pold + k)%nat in
          let searchn := length (word bw) in
          let startw := hunt_start line pold in
          if negb (fast_l bw) && negb (pold =? startw)%nat
          then replace_loop bw line room fuel (S pold) poldx out cleaned
          else
            let endw := (pold + searchn + hunt_end (drop (pold + searchn) line))%nat in
            if negb (fast_r bw) && negb (pold + searchn =? endw)%nat
            then replace_loop bw line room fuel (S pold) poldx out cleaned
            else if (startw <? poldx)%nat then None
            else
              let tmp_n := (startw - poldx)%nat in
              if negb (tmp_n =? 0)%nat && (room <=? length out + tmp_n)%nat
              then Some (true, out ++ take (room - length out) (drop poldx line))
              else
                let out := out ++ take tmp_n (drop poldx line) in
                let replacew := default REPLACEWORD (replace bw) in
                if negb (length replacew =? 0)%nat && (room <=? length out + length replacew)%nat
                then Some (true, out ++ take (room - length out) replacew)
                else replace_loop bw line room fuel endw endw (out ++ replacew) true
      end
  end.

Definition fast_badword_replace (bw : ConfigItem_badword) (line : cstring) (max : nat) : option (bool * cstring) :=
  replace_loop bw line (max - 1) (S (length line)) 0 0 [] false.

(** ** The reference: word by word *)

(** The bad word is in [w], at its start or end where no asterisk says otherwise. *)
Definition bad (bw : ConfigItem_badword) (w : cstring) : bool :=
  let n := length (word bw) in
  existsb (fun i => strncasecmp_eq (drop i w) (word bw) n && (fast_l bw || (i =? 0)%nat) &&
                    (fast_r bw || (i + n =? length w)%nat))
    (seq 0 (length w - n + 1)) && (n <=? length w)%nat.

Definition fix_word (bw : ConfigItem_badword) (w : cstring) : cstring :=
  if bad bw w then default REPLACEWORD (replace bw) else w.

(** [acc] is the current word, in reverse. *)
Fixpoint censor_from (bw : ConfigItem_badword) (acc s : cstring) : cstring :=
  match s with
  | [] => fix_word bw (rev acc)
  | c :: s => if iswseperator c then fix_word bw (rev acc) ++ c :: censor_from bw [] s else censor_from bw (c :: acc) s
  end.

Definition censor (bw : ConfigItem_badword) (line : cstring) : cstring := censor_from bw [] line.

Example censor_samples :
  let bw := badword_config_process (fun _ _ => None) None false in
  censor (bw (str "*foo")) (str "FOO barfoo foobar, xfoofoo!") = str "<censored> <censored> foobar, <censored>!" /\
  fast_badword_replace (bw (str "*foo")) (str "FOO barfoo foobar, xfoofoo!") 512 =
    Some (true, str "<censored> <censored> foobar, <censored>!") /\
  fast_badword_replace (bw (str "foo")) (str "foofoo a foo") 10 = Some (true, str "foofoo a ") /\
  fast_badword_match (bw (str "foo*")) (str "my foobar") = Some true.
Proof. vm_compute. done. Qed.

(** ** The search finds the first occurrence *)

Lemma lower_sep c d : byte_ok c -> byte_ok d -> ascii_lower c = ascii_lower d -> iswseperator c = iswseperator d.
Proof.
  intros Hc Hd He.
  assert (Hl : forall x, byte_ok x -> iswseperator (ascii_lower x) = iswseperator x).
  { intros x Hx. apply eqb_prop.
    apply (byte_forall (fun x => Bool.eqb (iswseperator (ascii_lower x)) (iswseperator x))); [vm_compute; reflexivity|].
    unfold byte_ok in Hx. lia. }
  rewrite <- (Hl c Hc), <- (Hl d Hd). by f_equal.
Qed.

Section search.
Context (bw : ConfigItem_badword) (line : cstring).
Context (Hw : word bw <> []) (Hword : Forall (fun c => byte_ok c /\ iswseperator c = false) (word bw)).
Context (Hline : cstr line).

Abbreviation n := (length (word bw)).

(** The bad word occurs at position [i]. *)
Definition occ (i : nat) : Prop := (i + n <= length line)%nat /\ strncasecmp_eq (drop i line) (word bw) n = true.

(** It occurs there with the boundaries it needs. *)
Definition badpos (i : nat) : Prop :=
  occ i /\ (fast_l bw = true \/ i = 0%nat \/ sep_at line (i - 1) = true) /\
  (fast_r bw = true \/ sep_at line (i + n) = true).

Lemma n_pos : (0 < n)%nat.
Proof using Hw. destruct n eqn:E; [|lia]. by apply nil_length_inv in E. Qed.

Lemma strcasestr_spec p :
  match our_strcasestr (drop p line) (word bw) with
  | Some k => occ (p + k) /\ forall j, (p <= j < p + k)%nat -> ~ occ j
  | None => forall j, (p <= j)%nat -> ~ occ j
  end.
Proof using Hw.
  pose proof n_pos as Hn. unfold our_strcasestr. rewrite length_drop.
  destruct (Nat.ltb_spec (length line - p) n).
  { intros j Hj [Ho _]. lia. }
  rewrite (proj2 (Nat.leb_gt _ 0)) by lia. rewrite (proj2 (Nat.leb_gt n 0)) by lia.
  assert (Hocc : forall i, strncasecmp_eq (drop i (drop p line)) (word bw) n = true <->
                 strncasecmp_eq (drop (p + i) line) (word bw) n = true) by (intros i; by rewrite drop_drop).
  assert (Hmin : forall l s k, List.find (fun i => strncasecmp_eq (drop i (drop p line)) (word bw) n) (seq s l) = Some k ->
            (s <= k < s + l)%nat /\ strncasecmp_eq (drop (p + k) line) (word bw) n = true /\
            forall i, (s <= i < k)%nat -> strncasecmp_eq (drop (p + i) line) (word bw) n = false).
  { induction l as [|l IH]; intros s k; simpl; [done|]. rewrite drop_drop.
    destruct (strncasecmp_eq (drop (p + s) line) (word bw) n) eqn:Hs.
    - intros [= <-]. split; [lia|]. split; [done|]. lia.
    - intros (H1 & H2 & H3)%IH. split; [lia|]. split; [done|]. intros i Hi.
      destruct (decide (i = s)) as [->|]; [done|]. apply H3. lia. }
  destruct (List.find _ _) as [k|] eqn:Hf.
  - destruct (Hmin _ _ _ Hf) as (H1 & H2 & H3). split; [split; [lia|done]|].
    intros j Hj [_ Ho]. specialize (H3 (j - p)%nat ltac:(lia)). replace (p + (j - p))%nat with j in H3 by lia. congruence.
  - intros j Hj [Ho1 Ho2]. pose proof (find_none _ _ Hf (j - p)%nat) as H3. simpl in H3.
    rewrite drop_drop in H3. replace (p + (j - p))%nat with j in H3 by lia.
    rewrite Ho2 in H3. discriminate H3. apply in_seq. lia.
Qed.

(** The bytes of an occurrence are not separators. *)
Lemma occ_nonsep i j : occ i -> (i <= j < i + n)%nat -> sep_at line j = false.
Proof using Hword Hline.
  intros [Hlen Hs] Hj. unfold strncasecmp_eq in Hs. apply bool_decide_eq_true in Hs.
  rewrite (take_ge (word bw)) in Hs by lia.
  assert (Hk : (j - i < n)%nat) by lia.
  destruct (lookup_lt_is_Some_2 (word bw) (j - i) Hk) as [d Hd].
  destruct (lookup_lt_is_Some_2 line j ltac:(lia)) as [c Hc].
  apply (f_equal (fun l => l !! (j - i)%nat)) in Hs. rewrite !list_lookup_fmap, Hd in Hs.
  rewrite lookup_take_lt, lookup_drop in Hs by lia. replace (i + (j - i))%nat with j in Hs by lia.
  rewrite Hc in Hs. injection Hs as Hs.
  rewrite Forall_forall in Hword. destruct (Hword d (list_elem_of_lookup_2 _ _ _ Hd)) as [Hdb Hdn].
  unfold cstr in Hline. rewrite Forall_forall in Hline. pose proof (Hline c (list_elem_of_lookup_2 _ _ _ Hc)) as Hcb.
  unfold sep_at, at_. rewrite (nth_lookup_Some _ _ _ _ Hc). by rewrite (lower_sep c d Hcb Hdb Hs).
Qed.

(** *** [fast_badword_match] *)

(** No proper end of the word is a start of it, ignoring case. *)
Definition borderless (w : cstring) : Prop :=
  forall k, (0 < k < length w)%nat -> map ascii_lower (drop k w) <> map ascii_lower (take (length w - k) w).

Lemma occ_overlap i j : occ i -> occ j -> (i < j < i + n)%nat -> ~ borderless (word bw).
Proof using Type.
  intros [Hi1 Hi] [Hj1 Hj] Hij Hb. unfold strncasecmp_eq in *. apply bool_decide_eq_true in Hi, Hj.
  rewrite (take_ge (word bw)) in Hi, Hj by lia. apply (Hb (j - i)%nat ltac:(lia)).
  transitivity (map ascii_lower (take (n - (j - i)) (drop j line))).
  - apply (f_equal (drop (j - i))) in Hi. rewrite !skipn_map in Hi. rewrite <- Hi. f_equal.
    rewrite skipn_firstn_comm. f_equal. rewrite drop_drop. f_equal. lia.
  - apply (f_equal (take (n - (j - i)))) in Hj. rewrite !firstn_map in Hj. rewrite <- Hj. f_equal.
    rewrite take_take. f_equal. lia.
Qed.

(** Skipping over an occurrence skips no bad one. *)
Lemma skip_safe i j :
  fast_l bw = false \/ borderless (word bw) -> occ i -> (i < j < i + n)%nat -> ~ badpos j.
Proof using Hword Hline.
  intros [Hl|Hb] Hi Hij (Hj & Hleft & _).
  - destruct Hleft as [|[|Hsep]]; [congruence|lia|]. rewrite (occ_nonsep i (j - 1)) in Hsep by (done || lia). done.
  - exact (occ_overlap i j Hi Hj Hij Hb).
Qed.

Lemma match_loop_spec fuel p :
  fast_l bw = false \/ borderless (word bw) ->
  (length line < fuel + p)%nat -> (p <= length line)%nat -> (forall j, (j < p)%nat -> ~ badpos j) ->
  exists b, match_loop bw line fuel p = Some b /\ (b = true <-> exists i, badpos i).
Proof using Hw Hword Hline.
  intros Hskip. pose proof n_pos as Hn. revert p. induction fuel as [|fuel IH]; intros p Hf Hp Hno; [lia|].
  cbn [match_loop]. pose proof (strcasestr_spec p) as Hs.
  destruct (our_strcasestr (drop p line) (word bw)) as [k|].
  - destruct Hs as [Ho Hfirst]. set (q := (p + k)%nat) in *.
    assert (Hq : forall j, (j < q)%nat -> ~ badpos j).
    { intros j Hj Hb. destruct (decide (j < p)%nat) as [|Hge]; [by apply (Hno j)|].
      apply (Hfirst j); [lia|apply Hb]. }
    destruct (_ || _) eqn:Hcond.
    + apply IH; [lia|destruct Ho; lia|]. intros j Hj. destruct (decide (j < q)%nat); [by apply Hq|].
      destruct (decide (j = q)) as [->|]; [|apply skip_safe with q; auto; lia].
      intros (_ & Hl & Hr). apply orb_true_iff in Hcond as [Hc|Hc].
      * apply andb_true_iff in Hc as [[Hc1 Hc2]%andb_true_iff Hc3]. rewrite negb_true_iff in Hc1, Hc2, Hc3.
        apply Nat.eqb_neq in Hc2. destruct Hl as [|[|]]; congruence.
      * apply andb_true_iff in Hc as [Hc1 Hc2]. rewrite negb_true_iff in Hc1, Hc2. destruct Hr; congruence.
    + exists true. split; [done|]. split; [|done]. intros _. exists q. split; [done|].
      apply orb_false_iff in Hcond as [H1 H2]. split.
      * destruct (fast_l bw); [by left|]. destruct (Nat.eqb_spec q 0); [by right; left|].
        right; right. by destruct (sep_at line (q - 1)).
      * destruct (fast_r bw); [by left|]. right. by destruct (sep_at line (q + n)).
  - exists false. split; [done|]. split; [done|]. intros (i & Hi).
    exfalso. destruct (decide (i < p)%nat); [by apply (Hno i)|]. apply (Hs i); [lia|apply Hi].
Qed.

Lemma fast_badword_match_spec :
  fast_l bw = false \/ fast_r bw = true \/ borderless (word bw) ->
  exists b, fast_badword_match bw line = Some b /\ (b = true <-> exists i, badpos i).
Proof using Hw Hword Hline.
  intros Hkind. unfold fast_badword_match. destruct (fast_l bw && fast_r bw) eqn:Hlr.
  - apply andb_true_iff in Hlr as [Hl Hr]. eexists. split; [reflexivity|].
    pose proof (strcasestr_spec 0) as Hs. rewrite drop_0 in Hs. rewrite bool_decide_eq_true.
    destruct (our_strcasestr line (word bw)) as [k|].
    + destruct Hs as [Ho _]. split; [|eauto]. intros _. exists (0 + k)%nat. split; [done|]. auto.
    + split; [by intros []|]. intros (i & Hi & _). exfalso. apply (Hs i); [lia|done].
  - apply match_loop_spec; [|lia|lia|lia]. destruct (fast_l bw); [|by left].
    destruct Hkind as [|[Hr|]]; [done| |by right]. by rewrite Hr in Hlr.
Qed.

(** The occurrences that the loop of [fast_badword_match] looks at from position [p]
    on: the first one, and those it looks at behind that one. *)
Definition first_occ (p i : nat) : Prop := (p <= i)%nat /\ occ i /\ forall j, (p <= j < i)%nat -> ~ occ j.

Inductive met : nat -> nat -> Prop :=
| met_first p i : first_occ p i -> met p i
| met_next p i j : first_occ p i -> met (i + n) j -> met p j.

Lemma first_occ_unique p i j : first_occ p i -> first_occ p j -> i = j.
Proof using Type.
  intros (Hi & Oi & Fi) (Hj & Oj & Fj). destruct (Nat.lt_trichotomy i j) as [Hlt|[|Hlt]]; [|done|].
  - by destruct (Fj i).
  - by destruct (Fi j).
Qed.

Lemma met_cases p q i : first_occ p q -> met p i <-> i = q \/ met (q + n) i.
Proof using Type.
  intros Hq. split.
  - intros Hm. inversion Hm as [? ? Hf|? k ? Hf Hrest]; subst.
    + left. by eapply first_occ_unique.
    + right. by rewrite (first_occ_unique _ _ _ Hq Hf).
  - intros [->|Hm]; [by apply met_first|by eapply met_next].
Qed.

(** The word occurs with its boundaries at a place the loop looks at. *)
Definition hit : Prop := exists i, met 0 i /\ badpos i.

Lemma match_loop_met fuel p :
  (length line < fuel + p)%nat -> (p <= length line)%nat ->
  exists b, match_loop bw line fuel p = Some b /\ (b = true <-> exists i, met p i /\ badpos i).
Proof using Hw.
  pose proof n_pos as Hn. revert p. induction fuel as [|fuel IH]; intros p Hf Hp; [lia|].
  cbn [match_loop]. pose proof (strcasestr_spec p) as Hs.
  destruct (our_strcasestr (drop p line) (word bw)) as [k|].
  - set (q := (p + k)%nat) in *. destruct Hs as [Ho Hfirst].
    assert (Hq : first_occ p q) by (split; [lia|done]).
    setoid_rewrite (met_cases p q _ Hq). destruct (_ || _) eqn:Hcond.
    + destruct (IH (q + n)%nat) as (b & -> & Hb); [lia|destruct Ho; lia|]. exists b. split; [done|].
      rewrite Hb. split; [by intros (i & Hm & Hi); exists i; auto|]. intros (i & [->|Hm] & Hi); [|by exists i].
      exfalso. destruct Hi as (_ & Hl & Hr). apply orb_true_iff in Hcond as [Hc|Hc].
      * apply andb_true_iff in Hc as [[Hc1 Hc2]%andb_true_iff Hc3]. rewrite negb_true_iff in Hc1, Hc2, Hc3.
        apply Nat.eqb_neq in Hc2. destruct Hl as [|[|]]; congruence.
      * apply andb_true_iff in Hc as [Hc1 Hc2]. rewrite negb_true_iff in Hc1, Hc2. destruct Hr; congruence.
    + exists true. split; [done|]. split; [|done]. intros _. exists q. split; [by left|]. split; [done|].
      apply orb_false_iff in Hcond as [H1 H2]. split.
      * destruct (fast_l bw); [by left|]. destruct (Nat.eqb_spec q 0); [by right; left|].
        right; right. by destruct (sep_at line (q - 1)).
      * destruct (fast_r bw); [by left|]. right. by destruct (sep_at line (q + n)).
  - exists false. split; [done|]. split; [done|]. intros (i & Him & _). exfalso.
    assert (Hm : exists j, first_occ p j) by (inversion Him; eauto). destruct Hm as (j & Hj & Ho & _). by apply (Hs j).
Qed.

(** What [fast_badword_match] answers, for every word. *)
Lemma fast_badword_match_hit : exists b, fast_badword_match bw line = Some b /\ (b = true <-> hit).
Proof using Hw.
  unfold fast_badword_match. destruct (fast_l bw && fast_r bw) eqn:Hlr; [|apply match_loop_met; lia].
  apply andb_true_iff in Hlr as [Hl Hr]. eexists. split; [reflexivity|].
  pose proof (strcasestr_spec 0) as Hs. rewrite drop_0 in Hs. rewrite bool_decide_eq_true.
  destruct (our_strcasestr line (word bw)) as [k|].
  - destruct Hs as [Ho Hno]. split; [|eauto]. intros _. exists (0 + k)%nat.
    split; [apply met_first; split; [lia|done]|]. split; [done|]. auto.
  - split; [by intros []|]. intros (i & _ & Hi & _). exfalso. apply (Hs i); [lia|done].
Qed.

(** Where no occurrence that is skipped can be a bad one, it answers whether there is
    a bad one anywhere. *)
Lemma hit_anywhere :
  fast_l bw = false \/ fast_r bw = true \/ borderless (word bw) -> hit <-> exists i, badpos i.
Proof using Hw Hword Hline.
  intros Hk. destruct fast_badword_match_hit as (b & Hb & <-).
  destruct (fast_badword_match_spec Hk) as (b' & Hb' & <-). by rewrite Hb in Hb'; injection Hb' as ->.
Qed.

(** *** Words of the line *)

Definition run (a b : nat) : Prop := forall j, (a <= j < b)%nat -> sep_at line j = false.
Definition slice (a b : nat) : cstring := take (b - a) (drop a line).

(** A position where a word starts, or a separator. *)
Definition boundary (a : nat) : Prop := a = 0%nat \/ sep_at line (a - 1) = true \/ sep_at line a = true.

Lemma sep_past i : (length line <= i)%nat -> sep_at line i = true.
Proof using Type. intros Hi. unfold sep_at, at_. rewrite nth_overflow by done. reflexivity. Qed.

Lemma hunt_back_spec i :
  (hunt_back line i <= i)%nat /\ (forall j, (hunt_back line i < j <= i)%nat -> sep_at line j = false) /\
  (hunt_back line i = 0%nat \/ sep_at line (hunt_back line i) = true).
Proof using Type.
  induction i as [|i (IH1 & IH2 & IH3)]; [simpl; split; [lia|]; split; [lia|by left]|]. cbn [hunt_back].
  destruct (sep_at line (S i)) eqn:Hs; cbn [negb]; [split; [lia|]; split; [lia|by right]|].
  split; [lia|]. split; [|done]. intros j Hj. destruct (decide (j = S i)) as [->|]; [done|]. apply IH2. lia.
Qed.

Lemma hunt_start_spec i :
  sep_at line i = false ->
  (hunt_start line i <= i)%nat /\ run (hunt_start line i) (S i) /\
  (hunt_start line i = 0%nat \/ sep_at line (hunt_start line i - 1) = true).
Proof using Type.
  intros Hi. unfold hunt_start. destruct (Nat.ltb_spec 0 i) as [Hpos|]; cycle 1.
  { replace i with 0%nat in * by lia. split; [lia|]. split; [|by left]. intros j Hj. by replace j with 0%nat by lia. }
  destruct (hunt_back_spec i) as (H1 & H2 & H3). destruct (sep_at line (hunt_back line i)) eqn:Hs.
  - assert (hunt_back line i <> i) by congruence. split; [lia|]. split.
    + intros j Hj. apply H2. lia.
    + right. by replace (S (hunt_back line i) - 1)%nat with (hunt_back line i) by lia.
  - destruct H3 as [H3|]; [|congruence]. split; [lia|]. split; [|by left]. intros j Hj.
    destruct (decide (j = hunt_back line i)) as [->|]; [done|]. apply H2. lia.
Qed.

Lemma hunt_end_spec a :
  let e := (a + hunt_end (drop a line))%nat in
  run a e /\ sep_at line e = true /\ ((a <= length line)%nat -> (e <= length line)%nat).
Proof using Type.
  assert (Hgen : forall r, (forall j, (j < hunt_end r)%nat -> iswseperator (nth j r 0) = false) /\
             iswseperator (nth (hunt_end r) r 0) = true /\ (hunt_end r <= length r)%nat).
  { induction r as [|c r (IH1 & IH2 & IH3)]; simpl; [split; [lia|done]|].
    destruct (iswseperator c) eqn:Hc; simpl; [split; [lia|]; split; [done|lia]|].
    split; [|split; [done|lia]]. intros [|j] Hj; [done|]. apply IH1. lia. }
  destruct (Hgen (drop a line)) as (H1 & H2 & H3). rewrite length_drop in H3. cbv zeta.
  assert (Hnth : forall j, sep_at line (a + j) = iswseperator (nth j (drop a line) 0)).
  { intros j. unfold sep_at, at_. by rewrite List.nth_skipn. }
  split; [|split; [by rewrite Hnth|lia]]. intros j Hj. replace j with (a + (j - a))%nat by lia. rewrite Hnth. apply H1. lia.
Qed.

Lemma slice_nonsep a b : (b <= length line)%nat -> run a b -> Forall (fun c => iswseperator c = false) (slice a b).
Proof using Type.
  intros Hb Hr. apply Forall_lookup. intros k c Hk. unfold slice in Hk. apply lookup_take_Some in Hk as [Hk Hlt].
  rewrite lookup_drop in Hk. specialize (Hr (a + k)%nat ltac:(lia)).
  unfold sep_at, at_ in Hr. by rewrite (nth_lookup_Some _ _ _ _ Hk) in Hr.
Qed.

Lemma slice_cut a b : (a <= b < length line)%nat -> drop a line = slice a b ++ at_ line b :: drop (S b) line.
Proof using Type.
  intros Hb. rewrite <- (take_drop (b - a) (drop a line)) at 1. unfold slice. f_equal.
  rewrite drop_drop. replace (a + (b - a))%nat with b by lia.
  destruct (lookup_lt_is_Some_2 line b ltac:(lia)) as [c Hc]. unfold at_. rewrite (nth_lookup_Some _ _ _ _ Hc).
  by apply drop_S.
Qed.

Lemma slice_join a b c :
  (a <= b < c)%nat -> (c <= length line)%nat -> slice a b ++ at_ line b :: slice (S b) c = slice a c.
Proof using Type.
  intros Hab Hc. unfold slice at 3. rewrite (slice_cut a b) by lia.
  assert (Hlen : length (slice a b) = (b - a)%nat) by (unfold slice; rewrite length_take, length_drop; lia).
  rewrite take_app_ge by lia. rewrite Hlen. f_equal. replace (c - a - (b - a))%nat with (S (c - S b)) by lia.
  reflexivity.
Qed.

(** *** The reference on a word *)

Lemma censor_from_run acc w rest :
  Forall (fun c => iswseperator c = false) w -> censor_from bw acc (w ++ rest) = censor_from bw (rev w ++ acc) rest.
Proof using Type.
  intros Hws. revert acc. induction Hws as [|c w Hc _ IH]; intros acc; [done|]. cbn [app censor_from rev].
  rewrite Hc, IH. by rewrite <- app_assoc.
Qed.

Lemma censor_run_sep w c rest :
  Forall (fun c => iswseperator c = false) w -> iswseperator c = true ->
  censor bw (w ++ c :: rest) = fix_word bw w ++ c :: censor bw rest.
Proof using Type.
  intros Hws Hc. unfold censor. rewrite censor_from_run by done. cbn [censor_from].
  by rewrite Hc, app_nil_r, rev_involutive.
Qed.

Lemma censor_run_end w : Forall (fun c => iswseperator c = false) w -> censor bw w = fix_word bw w.
Proof using Type.
  intros Hws. unfold censor. rewrite <- (app_nil_r w) at 1. rewrite censor_from_run by done. cbn [censor_from].
  by rewrite app_nil_r, rev_involutive.
Qed.

Lemma fix_word_nil : fix_word bw [] = [].
Proof using Hw.
  unfold fix_word, bad. pose proof n_pos. rewrite (proj2 (Nat.leb_gt n (length []))) by (simpl; lia).
  by rewrite andb_false_r.
Qed.

(** A word of the line is bad when a bad position lies in it. *)
Lemma bad_slice a b :
  (a <= b <= length line)%nat -> run a b -> sep_at line b = true ->
  a = 0%nat \/ sep_at line (a - 1) = true \/ a = b ->
  bad bw (slice a b) = true <-> exists i, (a <= i < b)%nat /\ badpos i.
Proof using Hw Hword Hline.
  intros Hab Hrun Hsep Hstart. pose proof n_pos as Hn.
  assert (Hlen : length (slice a b) = (b - a)%nat) by (unfold slice; rewrite length_take, length_drop; lia).
  assert (Hcmp : forall i, (i + n <= b - a)%nat ->
     strncasecmp_eq (drop i (slice a b)) (word bw) n = strncasecmp_eq (drop (a + i) line) (word bw) n).
  { intros i Hi. unfold strncasecmp_eq, slice. rewrite skipn_firstn_comm, take_take, drop_drop.
    by rewrite Nat.min_l by lia. }
  unfold bad. rewrite Hlen, andb_true_iff, existsb_exists, Nat.leb_le. split.
  - intros [(i & [_ Hi]%in_seq & Hcond) Hnl]. apply andb_true_iff in Hcond as [[Hc Hl]%andb_true_iff Hr].
    rewrite Hcmp in Hc by lia. rewrite orb_true_iff in Hl, Hr. rewrite Nat.eqb_eq in Hl, Hr.
    exists (a + i)%nat. split; [lia|]. split; [split; [lia|done]|]. split.
    + destruct Hl as [|Hi0]; [by left|]. right. rewrite Hi0, Nat.add_0_r. destruct Hstart as [|[|]]; [tauto|tauto|lia].
    + destruct Hr as [|Hr]; [by left|]. right. by replace (a + i + n)%nat with b by lia.
  - intros (i & Hi & Ho & Hl & Hr).
    assert (Hin : (i + n <= b)%nat).
    { destruct (decide (i + n <= b)%nat) as [|Hgt]; [done|]. by rewrite (occ_nonsep i b Ho) in Hsep by lia. }
    split; [|lia]. exists (i - a)%nat. split; [apply in_seq; lia|]. rewrite Hcmp by lia.
    replace (a + (i - a))%nat with i by lia. rewrite (proj2 Ho). cbn [andb]. apply andb_true_iff.
    rewrite !orb_true_iff, !Nat.eqb_eq. split.
    + destruct Hl as [|[|Hs]]; [by left|right; lia|]. right.
      destruct (decide (i = a)) as [|]; [lia|]. rewrite (Hrun (i - 1)%nat) in Hs by lia. done.
    + destruct Hr as [|Hs]; [by left|]. right.
      destruct (decide (i + n = b)%nat) as [|Hnb]; [lia|]. rewrite (Hrun (i + n)%nat) in Hs by lia. done.
Qed.

(** The first word and the separator behind it. *)
Lemma censor_step a e :
  (a <= e < length line)%nat -> run a e -> sep_at line e = true ->
  censor bw (drop a line) = fix_word bw (slice a e) ++ at_ line e :: censor bw (drop (S e) line).
Proof using Type.
  intros He Hr Hs. rewrite (slice_cut a e) by done. apply censor_run_sep; [apply slice_nonsep; [lia|done]|done].
Qed.

Lemma censor_last a :
  run a (length line) -> censor bw (drop a line) = fix_word bw (slice a (length line)) /\
  slice a (length line) = drop a line.
Proof using Type.
  intros Hr. assert (Heq : slice a (length line) = drop a line) by (unfold slice; apply take_ge; rewrite length_drop; lia).
  split; [|done]. rewrite <- Heq. apply censor_run_end. by apply slice_nonsep.
Qed.

Lemma boundary_word a e : boundary a -> run a e -> (a <= e)%nat -> a = 0%nat \/ sep_at line (a - 1) = true \/ a = e.
Proof using Type.
  intros [|[|Hs]] Hr Ha; [tauto|tauto|]. right; right. destruct (decide (a = e)) as [|]; [done|].
  rewrite (Hr a) in Hs by lia. done.
Qed.

(** Text without a bad word is kept: up to a separator, and up to the end. *)
Lemma censor_keep m a b :
  (b - a <= m)%nat -> (a <= b <= length line)%nat -> boundary a -> a = b \/ sep_at line (b - 1) = true ->
  (forall i, (a <= i < b)%nat -> ~ badpos i) ->
  censor bw (drop a line) = slice a b ++ censor bw (drop b line).
Proof using Hw Hword Hline.
  revert a. induction m as [|m IH]; intros a Hm Hab Hbd Hb Hno.
  { replace b with a by lia. unfold slice. by rewrite Nat.sub_diag. }
  destruct (decide (a = b)) as [->|Hne]; [unfold slice; by rewrite Nat.sub_diag|].
  destruct Hb as [|Hb]; [done|]. destruct (hunt_end_spec a) as (Hr & Hs & Hle). cbv zeta in *.
  set (e := (a + hunt_end (drop a line))%nat) in *. specialize (Hle ltac:(lia)).
  assert (Heb : (e < b)%nat).
  { destruct (decide (e < b)%nat) as [|]; [done|]. by rewrite (Hr (b - 1)%nat) in Hb by lia. }
  rewrite (censor_step a e) by (done || lia).
  assert (Hfix : fix_word bw (slice a e) = slice a e).
  { unfold fix_word. destruct (bad bw (slice a e)) eqn:Hbad; [|done].
    apply bad_slice in Hbad as (i & Hi & Hp); [|lia|done|done|apply boundary_word; [done|done|lia]].
    exfalso. apply (Hno i); [lia|done]. }
  rewrite Hfix, (IH (S e)); [|lia|lia| | |intros i Hi; apply Hno; lia].
  - rewrite <- (slice_join a e b) by lia. by rewrite <- app_assoc.
  - right; left. by rewrite Nat.sub_1_r.
  - destruct (decide (S e = b)); [by left|by right].
Qed.

Lemma censor_keep_end m a :
  (length line - a <= m)%nat -> (a <= length line)%nat -> boundary a ->
  (forall i, (a <= i)%nat -> ~ badpos i) -> censor bw (drop a line) = drop a line.
Proof using Hw Hword Hline.
  revert a. induction m as [|m IH]; intros a Hm Ha Hbd Hno;
    destruct (hunt_end_spec a) as (Hr & Hs & Hle); cbv zeta in *;
    set (e := (a + hunt_end (drop a line))%nat) in *; specialize (Hle ltac:(lia));
    (assert (Hfix : fix_word bw (slice a e) = slice a e);
     [unfold fix_word; destruct (bad bw (slice a e)) eqn:Hbad; [|done];
      apply bad_slice in Hbad as (i & Hi & Hp); [|lia|done|done|apply boundary_word; [done|done|lia]];
      exfalso; apply (Hno i); [lia|done]|]);
    (destruct (decide (e = length line)) as [He|He];
     [rewrite He in *; destruct (censor_last a Hr) as [-> Heq]; by rewrite Hfix|]); [lia|].
  rewrite (censor_step a e) by (done || lia). rewrite Hfix, (IH (S e)); [|lia|lia| |intros i Hi; apply Hno; lia].
  - by rewrite <- slice_cut by lia.
  - right; left. by rewrite Nat.sub_1_r.
Qed.

(** A bad word is replaced. *)
Lemma censor_bad s e i :
  (s <= i < e)%nat -> (e <= length line)%nat -> run s e -> sep_at line e = true ->
  s = 0%nat \/ sep_at line (s - 1) = true -> badpos i ->
  censor bw (drop s line) = default REPLACEWORD (replace bw) ++ censor bw (drop e line).
Proof using Hw Hword Hline.
  intros Hi He Hr Hs Hstart Hp.
  assert (Hfix : fix_word bw (slice s e) = default REPLACEWORD (replace bw)).
  { unfold fix_word. rewrite (proj2 (bad_slice s e ltac:(lia) Hr Hs ltac:(tauto))); [done|]. eauto. }
  destruct (decide (e = length line)) as [->|Hne].
  - destruct (censor_last s Hr) as [-> _]. rewrite Hfix. rewrite drop_ge by lia.
    change (censor bw []) with (fix_word bw []). by rewrite fix_word_nil, app_nil_r.
  - rewrite (censor_step s e) by (done || lia). rewrite Hfix. f_equal.
    assert (Hee : run e e) by (intros j Hj; lia). rewrite (censor_step e e) by (done || lia). unfold slice. rewrite Nat.sub_diag.
    change (take 0 (drop e line)) with (@nil Z). by rewrite fix_word_nil.
Qed.

(** *** [fast_badword_replace] *)

Lemma badpos_start q : occ q -> hunt_start line q = q -> q = 0%nat \/ sep_at line (q - 1) = true.
Proof using Hw Hword Hline.
  intros Ho Hq. pose proof n_pos. destruct (hunt_start_spec q (occ_nonsep q q Ho ltac:(lia))) as (_ & _ & H3).
  by rewrite Hq in H3.
Qed.

Lemma not_start q : occ q -> hunt_start line q <> q -> ~ (q = 0%nat \/ sep_at line (q - 1) = true).
Proof using Hw Hword Hline.
  intros Ho Hq Hor. pose proof n_pos. destruct (hunt_start_spec q (occ_nonsep q q Ho ltac:(lia))) as (H1 & H2 & _).
  destruct Hor as [|Hs]; [lia|]. rewrite (H2 (q - 1)%nat) in Hs by lia. done.
Qed.

(** A match starts behind what has been copied. *)
Lemma start_after q poldx : occ q -> (poldx <= q)%nat -> boundary poldx -> (poldx <= hunt_start line q)%nat.
Proof using Hw Hword Hline.
  intros Ho Hle Hbd. pose proof n_pos. destruct (hunt_start_spec q (occ_nonsep q q Ho ltac:(lia))) as (H1 & H2 & _).
  destruct (decide (poldx <= hunt_start line q)%nat) as [|Hgt]; [done|].
  destruct Hbd as [|[Hs|Hs]]; [lia|rewrite (H2 (poldx - 1)%nat) in Hs by lia; done|rewrite (H2 poldx) in Hs by lia; done].
Qed.

(** An occurrence that passes the two tests is bad. *)
Lemma match_bad q :
  occ q -> let e := (q + n + hunt_end (drop (q + n) line))%nat in
  negb (fast_l bw) && negb (q =? hunt_start line q)%nat = false ->
  negb (fast_r bw) && negb (q + n =? e)%nat = false -> badpos q.
Proof using Hw Hword Hline.
  intros Ho e Hleft Hright. pose proof Ho as [Hql _]. destruct (hunt_end_spec (q + n)) as (_ & Hes & _). cbv zeta in Hes.
  split; [done|]. apply andb_false_iff in Hleft, Hright. rewrite !negb_false_iff in Hleft, Hright. rewrite !Nat.eqb_eq in *. split.
  - destruct Hleft as [|Hst]; [by left|]. right. by apply badpos_start.
  - destruct Hright as [|Hen]; [by left|]. right. by rewrite Hen.
Qed.

(** The censored text from [poldx] on, when the next bad occurrence is [q]. *)
Lemma censor_match q poldx :
  badpos q -> (poldx <= q)%nat -> boundary poldx -> (forall i, (poldx <= i < q)%nat -> ~ badpos i) ->
  let e := (q + n + hunt_end (drop (q + n) line))%nat in
  (poldx <= hunt_start line q <= q)%nat /\
  censor bw (drop poldx line) =
    slice poldx (hunt_start line q) ++ default REPLACEWORD (replace bw) ++ censor bw (drop e line).
Proof using Hw Hword Hline.
  intros Hbad Hle Hbd Hno e. pose proof n_pos as Hn. pose proof Hbad as (Ho & _). pose proof Ho as [Hql _].
  pose proof (start_after q poldx Ho Hle Hbd) as Hsx. destruct (hunt_end_spec (q + n)) as (Her & Hes & Hel). cbv zeta in *. specialize (Hel Hql).
  destruct (hunt_start_spec q (occ_nonsep q q Ho ltac:(lia))) as (Hs1 & Hs2 & Hs3). split; [lia|].
  assert (Hrun : run (hunt_start line q) e).
  { intros j Hj. destruct (decide (j <= q)%nat) as [|Hjq]; [apply Hs2; lia|]. destruct (decide (j < q + n)%nat) as [|Hjn].
    - apply (occ_nonsep q); [done|lia].
    - apply Her. unfold e in Hj. lia. }
  rewrite (censor_keep (length line) poldx (hunt_start line q)); [|lia|lia|done| |].
  - f_equal. apply (censor_bad _ e q); try done; unfold e; lia.
  - destruct (decide (poldx = hunt_start line q)); [by left|]. destruct Hs3; [lia|by right].
  - intros i Hi. apply Hno. lia.
Qed.

Lemma replace_loop_spec room fuel pold poldx out cleaned :
  (length line < fuel + pold)%nat -> (poldx <= pold <= length line)%nat -> boundary poldx ->
  (length out <= room)%nat -> (forall i, (poldx <= i < pold)%nat -> ~ badpos i) ->
  censor bw line = out ++ censor bw (drop poldx line) ->
  (cleaned = true -> exists i, badpos i) -> (cleaned = false -> poldx = 0%nat) ->
  exists b buf, replace_loop bw line room fuel pold poldx out cleaned = Some (b, buf) /\
    buf = take room (censor bw line) /\ (b = true <-> exists i, badpos i).
Proof using Hw Hword Hline.
  pose proof n_pos as Hn. revert pold poldx out cleaned.
  induction fuel as [|fuel IH]; intros pold poldx out cleaned Hf Hp Hbd Hroom Hno Hinv Hc1 Hc0; [lia|].
  cbn [replace_loop]. pose proof (strcasestr_spec pold) as Hs.
  destruct (our_strcasestr (drop pold line) (word bw)) as [k|]; cycle 1.
  { assert (Hnone : forall i, (poldx <= i)%nat -> ~ badpos i).
    { intros i Hi Hb. destruct (decide (i < pold)%nat); [apply (Hno i); [lia|done]|]. apply (Hs i); [lia|apply Hb]. }
    eexists _, _. split; [reflexivity|]. rewrite Hinv, (censor_keep_end (length line) poldx) by (done || lia).
    split; [by rewrite take_app_ge by lia|]. split; [done|]. intros (i & Hb). destruct cleaned; [done|].
    exfalso. apply (Hnone i); [rewrite Hc0 by done; lia|done]. }
  destruct Hs as [Ho Hfirst]. set (q := (pold + k)%nat) in *. pose proof Ho as [Hql _].
  assert (Hskip : ~ badpos q -> forall i, (poldx <= i < S q)%nat -> ~ badpos i).
  { intros Hnb i Hi Hb. destruct (decide (i = q)) as [->|]; [done|]. destruct (decide (i < pold)%nat).
    - apply (Hno i); [lia|done].
    - apply (Hfirst i); [lia|apply Hb]. }
  destruct (negb (fast_l bw) && negb (q =? hunt_start line q)%nat) eqn:Hleft.
  { apply andb_true_iff in Hleft as [Hl Hst]. rewrite negb_true_iff in Hl, Hst. apply Nat.eqb_neq in Hst.
    apply IH; try done; [lia|lia|]. apply Hskip. intros (_ & [|Hor] & _); [congruence|]. apply not_start in Hor; auto. }
  destruct (hunt_end_spec (q + n)) as (Her & Hes & Hel). cbv zeta in *. specialize (Hel Hql).
  set (e := (q + n + hunt_end (drop (q + n) line))%nat) in *.
  destruct (negb (fast_r bw) && negb (q + n =? e)%nat) eqn:Hright.
  { apply andb_true_iff in Hright as [Hr Hen]. rewrite negb_true_iff in Hr, Hen. apply Nat.eqb_neq in Hen.
    apply IH; try done; [lia|lia|]. apply Hskip. intros (_ & _ & [|Hsep]); [congruence|].
    rewrite (Her (q + n)%nat) in Hsep by (unfold e in *; lia). done. }
  pose proof (match_bad q Ho Hleft Hright) as Hbad.
  destruct (censor_match q poldx Hbad ltac:(lia) Hbd) as [[Hsx Hs1] Hcens].
  { intros i Hi. destruct (decide (i < pold)%nat); [apply Hno; lia|]. intros Hb. apply (Hfirst i); [lia|apply Hb]. }
  fold e in Hcens. set (st := hunt_start line q) in *. rewrite (proj2 (Nat.ltb_ge _ _)) by lia.
  assert (Hslen : length (slice poldx st) = (st - poldx)%nat) by (unfold slice; rewrite length_take, length_drop; lia).
  rewrite Hcens in Hinv. cbv zeta.
  destruct (negb (st - poldx =? 0)%nat && _) eqn:Ht1.
  { apply andb_true_iff in Ht1 as [_ Ht1%Nat.leb_le]. eexists _, _. split; [reflexivity|]. split; [|split; eauto].
    rewrite Hinv, take_app_ge by lia. f_equal. rewrite take_app_le by lia. unfold slice. rewrite take_take.
    by rewrite Nat.min_l by lia. }
  apply andb_false_iff in Ht1. rewrite negb_false_iff, Nat.eqb_eq, Nat.leb_gt in Ht1.
  set (out' := out ++ take (st - poldx) (drop poldx line)).
  assert (Hout' : length out' = (length out + (st - poldx))%nat) by (unfold out'; rewrite length_app; fold (slice poldx st); lia).
  assert (Hinv' : censor bw line = out' ++ default REPLACEWORD (replace bw) ++ censor bw (drop e line)).
  { rewrite Hinv. unfold out'. by rewrite <- app_assoc. }
  fold out'. destruct (negb (length (default REPLACEWORD (replace bw)) =? 0)%nat && _) eqn:Ht2.
  { apply andb_true_iff in Ht2 as [_ Ht2%Nat.leb_le]. eexists _, _. split; [reflexivity|]. split; [|split; eauto].
    rewrite Hinv', take_app_ge by lia. f_equal. by rewrite take_app_le by lia. }
  apply andb_false_iff in Ht2. rewrite negb_false_iff, Nat.eqb_eq, Nat.leb_gt in Ht2.
  apply IH; [lia|lia|by right; right|rewrite length_app; lia|lia| |eauto|done].
  rewrite Hinv'. by rewrite <- app_assoc.
Qed.
End search.

(** ** Words from the configuration *)

Lemma sep_test c : byte_ok c -> negb (isalnum c) && negb (128 <=? c) = iswseperator c.
Proof. intros Hc. unfold iswseperator. by rewrite Z.mod_small by (unfold byte_ok in Hc; lia). Qed.

Lemma scan_word_fast first s l r l' r' :
  cstr s -> scan_word first s l r = (false, l', r') ->
  Forall (fun c => byte_ok c /\ iswseperator c = false) (List.filter (fun c => negb (c =? 42)) s).
Proof.
  revert first l r. induction s as [|c s IH]; intros first l r Hs; [constructor|].
  apply cstr_cons in Hs as [Hc Hs]. cbn [scan_word List.filter]. rewrite sep_test by done.
  destruct (iswseperator c) eqn:Hsep.
  - destruct (Z.eqb_spec c 42) as [->|Hne]; rewrite ?andb_true_r, ?andb_false_r; cbn [negb]; [|done].
    destruct first; [by apply IH|]. destruct s; [by intros; constructor|done].
  - intros Hscan. destruct (Z.eqb_spec c 42); cbn [negb]; [by eapply IH|].
    constructor; [done|by eapply IH].
Qed.

Lemma process_fast pcre2 repl block s bw :
  cstr s -> badword_config_process pcre2 repl block s = bw -> regex bw = None ->
  Forall (fun c => byte_ok c /\ iswseperator c = false) (word bw).
Proof.
  intros Hs <- Hfast. unfold badword_config_process in *.
  destruct (scan_word true s false false) as [[[] l] r] eqn:Hscan; [done|]. cbn [word]. by eapply scan_word_fast.
Qed.

(** The word filter is correct for every configured word that is not a regular
    expression.  Replacing always returns, within the buffer: the result is the
    line in which exactly the words that have the bad word at the places the
    asterisks allow are replaced as a whole, cut off to one byte less than the
    buffer.  It reports a change exactly when the bad word occurs, ignoring case, with
    the required boundaries; and matching gives the same answer, provided the word is not
    one with an asterisk on the left only that overlaps itself. *)
Theorem badword_filter_correct pcre2 repl block s line max bw :
  cstr s -> cstr line -> badword_config_process pcre2 repl block s = bw -> regex bw = None -> word bw <> [] ->
  exists b, fast_badword_replace bw line max = Some (b, take (max - 1) (censor bw line)) /\
    (b = true <-> exists i, badpos bw line i) /\
    (fast_l bw = false \/ fast_r bw = true \/ borderless (word bw) -> fast_badword_match bw line = Some b).
Proof.
  intros Hs Hl Hbw Hfast Hne. pose proof (process_fast _ _ _ _ _ Hs Hbw Hfast) as Hword.
  destruct (replace_loop_spec bw line Hne Hword Hl (max - 1) (S (length line)) 0 0 [] false)
    as (b & buf & Hr & -> & Hb); try done; try lia; [by left|simpl; lia|].
  exists b. split; [done|]. split; [done|]. intros Hkind.
  destruct (fast_badword_match_spec bw line Hne Hword Hl Hkind) as (b' & -> & Hb').
  f_equal. destruct b, b'; naive_solver.
Qed.

Lemma badword_filter_correct_witness :
  let bw := badword_config_process (fun _ _ => None) None false (str "*bad") in
  exists b, fast_badword_replace bw (str "so BAD, notbad") 512 = Some (b, take (512 - 1) (censor bw (str "so BAD, notbad"))) /\
    (b = true <-> exists i, badpos bw (str "so BAD, notbad") i) /\
    (fast_l bw = false \/ fast_r bw = true \/ borderless (word bw) -> fast_badword_match bw (str "so BAD, notbad") = Some b).
Proof.
  apply (badword_filter_correct (fun _ _ => None) None false (str "*bad") (str "so BAD, notbad") 512);
    [repeat constructor..|reflexivity|reflexivity|discriminate].
Defined.

(** With an asterisk on the left only, matching skips the whole occurrence that did not
    fit and misses one that overlaps it; replacing finds it. *)
Lemma badword_match_misses_overlap :
  let bw := badword_config_process (fun _ _ => None) None true (str "*papa") in
  fast_badword_match bw (str "papapa") = Some false /\
  fast_badword_replace bw (str "papapa") 512 = Some (true, str "<censored>").
Proof. vm_compute. done. Qed.

(** The word "*" is read as the empty word, for which the matching loop does not
    advance. *)
Lemma badword_star_loops fuel :
  let bw := badword_config_process (fun _ _ => None) None true (str "*") in
  match_loop bw (str "a") fuel 0 = None.
Proof. cbv zeta. induction fuel as [|fuel IH]; [done|]. exact IH. Qed.

(** ** Formatting codes *)

Definition UNRL_STRIP_LOW_ASCII : Z := 1.
Definition UNRL_STRIP_KEEP_LF : Z := 2.

Definition isxdigit (c : Z) : bool :=
  isdigit c || ((97 <=? c) && (c <=? 102)) || ((65 <=? c) && (c <=? 70)).

Record strip_state := Strip {
  sc_text : cstring;
  sc_save : cstring;         (** [save_text] *)
  sc_nc : Z;
  sc_col : Z;
  sc_rgb : bool;
  sc_out : cstring
}.

(** The codes that only set or reset an attribute: bold, plain, monospace, reverse,
    italic, strikethrough, underline. *)
Definition attribute_code (c : Z) : bool := existsb (Z.eqb c) [2; 15; 17; 22; 29; 30; 31].

(** U+200B, without its first byte. *)
Definition zero_width (rest : cstring) : bool := strncmp_eq rest [128; 139] 2.

Definition kept (strip_flags c : Z) : bool :=
  (32 <=? c) || (Z.land strip_flags UNRL_STRIP_LOW_ASCII =? 0) ||
  (negb (Z.land strip_flags UNRL_STRIP_KEEP_LF =? 0) && (c =? 10)).

(** The [default] of the switch: copy, and return when the buffer is full. *)
Definition copy_byte (strip_flags : Z) (room : nat) (c : Z) (rest save out : cstring) (nc : Z) : strip_state + cstring :=
  if kept strip_flags c then
    let out := out ++ [c] in
    if (room <=? length out)%nat then inr out else inl (Strip rest save nc 0 false out)
  else inl (Strip rest save nc 0 false out).

(** One iteration; [room] is the buffer without the byte for NUL. *)
Definition strip_step (strip_flags : Z) (room : nat) (st : strip_state) : strip_state + cstring :=
  let '(Strip text save nc col rgb out) := st in
  match text with
  | [] => inr out
  | c :: rest =>
      if (negb (col =? 0) && isdigit c && (nc <? 2))
         || ((col =? 1) && (c =? 44) && isdigit (hd 0 rest) && (0 <? nc) && (nc <? 3))
      then inl (Strip rest save (if c =? 44 then 0 else nc + 1) (if c =? 44 then col + 1 else col) rgb out)
      else if (rgb && isxdigit c && (nc <? 6)) || (rgb && (c =? 44) && (nc <? 7))
      then inl (Strip rest save (if c =? 44 then 0 else nc + 1) col rgb out)
      else if rgb && negb (nc =? 6) then inl (Strip (tl save) save nc 0 false out)
      else if c =? 3 then inl (Strip rest save 0 1 false out)
      else if c =? 4 then inl (Strip rest text 0 0 true out)
      else if attribute_code c then inl (Strip rest save nc 0 false out)
      else if (c =? 226) && zero_width rest then inl (Strip (drop 2 rest) save nc 0 false out)
      else copy_byte strip_flags room c rest save out nc
  end.

Definition strip_fuel (text : cstring) : nat := (2 * (length text + 2) * (length text + 2))%nat.

(** [Some None] is the NULL that is returned for a buffer of length 0; [None] would
    be a loop that does not end. *)
Definition StripControlCodesEx (text : cstring) (outputlen : nat) (strip_flags : Z) : option (option cstring) :=
  match outputlen with
  | O => Some None
  | S O => Some (Some [])
  | S room => Some <$> iterate (strip_step strip_flags room) (strip_fuel text) (Strip text [] 0 0 false [])
  end.

Definition StripControlCodes (text : cstring) : option (option cstring) := StripControlCodesEx text 8192 0.

Example strip_samples :
  StripControlCodes ([2] ++ str "b" ++ [3] ++ str "04,05red" ++ [15] ++ [4] ++ str "a0B1c2rgb" ++ [226; 128; 139; 33]) =
    Some (Some (str "bredrgb!")) /\
  StripControlCodesEx (str "long text") 5 0 = Some (Some (str "long")) /\
  StripControlCodesEx ([4] ++ str "abX") 99 0 = Some (Some (str "abX")).
Proof. vm_compute. done. Qed.

(** Bytes that start a code never reach the output. *)
Definition code_byte (c : Z) : bool := attribute_code c || (c =? 3) || (c =? 4).

(** What is still to be read, also when a colour code turns out to be incomplete. *)
Definition pending (st : strip_state) : cstring := if sc_rgb st then tl (sc_save st) else sc_text st.

Section strip.
Context (text : cstring) (strip_flags : Z) (room : nat).

Definition strip_inv (st : strip_state) : Prop :=
  (sc_rgb st = true -> sc_text st `suffix_of` tl (sc_save st)) /\
  (length (pending st) <= length text)%nat /\
  (sc_out st ++ pending st) `sublist_of` text /\
  (length (sc_out st) < room)%nat /\
  Forall (fun c => code_byte c = false /\ kept strip_flags c = true) (sc_out st).

Definition strip_measure (st : strip_state) : nat :=
  (2 * (length text + 2) * length (pending st) +
   (if sc_rgb st then length text + 2 + length (sc_text st) else 0))%nat.

Definition strip_post (out : cstring) : Prop :=
  out `sublist_of` text /\ (length out <= room)%nat /\
  Forall (fun c => code_byte c = false /\ kept strip_flags c = true) out.

(** A step that consumes at least one byte outside an RGB code. *)
Lemma strip_consume st t sv nc col rgb o :
  strip_inv st -> sc_out st = o -> (length (if rgb : bool then tl sv else t) < length (pending st))%nat ->
  (if rgb : bool then tl sv else t) `suffix_of` pending st -> (rgb = true -> t = tl sv) ->
  strip_inv (Strip t sv nc col rgb o) /\ (strip_measure (Strip t sv nc col rgb o) < strip_measure st)%nat.
Proof.
  intros (Hs & Hlen & Hsub & Hroom & Hout) <- Hlt Hsuf Hrgb. split.
  - unfold strip_inv, pending in *. simpl in *. split; [intros ->; by rewrite Hrgb|]. split; [lia|]. split; [|done].
    etransitivity; [|exact Hsub]. apply sublist_app; [done|]. destruct Hsuf as [x ->]. by apply sublist_inserts_l.
  - unfold strip_measure. unfold pending in *. simpl in *.
    assert (length t <= length text)%nat by (destruct rgb; [rewrite Hrgb by done|]; lia).
    set (N := length text) in *. set (b := length (if rgb then tl sv else t)) in *.
    assert (2 * (N + 2) * b + 2 * (N + 2) <= 2 * (N + 2) * length (if sc_rgb st then tl (sc_save st) else sc_text st))%nat by nia.
    destruct rgb; lia.
Qed.

(** A byte of an RGB code. *)
Lemma strip_within c rest sv nc nc' col col' o :
  strip_inv (Strip (c :: rest) sv nc col true o) ->
  strip_inv (Strip rest sv nc' col' true o) /\
  (strip_measure (Strip rest sv nc' col' true o) < strip_measure (Strip (c :: rest) sv nc col true o))%nat.
Proof.
  intros (Hs & Hlen & Hsub & Hroom & Hout). split; [|unfold strip_measure, pending; simpl; lia].
  split; [|done]. intros _. destruct (Hs eq_refl) as [x Hx]. exists (x ++ [c]). simpl in *. by rewrite <- app_assoc.
Qed.

Lemma suffix_pending c rest sv nc col rgb o :
  strip_inv (Strip (c :: rest) sv nc col rgb o) -> (c :: rest) `suffix_of` pending (Strip (c :: rest) sv nc col rgb o).
Proof. intros (Hs & _). unfold pending. simpl in *. destruct rgb; [auto|done]. Qed.

(** Copying a byte. *)
Lemma copy_byte_ok c rest sv sv' nc col rgb o nc' :
  strip_inv (Strip (c :: rest) sv nc col rgb o) -> code_byte c = false ->
  match copy_byte strip_flags room c rest sv' o nc' with
  | inl st' => strip_inv st' /\ (strip_measure st' < strip_measure (Strip (c :: rest) sv nc col rgb o))%nat
  | inr out => strip_post out
  end.
Proof.
  intros Hinv Hcode. pose proof (suffix_pending _ _ _ _ _ _ _ Hinv) as Hsuf.
  assert (Hrest : rest `suffix_of` pending (Strip (c :: rest) sv nc col rgb o)) by (by eapply suffix_cons_l).
  pose proof (suffix_length _ _ Hsuf) as Hl. simpl in Hl.
  destruct (strip_consume _ rest sv' nc' 0 false o Hinv eq_refl ltac:(lia) Hrest ltac:(done)) as [Hinv' Hm].
  unfold copy_byte. destruct (kept strip_flags c) eqn:Hk; [|done].
  destruct Hinv as (_ & _ & Hsub & Hroom & Hout). simpl in Hsub, Hroom, Hout.
  assert (Hsub' : ((o ++ [c]) ++ rest) `sublist_of` text).
  { etransitivity; [|exact Hsub]. rewrite <- app_assoc. apply sublist_app; [done|].
    destruct Hsuf as [x ->]. by apply sublist_inserts_l. }
  assert (Hout' : Forall (fun c => code_byte c = false /\ kept strip_flags c = true) (o ++ [c])).
  { apply Forall_app. split; [done|]. by apply Forall_singleton. }
  destruct (Nat.leb_spec room (length (o ++ [c]))) as [Hfull|Hspace].
  - split; [|split; [rewrite length_app in *; simpl in *; lia|done]].
    etransitivity; [|exact Hsub']. by apply sublist_inserts_r.
  - destruct Hinv' as (_ & Hlen' & _). split; [|exact Hm]. by repeat split.
Qed.

Lemma strip_step_ok st :
  strip_inv st ->
  match strip_step strip_flags room st with
  | inl st' => strip_inv st' /\ (strip_measure st' < strip_measure st)%nat
  | inr out => strip_post out
  end.
Proof.
  intros Hinv. destruct st as [t sv nc col rgb o]. destruct t as [|c rest]; cbn [strip_step].
  { destruct Hinv as (_ & _ & Hsub & Hroom & Hout). simpl in *. split; [|split; [lia|done]].
    etransitivity; [|exact Hsub]. by apply sublist_inserts_r. }
  pose proof (suffix_pending _ _ _ _ _ _ _ Hinv) as Hsuf.
  assert (Hrest : rest `suffix_of` pending (Strip (c :: rest) sv nc col rgb o)) by (by eapply suffix_cons_l).
  pose proof (suffix_length _ _ Hsuf) as Hl. simpl in Hl.
  assert (Hgo : forall sv' nc' col', strip_inv (Strip rest sv' nc' col' false o) /\
             (strip_measure (Strip rest sv' nc' col' false o) < strip_measure (Strip (c :: rest) sv nc col rgb o))%nat).
  { intros. eapply strip_consume; [exact Hinv|done|simpl; lia|done|done]. }
  destruct (_ || _). { destruct rgb; [by eapply strip_within|apply Hgo]. }
  destruct ((rgb && _ && _) || _) eqn:Hrgb.
  { assert (rgb = true) as -> by (by destruct rgb). by eapply strip_within. }
  destruct (rgb && negb (nc =? 6)) eqn:Hfail.
  { assert (rgb = true) as -> by (by destruct rgb). pose proof Hinv as (_ & Hp & Hq). split; [by split|].
    unfold strip_measure, pending. simpl. lia. }
  destruct (Z.eqb_spec c 3) as [->|H3]; [apply Hgo|]. destruct (Z.eqb_spec c 4) as [->|H4].
  { eapply strip_consume; [exact Hinv|done|simpl; lia|done|done]. }
  destruct (attribute_code c) eqn:Hattr; [apply Hgo|]. destruct (_ && zero_width rest).
  { eapply strip_consume; [exact Hinv|done| | |done].
    - simpl. rewrite length_drop. lia.
    - etransitivity; [apply suffix_drop|exact Hrest]. }
  eapply copy_byte_ok; [exact Hinv|]. unfold code_byte. rewrite Hattr. simpl. by apply orb_false_iff; split; apply Z.eqb_neq.
Qed.
End strip.

Lemma strip_total text outputlen strip_flags :
  (1 < outputlen)%nat ->
  exists out, StripControlCodesEx text outputlen strip_flags = Some (Some out) /\
    strip_post text strip_flags (outputlen - 1) out.
Proof.
  intros Hlen. destruct outputlen as [|[|room]]; [lia|lia|]. unfold StripControlCodesEx.
  destruct (iterate_total (strip_step strip_flags (S room)) (strip_inv text strip_flags (S room))
    (strip_post text strip_flags (S room)) (strip_measure text)) with (fuel := strip_fuel text)
    (s := Strip text [] 0 0 false []) as (r & -> & Hr).
  - intros st. apply strip_step_ok.
  - unfold strip_inv, pending. simpl. split; [done|]. split; [lia|]. split; [done|]. split; [lia|constructor].
  - unfold strip_measure, pending, strip_fuel. simpl. nia.
  - exists r. split; [done|]. by rewrite Nat.sub_1_r.
Qed.

(** Text without codes is copied. *)
Lemma strip_plain_run strip_flags room text nc sv out fuel :
  Forall (fun c => code_byte c = false /\ kept strip_flags c = true /\ c <> 226) text ->
  (length out < room)%nat -> (length text < fuel)%nat ->
  iterate (strip_step strip_flags room) fuel (Strip text sv nc 0 false out) = Some (take room (out ++ text)).
Proof.
  revert out fuel. induction text as [|c text IH]; intros out fuel Ht Hout Hf; (destruct fuel as [|fuel]; [simpl in Hf; lia|]).
  - cbn [iterate strip_step]. by rewrite app_nil_r, take_ge by lia.
  - apply Forall_cons in Ht as [(Hcode & Hk & Hne) Ht]. unfold code_byte in Hcode.
    apply orb_false_iff in Hcode as [[Hattr H3]%orb_false_iff H4].
    cbn [iterate strip_step]. change (0 =? 0) with true. change (0 =? 1) with false. cbn [negb andb orb].
    rewrite H3, H4, Hattr, (proj2 (Z.eqb_neq c 226) Hne). cbn [andb]. unfold copy_byte. rewrite Hk.
    replace (out ++ c :: text) with ((out ++ [c]) ++ text) by (by rewrite <- app_assoc).
    destruct (Nat.leb_spec room (length (out ++ [c]))) as [Hfull|Hspace].
    + f_equal. rewrite length_app in Hfull. simpl in Hfull. rewrite take_app_le, take_ge by (rewrite length_app; simpl; lia). done.
    + apply IH; [done|lia|simpl in Hf; lia].
Qed.

(** Removing formatting codes always returns, within the buffer: the output is a
    subsequence of the input, contains none of the bytes that start a formatting
    code and, when asked for, no control characters; and a text without codes and without the
    first byte of U+200B is copied, up to the size of the buffer. *)
Theorem strip_control_codes_correct text outputlen strip_flags :
  (1 < outputlen)%nat ->
  exists out, StripControlCodesEx text outputlen strip_flags = Some (Some out) /\
    out `sublist_of` text /\ (length out <= outputlen - 1)%nat /\
    Forall (fun c => code_byte c = false /\ kept strip_flags c = true) out /\
    (Forall (fun c => code_byte c = false /\ kept strip_flags c = true /\ c <> 226) text ->
     out = take (outputlen - 1) text).
Proof.
  intros Hlen. destruct (strip_total text outputlen strip_flags Hlen) as (out & Hout & H1 & H2 & H3).
  exists out. split; [done|]. split; [done|]. split; [done|]. split; [done|]. intros Hplain.
  destruct outputlen as [|[|room]]; [lia|lia|]. unfold StripControlCodesEx in Hout.
  rewrite strip_plain_run in Hout; [|done|simpl; lia|unfold strip_fuel; nia].
  simpl in Hout. injection Hout as <-. by rewrite Nat.sub_1_r.
Qed.

Lemma strip_control_codes_correct_witness :
  exists out, StripControlCodesEx ([2] ++ str "bold") 16 0 = Some (Some out) /\
    out `sublist_of` ([2] ++ str "bold") /\ (length out <= 16 - 1)%nat /\
    Forall (fun c => code_byte c = false /\ kept 0 c = true) out /\
    (Forall (fun c => code_byte c = false /\ kept 0 c = true /\ c <> 226) ([2] ++ str "bold") ->
     out = take (16 - 1) ([2] ++ str "bold")).
Proof. apply (strip_control_codes_correct ([2] ++ str "bold") 16 0). lia. Defined.

(** An incomplete RGB code is shown as text, but not at the end of the text. *)
Lemma strip_incomplete_rgb_at_end :
  StripControlCodes ([4] ++ str "ab") = Some (Some []) /\ StripControlCodes ([4] ++ str "ab.") = Some (Some (str "ab.")).
Proof. vm_compute. done. Qed.

(** ** The filter as a whole *)

Definition CLEANSTR : nat := 4096.

(** The loop over the matches of a regular expression: [matchlen], [cleaned], [buf]
    and [ptr].  [None] is the [abort] on an offset out of range, or no fuel. *)
Fixpoint regex_loop (rx : cstring -> option (Z * Z)) (repl : cstring) (fuel : nat)
    (matchlen : Z) (cleaned : bool) (buf ptr : cstring) : option (Z * bool * cstring * cstring) :=
  match fuel with
  | O => None
  | S fuel =>
      match rx ptr with
      | None => Some (matchlen, cleaned, buf, ptr)
      | Some (start, finish) =>
          let len := Z.of_nat (length ptr) in
          if (start <? 0) || (finish <? 0) || (len <? start) || (len + 1 <? finish) then None
          else
            let m := finish - start in
            if m =? 0 then Some (matchlen, cleaned, buf, ptr)
            else
              let buf := fst (strlncat buf ptr CLEANSTR (Z.to_nat start)) in
              let buf := fst (strlcat buf repl CLEANSTR) in
              regex_loop rx repl fuel (matchlen + m) true buf (drop (Z.to_nat finish) ptr)
      end
  end.

(** The loop over the words: [inl tt] is a blocked message. *)
Fixpoint words_loop (ws : list ConfigItem_badword) (stringlen matchlen : Z) (cleaned : bool) (cleanstr : cstring)
  : option (unit + bool * cstring) :=
  match ws with
  | [] => Some (inr (cleaned, cleanstr))
  | this_word :: ws =>
      let repl := default REPLACEWORD (replace this_word) in
      match regex this_word with
      | None =>
          if action_block this_word then
            b ← fast_badword_match this_word cleanstr;
            if (b : bool) then Some (inl tt) else words_loop ws stringlen matchlen cleaned cleanstr
          else
            '(n, buf) ← fast_badword_replace this_word cleanstr 512;
            words_loop ws stringlen matchlen (cleaned || n) buf
      | Some rx =>
          if action_block this_word then
            match rx cleanstr with
            | Some _ => Some (inl tt)
            | None => words_loop ws stringlen matchlen cleaned cleanstr
            end
          else
            '(matchlen, cleaned, buf, ptr) ← regex_loop rx repl (S (length cleanstr)) matchlen cleaned [] cleanstr;
            let cleanstr := fst (strlcat buf ptr CLEANSTR) in
            if matchlen =? stringlen then Some (inr (cleaned, cleanstr))
            else words_loop ws stringlen matchlen cleaned cleanstr
      end
  end.

(** [inl tt]: blocked; [inr s]: the text, changed or not. *)
Definition stripbadwords (s : cstring) (ws : list ConfigItem_badword) : option (unit + cstring) :=
  match ws with
  | [] => Some (inr s)
  | _ =>
      stripped ← StripControlCodes s;
      stripped ← stripped;
      let '(cleanstr, stringlen) := strlcpy [] stripped CLEANSTR in
      r ← words_loop ws (Z.of_nat stringlen) 0 false cleanstr;
      match r with
      | inl tt => Some (inl tt)
      | inr (cleaned, cleanstr) => Some (inr (if (cleaned : bool) then take 511 cleanstr else s))
      end
  end.

(** What a regular expression leaves of a text: its matches, each looked for behind
    the one before, are replaced, up to the first empty one; with the number of
    bytes that matched and whether anything did. *)
Inductive replaced (rx : cstring -> option (Z * Z)) (repl : cstring) : cstring -> Z -> bool -> cstring -> Prop :=
| replaced_none t : rx t = None -> replaced rx repl t 0 false t
| replaced_empty t a : rx t = Some (a, a) -> replaced rx repl t 0 false t
| replaced_match t a b m c t' :
    rx t = Some (a, b) -> a < b -> replaced rx repl (drop (Z.to_nat b) t) m c t' ->
    replaced rx repl t (b - a + m) true (take (Z.to_nat a) t ++ repl ++ t').

(** What the words do to a text, one after the other: a word that blocks ends it when
    it occurs; a word that is replaced passes on the censored text, cut off at 511 bytes,
    and a regular expression the text it leaves, cut off at 4095 bytes.  [c] says whether
    anything was replaced so far and [m] how many bytes regular expressions have
    matched: when these are as many as the message had, [len], the words that follow are
    not looked at. *)
Inductive filtered (len : Z) : list ConfigItem_badword -> Z -> cstring -> bool -> unit + bool * cstring -> Prop :=
| filtered_nil m t c : filtered len [] m t c (inr (c, t))
| filtered_block w ws m t c :
    regex w = None -> action_block w = true -> hit w t -> filtered len (w :: ws) m t c (inl tt)
| filtered_pass w ws m t c r :
    regex w = None -> action_block w = true -> ~ hit w t -> filtered len ws m t c r ->
    filtered len (w :: ws) m t c r
| filtered_replace w ws m t c b r :
    regex w = None -> action_block w = false -> (b = true <-> exists i, badpos w t i) ->
    filtered len ws m (take 511 (censor w t)) (c || b) r -> filtered len (w :: ws) m t c r
| filtered_rx_block w ws m t c rx :
    regex w = Some rx -> action_block w = true -> rx t <> None -> filtered len (w :: ws) m t c (inl tt)
| filtered_rx_pass w ws m t c r rx :
    regex w = Some rx -> action_block w = true -> rx t = None -> filtered len ws m t c r ->
    filtered len (w :: ws) m t c r
| filtered_rx_end w ws m t c rx k b t' :
    regex w = Some rx -> action_block w = false ->
    replaced rx (default REPLACEWORD (replace w)) t k b t' -> m + k = len ->
    filtered len (w :: ws) m t c (inr (c || b, take 4095 t'))
| filtered_rx_replace w ws m t c r rx k b t' :
    regex w = Some rx -> action_block w = false ->
    replaced rx (default REPLACEWORD (replace w)) t k b t' -> m + k <> len ->
    filtered len ws (m + k) (take 4095 t') (c || b) r -> filtered len (w :: ws) m t c r.

(** A match lies in the text, as [pcre2_match] documents of the offsets it returns. *)
Definition matches_within (rx : cstring -> option (Z * Z)) : Prop :=
  forall t a b, rx t = Some (a, b) -> 0 <= a <= b /\ b <= Z.of_nat (length t).

(** A word of the configuration that is more than asterisks. *)
Definition configured_word (pcre2 : cstring -> cstring -> option (Z * Z)) (w : ConfigItem_badword) : Prop :=
  exists repl block s, w = badword_config_process pcre2 repl block s /\ cstr s /\ cstr (default REPLACEWORD repl) /\
    word w <> [].

Record badword_ok (w : ConfigItem_badword) : Prop := {
  wk_replace : cstr (default REPLACEWORD (replace w));
  wk_nonempty : word w <> [];
  wk_word : regex w = None -> Forall (fun c => byte_ok c /\ iswseperator c = false) (word w);
  wk_regex : forall rx, regex w = Some rx -> matches_within rx
}.

Lemma configured_ok pcre2 w : (forall e, matches_within (pcre2 e)) -> configured_word pcre2 w -> badword_ok w.
Proof.
  intros Hrx (repl & block & s & Hw & Hs & Hrepl & Hne). symmetry in Hw.
  split; [|done|by apply (process_fast _ _ _ _ _ Hs Hw)|]; subst w;
    unfold badword_config_process in *; destruct (scan_word true s false false) as [[[] l] r]; cbn in *; [done..| |done].
  by intros rx [= <-].
Qed.

Lemma cstr_censor_from w acc s : badword_ok w -> cstr acc -> cstr s -> cstr (censor_from w acc s).
Proof.
  intros Hw. assert (Hfix : forall t, cstr t -> cstr (fix_word w (rev t))).
  { intros t Ht. unfold fix_word. case_match; [by apply wk_replace|by apply Forall_rev]. }
  revert acc. induction s as [|c s IH]; intros acc Hacc Hs; cbn [censor_from]; [by apply Hfix|].
  apply cstr_cons in Hs as [Hc Hs]. case_match.
  - apply cstr_app. split; [by apply Hfix|]. apply cstr_cons. split; [done|]. apply IH; [constructor|done].
  - apply IH; [by apply cstr_cons|done].
Qed.

(** A copy into a full buffer changes nothing. *)
Lemma cut_append {A} k (W X : list A) : take k (take k W ++ X) = take k (W ++ X).
Proof.
  destruct (Nat.le_gt_cases k (length W)) as [H|H].
  - rewrite (take_app_le (take k W)) by (rewrite length_take; lia).
    rewrite take_take, Nat.min_id. by rewrite take_app_le.
  - by rewrite (take_ge W) by lia.
Qed.

Lemma regex_loop_replaced rx repl fuel m c W t :
  matches_within rx -> (length t < fuel)%nat ->
  exists k b t' V tl, regex_loop rx repl fuel m c (take 4095 W) t = Some (m + k, c || b, take 4095 V, tl) /\
    replaced rx repl t k b t' /\ V ++ tl = W ++ t' /\ (cstr repl -> cstr t -> cstr t').
Proof.
  intros Hrx. revert m c W t. induction fuel as [|fuel IH]; intros m c W t Hf; [lia|]. cbn [regex_loop].
  destruct (rx t) as [[a b]|] eqn:Hm; cycle 1.
  { exists 0, false, t, W, t. rewrite Z.add_0_r, orb_false_r. split; [done|]. split; [by apply replaced_none|done]. }
  destruct (Hrx _ _ _ Hm) as [Hab Hb].
  rewrite !(proj2 (Z.ltb_ge _ _)) by lia. cbn [orb]. destruct (Z.eqb_spec (b - a) 0) as [He|Hne].
  { exists 0, false, t, W, t. rewrite Z.add_0_r, orb_false_r. split; [done|]. split; [|done].
    apply replaced_empty with a. by replace b with a in Hm by lia. }
  assert (Hcut : forall X : cstring, (length (take 4095 X) < CLEANSTR)%nat)
    by (intros X; rewrite length_take; unfold CLEANSTR; lia).
  rewrite strlncat_take by apply Hcut. rewrite strlcat_take by apply Hcut.
  change (CLEANSTR - 1)%nat with 4095%nat. rewrite cut_append, <- app_assoc, cut_append.
  destruct (IH (m + (b - a)) true (W ++ take (Z.to_nat a) t ++ repl) (drop (Z.to_nat b) t))
    as (k & d & t' & V & tl & Hgo & Hrep & HV & Hcs); [rewrite length_drop; lia|].
  exists (b - a + k), true, (take (Z.to_nat a) t ++ repl ++ t'), V, tl.
  rewrite Hgo, Z.add_assoc, orb_true_r. split; [done|]. split; [apply (replaced_match rx repl t a b k d); [done|lia|done]|]. split.
  - rewrite HV. by rewrite <- !app_assoc.
  - intros Hr Ht. apply cstr_app. split; [by apply Forall_take|]. apply cstr_app. split; [done|].
    apply Hcs; [done|]. by apply Forall_drop.
Qed.

Lemma words_loop_filtered ws len m cleaned t :
  Forall badword_ok ws -> cstr t ->
  exists r, words_loop ws len m cleaned t = Some r /\ filtered len ws m t cleaned r.
Proof.
  intros Hws. revert m cleaned t. induction Hws as [|w ws Hw _ IH]; intros m cleaned t Ht; [eexists; split; [done|constructor]|].
  cbn [words_loop]. destruct (regex w) as [rx|] eqn:Hrx; destruct (action_block w) eqn:Hact.
  - destruct (rx t) as [p|] eqn:Hm; [eexists; split; [done|]; by eapply filtered_rx_block; [..|rewrite Hm]|].
    destruct (IH m cleaned t Ht) as (r & Hr & Hf). exists r. split; [done|]. by eapply filtered_rx_pass.
  - destruct (regex_loop_replaced rx (default REPLACEWORD (replace w)) (S (length t)) m cleaned [] t)
      as (k & b & t' & V & tl & Hgo & Hrep & HV & Hcs); [by eapply wk_regex|lia|].
    change (take 4095 []) with ([] : cstring) in Hgo. rewrite Hgo. cbn [mbind option_bind].
    rewrite strlcat_take by (rewrite length_take; unfold CLEANSTR; lia). change (CLEANSTR - 1)%nat with 4095%nat.
    rewrite cut_append, HV. change ([] ++ t') with t'. destruct (Z.eqb_spec (m + k) len) as [He|Hne].
    + eexists. split; [done|]. by eapply filtered_rx_end.
    + destruct (IH (m + k) (cleaned || b) (take 4095 t')) as (r & Hr & Hf).
      { apply Forall_take, Hcs; [by apply wk_replace|done]. }
      exists r. split; [done|]. by eapply filtered_rx_replace.
  - destruct (fast_badword_match_hit w t (wk_nonempty _ Hw)) as (b & -> & Hb).
    cbn [mbind option_bind]. destruct b.
    + eexists. split; [done|]. eapply filtered_block; [done..|]. by apply Hb.
    + destruct (IH m cleaned t Ht) as (r & Hr & Hf). exists r. split; [done|]. apply filtered_pass; [done..| |done].
      intros Hi. by discriminate (proj2 Hb Hi).
  - destruct (replace_loop_spec w t (wk_nonempty _ Hw) (wk_word _ Hw Hrx) Ht (512 - 1) (S (length t)) 0 0 [] false)
      as (b & buf & Hr & -> & Hb); try done; try lia; [by left|simpl; lia|].
    unfold fast_badword_replace. rewrite Hr. cbn [mbind option_bind]. change (512 - 1)%nat with 511%nat.
    destruct (IH m (cleaned || b) (take 511 (censor w t))) as (r & Hr' & Hf).
    { apply Forall_take. by apply cstr_censor_from; [|constructor|]. }
    exists r. split; [done|]. by eapply filtered_replace.
Qed.

(** C22: The filter does to a message what its words say, in their order, for every
    list of configured words that are more than asterisks, regular expressions
    included (PCRE2 is a parameter whose matches lie in the text).  The
    result is decided on the text without formatting codes, cut off at 4095 bytes.  The
    message is blocked when a blocking word is met in what the earlier words have left;
    otherwise the original text comes back when nothing was replaced, and the censored text
    of at most 511 bytes when something was.  A blocking word that is not a regular
    expression is met where the search, which goes on behind each occurrence it
    rejects, sees it with its boundaries; these are all places where it occurs,
    unless the word has an asterisk on the left only and overlaps itself. *)
Theorem stripbadwords_correct pcre2 s ws :
  cstr s -> ws <> [] -> (forall e, matches_within (pcre2 e)) -> Forall (configured_word pcre2) ws ->
  (exists text r, StripControlCodes s = Some (Some text) /\
    filtered (Z.of_nat (length text)) ws 0 (take 4095 text) false r /\
    stripbadwords s ws =
      Some (match r with inl tt => inl tt | inr (c, t) => inr (if (c : bool) then take 511 t else s) end)) /\
  Forall (fun w => regex w = None -> fast_l w = false \/ fast_r w = true \/ borderless (word w) ->
    forall t, cstr t -> hit w t <-> exists i, badpos w t i) ws.
Proof.
  intros Hs Hne Hrx Hcf.
  assert (Hws : Forall badword_ok ws) by (eapply Forall_impl; [exact Hcf|]; intros w; by apply configured_ok).
  split; cycle 1.
  { eapply Forall_impl; [exact Hws|]. intros w Hw Hfast Hk t Ht. apply hit_anywhere; [by apply wk_nonempty| |done..].
    by apply wk_word. }
  destruct (strip_total s 8192 0 ltac:(by apply Nat.ltb_lt)) as (text & Htext & Hsub & _).
  assert (Hct : cstr text).
  { apply Forall_forall. intros c Hc. eapply (proj1 (Forall_forall _ _) Hs). by eapply elem_of_sublist. }
  destruct (words_loop_filtered ws (Z.of_nat (length text)) 0 false (take 4095 text) Hws) as (r & Hr & Hf).
  { by apply Forall_take. }
  exists text, r. split; [done|]. split; [done|]. unfold stripbadwords. destruct ws as [|w ws]; [done|].
  unfold StripControlCodes. rewrite Htext. cbn [mbind option_bind].
  assert (strlcpy [] text CLEANSTR = (take 4095 text, length text)) as ->.
  { pose proof (strlcpy_take [] text CLEANSTR ltac:(unfold CLEANSTR; lia)) as Hcpy.
    unfold strlcpy in *. destruct (Nat.leb_spec CLEANSTR 0); [unfold CLEANSTR in *; lia|]. cbn [fst] in Hcpy. by rewrite Hcpy. }
  rewrite Hr. cbn [mbind option_bind]. by destruct r as [[]|[c t]].
Qed.

(** A stand-in for PCRE2 that knows one expression: the first digit. *)
Definition first_digit (e t : cstring) : option (Z * Z) :=
  if bool_decide (e = str "[0-9]") then
    match List.find (fun i => isdigit (nth i t 0)) (seq 0 (length t)) with
    | Some i => Some (Z.of_nat i, Z.of_nat i + 1)
    | None => None
    end
  else None.

Lemma first_digit_within e : matches_within (first_digit e).
Proof.
  intros t a b. unfold first_digit. case_bool_decide; [|done].
  destruct (List.find _ _) as [i|] eqn:Hf; [|done]. intros [= <- <-].
  apply find_some in Hf as [Hi%in_seq _]. lia.
Qed.

Lemma stripbadwords_correct_witness :
  let ws := [badword_config_process first_digit None false (str "bad");
             badword_config_process first_digit (Some (str "#")) false (str "[0-9]");
             badword_config_process first_digit None true (str "*papa")] in
  stripbadwords ([2] ++ str "a BAD day 42") ws = Some (inr (str "a <censored> day ##")) /\
  (exists text r, StripControlCodes ([2] ++ str "a BAD day 42") = Some (Some text) /\
    filtered (Z.of_nat (length text)) ws 0 (take 4095 text) false r /\
    stripbadwords ([2] ++ str "a BAD day 42") ws =
      Some (match r with inl tt => inl tt | inr (c, t) => inr (if (c : bool) then take 511 t else [2] ++ str "a BAD day 42") end)) /\
  Forall (fun w => regex w = None -> fast_l w = false \/ fast_r w = true \/ borderless (word w) ->
    forall t, cstr t -> hit w t <-> exists i, badpos w t i) ws.
Proof.
  cbv zeta. split; [vm_compute; reflexivity|].
  apply (stripbadwords_correct first_digit ([2] ++ str "a BAD day 42")); [repeat constructor|discriminate|apply first_digit_within|].
  repeat (apply Forall_cons; split); [..|constructor];
    (eexists _, _, _; split; [reflexivity|]; split; [|split]; [repeat constructor|repeat constructor|discriminate]).
Defined.
