(* ===== verification/User.v ===== *)
(** * Users (src/user.c)

    User modes as bits and as text, and the limits on conversations and on flooding
    of a local user. *)
From S2P Require Import Prelude Chars Strings Client Crule CruleFuncs Parse.

(** ** User modes *)

Record Umode := MkUmode { um_mode : Z; um_letter : Z }.

Inductive mode_what := MODE_NULL | MODE_ADD | MODE_DEL.

#[export] Instance mode_what_eq_dec : EqDecision mode_what.
Proof. solve_decision. Defined.

Section umodes.
Context (usermodes : list Umode).

(** The inner loop of [set_usermode]: every mode with this letter.  The variable is an [int]. *)
Definition set_letter (what : mode_what) (newumode c : Z) : Z :=
  fold_left (fun m um =>
    if um_letter um =? c then
      to_int (if decide (what = MODE_ADD) then Z.lor m (um_mode um) else Z.land m (Z.lnot (um_mode um)))
    else m) usermodes newumode.

Fixpoint usermode_loop (what : mode_what) (newumode : Z) (m : cstring) : Z :=
  match m with
  | [] => newumode
  | c :: m =>
      if c =? 43 then usermode_loop MODE_ADD newumode m
      else if c =? 45 then usermode_loop MODE_DEL newumode m
      else if (c =? 32) || (c =? 10) || (c =? 13) || (c =? 9) then usermode_loop what newumode m
      else usermode_loop what (set_letter what newumode c) m
  end.

Definition set_usermode (umode : cstring) : Z := usermode_loop MODE_ADD 0 umode.

(** [get_usermode_string_raw_r], and with a buffer of 128 bytes [get_usermode_string_raw]. *)
Definition get_usermode_string_raw_r (umodes : Z) (buflen : nat) : cstring :=
  fold_left (fun buf um => if has umodes (um_mode um) then strlcat_letter buf (um_letter um) buflen else buf)
    usermodes (fst (strlcpy [] (str "+") buflen)).

Definition get_usermode_string_raw (umodes : Z) : cstring := get_usermode_string_raw_r umodes 128.

(** The loop of [build_umode_string] over [what] and the text so far; [umodes] is the new
    value. *)
Definition umode_change (my_user : bool) (umodes old sendmask : Z) (st : mode_what * cstring) (um : Umode)
  : mode_what * cstring :=
  let '(what, m) := st in
  let flag := um_mode um in
  if my_user && negb (has flag sendmask) then (what, m)
  else if has flag old && negb (has umodes flag) then
    if decide (what = MODE_DEL) then (what, m ++ [um_letter um]) else (MODE_DEL, m ++ [45; um_letter um])
  else if negb (has flag old) && has umodes flag then
    if decide (what = MODE_ADD) then (what, m ++ [um_letter um]) else (MODE_ADD, m ++ [43; um_letter um])
  else (what, m).

Definition build_umode_string (my_user : bool) (umodes old sendmask : Z) : cstring :=
  snd (fold_left (umode_change my_user umodes old sendmask) usermodes (MODE_NULL, [])).

(** A table as the API keeps it: one bit per mode, below the sign bit of an [int], and distinct
    letters that are not used in mode lines. *)
Record umodes_ok : Prop := {
  uo_letters : NoDup (um_letter <$> usermodes);
  uo_letter um : um ∈ usermodes -> um_letter um ∉ [43; 45; 32; 10; 13; 9];
  uo_bit um : um ∈ usermodes -> exists k, 0 <= k < 31 /\ um_mode um = 2 ^ k
}.
End umodes.

(** ** The limits of a local user

    The part of [LocalClient] that the anti-flood functions use.  The time, the settings
    that apply and the answer of [ValidatePermissionsForPath] are arguments; the numeric and the
    log entry of a refusal are left out. *)

Inductive FloodOption :=
| FLD_NICK | FLD_JOIN | FLD_AWAY | FLD_INVITE | FLD_KNOCK | FLD_CONVERSATIONS | FLD_LAG_PENALTY
| FLD_VHOST | FLD_MULTILINE | FLD_MAX_PROCESSING_TIME.

#[export] Instance FloodOption_eq_dec : EqDecision FloodOption.
Proof. solve_decision. Defined.

Definition MAXCCUSERS : nat := 20.

Record FloodCounter := MkFlood { fl_count : Z; fl_t : Z; fl_blocked : Z }.

Record limits := MkLimits {
  targets : list Z;                    (** [MAXCCUSERS] bytes *)
  nexttarget : Z;
  flood : FloodOption -> FloodCounter;
  lag : Z * Z;                         (** [fake_lag], [fake_lag_msec] *)
  no_fake_lag : bool;                  (** [IsNoFakeLag] *)
  serial : Z                           (** [tags_serial] *)
}.

Definition set_targets (l : limits) (t : list Z) (next : Z) : limits :=
  MkLimits t next (flood l) (lag l) (no_fake_lag l) (serial l).

Definition set_flood (l : limits) (opt : FloodOption) (f : FloodCounter) : limits :=
  MkLimits (targets l) (nexttarget l) (fun o => if decide (o = opt) then f else flood l o)
    (lag l) (no_fake_lag l) (serial l).

Definition floodoption_shortnames (opt : FloodOption) : option cstring :=
  match opt with
  | FLD_NICK => Some (str "nick") | FLD_JOIN => Some (str "join") | FLD_AWAY => Some (str "away")
  | FLD_INVITE => Some (str "invite") | FLD_KNOCK => Some (str "knock")
  | FLD_CONVERSATIONS => Some (str "conversations") | FLD_VHOST => Some (str "vhost")
  | FLD_LAG_PENALTY | FLD_MULTILINE | FLD_MAX_PROCESSING_TIME => None
  end.

Definition INT_MAX : Z := 2 ^ 31 - 1.

Definition bump_tag_serial (l : limits) : limits :=
  MkLimits (targets l) (nexttarget l) (flood l) (lag l) (no_fake_lag l)
    (if INT_MAX <=? serial l + 1 then 0 else serial l + 1).

Definition flood_blocked_increment (opt : FloodOption) (l : limits) : limits :=
  match floodoption_shortnames opt with
  | None => l
  | Some _ =>
      let f := flood l opt in
      bump_tag_serial (if fl_blocked f <? 65535 then set_flood l opt (MkFlood (fl_count f) (fl_t f) (fl_blocked f + 1)) else l)
  end.

Definition penalty (msec : Z) (l : limits) : limits :=
  if no_fake_lag l then l
  else MkLimits (targets l) (nexttarget l) (flood l) (lag_add (lag l).1 (lag l).2 msec) (no_fake_lag l) (serial l).

(** [(unsigned char)((v >> 17) ^ (v >> 9))] *)
Definition hash_target (v : Z) : Z := Z.lxor (Z.shiftr v 17) (Z.shiftr v 9) mod 256.

(** [memmove(&targets[1], &targets[0], n); targets[0] = hash;] *)
Definition move_front (n : nat) (hash : Z) (t : list Z) : list Z := hash :: take n t ++ drop (S n) t.

(** The four ways a call ends. *)
Inductive target_result := Exempt | Known | New | TooMany.

#[export] Instance target_result_eq_dec : EqDecision target_result.
Proof. solve_decision. Defined.

Definition max_users (limit : Z) : nat := if Z.of_nat MAXCCUSERS <? limit then MAXCCUSERS else Z.to_nat limit.

Definition target_check (immune : bool) (limit period now hash : Z) (l : limits) : target_result * limits :=
  if immune then (Exempt, l)
  else if nth 0 (targets l) 0 =? hash then (Known, l)
  else if limit <=? 0 then (Exempt, l)
  else
    let users := max_users limit in
    match List.find (fun i => nth i (targets l) 0 =? hash) (seq 1 (users - 1)) with
    | Some i => (Known, set_targets l (move_front i hash (targets l)) (nexttarget l))
    | None =>
        if now <? nexttarget l then
          (TooMany, flood_blocked_increment FLD_CONVERSATIONS
                      (penalty 2000 (set_targets l (targets l) (nexttarget l + 2))))
        else
          let u := Z.of_nat users in
          let next := if nexttarget l + u * period <? now then now - (u - 1) * period else nexttarget l in
          (New, set_targets l (move_front (users - 1) hash (targets l)) (next + period))
    end.

Definition target_limit_exceeded (immune : bool) (limit period now target : Z) (l : limits) : bool * limits :=
  let '(r, l) := target_check immune limit period now (hash_target target) l in (bool_decide (r = TooMany), l).

Definition flood_limit_exceeded (my_user : bool) (opt : FloodOption) (limit period timeofday : Z) (l : limits)
  : bool * limits :=
  if negb my_user then (false, l)
  else if limit <=? 0 then (false, l)
  else
    let f := flood l opt in
    let f := if fl_t f + period <=? timeofday then MkFlood 0 timeofday (fl_blocked f) else f in
    let f := if fl_count f <=? limit then MkFlood (fl_count f + 1) (fl_t f) (fl_blocked f) else f in
    let l := set_flood l opt f in
    if limit <? fl_count f then (true, flood_blocked_increment opt l) else (false, l).

(** The settings of the first security group that matches and has a limit;
    [None] is the [abort] without an "unknown-users" block. *)
Record FloodSettings := MkFloodSettings { fs_name : cstring; fs_limit : FloodOption -> Z; fs_period : FloodOption -> Z }.

Definition find_floodsettings_block (blocks : list FloodSettings) (name : cstring) : option FloodSettings :=
  List.find (fun f => bool_decide (fs_name f = name)) blocks.

Fixpoint get_floodsettings_for_user (blocks : list FloodSettings) (groups : list (cstring * bool)) (opt : FloodOption)
  : option FloodSettings :=
  match groups with
  | [] => find_floodsettings_block blocks (str "unknown-users")
  | (name, allowed) :: groups =>
      let next := get_floodsettings_for_user blocks groups opt in
      if (allowed : bool) then
        match find_floodsettings_block blocks name with
        | Some f => if fs_limit f opt =? 0 then next else Some f
        | None => next
        end
      else next
  end.

(** ** User modes: bits and text agree *)

Lemma has_pow2 x k : 0 <= k -> has x (2 ^ k) = Z.testbit x k.
Proof.
  intros Hk. unfold has. destruct (Z.testbit x k) eqn:Hb.
  - apply negb_true_iff, Z.eqb_neq. intros H. apply (f_equal (fun z => Z.testbit z k)) in H.
    by rewrite Z.land_spec, Z.pow2_bits_true, Hb, Z.bits_0 in H.
  - apply negb_false_iff, Z.eqb_eq. apply Z.bits_inj'. intros i Hi. rewrite Z.land_spec, Z.bits_0, Z.pow2_bits_eqb by lia.
    destruct (Z.eqb_spec k i) as [->|]; [by rewrite Hb|by rewrite andb_false_r].
Qed.

Lemma has_comm x y : has x y = has y x.
Proof. unfold has. by rewrite Z.land_comm. Qed.

Lemma to_int_id z : 0 <= z < 2 ^ 31 -> to_int z = z.
Proof. intros H. unfold to_int. rewrite Z.mod_small by lia. lia. Qed.

Lemma lor_range a b : 0 <= a < 2 ^ 31 -> 0 <= b < 2 ^ 31 -> 0 <= Z.lor a b < 2 ^ 31.
Proof.
  intros Ha Hb. split; [apply Z.lor_nonneg; lia|].
  assert (Hz : Z.lor a b = Z.lor a b mod 2 ^ 31); [|rewrite Hz; by apply Z.mod_pos_bound].
  rewrite <- Z.land_ones, Z.land_lor_distr_l, !Z.land_ones, !Z.mod_small by lia. done.
Qed.

Lemma clear_range a b : 0 <= a < 2 ^ 31 -> 0 <= Z.land a (Z.lnot b) < 2 ^ 31.
Proof.
  intros Ha. assert (Hz : Z.land a (Z.lnot b) = Z.land a (Z.lnot b) mod 2 ^ 31); [|rewrite Hz; by apply Z.mod_pos_bound].
  rewrite <- Z.land_ones, <- Z.land_assoc, (Z.land_comm (Z.lnot b)), Z.land_assoc, Z.land_ones, Z.mod_small by lia. done.
Qed.

(** The effect of one mode on the bits. *)
Definition apply_mode (what : mode_what) (m : Z) (um : Umode) : Z :=
  if decide (what = MODE_ADD) then Z.lor m (um_mode um) else Z.land m (Z.lnot (um_mode um)).

Lemma set_letter_absent what c l m : c ∉ um_letter <$> l -> set_letter l what m c = m.
Proof.
  revert m. unfold set_letter. induction l as [|x l IH]; intros m Hx; [done|]. apply not_elem_of_cons in Hx as [Hx Hl].
  cbn [fold_left]. rewrite (proj2 (Z.eqb_neq _ _)) by congruence. by apply IH.
Qed.

Lemma set_letter_unique what l um m :
  NoDup (um_letter <$> l) -> um ∈ l -> set_letter l what m (um_letter um) = to_int (apply_mode what m um).
Proof.
  revert m. induction l as [|x l IH]; intros m; [by intros _ ?%elem_of_nil|]. intros [Hx Hnd]%NoDup_cons.
  unfold set_letter. cbn [fold_left]. intros [->|Hum]%elem_of_cons.
  - rewrite Z.eqb_refl. by apply set_letter_absent.
  - rewrite (proj2 (Z.eqb_neq _ _)); [by apply IH|]. intros Heq. apply Hx. rewrite Heq. by apply list_elem_of_fmap_2.
Qed.

(** The direction that is in force after a text. *)
Definition what_after (what : mode_what) (m : cstring) : mode_what :=
  fold_left (fun w c => if c =? 43 then MODE_ADD else if c =? 45 then MODE_DEL else w) m what.

Lemma usermode_loop_app l what m a b :
  usermode_loop l what m (a ++ b) = usermode_loop l (what_after what a) (usermode_loop l what m a) b.
Proof.
  revert what m. induction a as [|c a IH]; intros what m; [done|]. cbn [app usermode_loop]. unfold what_after. cbn [fold_left].
  destruct (c =? 43) eqn:?; [by rewrite IH|]. destruct (c =? 45) eqn:?; [by rewrite IH|].
  destruct (_ || _ || _ || _); by rewrite IH.
Qed.

Section umode_text.
Context (usermodes : list Umode) (Hok : umodes_ok usermodes).

Lemma mode_range um : um ∈ usermodes -> 0 <= um_mode um < 2 ^ 31.
Proof using Hok. intros Hum. destruct (uo_bit _ Hok um Hum) as (k & Hk & ->). split; [apply Z.pow_nonneg; lia|apply Z.pow_lt_mono_r; lia]. Qed.

Lemma apply_mode_range what m um : 0 <= m < 2 ^ 31 -> um ∈ usermodes -> 0 <= apply_mode what m um < 2 ^ 31.
Proof using Hok.
  intros Hm Hum. pose proof (mode_range um Hum). unfold apply_mode. case_decide; [by apply lor_range|by apply clear_range].
Qed.

(** A letter of the table, read. *)
Lemma usermode_loop_letter what m um rest :
  0 <= m < 2 ^ 31 -> um ∈ usermodes ->
  usermode_loop usermodes what m (um_letter um :: rest) = usermode_loop usermodes what (apply_mode what m um) rest.
Proof using Hok.
  intros Hm Hum. pose proof (uo_letter _ Hok um Hum) as Hl. rewrite !not_elem_of_cons in Hl.
  destruct Hl as (H1 & H2 & H3 & H4 & H5 & H6 & _). cbn [usermode_loop]. rewrite !(proj2 (Z.eqb_neq _ _)) by done.
  cbn [orb]. rewrite set_letter_unique, to_int_id; [done|by apply apply_mode_range|apply (uo_letters _ Hok)|done].
Qed.

Lemma what_after_letter what um : um ∈ usermodes -> what_after what [um_letter um] = what.
Proof using Hok.
  intros Hum. pose proof (uo_letter _ Hok um Hum) as Hl. rewrite !not_elem_of_cons in Hl.
  destruct Hl as (H1 & H2 & _). unfold what_after. cbn [fold_left]. by rewrite !(proj2 (Z.eqb_neq _ _)).
Qed.

(** A letter with its sign, and a letter in the direction that is in force. *)
Lemma usermode_loop_signed what m w um :
  0 <= m < 2 ^ 31 -> um ∈ usermodes -> w <> MODE_NULL ->
  let text := [if decide (w = MODE_ADD) then 43 else 45; um_letter um] in
  usermode_loop usermodes what m text = apply_mode w m um /\ what_after what text = w.
Proof using Hok.
  intros Hm Hum Hw text. unfold text. destruct w; [done| |]; cbn [decide]; (split; [|by apply (what_after_letter _ um)]);
    apply (usermode_loop_letter _ m um []); done.
Qed.

(** The bits of the selected modes of a table. *)
Definition bit_of (sel : Umode -> bool) (l : list Umode) (k : Z) : bool :=
  existsb (fun um => sel um && (um_mode um =? 2 ^ k)) l.

Lemma apply_mode_bit w m um k :
  um ∈ usermodes -> 0 <= k ->
  Z.testbit (apply_mode w m um) k = if um_mode um =? 2 ^ k then bool_decide (w = MODE_ADD) else Z.testbit m k.
Proof using Hok.
  intros Hum Hk. destruct (uo_bit _ Hok um Hum) as (j & Hj & Hm). unfold apply_mode. rewrite Hm.
  assert (Hjk : (2 ^ j =? 2 ^ k) = (j =? k)).
  { destruct (Z.eqb_spec j k) as [->|Hne]; [apply Z.eqb_refl|]. apply Z.eqb_neq. intros ?%Z.pow_inj_r; lia. }
  rewrite Hjk. case_decide as Hw.
  - rewrite Z.lor_spec, Z.pow2_bits_eqb, bool_decide_true by done || lia. destruct (j =? k); [apply orb_true_r|apply orb_false_r].
  - rewrite Z.land_spec, Z.lnot_spec, Z.pow2_bits_eqb, bool_decide_false by done || lia.
    destruct (j =? k); [apply andb_false_r|apply andb_true_r].
Qed.

Lemma has_mode um x k : um ∈ usermodes -> 0 <= k -> um_mode um = 2 ^ k -> has (um_mode um) x = Z.testbit x k.
Proof. intros _ Hk ->. by rewrite has_comm, has_pow2. Qed.

Section change.
Context (my_user : bool) (new old sendmask : Z) (Hold : 0 <= old < 2 ^ 31).

Definition selected (um : Umode) : bool := negb (my_user && negb (has (um_mode um) sendmask)).

(** The text so far turns [old] into a value that has the new bits of the modes seen. *)
Record change_inv (pre : list Umode) (st : mode_what * cstring) : Prop := {
  ci_what : st.1 <> MODE_NULL -> what_after MODE_ADD st.2 = st.1;
  ci_range : 0 <= usermode_loop usermodes MODE_ADD old st.2 < 2 ^ 31;
  ci_bits k : 0 <= k ->
    Z.testbit (usermode_loop usermodes MODE_ADD old st.2) k =
    if bit_of selected pre k then Z.testbit new k else Z.testbit old k
}.

(** Emitting the letter of [um] in direction [w]. *)
Lemma change_emit pre st w um :
  change_inv pre st -> um ∈ usermodes -> w <> MODE_NULL -> selected um = true ->
  (forall k, 0 <= k -> um_mode um = 2 ^ k -> Z.testbit new k = bool_decide (w = MODE_ADD)) ->
  change_inv (pre ++ [um])
    (w, st.2 ++ if decide (st.1 = w) then [um_letter um] else [if decide (w = MODE_ADD) then 43 else 45; um_letter um]).
Proof using Hok.
  intros [Hw Hr Hb] Hum Hwn Hs Hnew. set (tail := if decide _ then _ else _).
  assert (Ht : what_after MODE_ADD (st.2 ++ tail) = w /\
    usermode_loop usermodes MODE_ADD old (st.2 ++ tail) = apply_mode w (usermode_loop usermodes MODE_ADD old st.2) um).
  { rewrite usermode_loop_app. replace (what_after MODE_ADD (st.2 ++ tail)) with (what_after (what_after MODE_ADD st.2) tail)
      by (unfold what_after; by rewrite fold_left_app). unfold tail. destruct (decide (st.1 = w)) as [Heq|Hne].
    - rewrite Hw by congruence. rewrite Heq, usermode_loop_letter, what_after_letter by done. done.
    - edestruct usermode_loop_signed as [H1 H2]; [exact Hr|exact Hum|exact Hwn|]. split; [exact H2|exact H1]. }
  destruct Ht as [Ht1 Ht2]. split; cbn [fst snd]; [done|rewrite Ht2; by apply apply_mode_range|]. intros k Hk.
  rewrite Ht2, apply_mode_bit by done. unfold bit_of. rewrite existsb_app. cbn [existsb]. rewrite Hs, orb_false_r. cbn [andb].
  destruct (um_mode um =? 2 ^ k) eqn:He; [rewrite orb_true_r; symmetry; apply Hnew; [done|by apply Z.eqb_eq]|].
  rewrite orb_false_r. by apply Hb.
Qed.

(** Nothing to emit. *)
Lemma change_skip pre st um :
  change_inv pre st ->
  (selected um = true -> forall k, 0 <= k -> um_mode um = 2 ^ k -> Z.testbit new k = Z.testbit old k) ->
  change_inv (pre ++ [um]) st.
Proof.
  intros [Hw Hr Hb] Heq. split; [done..|]. intros k Hk. rewrite Hb by done. unfold bit_of. rewrite existsb_app. cbn [existsb].
  rewrite orb_false_r. destruct (existsb _ pre); [done|]. cbn [orb]. destruct (selected um) eqn:Hs; [|done]. cbn [andb].
  destruct (um_mode um =? 2 ^ k) eqn:He; [|done]. symmetry. apply Heq; [done..|by apply Z.eqb_eq].
Qed.

Lemma umode_change_step pre st um :
  change_inv pre st -> um ∈ usermodes -> change_inv (pre ++ [um]) (umode_change my_user new old sendmask st um).
Proof using Hok.
  intros Hi Hum. assert (Hbit : forall x k, 0 <= k -> um_mode um = 2 ^ k -> Z.testbit x k = has x (um_mode um)).
  { intros x k Hk ->. by rewrite has_pow2. }
  destruct st as [what m]. unfold umode_change. cbv zeta. destruct (my_user && negb (has (um_mode um) sendmask)) eqn:Hsel.
  { apply change_skip; [done|]. unfold selected. by rewrite Hsel. }
  assert (Hs : selected um = true) by (unfold selected; by rewrite Hsel). rewrite (has_comm (um_mode um) old).
  destruct (has old (um_mode um)) eqn:Ho, (has new (um_mode um)) eqn:Hn; cbn [andb negb].
  - apply change_skip; [done|]. intros _ k Hk Hm. by rewrite !Hbit, Ho, Hn.
  - pose proof (change_emit pre (what, m) MODE_DEL um Hi Hum) as H. cbn [fst snd] in H.
    case_decide as Hw; [rewrite Hw|]; apply H; try done; intros k Hk Hm; by rewrite Hbit, Hn.
  - pose proof (change_emit pre (what, m) MODE_ADD um Hi Hum) as H. cbn [fst snd] in H.
    case_decide as Hw; [rewrite Hw|]; apply H; try done; intros k Hk Hm; by rewrite Hbit, Hn.
  - apply change_skip; [done|]. intros _ k Hk Hm. by rewrite !Hbit, Ho, Hn.
Qed.

Lemma umode_change_fold l pre st :
  change_inv pre st -> (forall um, um ∈ l -> um ∈ usermodes) ->
  change_inv (pre ++ l) (fold_left (umode_change my_user new old sendmask) l st).
Proof using Hok.
  revert pre st. induction l as [|um l IH]; intros pre st Hi Hl; [by rewrite app_nil_r|].
  replace (pre ++ um :: l) with ((pre ++ [um]) ++ l) by (by rewrite <- app_assoc). cbn [fold_left].
  apply IH; [apply umode_change_step; [done|apply Hl; left]|]. intros x Hx. apply Hl. by right.
Qed.

Lemma build_umode_bits k :
  0 <= k ->
  Z.testbit (usermode_loop usermodes MODE_ADD old (build_umode_string usermodes my_user new old sendmask)) k =
  if bit_of selected usermodes k then Z.testbit new k else Z.testbit old k.
Proof using Hok Hold.
  apply (umode_change_fold usermodes [] (MODE_NULL, [])); [|done]. by split.
Qed.
End change.

(** ** The modes as a text *)

Lemma usermode_string_text u buflen l buf :
  (length buf + length l < buflen)%nat ->
  fold_left (fun buf um => if has u (um_mode um) then strlcat_letter buf (um_letter um) buflen else buf) l buf =
  buf ++ map um_letter (List.filter (fun um => has u (um_mode um)) l).
Proof.
  revert buf. induction l as [|um l IH]; intros buf Hl; [by rewrite app_nil_r|]. cbn [fold_left List.filter length] in *.
  destruct (has u (um_mode um)); [|apply IH; lia]. cbn [map].
  replace (strlcat_letter buf (um_letter um) buflen) with (buf ++ [um_letter um]).
  2:{ unfold strlcat_letter. destruct (Nat.eqb_spec buflen 0); [lia|]. by destruct (Nat.leb_spec (buflen - 1) (length buf)); [lia|]. }
  rewrite IH by (rewrite length_app; simpl; lia). by rewrite <- app_assoc.
Qed.

Lemma usermode_string_bits u l m k :
  0 <= m < 2 ^ 31 -> (forall um, um ∈ l -> um ∈ usermodes) -> 0 <= k ->
  Z.testbit (usermode_loop usermodes MODE_ADD m (map um_letter (List.filter (fun um => has u (um_mode um)) l))) k =
  Z.testbit m k || (bit_of (fun _ => true) l k && Z.testbit u k).
Proof using Hok.
  revert m. induction l as [|um l IH]; intros m Hm Hl Hk; [by rewrite orb_false_r|]. cbn [List.filter].
  assert (Hum : um ∈ usermodes) by set_solver. assert (Hl' : forall um, um ∈ l -> um ∈ usermodes) by set_solver.
  unfold bit_of. cbn [existsb andb]. fold (bit_of (fun _ => true) l k).
  assert (Hbit : (um_mode um =? 2 ^ k) = true -> Z.testbit u k = has u (um_mode um)) by (intros ->%Z.eqb_eq; by rewrite has_pow2).
  destruct (has u (um_mode um)) eqn:Hh.
  - cbn [map]. rewrite usermode_loop_letter, IH by (done || by apply apply_mode_range). rewrite apply_mode_bit by done.
    destruct (um_mode um =? 2 ^ k); cbn [orb]; [|done]. rewrite Hbit by done.
    by rewrite !andb_true_r, orb_true_r.
  - rewrite IH by done. destruct (um_mode um =? 2 ^ k); cbn [orb]; [|done]. rewrite Hbit by done. by rewrite !andb_false_r.
Qed.
End umode_text.

(** C40: User modes survive their two texts.  For a table with distinct letters and one bit
    below the sign bit per mode: [set_usermode] of the text that [get_usermode_string_raw_r] makes of
    [umodes], in a buffer large enough for every letter, is [umodes] restricted to the modes of the
    table; and the change that [build_umode_string] announces, read by the same loop on
    the old modes, has the new value of exactly the modes of the table that are selected (all of
    them for a remote user, those in [sendmask] for a local one) and the old value of every other bit. *)
Theorem usermode_texts (usermodes : list Umode) (Hok : umodes_ok usermodes) :
  (forall umodes buflen k, (1 + length usermodes < buflen)%nat -> 0 <= k ->
     Z.testbit (set_usermode usermodes (get_usermode_string_raw_r usermodes umodes buflen)) k =
     bit_of (fun _ => true) usermodes k && Z.testbit umodes k) /\
  (forall my_user umodes old sendmask k, 0 <= old < 2 ^ 31 -> 0 <= k ->
     Z.testbit (usermode_loop usermodes MODE_ADD old (build_umode_string usermodes my_user umodes old sendmask)) k =
     if bit_of (selected my_user sendmask) usermodes k then Z.testbit umodes k else Z.testbit old k).
Proof.
  split; [|intros; by apply build_umode_bits]. intros umodes buflen k Hlen Hk. unfold set_usermode, get_usermode_string_raw_r.
  rewrite strlcpy_take by lia. change (str "+") with [43]. rewrite (take_ge [43]) by (simpl; lia).
  rewrite usermode_string_text by (simpl; lia). cbn [app usermode_loop]. change (43 =? 43) with true. cbv iota.
  rewrite usermode_string_bits by done. by rewrite Z.bits_0.
Qed.

Lemma usermode_texts_witness :
  let modes := [MkUmode 1 105; MkUmode 4 119; MkUmode 2 111] in
  umodes_ok modes /\
  set_usermode modes (get_usermode_string_raw_r modes 7 128) = 7 /\
  build_umode_string modes false 6 5 0 = str "-i+o" /\
  Z.testbit (usermode_loop modes MODE_ADD 5 (build_umode_string modes false 6 5 0)) 1 = true.
Proof.
  intros modes. assert (Hok : umodes_ok modes).
  { split.
    - apply (bool_decide_unpack _). by vm_compute.
    - intros um Hum. unfold modes in Hum. rewrite !elem_of_cons, elem_of_nil in Hum.
      destruct Hum as [->|[->|[->|[]]]]; cbn [um_letter]; by apply (bool_decide_unpack _).
    - intros um Hum. unfold modes in Hum. rewrite !elem_of_cons, elem_of_nil in Hum.
      destruct Hum as [->|[->|[->|[]]]]; [exists 0|exists 2|exists 1]; split; (lia || done). }
  split; [done|]. split; [by vm_compute|]. split; [by vm_compute|].
  rewrite (proj2 (usermode_texts modes Hok) false 6 5 0 1) by lia. by vm_compute.
Defined.

(** ** Conversations *)

(** The calls of a client, as times and targets, under one setting. *)
Fixpoint target_run (limit period : Z) (calls : list (Z * Z)) (l : limits) : list target_result * limits :=
  match calls with
  | [] => ([], l)
  | (now, target) :: calls =>
      let '(r, l) := target_check false limit period now (hash_target target) l in
      let '(rs, l) := target_run limit period calls l in (r :: rs, l)
  end.

Definition count_new (rs : list target_result) : Z := Z.of_nat (length (filter (fun r => r = New) rs)).

Lemma count_new_cons r rs : count_new (r :: rs) = (if decide (r = New) then 1 else 0) + count_new rs.
Proof. unfold count_new. rewrite filter_cons. case_decide; simpl; lia. Qed.

Lemma max_users_spec limit : 0 < limit -> Z.of_nat (max_users limit) = limit `min` 20 /\ (1 <= max_users limit <= MAXCCUSERS)%nat.
Proof. intros Hl. unfold max_users, MAXCCUSERS. destruct (Z.ltb_spec (Z.of_nat 20) limit); lia. Qed.

Lemma blocked_increment_fields opt l :
  targets (flood_blocked_increment opt l) = targets l /\ nexttarget (flood_blocked_increment opt l) = nexttarget l /\
  forall o, fl_count (flood (flood_blocked_increment opt l) o) = fl_count (flood l o) /\
            fl_t (flood (flood_blocked_increment opt l) o) = fl_t (flood l o).
Proof.
  unfold flood_blocked_increment. destruct (floodoption_shortnames opt); [|done]. cbv zeta. case_match; [|done].
  split; [done|]. split; [done|]. intros o. cbn [bump_tag_serial set_flood flood]. by case_decide as Ho; [rewrite Ho|].
Qed.

Lemma penalty_fields msec l : targets (penalty msec l) = targets l /\ nexttarget (penalty msec l) = nexttarget l.
Proof. unfold penalty. by destruct (no_fake_lag l). Qed.

(** The four outcomes of a call. *)
Definition target_outcome (limit period now hash : Z) (l : limits) (r : target_result) (l' : limits) : Prop :=
  let users := Z.of_nat (max_users limit) in
  match r with
  | Exempt => limit <= 0 /\ l' = l
  | Known => hash ∈ take (max_users limit `max` 1) (targets l) /\ nexttarget l' = nexttarget l
  | New => 0 < limit /\ hash ∉ take (max_users limit) (targets l) /\ nexttarget l <= now /\
      nexttarget l' = (if nexttarget l + users * period <? now then now - (users - 1) * period else nexttarget l) + period
  | TooMany => 0 < limit /\ hash ∉ take (max_users limit) (targets l) /\ now < nexttarget l /\
      nexttarget l' = nexttarget l + 2
  end /\
  length (targets l') = MAXCCUSERS /\
  (r = Known \/ r = New -> head (targets l') = Some hash).

Lemma move_front_length n hash t : (n < length t)%nat -> length (move_front n hash t) = length t.
Proof. intros Hn. unfold move_front. cbn [length]. rewrite length_app, length_take, length_drop. lia. Qed.

Lemma nth_lookup_eq (t : list Z) i h : (i < length t)%nat -> (nth i t 0 =? h) = true <-> t !! i = Some h.
Proof.
  intros Hi. rewrite Z.eqb_eq, nth_lookup. destruct (lookup_lt_is_Some_2 t i Hi) as [x ->]. simpl. split; congruence.
Qed.

Lemma find_seq_none (P : nat -> bool) n k i : List.find P (seq n k) = None -> (n <= i < n + k)%nat -> P i = false.
Proof. intros H Hi. apply (List.find_none P _ H). apply in_seq. lia. Qed.

Lemma target_check_spec limit period now hash l :
  length (targets l) = MAXCCUSERS ->
  let '(r, l') := target_check false limit period now hash l in target_outcome limit period now hash l r l'.
Proof.
  intros Hlen. unfold target_check.
  assert (H0 : (0 < length (targets l))%nat) by (rewrite Hlen; unfold MAXCCUSERS; lia).
  destruct (nth 0 (targets l) 0 =? hash) eqn:Hh.
  { apply nth_lookup_eq in Hh; [|done]. unfold target_outcome. rewrite head_lookup, Hh. split; [|done]. split; [|done].
    apply list_elem_of_lookup. exists 0%nat. rewrite lookup_take_lt by lia. done. }
  destruct (Z.leb_spec limit 0); [unfold target_outcome; naive_solver|]. cbv zeta.
  destruct (max_users_spec limit) as [Hu1 Hu2]; [done|]. unfold target_outcome.
  destruct (List.find _ _) as [i|] eqn:Hf.
  - apply find_some in Hf as [Hi%in_seq Hn]. assert (i < length (targets l))%nat by lia. apply nth_lookup_eq in Hn; [|done].
    cbn [set_targets targets nexttarget]. rewrite move_front_length by done. split; [|done]. split; [|done].
    apply list_elem_of_lookup. exists i. rewrite lookup_take_lt by lia. done.
  - assert (Hnot : hash ∉ take (max_users limit) (targets l)).
    { rewrite list_elem_of_lookup. intros [i [Hi Hlt]%lookup_take_Some]. apply nth_lookup_eq in Hi as Hb; [|by apply lookup_lt_Some in Hi].
      destruct i as [|i]; [congruence|]. rewrite (find_seq_none _ _ _ (S i) Hf) in Hb by lia. done. }
    destruct (Z.ltb_spec now (nexttarget l)).
    + destruct (blocked_increment_fields FLD_CONVERSATIONS (penalty 2000 (set_targets l (targets l) (nexttarget l + 2)))) as (-> & -> & _).
      destruct (penalty_fields 2000 (set_targets l (targets l) (nexttarget l + 2))) as [-> ->]. cbn [set_targets targets nexttarget].
      split; [done|]. split; [done|]. intros [?|?]; discriminate.
    + cbn [set_targets targets nexttarget]. rewrite move_front_length by lia. done.
Qed.

Section window.
Context (limit period t1 : Z) (Hlimit : 0 < limit) (Hperiod : 0 <= period).

Abbreviation users := (Z.of_nat (max_users limit)).

(** One call: it does not lower [nexttarget]; a new target raises it by a period and
    leaves it within [users - 1] periods of the time. *)
Lemma target_check_next now target l r l' :
  length (targets l) = MAXCCUSERS -> target_check false limit period now (hash_target target) l = (r, l') ->
  length (targets l') = MAXCCUSERS /\ nexttarget l <= nexttarget l' /\
  (r = New -> nexttarget l <= now /\ nexttarget l + period <= nexttarget l' /\ now - (users - 1) * period <= nexttarget l').
Proof using Hlimit Hperiod.
  intros Hlen Hc. pose proof (target_check_spec limit period now (hash_target target) l Hlen) as H. rewrite Hc in H.
  destruct (max_users_spec limit Hlimit) as [_ Hu]. assert (period <= users * period) by nia.
  destruct H as (H & Hl & _). split; [done|]. destruct r.
  - destruct H as [? ->]. split; [lia|discriminate].
  - destruct H as [_ ->]. split; [lia|discriminate].
  - destruct H as (_ & _ & Hn & ->). destruct (Z.ltb_spec (nexttarget l + users * period) now); lia.
  - destruct H as (_ & _ & Hn & ->). split; [lia|discriminate].
Qed.

Lemma target_run_later calls l :
  length (targets l) = MAXCCUSERS -> (forall c, c ∈ calls -> c.1 <= t1) ->
  let '(rs, l') := target_run limit period calls l in
  length (targets l') = MAXCCUSERS /\ (count_new rs = 0 \/ count_new rs * period <= t1 - nexttarget l + period).
Proof using Hlimit Hperiod.
  revert l. induction calls as [|[now target] calls IH]; intros l Hlen Ht; [by split; [|left]|]. cbn [target_run].
  destruct (target_check _ _ _ _ _ _) as [r l1] eqn:Hc. destruct (target_check_next _ _ _ _ _ Hlen Hc) as (Hlen1 & Hmono & Hnew).
  specialize (IH l1 Hlen1 ltac:(intros; apply Ht; by right)). destruct (target_run _ _ calls l1) as [rs l2].
  destruct IH as [Hlen2 IH]. split; [done|]. rewrite count_new_cons. pose proof (Ht (now, target) ltac:(left)). cbn [fst] in *.
  case_decide as Hr; [|destruct IH; [left; lia|right; lia]]. destruct (Hnew Hr). right. destruct IH as [->|]; lia.
Qed.

Lemma target_run_window t0 calls l :
  t0 <= t1 -> length (targets l) = MAXCCUSERS -> (forall c, c ∈ calls -> t0 <= c.1 <= t1) ->
  count_new (target_run limit period calls l).1 * period <= (users + 1) * period + (t1 - t0).
Proof using Hlimit Hperiod.
  intros H01. destruct (max_users_spec limit Hlimit) as [_ Hu]. assert (period <= users * period) by nia.
  revert l. induction calls as [|[now target] calls IH]; intros l Hlen Ht; [change (count_new _) with 0; lia|]. cbn [target_run].
  destruct (target_check _ _ _ _ _ _) as [r l1] eqn:Hc. destruct (target_check_next _ _ _ _ _ Hlen Hc) as (Hlen1 & Hmono & Hnew).
  assert (Ht' : forall c, c ∈ calls -> t0 <= c.1 <= t1) by (intros; apply Ht; by right). pose proof (Ht (now, target) ltac:(left)) as Hnow.
  specialize (IH l1 Hlen1 Ht'). pose proof (target_run_later calls l1 Hlen1 (fun c Hc => proj2 (Ht' c Hc))) as Hlater.
  destruct (target_run _ _ calls l1) as [rs l2]. cbn [fst] in *. rewrite count_new_cons. case_decide as Hr; [|lia].
  destruct (Hnew Hr) as (_ & _ & Hn). destruct Hlater as [_ [->|]]; lia.
Qed.

(** A client that has been quiet may open [users] conversations at once. *)
Lemma target_run_burst now ts l :
  length (targets l) = MAXCCUSERS -> Z.of_nat (length ts) <= users ->
  nexttarget l <= now - (Z.of_nat (length ts) - 1) * period ->
  TooMany ∉ (target_run limit period (map (pair now) ts) l).1.
Proof using Hlimit Hperiod.
  revert l. induction ts as [|t ts IH]; intros l Hlen Hn Hnext; [by intros ?%elem_of_nil|]. cbn [map target_run length] in *.
  pose proof (target_check_spec limit period now (hash_target t) l Hlen) as H.
  destruct (target_check _ _ _ _ _ _) as [r l1] eqn:Hc. destruct H as (H & Hl & _). cbv zeta in H.
  destruct (target_run _ _ _ l1) as [rs l2] eqn:Hr. cbn [fst].
  assert (period * Z.of_nat (length ts) <= users * period - period) by nia. assert (0 <= period * Z.of_nat (length ts)) by nia.
  assert (Hrs : nexttarget l1 <= now - (Z.of_nat (length ts) - 1) * period -> TooMany ∉ rs).
  { intros Hl1. specialize (IH l1 Hl ltac:(lia) Hl1). by rewrite Hr in IH. }
  rewrite not_elem_of_cons. destruct r.
  - split; [done|]. apply Hrs. destruct H as [? ->]. lia.
  - split; [done|]. apply Hrs. destruct H as [? ->]. lia.
  - split; [done|]. apply Hrs. destruct H as (_ & _ & _ & ->). destruct (Z.ltb_spec (nexttarget l + users * period) now); lia.
  - destruct H as (_ & _ & H & _). lia.
Qed.
End window.

(** C36: the limit on conversations.  In a table of [MAXCCUSERS] hashes every call ends as
    [target_outcome] says: a hash among the first [users] is accepted and moved to the front, a new one is
    refused exactly when it comes before [nexttarget], and the table keeps its size.  Whatever the
    calls between [t0] and [t1], at most [users + 1] new targets plus one per period are accepted;
    and a client whose [nexttarget] lies [n - 1] periods back gets [n] new targets, up to [users],
    at once. *)
Theorem conversations_bounded (limit period : Z) (l : limits)
  (Hlimit : 0 < limit) (Hperiod : 0 <= period) (Hlen : length (targets l) = MAXCCUSERS) :
  let users := limit `min` 20 in
  (forall now hash, let '(r, l') := target_check false limit period now hash l in target_outcome limit period now hash l r l') /\
  (forall t0 t1 calls, t0 <= t1 -> (forall c, c ∈ calls -> t0 <= c.1 <= t1) ->
     count_new (target_run limit period calls l).1 * period <= (users + 1) * period + (t1 - t0)) /\
  (forall now ts, Z.of_nat (length ts) <= users -> nexttarget l <= now - (Z.of_nat (length ts) - 1) * period ->
     TooMany ∉ (target_run limit period (map (pair now) ts) l).1).
Proof.
  intros users. destruct (max_users_spec limit Hlimit) as [Hu _]. fold users in Hu. rewrite <- Hu. split; [|split].
  - intros. by apply target_check_spec.
  - intros. by apply target_run_window.
  - intros. by apply target_run_burst.
Qed.

Lemma conversations_bounded_witness :
  let l := MkLimits (repeat 0 20) 0 (fun _ => MkFlood 0 0 0) (0, 0) false 0 in
  let '(rs, _) := target_run 3 15 [(1000, 512); (1000, 1024); (1000, 1536); (1000, 2048); (1015, 1024)] l in
  rs = [New; New; New; TooMany; Known] /\ count_new rs * 15 <= (3 + 1) * 15 + (1015 - 1000).
Proof.
  set (l := MkLimits (repeat 0 20) 0 _ _ _ _). cbv zeta.
  pose proof (conversations_bounded 3 15 l ltac:(lia) ltac:(lia) eq_refl) as (_ & H & _).
  specialize (H 1000 1015 [(1000, 512); (1000, 1024); (1000, 1536); (1000, 2048); (1015, 1024)] ltac:(lia)).
  destruct (target_run _ _ _ l) as [rs l'] eqn:Hr. split; [vm_compute in Hr; congruence|]. apply H.
  intros c Hc. rewrite !elem_of_cons, elem_of_nil in Hc. destruct Hc as [->|[->|[->|[->|[->|[]]]]]]; cbn [fst]; lia.
Defined.

(** ** Flood counters *)

Fixpoint flood_run (opt : FloodOption) (limit period : Z) (times : list Z) (l : limits) : list bool * limits :=
  match times with
  | [] => ([], l)
  | now :: times =>
      let '(r, l) := flood_limit_exceeded true opt limit period now l in
      let '(rs, l) := flood_run opt limit period times l in (r :: rs, l)
  end.

(** The calls that were not refused. *)
Definition accepted (rs : list bool) : Z := Z.of_nat (length (filter (fun r => r = false) rs)).

Lemma accepted_cons r rs : accepted (r :: rs) = (if r then 0 else 1) + accepted rs.
Proof. unfold accepted. rewrite filter_cons. destruct r; case_decide; simpl; (lia || done). Qed.

Lemma accepted_nonneg rs : 0 <= accepted rs.
Proof. unfold accepted. lia. Qed.

Section flood_window.
Context (opt : FloodOption) (limit period : Z) (Hlimit : 0 < limit).

Abbreviation count_of l := (fl_count (flood l opt)).
Abbreviation start_of l := (fl_t (flood l opt)).

(** One call, on the counter after a possible reset. *)
Lemma flood_step now l :
  let '(r, l') := flood_limit_exceeded true opt limit period now l in
  let expired := start_of l + period <=? now in
  let count := if expired then 0 else count_of l in
  r = (limit <=? count) /\ count_of l' = (if count <=? limit then count + 1 else count) /\
  start_of l' = (if expired then now else start_of l).
Proof using Hlimit.
  unfold flood_limit_exceeded. cbn [negb]. destruct (Z.leb_spec limit 0); [lia|]. cbv zeta.
  set (f := if fl_t (flood l opt) + period <=? now then _ else _).
  assert (Hf : fl_count f = (if start_of l + period <=? now then 0 else count_of l) /\
               fl_t f = (if start_of l + period <=? now then now else start_of l)) by (unfold f; by destruct (_ <=? now)).
  destruct Hf as [Hf1 Hf2]. rewrite <- Hf1, <- Hf2. set (g := if fl_count f <=? limit then _ else _).
  assert (Hg : fl_count g = (if fl_count f <=? limit then fl_count f + 1 else fl_count f) /\ fl_t g = fl_t f) by (unfold g; by destruct (_ <=? limit)).
  destruct Hg as [Hg1 Hg2]. assert (Hset : flood (set_flood l opt g) opt = g) by (cbn [set_flood flood]; by rewrite decide_True).
  rewrite <- Hg1, <- Hg2. destruct (Z.ltb_spec limit (fl_count g)).
  - destruct (blocked_increment_fields opt (set_flood l opt g)) as (_ & _ & Hb). destruct (Hb opt) as [-> ->]. rewrite Hset.
    split; [|done]. symmetry. apply Z.leb_le. destruct (Z.leb_spec (fl_count f) limit); lia.
  - rewrite Hset. split; [|done]. symmetry. apply Z.leb_gt. destruct (Z.leb_spec (fl_count f) limit); lia.
Qed.

(** Without a reset the calls up to the limit are accepted. *)
Lemma flood_run_same times l :
  (forall t, t ∈ times -> t < start_of l + period) ->
  accepted (flood_run opt limit period times l).1 = Z.of_nat (length times) `min` (0 `max` (limit - count_of l)).
Proof using Hlimit.
  revert l. induction times as [|now times IH]; intros l Ht; [change (accepted _) with 0; simpl; lia|]. cbn [flood_run length].
  pose proof (flood_step now l) as H. destruct (flood_limit_exceeded _ _ _ _ _ _) as [r l1]. cbv zeta in H.
  pose proof (Ht now ltac:(left)). destruct (Z.leb_spec (start_of l + period) now); [lia|]. destruct H as (-> & Hc & Hs).
  specialize (IH l1). rewrite Hs, Hc in IH. specialize (IH ltac:(intros; apply Ht; by right)).
  destruct (flood_run _ _ _ times l1) as [rs l2]. cbn [fst] in *. rewrite accepted_cons, IH.
  destruct (Z.leb_spec limit (count_of l)), (Z.leb_spec (count_of l) limit); lia.
Qed.

(** Within one period there is at most one reset. *)
Lemma flood_run_window t0 times l :
  (forall t, t ∈ times -> t0 <= t < t0 + period) ->
  accepted (flood_run opt limit period times l).1 <= 0 `max` (limit - count_of l) + limit.
Proof using Hlimit.
  revert l. induction times as [|now times IH]; intros l Ht; [change (accepted _) with 0; lia|]. cbn [flood_run].
  assert (Ht' : forall t, t ∈ times -> t0 <= t < t0 + period) by (intros; apply Ht; by right).
  pose proof (flood_step now l) as H. destruct (flood_limit_exceeded _ _ _ _ _ _) as [r l1]. cbv zeta in H.
  specialize (IH l1 Ht'). pose proof (flood_run_same times l1) as Hsame. pose proof (Ht now ltac:(left)).
  destruct (flood_run _ _ _ times l1) as [rs l2]. cbn [fst] in *. rewrite accepted_cons.
  destruct (Z.leb_spec (start_of l + period) now); destruct H as (-> & Hc & Hs).
  - rewrite Hs, Hc in Hsame. rewrite Hsame by (intros t Hx; specialize (Ht' t Hx); lia).
    destruct (Z.leb_spec limit 0), (Z.leb_spec 0 limit); lia.
  - rewrite Hc in IH. destruct (Z.leb_spec limit (count_of l)), (Z.leb_spec (count_of l) limit); lia.
Qed.
End flood_window.

(** C37: an anti-flood limit of [limit] per [period].  When the counter has run out, of the calls in
    the period that starts with the next one exactly the first [limit] are accepted; and in any period
    whatsoever at most twice the limit, whatever the counter was.  Without a limit nothing
    is refused. *)
Theorem flood_limit_window (opt : FloodOption) (limit period : Z) (l : limits) (Hcount : 0 <= fl_count (flood l opt)) :
  (limit <= 0 -> forall times, true ∉ (flood_run opt limit period times l).1) /\
  (0 < limit -> forall now times, fl_t (flood l opt) + period <= now -> (forall t, t ∈ times -> now <= t < now + period) ->
     accepted (flood_run opt limit period (now :: times) l).1 = Z.of_nat (length (now :: times)) `min` limit) /\
  (0 < limit -> forall t0 times, (forall t, t ∈ times -> t0 <= t < t0 + period) ->
     accepted (flood_run opt limit period times l).1 <= 2 * limit).
Proof.
  split; [|split].
  - intros Hl times. clear Hcount. revert l. induction times as [|t times IH]; intros l; [by intros ?%elem_of_nil|]. cbn [flood_run].
    unfold flood_limit_exceeded. cbn [negb]. destruct (Z.leb_spec limit 0); [|lia]. specialize (IH l).
    destruct (flood_run _ _ _ times l). cbn [fst] in *. by rewrite not_elem_of_cons.
  - intros Hl now times Hexp Ht. cbn [flood_run length]. pose proof (flood_step opt limit period Hl now l) as H.
    destruct (flood_limit_exceeded _ _ _ _ _ _) as [r l1]. cbv zeta in H. destruct (Z.leb_spec (fl_t (flood l opt) + period) now); [|lia].
    destruct H as (-> & Hc & Hs). pose proof (flood_run_same opt limit period Hl times l1) as Hsame. rewrite Hs, Hc in Hsame.
    specialize (Hsame ltac:(intros; by apply Ht)). destruct (flood_run _ _ _ times l1). cbn [fst] in *. rewrite accepted_cons, Hsame.
    destruct (Z.leb_spec limit 0), (Z.leb_spec 0 limit); lia.
  - intros Hl t0 times Ht. pose proof (flood_run_window opt limit period Hl t0 times l Ht). lia.
Qed.

Lemma flood_limit_window_witness :
  let l := MkLimits (repeat 0 20) 0 (fun _ => MkFlood 1 100 0) (0, 0) false 0 in
  let '(rs, l') := flood_run FLD_AWAY 2 60 [150; 160; 170; 200] l in
  rs = [false; false; false; true] /\ accepted rs <= 2 * 2 /\ fl_blocked (flood l' FLD_AWAY) = 1.
Proof.
  set (l := MkLimits _ _ _ _ _ _). cbv zeta.
  pose proof (flood_limit_window FLD_AWAY 2 60 l ltac:(simpl; lia)) as (_ & _ & H).
  specialize (H ltac:(lia) 150 [150; 160; 170; 200]).
  destruct (flood_run _ _ _ _ l) as [rs l'] eqn:Hr. split; [vm_compute in Hr; congruence|]. split.
  - apply H. intros c Hc. rewrite !elem_of_cons, elem_of_nil in Hc. destruct Hc as [->|[->|[->|[->|[]]]]]; lia.
  - replace l' with (flood_run FLD_AWAY 2 60 [150; 160; 170; 200] l).2 by (by rewrite Hr). by vm_compute.
Defined.
