(* ===== verification/Names.v ===== *)
(** * Names and tables (src/user.c, src/serv.c, src/misc.c)

    The number of targets a command accepts, the syntax of UIDs, SIDs, host and user names, the
    choice of a UID, and the encoding of spaces in spamfilter reasons. *)
From Stdlib Require Import Sorted.
From S2P Require Import Prelude Chars Strings Crule CruleFuncs.

(** ** Targets per command *)

Record MaxTarget := MkMaxTarget { mt_cmd : cstring; mt_limit : Z }.

(** [strcmp(a, b) < 0] *)
Fixpoint strcmp_lt (a b : cstring) : bool :=
  match a, b with
  | _, [] => false
  | [], _ :: _ => true
  | c :: a, d :: b => if c =? d then strcmp_lt a b else c <? d
  end.

Fixpoint maxtarget_add_sorted (n : MaxTarget) (l : list MaxTarget) : list MaxTarget :=
  match l with
  | [] => [n]
  | e :: l => if strcmp_lt (mt_cmd n) (mt_cmd e) then n :: e :: l else e :: maxtarget_add_sorted n l
  end.

Definition same_cmd (a b : cstring) : bool := strcasecmp a b =? 0.

Definition findmaxtarget (l : list MaxTarget) (cmd : cstring) : option MaxTarget :=
  List.find (fun m => same_cmd (mt_cmd m) cmd) l.

(** [m->limit = limit] for the entry that [findmaxtarget] returned. *)
Fixpoint set_limit (cmd : cstring) (limit : Z) (l : list MaxTarget) : list MaxTarget :=
  match l with
  | [] => []
  | m :: l => if same_cmd (mt_cmd m) cmd then MkMaxTarget (mt_cmd m) limit :: l else m :: set_limit cmd limit l
  end.

Definition setmaxtargets (l : list MaxTarget) (cmd : cstring) (limit : Z) : list MaxTarget :=
  match findmaxtarget l cmd with
  | Some _ => set_limit cmd limit l
  | None => maxtarget_add_sorted (MkMaxTarget (strtoupper (fst (strlcpy [] cmd 64))) limit) l
  end.

Definition max_targets_for_command (l : list MaxTarget) (cmd : cstring) : Z :=
  match findmaxtarget l cmd with Some m => mt_limit m | None => 1 end.

Definition MAXTARGETS_MAX : Z := 1000000.

Definition set_targmax_defaults : list MaxTarget :=
  fold_left (fun l '(cmd, limit) => setmaxtargets l cmd limit)
    [(str "PRIVMSG", 4); (str "NOTICE", 1); (str "TAGMSG", 1); (str "NAMES", 1); (str "WHOIS", 1);
     (str "WHOWAS", 1); (str "KICK", 4); (str "LIST", MAXTARGETS_MAX); (str "JOIN", MAXTARGETS_MAX);
     (str "PART", MAXTARGETS_MAX); (str "SAJOIN", MAXTARGETS_MAX); (str "SAPART", MAXTARGETS_MAX);
     (str "KILL", MAXTARGETS_MAX); (str "DCCALLOW", MAXTARGETS_MAX); (str "USERHOST", MAXTARGETS_MAX);
     (str "USERIP", MAXTARGETS_MAX); (str "ISON", MAXTARGETS_MAX); (str "WATCH", MAXTARGETS_MAX)] [].

(** ** Names *)

Definition HOSTLEN : nat := 63.
Definition USERLEN : nat := 10.
Definition IDLEN : nat := 12.

(** [strchr(s, c)] on a byte that is not NUL. *)
Definition in_set (s : cstring) (c : Z) : bool := existsb (Z.eqb c) s.

Definition valid_host (host : cstring) (strict : bool) : bool :=
  match host with
  | [] => false
  | _ =>
      if (HOSTLEN <? length host)%nat then false
      else forallb (fun c => isalnum c || in_set (if strict then str "_-." else str "_-.:/") c) host
  end.

Definition valid_username (username : cstring) : bool :=
  if (USERLEN <? length username)%nat then false
  else
    match username with
    | c :: rest => ((c =? 126) || isallowed c) && forallb isallowed rest
    | [] => true
    end.

(** The first '@' of the copy cuts it; the host is checked in the copy or, without
    an '@', in the original. *)
Fixpoint cut_at (c : Z) (s : cstring) : option (cstring * cstring) :=
  match s with
  | [] => None
  | d :: s => if d =? c then Some ([], s) else '(a, b) ← cut_at c s; Some (d :: a, b)
  end.

Definition valid_vhost (userhost : cstring) : bool :=
  let uhost := fst (strlcpy [] userhost 512) in
  match cut_at 64 uhost with
  | Some (user, host) => valid_username user && valid_host host false
  | None => valid_host userhost false
  end.

Definition potentially_valid_vhost (userhost : cstring) : bool :=
  valid_vhost (map (fun c => if c =? 36 then 95 else c) (fst (strlcpy [] userhost 512))).

Definition valid_server_name (name : cstring) : bool := valid_host name false && in_set name 46.

Definition digit_or_upper (c : Z) : bool := isdigit c || isupper c.

Definition valid_sid (name : cstring) : bool :=
  match name with
  | [a; b; c] => isdigit a && digit_or_upper b && digit_or_upper c
  | _ => false
  end.

Definition valid_uid (name : cstring) : bool :=
  if (length name <? 6)%nat then false
  else if (IDLEN <? length name)%nat then false
  else isdigit (hd 0 name) && forallb digit_or_upper (tl name).

Definition uid_int_to_char (v : Z) : Z := if v <? 10 then 48 + v else 65 + v - 10.

(** The candidate for four random bytes: [snprintf] into [IDLEN + 1] bytes. *)
Definition uid_candidate (sid : cstring) (counter : Z) (rnd : list Z) : cstring :=
  take IDLEN (sid ++ map (fun r => uid_int_to_char (r mod 36)) (take 4 rnd) ++
              [uid_int_to_char (counter / 36); uid_int_to_char (counter mod 36)]).

(** The loop of [uid_get]: [random n] are the four bytes of the [n]-th attempt, [used] is
    [find_client]. *)
Fixpoint uid_loop (sid : cstring) (counter : Z) (random : nat -> list Z) (used : cstring -> bool) (fuel n : nat)
  : option cstring :=
  match fuel with
  | O => None
  | S fuel =>
      let uid := uid_candidate sid counter (random n) in
      if used uid then uid_loop sid counter random used fuel (S n) else Some uid
  end.

Definition next_uidcounter (counter : Z) : Z := if counter + 1 =? 36 * 36 then 0 else counter + 1.

Definition uid_get (sid : cstring) (counter : Z) (random : nat -> list Z) (used : cstring -> bool) (fuel : nat)
  : option cstring * Z :=
  let counter := next_uidcounter counter in (uid_loop sid counter random used fuel 0, counter).

(** ** Spaces in reasons *)

(** The loops: [room] bytes are left before the check on the buffer stops them. *)
Fixpoint decodespace (room : nat) (s : cstring) : cstring :=
  match room, s with
  | S room, c :: s =>
      if c =? 95 then
        match s with
        | d :: s' => if d =? 95 then 95 :: decodespace room s' else 32 :: decodespace room s
        | [] => [32]
        end
      else c :: decodespace room s
  | _, _ => []
  end.

Definition unreal_decodespace (s : cstring) : cstring := decodespace 510 s.

(** An underscore takes two bytes, the second one even at the limit. *)
Fixpoint encodespace (room : nat) (s : cstring) : cstring :=
  match room, s with
  | S room, c :: s =>
      if c =? 32 then 95 :: encodespace room s
      else if c =? 95 then 95 :: 95 :: encodespace (room - 1) s
      else c :: encodespace room s
  | _, _ => []
  end.

Definition unreal_encodespace (s : option cstring) : option cstring := encodespace 509 <$> s.


(** ** UIDs *)

Lemma uid_char_ok v : 0 <= v < 36 -> digit_or_upper (uid_int_to_char v) = true.
Proof.
  intros Hv. assert (Hall : forallb (fun v => digit_or_upper (uid_int_to_char v)) (Z.of_nat <$> seq 0 36) = true) by (by vm_compute).
  apply (proj1 (forallb_forall _ _) Hall). apply list_elem_of_In, list_elem_of_fmap. exists (Z.to_nat v).
  rewrite elem_of_seq. lia.
Qed.

Lemma uid_candidate_valid sid counter rnd :
  valid_sid sid = true -> 0 <= counter < 36 * 36 -> (4 <= length rnd)%nat ->
  valid_uid (uid_candidate sid counter rnd) = true /\ length (uid_candidate sid counter rnd) = 9%nat /\
  take 3 (uid_candidate sid counter rnd) = sid.
Proof.
  intros Hsid Hc Hr. destruct sid as [|a [|b [|c [|]]]]; try done. destruct rnd as [|r1 [|r2 [|r3 [|r4 rnd]]]]; simpl in Hr; try lia.
  replace (uid_candidate _ _ _) with ([a; b; c] ++ map uid_int_to_char [r1 mod 36; r2 mod 36; r3 mod 36; r4 mod 36; counter / 36; counter mod 36])
    by (unfold uid_candidate; by destruct rnd).
  split; [|done]. unfold valid_sid in Hsid. rewrite !andb_true_iff in Hsid. destruct Hsid as [[Ha Hb] Hc'].
  change (isdigit a && (digit_or_upper b && (digit_or_upper c && forallb digit_or_upper (map uid_int_to_char
    [r1 mod 36; r2 mod 36; r3 mod 36; r4 mod 36; counter / 36; counter mod 36]))) = true).
  rewrite Ha, Hb, Hc'. cbn [map forallb andb].
  rewrite (uid_char_ok (counter / 36)) by (split; [apply Z.div_pos; lia|apply Z.div_lt_upper_bound; lia]).
  by rewrite !uid_char_ok by (apply Z.mod_pos_bound; lia).
Qed.

(** The loop returns the first candidate that is not in use. *)
Lemma uid_loop_first sid counter random used fuel n k :
  (n <= k < n + fuel)%nat -> used (uid_candidate sid counter (random k)) = false ->
  exists j, (n <= j <= k)%nat /\ uid_loop sid counter random used fuel n = Some (uid_candidate sid counter (random j)) /\
    used (uid_candidate sid counter (random j)) = false.
Proof.
  revert n. induction fuel as [|fuel IH]; intros n Hk Hfree; [lia|]. cbn [uid_loop].
  destruct (used (uid_candidate sid counter (random n))) eqn:Hu; [|exists n; split; [lia|done]].
  destruct (decide (k = n)) as [->|Hne]; [congruence|]. destruct (IH (S n)) as (j & Hj & H); [lia|done|]. exists j. split; [lia|done].
Qed.

(** [uid_get] returns a UID.  When one of the first [fuel] draws is not in use, the loop ends with
    a name that is not in use, starts with the SID of the server and has the syntax that [valid_uid]
    asks for, so that it is not cut; the counter stays below [36 * 36] and differs from one call to the next. *)
Theorem uid_get_correct (sid : cstring) (counter : Z) (random : nat -> list Z) (used : cstring -> bool) (fuel k : nat)
  (Hsid : valid_sid sid = true) (Hcounter : 0 <= counter < 36 * 36) (Hrandom : forall n, (4 <= length (random n))%nat)
  (Hk : (k < fuel)%nat) (Hfree : used (uid_candidate sid (next_uidcounter counter) (random k)) = false) :
  let '(result, counter') := uid_get sid counter random used fuel in
  0 <= counter' < 36 * 36 /\ counter' <> counter /\
  exists uid, result = Some uid /\ used uid = false /\ valid_uid uid = true /\ length uid = 9%nat /\ take 3 uid = sid.
Proof.
  unfold uid_get. cbv zeta. assert (Hc : 0 <= next_uidcounter counter < 36 * 36 /\ next_uidcounter counter <> counter).
  { unfold next_uidcounter. destruct (Z.eqb_spec (counter + 1) (36 * 36)); lia. }
  destruct Hc as [Hc Hne]. split; [done|]. split; [done|].
  destruct (uid_loop_first sid (next_uidcounter counter) random used fuel 0 k) as (j & _ & Hj & Hu); [lia|done|].
  eexists. split; [exact Hj|]. split; [done|]. apply uid_candidate_valid; [done..|apply Hrandom].
Qed.

Lemma uid_get_correct_witness :
  let random n := [Z.of_nat n; 10; 35; 255] in
  let used u := bool_decide (u = str "0010AZ302") in
  let '(result, counter) := uid_get (str "001") 1 random used 2 in
  result = Some (str "0011AZ302") /\ exists uid, result = Some uid /\ valid_uid uid = true.
Proof.
  intros random used.
  pose proof (uid_get_correct (str "001") 1 random used 2 1 ltac:(by vm_compute) ltac:(lia) ltac:(intros; simpl; lia)
    ltac:(lia) ltac:(by vm_compute)) as H.
  destruct (uid_get _ _ _ _ _) as [result counter] eqn:Hu. split; [vm_compute in Hu; by injection Hu as <- <-|].
  destruct H as (_ & _ & uid & H1 & _ & H2 & _). by exists uid.
Defined.

(** ** Spaces *)

(** No space is followed by a space or an underscore. *)
Fixpoint spaces_ok (s : cstring) : bool :=
  match s with
  | c :: s => negb ((c =? 32) && ((hd 0 s =? 32) || (hd 0 s =? 95))) && spaces_ok s
  | [] => true
  end.

(** The size of the encoding. *)
Definition encoded_size (s : cstring) : nat := sum_list_with (fun c => if c =? 95 then 2%nat else 1%nat) s.

(** The encoding is cut once the buffer has fewer than two bytes left; [encode] is the whole of it. *)
Definition encode (s : cstring) : cstring := flat_map (fun c => if c =? 32 then [95] else if c =? 95 then [95; 95] else [c]) s.

Lemma encodespace_whole s room : (encoded_size s <= room)%nat -> encodespace room s = encode s.
Proof.
  revert room. induction s as [|c s IH]; intros room Hr; [by destruct room|]. unfold encoded_size in Hr. cbn [sum_list_with] in Hr.
  fold (encoded_size s) in Hr. destruct room as [|room]; [destruct (c =? 95); lia|]. cbn [encodespace encode flat_map].
  destruct (Z.eqb_spec c 95) as [->|Hne]; cbn [Z.eqb Pos.eqb].
  - cbn [app]. do 2 f_equal. apply IH. lia.
  - destruct (c =? 32); cbn [app]; f_equal; apply IH; lia.
Qed.

Lemma encode_hd s : hd 0 (encode s) = if hd 0 s =? 32 then 95 else hd 0 s.
Proof. destruct s as [|c s]; [done|]. cbn [encode flat_map hd]. destruct (c =? 32); [done|]. by destruct (Z.eqb_spec c 95) as [->|]. Qed.

Lemma decode_encode s room : (length s <= room)%nat -> spaces_ok s = true -> decodespace room (encode s) = s.
Proof.
  revert room. induction s as [|c s IH]; intros room Hr Hok; [by destruct room|]. cbn [length] in Hr. destruct room as [|room]; [lia|].
  cbn [spaces_ok] in Hok. apply andb_true_iff in Hok as [Hc Hok]. cbn [encode flat_map]. fold (encode s).
  specialize (IH room ltac:(lia) Hok). destruct (Z.eqb_spec c 32) as [->|Hne].
  - pose proof (encode_hd s) as Hh. cbn [app decodespace]. cbn [Z.eqb Pos.eqb andb] in Hc |- *.
    apply negb_true_iff, orb_false_iff in Hc as [H32 H95]. rewrite H32 in Hh. rewrite <- Hh in H95.
    destruct (encode s) as [|d e] eqn:He; [destruct s as [|x s]; [done|]; cbn [encode flat_map] in He; by destruct (x =? 32), (x =? 95)|].
    cbn [hd] in H95. rewrite H95. by rewrite IH.
  - destruct (Z.eqb_spec c 95) as [->|]; cbn [app decodespace Z.eqb Pos.eqb]; [by rewrite IH|].
    rewrite (proj2 (Z.eqb_neq c 95)) by done. by rewrite IH.
Qed.

(** Where the condition fails, the first pair of blanks is read back as an underscore. *)
Lemma decode_encode_only s room : (length s <= room)%nat -> decodespace room (encode s) = s -> spaces_ok s = true.
Proof.
  revert room. induction s as [|c s IH]; intros room Hr Heq; [done|]. cbn [length] in Hr. destruct room as [|room]; [lia|].
  cbn [spaces_ok]. cbn [encode flat_map] in Heq. fold (encode s) in Heq. destruct (Z.eqb_spec c 32) as [->|Hne].
  - pose proof (encode_hd s) as Hh. cbn [app decodespace Z.eqb Pos.eqb] in Heq. destruct (encode s) as [|d e] eqn:He.
    { cbn [hd] in Hh. destruct s; [done|]. discriminate. }
    cbn [hd] in Hh. destruct (Z.eqb_spec d 95) as [Hd|Hd]; [discriminate|]. injection Heq as Heq.
    rewrite (IH room) by (lia || by rewrite ?He). rewrite andb_true_r. change (32 =? 32) with true. cbn [andb].
    destruct (Z.eqb_spec (hd 0 s) 32); [congruence|]. cbn [orb]. rewrite (proj2 (Z.eqb_neq _ _)) by congruence. done.
  - cbn [andb negb]. apply (IH room); [lia|].
    destruct (Z.eqb_spec c 95) as [->|]; cbn [app decodespace Z.eqb Pos.eqb] in Heq; [by injection Heq|].
    rewrite (proj2 (Z.eqb_neq c 95)) in Heq by done. by injection Heq.
Qed.

(** Spaces in a spamfilter reason.  A reason whose encoding fits the buffer comes back from
    [unreal_decodespace] of [unreal_encodespace] exactly when no space in it is followed by another space
    or by an underscore. *)
Theorem space_roundtrip (s : cstring) (Hsize : (encoded_size s <= 509)%nat) :
  exists e, unreal_encodespace (Some s) = Some e /\ (unreal_decodespace e = s <-> spaces_ok s = true).
Proof.
  exists (encode s). unfold unreal_encodespace, unreal_decodespace. cbn [fmap option_fmap option_map].
  rewrite encodespace_whole by done. split; [done|]. assert (length s <= 510)%nat.
  { assert (Hl : (length s <= encoded_size s)%nat); [|lia]. clear. induction s as [|c s IH]; [done|].
    unfold encoded_size. cbn [length sum_list_with]. fold (encoded_size s). destruct (c =? 95); lia. }
  split; [by apply decode_encode_only|by apply decode_encode].
Qed.

Lemma space_roundtrip_witness :
  (exists e, unreal_encodespace (Some (str "no_spam, please")) = Some e /\ unreal_decodespace e = str "no_spam, please") /\
  unreal_decodespace (encodespace 509 (str "two  spaces")) = str "two_spaces".
Proof.
  split; [|by vm_compute]. destruct (space_roundtrip (str "no_spam, please")) as (e & He & H); [by apply Nat.leb_le|].
  exists e. split; [done|]. apply H. by vm_compute.
Defined.

(** ** Targets per command *)

Lemma ascii_lower_pos c : byte_ok c -> ascii_lower c <> 0.
Proof. unfold byte_ok, ascii_lower. intros Hc. destruct (_ && _) eqn:E; [apply andb_true_iff in E as [?%Z.leb_le _]|]; lia. Qed.

Lemma same_cmd_spec a b : cstr a -> cstr b -> same_cmd a b = true <-> same_name a b.
Proof.
  unfold same_cmd. rewrite Z.eqb_eq. revert b.
  induction a as [|c a IH]; intros [|d b] Ha Hb; rewrite ?cstr_cons in *; cbn [strcasecmp].
  - done.
  - destruct Hb as [Hd _]. pose proof (ascii_lower_pos d Hd). split; [lia|intros ?%same_name_length; done].
  - destruct Ha as [Hc _]. pose proof (ascii_lower_pos c Hc). split; [lia|intros ?%same_name_length; done].
  - destruct Ha as [Hc Ha], Hb as [Hd Hb]. rewrite same_name_cons. unfold byte_ok in Hc, Hd. rewrite !tolower_ascii by lia.
    cbv zeta. destruct (Z.eqb_spec (ascii_lower c - ascii_lower d) 0); [rewrite IH by done; intuition lia|intuition lia].
Qed.

Lemma toupper_lower c : byte_ok c -> byte_ok (toupper c) /\ tolower (toupper c) = tolower c /\ toupper (toupper c) = toupper c.
Proof.
  unfold byte_ok. intros Hc. assert (Hu : 97 <= c <= 122 /\ toupper c = c - 32 \/ ~ 97 <= c <= 122 /\ toupper c = c).
  { rewrite toupper_ascii by lia. unfold ascii_upper. destruct (Z.leb_spec 97 c), (Z.leb_spec c 122); simpl; lia. }
  split; [lia|]. rewrite !tolower_ascii, (toupper_ascii (toupper c)) by lia. unfold ascii_lower, ascii_upper.
  repeat match goal with |- context [?a <=? ?b] => destruct (Z.leb_spec a b) end; simpl; lia.
Qed.

Lemma strtoupper_same s : cstr s -> cstr (strtoupper s) /\ same_name (strtoupper s) s /\ strtoupper (strtoupper s) = strtoupper s.
Proof.
  induction s as [|c s IH]; [done|]. rewrite cstr_cons. intros [Hc Hs]. destruct (toupper_lower c Hc) as (H1 & H2 & H3).
  destruct (IH Hs) as (H4 & H5 & H6). unfold strtoupper in *. cbn [map]. rewrite cstr_cons, same_name_cons, H3, H6. done.
Qed.

(** [strcmp] orders strings. *)
Lemma strcmp_lt_trans a b c : strcmp_lt a b = true -> strcmp_lt b c = true -> strcmp_lt a c = true.
Proof.
  revert b c. induction a as [|x a IH]; intros [|y b] [|z c]; try done. cbn [strcmp_lt].
  destruct (Z.eqb_spec x y) as [->|Hxy], (Z.eqb_spec y z) as [->|Hyz]; [apply IH| |destruct (Z.eqb_spec x z); [done..]|].
  - by intros _ ->.
  - intros ?%Z.ltb_lt ?%Z.ltb_lt. destruct (Z.eqb_spec x z); [lia|]. apply Z.ltb_lt. lia.
Qed.

Lemma strcmp_lt_total a b : strcmp_lt a b = true \/ a = b \/ strcmp_lt b a = true.
Proof.
  revert b. induction a as [|x a IH]; intros [|y b]; cbn [strcmp_lt]; [tauto..|]. rewrite (Z.eqb_sym y x).
  destruct (Z.eqb_spec x y) as [->|Hne]; [destruct (IH b) as [?|[->|?]]; tauto|]. rewrite !Z.ltb_lt. lia.
Qed.

(** The table: names in upper case, in strict order. *)
Abbreviation name_lt := (fun a b => strcmp_lt (mt_cmd a) (mt_cmd b) = true).

Record maxtargets_ok (l : list MaxTarget) : Prop := {
  mo_names m : m ∈ l -> cstr (mt_cmd m) /\ strtoupper (mt_cmd m) = mt_cmd m;
  mo_sorted : StronglySorted name_lt l
}.

Lemma maxtarget_add_elem n l m : m ∈ maxtarget_add_sorted n l <-> m = n \/ m ∈ l.
Proof.
  induction l as [|e l IH]; cbn [maxtarget_add_sorted]; [by rewrite elem_of_cons|].
  destruct (strcmp_lt _ _); rewrite !elem_of_cons, ?IH; [rewrite ?elem_of_cons|]; tauto.
Qed.

Lemma maxtarget_add_StronglySorted n l :
  (forall m, m ∈ l -> mt_cmd m <> mt_cmd n) -> StronglySorted name_lt l -> StronglySorted name_lt (maxtarget_add_sorted n l).
Proof.
  intros Hne. induction l as [|e l IH]; intros Hs; [repeat constructor|]. cbn [maxtarget_add_sorted].
  apply StronglySorted_inv in Hs as Hs'. destruct Hs' as [Hl He]. destruct (strcmp_lt (mt_cmd n) (mt_cmd e)) eqn:Hlt.
  - constructor; [done|]. constructor; [done|]. eapply Forall_impl; [exact He|]. intros m Hm. cbv beta in *.
    by eapply strcmp_lt_trans.
  - constructor; [apply IH; [intros; apply Hne; by right|done]|]. apply Forall_forall. intros m [->|Hm]%maxtarget_add_elem.
    + destruct (strcmp_lt_total (mt_cmd n) (mt_cmd e)) as [?|[Heq|?]]; [congruence| |done]. by destruct (Hne e ltac:(left)).
    + by apply (proj1 (Forall_forall _ _) He).
Qed.

Lemma find_add_sorted (P : MaxTarget -> bool) n l :
  (P n = true -> forall m, m ∈ l -> P m = false) ->
  List.find P (maxtarget_add_sorted n l) = if P n then Some n else List.find P l.
Proof.
  induction l as [|e l IH]; intros Hp; cbn [maxtarget_add_sorted]; [done|].
  destruct (strcmp_lt _ _); cbn [List.find]; [done|]. rewrite IH by (intros Hn m Hm; apply Hp; [done|by right]).
  destruct (P n) eqn:Hn; [|done]. by rewrite (Hp eq_refl e ltac:(left)).
Qed.

Lemma set_limit_cmds cmd limit l : mt_cmd <$> set_limit cmd limit l = mt_cmd <$> l.
Proof. induction l as [|m l IH]; [done|]. cbn [set_limit]. destruct (same_cmd _ _); [done|]. rewrite !fmap_cons. by rewrite IH. Qed.

Lemma maxtargets_ok_cmds l l' : mt_cmd <$> l = mt_cmd <$> l' -> maxtargets_ok l -> maxtargets_ok l'.
Proof.
  intros Heq [Hn Hs]. split.
  - intros m Hm. apply (list_elem_of_fmap_2 mt_cmd) in Hm. rewrite <- Heq in Hm. apply list_elem_of_fmap in Hm as (m' & -> & Hm').
    by apply Hn.
  - clear Hn. revert l' Heq. induction l as [|m l IH]; intros [|m' l'] Heq; try done. rewrite !fmap_cons in Heq. injection Heq as Hm Heq.
    apply StronglySorted_inv in Hs as [Hs Hf]. constructor; [by apply IH|]. rewrite <- Hm.
    assert (Hc : Forall (fun c => strcmp_lt (mt_cmd m) c = true) (mt_cmd <$> l')) by (rewrite <- Heq; by apply Forall_fmap).
    by apply Forall_fmap in Hc.
Qed.

Section setmax.
Context (l : list MaxTarget) (Hok : maxtargets_ok l) (cmd : cstring) (Hcmd : cstr cmd) (limit : Z).

Lemma find_set_limit d :
  cstr d -> is_Some (findmaxtarget l cmd) ->
  mt_limit <$> findmaxtarget (set_limit cmd limit l) d =
  if same_cmd cmd d then Some limit else mt_limit <$> findmaxtarget l d.
Proof using Hok Hcmd.
  intros Hd. pose proof (fun m Hm => proj1 (mo_names _ Hok m Hm)) as Hn. clear Hok. revert Hn. unfold findmaxtarget.
  induction l as [|m k IH]; intros Hn [x Hf]; [done|]. cbn [set_limit List.find] in *.
  assert (Hm : cstr (mt_cmd m)) by (apply Hn; left). destruct (same_cmd (mt_cmd m) cmd) eqn:Hmc.
  - cbn [List.find mt_cmd]. assert (Heq : same_cmd (mt_cmd m) d = same_cmd cmd d).
    { apply eq_true_iff_eq. rewrite !same_cmd_spec by done. rewrite same_cmd_spec in Hmc by done. by rewrite Hmc. }
    rewrite Heq. by destruct (same_cmd cmd d).
  - cbn [List.find]. destruct (same_cmd (mt_cmd m) d) eqn:Hmd; [|apply IH; [intros; apply Hn; by right|by exists x]].
    destruct (same_cmd cmd d) eqn:Hcd; [|done].
    rewrite same_cmd_spec in Hcd by done. rewrite same_cmd_spec in Hmd by done.
    assert (same_cmd (mt_cmd m) cmd = true); [|congruence]. rewrite same_cmd_spec by done. by rewrite Hcd.
Qed.
End setmax.

(** The limits on targets per command are a map.  Setting a limit for a command whose name fits
    its buffer of 64 bytes makes it the answer for every spelling of this name and no other; names
    that were never set have one target.  The table stays in strict [strcmp] order, in upper
    case, as "TARGMAX" announces it. *)
Theorem maxtargets_map (l : list MaxTarget) (cmd : cstring) (limit : Z)
  (Hok : maxtargets_ok l) (Hcmd : cstr cmd) (Hlen : (length cmd < 64)%nat) :
  maxtargets_ok (setmaxtargets l cmd limit) /\
  (forall d, cstr d ->
     max_targets_for_command (setmaxtargets l cmd limit) d =
     if same_cmd cmd d then limit else max_targets_for_command l d) /\
  max_targets_for_command [] cmd = 1.
Proof.
  unfold setmaxtargets. destruct (findmaxtarget l cmd) eqn:Hf.
  - split; [|split; [|done]].
    + eapply maxtargets_ok_cmds; [|exact Hok]. symmetry. apply set_limit_cmds.
    + intros d Hd. pose proof (find_set_limit l Hok cmd Hcmd limit d Hd ltac:(by eexists)) as H.
      unfold max_targets_for_command. destruct (findmaxtarget (set_limit _ _ _) _), (same_cmd cmd d), (findmaxtarget l d); simpl in H; congruence.
  - rewrite strlcpy_take by lia. rewrite take_ge by lia. destruct (strtoupper_same cmd Hcmd) as (Hu1 & Hu2 & Hu3).
    assert (Hnone : forall m, m ∈ l -> same_cmd (mt_cmd m) cmd = false).
    { intros m Hm. apply (List.find_none _ _ Hf). by apply list_elem_of_In. }
    split; [|split; [|done]].
    + split.
      * intros m [->|Hm]%maxtarget_add_elem; [done|by apply (mo_names l)].
      * apply maxtarget_add_StronglySorted; [|apply Hok]. intros m Hm Heq. cbn [mt_cmd] in Heq.
        specialize (Hnone m Hm). rewrite Heq in Hnone. apply same_cmd_spec in Hu2; [congruence|done..].
    + intros d Hd. unfold max_targets_for_command, findmaxtarget.
      assert (Hsame : same_cmd (strtoupper cmd) d = same_cmd cmd d).
      { apply eq_true_iff_eq. rewrite !same_cmd_spec by done. by rewrite Hu2. }
      rewrite find_add_sorted; cbn [mt_cmd]; rewrite Hsame; [by destruct (same_cmd cmd d)|].
      intros Hcd m Hm. specialize (Hnone m Hm). destruct (mo_names l Hok m Hm) as [Hm1 _].
      apply not_true_is_false. rewrite same_cmd_spec by done. rewrite same_cmd_spec in Hcd by done. intros Hmd.
      apply not_true_iff_false in Hnone. apply Hnone. rewrite same_cmd_spec by done. by rewrite Hcd.
Qed.

Lemma maxtargets_map_witness :
  let l := setmaxtargets [] (str "privmsg") 4 in
  max_targets_for_command (setmaxtargets l (str "Kick") 2) (str "kick") = 2 /\
  max_targets_for_command set_targmax_defaults (str "join") = 1000000 /\
  mt_cmd <$> setmaxtargets l (str "Kick") 2 = [str "KICK"; str "PRIVMSG"].
Proof.
  intros l. split; [|by vm_compute]. assert (Hc : forall s, forallb (fun c => (0 <? c) && (c <? 256)) s = true -> cstr s).
  { intros s Hs. apply Forall_forall. intros x Hx. unfold byte_ok. rewrite forallb_forall in Hs.
    specialize (Hs x ltac:(by apply list_elem_of_In)). lia. }
  pose proof (maxtargets_map [] (str "privmsg") 4 ltac:(split; [by intros ? ?%elem_of_nil|constructor]) ltac:(by apply Hc) ltac:(by apply Nat.ltb_lt)) as [Hl _].
  destruct (maxtargets_map l (str "Kick") 2 Hl ltac:(by apply Hc) ltac:(by apply Nat.ltb_lt)) as (_ & H & _).
  rewrite H by (by apply Hc). by vm_compute.
Defined.
