(* ===== verification/Nick.v ===== *)
(** * Nicknames and their collisions (src/modules/nick.c, kill.c, quit.c, charsys.c)

    The syntax of nicknames and the handlers of the messages by which servers
    introduce, rename and remove users.  Two servers that link may both have a user with
    the same nickname; the handlers decide which one stays.  The state is a map of
    clients.  Its keys stand for the pointers: the key of a client is its ID, which
    [make_client] and [cmd_uid] register.  Nothing keeps a server from sending a UID whose
    ID is in use; the new client then has the ID with zero bytes behind it as its key,
    which no ID has.  Messages to other servers are returned in the order in which they are
    sent. *)
From S2P Require Import Prelude Chars Strings Client Crule CruleFuncs Names.

(** ** The syntax of nicknames (charsys.c) *)

Definition NICKLEN : nat := 30.

Definition illegalnickchars : cstring := str "!+%@&~#$:'" ++ [34] ++ str "?*,.".

(** The test of [charsys_addallowed], [do_nick_name_multibyte] and [_do_remote_nick_name]. *)
Definition illegal (c : Z) : bool := (c <=? 32) || in_set illegalnickchars c.

(** The configured characters: the bytes with [ALLOWN] in [char_atribs], and the ranges of pairs. *)
Record MBList := MkMB { s1 : Z; e1 : Z; s2 : Z; e2 : Z }.

Record charset := MkCharset { allowed : list Z; mblist : list MBList }.

(** An illegal character is reported and added all the same. *)
Definition charsys_addallowed (s : cstring) (cs : charset) : charset := MkCharset (allowed cs ++ s) (mblist cs).

Definition charsys_addmultibyterange (a b c d : Z) (cs : charset) : charset :=
  MkCharset (allowed cs) (mblist cs ++ [MkMB a b c d]).

Definition charsys_reset : charset :=
  charsys_addallowed (str "0123456789-ABCDEFGHIJKLMNOPQRSTUVWXYZ[\]^_`abcdefghijklmnopqrstuvwxyzy{|}") (MkCharset [] []).

(** The common start of the checks: a minus or a digit. *)
Definition bad_start (nick : cstring) : bool := (hd 0 nick =? 45) || isdigit (hd 0 nick).

Section charsys.
Context (cs : charset).

Definition isvalid (c : Z) : bool := in_set (allowed cs) c.

(** Both functions return the length that is left of the nick, 0 for a bad one. *)
Definition do_nick_name_standard (nick : cstring) : nat :=
  if bad_start nick then 0%nat
  else
    let start := take (S NICKLEN) nick in
    if forallb isvalid start then length start else 0%nat.

Definition isvalidmbyte (c1 c2 : Z) : bool :=
  existsb (fun m => (s1 m <=? c1) && (c1 <=? e1 m) && (s2 m <=? c2) && (c2 <=? e2 m)) (mblist cs).

(** The loop of [do_nick_name_multibyte]: [first] is the first byte of a pair that is open. *)
Fixpoint multibyte_loop (first : option Z) (len : nat) (s : cstring) : nat :=
  match s with
  | [] => match first with Some _ => (len - 1)%nat | None => len end
  | c :: s =>
      if illegal c then 0%nat
      else
        match first with
        | Some b => if isvalidmbyte b c then multibyte_loop None (S len) s else 0%nat
        | None => if has c 128 then multibyte_loop (Some c) (S len) s
                  else if isvalid c then multibyte_loop None (S len) s else 0%nat
        end
  end.

Definition do_nick_name_multibyte (nick : cstring) : nat :=
  if bad_start nick then 0%nat else multibyte_loop None 0 (take (S NICKLEN) nick).

Definition _do_nick_name (nick : cstring) : nat :=
  match mblist cs with [] => do_nick_name_standard nick | _ => do_nick_name_multibyte nick end.
End charsys.

Definition _do_remote_nick_name (nick : cstring) : nat :=
  if bad_start nick then 0%nat
  else if existsb illegal nick then 0%nat
  else length nick.

(** ** State and messages *)

(** A client; [n_direction] is the link it is behind, none for a local one. *)
Record nclient := MkN {
  n_name : cstring;
  n_lastnick : Z;
  n_username : cstring;
  n_realhost : cstring;
  n_direction : option positive;
  n_unknown : bool;                  (** [IsUnknown]: a local connection in handshake *)
  n_regnick : bool;                  (** [umodes & UMODE_REGNICK] *)
  n_account : cstring;
  n_virthost : cstring;
  n_ip : option cstring;
  n_info : cstring;
  n_umodes : Z
}.

Abbreviation directory := (gmap cstring nclient).

Inductive nmsg :=
| KILL (id : cstring)
| UID (parv : list cstring)
| INTRODUCE (id : cstring)           (** the UID line that [sendto_one_nickcmd] makes of a client *)
| NICK (id nick : cstring) (ts : Z)
| QUIT (id : cstring)
| SQUIT (name : cstring)
| NUMERIC (reply : cstring).

(** [sendto_one] and [sendto_server]: all servers but the one in the direction given. *)
Inductive dest := ToOne (l : positive) | AllBut (l : option positive).

#[export] Instance nmsg_eq_dec : EqDecision nmsg.
Proof. solve_decision. Defined.

#[export] Instance dest_eq_dec : EqDecision dest.
Proof. solve_decision. Defined.

Definition outbox : Type := list (dest * nmsg).

(** [client->id] for a key of the map: the part in front of the first zero byte. *)
Fixpoint id_of (h : cstring) : cstring :=
  match h with
  | [] => []
  | c :: h => if c =? 0 then [] else c :: id_of h
  end.

(** The client that was added last is the first one in the chain of its ID. *)
Definition newest (hs : list cstring) : option cstring :=
  foldr (fun h r => match r with Some k => if (length k <? length h)%nat then Some h else Some k | None => Some h end) None hs.

(** The key of a new client: its ID, if no other client has it. *)
Definition new_key (st : directory) (id : cstring) : cstring :=
  match newest (base.filter (fun h => id_of h = id) (fst <$> map_to_list st)) with Some h => h ++ [0] | None => id end.

(** [find_client]: IDs first, then names. *)
Definition find_id (st : directory) (nm : cstring) : option cstring :=
  newest (base.filter (fun h => same_name (id_of h) nm) (fst <$> map_to_list st)).

Definition find_name (st : directory) (nm : cstring) : option cstring :=
  fst <$> List.find (fun ic => bool_decide (same_name (n_name (snd ic)) nm)) (map_to_list st).

Definition find_client (st : directory) (nm : cstring) : option cstring :=
  match find_id st nm with Some i => Some i | None => find_name st nm end.

(** [exit_client] of a client that is not a server: it leaves the tables, and unless it was killed
    or never registered the other servers get a QUIT. *)
Definition exit_client (st : directory) (id : cstring) (killed : bool) : directory * outbox :=
  match st !! id with
  | None => (st, [])
  | Some c => (delete id st, if negb (n_unknown c) && negb killed then [(AllBut (n_direction c), QUIT (id_of id))] else [])
  end.

(** ** Collisions (nick.c) *)

Inductive nickcol := NICKCOL_EQUAL | NICKCOL_NEW_WON | NICKCOL_EXISTING_WON.

#[export] Instance nickcol_eq_dec : EqDecision nickcol.
Proof. solve_decision. Defined.

(** [link] is [cptr->direction]; [changing] tells a nick change, of the client [newid], from
    a new user, whose ID it is then. *)
Definition nick_collision (st : directory) (link : positive) (newid : cstring) (changing : bool) (existing : cstring)
    (type : nickcol) : directory * outbox :=
  let '(st, out1) :=
    if decide (type = NICKCOL_EQUAL \/ type = NICKCOL_EXISTING_WON) then
      let first := [(ToOne link, KILL (id_of newid))] in
      if changing then
        let '(st, o) := exit_client st newid true in (st, first ++ [(AllBut (Some link), KILL (id_of newid))] ++ o)
      else (st, first)
    else (st, []) in
  let '(st, out2) :=
    if decide (type = NICKCOL_EQUAL \/ type = NICKCOL_NEW_WON) then
      let '(st, o) := exit_client st existing true in (st, [(AllBut None, KILL (id_of existing))] ++ o)
    else (st, []) in
  (st, out1 ++ out2).

(** [mycmp(a->username, ...) || mycmp(a->realhost, ...)]; [None] when it reads past an empty string. *)
Definition differ (username realhost username2 realhost2 : cstring) : option bool :=
  d ← mycmp username username2;
  if (d : bool) then Some true else mycmp realhost realhost2.

(** Who wins by time: with different users the older nick, with the same user the newer one. *)
Definition new_wins (d : bool) (existing new : Z) : bool := (d && (new <? existing)) || (negb d && (existing <? new)).
Definition existing_wins (d : bool) (existing new : Z) : bool := (d && (existing <? new)) || (negb d && (new <? existing)).

Definition reserved (nick : cstring) : bool := same_cmd (str "ircd") nick || same_cmd (str "irc") nick.

(** The nick change itself, once nobody else has the name. *)
Definition change_nick (now : Z) (id nick : cstring) (link : positive) (lastnick : Z) (removemoder : bool)
    (st : directory) (out : outbox) : option (directory * outbox) :=
  c ← st !! id;
  let ts := if lastnick =? 0 then now else lastnick in
  Some (<[id := MkN nick ts (n_username c) (n_realhost c) (n_direction c) (n_unknown c)
                  (if removemoder then false else n_regnick c)
                  (n_account c) (n_virthost c) (n_ip c) (n_info c) (n_umodes c)]> st,
        out ++ [(AllBut (Some link), NICK (id_of id) nick ts)]).

(** The handler of NICK for a user of another server; [parv2] is [atol(parv[2])], if it is given. *)
Definition cmd_nick_remote (now : Z) (st : directory) (id : cstring) (parv1 : cstring) (parv2 : option Z)
  : option (directory * outbox) :=
  c ← st !! id;
  link ← n_direction c;
  let nick := take NICKLEN parv1 in
  let lastnick := default 0 parv2 in
  let change := fun removemoder st out => change_nick now id nick link lastnick removemoder st out in
  if (_do_remote_nick_name nick =? 0)%nat || reserved nick then
    let '(st, o) := exit_client st id true in Some (st, (ToOne link, KILL (id_of id)) :: o)
  else
    match find_client st nick with
    | None => change (n_regnick c) st []
    | Some x =>
        a ← st !! x;
        if n_unknown a then let '(st, o) := exit_client st x true in change (n_regnick c) st o
        else if bool_decide (x = id) then
          if bool_decide (n_name a = nick) then Some (st, []) else change false st []
        else
          d ← differ (n_username a) (n_realhost a) (n_username c) (n_realhost c);
          if bool_decide (parv2 = None) || (lastnick =? n_lastnick a) then Some (nick_collision st link id true x NICKCOL_EQUAL)
          else if new_wins d (n_lastnick a) lastnick then
            let '(st, o) := nick_collision st link id true x NICKCOL_NEW_WON in change (n_regnick c) st o
          else if existing_wins d (n_lastnick a) lastnick then Some (nick_collision st link id true x NICKCOL_EXISTING_WON)
          else Some (st, [])
    end.

(** The server that sends a UID line: its ID, the link it is behind, [IsServer] and
    [IsQuarantined] of the link. *)
Record nserver := MkServer { sv_id : cstring; sv_link : positive; sv_server : bool; sv_quarantined : bool }.

Section uid.
(** [decode_ip] with its buffers, [make_cloakedhost], and the effect of [cmd_umode] on a new client. *)
Context (decode_ip : cstring -> option cstring) (cloak : cstring -> cstring) (umode : cstring -> Z).

(** The client that [cmd_uid] makes of its parameters, without its ID. *)
Definition uid_client (serv : nserver) (parv : list cstring) (ip : option cstring) : nclient :=
  let arg := fun i => nth i parv [] in
  let realhost := take HOSTLEN (arg 5%nat) in
  MkN (take NICKLEN (arg 1%nat)) (atoi (arg 3%nat)) (take USERLEN (arg 4%nat)) realhost
    (Some (sv_link serv)) false false
    (if hd 0 (arg 7%nat) =? 42 then [] else take 30 (arg 7%nat))
    (if hd 0 (arg 9%nat) =? 42 then cloak realhost else arg 9%nat)
    ip (take 50 (arg 12%nat)) (umode (arg 8%nat)).

(** The introduction of the new client. *)
Definition introduce (st : directory) (serv : nserver) (parv : list cstring) (ip : option cstring) (out : outbox)
  : directory * outbox :=
  let id := take IDLEN (nth 6 parv []) in
  (<[new_key st id := uid_client serv parv ip]> st, out ++ [(AllBut (Some (sv_link serv)), INTRODUCE id)]).

Definition cmd_uid (st : directory) (client : nserver) (parv : list cstring) : option (directory * outbox) :=
  let arg := fun i => nth i parv [] in
  let link := sv_link client in
  let reply := fun m => Some (st, [(ToOne link, m)]) in
  if (length parv <? 13)%nat then reply (NUMERIC (str "461"))
  else if negb (sv_server client) then reply (NUMERIC (str "487"))
  else
    let nick := take NICKLEN (arg 1%nat) in
    if (_do_remote_nick_name nick =? 0)%nat || reserved nick then
      Some (st, [(ToOne link, NUMERIC (str "432")); (ToOne link, KILL (arg 1%nat))])
    else if negb (valid_uid (arg 6%nat)) || negb (bool_decide (take 3 (arg 6%nat) = take 3 (sv_id client)))
    then reply (KILL (arg 6%nat))
    else if negb (valid_host (arg 5%nat) false) then reply (KILL (arg 6%nat))
    else if negb (bool_decide (arg 9%nat = str "*")) && negb (valid_host (arg 9%nat) false) then reply (KILL (arg 6%nat))
    else
      let ip := if bool_decide (arg 11%nat = str "*") then None else decode_ip (arg 11%nat) in
      if negb (bool_decide (arg 11%nat = str "*")) && negb (bool_decide (is_Some ip)) then reply (KILL (arg 6%nat))
      else if sv_quarantined client && in_set (arg 8%nat) 111 then reply (KILL (arg 6%nat))
      else
        match find_client st nick with
        | None => Some (introduce st client parv ip [])
        | Some x =>
            a ← st !! x;
            if n_unknown a then let '(st, o) := exit_client st x true in Some (introduce st client parv ip o)
            else
              let lastnick := atoi (arg 3%nat) in
              d ← differ (n_username a) (n_realhost a) (arg 4%nat) (arg 5%nat);
              if n_lastnick a =? lastnick then Some (nick_collision st link (arg 6%nat) false x NICKCOL_EQUAL)
              else if new_wins d (n_lastnick a) lastnick || bool_decide (n_direction a = Some link) then
                let '(st, o) := nick_collision st link (arg 6%nat) false x NICKCOL_NEW_WON in Some (introduce st client parv ip o)
              else if existing_wins d (n_lastnick a) lastnick
              then Some (nick_collision st link (arg 6%nat) false x NICKCOL_EXISTING_WON)
              else Some (st, [])
        end.

(** KILL from a server that is linked directly, for one target (kill.c). *)
Definition cmd_kill (st : directory) (link : positive) (target : cstring) : directory * outbox :=
  match find_client st target with
  | Some x =>
      match st !! x with
      | Some c =>
          if n_unknown c then (st, [(ToOne link, NUMERIC (str "401"))])
          else
            match n_direction c with
            | None => exit_client st x false
            | Some _ => let '(st', o) := exit_client st x true in (st', (AllBut (Some link), KILL (id_of x)) :: o)
            end
      | None => (st, [])
      end
  | None => (st, [(ToOne link, NUMERIC (str "401"))])
  end.

(** A line with a source: the source is looked up by the parser (parse.c), which answers for an unknown
    one; a source behind another link is left to [cancel_clients] and changes nothing here. *)
Definition from_source (st : directory) (link : positive) (sender : cstring) (handler : cstring -> option (directory * outbox))
  : option (directory * outbox) :=
  match find_client st sender with
  | None =>
      Some (st, [(ToOne link, if (isdigit (hd 0 sender) && (length sender <=? 3)%nat) || in_set sender 46
                              then SQUIT sender else KILL sender)])
  | Some x =>
      match st !! x with
      | Some c => if bool_decide (n_direction c = Some link) then handler x else Some (st, [])
      | None => Some (st, [])
      end
  end.

(** The messages of a server [serv] on its own link. *)
Definition receive (now : Z) (serv : nserver) (st : directory) (m : nmsg) : option (directory * outbox) :=
  match m with
  | UID parv => cmd_uid st serv parv
  | KILL id => Some (cmd_kill st (sv_link serv) id)
  | QUIT id => from_source st (sv_link serv) id (fun x => Some (exit_client st x false))
  | NICK id nick ts => from_source st (sv_link serv) id (fun x => cmd_nick_remote now st x nick (Some ts))
  | INTRODUCE _ | SQUIT _ | NUMERIC _ => Some (st, [])
  end.
End uid.

(** ** Nicknames of one server are accepted by the others *)

Section accepted.
Context (cs : charset) (Hcs : forall c, c ∈ allowed cs -> illegal c = false).

Lemma isvalid_legal c : isvalid cs c = true -> illegal c = false.
Proof using Hcs.
  unfold isvalid, in_set. intros (x & Hx & ->%Z.eqb_eq)%existsb_exists. by apply Hcs, list_elem_of_In.
Qed.

Lemma multibyte_loop_spec first len s :
  multibyte_loop cs first len s <> 0%nat ->
  (multibyte_loop cs first len s <= len + length s)%nat /\ forall c, c ∈ s -> illegal c = false.
Proof.
  revert first len. induction s as [|c s IH]; intros first len; cbn [multibyte_loop length].
  - intros _. split; [destruct first; lia|by intros c ?%elem_of_nil].
  - destruct (illegal c) eqn:Hc; [done|].
    assert (Hstep : forall f, multibyte_loop cs f (S len) s <> 0%nat ->
      (multibyte_loop cs f (S len) s <= len + S (length s))%nat /\ forall d, d ∈ c :: s -> illegal d = false).
    { intros f Hf. destruct (IH f (S len) Hf) as [Hl Hs]. split; [lia|]. by intros d [->|Hd]%elem_of_cons; [|apply Hs]. }
    destruct first as [b|]; [destruct (isvalidmbyte cs b c); [apply Hstep|done]|].
    destruct (has c 128); [apply Hstep|]. destruct (isvalid cs c); [apply Hstep|done].
Qed.

Lemma do_nick_name_spec nick :
  _do_nick_name cs nick <> 0%nat ->
  bad_start nick = false /\ (_do_nick_name cs nick <= length (take (S NICKLEN) nick))%nat /\
  forall c, c ∈ take (S NICKLEN) nick -> illegal c = false.
Proof using Hcs.
  unfold _do_nick_name, do_nick_name_standard, do_nick_name_multibyte.
  destruct (mblist cs), (bad_start nick); try done; intros Hne; (split; [done|]).
  - cbv zeta in *. destruct (forallb _ _) eqn:Hf; [|done]. split; [done|]. intros c Hc. apply isvalid_legal.
    by apply (proj1 (forallb_forall _ _) Hf), list_elem_of_In.
  - by apply multibyte_loop_spec in Hne.
Qed.
End accepted.

(** The configuration of the character set: single characters and ranges. *)
Inductive charop := Allow (s : cstring) | Range (a b c d : Z).

Definition apply_charop (cs : charset) (o : charop) : charset :=
  match o with Allow s => charsys_addallowed s cs | Range a b c d => charsys_addmultibyterange a b c d cs end.

Lemma charops_legal ops cs :
  (forall s, Allow s ∈ ops -> forall c, c ∈ s -> illegal c = false) ->
  (forall c, c ∈ allowed cs -> illegal c = false) ->
  forall c, c ∈ allowed (fold_left apply_charop ops cs) -> illegal c = false.
Proof.
  revert cs. induction ops as [|o ops IH]; intros cs Hops Hcs; [done|]. cbn [fold_left]. apply IH.
  - intros s Hs. apply Hops. by right.
  - destruct o as [s|]; [|done]. cbn [apply_charop charsys_addallowed allowed]. intros c [Hc|Hc]%elem_of_app; [by apply Hcs|].
    apply (Hops s); [left|done].
Qed.

(** A nickname that one server gives out is valid everywhere.  With the default characters and any
    languages whose single characters are legal, what [_do_nick_name] leaves of a nickname passes the check that other
    servers make with [_do_remote_nick_name], in full. *)
Theorem local_nicks_accepted (ops : list charop) (nick : cstring)
  (Hops : forall s, Allow s ∈ ops -> forall c, c ∈ s -> illegal c = false) :
  let n := _do_nick_name (fold_left apply_charop ops charsys_reset) nick in
  n <> 0%nat -> (n <= S NICKLEN)%nat /\ _do_remote_nick_name (take n nick) = n.
Proof.
  intros n Hn. destruct (do_nick_name_spec (fold_left apply_charop ops charsys_reset)) with (nick := nick) as (Hb & Hl & Hs); [|done|].
  { apply charops_legal; [done|]. intros c Hc.
    assert (Hall : existsb illegal (allowed charsys_reset) = false) by (by vm_compute).
    apply not_true_is_false. intros Hi. apply not_true_iff_false in Hall. apply Hall. apply existsb_exists. exists c.
    by rewrite <- list_elem_of_In. }
  fold n in Hl. assert (Hlen : length (take n nick) = n) by (rewrite length_take in *; lia).
  split; [rewrite length_take in Hl; lia|]. unfold _do_remote_nick_name.
  assert (bad_start (take n nick) = false) as -> by (unfold bad_start in *; destruct n, nick; done).
  assert (existsb illegal (take n nick) = false) as ->; [|done]. apply not_true_is_false. intros (c & Hc%list_elem_of_In & Hi)%existsb_exists.
  rewrite (Hs c) in Hi; [done|]. rewrite length_take in Hl. replace (take n nick) with (take n (take (S NICKLEN) nick)) in Hc
    by (rewrite take_take; f_equal; lia). apply list_elem_of_lookup in Hc as [i [Hc _]%lookup_take_Some].
  by apply list_elem_of_lookup_2 in Hc.
Qed.

Lemma local_nicks_accepted_witness :
  let cs := fold_left apply_charop [Allow [228; 246; 252]; Range 195 195 160 191] charsys_reset in
  _do_nick_name cs (str "M" ++ [195; 188] ++ str "ller") = 7%nat /\
  _do_remote_nick_name (str "M" ++ [195; 188] ++ str "ller") = 7%nat.
Proof.
  split; [by vm_compute|].
  destruct (local_nicks_accepted [Allow [228; 246; 252]; Range 195 195 160 191] (str "M" ++ [195; 188] ++ str "ller")) as [_ H].
  - intros s Hs c Hc. rewrite !elem_of_cons, elem_of_nil in Hs. destruct Hs as [[= ->]|[?|[]]]; [|done].
    rewrite !elem_of_cons, elem_of_nil in Hc. destruct Hc as [->|[->|[->|[]]]]; by vm_compute.
  - by vm_compute.
  - exact H.
Defined.

(** ** Nicknames stay unique *)

(** A map in which every client has a UID, which others may have as well, and no two clients
    share a nickname; a client without a nickname, in handshake, has the empty one. *)
Record names_ok (st : directory) : Prop := {
  no_ids i c : st !! i = Some c -> valid_uid (id_of i) = true /\ cstr (id_of i);
  no_unique i j c d : st !! i = Some c -> st !! j = Some d -> n_name c <> [] -> same_name (n_name c) (n_name d) -> i = j
}.

(** A map in which, on top of that, no two clients have the same UID. *)
Record dir_ok (st : directory) : Prop := {
  do_ids i c : st !! i = Some c -> valid_uid i = true /\ cstr i;
  do_unique i j c d : st !! i = Some c -> st !! j = Some d -> n_name c <> [] -> same_name (n_name c) (n_name d) -> i = j
}.

Lemma map_find_Some (P : cstring -> nclient -> Prop) `{!forall i c, Decision (P i c)} (st : directory) i :
  fst <$> List.find (fun ic => bool_decide (P (fst ic) (snd ic))) (map_to_list st) = Some i ->
  exists c, st !! i = Some c /\ P i c.
Proof.
  destruct (List.find _ _) as [[j c]|] eqn:Hf; [|done]. intros [= <-]. apply find_some in Hf as [Hin HP%bool_decide_eq_true].
  exists c. split; [|done]. by apply elem_of_map_to_list, list_elem_of_In.
Qed.

Lemma map_find_None (P : cstring -> nclient -> Prop) `{!forall i c, Decision (P i c)} (st : directory) :
  fst <$> List.find (fun ic => bool_decide (P (fst ic) (snd ic))) (map_to_list st) = None ->
  forall i c, st !! i = Some c -> ~ P i c.
Proof.
  destruct (List.find _ _) as [[j c]|] eqn:Hf; [done|]. intros _ i c Hi HP.
  assert (Hin : In (i, c) (map_to_list st)) by (by apply list_elem_of_In, elem_of_map_to_list).
  pose proof (find_none _ _ Hf _ Hin) as Hb. cbn [fst snd] in Hb. by rewrite bool_decide_true in Hb.
Qed.

Lemma find_name_Some st nm i : find_name st nm = Some i -> exists c, st !! i = Some c /\ same_name (n_name c) nm.
Proof. exact (map_find_Some (fun _ c => same_name (n_name c) nm) st i). Qed.

Lemma find_name_None st nm : find_name st nm = None -> forall i c, st !! i = Some c -> ~ same_name (n_name c) nm.
Proof. exact (map_find_None (fun _ c => same_name (n_name c) nm) st). Qed.

Lemma newest_elem hs h : newest hs = Some h -> h ∈ hs /\ forall k, k ∈ hs -> (length k <= length h)%nat.
Proof.
  revert h. induction hs as [|x hs IH]; intros h; cbn [newest foldr]; [done|]. fold (newest hs). destruct (newest hs) as [k|] eqn:Hn.
  - destruct (IH k eq_refl) as [Hk Hmax]. destruct (Nat.ltb_spec (length k) (length x)); intros [= <-].
    + split; [left|]. intros y [->|Hy]%elem_of_cons; [done|]. specialize (Hmax y Hy). lia.
    + split; [by right|]. intros y [->|Hy]%elem_of_cons; [done|by apply Hmax].
  - intros [= <-]. split; [left|]. intros y [->|Hy]%elem_of_cons; [done|]. exfalso. clear IH. destruct hs as [|z hs]; [by apply elem_of_nil in Hy|].
    cbn [newest foldr] in Hn. destruct (foldr _ _ _); [destruct (_ <? _)%nat|]; done.
Qed.

Lemma newest_None hs : newest hs = None -> hs = [].
Proof. destruct hs as [|z hs]; [done|]. cbn [newest foldr]. destruct (foldr _ _ _); [destruct (_ <? _)%nat|]; done. Qed.

Lemma key_elem (st : directory) h : h ∈ fst <$> map_to_list st <-> is_Some (st !! h).
Proof.
  rewrite list_elem_of_fmap. split; [intros ([k c] & -> & Hk%elem_of_map_to_list); eauto|]. intros [c Hc]. exists (h, c). split; [done|]. by apply elem_of_map_to_list.
Qed.

Lemma find_id_Some st nm i : find_id st nm = Some i -> (exists c, st !! i = Some c) /\ same_name (id_of i) nm.
Proof. intros [[Hs Hk%key_elem]%list_elem_of_filter _]%newest_elem. destruct Hk as [c Hc]. eauto. Qed.

Lemma id_of_cstr i : cstr i -> id_of i = i.
Proof. induction 1 as [|c i Hc _ IH]; [done|]. cbn [id_of]. unfold byte_ok in Hc. rewrite (proj2 (Z.eqb_neq c 0)) by lia. by rewrite IH. Qed.

Lemma id_of_snoc i : id_of (i ++ [0]) = id_of i.
Proof. induction i as [|c i IH]; [done|]. cbn [app id_of]. destruct (c =? 0); [done|by rewrite IH]. Qed.

(** The key of a new client is new, and the client has its ID. *)
Lemma new_key_spec st id : cstr id -> st !! new_key st id = None /\ id_of (new_key st id) = id.
Proof.
  intros Hid. unfold new_key. destruct (newest _) as [h|] eqn:Hn.
  - apply newest_elem in Hn as [[Hh Hk]%list_elem_of_filter Hmax]. rewrite id_of_snoc. split; [|done]. apply eq_None_not_Some. intros Hs.
    specialize (Hmax (h ++ [0])). rewrite length_app in Hmax. cbn [length] in Hmax. assert (length h + 1 <= length h)%nat; [|lia]. apply Hmax.
    apply list_elem_of_filter. rewrite id_of_snoc. split; [done|by apply key_elem].
  - apply newest_None in Hn. rewrite id_of_cstr by done. split; [|done]. apply eq_None_not_Some. intros Hs%key_elem.
    assert (Hin : id ∈ base.filter (fun h => id_of h = id) (fst <$> map_to_list st)) by (apply list_elem_of_filter; split; [by apply id_of_cstr|done]).
    rewrite Hn in Hin. by apply elem_of_nil in Hin.
Qed.

Lemma dir_names st : dir_ok st -> names_ok st.
Proof. intros [H1 H2]. split; [|done]. intros i c Hi. destruct (H1 i c Hi) as [Hv Hc]. by rewrite id_of_cstr. Qed.

(** Where no two clients have the same ID the key of a new one is its ID. *)
Lemma new_key_unused st id : dir_ok st -> st !! id = None -> new_key st id = id.
Proof.
  intros Hok Hid. unfold new_key. destruct (newest _) as [h|] eqn:Hn; [|done]. apply newest_elem in Hn as [[Hh [c Hc]%key_elem]%list_elem_of_filter _].
  rewrite id_of_cstr in Hh by (apply (do_ids _ Hok _ _ Hc)). congruence.
Qed.

(** A byte that is a digit without regard to case is a digit. *)
Lemma isdigit_fold c d : 0 <= c < 256 -> 0 <= d < 256 -> tolower c = tolower d -> isdigit c = isdigit d.
Proof.
  intros Hc Hd. assert (Hall : forall c, 0 <= c < 256 -> isdigit c = ((48 <=? tolower c) && (tolower c <=? 57))).
  { intros x Hx. apply eqb_true_iff. revert x Hx.
    apply (byte_forall (fun c => Bool.eqb (isdigit c) ((48 <=? tolower c) && (tolower c <=? 57)))). by vm_compute. }
  intros Heq. rewrite !Hall, Heq by done. done.
Qed.

(** A name that may be a nickname. *)
Definition nick_ok (nick : cstring) : Prop := cstr nick /\ nick <> [] /\ isdigit (hd 0 nick) = false.

Lemma remote_nick_ok nick : cstr nick -> (_do_remote_nick_name nick =? 0)%nat = false -> nick_ok nick.
Proof.
  unfold _do_remote_nick_name. intros Hc. destruct (bad_start nick) eqn:Hb; [done|]. unfold bad_start in Hb.
  apply orb_false_iff in Hb as [_ Hd]. destruct (existsb _ _); [done|]. destruct nick; [done|]. done.
Qed.

Lemma valid_uid_digit i : valid_uid i = true -> exists c s, i = c :: s /\ isdigit c = true.
Proof.
  unfold valid_uid. destruct i as [|c s]; [done|]. destruct (_ <? _)%nat; [done|]. destruct (_ <? _)%nat; [done|].
  intros [H _]%andb_true_iff. by exists c, s.
Qed.

Lemma find_client_nick st nick : names_ok st -> nick_ok nick -> find_client st nick = find_name st nick.
Proof.
  intros Hok (Hc & Hne & Hd). unfold find_client. destruct (find_id st nick) as [i|] eqn:Hf; [|done].
  apply find_id_Some in Hf as [[c Hi] Hsame]. destruct (no_ids _ Hok _ _ Hi) as [Hv Hbi].
  destruct (valid_uid_digit (id_of i)) as (x & s & Hxs & Hx); [done|]. rewrite Hxs in *.
  destruct nick as [|y nick]; [done|]. apply same_name_cons in Hsame as [Hxy _]. cbn [hd] in Hd.
  apply cstr_cons in Hbi as [Hbx _]. apply cstr_cons in Hc as [Hby _]. unfold byte_ok in *.
  rewrite (isdigit_fold x y) in Hx by (lia || done). congruence.
Qed.

(** Whoever has the nickname now, nobody has it when that client is gone. *)
Lemma find_client_free st nick :
  names_ok st -> nick_ok nick ->
  match find_client st nick with
  | Some x => exists a, st !! x = Some a /\ same_name (n_name a) nick /\
      forall j d, delete x st !! j = Some d -> ~ same_name (n_name d) nick
  | None => forall j d, st !! j = Some d -> ~ same_name (n_name d) nick
  end.
Proof.
  intros Hok Hn. rewrite find_client_nick by done. destruct (find_name st nick) as [x|] eqn:Hf; [|by apply find_name_None].
  apply find_name_Some in Hf as (a & Ha & Hs). exists a. split; [done|]. split; [done|]. intros j d Hj Hd.
  apply lookup_delete_Some in Hj as [Hne Hj]. apply Hne. apply (no_unique _ Hok x j a d Ha Hj); [|by rewrite Hs, Hd].
  intros Hnil. apply same_name_length in Hs. rewrite Hnil in Hs. destruct Hn as (_ & Hne' & _). by destruct nick.
Qed.

Lemma names_ok_delete st i : names_ok st -> names_ok (delete i st).
Proof.
  intros [H1 H2]. split.
  - intros j c [_ Hj]%lookup_delete_Some. eauto.
  - intros j k c d [_ Hj]%lookup_delete_Some [_ Hk]%lookup_delete_Some. eauto.
Qed.

Lemma names_ok_insert st i c :
  names_ok st -> valid_uid (id_of i) = true -> cstr (id_of i) ->
  (forall j d, j <> i -> st !! j = Some d -> ~ same_name (n_name d) (n_name c)) -> names_ok (<[i := c]> st).
Proof.
  intros [H1 H2] Hv Hc Hfree. split.
  - intros j d [[<- _]|[_ Hj]]%lookup_insert_Some; [done|eauto].
  - intros j k d e [[<- <-]|[Hj Hd]]%lookup_insert_Some [[<- <-]|[Hk He]]%lookup_insert_Some Hne Hs; [done| | |eauto].
    + exfalso. apply (Hfree k e); [congruence|done|by symmetry].
    + exfalso. by apply (Hfree j d); [congruence|done|].
Qed.

Lemma dir_ok_delete st i : dir_ok st -> dir_ok (delete i st).
Proof.
  intros Hok. pose proof (names_ok_delete st i (dir_names st Hok)) as [_ H2]. split; [|done]. intros j c [_ Hj]%lookup_delete_Some. by apply (do_ids _ Hok j c).
Qed.

Lemma dir_ok_insert st i c :
  dir_ok st -> valid_uid i = true -> cstr i ->
  (forall j d, j <> i -> st !! j = Some d -> ~ same_name (n_name d) (n_name c)) -> dir_ok (<[i := c]> st).
Proof.
  intros Hok Hv Hc Hfree. assert (Hi : id_of i = i) by (by apply id_of_cstr). pose proof (names_ok_insert st i c (dir_names st Hok)) as Hn. rewrite Hi in Hn.
  destruct (Hn Hv Hc Hfree) as [_ H2]. split; [|done]. intros j d [[<- _]|[_ Hj]]%lookup_insert_Some; [done|]. by apply (do_ids _ Hok j d).
Qed.

Lemma exit_client_delete st i killed : (exit_client st i killed).1 = delete i st.
Proof. unfold exit_client. destruct (st !! i) eqn:Hi; [done|]. cbn [fst]. by rewrite delete_id. Qed.

(** What the three outcomes leave of the directory. *)
Lemma nick_collision_dir st link newid changing existing type :
  (nick_collision st link newid changing existing type).1 =
  match type with
  | NICKCOL_EQUAL => delete existing (if changing then delete newid st else st)
  | NICKCOL_NEW_WON => delete existing st
  | NICKCOL_EXISTING_WON => if changing then delete newid st else st
  end.
Proof.
  assert (He : forall st i, exists o, exit_client st i true = (delete i st, o)).
  { intros st' i. rewrite <- (exit_client_delete st' i true). by destruct (exit_client st' i true); eexists. }
  unfold nick_collision. destruct (He st newid) as [o1 H1], (He st existing) as [o2 H2], (He (delete newid st) existing) as [o3 H3].
  destruct changing, type; repeat case_decide; try (exfalso; naive_solver); rewrite ?H1, ?H2, ?H3; done.
Qed.

Section unique.
Context (decode_ip : cstring -> option cstring) (cloak : cstring -> cstring) (umode : cstring -> Z).

Lemma cstr_take n s : cstr s -> cstr (take n s).
Proof. apply Forall_take. Qed.

Lemma cstr_nth i (parv : list cstring) : Forall cstr parv -> cstr (nth i parv []).
Proof. intros H. rewrite nth_lookup. destruct (parv !! i) as [x|] eqn:Hi; [|constructor]. by eapply Forall_lookup_1 in H. Qed.

Lemma valid_uid_take i : valid_uid i = true -> take IDLEN i = i.
Proof.
  unfold valid_uid. destruct (Nat.ltb_spec (length i) 6); [done|]. destruct (Nat.ltb_spec IDLEN (length i)); [done|].
  intros _. by apply take_ge.
Qed.

(** A client that is registered has a user name and a host, and one that is not is local. *)
Definition fields_ok (st : directory) : Prop := forall i c, st !! i = Some c ->
  if n_unknown c then n_direction c = None else n_username c <> [] /\ n_realhost c <> [].

(** What the handlers keep. *)
Definition users_ok (st : directory) : Prop := names_ok st /\ fields_ok st.

Lemma users_ok_delete st i : users_ok st -> users_ok (delete i st).
Proof. intros [H1 H2]. split; [by apply names_ok_delete|]. intros j c [_ Hj]%lookup_delete_Some. by apply (H2 j). Qed.

Lemma users_ok_insert st i c :
  users_ok st -> valid_uid (id_of i) = true -> cstr (id_of i) -> (if n_unknown c then n_direction c = None else n_username c <> [] /\ n_realhost c <> []) ->
  (forall j d, j <> i -> st !! j = Some d -> ~ same_name (n_name d) (n_name c)) -> users_ok (<[i := c]> st).
Proof. intros [H1 H2] Hv Hc Hf Hfree. split; [by apply names_ok_insert|]. intros j d [[<- <-]|[_ Hj]]%lookup_insert_Some; [done|by apply (H2 j)]. Qed.

(** The bytes of a message that is read from a link; only the last parameter can be empty. *)
Definition msg_cstr (m : nmsg) : Prop :=
  match m with UID parv => Forall cstr parv /\ ((13 <= length parv)%nat -> nth 4 parv [] <> []) | NICK _ nick _ => cstr nick | _ => True end.

(** A handler returns, and the directory is one again. *)
Definition handled (r : option (directory * outbox)) : Prop := exists st' out, r = Some (st', out) /\ users_ok st'.

Lemma handled_pair (r : directory * outbox) : users_ok r.1 -> handled (Some r).
Proof. destruct r as [st' out]. intros H. by exists st', out. Qed.

Lemma introduce_ok st serv parv ip out :
  users_ok st -> Forall cstr parv -> valid_uid (nth 6 parv []) = true -> take USERLEN (nth 4 parv []) <> [] -> take HOSTLEN (nth 5 parv []) <> [] ->
  (forall j d, st !! j = Some d -> ~ same_name (n_name d) (take NICKLEN (nth 1 parv []))) ->
  users_ok (introduce cloak umode st serv parv ip out).1.
Proof.
  intros Hok Hp Hv Hu Hh Hfree. unfold introduce. rewrite valid_uid_take by done. cbn [fst].
  destruct (new_key_spec st (nth 6 parv [])) as [_ Hk]; [by apply cstr_nth|].
  apply users_ok_insert; [done|by rewrite Hk|rewrite Hk; by apply cstr_nth|done|]. intros j d _ Hj. exact (Hfree j d Hj).
Qed.

Lemma differ_total st x a u h : users_ok st -> st !! x = Some a -> n_unknown a = false -> is_Some (differ (n_username a) (n_realhost a) u h).
Proof.
  intros [_ Hf] Ha Hk. specialize (Hf x a Ha). rewrite Hk in Hf. destruct Hf as [Hu Hh].
  assert (Ht : forall p q, p <> [] -> is_Some (mycmp p q)) by (intros [|c p] q Hp; [done|]; unfold mycmp; destruct (negb _); eauto).
  unfold differ. destruct (Ht (n_username a) u Hu) as [d ->]. cbn [mbind option_bind]. destruct d; [eauto|by apply Ht].
Qed.

Lemma exit_users st x k : users_ok st -> users_ok (exit_client st x k).1.
Proof. rewrite exit_client_delete. apply users_ok_delete. Qed.

(** The rejections of [cmd_uid] leave the directory alone. *)
Lemma cmd_uid_ok st serv parv :
  users_ok st -> msg_cstr (UID parv) -> handled (cmd_uid decode_ip cloak umode st serv parv).
Proof.
  intros Hok [Hp Huser]. unfold cmd_uid. cbv zeta. destruct (Nat.ltb_spec (length parv) 13) as [Hl|Hl]; [by apply handled_pair|]. destruct (negb _); [by apply handled_pair|].
  destruct ((_ =? 0)%nat || _) eqn:Hnick; [by apply handled_pair|]. apply orb_false_iff in Hnick as [Hnick _].
  destruct (negb (valid_uid _) || _) eqn:Hid; [by apply handled_pair|]. apply orb_false_iff in Hid as [Hid%negb_false_iff _].
  destruct (negb (valid_host (nth 5 parv []) false)) eqn:Hhost; [by apply handled_pair|]. destruct (negb _ && negb _); [by apply handled_pair|].
  set (ip := if bool_decide _ then None else _). destruct (negb _ && negb _); [by apply handled_pair|].
  destruct (sv_quarantined serv && _); [by apply handled_pair|].
  assert (Hu : take USERLEN (nth 4 parv []) <> []) by (specialize (Huser Hl); by destruct (nth 4 parv [])).
  assert (Hh : take HOSTLEN (nth 5 parv []) <> []) by (apply negb_false_iff in Hhost; by destruct (nth 5 parv [])).
  assert (Hn : nick_ok (take NICKLEN (nth 1 parv []))) by (apply remote_nick_ok; [by apply cstr_take, cstr_nth|done]).
  pose proof (find_client_free st _ (proj1 Hok) Hn) as Hfree. destruct (find_client st _) as [x|] eqn:Hf; [|by apply handled_pair, introduce_ok].
  destruct Hfree as (a & Ha & _ & Hfree). rewrite Ha. cbn [mbind option_bind]. destruct (n_unknown a) eqn:Hk.
  { pose proof (exit_client_delete st x true) as He. destruct (exit_client st x true) as [st1 o]. cbn [fst] in He. subst st1.
    apply handled_pair, introduce_ok; [by apply users_ok_delete|done..]. }
  destruct (differ_total st x a (nth 4 parv []) (nth 5 parv []) Hok Ha Hk) as [d ->]. cbn [mbind option_bind].
  pose proof (nick_collision_dir st (sv_link serv) (nth 6 parv []) false x) as Hc.
  destruct (_ =? _); [apply handled_pair; rewrite Hc; by apply users_ok_delete|].
  destruct (new_wins _ _ _ || _).
  { specialize (Hc NICKCOL_NEW_WON). destruct (nick_collision _ _ _ _ _ NICKCOL_NEW_WON) as [st1 o]. cbn [fst] in Hc. subst st1.
    apply handled_pair, introduce_ok; [by apply users_ok_delete|done..]. }
  destruct (existing_wins _ _ _); apply handled_pair; [by rewrite Hc|done].
Qed.

Lemma change_nick_ok now id nick link ts removemoder st out :
  users_ok st -> is_Some (st !! id) -> (forall j d, j <> id -> st !! j = Some d -> ~ same_name (n_name d) nick) ->
  handled (change_nick now id nick link ts removemoder st out).
Proof.
  intros Hok [c Hc] Hfree. unfold change_nick. rewrite Hc. cbn [mbind option_bind]. apply handled_pair. cbn [fst].
  destruct (no_ids _ (proj1 Hok) _ _ Hc). apply users_ok_insert; try done. by apply (proj2 Hok id c).
Qed.

Lemma cmd_nick_remote_ok now st id c link nick ts :
  users_ok st -> cstr nick -> st !! id = Some c -> n_direction c = Some link -> handled (cmd_nick_remote now st id nick ts).
Proof.
  intros Hok Hp Hid Hdir. unfold cmd_nick_remote. rewrite Hid. cbn [mbind option_bind]. rewrite Hdir. cbn [mbind option_bind]. cbv zeta.
  destruct ((_ =? 0)%nat || _) eqn:Hnick.
  { pose proof (exit_users st id true Hok) as He. destruct (exit_client st id true) as [st1 o]. by apply handled_pair. }
  apply orb_false_iff in Hnick as [Hnick _].
  assert (Hn : nick_ok (take NICKLEN nick)) by (apply remote_nick_ok; [by apply cstr_take|done]).
  pose proof (find_client_free st _ (proj1 Hok) Hn) as Hfree. destruct (find_client st _) as [x|] eqn:Hf;
    [|apply change_nick_ok; [done|by rewrite Hid|intros j d _; apply Hfree]].
  destruct Hfree as (a & Ha & Hsame & Hfree). rewrite Ha. cbn [mbind option_bind]. destruct (n_unknown a) eqn:Hk.
  { assert (Hxi : x <> id) by (intros ->; pose proof (proj2 Hok id a Ha) as H; rewrite Hk in H; congruence).
    pose proof (exit_client_delete st x true) as He. destruct (exit_client st x true) as [st1 o]. cbn [fst] in He. subst st1.
    apply change_nick_ok; [by apply users_ok_delete|rewrite lookup_delete_ne, Hid; done|intros j d _; apply Hfree]. }
  case_bool_decide as Hx; [subst x|].
  { case_bool_decide; [by apply handled_pair|]. apply change_nick_ok; [done|by rewrite Hid|]. intros j d Hj Hd. apply (Hfree j).
    by rewrite lookup_delete_ne by congruence. }
  destruct (differ_total st x a (n_username c) (n_realhost c) Hok Ha Hk) as [d ->]. cbn [mbind option_bind].
  pose proof (nick_collision_dir st link id true x) as Hc.
  destruct (bool_decide _ || _); [apply handled_pair; rewrite Hc; by do 2 apply users_ok_delete|].
  destruct (new_wins _ _ _).
  { specialize (Hc NICKCOL_NEW_WON). destruct (nick_collision _ _ _ _ _ NICKCOL_NEW_WON) as [st1 o]. cbn [fst] in Hc. subst st1.
    apply change_nick_ok; [by apply users_ok_delete|rewrite lookup_delete_ne, Hid; done|intros j e _; apply Hfree]. }
  destruct (existing_wins _ _ _); apply handled_pair; [rewrite Hc; by apply users_ok_delete|done].
Qed.

Lemma cmd_kill_ok st link target : users_ok st -> users_ok (cmd_kill st link target).1.
Proof.
  intros Hok. unfold cmd_kill. destruct (find_client st target) as [x|]; [|done]. destruct (st !! x) as [c|]; [|done].
  destruct (n_unknown c); [done|]. pose proof (fun k => exit_users st x k Hok) as He.
  destruct (n_direction c); [|apply He]. specialize (He true). by destruct (exit_client st x true).
Qed.

Lemma from_source_ok st link sender handler : users_ok st ->
  (forall x c, st !! x = Some c -> n_direction c = Some link -> handled (handler x)) -> handled (from_source st link sender handler).
Proof.
  intros Hok Hh. unfold from_source. destruct (find_client st sender) as [x|]; [|by apply handled_pair]. destruct (st !! x) as [c|] eqn:Hc; [|by apply handled_pair].
  case_bool_decide; [by apply (Hh x c)|by apply handled_pair].
Qed.

Lemma receive_ok now serv st m : users_ok st -> msg_cstr m -> handled (receive decode_ip cloak umode now serv st m).
Proof.
  intros Hok Hm. destruct m; cbn [receive msg_cstr] in *; try by apply handled_pair.
  - by apply handled_pair, cmd_kill_ok.
  - by apply cmd_uid_ok.
  - apply from_source_ok; [done|]. intros x c Hc Hd. by eapply cmd_nick_remote_ok.
  - apply from_source_ok; [done|]. intros x c _ _. by apply handled_pair, exit_users.
Qed.
End unique.

(** The messages of a link, one after the other. *)
Fixpoint receive_all (decode_ip : cstring -> option cstring) (cloak : cstring -> cstring) (umode : cstring -> Z)
    (now : Z) (serv : nserver) (ms : list nmsg) (st : directory) : option (directory * outbox) :=
  match ms with
  | [] => Some (st, [])
  | m :: ms =>
      '(st, o1) ← receive decode_ip cloak umode now serv st m;
      '(st, o2) ← receive_all decode_ip cloak umode now serv ms st;
      Some (st, o1 ++ o2)
  end.

(** C29: nicknames stay unique.  Whatever UID, NICK, KILL and QUIT lines a linked server sends, with
    parameters that are valid or not and with IDs that are in use or not, the handlers return, and a
    directory in which every client has a UID and no two share a nickname, without regard to case, remains
    one, whoever wins a collision. *)
Theorem nicks_stay_unique (decode_ip : cstring -> option cstring) (cloak : cstring -> cstring) (umode : cstring -> Z)
  (now : Z) (serv : nserver) (ms : list nmsg) (st : directory)
  (Hok : users_ok st) (Hms : Forall msg_cstr ms) :
  exists st' out, receive_all decode_ip cloak umode now serv ms st = Some (st', out) /\ users_ok st'.
Proof.
  revert st Hok. induction Hms as [|m ms Hm _ IH]; intros st Hok; cbn [receive_all]; [by exists st, []|].
  destruct (receive_ok decode_ip cloak umode now serv st m Hok Hm) as (st1 & o1 & -> & Hok1). cbn [mbind option_bind].
  destruct (IH st1 Hok1) as (st2 & o2 & -> & Hok2). cbn [mbind option_bind]. by exists st2, (o1 ++ o2).
Qed.

Definition sample_uid (nick ts username id : cstring) : list cstring :=
  [[]; nick; str "0"; ts; username; str "host.example"; id; str "0"; str "+i"; str "*"; str "*"; str "*"; str "real name"].

Definition sample_nick (nick : cstring) (ts : Z) : nclient :=
  MkN nick ts (str "alice") (str "host.example") None false false [] (str "cloaked") None (str "Alice") 0.

(** The third client has the ID of the second one, and is the one that the change of the
    nickname is about. *)
Lemma nicks_stay_unique_witness :
  let serv := MkServer (str "002") 1 true false in
  let st : directory := {[ str "001AAAAAA" := sample_nick (str "Alice") 100 ]} in
  let expected := [(AllBut None, KILL (str "001AAAAAA")); (AllBut (Some 1%positive), INTRODUCE (str "002AAAAAA"));
    (AllBut (Some 1%positive), INTRODUCE (str "002AAAAAA"));
    (ToOne 1, KILL (str "002AAAAAA")); (AllBut (Some 1%positive), KILL (str "002AAAAAA"))] in
  exists st', receive_all (fun _ => None) (fun h => h) (fun _ => 0) 500 serv
          [UID (sample_uid (str "alicE") (str "90") (str "bob") (str "002AAAAAA"));
           UID (sample_uid (str "carol") (str "95") (str "carol") (str "002AAAAAA"));
           NICK (str "002AAAAAA") (str "ALICE") 200] st = Some (st', expected) /\
    users_ok st' /\ map_to_list (n_name <$> st') = [(str "002AAAAAA", str "alicE")].
Proof.
  intros serv st expected. set (ms := [UID _; UID _; NICK _ _ _]).
  assert (Hc : forall s, forallb (fun c => (0 <? c) && (c <? 256)) s = true -> cstr s).
  { intros s Hs. apply Forall_forall. intros x Hx. unfold byte_ok. rewrite forallb_forall in Hs.
    specialize (Hs x ltac:(by apply list_elem_of_In)). lia. }
  assert (Hok : users_ok st).
  { split; [split|].
    - intros i c [<- _]%lookup_singleton_Some. split; [by vm_compute|by apply Hc].
    - intros i j c d [<- _]%lookup_singleton_Some [<- _]%lookup_singleton_Some. done.
    - intros i c [_ <-]%lookup_singleton_Some. done. }
  assert (Hms : Forall msg_cstr ms).
  { assert (Hcs : forall l, forallb (forallb (fun c => (0 <? c) && (c <? 256))) l = true -> Forall cstr l).
    { intros l Hl. apply Forall_forall. intros x Hx. apply Hc. rewrite forallb_forall in Hl. by apply Hl, list_elem_of_In. }
    unfold ms. apply Forall_cons. split; [split; [apply Hcs; vm_compute; reflexivity|done]|].
    apply Forall_cons. split; [split; [apply Hcs; vm_compute; reflexivity|done]|]. apply Forall_cons. split; [by apply Hc|constructor]. }
  destruct (nicks_stay_unique (fun _ => None) (fun h => h) (fun _ => 0) 500 serv ms st Hok Hms) as (st' & out & Hr & Hst').
  assert (Hb : match receive_all (fun _ => None) (fun h => h) (fun _ => 0) 500 serv ms st with
               | Some (st', out) => bool_decide (map_to_list (n_name <$> st') = [(str "002AAAAAA", str "alicE")] /\ out = expected)
               | None => false end = true) by (vm_compute; reflexivity).
  rewrite Hr in Hb. apply bool_decide_eq_true in Hb as [H1 ->]. exists st'. split; [exact Hr|split; [exact Hst'|exact H1]].
Defined.
