(* ===== verification/NickNet.v ===== *)
(** * Two servers that link (src/modules/nick.c)

    When two servers link, each sends a UID line for every user it has, and each resolves the
    collisions of nicknames on its own; the KILLs that result cross on the link.  The network is two
    directories and two queues; a step delivers the oldest message of a queue to the handlers
    of [Nick].  Whatever the interleaving, both servers end with the same users. *)
From stdpp Require Import relations.
From S2P Require Import Prelude Chars Strings Crule CruleFuncs Names Nick.

(** ** The network *)

Record net := MkNet { dirs : bool -> directory; queue : bool -> list nmsg }.

Definition upd {A} (s : bool) (x : A) (f : bool -> A) : bool -> A := fun t => if Bool.eqb t s then x else f t.

(** The messages for the peer, the only link (number 1) of either server. *)
Definition to_peer (out : outbox) : list nmsg :=
  omap (fun '(d, m) =>
    match d with
    | ToOne l => if decide (l = 1%positive) then Some m else None
    | AllBut None => Some m
    | AllBut (Some l) => if decide (l = 1%positive) then None else Some m
    end) out.

(** ** Who survives *)

Definition differs (u v : nclient) : bool :=
  negb (bool_decide (same_name (n_username u) (n_username v)) && bool_decide (same_name (n_realhost u) (n_realhost v))).

(** Different users: the one that has the nick for longer; the same user twice: the newer connection. *)
Definition wins (u v : nclient) : bool :=
  if differs u v then n_lastnick u <? n_lastnick v else n_lastnick v <? n_lastnick u.

(** The part of a client that both servers know. *)
Definition ident (c : nclient) : cstring * Z * cstring * cstring := (n_name c, n_lastnick c, n_username c, n_realhost c).

(** ** The handlers' tests on well-formed clients *)

Lemma mycmp_same a b : cstr a -> cstr b -> a <> [] -> mycmp a b = Some (negb (bool_decide (same_name a b))).
Proof.
  intros Ha Hb Hne. destruct a as [|c a]; [done|]. unfold mycmp. apply cstr_cons in Ha as [Hc Ha]. unfold byte_ok in Hc.
  assert (Hz : smycmp (c :: a) b = 0 <-> same_name (c :: a) b) by (apply smycmp_zero; [by apply cstr_cons|done]).
  cbn [smycmp hd] in Hz |- *.
  destruct (Z.eqb_spec (toupper c) (toupper (hd 0 b))) as [Heq|Hneq]; cbn [negb].
  - rewrite Heq, Z.sub_diag, Z.eqb_refl in Hz. do 2 f_equal. apply eq_true_iff_eq. by rewrite Z.eqb_eq, bool_decide_eq_true.
  - rewrite bool_decide_false; [done|]. rewrite <- Hz. rewrite (proj2 (Z.eqb_neq _ _)) by lia. lia.
Qed.

Lemma differ_differs u v :
  cstr (n_username u) -> cstr (n_username v) -> n_username u <> [] ->
  cstr (n_realhost u) -> cstr (n_realhost v) -> n_realhost u <> [] ->
  differ (n_username u) (n_realhost u) (n_username v) (n_realhost v) = Some (differs u v).
Proof.
  intros. unfold differ, differs. rewrite !mycmp_same by done. cbn [mbind option_bind].
  destruct (bool_decide (same_name (n_username u) _)); [|done]. cbn [negb andb]. done.
Qed.

(** Two UIDs that agree without regard to case are equal: they have no lower case letters. *)
Lemma upper_inj c d :
  byte_ok c -> byte_ok d -> digit_or_upper c = true -> digit_or_upper d = true -> tolower c = tolower d -> c = d.
Proof.
  unfold byte_ok. intros Hc Hd. assert (Hall : forall c, 0 <= c < 256 -> digit_or_upper c = true -> 48 <= c <= 57 \/ 65 <= c <= 90).
  { intros x Hx. assert (Himp : implb (digit_or_upper x) (((48 <=? x) && (x <=? 57)) || ((65 <=? x) && (x <=? 90))) = true).
    { revert x Hx. apply byte_forall. by vm_compute. }
    intros H. rewrite H in Himp. cbn [implb] in Himp. lia. }
  intros H1%Hall H2%Hall; [|lia..]. rewrite !tolower_ascii by lia. unfold ascii_lower.
  destruct (Z.leb_spec 65 c), (Z.leb_spec c 90), (Z.leb_spec 65 d), (Z.leb_spec d 90); cbn [andb]; lia.
Qed.

Lemma valid_uid_chars i : valid_uid i = true -> forallb digit_or_upper i = true.
Proof.
  unfold valid_uid. destruct (_ <? _)%nat; [done|]. destruct (_ <? _)%nat; [done|]. destruct i as [|c i]; [done|]. cbn [hd tl forallb].
  intros [Hd Hr]%andb_true_iff. unfold digit_or_upper at 1. by rewrite Hd, Hr.
Qed.

Lemma same_uid i j : valid_uid i = true -> valid_uid j = true -> cstr i -> cstr j -> same_name i j -> i = j.
Proof.
  intros Hi%valid_uid_chars Hj%valid_uid_chars. revert j Hj. induction i as [|c i IH]; intros [|d j] Hj Hci Hcj Hs; try done.
  apply same_name_cons in Hs as [Hcd Hs]. cbn [forallb] in *. apply andb_true_iff in Hi as [Hc Hi], Hj as [Hd Hj].
  apply cstr_cons in Hci as [Hbc Hci], Hcj as [Hbd Hcj]. f_equal; [by apply upper_inj|by apply IH].
Qed.

(** A UID that is not in a directory of users is not found as a name either. *)
Lemma find_client_absent st x :
  dir_ok st -> (forall i c, st !! i = Some c -> nick_ok (n_name c)) ->
  valid_uid x = true -> cstr x -> st !! x = None -> find_client st x = None.
Proof.
  intros Hok Hn Hv Hc Hx. unfold find_client. destruct (find_id st x) as [i|] eqn:Hf.
  - apply find_id_Some in Hf as [[c Hi] Hs]. destruct (do_ids _ Hok _ _ Hi) as [Hvi Hci]. rewrite id_of_cstr in Hs by done.
    rewrite (same_uid i x) in Hi by done. congruence.
  - destruct (find_name st x) as [i|] eqn:Hfn; [|done]. apply find_name_Some in Hfn as (c & Hi & Hs).
    destruct (Hn _ _ Hi) as (Hcn & Hne & Hd). destruct (valid_uid_digit x Hv) as (y & t & -> & Hy).
    destruct (n_name c) as [|z nm]; [done|]. apply same_name_cons in Hs as [Hzy _]. cbn [hd] in Hd.
    apply cstr_cons in Hcn as [Hz _], Hc as [Hby _]. unfold byte_ok in *. rewrite (isdigit_fold z y) in Hd by (lia || done). congruence.
Qed.

Lemma exit_killed st x : exit_client st x true = (delete x st, []).
Proof. unfold exit_client. destruct (st !! x) eqn:Hx; [by rewrite andb_false_r|by rewrite delete_id]. Qed.

(** The outcomes of a collision with a new user. *)
Lemma new_collision st newid x type : cstr newid -> cstr x ->
  nick_collision st 1 newid false x type =
  match type with
  | NICKCOL_EQUAL => (delete x st, [(ToOne 1, KILL newid); (AllBut None, KILL x)])
  | NICKCOL_NEW_WON => (delete x st, [(AllBut None, KILL x)])
  | NICKCOL_EXISTING_WON => (st, [(ToOne 1, KILL newid)])
  end.
Proof.
  intros Hn%id_of_cstr Hx%id_of_cstr. unfold nick_collision. rewrite Hn, Hx. by destruct type; repeat case_decide; try (exfalso; naive_solver); rewrite ?exit_killed.
Qed.

Lemma differs_comm u v : differs u v = differs v u.
Proof. unfold differs. f_equal. f_equal; apply bool_decide_ext; split; by symmetry. Qed.

Lemma wins_not u v : wins u v = true -> wins v u = false.
Proof. unfold wins. rewrite (differs_comm v u). destruct (differs u v); rewrite Z.ltb_lt, Z.ltb_ge; lia. Qed.

(** The comparisons of times in terms of [wins]. *)
Lemma collision_wins u v :
  new_wins (differs u v) (n_lastnick u) (n_lastnick v) = wins v u /\
  existing_wins (differs u v) (n_lastnick u) (n_lastnick v) = wins u v.
Proof.
  unfold new_wins, existing_wins, wins. rewrite (differs_comm v u).
  destruct (differs u v); cbn [andb orb negb]; rewrite ?orb_false_r; done.
Qed.

Lemma wins_total u v : n_lastnick u <> n_lastnick v -> wins u v = true \/ wins v u = true.
Proof. unfold wins. rewrite (differs_comm v u). destruct (differs u v); rewrite !Z.ltb_lt; lia. Qed.

Lemma wins_equal u v : n_lastnick u = n_lastnick v -> wins u v = false.
Proof. unfold wins. intros ->. destruct (differs u v); apply Z.ltb_irrefl. Qed.

Section link.
Context (decode_ip : cstring -> option cstring) (cloak : cstring -> cstring) (umode : cstring -> Z).
Context (sid : bool -> cstring) (U : bool -> directory).

(** The server that side [s] receives from. *)
Definition peer (s : bool) : nserver := MkServer (sid (negb s)) 1 true false.

Inductive deliver : net -> net -> Prop :=
| Deliver s m ms st out n now :
    queue n s = m :: ms ->
    receive decode_ip cloak umode now (peer s) (dirs n s) m = Some (st, out) ->
    deliver n (MkNet (upd s st (dirs n)) (upd (negb s) (queue n (negb s) ++ to_peer out) (upd s ms (queue n)))).

(** A user survives unless the other side has its nickname and does not lose. *)
Definition rival (s : bool) (u : nclient) : option nclient :=
  i ← find_name (U (negb s)) (n_name u); U (negb s) !! i.

Definition alive (s : bool) (u : nclient) : bool :=
  match rival s u with Some v => wins u v | None => true end.

(** A registered local user with the fields that a server sends. *)
Record user_ok (s : bool) (i : cstring) (u : nclient) : Prop := {
  us_sid : take 3 i = take 3 (sid s);
  us_local : n_direction u = None;
  us_known : n_unknown u = false;
  us_name : cstr (n_name u) /\ take NICKLEN (n_name u) = n_name u;
  us_nick : (_do_remote_nick_name (n_name u) =? 0)%nat = false /\ reserved (n_name u) = false;
  us_user : cstr (n_username u) /\ n_username u <> [] /\ take USERLEN (n_username u) = n_username u;
  us_host : cstr (n_realhost u) /\ valid_host (n_realhost u) false = true
}.

(** A UID line for a user. *)
Record encodes (i : cstring) (u : nclient) (parv : list cstring) : Prop := {
  en_len : (13 <= length parv)%nat;
  en_name : nth 1 parv [] = n_name u;
  en_time : atoi (nth 3 parv []) = n_lastnick u;
  en_user : nth 4 parv [] = n_username u;
  en_host : nth 5 parv [] = n_realhost u;
  en_id : nth 6 parv [] = i;
  en_vhost : nth 9 parv [] = str "*" \/ valid_host (nth 9 parv []) false = true;
  en_ip : nth 11 parv [] = str "*" \/ is_Some (decode_ip (nth 11 parv []))
}.

(** The burst of a side: a UID line for each of its users, in any order. *)
Record burst (s : bool) (ls : list (cstring * list cstring)) : Prop := {
  bu_nodup : NoDup ls.*1;
  bu_all i : i ∈ ls.*1 <-> is_Some (U s !! i);
  bu_line i parv u : (i, parv) ∈ ls -> U s !! i = Some u -> encodes i u parv
}.

Record start_ok (ls : bool -> list (cstring * list cstring)) : Prop := {
  so_sids : take 3 (sid true) <> take 3 (sid false);
  so_dir s : dir_ok (U s);
  so_user s i u : U s !! i = Some u -> user_ok s i u;
  so_burst s : burst s (ls s)
}.

(** The moment of linking. *)
Definition start (ls : bool -> list (cstring * list cstring)) : net :=
  MkNet U (fun s => UID <$> (ls (negb s)).*2).

(** What both servers should know in the end. *)
Definition survivor (i : cstring) : option (cstring * Z * cstring * cstring) :=
  match U true !! i with
  | Some u => if alive true u then Some (ident u) else None
  | None => match U false !! i with Some v => if alive false v then Some (ident v) else None | None => None end
  end.

Context (ls : bool -> list (cstring * list cstring)) (Hstart : start_ok ls).

(** ** Facts about the users *)

Lemma sids_differ s : take 3 (sid s) <> take 3 (sid (negb s)).
Proof using Hstart. pose proof (so_sids _ Hstart). destruct s; simpl; congruence. Qed.

Lemma sides_disjoint s i u v : U s !! i = Some u -> U (negb s) !! i = Some v -> False.
Proof using Hstart.
  intros Hu Hv. apply (sids_differ s). rewrite <- (us_sid _ _ _ (so_user _ Hstart _ _ _ Hu)).
  by rewrite <- (us_sid _ _ _ (so_user _ Hstart _ _ _ Hv)).
Qed.

Lemma user_nick s i u : U s !! i = Some u -> nick_ok (n_name u).
Proof using Hstart.
  intros Hu. pose proof (so_user _ Hstart _ _ _ Hu) as H. apply remote_nick_ok; [apply (us_name _ _ _ H)|apply (us_nick _ _ _ H)].
Qed.

Lemma rival_Some s i u j v :
  U s !! i = Some u -> U (negb s) !! j = Some v -> same_name (n_name v) (n_name u) -> rival s u = Some v.
Proof using Hstart.
  intros Hu Hv Hs. unfold rival. destruct (find_name (U (negb s)) (n_name u)) as [k|] eqn:Hf.
  - apply find_name_Some in Hf as (w & Hw & Hsw). cbn [mbind option_bind]. rewrite <- Hv.
    f_equal. apply (do_unique _ (so_dir _ Hstart (negb s)) k j w v Hw Hv).
    + destruct (user_nick _ _ _ Hw) as (_ & Hne & _). done.
    + by rewrite Hsw, Hs.
  - exfalso. by eapply find_name_None.
Qed.

Lemma rival_spec s u v : rival s u = Some v -> exists j, U (negb s) !! j = Some v /\ same_name (n_name v) (n_name u).
Proof.
  unfold rival. destruct (find_name _ _) as [j|] eqn:Hf; [|done]. cbn [mbind option_bind]. intros Hv.
  apply find_name_Some in Hf as (w & Hw & Hs). exists j. rewrite Hv in Hw. by injection Hw as <-.
Qed.

Lemma rival_None s u j v : rival s u = None -> U (negb s) !! j = Some v -> ~ same_name (n_name v) (n_name u).
Proof.
  unfold rival. intros Hr Hv Hs. destruct (find_name _ _) as [k|] eqn:Hf; [|by eapply find_name_None].
  apply find_name_Some in Hf as (w & Hw & _). cbn [mbind option_bind] in Hr. congruence.
Qed.

(** ** What a side knows at any moment *)

(** No user that survives has this ID. *)
Definition dead (x : cstring) : Prop := forall s u, U s !! x = Some u -> alive s u = false.

(** The messages behind the burst. *)
Definition quiet (m : nmsg) : Prop :=
  match m with
  | KILL x => valid_uid x = true /\ cstr x /\ dead x
  | NUMERIC _ => True
  | _ => False
  end.

(** The UID line of a rival is still to come. *)
Definition pending (s : bool) (vs : list (cstring * list cstring)) (u : nclient) : Prop :=
  exists i v, i ∈ vs.*1 /\ U (negb s) !! i = Some v /\ same_name (n_name v) (n_name u).

Definition namesake (s : bool) (u : nclient) (i : cstring) : bool :=
  match U (negb s) !! i with Some v => bool_decide (same_name (n_name v) (n_name u)) | None => false end.

Lemma pending_existsb s vs u : pending s vs u <-> existsb (namesake s u) vs.*1 = true.
Proof.
  rewrite existsb_exists. unfold pending, namesake. split.
  - intros (i & v & Hi%list_elem_of_In & Hv & Hs). exists i. split; [done|]. rewrite Hv. by apply bool_decide_eq_true.
  - intros (i & Hi%list_elem_of_In & Hn). destruct (U (negb s) !! i) as [v|] eqn:Hv; [|done].
    apply bool_decide_eq_true in Hn. eauto.
Qed.

#[local] Instance pending_dec s vs u : Decision (pending s vs u).
Proof. destruct (existsb (namesake s u) vs.*1) eqn:He; [left|right]; rewrite pending_existsb; congruence. Defined.

Definition known (c v : nclient) : Prop := ident c = ident v /\ n_unknown c = false.

(** [vs] are the UID lines that are still in the queue of side [s]. *)
Record node_inv (s : bool) (st : directory) (vs : list (cstring * list cstring)) : Prop := {
  ni_suffix : exists before, ls (negb s) = before ++ vs;
  ni_own i u : U s !! i = Some u -> alive s u = true \/ pending s vs u -> st !! i = Some u;
  ni_own_gone i u : U s !! i = Some u -> alive s u = false -> ~ pending s vs u -> st !! i = None;
  ni_other i v : U (negb s) !! i = Some v -> i ∉ vs.*1 -> alive (negb s) v = true -> exists c, st !! i = Some c /\ known c v;
  ni_other_gone i v : U (negb s) !! i = Some v -> i ∈ vs.*1 \/ alive (negb s) v = false -> st !! i = None;
  ni_dom i c : st !! i = Some c -> is_Some (U s !! i) \/ is_Some (U (negb s) !! i);
  ni_ok : dir_ok st
}.

Lemma start_inv s : node_inv s (U s) (ls (negb s)).
Proof using Hstart.
  pose proof (so_burst _ Hstart (negb s)) as Hb. split; [by exists []|done| | | |eauto|apply (so_dir _ Hstart)].
  - intros i u Hu Hdead Hp. exfalso. apply Hp. unfold alive in Hdead. destruct (rival s u) as [v|] eqn:Hr; [|done].
    apply rival_spec in Hr as (j & Hj & Hs). exists j, v. split; [|done]. apply (bu_all _ _ Hb). eauto.
  - intros i v Hv Hni. exfalso. apply Hni, (bu_all _ _ Hb). eauto.
  - intros i v Hv _. destruct (U s !! i) as [u|] eqn:Hu; [|done]. exfalso. by eapply sides_disjoint.
Qed.

Section node.
Context (s : bool) (st : directory) (vs : list (cstring * list cstring)).
Context (Hinv : node_inv s st vs).

(** An entry is an own user or one of the other side under its name there. *)
Lemma entry_cases i c :
  st !! i = Some c ->
  (U s !! i = Some c /\ (alive s c = true \/ pending s vs c)) \/
  (exists v, U (negb s) !! i = Some v /\ i ∉ vs.*1 /\ alive (negb s) v = true /\ known c v).
Proof using Hinv.
  intros Hi. destruct (ni_dom _ _ _ Hinv i c Hi) as [[u Hu]|[v Hv]].
  - left. destruct (alive s u) eqn:Ha.
    + rewrite (ni_own _ _ _ Hinv i u Hu) in Hi by eauto. injection Hi as ->. eauto.
    + destruct (decide (pending s vs u)) as [Hp|Hp].
      * rewrite (ni_own _ _ _ Hinv i u Hu) in Hi by eauto. injection Hi as ->. eauto.
      * rewrite (ni_own_gone _ _ _ Hinv i u Hu) in Hi by done. done.
  - right. exists v. split; [done|]. destruct (decide (i ∈ vs.*1)) as [Hin|Hin].
    { rewrite (ni_other_gone _ _ _ Hinv i v Hv) in Hi by eauto. done. }
    split; [done|]. destruct (alive (negb s) v) eqn:Ha; [|rewrite (ni_other_gone _ _ _ Hinv i v Hv) in Hi by eauto; done].
    split; [done|]. destruct (ni_other _ _ _ Hinv i v Hv Hin Ha) as (c' & Hc' & Hk). congruence.
Qed.

Lemma entry_nick i c : st !! i = Some c -> nick_ok (n_name c).
Proof using Hinv Hstart.
  intros [[Hu _]|(v & Hv & _ & _ & [Hk _])]%entry_cases; [by eapply user_nick|]. injection Hk as -> _ _ _. by eapply user_nick.
Qed.

Lemma entry_known i c : st !! i = Some c -> n_unknown c = false.
Proof using Hinv Hstart.
  intros [[Hu _]|(v & _ & _ & _ & [_ Hk])]%entry_cases; [by apply (us_known _ _ _ (so_user _ Hstart _ _ _ Hu))|done].
Qed.

(** A KILL behind the burst finds nobody: the collision was resolved here, too. *)
Lemma node_kill x :
  vs = [] -> valid_uid x = true -> cstr x -> dead x -> cmd_kill st 1 x = (st, [(ToOne 1, NUMERIC (str "401"))]).
Proof using Hinv Hstart.
  intros Hvs Hv Hc Hd. unfold cmd_kill. rewrite find_client_absent; [done|apply (ni_ok _ _ _ Hinv)|apply entry_nick|done|done|].
  destruct (st !! x) as [c|] eqn:Hx; [|done]. exfalso. apply entry_cases in Hx as [[Hu [Ha|Hp]]|(v & Hu & _ & Ha & _)].
  - by rewrite (Hd _ _ Hu) in Ha.
  - rewrite Hvs in Hp. destruct Hp as (? & ? & Hin & _). by apply elem_of_nil in Hin.
  - by rewrite (Hd _ _ Hu) in Ha.
Qed.
End node.

(** Two users of the same nickname on the two sides. *)
Lemma namesakes s i v j u :
  U (negb s) !! i = Some v -> U s !! j = Some u -> same_name (n_name v) (n_name u) ->
  alive s u = wins u v /\ alive (negb s) v = wins v u.
Proof using Hstart.
  intros Hv Hu Hs. unfold alive. rewrite (rival_Some s j u i v) by done.
  rewrite (rival_Some (negb s) i v j u); [done|done|by rewrite negb_involutive|by symmetry].
Qed.

(** The next line of a burst. *)
Lemma next_line s before i parv vs :
  ls (negb s) = before ++ (i, parv) :: vs ->
  i ∉ vs.*1 /\ exists v, U (negb s) !! i = Some v /\ encodes i v parv.
Proof using Hstart.
  intros Hl. pose proof (so_burst _ Hstart (negb s)) as [Hnd Hall Hline]. rewrite Hl, fmap_app, fmap_cons in Hnd. cbn [fst] in Hnd.
  apply NoDup_app in Hnd as (_ & _ & Hnd). apply NoDup_cons in Hnd as [Hi _]. split; [done|].
  assert (Hin : (i, parv) ∈ ls (negb s)) by (rewrite Hl; apply elem_of_app; right; left).
  destruct (proj1 (Hall i)) as [v Hv]; [by apply (list_elem_of_fmap_2 fst) in Hin|]. eauto.
Qed.

(** The state after a UID line, whoever wins. *)
Lemma resolve_inv s st st' i parv vs v :
  node_inv s st ((i, parv) :: vs) -> U (negb s) !! i = Some v -> i ∉ vs.*1 -> dir_ok st' ->
  (forall k, k <> i -> (forall u, U s !! k = Some u -> ~ same_name (n_name v) (n_name u)) -> st' !! k = st !! k) ->
  (if alive (negb s) v then exists c, st' !! i = Some c /\ known c v else st' !! i = None) ->
  (forall j u, U s !! j = Some u -> same_name (n_name v) (n_name u) -> st' !! j = if alive s u then Some u else None) ->
  node_inv s st' vs.
Proof using Hstart cloak umode.
  intros Hinv Hv Hni Hok Hsame Hi Hnames.
  assert (Hown : forall k u, U s !! k = Some u -> k <> i) by (intros k u Hu ->; by eapply sides_disjoint).
  assert (Hpend : forall u, pending s ((i, parv) :: vs) u <-> same_name (n_name v) (n_name u) \/ pending s vs u).
  { intros u. rewrite !pending_existsb, fmap_cons. cbn [existsb fst]. rewrite orb_true_iff. unfold namesake at 1. rewrite Hv.
    by rewrite bool_decide_eq_true. }
  assert (Hother : forall k w, U (negb s) !! k = Some w -> k <> i -> st' !! k = st !! k).
  { intros k w Hw Hk. apply Hsame; [done|]. intros u Hu. by destruct (sides_disjoint s k u w). }
  split; [| | | | | |done].
  - destruct (ni_suffix _ _ _ Hinv) as [before Hb]. exists (before ++ [(i, parv)]). by rewrite <- app_assoc.
  - intros k u Hu Hor. destruct (decide (same_name (n_name v) (n_name u))) as [Hs|Hs].
    + rewrite (Hnames k u Hu Hs). destruct Hor as [->|(m & w & Hm & Hw & Hws)]; [done|]. exfalso. apply Hni.
      rewrite <- (do_unique _ (so_dir _ Hstart (negb s)) m i w v Hw Hv); [done|by destruct (user_nick _ _ _ Hw) as (_ & ? & _)|by rewrite Hws, Hs].
    + rewrite Hsame; [|by eapply Hown|intros u' Hu'; congruence]. apply (ni_own _ _ _ Hinv); [done|]. rewrite Hpend. tauto.
  - intros k u Hu Hd Hp. destruct (decide (same_name (n_name v) (n_name u))) as [Hs|Hs].
    + by rewrite (Hnames k u Hu Hs), Hd.
    + rewrite Hsame; [|by eapply Hown|intros u' Hu'; congruence]. apply (ni_own_gone _ _ _ Hinv k u); [done..|]. rewrite Hpend. tauto.
  - intros k w Hw Hk Ha. destruct (decide (k = i)) as [->|Hne]; [rewrite Hv in Hw; injection Hw as <-; by rewrite Ha in Hi|].
    rewrite (Hother k w) by done. apply (ni_other _ _ _ Hinv); [done| |done]. rewrite fmap_cons. cbn [fst]. by apply not_elem_of_cons.
  - intros k w Hw Hor. destruct (decide (k = i)) as [->|Hne].
    + rewrite Hv in Hw; injection Hw as <-. destruct Hor as [?|Ha]; [done|]. by rewrite Ha in Hi.
    + rewrite (Hother k w) by done. apply (ni_other_gone _ _ _ Hinv k w); [done|]. destruct Hor as [Hin|Ha]; [left|by right].
      rewrite fmap_cons. by right.
  - intros k c Hk. destruct (decide (k = i)) as [->|Hne]; [right; eauto|].
    destruct (U s !! k) as [u|] eqn:Hu; [left; eauto|]. rewrite Hsame in Hk by (done || congruence).
    by apply (ni_dom _ _ _ Hinv) in Hk as [[? ?]|?]; [congruence|right].
Qed.

(** [cmd_uid] on the line of a user: all checks pass, and the collision decides. *)
Lemma cmd_uid_line s st i v parv :
  U (negb s) !! i = Some v -> encodes i v parv ->
  exists ip, cmd_uid decode_ip cloak umode st (peer s) parv =
    match find_client st (n_name v) with
    | None => Some (introduce cloak umode st (peer s) parv ip [])
    | Some x =>
        a ← st !! x;
        if n_unknown a then let '(st, o) := exit_client st x true in Some (introduce cloak umode st (peer s) parv ip o)
        else
          d ← differ (n_username a) (n_realhost a) (n_username v) (n_realhost v);
          if n_lastnick a =? n_lastnick v then Some (nick_collision st 1 i false x NICKCOL_EQUAL)
          else if new_wins d (n_lastnick a) (n_lastnick v) || bool_decide (n_direction a = Some 1%positive) then
            let '(st, o) := nick_collision st 1 i false x NICKCOL_NEW_WON in Some (introduce cloak umode st (peer s) parv ip o)
          else if existing_wins d (n_lastnick a) (n_lastnick v)
          then Some (nick_collision st 1 i false x NICKCOL_EXISTING_WON)
          else Some (st, [])
    end.
Proof using Hstart.
  intros Hv [Hlen Hname Htime Huser Hhost Hid Hvh Hip]. pose proof (so_user _ Hstart _ _ _ Hv) as [Hsid _ _ [_ Hnl] [Hn1 Hn2] _ [_ Hvhost]].
  destruct (do_ids _ (so_dir _ Hstart (negb s)) _ _ Hv) as [Huid _].
  exists (if bool_decide (nth 11 parv [] = str "*") then None else decode_ip (nth 11 parv [])). unfold cmd_uid. cbv zeta.
  rewrite (proj2 (Nat.ltb_ge _ _)) by done. cbn [peer sv_server sv_id sv_link sv_quarantined negb].
  rewrite Hname, Htime, Huser, Hhost, Hid, Hnl, Hn1, Hn2, Huid, Hvhost. cbn [orb negb]. rewrite bool_decide_true by done. cbn [negb].
  assert (Hc1 : negb (bool_decide (nth 9 parv [] = str "*")) && negb (valid_host (nth 9 parv []) false) = false).
  { destruct Hvh as [Hvh|Hvh]; [by rewrite bool_decide_true|]. rewrite Hvh. by destruct (bool_decide _). }
  rewrite Hc1. set (ip := if bool_decide _ then None else _).
  assert (Hc2 : negb (bool_decide (nth 11 parv [] = str "*")) && negb (bool_decide (is_Some ip)) = false).
  { unfold ip. destruct (bool_decide (nth 11 parv [] = str "*")) eqn:Hb; [done|]. apply bool_decide_eq_false in Hb.
    destruct Hip as [?|Hip]; [done|]. cbn [negb andb]. by rewrite bool_decide_true. }
  rewrite Hc2. done.
Qed.

Lemma introduce_line st s i v parv ip out :
  U (negb s) !! i = Some v -> encodes i v parv -> dir_ok st -> st !! i = None ->
  exists c, introduce cloak umode st (peer s) parv ip out = (<[i := c]> st, out ++ [(AllBut (Some 1%positive), INTRODUCE i)]) /\
    known c v.
Proof using Hstart.
  intros Hv He Hok Hi. destruct (do_ids _ (so_dir _ Hstart (negb s)) _ _ Hv) as [Huid _].
  pose proof (so_user _ Hstart _ _ _ Hv) as [_ _ _ [_ Hnl] _ (_ & _ & Hul) [_ Hvh]]. unfold introduce.
  rewrite (en_id _ _ _ He), valid_uid_take, (new_key_unused st i Hok Hi) by done. eexists. split; [reflexivity|]. split; [|done]. unfold ident, uid_client.
  cbn [n_name n_lastnick n_username n_realhost]. rewrite (en_name _ _ _ He), (en_time _ _ _ He), (en_user _ _ _ He), (en_host _ _ _ He), Hnl, Hul.
  rewrite take_ge; [done|]. unfold valid_host in Hvh. destruct (n_realhost v) as [|h0 h]; [done|].
  destruct (Nat.ltb_spec HOSTLEN (length (h0 :: h))); [done|lia].
Qed.

Lemma dead_of s x u : U s !! x = Some u -> alive s u = false -> dead x.
Proof using Hstart.
  intros Hu Hd t w Hw. destruct (decide (t = s)) as [->|Ht]; [congruence|].
  replace t with (negb s) in Hw by (by destruct s, t). by destruct (sides_disjoint s x u w).
Qed.

Lemma quiet_kill s x u : U s !! x = Some u -> alive s u = false -> quiet (KILL x).
Proof using Hstart.
  intros Hu Hd. destruct (do_ids _ (so_dir _ Hstart s) _ _ Hu). split; [done|]. split; [done|]. by eapply dead_of.
Qed.

(** The collision of the user [v], whose line arrives, with the own user [a]. *)
Lemma node_collision s st i parv vs v x a ip :
  node_inv s st ((i, parv) :: vs) -> U (negb s) !! i = Some v -> encodes i v parv -> i ∉ vs.*1 -> st !! i = None ->
  U s !! x = Some a -> st !! x = Some a -> same_name (n_name a) (n_name v) ->
  (forall j d, delete x st !! j = Some d -> ~ same_name (n_name d) (n_name v)) ->
  exists st' out,
    (if n_lastnick a =? n_lastnick v then Some (nick_collision st 1 i false x NICKCOL_EQUAL)
     else if wins v a then
       let '(st, o) := nick_collision st 1 i false x NICKCOL_NEW_WON in Some (introduce cloak umode st (peer s) parv ip o)
     else if wins a v then Some (nick_collision st 1 i false x NICKCOL_EXISTING_WON)
     else Some (st, [])) = Some (st', out) /\
    node_inv s st' vs /\ Forall quiet (to_peer out) /\ (length (to_peer out) <= 2)%nat.
Proof using Hstart.
  intros Hinv Hv He Hni Hi Hown Ha Hsame Hfree. destruct (namesakes s i v x a Hv Hown ltac:(by symmetry)) as [Haa Hav].
  assert (Hix : i <> x) by (intros ->; by destruct (sides_disjoint s x a v)).
  assert (Huniq : forall j u, U s !! j = Some u -> same_name (n_name v) (n_name u) -> j = x /\ u = a).
  { intros j u Hu Hs. assert (j = x) as ->; [|split; congruence]. apply (do_unique _ (so_dir _ Hstart s) j x u a Hu Hown); [|by rewrite Hsame, Hs].
    by destruct (user_nick _ _ _ Hu) as (_ & ? & _). }
  assert (Hkeep : forall k, (forall u, U s !! k = Some u -> ~ same_name (n_name v) (n_name u)) -> delete x st !! k = st !! k).
  { intros k Hk. apply lookup_delete_ne. intros ->. by apply (Hk a). }
  assert (Hgone : delete x st !! i = None) by (by rewrite lookup_delete_ne).
  assert (Hci : cstr i) by (by destruct (do_ids _ (so_dir _ Hstart (negb s)) _ _ Hv)). assert (Hcx : cstr x) by (by destruct (do_ids _ (so_dir _ Hstart s) _ _ Hown)).
  rewrite !new_collision by done. destruct (Z.eqb_spec (n_lastnick a) (n_lastnick v)) as [Heq|Hne]; [|destruct (wins v a) eqn:Hw].
  - rewrite (wins_equal a v) in Haa by done. rewrite (wins_equal v a) in Hav by done. do 2 eexists. split; [reflexivity|].
    split; [|split; [repeat constructor; by eapply quiet_kill|simpl; lia]].
    eapply resolve_inv; [done..|apply dir_ok_delete, (ni_ok _ _ _ Hinv)|by intros; apply Hkeep|by rewrite Hav|].
    intros j u Hu [-> ->]%(Huniq j u Hu). by rewrite Haa, lookup_delete_eq.
  - rewrite (wins_not v a) in Haa by done. destruct (introduce_line (delete x st) s i v parv ip [(AllBut None, KILL x)] Hv He (dir_ok_delete _ _ (ni_ok _ _ _ Hinv)) Hgone) as (c & -> & Hk).
    do 2 eexists. split; [reflexivity|]. split; [|split; [repeat constructor; by eapply quiet_kill|simpl; lia]].
    eapply resolve_inv; [done..| | | |].
    + destruct (do_ids _ (so_dir _ Hstart (negb s)) _ _ Hv) as [Huid Hcid].
      apply dir_ok_insert; [apply dir_ok_delete, (ni_ok _ _ _ Hinv)|done|done|]. intros j d _ Hj. destruct Hk as [Hk _]. injection Hk as -> _ _ _. by apply (Hfree j).
    + intros k Hki Hk'. rewrite lookup_insert_ne by done. by apply Hkeep.
    + rewrite Hav. exists c. by rewrite lookup_insert_eq.
    + intros j u Hu [-> ->]%(Huniq j u Hu). rewrite Haa, lookup_insert_ne by done. by rewrite lookup_delete_eq.
  - destruct (wins_total a v Hne) as [Hwa|]; [|congruence]. rewrite Hwa in *. do 2 eexists. split; [reflexivity|].
    split; [|split; [repeat constructor; by eapply quiet_kill|simpl; lia]].
    eapply resolve_inv; [done..|apply (ni_ok _ _ _ Hinv)|done|by rewrite Hav|]. intros j u Hu [-> ->]%(Huniq j u Hu). by rewrite Haa.
Qed.

(** A UID line, and the KILLs it causes. *)
Lemma node_uid s st i parv vs :
  node_inv s st ((i, parv) :: vs) ->
  exists st' out, cmd_uid decode_ip cloak umode st (peer s) parv = Some (st', out) /\
    node_inv s st' vs /\ Forall quiet (to_peer out) /\ (length (to_peer out) <= 2)%nat.
Proof using Hstart.
  intros Hinv. destruct (ni_suffix _ _ _ Hinv) as [before Hb]. destruct (next_line _ _ _ _ _ Hb) as (Hni & v & Hv & He).
  pose proof (user_nick _ _ _ Hv) as Hnick. pose proof (ni_ok _ _ _ Hinv) as Hok.
  destruct (cmd_uid_line s st i v parv Hv He) as [ip ->]. pose proof (find_client_free st (n_name v) (dir_names st Hok) Hnick) as Hfree.
  assert (Hi : st !! i = None) by (apply (ni_other_gone _ _ _ Hinv i v Hv); left; rewrite fmap_cons; left).
  destruct (do_ids _ (so_dir _ Hstart (negb s)) _ _ Hv) as [Huid Hcid].
  destruct (find_client st (n_name v)) as [x|] eqn:Hf.
  - destruct Hfree as (a & Ha & Hsame & Hfree). assert (Hown : U s !! x = Some a).
    { destruct (entry_cases _ _ _ Hinv _ _ Ha) as [[Hu _]|(w & Hw & Hx & _ & [Hk _])]; [done|]. exfalso. apply Hx.
      rewrite fmap_cons. cbn [fst]. rewrite (do_unique _ (so_dir _ Hstart (negb s)) x i w v Hw Hv); [left|by destruct (user_nick _ _ _ Hw) as (_ & ? & _)|].
      injection Hk as Hk _ _ _. by rewrite <- Hk. }
    pose proof (so_user _ Hstart _ _ _ Hown) as [_ Hloc Hkn _ _ (Hc1 & Hc2 & _) [Hc3 Hc4]].
    pose proof (so_user _ Hstart _ _ _ Hv) as [_ _ _ _ _ (Hd1 & Hd2 & _) [Hd3 _]].
    rewrite Ha. cbn [mbind option_bind]. rewrite Hkn, differ_differs by (done || by destruct (n_realhost a)). cbn [mbind option_bind].
    destruct (collision_wins a v) as [-> ->]. rewrite Hloc, bool_decide_false, orb_false_r by done.
    by eapply node_collision.
  - destruct (introduce_line st s i v parv ip [] Hv He Hok Hi) as (c & -> & Hk). do 2 eexists. split; [reflexivity|].
    split; [|split; [constructor|simpl; lia]].
    assert (Hnone : forall k u, U s !! k = Some u -> ~ same_name (n_name v) (n_name u)).
    { intros k u Hu Hs. apply (Hfree k u); [|by symmetry]. apply (ni_own _ _ _ Hinv); [done|]. right. exists i, v.
      split; [rewrite fmap_cons; left|done]. }
    eapply resolve_inv; [done..| | | |].
    + apply dir_ok_insert; [done..|]. intros j d _ Hj. destruct Hk as [Hk _]. injection Hk as -> _ _ _. by apply (Hfree j).
    + intros k Hki _. by rewrite lookup_insert_ne.
    + assert (alive (negb s) v = true) as ->; [|exists c; by rewrite lookup_insert_eq]. unfold alive.
      destruct (rival (negb s) v) as [u|] eqn:Hr; [|done]. apply rival_spec in Hr as (j & Hj & Hs). rewrite negb_involutive in Hj.
      exfalso. apply (Hnone j u Hj). by symmetry.
    + intros j u Hu Hs. by destruct (Hnone j u).
Qed.

(** ** The run *)

Definition weight (m : nmsg) : nat := match m with UID _ => 5 | KILL _ => 2 | _ => 1 end.
Definition work (q : list nmsg) : nat := sum_list_with weight q.

Lemma work_app q1 q2 : work (q1 ++ q2) = (work q1 + work q2)%nat.
Proof. unfold work. apply sum_list_with_app. Qed.

Lemma quiet_work q : Forall quiet q -> (work q <= 2 * length q)%nat.
Proof. induction 1 as [|m q Hm _ IH]; [done|]. unfold work in *. cbn [sum_list_with length]. destruct m; simpl in *; (done || lia). Qed.

(** The queue of a side: the rest of the burst, then quiet messages. *)
Definition side_inv (s : bool) (st : directory) (q : list nmsg) : Prop :=
  exists vs tail, q = (UID <$> vs.*2) ++ tail /\ Forall quiet tail /\ node_inv s st vs.

Lemma side_receive s st m ms now :
  side_inv s st (m :: ms) ->
  exists st' out, receive decode_ip cloak umode now (peer s) st m = Some (st', out) /\
    side_inv s st' ms /\ Forall quiet (to_peer out) /\ (work (to_peer out) < weight m)%nat.
Proof using Hstart.
  intros (vs & tail & Hq & Htail & Hinv). destruct vs as [|[i parv] vs]; cbn [fmap list_fmap app] in Hq.
  - subst tail. apply Forall_cons in Htail as [Hm Htail]. destruct m; cbn [quiet] in Hm; try done.
    + destruct Hm as (Hv & Hc & Hd). cbn [receive]. change (sv_link (peer s)) with 1%positive.
      rewrite (node_kill s st [] Hinv) by done. do 2 eexists. split; [reflexivity|].
      split; [by exists [], ms|]. split; [by repeat constructor|]. simpl. lia.
    + cbn [receive]. do 2 eexists. split; [reflexivity|]. split; [by exists [], ms|]. split; [constructor|]. simpl. lia.
  - injection Hq as -> ->. destruct (node_uid s st i parv vs Hinv) as (st' & out & Hr & Hinv' & Hquiet & Hlen).
    exists st', out. split; [done|]. split; [by exists vs, tail|]. split; [done|]. apply quiet_work in Hquiet. simpl. lia.
Qed.

Definition net_inv (n : net) : Prop := forall s, side_inv s (dirs n s) (queue n s).

Lemma side_append s st q more : side_inv s st q -> Forall quiet more -> side_inv s st (q ++ more).
Proof.
  intros (vs & tail & -> & Ht & Hinv) Hm. exists vs, (tail ++ more). rewrite app_assoc. by rewrite Forall_app.
Qed.

Lemma deliver_inv n n' :
  net_inv n -> deliver n n' ->
  net_inv n' /\ (work (queue n' true) + work (queue n' false) < work (queue n true) + work (queue n false))%nat.
Proof using Hstart.
  intros Hinv Hd. destruct Hd as [s m ms st out n now Hq Hr].
  pose proof (Hinv s) as Hs. rewrite Hq in Hs. destruct (side_receive s _ m ms now Hs) as (st' & out' & Hr' & Hs' & Hquiet & Hw).
  rewrite Hr in Hr'. injection Hr' as <- <-. pose proof (side_append _ _ _ _ (Hinv (negb s)) Hquiet) as Ho. split.
  - intros t. unfold upd. cbn [dirs queue]. by destruct s, t.
  - unfold upd. cbn [dirs queue]. destruct s; cbn [negb Bool.eqb] in *; rewrite Hq, work_app; unfold work in *; cbn [sum_list_with]; lia.
Qed.

Lemma start_net_inv : net_inv (start ls).
Proof using Hstart.
  intros s. exists (ls (negb s)), []. cbn [start dirs queue]. rewrite app_nil_r. split; [done|]. split; [done|]. apply start_inv.
Qed.

Lemma run_inv k n :
  nsteps deliver k (start ls) n ->
  net_inv n /\ (k + (work (queue n true) + work (queue n false)) <= work (queue (start ls) true) + work (queue (start ls) false))%nat.
Proof using Hstart.
  revert n. induction k as [|k IH]; intros n Hrun.
  - inversion Hrun; subst. split; [apply start_net_inv|lia].
  - apply nsteps_inv_r in Hrun as (m & Hrun & Hd). destruct (IH m Hrun) as [Hm Hk]. destruct (deliver_inv m n Hm Hd). split; [done|lia].
Qed.

Lemma start_work s : (work (queue (start ls) s) = 5 * length (ls (negb s)))%nat.
Proof. cbn [start queue]. unfold work. induction (ls (negb s)) as [|l k IH]; [done|]. rewrite !fmap_cons. cbn [sum_list_with length weight]. lia. Qed.

(** A quiet side knows the survivors. *)
Lemma node_final s st : node_inv s st [] -> forall i, ident <$> st !! i = survivor i.
Proof using Hstart.
  intros Hinv i. assert (Hnp : forall u, ~ pending s [] u) by (by intros u (? & ? & ?%elem_of_nil & _)).
  assert (Hs : survivor i = match U s !! i with
    | Some u => if alive s u then Some (ident u) else None
    | None => match U (negb s) !! i with Some v => if alive (negb s) v then Some (ident v) else None | None => None end end).
  { unfold survivor. destruct s; cbn [negb]; [done|]. destruct (U true !! i) as [u|] eqn:Hu, (U false !! i) as [v|] eqn:Hv; try done.
    by destruct (sides_disjoint true i u v). }
  rewrite Hs. destruct (U s !! i) as [u|] eqn:Hu.
  - destruct (alive s u) eqn:Ha; [by rewrite (ni_own _ _ _ Hinv i u) by eauto|by rewrite (ni_own_gone _ _ _ Hinv i u)].
  - destruct (U (negb s) !! i) as [v|] eqn:Hv.
    + destruct (alive (negb s) v) eqn:Ha; [|by rewrite (ni_other_gone _ _ _ Hinv i v) by eauto].
      destruct (ni_other _ _ _ Hinv i v Hv) as (c & -> & Hk & _); [apply not_elem_of_nil|done|]. simpl. by rewrite Hk.
    + destruct (st !! i) as [c|] eqn:Hi; [|done]. by destruct (ni_dom _ _ _ Hinv i c Hi) as [[? ?]|[? ?]]; congruence.
Qed.

Lemma quiet_side s st : side_inv s st [] -> node_inv s st [].
Proof. intros (vs & tail & Hq & _ & Hinv). by destruct vs. Qed.
End link.

(** C2: linking converges.  Two servers with different IDs, each with any number of registered users,
    send each other a UID line for every user.  However the deliveries interleave: no handler faults, the
    exchange ends after at most five deliveries per user, and once both queues are empty both servers know
    exactly the same users: all those without a namesake on the other side, and of two namesakes the
    one that wins, the older nickname for different people, the newer connection for the same user\@host, or none
    of them when the times are equal. *)
Theorem burst_converges (decode_ip : cstring -> option cstring) (cloak : cstring -> cstring) (umode : cstring -> Z)
  (sid : bool -> cstring) (U : bool -> directory) (ls : bool -> list (cstring * list cstring))
  (Hstart : start_ok decode_ip sid U ls) (k : nat) (n : net)
  (Hrun : nsteps (deliver decode_ip cloak umode sid) k (start U ls) n) :
  (k <= 5 * (length (ls true) + length (ls false)))%nat /\
  (forall s, queue n s <> [] -> exists n', deliver decode_ip cloak umode sid n n') /\
  (queue n true = [] -> queue n false = [] ->
     forall s, dir_ok (dirs n s) /\ forall i, ident <$> dirs n s !! i = survivor U i).
Proof.
  destruct (run_inv _ cloak umode _ _ _ Hstart k n Hrun) as [Hinv Hk]. rewrite !start_work in Hk. cbn [negb] in Hk.
  split; [lia|]. split.
  - intros s Hq. specialize (Hinv s). destruct (queue n s) as [|m ms] eqn:Hm; [done|].
    destruct (side_receive _ cloak umode _ _ _ Hstart s (dirs n s) m ms 0 Hinv) as (st & out & Hr & _). eexists. by econstructor.
  - intros H1 H2 s. assert (Hq : queue n s = []) by (by destruct s). specialize (Hinv s). rewrite Hq in Hinv. apply quiet_side in Hinv.
    split; [apply (ni_ok _ _ _ _ _ Hinv)|by eapply node_final].
Qed.

(** A schedule, executed: the sides that get their next message. *)
Fixpoint drain (decode_ip : cstring -> option cstring) (cloak : cstring -> cstring) (umode : cstring -> Z)
    (sid : bool -> cstring) (sched : list bool) (n : net) : option net :=
  match sched with
  | [] => Some n
  | s :: sched =>
      match queue n s with
      | m :: ms =>
          '(st, out) ← receive decode_ip cloak umode 0 (peer sid s) (dirs n s) m;
          drain decode_ip cloak umode sid sched
            (MkNet (upd s st (dirs n)) (upd (negb s) (queue n (negb s) ++ to_peer out) (upd s ms (queue n))))
      | [] => None
      end
  end.

Lemma drain_steps decode_ip cloak umode sid sched n n' :
  drain decode_ip cloak umode sid sched n = Some n' -> nsteps (deliver decode_ip cloak umode sid) (length sched) n n'.
Proof.
  revert n. induction sched as [|s sched IH]; intros n; cbn [drain length]; [intros [= ->]; constructor|].
  destruct (queue n s) as [|m ms] eqn:Hq; [done|]. destruct (receive _ _ _ _ _ _ _) as [[st out]|] eqn:Hr; [|done].
  cbn [mbind option_bind]. intros Hd. econstructor; [by econstructor|by apply IH].
Qed.

Lemma burst_converges_witness :
  let sid s := if (s : bool) then str "001" else str "002" in
  let U s : directory := if (s : bool) then {[ str "001AAAAAA" := sample_nick (str "Alice") 100 ]}
                         else {[ str "002AAAAAB" := sample_nick (str "aliCE") 90 ]} in
  let ls s := if (s : bool) then [(str "001AAAAAA", sample_uid (str "Alice") (str "100") (str "alice") (str "001AAAAAA"))]
              else [(str "002AAAAAB", sample_uid (str "aliCE") (str "90") (str "alice") (str "002AAAAAB"))] in
  match drain (fun _ => None) (fun h => h) (fun _ => 0) sid [true; false; true; false; true; false] (start U ls) with
  | Some n => forall s, dir_ok (dirs n s) /\ ident <$> dirs n s !! str "001AAAAAA" = Some (ident (sample_nick (str "Alice") 100)) /\
                        ident <$> dirs n s !! str "002AAAAAB" = None
  | None => False
  end.
Proof.
  intros sid U ls. assert (Hc : forall s, forallb (fun c => (0 <? c) && (c <? 256)) s = true -> cstr s).
  { intros s Hs. apply Forall_forall. intros x Hx. unfold byte_ok. rewrite forallb_forall in Hs.
    specialize (Hs x ltac:(by apply list_elem_of_In)). lia. }
  assert (Hstart : start_ok (fun _ => None) sid U ls).
  { split.
    - by vm_compute.
    - intros s. split.
      + intros i c Hi. destruct s; apply lookup_singleton_Some in Hi as [<- _]; (split; [by vm_compute|by apply Hc]).
      + intros i j c d Hi Hj. by destruct s; apply lookup_singleton_Some in Hi as [<- _]; apply lookup_singleton_Some in Hj as [<- _].
    - intros s i u Hu. destruct s; apply lookup_singleton_Some in Hu as [<- <-]; split; try (by vm_compute);
        repeat split; try (by apply Hc); by vm_compute.
    - intros s. split.
      + destruct s; apply NoDup_singleton.
      + intros i. destruct s; unfold U; cbn [ls fmap list_fmap fst]; rewrite list_elem_of_singleton;
          (split; [intros ->; rewrite lookup_singleton_eq; eauto|by intros [u [<- _]%lookup_singleton_Some]]).
      + intros i parv u Hi Hu. destruct s; apply list_elem_of_singleton in Hi; injection Hi as -> ->;
          apply lookup_singleton_Some in Hu as [_ <-]; split; try (by vm_compute); try (by left); apply Nat.leb_le; by vm_compute. }
  assert (Hb : match drain (fun _ => None) (fun h => h) (fun _ => 0) sid [true; false; true; false; true; false] (start U ls) with
               | Some n => bool_decide (queue n true = [] /\ queue n false = [])
               | None => false end = true) by (vm_compute; reflexivity).
  destruct (drain _ _ _ _ _ _) as [n|] eqn:Hd; [|done]. apply bool_decide_eq_true in Hb as [H1 H2]. apply drain_steps in Hd as Hrun.
  destruct (burst_converges _ _ _ _ _ _ Hstart _ n Hrun) as (_ & _ & Hfin).
  intros s. destruct (Hfin H1 H2 s) as [Hok Hi]. split; [done|]. rewrite !Hi. split; by vm_compute.
Defined.
