(* ===== verification/MatchUser.v ===== *)
(** * Matching a user against a mask (modules/tkl.c, match.c)

    [_match_user] decides whether a user is covered by a mask of the form
    nick!user@host, user@host or host, where the host part may be a wildcard, a
    host name, an address or a network in CIDR notation.  Channel bans, server bans,
    security groups and the rule language all use it.  The CIDR comparison
    [comp_with_mask] is shown to compare the leading bits of two addresses, to agree
    with the masking of addresses that counts clones ([mask_ipv6_rawip]), and the
    whole matcher to decide a declarative meaning of masks. *)
From S2P Require Import Prelude Chars Glob Strings Base64 Client Hash Bans Crule CruleFuncs.

(** ** What matching reads of a client *)

Record BanUser := MkBanUser {
  bu_username : cstring;
  bu_realhost : cstring;
  bu_virthost : option cstring;
  bu_cloakedhost : cstring;
  bu_account : cstring;
  bu_channel : list (cstring * cstring)      (** name of the channel and [member_modes] *)
}.

Record BanClient := MkBanClient {
  bc_name : cstring;
  bc_ident : cstring;
  bc_info : cstring;
  bc_status : ClientStatus;
  bc_umodes : Z;
  bc_ip : option cstring;
  bc_local : option cstring;                 (** the [local] part: its [sockhost] *)
  bc_user : option BanUser
}.

Definition set_bc_name (c : BanClient) (v : cstring) : BanClient :=
  MkBanClient v (bc_ident c) (bc_info c) (bc_status c) (bc_umodes c) (bc_ip c) (bc_local c) (bc_user c).

Definition BIsUser (c : BanClient) : bool := bool_decide (bc_status c = CLIENT_STATUS_USER).
Definition BMyConnect (c : BanClient) : bool := bool_decide (is_Some (bc_local c)).
Definition BMyUser (c : BanClient) : bool := BMyConnect c && BIsUser c.

(** [IsLoggedIn] *)
Definition BIsLoggedIn (c : BanClient) : bool :=
  match bc_user c with
  | Some u => negb (hd 0 (bu_account u) =? 42) && negb (isdigit (hd 0 (bu_account u)))
  | None => false
  end.

(** ** Library calls *)

(** [strchr(s, c)]: the text before the first [c] and the text behind it. *)
Fixpoint strchr (c : Z) (s : cstring) : option (cstring * cstring) :=
  match s with
  | [] => None
  | d :: s => if d =? c then Some ([], s)
              else match strchr c s with Some (a, b) => Some (d :: a, b) | None => None end
  end.

Definition contains (c : Z) (s : cstring) : bool := existsb (Z.eqb c) s.

(** [atoi] on any text: [strtol], which saturates at the range of [long], and a
    conversion to [int]. *)
Definition c_atoi (s : cstring) : Z := to_int (Z.max (- 2 ^ 63) (Z.min (2 ^ 63 - 1) (atoi s))).

(** ** Addresses *)

(** The comparison of the first [mask] bits.  A read past either address is the
    fault [None]. *)
Definition comp_with_mask (addr dest : list Z) (mask : Z) : option bool :=
  let n := Z.to_nat (mask / 8) in
  if (n <=? length addr)%nat && (n <=? length dest)%nat then
    if bool_decide (take n addr = take n dest) then
      let m := Z.shiftl 65535 (8 - mask mod 8) in
      if mask mod 8 =? 0 then Some true
      else a ← addr !! n; d ← dest !! n; Some (Z.land a m =? Z.land d m)
    else Some false
  else None.

Definition mask_ipv6_rawip (src : list Z) (prefix : Z) : list Z :=
  let prefix := if prefix <? 0 then 0 else if 128 <? prefix then 128 else prefix in
  let full_bytes := Z.to_nat (prefix / 8) in
  let leftover_bits := prefix mod 8 in
  let dst := take 16 src in
  let '(dst, full_bytes) :=
    if (0 <? leftover_bits) && (full_bytes <? 16)%nat
    then let mask := Z.shiftl 255 (8 - leftover_bits) mod 256 in
         (<[full_bytes := Z.land (nth full_bytes src 0) mask]> dst, S full_bytes)
    else (dst, full_bytes) in
  if (full_bytes <? 16)%nat then take full_bytes dst ++ replicate (16 - full_bytes) 0 else dst.

(** ** The matcher *)

Definition MATCH_CHECK_IP : Z := 1.
Definition MATCH_CHECK_REAL_HOST : Z := 2.
Definition MATCH_CHECK_CLOAKED_HOST : Z := 4.
Definition MATCH_CHECK_VISIBLE_HOST : Z := 8.
Definition MATCH_CHECK_EXTENDED : Z := 16.
Definition MATCH_CHECK_ALL : Z := 31.
Definition MATCH_CHECK_REAL : Z := 19.
Definition MATCH_MASK_IS_UHOST : Z := 4096.
Definition MATCH_MASK_IS_HOST : Z := 8192.

(** The loop of [is_extended_ban] behind the tilde. *)
Definition is_extended_ban (s : cstring) : bool :=
  match s with
  | c :: s => (c =? 126) && existsb (fun d => negb (isalnum d) && (d =? ch_colon)) s
  | [] => false
  end.

Definition is_extended_server_ban (s : cstring) : bool :=
  is_extended_ban (if hd 0 s =? 37 then tl s else s).

(** [p = strchr(hmask, '/')], the cut there and [cidr = atoi(p)]; [None] is the -1
    for a mask without a length. *)
Definition split_cidr (hmask : cstring) : cstring * option Z :=
  match strchr 47 hmask with Some (h, p) => (h, Some (c_atoi p)) | None => (hmask, None) end.

(** [cidr <= 0], which the code tests where it has read a length. *)
Definition bad_cidr (cidr : option Z) : bool := match cidr with Some k => k <=? 0 | None => false end.

(** The result of a stage: a verdict, or the text to go on with. *)
Inductive stage (A : Type) := Verdict (b : bool) | Continue (a : A).
Arguments Verdict {A} _.
Arguments Continue {A} _.

Section matcher.
Context (UMODE_HIDE : Z) (inet_pton : family -> cstring -> option (list Z)).

(** [GetHost(client)] *)
Definition BGetHost (c : BanClient) (u : BanUser) : option cstring :=
  if has (bc_umodes c) UMODE_HIDE then bu_virthost u else Some (bu_realhost u).

Definition client_username (c : BanClient) : cstring :=
  match bc_user c with
  | Some u => match bu_username u with [] => bc_ident c | n => n end
  | None => bc_ident c
  end.

Definition visible_host (c : BanClient) : option cstring :=
  match bc_user c with
  | Some u => BGetHost c u
  | None => if BMyUser c then bc_local c else None
  end.

Definition real_host (c : BanClient) : option cstring :=
  match bc_user c with
  | Some u => Some (bu_realhost u)
  | None => bc_local c
  end.

(** [x && match_simple(mask, x)] *)
Definition match_opt (mask : cstring) (x : option cstring) : option bool :=
  match x with Some x => match_simple mask x | None => Some false end.

(** The nick part: what is left of the buffer and, when there was a nick, the text
    behind it. *)
Definition nick_stage (mask : cstring) (c : BanClient) (options : Z)
    : option (stage (cstring * option cstring)) :=
  if has options MATCH_MASK_IS_UHOST then Some (Continue (mask, None))
  else match strchr 33 mask with
       | None => Some (Continue (mask, None))
       | Some ([], _) => Some (Verdict false)
       | Some (nmask, p) =>
           m ← match_simple nmask (bc_name c);
           Some (if m : bool then Continue (nmask, Some p) else Verdict false)
       end.

(** The user part, and [hmask]. *)
Definition user_stage (mask : cstring) (p : option cstring) (c : BanClient) (options : Z)
    : option (stage cstring) :=
  if has options MATCH_MASK_IS_HOST then Some (Continue mask)
  else match strchr ch_at (default mask p) with
       | Some (before, hmask) =>
           let buffer := match p with Some _ => mask | None => before end in
           if bool_decide (hmask = []) || bool_decide (buffer = []) then Some (Verdict false)
           else m ← match_simple before (client_username c);
                Some (if m : bool then Continue hmask else Verdict false)
       | None => match p with Some _ => Some (Verdict false) | None => Some (Continue mask) end
       end.

(** The check against an IPv6 address or network, which decides. *)
Definition ipv6_check (hmask : cstring) (cidr : option Z) (c : BanClient) : option bool :=
  match bc_ip c with
  | None => Some false
  | Some ip =>
      if negb (contains ch_colon ip) then Some false
      else match inet_pton AF_INET6 ip, inet_pton AF_INET6 hmask with
           | Some clientip, Some maskip =>
               match cidr with
               | None => comp_with_mask clientip maskip 128
               | Some k => if 128 <? k then Some false else comp_with_mask clientip maskip k
               end
           | _, _ => Some false
           end
  end.

(** The check on the address; goes on with the host mask, cut at the slash. *)
Definition ip_stage (hmask : cstring) (c : BanClient) : option (stage cstring) :=
  let '(hmask, cidr) := split_cidr hmask in
  if bad_cidr cidr then Some (Verdict false)
  else if contains ch_qmark hmask || contains ch_star hmask then
    m ← match_opt hmask (bc_ip c);
    Some (if m : bool then Verdict true else Continue hmask)
  else if contains ch_colon hmask then
    m ← ipv6_check hmask cidr c; Some (Verdict m)
  else
    match bc_ip c ≫= inet_pton AF_INET, inet_pton AF_INET hmask with
    | Some clientip, Some maskip =>
        match cidr with
        | None => m ← comp_with_mask clientip maskip 32; Some (if m : bool then Verdict true else Continue hmask)
        | Some k => if 32 <? k then Some (Verdict false)
                    else m ← comp_with_mask clientip maskip k; Some (Verdict m)
        end
    | _, _ => Some (Continue hmask)
    end.

Definition host_stage (hmask : cstring) (c : BanClient) (options : Z) : option bool :=
  v ← (if has options MATCH_CHECK_VISIBLE_HOST then match_opt hmask (visible_host c) else Some false);
  if v : bool then Some true else
  k ← (if has options MATCH_CHECK_CLOAKED_HOST then match_opt hmask (bu_cloakedhost <$> bc_user c) else Some false);
  if k : bool then Some true else
  i ← (if has options MATCH_CHECK_IP then ip_stage hmask c else Some (Continue hmask));
  match i with
  | Verdict b => Some b
  | Continue hmask => if has options MATCH_CHECK_REAL_HOST then match_opt hmask (real_host c) else Some false
  end.

(** The part of [_match_user] behind the check for extended server bans. *)
Definition match_mask (mask : cstring) (c : BanClient) (options : Z) : option bool :=
  n ← nick_stage mask c options;
  match n with
  | Verdict b => Some b
  | Continue (mask, p) =>
      u ← user_stage mask p c options;
      match u with
      | Verdict b => Some b
      | Continue hmask => host_stage hmask c options
      end
  end.

(** [ext] is [_match_user_extended_server_ban]. *)
Definition match_user (ext : cstring -> BanClient -> option bool) (rmask : cstring) (c : BanClient) (options : Z)
    : option bool :=
  let mask := (strlcpy [] rmask (NICKLEN + USERLEN + HOSTLEN + 8)).1 in
  if has options MATCH_CHECK_EXTENDED && is_extended_server_ban mask && bool_decide (is_Some (bc_user c))
  then ext rmask c
  else match_mask mask c options.

(** [_unreal_match_iplist], for the masks of the name list.  An invalid CIDR length
    ends the whole search. *)
Fixpoint iplist_loop (ip : cstring) (client_ipv6 : bool) (clientip : list Z) (l : list cstring) : option bool :=
  match l with
  | [] => Some false
  | nm :: l =>
      let mask := (strlcpy [] nm 512).1 in
      let '(mask, cidr) := split_cidr mask in
      if bad_cidr cidr then Some false
      else
        m ← (if contains ch_star mask || contains ch_qmark mask then match_simple mask ip
             else
               let v6 := contains ch_colon mask in
               if negb (eqb v6 client_ipv6) then Some false
               else
                 let bits := if v6 then 128 else 32 in
                 match inet_pton (if v6 then AF_INET6 else AF_INET) mask with
                 | None => Some false
                 | Some maskip =>
                     match cidr with
                     | None => comp_with_mask clientip maskip bits
                     | Some k => if bits <? k then Some false else comp_with_mask clientip maskip k
                     end
                 end);
        if m : bool then Some true else iplist_loop ip client_ipv6 clientip l
  end.

Definition unreal_match_iplist (c : BanClient) (l : list cstring) : option bool :=
  match bc_ip c with
  | None => Some false
  | Some ip =>
      let client_ipv6 := contains ch_colon ip in
      match inet_pton (if client_ipv6 then AF_INET6 else AF_INET) ip with
      | None => Some false
      | Some clientip => iplist_loop ip client_ipv6 clientip l
      end
  end.

End matcher.

(** ** Leading bits of addresses *)

Definition addr_bit (a : list Z) (i : Z) : bool := Z.testbit (nth (Z.to_nat (i / 8)) a 0) (7 - i mod 8).

(** Two addresses in the same network of [k] bits. *)
Definition same_network (k : Z) (a b : list Z) : Prop := forall i, 0 <= i < k -> addr_bit a i = addr_bit b i.

Lemma octet_high x j : octet x -> 8 <= j -> Z.testbit x j = false.
Proof.
  intros Hx Hj. unfold octet in Hx. rewrite <- (Z.mod_small x (2 ^ 8)) by (simpl; lia).
  by apply Z.mod_pow2_bits_high.
Qed.

Lemma octet_ext x y :
  octet x -> octet y -> (forall j, 0 <= j < 8 -> Z.testbit x j = Z.testbit y j) -> x = y.
Proof.
  intros Hx Hy H. apply Z.bits_inj'. intros j Hj. destruct (Z_lt_ge_dec j 8); [by apply H|].
  rewrite !octet_high by (auto; lia). done.
Qed.

(** The bits that a mask of ones, shifted left by [s], keeps of an octet. *)
Lemma masked_bit w x s j :
  octet x -> 8 <= w -> 0 <= s -> 0 <= j ->
  Z.testbit (Z.land x (Z.shiftl (2 ^ w - 1) s)) j = (s <=? j) && Z.testbit x j.
Proof.
  intros Hx Hw Hs Hj. rewrite Z.land_spec, Z.shiftl_spec by done.
  destruct (Z_lt_ge_dec j 8) as [Hj8|Hj8]; [|rewrite octet_high by (auto; lia); by rewrite andb_false_r].
  replace (2 ^ w - 1) with (Z.ones w) by (rewrite Z.ones_equiv; lia).
  rewrite andb_comm. f_equal. destruct (Z.leb_spec s j).
  - rewrite Z.testbit_ones_nonneg by lia. destruct (Z.ltb_spec (j - s) w); [done|lia].
  - by rewrite Z.testbit_neg_r by lia.
Qed.

Lemma masked_octet w x s : octet x -> 8 <= w -> 0 <= s -> octet (Z.land x (Z.shiftl (2 ^ w - 1) s)).
Proof.
  intros Hx Hw Hs. unfold octet. assert (0 <= Z.land x (Z.shiftl (2 ^ w - 1) s)) as H0.
  { apply Z.land_nonneg. left. by destruct Hx. }
  split; [done|]. apply (Z.log2_lt_cancel _ 256).
  destruct (Z.eq_dec (Z.land x (Z.shiftl (2 ^ w - 1) s)) 0) as [->|Hne]; [done|].
  destruct (Z_lt_ge_dec (Z.log2 (Z.land x (Z.shiftl (2 ^ w - 1) s))) 8) as [|Hge]; [done|].
  exfalso. pose proof (Z.bit_log2 (Z.land x (Z.shiftl (2 ^ w - 1) s)) ltac:(lia)) as Hb.
  rewrite masked_bit, octet_high, andb_false_r in Hb by (auto; lia). done.
Qed.

Lemma nth_octet a n : Forall octet a -> octet (nth n a 0).
Proof.
  intros Ha. destruct (Nat.lt_ge_cases n (length a)) as [H|H]; [|rewrite nth_overflow by done; unfold octet; lia].
  rewrite Forall_forall in Ha. apply Ha, list_elem_of_In, nth_In, H.
Qed.

(** Bit [i] of an address by its octet and its place in it. *)
Lemma addr_bit_at a n j : 0 <= j < 8 -> addr_bit a (8 * Z.of_nat n + (7 - j)) = Z.testbit (nth n a 0) j.
Proof.
  intros Hj. unfold addr_bit. replace ((8 * Z.of_nat n + (7 - j)) / 8) with (Z.of_nat n) by (Z.div_mod_to_equations; lia).
  replace ((8 * Z.of_nat n + (7 - j)) mod 8) with (7 - j) by (Z.div_mod_to_equations; lia).
  rewrite Nat2Z.id. f_equal. lia.
Qed.

Lemma lookup_nth (a : list Z) n : (n < length a)%nat -> a !! n = Some (nth n a 0).
Proof.
  revert n. induction a as [|x a IH]; intros n Hn; simpl in Hn; [lia|].
  destruct n; [done|]. apply IH. lia.
Qed.

Lemma take_eq_nth (a b : list Z) n :
  (n <= length a)%nat -> (n <= length b)%nat ->
  take n a = take n b <-> forall i, (i < n)%nat -> nth i a 0 = nth i b 0.
Proof.
  intros Ha Hb. split.
  - intros H i Hi. rewrite <- (take_drop n a), <- (take_drop n b), !app_nth1 by (rewrite length_take; lia). by rewrite H.
  - revert a b Ha Hb. induction n as [|n IH]; intros [|x a] [|y b] Ha Hb H; simpl in *; try lia; [done..|].
    f_equal; [apply (H 0%nat); lia|]. apply IH; [lia..|]. intros i Hi. apply (H (S i)). lia.
Qed.

(** Whole octets agree when their bits do. *)
Lemma octets_agree a b n :
  Forall octet a -> Forall octet b ->
  (forall i, (i < n)%nat -> nth i a 0 = nth i b 0) <-> same_network (8 * Z.of_nat n) a b.
Proof.
  intros Ha Hb. split.
  - intros H i Hi. unfold addr_bit. rewrite H; [done|]. Z.div_mod_to_equations; lia.
  - intros H i Hi. apply octet_ext; [by apply nth_octet..|]. intros j Hj.
    rewrite <- !addr_bit_at by done. apply H. lia.
Qed.

(** The leading [r] bits of an octet. *)
Lemma leading_bits x y r :
  octet x -> octet y -> 0 < r < 8 ->
  (Z.land x (Z.shiftl 65535 (8 - r)) = Z.land y (Z.shiftl 65535 (8 - r)) <->
   forall j, 8 - r <= j < 8 -> Z.testbit x j = Z.testbit y j).
Proof.
  intros Hx Hy Hr. change 65535 with (2 ^ 16 - 1). split.
  - intros H j Hj. pose proof (f_equal (fun z => Z.testbit z j) H) as Hb. cbv beta in Hb.
    rewrite !masked_bit in Hb by (auto; lia). destruct (Z.leb_spec (8 - r) j); [done|lia].
  - intros H. apply octet_ext; [apply masked_octet; auto; lia..|]. intros j Hj.
    rewrite !masked_bit by (auto; lia). destruct (Z.leb_spec (8 - r) j); [|done]. simpl. apply H. lia.
Qed.

Lemma comp_with_mask_decides a b k :
  Forall octet a -> Forall octet b -> length a = length b -> 0 <= k <= 8 * Z.of_nat (length a) ->
  exists r, comp_with_mask a b k = Some r /\ (r = true <-> same_network k a b).
Proof.
  intros Ha Hb Hlen Hk. unfold comp_with_mask. set (n := Z.to_nat (k / 8)).
  assert (Hn : Z.of_nat n = k / 8) by (unfold n; Z.div_mod_to_equations; lia).
  assert (n <= length a)%nat by (Z.div_mod_to_equations; lia).
  rewrite (proj2 (Nat.leb_le _ _)), (proj2 (Nat.leb_le n (length b))) by lia. cbn [andb].
  assert (Hsub : same_network k a b -> take n a = take n b).
  { intros H1. apply take_eq_nth; [lia..|]. apply octets_agree; [done..|]. intros i Hi. apply H1. Z.div_mod_to_equations; lia. }
  case_bool_decide as E; [|exists false; split; [done|]; split; [done|]; intros H1; by apply Hsub in H1].
  rewrite take_eq_nth in E by lia. rewrite octets_agree in E by done. destruct (Z.eqb_spec (k mod 8) 0) as [E0|E0].
  - exists true. split; [done|]. split; [|done]. intros _. replace k with (8 * Z.of_nat n) by (Z.div_mod_to_equations; lia). done.
  - assert (n < length a)%nat by (Z.div_mod_to_equations; lia).
    rewrite (lookup_nth a), (lookup_nth b) by lia. cbn [mbind option_bind].
    eexists. split; [done|]. rewrite Z.eqb_eq, leading_bits by (try apply nth_octet; auto; Z.div_mod_to_equations; lia).
    split; [intros H1 i Hi|intros H1 j Hj].
    + destruct (Z_lt_ge_dec i (8 * Z.of_nat n)); [apply E; lia|].
      replace i with (8 * Z.of_nat n + (7 - (8 * Z.of_nat n + 7 - i))) by lia.
      rewrite !addr_bit_at by (Z.div_mod_to_equations; lia). apply H1. Z.div_mod_to_equations; lia.
    + rewrite <- !addr_bit_at by (Z.div_mod_to_equations; lia). apply H1. Z.div_mod_to_equations; lia.
Qed.

(** ** Masked addresses *)

(** The address in three parts: kept octets, the octet that is cut, zeros. *)
Lemma mask_ipv6_form src k :
  length src = 16%nat -> 0 <= k <= 128 ->
  mask_ipv6_rawip src k =
  take (Z.to_nat (k / 8)) src ++
  (if k mod 8 =? 0 then [] else [Z.land (nth (Z.to_nat (k / 8)) src 0) (Z.shiftl 255 (8 - k mod 8) mod 256)]) ++
  replicate (16 - Z.to_nat (k / 8) - (if k mod 8 =? 0 then 0 else 1)) 0.
Proof.
  intros Hl Hk. unfold mask_ipv6_rawip. rewrite (proj2 (Z.ltb_ge k 0)), (proj2 (Z.ltb_ge 128 k)) by lia.
  rewrite (take_ge src 16) by lia. set (n := Z.to_nat (k / 8)). pose proof (Z.mod_pos_bound k 8 ltac:(lia)).
  destruct (Z.eqb_spec (k mod 8) 0) as [E|E].
  - rewrite E. simpl. rewrite Nat.sub_0_r. destruct (Nat.ltb_spec n 16) as [Hn|Hn]; [done|].
    rewrite take_ge by lia. replace (16 - n)%nat with 0%nat by lia. simpl. by rewrite app_nil_r.
  - assert (n < 16)%nat by (unfold n; Z.div_mod_to_equations; lia).
    rewrite (proj2 (Z.ltb_lt _ _)), (proj2 (Nat.ltb_lt n 16)) by lia. cbn [andb].
    set (v := Z.land _ _). rewrite (insert_take_drop src n v) by lia.
    assert (take (S n) (take n src ++ v :: drop (S n) src) = take n src ++ [v]) as Ht.
    { rewrite take_app, length_take, Nat.min_l, take_ge by (rewrite ?length_take; lia).
      replace (S n - n)%nat with 1%nat by lia. done. }
    rewrite Ht, <- !app_assoc. replace (16 - n - 1)%nat with (16 - S n)%nat by lia.
    destruct (Nat.ltb_spec (S n) 16) as [Hn|Hn]; [done|].
    rewrite drop_ge by lia. by replace (16 - S n)%nat with 0%nat by lia.
Qed.

Lemma mask_ipv6_length src k : length src = 16%nat -> 0 <= k <= 128 -> length (mask_ipv6_rawip src k) = 16%nat.
Proof.
  intros Hl Hk. rewrite mask_ipv6_form, !length_app, length_take, length_replicate by done.
  destruct (Z.eqb_spec (k mod 8) 0); simpl length; Z.div_mod_to_equations; lia.
Qed.

(** The shifted mask of [mask_ipv6_rawip], as it acts on an octet. *)
Lemma cut_octet x r : octet x -> 0 < r < 8 ->
  Z.land x (Z.shiftl 255 (8 - r) mod 256) = Z.land x (Z.shiftl (2 ^ 8 - 1) (8 - r)).
Proof.
  intros Hx Hr. apply Z.bits_inj'. intros j Hj. rewrite masked_bit, Z.land_spec by (auto; lia).
  destruct (Z_lt_ge_dec j 8); [|rewrite octet_high by (auto; lia); by rewrite andb_false_r].
  change 256 with (2 ^ 8). rewrite Z.mod_pow2_bits_low by lia.
  change 255 with (2 ^ 8 - 1). rewrite <- (masked_bit 8 x), Z.land_spec by (auto; lia). done.
Qed.

Lemma mask_ipv6_octets src k :
  length src = 16%nat -> Forall octet src -> 0 <= k <= 128 -> Forall octet (mask_ipv6_rawip src k).
Proof.
  intros Hl Ho Hk. rewrite mask_ipv6_form by done. apply Forall_app. split; [by apply Forall_take|].
  apply Forall_app. split; [|apply Forall_replicate; unfold octet; lia].
  destruct (Z.eqb_spec (k mod 8) 0); constructor; [|done]. pose proof (Z.mod_pos_bound k 8 ltac:(lia)).
  rewrite cut_octet by (try apply nth_octet; auto; lia). apply masked_octet; [by apply nth_octet|lia..].
Qed.

(** The bits below [k] are kept, the others are zero. *)
Lemma mask_ipv6_bit src k i :
  length src = 16%nat -> Forall octet src -> 0 <= k <= 128 -> 0 <= i < 128 ->
  addr_bit (mask_ipv6_rawip src k) i = (i <? k) && addr_bit src i.
Proof.
  intros Hl Ho Hk Hi. rewrite mask_ipv6_form by done. unfold addr_bit.
  assert (Hlt : length (take (Z.to_nat (k / 8)) src) = Z.to_nat (k / 8)) by (rewrite length_take; Z.div_mod_to_equations; lia).
  destruct (Z_lt_ge_dec (i / 8) (k / 8)).
  { rewrite app_nth1 by (Z.div_mod_to_equations; lia).
    rewrite (proj2 (Z.ltb_lt i k)) by (Z.div_mod_to_equations; lia). cbn [andb]. f_equal.
    rewrite <- (take_drop (Z.to_nat (k / 8)) src) at 2. rewrite app_nth1; [done|Z.div_mod_to_equations; lia]. }
  rewrite app_nth2, Hlt by (rewrite Hlt; Z.div_mod_to_equations; lia).
  assert (Hz : forall m, Z.testbit (nth m (replicate (16 - Z.to_nat (k / 8) - (if k mod 8 =? 0 then 0 else 1)) 0) 0) (7 - i mod 8) = false).
  { intros m. set (z := replicate _ 0). assert (nth m z 0 = 0) as ->; [|apply Z.bits_0].
    destruct (Nat.lt_ge_cases m (length z)); [|by apply nth_overflow].
    pose proof (nth_In z 0 H) as Hin%list_elem_of_In. by apply elem_of_replicate in Hin as [-> _]. }
  destruct (Z.eqb_spec (k mod 8) 0) as [E|E].
  { simpl. rewrite Hz. rewrite (proj2 (Z.ltb_ge i k)) by (Z.div_mod_to_equations; lia). done. }
  destruct (Z.eq_dec (i / 8) (k / 8)) as [E8|E8].
  - rewrite E8, Nat.sub_diag. simpl nth at 1. pose proof (Z.mod_pos_bound k 8 ltac:(lia)).
    rewrite cut_octet, masked_bit by (try apply nth_octet; auto; Z.div_mod_to_equations; lia).
    f_equal. destruct (Z.leb_spec (8 - k mod 8) (7 - i mod 8)), (Z.ltb_spec i k); try done; Z.div_mod_to_equations; lia.
  - destruct (Z.to_nat (i / 8) - Z.to_nat (k / 8))%nat as [|m] eqn:Em; [Z.div_mod_to_equations; lia|].
    simpl nth at 1. rewrite Hz, (proj2 (Z.ltb_ge i k)) by (Z.div_mod_to_equations; lia). done.
Qed.

(** Two addresses have the same masked form when they are in the same network. *)
Lemma mask_ipv6_same a b k :
  length a = 16%nat -> length b = 16%nat -> Forall octet a -> Forall octet b -> 0 <= k <= 128 ->
  mask_ipv6_rawip a k = mask_ipv6_rawip b k <-> same_network k a b.
Proof.
  intros La Lb Ha Hb Hk.
  assert (He : mask_ipv6_rawip a k = mask_ipv6_rawip b k <->
               same_network (8 * Z.of_nat 16) (mask_ipv6_rawip a k) (mask_ipv6_rawip b k)).
  { rewrite <- octets_agree by (by apply mask_ipv6_octets). rewrite <- take_eq_nth by (rewrite mask_ipv6_length; auto).
    rewrite !take_ge by (rewrite mask_ipv6_length; auto). done. }
  rewrite He. split; intros H i Hi.
  - specialize (H i ltac:(lia)). rewrite !mask_ipv6_bit in H by (auto; lia).
    rewrite (proj2 (Z.ltb_lt i k)) in H by lia. done.
  - rewrite !mask_ipv6_bit by (auto; lia). destruct (Z.ltb_spec i k); [|done]. simpl. apply H. lia.
Qed.

(** ** The meaning of a mask *)

Lemma strchr_some c s a b : strchr c s = Some (a, b) <-> s = a ++ c :: b /\ c ∉ a.
Proof.
  revert a b. induction s as [|d s IH]; intros a b; simpl.
  - split; [done|]. intros [H _]. by destruct a.
  - destruct (Z.eqb_spec d c) as [->|Hne].
    + split.
      * intros [= <- <-]. split; [done|apply not_elem_of_nil].
      * intros [H Hn]. destruct a as [|x a]; simplify_eq/=; [done|]. destruct Hn. left.
    + destruct (strchr c s) as [[a' b']|] eqn:E.
      * split.
        -- intros [= <- <-]. destruct (proj1 (IH a' b') eq_refl) as [-> Hn]. split; [done|]. by apply not_elem_of_cons.
        -- intros [H Hn]. destruct a as [|x a]; simplify_eq/=. apply not_elem_of_cons in Hn as [_ Hn].
           pose proof (proj2 (IH a b) (conj eq_refl Hn)) as [= -> ->]. done.
      * split; [done|]. intros [H Hn]. destruct a as [|x a]; simplify_eq/=. apply not_elem_of_cons in Hn as [_ Hn].
        discriminate (proj2 (IH a b) (conj eq_refl Hn)).
Qed.

Lemma strchr_none c s : strchr c s = None <-> c ∉ s.
Proof.
  induction s as [|d s IH]; simpl; [split; [intros _; apply not_elem_of_nil|done]|].
  rewrite not_elem_of_cons, <- IH. destruct (Z.eqb_spec d c) as [->|]; [naive_solver|].
  destruct (strchr c s) as [[]|]; naive_solver.
Qed.

Lemma contains_spec c s : contains c s = true <-> c ∈ s.
Proof.
  unfold contains. rewrite existsb_exists. split.
  - intros (x & Hx%list_elem_of_In & ->%Z.eqb_eq). done.
  - intros H%list_elem_of_In. exists c. by rewrite Z.eqb_refl.
Qed.

(** How a mask splits into a nick, a user and a host part. *)
Inductive mask_parts (options : Z) : cstring -> option cstring -> option cstring -> cstring -> Prop :=
| mp_nick_user_host n u h :
    has options MATCH_MASK_IS_UHOST = false -> has options MATCH_MASK_IS_HOST = false ->
    n <> [] -> 33 ∉ n -> ch_at ∉ u -> h <> [] ->
    mask_parts options (n ++ 33 :: u ++ ch_at :: h) (Some n) (Some u) h
| mp_user_host u h :
    has options MATCH_MASK_IS_HOST = false ->
    (has options MATCH_MASK_IS_UHOST = false -> 33 ∉ u /\ 33 ∉ h) ->
    u <> [] -> ch_at ∉ u -> h <> [] ->
    mask_parts options (u ++ ch_at :: h) None (Some u) h
| mp_host h :
    (has options MATCH_MASK_IS_HOST = false -> ch_at ∉ h) ->
    (has options MATCH_MASK_IS_UHOST = false -> 33 ∉ h) ->
    mask_parts options h None None h
| mp_host_and_nick n rest :
    has options MATCH_MASK_IS_UHOST = false -> has options MATCH_MASK_IS_HOST = true ->
    n <> [] -> 33 ∉ n ->
    mask_parts options (n ++ 33 :: rest) (Some n) None n.

(** An optional mask covers an optional name. *)
Definition covers_opt (mask : cstring) (x : option cstring) : Prop := exists s, x = Some s /\ glob mask s.

Definition wild (h : cstring) : bool := contains ch_qmark h || contains ch_star h.

Section meaning.
Context (UMODE_HIDE : Z) (inet_pton : family -> cstring -> option (list Z)).

(** The address of the client is in the network [h/cidr]. *)
Definition addr_covers (h : cstring) (cidr : option Z) (c : BanClient) : Prop :=
  if wild h then covers_opt h (bc_ip c)
  else
    let '(fam, bits) := if contains ch_colon h then (AF_INET6, 128) else (AF_INET, 32) in
    exists ip a m, bc_ip c = Some ip /\ (fam = AF_INET6 -> ch_colon ∈ ip) /\
      inet_pton fam ip = Some a /\ inet_pton fam h = Some m /\
      default bits cidr <= bits /\ same_network (default bits cidr) a m.

(** The mask may still be a host name: it is not an IPv6 address, nor an IPv4
    network for a client with an IPv4 address. *)
Definition may_be_name (h : cstring) (cidr : option Z) (c : BanClient) : Prop :=
  wild h = true \/
  (ch_colon ∉ h /\ (cidr = None \/ (bc_ip c ≫= inet_pton AF_INET) = None \/ inet_pton AF_INET h = None)).

Definition host_matches (options : Z) (h : cstring) (c : BanClient) : Prop :=
  has options MATCH_CHECK_VISIBLE_HOST = true /\ covers_opt h (visible_host UMODE_HIDE c) \/
  has options MATCH_CHECK_CLOAKED_HOST = true /\ covers_opt h (bu_cloakedhost <$> bc_user c) \/
  (if has options MATCH_CHECK_IP then
     let '(h, cidr) := split_cidr h in
     bad_cidr cidr = false /\
     (addr_covers h cidr c \/
      has options MATCH_CHECK_REAL_HOST = true /\ may_be_name h cidr c /\ covers_opt h (real_host c))
   else has options MATCH_CHECK_REAL_HOST = true /\ covers_opt h (real_host c)).

(** A mask covers a client. *)
Definition mask_matches (options : Z) (mask : cstring) (c : BanClient) : Prop :=
  exists n u h, mask_parts options mask n u h /\
    match n with Some n => glob n (bc_name c) | None => True end /\
    match u with Some u => glob u (client_username c) | None => True end /\
    host_matches options h c.

End meaning.

(** The strings of a client. *)
Record ban_client_ok (c : BanClient) : Prop := {
  co_name : cstr (bc_name c);
  co_ident : cstr (bc_ident c);
  co_info : cstr (bc_info c);
  co_ip : forall s, bc_ip c = Some s -> cstr s;
  co_local : forall s, bc_local c = Some s -> cstr s;
  co_isuser : bc_status c = CLIENT_STATUS_USER -> is_Some (bc_user c);
  co_user : forall u, bc_user c = Some u ->
    cstr (bu_username u) /\ cstr (bu_realhost u) /\ (forall s, bu_virthost u = Some s -> cstr s) /\
    cstr (bu_cloakedhost u) /\ cstr (bu_account u) /\ Forall (fun p => cstr p.1) (bu_channel u)
}.

(** What [inet_pton] promises. *)
Definition pton_ok (inet_pton : family -> cstring -> option (list Z)) : Prop :=
  forall fam s a, inet_pton fam s = Some a ->
    length a = match fam with AF_INET => 4%nat | AF_INET6 => 16%nat end /\ Forall octet a /\
    (fam = AF_INET -> ch_colon ∉ s).

Definition opt_cstr (x : option cstring) : Prop := forall s, x = Some s -> cstr s.

Lemma match_opt_decides mask x :
  cstr mask -> opt_cstr x -> exists b, match_opt mask x = Some b /\ (b = true <-> covers_opt mask x).
Proof.
  intros Hm Hx. destruct x as [s|]; simpl.
  - destruct (match_simple_decides mask s Hm (Hx s eq_refl)) as (b & -> & Hb). exists b. split; [done|].
    rewrite Hb. unfold covers_opt. naive_solver.
  - exists false. split; [done|]. unfold covers_opt. naive_solver.
Qed.

Lemma visible_host_ok U c : ban_client_ok c -> opt_cstr (visible_host U c).
Proof.
  intros Hc s. unfold visible_host. destruct (bc_user c) as [u|] eqn:E.
  - destruct (co_user _ Hc u E) as (_ & Hr & Hv & _). unfold BGetHost. case_match; [apply Hv|by intros [= <-]].
  - case_match; [apply Hc|done].
Qed.

Lemma real_host_ok c : ban_client_ok c -> opt_cstr (real_host c).
Proof.
  intros Hc s. unfold real_host. destruct (bc_user c) as [u|] eqn:E; [|apply Hc].
  destruct (co_user _ Hc u E) as (_ & Hr & _). by intros [= <-].
Qed.

Lemma cloaked_host_ok c : ban_client_ok c -> opt_cstr (bu_cloakedhost <$> bc_user c).
Proof.
  intros Hc s. destruct (bc_user c) as [u|] eqn:E; [|done]. destruct (co_user _ Hc u E) as (_ & _ & _ & Hk & _).
  by intros [= <-].
Qed.

Lemma client_username_ok c : ban_client_ok c -> cstr (client_username c).
Proof.
  intros Hc. unfold client_username. destruct (bc_user c) as [u|] eqn:E; [|apply Hc].
  destruct (co_user _ Hc u E) as (Hu & _). destruct (bu_username u); [apply Hc|done].
Qed.

Lemma strchr_cstr c s a b : strchr c s = Some (a, b) -> cstr s -> cstr a /\ cstr b.
Proof. intros [-> _]%strchr_some [Ha [_ Hb]%cstr_cons]%cstr_app. done. Qed.

Lemma split_cidr_cstr h : cstr h -> cstr (split_cidr h).1.
Proof.
  intros Hh. unfold split_cidr. destruct (strchr 47 h) as [[a b]|] eqn:E; [|done].
  by apply strchr_cstr in E as [? _].
Qed.

Section decides.
Context (UMODE_HIDE : Z) (inet_pton : family -> cstring -> option (list Z)).
Context (Hpton : pton_ok inet_pton) (c : BanClient) (Hc : ban_client_ok c).

(** What the stages promise about the rest of the match. *)
Definition ip_result (h : cstring) (cidr : option Z) (r : stage cstring) : Prop :=
  match r with
  | Verdict true => bad_cidr cidr = false /\ addr_covers inet_pton h cidr c
  | Verdict false => bad_cidr cidr = true \/ (~ addr_covers inet_pton h cidr c /\ ~ may_be_name inet_pton h cidr c)
  | Continue x => x = h /\ bad_cidr cidr = false /\ ~ addr_covers inet_pton h cidr c /\ may_be_name inet_pton h cidr c
  end.

(** The comparison, for a length that is in range. *)
Lemma compare_network fam x y a m bits k :
  inet_pton fam x = Some a -> inet_pton fam y = Some m ->
  bits = match fam with AF_INET => 32 | AF_INET6 => 128 end -> 0 <= k <= bits ->
  exists r, comp_with_mask a m k = Some r /\ (r = true <-> same_network k a m).
Proof using Hpton.
  intros Ha Hm Hb Hk. destruct (Hpton _ _ _ Ha) as (La & Oa & _), (Hpton _ _ _ Hm) as (Lm & Om & _).
  apply comp_with_mask_decides; [done..|by rewrite La, Lm|]. rewrite La. destruct fam; lia.
Qed.

Lemma ipv6_stage h cidr :
  bad_cidr cidr = false -> wild h = false -> contains ch_colon h = true ->
  exists b, ipv6_check inet_pton h cidr c = Some b /\ ip_result h cidr (Verdict b).
Proof using Hpton.
  intros Hbad Hw H6. unfold ipv6_check.
  assert (Hiff : forall b, (b = true <-> addr_covers inet_pton h cidr c) -> ip_result h cidr (Verdict b)).
  { intros [] Hb; simpl; [split; [done|by apply Hb]|]. right. split; [by intros H%Hb|].
    unfold may_be_name. rewrite Hw. intros [?|[H _]]; [done|]. by rewrite contains_spec in H6. }
  unfold addr_covers in Hiff. rewrite Hw, H6 in Hiff.
  assert (Hno : (forall ip a m, bc_ip c = Some ip -> ch_colon ∈ ip -> inet_pton AF_INET6 ip = Some a ->
            inet_pton AF_INET6 h = Some m -> default 128 cidr <= 128 -> same_network (default 128 cidr) a m -> False) ->
          ip_result h cidr (Verdict false)).
  { intros H. apply Hiff. split; [done|]. intros (ip & a & m & ? & ? & ? & ? & ? & ?). exfalso. eauto. }
  destruct (bc_ip c) as [ip|]; [|exists false; split; [done|]; apply Hno; done].
  destruct (contains ch_colon ip) eqn:Ei; cbn [negb];
    [|exists false; split; [done|]; apply Hno; intros ? ? ? [= <-] Hin%contains_spec; congruence].
  destruct (inet_pton AF_INET6 ip) as [a|] eqn:Ea; [|exists false; split; [done|]; apply Hno; naive_solver].
  destruct (inet_pton AF_INET6 h) as [m|] eqn:Em; [|exists false; split; [done|]; apply Hno; naive_solver].
  assert (Hcmp : forall k, default 128 cidr = k -> 0 <= k <= 128 ->
            exists b, comp_with_mask a m k = Some b /\ ip_result h cidr (Verdict b)).
  { intros k Hk Hr. destruct (compare_network _ _ _ a m 128 k Ea Em eq_refl Hr) as (r & -> & Hr'). exists r. split; [done|].
    apply Hiff. rewrite Hr', Hk. split; [intros; exists ip, a, m; rewrite <- contains_spec; naive_solver|naive_solver]. }
  destruct cidr as [k|]; [|apply Hcmp; [done|lia]].
  unfold bad_cidr in Hbad. apply Z.leb_gt in Hbad. destruct (Z.ltb_spec 128 k) as [Hk|Hk].
  - exists false. split; [done|]. apply Hno. simpl. intros; lia.
  - apply Hcmp; [done|lia].
Qed.

Lemma ip_stage_decides h :
  cstr h ->
  exists r, ip_stage inet_pton h c = Some r /\ ip_result (split_cidr h).1 (split_cidr h).2 r.
Proof using Hpton Hc.
  intros Hh%split_cidr_cstr. unfold ip_stage. destruct (split_cidr h) as [h' cidr]. simpl in *.
  destruct (bad_cidr cidr) eqn:Hbad; [eexists; split; [done|]; by left|].
  fold (wild h'). destruct (wild h') eqn:Hw.
  { destruct (match_opt_decides h' (bc_ip c) Hh) as (b & -> & Hb); [intros s; apply Hc|]. simpl.
    eexists. split; [done|]. unfold ip_result, addr_covers, may_be_name. rewrite Hw.
    destruct b; naive_solver. }
  destruct (contains ch_colon h') eqn:H6.
  { destruct (ipv6_stage h' cidr Hbad Hw H6) as (b & -> & Hr). simpl. eauto. }
  assert (Hn6 : ch_colon ∉ h') by (rewrite <- contains_spec; congruence).
  assert (Hac : addr_covers inet_pton h' cidr c <-> exists a m, (bc_ip c ≫= inet_pton AF_INET) = Some a /\ inet_pton AF_INET h' = Some m /\
            default 32 cidr <= 32 /\ same_network (default 32 cidr) a m).
  { unfold addr_covers. rewrite Hw, H6. setoid_rewrite bind_Some. naive_solver. }
  unfold ip_result. revert Hac. generalize (addr_covers inet_pton h' cidr c). intros P Hac. unfold may_be_name. rewrite Hw.
  assert (HnP : (bc_ip c ≫= inet_pton AF_INET) = None \/ inet_pton AF_INET h' = None -> ~ P).
  { rewrite Hac. intros Hn (a & m & Ea & Em & _). destruct Hn; congruence. }
  destruct (bc_ip c ≫= inet_pton AF_INET) as [a|] eqn:Ea; [|eexists; split; [done|]; simpl; auto 10].
  destruct (inet_pton AF_INET h') as [m|] eqn:Em; [|eexists; split; [done|]; simpl; auto 10].
  apply bind_Some in Ea as (ip & _ & Ea).
  assert (HP : P <-> default 32 cidr <= 32 /\ same_network (default 32 cidr) a m).
  { rewrite Hac. split; [intros (? & ? & [= <-] & [= <-] & ? & ?); auto|]. intros [? ?]. exists a, m. auto. }
  destruct cidr as [k|]; simpl in HP.
  - assert (Hno : ~ (false = true \/ (ch_colon ∉ h' /\ (Some k = None \/ Some a = None \/ Some m = None)))).
    { intros [|[_ [|[|]]]]; done. }
    unfold bad_cidr in Hbad. apply Z.leb_gt in Hbad. destruct (Z.ltb_spec 32 k) as [Hk|Hk].
    + eexists. split; [done|]. right. split; [rewrite HP; lia|done].
    + destruct (compare_network _ _ _ a m 32 k Ea Em eq_refl ltac:(lia)) as (r & -> & Hr). eexists. split; [done|].
      destruct r; [split; [by apply Z.leb_gt|apply HP; split; [done|by apply Hr]]|].
      right. split; [|done]. rewrite HP, <- Hr. by intros [_ ?].
  - destruct (compare_network _ _ _ a m 32 32 Ea Em eq_refl ltac:(lia)) as (r & -> & Hr). eexists. split; [done|].
    destruct r; [split; [done|apply HP; split; [done|by apply Hr]]|].
    split; [done|]. split; [done|]. split; [|by auto]. rewrite HP, <- Hr. by intros [_ ?].
Qed.

(** An optional check by name. *)
Lemma guarded_match (g : bool) mask x :
  cstr mask -> opt_cstr x ->
  exists b, (if g then match_opt mask x else Some false) = Some b /\ (b = true <-> g = true /\ covers_opt mask x).
Proof using Type.
  intros Hm Hx. destruct g; [|exists false; split; [done|]; naive_solver].
  destruct (match_opt_decides mask x Hm Hx) as (b & -> & Hb). exists b. split; [done|]. naive_solver.
Qed.

Lemma host_stage_decides h options :
  cstr h ->
  exists b, host_stage UMODE_HIDE inet_pton h c options = Some b /\
    (b = true <-> host_matches UMODE_HIDE inet_pton options h c).
Proof using Hpton Hc.
  intros Hh. unfold host_stage, host_matches.
  destruct (guarded_match (has options MATCH_CHECK_VISIBLE_HOST) h (visible_host UMODE_HIDE c) Hh)
    as (v & -> & Hv); [by apply visible_host_ok|]. cbn [mbind option_bind].
  destruct v; [exists true; split; [done|]; split; [left; by apply Hv|done]|].
  destruct (guarded_match (has options MATCH_CHECK_CLOAKED_HOST) h (bu_cloakedhost <$> bc_user c) Hh)
    as (k & -> & Hk); [by apply cloaked_host_ok|]. cbn [mbind option_bind].
  destruct k; [exists true; split; [done|]; split; [right; left; by apply Hk|done]|].
  assert (Hskip : forall P, (has options MATCH_CHECK_VISIBLE_HOST = true /\ covers_opt h (visible_host UMODE_HIDE c) \/
            has options MATCH_CHECK_CLOAKED_HOST = true /\ covers_opt h (bu_cloakedhost <$> bc_user c) \/ P) <-> P).
  { intros P. split; [|auto]. intros [H%Hv|[H%Hk|H]]; [done..|exact H]. }
  destruct (has options MATCH_CHECK_IP); [|setoid_rewrite Hskip; cbn [mbind option_bind]; apply guarded_match; [done|by apply real_host_ok]].
  destruct (ip_stage_decides h Hh) as (r & -> & Hr). cbn [mbind option_bind].
  apply split_cidr_cstr in Hh. destruct (split_cidr h) as [h' cidr]. simpl in Hr, Hh. setoid_rewrite Hskip.
  destruct r as [b|x].
  - exists b. split; [done|]. destruct b; simpl in Hr; [tauto|]. split; [done|].
    intros (H1 & H2). destruct Hr as [?|[H3 H4]]; [congruence|tauto].
  - destruct Hr as (-> & Hb & Hna & Hname).
    destruct (guarded_match (has options MATCH_CHECK_REAL_HOST) h' (real_host c) Hh (real_host_ok c Hc)) as (b & -> & Hb').
    exists b. split; [done|]. tauto.
Qed.
End decides.

(** The split, computed. *)
Definition parts_of (options : Z) (mask : cstring) : option (option cstring * option cstring * cstring) :=
  match (if has options MATCH_MASK_IS_UHOST then None else strchr 33 mask) with
  | Some ([], _) => None
  | Some (n, p) =>
      if has options MATCH_MASK_IS_HOST then Some (Some n, None, n)
      else match strchr ch_at p with
           | Some (_, []) | None => None
           | Some (u, h) => Some (Some n, Some u, h)
           end
  | None =>
      if has options MATCH_MASK_IS_HOST then Some (None, None, mask)
      else match strchr ch_at mask with
           | Some (_, []) | Some ([], _) => None
           | Some (u, h) => Some (None, Some u, h)
           | None => Some (None, None, mask)
           end
  end.

Lemma strchr_at c a b : c ∉ a -> strchr c (a ++ c :: b) = Some (a, b).
Proof. intros H. by apply strchr_some. Qed.

Lemma parts_of_spec options mask n u h : parts_of options mask = Some (n, u, h) <-> mask_parts options mask n u h.
Proof.
  unfold parts_of. split.
  - destruct (has options MATCH_MASK_IS_UHOST) eqn:EU; [|destruct (strchr 33 mask) as [[n' p]|] eqn:E1].
    2: { apply strchr_some in E1 as [-> Hn]. destruct n' as [|x n']; [done|].
         destruct (has options MATCH_MASK_IS_HOST) eqn:EH; [intros [= <- <- <-]; by constructor|].
         destruct (strchr ch_at p) as [[u' h']|] eqn:E2; [|done]. destruct h' as [|y h']; [done|].
         apply strchr_some in E2 as [-> Hu]. intros [= <- <- <-]. by constructor. }
    all: destruct (has options MATCH_MASK_IS_HOST) eqn:EH;
      [intros [= <- <- <-]; apply mp_host; [congruence|]; try congruence; intros _; by apply strchr_none|].
    all: destruct (strchr ch_at mask) as [[u' h']|] eqn:E2;
      [|intros [= <- <- <-]; apply mp_host; [intros _; by apply strchr_none|]; try congruence; intros _; by apply strchr_none].
    all: destruct u' as [|x u']; [by destruct h'|]; destruct h' as [|y h']; [done|].
    all: apply strchr_some in E2 as [-> Hu]; intros [= <- <- <-]; constructor; try done; try congruence.
    intros _. apply strchr_none in E1. split; intros H; apply E1, elem_of_app; [by left|right; by right].
  - intros [n' u' h' EU EH Hn Hn33 Hu Hh|u' h' EH HU Hu Hu64 Hh|h' HH HU|n' rest EU EH Hn Hn33].
    + rewrite EU, EH, strchr_at by done. destruct n'; [done|]. rewrite strchr_at by done. by destruct h'.
    + assert ((if has options MATCH_MASK_IS_UHOST then None else strchr 33 (u' ++ ch_at :: h')) = None) as ->.
      { destruct (has options MATCH_MASK_IS_UHOST); [done|]. apply strchr_none. destruct (HU eq_refl).
        rewrite elem_of_app, elem_of_cons. intros [?|[?|?]]; done. }
      rewrite EH, strchr_at by done. destruct u'; [done|]. by destruct h'.
    + assert ((if has options MATCH_MASK_IS_UHOST then None else strchr 33 h') = None) as ->.
      { destruct (has options MATCH_MASK_IS_UHOST); [done|]. apply strchr_none. by apply HU. }
      destruct (has options MATCH_MASK_IS_HOST); [done|]. rewrite (proj2 (strchr_none _ _)); auto.
    + rewrite EU, EH, strchr_at by done. by destruct n'.
Qed.

Section whole.
Context (UMODE_HIDE : Z) (inet_pton : family -> cstring -> option (list Z)).
Context (Hpton : pton_ok inet_pton) (c : BanClient) (Hc : ban_client_ok c).

(** The matcher checks the parts one after the other. *)
Lemma match_mask_parts mask options :
  match_mask UMODE_HIDE inet_pton mask c options =
  match parts_of options mask with
  | None => match (if has options MATCH_MASK_IS_UHOST then None else strchr 33 mask) with
            | Some (x :: n, _) => m ← match_simple (x :: n) (bc_name c); Some false
            | _ => Some false
            end
  | Some (n, u, h) =>
      a ← match n with Some n => match_simple n (bc_name c) | None => Some true end;
      if a : bool then
        b ← match u with Some u => match_simple u (client_username c) | None => Some true end;
        if b : bool then host_stage UMODE_HIDE inet_pton h c options else Some false
      else Some false
  end.
Proof using Type.
  unfold match_mask, nick_stage, parts_of.
  destruct (has options MATCH_MASK_IS_UHOST) eqn:EU; [|destruct (strchr 33 mask) as [[n p]|] eqn:E1].
  2: { destruct n as [|x n]; [done|].
       unfold user_stage. cbn [default]. destruct (has options MATCH_MASK_IS_HOST).
       { destruct (match_simple (x :: n) (bc_name c)) as [[]|]; done. }
       destruct (match_simple (x :: n) (bc_name c)) as [[]|] eqn:Em; cbn [mbind option_bind];
         cbn [from_option Datatypes.id]; destruct (strchr ch_at p) as [[u [|y h]]|]; rewrite ?Em; try done.
       rewrite (bool_decide_eq_false_2 (y :: h = [])), (bool_decide_eq_false_2 (x :: n = [])) by done. cbn [mbind option_bind orb].
       by destruct (match_simple u (client_username c)) as [[]|]. }
  all: cbn [mbind option_bind]; unfold user_stage; cbn [from_option Datatypes.id];
    destruct (has options MATCH_MASK_IS_HOST); [done|].
  all: destruct (strchr ch_at mask) as [[[|x u] [|y h]]|]; try done; cbn [mbind option_bind].
  all: rewrite !bool_decide_eq_false_2 by done; cbn [orb].
  all: by destruct (match_simple (x :: u) (client_username c)) as [[]|].
Qed.

Lemma parts_cstr options mask n u h :
  parts_of options mask = Some (n, u, h) -> cstr mask -> opt_cstr n /\ opt_cstr u /\ cstr h.
Proof using Type.
  intros Hp%parts_of_spec Hm. unfold opt_cstr. destruct Hp; rewrite ?cstr_app, ?cstr_cons, ?cstr_app, ?cstr_cons in Hm;
    split_and!; try tauto; intros s [= <-]; tauto.
Qed.

Lemma match_mask_decides mask options :
  cstr mask ->
  exists b, match_mask UMODE_HIDE inet_pton mask c options = Some b /\
    (b = true <-> mask_matches UMODE_HIDE inet_pton options mask c).
Proof using Hpton Hc.
  intros Hm. rewrite match_mask_parts. unfold mask_matches. setoid_rewrite <- parts_of_spec.
  destruct (parts_of options mask) as [[[n u] h]|] eqn:E.
  - destruct (parts_cstr _ _ _ _ _ E Hm) as (Hn & Hu & Hh).
    assert (Hone : forall (x : option cstring) name, opt_cstr x -> cstr name ->
              exists b, match x with Some x => match_simple x name | None => Some true end = Some b /\
                (b = true <-> match x with Some x => glob x name | None => True end)).
    { intros [x|] name Hx Hname; [apply match_simple_decides; auto|]. by exists true. }
    destruct (Hone n (bc_name c) Hn (co_name _ Hc)) as (a & -> & Ha). cbn [mbind option_bind].
    destruct (Hone u (client_username c) Hu (client_username_ok c Hc)) as (b & Hb1 & Hb).
    destruct (host_stage_decides UMODE_HIDE inet_pton Hpton c Hc h options Hh) as (r & Hr1 & Hr).
    assert (Hiff : (exists n0 u0 h0, Some (n, u, h) = Some (n0, u0, h0) /\
              match n0 with Some n => glob n (bc_name c) | None => True end /\
              match u0 with Some u => glob u (client_username c) | None => True end /\
              host_matches UMODE_HIDE inet_pton options h0 c) <-> a = true /\ b = true /\ r = true).
    { rewrite Ha, Hb, Hr. split; [intros (? & ? & ? & [= <- <- <-] & ?); auto|]. intros ?. by exists n, u, h. }
    setoid_rewrite Hiff. destruct a; [|exists false; split; [done|]; naive_solver].
    rewrite Hb1. cbn [mbind option_bind]. destruct b; [|exists false; split; [done|]; naive_solver].
    rewrite Hr1. exists r. split; [done|]. naive_solver.
  - assert (Hno : forall P : option cstring -> option cstring -> cstring -> Prop, false = true <-> exists n u h, None = Some (n, u, h) /\ P n u h).
    { intros P. split; [done|]. by intros (? & ? & ? & [=] & _). }
    destruct (if has options MATCH_MASK_IS_UHOST then None else strchr 33 mask) as [[[|x n] p]|] eqn:E1;
      [exists false; split; [done|apply Hno]..| |exists false; split; [done|apply Hno]].
    destruct (has options MATCH_MASK_IS_UHOST); [done|]. apply strchr_cstr in E1 as [Hn _]; [|done].
    destruct (match_simple_decides (x :: n) (bc_name c) Hn (co_name _ Hc)) as (b & -> & _).
    exists false. split; [done|apply Hno].
Qed.
End whole.

(** ** Lists of addresses *)

(** The entry of a list covers the client's address. *)
Definition entry_covers (inet_pton : family -> cstring -> option (list Z)) (nm : cstring) (c : BanClient) : Prop :=
  addr_covers inet_pton (split_cidr (take 511 nm)).1 (split_cidr (take 511 nm)).2 c.

Definition entry_valid (nm : cstring) : Prop := bad_cidr (split_cidr (take 511 nm)).2 = false.

Section iplist.
Context (inet_pton : family -> cstring -> option (list Z)) (Hpton : pton_ok inet_pton).
Context (c : BanClient) (ip : cstring) (clientip : list Z).
Context (Hip : bc_ip c = Some ip) (Hcip : cstr ip).
Context (Hparse : inet_pton (if contains ch_colon ip then AF_INET6 else AF_INET) ip = Some clientip).

(** The address of the mask, compared with the client's. *)
Definition list_compare (mask : cstring) (cidr : option Z) : option bool :=
  let v6 := contains ch_colon mask in
  if negb (eqb v6 (contains ch_colon ip)) then Some false
  else
    let bits := if v6 then 128 else 32 in
    match inet_pton (if v6 then AF_INET6 else AF_INET) mask with
    | None => Some false
    | Some maskip =>
        match cidr with
        | None => comp_with_mask clientip maskip bits
        | Some k => if bits <? k then Some false else comp_with_mask clientip maskip k
        end
    end.

Lemma list_compare_decides mask cidr :
  wild mask = false -> bad_cidr cidr = false ->
  exists b, list_compare mask cidr = Some b /\ (b = true <-> addr_covers inet_pton mask cidr c).
Proof using Hpton Hip Hparse.
  intros Hw Hbad. unfold list_compare, addr_covers. rewrite Hw.
  set (v6 := contains ch_colon mask). set (fam := if v6 then AF_INET6 else AF_INET). set (bits := if v6 then 128 else 32).
  replace (if v6 then (AF_INET6, 128) else (AF_INET, 32)) with (fam, bits) by (unfold fam, bits; by destruct v6).
  assert (Hno : (forall a m, (fam = AF_INET6 -> ch_colon ∈ ip) -> inet_pton fam ip = Some a ->
            inet_pton fam mask = Some m -> default bits cidr <= bits -> False) ->
          exists b, Some false = Some b /\ (b = true <-> exists ip a m, bc_ip c = Some ip /\ (fam = AF_INET6 -> ch_colon ∈ ip) /\
            inet_pton fam ip = Some a /\ inet_pton fam mask = Some m /\ default bits cidr <= bits /\ same_network (default bits cidr) a m)).
  { intros H. exists false. split; [done|]. split; [done|]. intros (ip' & a & m & Hi & ? & ? & ? & ? & _).
    rewrite Hip in Hi. injection Hi as <-. exfalso. eauto. }
  destruct (eqb v6 (contains ch_colon ip)) eqn:Efam; cbn [negb].
  2: { apply Hno. intros a m H6 Ha Hm _. apply eqb_false_iff in Efam. subst fam. destruct v6.
       - rewrite <- contains_spec in H6. destruct (contains ch_colon ip); [done|]. by specialize (H6 eq_refl).
       - destruct (Hpton _ _ _ Ha) as (_ & _ & H4). specialize (H4 eq_refl). rewrite <- contains_spec in H4.
         by destruct (contains ch_colon ip). }
  apply eqb_prop in Efam. rewrite <- Efam in Hparse. fold fam in Hparse.
  destruct (inet_pton fam mask) as [m|] eqn:Em; [|apply Hno; intros ? ? _ _ [=]].
  assert (Hbits : bits = match fam with AF_INET => 32 | AF_INET6 => 128 end) by (unfold fam, bits; by destruct v6).
  assert (Hcmp : 0 <= default bits cidr <= bits -> exists b, comp_with_mask clientip m (default bits cidr) = Some b /\
            (b = true <-> exists ip a m, bc_ip c = Some ip /\ (fam = AF_INET6 -> ch_colon ∈ ip) /\
            inet_pton fam ip = Some a /\ inet_pton fam mask = Some m /\ default bits cidr <= bits /\ same_network (default bits cidr) a m)).
  { intros Hr. destruct (compare_network inet_pton Hpton fam ip mask clientip m bits _ Hparse Em Hbits Hr) as (b & -> & Hb).
    exists b. split; [done|]. rewrite Hb. split.
    - intros Hs. exists ip, clientip, m. split_and!; try done; [|lia]. unfold fam. rewrite <- contains_spec, <- Efam. by destruct v6.
    - intros (ip' & a & m' & Hi & _ & Ha & Hm & _ & Hs). rewrite Hip in Hi. injection Hi as <-.
      rewrite Hparse in Ha. injection Ha as <-. rewrite Em in Hm. injection Hm as <-. done. }
  setoid_rewrite Em in Hcmp. destruct cidr as [k|]; simpl in *.
  - apply Z.leb_gt in Hbad. destruct (Z.ltb_spec bits k); [apply Hno; intros; lia|apply Hcmp; lia].
  - apply Hcmp. unfold bits. destruct v6; lia.
Qed.

Lemma iplist_loop_decides l :
  Forall cstr l -> Forall entry_valid l ->
  exists b, iplist_loop inet_pton ip (contains ch_colon ip) clientip l = Some b /\
    (b = true <-> exists nm, nm ∈ l /\ entry_covers inet_pton nm c).
Proof using Hpton Hip Hparse Hcip.
  induction l as [|nm l IH]; intros Hcs Hv.
  { exists false. split; [done|]. split; [done|]. intros (? & H & _). by apply not_elem_of_nil in H. }
  apply Forall_cons in Hcs as [Hnm Hcs], Hv as [Hvm Hv]. destruct (IH Hcs Hv) as (b & Hb1 & Hb).
  unfold entry_valid in Hvm. cbn [iplist_loop]. rewrite strlcpy_take by lia. change (512 - 1)%nat with 511%nat.
  assert (Hcm : cstr (split_cidr (take 511 nm)).1) by (apply split_cidr_cstr; by apply Forall_take).
  assert (Hec : entry_covers inet_pton nm c <-> addr_covers inet_pton (split_cidr (take 511 nm)).1 (split_cidr (take 511 nm)).2 c) by done.
  destruct (split_cidr (take 511 nm)) as [mask cidr]. simpl in Hvm, Hcm, Hec. rewrite Hvm.
  fold (list_compare mask cidr).
  assert (Hm : exists m, (if contains ch_star mask || contains ch_qmark mask then match_simple mask ip else list_compare mask cidr)
            = Some m /\ (m = true <-> entry_covers inet_pton nm c)).
  { setoid_rewrite Hec. rewrite (orb_comm (contains ch_star mask)). fold (wild mask). destruct (wild mask) eqn:Ew; [|by apply list_compare_decides].
    unfold addr_covers. rewrite Ew, Hip. apply (match_opt_decides mask (Some ip) Hcm). by intros s [= <-]. }
  destruct Hm as (m & -> & Hm). cbn [mbind option_bind]. setoid_rewrite elem_of_cons. destruct m.
  - exists true. split; [done|]. split; [|done]. intros _. exists nm. split; [by left|by apply Hm].
  - exists b. split; [done|]. rewrite Hb. split; [intros (x & ? & ?); eauto|].
    intros (x & [->|?] & Hx); [by apply Hm in Hx|eauto].
Qed.
End iplist.

(** ** The properties *)

(** The CIDR comparison is a comparison of leading bits.  For two addresses of
    the same family and a length within it, [comp_with_mask] reads nothing outside
    of them and answers whether the first [k] bits agree; [mask_ipv6_rawip] keeps
    exactly those bits, so that the masked addresses which count clones are equal
    just when the comparison of bans succeeds. *)
Theorem cidr_comparison (a b : list Z) (k : Z)
    (Ha : Forall octet a) (Hb : Forall octet b) (Hl : length a = length b) (Hk : 0 <= k <= 8 * Z.of_nat (length a)) :
  exists r, comp_with_mask a b k = Some r /\ (r = true <-> same_network k a b) /\
    (length a = 16%nat ->
     (r = true <-> mask_ipv6_rawip a k = mask_ipv6_rawip b k) /\
     (forall i, 0 <= i < 128 -> addr_bit (mask_ipv6_rawip a k) i = (i <? k) && addr_bit a i)).
Proof.
  destruct (comp_with_mask_decides a b k Ha Hb Hl Hk) as (r & Hr1 & Hr). exists r. split_and!; [done..|]. intros L.
  split; [rewrite Hr; symmetry; apply mask_ipv6_same; auto; lia|]. intros i Hi. apply mask_ipv6_bit; auto; lia.
Qed.

Lemma cidr_comparison_witness :
  exists r, comp_with_mask [192; 168; 130; 7] [192; 168; 128; 0] 18 = Some r /\
    (r = true <-> same_network 18 [192; 168; 130; 7] [192; 168; 128; 0]) /\
    (length [192; 168; 130; 7] = 16%nat ->
     (r = true <-> mask_ipv6_rawip [192; 168; 130; 7] 18 = mask_ipv6_rawip [192; 168; 128; 0] 18) /\
     (forall i, 0 <= i < 128 -> addr_bit (mask_ipv6_rawip [192; 168; 130; 7] 18) i = (i <? 18) && addr_bit [192; 168; 130; 7] i)).
Proof. apply cidr_comparison; [repeat constructor; unfold octet; lia..|done|simpl; lia]. Defined.

(** C18: [match_user] decides the meaning of masks.  For any mask that is not an
    extended server ban it terminates without a fault and answers whether the mask,
    cut to the size of the buffer, covers the client: its nick and user parts match
    as wildcards, and its host part matches a name of the client or names a network
    that the client's address is in.  [unreal_match_iplist] answers by the same
    meaning of addresses for a list whose lengths are positive, but an entry with a
    length of zero or less hides all entries behind it. *)
Theorem match_user_correct (UMODE_HIDE : Z) (inet_pton : family -> cstring -> option (list Z)) (Hpton : pton_ok inet_pton)
    (ext : cstring -> BanClient -> option bool) (c : BanClient) (Hc : ban_client_ok c) :
  (forall mask options, cstr mask -> has options MATCH_CHECK_EXTENDED && is_extended_server_ban (take 110 mask) = false ->
     exists b, match_user UMODE_HIDE inet_pton ext mask c options = Some b /\
       (b = true <-> mask_matches UMODE_HIDE inet_pton options (take 110 mask) c)) /\
  (forall ip l, bc_ip c = Some ip -> is_Some (inet_pton (if contains ch_colon ip then AF_INET6 else AF_INET) ip) ->
     Forall cstr l ->
     (Forall entry_valid l ->
      exists b, unreal_match_iplist inet_pton c l = Some b /\ (b = true <-> exists nm, nm ∈ l /\ entry_covers inet_pton nm c)) /\
     (forall bad, ~ entry_valid bad -> unreal_match_iplist inet_pton c (bad :: l) = Some false)).
Proof.
  split.
  - intros mask options Hm Hext. unfold match_user. rewrite strlcpy_take by (vm_compute; lia).
    change (NICKLEN + USERLEN + HOSTLEN + 8 - 1)%nat with 110%nat. rewrite Hext. cbn [andb].
    apply match_mask_decides; [done..|]. by apply Forall_take.
  - intros ip l Hip [a Ha] Hl. unfold unreal_match_iplist. rewrite Hip, Ha. split.
    + intros Hv. apply iplist_loop_decides; auto. by apply Hc.
    + intros bad Hbad. unfold entry_valid in Hbad. apply not_false_is_true in Hbad. cbn [iplist_loop].
      rewrite strlcpy_take by lia. change (512 - 1)%nat with 511%nat. destruct (split_cidr (take 511 bad)). simpl in Hbad. by rewrite Hbad.
Qed.

(** An [inet_pton] for the examples: dotted decimal, and no IPv6. *)
Definition example_pton (fam : family) (s : cstring) : option (list Z) :=
  match fam with
  | AF_INET6 => None
  | AF_INET =>
      let a := map (digits_value 0) (split_on (str ".") s) in
      if negb (contains ch_colon s) && (length a =? 4)%nat && forallb (fun x => (0 <=? x) && (x <? 256)) a then Some a else None
  end.

Lemma example_pton_ok : pton_ok example_pton.
Proof.
  intros [] s a; [|done]. unfold example_pton. set (w := map _ _).
  destruct (contains ch_colon s) eqn:E; [done|]. destruct (Nat.eqb_spec (length w) 4) as [Hl|]; [|done]. cbn [negb andb].
  destruct (forallb _ w) eqn:Ef; [|done]. intros [= <-]. split; [done|]. split.
  - rewrite forallb_forall in Ef. apply Forall_forall. intros x Hx%list_elem_of_In%Ef. unfold octet. lia.
  - intros _. rewrite <- contains_spec. congruence.
Qed.

Definition example_user (name username host ip : string) (account : string) : BanClient :=
  MkBanClient (str name) (str "unknown") (str "real name") CLIENT_STATUS_USER 0 (Some (str ip)) None
    (Some (MkBanUser (str username) (str host) None (str "cloak") (str account) [])).

Ltac ban_client_ok_tac :=
  repeat first [progress intros | progress simplify_eq/= | eexists; reflexivity | split | constructor | vm_compute; auto; fail].

Lemma example_user_ok : ban_client_ok (example_user "alice" "al" "host.example.net" "192.168.130.7" "0").
Proof. ban_client_ok_tac. Qed.

Lemma match_user_correct_witness :
  exists b, match_user 1 example_pton (fun _ _ => None) (str "al*!*@192.168.128.0/18")
      (example_user "alice" "al" "host.example.net" "192.168.130.7" "0") MATCH_CHECK_ALL = Some b /\
    (b = true <-> mask_matches 1 example_pton MATCH_CHECK_ALL (take 110 (str "al*!*@192.168.128.0/18"))
       (example_user "alice" "al" "host.example.net" "192.168.130.7" "0")).
Proof.
  apply (proj1 (match_user_correct 1 example_pton example_pton_ok (fun _ _ => None) _ example_user_ok));
    [repeat constructor|reflexivity].
Defined.

Example match_user_examples :
  let run m := match_user 1 example_pton (fun _ _ => None) (str m)
                 (example_user "alice" "al" "host.example.net" "192.168.130.7" "0") MATCH_CHECK_ALL in
  run "al*!*@192.168.128.0/18" = Some true /\ run "*!*@192.168.128.0/24" = Some false /\
  run "*@*.example.net" = Some true /\ run "host.example.net/9" = Some true /\ run "*!*@192.168.130.7/0" = Some false.
Proof. vm_compute. done. Qed.
