(* ===== verification/Extban.v ===== *)
(** * Extended bans: the registry and ban matching (src/api-extban.c, src/channel.c, modules/extbans/)

    An extended ban "~name:parameter" is handled by the module that registered the
    name.  This file has the registry of handlers, the [is_banned] callback of every
    module that has one, the test of one entry ([ban_check_mask], where handlers that
    only restrict the event call it again for the rest of the entry) and the tests of
    the lists +b, +e and +I of a channel. *)
From Stdlib Require Import Sorted.
From S2P Require Import Prelude Chars Glob Strings Base64 Client Hash ChanMode Bans Crule CruleFuncs MatchUser.

(** ** The registry *)

(** The callbacks, named by the function that they point to. *)
Inductive is_ok_fn :=
| extban_is_ok_nuh_extban | extban_certfp_is_ok | extban_country_is_ok | extban_asn_is_ok
| extban_inchannel_is_ok | extban_securitygroup_is_ok | msgbypass_extban_is_ok | flood_extban_is_ok
| extban_link_is_ok | extban_modeT_is_ok | timedban_extban_is_ok | extban_inherit_is_ok.

Inductive conv_fn :=
| extban_conv_param_nuh_or_extban | extban_realname_conv_param | extban_account_conv_param
| extban_certfp_conv_param | extban_country_conv_param | extban_asn_conv_param | extban_operclass_conv_param
| extban_inchannel_conv_param | extban_securitygroup_conv_param | msgbypass_extban_conv_param
| flood_extban_conv_param | extban_link_conv_param | extban_modeT_conv_param | timedban_extban_conv_param | extban_inherit_conv_param.

Inductive is_banned_fn :=
| extban_quiet_is_banned | extban_modej_is_banned | extban_nickchange_is_banned | extban_partmsg_is_banned
| extban_realname_is_banned | extban_account_is_banned | extban_certfp_is_banned | extban_country_is_banned
| extban_asn_is_banned | extban_operclass_is_banned | extban_inchannel_is_banned | extban_securitygroup_is_banned
| extban_inherit_is_banned | timedban_is_banned.

Definition BANCHK_JOIN : Z := 1.
Definition BANCHK_MSG : Z := 2.
Definition BANCHK_NICK : Z := 4.
Definition BANCHK_LEAVE_MSG : Z := 8.
Definition BANCHK_TKL : Z := 16.
Definition BANCHK_ALL : Z := 15.

Definition EXTBOPT_ACTMODIFIER : Z := 2.
Definition EXTBOPT_NOSTACKCHILD : Z := 4.
Definition EXTBOPT_INVEX : Z := 8.
Definition EXTBOPT_TKL : Z := 16.

Record ExtbanInfo := MkExtbanInfo {
  q_letter : Z;
  q_name : option cstring;
  q_options : Z;
  q_is_ok : option is_ok_fn;
  q_conv_param : option conv_fn;
  q_is_banned : option is_banned_fn;
  q_is_banned_events : Z
}.

Record Extban := MkExtban {
  x_letter : Z;
  x_name : option cstring;
  x_options : Z;
  x_is_ok : option is_ok_fn;
  x_conv_param : option conv_fn;
  x_is_banned : option is_banned_fn;
  x_is_banned_events : Z;
  x_unloaded : bool;
  x_preregistered : bool
}.

Inductive module_flags := MODFLAG_NONE | MODFLAG_TESTING | MODFLAG_OTHER.
Inductive module_error := MODERR_NOERROR | MODERR_EXISTS | MODERR_INVALID.

Definition islower (c : Z) : bool := attr 4 c && (95 <? c mod 256).

Definition sort_character_lowercase_before_uppercase (x y : Z) : bool :=
  if islower x && isupper y then true
  else if isupper x && islower y then false
  else x <? y.

Definition is_valid_extban_name (p : cstring) : bool :=
  match p with
  | [] => false
  | _ => if (32 <? length p)%nat then false
         else forallb (fun c => islower c || isdigit c || contains c (str "_-")) p
  end.

(** Before the first entry that sorts behind it, or at the end. *)
Fixpoint extban_add_sorted (n : Extban) (l : list Extban) : list Extban :=
  match l with
  | [] => [n]
  | m :: l' => if sort_character_lowercase_before_uppercase (x_letter n) (x_letter m) then n :: l
               else m :: extban_add_sorted n l'
  end.

(** What the end of [ExtbanAdd] writes to the entry. *)
Definition fill_extban (req : ExtbanInfo) (unloaded preregistered : bool) : Extban :=
  MkExtban (q_letter req) (q_name req) (q_options req) (q_is_ok req) (q_conv_param req) (q_is_banned req)
    (q_is_banned_events req) unloaded preregistered.

(** The new list, the entry that is returned, and the module's [errorcode] where it
    is set. *)
Definition ExtbanAdd (flags : module_flags) (l : list Extban) (req : ExtbanInfo)
    : list Extban * option Extban * option module_error :=
  let fill := fill_extban req in
  let prereg := match flags with MODFLAG_NONE => true | _ => false end in
  match q_name req with
  | None => (l, None, Some MODERR_INVALID)
  | Some nm =>
      if (q_is_banned_events req =? 0) && bool_decide (is_Some (q_is_banned req)) then (l, None, Some MODERR_INVALID)
      else if negb (isalnum (q_letter req)) then (l, None, Some MODERR_INVALID)
      else if negb (is_valid_extban_name nm) then (l, None, Some MODERR_INVALID)
      else if bool_decide (q_conv_param req = None) then (l, None, Some MODERR_INVALID)
      else
        match list_find (fun e => x_letter e = q_letter req) l with
        | None =>
            let e := fill false prereg in
            (extban_add_sorted e l, Some e, Some MODERR_NOERROR)
        | Some (i, e) =>
            if x_unloaded e then
              let e := fill false (prereg || x_preregistered e) in (<[i := e]> l, Some e, Some MODERR_NOERROR)
            else match flags with
                 | MODFLAG_TESTING =>
                     if x_preregistered e
                     then let e := fill false false in (<[i := e]> l, Some e, Some MODERR_NOERROR)
                     else (l, None, Some MODERR_EXISTS)
                 | MODFLAG_NONE => (l, Some e, None)
                 | MODFLAG_OTHER => (l, None, Some MODERR_EXISTS)
                 end
        end
  end.

(** [ExtbanDel] of the entry with a letter, while rehashing or not. *)
Definition ExtbanDel (rehashing : bool) (l : list Extban) (lt : Z) : list Extban :=
  match list_find (fun e => x_letter e = lt) l with
  | None => l
  | Some (i, e) =>
      if rehashing
      then <[i := MkExtban (x_letter e) (x_name e) (x_options e) (x_is_ok e) (x_conv_param e) (x_is_banned e)
                    (x_is_banned_events e) true (x_preregistered e)]> l
      else delete i l
  end.

Definition unload_all_unused_extbans (l : list Extban) : list Extban :=
  List.filter (fun e => negb (negb (x_letter e =? 0) && x_unloaded e)) l.

(** The letters that [set_isupport_extban] writes to a buffer of 512 bytes. *)
Definition set_isupport_extban (l : list Extban) : cstring := map x_letter l.

(** ** Finding the handler *)

(** [str] of which the first [len] bytes are the name. *)
Fixpoint findmod_by_bantype_raw (l : list Extban) (s : cstring) (len : nat) : option Extban :=
  match l with
  | [] => None
  | e :: l =>
      if (len =? 1)%nat && (x_letter e =? hd 0 s) then Some e
      else if match x_name e with
              | Some nm => (length nm =? len)%nat && bool_decide (nm = take (length nm) s)
              | None => false
              end then Some e
      else findmod_by_bantype_raw l s len
  end.

(** The handler and the text behind the colon. *)
Definition findmod_by_bantype (l : list Extban) (s : cstring) : option Extban * option cstring :=
  match strchr ch_colon s with
  | None | Some (_, []) => (None, None)
  | Some (a, b) => (findmod_by_bantype_raw l (tl s) (length a - 1), Some b)
  end.

(** ** The modules *)

Definition quiet_info : ExtbanInfo :=
  MkExtbanInfo 113 (Some (str "quiet")) EXTBOPT_ACTMODIFIER (Some extban_is_ok_nuh_extban) (Some extban_conv_param_nuh_or_extban) (Some extban_quiet_is_banned) BANCHK_MSG.
Definition join_info : ExtbanInfo :=
  MkExtbanInfo 106 (Some (str "join")) EXTBOPT_ACTMODIFIER (Some extban_is_ok_nuh_extban) (Some extban_conv_param_nuh_or_extban) (Some extban_modej_is_banned) BANCHK_JOIN.
Definition nickchange_info : ExtbanInfo :=
  MkExtbanInfo 110 (Some (str "nickchange")) EXTBOPT_ACTMODIFIER (Some extban_is_ok_nuh_extban) (Some extban_conv_param_nuh_or_extban) (Some extban_nickchange_is_banned) BANCHK_NICK.
Definition partmsg_info : ExtbanInfo :=
  MkExtbanInfo 112 (Some (str "partmsg")) EXTBOPT_ACTMODIFIER (Some extban_is_ok_nuh_extban) (Some extban_conv_param_nuh_or_extban) (Some extban_partmsg_is_banned) BANCHK_LEAVE_MSG.
Definition realname_info : ExtbanInfo :=
  MkExtbanInfo 114 (Some (str "realname")) (Z.lor EXTBOPT_INVEX EXTBOPT_TKL) None (Some extban_realname_conv_param) (Some extban_realname_is_banned) (Z.lor BANCHK_ALL BANCHK_TKL).
Definition account_info : ExtbanInfo :=
  MkExtbanInfo 97 (Some (str "account")) (Z.lor EXTBOPT_INVEX EXTBOPT_TKL) None (Some extban_account_conv_param) (Some extban_account_is_banned) (Z.lor BANCHK_ALL BANCHK_TKL).
Definition certfp_info : ExtbanInfo :=
  MkExtbanInfo 83 (Some (str "certfp")) (Z.lor EXTBOPT_INVEX EXTBOPT_TKL) (Some extban_certfp_is_ok) (Some extban_certfp_conv_param) (Some extban_certfp_is_banned) (Z.lor BANCHK_ALL BANCHK_TKL).
Definition country_info : ExtbanInfo :=
  MkExtbanInfo 67 (Some (str "country")) (Z.lor EXTBOPT_INVEX EXTBOPT_TKL) (Some extban_country_is_ok) (Some extban_country_conv_param) (Some extban_country_is_banned) (Z.lor BANCHK_ALL BANCHK_TKL).
Definition asn_info : ExtbanInfo :=
  MkExtbanInfo 65 (Some (str "asn")) (Z.lor EXTBOPT_INVEX EXTBOPT_TKL) (Some extban_asn_is_ok) (Some extban_asn_conv_param) (Some extban_asn_is_banned) (Z.lor BANCHK_ALL BANCHK_TKL).
Definition operclass_info : ExtbanInfo :=
  MkExtbanInfo 79 (Some (str "operclass")) (Z.lor EXTBOPT_INVEX EXTBOPT_TKL) None (Some extban_operclass_conv_param) (Some extban_operclass_is_banned) (Z.lor BANCHK_ALL BANCHK_TKL).
Definition inchannel_info : ExtbanInfo :=
  MkExtbanInfo 99 (Some (str "channel")) (Z.lor EXTBOPT_INVEX EXTBOPT_TKL) (Some extban_inchannel_is_ok) (Some extban_inchannel_conv_param) (Some extban_inchannel_is_banned) (Z.lor BANCHK_ALL BANCHK_TKL).
Definition securitygroup_info : ExtbanInfo :=
  MkExtbanInfo 71 (Some (str "security-group")) (Z.lor EXTBOPT_INVEX EXTBOPT_TKL) (Some extban_securitygroup_is_ok) (Some extban_securitygroup_conv_param) (Some extban_securitygroup_is_banned) (Z.lor BANCHK_ALL BANCHK_TKL).
Definition msgbypass_info : ExtbanInfo :=
  MkExtbanInfo 109 (Some (str "msgbypass")) EXTBOPT_ACTMODIFIER (Some msgbypass_extban_is_ok) (Some msgbypass_extban_conv_param) None 0.
Definition flood_info : ExtbanInfo :=
  MkExtbanInfo 70 (Some (str "flood")) EXTBOPT_ACTMODIFIER (Some flood_extban_is_ok) (Some flood_extban_conv_param) None 0.
Definition link_info : ExtbanInfo :=
  MkExtbanInfo 102 (Some (str "forward")) EXTBOPT_ACTMODIFIER (Some extban_link_is_ok) (Some extban_link_conv_param) None 0.
Definition textban_info : ExtbanInfo :=
  MkExtbanInfo 84 (Some (str "text")) EXTBOPT_NOSTACKCHILD (Some extban_modeT_is_ok) (Some extban_modeT_conv_param) None 0.
Definition timedban_info : ExtbanInfo :=
  MkExtbanInfo 116 (Some (str "time")) (Z.lor EXTBOPT_ACTMODIFIER EXTBOPT_INVEX) (Some timedban_extban_is_ok) (Some timedban_extban_conv_param) (Some timedban_is_banned) BANCHK_ALL.
Definition inherit_info : ExtbanInfo :=
  MkExtbanInfo 105 (Some (str "inherit")) (Z.lor EXTBOPT_INVEX EXTBOPT_NOSTACKCHILD) (Some extban_inherit_is_ok) (Some extban_inherit_conv_param) (Some extban_inherit_is_banned) BANCHK_JOIN.

Definition shipped : list ExtbanInfo :=
  [quiet_info; join_info; nickchange_info; partmsg_info; realname_info; account_info; certfp_info; country_info; asn_info; operclass_info; inchannel_info; securitygroup_info; msgbypass_info; flood_info; textban_info; timedban_info; inherit_info; link_info].

(** The registry after every module is initialised. *)
Definition extbans : list Extban := fold_left (fun l req => (ExtbanAdd MODFLAG_TESTING l req).1.1) shipped [].

(** ** The test of one entry *)

Inductive ExtbanType := EXBTYPE_BAN | EXBTYPE_EXCEPT | EXBTYPE_INVEX | EXBTYPE_TKL.

Record BanChannel := MkBanChannel {
  h_name : cstring;
  banlist : list Ban;
  exlist : list Ban;
  invexlist : list Ban
}.

(** The fields of [BanContext] that the tests use, apart from the text [banstr]. *)
Record BanContext := MkBanContext {
  b_client : BanClient;
  b_channel : option BanChannel;
  b_ban_check_types : Z;
  b_no_extbans : bool;
  b_ban_type : ExtbanType
}.

(** What the handlers take from other parts of the server. *)
Record ban_env := MkBanEnv {
  e_UMODE_HIDE : Z;
  e_UMODE_OPER : Z;
  e_inet_pton : family -> cstring -> option (list Z);
  e_moddata_certfp : BanClient -> option cstring;              (** [moddata_client_get(client, "certfp")] *)
  e_geoip_client : BanClient -> option (cstring * Z);          (** [country_code] and [asn] *)
  e_get_operclass : BanClient -> option cstring;
  e_user_allowed_by_security_group_name : BanClient -> cstring -> bool;
  e_find_channel : cstring -> option BanChannel
}.

(** [check_channel_access]; the memberships are those of the client, a channel is
    known by its name, and no membership is on the NULL channel. *)
Definition check_access (c : BanClient) (channel : option BanChannel) (modes : cstring) : option bool :=
  if negb (BIsUser c) then Some false
  else
    u ← bc_user c;
    Some match channel with
         | Some ch => match list_find (fun mb : cstring * cstring => mb.1 = h_name ch) (bu_channel u) with
                      | Some (_, mb) => check_channel_access_string mb.2 modes
                      | None => false
                      end
         | None => false
         end.

(** [strtoul(s, NULL, 10)], saturating at the range of [unsigned long], stored in an
    [unsigned int]. *)
Definition strtoul_u32 (s : cstring) : Z :=
  let v := atoi s in
  (if v <? 0 then if v <? - (2 ^ 64 - 1) then 2 ^ 64 - 1 else 2 ^ 64 + v
   else Z.min v (2 ^ 64 - 1)) mod 2 ^ 32.

(** The memberships of the loop of [extban_inchannel_is_banned]. *)
Fixpoint inchannel_loop (p : cstring) (symbol : option Z) (l : list (cstring * cstring)) : option bool :=
  match l with
  | [] => Some false
  | (nm, modes) :: l =>
      m ← match_esc p nm;
      if m : bool then
        match symbol with
        | Some sy => if negb (inchannel_compareflags sy modes =? 0) then Some true else inchannel_loop p symbol l
        | None => Some true
        end
      else inchannel_loop p symbol l
  end.

Section env.
Context (E : ban_env).

(** The handlers that look only at the client. *)
Definition realname_banned (c : BanClient) (banstr : cstring) : option bool :=
  match_esc banstr (bc_info c).

Definition account_banned (c : BanClient) (banstr : cstring) : option bool :=
  if bool_decide (banstr = str "0") then Some (negb (BIsLoggedIn c))
  else if bool_decide (banstr = str "*") then Some (BIsLoggedIn c)
  else match bc_user c with Some u => match_simple banstr (bu_account u) | None => Some false end.

Definition certfp_banned (c : BanClient) (banstr : cstring) : option bool :=
  Some match e_moddata_certfp E c with Some fp => bool_decide (banstr = fp) | None => false end.

Definition country_banned (c : BanClient) (banstr : cstring) : option bool :=
  Some (bool_decide (banstr = match e_geoip_client E c with Some (code, _) => code | None => str "*" end)).

Definition asn_banned (c : BanClient) (banstr : cstring) : option bool :=
  Some (match e_geoip_client E c with Some (_, asn) => strtoul_u32 banstr =? asn | None => strtoul_u32 banstr =? 0 end).

Definition operclass_banned (c : BanClient) (banstr : cstring) : option bool :=
  if BIsUser c && has (bc_umodes c) (e_UMODE_OPER E)
  then match_opt banstr (e_get_operclass E c) else Some false.

Definition inchannel_banned (c : BanClient) (banstr : cstring) : option bool :=
  match bc_user c with
  | None => Some false
  | Some u =>
      if hd 0 banstr =? 35 then inchannel_loop banstr None (bu_channel u)
      else match banstr with
           | [] => None
           | sy :: p => inchannel_loop p (Some sy) (bu_channel u)
           end
  end.

Definition securitygroup_banned (c : BanClient) (banstr : cstring) : option bool :=
  Some (if hd 0 banstr =? 33 then negb (e_user_allowed_by_security_group_name E c (tl banstr))
        else e_user_allowed_by_security_group_name E c banstr).

Definition matcher (f : is_banned_fn) (c : BanClient) (banstr : cstring) : option bool :=
  match f with
  | extban_realname_is_banned => realname_banned c banstr
  | extban_account_is_banned => account_banned c banstr
  | extban_certfp_is_banned => certfp_banned c banstr
  | extban_country_is_banned => country_banned c banstr
  | extban_asn_is_banned => asn_banned c banstr
  | extban_operclass_is_banned => operclass_banned c banstr
  | extban_inchannel_is_banned => inchannel_banned c banstr
  | extban_securitygroup_is_banned => securitygroup_banned c banstr
  | _ => None
  end.

Section table.
Context (table : list Extban).

(** The handlers of bans that restrict another one; [rec] is [ban_check_mask]. *)
Definition nickchange_banned (rec : BanContext -> option cstring -> cstring -> option (bool * option cstring))
    (b : BanContext) (msg : option cstring) (banstr : cstring) : option (bool * option cstring) :=
  v ← check_access (b_client b) (b_channel b) (str "v");
  if v : bool then Some (false, msg) else rec b msg banstr.

Definition partmsg_banned (rec : BanContext -> option cstring -> cstring -> option (bool * option cstring))
    (b : BanContext) (msg : option cstring) (banstr : cstring) : option (bool * option cstring) :=
  r ← rec b msg banstr; Some (false, if fst r : bool then None else snd r).

Definition timedban_banned (rec : BanContext -> option cstring -> cstring -> option (bool * option cstring))
    (b : BanContext) (msg : option cstring) (banstr : cstring) : option (bool * option cstring) :=
  match strchr ch_colon banstr with
  | None => Some (false, msg)
  | Some (_, rest) => rec b msg rest
  end.

(** A call of a handler.  [rec] is [ban_check_mask], [inh] the body of
    [extban_inherit_is_banned]; the state is the message. *)
Definition run_handler (rec : BanContext -> option cstring -> cstring -> option (bool * option cstring))
    (inh : BanContext -> cstring -> option bool) (f : is_banned_fn) (b : BanContext) (msg : option cstring)
    (banstr : cstring) : option (bool * option cstring) :=
  match f with
  | extban_quiet_is_banned | extban_modej_is_banned => rec b msg banstr
  | extban_nickchange_is_banned => nickchange_banned rec b msg banstr
  | extban_partmsg_is_banned => partmsg_banned rec b msg banstr
  | timedban_is_banned => timedban_banned rec b msg banstr
  | extban_inherit_is_banned => r ← inh b banstr; Some (r, msg)
  | f => r ← matcher f (b_client b) banstr; Some (r, msg)
  end.

(** [_match_user_extended_server_ban] *)
Definition match_user_extended_server_ban (rec : BanContext -> option cstring -> cstring -> option (bool * option cstring))
    (inh : BanContext -> cstring -> option bool) (banstr : cstring) (c : BanClient) : option bool :=
  if negb (is_extended_server_ban banstr) then Some false
  else match findmod_by_bantype table banstr with
       | (Some x, Some next) =>
           if has (x_options x) EXTBOPT_TKL && has (x_is_banned_events x) BANCHK_TKL then
             f ← x_is_banned x;
             r ← run_handler rec inh f (MkBanContext c None BANCHK_TKL false EXBTYPE_BAN) None next;
             Some (fst r)
           else Some false
       | _ => Some false
       end.

(** [ban_check_mask].  Every round drops at least a byte of the entry. *)
Fixpoint ban_check (inh : BanContext -> cstring -> option bool) (fuel : nat) (b : BanContext) (msg : option cstring)
    (banstr : cstring) : option (bool * option cstring) :=
  match fuel with
  | O => None
  | S fuel =>
      if negb (b_no_extbans b) && is_extended_ban banstr then
        match findmod_by_bantype table banstr with
        | (Some x, Some next) =>
            if has (x_is_banned_events x) (b_ban_check_types b) then
              f ← x_is_banned x; run_handler (ban_check inh fuel) inh f b msg next
            else Some (false, msg)
        | _ => Some (false, msg)
        end
      else
        r ← match_user (e_UMODE_HIDE E) (e_inet_pton E) (match_user_extended_server_ban (ban_check inh fuel) inh)
              banstr (b_client b) MATCH_CHECK_ALL;
        Some (r, msg)
  end.

Definition ban_check_mask (inh : BanContext -> cstring -> option bool) (b : BanContext) (msg : option cstring)
    (banstr : cstring) : option (bool * option cstring) :=
  ban_check inh (S (length banstr)) b msg banstr.

(** ** The lists of a channel *)

(** The loop over a list: the first entry that matches. *)
Fixpoint scan_bans (inh : BanContext -> cstring -> option bool) (b : BanContext) (msg : option cstring) (l : list Ban)
    : option (option Ban * option cstring) :=
  match l with
  | [] => Some (None, msg)
  | ban :: l =>
      r ← ban_check_mask inh b msg (banstr ban);
      if fst r : bool then Some (Some ban, snd r) else scan_bans inh b (snd r) l
  end.

(** [is_banned_with_nick] after the nick is set: the ban and the message. *)
Definition find_ban (inh : BanContext -> cstring -> option bool) (c : BanClient) (channel : BanChannel) (type : Z)
    (msg : option cstring) : option (option Ban * option cstring) :=
  let ctx t := MkBanContext c (Some channel) type false t in
  r ← scan_bans inh (ctx EXBTYPE_BAN) msg (banlist channel);
  match r with
  | (None, msg) => Some (None, msg)
  | (Some ban, msg) =>
      e ← scan_bans inh (ctx EXBTYPE_EXCEPT) msg (exlist channel);
      Some (match fst e with Some _ => None | None => Some ban end, snd e)
  end.

Definition find_invex_with (inh : BanContext -> cstring -> option bool) (channel : BanChannel) (c : BanClient) : option bool :=
  r ← scan_bans inh (MkBanContext c (Some channel) BANCHK_JOIN false EXBTYPE_INVEX) None (invexlist channel);
  Some (bool_decide (is_Some (fst r))).

(** [extban_inherit_is_banned]: inside of it [extban_inherit_nested] is set, and a
    nested call answers 0. *)
Definition inherit_is_banned (b : BanContext) (banstr : cstring) : option bool :=
  match bc_user (b_client b), e_find_channel E banstr with
  | Some _, Some channel =>
      match b_ban_type b with
      | EXBTYPE_BAN =>
          r ← find_ban (fun _ _ => Some false) (b_client b) channel BANCHK_JOIN None;
          Some (bool_decide (is_Some (fst r)))
      | EXBTYPE_INVEX => find_invex_with (fun _ _ => Some false) channel (b_client b)
      | _ => Some false
      end
  | _, _ => Some false
  end.

(** The result also has the client as it is left: the nick is set for the time of
    the tests and put back. *)
Definition is_banned_with_nick (c : BanClient) (channel : BanChannel) (type : Z) (nick : option cstring)
    (msg : option cstring) : option (option Ban * option cstring * BanClient) :=
  let savednick := (strlcpy [] (bc_name c) (NICKLEN + 1)).1 in
  let c1 := match nick with
            | Some n => set_bc_name c (strlcpy (bc_name c) n (HOSTLEN + 1)).1
            | None => c
            end in
  r ← find_ban inherit_is_banned c1 channel type msg;
  Some (r, match nick with
           | Some _ => set_bc_name c1 (strlcpy (bc_name c1) savednick (HOSTLEN + 1)).1
           | None => c1
           end).

Definition is_banned (c : BanClient) (channel : BanChannel) (type : Z) (msg : option cstring)
    : option (option Ban * option cstring * BanClient) :=
  is_banned_with_nick c channel type None msg.

Definition find_invex (channel : BanChannel) (c : BanClient) : option bool := find_invex_with inherit_is_banned channel c.

(** *** ~msgbypass *)

Inductive bypass_type :=
| BYPASS_CHANMSG_EXTERNAL | BYPASS_CHANMSG_MODERATED | BYPASS_CHANMSG_COLOR | BYPASS_CHANMSG_CENSOR | BYPASS_CHANMSG_NOTICE.

Definition bypass_name (t : bypass_type) : cstring :=
  match t with
  | BYPASS_CHANMSG_EXTERNAL => str "external:"
  | BYPASS_CHANMSG_MODERATED => str "moderated:"
  | BYPASS_CHANMSG_COLOR => str "color:"
  | BYPASS_CHANMSG_CENSOR => str "censor:"
  | BYPASS_CHANMSG_NOTICE => str "notice:"
  end.

(** [strncmp(s, prefix, strlen(prefix)) == 0], and the text behind the prefix. *)
Definition after_prefix (prefix s : cstring) : option cstring :=
  if strncmp_eq s prefix (length prefix) then Some (drop (length prefix) s) else None.

(** The text behind the type, where the entry is for [t]. *)
Definition bypass_matcher (t : bypass_type) (banstr : cstring) : option cstring :=
  type ← (match after_prefix (str "~m:") banstr with Some r => Some r | None => after_prefix (str "~msgbypass:") banstr end);
  _ ← after_prefix (bypass_name t) type;
  '(_, rest) ← strchr ch_colon type;
  Some rest.

Fixpoint bypass_loop (b : BanContext) (msg : option cstring) (t : bypass_type) (l : list Ban) : option bool :=
  match l with
  | [] => Some false
  | ban :: l =>
      match bypass_matcher t (banstr ban) with
      | None => bypass_loop b msg t l
      | Some matchby =>
          r ← ban_check_mask inherit_is_banned b msg matchby;
          if fst r : bool then Some true else bypass_loop b (snd r) t l
      end
  end.

Definition msgbypass_can_bypass (c : BanClient) (channel : BanChannel) (t : bypass_type) : option bool :=
  bypass_loop (MkBanContext c (Some channel) BANCHK_MSG false EXBTYPE_EXCEPT) None t (exlist channel).

End table.
End env.

(** ** The registry is well formed *)

(** An entry that [ExtbanAdd] can have made. *)
Record extban_ok (e : Extban) : Prop := {
  eo_letter : isalnum (x_letter e) = true;
  eo_byte : 0 <= x_letter e < 256;
  eo_name : exists nm, x_name e = Some nm /\ is_valid_extban_name nm = true;
  eo_conv : is_Some (x_conv_param e);
  eo_events : x_is_banned_events e = 0 -> x_is_banned e = None
}.

(** The order of the registry, as a number. *)
Definition letter_key (c : Z) : Z := if isupper c then c + 256 else c.

Record registry_ok (l : list Extban) : Prop := {
  ro_entries : Forall extban_ok l;
  ro_sorted : StronglySorted (fun a b => letter_key (x_letter a) < letter_key (x_letter b)) l
}.

Lemma sort_character_key x y :
  0 <= x < 256 -> 0 <= y < 256 -> isalnum x = true -> isalnum y = true ->
  sort_character_lowercase_before_uppercase x y = (letter_key x <? letter_key y).
Proof.
  intros Hx Hy Hxa Hya.
  assert (H : forallb (fun x => forallb (fun y => negb (isalnum x && isalnum y) ||
     eqb (sort_character_lowercase_before_uppercase x y) (letter_key x <? letter_key y)) (seqZ 0 256)) (seqZ 0 256) = true)
    by (vm_compute; reflexivity).
  pose proof (byte_forall _ H x Hx) as H1. cbv beta in H1. pose proof (byte_forall _ H1 y Hy) as H2. cbv beta in H2.
  rewrite Hxa, Hya in H2. by apply eqb_prop in H2.
Qed.

Lemma letter_key_inj x y : 0 <= x < 256 -> 0 <= y < 256 -> letter_key x = letter_key y -> x = y.
Proof. unfold letter_key. intros. destruct (isupper x), (isupper y); lia. Qed.

(** Insertion at the place of a new letter. *)
Lemma add_sorted_ok n l :
  extban_ok n -> Forall (fun e => x_letter e <> x_letter n) l -> registry_ok l -> registry_ok (extban_add_sorted n l).
Proof.
  intros Hn Hnew [He Hs]. revert Hs. induction l as [|m l IH]; intros Hs; simpl.
  { split; [by constructor|repeat constructor]. }
  apply Forall_cons in Hnew as [Hm Hnew], He as [Hme He]. apply StronglySorted_inv in Hs as [Hs Hml].
  destruct (IH Hnew He Hs) as [He' Hs']. rewrite sort_character_key by (apply Hn || apply Hme).
  destruct (Z.ltb_spec (letter_key (x_letter n)) (letter_key (x_letter m))) as [Hlt|Hge].
  - split; [constructor; [done|by constructor]|]. constructor; [by constructor|]. constructor; [done|].
    eapply Forall_impl; [exact Hml|]. simpl. intros e ?. lia.
  - split; [by constructor|]. constructor; [done|]. clear -Hn Hme Hm Hge Hml.
    assert (letter_key (x_letter m) < letter_key (x_letter n)).
    { destruct (Z.eq_dec (letter_key (x_letter m)) (letter_key (x_letter n))) as [E|]; [|lia].
      apply letter_key_inj in E; [done|apply Hme|apply Hn]. }
    induction l as [|e l IH]; simpl; [by repeat constructor|]. apply Forall_cons in Hml as [? ?].
    case_match; repeat constructor; auto.
Qed.

(** Changing an entry but not its letter. *)
Lemma insert_same_letter l i e e' :
  registry_ok l -> l !! i = Some e -> extban_ok e' -> x_letter e' = x_letter e -> registry_ok (<[i := e']> l).
Proof.
  intros [He Hs] Hi He' Hlt. split; [by apply Forall_insert|]. revert i Hi. induction Hs as [|a l Hs IH Ha]; intros i Hi; [done|].
  apply Forall_cons in He as [_ He]. destruct i as [|i]; simpl in *; simplify_eq.
  - constructor; [done|]. by rewrite Hlt.
  - constructor; [by apply IH|]. apply Forall_insert; [done|]. rewrite Hlt.
    eapply Forall_lookup_1 in Ha; [|exact Hi]. done.
Qed.

Lemma ExtbanAdd_ok flags l req :
  registry_ok l -> 0 <= q_letter req < 256 -> registry_ok (ExtbanAdd flags l req).1.1.
Proof.
  intros Hl Hb. unfold ExtbanAdd. destruct (q_name req) as [nm|] eqn:En; [|done].
  destruct ((q_is_banned_events req =? 0) && _) eqn:Eev; [done|].
  destruct (isalnum (q_letter req)) eqn:Ea; [|done]. destruct (is_valid_extban_name nm) eqn:Ev; [|done].
  cbn [negb]. destruct (bool_decide (q_conv_param req = None)) eqn:Ec; [done|]. apply bool_decide_eq_false in Ec.
  assert (Hok : forall u p, extban_ok (fill_extban req u p)).
  { intros u p. split; [exact Ea|exact Hb|exists nm; done|by apply not_eq_None_Some|]. cbn. intros E0. rewrite E0 in Eev. simpl in Eev.
    apply bool_decide_eq_false in Eev. by apply eq_None_not_Some. }
  destruct (list_find _ l) as [[i e]|] eqn:Ef.
  - apply list_find_Some in Ef as (Hi & Hlt & _). destruct (x_unloaded e); [by eapply insert_same_letter|].
    destruct flags; [done| |done]. destruct (x_preregistered e); [by eapply insert_same_letter|done].
  - apply list_find_None in Ef. by apply add_sorted_ok.
Qed.

Lemma filter_sorted {A} (R : A -> A -> Prop) (p : A -> bool) l : StronglySorted R l -> StronglySorted R (List.filter p l).
Proof.
  induction 1 as [|a l Hs IH Ha]; simpl; [constructor|]. destruct (p a); [|done]. constructor; [done|].
  apply Forall_forall. intros x Hx%list_elem_of_In%filter_In. rewrite Forall_forall in Ha. apply Ha, list_elem_of_In, Hx.
Qed.

Lemma ExtbanDel_ok rehashing l lt : registry_ok l -> registry_ok (ExtbanDel rehashing l lt).
Proof.
  intros Hl. unfold ExtbanDel. destruct (list_find _ l) as [[i e]|] eqn:Ef; [|done].
  apply list_find_Some in Ef as (Hi & Hlt & _). destruct rehashing.
  - eapply insert_same_letter; [done..| |done]. destruct Hl as [He _]. eapply Forall_lookup_1 in He as []; [|done]. by split.
  - destruct Hl as [He Hs]. split; [by apply Forall_delete|]. clear -Hs. revert i.
    induction Hs as [|a l Hs IH Ha]; intros [|i]; simpl; try done; constructor; [apply IH|by apply Forall_delete].
Qed.

Lemma unload_ok l : registry_ok l -> registry_ok (unload_all_unused_extbans l).
Proof.
  intros [He Hs]. unfold unload_all_unused_extbans. split; [|by apply filter_sorted].
  apply Forall_forall. intros x [Hx _]%list_elem_of_In%filter_In. rewrite Forall_forall in He. by apply He, list_elem_of_In.
Qed.

(** ** What it takes for an entry to match *)

(** The handler of an entry and the text it is given, for the events of the check. *)
Definition handles (table : list Extban) (b : BanContext) (s : cstring) (f : is_banned_fn) (next : cstring) : Prop :=
  b_no_extbans b = false /\ is_extended_ban s = true /\
  exists x, findmod_by_bantype table s = (Some x, Some next) /\
    has (x_is_banned_events x) (b_ban_check_types b) = true /\ x_is_banned x = Some f.

Definition is_matcher (f : is_banned_fn) : bool :=
  match f with
  | extban_quiet_is_banned | extban_modej_is_banned | extban_nickchange_is_banned | extban_partmsg_is_banned
  | timedban_is_banned | extban_inherit_is_banned => false
  | _ => true
  end.

Section meaning.
Context (E : ban_env) (table : list Extban) (inhP : BanContext -> cstring -> Prop).

(** An entry matches the client of a check: as a mask, through the handler of its
    name, or through the entry that it is a restriction of. *)
Inductive entry_matches (b : BanContext) : cstring -> Prop :=
| em_mask s :
    b_no_extbans b || negb (is_extended_ban s) = true ->
    ~ (is_extended_server_ban (take 110 s) = true /\ is_Some (bc_user (b_client b))) ->
    mask_matches (e_UMODE_HIDE E) (e_inet_pton E) MATCH_CHECK_ALL (take 110 s) (b_client b) ->
    entry_matches b s
| em_matcher s f next :
    handles table b s f next -> is_matcher f = true -> matcher E f (b_client b) next = Some true -> entry_matches b s
| em_event s f next :
    handles table b s f next -> f = extban_quiet_is_banned \/ f = extban_modej_is_banned ->
    entry_matches b next -> entry_matches b s
| em_nick s next :
    handles table b s extban_nickchange_is_banned next ->
    check_access (b_client b) (b_channel b) (str "v") = Some false ->
    entry_matches b next -> entry_matches b s
| em_time s minutes rest :
    handles table b s timedban_is_banned (minutes ++ ch_colon :: rest) -> ch_colon ∉ minutes ->
    entry_matches b rest -> entry_matches b s
| em_inherit s next :
    handles table b s extban_inherit_is_banned next -> inhP b next -> entry_matches b s.

(** An entry takes the message away. *)
Inductive entry_strips (b : BanContext) : cstring -> Prop :=
| es_partmsg s next : handles table b s extban_partmsg_is_banned next -> entry_matches b next -> entry_strips b s
| es_event s f next :
    handles table b s f next ->
    f = extban_quiet_is_banned \/ f = extban_modej_is_banned \/ f = extban_partmsg_is_banned ->
    entry_strips b next -> entry_strips b s
| es_nick s next :
    handles table b s extban_nickchange_is_banned next ->
    check_access (b_client b) (b_channel b) (str "v") = Some false -> entry_strips b next -> entry_strips b s
| es_time s minutes rest :
    handles table b s timedban_is_banned (minutes ++ ch_colon :: rest) -> ch_colon ∉ minutes ->
    entry_strips b rest -> entry_strips b s.

End meaning.

(** ** The test decides it *)

Record table_ok (table : list Extban) : Prop := {
  to_registry : registry_ok table;
  to_callbacks : Forall (fun e => x_is_banned_events e <> 0 -> is_Some (x_is_banned e)) table
}.

Record env_ok (E : ban_env) : Prop := {
  en_pton : pton_ok (e_inet_pton E);
  en_operclass : forall c, opt_cstr (e_get_operclass E c);
  en_channels : forall s ch, e_find_channel E s = Some ch ->
    Forall (fun x => cstr (banstr x)) (banlist ch ++ exlist ch ++ invexlist ch)
}.

Lemma findmod_raw_some table s n x :
  findmod_by_bantype_raw table s n = Some x ->
  x ∈ table /\ (x_letter x = hd 0 s \/ exists nm, x_name x = Some nm /\ nm = take (length nm) s).
Proof.
  induction table as [|e table IH]; [done|]. cbn [findmod_by_bantype_raw].
  destruct ((n =? 1)%nat && (x_letter e =? hd 0 s)) eqn:E1.
  { intros [= <-]. apply andb_true_iff in E1 as [_ E1%Z.eqb_eq]. split; [left|by left]. }
  destruct (x_name e) as [nm|] eqn:En.
  - destruct ((length nm =? n)%nat && bool_decide (nm = take (length nm) s)) eqn:E2.
    + intros [= <-]. apply andb_true_iff in E2 as [_ E2%bool_decide_eq_true]. split; [left|right; by exists nm].
    + intros [? ?]%IH. split; [by right|done].
  - intros [? ?]%IH. split; [by right|done].
Qed.

Lemma findmod_some table s x next :
  findmod_by_bantype table s = (Some x, Some next) ->
  x ∈ table /\ next <> [] /\ (length next < length s)%nat /\ (cstr s -> cstr next) /\
  (x_letter x = hd 0 (tl s) \/ exists nm, x_name x = Some nm /\ nm = take (length nm) (tl s)).
Proof.
  unfold findmod_by_bantype. destruct (strchr ch_colon s) as [[a b]|] eqn:Es; [|done]. destruct b as [|c b]; [done|].
  intros [= Hf <-]. apply findmod_raw_some in Hf as [Hin Hx]. split; [done|]. split; [done|].
  split; [|split; [|done]].
  - apply strchr_some in Es as [-> _]. rewrite length_app. simpl. lia.
  - intros Hs. by apply strchr_cstr in Es as [_ ?].
Qed.

(** No handler is found behind the sign of a soft server ban. *)
Lemma percent_not_found table s x next :
  registry_ok table -> is_extended_ban s = false -> is_extended_server_ban s = true ->
  findmod_by_bantype table s = (Some x, Some next) -> False.
Proof.
  intros [He _] Hs1 Hs2 Hf. unfold is_extended_server_ban in Hs2. destruct (hd 0 s =? 37); [|congruence].
  destruct s as [|c [|d s]]; [done..|]. simpl in Hs2. destruct (Z.eqb_spec d 126) as [->|]; [|done].
  apply findmod_some in Hf as (Hin & _ & _ & _ & Hx). rewrite Forall_forall in He. destruct (He x Hin) as [Hl _ (nm & En & Hv) _ _].
  simpl in Hx. destruct Hx as [Hx|(nm' & En' & Hx)]; [rewrite Hx in Hl; done|].
  rewrite En in En'. injection En' as <-. destruct nm as [|y nm]; [done|]. injection Hx as -> _.
  unfold is_valid_extban_name in Hv. destruct (32 <? _)%nat; [done|]. done.
Qed.

Lemma existsb_take {A} (p : A -> bool) n l : existsb p (take n l) = true -> existsb p l = true.
Proof. rewrite !existsb_exists. intros (x & Hx & Hp). exists x. split; [|done]. rewrite <- (take_drop n l). apply in_or_app. by left. Qed.

Lemma is_extended_take n s : is_extended_ban (take n s) = true -> is_extended_ban s = true.
Proof.
  destruct n as [|n], s as [|c s]; try done. simpl. intros [-> H]%andb_true_iff. by apply existsb_take in H.
Qed.

Lemma is_extended_server_take n s : is_extended_server_ban (take n s) = true -> is_extended_server_ban s = true.
Proof.
  unfold is_extended_server_ban. destruct n as [|n], s as [|c s]; try done. simpl. destruct (c =? 37).
  - apply is_extended_take.
  - simpl. intros [-> H]%andb_true_iff. by apply existsb_take in H.
Qed.

Section decides.
Context (E : ban_env) (HE : env_ok E) (table : list Extban) (Htable : table_ok table).

Lemma check_access_total c ch modes : ban_client_ok c -> exists v, check_access c ch modes = Some v.
Proof using Type.
  intros Hc. unfold check_access. destruct (BIsUser c) eqn:Eu; simpl; [|eauto].
  apply bool_decide_eq_true in Eu. destruct (co_isuser _ Hc Eu) as [u ->]. simpl. eauto.
Qed.

Lemma inchannel_total p sy l : cstr p -> Forall (fun x => cstr x.1) l -> exists r, inchannel_loop p sy l = Some r.
Proof using Type.
  intros Hp. induction 1 as [|[nm modes] l Hn _ IH]; [by exists false|]. simpl in *.
  destruct (match_esc_total p nm Hp Hn) as [m ->]. simpl. destruct m; [|done].
  destruct sy as [sy|]; [|by exists true]. destruct (negb (inchannel_compareflags sy modes =? 0)); [by exists true|done].
Qed.

Lemma matcher_total f c s : ban_client_ok c -> cstr s -> s <> [] -> is_matcher f = true -> exists r, matcher E f c s = Some r.
Proof using HE.
  intros Hc Hs Hne Hf. destruct f; try done; unfold matcher, realname_banned, account_banned, certfp_banned, country_banned, asn_banned, operclass_banned, inchannel_banned, securitygroup_banned.
  - destruct (match_esc_total s (bc_info c) Hs (co_info _ Hc)) as [r ->]. eauto.
  - repeat case_bool_decide; eauto. destruct (bc_user c) as [u|] eqn:Eu; [|eauto].
    destruct (co_user _ Hc u Eu) as (_ & _ & _ & _ & Ha & _). destruct (match_simple_decides s (bu_account u) Hs Ha) as (b & -> & _). eauto.
  - eauto.
  - eauto.
  - eauto.
  - case_match; [|eauto]. destruct (match_opt_decides s (e_get_operclass E c) Hs (en_operclass _ HE c)) as (b & -> & _). eauto.
  - destruct (bc_user c) as [u|] eqn:Eu; [|eauto]. destruct (co_user _ Hc u Eu) as (_ & _ & _ & _ & _ & Hch).
    destruct (hd 0 s =? 35); [by apply inchannel_total|]. destruct s as [|sy p]; [done|].
    apply cstr_cons in Hs as [_ Hs]. by apply inchannel_total.
  - eauto.
Qed.

(** A plain entry. *)
Lemma plain_entry rec inh b s :
  ban_client_ok (b_client b) -> cstr s -> is_extended_ban s = false ->
  exists r, match_user (e_UMODE_HIDE E) (e_inet_pton E) (match_user_extended_server_ban E table rec inh) s (b_client b) MATCH_CHECK_ALL = Some r /\
    (r = true <-> ~ (is_extended_server_ban (take 110 s) = true /\ is_Some (bc_user (b_client b))) /\
                  mask_matches (e_UMODE_HIDE E) (e_inet_pton E) MATCH_CHECK_ALL (take 110 s) (b_client b)).
Proof using HE Htable.
  intros Hc Hs Hx. unfold match_user. rewrite strlcpy_take by (vm_compute; lia).
  change (NICKLEN + USERLEN + HOSTLEN + 8 - 1)%nat with 110%nat.
  change (has MATCH_CHECK_ALL MATCH_CHECK_EXTENDED) with true. cbn [andb].
  destruct (is_extended_server_ban (take 110 s)) eqn:Es; cbn [andb].
  - case_bool_decide as Hu.
    + exists false. split; [|split; [done|tauto]]. apply is_extended_server_take in Es.
      unfold match_user_extended_server_ban. rewrite Es. cbn [negb].
      destruct (findmod_by_bantype table s) as [[x|] [next|]] eqn:Ef; try done.
      exfalso. eapply percent_not_found; eauto. apply Htable.
    + destruct (match_mask_decides (e_UMODE_HIDE E) (e_inet_pton E) (en_pton _ HE) (b_client b) Hc (take 110 s) MATCH_CHECK_ALL)
        as (r & -> & Hr); [by apply Forall_take|]. exists r. split; [done|]. rewrite Hr. tauto.
  - destruct (match_mask_decides (e_UMODE_HIDE E) (e_inet_pton E) (en_pton _ HE) (b_client b) Hc (take 110 s) MATCH_CHECK_ALL)
      as (r & -> & Hr); [by apply Forall_take|]. exists r. split; [done|]. rewrite Hr. intuition congruence.
Qed.

Lemma handles_inj b s f next f' next' :
  handles table b s f next -> handles table b s f' next' -> f = f' /\ next = next'.
Proof using Type.
  intros (_ & _ & x & H1 & _ & H2) (_ & _ & y & H3 & _ & H4). rewrite H1 in H3. injection H3 as -> ->.
  rewrite H2 in H4. by injection H4 as ->.
Qed.

Section inherit.
Context (inh : BanContext -> cstring -> option bool) (inhP : BanContext -> cstring -> Prop).
Context (Hinh : forall b s, ban_client_ok (b_client b) -> cstr s -> exists r, inh b s = Some r /\ (r = true <-> inhP b s)).

Abbreviation matches := (entry_matches E table inhP).
Abbreviation strips := (entry_strips E table inhP).

(** What is left to show, by the handler. *)
Definition matches_via (b : BanContext) (f : is_banned_fn) (next : cstring) : Prop :=
  match f with
  | extban_quiet_is_banned | extban_modej_is_banned => matches b next
  | extban_nickchange_is_banned => check_access (b_client b) (b_channel b) (str "v") = Some false /\ matches b next
  | extban_partmsg_is_banned => False
  | timedban_is_banned => exists minutes rest, next = minutes ++ ch_colon :: rest /\ ch_colon ∉ minutes /\ matches b rest
  | extban_inherit_is_banned => inhP b next
  | f => matcher E f (b_client b) next = Some true
  end.

Definition strips_via (b : BanContext) (f : is_banned_fn) (next : cstring) : Prop :=
  match f with
  | extban_quiet_is_banned | extban_modej_is_banned => strips b next
  | extban_nickchange_is_banned => check_access (b_client b) (b_channel b) (str "v") = Some false /\ strips b next
  | extban_partmsg_is_banned => matches b next \/ strips b next
  | timedban_is_banned => exists minutes rest, next = minutes ++ ch_colon :: rest /\ ch_colon ∉ minutes /\ strips b rest
  | _ => False
  end.

Lemma matches_handled b s f next : handles table b s f next -> matches b s <-> matches_via b f next.
Proof using Type.
  intros Hh. split.
  - intros Hm. destruct Hm as [s Hx|s f' n' H1 Hf|s f' n' H1 Hf|s n' H1|s mi rest H1|s n' H1].
    { destruct Hh as (H1 & H2 & _). by rewrite H1, H2 in Hx. }
    all: destruct (handles_inj _ _ _ _ _ _ Hh H1) as [-> ->].
    + by destruct f'.
    + by destruct Hf as [-> | ->].
    + done.
    + by exists mi, rest.
    + done.
  - intros Hv. destruct f; simpl in Hv; try (by eapply em_matcher); try (by eapply em_event; eauto); try done.
    + destruct Hv. by eapply em_nick.
    + by eapply em_inherit.
    + destruct Hv as (mi & rest & -> & ? & ?). by eapply em_time.
Qed.

Lemma strips_handled b s f next : handles table b s f next -> strips b s <-> strips_via b f next.
Proof using Type.
  intros Hh. split.
  - intros Hm. destruct Hm as [s n' H1|s f' n' H1 Hf|s n' H1|s mi rest H1].
    all: destruct (handles_inj _ _ _ _ _ _ Hh H1) as [-> ->].
    + by left.
    + destruct Hf as [-> |[-> | ->]]; try done. by right.
    + done.
    + by exists mi, rest.
  - intros Hv. destruct f; simpl in Hv; try done; try (by eapply es_event; eauto).
    + destruct Hv. by eapply es_nick.
    + destruct Hv; [by eapply es_partmsg|eapply es_event; eauto].
    + destruct Hv as (mi & rest & -> & ? & ?). by eapply es_time.
Qed.

(** An extended ban without a handler for the event. *)
Lemma unhandled b s :
  b_no_extbans b = false -> is_extended_ban s = true -> (forall f next, ~ handles table b s f next) ->
  ~ matches b s /\ ~ strips b s.
Proof using Type.
  intros Hb Hx Hno. split.
  - intros Hm. destruct Hm as [s H1|s f n H1|s f n H1|s n H1|s mi rest H1|s n H1]; try (by eapply Hno).
    by rewrite Hb, Hx in H1.
  - intros Hm. destruct Hm as [s n H1|s f n H1|s n H1|s mi rest H1]; by eapply Hno.
Qed.

Lemma no_strips_mask b s : is_extended_ban s = false -> ~ strips b s.
Proof using Type.
  intros Hx Hm. destruct Hm as [s n (_ & H1 & _)|s f n (_ & H1 & _)|s n (_ & H1 & _)|s mi rest (_ & H1 & _)]; congruence.
Qed.

(** The result of a test: whether the entry matches, and the message. *)
Definition outcome (P Q : Prop) (msg : option cstring) (r : option (bool * option cstring)) : Prop :=
  exists m st : bool, r = Some (m, if st then None else msg) /\ (m = true <-> P) /\ (st = true <-> Q).

Lemma outcome_iff P Q P' Q' msg r : (P <-> P') -> (Q <-> Q') -> outcome P Q msg r -> outcome P' Q' msg r.
Proof using Type. intros HP HQ (m & st & -> & Hm & Hs). exists m, st. split; [done|]. by rewrite <- HP, <- HQ. Qed.

Lemma outcome_no P Q msg : ~ P -> ~ Q -> outcome P Q msg (Some (false, msg)).
Proof using Type. intros HP HQ. exists false, false. split; [done|]. split; split; try done; tauto. Qed.

Lemma run_handler_decides rec b f msg next :
  ban_client_ok (b_client b) -> cstr next -> next <> [] ->
  (forall msg s, cstr s -> (length s <= length next)%nat -> outcome (matches b s) (strips b s) msg (rec b msg s)) ->
  outcome (matches_via b f next) (strips_via b f next) msg (run_handler E rec inh f b msg next).
Proof using HE Hinh.
  intros Hc Hn Hne Hrec.
  assert (Hmatcher : is_matcher f = true ->
    outcome (matcher E f (b_client b) next = Some true) False msg (r ← matcher E f (b_client b) next; Some (r, msg))).
  { intros Hf. destruct (matcher_total f (b_client b) next Hc Hn Hne Hf) as [r Hr]. rewrite Hr. exists r, false.
    split; [done|]. split; [|done]. split; [by intros ->|by intros [= ->]]. }
  destruct f; simpl; try (apply Hmatcher; done); try (by apply Hrec); unfold nickchange_banned, partmsg_banned, timedban_banned.
  - destruct (check_access_total (b_client b) (b_channel b) (str "v") Hc) as [[] ->]; cbn [mbind option_bind].
    + apply outcome_no; by intros [? _].
    + eapply outcome_iff; [| |by apply Hrec]; simpl; tauto.
  - destruct (Hrec msg next Hn ltac:(lia)) as (m & st & -> & Hm & Hs). cbn [mbind option_bind fst snd].
    exists false, (m || st). split; [by destruct m, st|]. split; [done|]. rewrite orb_true_iff. tauto.
  - destruct (Hinh b next Hc Hn) as (r & -> & Hr). exists r, false. done.
  - destruct (strchr ch_colon next) as [[mi rest]|] eqn:Es.
    + pose proof Es as [Hnext Hmi]%strchr_some. destruct (strchr_cstr _ _ _ _ Es Hn) as [_ Hr].
      assert (Huniq : forall P : cstring -> Prop, P rest <->
                exists minutes rest', next = minutes ++ ch_colon :: rest' /\ ch_colon ∉ minutes /\ P rest').
      { intros P. split; [by exists mi, rest|]. intros (mi' & rest' & H1 & H2 & H3).
        assert (strchr ch_colon next = Some (mi', rest')) by by apply strchr_some. congruence. }
      eapply outcome_iff; [apply (Huniq (matches b))|apply (Huniq (strips b))|apply Hrec; [done|]].
      rewrite Hnext, length_app. simpl. lia.
    + apply strchr_none in Es. apply outcome_no; intros (mi & rest & -> & _); apply Es, elem_of_app; right; left.
Qed.

Lemma ban_check_decides fuel b msg s :
  b_no_extbans b = false -> ban_client_ok (b_client b) -> cstr s -> (length s < fuel)%nat ->
  outcome (matches b s) (strips b s) msg (ban_check E table inh fuel b msg s).
Proof using HE Htable Hinh.
  intros Hb Hc. revert msg s. induction fuel as [|fuel IH]; intros msg s Hs Hlen; [lia|]. cbn [ban_check]. rewrite Hb. cbn [negb andb].
  destruct (is_extended_ban s) eqn:Hx.
  2: { destruct (plain_entry (ban_check E table inh fuel) inh b s Hc Hs Hx) as (r & -> & Hr).
       cbn [mbind option_bind]. exists r, false. split; [done|]. split.
       - rewrite Hr. split; [intros [? ?]; apply em_mask; [by rewrite Hx, orb_true_r|done..]|].
         intros Hm. destruct Hm as [|s f n (_ & H1 & _)|s f n (_ & H1 & _)|s n (_ & H1 & _)|s mi rest (_ & H1 & _)|s n (_ & H1 & _)]; try congruence. done.
       - split; [done|]. intros Hm. by apply no_strips_mask in Hm. }
  destruct (findmod_by_bantype table s) as [[x|] [next|]] eqn:Ef.
  2-4: apply outcome_no; apply unhandled; auto; intros f n (_ & _ & x' & H1 & _); congruence.
  destruct (has (x_is_banned_events x) (b_ban_check_types b)) eqn:Eev.
  2: { apply outcome_no; apply unhandled; auto; intros f n (_ & _ & x' & H1 & H2 & _); rewrite Ef in H1; congruence. }
  apply findmod_some in Ef as H. destruct H as (Hin & Hne & Hl & Hcs & _).
  destruct (x_is_banned x) as [f|] eqn:Eb.
  - cbn [mbind option_bind]. assert (Hh : handles table b s f next) by (split; [done|]; split; [done|]; by exists x).
    eapply outcome_iff; [symmetry; by apply matches_handled|symmetry; by apply strips_handled|].
    apply run_handler_decides; auto. intros msg' s' Hs' Hl'. apply IH; [done|lia].
  - exfalso. pose proof (to_callbacks _ Htable) as Hcb. rewrite Forall_forall in Hcb. destruct (Hcb x Hin) as [f Hf]; [|congruence].
    intros H0. unfold has in Eev. rewrite H0, Z.land_0_l in Eev. done.
Qed.
End inherit.
End decides.

(** ** The meaning of the lists *)

(** The first entry of a list that a property holds of. *)
Definition first_entry (P : cstring -> Prop) (l : list Ban) (r : option Ban) : Prop :=
  match r with
  | Some ban => exists l1 l2, l = l1 ++ ban :: l2 /\ Forall (fun x => ~ P (banstr x)) l1 /\ P (banstr ban)
  | None => Forall (fun x => ~ P (banstr x)) l
  end.

Lemma forall_not_exists {A} (P : A -> Prop) l : Forall (fun x => ~ P x) l -> Exists P l -> False.
Proof. intros Hf (x & Hx & HP)%Exists_exists. rewrite Forall_forall in Hf. by apply (Hf x Hx). Qed.

Section lists.
Context (E : ban_env) (table : list Extban).

Definition ctx (c : BanClient) (ch : BanChannel) (type : Z) (t : ExtbanType) : BanContext :=
  MkBanContext c (Some ch) type false t.

(** The client is banned from the channel: an entry of +b matches and none of +e. *)
Definition channel_bans (inhP : BanContext -> cstring -> Prop) (c : BanClient) (ch : BanChannel) (type : Z) : Prop :=
  Exists (fun x => entry_matches E table inhP (ctx c ch type EXBTYPE_BAN) (banstr x)) (banlist ch) /\
  Forall (fun x => ~ entry_matches E table inhP (ctx c ch type EXBTYPE_EXCEPT) (banstr x)) (exlist ch).

Definition channel_invites (inhP : BanContext -> cstring -> Prop) (c : BanClient) (ch : BanChannel) : Prop :=
  Exists (fun x => entry_matches E table inhP (ctx c ch BANCHK_JOIN EXBTYPE_INVEX) (banstr x)) (invexlist ch).

(** An inherited entry stands for the list of the other channel, in which inherited
    entries count for nothing. *)
Definition inherits (b : BanContext) (s : cstring) : Prop :=
  is_Some (bc_user (b_client b)) /\
  exists ch, e_find_channel E s = Some ch /\
    match b_ban_type b with
    | EXBTYPE_BAN => channel_bans (fun _ _ => False) (b_client b) ch BANCHK_JOIN
    | EXBTYPE_INVEX => channel_invites (fun _ _ => False) (b_client b) ch
    | _ => False
    end.

Definition list_ok_strings (ch : BanChannel) : Prop :=
  Forall (fun x => cstr (banstr x)) (banlist ch ++ exlist ch ++ invexlist ch).

Context (HE : env_ok E) (Htable : table_ok table).

Section scan.
Context (inh : BanContext -> cstring -> option bool) (inhP : BanContext -> cstring -> Prop).
Context (Hinh : forall b s, ban_client_ok (b_client b) -> cstr s -> exists r, inh b s = Some r /\ (r = true <-> inhP b s)).

(** The message after a scan. *)
Definition message_after (b : BanContext) (msg : option cstring) (l : list Ban) (r : option Ban) (msg' : option cstring) : Prop :=
  (msg' = msg \/ msg' = None) /\
  (Forall (fun x => ~ entry_strips E table inhP b (banstr x)) l -> msg' = msg) /\
  (r = None -> Exists (fun x => entry_strips E table inhP b (banstr x)) l -> msg' = None).

Lemma scan_bans_decides b msg l :
  b_no_extbans b = false -> ban_client_ok (b_client b) -> Forall (fun x => cstr (banstr x)) l ->
  exists r msg', scan_bans E table inh b msg l = Some (r, msg') /\
    first_entry (entry_matches E table inhP b) l r /\ message_after b msg l r msg'.
Proof using HE Htable Hinh.
  intros Hb Hc Hl. revert msg. induction Hl as [|x l Hx Hl IH]; intros msg.
  { exists None, msg. split; [done|]. split; [constructor|]. split; [by left|]. split; [done|]. intros _ H. by apply Exists_nil in H. }
  cbn [scan_bans]. unfold ban_check_mask.
  destruct (ban_check_decides E HE table Htable inh inhP Hinh (S (length (banstr x))) b msg (banstr x) Hb Hc Hx ltac:(lia))
    as (m & st & -> & Hm & Hs). cbn [mbind option_bind fst snd]. destruct m.
  - exists (Some x), (if st then None else msg). split; [done|]. split; [exists [], l; split; [done|]; split; [constructor|by apply Hm]|].
    split; [destruct st; auto|]. split; [|done]. intros [H1 _]%Forall_cons. destruct st; [|done]. destruct H1. by apply Hs.
  - destruct (IH (if st then None else msg)) as (r & msg' & -> & Hr & Hmsg & Hno & Hyes). exists r, msg'. split; [done|].
    assert (Hnm : ~ entry_matches E table inhP b (banstr x)) by (by intros H%Hm).
    split; [destruct r as [ban|]; [|by constructor]; destruct Hr as (l1 & l2 & -> & H1 & H2); exists (x :: l1), l2;
      split; [done|]; split; [by constructor|done]|].
    split; [destruct st, Hmsg; subst; auto|]. split.
    + intros [H1 H2]%Forall_cons. destruct st; [destruct H1; by apply Hs|auto].
    + intros Hr0 [H1|H1]%Exists_cons; [|by apply Hyes]. apply Hs in H1. subst st. destruct Hmsg; by subst.
Qed.

Lemma first_entry_exists P l r : first_entry P l r -> is_Some r <-> Exists (fun x => P (banstr x)) l.
Proof using Type.
  destruct r as [ban|]; simpl.
  - intros (l1 & l2 & -> & _ & H). split; [intros _|by eexists]. apply Exists_app. right. by left.
  - intros H. split; [by intros [? ?]|]. intros Hx. destruct (forall_not_exists _ _ H Hx).
Qed.

Lemma first_entry_none P l : first_entry P l None -> Forall (fun x => ~ P (banstr x)) l.
Proof using Type. done. Qed.

(** The ban that is found, by +b and +e. *)
Definition ban_found (c : BanClient) (ch : BanChannel) (type : Z) (r : option Ban) : Prop :=
  match r with
  | Some ban =>
      first_entry (entry_matches E table inhP (ctx c ch type EXBTYPE_BAN)) (banlist ch) (Some ban) /\
      channel_bans inhP c ch type
  | None => ~ channel_bans inhP c ch type
  end.

Lemma find_ban_decides c ch type msg :
  ban_client_ok c -> list_ok_strings ch ->
  exists r msg', find_ban E table inh c ch type msg = Some (r, msg') /\ ban_found c ch type r /\
    (msg' = msg \/ msg' = None) /\
    (Forall (fun x => ~ entry_strips E table inhP (ctx c ch type EXBTYPE_BAN) (banstr x)) (banlist ch) ->
     Forall (fun x => ~ entry_strips E table inhP (ctx c ch type EXBTYPE_EXCEPT) (banstr x)) (exlist ch) -> msg' = msg) /\
    (Forall (fun x => ~ entry_matches E table inhP (ctx c ch type EXBTYPE_BAN) (banstr x)) (banlist ch) ->
     Exists (fun x => entry_strips E table inhP (ctx c ch type EXBTYPE_BAN) (banstr x)) (banlist ch) -> msg' = None).
Proof using HE Htable Hinh.
  intros Hc [Hl1 [Hl2 _]%Forall_app]%Forall_app. unfold find_ban. fold (ctx c ch type EXBTYPE_BAN) (ctx c ch type EXBTYPE_EXCEPT).
  destruct (scan_bans_decides (ctx c ch type EXBTYPE_BAN) msg (banlist ch) eq_refl Hc Hl1)
    as (r & msg1 & -> & Hr & Hm1 & Hno1 & Hyes1). cbn [mbind option_bind].
  pose proof (first_entry_exists _ _ _ Hr) as Hex. destruct r as [ban|].
  2: { exists None, msg1. split; [done|]. split; [intros [H _]; apply Hex in H; by destruct H|].
       split; [done|]. split; [auto|]. intros _ H. by apply Hyes1. }
  destruct (scan_bans_decides (ctx c ch type EXBTYPE_EXCEPT) msg1 (exlist ch) eq_refl Hc Hl2)
    as (e & msg2 & -> & He & Hm2 & Hno2 & Hyes2). cbn [mbind option_bind fst snd].
  pose proof (first_entry_exists _ _ _ He) as Hexe.
  exists (match e with Some _ => None | None => Some ban end), msg2. split; [done|]. split.
  - destruct e as [e|]; simpl.
    + intros [_ H]. eapply forall_not_exists; [exact H|]. apply Hexe. eauto.
    + split; [done|]. split; [apply Hex; eauto|done].
  - split; [destruct Hm1, Hm2; subst; auto|]. split; [intros H1 H2; rewrite Hno2, Hno1 by done; done|].
    intros H1 _. exfalso. destruct Hr as (l1 & l2 & Hbl & _ & Hb). rewrite Hbl in H1.
    apply Forall_app in H1 as [_ [H1 _]%Forall_cons]. done.
Qed.

Lemma find_invex_decides ch c :
  ban_client_ok c -> list_ok_strings ch ->
  exists r, find_invex_with E table inh ch c = Some r /\ (r = true <-> channel_invites inhP c ch).
Proof using HE Htable Hinh.
  intros Hc [_ [_ Hl]%Forall_app]%Forall_app. unfold find_invex_with. fold (ctx c ch BANCHK_JOIN EXBTYPE_INVEX).
  destruct (scan_bans_decides (ctx c ch BANCHK_JOIN EXBTYPE_INVEX) None (invexlist ch) eq_refl Hc Hl)
    as (r & msg1 & -> & Hr & _). cbn [mbind option_bind fst]. eexists. split; [done|].
  rewrite bool_decide_eq_true. by apply first_entry_exists.
Qed.
End scan.

(** The body of ~inherit decides [inherits]. *)
Lemma inherit_decides b s :
  ban_client_ok (b_client b) -> cstr s -> exists r, inherit_is_banned E table b s = Some r /\ (r = true <-> inherits b s).
Proof using HE Htable.
  intros Hc Hs. unfold inherit_is_banned, inherits.
  assert (Hnest : forall (b : BanContext) (s : cstring), ban_client_ok (b_client b) -> cstr s ->
    exists r, Some false = Some r /\ (r = true <-> (fun (_ : BanContext) (_ : cstring) => False) b s)).
  { intros. exists false. split; [done|]. by split. }
  destruct (bc_user (b_client b)) as [u|]; [|exists false; split; [done|]; split; [done|]; intros [[? ?] _]; done].
  destruct (e_find_channel E s) as [ch|] eqn:Ech; [|exists false; split; [done|]; split; [done|]; intros (_ & ? & ? & _); done].
  pose proof (en_channels _ HE _ _ Ech) as Hl.
  assert (Hone : forall P : BanChannel -> Prop, (is_Some (Some u) /\ exists ch', Some ch = Some ch' /\ P ch') <-> P ch).
  { intros P. split; [by intros (_ & ? & [= <-] & ?)|]. intros. split; [eauto|]. by exists ch. }
  setoid_rewrite Hone. destruct (b_ban_type b).
  - destruct (find_ban_decides _ _ Hnest (b_client b) ch BANCHK_JOIN None Hc Hl) as (r & msg & -> & Hr & _). cbn [mbind option_bind fst].
    eexists. split; [done|]. rewrite bool_decide_eq_true. destruct r as [ban|]; simpl in Hr.
    + split; [intros _; apply Hr|eauto].
    + split; [by intros [? ?]|tauto].
  - exists false. done.
  - by apply find_invex_decides.
  - exists false. done.
Qed.
End lists.

Lemma set_name_ok c n : ban_client_ok c -> cstr n -> ban_client_ok (set_bc_name c n).
Proof. intros [] Hn. split; simpl; auto. Qed.

Lemma set_name_back c n : set_bc_name (set_bc_name c n) (bc_name c) = c.
Proof. by destruct c. Qed.

Lemma strlcpy_fits dst src size : (length src < size)%nat -> (strlcpy dst src size).1 = src.
Proof.
  intros H. unfold strlcpy. rewrite (proj2 (Nat.leb_gt size 0)), (proj2 (Nat.leb_gt size _)) by lia. cbn [fst]. by apply take_ge.
Qed.

(** ** The properties *)

(** C8: a ban is the first matching entry that no exception overrides.  For any
    registered handlers, any lists of the channel and any event, [is_banned_with_nick]
    terminates without a fault and returns the first entry of +b that matches the
    client under the given nick, provided none of +e matches, and NULL otherwise;
    an entry matches as a mask or through the stack of extended bans it is made of,
    an inherited entry through the lists of the other channel, one level deep.  The
    client is left with its own nick, the message is kept or, when an entry for part
    messages matches, removed; [find_invex] answers by +I in the same way. *)
Theorem is_banned_correct (E : ban_env) (HE : env_ok E) (table : list Extban) (Htable : table_ok table)
    (c : BanClient) (Hc : ban_client_ok c) (Hname : (length (bc_name c) <= NICKLEN)%nat)
    (ch : BanChannel) (Hch : list_ok_strings ch) :
  (forall type nick msg, (forall n, nick = Some n -> cstr n /\ (length n <= HOSTLEN)%nat) ->
     let c' := match nick with Some n => set_bc_name c n | None => c end in
     let strips := entry_strips E table (inherits E table) in
     exists r msg', is_banned_with_nick E table c ch type nick msg = Some (r, msg', c) /\
       ban_found E table (inherits E table) c' ch type r /\
       (msg' = msg \/ msg' = None) /\
       (Forall (fun x => ~ strips (ctx c' ch type EXBTYPE_BAN) (banstr x)) (banlist ch) ->
        Forall (fun x => ~ strips (ctx c' ch type EXBTYPE_EXCEPT) (banstr x)) (exlist ch) -> msg' = msg) /\
       (r = None -> ~ Exists (fun x => entry_matches E table (inherits E table) (ctx c' ch type EXBTYPE_BAN) (banstr x)) (banlist ch) ->
        Exists (fun x => strips (ctx c' ch type EXBTYPE_BAN) (banstr x)) (banlist ch) -> msg' = None)) /\
  (exists r, find_invex E table ch c = Some r /\ (r = true <-> channel_invites E table (inherits E table) c ch)).
Proof.
  pose proof (inherit_decides E table HE Htable) as Hinh. split; [|by apply find_invex_decides].
  intros type nick msg Hnick. set (c' := match nick with Some n => _ | None => _ end). cbv zeta. unfold is_banned_with_nick.
  assert (Hc1 : match nick with Some n => set_bc_name c (strlcpy (bc_name c) n (HOSTLEN + 1)).1 | None => c end = c').
  { destruct nick as [n|]; [|done]. destruct (Hnick n eq_refl) as [_ Hl]. by rewrite strlcpy_fits by lia. }
  rewrite Hc1. assert (Hok : ban_client_ok c').
  { unfold c'. destruct nick as [n|]; [|done]. apply set_name_ok; [done|]. by apply Hnick. }
  destruct (find_ban_decides E table HE Htable _ _ Hinh c' ch type msg Hok Hch) as (r & msg' & -> & Hr & Hm & Hno & Hyes).
  cbn [mbind option_bind]. exists r, msg'. split; [|split; [done|]; split; [done|]; split; [done|]].
  - do 2 f_equal. destruct nick as [n|]; [|done]. unfold c'. rewrite (strlcpy_fits [] (bc_name c)) by lia.
    rewrite strlcpy_fits by (unfold NICKLEN, HOSTLEN in *; lia). apply set_name_back.
  - intros _ Hnm. apply Hyes. apply Forall_forall. intros x Hx Hx'. apply Hnm, Exists_exists. by exists x.
Qed.

(** The tests of a closed channel, for the witness and the examples. *)
Definition example_channel (b e i : list string) : BanChannel :=
  let mk := map (fun s => MkBan (str s) (str "op") 1) in MkBanChannel (str "#chan") (mk b) (mk e) (mk i).

Definition example_env : ban_env :=
  MkBanEnv 1 2 example_pton (fun _ => None) (fun _ => Some (str "NL", 64496)) (fun _ => None) (fun _ g => bool_decide (g = str "known-users"))
    (fun s => if bool_decide (s = str "#other") then Some (example_channel ["~account:0"] [] []) else None).

Lemma example_env_ok : env_ok example_env.
Proof.
  split; [apply example_pton_ok|intros c s; done|]. intros s ch. simpl. case_bool_decide; [|done]. intros [= <-].
  repeat constructor.
Qed.

(** Changes of the registry. *)
Inductive regop :=
| RAdd (flags : module_flags) (req : ExtbanInfo)
| RDel (rehashing : bool) (lt : Z)
| RUnload.

Definition regop_ok (o : regop) : Prop := match o with RAdd _ req => 0 <= q_letter req < 256 | _ => True end.

Definition regstep (l : list Extban) (o : regop) : list Extban :=
  match o with
  | RAdd flags req => (ExtbanAdd flags l req).1.1
  | RDel rehashing lt => ExtbanDel rehashing l lt
  | RUnload => unload_all_unused_extbans l
  end.

Lemma registry_run os l : registry_ok l -> Forall regop_ok os -> registry_ok (fold_left regstep os l).
Proof.
  intros Hl Hos. revert l Hl. induction Hos as [|o os Ho _ IH]; intros l Hl; [done|]. simpl. apply IH.
  destruct o; simpl in *; [by apply ExtbanAdd_ok|by apply ExtbanDel_ok|by apply unload_ok].
Qed.

Lemma extbans_table_ok : table_ok extbans.
Proof.
  split.
  - replace extbans with (fold_left regstep (RAdd MODFLAG_TESTING <$> shipped) []) by reflexivity.
    apply registry_run; [split; constructor|]. repeat (constructor; [simpl; lia|]). constructor.
  - vm_compute. repeat (constructor; [intros H; first [eexists; reflexivity|by destruct H]|]). constructor.
Qed.

Lemma is_banned_correct_witness :
  exists r msg', is_banned_with_nick example_env extbans (example_user "alice" "al" "host.example.net" "192.168.130.7" "0")
      (example_channel ["~quiet:*!*@*"; "~time:5:~join:~inherit:#other"; "~account:0"] ["~country:DE"] []) BANCHK_JOIN (Some (str "bob")) None =
    Some (r, msg', example_user "alice" "al" "host.example.net" "192.168.130.7" "0") /\
    banstr <$> r = Some (str "~time:5:~join:~inherit:#other").
Proof.
  destruct (proj1 (is_banned_correct example_env example_env_ok extbans extbans_table_ok
    (example_user "alice" "al" "host.example.net" "192.168.130.7" "0") example_user_ok ltac:(vm_compute; lia)
    (example_channel ["~quiet:*!*@*"; "~time:5:~join:~inherit:#other"; "~account:0"] ["~country:DE"] []) ltac:(repeat constructor))
    BANCHK_JOIN (Some (str "bob")) None) as (r & msg' & Hr & _).
  { intros n [= <-]. split; [repeat constructor|vm_compute; lia]. }
  exists r, msg'. split; [exact Hr|].
  assert (Hc : match is_banned_with_nick example_env extbans (example_user "alice" "al" "host.example.net" "192.168.130.7" "0")
      (example_channel ["~quiet:*!*@*"; "~time:5:~join:~inherit:#other"; "~account:0"] ["~country:DE"] []) BANCHK_JOIN (Some (str "bob")) None
      with Some (Some b, _, _) => banstr b | _ => [] end = str "~time:5:~join:~inherit:#other") by (vm_compute; reflexivity).
  rewrite Hr in Hc. destruct r as [b|]; [by rewrite <- Hc|done].
Defined.

Lemma add_sorted_elem n l : n ∈ extban_add_sorted n l.
Proof. induction l as [|m l IH]; simpl; [left|]. case_match; [left|by right]. Qed.

(** What [ExtbanAdd] returns is in the registry, under the letter of the request. *)
Lemma ExtbanAdd_returns flags l req e :
  (ExtbanAdd flags l req).1.2 = Some e -> x_letter e = q_letter req /\ e ∈ (ExtbanAdd flags l req).1.1.
Proof.
  unfold ExtbanAdd. destruct (q_name req) as [nm|]; [|done].
  destruct ((q_is_banned_events req =? 0) && _); [done|]. destruct (negb (isalnum _)); [done|].
  destruct (negb (is_valid_extban_name nm)); [done|]. destruct (bool_decide (q_conv_param req = None)); [done|].
  destruct (list_find _ l) as [[i e']|] eqn:Ef.
  - apply list_find_Some in Ef as (Hi & Hlt & _). pose proof (lookup_lt_Some _ _ _ Hi).
    assert (Hin : forall x, x ∈ <[i := x]> l) by (intros x; eapply list_elem_of_lookup_2, list_lookup_insert_eq; done).
    destruct (x_unloaded e'); [intros [= <-]; by split|]. destruct flags; [|destruct (x_preregistered e')|]; try done;
      intros [= <-]; split; try done. by eapply list_elem_of_lookup_2.
  - intros [= <-]. split; [done|]. apply add_sorted_elem.
Qed.

(** The registry of handlers stays sorted and free of duplicates.  After any
    sequence of registrations, removals and rehashes every entry has a letter or
    digit, a valid name and a conversion routine, the letters are in strictly
    ascending order (so at most 62 entries, and the text for clients fits its
    buffer of 512 bytes), and a successful registration of a letter that was not
    taken makes the letter known. *)
Theorem extban_registry (os : list regop) (Hos : Forall regop_ok os) :
  let l := fold_left regstep os [] in
  registry_ok l /\ NoDup (x_letter <$> l) /\ (length (set_isupport_extban l) <= 62)%nat /\
  (forall flags req e, 0 <= q_letter req < 256 -> (ExtbanAdd flags l req).1.2 = Some e ->
     x_letter e = q_letter req /\ e ∈ (ExtbanAdd flags l req).1.1).
Proof.
  intros l. assert (Hl : registry_ok l) by (apply registry_run; [split; constructor|done]). split; [done|].
  assert (Hnd : NoDup (x_letter <$> l)).
  { destruct Hl as [_ Hs]. clear -Hs. induction Hs as [|e l Hs IH Ha]; [constructor|]. cbn. constructor; [|done].
    intros (e' & He & Hin)%list_elem_of_fmap. rewrite Forall_forall in Ha. specialize (Ha e' Hin). simpl in Ha. rewrite He in Ha. lia. }
  split; [done|]. split.
  - change 62%nat with (length (List.filter isalnum (seqZ 0 256))).
    apply submseteq_length, NoDup_submseteq; [done|]. intros x (e & -> & He)%list_elem_of_fmap.
    destruct Hl as [Hall _]. rewrite Forall_forall in Hall. destruct (Hall e He) as [Hlt Hb _ _ _].
    apply list_elem_of_In, filter_In. split; [|done]. apply list_elem_of_In, elem_of_seqZ. lia.
  - intros flags req e Hb. apply ExtbanAdd_returns.
Qed.

Lemma extban_registry_witness :
  let l := fold_left regstep [RAdd MODFLAG_NONE account_info; RAdd MODFLAG_TESTING account_info; RAdd MODFLAG_TESTING quiet_info;
                              RDel true 97; RUnload] [] in
  registry_ok l /\ NoDup (x_letter <$> l) /\ (length (set_isupport_extban l) <= 62)%nat /\
  (forall flags req e, 0 <= q_letter req < 256 -> (ExtbanAdd flags l req).1.2 = Some e ->
     x_letter e = q_letter req /\ e ∈ (ExtbanAdd flags l req).1.1).
Proof. apply extban_registry. repeat (constructor; [simpl; lia|]). repeat (constructor; [exact I|]). constructor. Defined.
