(* ===== verification/BanMask.v ===== *)
(** * Ban masks as they are stored (src/channel.c, src/api-extban.c, modules/extbans/)

    [clean_ban_mask] turns what a user or a server sends into the text of a list
    entry: a mask is completed to nick!user@host, an extended ban goes through the
    [conv_param] callback of its module, which may convert the ban it restricts in
    turn, and is written back with the name or the letter of its type.  Servers
    clean the masks that other servers have cleaned, so a cleaned mask has to come
    out unchanged.  The file has all the [conv_param] and [is_ok] callbacks, the
    cleaning, and the handler of +b, +e and +I that stores the result. *)
From S2P Require Import Prelude Chars Strings Utf8 Client Hash ChanMode Bans Crule CruleFuncs CruleSpec Badwords User MatchUser Extban.

(** ** Regular masks *)

(** [strrchr(s, c)]: before the last [c] and behind it. *)
Fixpoint strrchr (c : Z) (s : cstring) : option (cstring * cstring) :=
  match s with
  | [] => None
  | d :: s => match strrchr c s with
              | Some (a, b) => Some (d :: a, b)
              | None => if d =? c then Some ([], s) else None
              end
  end.

(** The last [len] bytes, the first of them overwritten. *)
Definition trim_str (s : cstring) (len : nat) : cstring :=
  if (len <? length s)%nat then ch_star :: drop (S (length s - len)) s else s.

Definition NUH_BUFLEN : nat := NICKLEN + USERLEN + HOSTLEN + 3.

Definition convert_regular_ban (mask : cstring) (buflen : nat) : option cstring :=
  match mask with
  | [] => None
  | c :: _ =>
      if (c =? 126) && negb (contains ch_at mask) then None
      else
        let '(mask, user) := match strchr 33 mask with Some (m, u) => (m, Some u) | None => (mask, None) end in
        match user, strrchr ch_at (default mask user) with
        | None, Some (m, host) =>
            Some (make_nick_user_host_r buflen None (Some (trim_str m USERLEN)) (Some (trim_str host HOSTLEN)))
        | None, None =>
            if contains 46 mask || contains ch_colon mask
            then Some (make_nick_user_host_r buflen None None (Some (trim_str mask HOSTLEN)))
            else Some (make_nick_user_host_r buflen (Some (trim_str mask NICKLEN)) None None)
        | Some _, Some (u, host) =>
            Some (make_nick_user_host_r buflen (Some (trim_str mask NICKLEN)) (Some (trim_str u USERLEN)) (Some (trim_str host HOSTLEN)))
        | Some u, None =>
            Some (make_nick_user_host_r buflen (Some (trim_str mask NICKLEN)) (Some (trim_str u USERLEN)) None)
        end
  end.

Definition extban_conv_param_nuh (banstr : cstring) : option cstring :=
  convert_regular_ban (strlcpy [] banstr NUH_BUFLEN).1 NUH_BUFLEN.

(** ** Channel names *)

Inductive allowed_channelchars := ALLOWED_CHANNELCHARS_ANY | ALLOWED_CHANNELCHARS_ASCII | ALLOWED_CHANNELCHARS_UTF8.

Definition valid_channelname (a : allowed_channelchars) (cname : cstring) : bool :=
  let plain c := negb ((c <? 33) || (c =? 44) || (c =? ch_colon)) in
  (hd 0 cname =? 35) && negb (CHANNELLEN <? length cname)%nat &&
  match a with
  | ALLOWED_CHANNELCHARS_ANY => forallb plain cname
  | ALLOWED_CHANNELCHARS_ASCII => forallb (fun c => plain c && negb (127 <? c)) cname
  | ALLOWED_CHANNELCHARS_UTF8 => forallb plain cname && (unrl_utf8_validate cname).1
  end.

(** ** The context of a conversion *)

Record conv_env := MkConvEnv {
  k_table : list Extban;
  k_named : bool;                            (** [iConf.named_extended_bans] *)
  k_channelchars : allowed_channelchars;
  k_inherit_ban : Z;                         (** [maximum_inherit_ban_count] *)
  k_inherit_exempt : Z;
  k_inherit_invex : Z
}.

Record conv_ctx := MkConvCtx {
  v_my_user : bool;                          (** [MyUser(client)] *)
  v_channel : option BanChannel;
  v_what : mode_what;
  v_ban_type : ExtbanType;
  v_letters : bool                           (** [BCTX_CONV_OPTION_WRITE_LETTER_BANS] *)
}.

Section conv.
Context (K : conv_env).

(** [snprintf(buf, size, ...)] of the text [s] *)
Definition cut (size : nat) (s : cstring) : cstring := take (size - 1) s.

Definition extban_prefix (v : conv_ctx) (x : Extban) : cstring :=
  [126] ++ (if k_named K && negb (v_letters v) then default [] (x_name x) else [x_letter x]) ++ [ch_colon].

Definition prefix_with_extban (remainder : option cstring) (v : conv_ctx) (x : Extban) (buflen : nat) : option cstring :=
  r ← remainder; Some (cut buflen (extban_prefix v x ++ r)).

(** *** ~inherit *)

Definition maximum_ban_inherit_limit (t : ExtbanType) : Z :=
  match t with
  | EXBTYPE_BAN => k_inherit_ban K
  | EXBTYPE_EXCEPT => k_inherit_exempt K
  | EXBTYPE_INVEX => k_inherit_invex K
  | EXBTYPE_TKL => 0
  end.

(** "Pretend time does not exist": the text behind "~t:" or "~time:" and a duration. *)
Definition skip_time (s : cstring) : option cstring :=
  match after_prefix (str "~t:") s with
  | Some r => snd <$> strchr ch_colon r
  | None => match after_prefix (str "~time:") s with
            | Some r => snd <$> strchr ch_colon r
            | None => Some s
            end
  end.

Definition is_inherit_entry (s : cstring) : bool :=
  strncasecmp_eq s (str "~inherit:") 9 || strncmp_eq s (str "~i:") 3.

Fixpoint inherit_count_loop (limit cnt : Z) (l : list Ban) : bool :=
  match l with
  | [] => false
  | ban :: l =>
      match skip_time (banstr ban) with
      | None => inherit_count_loop limit cnt l
      | Some s =>
          if is_inherit_entry s
          then if limit <=? cnt + 1 then true else inherit_count_loop limit (cnt + 1) l
          else inherit_count_loop limit cnt l
      end
  end.

Definition list_of (t : ExtbanType) (ch : BanChannel) : option (list Ban) :=
  match t with
  | EXBTYPE_BAN => Some (banlist ch)
  | EXBTYPE_EXCEPT => Some (exlist ch)
  | EXBTYPE_INVEX => Some (invexlist ch)
  | EXBTYPE_TKL => None
  end.

Definition exceeds_inherit_ban_count (v : conv_ctx) : bool :=
  match v_channel v with
  | None => false
  | Some ch => match list_of (v_ban_type v) ch with
               | None => true
               | Some l => inherit_count_loop (maximum_ban_inherit_limit (v_ban_type v)) 0 l
               end
  end.

(** *** ~text *)

Definition conv_pattern_asterisks (pattern : cstring) : cstring :=
  cut 512 ((if hd 0 pattern =? ch_star then [] else [ch_star]) ++ pattern ++
           match pattern with [] => [] | _ => if default 0 (last pattern) =? ch_star then [] else [ch_star] end).

(** No asterisk but as the first or the last byte. *)
Definition censor_text_ok (text : cstring) : bool :=
  negb (existsb (fun i => (nth i text 0 =? ch_star) && negb (i =? 0)%nat && negb (S i =? length text)%nat) (seq 0 (length text))).

Definition text_code (c : Z) : bool := existsb (Z.eqb c) [3; 2; 31; 22; 32].

(** *** The callbacks that look only at their text *)

Definition skip_symbol (s : cstring) : cstring := if contains (hd 0 s) (str "+%@&~") then tl s else s.

Definition extban_securitygroup_generic (exists_ : option (cstring -> bool)) (mask : cstring) : bool :=
  let mask := if hd 0 mask =? 33 then tl mask else mask in
  match exists_ with
  | Some f => f mask
  | None => negb (48 <? length mask)%nat && forallb (fun c => isalnum c || contains c (str "_-")) mask
  end && negb (bool_decide (mask = [])).

Definition valid_operclass_character (c : Z) : bool :=
  contains c (str "abcdefghijklmnopqrstuvwxyzABCDEFGHIJKLMNOPQRSTUVWXYZ1234567890-_").

Definition decimal_digit (c : Z) : bool := (48 <=? c) && (c <=? 57).

Definition realname_conv (banstr : cstring) : option cstring :=
  match (strlcpy [] banstr (50 + 8)).1 with
  | [] => None
  | mask => match take 50 mask with
            | c :: m => Some ((if c =? 126 then ch_qmark else c) :: m)
            | [] => None
            end
  end.

Definition account_conv (banstr : cstring) : option cstring :=
  match (strlcpy [] banstr (NICKLEN + 4)).1 with [] => None | acc => Some acc end.

Definition certfp_conv (banstr : cstring) : option cstring :=
  Some (map tolower (strlcpy [] banstr (64 * 2 + 1)).1).

Definition country_conv (banstr : cstring) : option cstring :=
  Some (map toupper (strlcpy [] banstr 64).1).

Definition asn_conv (banstr : cstring) : option cstring :=
  if negb (isdigit (hd 0 banstr)) then None
  else if forallb decimal_digit banstr then Some (cut 32 (print_int (strtoul_u32 banstr))) else None.

Definition operclass_conv (banstr : cstring) : option cstring :=
  Some (span (fun c => valid_operclass_character c || contains c (str "*?")) (strlcpy [] banstr (64 + 4)).1).1.

Definition inchannel_conv (banstr : cstring) : option cstring :=
  let retbuf := (strlcpy [] banstr (CHANNELLEN + 6)).1 in
  let chan := skip_symbol retbuf in
  if negb ((hd 0 chan =? 35) || (hd 0 chan =? ch_star) || (hd 0 chan =? ch_qmark)) then None
  else if negb (valid_channelname (k_channelchars K) chan) then None
  else Some match strchr ch_colon chan with
            | Some (a, _) => take (length retbuf - length chan) retbuf ++ a
            | None => retbuf
            end.

Definition securitygroup_conv (banstr : cstring) : option cstring :=
  let retbuf := (strlcpy [] banstr (48 + 8)).1 in
  if extban_securitygroup_generic None retbuf then Some retbuf else None.

Definition modeT_conv (banstr : cstring) : option cstring :=
  let para := (strlcpy [] banstr (150 + 1)).1 in
  match strchr ch_colon para with
  | None | Some (_, []) => None
  | Some (action, text) =>
      let r := if strcasecmp action (str "block") =? 0 then Some (str "block", conv_pattern_asterisks text)
               else if strcasecmp action (str "censor") =? 0
               then if censor_text_ok text then Some (str "censor", text) else None
               else None in
      '(action, text) ← r;
      if existsb text_code text then None else Some (cut (150 + 1) (action ++ [ch_colon] ++ text))
  end.

Definition inherit_conv (v : conv_ctx) (banstr : cstring) : option cstring :=
  let retbuf := (strlcpy [] banstr (CHANNELLEN + 1)).1 in
  if bool_decide (v_what v = MODE_DEL) then Some retbuf
  else if negb (valid_channelname (k_channelchars K) retbuf) then None
  else if bool_decide (is_Some (v_channel v)) && exceeds_inherit_ban_count v then None
  else Some retbuf.

Definition conv_leaf (v : conv_ctx) (f : conv_fn) (banstr : cstring) : option cstring :=
  match f with
  | extban_realname_conv_param => realname_conv banstr
  | extban_account_conv_param => account_conv banstr
  | extban_certfp_conv_param => certfp_conv banstr
  | extban_country_conv_param => country_conv banstr
  | extban_asn_conv_param => asn_conv banstr
  | extban_operclass_conv_param => operclass_conv banstr
  | extban_inchannel_conv_param => inchannel_conv banstr
  | extban_securitygroup_conv_param => securitygroup_conv banstr
  | extban_modeT_conv_param => modeT_conv banstr
  | extban_inherit_conv_param => inherit_conv v banstr
  | _ => None
  end.

(** *** The callbacks that convert the rest of a stacked ban *)

Definition MAX_LENGTH : nat := 128.
Definition TIMEDBAN_MAX_TIME : Z := 9999.

(** [extban_conv_param_nuh_or_extban]; [nested] is [extban_recursion], [inner] the
    call of the inner callback with the counter raised. *)
Definition conv_nuh_or_extban (nested : bool) (inner : conv_fn -> cstring -> option cstring) (v : conv_ctx) (banstr : cstring)
    : option cstring :=
  if negb (is_extended_ban banstr) then extban_conv_param_nuh banstr
  else if nested then None
  else
    match findmod_by_bantype (k_table K) (strlcpy [] banstr (MAXBANLEN + 1)).1 with
    | (Some x, Some next) =>
        if has (x_options x) EXTBOPT_ACTMODIFIER || has (x_options x) EXTBOPT_NOSTACKCHILD then None
        else f ← x_conv_param x; prefix_with_extban (inner f next) v x (MAXBANLEN + 1)
    | _ => Some banstr
    end.

(** A type and the ban behind it. *)
Definition split_para (size : nat) (banstr : cstring) : option (cstring * cstring) :=
  match strchr ch_colon (strlcpy [] banstr size).1 with
  | None | Some (_, []) => None
  | Some (type, matchby) => Some (type, matchby)
  end.

Definition msgbypass_extban_type_ok (type : cstring) : bool :=
  bool_decide (type ∈ [str "external"; str "moderated"; str "censor"; str "color"; str "notice"]).

(** [newmask], unless it is NULL or empty, behind the type. *)
Definition with_type (type : cstring) (newmask : option cstring) : option cstring :=
  match newmask with
  | None | Some [] => None
  | Some m => Some (cut (MAX_LENGTH + 1) (type ++ [ch_colon] ++ m))
  end.

(** [generic_clean_ban_mask]: the context of the inner call is a new one, in which
    [what] is not set. *)
Definition generic_clean_ban_mask (inner : conv_ctx -> conv_fn -> cstring -> option cstring) (v : conv_ctx) (banstr : cstring)
    : option cstring :=
  let mask := (strlcpy [] banstr 512).1 in
  let mask := match strchr ch_space mask with Some (m, _) => m | None => mask end in
  let mask := skip_while (Z.eqb ch_colon) mask in
  if bool_decide (mask = []) then None
  else if existsb (fun c => c <=? ch_space) mask then None
  else if is_extended_ban mask then
    match findmod_by_bantype (k_table K) mask with
    | (Some x, Some next) =>
        match x_conv_param x with
        | Some f =>
            let v' := MkConvCtx (v_my_user v) (v_channel v) MODE_NULL (v_ban_type v) (v_letters v) in
            prefix_with_extban (inner v' f next) v' x 512
        | None => if negb (nth 1 mask 0 =? ch_colon) || (length mask =? 2)%nat then None else Some (take 80 mask)
        end
    | _ => None
    end
  else convert_regular_ban mask NUH_BUFLEN.

(** The four callbacks that do so behind a text of their own. *)
Definition msgbypass_conv (nuh_or_extban : cstring -> option cstring) (banstr : cstring) : option cstring :=
  '(type, matchby) ← split_para (MAX_LENGTH + 1) banstr;
  if negb (msgbypass_extban_type_ok type) then None else with_type type (nuh_or_extban matchby).

Definition flood_conv (nuh_or_extban : cstring -> option cstring) (banstr : cstring) : option cstring :=
  '(type, matchby) ← split_para (MAX_LENGTH + 1) banstr;
  if (16 <? length type)%nat then None else with_type type (nuh_or_extban matchby).

Definition link_conv (nuh_or_extban : cstring -> option cstring) (banstr : cstring) : option cstring :=
  '(chan, matchby) ← split_para (MAX_LENGTH + 1) banstr;
  if negb (valid_channelname (k_channelchars K) chan) then None else with_type chan (nuh_or_extban matchby).

Definition timedban_conv (timed : bool) (clean : cstring -> option cstring) (banstr : cstring) : option cstring :=
  if timed then None
  else
    '(durationstr, matchby) ← split_para (MAX_LENGTH + 1) banstr;
    let duration := c_atoi durationstr in
    if (duration <=? 0) || (TIMEDBAN_MAX_TIME <? duration) then None
    else
      newmask ← clean matchby;
      if (length newmask <=? 1)%nat then None
      else Some (cut (MAX_LENGTH + 1) (print_int duration ++ [ch_colon] ++ newmask)).

(** The call of a [conv_param] callback.  [nested] and [timed] are the recursion
    counters of the code; a call that goes deeper raises one of them, so three
    levels are all there is. *)
Fixpoint conv_param (fuel : nat) (nested timed : bool) (v : conv_ctx) (f : conv_fn) (banstr : cstring) : option cstring :=
  match fuel with
  | O => None
  | S fuel =>
      let nuh_or_extban := conv_nuh_or_extban nested (conv_param fuel true timed v) v in
      match f with
      | extban_conv_param_nuh_or_extban => nuh_or_extban banstr
      | msgbypass_extban_conv_param => msgbypass_conv nuh_or_extban banstr
      | flood_extban_conv_param => flood_conv nuh_or_extban banstr
      | extban_link_conv_param => link_conv nuh_or_extban banstr
      | timedban_extban_conv_param => timedban_conv timed (generic_clean_ban_mask (conv_param fuel nested true) v) banstr
      | f => conv_leaf v f banstr
      end
  end.

(** ** [clean_ban_mask] *)

Definition clean_ban_mask (v : conv_ctx) (mask_in : cstring) : option cstring :=
  match skip_while (Z.eqb ch_colon) mask_in with
  | [] => None
  | mask_in =>
      let mask := (strlcpy [] mask_in 512).1 in
      let mask := match strchr ch_space mask with Some (m, _) => m | None => mask end in
      if existsb (fun c => c <=? ch_space) mask then None
      else if is_extended_ban mask then
        match findmod_by_bantype (k_table K) mask with
        | (Some x, Some next) =>
            match x_conv_param x with
            | Some f => ret ← prefix_with_extban (conv_param 3 false false v f next) v x 512; Some (take MAXBANLEN ret)
            | None => if negb (nth 1 mask 0 =? ch_colon) || (length mask =? 2)%nat then None else Some (take 80 mask)
            end
        | _ =>
            if bool_decide (v_what v = MODE_ADD) && match strchr ch_colon mask with Some (_, []) => true | _ => false end then None
            else if negb (v_my_user v) || bool_decide (v_what v = MODE_DEL)
            then Some (if bool_decide (v_what v = MODE_ADD) then take MAXBANLEN mask else mask)
            else None
        end
      else convert_regular_ban mask NUH_BUFLEN
  end.
End conv.

Ltac unfold_leaf := unfold conv_leaf, realname_conv, account_conv, certfp_conv, country_conv, asn_conv, operclass_conv, inchannel_conv, securitygroup_conv, modeT_conv, inherit_conv.
Ltac unfold_stacked := unfold msgbypass_conv, flood_conv, link_conv, timedban_conv.

Definition example_conv_env : conv_env := MkConvEnv extbans true ALLOWED_CHANNELCHARS_UTF8 1 0 1.
Definition example_conv_ctx : conv_ctx := MkConvCtx true None MODE_ADD EXBTYPE_BAN false.

Example clean_ban_mask_examples :
  let run s := clean_ban_mask example_conv_env example_conv_ctx (str s) in
  run "nick" = Some (str "nick!*@*") /\ run "a@b" = Some (str "*!a@b") /\ run "::1.2.3.4" = Some (str "*!*@1.2.3.4") /\
  run "~q:~a:foo" = Some (str "~quiet:~account:foo") /\ run "~t:05:~T:BLOCK:x" = Some (str "~time:5:~text:block:*x*") /\
  run "~q:~q:foo" = None /\ run "~t:5:~t:5:foo" = None /\ run "~m:color:x.y" = Some (str "~msgbypass:color:*!*@x.y") /\
  run "~asn:4294967297" = Some (str "~asn:1") /\ run "~operclass:!x" = Some (str "~operclass:").
Proof. vm_compute. done. Qed.

(** ** Regular masks in their final form *)

Definition printable (c : Z) : Prop := 32 < c < 256.
Abbreviation printables := (Forall printable).

Lemma printables_cstr s : printables s -> cstr s.
Proof. intros H. eapply Forall_impl; [exact H|]. unfold printable, byte_ok. lia. Qed.

Lemma printable_not_space c : printable c -> isspace c = false.
Proof.
  intros Hc. assert (H : forallb (fun c => negb ((32 <? c) && isspace c)) (seqZ 0 256) = true) by (vm_compute; reflexivity).
  pose proof (byte_forall _ H c ltac:(unfold printable in Hc; lia)) as H1. cbv beta in H1.
  rewrite (proj2 (Z.ltb_lt 32 c)) in H1 by (unfold printable in Hc; lia). by destruct (isspace c).
Qed.

Lemma printables_word n s : printables s -> s <> [] -> (length s <= n)%nat -> word_ok n s.
Proof. intros H Hne Hl. split; [done|]. split; [|done]. eapply Forall_impl; [exact H|apply printable_not_space]. Qed.

Lemma strrchr_some c s a b : strrchr c s = Some (a, b) <-> s = a ++ c :: b /\ c ∉ b.
Proof.
  revert a b. induction s as [|d s IH]; intros a b; simpl.
  { split; [done|]. intros [H _]. by destruct a. }
  destruct (strrchr c s) as [[a' b']|] eqn:E.
  - destruct (proj1 (IH a' b') eq_refl) as [-> Hn]. split.
    + by intros [= <- <-].
    + intros [H Hb]. destruct a as [|x a]; simpl in H.
      * injection H as _ H. destruct Hb. rewrite <- H. apply elem_of_app. right. left.
      * injection H as -> H. pose proof (proj2 (IH a b) (conj H Hb)) as [= -> ->]. done.
  - assert (Hno : c ∉ s).
    { intros H. apply list_elem_of_split in H as (a' & b' & ->). clear IH. revert E. induction a' as [|x a' IH]; simpl.
      - destruct (strrchr c b') as [[]|]; [done|]. by rewrite Z.eqb_refl.
      - destruct (strrchr c (a' ++ c :: b')) as [[]|]; [done|]. intros _. by apply IH. }
    destruct (Z.eqb_spec d c) as [->|Hne].
    + split; [by intros [= <- <-]|]. intros [H Hb]. destruct a as [|x a]; simplify_eq/=; [done|].
      destruct Hno. apply elem_of_app. right. left.
    + split; [done|]. intros [H Hb]. destruct a as [|x a]; simplify_eq/=. destruct Hno. apply elem_of_app. right. left.
Qed.

Lemma strrchr_none c s : strrchr c s = None <-> c ∉ s.
Proof.
  split.
  - intros E H. apply list_elem_of_split_r in H as (a & b & -> & Hb).
    by rewrite (proj2 (strrchr_some c _ a b)) in E.
  - intros H. destruct (strrchr c s) as [[a b]|] eqn:E; [|done]. apply strrchr_some in E as [-> _].
    destruct H. apply elem_of_app. right. left.
Qed.

(** What a part of a mask becomes: an asterisk when it is missing or empty. *)
Definition part (o : option cstring) : cstring := match o with None | Some [] => str "*" | Some s => s end.

Lemma trim_length s n : (0 < n)%nat -> (length (trim_str s n) <= n)%nat.
Proof. intros Hn. unfold trim_str. destruct (Nat.ltb_spec n (length s)); [|done]. simpl. rewrite length_drop. lia. Qed.

Lemma trim_shorter s n : (0 < n)%nat -> (length (trim_str s n) <= length s)%nat.
Proof. intros Hn. unfold trim_str. destruct (Nat.ltb_spec n (length s)); [|done]. simpl. rewrite length_drop. lia. Qed.

Lemma trim_id s n : (length s <= n)%nat -> trim_str s n = s.
Proof. intros H. unfold trim_str. by rewrite (proj2 (Nat.ltb_ge _ _)). Qed.

Lemma trim_elem c s n : c ∈ trim_str s n -> c = ch_star \/ c ∈ s.
Proof.
  unfold trim_str. destruct (n <? length s)%nat; [|by right]. intros [->|H]%elem_of_cons; [by left|right].
  rewrite <- (take_drop (S (length s - n)) s). apply elem_of_app. by right.
Qed.

Lemma trim_hd s n c : hd 0 (trim_str s n) = c -> c <> ch_star -> hd 0 s = c.
Proof. unfold trim_str. destruct (n <? length s)%nat; [|done]. simpl. intros <-. done. Qed.

(** A mask in its final form. *)
Definition nuh (n u h : cstring) : cstring := n ++ str "!" ++ u ++ str "@" ++ h.

Record nuh_ok (n u h : cstring) : Prop := {
  no_nick : word_ok NICKLEN n; no_user : word_ok USERLEN u; no_host : word_ok HOSTLEN h;
  no_bang : 33 ∉ n; no_at : ch_at ∉ h
}.

Lemma nuh_length n u h : nuh_ok n u h -> (length (nuh n u h) <= 105)%nat.
Proof.
  intros [(_ & _ & Hn) (_ & _ & Hu) (_ & _ & Hh) _ _]. unfold nuh, NICKLEN, USERLEN, HOSTLEN in *.
  rewrite !length_app. simpl. lia.
Qed.

Lemma check_string_part o : (forall s, o = Some s -> printables s) -> check_string o = part o.
Proof.
  intros H. destruct o as [s|]; [|done]. destruct s as [|c s]; [done|].
  apply (check_string_word (length (c :: s))), printables_word; [by apply H|done|done].
Qed.

(** The parts, put together. *)
Lemma make_nuh n u h :
  (forall s, n = Some s -> printables s) -> (forall s, u = Some s -> printables s) -> (forall s, h = Some s -> printables s) ->
  (length (part n) <= NICKLEN)%nat -> (length (part u) <= USERLEN)%nat -> (length (part h) <= HOSTLEN)%nat ->
  make_nick_user_host_r NUH_BUFLEN n u h = nuh (part n) (part u) (part h).
Proof.
  intros Hn Hu Hh Ln Lu Lh.
  assert (Hp : forall o, (forall s, o = Some s -> printables s) -> printables (part o) /\ part o <> []).
  { intros [[|c s]|] H; simpl; (split; [|done]); try (by apply H); repeat constructor. }
  destruct (Hp n Hn) as [? ?], (Hp u Hu) as [? ?], (Hp h Hh) as [? ?].
  unfold nuh. rewrite <- (nuh_exact NUH_BUFLEN (part n) (part u) (part h)) by (try apply printables_word; auto; vm_compute; lia).
  unfold make_nick_user_host_r. rewrite !check_string_part by (auto; intros ? [= <-]; auto).
  assert (Hpp : forall o, part (Some (part o)) = part o) by (by intros [[|]|]).
  by rewrite !Hpp.
Qed.

(** The three parts that a mask is read as, before they are completed. *)
Definition raw_parts (mask : cstring) : option cstring * option cstring * option cstring :=
  match strchr 33 mask with
  | Some (m, u) => match strrchr ch_at u with
                   | Some (u, h) => (Some m, Some u, Some h)
                   | None => (Some m, Some u, None)
                   end
  | None => match strrchr ch_at mask with
            | Some (u, h) => (None, Some u, Some h)
            | None => if contains 46 mask || contains ch_colon mask then (None, None, Some mask) else (Some mask, None, None)
            end
  end.

Definition trimmed (n : nat) (o : option cstring) : cstring := part ((fun s => trim_str s n) <$> o).

Lemma raw_parts_elem mask n u h c :
  raw_parts mask = (n, u, h) ->
  (forall s, n = Some s -> c ∈ s -> c ∈ mask) /\ (forall s, u = Some s -> c ∈ s -> c ∈ mask) /\
  (forall s, h = Some s -> c ∈ s -> c ∈ mask).
Proof.
  unfold raw_parts. destruct (strchr 33 mask) as [[m u']|] eqn:E1.
  - apply strchr_some in E1 as [-> _]. destruct (strrchr ch_at u') as [[u'' h']|] eqn:E2.
    + apply strrchr_some in E2 as [-> _]. intros [= <- <- <-]. split_and!; intros s [= <-] Hin;
        rewrite !elem_of_app, !elem_of_cons, !elem_of_app, !elem_of_cons; tauto.
    + intros [= <- <- <-]. split_and!; intros s [= <-] Hin; rewrite !elem_of_app, !elem_of_cons; tauto.
  - destruct (strrchr ch_at mask) as [[u' h']|] eqn:E2.
    + apply strrchr_some in E2 as [-> _]. intros [= <- <- <-]. split_and!; intros s [= <-] Hin; rewrite !elem_of_app, !elem_of_cons; tauto.
    + case_match; intros [= <- <- <-]; split_and!; intros s [= <-]; tauto.
Qed.

Lemma raw_parts_length mask n u h :
  mask <> [] -> raw_parts mask = (n, u, h) ->
  (length (part n) + length (part u) + length (part h) + 2 <= length mask + 4)%nat.
Proof.
  intros Hne. assert (Hp : forall s, (length (part (Some s)) <= length s + 1)%nat) by (intros [|]; simpl; lia).
  assert (H0 : length (part None) = 1%nat) by done.
  unfold raw_parts. destruct (strchr 33 mask) as [[m u']|] eqn:E1.
  - apply strchr_some in E1 as [-> _]. pose proof (Hp m). destruct (strrchr ch_at u') as [[u'' h']|] eqn:E2.
    + apply strrchr_some in E2 as [-> _]. intros [= <- <- <-]. pose proof (Hp u''). pose proof (Hp h').
      rewrite length_app. cbn [length]. rewrite length_app. cbn [length]. lia.
    + intros [= <- <- <-]. pose proof (Hp u'). rewrite length_app, H0. cbn [length]. lia.
  - destruct (strrchr ch_at mask) as [[u' h']|] eqn:E2.
    + apply strrchr_some in E2 as [-> _]. intros [= <- <- <-]. pose proof (Hp u'). pose proof (Hp h').
      rewrite length_app, H0. cbn [length]. lia.
    + intros Hr. assert (length (part (Some mask)) = length mask) as Hm by (by destruct mask).
      revert Hr. case_match; intros [= <- <- <-]; rewrite Hm, H0; lia.
Qed.

Section trimmed.
Context (k : nat) (Hk : (0 < k)%nat).

Lemma trimmed_length o : (length (trimmed k o) <= k)%nat.
Proof using Hk.
  unfold trimmed. destruct o as [s|]; simpl; [|lia]. pose proof (trim_length s k Hk).
  destruct (trim_str s k); simpl in *; lia.
Qed.

Lemma trimmed_shorter o : (length (trimmed k o) <= length (part o))%nat.
Proof using Hk.
  unfold trimmed. destruct o as [s|]; [|done]. cbn [fmap option_fmap option_map]. destruct s as [|c s]; [done|].
  pose proof (trim_shorter (c :: s) k Hk). destruct (trim_str (c :: s) k) as [|d t]; simpl in *; lia.
Qed.

Lemma trimmed_elem o c : c ∈ trimmed k o -> c = ch_star \/ exists s, o = Some s /\ c ∈ s.
Proof using Type.
  unfold trimmed. destruct o as [s|]; simpl; [|by intros ->%list_elem_of_singleton; left].
  destruct (trim_str s k) as [|d t] eqn:E; [by intros ->%list_elem_of_singleton; left|]. rewrite <- E.
  intros [?|?]%trim_elem; [by left|right; by exists s].
Qed.

Lemma trimmed_printables o : (forall s, o = Some s -> printables s) -> printables (trimmed k o) /\ trimmed k o <> [].
Proof using Hk.
  intros Ho. split.
  - apply Forall_forall. intros c [->|(s & -> & Hc)]%trimmed_elem; [unfold printable; lia|].
    specialize (Ho s eq_refl). rewrite Forall_forall in Ho. by apply Ho.
  - unfold trimmed. destruct o as [s|]; [|done]. simpl. by destruct (trim_str s k).
Qed.
End trimmed.

(** [convert_regular_ban] in terms of the parts. *)
Lemma convert_parts mask :
  printables mask ->
  convert_regular_ban mask NUH_BUFLEN =
  if bool_decide (mask = []) || (hd 0 mask =? 126) && negb (contains ch_at mask) then None
  else let '(n, u, h) := raw_parts mask in
       Some (nuh (trimmed NICKLEN n) (trimmed USERLEN u) (trimmed HOSTLEN h)).
Proof.
  intros Hm. unfold convert_regular_ban. destruct mask as [|c mask]; [done|]. rewrite bool_decide_eq_false_2 by done. cbn [orb hd].
  destruct ((c =? 126) && negb (contains ch_at (c :: mask))); [done|].
  assert (Hmk : forall n u h, raw_parts (c :: mask) = (n, u, h) ->
    make_nick_user_host_r NUH_BUFLEN ((fun s => trim_str s NICKLEN) <$> n) ((fun s => trim_str s USERLEN) <$> u) ((fun s => trim_str s HOSTLEN) <$> h)
    = nuh (trimmed NICKLEN n) (trimmed USERLEN u) (trimmed HOSTLEN h)).
  { intros n u h Hr.
    assert (Hel : forall o k, (forall d s, o = Some s -> d ∈ s -> d ∈ c :: mask) ->
              forall s, (fun s => trim_str s k) <$> o = Some s -> printables s).
    { intros o k Ho s. destruct o as [t|]; [|done]. intros [= <-]. apply Forall_forall. intros d [->|Hd]%trim_elem; [unfold printable; lia|].
      rewrite Forall_forall in Hm. apply Hm. by apply (Ho d t). }
    apply make_nuh; [..|apply (trimmed_length NICKLEN); vm_compute; lia|apply (trimmed_length USERLEN); vm_compute; lia|
      apply (trimmed_length HOSTLEN); vm_compute; lia].
    all: apply Hel; intros d s Hs Hd; destruct (raw_parts_elem _ _ _ _ d Hr) as (H1 & H2 & H3); eauto. }
  revert Hmk. unfold raw_parts. destruct (strchr 33 (c :: mask)) as [[m u]|]; cbn [from_option default Datatypes.id].
  - destruct (strrchr ch_at u) as [[u' h]|]; intros Hmk; by rewrite <- (Hmk _ _ _ eq_refl).
  - destruct (strrchr ch_at (c :: mask)) as [[u' h]|]; intros Hmk; [by rewrite <- (Hmk _ _ _ eq_refl)|].
    destruct (contains 46 (c :: mask) || contains ch_colon (c :: mask)); by rewrite <- (Hmk _ _ _ eq_refl).
Qed.

(** A mask in its final form is left alone. *)
Lemma convert_nuh n u h :
  nuh_ok n u h -> printables (nuh n u h) -> convert_regular_ban (nuh n u h) NUH_BUFLEN = Some (nuh n u h).
Proof.
  intros [(Hn & _ & Ln) (Hu & _ & Lu) (Hh & _ & Lh) H33 H64] Hp. rewrite convert_parts by done.
  rewrite bool_decide_eq_false_2 by (unfold nuh; by destruct n). cbn [orb].
  assert (contains ch_at (nuh n u h) = true) as ->.
  { apply contains_spec. unfold nuh. rewrite !elem_of_app. right. right. right. left. by apply list_elem_of_singleton. }
  rewrite andb_false_r. unfold raw_parts. assert (strchr 33 (nuh n u h) = Some (n, u ++ str "@" ++ h)) as -> by (by apply strchr_at).
  rewrite (proj2 (strrchr_some ch_at (u ++ str "@" ++ h) u h)) by done. unfold trimmed. cbn [fmap option_fmap option_map].
  rewrite !trim_id by done. by destruct n, u, h.
Qed.

Record final_mask (mask r : cstring) : Prop := {
  fm_parts : exists n u h, r = nuh n u h /\ nuh_ok n u h;
  fm_printable : printables r;
  fm_length : (length r <= length mask + 4)%nat;
  fm_elem : forall c, c ∈ r -> c ∈ mask \/ c = ch_star \/ c = 33 \/ c = ch_at;
  fm_hd : hd 0 r = ch_star \/ hd 0 r = hd 0 mask
}.

Lemma raw_parts_seps mask n u h :
  raw_parts mask = (n, u, h) ->
  (forall s, n = Some s -> 33 ∉ s /\ (s = [] \/ hd 0 s = hd 0 mask)) /\ (forall s, h = Some s -> ch_at ∉ s).
Proof.
  unfold raw_parts. destruct (strchr 33 mask) as [[m u']|] eqn:E1.
  - apply strchr_some in E1 as [-> Hm]. destruct (strrchr ch_at u') as [[u'' h']|] eqn:E2.
    + apply strrchr_some in E2 as [-> Hh]. intros [= <- <- <-]. split; intros s [= <-]; [|done]. split; [done|]. destruct m; auto.
    + intros [= <- <- <-]. split; intros s [= <-]. split; [done|]. destruct m; auto.
  - apply strchr_none in E1. destruct (strrchr ch_at mask) as [[u' h']|] eqn:E2.
    + apply strrchr_some in E2 as [-> Hh]. intros [= <- <- <-]. split; intros s [= <-]. done.
    + apply strrchr_none in E2. case_match; intros [= <- <- <-]; split; intros s [= <-]; auto.
Qed.

Lemma convert_final mask r :
  printables mask -> convert_regular_ban mask NUH_BUFLEN = Some r -> final_mask mask r.
Proof.
  intros Hm. rewrite convert_parts by done. case_bool_decide as Hne; [done|]. cbn [orb].
  destruct ((hd 0 mask =? 126) && _); [done|]. destruct (raw_parts mask) as [[n u] h] eqn:Hr. intros [= <-].
  assert (Hp : forall o k, (0 < k)%nat -> (forall d s, o = Some s -> d ∈ s -> d ∈ mask) -> printables (trimmed k o) /\ trimmed k o <> []).
  { intros o k Hk Ho. apply trimmed_printables; [done|]. intros s ->. apply Forall_forall. intros d Hd. rewrite Forall_forall in Hm. eauto. }
  assert (Hel : forall d, (forall s, n = Some s -> d ∈ s -> d ∈ mask) /\ (forall s, u = Some s -> d ∈ s -> d ∈ mask) /\
            (forall s, h = Some s -> d ∈ s -> d ∈ mask)) by (intros d; by apply raw_parts_elem).
  destruct (Hp n NICKLEN ltac:(vm_compute; lia) (fun d => (proj1 (Hel d)))) as [Pn Nn].
  destruct (Hp u USERLEN ltac:(vm_compute; lia) (fun d => (proj1 (proj2 (Hel d))))) as [Pu Nu].
  destruct (Hp h HOSTLEN ltac:(vm_compute; lia) (fun d => (proj2 (proj2 (Hel d))))) as [Ph Nh].
  destruct (raw_parts_seps _ _ _ _ Hr) as [S1 S2].
  assert (Hk : forall k o d, d ∈ trimmed k o -> (forall s, o = Some s -> d ∈ s -> d ∈ mask) -> d ∈ mask \/ d = ch_star).
  { intros k o d [->|(s & -> & Hd)]%trimmed_elem Ho; eauto. }
  split.
  - exists (trimmed NICKLEN n), (trimmed USERLEN u), (trimmed HOSTLEN h). split; [done|]. split.
    + apply printables_word; auto. apply trimmed_length. vm_compute. lia.
    + apply printables_word; auto. apply trimmed_length. vm_compute. lia.
    + apply printables_word; auto. apply trimmed_length. vm_compute. lia.
    + intros [|(s & -> & Hs)]%trimmed_elem; [done|]. by apply (S1 s eq_refl).
    + intros [|(s & -> & Hs)]%trimmed_elem; [done|]. by apply (S2 s eq_refl).
  - unfold nuh. repeat (apply Forall_app; split); auto; repeat constructor.
  - pose proof (raw_parts_length _ _ _ _ Hne Hr). unfold nuh. rewrite !length_app. cbn [length str].
    pose proof (trimmed_shorter NICKLEN ltac:(vm_compute; lia) n). pose proof (trimmed_shorter USERLEN ltac:(vm_compute; lia) u).
    pose proof (trimmed_shorter HOSTLEN ltac:(vm_compute; lia) h).
    assert (length (str "!") = 1%nat /\ length (str "@") = 1%nat) as [-> ->] by done. lia.
  - intros d. unfold nuh. rewrite !elem_of_app. change (str "!") with [33]. change (str "@") with [64]. rewrite !list_elem_of_singleton.
    destruct (Hel d) as (E1 & E2 & E3). intros [H|[H|[H|[H|H]]]]; auto.
    + destruct (Hk _ _ _ H E1); auto.
    + destruct (Hk _ _ _ H E2); auto.
    + destruct (Hk _ _ _ H E3); auto.
  - unfold nuh. destruct n as [s|]; [|by left]. destruct (S1 s eq_refl) as [_ Hs]. unfold trimmed. cbn [fmap option_fmap option_map].
    unfold trim_str. destruct (NICKLEN <? length s)%nat; [by left|]. destruct s as [|c s]; [by left|]. right. by destruct Hs.
Qed.

(** A mask that does not look like an extended ban does not come to look like one. *)
Lemma final_not_extended mask r : final_mask mask r -> is_extended_ban mask = false -> is_extended_ban r = false.
Proof.
  intros Hf Hx. destruct (is_extended_ban r) eqn:E; [|done]. rewrite <- Hx.
  destruct r as [|c r]; [done|]. unfold is_extended_ban in E. apply andb_true_iff in E as [->%Z.eqb_eq E].
  apply existsb_exists in E as (d & Hd & [_ ->%Z.eqb_eq]%andb_true_iff).
  destruct (fm_hd _ _ Hf) as [Hh|Hh]; [done|]. simpl in Hh. destruct mask as [|c mask]; [done|]. simpl in Hh. subst c.
  destruct (fm_elem _ _ Hf 58) as [Hin|[?|[?|?]]]; [right; by apply list_elem_of_In|..|done|done|done].
  apply elem_of_cons in Hin as [?|Hin]; [done|]. symmetry. simpl. apply existsb_exists. exists 58. split; [by apply list_elem_of_In|done].
Qed.

Lemma convert_stable mask r :
  printables mask -> convert_regular_ban mask NUH_BUFLEN = Some r ->
  final_mask mask r /\ convert_regular_ban r NUH_BUFLEN = Some r /\ (length r <= 105)%nat.
Proof.
  intros Hm Hr. pose proof (convert_final _ _ Hm Hr) as Hf. split; [done|].
  destruct (fm_parts _ _ Hf) as (n & u & h & -> & Hok). split; [apply convert_nuh; [done|apply Hf]|by apply nuh_length].
Qed.

(** ** The callbacks leave their own output alone *)

Lemma fold_case_printable f c :
  f = tolower \/ f = toupper -> printable c -> printable (f c) /\ f (f c) = f c.
Proof.
  intros Hf Hc. assert (H : forallb (fun c => (c <=? 32) || ((32 <? tolower c) && (tolower c <? 256) && (tolower (tolower c) =? tolower c)
    && (32 <? toupper c) && (toupper c <? 256) && (toupper (toupper c) =? toupper c))) (seqZ 0 256) = true) by (vm_compute; reflexivity).
  pose proof (byte_forall _ H c ltac:(unfold printable in Hc; lia)) as H1. cbv beta in H1. unfold printable in *.
  destruct Hf as [-> | ->]; lia.
Qed.

Lemma map_fold_case f s :
  f = tolower \/ f = toupper -> printables s -> printables (map f s) /\ map f (map f s) = map f s.
Proof.
  intros Hf. induction 1 as [|c s Hc _ [IH1 IH2]]; [done|]. destruct (fold_case_printable f c Hf Hc) as [H1 H2].
  simpl. rewrite H2, IH2. split; [by constructor|done].
Qed.

Lemma span_prefix p s : exists t, s = (span p s).1 ++ t.
Proof.
  induction s as [|c s [t IH]]; [by exists []|]. simpl. destruct (p c); [|by exists (c :: s)].
  destruct (span p s) as [a b]. simpl in *. exists t. by rewrite IH at 1.
Qed.

Lemma span_all p s : Forall (fun c => p c = true) (span p s).1.
Proof. induction s as [|c s IH]; [constructor|]. simpl. destruct (p c) eqn:E; [|constructor]. destruct (span p s). by constructor. Qed.

Lemma span_id p s : Forall (fun c => p c = true) s -> (span p s).1 = s.
Proof. induction 1 as [|c s Hc _ IH]; [done|]. simpl. rewrite Hc. destruct (span p s). simpl in *. by rewrite IH. Qed.

Lemma print_u32_ok x :
  0 <= x < 2 ^ 32 ->
  Forall (fun d => 48 <= d <= 57) (print_int x) /\ digits_value 0 (print_int x) = x /\
  (length (print_int x) <= 10)%nat /\ print_int x <> [].
Proof.
  intros Hx. unfold print_int. rewrite (proj2 (Z.ltb_ge x 0)) by lia.
  destruct (decimal_ok 10 x) as (H1 & H2 & H3 & H4); [simpl; lia|]. auto with lia.
Qed.

(** A text of digits is read without a sign or white space. *)
Lemma atoi_digits s : Forall (fun d => 48 <= d <= 57) s -> atoi s = digits_value 0 s.
Proof.
  intros Hs. destruct s as [|d s]; [done|]. apply Forall_cons in Hs as [Hd _]. unfold atoi. cbn [skip_while].
  assert ((d =? 32) || (9 <=? d) && (d <=? 13) = false) as -> by lia.
  by rewrite (proj2 (Z.eqb_neq d 45)), (proj2 (Z.eqb_neq d 43)) by lia.
Qed.

Lemma isdigit_digit d : 48 <= d <= 57 -> isdigit d = true.
Proof.
  intros Hd. assert (H : forallb (fun c => negb ((48 <=? c) && (c <=? 57)) || isdigit c) (seqZ 0 256) = true) by (vm_compute; reflexivity).
  pose proof (byte_forall _ H d ltac:(lia)) as H1. cbv beta in H1. rewrite (proj2 (Z.leb_le 48 d)), (proj2 (Z.leb_le d 57)) in H1 by lia. done.
Qed.

Lemma valid_channelname_plain a s c : valid_channelname a s = true -> c ∈ s -> c <> ch_colon.
Proof.
  unfold valid_channelname. intros [_ H]%andb_true_iff Hc ->. apply list_elem_of_In in Hc.
  destruct a; [| |apply andb_true_iff in H as [H _]]; rewrite forallb_forall in H; specialize (H 58 Hc); done.
Qed.

(** The pattern of a blocking text ban is completed once. *)
Lemma asterisks_stable p :
  (length p <= 500)%nat -> conv_pattern_asterisks (conv_pattern_asterisks p) = conv_pattern_asterisks p /\
  (length (conv_pattern_asterisks p) <= length p + 2)%nat /\ conv_pattern_asterisks p <> [] /\
  (forall c, c ∈ conv_pattern_asterisks p -> c = ch_star \/ c ∈ p).
Proof.
  intros Hl. unfold conv_pattern_asterisks, cut.
  set (pre := if hd 0 p =? ch_star then [] else [ch_star]).
  set (suf := match p with [] => [] | _ => if default 0 (last p) =? ch_star then [] else [ch_star] end).
  assert (Hpre : (length pre <= 1)%nat) by (unfold pre; case_match; simpl; lia).
  assert (Hsuf : (length suf <= 1)%nat) by (unfold suf; destruct p; [simpl; lia|]; case_match; simpl; lia).
  rewrite (take_ge (pre ++ p ++ suf)) by (rewrite !length_app; lia).
  assert (Hhd : hd 0 (pre ++ p ++ suf) = ch_star).
  { unfold pre. destruct (Z.eqb_spec (hd 0 p) ch_star) as [E|E]; [|done]. by destruct p. }
  assert (Hne : pre ++ p ++ suf <> []) by (intros H; by rewrite H in Hhd).
  assert (Hlast : last (pre ++ p ++ suf) = Some ch_star).
  { rewrite app_assoc, last_app. unfold suf. destruct p as [|c p]; [unfold pre; simpl; done|].
    destruct (Z.eqb_spec (default 0 (last (c :: p))) ch_star) as [E|E]; [|done]. simpl last at 1. cbv iota.
    rewrite last_app. destruct (last (c :: p)) as [d|] eqn:El; [simpl in E; by subst|by apply last_None in El]. }
  rewrite Hhd, Hlast. cbn [default from_option Datatypes.id]. rewrite Z.eqb_refl. cbn [app].
  split; [|split; [rewrite !length_app; lia|split; [done|]]].
  - destruct (pre ++ p ++ suf) eqn:E; [done|]. rewrite app_nil_r, take_ge; [done|]. rewrite <- E, !length_app. lia.
  - intros c. rewrite !elem_of_app. unfold pre, suf. intros [H|[H|H]]; [|by right|]; left.
    + revert H. case_match; [by intros ?%elem_of_nil|by intros ->%list_elem_of_singleton].
    + revert H. destruct p; [by intros ?%elem_of_nil|]. case_match; [by intros ?%elem_of_nil|by intros ->%list_elem_of_singleton].
Qed.

Section stable.
Context (K : conv_env).

(** What is shown of each callback on a text that fits its buffers. *)
Definition leaf_stable (v : conv_ctx) (f : conv_fn) (s r : cstring) : Prop :=
  printables r /\ (length r <= length s + 9)%nat /\ conv_leaf K v f r = Some r.

Lemma asn_stable v s r :
  conv_leaf K v extban_asn_conv_param s = Some r -> s <> [] -> leaf_stable v extban_asn_conv_param s r.
Proof.
  unfold_leaf. destruct (isdigit (hd 0 s)); [|done]. cbn [negb]. destruct (forallb decimal_digit s); [|done].
  intros [= <-] Hne. assert (Hx : 0 <= strtoul_u32 s < 2 ^ 32) by (apply Z.mod_pos_bound; lia).
  destruct (print_u32_ok _ Hx) as (Hd & Hval & Hlen & Hpne). set (x := strtoul_u32 s) in *.
  unfold cut. rewrite take_ge by lia. unfold leaf_stable. split; [|split].
  - eapply Forall_impl; [exact Hd|]. unfold printable. simpl. lia.
  - destruct s; [done|simpl; lia].
  - unfold_leaf. destruct (print_int x) as [|d t] eqn:Ep; [done|]. rewrite <- Ep in *. assert (Hd' := Hd). rewrite Ep in Hd'.
    apply Forall_cons in Hd' as [Hd0 _]. rewrite Ep at 1. cbn [hd]. rewrite isdigit_digit by done. cbn [negb].
    assert (forallb decimal_digit (print_int x) = true) as ->.
    { apply forallb_forall. intros e He%list_elem_of_In. rewrite Forall_forall in Hd. specialize (Hd e He). unfold decimal_digit. lia. }
    assert (strtoul_u32 (print_int x) = x) as ->; [|unfold cut; by rewrite take_ge by lia].
    unfold strtoul_u32. rewrite atoi_digits, Hval by done. rewrite (proj2 (Z.ltb_ge x 0)) by lia.
    rewrite Z.min_l by lia. apply Z.mod_small. lia.
Qed.

Lemma text_stable v s r :
  printables s -> (length s <= 128)%nat ->
  conv_leaf K v extban_modeT_conv_param s = Some r -> leaf_stable v extban_modeT_conv_param s r.
Proof.
  intros Hp Hl. unfold_leaf. rewrite strlcpy_take by lia. rewrite take_ge by lia.
  destruct (strchr ch_colon s) as [[action text]|] eqn:Es; [|done]. destruct text as [|c0 text0] eqn:Et; [done|]. rewrite <- Et in *.
  assert (Htne : text <> []) by (by rewrite Et). clear Et c0 text0.
  pose proof Es as [Hs _]%strchr_some. assert (Hpt : printables text).
  { rewrite Hs in Hp. apply Forall_app in Hp as [_ [_ Hp]%Forall_cons]. done. }
  assert (Hlt : (length text < length s)%nat) by (rewrite Hs, length_app; simpl; lia).
  assert (Hfin : forall a t, (length a <= 6)%nat -> printables a -> ch_colon ∉ a -> printables t -> t <> [] -> (length t <= length text + 2)%nat ->
            (let r := if strcasecmp a (str "block") =? 0 then Some (str "block", conv_pattern_asterisks t)
                      else if strcasecmp a (str "censor") =? 0 then if censor_text_ok t then Some (str "censor", t) else None else None in r) = Some (a, t) ->
            existsb text_code t = false -> leaf_stable v extban_modeT_conv_param s (cut (150 + 1) (a ++ [ch_colon] ++ t))).
  { intros a t Ha Hpa Hca Hpt' Ht0 Htl Hr Hcode. unfold cut. rewrite take_ge by (rewrite !length_app; simpl; lia).
    split; [|split].
    - apply Forall_app. split; [done|]. constructor; [unfold printable; lia|done].
    - rewrite !length_app. simpl. lia.
    - unfold_leaf. rewrite strlcpy_take by lia. rewrite take_ge by (rewrite !length_app; simpl; lia).
      change (a ++ [ch_colon] ++ t) with (a ++ ch_colon :: t). rewrite strchr_at by done. destruct t as [|c t]; [done|]. cbv zeta in Hr. rewrite Hr. cbn [mbind option_bind].
      rewrite Hcode. unfold cut. by rewrite take_ge by (rewrite !length_app; simpl in *; lia). }
  cbv zeta.
  destruct (strcasecmp action (str "block") =? 0).
  { cbn [mbind option_bind]. destruct (asterisks_stable text) as (H1 & H2 & H3 & H4); [lia|].
    destruct (existsb text_code (conv_pattern_asterisks text)) eqn:Ec; [done|]. intros H%(inj Some). subst r.
    apply Hfin; [simpl; lia|repeat constructor|by vm_compute; set_solver| |done|done| |done].
    - apply Forall_forall. intros d [->|Hd]%H4; [unfold printable; lia|]. rewrite Forall_forall in Hpt. by apply Hpt.
    - cbv zeta. replace (strcasecmp (str "block") (str "block") =? 0) with true by reflexivity. by rewrite H1. }
  destruct (strcasecmp action (str "censor") =? 0); [|done]. destruct (censor_text_ok text) eqn:Eok; [|done].
  cbn [mbind option_bind]. destruct (existsb text_code text) eqn:Ec; [done|]. intros H%(inj Some). subst r.
  apply Hfin; [simpl; lia|repeat constructor|by vm_compute; set_solver|done|done|lia| |done].
  cbv zeta. replace (strcasecmp (str "censor") (str "block") =? 0) with false by reflexivity.
  replace (strcasecmp (str "censor") (str "censor") =? 0) with true by reflexivity. by rewrite Eok.
Qed.

(** A callback that keeps a leading part of its text when the part passes a test. *)
Lemma leaf_take v f s r n :
  printables s -> conv_leaf K v f s = Some r -> r = take n s ->
  (forall t, take n t = take n s -> conv_leaf K v f t = conv_leaf K v f s) -> leaf_stable v f s r.
Proof.
  intros Hp Hr -> Hext. split; [by apply Forall_take|]. split; [rewrite length_take; lia|].
  rewrite Hext; [done|]. by rewrite take_take, Nat.min_id.
Qed.

Lemma realname_stable v s r :
  printables s -> conv_leaf K v extban_realname_conv_param s = Some r -> leaf_stable v extban_realname_conv_param s r.
Proof.
  intros Hp Hr. destruct s as [|c s]; [by vm_compute in Hr|]. apply Forall_cons in Hp as [Hc Hp].
  assert (Hconv : forall d t, conv_leaf K v extban_realname_conv_param (d :: t) = Some ((if d =? 126 then ch_qmark else d) :: take 49 t)).
  { intros d t. unfold_leaf. rewrite strlcpy_take by lia. change (50 + 8 - 1)%nat with 57%nat. cbn [take].
    change (take 50 (d :: take 56 t)) with (d :: take 49 (take 56 t)). by rewrite take_take. }
  rewrite Hconv in Hr. apply (inj Some) in Hr. subst r. split; [|split].
  - constructor; [case_match; unfold printable in *; lia|by apply Forall_take].
  - cbn [length]. rewrite length_take. lia.
  - rewrite Hconv, take_take, Nat.min_id. destruct (Z.eqb_spec c 126) as [->|E]; [done|]. by rewrite (proj2 (Z.eqb_neq c 126)).
Qed.

Lemma leaf_case v f s r g n :
  g = tolower \/ g = toupper -> printables s ->
  (forall t, conv_leaf K v f t = Some (map g (take n t))) -> conv_leaf K v f s = Some r -> leaf_stable v f s r.
Proof.
  intros Hg Hp Hf Hr. rewrite Hf in Hr. apply (inj Some) in Hr. subst r.
  destruct (map_fold_case g (take n s) Hg ltac:(by apply Forall_take)) as [H1 H2].
  split; [done|]. split; [rewrite length_map, length_take; lia|].
  rewrite Hf, (take_ge (map g _)) by (rewrite length_map, length_take; lia). by rewrite H2.
Qed.

Lemma conv_leaf_stable v f s r :
  printables s -> s <> [] -> (length s <= 128)%nat -> conv_leaf K v f s = Some r -> leaf_stable v f s r.
Proof.
  intros Hp Hne Hl Hr. destruct f; try done.
  - by apply realname_stable.
  - apply (leaf_take v _ s r (NICKLEN + 3)); [done|done| |].
    + revert Hr. unfold_leaf. rewrite strlcpy_take by lia. destruct (take _ s) eqn:E; [done|]. intros [= <-]. by rewrite <- E.
    + intros t Ht. unfold_leaf. rewrite !strlcpy_take by lia. change (NICKLEN + 4 - 1)%nat with (NICKLEN + 3)%nat. by rewrite Ht.
  - eapply (leaf_case v _ s r tolower 128); [auto|done|by intros; unfold_leaf; rewrite strlcpy_take by lia|done].
  - eapply (leaf_case v _ s r toupper 63); [auto|done|by intros; unfold_leaf; rewrite strlcpy_take by lia|done].
  - by apply asn_stable.
  - revert Hr. unfold_leaf. rewrite strlcpy_take by lia. set (p := fun c => valid_operclass_character c || _). intros [= <-].
    destruct (span_prefix p (take (64 + 4 - 1) s)) as [t Ht]. pose proof (span_all p (take (64 + 4 - 1) s)) as Hall.
    set (w := (span p (take (64 + 4 - 1) s)).1) in *.
    assert (Hw : (length w <= 67)%nat /\ (length w <= length s)%nat).
    { apply (f_equal length) in Ht. rewrite length_app, length_take in Ht. lia. }
    change (leaf_stable v extban_operclass_conv_param s w). split; [|split; [lia|]].
    + apply (Forall_take _ (64 + 4 - 1)) in Hp. rewrite Ht in Hp. by apply Forall_app in Hp as [? _].
    + unfold_leaf. rewrite strlcpy_take by lia. rewrite (take_ge w) by lia. fold p. by rewrite span_id.
  - apply (leaf_take v _ s r (CHANNELLEN + 5)); [done|done| |].
    + revert Hr. unfold_leaf. rewrite strlcpy_take by lia. set (chan := skip_symbol _). case_match; [done|].
      destruct (valid_channelname (k_channelchars K) chan) eqn:Ev; [|done]. cbn [negb].
      destruct (strchr ch_colon chan) as [[a b]|] eqn:Es; [|by intros [= <-]]. apply strchr_some in Es as [Hs _].
      exfalso. eapply (valid_channelname_plain _ _ ch_colon Ev); [|done]. rewrite Hs. apply elem_of_app. right. left.
    + intros t Ht. unfold_leaf. rewrite !strlcpy_take by lia. change (CHANNELLEN + 6 - 1)%nat with (CHANNELLEN + 5)%nat. by rewrite Ht.
  - apply (leaf_take v _ s r (48 + 7)); [done|done| |].
    + revert Hr. unfold_leaf. rewrite strlcpy_take by lia. case_match; [|done]. by intros [= <-].
    + intros t Ht. unfold_leaf. rewrite !strlcpy_take by lia. change (48 + 8 - 1)%nat with (48 + 7)%nat. by rewrite Ht.
  - by apply text_stable.
  - apply (leaf_take v _ s r CHANNELLEN); [done|done| |].
    + revert Hr. unfold_leaf. rewrite strlcpy_take by lia. change (CHANNELLEN + 1 - 1)%nat with CHANNELLEN.
      repeat case_match; try done; by intros [= <-].
    + intros t Ht. unfold_leaf. rewrite !strlcpy_take by lia. change (CHANNELLEN + 1 - 1)%nat with CHANNELLEN. by rewrite Ht.
Qed.
End stable.

(** ** Types are found under what is written for them *)

Definition type_text (named : bool) (x : Extban) : cstring :=
  [126] ++ (if named then default [] (x_name x) else [x_letter x]) ++ [ch_colon].

Definition type_text_ok (t : cstring) : bool :=
  (length t <=? 16)%nat && (3 <=? length t)%nat && forallb (fun c => (32 <? c) && (c <? 256)) t && (hd 0 t =? 126) &&
  bool_decide (last t = Some ch_colon) && bool_decide (strchr ch_colon t = Some (take (length t - 1) t, [])).

(** A registry in which the written types are told apart. *)
Record text_table (l : list Extban) : Prop := {
  tt_named : Forall (fun x => exists c t, x_name x = Some (c :: t)) l;
  tt_conv : Forall (fun x => is_Some (x_conv_param x)) l;
  tt_types : forall named, Forall (fun x => type_text_ok (type_text named x) = true) l;
  tt_found : forall named, Forall (fun x => forall c r, findmod_by_bantype l (type_text named x ++ c :: r) = (Some x, Some (c :: r))) l
}.

Lemma extbans_text_table : text_table extbans.
Proof.
  split.
  - vm_compute. repeat (constructor; [eexists _, _; reflexivity|]). constructor.
  - vm_compute. repeat (constructor; [eexists; reflexivity|]). constructor.
  - intros []; vm_compute; repeat (constructor; [reflexivity|]); constructor.
  - intros []; unfold extbans at 2; cbv [shipped fold_left]; vm_compute;
      repeat (constructor; [intros c r; reflexivity|]); constructor.
Qed.

Lemma found_cost table s x next :
  Forall (fun x => exists c t, x_name x = Some (c :: t)) table ->
  findmod_by_bantype table s = (Some x, Some next) ->
  x ∈ table /\ next <> [] /\ (length next + 3 <= length s)%nat /\ (printables s -> printables next).
Proof.
  intros Hnamed Hf. pose proof (findmod_some _ _ _ _ Hf) as (Hin & Hne & _). split; [done|]. split; [done|].
  revert Hf. unfold findmod_by_bantype. destruct (strchr ch_colon s) as [[a b]|] eqn:Es; [|done]. destruct b as [|c b]; [done|].
  intros [= Hraw <-]. apply strchr_some in Es as [-> _]. split.
  - rewrite length_app. cbn [length]. enough (2 <= length a)%nat by lia.
    destruct (length a - 1)%nat as [|n] eqn:El; [|lia]. exfalso. clear -Hraw Hnamed. revert Hraw.
    induction Hnamed as [|e l (c' & t & Hn) _ IH]; [done|]. cbn [findmod_by_bantype_raw]. rewrite Hn. cbn. done.
  - intros [_ [_ Hb]%Forall_cons]%Forall_app. done.
Qed.

Lemma hd_app_l (l k : cstring) c : hd 0 l = c -> c <> 0 -> hd 0 (l ++ k) = c.
Proof. by destruct l. Qed.

Section shipped.
Context (K : conv_env) (HK : text_table (k_table K)).

Abbreviation prefix := (extban_prefix K).

Record prefix_facts (t : cstring) : Prop := {
  pf_length : (3 <= length t <= 16)%nat;
  pf_printable : printables t;
  pf_hd : hd 0 t = 126;
  pf_last : last t = Some ch_colon;
  pf_colon : exists a, t = a ++ [ch_colon] /\ ch_colon ∉ a
}.

Lemma prefix_ok v x : x ∈ k_table K -> prefix_facts (prefix v x) /\ is_Some (x_conv_param x).
Proof using HK.
  intros Hx. destruct HK as [_ Hconv Htypes _]. specialize (Htypes (k_named K && negb (v_letters v))).
  rewrite Forall_forall in Hconv, Htypes. split; [|by apply Hconv]. specialize (Htypes x Hx).
  fold (prefix v x) in Htypes. unfold type_text_ok in Htypes. change (type_text _ x) with (prefix v x) in Htypes.
  rewrite !andb_true_iff, !bool_decide_eq_true, Z.eqb_eq, forallb_forall in Htypes.
  destruct Htypes as (((((H1 & H2) & H3) & H4) & H5) & H6). apply Nat.leb_le in H1, H2.
  split; [exact (conj H2 H1)| |exact H4|exact H5|].
  - apply Forall_forall. intros c Hc'%list_elem_of_In%H3. unfold printable. lia.
  - apply strchr_some in H6 as [E Hn]. exists (take (length (prefix v x) - 1) (prefix v x)). split; [exact E|exact Hn].
Qed.

Lemma prefix_found v x c r : x ∈ k_table K -> findmod_by_bantype (k_table K) (prefix v x ++ c :: r) = (Some x, Some (c :: r)).
Proof using HK.
  intros Hx. pose proof (tt_found _ HK (k_named K && negb (v_letters v))) as H. rewrite Forall_forall in H. apply (H x Hx c r).
Qed.

Lemma prefix_alone v x : x ∈ k_table K -> findmod_by_bantype (k_table K) (prefix v x) = (None, None).
Proof using HK.
  intros Hx. destruct (prefix_ok v x Hx) as [Hf _]. destruct (pf_colon _ Hf) as (a & Ha & Hn). unfold findmod_by_bantype.
  rewrite Ha, (strchr_at ch_colon a []) by done. done.
Qed.

Lemma prefix_extended v x r : x ∈ k_table K -> is_extended_ban (prefix v x ++ r) = true.
Proof using Type.
  intros Hx. unfold extban_prefix. simpl. rewrite existsb_app, existsb_app. simpl. by rewrite orb_true_r.
Qed.

(** What a found type costs of the text. *)
Lemma found_in_table s x next :
  findmod_by_bantype (k_table K) s = (Some x, Some next) ->
  x ∈ k_table K /\ next <> [] /\ (length next + 3 <= length s)%nat /\ (printables s -> printables next).
Proof using HK. apply found_cost, HK. Qed.

(** A conversion whose results it would not change, but for a missing parameter. *)
Definition stable_conv (g : nat) (conv : cstring -> option cstring) : Prop :=
  forall s r, printables s -> s <> [] -> (length s + g <= 128)%nat -> conv s = Some r ->
    printables r /\ (length r <= length s + g)%nat /\ (last r <> Some ch_colon -> conv r = Some r).

Lemma stable_mono g g' conv : (g <= g')%nat -> stable_conv g conv -> stable_conv g' conv.
Proof using Type. intros Hg H s r Hp Hne Hl Hr. destruct (H s r Hp Hne ltac:(lia) Hr) as (H1 & H2 & H3). split; [done|]. split; [lia|done]. Qed.

Lemma stable_ext g conv conv' : (forall s, conv s = conv' s) -> stable_conv g conv -> stable_conv g conv'.
Proof using Type. intros He H s r Hp Hne Hl. rewrite <- !He. by apply H. Qed.

Lemma nuh_stable s r :
  printables s -> is_extended_ban s = false -> extban_conv_param_nuh s = Some r ->
  printables r /\ (length r <= length s + 4)%nat /\ is_extended_ban r = false /\ extban_conv_param_nuh r = Some r /\ r <> [].
Proof using Type.
  intros Hp Hx. unfold extban_conv_param_nuh. rewrite strlcpy_take by (vm_compute; lia). change (NUH_BUFLEN - 1)%nat with 105%nat.
  intros Hr. destruct (convert_stable _ _ (Forall_take _ 105 _ Hp) Hr) as (Hf & Hst & Hl).
  split; [apply Hf|]. split; [pose proof (fm_length _ _ Hf) as H; rewrite length_take in H; lia|]. split.
  - apply (final_not_extended _ _ Hf). destruct (is_extended_ban (take 105 s)) eqn:E; [|done]. by apply is_extended_take in E; congruence.
  - rewrite strlcpy_take by (vm_compute; lia). change (NUH_BUFLEN - 1)%nat with 105%nat. rewrite take_ge by done. split; [done|].
    destruct (fm_parts _ _ Hf) as (n & u & h & -> & Hok). unfold nuh. by destruct n.
Qed.

(** The text of a type in front of a converted parameter. *)
Lemma prefixed v x (next s r' : cstring) :
  x ∈ k_table K -> (length next + 3 <= length s)%nat -> printables r' ->
  printables (prefix v x ++ r') /\ (length (prefix v x ++ r') <= length s + (length r' - length next) + 13)%nat /\
  (last (prefix v x ++ r') <> Some ch_colon -> r' <> [] /\ last r' <> Some ch_colon).
Proof using HK.
  intros Hx Hl Hp. destruct (prefix_ok v x Hx) as [[Hpl Hpp _ Hlast _] _]. split; [by apply Forall_app|].
  split; [rewrite length_app; lia|]. intros Hne. destruct (decide (r' = [])) as [->|Hr]; [by rewrite app_nil_r in Hne|].
  split; [done|]. intros Hc. apply Hne. rewrite last_app. by rewrite Hc.
Qed.

Lemma nuh_or_extban_stable h nested inner v :
  (forall f, stable_conv (h - 13) (inner f)) -> (4 <= h)%nat -> (13 <= h)%nat \/ (forall f s, inner f s = None) ->
  stable_conv h (conv_nuh_or_extban K nested inner v).
Proof using HK.
  intros Hinner H4 Hh s r Hp Hne Hl. unfold conv_nuh_or_extban. destruct (is_extended_ban s) eqn:Hx; cbn [negb].
  2: { intros Hr. destruct (nuh_stable s r Hp Hx Hr) as (H1 & H2 & H3 & H5 & _). split; [done|]. split; [lia|].
       intros _. by rewrite H3. }
  destruct nested; [done|]. rewrite strlcpy_take by lia. rewrite (take_ge s) by (unfold MAXBANLEN; lia).
  destruct (findmod_by_bantype (k_table K) s) as [[x|] [next|]] eqn:Ef.
  2-4: intros Hr; apply (inj Some) in Hr; subst r; split; [done|]; split; [lia|]; intros _;
    rewrite Hx; cbn [negb]; rewrite strlcpy_take by lia; rewrite (take_ge s) by (unfold MAXBANLEN; lia); by rewrite Ef.
  destruct (found_in_table _ _ _ Ef) as (Hin & Hnn & Hnl & Hnp). specialize (Hnp Hp).
  destruct (_ || _) eqn:Eopt; [done|]. destruct (x_conv_param x) as [f|] eqn:Ec; [|done]. cbn [mbind option_bind].
  unfold prefix_with_extban. destruct (inner f next) as [r'|] eqn:Ei; [|done]. cbn [mbind option_bind]. intros Hr.
  destruct Hh as [Hh|Hh]; [|by rewrite Hh in Ei].
  apply (inj Some) in Hr. destruct (Hinner f next r' Hnp Hnn ltac:(lia) Ei) as (H1 & H2 & H3).
  destruct (prefixed v x next s r' Hin Hnl H1) as (P1 & P2 & P3). unfold cut in Hr. rewrite take_ge in Hr by (unfold MAXBANLEN; lia). subst r.
  split; [done|]. split; [lia|]. intros Hlast. destruct (P3 Hlast) as [Hrne Hrl].
  rewrite (prefix_extended v x r' Hin). cbn [negb]. rewrite strlcpy_take by lia. rewrite take_ge by (unfold MAXBANLEN; lia).
  destruct r' as [|c r']; [done|]. rewrite (prefix_found v x c r' Hin). rewrite Eopt, Ec. cbn [mbind option_bind].
  rewrite H3 by done. cbn [mbind option_bind]. unfold cut. by rewrite take_ge by (unfold MAXBANLEN; lia).
Qed.

Lemma last_app_r {A} (l k : list A) : k <> [] -> last (l ++ k) = last k.
Proof using Type. intros Hk. rewrite last_app. destruct (last k) eqn:E; [done|]. by apply last_None in E. Qed.

(** A type and a colon in front of a converted mask, and the way back. *)
Lemma split_para_some size s type matchby :
  (length s < size)%nat -> split_para size s = Some (type, matchby) <->
  s = type ++ ch_colon :: matchby /\ ch_colon ∉ type /\ matchby <> [].
Proof using Type.
  intros Hl. unfold split_para. rewrite strlcpy_take by lia. rewrite take_ge by lia.
  destruct (strchr ch_colon s) as [[a b]|] eqn:E.
  - apply strchr_some in E as [-> Hn]. destruct b as [|c b].
    + split; [done|]. intros (H & Hn' & Hm). exfalso.
      assert (H1 : strchr ch_colon (a ++ [ch_colon]) = Some (a, [])) by by apply strchr_some.
      rewrite H, strchr_at in H1 by done. by injection H1 as _ ->.
    + split; [by intros [= <- <-]|]. intros (H & Hn' & Hm).
      assert (H1 : strchr ch_colon (a ++ ch_colon :: c :: b) = Some (a, c :: b)) by by apply strchr_some.
      rewrite H, strchr_at in H1 by done. by injection H1 as -> ->.
  - apply strchr_none in E. split; [done|]. intros (-> & _). destruct E. apply elem_of_app. right. left.
Qed.

Lemma with_type_stable g inner (ok : cstring -> bool) :
  stable_conv g inner ->
  stable_conv g (fun s => '(type, matchby) ← split_para (MAX_LENGTH + 1) s; if ok type then with_type type (inner matchby) else None).
Proof using Type.
  intros Hinner s r Hp Hne Hl. destruct (split_para (MAX_LENGTH + 1) s) as [[type matchby]|] eqn:Es; [|done]. cbn [mbind option_bind].
  apply split_para_some in Es as (-> & Hn & Hm); [|unfold MAX_LENGTH; lia].
  apply Forall_app in Hp as [Hpt [Hpc Hpm]%Forall_cons]. rewrite length_app in Hl. cbn [length] in Hl.
  destruct (ok type) eqn:Eok; [|done]. destruct (inner matchby) as [m|] eqn:Ei; [|done].
  destruct (Hinner matchby m Hpm Hm ltac:(lia) Ei) as (H1 & H2 & H3). unfold with_type.
  destruct (decide (m = [])) as [->|Hmne]; [done|].
  assert (Hw : (match m with [] => None | _ => Some (cut (MAX_LENGTH + 1) (type ++ [ch_colon] ++ m)) end) = Some (type ++ ch_colon :: m)).
  { destruct m; [done|]. unfold cut, MAX_LENGTH. rewrite take_ge; [done|]. rewrite !length_app in *. cbn [length] in *. lia. }
  intros Hr. assert (r = type ++ ch_colon :: m) as ->.
  { destruct m; [done|]. rewrite Hw in Hr. by apply (inj Some) in Hr. }
  clear Hr. split; [apply Forall_app; split; [done|by constructor]|]. rewrite !length_app. cbn [length].
  split; [lia|]. intros Hlast.
  assert (split_para (MAX_LENGTH + 1) (type ++ ch_colon :: m) = Some (type, m)) as ->.
  { apply split_para_some; [rewrite length_app; cbn [length]; unfold MAX_LENGTH; lia|done]. }
  cbn [mbind option_bind]. rewrite Eok, H3.
  - destruct m; [done|]. exact Hw.
  - rewrite (last_app_r type (ch_colon :: m)) in Hlast by done. change (ch_colon :: m) with ([ch_colon] ++ m) in Hlast. by rewrite last_app_r in Hlast.
Qed.

(** *** ~time *)

Lemma strchr_space s : printables s -> strchr ch_space s = None.
Proof using Type. intros Hp. apply strchr_none. intros H. rewrite Forall_forall in Hp. specialize (Hp _ H). unfold printable in Hp. lia. Qed.

Lemma no_low s : printables s -> existsb (fun c => c <=? ch_space) s = false.
Proof using Type.
  intros Hp. apply not_true_iff_false. intros (c & Hc%list_elem_of_In & H)%existsb_exists. rewrite Forall_forall in Hp.
  specialize (Hp c Hc). unfold printable in Hp. lia.
Qed.

Lemma skip_colons s : exists k, s = replicate k ch_colon ++ skip_while (Z.eqb ch_colon) s.
Proof using Type.
  induction s as [|c s [k IH]]; [by exists 0%nat|]. cbn [skip_while]. destruct (Z.eqb_spec ch_colon c) as [<-|]; [|by exists 0%nat].
  exists (S k). simpl. by rewrite <- IH.
Qed.

Lemma skip_colons_id s : hd 0 s <> ch_colon -> skip_while (Z.eqb ch_colon) s = s.
Proof using Type. destruct s as [|c s]; [done|]. cbn [hd skip_while]. intros H. by rewrite (proj2 (Z.eqb_neq _ _)) by done. Qed.

Lemma skip_colons_hd s : skip_while (Z.eqb ch_colon) s <> [] -> hd 0 (skip_while (Z.eqb ch_colon) s) <> ch_colon.
Proof using Type.
  induction s as [|c s IH]; [done|]. cbn [skip_while]. destruct (Z.eqb_spec ch_colon c) as [<-|Hc]; [done|]. intros _. cbn. congruence.
Qed.

Lemma skip_colons_ok s :
  printables s -> printables (skip_while (Z.eqb ch_colon) s) /\ (length (skip_while (Z.eqb ch_colon) s) <= length s)%nat.
Proof using Type.
  intros Hp. destruct (skip_colons s) as [k Hk]. split.
  - rewrite Hk in Hp. by apply Forall_app in Hp as [_ ?].
  - apply (f_equal length) in Hk. rewrite length_app in Hk. lia.
Qed.

(** The result of a regular mask starts with no colon. *)
Lemma final_hd mask r : final_mask mask r -> hd 0 mask <> ch_colon -> hd 0 r <> ch_colon.
Proof using Type. intros Hf Hm. destruct (fm_hd _ _ Hf) as [H|H]; rewrite H; [done|exact Hm]. Qed.

Lemma generic_clean_stable g inner v :
  (forall v f, stable_conv (g - 13) (inner v f)) -> (4 <= g)%nat -> (13 <= g)%nat \/ (forall v f s, inner v f s = None) ->
  stable_conv g (generic_clean_ban_mask K inner v).
Proof using HK.
  intros Hinner Hg Hh s r Hp Hne Hl. unfold generic_clean_ban_mask at 1. rewrite strlcpy_take by lia. rewrite (take_ge s) by lia.
  rewrite strchr_space by done. destruct (skip_colons_ok s Hp) as [Hmp Hml]. pose proof (skip_colons_hd s) as Hmh.
  set (mask := skip_while (Z.eqb ch_colon) s) in *. case_bool_decide as Hm; [done|]. specialize (Hmh Hm). rewrite (no_low mask) by done.
  assert (Hagain : forall t, printables t -> t <> [] -> (length t <= 511)%nat -> hd 0 t <> ch_colon ->
    generic_clean_ban_mask K inner v t =
    if is_extended_ban t then
      match findmod_by_bantype (k_table K) t with
      | (Some x, Some next) =>
          match x_conv_param x with
          | Some f => prefix_with_extban K (inner (MkConvCtx (v_my_user v) (v_channel v) MODE_NULL (v_ban_type v) (v_letters v)) f next)
                        (MkConvCtx (v_my_user v) (v_channel v) MODE_NULL (v_ban_type v) (v_letters v)) x 512
          | None => if negb (nth 1 t 0 =? ch_colon) || (length t =? 2)%nat then None else Some (take 80 t)
          end
      | _ => None
      end
    else convert_regular_ban t NUH_BUFLEN).
  { intros t Ht Htn Htl Hth. unfold generic_clean_ban_mask. rewrite strlcpy_take by lia. rewrite (take_ge t) by lia.
    rewrite strchr_space, skip_colons_id by done. by rewrite bool_decide_eq_false_2, no_low by done. }
  destruct (is_extended_ban mask) eqn:Hx.
  2: { intros Hr. destruct (convert_stable _ _ Hmp Hr) as (Hf & Hst & Hl105). split; [apply Hf|].
       pose proof (fm_length _ _ Hf). split; [lia|]. intros _. destruct (fm_parts _ _ Hf) as (n & u & h & Hnuh & Hok).
       rewrite Hagain, (final_not_extended _ _ Hf Hx); [done|apply Hf| |lia|by apply (final_hd _ _ Hf)].
       rewrite Hnuh. unfold nuh. by destruct n. }
  destruct (findmod_by_bantype (k_table K) mask) as [[x|] [next|]] eqn:Ef; try done.
  destruct (found_in_table _ _ _ Ef) as (Hin & Hnn & Hnl & Hnp). specialize (Hnp Hmp).
  set (v' := MkConvCtx _ _ _ _ _). destruct (prefix_ok v' x Hin) as [Hpf [f Ec]]. rewrite Ec.
  unfold prefix_with_extban at 1. destruct (inner v' f next) as [r'|] eqn:Ei; [|done]. cbn [mbind option_bind]. intros Hr.
  destruct Hh as [Hh|Hh]; [|by rewrite Hh in Ei].
  apply (inj Some) in Hr. destruct (Hinner v' f next r' Hnp Hnn ltac:(lia) Ei) as (H1 & H2 & H3).
  destruct (prefixed v' x next mask r' Hin Hnl H1) as (P1 & P2 & P3). unfold cut in Hr. rewrite take_ge in Hr by lia. subst r.
  split; [done|]. split; [lia|]. intros Hlast. destruct (P3 Hlast) as [Hrne Hrl].
  rewrite Hagain; [|done|by destruct r', (prefix v' x)|lia|by rewrite (hd_app_l _ _ 126 (pf_hd _ Hpf))].
  rewrite (prefix_extended v' x r' Hin). destruct r' as [|c r']; [done|]. rewrite (prefix_found v' x c r' Hin), Ec.
  fold v'. unfold prefix_with_extban. rewrite H3 by done. cbn [mbind option_bind]. unfold cut. by rewrite take_ge by lia.
Qed.

(** Minutes, written and read. *)
Lemma duration_ok d :
  0 < d <= 9999 ->
  c_atoi (print_int d) = d /\ printables (print_int d) /\ ch_colon ∉ print_int d /\ (length (print_int d) <= 4)%nat.
Proof using Type.
  intros Hd. destruct (print_u32_ok d ltac:(lia)) as (H1 & H2 & _ & _). split; [|split; [|split]].
  - unfold c_atoi. rewrite atoi_digits, H2 by done. unfold to_int. rewrite Z.min_r, Z.max_r by lia.
    rewrite Z.mod_small by lia. lia.
  - eapply Forall_impl; [exact H1|]. unfold printable. simpl. lia.
  - intros H. rewrite Forall_forall in H1. specialize (H1 _ H). simpl in H1. lia.
  - unfold print_int. rewrite (proj2 (Z.ltb_ge d 0)) by lia. cbn [decimal]. repeat case_match; simpl; rewrite ?length_app; simpl; try lia.
    all: rewrite ?Z.ltb_lt, ?Z.ltb_ge in *; Z.div_mod_to_equations; lia.
Qed.

Lemma time_stable g clean :
  stable_conv g clean ->
  stable_conv (g + 3) (fun s =>
    '(durationstr, matchby) ← split_para (MAX_LENGTH + 1) s;
    let duration := c_atoi durationstr in
    if (duration <=? 0) || (TIMEDBAN_MAX_TIME <? duration) then None
    else newmask ← clean matchby;
         if (length newmask <=? 1)%nat then None else Some (cut (MAX_LENGTH + 1) (print_int duration ++ [ch_colon] ++ newmask))).
Proof using Type.
  intros Hclean s r Hp Hne Hl. destruct (split_para (MAX_LENGTH + 1) s) as [[d m]|] eqn:Es; [|done]. cbn [mbind option_bind]. cbv zeta.
  apply split_para_some in Es as (-> & Hn & Hm); [|unfold MAX_LENGTH; lia].
  apply Forall_app in Hp as [Hpt [Hpc Hpm]%Forall_cons]. rewrite length_app in Hl. cbn [length] in Hl.
  destruct (_ || _) eqn:Ed; [done|]. apply orb_false_iff in Ed as [Ed1%Z.leb_gt Ed2%Z.ltb_ge]. unfold TIMEDBAN_MAX_TIME in Ed2.
  assert (Hd : d <> []) by (intros ->; vm_compute in Ed1; done). assert (1 <= length d)%nat by (destruct d; [done|simpl; lia]).
  destruct (duration_ok (c_atoi d) ltac:(lia)) as (D1 & D2 & D3 & D4). set (x := c_atoi d) in *.
  destruct (clean m) as [nm|] eqn:Ec; [|done]. cbn [mbind option_bind].
  destruct (Hclean m nm Hpm Hm ltac:(lia) Ec) as (H1 & H2 & H3). destruct (Nat.leb_spec (length nm) 1) as [Hs|Hs]; [done|].
  assert (Hnm : nm <> []) by (by intros ->; simpl in Hs; lia).
  assert (Hcut : cut (MAX_LENGTH + 1) (print_int x ++ [ch_colon] ++ nm) = print_int x ++ ch_colon :: nm).
  { unfold cut, MAX_LENGTH. rewrite take_ge; [done|]. rewrite !length_app. cbn [length]. lia. }
  rewrite Hcut. intros Hr%(inj Some). subst r. split; [apply Forall_app; split; [done|by constructor]|].
  rewrite !length_app. cbn [length]. split; [lia|]. intros Hlast.
  assert (split_para (MAX_LENGTH + 1) (print_int x ++ ch_colon :: nm) = Some (print_int x, nm)) as ->.
  { apply split_para_some; [rewrite length_app; cbn [length]; unfold MAX_LENGTH; lia|done]. }
  cbn [mbind option_bind]. rewrite D1, (proj2 (Z.leb_gt x 0)), (proj2 (Z.ltb_ge TIMEDBAN_MAX_TIME x)) by (unfold TIMEDBAN_MAX_TIME; lia). cbn [orb].
  rewrite H3.
  - cbn [mbind option_bind]. rewrite (proj2 (Nat.leb_gt (length nm) 1)) by lia. by rewrite Hcut.
  - rewrite (last_app_r _ (ch_colon :: nm)) in Hlast by done. change (ch_colon :: nm) with ([ch_colon] ++ nm) in Hlast. by rewrite last_app_r in Hlast.
Qed.

(** All callbacks, for as many levels as there are. *)
Lemma conv_param_stable fuel nested timed v f : stable_conv (16 * fuel - 7) (conv_param K fuel nested timed v f).
Proof using HK.
  revert nested timed v f. induction fuel as [|fuel IH]; intros nested timed v f; [by intros s r|].
  assert (Hnext : (13 <= 16 * S fuel - 10)%nat \/ forall nested timed v f s, conv_param K fuel nested timed v f s = None).
  { destruct fuel; [by right|left; lia]. }
  assert (Hnoe : stable_conv (16 * S fuel - 10) (conv_nuh_or_extban K nested (conv_param K fuel true timed v) v)).
  { apply nuh_or_extban_stable; [|lia|destruct Hnext; auto]. intros f'. eapply stable_mono; [|apply IH]. lia. }
  assert (Hleaf : forall f', stable_conv (16 * S fuel - 7) (conv_leaf K v f')).
  { intros f' s r Hp Hne Hl Hr. destruct (conv_leaf_stable K v f' s r Hp Hne ltac:(lia) Hr) as (H1 & H2 & H3).
    split; [done|]. split; [lia|done]. }
  destruct f; try exact (Hleaf _).
  - eapply stable_mono; [|exact Hnoe]. lia.
  - apply (stable_mono (16 * S fuel - 10)); [lia|].
    eapply stable_ext; [|apply (with_type_stable _ _ msgbypass_extban_type_ok Hnoe)]. intros s. cbn [conv_param]. unfold_stacked.
    destruct (split_para _ s) as [[type m]|]; [|done]. cbn [mbind option_bind]. by destruct (msgbypass_extban_type_ok type).
  - apply (stable_mono (16 * S fuel - 10)); [lia|].
    eapply stable_ext; [|apply (with_type_stable _ _ (fun type => negb (16 <? length type)%nat) Hnoe)]. intros s. cbn [conv_param]. unfold_stacked.
    destruct (split_para _ s) as [[type m]|]; [|done]. cbn [mbind option_bind]. by destruct (16 <? length type)%nat.
  - apply (stable_mono (16 * S fuel - 10)); [lia|].
    eapply stable_ext; [|apply (with_type_stable _ _ (valid_channelname (k_channelchars K)) Hnoe)]. intros s. cbn [conv_param]. unfold_stacked.
    destruct (split_para _ s) as [[type m]|]; [|done]. cbn [mbind option_bind]. by destruct (valid_channelname (k_channelchars K) type).
  - destruct timed; [by intros s r|]. replace (16 * S fuel - 7)%nat with (16 * S fuel - 10 + 3)%nat by lia.
    apply time_stable, generic_clean_stable; [|lia|destruct Hnext; auto]. intros v' f'. eapply stable_mono; [|apply IH]. lia.
Qed.
End shipped.

(** ** What is stored is printable *)

Section printable.
Context (K : conv_env) (HK : text_table (k_table K)).

Definition printable_conv (conv : cstring -> option cstring) : Prop :=
  forall s r, printables s -> conv s = Some r -> printables r.

Lemma cut_printable n s : printables s -> printables (cut n s).
Proof using Type. apply Forall_take. Qed.

Lemma leaf_printable v f : printable_conv (conv_leaf K v f).
Proof using Type.
  intros s r Hp. pose proof (fun n => Forall_take printable n s Hp) as Ht.
  assert (Hcpy : forall n, (0 < n)%nat -> printables (strlcpy [] s n).1) by (intros n Hn; by rewrite strlcpy_take).
  destruct f; try done; unfold_leaf.
  - specialize (Hcpy (50 + 8)%nat ltac:(lia)). destruct (strlcpy [] s (50 + 8)).1 as [|c w] eqn:E; [done|].
    apply (Forall_take _ 50) in Hcpy. destruct (take 50 (c :: w)) as [|d t]; [done|]. apply Forall_cons in Hcpy as [Hd Ht'].
    intros [= <-]. constructor; [case_match; unfold printable in *; lia|done].
  - specialize (Hcpy (NICKLEN + 4)%nat ltac:(lia)). destruct (strlcpy [] s (NICKLEN + 4)).1; [done|]. by intros [= <-].
  - intros [= <-]. apply map_fold_case; auto with lia.
  - intros [= <-]. apply map_fold_case; auto with lia.
  - destruct (negb (isdigit (hd 0 s))); [done|]. destruct (forallb decimal_digit s); [|done]. intros [= <-]. apply cut_printable.
    assert (Hx : 0 <= strtoul_u32 s < 2 ^ 32) by (apply Z.mod_pos_bound; lia). destruct (print_u32_ok _ Hx) as (Hd & _).
    eapply Forall_impl; [exact Hd|]. unfold printable. simpl. lia.
  - intros [= <-]. specialize (Hcpy (64 + 4)%nat ltac:(lia)). set (p := fun c => valid_operclass_character c || _).
    destruct (span_prefix p (strlcpy [] s (64 + 4)).1) as [t E]. rewrite E in Hcpy. by apply Forall_app in Hcpy as [? _].
  - specialize (Hcpy (CHANNELLEN + 6)%nat ltac:(lia)). set (w := (strlcpy [] s (CHANNELLEN + 6)).1) in *. case_match; [done|].
    case_match; [done|]. destruct (strchr ch_colon (skip_symbol w)) as [[a b]|] eqn:Es; intros [= <-]; [|done].
    apply Forall_app. split; [by apply Forall_take|]. apply strchr_some in Es as [Es _].
    assert (Hs : printables (skip_symbol w)) by (unfold skip_symbol; case_match; [|done]; destruct w; [done|by apply Forall_cons in Hcpy as [_ ?]]).
    rewrite Es in Hs. by apply Forall_app in Hs as [? _].
  - specialize (Hcpy (48 + 8)%nat ltac:(lia)). set (w := (strlcpy [] s (48 + 8)).1) in *. cbv zeta.
    destruct (extban_securitygroup_generic None w); [|done]. intros H%(inj Some). by subst r.
  - specialize (Hcpy (150 + 1)%nat ltac:(lia)). destruct (strchr ch_colon (strlcpy [] s (150 + 1)).1) as [[a t]|] eqn:Es; [|done].
    assert (Hpt : printables t). { apply strchr_some in Es as [Es _]. rewrite Es in Hcpy. by apply Forall_app in Hcpy as [_ [_ ?]%Forall_cons]. }
    destruct t as [|c0 t0] eqn:Et; [done|]. rewrite <- Et in *. clear Et. cbv zeta.
    assert (Hast : printables (conv_pattern_asterisks t)).
    { unfold conv_pattern_asterisks. apply cut_printable. repeat (apply Forall_app; split); [|done|].
      - case_match; repeat constructor; unfold printable; lia.
      - destruct t; [constructor|]. case_match; repeat constructor; unfold printable; lia. }
    destruct (strcasecmp a (str "block") =? 0); [|destruct (strcasecmp a (str "censor") =? 0); [destruct (censor_text_ok t); [|done]|done]].
    all: cbn [mbind option_bind]; case_match; [done|]; intros Hr%(inj Some); subst r; apply cut_printable, Forall_app;
      split; [repeat constructor|constructor; [unfold printable; lia|done]].
  - specialize (Hcpy (CHANNELLEN + 1)%nat ltac:(lia)). set (w := (strlcpy [] s (CHANNELLEN + 1)).1) in *. cbv zeta.
    repeat case_match; try done; intros Hr%(inj Some); by subst r.
Qed.

Lemma nuh_printable : printable_conv extban_conv_param_nuh.
Proof using Type.
  intros s r Hp. unfold extban_conv_param_nuh. rewrite strlcpy_take by (vm_compute; lia). intros Hr.
  apply (convert_final _ _ (Forall_take _ _ _ Hp) Hr).
Qed.

Lemma prefix_printable v x n r : x ∈ k_table K -> printables r -> printables (cut n (extban_prefix K v x ++ r)).
Proof using HK. intros Hx Hr. apply cut_printable, Forall_app. split; [by apply (prefix_ok K HK v x Hx)|done]. Qed.

Lemma nuh_or_extban_printable nested inner v :
  (forall f, printable_conv (inner f)) -> printable_conv (conv_nuh_or_extban K nested inner v).
Proof using HK.
  intros Hi s r Hp. unfold conv_nuh_or_extban. destruct (is_extended_ban s); cbn [negb]; [|by apply nuh_printable].
  destruct nested; [done|]. rewrite strlcpy_take by lia. pose proof (Forall_take _ (MAXBANLEN + 1 - 1) _ Hp) as Ht.
  destruct (findmod_by_bantype (k_table K) _) as [[x|] [next|]] eqn:Ef; try (intros H%(inj Some); by subst r).
  destruct (found_in_table K HK _ _ _ Ef) as (Hin & _ & _ & Hnp). destruct (_ || _); [done|].
  destruct (x_conv_param x) as [f|]; [|done]. cbn [mbind option_bind]. unfold prefix_with_extban.
  destruct (inner f next) as [r'|] eqn:Ei; [|done]. cbn [mbind option_bind]. intros H%(inj Some). subst r.
  apply prefix_printable; [done|]. eapply Hi; [|exact Ei]. by apply Hnp.
Qed.

Lemma split_para_printable n s type m : (0 < n)%nat -> printables s -> split_para n s = Some (type, m) -> printables type /\ printables m.
Proof using Type.
  intros Hn Hp. unfold split_para. rewrite strlcpy_take by done. pose proof (Forall_take _ (n - 1) _ Hp) as Ht.
  destruct (strchr ch_colon (take (n - 1) s)) as [[a b]|] eqn:Es; [|done]. apply strchr_some in Es as [Es _]. rewrite Es in Ht.
  apply Forall_app in Ht as [Ha [_ Hb]%Forall_cons]. destruct b; [done|]. by intros [= <- <-].
Qed.

Lemma with_type_printable inner type m r :
  printable_conv inner -> printables type -> printables m -> with_type type (inner m) = Some r -> printables r.
Proof using Type.
  intros Hi Ht Hm. unfold with_type. destruct (inner m) as [[|c w]|] eqn:Ei; try done. intros H%(inj Some). subst r.
  apply cut_printable, Forall_app. split; [done|]. constructor; [unfold printable; lia|]. by eapply Hi.
Qed.

(** The text that both cleaning routines look at. *)
Lemma before_space s : cstr s -> existsb (fun c => c <=? ch_space) s = false -> printables s.
Proof using Type.
  intros Hs Hn. apply Forall_forall. intros c Hc. unfold cstr in Hs. rewrite Forall_forall in Hs. specialize (Hs c Hc).
  assert (c <=? ch_space = false). { destruct (c <=? ch_space) eqn:E; [|done]. rewrite <- Hn. symmetry. apply existsb_exists. exists c. split; [by apply list_elem_of_In|done]. }
  unfold printable, byte_ok in *. lia.
Qed.

Lemma generic_printable inner v :
  (forall v f, printable_conv (inner v f)) -> printable_conv (generic_clean_ban_mask K inner v).
Proof using HK.
  intros Hi s r Hp. unfold generic_clean_ban_mask. rewrite strlcpy_take by lia. pose proof (Forall_take _ (512 - 1) _ Hp) as Ht.
  rewrite strchr_space by done. destruct (skip_colons_ok _ Ht) as [Hm _]. set (mask := skip_while _ _) in *.
  case_bool_decide; [done|]. rewrite no_low by done. destruct (is_extended_ban mask); [|intros Hr; by apply (convert_final _ _ Hm Hr)].
  destruct (findmod_by_bantype (k_table K) mask) as [[x|] [next|]] eqn:Ef; try done.
  destruct (found_in_table K HK _ _ _ Ef) as (Hin & _ & _ & Hnp). destruct (x_conv_param x) as [f|].
  - unfold prefix_with_extban. destruct (inner _ f next) as [r'|] eqn:Ei; [|done]. cbn [mbind option_bind]. intros Hr%(inj Some). subst r.
    apply prefix_printable; [done|]. eapply Hi; [|exact Ei]. by apply Hnp.
  - case_match; [done|]. intros Hr%(inj Some). subst r. by apply Forall_take.
Qed.

Lemma conv_param_printable fuel nested timed v f : printable_conv (conv_param K fuel nested timed v f).
Proof using HK.
  revert nested timed v f. induction fuel as [|fuel IH]; intros nested timed v f; [by intros s r|].
  pose proof (nuh_or_extban_printable nested (conv_param K fuel true timed v) v (IH true timed v)) as Hnoe.
  destruct f; try exact (leaf_printable v _); intros s r Hp; cbn [conv_param]; unfold_stacked.
  - by apply Hnoe.
  - destruct (split_para _ s) as [[type m]|] eqn:Es; [|done]. cbn [mbind option_bind]. case_match; [done|].
    apply split_para_printable in Es as [? ?]; [|lia|done]. by apply with_type_printable.
  - destruct (split_para _ s) as [[type m]|] eqn:Es; [|done]. cbn [mbind option_bind]. case_match; [done|].
    apply split_para_printable in Es as [? ?]; [|lia|done]. by apply with_type_printable.
  - destruct (split_para _ s) as [[type m]|] eqn:Es; [|done]. cbn [mbind option_bind]. case_match; [done|].
    apply split_para_printable in Es as [? ?]; [|lia|done]. by apply with_type_printable.
  - destruct timed; [done|]. destruct (split_para _ s) as [[d m]|] eqn:Es; [|done]. cbn [mbind option_bind]. cbv zeta.
    destruct (_ || _) eqn:Ed; [done|]. apply orb_false_iff in Ed as [Ed1%Z.leb_gt Ed2%Z.ltb_ge]. unfold TIMEDBAN_MAX_TIME in Ed2.
    apply split_para_printable in Es as [_ Hm]; [|lia|done]. destruct (generic_clean_ban_mask K _ v m) as [nm|] eqn:Eg; [|done].
    cbn [mbind option_bind]. case_match; [done|]. intros H'%(inj Some). subst r. apply cut_printable, Forall_app.
    split; [by apply duration_ok|]. constructor; [unfold printable; lia|]. eapply generic_printable; [|done|exact Eg]. intros v' f'. apply IH.
Qed.

(** *** The cleaning of a text without a blank in it *)

Definition clean_text (v : conv_ctx) (mask : cstring) : option cstring :=
  if is_extended_ban mask then
    match findmod_by_bantype (k_table K) mask with
    | (Some x, Some next) =>
        f ← x_conv_param x; ret ← prefix_with_extban K (conv_param K 3 false false v f next) v x 512; Some (take MAXBANLEN ret)
    | _ =>
        if bool_decide (v_what v = MODE_ADD) && match strchr ch_colon mask with Some (_, []) => true | _ => false end then None
        else if negb (v_my_user v) || bool_decide (v_what v = MODE_DEL)
        then Some (if bool_decide (v_what v = MODE_ADD) then take MAXBANLEN mask else mask)
        else None
    end
  else convert_regular_ban mask NUH_BUFLEN.

Lemma clean_text_eq v mask :
  printables mask ->
  (if is_extended_ban mask then
     match findmod_by_bantype (k_table K) mask with
     | (Some x, Some next) =>
         match x_conv_param x with
         | Some f => ret ← prefix_with_extban K (conv_param K 3 false false v f next) v x 512; Some (take MAXBANLEN ret)
         | None => if negb (nth 1 mask 0 =? ch_colon) || (length mask =? 2)%nat then None else Some (take 80 mask)
         end
     | _ =>
         if bool_decide (v_what v = MODE_ADD) && match strchr ch_colon mask with Some (_, []) => true | _ => false end then None
         else if negb (v_my_user v) || bool_decide (v_what v = MODE_DEL)
         then Some (if bool_decide (v_what v = MODE_ADD) then take MAXBANLEN mask else mask)
         else None
     end
   else convert_regular_ban mask NUH_BUFLEN) = clean_text v mask.
Proof using HK.
  intros Hp. unfold clean_text. destruct (is_extended_ban mask); [|done].
  destruct (findmod_by_bantype (k_table K) mask) as [[x|] [next|]] eqn:Ef; try done.
  destruct (found_in_table K HK _ _ _ Ef) as (Hin & _). destruct (prefix_ok K HK v x Hin) as [_ [f ->]]. done.
Qed.

(** What is cleaned is the text before the first blank, without leading colons. *)
Lemma clean_inv v m r :
  cstr m -> clean_ban_mask K v m = Some r ->
  exists t, printables t /\ hd 0 t <> ch_colon /\ (length t <= length m)%nat /\ (length t <= 511)%nat /\ clean_text v t = Some r.
Proof using HK.
  intros Hm. unfold clean_ban_mask. destruct (skip_colons m) as [k Hk]. pose proof (skip_colons_hd m) as Hh.
  set (w := skip_while (Z.eqb ch_colon) m) in *. destruct w as [|c w'] eqn:Ew; [done|]. specialize (Hh ltac:(done)). rewrite <- Ew in *.
  clear Ew. cbv zeta. rewrite strlcpy_take by lia. set (u := take (512 - 1) w).
  set (t := match strchr ch_space u with Some (a, _) => a | None => u end).
  assert (Ht : exists b, u = t ++ b).
  { subst t. destruct (strchr ch_space u) as [[a b]|] eqn:Es; [|exists []; by rewrite app_nil_r].
    apply strchr_some in Es as [Es _]. by eexists. }
  destruct Ht as [b Hb]. assert (Hcw : cstr w) by (rewrite Hk in Hm; by apply Forall_app in Hm as [_ ?]).
  assert (Hct : cstr t). { pose proof (Forall_take byte_ok (512 - 1) w Hcw) as Hu. change (cstr u) in Hu. rewrite Hb in Hu. by apply Forall_app in Hu as [? _]. }
  assert (Hlw : (length w <= length m)%nat) by (rewrite Hk, length_app; lia).
  assert (Hlu : (length t + length b = min 511 (length w))%nat) by (rewrite <- length_app, <- Hb; subst u; by rewrite length_take).
  assert (Hl : (length t <= length m /\ length t <= 511)%nat) by lia.
  destruct (existsb (fun c => c <=? ch_space) t) eqn:El; [done|]. pose proof (before_space t Hct El) as Hp.
  intros Hr. rewrite clean_text_eq in Hr by done. exists t. split; [done|]. split; [|tauto].
  destruct t as [|d t]; [done|]. subst u. destruct w as [|d' w]; [done|].
  cbn in Hb. injection Hb as -> _. exact Hh.
Qed.

Lemma clean_fix v t :
  printables t -> hd 0 t <> ch_colon -> t <> [] -> (length t <= 511)%nat -> clean_ban_mask K v t = clean_text v t.
Proof using HK.
  intros Hp Hh Hne Hl. unfold clean_ban_mask. rewrite skip_colons_id by done. destruct t as [|c t'] eqn:Et; [done|]. rewrite <- Et in *.
  clear Et Hne. cbv zeta. rewrite strlcpy_take by lia. rewrite (take_ge t) by lia. rewrite strchr_space, no_low by done. by apply clean_text_eq.
Qed.

(** A text that is not an extended ban, *)
Lemma clean_regular v t r :
  printables t -> hd 0 t <> ch_colon -> is_extended_ban t = false -> clean_text v t = Some r ->
  printables r /\ r <> [] /\ hd 0 r <> ch_colon /\ (length r <= 105)%nat /\ clean_ban_mask K v r = Some r.
Proof using HK.
  intros Hp Hh Hx Hr. unfold clean_text in Hr. rewrite Hx in Hr. destruct (convert_stable _ _ Hp Hr) as (Hf & Hst & Hl).
  assert (Hne : r <> []). { destruct (fm_parts _ _ Hf) as (n & u & h & -> & _). unfold nuh. by destruct n. }
  pose proof (final_hd _ _ Hf Hh) as Hrh. pose proof (fm_printable _ _ Hf) as Hrp. repeat (split; [done|]).
  rewrite clean_fix by (done || lia). unfold clean_text. by rewrite (final_not_extended _ _ Hf Hx).
Qed.

(** one that is, whose type is known, *)
Lemma clean_known v t x next r :
  printables t -> (length t <= 511)%nat -> is_extended_ban t = true -> findmod_by_bantype (k_table K) t = (Some x, Some next) ->
  clean_text v t = Some r ->
  printables r /\ hd 0 r = 126 /\ (length r <= MAXBANLEN)%nat /\
  ((length t <= 90)%nat -> last r <> Some ch_colon -> clean_ban_mask K v r = Some r).
Proof using HK.
  intros Hp Hl Hx Ef. unfold clean_text. rewrite Hx, Ef. destruct (found_in_table K HK _ _ _ Ef) as (Hin & Hnn & Hnl & Hnp).
  specialize (Hnp Hp). destruct (prefix_ok K HK v x Hin) as [Hpf [f Ec]]. rewrite Ec. cbn [mbind option_bind]. unfold prefix_with_extban.
  destruct (conv_param K 3 false false v f next) as [r'|] eqn:Ei; [|done]. cbn [mbind option_bind]. intros Hr%(inj Some).
  pose proof (conv_param_printable _ _ _ _ _ _ _ Hnp Ei) as Hrp'. split; [subst r; by apply Forall_take, prefix_printable|].
  pose proof (pf_hd _ Hpf) as Hhd. split.
  { subst r. unfold MAXBANLEN, cut, extban_prefix. done. }
  split; [subst r; rewrite length_take; lia|]. intros Hl90 Hlast.
  destruct (conv_param_stable K HK 3 false false v f next r' Hnp Hnn ltac:(lia) Ei) as (H1 & H2 & H3).
  destruct (prefixed K HK v x next t r' Hin Hnl H1) as (P1 & P2 & P3). unfold cut in Hr.
  assert (MAXBANLEN = 200%nat) by done.
  rewrite !take_ge in Hr by (rewrite ?length_take; lia). subst r. destruct (P3 Hlast) as [Hrne Hrl].
  rewrite clean_fix; [|done|by rewrite (hd_app_l _ _ 126 Hhd)|by destruct r', (extban_prefix K v x)|lia].
  unfold clean_text. rewrite (prefix_extended K v x r' Hin). destruct r' as [|c r']; [done|].
  rewrite (prefix_found K HK v x c r' Hin), Ec. cbn [mbind option_bind]. unfold prefix_with_extban. rewrite H3 by done.
  cbn [mbind option_bind]. unfold cut. by rewrite !take_ge by (rewrite ?length_take; lia).
Qed.

(** and one whose type is not. *)
Lemma clean_unknown v t r :
  printables t -> (length t <= 511)%nat -> is_extended_ban t = true ->
  (forall x next, findmod_by_bantype (k_table K) t <> (Some x, Some next)) -> clean_text v t = Some r ->
  printables r /\ hd 0 r = 126 /\ (v_what v = MODE_ADD -> (length r <= MAXBANLEN)%nat) /\ (length r <= length t)%nat /\
  ((length t <= 90)%nat -> clean_ban_mask K v r = Some r).
Proof using HK.
  intros Hp Hl Hx Ef Hr. assert (MAXBANLEN = 200%nat) by done.
  assert (Hr' : r = if bool_decide (v_what v = MODE_ADD) then take MAXBANLEN t else t).
  { unfold clean_text in Hr. rewrite Hx in Hr. destruct (findmod_by_bantype (k_table K) t) as [[x|] [next|]]; try (by edestruct Ef);
      destruct (_ && _); try done; destruct (_ || _); try done; by apply (inj Some) in Hr. }
  assert (Hhd : hd 0 t = 126). { destruct t as [|c t]; [done|]. unfold is_extended_ban in Hx. apply andb_prop in Hx as [Hx%Z.eqb_eq _]. done. }
  assert (Ht : t <> []) by (intros ->; done).
  split; [subst r; case_bool_decide; [by apply Forall_take|done]|].
  split; [subst r; case_bool_decide; [|done]; by destruct t|].
  split; [intros Ha; subst r; rewrite bool_decide_eq_true_2 by done; rewrite length_take; lia|].
  split; [subst r; case_bool_decide; [rewrite length_take|]; lia|].
  intros H90. assert (r = t) as ->. { subst r. case_bool_decide; [apply take_ge; lia|done]. }
  rewrite clean_fix; [done|done|by rewrite Hhd|done|done].
Qed.
(** The three cases together: the shape of a result, *)
Lemma clean_shape v m r :
  cstr m -> clean_ban_mask K v m = Some r ->
  printables r /\ r <> [] /\ hd 0 r <> ch_colon /\ (v_what v = MODE_ADD -> (length r <= MAXBANLEN)%nat).
Proof using HK.
  intros Hm Hr. apply clean_inv in Hr as (t & Hp & Hh & Hl & Hl' & Hr); [|done]. assert (MAXBANLEN = 200%nat) by done.
  assert (Hne : forall r, hd 0 r = 126 -> r <> [] /\ hd 0 r <> ch_colon) by (by intros [|c w]; simpl; [|intros ->]).
  destruct (is_extended_ban t) eqn:Hx.
  2: { destruct (clean_regular v t r) as (H1 & H2 & H3 & H4 & H5); [done..|]. do 3 (split; [done|]). lia. }
  destruct (findmod_by_bantype (k_table K) t) as [[x|] [next|]] eqn:Ef.
  1: { destruct (clean_known v t x next r) as (H1 & H2 & H3 & H4); [done..|]. destruct (Hne r H2). do 3 (split; [done|]). done. }
  all: destruct (clean_unknown v t r) as (H1 & H2 & H3 & H4 & H5); [done..|by rewrite Ef|done|]; destruct (Hne r H2); done.
Qed.

(** its length when the text was not longer than an entry, *)
Lemma clean_length v m r :
  cstr m -> clean_ban_mask K v m = Some r -> (length m <= MAXBANLEN)%nat -> (length r <= MAXBANLEN)%nat.
Proof using HK.
  intros Hm Hr Hlm. apply clean_inv in Hr as (t & Hp & Hh & Hl & Hl' & Hr); [|done]. assert (MAXBANLEN = 200%nat) by done.
  destruct (is_extended_ban t) eqn:Hx.
  2: { destruct (clean_regular v t r) as (H1 & H2 & H3 & H4 & H5); [done..|]. lia. }
  destruct (findmod_by_bantype (k_table K) t) as [[x|] [next|]] eqn:Ef.
  1: { destruct (clean_known v t x next r) as (H1 & H2 & H3 & H4); [done..|]. done. }
  all: destruct (clean_unknown v t r) as (H1 & H2 & H3 & H4 & H5); [done..|by rewrite Ef|done|]; lia.
Qed.

(** and cleaning it again. *)
Lemma clean_again v m r :
  cstr m -> clean_ban_mask K v m = Some r -> (length m <= 90)%nat \/ hd 0 r <> 126 -> last r <> Some ch_colon ->
  clean_ban_mask K v r = Some r.
Proof using HK.
  intros Hm Hr. apply clean_inv in Hr as (t & Hp & Hh & Hl & Hl' & Hr); [|done].
  destruct (is_extended_ban t) eqn:Hx.
  2: { destruct (clean_regular v t r) as (H1 & H2 & H3 & H4 & H5); done. }
  destruct (findmod_by_bantype (k_table K) t) as [[x|] [next|]] eqn:Ef.
  1: { destruct (clean_known v t x next r) as (H1 & H2 & H3 & H4); [done..|]. intros [?|?]; [apply H4; lia|done]. }
  all: destruct (clean_unknown v t r) as (H1 & H2 & H3 & _ & H4); [done..|by rewrite Ef|done|]; intros [?|?]; [intros _; apply H4; lia|done].
Qed.
End printable.

(** C13: a cleaned mask is printable text of at least one byte that does not start
    with a colon, so that it can be sent as a parameter, and in an addition it fits
    into the buffers of a list entry; a cleaned mask that is cleaned again, as every
    server does that it is sent to, comes out as it is, but for an extended ban that
    lost its parameter in the cleaning and one that was longer than 90 bytes before. *)
Theorem clean_ban_mask_canonical K v m r :
  text_table (k_table K) -> cstr m -> clean_ban_mask K v m = Some r ->
  printables r /\ r <> [] /\ hd 0 r <> ch_colon /\ (v_what v = MODE_ADD -> (length r <= MAXBANLEN)%nat) /\
  ((length m <= 90)%nat \/ hd 0 r <> 126 -> last r <> Some ch_colon -> clean_ban_mask K v r = Some r).
Proof.
  intros HK Hm Hr. destruct (clean_shape K HK v m r Hm Hr) as (H1 & H2 & H3 & H4). do 4 (split; [done|]).
  by apply (clean_again K HK v m r).
Qed.

Lemma clean_ban_mask_canonical_witness :
  let r := str "~time:5:~quiet:nick!*@*" in
  clean_ban_mask example_conv_env example_conv_ctx (str "~t:05:~q:nick") = Some r /\
  clean_ban_mask example_conv_env example_conv_ctx r = Some r.
Proof.
  assert (H : clean_ban_mask example_conv_env example_conv_ctx (str "~t:05:~q:nick") = Some (str "~time:5:~quiet:nick!*@*"))
    by (vm_compute; reflexivity).
  split; [exact H|].
  destruct (clean_ban_mask_canonical example_conv_env example_conv_ctx (str "~t:05:~q:nick") (str "~time:5:~quiet:nick!*@*")) as (_ & _ & _ & _ & Hs).
  - exact extbans_text_table.
  - repeat constructor; unfold byte_ok; lia.
  - exact H.
  - apply Hs; [left; vm_compute; lia|vm_compute; discriminate].
Defined.
