(* ===== verification/BanMode.v ===== *)
(** * Setting and removing channel bans (src/modules/mode.c, src/api-extban.c, modules/extbans/)

    [mode_ban_handler] carries out +b, +e, +I and their removal: the mask is cleaned,
    the module of an extended ban is asked whether the client may set it ([is_ok], for
    local users only), and the list of the channel is changed.  What the handler
    returns goes to the other servers, which run it with the text they receive. *)
From S2P Require Import Prelude Chars Strings Client Hash ChanMode Bans Crule CruleFuncs CruleSpec Badwords User MatchUser Extban BanMask.

(** ** The [is_ok] callbacks *)

Inductive ExtbanCheck := EXBCHK_ACCESS | EXBCHK_ACCESS_ERR | EXBCHK_PARAM.

#[export] Instance ExtbanCheck_eq_dec : EqDecision ExtbanCheck.
Proof. solve_decision. Defined.

#[export] Instance ExtbanType_eq_dec : EqDecision ExtbanType.
Proof. solve_decision. Defined.

(** The fields of [BanContext] that the callbacks read, apart from the text; the
    client is there and so is the channel. *)
Record ok_ctx := MkOkCtx {
  o_my_user : bool;                 (** [MyUser(b->client)] *)
  o_oper : bool;                    (** [IsOper(b->client)] *)
  o_override : bool;                (** [ValidatePermissionsForPath("channel:override:mode:extban", ...)] *)
  o_channel : BanChannel;
  o_what : mode_what;
  o_ban_type : ExtbanType;
  o_check : ExtbanCheck
}.

(** The context of [clean_ban_mask] for the same client and channel. *)
Definition conv_of (o : ok_ctx) : conv_ctx :=
  MkConvCtx (o_my_user o) (Some (o_channel o)) (o_what o) (o_ban_type o) false.

Section is_ok.
Context (K : conv_env) (securitygroups : list cstring).

Definition security_group_exists (name : cstring) : bool :=
  bool_decide (name = str "unknown-users") || existsb (fun g => strcasecmp name g =? 0) securitygroups.

Definition MAX_EXTBANT_PER_CHAN : nat := 15.

Definition counttextbans (ch : BanChannel) : nat :=
  length (base.filter (fun b => take 3 (banstr b) = str "~T:") (banlist ch)) +
  length (base.filter (fun b => take 3 (banstr b) = str "~T:") (exlist ch)).

Definition flood_type_ok (s : cstring) : bool :=
  bool_decide (s = str "*") || forallb (fun c => contains c (str "cjkmntr")) s.

Definition certfp_ok (o : ok_ctx) (banstr : cstring) : bool :=
  if bool_decide (o_check o = EXBCHK_PARAM) then (length banstr =? 64)%nat && forallb isxdigit banstr else true.

Definition country_ok (o : ok_ctx) (banstr : cstring) : bool :=
  if bool_decide (o_check o = EXBCHK_PARAM)
  then bool_decide (banstr = str "*") || ((length banstr =? 2)%nat && forallb isalpha banstr)
  else true.

Definition asn_ok (o : ok_ctx) (banstr : cstring) : bool :=
  if bool_decide (o_check o = EXBCHK_PARAM)
  then bool_decide (banstr = str "*") || (negb (bool_decide (banstr = [])) && forallb isdigit banstr)
  else true.

Definition inchannel_ok (o : ok_ctx) (banstr : cstring) : bool :=
  if bool_decide (o_check o = EXBCHK_PARAM) && o_my_user o && bool_decide (o_what o = MODE_ADD) && (3 <? length banstr)%nat
  then hd 0 (skip_symbol banstr) =? 35
  else true.

Definition securitygroup_ok (o : ok_ctx) (banstr : cstring) : bool :=
  if o_my_user o && bool_decide (o_what o = MODE_ADD) && bool_decide (o_check o = EXBCHK_PARAM)
  then extban_securitygroup_generic (Some security_group_exists) (strlcpy [] banstr (48 + 8)).1
  else true.

Definition modeT_ok (o : ok_ctx) : bool :=
  if bool_decide (o_what o = MODE_ADD) && bool_decide (o_ban_type o = EXBTYPE_EXCEPT) && o_my_user o then false
  else negb (bool_decide (o_what o = MODE_ADD) && bool_decide (o_check o = EXBCHK_PARAM) && o_my_user o &&
             negb (o_oper o) && (MAX_EXTBANT_PER_CHAN <=? counttextbans (o_channel o))%nat).

Definition inherit_ok (o : ok_ctx) (banstr : cstring) : bool :=
  if negb (bool_decide (o_check o = EXBCHK_PARAM)) then true
  else
    let retbuf := (strlcpy [] banstr (CHANNELLEN + 1)).1 in
    if negb (valid_channelname (k_channelchars K) retbuf) then false
    else if bool_decide (o_what o = MODE_ADD)
    then negb (smycmp retbuf (h_name (o_channel o)) =? 0) && negb (exceeds_inherit_ban_count K (conv_of o))
    else true.

Definition ok_leaf (o : ok_ctx) (f : is_ok_fn) (banstr : cstring) : bool :=
  match f with
  | extban_certfp_is_ok => certfp_ok o banstr
  | extban_country_is_ok => country_ok o banstr
  | extban_asn_is_ok => asn_ok o banstr
  | extban_inchannel_is_ok => inchannel_ok o banstr
  | extban_securitygroup_is_ok => securitygroup_ok o banstr
  | extban_modeT_is_ok => modeT_ok o
  | extban_inherit_is_ok => inherit_ok o banstr
  | _ => false
  end.

Definition ok_nuh_extban (nested : bool) (inner : is_ok_fn -> cstring -> bool) (o : ok_ctx) (banstr : cstring) : bool :=
  if is_extended_ban banstr then
    if nested then false
    else match findmod_by_bantype (k_table K) banstr with
         | (Some x, Some next) =>
             if has (x_options x) EXTBOPT_ACTMODIFIER || has (x_options x) EXTBOPT_NOSTACKCHILD then false
             else match x_is_ok x with Some f => inner f next | None => true end
         | _ => bool_decide (o_what o = MODE_DEL)
         end
  else true.

Definition generic_ban_is_ok (inner : is_ok_fn -> cstring -> bool) (o : ok_ctx) (banstr : cstring) : bool :=
  if (hd 0 banstr =? 126) && o_my_user o && is_extended_ban banstr then
    match findmod_by_bantype (k_table K) banstr with
    | (Some x, Some next) =>
        match x_is_ok x with
        | Some f => match o_check o with
                    | EXBCHK_PARAM => inner f next
                    | _ => inner f next || o_override o
                    end
        | None => true
        end
    | _ => true
    end
  else true.

Definition msgbypass_ok (nuh_extban : cstring -> bool) (o : ok_ctx) (banstr : cstring) : bool :=
  if bool_decide (o_what o = MODE_DEL) then true
  else if negb (bool_decide (o_ban_type o = EXBTYPE_EXCEPT)) then false
  else match split_para (MAX_LENGTH + 1) banstr with
       | None => false
       | Some (type, matchby) => msgbypass_extban_type_ok type && nuh_extban matchby
       end.

Definition flood_ok (nuh_extban : cstring -> bool) (o : ok_ctx) (banstr : cstring) : bool :=
  if bool_decide (o_what o = MODE_DEL) then true
  else if negb (bool_decide (o_ban_type o = EXBTYPE_EXCEPT)) then false
  else match split_para (MAX_LENGTH + 1) banstr with
       | None => false
       | Some (type, matchby) => flood_type_ok type && negb (16 <? length type)%nat && nuh_extban matchby
       end.

Definition link_ok (nuh_extban : cstring -> bool) (o : ok_ctx) (banstr : cstring) : bool :=
  if bool_decide (o_what o = MODE_DEL) then true
  else if negb (bool_decide (o_ban_type o = EXBTYPE_BAN)) then false
  else match split_para (MAX_LENGTH + 1) banstr with
       | None => false
       | Some (chan, matchby) => (hd 0 chan =? 35) && negb (contains 44 banstr) && nuh_extban matchby
       end.

Definition timedban_ok (timed : bool) (generic : cstring -> bool) (o : ok_ctx) (banstr : cstring) : bool :=
  if bool_decide (o_what o = MODE_DEL) then true
  else if timed then false
  else match split_para (MAX_LENGTH + 1) banstr with
       | None => false
       | Some (durationstr, matchby) =>
           let duration := c_atoi durationstr in
           negb ((duration <=? 0) || (TIMEDBAN_MAX_TIME <? duration)) &&
           generic matchby
       end.

(** [is_ok] of a module; [nested] and [timed] are [extban_is_ok_recursion] and
    [timedban_extban_is_ok_recursion]. *)
Fixpoint is_ok (fuel : nat) (nested timed : bool) (o : ok_ctx) (f : is_ok_fn) (banstr : cstring) : bool :=
  match fuel with
  | O => false
  | S fuel =>
      let nuh_extban := ok_nuh_extban nested (is_ok fuel true timed o) o in
      match f with
      | extban_is_ok_nuh_extban => nuh_extban banstr
      | msgbypass_extban_is_ok => msgbypass_ok nuh_extban o banstr
      | flood_extban_is_ok => flood_ok nuh_extban o banstr
      | extban_link_is_ok => link_ok nuh_extban o banstr
      | timedban_extban_is_ok => timedban_ok timed (generic_ban_is_ok (is_ok fuel nested true o) o) o banstr
      | f => ok_leaf o f banstr
      end
  end.

Definition with_check (o : ok_ctx) (c : ExtbanCheck) : ok_ctx :=
  MkOkCtx (o_my_user o) (o_oper o) (o_override o) (o_channel o) (o_what o) (o_ban_type o) c.

(** The access check of [mode_ban_handler]. *)
Definition ban_access (o : ok_ctx) (param tmpstr : cstring) : bool :=
  if o_my_user o && is_extended_ban param then
    match findmod_by_bantype (k_table K) tmpstr with
    | (Some x, Some next) =>
        if bool_decide (o_ban_type o = EXBTYPE_INVEX) && negb (has (x_options x) EXTBOPT_INVEX) then false
        else match x_is_ok x with
             | Some f =>
                 (is_ok 3 false false (with_check o EXBCHK_ACCESS) f next || o_override o) &&
                 is_ok 3 false false (with_check o EXBCHK_PARAM) f next
             | None => true
             end
    | _ => true
    end
  else true.

(** ** [mode_ban_handler] *)

(** The setter of an entry as [add_listmode] makes it: its name as it is stored, and
    whether the limit on the length of a list holds for it. *)
Record setter := MkSetter { s_by : cstring; s_limited : bool; s_time : Z }.

Definition put_list (t : ExtbanType) (ch : BanChannel) (l : list Ban) : BanChannel :=
  match t with
  | EXBTYPE_BAN => MkBanChannel (h_name ch) l (exlist ch) (invexlist ch)
  | EXBTYPE_EXCEPT => MkBanChannel (h_name ch) (banlist ch) l (invexlist ch)
  | EXBTYPE_INVEX => MkBanChannel (h_name ch) (banlist ch) (exlist ch) l
  | EXBTYPE_TKL => ch
  end.

(** The channel afterwards and the text for the MODE line; [None] of the outer option
    is the fault of comparing two empty masks. *)
Definition mode_ban_handler (MAXBANS : Z) (by_ : setter) (o : ok_ctx) (param : cstring) : option (BanChannel * option cstring) :=
  match clean_ban_mask K (conv_of o) param, list_of (o_ban_type o) (o_channel o) with
  | None, _ | Some [], _ => Some (o_channel o, None)
  | Some tmpstr, Some l =>
      if negb (ban_access o param tmpstr) then Some (o_channel o, None)
      else match o_what o with
           | MODE_ADD =>
               '(l', ret) ← add_listmode_ex MAXBANS (s_limited by_) l tmpstr (s_by by_) (s_time by_);
               Some (put_list (o_ban_type o) (o_channel o) l', if ret =? 1 then Some tmpstr else None)
           | MODE_DEL =>
               '(l', ret) ← del_listmode l tmpstr;
               Some (put_list (o_ban_type o) (o_channel o) l', if ret =? 0 then Some tmpstr else None)
           | MODE_NULL => Some (o_channel o, Some tmpstr)
           end
  | Some _, None => Some (o_channel o, None)
  end.
End is_ok.

(** ** What a handler does to a list *)

Section handler.
Context (K : conv_env) (HK : text_table (k_table K)) (G : list cstring) (M : Z).

(** The masks that are stored. *)
Lemma clean_mask_ok v m r : cstr m -> clean_ban_mask K v m = Some r -> (cstr r /\ r <> []) /\ (v_what v = MODE_ADD -> mask_ok r).
Proof using HK.
  intros Hm Hr. destruct (clean_shape K HK v m r Hm Hr) as (Hp & Hne & _ & Hl). assert (Hc : cstr r) by (eapply Forall_impl; [exact Hp|]; unfold printable, byte_ok; lia).
  split; [done|]. intros Ha. split; [done|]. split; [done|by apply Hl].
Qed.

Definition get_list (t : ExtbanType) (ch : BanChannel) : list Ban := default [] (list_of t ch).

Lemma get_put t ch l : t <> EXBTYPE_TKL -> get_list t (put_list t ch l) = l.
Proof using Type. by destruct t. Qed.

Lemma put_get t ch : put_list t ch (get_list t ch) = ch.
Proof using Type. by destruct t, ch. Qed.

Lemma handler_add by_ o param l r :
  list_of (o_ban_type o) (o_channel o) = Some l -> list_ok l -> cstr param -> setter_ok (s_by by_) -> 0 < s_time by_ ->
  o_what o = MODE_ADD -> clean_ban_mask K (conv_of o) param = Some r -> ban_access K G o param r = true ->
  let b := MkBan r (s_by by_) (s_time by_) in
  let refuse := full M (s_limited by_) (length l) && bool_decide (to_map l !! key r = None) in
  exists l', mode_ban_handler K G M by_ o param =
      Some (put_list (o_ban_type o) (o_channel o) l',
            if bool_decide (to_map l !! key r = None) && negb (full M (s_limited by_) (length l)) then Some r else None) /\
    list_ok l' /\ to_map l' = if refuse then to_map l else put (to_map l) b.
Proof using HK.
  intros Hl Hok Hp Hs Ht Ha Hc Hacc b refuse. destruct (clean_mask_ok _ _ _ Hp Hc) as [[Hrc Hrne] Hm]. specialize (Hm Ha).
  destruct (add_listmode_ex_spec M (s_limited by_) l r (s_by by_) (s_time by_) Hok Hm Hs Ht) as (l' & Hadd & Hok' & Hmap).
  exists l'. split; [|done]. unfold mode_ban_handler. rewrite Hc, Hl. destruct r as [|c r0]; [done|]. rewrite Hacc, Ha. cbn [negb].
  rewrite Hadd. cbn [mbind option_bind]. f_equal. f_equal. unfold put_code. cbn [banstr when_].
  destruct (to_map l !! key (c :: r0)) as [old|]; [rewrite bool_decide_false, andb_false_r by done; by destruct (when_ old <=? s_time by_)|].
  rewrite bool_decide_true, andb_true_r by done. by destruct (full M (s_limited by_) (length l)).
Qed.

Lemma handler_del by_ o param l r :
  list_of (o_ban_type o) (o_channel o) = Some l -> list_ok l -> cstr param ->
  o_what o = MODE_DEL -> clean_ban_mask K (conv_of o) param = Some r -> ban_access K G o param r = true ->
  exists l', mode_ban_handler K G M by_ o param =
      Some (put_list (o_ban_type o) (o_channel o) l', if bool_decide (to_map l !! key r = None) then None else Some r) /\
    list_ok l' /\ to_map l' = delete (key r) (to_map l).
Proof using HK.
  intros Hl Hok Hp Ha Hc Hacc. destruct (clean_mask_ok _ _ _ Hp Hc) as [Hr _].
  destruct (del_listmode_spec l r Hok Hr) as (l' & Hdel & Hok' & Hmap).
  exists l'. split; [|done]. unfold mode_ban_handler. rewrite Hc, Hl. destruct r as [|c r0]; [by destruct Hr|]. rewrite Hacc, Ha. cbn [negb].
  rewrite Hdel. cbn [mbind option_bind]. by case_bool_decide.
Qed.
End handler.

(** ** The same change on another server *)

Definition texts (l : list Ban) : list cstring := banstr <$> l.

(** Two servers have the same masks in the lists of a channel, in the same order;
    who set them and when may differ. *)
Definition same_texts (ch ch' : BanChannel) : Prop :=
  texts (banlist ch) = texts (banlist ch') /\ texts (exlist ch) = texts (exlist ch') /\ texts (invexlist ch) = texts (invexlist ch').

Lemma same_texts_lists t ch ch' l :
  same_texts ch ch' -> list_of t ch = Some l -> exists l', list_of t ch' = Some l' /\ texts l = texts l'.
Proof. intros (? & ? & ?). destruct t; simpl; intros [= <-]; eauto. Qed.

Lemma same_texts_put t ch ch' l l' :
  same_texts ch ch' -> texts l = texts l' -> same_texts (put_list t ch l) (put_list t ch' l').
Proof. intros (? & ? & ?) ?. by destruct t. Qed.

Section agree.
Context (K : conv_env).

(** Two contexts in which the conversions have the same results. *)
Record same_conv (v v' : conv_ctx) : Prop := {
  sc_what : v_what v = v_what v';
  sc_type : v_ban_type v = v_ban_type v';
  sc_letters : v_letters v = v_letters v';
  sc_channel : bool_decide (is_Some (v_channel v)) = bool_decide (is_Some (v_channel v'));
  sc_inherit : exceeds_inherit_ban_count K v = exceeds_inherit_ban_count K v'
}.

Lemma inherit_count_texts limit cnt l l' :
  texts l = texts l' -> inherit_count_loop limit cnt l = inherit_count_loop limit cnt l'.
Proof using Type.
  revert cnt l'. induction l as [|b l IH]; intros cnt [|b' l'] E; try done. injection E as Eb El. cbn [inherit_count_loop].
  rewrite Eb. destruct (skip_time (banstr b')) as [s|]; [|by apply IH]. destruct (is_inherit_entry s); [|by apply IH].
  destruct (limit <=? cnt + 1); [done|by apply IH].
Qed.

Lemma same_texts_conv ch ch' my my' what t :
  same_texts ch ch' -> same_conv (MkConvCtx my (Some ch) what t false) (MkConvCtx my' (Some ch') what t false).
Proof using Type.
  intros (H1 & H2 & H3). split; try done. unfold exceeds_inherit_ban_count. cbn [v_channel v_ban_type].
  destruct t; cbn [list_of]; try done; by apply inherit_count_texts.
Qed.

Lemma same_prefix v v' x : same_conv v v' -> extban_prefix K v x = extban_prefix K v' x.
Proof using Type. intros H. unfold extban_prefix. by rewrite (sc_letters _ _ H). Qed.

Lemma conv_leaf_agree v v' f s : same_conv v v' -> conv_leaf K v f s = conv_leaf K v' f s.
Proof using Type.
  intros H. destruct f; try reflexivity. unfold_leaf. by rewrite (sc_what _ _ H), (sc_channel _ _ H), (sc_inherit _ _ H).
Qed.

Lemma nuh_or_extban_agree nested inner inner' v v' s :
  same_conv v v' -> (forall f s, inner f s = inner' f s) -> conv_nuh_or_extban K nested inner v s = conv_nuh_or_extban K nested inner' v' s.
Proof using Type.
  intros H Hi. unfold conv_nuh_or_extban. destruct (negb _); [done|]. destruct nested; [done|].
  destruct (findmod_by_bantype _ _) as [[x|] [next|]]; try done. destruct (_ || _); [done|]. destruct (x_conv_param x) as [f|]; [|done].
  cbn [mbind option_bind]. unfold prefix_with_extban. by rewrite Hi, (same_prefix v v').
Qed.

Lemma generic_agree inner inner' v v' s :
  same_conv v v' -> (forall v v' f s, same_conv v v' -> inner v f s = inner' v' f s) ->
  generic_clean_ban_mask K inner v s = generic_clean_ban_mask K inner' v' s.
Proof using Type.
  intros H Hi. unfold generic_clean_ban_mask. cbv zeta. set (mask := skip_while _ _). case_bool_decide; [done|].
  destruct (existsb _ mask); [done|]. destruct (is_extended_ban mask); [|done].
  destruct (findmod_by_bantype _ mask) as [[x|] [next|]]; try done. destruct (x_conv_param x) as [f|]; [|done].
  set (w := MkConvCtx (v_my_user v) _ _ _ _). set (w' := MkConvCtx (v_my_user v') _ _ _ _).
  assert (Hw : same_conv w w').
  { destruct H as [H1 H2 H3 H4 H5]. split; try done. }
  unfold prefix_with_extban. by rewrite (Hi w w'), (same_prefix w w').
Qed.

Lemma conv_param_agree fuel nested timed v v' f s :
  same_conv v v' -> conv_param K fuel nested timed v f s = conv_param K fuel nested timed v' f s.
Proof using Type.
  revert nested timed v v' f s. induction fuel as [|fuel IH]; intros nested timed v v' f s H; [done|]. cbn [conv_param]. unfold_stacked.
  assert (Hn : forall s, conv_nuh_or_extban K nested (conv_param K fuel true timed v) v s =
                         conv_nuh_or_extban K nested (conv_param K fuel true timed v') v' s).
  { intros s'. apply nuh_or_extban_agree; [done|]. intros f' s''. by apply IH. }
  destruct f; try exact (conv_leaf_agree _ _ _ _ H).
  - apply Hn.
  - destruct (split_para _ s) as [[type m]|]; [|done]. cbn [mbind option_bind]. by rewrite Hn.
  - destruct (split_para _ s) as [[type m]|]; [|done]. cbn [mbind option_bind]. by rewrite Hn.
  - destruct (split_para _ s) as [[type m]|]; [|done]. cbn [mbind option_bind]. by rewrite Hn.
  - destruct timed; [done|]. destruct (split_para _ s) as [[d m]|]; [|done]. cbn [mbind option_bind]. destruct (_ || _); [done|].
    erewrite generic_agree; [done|done|]. intros v1 v2 f' s' Hv. by apply IH.
Qed.

(** A mask that a server accepts from a local user is accepted from a server. *)
Lemma clean_agree v v' m r :
  same_conv v v' -> v_my_user v' = false -> clean_ban_mask K v m = Some r -> clean_ban_mask K v' m = Some r.
Proof using Type.
  intros H Hmy. unfold clean_ban_mask. destruct (skip_while _ m) as [|c w]; [done|]. cbv zeta.
  match goal with |- context [existsb _ ?t] => set (u := t) end. destruct (existsb _ u); [done|]. destruct (is_extended_ban u); [|done]. rewrite Hmy, <- (sc_what _ _ H). cbn [negb orb].
  assert (Hu : forall b : bool, (if b then None else if negb (v_my_user v) || bool_decide (v_what v = MODE_DEL)
    then Some (if bool_decide (v_what v = MODE_ADD) then take MAXBANLEN u else u) else None) = Some r ->
    (if b then None else Some (if bool_decide (v_what v = MODE_ADD) then take MAXBANLEN u else u)) = Some r).
  { intros [|]; [done|]. by destruct (_ || _). }
  destruct (findmod_by_bantype _ u) as [[x|] [next|]]; try apply Hu. destruct (x_conv_param x) as [f|]; [|done].
  unfold prefix_with_extban. by rewrite (conv_param_agree _ _ _ v v'), (same_prefix v v').
Qed.
End agree.

(** The search for a mask only looks at the texts, *)
Lemma scan_none_texts M M' lim banid l l' i i' cnt cnt' dna dna' d :
  texts l = texts l' -> scan_list M lim banid l i cnt dna = Some (None, d) ->
  scan_list M' false banid l' i' cnt' dna' = Some (None, dna').
Proof.
  revert l' i i' cnt cnt' dna dna'. induction l as [|b l IH]; intros [|b' l'] i i' cnt cnt' dna dna' E; try done.
  injection E as Eb El. cbn [scan_list]. rewrite Eb. destruct (identical_ban (banstr b') banid) as [[|]|]; [done| |done].
  cbn [mbind option_bind]. cbn [andb]. rewrite orb_false_r. by apply IH.
Qed.

(** so the entry that is added on one server is added on the other one, *)
Lemma add_texts M M' lim l l' banid by_ by' t t' r :
  texts l = texts l' -> 1 <= M' -> add_listmode_ex M lim l banid by_ t = Some (r, 1) ->
  exists r', add_listmode_ex M' false l' banid by' t' = Some (r', 1) /\ texts r = texts r'.
Proof.
  intros E HM. unfold add_listmode_ex. destruct (scan_list M lim banid l 0 0 _) as [[[[i b]|] d]|] eqn:Es; [| |done]; cbn [mbind option_bind].
  - by destruct ((0 <? when_ b) && (when_ b <=? t)).
  - destruct d; [intros [=]|]. intros Hr%(inj Some)%pair_equal_spec. destruct Hr as [<- _].
    rewrite (scan_none_texts _ M' _ _ _ l' _ 0 _ 0 _ (bool_decide (l' = []) && (M' <? 1)) _ E Es). cbn [mbind option_bind].
    rewrite (proj2 (Z.ltb_ge M' 1)), andb_false_r by lia. eexists. split; [reflexivity|]. unfold texts in *. rewrite !fmap_cons.
    cbn [fill_ban banstr]. by rewrite E.
Qed.

(** and the one that is removed is removed there. *)
Lemma del_texts l l' banid r :
  texts l = texts l' -> del_listmode l banid = Some (r, 0) ->
  exists r', del_listmode l' banid = Some (r', 0) /\ texts r = texts r'.
Proof.
  revert l' r. induction l as [|b l IH]; intros [|b' l'] r E; try done. injection E as Eb El. cbn [del_listmode]. rewrite Eb.
  destruct (identical_ban banid (banstr b')) as [[|]|]; [| |done]; cbn [mbind option_bind].
  - intros [= <-]. by eexists.
  - destruct (del_listmode l banid) as [[k code]|] eqn:Ed; [|done]. cbn [mbind option_bind fst snd]. intros Hr%(inj Some)%pair_equal_spec.
    destruct Hr as [<- ->]. destruct (IH l' k El eq_refl) as (r' & -> & Hr'). eexists. split; [reflexivity|].
    unfold texts in *. by rewrite !fmap_cons, Eb, Hr'.
Qed.

Lemma handler_inv K G M by_ o param ch r :
  mode_ban_handler K G M by_ o param = Some (ch, Some r) ->
  clean_ban_mask K (conv_of o) param = Some r /\ r <> [] /\ exists l, list_of (o_ban_type o) (o_channel o) = Some l /\
  match o_what o with
  | MODE_ADD => exists l', add_listmode_ex M (s_limited by_) l r (s_by by_) (s_time by_) = Some (l', 1) /\
                           ch = put_list (o_ban_type o) (o_channel o) l'
  | MODE_DEL => exists l', del_listmode l r = Some (l', 0) /\ ch = put_list (o_ban_type o) (o_channel o) l'
  | MODE_NULL => True
  end.
Proof.
  unfold mode_ban_handler. destruct (clean_ban_mask K (conv_of o) param) as [w0|]; [|done]. destruct w0 as [|c w] eqn:Ew; [done|]. rewrite <- Ew.
  assert (Hne : w0 <> []) by (by subst w0). clear Ew. destruct (list_of (o_ban_type o) (o_channel o)) as [l|]; [|done].
  destruct (ban_access K G o param w0); cbn [negb]; [|done]. destruct (o_what o).
  - intros [= _ <-]. eauto.
  - destruct (add_listmode_ex _ _ _ _ _ _) as [[l' ret]|] eqn:Ea; [|done]. cbn [mbind option_bind]. destruct (ret =? 1) eqn:Er; [|done].
    apply Z.eqb_eq in Er as ->. intros [= <- <-]. split; [done|]. split; [done|]. exists l. split; [done|]. by exists l'.
  - destruct (del_listmode l _) as [[l' ret]|] eqn:Ea; [|done]. cbn [mbind option_bind]. destruct (ret =? 0) eqn:Er; [|done].
    apply Z.eqb_eq in Er as ->. intros [= <- <-]. split; [done|]. split; [done|]. exists l. split; [done|]. by exists l'.
Qed.

(** The same change on a server that gets it from another one. *)
Lemma handler_replicates K G G' M M' by_ by' o o' param ch r :
  text_table (k_table K) -> same_texts (o_channel o) (o_channel o') -> o_my_user o' = false -> o_what o' = o_what o -> o_ban_type o' = o_ban_type o ->
  cstr param -> 1 <= M' -> s_limited by' = false -> o_what o <> MODE_NULL ->
  mode_ban_handler K G M by_ o param = Some (ch, Some r) ->
  (length param <= 90)%nat \/ hd 0 r <> 126 -> last r <> Some ch_colon ->
  exists ch2, mode_ban_handler K G' M' by' o' r = Some (ch2, Some r) /\ same_texts ch ch2.
Proof.
  intros HK Hsame Hmy Hwh Hty Hp HM Hlim Hw Hh Hlen Hlast. apply handler_inv in Hh as (Hc & Hne & l & Hl & Hlist).
  pose proof (clean_again K HK _ _ _ Hp Hc Hlen Hlast) as Hc2.
  assert (Hc' : clean_ban_mask K (conv_of o') r = Some r).
  { eapply clean_agree; [|done|exact Hc2]. unfold conv_of. rewrite Hwh, Hty. by apply same_texts_conv. }
  destruct (same_texts_lists _ _ _ _ Hsame Hl) as (l1 & Hl1 & Ht). unfold mode_ban_handler. rewrite Hc', Hwh, Hty, Hl1.
  destruct r as [|c r0]; [done|]. unfold ban_access. rewrite Hmy. cbn [andb negb]. destruct (o_what o); [done| |].
  - destruct Hlist as (l' & Hadd & ->). rewrite Hlim. destruct (add_texts _ M' _ _ l1 _ _ (s_by by') _ (s_time by') _ Ht HM Hadd) as (r' & -> & Hr').
    cbn [mbind option_bind]. eexists. split; [reflexivity|]. by apply same_texts_put.
  - destruct Hlist as (l' & Hdel & ->). destruct (del_texts _ l1 _ _ Ht Hdel) as (r' & -> & Hr').
    cbn [mbind option_bind]. eexists. split; [reflexivity|]. by apply same_texts_put.
Qed.

(** C12: [mode_ban_handler] never compares two empty masks and keeps a list free of
    duplicates.  A mask that does not survive the cleaning, and an extended ban that
    its module denies the client, change nothing and report nothing.  An addition puts
    the cleaned mask into the list unless the list is full, where the older of two
    entries for the same mask stays, and it is reported exactly when the mask was not
    there and there was room; a removal takes exactly the entries with that mask out,
    and is reported exactly when there was one. *)
Theorem mode_ban_handler_correct (K : conv_env) (G : list cstring) (M : Z) (by_ : setter) (o : ok_ctx) (param : cstring) (l : list Ban) :
  text_table (k_table K) -> list_of (o_ban_type o) (o_channel o) = Some l -> list_ok l -> cstr param ->
  setter_ok (s_by by_) -> 0 < s_time by_ -> o_what o <> MODE_NULL ->
  exists l' res, mode_ban_handler K G M by_ o param = Some (put_list (o_ban_type o) (o_channel o) l', res) /\ list_ok l' /\
    match clean_ban_mask K (conv_of o) param with
    | Some r =>
        if negb (ban_access K G o param r) then l' = l /\ res = None
        else if bool_decide (o_what o = MODE_ADD) then
          to_map l' = (if full M (s_limited by_) (length l) && bool_decide (to_map l !! key r = None) then to_map l
                       else put (to_map l) (MkBan r (s_by by_) (s_time by_))) /\
          res = (if bool_decide (to_map l !! key r = None) && negb (full M (s_limited by_) (length l)) then Some r else None)
        else to_map l' = delete (key r) (to_map l) /\ res = (if bool_decide (to_map l !! key r = None) then None else Some r)
    | None => l' = l /\ res = None
    end.
Proof.
  intros HK Hl Hok Hp Hs Ht Hw. assert (Hsame : put_list (o_ban_type o) (o_channel o) l = o_channel o).
  { pose proof (put_get (o_ban_type o) (o_channel o)) as H. unfold get_list in H. by rewrite Hl in H. }
  destruct (clean_ban_mask K (conv_of o) param) as [r|] eqn:Hc.
  2: { exists l, None. split; [|done]. unfold mode_ban_handler. by rewrite Hc, Hsame. }
  destruct (ban_access K G o param r) eqn:Hacc; cbn [negb].
  2: { exists l, None. split; [|done]. unfold mode_ban_handler. rewrite Hc, Hl, Hacc, Hsame. by destruct r. }
  destruct (o_what o) eqn:Ew; [done| |]; [rewrite bool_decide_true by done|rewrite bool_decide_false by done].
  - destruct (handler_add K HK G M by_ o param l r) as (l' & H1 & H2 & H3); [done..|]. eauto 8.
  - destruct (handler_del K HK G M by_ o param l r) as (l' & H1 & H2 & H3); [done..|]. eauto 8.
Qed.

Definition example_ban_channel : BanChannel := MkBanChannel (str "#a") [MkBan (str "x!*@*") (str "op") 5] [] [].
Definition example_ok (what : mode_what) : ok_ctx := MkOkCtx true false false example_ban_channel what EXBTYPE_BAN EXBCHK_ACCESS.
Definition example_setter : setter := MkSetter (str "op") true 9.

Lemma mode_ban_handler_correct_witness :
  exists l' res, mode_ban_handler example_conv_env [] 60 example_setter (example_ok MODE_ADD) (str "~q:~a:Joe") =
      Some (put_list EXBTYPE_BAN example_ban_channel l', res) /\ list_ok l' /\
    to_map l' = put (to_map (banlist example_ban_channel)) (MkBan (str "~quiet:~account:Joe") (str "op") 9) /\
    res = Some (str "~quiet:~account:Joe").
Proof.
  destruct (mode_ban_handler_correct example_conv_env [] 60 example_setter (example_ok MODE_ADD) (str "~q:~a:Joe") (banlist example_ban_channel))
    as (l' & res & H1 & H2 & H3).
  - exact extbans_text_table.
  - reflexivity.
  - apply list_ok_cons. split; [|split; [done|split; [reflexivity|split; constructor]]].
    split; [repeat constructor; unfold byte_ok; lia|]. split; [done|vm_compute; lia].
  - repeat constructor; unfold byte_ok; lia.
  - vm_compute. lia.
  - reflexivity.
  - discriminate.
  - exists l', res. split; [exact H1|]. split; [exact H2|].
    assert (Hc : clean_ban_mask example_conv_env (conv_of (example_ok MODE_ADD)) (str "~q:~a:Joe") = Some (str "~quiet:~account:Joe"))
      by (vm_compute; reflexivity).
    rewrite Hc in H3.
    assert (Ha : ban_access example_conv_env [] (example_ok MODE_ADD) (str "~q:~a:Joe") (str "~quiet:~account:Joe") = true) by (vm_compute; reflexivity).
    rewrite Ha in H3. exact H3.
Defined.

(** Two ways in which the lists of two servers come apart, or cannot be changed.
    "+b ~operclass:!x" is stored as "~operclass:" on the server of the user, and no
    other server accepts that text; and once a channel has as many ~inherit entries as
    it may have, the removal of one with a duration is refused, since the cleaning of
    the ban behind the duration does not know that it is a removal. *)
Theorem ban_list_defects :
  let run ch my what s := mode_ban_handler example_conv_env [] 60 example_setter (MkOkCtx my false false ch what EXBTYPE_BAN EXBCHK_ACCESS) (str s) in
  let timed := MkBanChannel (str "#a") [MkBan (str "~time:5:~inherit:#b") (str "op") 5] [] [] in
  (exists l, run example_ban_channel true MODE_ADD "~operclass:!x" = Some (l, Some (str "~operclass:")) /\
     run example_ban_channel false MODE_ADD "~operclass:" = Some (example_ban_channel, None)) /\
  run timed true MODE_DEL "~time:5:~inherit:#b" = Some (timed, None).
Proof. split; [eexists; split; vm_compute; reflexivity|vm_compute; reflexivity]. Qed.
