(* ===== verification/ChanParam.v ===== *)
(** * Channel mode modules (src/api-channelmode.c, src/modules/chanmodes/)

    A module registers its mode with [CmodeAdd], which gives it a bit of
    [channel->mode.mode]; a mode with a parameter also brings the functions that check,
    convert, store and compare parameters.  The file has the registry, the registrations
    of the shipped modes with their access checks, and the parameters of +k, +l and +L
    as instances of what the MODE and SJOIN commands rely on. *)
From Stdlib Require Import Sorted.
From S2P Require Import Prelude Chars Strings Utf8 Client Hash ChanMode Bans Crule CruleFuncs CruleSpec User MatchUser Extban BanMask.

(** ** Access checks *)

Inductive cmode_ok_fn :=
| extcmode_default_requirechop | extcmode_default_requirehalfop | noknock_mode_allow | isregistered_chanmode_is_ok
| modeZ_is_ok | delayjoin_is_ok | operonly_require_oper | permanent_is_ok | cmode_chanowner_is_ok | cmode_chanadmin_is_ok
| cmode_chanop_is_ok | cmode_halfop_is_ok | cmode_voice_is_ok | cmode_key_is_ok | cmode_limit_is_ok | cmodeL_is_ok.

Inductive ex_result := EX_DENY | EX_ALLOW | EX_ALWAYS_DENY.

#[export] Instance ex_result_eq_dec : EqDecision ex_result.
Proof. solve_decision. Defined.

(** The client that changes modes. *)
Record mclient := MkMClient {
  c_user : option positive;           (** [IsUser(client)], and which one *)
  c_my_user : bool;                   (** [MyUser(client)] *)
  c_server : bool;                    (** [IsServer(client)] *)
  c_uline : bool;                     (** [IsULine(client)] *)
  c_oper : bool;                      (** [IsOper(client)] *)
  c_perm : cstring -> bool;           (** [ValidatePermissionsForPath(path, client, ...)] *)
  c_chanmodes : list cstring          (** [features.chanmodes] of the server it comes from *)
}.

(** [is_ok] with [EXCHK_ACCESS].  [acc] are the member modes of the client in the
    channel, none for a server or an outsider; [invite] is [has_channel_mode(channel,
    'i')] and [self] is [find_user(param) == client]. *)
Definition mode_access (f : cmode_ok_fn) (c : mclient) (acc : cstring) (invite self : bool) (what : mode_what) : ex_result :=
  let allow (b : bool) := if b then EX_ALLOW else EX_DENY in
  let may modes := check_channel_access_string acc (str modes) in
  let user := bool_decide (is_Some (c_user c)) in
  let own := bool_decide (what = MODE_DEL) && self in
  match f with
  | extcmode_default_requirechop => allow (user && may "oaq")
  | extcmode_default_requirehalfop => allow (user && (may "oaq" || may "h"))
  | noknock_mode_allow => allow (invite && user && (may "oaq" || may "h"))
  | isregistered_chanmode_is_ok => if negb (c_server c) && negb (c_uline c) then EX_ALWAYS_DENY else EX_ALLOW
  | modeZ_is_ok | delayjoin_is_ok => EX_ALWAYS_DENY
  | operonly_require_oper => allow (negb (c_my_user c) || c_perm c (str "channel:operonly:set"))
  | permanent_is_ok => allow (c_oper c)
  | cmode_chanowner_is_ok | cmode_chanadmin_is_ok => allow (own || may "q")
  | cmode_chanop_is_ok => allow (may "oaq")
  | cmode_halfop_is_ok => allow (own || may "oaq")
  | cmode_voice_is_ok => allow (own || may "hoaq")
  | cmode_key_is_ok | cmode_limit_is_ok => allow (user && may "hoaq")
  | cmodeL_is_ok => allow (user && may "oaq")
  end.

(** ** Parameters *)

(** [EXSJ_MERGE] comes with the parameter that the function makes of the two, which it
    leaves in place of ours. *)
Inductive exsj := EXSJ_SAME | EXSJ_WEWON | EXSJ_THEYWON | EXSJ_MERGE (merged : cstring).

#[export] Instance exsj_eq_dec : EqDecision exsj.
Proof. solve_decision. Defined.

(** The functions of a mode with a parameter.  A stored parameter is represented by the
    text that [get_param] makes of it. *)
Record ParamHandler := MkParamHandler {
  ph_ok : cstring -> cstring -> bool;            (** [is_ok] with [EXCHK_PARAM], on the channel of that name *)
  ph_conv : cstring -> option cstring;           (** [conv_param] *)
  ph_store : cstring -> cstring;                 (** [get_param] of what [put_param] stores *)
  ph_sjoin : cstring -> cstring -> exsj          (** [sjoin_check]: ours and theirs *)
}.

(** A parameter as it can be sent in a MODE line. *)
Definition param_text (p : cstring) : Prop := printables p /\ p <> [] /\ hd 0 p <> ch_colon /\ (length p <= 200)%nat.

(** What the commands rely on. *)
Class ParamLaws (h : ParamHandler) : Prop := {
  pl_conv n p r : cstr p -> ph_ok h n p = true -> ph_conv h p = Some r ->
    ph_ok h n r = true /\ ph_conv h r = Some r /\ ph_store h r = r /\ param_text r;
  pl_same a b : ph_sjoin h (ph_store h a) (ph_store h b) = EXSJ_SAME <-> ph_store h a = ph_store h b;
  pl_dual a b : ph_sjoin h (ph_store h a) (ph_store h b) = EXSJ_WEWON <-> ph_sjoin h (ph_store h b) (ph_store h a) = EXSJ_THEYWON;
  pl_merge a b p : ph_sjoin h (ph_store h a) (ph_store h b) = EXSJ_MERGE p -> ph_sjoin h (ph_store h b) (ph_store h a) = EXSJ_MERGE p
}.

(** *** +k *)

Definition KEYLEN : nat := 23.

Definition valid_key_char (c : Z) : bool := negb (contains c (str " :,")) && negb (c <=? 32).

Definition is_valid_key (key : cstring) : bool := negb (KEYLEN <? length key)%nat && forallb valid_key_char key.

(** The bytes up to the first bad one or the end of the buffer. *)
Fixpoint transform_channel_key (i : cstring) (n : nat) : cstring :=
  match i, n with
  | c :: i, S n => if valid_key_char c then c :: transform_channel_key i n else []
  | _, _ => []
  end.

Definition strcmp (a b : cstring) : comparison := List.list_compare Z.compare a b.

Definition sjoin_strcmp (our their : cstring) : exsj :=
  match strcmp our their with Eq => EXSJ_SAME | Gt => EXSJ_WEWON | Lt => EXSJ_THEYWON end.

Definition key_handler : ParamHandler := {|
  ph_ok _ p := is_valid_key p;
  ph_conv p := match transform_channel_key p KEYLEN with [] => None | r => Some r end;
  ph_store p := transform_channel_key p KEYLEN;
  ph_sjoin := sjoin_strcmp
|}.

(** *** +l *)

Definition transform_channel_limit (param : cstring) : Z :=
  let v := c_atoi param in
  let v := if v <=? 0 then 1 else v in
  if 1000000 <? v then 1000000 else v.

Definition limit_sjoin_check (our their : cstring) : exsj :=
  if c_atoi our =? c_atoi their then EXSJ_SAME else if c_atoi their <? c_atoi our then EXSJ_WEWON else EXSJ_THEYWON.

Definition limit_handler : ParamHandler := {|
  ph_ok _ p := negb (c_atoi p <=? 0);
  ph_conv p := Some (cut 32 (print_int (transform_channel_limit p)));
  ph_store p := cut 32 (print_int (transform_channel_limit p));
  ph_sjoin := limit_sjoin_check
|}.

(** *** +L *)

Definition link_handler (a : allowed_channelchars) : ParamHandler := {|
  ph_ok name p := negb (contains 44 p) && valid_channelname a p && negb (smycmp p name =? 0);
  ph_conv p := if valid_channelname a p then Some p else None;
  ph_store p := (strlcpy [] p (CHANNELLEN + 1)).1;
  ph_sjoin := sjoin_strcmp
|}.

(** *** The laws *)

Lemma sjoin_strcmp_same a b : sjoin_strcmp a b = EXSJ_SAME <-> a = b.
Proof.
  unfold sjoin_strcmp, strcmp. rewrite <- (List.list_compare_refl Z.compare Z.compare_eq_iff a b).
  by destruct (List.list_compare Z.compare a b).
Qed.

Lemma sjoin_strcmp_dual a b : sjoin_strcmp a b = EXSJ_WEWON <-> sjoin_strcmp b a = EXSJ_THEYWON.
Proof.
  unfold sjoin_strcmp, strcmp.
  rewrite (List.list_compare_antisym Z.compare Z.compare_eq_iff b a) by (intros x y; apply Z.compare_antisym).
  by destruct (List.list_compare Z.compare b a).
Qed.

Lemma sjoin_strcmp_merge a b p : sjoin_strcmp a b = EXSJ_MERGE p -> sjoin_strcmp b a = EXSJ_MERGE p.
Proof. unfold sjoin_strcmp. by destruct (strcmp a b). Qed.

Lemma key_prefix i n : exists t, i = transform_channel_key i n ++ t /\ Forall (fun c => valid_key_char c = true) (transform_channel_key i n) /\
  (length (transform_channel_key i n) <= n)%nat.
Proof.
  revert n. induction i as [|c i IH]; intros [|n]; cbn [transform_channel_key]; [exists []; split_and!; [done|constructor|simpl; lia]..|exists (c :: i); split_and!; [done|constructor|simpl; lia]|].
  destruct (valid_key_char c) eqn:Ec; [|exists (c :: i); split_and!; [done|constructor|simpl; lia]].
  destruct (IH n) as (t & Ht & Hf & Hl). exists t. split_and!; [simpl; by rewrite <- Ht|by constructor|simpl; lia].
Qed.

Lemma key_again i n : Forall (fun c => valid_key_char c = true) i -> (length i <= n)%nat -> transform_channel_key i n = i.
Proof.
  revert n. induction i as [|c i IH]; intros [|n] Hf Hl; try done; [simpl in Hl; lia|]. apply Forall_cons in Hf as [Hc Hf].
  cbn [transform_channel_key]. rewrite Hc, IH; [done|done|simpl in Hl; lia].
Qed.

#[export] Instance key_laws : ParamLaws key_handler.
Proof.
  split; cbn [key_handler ph_ok ph_conv ph_store ph_sjoin]; [|intros a b; apply sjoin_strcmp_same|intros a b; apply sjoin_strcmp_dual|intros a b; apply sjoin_strcmp_merge].
  intros _ p r Hp Hok Hr. destruct (key_prefix p KEYLEN) as (t & Ht & Hf & Hl).
  set (w := transform_channel_key p KEYLEN) in *. destruct w as [|c w'] eqn:Ew; [done|]. rewrite <- Ew in *. apply (inj Some) in Hr. subst r.
  assert (Hagain : transform_channel_key w KEYLEN = w) by (by apply key_again).
  rewrite Hagain. split_and!; try done.
  - unfold is_valid_key. rewrite (proj2 (Nat.ltb_ge _ _)) by done. cbn [negb andb]. apply forallb_forall. intros x Hx.
    rewrite Forall_forall in Hf. by apply Hf, list_elem_of_In.
  - by rewrite Ew.
  - unfold param_text. split_and!; [|by rewrite Ew| |unfold KEYLEN in Hl; lia].
    2: { rewrite Ew in Hf |- *. apply Forall_cons in Hf as [Hc _]. simpl. intros ->. by vm_compute in Hc. }
    apply Forall_forall. intros x Hx. rewrite Forall_forall in Hf. specialize (Hf x Hx). unfold cstr in Hp. rewrite Forall_forall in Hp.
    assert (byte_ok x) by (apply Hp; rewrite Ht; apply elem_of_app; by left). apply andb_prop in Hf as [_ Hf%negb_true_iff%Z.leb_gt].
    unfold printable, byte_ok in *. lia.
Qed.

Lemma limit_range p : 1 <= transform_channel_limit p <= 1000000.
Proof. unfold transform_channel_limit. cbv zeta. repeat case_match; lia. Qed.

Lemma limit_print v : 1 <= v <= 1000000 ->
  c_atoi (cut 32 (print_int v)) = v /\ param_text (cut 32 (print_int v)).
Proof.
  intros Hv. destruct (print_u32_ok v ltac:(lia)) as (H1 & H2 & H3 & H4).
  assert (Hc : cut 32 (print_int v) = print_int v) by (unfold cut; apply take_ge; lia). rewrite Hc. split.
  - unfold c_atoi. rewrite atoi_digits, H2 by done. unfold to_int. rewrite Z.min_r, Z.max_r by lia. rewrite Z.mod_small by lia. lia.
  - unfold param_text. split_and!; [|done| |lia].
    + eapply Forall_impl; [exact H1|]. unfold printable. simpl. lia.
    + destruct (print_int v) as [|d w]; [done|]. apply Forall_cons in H1 as [H1 _]. simpl. lia.
Qed.

Lemma limit_fixed v : 1 <= v <= 1000000 -> transform_channel_limit (cut 32 (print_int v)) = v.
Proof.
  intros Hv. unfold transform_channel_limit. rewrite (proj1 (limit_print v Hv)). cbv zeta.
  rewrite (proj2 (Z.leb_gt v 0)), (proj2 (Z.ltb_ge 1000000 v)) by lia. done.
Qed.

#[export] Instance limit_laws : ParamLaws limit_handler.
Proof.
  split; cbn [limit_handler ph_ok ph_conv ph_store ph_sjoin].
  - intros _ p r Hp Hok Hr. apply (inj Some) in Hr. subst r. set (v := transform_channel_limit p). pose proof (limit_range p : 1 <= v <= 1000000) as Hv.
    destruct (limit_print v Hv) as [Hat Ht]. rewrite limit_fixed, Hat by done. by rewrite (proj2 (Z.leb_gt v 0)) by lia.
  - intros a b. unfold limit_sjoin_check. pose proof (limit_range a) as Ha. pose proof (limit_range b) as Hb.
    rewrite (proj1 (limit_print _ Ha)), (proj1 (limit_print _ Hb)). destruct (Z.eqb_spec (transform_channel_limit a) (transform_channel_limit b)) as [->|Hne]; [done|].
    split; [by case_match|]. intros E. apply (f_equal c_atoi) in E. by rewrite (proj1 (limit_print _ Ha)), (proj1 (limit_print _ Hb)) in E.
  - intros a b. unfold limit_sjoin_check. rewrite (Z.eqb_sym (c_atoi (cut 32 (print_int (transform_channel_limit b))))).
    set (x := c_atoi _). set (y := c_atoi _). destruct (Z.eqb_spec x y); [done|]. destruct (Z.ltb_spec y x), (Z.ltb_spec x y); try done; lia.
  - intros a b p. unfold limit_sjoin_check. by repeat case_match.
Qed.

#[export] Instance link_laws a : ParamLaws (link_handler a).
Proof.
  split; cbn [link_handler ph_ok ph_conv ph_store ph_sjoin]; [|intros x y; apply sjoin_strcmp_same|intros x y; apply sjoin_strcmp_dual|intros x y; apply sjoin_strcmp_merge].
  intros n p r Hp Hok Hr. destruct (valid_channelname a p) eqn:Hv; [|done]. apply (inj Some) in Hr. subst r.
  assert (Hlen : (length p <= CHANNELLEN)%nat /\ hd 0 p = 35).
  { unfold valid_channelname in Hv. apply andb_prop in Hv as [Hv _]. apply andb_prop in Hv as [Hh%Z.eqb_eq Hl%negb_true_iff%Nat.ltb_ge]. done. }
  destruct Hlen as [Hl Hh]. rewrite Hv. rewrite strlcpy_take by (unfold CHANNELLEN; lia). rewrite take_ge by lia.
  split; [done|]. split; [done|]. split; [done|]. unfold param_text. split_and!.
  - apply Forall_forall. intros c Hc. unfold cstr in Hp. rewrite Forall_forall in Hp. specialize (Hp c Hc).
    assert (Hpl : negb ((c <? 33) || (c =? 44) || (c =? ch_colon)) = true).
    { unfold valid_channelname in Hv. apply andb_prop in Hv as [_ Hv]. apply list_elem_of_In in Hc. destruct a.
      - rewrite forallb_forall in Hv. by apply Hv.
      - rewrite forallb_forall in Hv. apply Hv in Hc. by apply andb_prop in Hc as [? _].
      - apply andb_prop in Hv as [Hv _]. rewrite forallb_forall in Hv. by apply Hv. }
    apply negb_true_iff, orb_false_iff in Hpl as [Hpl _]. apply orb_false_iff in Hpl as [Hpl%Z.ltb_ge _]. unfold printable, byte_ok in *. lia.
  - by destruct p.
  - by rewrite Hh.
  - unfold CHANNELLEN in Hl. lia.
Qed.

(** ** The registry *)

(** [CmodeInfo], what a module asks for. *)
Record CmodeInfo := MkCmodeInfo {
  i_cm : Cmode;
  i_local : bool;
  i_is_ok : cmode_ok_fn;
  i_param : option ParamHandler
}.

(** A registered mode: the request and the bit it was given, 0 for a member mode. *)
Record Handler := MkHandler { h_info : CmodeInfo; h_mode : Z }.

Definition h_cm (h : Handler) : Cmode := i_cm (h_info h).
Definition h_letter (h : Handler) : Z := letter (h_cm h).
Definition h_local (h : Handler) : bool := i_local (h_info h).

(** An entry of [channelmodes].  [cm_info] is empty as long as the fields of the request
    have not been copied: the mode then has the type 0, which is [CMODE_NORMAL], no
    parameter and no functions. *)
Record Cm := MkCm {
  cm_letter : Z;
  cm_mode : Z;
  cm_info : option CmodeInfo;
  cm_slot : nat;                                 (** [param_slot] *)
  cm_unloaded : bool
}.

(** The list, and the letter of the mode in each slot for parameters. *)
Record registry := MkRegistry { channelmodes : list Cm; ParamTable : gmap nat Z }.

Fixpoint channelmode_add_sorted (n : Cm) (l : list Cm) : list Cm :=
  match l with
  | [] => [n]
  | m :: l' => if sort_character_lowercase_before_uppercase (cm_letter n) (cm_letter m) then n :: l else m :: channelmode_add_sorted n l'
  end.

(** The loop over [l = 1, 2, 4, ...] up to [ULLONG_MAX / 2]. *)
Fixpoint free_bit (fuel : nat) (l : Z) (used : list Cm) : option Z :=
  match fuel with
  | O => None
  | S fuel => if existsb (fun h => cm_mode h =? l) used then free_bit fuel (2 * l) used else Some l
  end.

Inductive moderr := MODERR_NOERROR | MODERR_EXISTS | MODERR_NOSPACE | MODERR_INVALID.

Definition MAXPARAMMODES : nat := 16.

(** The loop over [ParamTable]. *)
Fixpoint free_slot (fuel slot : nat) (t : gmap nat Z) : option nat :=
  match fuel with
  | O => None
  | S fuel => match t !! slot with None => Some slot | Some _ => free_slot fuel (S slot) t end
  end.

Definition takes_slot (req : CmodeInfo) : bool := (paracount (i_cm req) =? 1) && match ctype (i_cm req) with CMODE_NORMAL => true | CMODE_MEMBER => false end.

Definition lookup_cm (c : Z) (l : list Cm) : option Cm := List.find (fun m => cm_letter m =? c) l.

(** The end of [CmodeAdd]: the fields of the request are copied into the entry of that
    letter, and a mode with a parameter is put into its slot. *)
Definition fill_entry (req : CmodeInfo) (slot : nat) (m : Cm) : Cm :=
  if cm_letter m =? letter (i_cm req) then MkCm (cm_letter m) (cm_mode m) (Some req) (if takes_slot req then slot else cm_slot m) false else m.

Definition fill (req : CmodeInfo) (slot : nat) (R : registry) : registry :=
  MkRegistry (map (fill_entry req slot) (channelmodes R)) (if takes_slot req then <[slot := letter (i_cm req)]> (ParamTable R) else ParamTable R).

(** A new entry has its letter and its bit only. *)
Definition bare_entry (req : CmodeInfo) (bit : Z) (R : registry) : registry :=
  MkRegistry (channelmode_add_sorted (MkCm (letter (i_cm req)) bit None 0 false) (channelmodes R)) (ParamTable R).

Definition CmodeAdd (R : registry) (req : CmodeInfo) : registry * moderr :=
  let cm := i_cm req in
  match lookup_cm (letter cm) (channelmodes R) with
  | Some m => if cm_unloaded m then (fill req (cm_slot m) R, MODERR_NOERROR) else (R, MODERR_EXISTS)
  | None =>
      match ctype cm with
      | CMODE_NORMAL =>
          match free_bit 63 1 (channelmodes R) with
          | None => (R, MODERR_NOSPACE)
          | Some bit =>
              if takes_slot req then
                match free_slot MAXPARAMMODES 0 (ParamTable R) with
                | None => (bare_entry req bit R, MODERR_NOSPACE)
                | Some slot => (fill req slot (bare_entry req bit R), MODERR_NOERROR)
                end
              else (fill req 0 (bare_entry req bit R), MODERR_NOERROR)
          end
      | CMODE_MEMBER =>
          if (prefix cm =? 0) || (sjoin_prefix cm =? 0) || (paracount cm =? 0) || negb (unset_with_param cm) || (rank cm =? 0)
          then (R, MODERR_INVALID)
          else (fill req 0 (bare_entry req 0 R), MODERR_NOERROR)
      end
  end.

(** [unload_extcmode_commit], as far as the registry is concerned. *)
Definition unload_extcmode_commit (c : Z) (R : registry) : registry :=
  match lookup_cm c (channelmodes R) with
  | None => R
  | Some m =>
      MkRegistry (base.filter (fun m => cm_letter m <> c) (channelmodes R))
        match cm_info m with
        | Some i => match ctype (i_cm i) with
                    | CMODE_NORMAL => if paracount (i_cm i) =? 0 then ParamTable R else delete (cm_slot m) (ParamTable R)
                    | CMODE_MEMBER => ParamTable R
                    end
        | None => ParamTable R
        end
  end.

(** [CmodeDel] of the mode with that letter; [rehashing] is [loop.rehashing]. *)
Definition CmodeDel (rehashing : bool) (c : Z) (R : registry) : registry :=
  if rehashing
  then MkRegistry (map (fun m => if cm_letter m =? c then MkCm (cm_letter m) (cm_mode m) (cm_info m) (cm_slot m) true else m) (channelmodes R)) (ParamTable R)
  else unload_extcmode_commit c R.

Definition unload_all_unused_extcmodes (R : registry) : registry :=
  foldl (fun R m => if negb (cm_letter m =? 0) && cm_unloaded m then unload_extcmode_commit (cm_letter m) R else R) R (channelmodes R).

(** The modes that are registered, with their functions. *)
Definition handlers_of (R : registry) : list Handler := omap (fun m => (fun i => MkHandler i (cm_mode m)) <$> cm_info m) (channelmodes R).

(** *** The shipped modes *)

Definition member_info (l r p sj : Z) (f : cmode_ok_fn) : CmodeInfo := MkCmodeInfo (MkCmode l CMODE_MEMBER r p sj 1 true) false f None.
Definition flag_info (l : Z) (local : bool) (f : cmode_ok_fn) : CmodeInfo := MkCmodeInfo (MkCmode l CMODE_NORMAL 0 0 0 0 false) local f None.
Definition param_info (l : Z) (unset : bool) (f : cmode_ok_fn) (h : ParamHandler) : CmodeInfo :=
  MkCmodeInfo (MkCmode l CMODE_NORMAL 0 0 0 1 unset) false f (Some h).

Definition chanadmin_info : CmodeInfo := member_info 97 3000 38 126 cmode_chanadmin_is_ok.
Definition chanop_info : CmodeInfo := member_info 111 2000 64 64 cmode_chanop_is_ok.
Definition chanowner_info : CmodeInfo := member_info 113 4000 126 42 cmode_chanowner_is_ok.
Definition halfop_info : CmodeInfo := member_info 104 1000 37 37 cmode_halfop_is_ok.
Definition voice_info : CmodeInfo := member_info 118 (-1) 43 43 cmode_voice_is_ok.
Definition censor_info : CmodeInfo := flag_info 71 false extcmode_default_requirechop.
Definition delayjoin_info : CmodeInfo := flag_info 68 false extcmode_default_requirechop.
Definition postdelayjoin_info : CmodeInfo := flag_info 100 true delayjoin_is_ok.
Definition inviteonly_info : CmodeInfo := flag_info 105 false extcmode_default_requirehalfop.
Definition isregistered_info : CmodeInfo := flag_info 114 false isregistered_chanmode_is_ok.
Definition issecure_info : CmodeInfo := flag_info 90 true modeZ_is_ok.
Definition moderated_info : CmodeInfo := flag_info 109 false extcmode_default_requirehalfop.
Definition nocolor_info : CmodeInfo := flag_info 99 false extcmode_default_requirechop.
Definition noctcp_info : CmodeInfo := flag_info 67 false extcmode_default_requirehalfop.
Definition noexternalmsgs_info : CmodeInfo := flag_info 110 false extcmode_default_requirehalfop.
Definition noinvite_info : CmodeInfo := flag_info 86 false extcmode_default_requirechop.
Definition nokick_info : CmodeInfo := flag_info 81 false extcmode_default_requirechop.
Definition noknock_info : CmodeInfo := flag_info 75 false noknock_mode_allow.
Definition nonickchange_info : CmodeInfo := flag_info 78 false extcmode_default_requirehalfop.
Definition nonotice_info : CmodeInfo := flag_info 84 false extcmode_default_requirechop.
Definition operonly_info : CmodeInfo := flag_info 79 false operonly_require_oper.
Definition permanent_info : CmodeInfo := flag_info 80 false permanent_is_ok.
Definition private_info : CmodeInfo := flag_info 112 false extcmode_default_requirehalfop.
Definition regonly_info : CmodeInfo := flag_info 82 false extcmode_default_requirehalfop.
Definition regonlyspeak_info : CmodeInfo := flag_info 77 false extcmode_default_requirehalfop.
Definition secret_info : CmodeInfo := flag_info 115 false extcmode_default_requirehalfop.
Definition secureonly_info : CmodeInfo := flag_info 122 false extcmode_default_requirechop.
Definition stripcolor_info : CmodeInfo := flag_info 83 false extcmode_default_requirechop.
Definition topiclimit_info : CmodeInfo := flag_info 116 false extcmode_default_requirehalfop.
Definition key_info : CmodeInfo := param_info 107 true cmode_key_is_ok key_handler.
Definition limit_info : CmodeInfo := param_info 108 false cmode_limit_is_ok limit_handler.
Definition cmode_link_info : CmodeInfo := param_info 76 true cmodeL_is_ok (link_handler ALLOWED_CHANNELCHARS_UTF8).

Definition shipped_infos : list CmodeInfo :=
  [chanadmin_info; chanop_info; chanowner_info; halfop_info; voice_info; censor_info; delayjoin_info; postdelayjoin_info; inviteonly_info;
   isregistered_info; issecure_info; moderated_info; nocolor_info; noctcp_info; noexternalmsgs_info; noinvite_info; nokick_info;
   noknock_info; nonickchange_info; nonotice_info; operonly_info; permanent_info; private_info; regonly_info; regonlyspeak_info;
   secret_info; secureonly_info; stripcolor_info; topiclimit_info; key_info; limit_info; cmode_link_info].

Definition cmodes_register (reqs : list CmodeInfo) (R : registry) : registry := foldl (fun R req => (CmodeAdd R req).1) R reqs.

Definition no_modes : registry := MkRegistry [] ∅.
Definition shipped_registry : registry := cmodes_register shipped_infos no_modes.
Definition shipped_handlers : list Handler := handlers_of shipped_registry.

(** *** What registration ensures *)

Definition is_bit (z : Z) : Prop := exists k, 0 <= k < 63 /\ z = 2 ^ k.

(** What the commands rely on. *)
Record handlers_ok (l : list Handler) : Prop := {
  ho_letters : NoDup (h_letter <$> l);
  ho_bits : forall h, h ∈ l -> ctype (h_cm h) = CMODE_NORMAL -> is_bit (h_mode h);
  ho_member : forall h, h ∈ l -> ctype (h_cm h) = CMODE_MEMBER -> h_mode h = 0 /\ paracount (h_cm h) <> 0 /\ unset_with_param (h_cm h) = true;
  ho_distinct : forall h h', h ∈ l -> h' ∈ l -> h_mode h = h_mode h' -> h_mode h <> 0 -> h = h'
}.

Definition member_entry (m : Cm) : bool := match cm_info m with Some i => match ctype (i_cm i) with CMODE_MEMBER => true | CMODE_NORMAL => false end | None => false end.
Definition with_slot (m : Cm) : bool := match cm_info m with Some i => takes_slot i | None => false end.

(** An entry by itself. *)
Record entry_fine (m : Cm) : Prop := {
  ef_byte : 0 <= cm_letter m < 256;
  ef_alnum : isalnum (cm_letter m) = true;
  ef_mode : if member_entry m then cm_mode m = 0 else is_bit (cm_mode m);
  ef_info i : cm_info m = Some i -> letter (i_cm i) = cm_letter m /\
    match ctype (i_cm i) with CMODE_NORMAL => paracount (i_cm i) = 0 \/ paracount (i_cm i) = 1 | CMODE_MEMBER => paracount (i_cm i) <> 0 /\ unset_with_param (i_cm i) = true end;
  ef_half : cm_info m = None -> cm_unloaded m = false
}.

Definition letters_sorted (l : list Cm) : Prop := StronglySorted (fun a b => letter_key (cm_letter a) < letter_key (cm_letter b)) l.

Record registry_fine (R : registry) : Prop := {
  rf_entries : Forall entry_fine (channelmodes R);
  rf_sorted : letters_sorted (channelmodes R);
  rf_distinct m m' : m ∈ channelmodes R -> m' ∈ channelmodes R -> cm_mode m = cm_mode m' -> cm_mode m <> 0 -> m = m';
  rf_slots m : m ∈ channelmodes R -> with_slot m = true -> (cm_slot m < MAXPARAMMODES)%nat /\ ParamTable R !! cm_slot m = Some (cm_letter m);
  rf_table s c : ParamTable R !! s = Some c -> exists m, m ∈ channelmodes R /\ cm_letter m = c /\ cm_slot m = s /\ with_slot m = true
}.

Lemma add_sorted_perm n l : channelmode_add_sorted n l ≡ₚ n :: l.
Proof.
  induction l as [|m l IH]; cbn [channelmode_add_sorted]; [done|]. case_match; [done|]. rewrite IH. apply Permutation_swap.
Qed.

Lemma cm_add_sorted n l : entry_fine n -> Forall entry_fine l -> Forall (fun m => cm_letter m <> cm_letter n) l -> letters_sorted l -> letters_sorted (channelmode_add_sorted n l).
Proof.
  unfold letters_sorted. intros Hn He Hnew Hs. induction l as [|m l IH]; cbn [channelmode_add_sorted]; [repeat constructor|].
  apply Forall_cons in Hnew as [Hm Hnew], He as [Hme He]. apply StronglySorted_inv in Hs as [Hs Hml]. specialize (IH He Hnew Hs).
  rewrite sort_character_key by (apply Hn || apply Hme).
  destruct (Z.ltb_spec (letter_key (cm_letter n)) (letter_key (cm_letter m))) as [Hlt|Hge].
  - constructor; [by constructor|]. constructor; [done|]. eapply Forall_impl; [exact Hml|]. simpl. intros e ?. lia.
  - constructor; [done|]. rewrite add_sorted_perm. constructor; [|done].
    destruct (Z.eq_dec (letter_key (cm_letter m)) (letter_key (cm_letter n))) as [E|]; [|lia]. apply letter_key_inj in E; [done|apply Hme|apply Hn].
Qed.

Lemma free_bit_spec fuel k l bit :
  0 <= k -> free_bit fuel (2 ^ k) l = Some bit ->
  (exists j, k <= j < k + Z.of_nat fuel /\ bit = 2 ^ j) /\ forall h, h ∈ l -> cm_mode h <> bit.
Proof.
  revert k. induction fuel as [|fuel IH]; intros k Hk; [done|]. cbn [free_bit]. destruct (existsb _ l) eqn:E.
  - replace (2 * 2 ^ k) with (2 ^ (k + 1)) by (rewrite Z.pow_add_r by lia; lia). intros H%IH; [|lia]. destruct H as [(j & Hj & ->) H].
    split; [|done]. exists j. split; [lia|done].
  - intros [= <-]. split; [exists k; split; [lia|done]|]. intros h Hh Heq.
    assert (existsb (fun h => cm_mode h =? 2 ^ k) l = true); [|congruence]. apply existsb_exists. exists h. split; [by apply list_elem_of_In|by apply Z.eqb_eq].
Qed.

Lemma free_bit_none fuel k l : 0 <= k -> free_bit fuel (2 ^ k) l = None -> forall j, k <= j < k + Z.of_nat fuel -> exists m, m ∈ l /\ cm_mode m = 2 ^ j.
Proof.
  revert k. induction fuel as [|fuel IH]; intros k Hk Hn j Hj; [lia|]. cbn [free_bit] in Hn. destruct (existsb _ l) eqn:E; [|done].
  destruct (Z.eq_dec j k) as [->|]; [apply existsb_exists in E as (m & Hm%list_elem_of_In & Em%Z.eqb_eq); by exists m|].
  replace (2 * 2 ^ k) with (2 ^ (k + 1)) in Hn by (rewrite Z.pow_add_r by lia; lia). apply (IH (k + 1)); [lia|done|lia].
Qed.

Lemma free_slot_spec fuel : forall s t r, free_slot fuel s t = Some r -> (s <= r < s + fuel)%nat /\ t !! r = None.
Proof.
  induction fuel as [|fuel IH]; intros s t r; [done|]. cbn [free_slot]. destruct (t !! s) eqn:E; [|intros [= <-]; split; [lia|done]].
  intros [H1 H2]%IH. split; [lia|done].
Qed.

Lemma free_slot_none fuel : forall s t, free_slot fuel s t = None -> forall r, (s <= r < s + fuel)%nat -> is_Some (t !! r).
Proof.
  induction fuel as [|fuel IH]; intros s t H r Hr; [lia|]. cbn [free_slot] in H. destruct (t !! s) eqn:E; [|done].
  destruct (decide (r = s)) as [->|]; [by eexists|]. apply (IH (S s)); [done|lia].
Qed.

Lemma lookup_cm_some c l m : lookup_cm c l = Some m -> m ∈ l /\ cm_letter m = c.
Proof. intros H. apply List.find_some in H as [H1 H2]. split; [by apply list_elem_of_In|by apply Z.eqb_eq]. Qed.

Lemma lookup_cm_none c l : lookup_cm c l = None -> Forall (fun m => cm_letter m <> c) l.
Proof. intros H. apply Forall_forall. intros m Hm. pose proof (List.find_none _ _ H m (proj1 (list_elem_of_In _ _) Hm)) as Hz. by apply Z.eqb_neq. Qed.

(** Letters are names. *)
Lemma sorted_letters l : letters_sorted l -> NoDup (cm_letter <$> l).
Proof.
  unfold letters_sorted. induction 1 as [|m l Hs IH Hm]; [constructor|]. rewrite fmap_cons. constructor; [|done].
  intros (n & E & Hn)%list_elem_of_fmap. rewrite Forall_forall in Hm. specialize (Hm n Hn). rewrite E in Hm. lia.
Qed.

Lemma same_entry R m m' : registry_fine R -> m ∈ channelmodes R -> m' ∈ channelmodes R -> cm_letter m = cm_letter m' -> m = m'.
Proof. intros HR. apply (NoDup_fmap_inj cm_letter). apply sorted_letters, HR. Qed.

Lemma lookup_cm_in R m : registry_fine R -> m ∈ channelmodes R -> lookup_cm (cm_letter m) (channelmodes R) = Some m.
Proof.
  intros HR Hm. destruct (lookup_cm (cm_letter m) (channelmodes R)) as [n|] eqn:E.
  - apply lookup_cm_some in E as [Hn El]. f_equal. by apply (same_entry R).
  - apply lookup_cm_none in E. rewrite Forall_forall in E. by destruct (E m Hm).
Qed.

(** A new entry that is complete. *)
Definition full_entry (req : CmodeInfo) (bit : Z) (slot : nat) : Cm := MkCm (letter (i_cm req)) bit (Some req) (if takes_slot req then slot else 0%nat) false.

Lemma fill_new req slot bit R : lookup_cm (letter (i_cm req)) (channelmodes R) = None ->
  channelmodes (fill req slot (bare_entry req bit R)) = channelmode_add_sorted (full_entry req bit slot) (channelmodes R).
Proof.
  intros Hn%lookup_cm_none. unfold fill, bare_entry. cbn [channelmodes]. induction Hn as [|m l Hm Hl IH]; cbn [channelmode_add_sorted map].
  - unfold fill_entry. cbn [cm_letter cm_mode cm_slot]. by rewrite Z.eqb_refl.
  - cbn [cm_letter full_entry].
    assert (Hf : fill_entry req slot m = m) by (unfold fill_entry; by rewrite (proj2 (Z.eqb_neq _ _) Hm)).
    assert (Hfl : map (fill_entry req slot) l = l).
    { clear IH. induction Hl as [|m' l' Hm' _ IH']; [done|]. cbn [map]. rewrite IH'. f_equal. unfold fill_entry. by rewrite (proj2 (Z.eqb_neq _ _) Hm'). }
    destruct (sort_character_lowercase_before_uppercase _ _); cbn [map]; rewrite Hf; [|by rewrite IH]. rewrite Hfl. f_equal.
    unfold fill_entry. cbn [cm_letter cm_mode cm_slot]. by rewrite Z.eqb_refl.
Qed.

(** An entry joins the list. *)
Lemma entry_joins R n t : registry_fine R -> entry_fine n -> lookup_cm (cm_letter n) (channelmodes R) = None ->
  (cm_mode n <> 0 -> forall m, m ∈ channelmodes R -> cm_mode m <> cm_mode n) ->
  (if with_slot n then (cm_slot n < MAXPARAMMODES)%nat /\ ParamTable R !! cm_slot n = None /\ t = <[cm_slot n := cm_letter n]> (ParamTable R) else t = ParamTable R) ->
  registry_fine (MkRegistry (channelmode_add_sorted n (channelmodes R)) t).
Proof.
  intros [R1 R2 R3 R4 R5] Hn Hnew%lookup_cm_none Hbit Hslot.
  assert (Hin : forall m, m ∈ channelmode_add_sorted n (channelmodes R) <-> m = n \/ m ∈ channelmodes R) by (intros m; rewrite add_sorted_perm; apply elem_of_cons).
  split; cbn [channelmodes ParamTable].
  - rewrite add_sorted_perm. by constructor.
  - by apply cm_add_sorted.
  - intros m m' [->|Hm]%Hin [->|Hm']%Hin E Hz; [done| | |by apply R3].
    + by destruct (Hbit Hz m' Hm').
    + rewrite E in Hz. by destruct (Hbit Hz m Hm).
  - intros m [->|Hm]%Hin Hw; [rewrite Hw in Hslot; destruct Hslot as (H1 & _ & ->); by rewrite lookup_insert_eq|].
    destruct (R4 m Hm Hw) as [H1 H2]. split; [done|]. destruct (with_slot n); [|by rewrite Hslot]. destruct Hslot as (_ & H3 & ->).
    rewrite lookup_insert_ne; [done|]. intros E. by rewrite E, H2 in H3.
  - intros s c Hs. destruct (with_slot n) eqn:Hw; [|rewrite Hslot in Hs; destruct (R5 s c Hs) as (m & H1 & H2); exists m; split; [apply Hin; by right|done]].
    destruct Hslot as (_ & _ & ->). apply lookup_insert_Some in Hs as [[<- <-]|[_ Hs]]; [exists n; split; [apply Hin; by left|done]|].
    destruct (R5 s c Hs) as (m & H1 & H2). exists m. split; [apply Hin; by right|done].
Qed.

(** What a module may ask for. *)
Definition letter_fine (req : CmodeInfo) : Prop :=
  0 <= letter (i_cm req) < 256 /\ isalnum (letter (i_cm req)) = true /\ (ctype (i_cm req) = CMODE_NORMAL -> paracount (i_cm req) = 0 \/ paracount (i_cm req) = 1).

(** The modes of one kind. *)
Definition same_kind (a b : Cmode) : Prop := ctype a = ctype b /\ paracount a = paracount b /\ unset_with_param a = unset_with_param b.

Lemma full_fine req bit slot : letter_fine req ->
  (match ctype (i_cm req) with CMODE_NORMAL => is_bit bit | CMODE_MEMBER => bit = 0 /\ paracount (i_cm req) <> 0 /\ unset_with_param (i_cm req) = true end) ->
  entry_fine (full_entry req bit slot).
Proof.
  intros (H1 & H2 & H3) Hb. split; try done.
  - unfold member_entry. cbn [full_entry cm_info cm_mode]. destruct (ctype (i_cm req)); [done|apply Hb].
  - intros i [= <-]. split; [done|]. destruct (ctype (i_cm req)); [by apply H3|apply Hb].
Qed.

(** An unloaded mode is taken over by a mode of the same kind. *)
Lemma takeover_fine R req m i : registry_fine R -> letter_fine req -> m ∈ channelmodes R -> cm_letter m = letter (i_cm req) -> cm_info m = Some i ->
  same_kind (i_cm i) (i_cm req) -> registry_fine (fill req (cm_slot m) R).
Proof.
  intros HR (L1 & L2 & L3) Hm Hl Hi (K1 & K2 & K3). assert (Hts : takes_slot req = takes_slot i) by (unfold takes_slot; by rewrite K1, K2).
  assert (Hmem : forall e, member_entry (fill_entry req (cm_slot m) e) = true -> e ∈ channelmodes R -> member_entry e = true).
  { intros e. unfold fill_entry. destruct (Z.eqb_spec (cm_letter e) (letter (i_cm req))) as [E|]; [|done]. intros He Hin.
    assert (e = m) as -> by (apply (same_entry R); [done..|congruence]). unfold member_entry in *. cbn [cm_info] in He. by rewrite Hi, K1. }
  assert (Hone : forall e, e ∈ channelmodes R -> cm_letter (fill_entry req (cm_slot m) e) = cm_letter e /\ cm_mode (fill_entry req (cm_slot m) e) = cm_mode e /\
    cm_slot (fill_entry req (cm_slot m) e) = cm_slot e /\ with_slot (fill_entry req (cm_slot m) e) = with_slot e /\ member_entry (fill_entry req (cm_slot m) e) = member_entry e).
  { intros e He. unfold fill_entry. destruct (Z.eqb_spec (cm_letter e) (letter (i_cm req))) as [E|]; [|done].
    assert (e = m) as -> by (apply (same_entry R); [done..|congruence]). unfold with_slot, member_entry. cbn [cm_letter cm_mode cm_slot cm_info]. rewrite Hi, Hts, K1. by destruct (takes_slot i). }
  pose proof HR as [R1 R2 R3 R4 R5]. rewrite Forall_forall in R1.
  split; cbn [fill channelmodes ParamTable].
  - apply Forall_map, Forall_forall. intros e He. pose proof (R1 e He) as [E1 E2 E3 E4 E5]. destruct (Hone e He) as (H1 & H2 & _ & _ & H5). split; [by rewrite H1..|by rewrite H5, H2| |].
    + rewrite H1. intros j. unfold fill_entry. destruct (Z.eqb_spec (cm_letter e) (letter (i_cm req))) as [E|]; [|apply E4]. intros [= <-]. split; [done|].
      assert (e = m) as -> by (apply (same_entry R); [done..|congruence]). destruct (E4 i Hi) as [_ Hk]. by rewrite <- K1, <- K2, <- K3.
    + unfold fill_entry. destruct (_ =? _); [done|apply E5].
  - unfold letters_sorted in *. clear - R2 Hone. induction R2 as [|e l Hs IH He]; [constructor|]. cbn [map]. constructor.
    + apply IH. intros e' He'. apply Hone. by right.
    + apply Forall_map. rewrite Forall_forall in He |- *. intros e' He'. rewrite (proj1 (Hone e ltac:(left))), (proj1 (Hone e' ltac:(by right))). by apply He.
  - intros x y. rewrite !list_elem_of_In, !in_map_iff. intros (e & <- & He%list_elem_of_In) (e' & <- & He'%list_elem_of_In). destruct (Hone e He) as (_ & -> & _), (Hone e' He') as (_ & -> & _). intros E Hz. f_equal. by apply R3.
  - intros x. rewrite !list_elem_of_In, !in_map_iff. intros (e & <- & He%list_elem_of_In). destruct (Hone e He) as (-> & _ & -> & -> & _). intros Hw. destruct (R4 e He Hw) as [H1 H2]. split; [done|].
    destruct (takes_slot req) eqn:Et; [|done]. destruct (decide (cm_slot m = cm_slot e)) as [E|]; [|by rewrite lookup_insert_ne]. rewrite <- E, lookup_insert_eq.
    assert (Hwm : with_slot m = true) by (unfold with_slot; by rewrite Hi, <- Hts). destruct (R4 m Hm Hwm) as [_ H3]. rewrite E, H2 in H3. by injection H3 as ->; rewrite Hl.
  - assert (Hsame : (if takes_slot req then <[cm_slot m := letter (i_cm req)]> (ParamTable R) else ParamTable R) = ParamTable R).
    { destruct (takes_slot req) eqn:Et; [|done]. apply insert_id. rewrite <- Hl. apply (R4 m Hm). unfold with_slot. by rewrite Hi, <- Hts. }
    rewrite Hsame. intros s c Hs. destruct (R5 s c Hs) as (e & He & Hc & Hsl & Hw). exists (fill_entry req (cm_slot m) e). destruct (Hone e He) as (-> & _ & -> & -> & _).
    split; [|done]. rewrite list_elem_of_In. apply in_map. by apply list_elem_of_In.
Qed.

(** A module takes over the letter of an unloaded mode only for a mode of that kind. *)
Definition add_fine (R : registry) (req : CmodeInfo) : Prop :=
  letter_fine req /\ forall m i, m ∈ channelmodes R -> cm_letter m = letter (i_cm req) -> cm_unloaded m = true -> cm_info m = Some i -> same_kind (i_cm i) (i_cm req).

(** The cases of a registration. *)
Inductive registered (R : registry) (req : CmodeInfo) : registry * moderr -> Prop :=
| registered_exists m : m ∈ channelmodes R -> cm_letter m = letter (i_cm req) -> cm_unloaded m = false -> registered R req (R, MODERR_EXISTS)
| registered_full :
    Forall (fun m => cm_letter m <> letter (i_cm req)) (channelmodes R) -> ctype (i_cm req) = CMODE_NORMAL ->
    (forall k, 0 <= k < 63 -> exists m, m ∈ channelmodes R /\ cm_mode m = 2 ^ k) -> registered R req (R, MODERR_NOSPACE)
| registered_invalid :
    Forall (fun m => cm_letter m <> letter (i_cm req)) (channelmodes R) -> ctype (i_cm req) = CMODE_MEMBER ->
    prefix (i_cm req) = 0 \/ sjoin_prefix (i_cm req) = 0 \/ paracount (i_cm req) = 0 \/ unset_with_param (i_cm req) = false \/ rank (i_cm req) = 0 ->
    registered R req (R, MODERR_INVALID)
| registered_again m : m ∈ channelmodes R -> cm_letter m = letter (i_cm req) -> cm_unloaded m = true -> registered R req (fill req (cm_slot m) R, MODERR_NOERROR)
| registered_new bit slot :
    Forall (fun m => cm_letter m <> letter (i_cm req)) (channelmodes R) ->
    match ctype (i_cm req) with CMODE_NORMAL => is_bit bit /\ forall m, m ∈ channelmodes R -> cm_mode m <> bit | CMODE_MEMBER => bit = 0 /\ paracount (i_cm req) <> 0 /\ unset_with_param (i_cm req) = true end ->
    (takes_slot req = true -> (slot < MAXPARAMMODES)%nat /\ ParamTable R !! slot = None) ->
    registered R req (MkRegistry (channelmode_add_sorted (full_entry req bit slot) (channelmodes R)) (if takes_slot req then <[slot := letter (i_cm req)]> (ParamTable R) else ParamTable R), MODERR_NOERROR)
| registered_half bit :
    Forall (fun m => cm_letter m <> letter (i_cm req)) (channelmodes R) -> takes_slot req = true -> (forall s, (s < MAXPARAMMODES)%nat -> is_Some (ParamTable R !! s)) ->
    is_bit bit -> (forall m, m ∈ channelmodes R -> cm_mode m <> bit) -> registered R req (bare_entry req bit R, MODERR_NOSPACE).

Lemma CmodeAdd_cases R req : registered R req (CmodeAdd R req).
Proof.
  unfold CmodeAdd. destruct (lookup_cm _ _) as [m|] eqn:Ef.
  { apply lookup_cm_some in Ef as [Hm Hl]. destruct (cm_unloaded m) eqn:Hu; [by apply registered_again|by apply (registered_exists R req m)]. }
  pose proof (lookup_cm_none _ _ Ef) as Hnew.
  assert (Hfill : forall slot bit, fill req slot (bare_entry req bit R) =
    MkRegistry (channelmode_add_sorted (full_entry req bit slot) (channelmodes R)) (if takes_slot req then <[slot := letter (i_cm req)]> (ParamTable R) else ParamTable R)).
  { intros slot bit. rewrite <- (fill_new req slot bit R Ef). done. }
  destruct (ctype (i_cm req)) eqn:Ht.
  - destruct (free_bit 63 1 (channelmodes R)) as [bit|] eqn:Eb; [|apply registered_full; [done|done|]; intros k Hk; apply (free_bit_none 63 0 _ ltac:(lia) Eb); simpl; lia].
    destruct (free_bit_spec 63 0 _ bit ltac:(lia) Eb) as [(j & Hj & ->) Hfree]. assert (Hbit : is_bit (2 ^ j)) by (exists j; split; [simpl in Hj; lia|done]).
    destruct (takes_slot req) eqn:Et.
    + destruct (free_slot _ _ _) as [slot|] eqn:Es.
      * rewrite Hfill. pose proof (registered_new R req (2 ^ j) slot) as Ha. rewrite Et, Ht in Ha. apply Ha; [done|done|]. intros _. apply free_slot_spec in Es as [H1 H2]. split; [lia|done].
      * apply registered_half; try done. intros s Hs. apply (free_slot_none _ _ _ Es). lia.
    + rewrite Hfill. pose proof (registered_new R req (2 ^ j) 0) as Ha. rewrite Et, Ht in Ha. by apply Ha.
  - destruct (_ || _) eqn:Eb; [apply registered_invalid; [done|done|]; rewrite !orb_true_iff, !Z.eqb_eq, negb_true_iff in Eb; tauto|]. rewrite Hfill. rewrite !orb_false_iff in Eb. destruct Eb as [[[[_ _] Hpc%Z.eqb_neq] Hu%negb_false_iff] _].
    apply registered_new; [done|by rewrite Ht|]. unfold takes_slot. by rewrite Ht, andb_false_r.
Qed.

Lemma CmodeAdd_fine R req : registry_fine R -> add_fine R req -> registry_fine (CmodeAdd R req).1.
Proof.
  intros HR [Hl Hk]. destruct (CmodeAdd_cases R req) as [m Hm Hlm Hu|Hnew Ht Hfull|Hnew Ht Hmiss|m Hm Hlm Hu|bit slot Hnew Hb Hs|bit Hnew Ht Hfull Hb Hfree]; cbn [fst]; [done|done|done| | |].
  - pose proof (rf_entries R HR) as Hf. rewrite Forall_forall in Hf. destruct (cm_info m) as [i|] eqn:Hi; [|by rewrite (ef_half m (Hf m Hm) Hi) in Hu].
    apply (takeover_fine R req m i); try done. by apply (Hk m i).
  - assert (Hnf : lookup_cm (letter (i_cm req)) (channelmodes R) = None).
    { destruct (lookup_cm _ _) as [m|] eqn:E; [|done]. apply lookup_cm_some in E as [Hm El]. rewrite Forall_forall in Hnew. by destruct (Hnew m Hm). }
    apply (entry_joins R (full_entry req bit slot)); [done| |done| |].
    + apply full_fine; [done|]. destruct (ctype (i_cm req)); [apply Hb|done].
    + cbn [full_entry cm_mode]. intros Hz m Hm. destruct (ctype (i_cm req)); [by apply Hb|by destruct Hb].
    + unfold with_slot. cbn [full_entry cm_info cm_slot cm_letter]. destruct (takes_slot req); [|done]. by destruct Hs.
  - assert (Hnf : lookup_cm (letter (i_cm req)) (channelmodes R) = None).
    { destruct (lookup_cm _ _) as [m|] eqn:E; [|done]. apply lookup_cm_some in E as [Hm El]. rewrite Forall_forall in Hnew. by destruct (Hnew m Hm). }
    apply (entry_joins R (MkCm (letter (i_cm req)) bit None 0 false)); [done| |done| |done].
    + destruct Hl as (L1 & L2 & _). by split.
    + intros _ m Hm. by apply Hfree.
Qed.

Lemma unload_fine R c : registry_fine R -> registry_fine (unload_extcmode_commit c R).
Proof.
  intros HR. unfold unload_extcmode_commit. destruct (lookup_cm c (channelmodes R)) as [m|] eqn:Ef; [|done]. apply lookup_cm_some in Ef as [Hm Hc].
  pose proof HR as [R1 R2 R3 R4 R5]. rewrite Forall_forall in R1.
  assert (Ht : match cm_info m with Some i => match ctype (i_cm i) with CMODE_NORMAL => if paracount (i_cm i) =? 0 then ParamTable R else delete (cm_slot m) (ParamTable R) | CMODE_MEMBER => ParamTable R end | None => ParamTable R end
    = if with_slot m then delete (cm_slot m) (ParamTable R) else ParamTable R).
  { unfold with_slot. destruct (cm_info m) as [i|] eqn:Ei; [|done]. destruct (ef_info m (R1 m Hm) i Ei) as [_ Hk]. unfold takes_slot. destruct (ctype (i_cm i)); [|by rewrite andb_false_r].
    rewrite andb_true_r. by destruct Hk as [-> | ->]. }
  rewrite Ht. clear Ht. split; cbn [channelmodes ParamTable].
  - apply Forall_forall. intros e [_ He]%list_elem_of_filter. by apply R1.
  - unfold letters_sorted in *. clear - R2. induction R2 as [|e l Hs IH He]; [constructor|]. rewrite filter_cons. case_decide; [|done]. constructor; [done|].
    rewrite Forall_forall in He |- *. intros e' [_ He']%list_elem_of_filter. by apply He.
  - intros e e' [_ He]%list_elem_of_filter [_ He']%list_elem_of_filter. by apply R3.
  - intros e [Hne He]%list_elem_of_filter Hw. destruct (R4 e He Hw) as [H1 H2]. split; [done|]. destruct (with_slot m) eqn:Hwm; [|done].
    rewrite lookup_delete_ne; [done|]. intros E. destruct (R4 m Hm Hwm) as [_ H3]. rewrite E, H2 in H3. injection H3. congruence.
  - intros s d Hs. assert (Hs' : ParamTable R !! s = Some d /\ (with_slot m = true -> cm_slot m <> s)).
    { destruct (with_slot m); [|by split]. by apply lookup_delete_Some in Hs as [? ?]. }
    destruct Hs' as [Hs' Hne]. destruct (R5 s d Hs') as (e & He & Hd & Hsl & Hw). exists e. split; [|done]. apply list_elem_of_filter. split; [|done].
    intros E. assert (e = m) as -> by (apply (same_entry R); [done..|congruence]). by destruct (Hne Hw).
Qed.

Lemma flag_unloaded_fine R c : registry_fine R -> (forall m, m ∈ channelmodes R -> cm_letter m = c -> is_Some (cm_info m)) -> registry_fine (CmodeDel true c R).
Proof.
  intros HR Hown. unfold CmodeDel. set (f m := if cm_letter m =? c then MkCm (cm_letter m) (cm_mode m) (cm_info m) (cm_slot m) true else m).
  assert (Hf : forall m, cm_letter (f m) = cm_letter m /\ cm_mode (f m) = cm_mode m /\ cm_slot (f m) = cm_slot m /\ cm_info (f m) = cm_info m) by (intros m; unfold f; by destruct (_ =? _)).
  assert (Hw : forall m, with_slot (f m) = with_slot m) by (intros m; unfold with_slot; by destruct (Hf m) as (_ & _ & _ & ->)).
  pose proof HR as [R1 R2 R3 R4 R5]. split; cbn [channelmodes ParamTable].
  - apply Forall_map. rewrite Forall_forall in R1 |- *. intros m Hm. destruct (R1 m Hm) as [E1 E2 E3 E4 E5]. cbn. destruct (Hf m) as (F1 & F2 & _ & F4). split; rewrite ?F1, ?F2, ?F4; try done.
    + unfold member_entry in *. by rewrite F4.
    + intros Hn. unfold f. destruct (Z.eqb_spec (cm_letter m) c) as [E|]; [|by apply E5]. destruct (Hown m Hm E) as [i Hi]. by rewrite Hi in Hn.
  - unfold letters_sorted in *. clear - R2 Hf. induction R2 as [|e l Hs IH He]; [constructor|]. cbn [map]. constructor; [done|]. apply Forall_map. eapply Forall_impl; [exact He|].
    cbn. intros e' H. destruct (Hf e) as (-> & _), (Hf e') as (-> & _). done.
  - intros x y. rewrite !list_elem_of_In, !in_map_iff. intros (e & <- & He%list_elem_of_In) (e' & <- & He'%list_elem_of_In). destruct (Hf e) as (_ & -> & _), (Hf e') as (_ & -> & _). intros E Hz. f_equal. by apply R3.
  - intros x. rewrite list_elem_of_In, in_map_iff. intros (e & <- & He%list_elem_of_In). rewrite Hw. destruct (Hf e) as (-> & _ & -> & _). by apply R4.
  - intros s d Hs. destruct (R5 s d Hs) as (e & He & H1 & H2 & H3). exists (f e). rewrite Hw. destruct (Hf e) as (-> & _ & -> & _). split; [|done].
    rewrite list_elem_of_In. apply in_map. by apply list_elem_of_In.
Qed.

Lemma unload_all_fine R : registry_fine R -> registry_fine (unload_all_unused_extcmodes R).
Proof.
  unfold unload_all_unused_extcmodes. generalize (channelmodes R) as l. intros l. revert R. induction l as [|m l IH]; intros R HR; [done|]. cbn [foldl]. apply IH. case_match; [by apply unload_fine|done].
Qed.

Lemma no_modes_fine : registry_fine no_modes.
Proof. split; cbn [no_modes channelmodes ParamTable]; [constructor|constructor|by intros ? ? ?%not_elem_of_nil|by intros ? ?%not_elem_of_nil|done]. Qed.

Lemma handler_in R h : h ∈ handlers_of R <-> exists m i, m ∈ channelmodes R /\ cm_info m = Some i /\ h = MkHandler i (cm_mode m).
Proof.
  unfold handlers_of. rewrite list_elem_of_omap. split.
  - intros (m & Hm & Hi). destruct (cm_info m) as [i|] eqn:E; [|done]. injection Hi as <-. by exists m, i.
  - intros (m & i & Hm & Hi & ->). exists m. split; [done|]. by rewrite Hi.
Qed.

(** The interface of the commands is implemented. *)
Lemma fine_handlers R : registry_fine R -> handlers_ok (handlers_of R).
Proof.
  intros HR. pose proof HR as [R1 R2 R3 R4 R5]. rewrite Forall_forall in R1. split.
  - pose proof (sorted_letters _ R2) as Hn. unfold handlers_of. clear R2 R3 R4 R5 HR. induction (channelmodes R) as [|m l IH]; [constructor|]. cbn [omap list_omap].
    rewrite fmap_cons in Hn. apply NoDup_cons in Hn as [Hm Hn]. specialize (IH (fun x Hx => R1 x ltac:(by right)) Hn). destruct (cm_info m) as [i|] eqn:Ei; [|done]. cbn [fmap option_fmap option_map].
    rewrite fmap_cons. constructor; [|done]. intros (h & E & Hh)%list_elem_of_fmap. apply list_elem_of_omap in Hh as (m' & Hm' & Ei'). destruct (cm_info m') as [i'|] eqn:Ej; [|done].
    injection Ei' as <-. unfold h_letter, h_cm in E. cbn in E. rewrite (proj1 (ef_info m (R1 m ltac:(left)) i Ei)), (proj1 (ef_info m' (R1 m' ltac:(by right)) i' Ej)) in E.
    apply Hm. rewrite E. by apply list_elem_of_fmap_2.
  - intros h (m & i & Hm & Hi & ->)%handler_in Ht. pose proof (ef_mode m (R1 m Hm)) as Hb. unfold member_entry in Hb. rewrite Hi in Hb. unfold h_cm in Ht. cbn in Ht. by rewrite Ht in Hb.
  - intros h (m & i & Hm & Hi & ->)%handler_in Ht. pose proof (ef_mode m (R1 m Hm)) as Hb. unfold member_entry in Hb. rewrite Hi in Hb. unfold h_cm in Ht |- *. cbn in Ht |- *. rewrite Ht in Hb.
    destruct (ef_info m (R1 m Hm) i Hi) as [_ Hk]. rewrite Ht in Hk. by split.
  - intros h h' (m & i & Hm & Hi & ->)%handler_in (m' & i' & Hm' & Hi' & ->)%handler_in. cbn [h_mode]. intros E Hz. assert (m = m') as <- by (by apply R3). by simplify_eq.
Qed.

(** *** Sequences of operations *)

Inductive reg_op := OpAdd (req : CmodeInfo) | OpDel (rehashing : bool) (c : Z) | OpUnload.

Definition reg_step (R : registry) (op : reg_op) : registry :=
  match op with OpAdd req => (CmodeAdd R req).1 | OpDel r c => CmodeDel r c R | OpUnload => unload_all_unused_extcmodes R end.

(** A module deletes the modes that it registered. *)
Definition op_fine (R : registry) (op : reg_op) : Prop :=
  match op with
  | OpAdd req => add_fine R req
  | OpDel _ c => forall m, m ∈ channelmodes R -> cm_letter m = c -> is_Some (cm_info m)
  | OpUnload => True
  end.

Inductive reg_steps : registry -> Prop :=
| reg_start : reg_steps no_modes
| reg_next R op : reg_steps R -> op_fine R op -> reg_steps (reg_step R op).

Lemma reg_steps_fine R : reg_steps R -> registry_fine R.
Proof.
  induction 1 as [|R op _ IH Hop]; [exact no_modes_fine|]. destruct op as [req|[] c|]; cbn [reg_step op_fine] in *; [by apply CmodeAdd_fine|by apply flag_unloaded_fine|by apply unload_fine|by apply unload_all_fine].
Qed.

Lemma registered_unloaded R req : Forall (fun m => cm_unloaded m = false) (channelmodes R) -> Forall (fun m => cm_unloaded m = false) (channelmodes (CmodeAdd R req).1).
Proof.
  intros HR. destruct (CmodeAdd_cases R req) as [m Hm Hlm Hu|Hnew Ht Hfull|Hnew Ht Hmiss|m Hm Hlm Hu|bit slot Hnew Hb Hs|bit Hnew Ht Hfull Hb Hfree]; cbn [fst fill bare_entry channelmodes]; [done|done|done| |rewrite add_sorted_perm; by constructor..].
  apply Forall_map. eapply Forall_impl; [exact HR|]. cbn. intros e He. unfold fill_entry. by destruct (_ =? _).
Qed.

Lemma register_steps reqs R : Forall letter_fine reqs -> reg_steps R -> Forall (fun m => cm_unloaded m = false) (channelmodes R) -> reg_steps (cmodes_register reqs R).
Proof.
  intros Hr. revert R. induction Hr as [|req reqs Hl _ IH]; intros R HR Hu; [done|]. unfold cmodes_register. cbn [foldl]. apply IH; [|by apply registered_unloaded].
  apply (reg_next R (OpAdd req)); [done|]. split; [done|]. rewrite Forall_forall in Hu. intros m i Hm _ Hum. by rewrite (Hu m Hm) in Hum.
Qed.

Lemma shipped_steps : reg_steps shipped_registry.
Proof.
  apply register_steps; [|constructor|constructor].
  assert (H : forallb (fun r => (0 <=? letter (i_cm r)) && (letter (i_cm r) <? 256) && isalnum (letter (i_cm r)) && ((paracount (i_cm r) =? 0) || (paracount (i_cm r) =? 1))) shipped_infos = true) by (vm_compute; reflexivity).
  rewrite forallb_forall in H. apply Forall_forall. intros r Hr%list_elem_of_In%H. rewrite !andb_true_iff, orb_true_iff in Hr. destruct Hr as [[[H1%Z.leb_le H2%Z.ltb_lt] H3] H4].
  split; [done|]. split; [done|]. intros _. rewrite !Z.eqb_eq in H4. exact H4.
Qed.

Lemma shipped_handlers_ok : handlers_ok shipped_handlers.
Proof. apply fine_handlers, reg_steps_fine, shipped_steps. Qed.

(** What is registered was asked for. *)
Lemma register_params reqs R m i : m ∈ channelmodes (cmodes_register reqs R) -> cm_info m = Some i -> (exists m', m' ∈ channelmodes R /\ cm_info m' = Some i) \/ i ∈ reqs.
Proof.
  revert R. induction reqs as [|req reqs IH]; intros R Hm Hi; [left; by exists m|]. unfold cmodes_register in Hm. cbn [foldl] in Hm.
  destruct (IH _ Hm Hi) as [(m' & Hm' & Hi')|Hin]; [|right; by right].
  destruct (CmodeAdd_cases R req) as [n Hn Hlm Hu|Hnew Ht Hfull|Hnew Ht Hmiss|n Hn Hlm Hu|bit slot Hnew Hb Hs|bit Hnew Ht Hfull Hb Hfree]; cbn [fst fill bare_entry channelmodes] in Hm'.
  - left. by exists m'.
  - left. by exists m'.
  - left. by exists m'.
  - rewrite list_elem_of_In, in_map_iff in Hm'. destruct Hm' as (e & <- & He%list_elem_of_In). unfold fill_entry in Hi'. destruct (_ =? _); [injection Hi' as <-; right; left|left; by exists e].
  - rewrite add_sorted_perm in Hm'. apply elem_of_cons in Hm' as [->|Hm']; [injection Hi' as <-; right; left|left; by exists m'].
  - rewrite add_sorted_perm in Hm'. apply elem_of_cons in Hm' as [->|Hm']; [done|left; by exists m'].
Qed.

(** The flag of a mode. *)
Definition cm_set (mode : Z) (h : Handler) : bool := has mode (h_mode h).

Lemma has_bit x k : 0 <= k -> has x (2 ^ k) = Z.testbit x k.
Proof.
  intros Hk. unfold has. destruct (Z.testbit x k) eqn:E.
  - apply negb_true_iff, Z.eqb_neq. intros H. assert (Z.testbit (Z.land x (2 ^ k)) k = false) by (rewrite H; apply Z.testbit_0_l).
    rewrite Z.land_spec, E, Z.pow2_bits_true in H0; by try lia.
  - apply negb_false_iff, Z.eqb_eq. apply Z.bits_inj'. intros n Hn. rewrite Z.land_spec, Z.testbit_0_l, Z.pow2_bits_eqb by done.
    destruct (Z.eqb_spec k n) as [->|]; [by rewrite E|apply andb_false_r].
Qed.

Section flags.
Context (l : list Handler) (Hl : handlers_ok l).

Lemma bit_of h : h ∈ l -> h_mode h = 0 \/ is_bit (h_mode h).
Proof using Hl. intros Hh. destruct (ctype (h_cm h)) eqn:E; [right; by apply (ho_bits l Hl)|left; by apply (ho_member l Hl)]. Qed.

Lemma same_letter h h' : h ∈ l -> h' ∈ l -> h_letter h = h_letter h' -> h = h'.
Proof using Hl. intros. by eapply (NoDup_fmap_inj h_letter); [apply ho_letters, Hl|..]. Qed.

Lemma bit_eqb h h' k j :
  h ∈ l -> h' ∈ l -> h_mode h = 2 ^ k -> h_mode h' = 2 ^ j -> 0 <= k -> 0 <= j -> (k =? j) = (h_letter h =? h_letter h').
Proof using Hl.
  intros Hh Hh' Ek Ej Hk Hj. destruct (Z.eqb_spec k j) as [->|Hne]; symmetry.
  - apply Z.eqb_eq. f_equal. apply (ho_distinct l Hl); [done|done|by rewrite Ek, Ej|rewrite Ek]. pose proof (Z.pow_pos_nonneg 2 j). lia.
  - apply Z.eqb_neq. intros E%same_letter; [|done..]. subst h'. rewrite Ek in Ej. by apply (Z.pow_inj_r 2) in Ej; try lia.
Qed.

(** Setting and clearing one flag leaves the others alone. *)
Lemma cm_set_lor m h h' : h ∈ l -> h' ∈ l -> h_mode h <> 0 ->
  cm_set (Z.lor m (h_mode h)) h' = cm_set m h' || (h_letter h =? h_letter h').
Proof using Hl.
  intros Hh Hh' Hz. destruct (bit_of h Hh) as [?|(k & Hk & Ek)]; [done|]. unfold cm_set.
  destruct (bit_of h' Hh') as [E0|(j & Hj & Ej)].
  - rewrite E0. unfold has. rewrite !Z.land_0_r. cbn. symmetry. apply Z.eqb_neq. intros E%same_letter; [|done..]. by subst h'.
  - rewrite Ej, !has_bit, Z.lor_spec, Ek, Z.pow2_bits_eqb by lia. f_equal. apply bit_eqb; (done || lia).
Qed.

Lemma cm_set_ldiff m h h' : h ∈ l -> h' ∈ l -> h_mode h <> 0 ->
  cm_set (Z.ldiff m (h_mode h)) h' = cm_set m h' && negb (h_letter h =? h_letter h').
Proof using Hl.
  intros Hh Hh' Hz. destruct (bit_of h Hh) as [?|(k & Hk & Ek)]; [done|]. unfold cm_set.
  destruct (bit_of h' Hh') as [E0|(j & Hj & Ej)].
  - rewrite E0. unfold has. by rewrite !Z.land_0_r.
  - rewrite Ej, !has_bit, Z.ldiff_spec, Ek, Z.pow2_bits_eqb by lia. f_equal. f_equal. apply bit_eqb; (done || lia).
Qed.
End flags.

(** C35: whatever modules register, unload and register again, the modes stay sorted by
    their letters, which are all different; every mode that is not a member mode has a bit
    of its own below 2^63, so that setting or clearing one mode of a channel changes no
    other, and every mode with a parameter has one of the sixteen slots for itself.  A
    refused registration changes nothing, with one exception: a mode with a parameter for
    which there is no slot stays in the list without its functions.  A mode that was
    unloaded and is registered again keeps its bit and its slot.  (The letters are letters
    or digits, and an unloaded mode is taken over by a mode of the same kind.) *)
Theorem chanmode_registry (R : registry) (HR : reg_steps R) :
  NoDup (cm_letter <$> channelmodes R) /\
  StronglySorted (fun a b => sort_character_lowercase_before_uppercase (cm_letter a) (cm_letter b) = true) (channelmodes R) /\
  (forall h h' m, h ∈ handlers_of R -> h' ∈ handlers_of R -> ctype (h_cm h) = CMODE_NORMAL ->
     0 < h_mode h < 2 ^ 63 /\
     cm_set (Z.lor m (h_mode h)) h' = cm_set m h' || (h_letter h =? h_letter h') /\
     cm_set (Z.ldiff m (h_mode h)) h' = cm_set m h' && negb (h_letter h =? h_letter h')) /\
  (forall m m', m ∈ channelmodes R -> m' ∈ channelmodes R -> with_slot m = true ->
     (cm_slot m < MAXPARAMMODES)%nat /\ ParamTable R !! cm_slot m = Some (cm_letter m) /\ (with_slot m' = true -> cm_slot m' = cm_slot m -> m' = m)) /\
  (forall req, registered R req (CmodeAdd R req)).
Proof.
  pose proof (reg_steps_fine R HR) as HF. pose proof (fine_handlers R HF) as Hok. pose proof HF as [R1 R2 R3 R4 R5].
  split; [by apply sorted_letters|]. split; [|split; [|split]].
  - unfold letters_sorted in R2. clear - R1 R2. induction R2 as [|m l Hs IH Hm]; [constructor|]. apply Forall_cons in R1 as [Hf R1]. constructor; [by apply IH|].
    rewrite Forall_forall in Hm, R1 |- *. intros m' Hm'. rewrite sort_character_key by (apply Hf || apply (R1 m' Hm')). by apply Z.ltb_lt, Hm.
  - intros h h' m Hh Hh' Ht. destruct (ho_bits _ Hok h Hh Ht) as (k & Hk & Ek).
    assert (Hpos : 0 < h_mode h < 2 ^ 63).
    { rewrite Ek. split; [apply Z.pow_pos_nonneg; lia|apply Z.pow_lt_mono_r; lia]. }
    split; [done|]. split; [apply (cm_set_lor (handlers_of R))|apply (cm_set_ldiff (handlers_of R))]; (done || lia).
  - intros m m' Hm Hm' Hw. destruct (R4 m Hm Hw) as [H1 H2]. split; [done|]. split; [done|]. intros Hw' E. destruct (R4 m' Hm' Hw') as [_ H3]. rewrite E, H2 in H3.
    apply (same_entry R); [done..|]. by injection H3.
  - apply CmodeAdd_cases.
Qed.

Lemma chanmode_registry_witness : NoDup (cm_letter <$> channelmodes shipped_registry) /\ (cm_letter <$> channelmodes shipped_registry) = str "acdhiklmnopqrstvzCDGKLMNOPQRSTVZ".
Proof.
  split; [apply (chanmode_registry shipped_registry shipped_steps)|vm_compute; reflexivity].
Defined.

(** An unloaded flag whose letter is registered again for a mode with a parameter is
    given the slot 0, which another mode has. *)
Example takeover_shares_slot :
  let R := (CmodeAdd (CmodeDel true 105 shipped_registry) (param_info 105 true cmode_key_is_ok key_handler)).1 in
  (cm_slot <$> lookup_cm 105 (channelmodes R)) = Some 0%nat /\ (cm_slot <$> lookup_cm 107 (channelmodes R)) = Some 0%nat.
Proof. vm_compute. split; reflexivity. Qed.
