(* ===== verification/Mode.v ===== *)
(** * The MODE command (src/modules/mode.c)

    [set_mode] goes through the letters of a MODE line: +b, +e and +I change a list, a
    member mode changes the access of a member, and every other mode is a flag of the
    channel, some of them with a parameter.  The changes with a parameter are collected
    in [pvar], and [make_mode_str] turns them and the difference of the flags into the
    lines that go to the channel and to the other servers. *)
From S2P Require Import Prelude Chars Strings ChanMode ModeParse Utf8 Client Hash Bans Crule CruleFuncs CruleSpec User MatchUser Extban BanMask BanMode ChanParam.

(** ** State *)

(** The parts of a channel that MODE reads and changes.  Members are what [Channel]
    represents: the access letters of every member. *)
Record mchan := MkMChan {
  mc_bans : BanChannel;                 (** the name and the three lists *)
  mc_mode : Z;                          (** [channel->mode.mode] *)
  mc_params : gmap Z cstring;           (** [channel->mode.mode_params], as text, by letter *)
  mc_members : gmap positive cstring;
  mc_lock : option cstring              (** [channel->mode_lock] *)
}.

Definition set_bans (ch : mchan) (b : BanChannel) : mchan := MkMChan b (mc_mode ch) (mc_params ch) (mc_members ch) (mc_lock ch).
Definition set_mode_bits (ch : mchan) (m : Z) : mchan := MkMChan (mc_bans ch) m (mc_params ch) (mc_members ch) (mc_lock ch).
Definition set_params (ch : mchan) (p : gmap Z cstring) : mchan := MkMChan (mc_bans ch) (mc_mode ch) p (mc_members ch) (mc_lock ch).
Definition set_members (ch : mchan) (m : gmap positive cstring) : mchan := MkMChan (mc_bans ch) (mc_mode ch) (mc_params ch) m (mc_lock ch).

(** A string of [pvar]: the sign, the letter and the parameter. *)
Record pv := MkPv { p_what : mode_what; p_letter : Z; p_text : cstring }.

(** A line of a MODE message: the letters and the parameters. *)
Abbreviation line := (cstring * cstring)%type.

Definition MODEBUFLEN : nat := 200.
Definition MAXMODEPARAMS : nat := 12.
Definition MAXMULTILINEMODES : nat := 3.
Definition BUFSIZE : nat := 512.

(** The users, as [find_user], [find_chasing] and [client->name] give them. *)
Record directory := MkDirectory {
  d_find_user : cstring -> option positive;
  d_find_chasing : cstring -> option positive;
  d_name : positive -> cstring;
  d_servicebot : positive -> bool                (** [IsServiceBot] *)
}.

Record mode_env := MkModeEnv {
  e_handlers : list Handler;                     (** [channelmodes] *)
  e_conv : conv_env;
  e_groups : list cstring;
  e_maxbans : Z;
  e_restrict : option cstring;                   (** [RESTRICT_CHANNELMODES] *)
  e_services : bool                              (** [find_server(SERVICES_NAME, NULL)] *)
}.

Section mode.
Context (E : mode_env) (D : directory).

Definition find_handler (c : Z) : option Handler := List.find (fun h => h_letter h =? c) (e_handlers E).

Definition handler_bit (c : Z) : Z := match find_handler c with Some h => h_mode h | None => 0 end.

Definition has_channel_mode (ch : mchan) (c : Z) : bool :=
  existsb (fun h => (h_letter h =? c) && has (mc_mode ch) (h_mode h)) (e_handlers E).

(** [HOOKTYPE_MODECHAR_ADD] and [HOOKTYPE_MODECHAR_DEL]: +s clears +p, +p clears +s and
    -i clears +K. *)
Definition modechar_add (c m : Z) : Z :=
  if c =? 115 then Z.ldiff m (handler_bit 112) else if c =? 112 then Z.ldiff m (handler_bit 115) else m.

Definition modechar_del (c m : Z) : Z := if c =? 105 then Z.ldiff m (handler_bit 75) else m.

(** ** One letter *)

Definition do_mode_char_write (pvar : list pv) (what : mode_what) (c : Z) (s : cstring) : list pv :=
  if (MAXMODEPARAMS <=? length pvar)%nat then pvar else pvar ++ [MkPv what c (take MODEBUFLEN s)].

(** The client's own access. *)
Definition my_access (cl : mclient) (ch : mchan) : cstring :=
  match c_user cl with Some u => default [] (mc_members ch !! u) | None => [] end.

Definition list_type (c : Z) : option ExtbanType :=
  if c =? 98 then Some EXBTYPE_BAN else if c =? 101 then Some EXBTYPE_EXCEPT else if c =? 73 then Some EXBTYPE_INVEX else None.

Definition ok_of (cl : mclient) (ch : mchan) (t : ExtbanType) (what : mode_what) : ok_ctx :=
  MkOkCtx (c_my_user cl) (c_oper cl) (c_perm cl (str "channel:override:mode:extban")) (mc_bans ch) what t EXBCHK_ACCESS.

(** The channel, [pvar] and the number of parameters that are used up.  [None] is the
    fault of comparing two empty masks. *)
Definition do_mode_char_list_mode (cl : mclient) (by_ : setter) (t : ExtbanType) (c : Z) (param : option cstring) (what : mode_what)
    (ch : mchan) (pvar : list pv) : option (mchan * list pv * nat) :=
  match param with
  | None => Some (ch, pvar, 0%nat)
  | Some p =>
      if (MAXMODEPARAMS <=? length pvar)%nat then Some (ch, pvar, 0%nat)
      else
        '(b, r) ← mode_ban_handler (e_conv E) (e_groups E) (e_maxbans E) by_ (ok_of cl ch t what) p;
        Some (set_bans ch b, match r with Some s => do_mode_char_write pvar what c s | None => pvar end, 1%nat)
  end.

Definition do_mode_char_member_mode_new (cl : mclient) (h : Handler) (param : cstring) (what : mode_what) (ch : mchan) (pvar : list pv)
    : mchan * list pv :=
  match d_find_chasing D param with
  | None => (ch, pvar)
  | Some target =>
      match mc_members ch !! target with
      | None => (ch, pvar)
      | Some modes =>
          let set := contains (h_letter h) modes in
          match what with
          | MODE_ADD =>
              if set then (ch, pvar)
              else (set_members ch (<[target := addlettertomstring (h_cm <$> e_handlers E) modes (h_letter h)]> (mc_members ch)),
                    do_mode_char_write pvar what (h_letter h) (d_name D target))
          | _ =>
              if negb set then (ch, pvar)
              else if c_my_user cl && d_servicebot D target && negb (c_perm cl (str "services:servicebot:deop")) &&
                      negb (c_perm cl (str "channel:override:mode:del"))
              then (ch, pvar)
              else (set_members ch (<[target := delletterfromstring modes (h_letter h)]> (mc_members ch)),
                    do_mode_char_write pvar what (h_letter h) (d_name D target))
          end
      end
  end.

(** The flag and the parameter of a mode that passed the checks. *)
Definition extmode_set (h : Handler) (what : mode_what) (param : cstring) (ch : mchan) : mchan :=
  let c := h_letter h in
  match what, i_param (h_info h) with
  | MODE_ADD, Some ph => set_mode_bits (set_params ch (<[c := ph_store ph param]> (mc_params ch))) (modechar_add c (Z.lor (mc_mode ch) (h_mode h)))
  | MODE_ADD, None => set_mode_bits ch (modechar_add c (Z.lor (mc_mode ch) (h_mode h)))
  | _, Some _ => set_mode_bits (set_params ch (delete c (mc_params ch))) (modechar_del c (Z.ldiff (mc_mode ch) (h_mode h)))
  | _, None => set_mode_bits ch (modechar_del c (Z.ldiff (mc_mode ch) (h_mode h)))
  end.

Definition mode_denied (samode : bool) (cl : mclient) (h : Handler) (param : option cstring) (what : mode_what) (ch : mchan) : bool :=
  c_my_user cl &&
  match mode_access (i_is_ok (h_info h)) cl (my_access cl ch) (has_channel_mode ch 105)
          (match param, c_user cl with Some p, Some u => bool_decide (d_find_user D p = Some u) | _, _ => false end) what with
  | EX_ALWAYS_DENY => true
  | EX_DENY => negb (c_perm cl (str "channel:override:mode:del")) && negb samode
  | EX_ALLOW => false
  end.

(** What a mode with a parameter is set to and written as; [None] when it is left as it
    is. *)
Definition extmode_param (h : Handler) (ph : ParamHandler) (what : mode_what) (param : option cstring) (ch : mchan) (pvar : list pv)
    : option (cstring * list pv) :=
  let c := h_letter h in
  match what with
  | MODE_ADD =>
      p ← param;
      if negb (ph_ok ph (h_name (mc_bans ch)) p) then None
      else
        morphed ← ph_conv ph p;
        if has (mc_mode ch) (h_mode h) && bool_decide (mc_params ch !! c = Some morphed) then None
        else Some (morphed, do_mode_char_write pvar what c morphed)
  | _ =>
      if negb (has (mc_mode ch) (h_mode h)) then None
      else Some ([], if unset_with_param (h_cm h) then do_mode_char_write pvar what c (default (str "(null)") (mc_params ch !! c)) else pvar)
  end.

Definition do_extmode_char (samode : bool) (cl : mclient) (h : Handler) (param : option cstring) (what : mode_what) (ch : mchan) (pvar : list pv)
    : mchan * list pv * nat :=
  let cm := h_cm h in
  let paracnt := if bool_decide (what = MODE_ADD) then Z.to_nat (paracount cm)
                 else if bool_decide (what = MODE_DEL) && unset_with_param cm then 1%nat else 0%nat in
  if negb (paracnt =? 0)%nat && (bool_decide (param = None) || (MAXMODEPARAMS <=? length pvar)%nat) then (ch, pvar, 0%nat)
  else if h_local h && negb (c_my_user cl) then (ch, pvar, paracnt)
  else if mode_denied samode cl h param what ch then (ch, pvar, paracnt)
  else match ctype cm with
       | CMODE_MEMBER => (do_mode_char_member_mode_new cl h (default [] param) what ch pvar, 1%nat)
       | CMODE_NORMAL =>
           if existsb (fun x => p_letter x =? h_letter h) pvar then (ch, pvar, paracnt)
           else match i_param (h_info h) with
                | None => (extmode_set h what [] ch, pvar, paracnt)
                | Some ph => match extmode_param h ph what param ch pvar with
                             | None => (ch, pvar, paracnt)
                             | Some (morphed, pvar) => (extmode_set h what morphed ch, pvar, paracnt)
                             end
                end
       end.

(** ** [set_mode] *)

(** [make_extcmodestr]: [me.server->features.chanmodes]. *)
Definition my_chanmodes : list cstring :=
  let pick p := h_letter <$> base.filter (fun h => p (h_cm h) = true) (e_handlers E) in
  [str "beI";
   pick (fun cm => negb (paracount cm =? 0) && unset_with_param cm && negb (is_member_mode cm));
   pick (fun cm => negb (paracount cm =? 0) && negb (unset_with_param cm));
   pick (fun cm => paracount cm =? 0)].

Definition paracount_in (chanmodes : list cstring) (what : mode_what) (c : Z) : option nat :=
  if contains c (nth 0 chanmodes []) || contains c (nth 1 chanmodes []) then Some 1%nat
  else if contains c (nth 2 chanmodes []) then Some (if bool_decide (what = MODE_ADD) then 1%nat else 0%nat)
  else if contains c (nth 3 chanmodes []) then Some 0%nat else None.

Definition paracount_for_chanmode_from_server (cl : mclient) (what : mode_what) (c : Z) : nat :=
  if c_my_user cl then 0%nat
  else match paracount_in (c_chanmodes cl) what c with
       | Some n => n
       | None => if (c =? 70) && bool_decide (what = MODE_ADD) then 1%nat else 0%nat
       end.

Definition paracount_for_chanmode (what : mode_what) (c : Z) : nat := default 0%nat (paracount_in my_chanmodes what c).

Record mstate := MkMState { s_ch : mchan; s_pvar : list pv; s_args : list cstring; s_what : mode_what }.

Definition mlocked (cl : mclient) (ch : mchan) (c : Z) : bool :=
  c_my_user cl && match mc_lock ch with Some k => contains c k | None => false end &&
  (negb (c_oper cl) || e_services E || negb (c_perm cl (str "channel:override:mlock"))).

Definition restricted (cl : mclient) (c : Z) : bool :=
  match e_restrict E with
  | Some r => negb (c_perm cl (str "immune:restrict-channelmodes")) && contains c r
  | None => false
  end.

(** One round of the loop over the letters. *)
Definition mode_char (samode : bool) (cl : mclient) (by_ : setter) (s : mstate) (c : Z) : option mstate :=
  let what := s_what s in
  let skip n := Some (MkMState (s_ch s) (s_pvar s) (drop n (s_args s)) what) in
  if c =? 43 then Some (MkMState (s_ch s) (s_pvar s) (s_args s) MODE_ADD)
  else if c =? 45 then Some (MkMState (s_ch s) (s_pvar s) (s_args s) MODE_DEL)
  else if mlocked cl (s_ch s) c then skip 0%nat
  else
    let argument := take MODEBUFLEN <$> head (s_args s) in
    match list_type c, find_handler c with
    | None, None => skip (paracount_for_chanmode_from_server cl what c)
    | Some t, _ =>
        if restricted cl c then skip (paracount_for_chanmode what c)
        else
          '(ch, pvar, n) ← do_mode_char_list_mode cl by_ t c argument what (s_ch s) (s_pvar s);
          Some (MkMState ch pvar (drop n (s_args s)) what)
    | None, Some h =>
        if restricted cl c then skip (paracount_for_chanmode what c)
        else
          let '(ch, pvar, n) := do_extmode_char samode cl h argument what (s_ch s) (s_pvar s) in
          Some (MkMState ch pvar (drop n (s_args s)) what)
    end.

Definition mode_loop (samode : bool) (cl : mclient) (by_ : setter) (s : mstate) (modes : cstring) : option mstate :=
  foldl (fun r c => s ← r; mode_char samode cl by_ s c) (Some s) modes.

(** ** [make_mode_str] *)

Definition flags_added (oldem newem : Z) : list Handler :=
  base.filter (fun h => (h_letter h <> 0 /\ paracount (h_cm h) = 0) /\ has newem (h_mode h) = true /\ has oldem (h_mode h) = false) (e_handlers E).

Definition flags_removed (oldem newem : Z) : list Handler :=
  base.filter (fun h => (h_letter h <> 0 /\ unset_with_param (h_cm h) = false) /\ has newem (h_mode h) = false /\ has oldem (h_mode h) = true) (e_handlers E).

(** The letters of one sign; the sign is written with the first of them. *)
Definition write_flags (sign : Z) (letters : list Z) (buf : cstring) : cstring :=
  match letters with
  | [] => buf
  | _ => foldl (fun b c => strlcat_letter b c BUFSIZE) (strlcat_letter buf sign BUFSIZE) letters
  end.

Definition sign_of (what : mode_what) : Z := match what with MODE_ADD => 43 | _ => 45 end.

(** The loop over [pvar]: the lines before the current one, the current one and the
    sign that is in force there. *)
Fixpoint write_changes (pvar : list pv) (full : list line) (cur : line) (what : mode_what) : list line :=
  match pvar with
  | [] => full ++ [cur]
  | x :: pvar =>
      let over := (507 <? length cur.1 + length cur.2 + length (p_text x))%nat in
      if over && (length full =? MAXMULTILINEMODES)%nat then full ++ [cur]
      else
        let full := if over then full ++ [cur] else full in
        let what := if over then MODE_NULL else what in
        let '(modes, params) := if over then ([], []) else cur in
        let modes := if bool_decide (p_what x = what) then modes else strlcat_letter modes (sign_of (p_what x)) BUFSIZE in
        let modes := strlcat_letter modes (p_letter x) BUFSIZE in
        let params := strlcat_letter (strlcat params (p_text x) BUFSIZE).1 ch_space BUFSIZE in
        write_changes pvar full (modes, params) (p_what x)
  end.

Definition strip_space (s : cstring) : cstring := if bool_decide (last s = Some ch_space) then take (length s - 1) s else s.

Definition empty_mode (m : cstring) : bool :=
  match m with [] => true | [c] => (c =? 43) || (c =? 45) | _ => false end.

Definition make_mode_str (newem oldem : Z) (pvar : list pv) : option (list line) :=
  let added := h_letter <$> flags_added oldem newem in
  let removed := h_letter <$> flags_removed oldem newem in
  let first := write_flags 45 removed (write_flags 43 added []) in
  let what := match removed, added with _ :: _, _ => MODE_DEL | [], _ :: _ => MODE_ADD | [], [] => MODE_NULL end in
  let lines := (fun l => (l.1, strip_space l.2)) <$> write_changes pvar [] (first, []) what in
  match lines with
  | [l] => if empty_mode l.1 then None else Some lines
  | _ => Some lines
  end.

Definition set_mode (samode : bool) (cl : mclient) (by_ : setter) (ch : mchan) (modes : cstring) (args : list cstring)
    : option (mchan * list pv * option (list line)) :=
  s ← mode_loop samode cl by_ (MkMState ch [] args MODE_ADD) modes;
  Some (s_ch s, s_pvar s, make_mode_str (mc_mode (s_ch s)) (mc_mode ch) (s_pvar s)).
End mode.
