(* ===== verification/ModeLine.v ===== *)
(** * The lines of a mode change (src/modules/mode.c, [make_mode_str])

    A server takes the lines of [make_mode_str] apart again, letter by letter and word
    by word.  The lines fit into their buffers, they are never more than there is room
    for as long as the change is not larger than a client can ask for, and read one
    after the other they give all the changes in their order. *)
From S2P Require Import Prelude Chars Strings ChanMode ModeParse Utf8 Client Hash Bans Crule CruleFuncs CruleSpec User MatchUser Extban BanMask BanMode ChanParam Mode.

(** ** Lines without limits *)

Fixpoint modes_of (w : mode_what) (g : list pv) : cstring :=
  match g with
  | [] => []
  | x :: g => (if bool_decide (p_what x = w) then [] else [sign_of (p_what x)]) ++ [p_letter x] ++ modes_of (p_what x) g
  end.

Fixpoint params_of (g : list pv) : cstring :=
  match g with [] => [] | x :: g => p_text x ++ [ch_space] ++ params_of g end.

Definition line_of (g : list pv) : line := (modes_of MODE_NULL g, params_of g).

(** The room that changes take: the text, a blank, a letter and a sign. *)
Definition weight (g : list pv) : nat := list_sum (map (fun x => length (p_text x) + 3)%nat g).

Lemma strlcat_letter_fits b c : (length b <= 510)%nat -> strlcat_letter b c BUFSIZE = b ++ [c].
Proof.
  intros H. unfold strlcat_letter, BUFSIZE. cbn [Nat.eqb orb]. rewrite (proj2 (Nat.leb_gt _ _)); [done|lia].
Qed.

Lemma line_strlcat_fits b s : (length b + length s <= 511)%nat -> (strlcat b s BUFSIZE).1 = b ++ s.
Proof.
  intros H. pose proof (strlcat_take b s BUFSIZE) as Ht. unfold BUFSIZE in *. rewrite Ht by lia. apply take_ge. rewrite length_app. lia.
Qed.

(** The changes are spread over the current line and as many new ones as are needed. *)
Lemma write_changes_spec g full cur w :
  Forall (fun x => (length (p_text x) <= 200)%nat) g -> (length cur.1 + length cur.2 <= 510)%nat ->
  (length cur.1 + length cur.2 + weight g + 308 * length full <= 1434)%nat -> (length full <= 3)%nat ->
  exists g0 gs, g = g0 ++ concat gs /\ Forall (fun g => g <> []) gs /\
    write_changes g full cur w = full ++ (cur.1 ++ modes_of w g0, cur.2 ++ params_of g0) :: map line_of gs /\
    Forall (fun l => (length l.1 + length l.2 <= 510)%nat) ((cur.1 ++ modes_of w g0, cur.2 ++ params_of g0) :: map line_of gs).
Proof.
  revert full cur w. induction g as [|x g IH]; intros full [m p] w Ht Hfit Hw Hfull; cbn [write_changes fst snd] in *.
  - exists [], []. cbn [concat modes_of params_of map app]. rewrite !app_nil_r. split_and!; try done. by constructor.
  - apply Forall_cons in Ht as [Hx Ht]. cbn [weight map list_sum foldr] in Hw. change (foldr Init.Nat.add 0%nat (map (fun x => length (p_text x) + 3)%nat g)) with (weight g) in Hw.
    destruct (Nat.ltb_spec 507 (length m + length p + length (p_text x))) as [Ho|Ho]; cbn [andb].
    + unfold MAXMULTILINEMODES. destruct (Nat.eqb_spec (length full) 3) as [E|E]; [exfalso; lia|]. cbn [andb].
      set (m1 := if bool_decide (p_what x = MODE_NULL) then [] else strlcat_letter [] (sign_of (p_what x)) BUFSIZE).
      assert (Hm1 : m1 = if bool_decide (p_what x = MODE_NULL) then [] else [sign_of (p_what x)]) by (subst m1; case_bool_decide; done).
      assert (Hl1 : (length m1 <= 1)%nat) by (rewrite Hm1; case_bool_decide; simpl; lia).
      rewrite (strlcat_letter_fits m1) by lia. rewrite (line_strlcat_fits []) by (simpl; lia). rewrite strlcat_letter_fits by (simpl; lia).
      destruct (IH (full ++ [(m, p)]) (m1 ++ [p_letter x], ([] ++ p_text x) ++ [ch_space]) (p_what x)) as (g0 & gs & -> & Hne & -> & Hlen).
      * done.
      * cbn [fst snd]. rewrite !length_app. simpl. lia.
      * cbn [fst snd]. rewrite !length_app. simpl. lia.
      * rewrite length_app. simpl. lia.
      * exists [], ((x :: g0) :: gs). cbn [concat app fst snd modes_of params_of map]. rewrite !app_nil_r. split_and!; [done|by constructor| |].
        -- rewrite <- app_assoc. unfold line_of at 2. cbn [modes_of params_of app]. by rewrite Hm1, <- !app_assoc.
        -- constructor; [done|]. unfold line_of at 1. cbn [modes_of params_of]. cbn [fst snd] in Hlen. by rewrite Hm1, <- !app_assoc in Hlen.
    + set (m1 := if bool_decide (p_what x = w) then m else strlcat_letter m (sign_of (p_what x)) BUFSIZE).
      assert (Hm1 : m1 = m ++ if bool_decide (p_what x = w) then [] else [sign_of (p_what x)]).
      { subst m1. case_bool_decide; [by rewrite app_nil_r|]. apply strlcat_letter_fits. lia. }
      assert (Hl1 : (length m1 <= length m + 1)%nat) by (rewrite Hm1, length_app; case_bool_decide; simpl; lia).
      rewrite (strlcat_letter_fits m1) by lia. rewrite (line_strlcat_fits p) by lia. rewrite strlcat_letter_fits by (rewrite length_app; lia).
      destruct (IH full (m1 ++ [p_letter x], (p ++ p_text x) ++ [ch_space]) (p_what x)) as (g0 & gs & -> & Hne & -> & Hlen).
      * done.
      * cbn [fst snd]. rewrite !length_app. simpl. lia.
      * cbn [fst snd]. rewrite !length_app. simpl. lia.
      * done.
      * exists (x :: g0), gs. cbn [app fst snd modes_of params_of]. cbn [fst snd] in Hlen. rewrite Hm1, <- !app_assoc in *. done.
Qed.

(** There are never more than four lines. *)
Lemma write_changes_count g full cur w : (length full <= 3)%nat -> (length (write_changes g full cur w) <= 4)%nat.
Proof.
  revert full cur w. induction g as [|x g IH]; intros full [m p] w Hf; cbn [write_changes fst snd]; [rewrite length_app; simpl; lia|].
  unfold MAXMULTILINEMODES. destruct (_ <? _)%nat; cbn [andb]; [|by apply IH].
  destruct (Nat.eqb_spec (length full) 3); [rewrite length_app; simpl; lia|]. apply IH. rewrite length_app. simpl. lia.
Qed.

(** ** The flags *)

Lemma foldl_letters ls b : (length b + length ls <= 511)%nat -> foldl (fun b c => strlcat_letter b c BUFSIZE) b ls = b ++ ls.
Proof.
  revert b. induction ls as [|c ls IH]; intros b Hl; cbn [foldl]; [by rewrite app_nil_r|]. simpl in Hl.
  rewrite strlcat_letter_fits by lia. rewrite IH by (rewrite length_app; simpl; lia). by rewrite <- app_assoc.
Qed.

Definition flags_of (sign : Z) (ls : list Z) : cstring := match ls with [] => [] | _ => sign :: ls end.

Lemma write_flags_fits sign ls b : (length b + length ls <= 510)%nat -> write_flags sign ls b = b ++ flags_of sign ls.
Proof.
  intros Hl. unfold write_flags. destruct ls as [|c ls]; [by rewrite app_nil_r|]. simpl in Hl. rewrite strlcat_letter_fits by lia.
  rewrite foldl_letters by (rewrite length_app; simpl; lia). by rewrite <- app_assoc.
Qed.

(** ** Words *)

Definition word (s : cstring) : Prop := s <> [] /\ ch_space ∉ s.

Lemma param_text_word p : param_text p -> word p.
Proof. intros (Hp & Hne & _). split; [done|]. intros H. rewrite Forall_forall in Hp. specialize (Hp _ H). unfold printable in Hp. lia. Qed.

Lemma tokens_word s rest : word s -> tokens [ch_space] (s ++ ch_space :: rest) = s :: tokens [ch_space] rest.
Proof.
  intros [Hne Hsp]. unfold tokens. assert (H : split_on [ch_space] (s ++ ch_space :: rest) = s :: split_on [ch_space] rest).
  { clear Hne. induction s as [|c s IH]; [done|]. cbn [app split_on]. rewrite IH by set_solver.
    assert (is_sep [ch_space] c = false) as ->; [|done]. unfold is_sep. cbn. rewrite orb_false_r. apply Z.eqb_neq. set_solver. }
  rewrite H. cbn [List.filter]. assert (nonempty s = true) as -> by (by destruct s). done.
Qed.

Lemma tokens_last s : word s -> tokens [ch_space] s = [s].
Proof.
  intros [Hne Hsp]. unfold tokens. assert (H : split_on [ch_space] s = [s]).
  { clear Hne. induction s as [|c s IH]; [done|]. cbn [split_on]. rewrite IH by set_solver.
    assert (is_sep [ch_space] c = false) as ->; [|done]. unfold is_sep. cbn. rewrite orb_false_r. apply Z.eqb_neq. set_solver. }
  rewrite H. cbn [List.filter]. by assert (nonempty s = true) as -> by (by destruct s).
Qed.

Lemma strip_params g : Forall (fun x => word (p_text x)) g -> tokens [ch_space] (strip_space (params_of g)) = p_text <$> g.
Proof.
  intros Hg. destruct (decide (g = [])) as [->|Hne]; [done|].
  assert (Hl : forall g, g <> [] -> exists s, params_of g = s ++ [ch_space]).
  { clear. induction g as [|x g IH]; [done|]. intros _. cbn [params_of]. destruct g as [|y g].
    - exists (p_text x). by rewrite app_nil_r.
    - destruct IH as [s Hs]; [done|]. exists (p_text x ++ [ch_space] ++ s). by rewrite Hs, <- !app_assoc. }
  destruct (Hl g Hne) as [s Hs]. unfold strip_space. rewrite Hs, last_snoc, bool_decide_true by done.
  rewrite length_app. cbn [length]. rewrite Nat.add_sub, take_app_length. revert s Hs Hg. clear Hne. induction g as [|x g IH]; intros s Hs Hg.
  - cbn [params_of] in Hs. by destruct s.
  - apply Forall_cons in Hg as [Hx Hg]. cbn [params_of] in Hs. destruct (decide (g = [])) as [->|Hne].
    + cbn [params_of] in Hs. rewrite app_nil_r in Hs. apply app_inj_2 in Hs as [<- _]; [|done]. rewrite tokens_last by done. done.
    + destruct (Hl g Hne) as [s' Hs']. rewrite Hs' in Hs. assert (s = p_text x ++ ch_space :: s') as ->.
      { rewrite app_assoc in Hs. rewrite app_assoc in Hs. apply app_inj_2 in Hs as [<- _]; [|done]. by rewrite <- app_assoc. }
      rewrite tokens_word by done. rewrite fmap_cons. f_equal. by apply IH.
Qed.

(** ** The whole string *)

(** The sign that is in force behind the flags. *)
Definition flags_sign (added removed : list Z) : mode_what :=
  match removed, added with _ :: _, _ => MODE_DEL | [], _ :: _ => MODE_ADD | [], [] => MODE_NULL end.

(** A change as the commands write it. *)
Definition pv_ok (x : pv) : Prop := p_what x <> MODE_NULL /\ param_text (p_text x).

Section lines.
Context (E : mode_env).

Definition added (oldem newem : Z) : list Z := h_letter <$> flags_added E oldem newem.
Definition removed (oldem newem : Z) : list Z := h_letter <$> flags_removed E oldem newem.

Definition first_line (oldem newem : Z) (g : list pv) : line :=
  (flags_of 43 (added oldem newem) ++ flags_of 45 (removed oldem newem) ++ modes_of (flags_sign (added oldem newem) (removed oldem newem)) g,
   strip_space (params_of g)).

Definition next_line (g : list pv) : line := (modes_of MODE_NULL g, strip_space (params_of g)).

Lemma strip_shorter s : (length (strip_space s) <= length s)%nat.
Proof using Type. unfold strip_space. case_bool_decide; [rewrite length_take|]; lia. Qed.

Lemma flags_length newem oldem g :
  (length (added oldem newem) + length (removed oldem newem) + 2 + weight g <= 1434)%nat ->
  (length (added oldem newem) + length (removed oldem newem) <= 500)%nat ->
  let f := flags_of 43 (added oldem newem) ++ flags_of 45 (removed oldem newem) in
  write_flags 45 (removed oldem newem) (write_flags 43 (added oldem newem) []) = f /\ (length f <= 510)%nat /\ (length f + weight g <= 1434)%nat.
Proof using Type.
  intros Hw Hl f. assert (Hf : forall s ls, (length (flags_of s ls) <= length ls + 1)%nat) by (intros s [|c ls]; simpl; lia).
  pose proof (Hf 43 (added oldem newem)). pose proof (Hf 45 (removed oldem newem)).
  rewrite (write_flags_fits 43) by (simpl; lia). rewrite (write_flags_fits 45) by (simpl; lia).
  split; [done|]. subst f. rewrite length_app. lia.
Qed.

(** The lines are the flags and the changes, cut somewhere between two changes. *)
Lemma make_mode_str_spec newem oldem P :
  Forall pv_ok P ->
  (length (added oldem newem) + length (removed oldem newem) + 2 + weight P <= 1434)%nat ->
  (length (added oldem newem) + length (removed oldem newem) <= 500)%nat ->
  match make_mode_str E newem oldem P with
  | None => added oldem newem = [] /\ removed oldem newem = [] /\ P = []
  | Some lines => exists g0 gs, P = g0 ++ concat gs /\ lines = first_line oldem newem g0 :: map next_line gs /\
      Forall (fun g => g <> []) gs /\ (length gs <= 3)%nat /\ Forall (fun l => (length l.1 + length l.2 <= 510)%nat) lines
  end.
Proof using Type.
  intros HP Hw Hl. destruct (flags_length newem oldem P Hw Hl) as (Hf & Hf1 & Hf2).
  set (A := added oldem newem) in *. set (R := removed oldem newem) in *. set (f := flags_of 43 A ++ flags_of 45 R) in *.
  destruct (write_changes_spec P [] (f, []) (flags_sign A R)) as (g0 & gs & HPg & Hne & Hwc & Hfit).
  - eapply Forall_impl; [exact HP|]. intros x [_ Hx]. unfold param_text in Hx. tauto.
  - cbn [fst snd length]. lia.
  - cbn [fst snd length]. lia.
  - simpl. lia.
  - cbn [app fst snd] in Hwc, Hfit. unfold make_mode_str. fold (added oldem newem) (removed oldem newem). fold A R. rewrite Hf.
    change (match R with [] => match A with [] => MODE_NULL | _ :: _ => MODE_ADD end | _ :: _ => MODE_DEL end) with (flags_sign A R).
    rewrite Hwc. rewrite fmap_cons.
    assert (Hgs : (length gs <= 3)%nat).
    { pose proof (write_changes_count P [] (f, []) (flags_sign A R) ltac:(simpl; lia)) as Hc. rewrite Hwc in Hc. cbn [length] in Hc. rewrite length_map in Hc. lia. }
    cbn [fst snd]. unfold line_of.
    assert (Hmap : (fun l : line => (l.1, strip_space l.2)) <$> map (fun g => (modes_of MODE_NULL g, params_of g)) gs = map next_line gs).
    { clear. induction gs as [|g gs IH]; [done|]. cbn [map]. rewrite fmap_cons, IH. done. }
    assert (Hlines : Forall (fun l : line => (length l.1 + length l.2 <= 510)%nat) (first_line oldem newem g0 :: map next_line gs)).
    { apply Forall_cons in Hfit as [H1 H2]. constructor.
      - unfold first_line. fold A R. cbn [fst snd] in H1 |- *. rewrite app_assoc. pose proof (strip_shorter (params_of g0)). fold f. lia.
      - apply Forall_map. apply Forall_map in H2. eapply Forall_impl; [exact H2|]. intros g Hg. unfold next_line, line_of in *. cbn [fst snd] in *.
        pose proof (strip_shorter (params_of g)). lia. }
    rewrite Hmap. assert (Hfl : (f ++ modes_of (flags_sign A R) g0, strip_space (params_of g0)) = first_line oldem newem g0).
    { unfold first_line. fold A R. by rewrite app_assoc. }
    rewrite Hfl. destruct gs as [|g gs]; [|exists g0, (g :: gs); done]. cbn [map].
    destruct (empty_mode (f ++ modes_of (flags_sign A R) g0)) eqn:Ee; [|by exists g0, []].
    cbn [concat] in HPg. rewrite app_nil_r in HPg. subst g0. subst f.
    destruct A as [|a A'], R as [|r R']; cbn in Ee; try done. destruct P as [|x P']; [done|]. apply Forall_cons in HP as [[Hx _] _].
    cbn [flags_of flags_sign app modes_of] in Ee. rewrite bool_decide_false in Ee by done. done.
Qed.
End lines.

(** ** The modes that are loaded *)

(** What the commands need of the list of modes, besides what registration ensures. *)
Record table_ok (l : list Handler) : Prop := {
  to_handlers : handlers_ok l;
  to_letter h : h ∈ l -> h_letter h ∉ [0; 43; 45; 98; 101; 73];
  to_normal h : h ∈ l -> ctype (h_cm h) = CMODE_NORMAL ->
    (paracount (h_cm h) = 0 /\ i_param (h_info h) = None /\ unset_with_param (h_cm h) = false) \/
    (paracount (h_cm h) = 1 /\ exists ph, i_param (h_info h) = Some ph /\ ParamLaws ph);
  to_member h : h ∈ l -> ctype (h_cm h) = CMODE_MEMBER -> paracount (h_cm h) = 1 /\ h_local h = false;
  to_hooks h : h ∈ l -> h_letter h ∈ [112; 115; 105; 75] -> ctype (h_cm h) = CMODE_NORMAL /\ paracount (h_cm h) = 0
}.

Definition info_fine (h : Handler) : bool :=
  bool_decide (h_letter h ∉ [0; 43; 45; 98; 101; 73]) &&
  match ctype (h_cm h) with
  | CMODE_NORMAL => ((paracount (h_cm h) =? 0) && negb (unset_with_param (h_cm h)) && match i_param (h_info h) with None => true | Some _ => false end) ||
                    ((paracount (h_cm h) =? 1) && match i_param (h_info h) with Some _ => true | None => false end)
  | CMODE_MEMBER => (paracount (h_cm h) =? 1) && negb (h_local h)
  end &&
  (bool_decide (h_letter h ∉ [112; 115; 105; 75]) || (bool_decide (ctype (h_cm h) = CMODE_NORMAL) && (paracount (h_cm h) =? 0))).

Lemma table_ok_check l :
  handlers_ok l -> forallb info_fine l = true -> (forall h ph, h ∈ l -> i_param (h_info h) = Some ph -> ParamLaws ph) -> table_ok l.
Proof.
  intros Hl Hc Hlaws. assert (H : forall h, h ∈ l -> info_fine h = true).
  { intros h Hh. rewrite forallb_forall in Hc. by apply Hc, list_elem_of_In. }
  split; [done| | | |].
  - intros h Hh. apply H in Hh. unfold info_fine in Hh. rewrite !andb_true_iff in Hh. destruct Hh as [[Hh _] _]. by apply bool_decide_eq_true in Hh.
  - intros h Hh Ht. pose proof (H h Hh) as Hi. unfold info_fine in Hi. rewrite Ht, !andb_true_iff in Hi. destruct Hi as [[_ Hi] _].
    apply orb_true_iff in Hi as [Hi|Hi].
    + left. rewrite !andb_true_iff in Hi. destruct Hi as [[Hp%Z.eqb_eq Hu%negb_true_iff] Hn]. split; [done|]. split; [by destruct (i_param (h_info h))|done].
    + right. apply andb_prop in Hi as [Hp%Z.eqb_eq Hn]. split; [done|]. destruct (i_param (h_info h)) as [ph|] eqn:Ep; [|done]. exists ph. split; [done|]. by apply (Hlaws h).
  - intros h Hh Ht. apply H in Hh. unfold info_fine in Hh. rewrite Ht, !andb_true_iff in Hh. destruct Hh as [[_ Hh] _].
    destruct Hh as [Hh%Z.eqb_eq Hl1%negb_true_iff]. done.
  - intros h Hh Ht. apply H in Hh. unfold info_fine in Hh. rewrite !andb_true_iff in Hh. destruct Hh as [_ Hh]. apply orb_true_iff in Hh as [Hh|Hh].
    + by apply bool_decide_eq_true in Hh.
    + apply andb_prop in Hh as [Hh%bool_decide_eq_true Hp%Z.eqb_eq]. done.
Qed.

(** The shipped parameters are the three that are modelled. *)
Lemma shipped_params ph req : req ∈ shipped_infos -> i_param req = Some ph -> ParamLaws ph.
Proof.
  intros Hr Hp. unfold shipped_infos in Hr. rewrite !elem_of_cons in Hr.
  repeat destruct Hr as [->|Hr]; try (discriminate Hp); try (injection Hp as <-; apply _). by apply not_elem_of_nil in Hr.
Qed.

Lemma shipped_table_ok : table_ok shipped_handlers.
Proof.
  apply table_ok_check; [exact shipped_handlers_ok|vm_compute; reflexivity|]. intros h ph Hh Hp.
  apply handler_in in Hh as (m & i & Hm & Hi & ->). destruct (register_params shipped_infos no_modes m i Hm Hi) as [(m' & Hn & _)|Hr]; [by apply not_elem_of_nil in Hn|].
  by apply (shipped_params ph i).
Qed.

(** ** Reading the lines *)

Definition dir_of (w : mode_what) : ModeParse.direction := match w with MODE_ADD => ModeParse.MODE_ADD | _ => ModeParse.MODE_DEL end.

(** A line read by [parse_chanmode]. *)
Definition read_line (cms : list Cmode) (l : line) : list (ModeParse.direction * Z * option cstring) :=
  changes cms ModeParse.MODE_ADD l.1 (tokens [ch_space] l.2).

Definition as_change (x : pv) : ModeParse.direction * Z * option cstring := (dir_of (p_what x), p_letter x, Some (p_text x)).

Section reading.
Context (cms : list Cmode).

Definition plain_letter (c : Z) : Prop := c <> 43 /\ c <> 45.

(** A change that is written with its parameter is of a mode that has one. *)
Definition takes_word (x : pv) : Prop := plain_letter (p_letter x) /\ wants_word cms (dir_of (p_what x)) (p_letter x) = Some true.

Lemma sign_read w rest ws d : w <> MODE_NULL -> changes cms d (sign_of w :: rest) ws = changes cms (dir_of w) rest ws.
Proof using Type. by destruct w. Qed.

Lemma stripcrlf_id s : printables s -> stripcrlf s = s.
Proof using Type.
  induction s as [|c s IH]; [done|]. intros [Hc Hs]%Forall_cons. cbn [stripcrlf]. unfold printable in Hc.
  rewrite (proj2 (Z.eqb_neq c 13)), (proj2 (Z.eqb_neq c 10)) by lia. cbn [orb]. by rewrite IH.
Qed.

Lemma group_read g w d ws :
  Forall (fun x => pv_ok x /\ takes_word x) g -> w = MODE_NULL \/ d = dir_of w ->
  changes cms d (modes_of w g) ((p_text <$> g) ++ ws) = as_change <$> g.
Proof using Type.
  revert w d. induction g as [|x g IH]; intros w d Hg Hw; [done|]. apply Forall_cons in Hg as [[[Hx Ht] [[H1 H2] Hword]] Hg].
  cbn [modes_of]. rewrite fmap_cons.
  assert (Hsign : changes cms d ((if bool_decide (p_what x = w) then [] else [sign_of (p_what x)]) ++ [p_letter x] ++ modes_of (p_what x) g)
                    ((p_text <$> x :: g) ++ ws) =
                  changes cms (dir_of (p_what x)) (p_letter x :: modes_of (p_what x) g) ((p_text <$> x :: g) ++ ws)).
  { case_bool_decide as E; [|by rewrite <- sign_read with (d := d)]. cbn [app]. destruct Hw as [Hw|Hw]; [congruence|]. by rewrite Hw, <- E. }
  rewrite fmap_cons in Hsign. rewrite Hsign. cbn [changes app]. rewrite (proj2 (Z.eqb_neq (p_letter x) 43)), (proj2 (Z.eqb_neq (p_letter x) 45)) by done.
  rewrite Hword. destruct Ht as (Hp & _). rewrite stripcrlf_id by done. rewrite IH; [done|done|by right].
Qed.

Lemma flags_read d ls rest ws :
  Forall (fun c => plain_letter c /\ wants_word cms d c = Some false) ls ->
  changes cms d (ls ++ rest) ws = ((fun c => (d, c, None)) <$> ls) ++ changes cms d rest ws.
Proof using Type.
  induction ls as [|c ls IH]; [done|]. intros [[[H1 H2] Hw] Hl]%Forall_cons. cbn [app changes]. rewrite fmap_cons.
  rewrite (proj2 (Z.eqb_neq c 43)), (proj2 (Z.eqb_neq c 45)), Hw, IH by done. done.
Qed.
End reading.

Section table.
Context (E : mode_env) (HT : table_ok (e_handlers E)).
Abbreviation cms := (h_cm <$> e_handlers E).

Lemma find_cm_handler h : h ∈ e_handlers E -> find_channel_mode_handler cms (h_letter h) = Some (h_cm h).
Proof using HT.
  intros Hh. unfold find_channel_mode_handler. pose proof (same_letter _ (to_handlers _ HT)) as Hs. revert Hh Hs.
  generalize (e_handlers E). intros l Hh Hs. induction l as [|h' l IH]; [by apply not_elem_of_nil in Hh|]. cbn [fmap list_fmap List.find].
  destruct (Z.eqb_spec (letter (h_cm h')) (h_letter h)) as [Heq|Hne].
  - f_equal. f_equal. apply Hs; [left|done|done].
  - apply elem_of_cons in Hh as [->|Hh]; [done|]. apply IH; [done|]. intros a b Ha Hb. apply Hs; by right.
Qed.

Lemma find_handler_self h : h ∈ e_handlers E -> find_handler E (h_letter h) = Some h.
Proof using HT.
  intros Hh. unfold find_handler. pose proof (same_letter _ (to_handlers _ HT)) as Hs. revert Hh Hs.
  generalize (e_handlers E). intros l Hh Hs. induction l as [|h' l IH]; [by apply not_elem_of_nil in Hh|]. cbn [List.find].
  destruct (Z.eqb_spec (h_letter h') (h_letter h)) as [Heq|Hne].
  - f_equal. apply Hs; [left|done|done].
  - apply elem_of_cons in Hh as [->|Hh]; [done|]. apply IH; [done|]. intros a b Ha Hb. apply Hs; by right.
Qed.

Lemma wants_handler h d : h ∈ e_handlers E ->
  wants_word cms d (h_letter h) = Some (bool_decide (paracount (h_cm h) = 1 /\ (d = ModeParse.MODE_ADD \/ unset_with_param (h_cm h) = true))).
Proof using HT.
  intros Hh. unfold wants_word. rewrite bool_decide_false by (pose proof (to_letter _ HT h Hh); set_solver). by rewrite find_cm_handler.
Qed.

Lemma handler_plain h : h ∈ e_handlers E -> plain_letter (h_letter h).
Proof using HT. intros Hh. pose proof (to_letter _ HT h Hh). unfold plain_letter. set_solver. Qed.

Lemma added_read old new : Forall (fun c => plain_letter c /\ wants_word cms ModeParse.MODE_ADD c = Some false) (added E old new).
Proof using HT.
  apply Forall_fmap, Forall_forall. intros h [[[Hz Hp] _] Hh]%list_elem_of_filter. split; [by apply handler_plain|]. cbn.
  rewrite wants_handler, bool_decide_false by (done || (rewrite Hp; intros [? _]; lia)). done.
Qed.

Lemma removed_read old new : Forall (fun c => plain_letter c /\ wants_word cms ModeParse.MODE_DEL c = Some false) (removed E old new).
Proof using HT.
  apply Forall_fmap, Forall_forall. intros h [[[Hz Hu] _] Hh]%list_elem_of_filter. split; [by apply handler_plain|]. cbn.
  rewrite wants_handler, bool_decide_false; [done| |done]. rewrite Hu. by intros [_ [?|?]].
Qed.

Lemma first_line_read old new g :
  Forall (fun x => pv_ok x /\ takes_word cms x) g ->
  read_line cms (first_line E old new g) =
    ((fun c => (ModeParse.MODE_ADD, c, None)) <$> added E old new) ++ ((fun c => (ModeParse.MODE_DEL, c, None)) <$> removed E old new) ++ (as_change <$> g).
Proof using HT.
  intros Hg. unfold read_line, first_line. cbn [fst snd].
  rewrite strip_params by (eapply Forall_impl; [exact Hg|]; intros x [[_ Hx] _]; by apply param_text_word).
  pose proof (added_read old new) as HA. pose proof (removed_read old new) as HR.
  set (A := added E old new) in *. set (R := removed E old new) in *. rewrite <- (app_nil_r (p_text <$> g)).
  assert (HRg : forall d, (A = [] /\ R = [] \/ A <> [] /\ R = [] /\ d = ModeParse.MODE_ADD \/ R <> []) ->
    changes cms d (flags_of 45 R ++ modes_of (flags_sign A R) g) ((p_text <$> g) ++ []) =
    ((fun c => (ModeParse.MODE_DEL, c, None)) <$> R) ++ (as_change <$> g)).
  { intros d Hd. destruct R as [|r R'] eqn:ER.
    - cbn [flags_of app fmap list_fmap]. apply group_read; [done|]. destruct A; cbn [flags_sign]; [by left|right]. naive_solver.
    - cbn [flags_of]. rewrite <- ER in *. change ((45 :: R) ++ modes_of (flags_sign A R) g) with (45 :: (R ++ modes_of (flags_sign A R) g)).
      change (changes cms d (45 :: R ++ modes_of (flags_sign A R) g) ((p_text <$> g) ++ [])) with (changes cms ModeParse.MODE_DEL (R ++ modes_of (flags_sign A R) g) ((p_text <$> g) ++ [])).
      rewrite flags_read by done. f_equal. apply group_read; [done|right]. by rewrite ER. }
  destruct A as [|a A'] eqn:EA.
  - cbn [flags_of app fmap list_fmap]. apply HRg. destruct R; [auto|right; right; done].
  - cbn [flags_of]. rewrite <- EA in *. change ((43 :: A) ++ flags_of 45 R ++ modes_of (flags_sign A R) g) with (43 :: (A ++ flags_of 45 R ++ modes_of (flags_sign A R) g)).
    change (changes cms ModeParse.MODE_ADD (43 :: A ++ flags_of 45 R ++ modes_of (flags_sign A R) g) ((p_text <$> g) ++ []))
      with (changes cms ModeParse.MODE_ADD (A ++ flags_of 45 R ++ modes_of (flags_sign A R) g) ((p_text <$> g) ++ [])).
    rewrite flags_read by done. f_equal. apply HRg. assert (A <> []) by (by rewrite EA). destruct R; [right; left; done|right; right; done].
Qed.

Lemma next_line_read g : Forall (fun x => pv_ok x /\ takes_word cms x) g -> read_line cms (next_line g) = as_change <$> g.
Proof using Type.
  intros Hg. unfold read_line, next_line. cbn [fst snd].
  rewrite strip_params by (eapply Forall_impl; [exact Hg|]; intros x [[_ Hx] _]; by apply param_text_word).
  rewrite <- (app_nil_r (p_text <$> g)). apply group_read; [done|by left].
Qed.
End table.

(** C15: [make_mode_str] and [parse_chanmode] fit together.  For a change of at most
    1434 bytes there are at most four lines, each of them fits into 510 bytes, and read
    one after the other they give the flags that were set, the flags that were cleared
    and then every change with a parameter, in order, none of them cut short; there are
    no lines exactly when nothing changed. *)
Theorem mode_lines_roundtrip (E : mode_env) (newem oldem : Z) (P : list pv) :
  table_ok (e_handlers E) -> Forall (fun x => pv_ok x /\ takes_word (h_cm <$> e_handlers E) x) P ->
  (length (added E oldem newem) + length (removed E oldem newem) + 2 + weight P <= 1434)%nat ->
  (length (added E oldem newem) + length (removed E oldem newem) <= 500)%nat ->
  let all := ((fun c => (ModeParse.MODE_ADD, c, None)) <$> added E oldem newem) ++
             ((fun c => (ModeParse.MODE_DEL, c, None)) <$> removed E oldem newem) ++ (as_change <$> P) in
  match make_mode_str E newem oldem P with
  | Some lines => concat (map (read_line (h_cm <$> e_handlers E)) lines) = all /\ (length lines <= 4)%nat /\
                  Forall (fun l => (length l.1 + length l.2 <= 510)%nat) lines
  | None => all = []
  end.
Proof.
  intros HT HP Hw Hl all. pose proof (make_mode_str_spec E newem oldem P) as Hs. destruct (make_mode_str E newem oldem P) as [lines|].
  - destruct Hs as (g0 & gs & HPg & -> & _ & Hgs & Hfit); [eapply Forall_impl; [exact HP|]; intros x [Hx _]; exact Hx|done|done|].
    split; [|split; [cbn [length]; rewrite length_map; lia|done]]. rewrite HPg in HP. apply Forall_app in HP as [Hg0 Hc].
    cbn [map concat]. rewrite (first_line_read E HT) by done. subst all. rewrite HPg, fmap_app, <- !app_assoc. do 3 f_equal.
    clear -Hc. induction gs as [|g gs IH]; [done|]. cbn [concat map] in *. apply Forall_app in Hc as [Hg Hc].
    rewrite next_line_read, fmap_app by done. f_equal. by apply IH.
  - destruct Hs as (HA & HR & ->); [eapply Forall_impl; [exact HP|]; intros x [Hx _]; exact Hx|done|done|]. subst all. by rewrite HA, HR.
Qed.

Definition example_mode_env : mode_env := MkModeEnv shipped_handlers example_conv_env [] 60 None false.

Definition example_pvar : list pv := [MkPv MODE_ADD 107 (str "key"); MkPv MODE_DEL 111 (str "joe"); MkPv MODE_ADD 98 (str "a!*@*")].

Lemma example_pvar_ok : Forall (fun x => pv_ok x /\ takes_word (h_cm <$> e_handlers example_mode_env) x) example_pvar.
Proof.
  assert (Htext : forall s, forallb (fun c => (32 <? c) && (c <? 256)) s = true -> s <> [] -> hd 0 s <> 58 -> (length s <= 200)%nat -> param_text s).
  { intros s Hs H1 H2 H3. split; [|done]. apply Forall_forall. intros c Hc. rewrite forallb_forall in Hs. apply list_elem_of_In, Hs, andb_prop in Hc.
    destruct Hc as [Hc1%Z.ltb_lt Hc2%Z.ltb_lt]. unfold printable. lia. }
  repeat constructor; try discriminate; try (vm_compute; reflexivity); apply Htext; try (vm_compute; reflexivity); try discriminate; vm_compute; lia.
Qed.

Lemma mode_lines_roundtrip_witness :
  let E := example_mode_env in let new := handler_bit E 109 in
  make_mode_str E new 0 example_pvar = Some [(str "+mk-o+b", str "key joe a!*@*")] /\
  concat (map (read_line (h_cm <$> e_handlers E)) [(str "+mk-o+b", str "key joe a!*@*")]) =
    [(ModeParse.MODE_ADD, 109, None); (ModeParse.MODE_ADD, 107, Some (str "key")); (ModeParse.MODE_DEL, 111, Some (str "joe"));
     (ModeParse.MODE_ADD, 98, Some (str "a!*@*"))].
Proof.
  cbv zeta. assert (Hm : make_mode_str example_mode_env (handler_bit example_mode_env 109) 0 example_pvar = Some [(str "+mk-o+b", str "key joe a!*@*")])
    by (vm_compute; reflexivity).
  split; [exact Hm|]. pose proof (mode_lines_roundtrip example_mode_env (handler_bit example_mode_env 109) 0 example_pvar) as H.
  cbv zeta in H. rewrite Hm in H. destruct H as [H _].
  - exact shipped_table_ok.
  - exact example_pvar_ok.
  - apply (bool_decide_unpack _). vm_compute. exact I.
  - apply (bool_decide_unpack _). vm_compute. exact I.
  - rewrite H. vm_compute. reflexivity.
Defined.
