(* ===== verification/ModeSync.v ===== *)
(** * A mode change on two servers (src/modules/mode.c)

    The server of a user carries out a MODE command and sends the lines that
    [make_mode_str] makes of it; every other server runs the same code on these lines.
    The file proves that the two end with the same lists, the same member modes, the
    same flags and the same parameters. *)
From S2P Require Import Prelude Chars Strings ChanMode ModeParse Utf8 Client Hash Bans Crule CruleFuncs CruleSpec User MatchUser Extban BanMask BanMode ChanParam Mode ModeLine.

(** ** Lists that do not change *)

Lemma scan_found M lim banid l i cnt dna j b d : scan_list M lim banid l i cnt dna = Some (Some (j, b), d) -> b ∈ l.
Proof.
  revert i cnt dna. induction l as [|b' l IH]; intros i cnt dna; cbn [scan_list]; [done|].
  destruct (identical_ban (banstr b') banid) as [[|]|]; [| |done]; cbn [mbind option_bind].
  - intros [= _ <- _]. left.
  - intros H%IH. by right.
Qed.

Lemma add_no_change M lim l banid by_ t l' ret :
  (forall b, b ∈ l -> 0 < when_ b <= t) -> add_listmode_ex M lim l banid by_ t = Some (l', ret) -> ret <> 1 -> l' = l.
Proof.
  intros Hc. unfold add_listmode_ex. destruct (scan_list M lim banid l 0 0 _) as [[[[i b]|] d]|] eqn:Es; [| |done]; cbn [mbind option_bind].
  - apply scan_found, Hc in Es. rewrite (proj2 (Z.ltb_lt 0 (when_ b))), (proj2 (Z.leb_le (when_ b) t)) by lia. by intros [= <- <-].
  - destruct d; by intros [= <- <-].
Qed.

Lemma del_no_change l banid l' ret : del_listmode l banid = Some (l', ret) -> ret <> 0 -> l' = l.
Proof.
  revert l' ret. induction l as [|b l IH]; intros l' ret; cbn [del_listmode]; [by intros [= <- _]|].
  destruct (identical_ban banid (banstr b)) as [[|]|]; [| |done]; cbn [mbind option_bind]; [by intros [= _ <-]|].
  destruct (del_listmode l banid) as [[k c]|]; [|done]. cbn [mbind option_bind fst snd]. intros [= <- <-] Hc. f_equal. by eapply IH.
Qed.

Lemma handler_quiet K G M by_ o param b :
  (forall l x, list_of (o_ban_type o) (o_channel o) = Some l -> x ∈ l -> 0 < when_ x <= s_time by_) -> o_what o <> MODE_NULL ->
  mode_ban_handler K G M by_ o param = Some (b, None) -> b = o_channel o.
Proof.
  intros Hc Hw. unfold mode_ban_handler. destruct (clean_ban_mask K (conv_of o) param) as [w0|]; [|by intros [= <-]].
  destruct w0 as [|c w] eqn:Ew; [by intros [= <-]|]. rewrite <- Ew. clear Ew.
  pose proof (put_get (o_ban_type o) (o_channel o)) as Hg. unfold get_list in Hg.
  destruct (list_of (o_ban_type o) (o_channel o)) as [l|] eqn:El; [|by intros [= <-]]. cbn [default from_option Datatypes.id] in Hg.
  destruct (negb _); [by intros [= <-]|]. destruct (o_what o); [done| |].
  - destruct (add_listmode_ex _ _ _ _ _ _) as [[l' ret]|] eqn:Ea; [|done]. cbn [mbind option_bind]. destruct (Z.eqb_spec ret 1) as [|Hr]; [done|].
    apply add_no_change in Ea as ->; [|intros x Hx; by apply (Hc l)|done]. rewrite Hg. by intros [= <-].
  - destruct (del_listmode l _) as [[l' ret]|] eqn:Ea; [|done]. cbn [mbind option_bind]. destruct (Z.eqb_spec ret 0) as [|Hr]; [done|].
    apply del_no_change in Ea as ->; [|done]. rewrite Hg. by intros [= <-].
Qed.

(** The entries that an addition leaves are the old ones and one with the time of the
    setter. *)
Lemma add_times M lim l banid by_ t l' x :
  add_listmode_ex M lim l banid by_ t = Some (l', 1) -> x ∈ l' -> x ∈ l \/ when_ x = t.
Proof.
  unfold add_listmode_ex. destruct (scan_list M lim banid l 0 0 _) as [[[[i b]|] d]|] eqn:Es; [| |done]; cbn [mbind option_bind].
  - by destruct ((0 <? when_ b) && (when_ b <=? t)).
  - destruct d; [done|]. intros Hr%(inj Some)%pair_equal_spec. destruct Hr as [<- _]. intros [->|Hx]%elem_of_cons; [by right|by left].
Qed.

Lemma del_subset l banid l' ret x : del_listmode l banid = Some (l', ret) -> x ∈ l' -> x ∈ l.
Proof.
  revert l' ret. induction l as [|b l IH]; intros l' ret; cbn [del_listmode]; [by intros [= <- _]|].
  destruct (identical_ban banid (banstr b)) as [[|]|]; [| |done]; cbn [mbind option_bind]; [intros [= <- _]; by right|].
  destruct (del_listmode l banid) as [[k c]|]; [|done]. cbn [mbind option_bind fst snd]. intros [= <- _] [->|Hx]%elem_of_cons; [left|right].
  by eapply IH.
Qed.

(** ** Flags *)

Definition add_clears (c c' : Z) : bool := ((c =? 115) && (c' =? 112)) || ((c =? 112) && (c' =? 115)).
Definition del_clears (c c' : Z) : bool := (c =? 105) && (c' =? 75).

Section bits.
Context (E : mode_env) (HT : table_ok (e_handlers E)).

Definition normal (h : Handler) : Prop := h ∈ e_handlers E /\ ctype (h_cm h) = CMODE_NORMAL.

Lemma normal_mode h : normal h -> h_mode h <> 0.
Proof using HT. intros [Hh Ht]. destruct (ho_bits _ (to_handlers _ HT) h Hh Ht) as (k & Hk & ->). pose proof (Z.pow_pos_nonneg 2 k). lia. Qed.

Lemma find_handler_some c h : find_handler E c = Some h -> h ∈ e_handlers E /\ h_letter h = c.
Proof using Type. intros H. apply List.find_some in H as [Hh Hc%Z.eqb_eq]. split; [by apply list_elem_of_In|done]. Qed.

Lemma clear_letter m c h : normal h -> cm_set (Z.ldiff m (handler_bit E c)) h = cm_set m h && negb (c =? h_letter h).
Proof using HT.
  intros [Hh Ht]. unfold handler_bit. destruct (find_handler E c) as [g|] eqn:Ef.
  - apply find_handler_some in Ef as [Hg <-]. destruct (Z.eq_dec (h_mode g) 0) as [Hz|Hz].
    + rewrite Hz, Z.ldiff_0_r. destruct (Z.eqb_spec (h_letter g) (h_letter h)) as [El|]; [|by rewrite andb_true_r].
      apply (same_letter _ (to_handlers _ HT)) in El as ->; [|done..]. by destruct (normal_mode h).
    + by rewrite (cm_set_ldiff _ (to_handlers _ HT)).
  - rewrite Z.ldiff_0_r. destruct (Z.eqb_spec c (h_letter h)) as [->|]; [|by rewrite andb_true_r].
    by rewrite (find_handler_self E HT) in Ef.
Qed.

Lemma mode_of_set h w p ch :
  mc_mode (extmode_set E h w p ch) =
  match w with
  | MODE_ADD => modechar_add E (h_letter h) (Z.lor (mc_mode ch) (h_mode h))
  | _ => modechar_del E (h_letter h) (Z.ldiff (mc_mode ch) (h_mode h))
  end.
Proof using Type. unfold extmode_set. by destruct w, (i_param (h_info h)). Qed.

Lemma set_add h h' p ch : normal h -> normal h' ->
  cm_set (mc_mode (extmode_set E h MODE_ADD p ch)) h' =
  (cm_set (mc_mode ch) h' || (h_letter h =? h_letter h')) && negb (add_clears (h_letter h) (h_letter h')).
Proof using HT.
  intros Hh Hh'. rewrite mode_of_set. unfold modechar_add, add_clears. pose proof (normal_mode h Hh) as Hz.
  assert (Hl : cm_set (Z.lor (mc_mode ch) (h_mode h)) h' = cm_set (mc_mode ch) h' || (h_letter h =? h_letter h')).
  { destruct Hh, Hh'. by apply (cm_set_lor _ (to_handlers _ HT)). }
  destruct (Z.eqb_spec (h_letter h) 115) as [E1|]; [|destruct (Z.eqb_spec (h_letter h) 112) as [E1|]].
  - rewrite clear_letter, Hl by done. rewrite (Z.eqb_sym 112), E1. replace (115 =? 112) with false by done. cbn [andb]. by rewrite orb_false_r.
  - rewrite clear_letter, Hl by done. cbn [andb orb]. by rewrite (Z.eqb_sym 115).
  - cbn [andb orb negb]. by rewrite andb_true_r.
Qed.

Lemma set_del h h' w p ch : w <> MODE_ADD -> normal h -> normal h' ->
  cm_set (mc_mode (extmode_set E h w p ch)) h' =
  cm_set (mc_mode ch) h' && negb (h_letter h =? h_letter h') && negb (del_clears (h_letter h) (h_letter h')).
Proof using HT.
  intros Hw Hh Hh'. rewrite mode_of_set. pose proof (normal_mode h Hh) as Hz.
  assert (Hl : cm_set (Z.ldiff (mc_mode ch) (h_mode h)) h' = cm_set (mc_mode ch) h' && negb (h_letter h =? h_letter h')).
  { destruct Hh, Hh'. by apply (cm_set_ldiff _ (to_handlers _ HT)). }
  assert (cm_set (modechar_del E (h_letter h) (Z.ldiff (mc_mode ch) (h_mode h))) h' =
          cm_set (mc_mode ch) h' && negb (h_letter h =? h_letter h') && negb (del_clears (h_letter h) (h_letter h'))) as <-; [|by destruct w].
  unfold modechar_del, del_clears. destruct (Z.eqb_spec (h_letter h) 105) as [E1|].
  - rewrite clear_letter, Hl by done. cbn [andb]. by rewrite (Z.eqb_sym 75).
  - rewrite Hl. cbn [andb negb]. by rewrite andb_true_r.
Qed.

(** The hooks do not touch a mode with a parameter. *)
Lemma param_not_cleared h c : normal h -> paracount (h_cm h) = 1 -> add_clears c (h_letter h) = false /\ del_clears c (h_letter h) = false.
Proof using HT.
  intros [Hh Ht] Hp. assert (Hn : h_letter h ∉ [112; 115; 105; 75]).
  { intros Hin. apply (to_hooks _ HT h Hh) in Hin as [_ Hin]. lia. }
  rewrite !not_elem_of_cons in Hn. destruct Hn as (H1 & H2 & H3 & H4 & _). unfold add_clears, del_clears.
  rewrite (proj2 (Z.eqb_neq (h_letter h) 112)), (proj2 (Z.eqb_neq (h_letter h) 115)), (proj2 (Z.eqb_neq (h_letter h) 75)), !andb_false_r by done. done.
Qed.

Lemma param_count h ph : normal h -> i_param (h_info h) = Some ph -> paracount (h_cm h) = 1 /\ ParamLaws ph.
Proof using HT.
  intros [Hh Ht] Hp. destruct (to_normal _ HT h Hh Ht) as [(_ & Hn & _)|(H1 & ph' & H2 & H3)]; [congruence|].
  rewrite Hp in H2. injection H2 as <-. done.
Qed.

Lemma params_of_set h w p ch c : mc_params (extmode_set E h w p ch) !! c =
  match i_param (h_info h) with
  | Some ph => if h_letter h =? c then match w with MODE_ADD => Some (ph_store ph p) | _ => None end else mc_params ch !! c
  | None => mc_params ch !! c
  end.
Proof using Type.
  unfold extmode_set. destruct (i_param (h_info h)) as [ph|]; [|by destruct w].
  destruct w; cbn [set_mode_bits set_params mc_params]; destruct (Z.eqb_spec (h_letter h) c) as [->|];
    rewrite ?lookup_delete_eq, ?lookup_insert_eq, ?lookup_delete_ne, ?lookup_insert_ne by done; done.
Qed.
End bits.

(** ** The steps on the server of the client *)

Section local.
Context (E : mode_env) (D : directory) (samode : bool) (cl : mclient) (by_ : setter).
Context (HT : table_ok (e_handlers E)) (HK : text_table (k_table (e_conv E))) (Htime : 0 < s_time by_).
Context (Hnames : forall u, param_text (d_name D u)).
(** A bound on the length of the parameters of the command. *)
Context (bound : nat).

Definition arg_ok (a : cstring) : Prop := cstr a /\ (length a <= bound)%nat.

Abbreviation handlers := (e_handlers E).

Record wf (ch : mchan) : Prop := {
  wf_clock t l x : list_of t (mc_bans ch) = Some l -> x ∈ l -> 0 < when_ x <= s_time by_;
  wf_params h ph : h ∈ handlers -> ctype (h_cm h) = CMODE_NORMAL -> i_param (h_info h) = Some ph -> cm_set (mc_mode ch) h = true ->
    exists p, mc_params ch !! h_letter h = Some p /\ param_text p
}.

(** A change that is written to [pvar], *)
Inductive entry (ch : mchan) : pv -> mchan -> Prop :=
| en_list t c w p b r :
    list_type c = Some t -> w <> MODE_NULL -> arg_ok p -> (length p <= 200)%nat ->
    mode_ban_handler (e_conv E) (e_groups E) (e_maxbans E) by_ (ok_of cl ch t w) p = Some (b, Some r) ->
    entry ch (MkPv w c r) (set_bans ch b)
| en_add_member h u modes :
    h ∈ handlers -> ctype (h_cm h) = CMODE_MEMBER -> mc_members ch !! u = Some modes -> contains (h_letter h) modes = false ->
    entry ch (MkPv MODE_ADD (h_letter h) (d_name D u))
      (set_members ch (<[u := addlettertomstring (h_cm <$> handlers) modes (h_letter h)]> (mc_members ch)))
| en_del_member h u modes :
    h ∈ handlers -> ctype (h_cm h) = CMODE_MEMBER -> mc_members ch !! u = Some modes -> contains (h_letter h) modes = true ->
    entry ch (MkPv MODE_DEL (h_letter h) (d_name D u)) (set_members ch (<[u := delletterfromstring modes (h_letter h)]> (mc_members ch)))
| en_add h ph p r :
    h ∈ handlers -> ctype (h_cm h) = CMODE_NORMAL -> i_param (h_info h) = Some ph -> cstr p ->
    ph_ok ph (h_name (mc_bans ch)) p = true -> ph_conv ph p = Some r ->
    entry ch (MkPv MODE_ADD (h_letter h) r) (extmode_set E h MODE_ADD r ch)
| en_del h ph p :
    h ∈ handlers -> ctype (h_cm h) = CMODE_NORMAL -> i_param (h_info h) = Some ph -> unset_with_param (h_cm h) = true ->
    cm_set (mc_mode ch) h = true -> mc_params ch !! h_letter h = Some p ->
    entry ch (MkPv MODE_DEL (h_letter h) p) (extmode_set E h MODE_DEL [] ch).

(** and one that is not. *)
Inductive quiet (pvar : list pv) (ch : mchan) : mchan -> Prop :=
| q_same : quiet pvar ch ch
| q_flag h w : h ∈ handlers -> ctype (h_cm h) = CMODE_NORMAL -> i_param (h_info h) = None -> quiet pvar ch (extmode_set E h w [] ch)
| q_unset h ph :
    h ∈ handlers -> ctype (h_cm h) = CMODE_NORMAL -> i_param (h_info h) = Some ph -> unset_with_param (h_cm h) = false ->
    h_letter h ∉ (p_letter <$> pvar) -> quiet pvar ch (extmode_set E h MODE_DEL [] ch).

(** The letters of modes that are not member modes and not list modes. *)
Definition normal_letter (c : Z) : Prop := exists h, h ∈ handlers /\ ctype (h_cm h) = CMODE_NORMAL /\ h_letter h = c.

Inductive lstep (s s' : mchan * list pv) : Prop :=
| ls_quiet : quiet s.2 s.1 s'.1 -> s'.2 = s.2 -> lstep s s'
| ls_entry x : entry s.1 x s'.1 -> pv_ok x -> s'.2 = s.2 ++ [x] -> (length s.2 < MAXMODEPARAMS)%nat ->
    (normal_letter (p_letter x) -> p_letter x ∉ (p_letter <$> s.2)) -> lstep s s'.

Lemma write_room pvar w c s : (length pvar < MAXMODEPARAMS)%nat -> (length s <= 200)%nat -> do_mode_char_write pvar w c s = pvar ++ [MkPv w c s].
Proof using Type.
  intros Hl Hs. unfold do_mode_char_write. rewrite (proj2 (Nat.leb_gt _ _)) by done. unfold MODEBUFLEN. by rewrite take_ge.
Qed.

Lemma list_letter c t : list_type c = Some t -> c ∈ [98; 101; 73] /\ (forall ch, exists l, list_of t ch = Some l).
Proof using Type.
  unfold list_type. destruct (Z.eqb_spec c 98) as [->|]; [intros [= <-]; split; [left|eauto]|].
  destruct (Z.eqb_spec c 101) as [->|]; [intros [= <-]; split; [right; left|eauto]|].
  destruct (Z.eqb_spec c 73) as [->|]; [intros [= <-]; split; [right; right; left|eauto]|done].
Qed.

Lemma list_not_normal c t : list_type c = Some t -> ~ normal_letter c.
Proof using HT. intros [Hc _]%list_letter (h & Hh & _ & <-). pose proof (to_letter _ HT h Hh) as Hl. apply Hl. do 3 right. exact Hc. Qed.

(** What the list handler returns can be sent. *)
Lemma list_text ch t w p b r :
  cstr p -> (length p <= 200)%nat ->
  mode_ban_handler (e_conv E) (e_groups E) (e_maxbans E) by_ (ok_of cl ch t w) p = Some (b, Some r) -> param_text r.
Proof using HK.
  intros Hp Hl H. apply handler_inv in H as (Hc & Hne & _). destruct (clean_shape _ HK _ _ _ Hp Hc) as (H1 & H2 & H3 & _).
  split; [done|]. split; [done|]. split; [done|]. by apply (clean_length _ HK _ _ _ Hp Hc).
Qed.

Lemma list_step ch pvar t c what p ch' pvar' n :
  wf ch -> what <> MODE_NULL -> list_type c = Some t -> (forall q, p = Some q -> arg_ok q /\ (length q <= 200)%nat) ->
  do_mode_char_list_mode E cl by_ t c p what ch pvar = Some (ch', pvar', n) -> lstep (ch, pvar) (ch', pvar').
Proof using HT HK.
  intros Hwf Hw Ht Hp. unfold do_mode_char_list_mode. destruct p as [q|]; [|intros [= <- <- <-]; apply ls_quiet; [apply q_same|done]].
  destruct (Nat.leb_spec MAXMODEPARAMS (length pvar)) as [|Hroom]; [intros [= <- <- <-]; apply ls_quiet; [apply q_same|done]|].
  destruct (Hp q eq_refl) as [Hq Hql].
  destruct (mode_ban_handler _ _ _ _ _ _) as [[b r]|] eqn:Eh; [|done]. cbn [mbind option_bind]. intros [= <- <- <-]. destruct r as [r|].
  - pose proof (list_text _ _ _ _ _ _ (proj1 Hq) Hql Eh) as Hr. apply (ls_entry _ _ (MkPv what c r)); cbn [fst snd p_letter].
    + by apply (en_list ch t c what q).
    + by split.
    + apply write_room; [done|]. unfold param_text in Hr. tauto.
    + done.
    + intros Hn. by apply list_not_normal in Ht.
  - apply handler_quiet in Eh; [|intros l x Hl Hx; by apply (wf_clock ch Hwf t l x)|done]. subst b. apply ls_quiet; [|done]. cbn [fst snd].
    replace (set_bans ch (o_channel (ok_of cl ch t what))) with ch by (by destruct ch). apply q_same.
Qed.

Lemma member_not_normal h : h ∈ handlers -> ctype (h_cm h) = CMODE_MEMBER -> ~ normal_letter (h_letter h).
Proof using HT. intros Hh Ht (h' & Hh' & Ht' & E1). apply (same_letter _ (to_handlers _ HT)) in E1; [|done..]. congruence. Qed.

Lemma member_step ch pvar h what p ch' pvar' :
  h ∈ handlers -> ctype (h_cm h) = CMODE_MEMBER -> what <> MODE_NULL -> (length pvar < MAXMODEPARAMS)%nat ->
  do_mode_char_member_mode_new E D cl h p what ch pvar = (ch', pvar') -> lstep (ch, pvar) (ch', pvar').
Proof using HT Hnames.
  intros Hh Ht Hw Hroom. unfold do_mode_char_member_mode_new.
  assert (Hq : (ch, pvar) = (ch', pvar') -> lstep (ch, pvar) (ch', pvar')) by (intros [= <- <-]; apply ls_quiet; [apply q_same|done]).
  destruct (d_find_chasing D p) as [u|]; [|done]. destruct (mc_members ch !! u) as [modes|] eqn:Hu; [|done].
  pose proof (Hnames u) as Hn. assert (Hl : (length (d_name D u) <= 200)%nat) by (unfold param_text in Hn; tauto).
  destruct what; [done| |]; destruct (contains (h_letter h) modes) eqn:Hset; cbn [negb]; try done.
  - intros [= <- <-]. apply (ls_entry _ _ (MkPv MODE_ADD (h_letter h) (d_name D u))); cbn [fst snd p_letter]; [by apply en_add_member|by split| |done|].
    + by apply write_room.
    + intros Hnn. by apply member_not_normal in Hnn.
  - destruct (_ && _); [done|]. intros [= <- <-].
    apply (ls_entry _ _ (MkPv MODE_DEL (h_letter h) (d_name D u))); cbn [fst snd p_letter]; [by apply en_del_member|by split| |done|].
    + by apply write_room.
    + intros Hnn. by apply member_not_normal in Hnn.
Qed.

Lemma not_written pvar c : existsb (fun x => p_letter x =? c) pvar = false -> c ∉ (p_letter <$> pvar).
Proof using Type.
  intros H (x & -> & Hx)%list_elem_of_fmap. assert (existsb (fun y => p_letter y =? p_letter x) pvar = true); [|congruence].
  apply existsb_exists. exists x. split; [by apply list_elem_of_In|by apply Z.eqb_eq].
Qed.

Lemma param_step ch pvar h ph what param morphed pvar' :
  wf ch -> normal E h -> i_param (h_info h) = Some ph -> what <> MODE_NULL -> (forall q, param = Some q -> cstr q) ->
  (what = MODE_ADD \/ unset_with_param (h_cm h) = true -> (length pvar < MAXMODEPARAMS)%nat) ->
  h_letter h ∉ (p_letter <$> pvar) -> extmode_param h ph what param ch pvar = Some (morphed, pvar') ->
  lstep (ch, pvar) (extmode_set E h what morphed ch, pvar').
Proof using HT.
  intros Hwf Hn Hph Hw Hq Hroom Hnew. pose proof Hn as [Hh Ht]. destruct (param_count E HT h ph Hn Hph) as [Hpc Hlaws].
  unfold extmode_param. destruct what; [done| |].
  - destruct param as [p|]; [|done]. cbn [mbind option_bind]. destruct (ph_ok ph _ p) eqn:Hok; cbn [negb]; [|done].
    destruct (ph_conv ph p) as [r|] eqn:Hc; [|done]. cbn [mbind option_bind]. destruct (_ && _); [done|]. intros [= <- <-].
    destruct (pl_conv _ p r (Hq p eq_refl) Hok Hc) as (_ & _ & _ & Hr).
    apply (ls_entry _ _ (MkPv MODE_ADD (h_letter h) r)); cbn [fst snd p_letter]; [|by split| |by auto|done].
    + apply (en_add ch h ph p r); auto.
    + apply write_room; [by auto|]. unfold param_text in Hr. tauto.
  - destruct (has (mc_mode ch) (h_mode h)) eqn:Hset; cbn [negb]; [|done]. destruct (wf_params ch Hwf h ph Hh Ht Hph Hset) as (p & Hp & Htext).
    rewrite Hp. cbn [default from_option Datatypes.id]. destruct (unset_with_param (h_cm h)) eqn:Hu; intros [= <- <-].
    + apply (ls_entry _ _ (MkPv MODE_DEL (h_letter h) p)); cbn [fst snd p_letter]; [|by split| |by auto|done].
      * by apply (en_del ch h ph p).
      * apply write_room; [by auto|]. unfold param_text in Htext. tauto.
    + apply ls_quiet; [|done]. by apply (q_unset _ _ h ph).
Qed.

Lemma ext_step ch pvar h param what ch' pvar' n :
  wf ch -> h ∈ handlers -> what <> MODE_NULL -> (forall q, param = Some q -> cstr q) ->
  do_extmode_char E D samode cl h param what ch pvar = (ch', pvar', n) -> lstep (ch, pvar) (ch', pvar').
Proof using HT Hnames.
  intros Hwf Hh Hw Hq. unfold do_extmode_char.
  assert (Hsame : forall m, (ch, pvar, m) = (ch', pvar', n) -> lstep (ch, pvar) (ch', pvar')) by (intros m [= <- <- <-]; apply ls_quiet; [apply q_same|done]).
  set (paracnt := if bool_decide (what = MODE_ADD) then _ else _).
  destruct (negb (paracnt =? 0)%nat && _) eqn:Eg; [apply Hsame|]. destruct (h_local h && negb (c_my_user cl)) eqn:Elocal; [apply Hsame|].
  destruct (mode_denied E D samode cl h param what ch); [apply Hsame|].
  assert (Hroom : paracnt <> 0%nat -> (length pvar < MAXMODEPARAMS)%nat).
  { intros Hp. rewrite (proj2 (Nat.eqb_neq paracnt 0)) in Eg by done. cbn [negb andb] in Eg. apply orb_false_iff in Eg as [_ Eg]. by apply Nat.leb_gt in Eg. }
  assert (Hcount : what = MODE_ADD /\ paracount (h_cm h) = 1 \/ what = MODE_DEL /\ unset_with_param (h_cm h) = true -> paracnt <> 0%nat).
  { subst paracnt. intros [[-> Hp]|[-> Hu]]; [rewrite bool_decide_true, Hp by done; simpl; lia|].
    rewrite bool_decide_false, Hu by done. simpl. lia. }
  destruct (ctype (h_cm h)) eqn:Ht.
  - destruct (existsb _ pvar) eqn:Ex; [apply Hsame|]. apply not_written in Ex. assert (Hn : normal E h) by done.
    destruct (i_param (h_info h)) as [ph|] eqn:Hph.
    + destruct (extmode_param h ph what param ch pvar) as [[morphed pv']|] eqn:Ep; [|apply Hsame]. intros [= <- <- <-].
      apply (param_step ch pvar h ph what param morphed pv'); try done. destruct (param_count E HT h ph Hn Hph) as [Hpc _].
      intros Hor. apply Hroom, Hcount. destruct what; [done|by left|right; split; [done|]]. by destruct Hor.
    + intros [= <- <- <-]. apply ls_quiet; [|done]. by apply q_flag.
  - destruct (do_mode_char_member_mode_new E D cl h (default [] param) what ch pvar) as [c1 p1] eqn:Em. intros [= <- <- <-].
    apply (member_step ch pvar h what (default [] param)); try done. apply Hroom, Hcount.
    destruct (ho_member _ (to_handlers _ HT) h Hh Ht) as (_ & _ & Hu). destruct what; [done|left; split; [done|by apply (to_member _ HT)]|by right].
Qed.

(** One letter. *)
Lemma char_step s c s' :
  wf (s_ch s) -> s_what s <> MODE_NULL -> Forall arg_ok (s_args s) -> mode_char E D samode cl by_ s c = Some s' ->
  lstep (s_ch s, s_pvar s) (s_ch s', s_pvar s') /\ s_what s' <> MODE_NULL /\ Forall arg_ok (s_args s').
Proof using HT HK Hnames.
  intros Hwf Hw Ha. unfold mode_char. cbv zeta.
  assert (Hskip : forall n w, w <> MODE_NULL -> Some (MkMState (s_ch s) (s_pvar s) (drop n (s_args s)) w) = Some s' ->
    lstep (s_ch s, s_pvar s) (s_ch s', s_pvar s') /\ s_what s' <> MODE_NULL /\ Forall arg_ok (s_args s')).
  { intros n w Hw' [= <-]. cbn [s_ch s_pvar s_what s_args]. split; [apply ls_quiet; [apply q_same|done]|]. split; [done|by apply Forall_drop]. }
  destruct (c =? 43); [by apply (Hskip 0%nat MODE_ADD)|]. destruct (c =? 45); [by apply (Hskip 0%nat MODE_DEL)|].
  destruct (mlocked E cl (s_ch s) c); [by apply (Hskip 0%nat)|].
  assert (Harg : forall q, take MODEBUFLEN <$> head (s_args s) = Some q -> arg_ok q /\ (length q <= 200)%nat).
  { intros q Hq. destruct (s_args s) as [|a args]; [done|]. apply Forall_cons in Ha as [[Ha Hb] _]. injection Hq as <-.
    split; [split; [by apply Forall_take|rewrite length_take; lia]|rewrite length_take; unfold MODEBUFLEN; lia]. }
  destruct (list_type c) as [t|] eqn:Et.
  - destruct (restricted E cl c); [by apply Hskip|].
    destruct (do_mode_char_list_mode _ _ _ _ _ _ _ _ _) as [[[ch1 pv1] n]|] eqn:El; [|by destruct (find_handler E c)].
    cbn [mbind option_bind]. intros Hr. assert (Hr' : Some (MkMState ch1 pv1 (drop n (s_args s)) (s_what s)) = Some s') by (by destruct (find_handler E c)).
    injection Hr' as <-. cbn [s_ch s_pvar s_what s_args]. split; [|split; [done|by apply Forall_drop]].
    by apply (list_step (s_ch s) (s_pvar s) t c (s_what s) (take MODEBUFLEN <$> head (s_args s)) ch1 pv1 n).
  - destruct (find_handler E c) as [h|] eqn:Ef; [|by apply Hskip]. destruct (restricted E cl c); [by apply Hskip|].
    apply find_handler_some in Ef as [Hh _].
    destruct (do_extmode_char _ _ _ _ _ _ _ _ _) as [[ch1 pv1] n] eqn:El. intros [= <-]. cbn [s_ch s_pvar s_what s_args].
    split; [|split; [done|by apply Forall_drop]].
    apply (ext_step (s_ch s) (s_pvar s) h (take MODEBUFLEN <$> head (s_args s)) (s_what s) ch1 pv1 n); try done.
    intros q Hq. by apply (Harg q).
Qed.

(** *** What a step keeps *)

Lemma list_of_put t t' ch l : list_of t' (put_list t ch l) = if bool_decide (t = t' /\ t <> EXBTYPE_TKL) then Some l else list_of t' ch.
Proof using Type. by destruct t, t'. Qed.

Lemma entry_clock ch x ch' : entry ch x ch' -> wf ch -> forall t l b, list_of t (mc_bans ch') = Some l -> b ∈ l -> 0 < when_ b <= s_time by_.
Proof using Htime.
  intros Hen Hwf. destruct Hen as [t c w p b r Ht Hw Hp Hpl Hh| | | |].
  2-5: intros t' l b Hl Hb; apply (wf_clock _ Hwf t' l b); [|done]; unfold extmode_set in Hl; by destruct (i_param (h_info h)).
  intros t' l y Hl Hy. cbn [set_bans mc_bans] in Hl. apply handler_inv in Hh as (_ & _ & l0 & Hl0 & Hlist). cbn [ok_of o_what o_ban_type o_channel] in *.
  assert (Hcase : forall l', b = put_list t (mc_bans ch) l' -> (forall z, z ∈ l' -> z ∈ l0 \/ when_ z = s_time by_) -> 0 < when_ y <= s_time by_).
  { intros l' -> Hz. rewrite list_of_put in Hl. case_bool_decide; [|by apply (wf_clock _ Hwf t' l y)]. injection Hl as ->.
    destruct (Hz y Hy) as [Hin| ->]; [by apply (wf_clock _ Hwf t l0 y)|lia]. }
  destruct w; [done| |]; destruct Hlist as (l' & Hch & ->); apply (Hcase l' eq_refl); intros z Hz.
  - by eapply add_times.
  - left. by eapply del_subset.
Qed.

Lemma param_bit h h' w p ch : normal E h -> normal E h' -> paracount (h_cm h') = 1 ->
  cm_set (mc_mode (extmode_set E h w p ch)) h' =
  match w with MODE_ADD => cm_set (mc_mode ch) h' || (h_letter h =? h_letter h') | _ => cm_set (mc_mode ch) h' && negb (h_letter h =? h_letter h') end.
Proof using HT.
  intros Hh Hh' Hp. destruct (param_not_cleared E HT h' (h_letter h) Hh' Hp) as [H1 H2]. destruct w.
  - rewrite (set_del E HT), H2 by done. cbn [negb]. by rewrite andb_true_r.
  - rewrite (set_add E HT), H1 by done. cbn [negb]. by rewrite andb_true_r.
  - rewrite (set_del E HT), H2 by done. cbn [negb]. by rewrite andb_true_r.
Qed.

Lemma entry_params ch x ch' : entry ch x ch' -> wf ch -> forall h ph, h ∈ handlers -> ctype (h_cm h) = CMODE_NORMAL -> i_param (h_info h) = Some ph ->
  cm_set (mc_mode ch') h = true -> exists p, mc_params ch' !! h_letter h = Some p /\ param_text p.
Proof using HT.
  intros Hen Hwf h ph Hh Ht Hph. pose proof (conj Hh Ht : normal E h) as Hn. destruct (param_count E HT h ph Hn Hph) as [Hpc Hl].
  destruct Hen as [| | |g gph p r Hg Hgt Hgp Hp Hok Hc|g gph p Hg Hgt Hgp Hu Hset Hst]; try (by apply (wf_params _ Hwf h ph)).
  - pose proof (conj Hg Hgt : normal E g) as Hgn. rewrite param_bit, params_of_set, Hgp by done. destruct (Z.eqb_spec (h_letter g) (h_letter h)) as [El|].
    + intros _. destruct (param_count E HT g gph Hgn Hgp) as [_ Hgl]. destruct (pl_conv _ p r Hp Hok Hc) as (_ & _ & -> & Htext). eauto.
    + rewrite orb_false_r. by apply (wf_params _ Hwf h ph).
  - pose proof (conj Hg Hgt : normal E g) as Hgn. rewrite param_bit, params_of_set, Hgp by done. destruct (Z.eqb_spec (h_letter g) (h_letter h)) as [El|].
    + by rewrite andb_false_r.
    + rewrite andb_true_r. by apply (wf_params _ Hwf h ph).
Qed.

Lemma quiet_bans pvar ch ch' : quiet pvar ch ch' -> mc_bans ch' = mc_bans ch /\ mc_members ch' = mc_members ch.
Proof using Type. intros [|h w|h ph]; [done| |]; unfold extmode_set; by destruct (i_param (h_info h)); try destruct w. Qed.

Lemma wf_step s s' : lstep s s' -> wf s.1 -> wf s'.1.
Proof using HT Htime.
  destruct s as [ch pvar], s' as [ch' pvar']. cbn [fst]. intros Hs Hwf. split.
  - destruct Hs as [Hq _|x Hen]; cbn [fst snd] in *; [|by eapply entry_clock]. intros t l b. rewrite (proj1 (quiet_bans _ _ _ Hq)). by apply (wf_clock _ Hwf).
  - destruct Hs as [Hq _|x Hen]; cbn [fst snd] in *; [|by eapply entry_params]. intros h ph Hh Ht Hph.
    pose proof (conj Hh Ht : normal E h) as Hn. destruct (param_count E HT h ph Hn Hph) as [Hpc Hl].
    destruct Hq as [|g w Hg Hgt Hgp|g gph Hg Hgt Hgp Hu Hnew]; [by apply (wf_params _ Hwf h ph)| |].
    + pose proof (conj Hg Hgt : normal E g) as Hgn. rewrite param_bit, params_of_set, Hgp by done.
      destruct (Z.eqb_spec (h_letter g) (h_letter h)) as [El|].
      * apply (same_letter _ (to_handlers _ HT)) in El as ->; [congruence|done..].
      * rewrite orb_false_r, andb_true_r. destruct w; by apply (wf_params _ Hwf h ph).
    + pose proof (conj Hg Hgt : normal E g) as Hgn. rewrite param_bit, params_of_set, Hgp by done.
      destruct (Z.eqb_spec (h_letter g) (h_letter h)) as [El|]; [by rewrite andb_false_r|]. rewrite andb_true_r. by apply (wf_params _ Hwf h ph).
Qed.

(** *** Whole commands *)

Inductive lrun (ch0 : mchan) : mchan -> list pv -> Prop :=
| lr_nil : lrun ch0 ch0 []
| lr_step ch P ch' P' : lrun ch0 ch P -> lstep (ch, P) (ch', P') -> lrun ch0 ch' P'.

Lemma loop_run ch0 s modes s' :
  lrun ch0 (s_ch s) (s_pvar s) -> wf (s_ch s) -> s_what s <> MODE_NULL -> Forall arg_ok (s_args s) ->
  mode_loop E D samode cl by_ s modes = Some s' -> lrun ch0 (s_ch s') (s_pvar s') /\ wf (s_ch s').
Proof using HT HK Htime Hnames.
  revert s. induction modes as [|c modes IH]; intros s Hr Hwf Hw Ha; unfold mode_loop; [by intros [= <-]|]. rewrite foldl_step.
  destruct (mode_char E D samode cl by_ s c) as [s1|] eqn:Ec; [|done]. cbn [mbind option_bind].
  destruct (char_step s c s1 Hwf Hw Ha Ec) as (Hst & Hw1 & Ha1). apply IH; [by eapply lr_step|by apply (wf_step _ _ Hst)|done|done].
Qed.

(** What was written. *)
Lemma run_pvar ch0 ch P : lrun ch0 ch P ->
  Forall pv_ok P /\ (length P <= MAXMODEPARAMS)%nat /\
  forall P1 x P2, P = P1 ++ x :: P2 -> normal_letter (p_letter x) -> p_letter x ∉ (p_letter <$> P1).
Proof using Type.
  induction 1 as [|ch P ch' P' _ (Hok & Hl & Hd) Hs]; [split; [by apply Forall_nil|]; split; [simpl; lia|]; by intros [|? ?] ? ? ?|].
  destruct Hs as [_ HP|x _ Hx HP Hroom Hnew]; cbn [fst snd] in *; subst P'; [done|]. split; [apply Forall_app; split; [done|by apply Forall_singleton]|].
  split; [rewrite length_app; simpl; lia|]. intros P1 y P2 Heq Hn. destruct (decide (P2 = [])) as [->|Hne].
  - apply app_inj_2 in Heq as [<- [= <-]]; [|done]. by apply Hnew.
  - destruct (exists_last Hne) as (P3 & z & ->). rewrite app_comm_cons, app_assoc in Heq. apply app_inj_2 in Heq as [HP1 _]; [|done]. by eapply Hd.
Qed.

(** A change that is written and does not belong to a mode leaves it alone. *)
Lemma entry_other ch x ch' h : entry ch x ch' -> normal E h -> paracount (h_cm h) = 1 -> p_letter x <> h_letter h ->
  cm_set (mc_mode ch') h = cm_set (mc_mode ch) h /\ mc_params ch' !! h_letter h = mc_params ch !! h_letter h.
Proof using HT.
  intros Hen Hn Hpc Hne. destruct Hen as [| | |g gph p r Hg Hgt Hgp|g gph p Hg Hgt Hgp]; try done; cbn [p_letter] in Hne.
  - rewrite param_bit, params_of_set, Hgp by done. rewrite (proj2 (Z.eqb_neq (h_letter g) (h_letter h))) by done. by rewrite orb_false_r.
  - rewrite param_bit, params_of_set, Hgp by done. rewrite (proj2 (Z.eqb_neq (h_letter g) (h_letter h))) by done. by rewrite andb_true_r.
Qed.

(** One that belongs to it. *)
Lemma entry_own ch x ch' h : entry ch x ch' -> normal E h -> p_letter x = h_letter h ->
  exists ph, i_param (h_info h) = Some ph /\
  ((exists p, p_what x = MODE_ADD /\ cstr p /\ ph_ok ph (h_name (mc_bans ch)) p = true /\ ph_conv ph p = Some (p_text x) /\
      ch' = extmode_set E h MODE_ADD (p_text x) ch) \/
   (p_what x = MODE_DEL /\ unset_with_param (h_cm h) = true /\ cm_set (mc_mode ch) h = true /\ ch' = extmode_set E h MODE_DEL [] ch)).
Proof using HT.
  intros Hen Hn He. pose proof Hn as [Hh Ht].
  destruct Hen as [t c w p b r Hlt| g u modes Hg Hgt| g u modes Hg Hgt|g gph p r Hg Hgt Hgp Hp Hok Hc|g gph p Hg Hgt Hgp Hu Hset Hst];
    cbn [p_letter p_what p_text] in *.
  - exfalso. apply (list_not_normal c t Hlt). exists h. by rewrite He.
  - exfalso. apply (member_not_normal g Hg Hgt). exists h. by rewrite He.
  - exfalso. apply (member_not_normal g Hg Hgt). exists h. by rewrite He.
  - apply (same_letter _ (to_handlers _ HT)) in He as ->; [|done..]. exists gph. split; [done|left]. exists p. done.
  - apply (same_letter _ (to_handlers _ HT)) in He as ->; [|done..]. exists gph. split; [done|by right].
Qed.

Definition written (P : list pv) (c : Z) : option pv := List.find (fun x => p_letter x =? c) P.

Lemma written_app P Q c : written (P ++ Q) c = match written P c with Some x => Some x | None => written Q c end.
Proof using Type. unfold written. induction P as [|x P IH]; [done|]. cbn [app List.find]. by destruct (p_letter x =? c). Qed.

Lemma written_none P c : c ∉ (p_letter <$> P) -> written P c = None.
Proof using Type.
  intros Hc. unfold written. destruct (List.find _ P) as [x|] eqn:Ef; [|done]. apply List.find_some in Ef as [Hx He%Z.eqb_eq].
  destruct Hc. apply list_elem_of_fmap. exists x. split; [done|by apply list_elem_of_In].
Qed.

(** A mode with a parameter that is taken away without one: what was written is what it
    is now; otherwise it is as before, or gone. *)
Lemma run_loose ch0 ch P h ph : lrun ch0 ch P -> normal E h -> i_param (h_info h) = Some ph -> unset_with_param (h_cm h) = false ->
  match written P (h_letter h) with
  | Some x => p_what x = MODE_ADD /\ cm_set (mc_mode ch) h = true /\ mc_params ch !! h_letter h = Some (p_text x)
  | None => (cm_set (mc_mode ch) h = cm_set (mc_mode ch0) h /\ mc_params ch !! h_letter h = mc_params ch0 !! h_letter h) \/
            cm_set (mc_mode ch) h = false
  end.
Proof using HT.
  intros Hr Hn Hph Hu. destruct (param_count E HT h ph Hn Hph) as [Hpc Hlaws]. induction Hr as [|ch P ch' P' _ IH Hs]; [by left|].
  destruct Hs as [Hq HP|x Hen Hx HP Hroom Hnew]; cbn [fst snd] in *; subst P'.
  - destruct Hq as [|g w Hg Hgt Hgp|g gph Hg Hgt Hgp Hgu Hgn]; [done| |]; pose proof (conj Hg Hgt : normal E g) as Hgnm.
    + assert (Hne : h_letter g =? h_letter h = false).
      { apply Z.eqb_neq. intros El%(same_letter _ (to_handlers _ HT)); [congruence|done|apply Hn]. }
      rewrite param_bit, params_of_set, Hgp, Hne by done. cbn [negb]. rewrite orb_false_r, andb_true_r. by destruct w.
    + rewrite param_bit, params_of_set, Hgp by done. destruct (Z.eqb_spec (h_letter g) (h_letter h)) as [El|Hne].
      * rewrite El in Hgn. rewrite (written_none P _ Hgn). right. by rewrite andb_false_r.
      * by rewrite andb_true_r.
  - rewrite written_app. destruct (decide (p_letter x = h_letter h)) as [El|Hne].
    + destruct (entry_own _ _ _ h Hen Hn El) as (ph' & Hph' & [(p & Hw & Hp & Hok & Hc & ->)|(_ & Hu' & _)]); [|congruence].
      assert (ph' = ph) as -> by congruence. assert (Hnl : normal_letter (p_letter x)) by (exists h; destruct Hn; by rewrite El).
      specialize (Hnew Hnl). rewrite El in Hnew. rewrite (written_none P _ Hnew). unfold written. cbn [List.find]. rewrite El, Z.eqb_refl.
      rewrite param_bit, params_of_set, Hph, Z.eqb_refl, orb_true_r by done. destruct (pl_conv _ p _ Hp Hok Hc) as (_ & _ & -> & _). done.
    + destruct (entry_other _ _ _ h Hen Hn Hpc Hne) as [-> ->]. destruct (written P (h_letter h)); [done|]. unfold written. cbn [List.find].
      by rewrite (proj2 (Z.eqb_neq _ _)).
Qed.
End local.


(** ** The steps on another server *)

Section remote.
Context (E E' : mode_env) (D D' : directory) (cl cl' : mclient) (by_ by' : setter) (bound : nat).
Context (HT : table_ok (e_handlers E)) (HK : text_table (k_table (e_conv E))).
Context (Hhand : e_handlers E' = e_handlers E) (Hconv : e_conv E' = e_conv E) (Hmax : 1 <= e_maxbans E').
Context (Hremote : c_my_user cl' = false) (Hres : forall c, restricted E' cl' c = false) (Hlim : s_limited by' = false).
Context (Hnames : forall u, param_text (d_name D u)).
(** The users that the other server finds by their name. *)
Context (known : positive -> Prop) (Hfind : forall u, known u -> d_find_chasing D' (d_name D u) = Some u).

(** The other server has the same lists and members, and the same modes of those that
    are only taken away with a parameter. *)
Record sim (ch t : mchan) : Prop := {
  sim_name : h_name (mc_bans t) = h_name (mc_bans ch);
  sim_texts : same_texts (mc_bans ch) (mc_bans t);
  sim_members : mc_members t = mc_members ch /\ (forall u m, mc_members ch !! u = Some m -> known u);
  sim_kept h ph : normal E h -> h_local h = false -> i_param (h_info h) = Some ph -> unset_with_param (h_cm h) = true ->
    cm_set (mc_mode t) h = cm_set (mc_mode ch) h /\
    (cm_set (mc_mode ch) h = true -> mc_params t !! h_letter h = mc_params ch !! h_letter h)
}.

Lemma find_same c : find_handler E' c = find_handler E c.
Proof using Hhand. unfold find_handler. by rewrite Hhand. Qed.

Lemma set_same h w p ch : extmode_set E' h w p ch = extmode_set E h w p ch.
Proof using Hhand. unfold extmode_set, modechar_add, modechar_del, handler_bit. by rewrite !find_same. Qed.

Lemma put_name t ch l : h_name (put_list t ch l) = h_name ch.
Proof using Type. by destruct t. Qed.

(** The other server handles one written change, whatever it has written itself for
    other modes of the line. *)
Definition rstep (t : mchan) (x : pv) (t' : mchan) : Prop :=
  forall pvr args, (length pvr < MAXMODEPARAMS)%nat -> (normal_letter E (p_letter x) -> p_letter x ∉ (p_letter <$> pvr)) ->
  exists pvr', mode_char E' D' false cl' by' (MkMState t pvr (p_text x :: args) (p_what x)) (p_letter x) = Some (MkMState t' pvr' args (p_what x)) /\
    (length pvr' <= S (length pvr))%nat /\ (forall c, c ∈ (p_letter <$> pvr') -> c ∈ (p_letter <$> pvr) \/ c = p_letter x).

Lemma not_locked ch c : mlocked E' cl' ch c = false.
Proof using Hremote. unfold mlocked. by rewrite Hremote. Qed.

Lemma written_letters pvr w c s :
  (length (do_mode_char_write pvr w c s) <= S (length pvr))%nat /\
  (forall d, d ∈ (p_letter <$> do_mode_char_write pvr w c s) -> d ∈ (p_letter <$> pvr) \/ d = c).
Proof using Type.
  unfold do_mode_char_write. case_match; [split; [lia|by left]|]. split; [rewrite length_app; simpl; lia|].
  intros d. rewrite fmap_app. intros [?|Hd]%elem_of_app; [by left|right]. apply elem_of_cons in Hd as [->|Hd]; [done|by apply not_elem_of_nil in Hd].
Qed.

(** A letter of a mode that is not a list. *)
Lemma remote_ext t t' h x :
  h ∈ e_handlers E -> h_letter h = p_letter x -> (length (p_text x) <= 200)%nat ->
  (forall pvr, (length pvr < MAXMODEPARAMS)%nat -> (normal_letter E (p_letter x) -> p_letter x ∉ (p_letter <$> pvr)) ->
     exists pvr', do_extmode_char E' D' false cl' h (Some (p_text x)) (p_what x) t pvr = (t', pvr', 1%nat) /\
       (length pvr' <= S (length pvr))%nat /\ (forall c, c ∈ (p_letter <$> pvr') -> c ∈ (p_letter <$> pvr) \/ c = p_letter x)) ->
  rstep t x t'.
Proof using HT Hhand Hremote Hres.
  intros Hh Hlet Hlen Hdo pvr args Hr Hnew. destruct (Hdo pvr Hr Hnew) as (pvr' & Hd & H1 & H2). exists pvr'. split; [|done].
  unfold mode_char. cbn [s_ch s_pvar s_args s_what head]. cbv zeta. destruct (handler_plain E HT h Hh) as [Hp Hm]. rewrite Hlet in Hp, Hm.
  rewrite (proj2 (Z.eqb_neq _ 43) Hp), (proj2 (Z.eqb_neq _ 45) Hm), not_locked. cbn [fmap option_fmap option_map].
  assert (Hlt : list_type (p_letter x) = None).
  { destruct (list_type (p_letter x)) as [t0|] eqn:El; [|done]. apply list_letter in El as [El _]. destruct (to_letter _ HT h Hh). rewrite Hlet. by do 3 right. }
  rewrite Hlt, find_same, <- Hlet, (find_handler_self E HT) by done. rewrite Hres. unfold MODEBUFLEN. rewrite take_ge by done. by rewrite Hd.
Qed.

Lemma not_existsb pvr c : c ∉ (p_letter <$> pvr) -> existsb (fun y => p_letter y =? c) pvr = false.
Proof using Type.
  intros Hnew. destruct (existsb _ pvr) eqn:Ex; [|done]. apply existsb_exists in Ex as (y & Hy & He%Z.eqb_eq). destruct Hnew. apply list_elem_of_fmap.
  exists y. split; [done|by apply list_elem_of_In].
Qed.

(** A mode of the channel, past the checks. *)
Lemma remote_normal h what s t pvr :
  normal E h -> paracount (h_cm h) = 1 -> what = MODE_ADD \/ what = MODE_DEL /\ unset_with_param (h_cm h) = true ->
  (length pvr < MAXMODEPARAMS)%nat -> h_letter h ∉ (p_letter <$> pvr) -> forall ph, i_param (h_info h) = Some ph ->
  do_extmode_char E' D' false cl' h (Some s) what t pvr =
    if h_local h then (t, pvr, 1%nat)
    else match extmode_param h ph what (Some s) t pvr with
         | None => (t, pvr, 1%nat)
         | Some (morphed, pvr) => (extmode_set E' h what morphed t, pvr, 1%nat)
         end.
Proof using HT Hremote.
  intros [Hh Ht] Hp Hw Hr Hnew ph Hph. unfold do_extmode_char. cbv zeta.
  assert (Hcnt : (if bool_decide (what = MODE_ADD) then Z.to_nat (paracount (h_cm h))
                  else if bool_decide (what = MODE_DEL) && unset_with_param (h_cm h) then 1%nat else 0%nat) = 1%nat).
  { destruct Hw as [->|[-> Hu]]; [by rewrite bool_decide_true, Hp by done|by rewrite bool_decide_false, Hu by done]. }
  rewrite Hcnt. cbn [Nat.eqb negb andb]. rewrite bool_decide_false by done. rewrite (proj2 (Nat.leb_gt _ _)) by done. cbn [orb].
  unfold mode_denied. rewrite Hremote. cbn [negb andb]. rewrite andb_true_r. destruct (h_local h); [done|]. rewrite Ht.
  rewrite (not_existsb pvr), Hph by done. by destruct (extmode_param h ph what (Some s) t pvr) as [[m pv']|].
Qed.

(** A mode with a parameter triggers no hook. *)
Lemma param_set_other h h' w p t : normal E h -> paracount (h_cm h) = 1 -> normal E h' -> h_letter h <> h_letter h' ->
  cm_set (mc_mode (extmode_set E h w p t)) h' = cm_set (mc_mode t) h'.
Proof using HT.
  intros Hh Hp Hh' Hne. assert (Hn : h_letter h ∉ [112; 115; 105; 75]).
  { intros Hin. destruct Hh as [Hh Ht]. apply (to_hooks _ HT h Hh) in Hin as [_ Hin]. lia. }
  rewrite !not_elem_of_cons in Hn. destruct Hn as (H1 & H2 & H3 & H4 & _).
  assert (Hc : add_clears (h_letter h) (h_letter h') = false /\ del_clears (h_letter h) (h_letter h') = false).
  { unfold add_clears, del_clears. rewrite (proj2 (Z.eqb_neq (h_letter h) 115)), (proj2 (Z.eqb_neq (h_letter h) 112)), (proj2 (Z.eqb_neq (h_letter h) 105)) by done. done. }
  destruct Hc as [Hc1 Hc2]. destruct w.
  - rewrite (set_del E HT), Hc2, (proj2 (Z.eqb_neq _ _)) by done. cbn [negb]. by rewrite !andb_true_r.
  - rewrite (set_add E HT), Hc1, (proj2 (Z.eqb_neq _ _)) by done. cbn [negb]. by rewrite andb_true_r, orb_false_r.
  - rewrite (set_del E HT), Hc2, (proj2 (Z.eqb_neq _ _)) by done. cbn [negb]. by rewrite !andb_true_r.
Qed.

Definition frame (t : mchan) (x : pv) (t' : mchan) : Prop :=
  forall h, normal E h -> unset_with_param (h_cm h) = false ->
  (p_letter x <> h_letter h -> cm_set (mc_mode t') h = cm_set (mc_mode t) h /\ mc_params t' !! h_letter h = mc_params t !! h_letter h) /\
  (p_letter x = h_letter h -> h_local h = false -> cm_set (mc_mode t') h = true /\ mc_params t' !! h_letter h = Some (p_text x)).

(** Changes of lists and members leave the modes alone. *)
Lemma frame_same t x t' :
  mc_mode t' = mc_mode t -> mc_params t' = mc_params t -> ~ normal_letter E (p_letter x) -> frame t x t'.
Proof using Type.
  intros H1 H2 Hn h [Hh Ht] _. rewrite H1, H2. split; [done|]. intros He. destruct Hn. exists h. by rewrite He.
Qed.

(** The text of a list change is one that the other server takes as it is. *)
Definition settled (x : pv) : Prop :=
  is_Some (list_type (p_letter x)) -> ((bound <= 90)%nat \/ hd 0 (p_text x) <> 126) /\ last (p_text x) <> Some ch_colon.

Lemma remote_list ch t tt c w p b r :
  sim ch t -> list_type c = Some tt -> w <> MODE_NULL -> arg_ok bound p -> (length p <= 200)%nat -> settled (MkPv w c r) ->
  mode_ban_handler (e_conv E) (e_groups E) (e_maxbans E) by_ (ok_of cl ch tt w) p = Some (b, Some r) ->
  exists t', rstep t (MkPv w c r) t' /\ sim (set_bans ch b) t' /\ frame t (MkPv w c r) t'.
Proof using HT HK Hhand Hconv Hmax Hres Hremote Hlim.
  intros Hs Ht Hw [Hp Hb] Hl Hset Hh. destruct Hset as [Hset Hlast]; [cbn [p_letter]; rewrite Ht; eauto|]. cbn [p_text] in Hset, Hlast.
  pose proof (list_text E cl by_ HK ch tt w p b r Hp Hl Hh) as Htext.
  destruct (handler_replicates (e_conv E) (e_groups E) (e_groups E') (e_maxbans E) (e_maxbans E') by_ by' (ok_of cl ch tt w) (ok_of cl' t tt w) p b r)
    as (b' & Hb' & Hsame); try done.
  { by apply (sim_texts ch t). }
  { destruct Hset; [left; lia|by right]. }
  exists (set_bans t b'). split; [|split].
  - intros pvr args Hr _. cbn [p_letter p_text p_what]. exists (do_mode_char_write pvr w c r). split; [|apply written_letters].
    unfold mode_char. cbn [s_ch s_pvar s_args s_what head]. cbv zeta. apply list_letter in Ht as Hc. destruct Hc as [Hc _].
    rewrite (proj2 (Z.eqb_neq c 43)), (proj2 (Z.eqb_neq c 45)) by (intros ->; rewrite !elem_of_cons in Hc; destruct Hc as [?|[?|[?|Hc]]]; try done; by apply not_elem_of_nil in Hc).
    rewrite not_locked, Ht, Hres. cbn [fmap option_fmap option_map]. unfold MODEBUFLEN. rewrite take_ge by (unfold param_text in Htext; tauto).
    unfold do_mode_char_list_mode. rewrite (proj2 (Nat.leb_gt _ _)) by done. rewrite Hconv, Hb'. cbn [mbind option_bind]. by destruct (find_handler E' c).
  - apply handler_inv in Hb' as (_ & _ & l & _ & Hl'). apply handler_inv in Hh as (_ & _ & l0 & _ & Hl0). cbn [ok_of o_what o_ban_type o_channel] in *.
    assert (Hn : h_name b = h_name (mc_bans ch) /\ h_name b' = h_name (mc_bans t)).
    { destruct w; [done| |]; destruct Hl' as (l1 & _ & ->), Hl0 as (l2 & _ & ->); by rewrite !put_name. }
    destruct Hn as [Hn1 Hn2], Hs as [Hs1 Hs2 Hs3 Hs4]. split; cbn [set_bans mc_bans mc_members mc_mode mc_params]; [congruence|done|done|done].
  - apply frame_same; [done|done|]. cbn [p_letter]. by apply (list_not_normal E HT c tt).
Qed.

Lemma remote_member ch t h u w modes new :
  sim ch t -> h ∈ e_handlers E -> ctype (h_cm h) = CMODE_MEMBER -> mc_members ch !! u = Some modes ->
  (w = MODE_ADD /\ contains (h_letter h) modes = false /\ new = addlettertomstring (h_cm <$> e_handlers E) modes (h_letter h) \/
   w = MODE_DEL /\ contains (h_letter h) modes = true /\ new = delletterfromstring modes (h_letter h)) ->
  exists t', rstep t (MkPv w (h_letter h) (d_name D u)) t' /\ sim (set_members ch (<[u := new]> (mc_members ch))) t' /\
    frame t (MkPv w (h_letter h) (d_name D u)) t'.
Proof using HT Hhand Hres Hremote Hnames Hfind.
  intros Hs Hh Ht Hu Hw. pose proof (Hnames u) as Htext. exists (set_members t (<[u := new]> (mc_members t))).
  split; [|split; [|apply frame_same; [done|done|by apply (member_not_normal E HT h)]]].
  - apply (remote_ext _ _ h); [done|done|unfold param_text in Htext; cbn [p_text]; tauto|]. cbn [p_letter p_text p_what]. intros pvr Hr Hnew.
    exists (do_mode_char_write pvr w (h_letter h) (d_name D' u)). split; [|apply written_letters].
    destruct (to_member _ HT h Hh Ht) as [Hpc Hloc]. destruct (ho_member _ (to_handlers _ HT) h Hh Ht) as (_ & _ & Hun).
    unfold do_extmode_char, mode_denied. cbv zeta. rewrite Hremote, Hloc, Ht. cbn [andb negb]. rewrite (bool_decide_false (Some (d_name D u) = None)) by done.
    rewrite (proj2 (Nat.leb_gt _ _)) by done. cbn [orb]. rewrite andb_false_r. cbn [default from_option Datatypes.id].
    unfold do_mode_char_member_mode_new. rewrite Hfind, (proj1 (sim_members ch t Hs)), Hu, Hremote, Hhand by (by apply (proj2 (sim_members ch t Hs) u modes)).
    destruct Hw as [(-> & Hc & ->)|(-> & Hc & ->)]; rewrite Hc; done.
  - destruct Hs as [Hs1 Hs2 [Hs3 Hk] Hs4]. split; cbn [set_members mc_bans mc_members mc_mode mc_params]; [done|done| |done].
    split; [by rewrite Hs3|]. intros v m. destruct (decide (u = v)) as [<-|Hv]; [intros _; by apply (Hk u modes)|]. rewrite lookup_insert_ne by done. apply Hk.
Qed.

Lemma set_fields h w p t :
  mc_bans (extmode_set E h w p t) = mc_bans t /\ mc_members (extmode_set E h w p t) = mc_members t.
Proof using Type. unfold extmode_set. by destruct w, (i_param (h_info h)). Qed.

(** The same mode set to the same parameter, or taken away, on both sides. *)
Lemma sim_set ch t h ph w p :
  sim ch t -> normal E h -> i_param (h_info h) = Some ph -> sim (extmode_set E h w p ch) (extmode_set E h w p t).
Proof using HT.
  intros [H1 H2 H3 H4] Hn Hph. destruct (param_count E HT h ph Hn Hph) as [Hpc _].
  destruct (set_fields h w p ch) as [F1 F2], (set_fields h w p t) as [F3 F4].
  split; [by rewrite F1, F3|by rewrite F1, F3|by rewrite F2, F4|]. intros g gph Hg Hloc Hgph Hgu. destruct (H4 g gph Hg Hloc Hgph Hgu) as [H5 H6].
  destruct (param_count E HT g gph Hg Hgph) as [Hgpc _]. rewrite !(param_bit E HT), !params_of_set, H5, Hph by done. split; [done|].
  destruct (Z.eqb_spec (h_letter h) (h_letter g)); [done|]. cbn [negb]. rewrite orb_false_r, andb_true_r. by destruct w.
Qed.

(** It is set like that already. *)
Lemma sim_set_same ch t h ph p :
  sim ch t -> normal E h -> i_param (h_info h) = Some ph -> cm_set (mc_mode t) h = true -> mc_params t !! h_letter h = Some (ph_store ph p) ->
  sim (extmode_set E h MODE_ADD p ch) t.
Proof using HT.
  intros [H1 H2 H3 H4] Hn Hph Hset Hst. destruct (param_count E HT h ph Hn Hph) as [Hpc _]. destruct (set_fields h MODE_ADD p ch) as [F1 F2].
  split; [by rewrite F1|by rewrite F1|by rewrite F2|]. intros g gph Hg Hloc Hgph Hgu. destruct (H4 g gph Hg Hloc Hgph Hgu) as [H5 H6].
  destruct (param_count E HT g gph Hg Hgph) as [Hgpc _]. rewrite !(param_bit E HT), !params_of_set, H5, Hph by done.
  destruct (Z.eqb_spec (h_letter h) (h_letter g)) as [El|]; [|by rewrite orb_false_r].
  apply (same_letter _ (to_handlers _ HT)) in El as ->; [|apply Hn|apply Hg]. rewrite Hset in H5. by rewrite <- H5, Hst.
Qed.

(** It is one that other servers do not know of. *)
Lemma sim_set_local ch t h ph w p : sim ch t -> normal E h -> i_param (h_info h) = Some ph -> h_local h = true -> sim (extmode_set E h w p ch) t.
Proof using HT.
  intros [H1 H2 H3 H4] Hn Hph Hl. destruct (param_count E HT h ph Hn Hph) as [Hpc _]. destruct (set_fields h w p ch) as [F1 F2].
  split; [by rewrite F1|by rewrite F1|by rewrite F2|]. intros g gph Hg Hloc Hgph Hgu. destruct (H4 g gph Hg Hloc Hgph Hgu) as [H5 H6].
  assert (Hne : h_letter h <> h_letter g).
  { intros El. apply (same_letter _ (to_handlers _ HT)) in El; [|apply Hn|apply Hg]. subst g. by rewrite Hloc in Hl. }
  rewrite params_of_set, Hph, (proj2 (Z.eqb_neq _ _)) by done. by rewrite (param_set_other h g w p ch).
Qed.

Lemma frame_set h ph w p t x :
  normal E h -> i_param (h_info h) = Some ph -> p_letter x = h_letter h ->
  (h_local h = false -> unset_with_param (h_cm h) = false -> w = MODE_ADD /\ ph_store ph p = p_text x) ->
  frame t x (extmode_set E h w p t).
Proof using HT.
  intros Hn Hph Hlet Hown g Hg Hgu. destruct (param_count E HT h ph Hn Hph) as [Hpc _]. rewrite params_of_set, Hph. split.
  - intros Hne. rewrite Hlet in Hne. rewrite (param_set_other h g) by done. by rewrite (proj2 (Z.eqb_neq (h_letter h) (h_letter g))).
  - intros He Hloc. rewrite Hlet in He. assert (h = g) as <- by (apply (same_letter _ (to_handlers _ HT)); [apply Hn|apply Hg|done]).
    destruct (Hown Hloc Hgu) as [-> Hst]. rewrite (param_bit E HT), Z.eqb_refl, orb_true_r by done. by rewrite Hst.
Qed.

Lemma frame_none h ph t x :
  normal E h -> i_param (h_info h) = Some ph -> p_letter x = h_letter h ->
  (h_local h = false -> cm_set (mc_mode t) h = true /\ mc_params t !! h_letter h = Some (p_text x)) -> frame t x t.
Proof using HT.
  intros Hn Hph Hlet Hown g Hg Hgu. split; [done|]. intros He Hloc. rewrite Hlet in He.
  assert (h = g) as <- by (apply (same_letter _ (to_handlers _ HT)); [apply Hn|apply Hg|done]). by apply Hown.
Qed.

(** The change of a parameter, step by step. *)
Definition same_param (t : mchan) (h : Handler) (r : cstring) : bool := has (mc_mode t) (h_mode h) && bool_decide (mc_params t !! h_letter h = Some r).

Lemma add_step t h ph r :
  normal E h -> i_param (h_info h) = Some ph -> ph_ok ph (h_name (mc_bans t)) r = true -> ph_conv ph r = Some r -> (length r <= 200)%nat ->
  rstep t (MkPv MODE_ADD (h_letter h) r) (if h_local h || same_param t h r then t else extmode_set E h MODE_ADD r t).
Proof using HT Hhand Hremote Hres.
  intros Hn Hph Hok Hc Hlen. pose proof Hn as [Hh Ht]. destruct (param_count E HT h ph Hn Hph) as [Hpc Hlaws].
  assert (Hnl : normal_letter E (h_letter h)) by (by exists h).
  assert (Hparam : forall pvr, extmode_param h ph MODE_ADD (Some r) t pvr =
    if same_param t h r then None else Some (r, do_mode_char_write pvr MODE_ADD (h_letter h) r)).
  { intros pvr. unfold extmode_param. cbn [mbind option_bind]. by rewrite Hok, Hc. }
  apply (remote_ext _ _ h); [done|done|done|]. cbn [p_letter p_text p_what]. intros pvr Hr Hnew.
  rewrite (remote_normal h MODE_ADD r t pvr Hn Hpc (or_introl eq_refl) Hr (Hnew Hnl) ph Hph), Hparam.
  destruct (h_local h); cbn [orb]; [exists pvr; split; [done|split; [lia|by left]]|].
  destruct (same_param t h r); [exists pvr; split; [done|split; [lia|by left]]|]. rewrite set_same. eexists. split; [reflexivity|apply written_letters].
Qed.

Lemma del_step t h ph p :
  normal E h -> i_param (h_info h) = Some ph -> unset_with_param (h_cm h) = true -> (length p <= 200)%nat ->
  rstep t (MkPv MODE_DEL (h_letter h) p) (if h_local h || negb (cm_set (mc_mode t) h) then t else extmode_set E h MODE_DEL [] t).
Proof using HT Hhand Hremote Hres.
  intros Hn Hph Hu Hlen. pose proof Hn as [Hh Ht]. destruct (param_count E HT h ph Hn Hph) as [Hpc Hlaws].
  assert (Hnl : normal_letter E (h_letter h)) by (by exists h).
  apply (remote_ext _ _ h); [done|done|done|]. cbn [p_letter p_text p_what]. intros pvr Hr Hnew.
  rewrite (remote_normal h MODE_DEL p t pvr Hn Hpc (or_intror (conj eq_refl Hu)) Hr (Hnew Hnl) ph Hph).
  destruct (h_local h) eqn:Hloc; cbn [orb]; [exists pvr; split; [done|split; [lia|by left]]|]. unfold extmode_param, cm_set.
  destruct (has (mc_mode t) (h_mode h)); cbn [negb]; [|exists pvr; split; [done|split; [lia|by left]]]. rewrite Hu, set_same. eexists. split; [reflexivity|apply written_letters].
Qed.

Lemma remote_add ch t h ph p r :
  sim ch t -> normal E h -> i_param (h_info h) = Some ph -> cstr p -> ph_ok ph (h_name (mc_bans ch)) p = true -> ph_conv ph p = Some r ->
  exists t', rstep t (MkPv MODE_ADD (h_letter h) r) t' /\ sim (extmode_set E h MODE_ADD r ch) t' /\ frame t (MkPv MODE_ADD (h_letter h) r) t'.
Proof using HT Hhand Hremote Hres.
  intros Hs Hn Hph Hp Hok Hc. pose proof Hn as [Hh Ht]. destruct (param_count E HT h ph Hn Hph) as [Hpc Hlaws].
  destruct (pl_conv _ p r Hp Hok Hc) as (Hok' & Hc' & Hst & Htext). rewrite <- (sim_name ch t Hs) in Hok'.
  assert (Hlen : (length r <= 200)%nat) by (unfold param_text in Htext; tauto).
  exists (if h_local h || same_param t h r then t else extmode_set E h MODE_ADD r t). split; [by apply (add_step t h ph)|]. unfold same_param. split.
  - destruct (h_local h) eqn:Hloc; cbn [orb]; [by apply (sim_set_local ch t h ph)|]. destruct (_ && _) eqn:Es; [|by apply (sim_set ch t h ph)].
    apply andb_prop in Es as [Es1 Es2%bool_decide_eq_true]. apply (sim_set_same ch t h ph); try done. by rewrite Hst.
  - destruct (h_local h) eqn:Hloc; cbn [orb]; [apply (frame_none h ph); try done; by rewrite Hloc|]. destruct (_ && _) eqn:Es.
    + apply andb_prop in Es as [Es1 Es2%bool_decide_eq_true]. by apply (frame_none h ph).
    + by apply (frame_set h ph).
Qed.

Lemma remote_del ch t h ph p :
  sim ch t -> normal E h -> i_param (h_info h) = Some ph -> unset_with_param (h_cm h) = true -> cm_set (mc_mode ch) h = true -> (length p <= 200)%nat ->
  exists t', rstep t (MkPv MODE_DEL (h_letter h) p) t' /\ sim (extmode_set E h MODE_DEL [] ch) t' /\ frame t (MkPv MODE_DEL (h_letter h) p) t'.
Proof using HT Hhand Hremote Hres.
  intros Hs Hn Hph Hu Hset Hlen. pose proof Hn as [Hh Ht]. destruct (param_count E HT h ph Hn Hph) as [Hpc Hlaws].
  exists (if h_local h || negb (cm_set (mc_mode t) h) then t else extmode_set E h MODE_DEL [] t). split; [by apply (del_step t h ph)|].
  assert (Hb : h_local h || negb (cm_set (mc_mode t) h) = h_local h).
  { destruct (h_local h) eqn:Hloc; [done|]. destruct (sim_kept ch t Hs h ph Hn Hloc Hph Hu) as [-> _]. by rewrite Hset. }
  rewrite Hb. split.
  - destruct (h_local h) eqn:Hloc; [by apply (sim_set_local ch t h ph)|by apply (sim_set ch t h ph)].
  - destruct (h_local h) eqn:Hloc; [apply (frame_none h ph); try done; by rewrite Hloc|]. apply (frame_set h ph); try done. by rewrite Hu.
Qed.

(** Every written change is made on the other server. *)
Lemma remote_entry ch x ch' t :
  entry E D cl by_ bound ch x ch' -> pv_ok x -> settled x -> sim ch t -> exists t', rstep t x t' /\ sim ch' t' /\ frame t x t'.
Proof using HT HK Hhand Hconv Hmax Hres Hremote Hlim Hnames Hfind.
  intros Hen [_ Hx] Hset Hs. destruct Hen as [tt c w p b r Hlt Hw Hp Hpl Hh|h u modes Hh Ht Hu Hc|h u modes Hh Ht Hu Hc|h ph p r Hh Ht Hph Hp Hok Hc|h ph p Hh Ht Hph Hun Hcs Hst].
  - by apply (remote_list ch t tt c w p b r).
  - apply (remote_member ch t h u MODE_ADD modes); auto.
  - apply (remote_member ch t h u MODE_DEL modes); auto.
  - by apply (remote_add ch t h ph p r).
  - apply (remote_del ch t h ph p); try done. cbn [p_text] in Hx. unfold param_text in Hx. tauto.
Qed.

(** *** All changes of a command *)

Fixpoint rrun (t : mchan) (P : list pv) (t' : mchan) : Prop :=
  match P with
  | [] => t = t'
  | x :: P => exists t1, rstep t x t1 /\ frame t x t1 /\ rrun t1 P t'
  end.

Lemma rrun_app t P Q t' : rrun t (P ++ Q) t' <-> exists t1, rrun t P t1 /\ rrun t1 Q t'.
Proof using Type.
  revert t. induction P as [|x P IH]; intros t; cbn [app rrun]; [split; [by exists t|by intros (? & -> & ?)]|]. split.
  - intros (t1 & H1 & H2 & (t2 & H3 & H4)%IH). exists t2. split; [by exists t1|done].
  - intros (t2 & (t1 & H1 & H2 & H3) & H4). exists t1. split; [done|]. split; [done|]. apply IH. by exists t2.
Qed.

Lemma sim_quiet P ch ch' t : quiet E P ch ch' -> sim ch t -> sim ch' t.
Proof using HT.
  intros Hq [H1 H2 H3 H4]. destruct (quiet_bans E P ch ch' Hq) as [F1 F2]. split; [by rewrite F1|by rewrite F1|by rewrite F2|].
  intros g gph Hg Hloc Hgph Hgu. destruct (H4 g gph Hg Hloc Hgph Hgu) as [H5 H6]. destruct (param_count E HT g gph Hg Hgph) as [Hgpc _].
  destruct Hq as [|h w Hh Ht Hp|h ph Hh Ht Hp Hu Hnew]; [done| |].
  - assert (Hne : h_letter h =? h_letter g = false).
    { apply Z.eqb_neq. intros El%(same_letter _ (to_handlers _ HT)); [|done|apply Hg]. subst g. by rewrite Hgph in Hp. }
    rewrite (param_bit E HT), params_of_set, Hp, Hne by done. cbn [negb]. rewrite orb_false_r, andb_true_r. by destruct w.
  - assert (Hne : h_letter h =? h_letter g = false).
    { apply Z.eqb_neq. intros El%(same_letter _ (to_handlers _ HT)); [|done|apply Hg]. subst g. by rewrite Hgu in Hu. }
    rewrite (param_bit E HT), params_of_set, Hp, Hne by done. cbn [negb]. by rewrite andb_true_r.
Qed.

Lemma run_sim ch0 ch P t0 : lrun E D cl by_ bound ch0 ch P -> Forall settled P -> sim ch0 t0 -> exists t, rrun t0 P t /\ sim ch t.
Proof using HT HK Hhand Hconv Hmax Hres Hremote Hlim Hnames Hfind.
  intros Hr. induction Hr as [|ch P ch' P' Hr IH Hs]; intros Hset H0; [by exists t0|].
  destruct Hs as [Hq HP|x Hen Hx HP Hroom Hnew]; cbn [fst snd] in *; subst P'.
  - destruct (IH Hset H0) as (t & Ht & Hsim). exists t. split; [done|]. by apply (sim_quiet P ch).
  - apply Forall_app in Hset as [Hset [Hsx _]%Forall_cons]. destruct (IH Hset H0) as (t & Ht & Hsim).
    destruct (remote_entry ch x ch' t Hen Hx Hsx Hsim) as (t' & H1 & H2 & H3). exists t'. split; [|done]. apply rrun_app. exists t. split; [done|]. by exists t'.
Qed.

(** No mode of the channel twice. *)
Definition once (P : list pv) : Prop := forall P1 x P2, P = P1 ++ x :: P2 -> normal_letter E (p_letter x) -> p_letter x ∉ (p_letter <$> P1).

Lemma once_cons x P : once (x :: P) -> once P /\ (normal_letter E (p_letter x) -> p_letter x ∉ (p_letter <$> P)).
Proof using Type.
  intros H. split.
  - intros P1 y P2 -> Hn Hin. apply (H (x :: P1) y P2 eq_refl Hn). rewrite fmap_cons. by right.
  - intros Hn (y & He & Hy)%list_elem_of_fmap. apply list_elem_of_split in Hy as (P1 & P2 & ->).
    apply (H (x :: P1) y P2 eq_refl); [by rewrite <- He|]. rewrite fmap_cons, He. left.
Qed.

Lemma rrun_loose t P t' h :
  rrun t P t' -> once P -> normal E h -> unset_with_param (h_cm h) = false -> h_local h = false ->
  match written P (h_letter h) with
  | Some x => cm_set (mc_mode t') h = true /\ mc_params t' !! h_letter h = Some (p_text x)
  | None => cm_set (mc_mode t') h = cm_set (mc_mode t) h /\ mc_params t' !! h_letter h = mc_params t !! h_letter h
  end.
Proof using Type.
  intros Hr Ho Hn Hu Hl. revert t Hr. induction P as [|x P IH]; intros t; cbn [rrun]; [by intros ->|]. intros (t1 & _ & Hf & Hr).
  apply once_cons in Ho as [Ho Hx]. specialize (IH Ho t1 Hr). destruct (Hf h Hn Hu) as [F1 F2]. unfold written. cbn [List.find].
  destruct (Z.eqb_spec (p_letter x) (h_letter h)) as [He|Hne].
  - assert (Hnl : normal_letter E (p_letter x)) by (exists h; destruct Hn; by rewrite He). specialize (Hx Hnl). rewrite He in Hx.
    rewrite (written_none P _ Hx) in IH. destruct IH as [-> ->]. by apply F2.
  - destruct (F1 Hne) as [E1 E2]. rewrite E1, E2 in IH. exact IH.
Qed.

(** The changes of one line. *)
Lemma group_loop t g t' w w0 pvr args :
  rrun t g t' -> Forall (fun x => p_what x <> MODE_NULL) g -> (w = MODE_NULL \/ w0 = w) -> (length pvr + length g <= MAXMODEPARAMS)%nat ->
  once g -> (forall x, x ∈ g -> normal_letter E (p_letter x) -> p_letter x ∉ (p_letter <$> pvr)) ->
  exists pvr' w', mode_loop E' D' false cl' by' (MkMState t pvr ((p_text <$> g) ++ args) w0) (modes_of w g) = Some (MkMState t' pvr' args w').
Proof using Type.
  revert t w w0 pvr. induction g as [|x g IH]; intros t w w0 pvr Hr Hwh Hw Hl Ho Hnew; cbn [rrun] in Hr; [subst t'; by exists pvr, w0|].
  destruct Hr as (t1 & Hst & _ & Hr). apply Forall_cons in Hwh as [Hx Hwh]. apply once_cons in Ho as [Ho Hxo]. cbn [length] in Hl.
  destruct (Hst pvr ((p_text <$> g) ++ args)) as (pvr1 & Hc & Hl1 & Hin); [lia|by apply Hnew; left|].
  assert (Hsign : mode_loop E' D' false cl' by' (MkMState t pvr ((p_text <$> x :: g) ++ args) w0)
      ((if bool_decide (p_what x = w) then [] else [sign_of (p_what x)]) ++ [p_letter x] ++ modes_of (p_what x) g) =
    mode_loop E' D' false cl' by' (MkMState t pvr (p_text x :: (p_text <$> g) ++ args) (p_what x)) (p_letter x :: modes_of (p_what x) g)).
  { case_bool_decide as Eb.
    - cbn [app]. destruct Hw as [Hw|Hw]; [congruence|]. by rewrite Hw, <- Eb.
    - cbn [app]. unfold mode_loop at 1. rewrite foldl_step. by destruct (p_what x). }
  cbn [modes_of]. rewrite Hsign. unfold mode_loop. rewrite foldl_step, Hc. cbn [mbind option_bind].
  apply IH; [done|done|by right|lia|done|]. intros y Hy Hn Hyin. apply Hin in Hyin as [Hyin|Heq]; [by apply (Hnew y); [right|..]|].
  apply Hxo; [by rewrite <- Heq|]. apply list_elem_of_fmap. by exists y.
Qed.

(** *** The flags *)

Definition flag_eff (w : mode_what) (t : mchan) (h : Handler) : mchan :=
  if h_local h then t
  else match i_param (h_info h) with
       | None => extmode_set E h w [] t
       | Some _ => if has (mc_mode t) (h_mode h) then extmode_set E h w [] t else t
       end.

(** A mode that is written without a parameter. *)
Definition bare (w : mode_what) (h : Handler) : Prop :=
  normal E h /\ (w = MODE_ADD /\ paracount (h_cm h) = 0 \/ w = MODE_DEL /\ unset_with_param (h_cm h) = false).

Lemma flag_char w h t pvr args : bare w h -> h_letter h ∉ (p_letter <$> pvr) ->
  mode_char E' D' false cl' by' (MkMState t pvr args w) (h_letter h) = Some (MkMState (flag_eff w t h) pvr args w).
Proof using HT Hhand Hremote Hres.
  intros [[Hh Ht] Hw] Hnew. unfold mode_char. cbn [s_ch s_pvar s_args s_what]. cbv zeta. destruct (handler_plain E HT h Hh) as [Hp Hm].
  rewrite (proj2 (Z.eqb_neq _ 43) Hp), (proj2 (Z.eqb_neq _ 45) Hm), not_locked.
  assert (Hlt : list_type (h_letter h) = None).
  { destruct (list_type (h_letter h)) as [t0|] eqn:El; [|done]. apply list_letter in El as [El _]. destruct (to_letter _ HT h Hh). by do 3 right. }
  rewrite Hlt, find_same, (find_handler_self E HT), Hres by done. unfold do_extmode_char. cbv zeta.
  assert (Hcnt : (if bool_decide (w = MODE_ADD) then Z.to_nat (paracount (h_cm h))
                  else if bool_decide (w = MODE_DEL) && unset_with_param (h_cm h) then 1%nat else 0%nat) = 0%nat).
  { destruct Hw as [[-> ->]|[-> ->]]; [by rewrite bool_decide_true by done|by rewrite bool_decide_false by done]. }
  rewrite Hcnt. cbn [Nat.eqb negb andb]. unfold mode_denied, flag_eff. rewrite Hremote. cbn [negb andb]. rewrite andb_true_r.
  destruct (h_local h); [by rewrite drop_0|]. rewrite Ht, (not_existsb pvr) by done. destruct (i_param (h_info h)) as [ph|] eqn:Hph; [|by rewrite set_same, drop_0].
  destruct (param_count E HT h ph (conj Hh Ht) Hph) as [Hpc _].
  assert (w = MODE_DEL /\ unset_with_param (h_cm h) = false) as [-> Hu] by (destruct Hw as [[_ Hw]|Hw]; [by rewrite Hpc in Hw|done]).
  unfold extmode_param. rewrite Hu. destruct (has (mc_mode t) (h_mode h)); cbn [negb]; by rewrite ?set_same, drop_0.
Qed.

Lemma flags_loop w hs t args : Forall (bare w) hs ->
  mode_loop E' D' false cl' by' (MkMState t [] args w) (h_letter <$> hs) = Some (MkMState (foldl (flag_eff w) t hs) [] args w).
Proof using HT Hhand Hremote Hres.
  revert t. induction hs as [|h hs IH]; intros t Hf; [done|]. apply Forall_cons in Hf as [Hh Hf]. rewrite fmap_cons. unfold mode_loop. rewrite foldl_step.
  rewrite flag_char by (done || apply not_elem_of_nil). cbn [mbind option_bind foldl]. by apply IH.
Qed.

Lemma loop_app s ls ms :
  mode_loop E' D' false cl' by' s (ls ++ ms) = s1 ← mode_loop E' D' false cl' by' s ls; mode_loop E' D' false cl' by' s1 ms.
Proof using Type. unfold mode_loop. apply foldl_split. Qed.

Lemma loop_sign t p args w0 w ms : w <> MODE_NULL ->
  mode_loop E' D' false cl' by' (MkMState t p args w0) (sign_of w :: ms) = mode_loop E' D' false cl' by' (MkMState t p args w) ms.
Proof using Type. intros Hw. unfold mode_loop at 1. rewrite foldl_step. by destruct w. Qed.

Lemma signed_flags w w0 hs t args rest : w <> MODE_NULL -> Forall (bare w) hs ->
  mode_loop E' D' false cl' by' (MkMState t [] args w0) (flags_of (sign_of w) (h_letter <$> hs) ++ rest) =
  mode_loop E' D' false cl' by' (MkMState (foldl (flag_eff w) t hs) [] args (match hs with [] => w0 | _ => w end)) rest.
Proof using HT Hhand Hremote Hres.
  intros Hw Hf. destruct hs as [|h hs]; [done|]. set (l := h :: hs) in *. assert (flags_of (sign_of w) (h_letter <$> l) = sign_of w :: (h_letter <$> l)) as -> by done.
  cbn [app]. rewrite loop_sign, loop_app, flags_loop by done. done.
Qed.

(** The flags of a line. *)
Lemma flags_line hs ks t args rest :
  Forall (bare MODE_ADD) hs -> Forall (bare MODE_DEL) ks ->
  exists w, mode_loop E' D' false cl' by' (MkMState t [] args MODE_ADD) (flags_of 43 (h_letter <$> hs) ++ flags_of 45 (h_letter <$> ks) ++ rest) =
    mode_loop E' D' false cl' by' (MkMState (foldl (flag_eff MODE_DEL) (foldl (flag_eff MODE_ADD) t hs) ks) [] args w) rest /\
    (flags_sign (h_letter <$> hs) (h_letter <$> ks) = MODE_NULL \/ w = flags_sign (h_letter <$> hs) (h_letter <$> ks)).
Proof using HT Hhand Hremote Hres.
  intros Hhs Hks. rewrite (signed_flags MODE_ADD MODE_ADD hs), (signed_flags MODE_DEL _ ks) by done. eexists. split; [reflexivity|].
  destruct hs, ks; auto.
Qed.

(** *** What the flags of a line leave *)

Lemma eff_fields w t h : mc_bans (flag_eff w t h) = mc_bans t /\ mc_members (flag_eff w t h) = mc_members t.
Proof using Type. unfold flag_eff. destruct (h_local h); [done|]. destruct (i_param _); [destruct (has _ _); [|done]|]; apply set_fields. Qed.

Lemma effs_fields w hs t : mc_bans (foldl (flag_eff w) t hs) = mc_bans t /\ mc_members (foldl (flag_eff w) t hs) = mc_members t.
Proof using Type. revert t. induction hs as [|h hs IH]; intros t; [done|]. cbn [foldl]. destruct (IH (flag_eff w t h)) as [-> ->]. apply eff_fields. Qed.

(** A mode with a parameter is only touched by its own letter. *)
Lemma eff_param w t g h ph : normal E g -> normal E h -> i_param (h_info h) = Some ph -> h_letter g <> h_letter h ->
  cm_set (mc_mode (flag_eff w t g)) h = cm_set (mc_mode t) h /\ mc_params (flag_eff w t g) !! h_letter h = mc_params t !! h_letter h.
Proof using HT.
  intros Hg Hh Hph Hne. destruct (param_count E HT h ph Hh Hph) as [Hpc _].
  assert (Hset : forall p, cm_set (mc_mode (extmode_set E g w p t)) h = cm_set (mc_mode t) h /\
                           mc_params (extmode_set E g w p t) !! h_letter h = mc_params t !! h_letter h).
  { intros p. rewrite (param_bit E HT), params_of_set, (proj2 (Z.eqb_neq _ _)) by done. cbn [negb]. rewrite orb_false_r, andb_true_r.
    by destruct w, (i_param (h_info g)). }
  unfold flag_eff. destruct (h_local g); [done|]. destruct (i_param (h_info g)); [destruct (has _ _); [|done]|]; apply Hset.
Qed.

Lemma effs_param w hs t h ph : Forall (normal E) hs -> normal E h -> i_param (h_info h) = Some ph -> h ∉ hs ->
  cm_set (mc_mode (foldl (flag_eff w) t hs)) h = cm_set (mc_mode t) h /\
  mc_params (foldl (flag_eff w) t hs) !! h_letter h = mc_params t !! h_letter h.
Proof using HT.
  intros Hhs Hh Hph. revert t. induction Hhs as [|g hs Hg Hhs IH]; intros t Hn; [done|]. apply not_elem_of_cons in Hn as [Hgh Hn]. cbn [foldl].
  destruct (IH (flag_eff w t g) Hn) as [-> ->]. apply (eff_param w t g h ph); try done. intros El. apply Hgh. symmetry.
  apply (same_letter _ (to_handlers _ HT)); [apply Hg|apply Hh|done].
Qed.

(** A mode that is taken away stays away. *)
Lemma eff_del_off t g h : normal E g -> normal E h -> cm_set (mc_mode t) h = false -> cm_set (mc_mode (flag_eff MODE_DEL t g)) h = false.
Proof using HT.
  intros Hg Hh Hoff. assert (Hset : cm_set (mc_mode (extmode_set E g MODE_DEL [] t)) h = false) by (rewrite (set_del E HT), Hoff by done; done).
  unfold flag_eff. destruct (h_local g); [done|]. destruct (i_param (h_info g)); [destruct (has _ _)|]; done.
Qed.

Lemma effs_del_off ks t h : Forall (normal E) ks -> normal E h -> h_local h = false -> cm_set (mc_mode t) h = false \/ h ∈ ks ->
  cm_set (mc_mode (foldl (flag_eff MODE_DEL) t ks)) h = false.
Proof using HT.
  intros Hks Hh Hloc. revert t. induction Hks as [|g ks Hg Hks IH]; intros t Hor; cbn [foldl].
  - destruct Hor as [Hor|Hor]; [done|by apply not_elem_of_nil in Hor].
  - apply IH. destruct Hor as [Hoff|Hin]; [left; by apply eff_del_off|]. apply elem_of_cons in Hin as [<-|Hin]; [left|by right].
    unfold flag_eff. rewrite Hloc. assert (Hset : cm_set (mc_mode (extmode_set E h MODE_DEL [] t)) h = false).
    { rewrite (set_del E HT), Z.eqb_refl by done. cbn [negb]. by rewrite andb_false_r. }
    destruct (i_param (h_info h)); [|done]. destruct (has (mc_mode t) (h_mode h)) eqn:Eh; done.
Qed.

(** A flag that no hook clears stays, *)
Lemma effs_del_on ks t h : Forall (normal E) ks -> normal E h -> h ∉ ks -> (forall k, k ∈ ks -> del_clears (h_letter k) (h_letter h) = false) ->
  cm_set (mc_mode (foldl (flag_eff MODE_DEL) t ks)) h = cm_set (mc_mode t) h.
Proof using HT.
  intros Hks Hh. revert t. induction Hks as [|g ks Hg Hks IH]; intros t Hn Hc; [done|]. apply not_elem_of_cons in Hn as [Hgh Hn]. cbn [foldl].
  rewrite IH by (done || (intros k Hk; apply Hc; by right)).
  assert (Hset : cm_set (mc_mode (extmode_set E g MODE_DEL [] t)) h = cm_set (mc_mode t) h).
  { rewrite (set_del E HT), Hc, (proj2 (Z.eqb_neq (h_letter g) (h_letter h))) by (done || left || (intros El; apply Hgh; symmetry;
      apply (same_letter _ (to_handlers _ HT)); [apply Hg|apply Hh|done])). by rewrite !andb_true_r. }
  unfold flag_eff. destruct (h_local g); [done|]. destruct (i_param (h_info g)); [destruct (has _ _)|]; done.
Qed.

(** and one that is set is there in the end. *)
Lemma effs_add_on hs t h : Forall (fun g => normal E g /\ i_param (h_info g) = None) hs -> normal E h -> h_local h = false ->
  (forall k, k ∈ hs -> add_clears (h_letter k) (h_letter h) = false) -> cm_set (mc_mode t) h = true \/ h ∈ hs ->
  cm_set (mc_mode (foldl (flag_eff MODE_ADD) t hs)) h = true.
Proof using HT.
  intros Hhs Hh Hloc. revert t. induction Hhs as [|g hs [Hg Hgp] Hhs IH]; intros t Hc Hor; cbn [foldl].
  - destruct Hor as [Hor|Hor]; [done|by apply not_elem_of_nil in Hor].
  - apply IH; [intros k Hk; apply Hc; by right|]. specialize (Hc g (list_elem_of_here _ _)). unfold flag_eff. rewrite Hgp.
    assert (Hset : cm_set (mc_mode (extmode_set E g MODE_ADD [] t)) h = cm_set (mc_mode t) h || (h_letter g =? h_letter h)).
    { rewrite (set_add E HT), Hc by done. by rewrite andb_true_r. }
    destruct Hor as [Hon|Hin]; [left|apply elem_of_cons in Hin as [<-|Hin]; [left|by right]].
    + destruct (h_local g); [done|]. by rewrite Hset, Hon.
    + by rewrite Hloc, Hset, Z.eqb_refl, orb_true_r.
Qed.

Lemma effs_add_off hs t h : Forall (fun g => normal E g /\ i_param (h_info g) = None) hs -> normal E h -> h ∉ hs ->
  cm_set (mc_mode t) h = false -> cm_set (mc_mode (foldl (flag_eff MODE_ADD) t hs)) h = false.
Proof using HT.
  intros Hhs Hh. revert t. induction Hhs as [|g hs [Hg Hgp] Hhs IH]; intros t Hn Hoff; [done|]. apply not_elem_of_cons in Hn as [Hgh Hn]. cbn [foldl].
  apply IH; [done|]. unfold flag_eff. rewrite Hgp. destruct (h_local g); [done|]. rewrite (set_add E HT), Hoff by done. cbn [orb].
  rewrite (proj2 (Z.eqb_neq _ _)); [done|]. intros El. apply Hgh. symmetry. apply (same_letter _ (to_handlers _ HT)); [apply Hg|apply Hh|done].
Qed.

Lemma added_bare old new : Forall (fun g => bare MODE_ADD g /\ normal E g /\ i_param (h_info g) = None) (flags_added E old new).
Proof using HT.
  apply Forall_forall. intros h [[[_ Hp] _] Hh]%list_elem_of_filter.
  assert (Ht : ctype (h_cm h) = CMODE_NORMAL) by (destruct (ctype (h_cm h)) eqn:Ht; [done|]; destruct (to_member _ HT h Hh Ht); lia).
  split; [|split; [done|]]; [split; [done|by left]|]. destruct (to_normal _ HT h Hh Ht) as [(_ & Hn & _)|[Hp1 _]]; [done|lia].
Qed.

Lemma removed_bare old new : Forall (fun g => bare MODE_DEL g /\ normal E g) (flags_removed E old new).
Proof using HT.
  apply Forall_forall. intros h [[[_ Hu] _] Hh]%list_elem_of_filter.
  assert (Ht : ctype (h_cm h) = CMODE_NORMAL).
  { destruct (ctype (h_cm h)) eqn:Ht; [done|]. destruct (ho_member _ (to_handlers _ HT) h Hh Ht) as (_ & _ & Hm). congruence. }
  split; [|done]. split; [done|by right].
Qed.

Lemma in_added old new h : h ∈ flags_added E old new <-> h ∈ e_handlers E /\ paracount (h_cm h) = 0 /\ cm_set new h = true /\ cm_set old h = false.
Proof using HT.
  unfold flags_added, cm_set. rewrite list_elem_of_filter. split; [tauto|]. intros (Hh & Hp & H1 & H2). split; [|done]. split; [|done]. split; [|done].
  pose proof (to_letter _ HT h Hh) as Hl. rewrite not_elem_of_cons in Hl. tauto.
Qed.

Lemma in_removed old new h : h ∈ flags_removed E old new <-> h ∈ e_handlers E /\ unset_with_param (h_cm h) = false /\ cm_set new h = false /\ cm_set old h = true.
Proof using HT.
  unfold flags_removed, cm_set. rewrite list_elem_of_filter. split; [tauto|]. intros (Hh & Hp & H1 & H2). split; [|done]. split; [|done]. split; [|done].
  pose proof (to_letter _ HT h Hh) as Hl. rewrite not_elem_of_cons in Hl. tauto.
Qed.

Definition flags_eff (old new : Z) (t : mchan) : mchan := foldl (flag_eff MODE_DEL) (foldl (flag_eff MODE_ADD) t (flags_added E old new)) (flags_removed E old new).

(** +p and +s are not set together and +K is not set without +i. *)
Definition consistent (m : Z) : bool :=
  negb (has m (handler_bit E 112) && has m (handler_bit E 115)) && implb (has m (handler_bit E 75)) (has m (handler_bit E 105)).

Lemma bit_self h : h ∈ e_handlers E -> handler_bit E (h_letter h) = h_mode h.
Proof using HT. intros Hh. unfold handler_bit. by rewrite (find_handler_self E HT). Qed.

Lemma consistent_hooks m h k : consistent m = true -> h ∈ e_handlers E -> k ∈ e_handlers E -> cm_set m h = true ->
  (cm_set m k = true -> add_clears (h_letter k) (h_letter h) = false) /\ (cm_set m k = false -> del_clears (h_letter k) (h_letter h) = false).
Proof using HT.
  unfold consistent. intros [Hc1 Hc2]%andb_prop Hh Hk Hset. apply negb_true_iff in Hc1. unfold cm_set in *.
  rewrite <- (bit_self h Hh) in Hset. rewrite <- (bit_self k Hk). unfold add_clears, del_clears. split; intros Hks.
  - destruct (Z.eqb_spec (h_letter k) 115) as [E1|]; cbn [andb orb].
    + rewrite E1 in *. destruct (Z.eqb_spec (h_letter h) 112) as [E2|]; [|done]. rewrite E2 in Hset. by rewrite Hset, Hks in Hc1.
    + destruct (Z.eqb_spec (h_letter k) 112) as [E1|]; [|done]. rewrite E1 in *. cbn [andb]. destruct (Z.eqb_spec (h_letter h) 115) as [E2|]; [|done].
      rewrite E2 in Hset. by rewrite Hset, Hks in Hc1.
  - destruct (Z.eqb_spec (h_letter k) 105) as [E1|]; [|done]. rewrite E1 in *. cbn [andb]. destruct (Z.eqb_spec (h_letter h) 75) as [E2|]; [|done].
    rewrite E2 in Hset. by rewrite Hset, Hks in Hc2.
Qed.

Lemma flags_normal old new :
  Forall (fun g => normal E g /\ i_param (h_info g) = None) (flags_added E old new) /\ Forall (normal E) (flags_removed E old new).
Proof using HT.
  split; [eapply Forall_impl; [apply added_bare|by intros ? [_ ?]]|eapply Forall_impl; [apply removed_bare|by intros ? [_ ?]]].
Qed.

(** The flags of the line make the flags of the other server those of this one. *)
Lemma flags_flag old new t h :
  consistent new = true -> normal E h -> h_local h = false -> i_param (h_info h) = None -> cm_set (mc_mode t) h = cm_set old h ->
  cm_set (mc_mode (flags_eff old new t)) h = cm_set new h.
Proof using HT.
  intros Hc Hn Hloc Hph Heq. destruct (flags_normal old new) as [HA HR]. pose proof Hn as [Hh Ht]. unfold flags_eff.
  destruct (to_normal _ HT h Hh Ht) as [(Hp & _ & Hu)|(_ & ph & Hph' & _)]; [|congruence].
  destruct (cm_set new h) eqn:Hnew.
  - rewrite effs_del_on; [apply effs_add_on; try done| done | done | |].
    + intros k (Hk & _ & Hks & _)%in_added. by apply (consistent_hooks new h k).
    + destruct (cm_set old h) eqn:Hold; [by left|right]. by apply in_added.
    + intros (_ & _ & Hx & _)%in_removed. congruence.
    + intros k (Hk & _ & Hks & _)%in_removed. by apply (consistent_hooks new h k).
  - apply effs_del_off; [done..|]. destruct (cm_set old h) eqn:Hold; [right; by apply in_removed|left]. apply effs_add_off; try done.
    intros (_ & _ & Hx & _)%in_added. congruence.
Qed.

(** A mode with a parameter goes if it went here and is left alone otherwise. *)
Lemma flags_param old new t h ph :
  normal E h -> h_local h = false -> i_param (h_info h) = Some ph -> cm_set (mc_mode t) h = cm_set old h ->
  (if unset_with_param (h_cm h) then cm_set (mc_mode (flags_eff old new t)) h = cm_set old h
   else cm_set (mc_mode (flags_eff old new t)) h = cm_set old h && cm_set new h) /\
  (cm_set (mc_mode (flags_eff old new t)) h = true -> mc_params (flags_eff old new t) !! h_letter h = mc_params t !! h_letter h).
Proof using HT.
  intros Hn Hloc Hph Heq. destruct (flags_normal old new) as [HA HR]. destruct (param_count E HT h ph Hn Hph) as [Hpc _]. pose proof Hn as [Hh Ht]. unfold flags_eff.
  destruct (effs_param MODE_ADD (flags_added E old new) t h ph) as [HA1 HA2]; [eapply Forall_impl; [exact HA|by intros ? [? _]]|done|done| |].
  { intros (_ & Hp & _)%in_added. lia. }
  destruct (decide (unset_with_param (h_cm h) = false /\ cm_set new h = false /\ cm_set old h = true)) as [(Hu & H1 & H2)|Hno].
  - assert (Hoff : cm_set (mc_mode (foldl (flag_eff MODE_DEL) (foldl (flag_eff MODE_ADD) t (flags_added E old new)) (flags_removed E old new))) h = false).
    { apply effs_del_off; [done..|]. right. by apply in_removed. }
    rewrite Hoff, Hu, H1, andb_false_r. done.
  - destruct (effs_param MODE_DEL (flags_removed E old new) (foldl (flag_eff MODE_ADD) t (flags_added E old new)) h ph) as [HB1 HB2]; [done|done|done| |].
    { intros (_ & Hx)%in_removed. by destruct Hno. }
    rewrite HB1, HB2, HA1, HA2, Heq. split; [|done]. destruct (unset_with_param (h_cm h)); [done|].
    destruct (cm_set old h) eqn:Ho; [|done]. destruct (cm_set new h); [done|]. by destruct Hno.
Qed.

Lemma sim_flags ch t old new : sim ch t -> (forall h, normal E h -> cm_set (mc_mode ch) h = cm_set old h) -> sim ch (flags_eff old new t).
Proof using HT.
  intros [H1 H2 H3 H4] Hold. unfold flags_eff. destruct (effs_fields MODE_ADD (flags_added E old new) t) as [F1 F2].
  destruct (effs_fields MODE_DEL (flags_removed E old new) (foldl (flag_eff MODE_ADD) t (flags_added E old new))) as [F3 F4].
  split; [by rewrite F3, F1|by rewrite F3, F1|by rewrite F4, F2|]. intros h ph Hn Hloc Hph Hu. destruct (H4 h ph Hn Hloc Hph Hu) as [H5 H6].
  destruct (flags_param old new t h ph Hn Hloc Hph) as [G1 G2]; [by rewrite H5, Hold|]. rewrite Hu in G1. unfold flags_eff in G1, G2.
  rewrite G1, Hold by done. split; [done|]. intros Hs. rewrite G2 by (by rewrite G1). apply H6. by rewrite Hold.
Qed.

(** *** The lines *)

(** The lines of a change, one MODE message each. *)
Definition replay (t : mchan) (lines : list line) : option mchan :=
  foldl (fun r l => t ← r; '(t, _, _) ← set_mode E' D' false cl' by' t l.1 (tokens [ch_space] l.2); Some t) (Some t) lines.

Lemma replay_cons t l lines s :
  mode_loop E' D' false cl' by' (MkMState t [] (tokens [ch_space] l.2) MODE_ADD) l.1 = Some s -> replay t (l :: lines) = replay (s_ch s) lines.
Proof using Type.
  intros H. unfold replay at 1. rewrite foldl_step.
  assert (Hs : set_mode E' D' false cl' by' t l.1 (tokens [ch_space] l.2) = Some (s_ch s, s_pvar s, make_mode_str E' (mc_mode (s_ch s)) (mc_mode t) (s_pvar s)))
    by (unfold set_mode; by rewrite H).
  by rewrite Hs.
Qed.

Lemma once_app P Q : once (P ++ Q) -> once P /\ once Q.
Proof using Type.
  intros H. split.
  - intros P1 x P2 -> Hn. apply (H P1 x (P2 ++ Q)); [by rewrite <- app_assoc|done].
  - intros P1 x P2 -> Hn Hin. apply (H (P ++ P1) x P2); [by rewrite <- app_assoc|done|]. rewrite fmap_app. apply elem_of_app. by right.
Qed.

Lemma ok_words g : Forall pv_ok g -> tokens [ch_space] (strip_space (params_of g)) = (p_text <$> g) ++ [].
Proof using Type. intros Hg. rewrite app_nil_r. apply strip_params. eapply Forall_impl; [exact Hg|]. intros x [_ Hx]. by apply param_text_word. Qed.

Lemma ok_what g : Forall pv_ok g -> Forall (fun x => p_what x <> MODE_NULL) g.
Proof using Type. intros Hg. eapply Forall_impl; [exact Hg|]. by intros x [Hx _]. Qed.

Lemma next_lines gs t t' :
  rrun t (concat gs) t' -> Forall pv_ok (concat gs) -> once (concat gs) -> (length (concat gs) <= MAXMODEPARAMS)%nat ->
  replay t (map next_line gs) = Some t'.
Proof using Type.
  revert t. induction gs as [|g gs IH]; intros t; cbn [concat map]; [by intros ->|]. intros (t1 & Hg & Hgs)%rrun_app [Hok Hoks]%Forall_app [Ho Hos]%once_app Hl.
  rewrite length_app in Hl. destruct (group_loop t g t1 MODE_NULL MODE_ADD [] [] Hg (ok_what g Hok)) as (pvr & w & Hloop); [by left|simpl; lia|done| |].
  { intros x _ _ Hx. by apply not_elem_of_nil in Hx. }
  rewrite (replay_cons t (next_line g) _ (MkMState t1 pvr [] w)); [apply IH; try done; lia|]. cbn [next_line fst snd]. by rewrite ok_words.
Qed.

Lemma first_lines old new g gs t t' :
  rrun (flags_eff old new t) (g ++ concat gs) t' -> Forall pv_ok (g ++ concat gs) -> once (g ++ concat gs) -> (length (g ++ concat gs) <= MAXMODEPARAMS)%nat ->
  replay t (first_line E old new g :: map next_line gs) = Some t'.
Proof using HT Hhand Hremote Hres.
  intros (t1 & Hg & Hgs)%rrun_app [Hok Hoks]%Forall_app [Ho Hos]%once_app Hl. rewrite length_app in Hl.
  destruct (flags_line (flags_added E old new) (flags_removed E old new) t ((p_text <$> g) ++ []) (modes_of (flags_sign (added E old new) (removed E old new)) g))
    as (w & Hloop & Hw); [eapply Forall_impl; [apply added_bare|by intros ? [? _]]|eapply Forall_impl; [apply removed_bare|by intros ? [? _]]|].
  destruct (group_loop (flags_eff old new t) g t1 (flags_sign (added E old new) (removed E old new)) w [] [] Hg (ok_what g Hok)) as (pvr & w' & Hloop'); [done|simpl; lia|done| |].
  { intros x _ _ Hx. by apply not_elem_of_nil in Hx. }
  rewrite (replay_cons t (first_line E old new g) _ (MkMState t1 pvr [] w')); [apply next_lines; try done; lia|]. unfold first_line. cbn [fst snd].
  rewrite ok_words by done. unfold added, removed in *. rewrite Hloop. exact Hloop'.
Qed.

(** *** The whole change *)

(** What the servers have in common: all but the modes that are local to a server. *)
Record sync (ch t : mchan) : Prop := {
  sy_name : h_name (mc_bans t) = h_name (mc_bans ch);
  sy_texts : same_texts (mc_bans ch) (mc_bans t);
  sy_members : mc_members t = mc_members ch;
  sy_modes h : normal E h -> h_local h = false -> cm_set (mc_mode t) h = cm_set (mc_mode ch) h;
  sy_params h ph : normal E h -> h_local h = false -> i_param (h_info h) = Some ph -> cm_set (mc_mode ch) h = true ->
    mc_params t !! h_letter h = mc_params ch !! h_letter h
}.

Lemma run_flags ch0 ch P h : lrun E D cl by_ bound ch0 ch P -> normal E h -> i_param (h_info h) = None -> h_letter h ∉ (p_letter <$> P).
Proof using HT.
  intros Hr Hn Hph. induction Hr as [|ch P ch' P' Hr IH Hs]; [apply not_elem_of_nil|]. destruct Hs as [_ HP|x Hen Hx HP _ _]; cbn [fst snd] in *; subst P'; [done|].
  rewrite fmap_app. intros [Hin|Hin]%elem_of_app; [done|]. apply elem_of_cons in Hin as [El|Hin]; [|by apply not_elem_of_nil in Hin].
  destruct (entry_own E D cl by_ HT bound ch x ch' h Hen Hn (eq_sym El)) as (ph & Hph' & _). congruence.
Qed.

Lemma change_sync ch ch' P t :
  lrun E D cl by_ bound ch ch' P -> Forall settled P -> sync ch t -> (forall u m, mc_members ch !! u = Some m -> known u) -> consistent (mc_mode ch') = true ->
  exists t', rrun (flags_eff (mc_mode ch) (mc_mode ch') t) P t' /\ sync ch' t'.
Proof using HT HK Hhand Hconv Hmax Hres Hremote Hlim Hnames Hfind.
  intros Hr Hset Hsy Hkn Hc. destruct (run_pvar E D cl by_ bound ch ch' P Hr) as (_ & _ & Hd).
  destruct (run_sim ch ch' P (flags_eff (mc_mode ch) (mc_mode ch') t) Hr Hset) as (t' & Hrun & Hsim).
  { apply sim_flags; [|done]. destruct Hsy as [H1 H2 H3 H4 H5]. split; [done|done|done|]. intros h ph Hn Hloc Hph Hu. split; [by apply H4|]. by apply (H5 h ph). }
  exists t'. split; [exact Hrun|].
  assert (Hmode : forall h, normal E h -> h_local h = false -> cm_set (mc_mode t') h = cm_set (mc_mode ch') h /\
    (forall ph, i_param (h_info h) = Some ph -> cm_set (mc_mode ch') h = true -> mc_params t' !! h_letter h = mc_params ch' !! h_letter h)).
  { intros h Hn Hloc. destruct (i_param (h_info h)) as [ph|] eqn:Hph.
    - destruct (unset_with_param (h_cm h)) eqn:Hu.
      + destruct (sim_kept ch' t' Hsim h ph Hn Hloc Hph Hu) as [H1 H2]. split; [done|]. intros ph' [= <-]. exact H2.
      + pose proof (run_loose E D cl by_ HT bound ch ch' P h ph Hr Hn Hph Hu) as Hl.
        pose proof (rrun_loose _ P t' h Hrun Hd Hn Hu Hloc) as Hl'.
        destruct (flags_param (mc_mode ch) (mc_mode ch') t h ph Hn Hloc Hph (sy_modes ch t Hsy h Hn Hloc)) as [G1 G2]. rewrite Hu in G1.
        destruct (written P (h_letter h)) as [x|].
        * destruct Hl as (_ & Hl1 & Hl2), Hl' as [Hl3 Hl4]. rewrite Hl1, Hl3, Hl2, Hl4. done.
        * destruct Hl' as [Hl3 Hl4]. rewrite Hl3, Hl4. destruct Hl as [[Hl1 Hl2]|Hoff].
          -- rewrite G1, Hl1, Hl2, andb_diag. split; [done|]. intros _ _ Hs. rewrite G2 by (by rewrite G1, Hl1, andb_diag). by apply (sy_params ch t Hsy h ph).
          -- rewrite G1, Hoff, andb_false_r. split; [done|]. done.
    - split; [|done]. pose proof (to_normal _ HT h (proj1 Hn) (proj2 Hn)) as Hf.
      assert (Hu : unset_with_param (h_cm h) = false) by (destruct Hf as [(_ & _ & Hf)|(_ & ph & Hf & _)]; [done|congruence]).
      pose proof (rrun_loose _ P t' h Hrun Hd Hn Hu Hloc) as Hl'. rewrite (written_none P _ (run_flags ch ch' P h Hr Hn Hph)) in Hl'.
      destruct Hl' as [-> _]. apply flags_flag; try done. by apply (sy_modes ch t Hsy). }
  destruct Hsim as [H1 H2 [H3 _] H4]. split; [done|done|done|intros h Hn Hloc; by apply Hmode|]. intros h ph Hn Hloc Hph Hs. by apply (Hmode h Hn Hloc) with ph.
Qed.
End remote.

(** What the theorem needs of the other server: the same modules, bans that are not
    limited for changes of a server, and the members of the channel by their names. *)
Record other_server (E E' : mode_env) (D D' : directory) (cl' : mclient) (by' : setter) (ch : mchan) : Prop := {
  os_handlers : e_handlers E' = e_handlers E;
  os_conv : e_conv E' = e_conv E;
  os_maxbans : 1 <= e_maxbans E';
  os_restrict c : restricted E' cl' c = false;
  os_remote : c_my_user cl' = false;
  os_limited : s_limited by' = false;
  os_find u m : mc_members ch !! u = Some m -> d_find_chasing D' (d_name D u) = Some u
}.

(** C3: a mode change arrives.  Whatever a client changes with one MODE command, the
    lines that its server sends make the same change on another server that had the same
    channel: the ban, exception and invite lists have the same masks, every member has
    the same modes, and the modes of the channel, but for those that are local to a
    server, are the same with the same parameters.  It holds for a change that is not
    larger than a client can ask for, when the masks that are set are not longer than
    the conversion of the other server leaves them (a plain mask, or an extended ban
    from a parameter of at most 90 bytes) and when the modes it leaves do not trigger a
    hook, +p with +s or +K without +i. *)
Theorem mode_change_replicates (E E' : mode_env) (D D' : directory) (samode : bool) (cl cl' : mclient) (by_ by' : setter)
    (bound : nat) (ch t : mchan) (modes : cstring) (args : list cstring) (ch' : mchan) (P : list pv) (lines : option (list line)) :
  table_ok (e_handlers E) -> text_table (k_table (e_conv E)) -> 0 < s_time by_ -> (forall u, param_text (d_name D u)) ->
  other_server E E' D D' cl' by' ch -> wf E by_ ch -> Forall (arg_ok bound) args ->
  set_mode E D samode cl by_ ch modes args = Some (ch', P, lines) ->
  Forall (settled bound) P -> consistent E (mc_mode ch') = true ->
  (length (added E (mc_mode ch) (mc_mode ch')) + length (removed E (mc_mode ch) (mc_mode ch')) + 2 + weight P <= 1434)%nat ->
  (length (added E (mc_mode ch) (mc_mode ch')) + length (removed E (mc_mode ch) (mc_mode ch')) <= 500)%nat ->
  sync E ch t ->
  exists t', replay E' D' cl' by' t (default [] lines) = Some t' /\ sync E ch' t'.
Proof.
  intros HT HK Htime Hnames [Hhand Hconv Hmax Hres Hremote Hlim Hfind] Hwf Ha. unfold set_mode.
  destruct (mode_loop E D samode cl by_ (MkMState ch [] args MODE_ADD) modes) as [s|] eqn:El; [|done]. cbn [mbind option_bind]. intros [= <- <- <-] Hset Hc Hw Hl Hsy.
  destruct (loop_run E D samode cl by_ HT HK Htime Hnames bound ch (MkMState ch [] args MODE_ADD) modes s (lr_nil _ _ _ _ _ _) Hwf ltac:(done) Ha El) as [Hrun _].
  destruct (run_pvar E D cl by_ bound ch (s_ch s) (s_pvar s) Hrun) as (Hok & Hlen & Hd).
  assert (Hchange : exists t', rrun E E' D' cl' by' (flags_eff E (mc_mode ch) (mc_mode (s_ch s)) t) (s_pvar s) t' /\ sync E (s_ch s) t').
  { apply (change_sync E E' D D' cl cl' by_ by' bound) with (known := fun u => is_Some (mc_members ch !! u)); try done. intros u [m Hm]. by apply (Hfind u m). }
  destruct Hchange as (t' & Hr & Hsy').
  exists t'. split; [|done]. pose proof (make_mode_str_spec E (mc_mode (s_ch s)) (mc_mode ch) (s_pvar s) Hok Hw Hl) as Hm.
  destruct (make_mode_str E _ _ _) as [lines|]; cbn [default from_option Datatypes.id].
  - destruct Hm as (g0 & gs & HP & -> & _). rewrite HP in *. by apply first_lines.
  - destruct Hm as (HA & HR & HP). rewrite HP in Hr. unfold added, removed in HA, HR. apply fmap_nil_inv in HA. apply fmap_nil_inv in HR.
    unfold flags_eff in Hr. rewrite HA, HR in Hr. cbn [rrun foldl] in Hr. by rewrite Hr.
Qed.

Definition example_names (u : positive) : cstring := if bool_decide (u = 1%positive) then str "op" else str "joe".
Definition example_find (s : cstring) : option positive :=
  if bool_decide (s = str "op") then Some 1%positive else if bool_decide (s = str "joe") then Some 2%positive else None.
Definition example_directory : directory := MkDirectory example_find example_find example_names (fun _ => false).

Definition example_mode_channel : mchan :=
  MkMChan example_ban_channel (Z.lor (handler_bit example_mode_env 110) (handler_bit example_mode_env 105)) ∅
    (<[1%positive := str "o"]> (<[2%positive := []]> ∅)) None.

(** An operator of the channel, and the same user on another server. *)
Definition example_operator (my : bool) : mclient := MkMClient (Some 1%positive) my false false false (fun _ => false) [].
Definition example_remote_setter : setter := MkSetter (str "op") false 20.

Definition example_change : option (mchan * list pv * option (list line)) :=
  set_mode example_mode_env example_directory false (example_operator true) example_setter example_mode_channel (str "+mkb-n+ol") [str "key"; str "bob"; str "joe"; str "010"].

Definition example_changed : mchan := match example_change with Some (ch, _, _) => ch | None => example_mode_channel end.
Definition example_written : list pv := match example_change with Some (_, p, _) => p | None => [] end.

Lemma example_wf : wf example_mode_env example_setter example_mode_channel.
Proof.
  split.
  - intros t l x Hl Hx. cut (Forall (fun y => 0 < when_ y <= 9) l); [rewrite Forall_forall; intros H; exact (H x Hx)|].
    destruct t; [| | |discriminate Hl]; apply (inj Some) in Hl; subst l; repeat constructor; cbn; lia.
  - intros h ph Hh _ Hp Hs.
    assert (Hall : forallb (fun h => negb (cm_set (mc_mode example_mode_channel) h && match i_param (h_info h) with Some _ => true | None => false end)) shipped_handlers = true)
      by (vm_compute; reflexivity).
    rewrite forallb_forall in Hall. specialize (Hall h (proj1 (list_elem_of_In _ _) Hh)). rewrite Hs, Hp in Hall. discriminate Hall.
Qed.

Lemma sync_refl E ch : sync E ch ch.
Proof. by repeat split. Qed.

Lemma mode_change_replicates_witness :
  make_mode_str example_mode_env (mc_mode example_changed) (mc_mode example_mode_channel) example_written =
    Some [(str "+m-n+kbol", str "key bob!*@* joe 10")] /\
  exists t', replay example_mode_env example_directory (example_operator false) example_remote_setter example_mode_channel
      [(str "+m-n+kbol", str "key bob!*@* joe 10")] = Some t' /\ sync example_mode_env example_changed t'.
Proof.
  assert (Hm : make_mode_str example_mode_env (mc_mode example_changed) (mc_mode example_mode_channel) example_written =
    Some [(str "+m-n+kbol", str "key bob!*@* joe 10")]) by (vm_compute; reflexivity).
  assert (Hrun : example_change = Some (example_changed, example_written, Some [(str "+m-n+kbol", str "key bob!*@* joe 10")])) by (vm_compute; reflexivity).
  assert (Hw : example_written = [MkPv MODE_ADD 107 (str "key"); MkPv MODE_ADD 98 (str "bob!*@*"); MkPv MODE_ADD 111 (str "joe"); MkPv MODE_ADD 108 (str "10")])
    by (vm_compute; reflexivity).
  split; [exact Hm|].
  apply (mode_change_replicates example_mode_env example_mode_env example_directory example_directory false (example_operator true) (example_operator false)
    example_setter example_remote_setter 90 example_mode_channel example_mode_channel (str "+mkb-n+ol") [str "key"; str "bob"; str "joe"; str "010"]
    example_changed example_written (Some [(str "+m-n+kbol", str "key bob!*@* joe 10")])).
  - exact shipped_table_ok.
  - exact extbans_text_table.
  - reflexivity.
  - intros u. cbn [d_name example_directory]. unfold example_names. case_bool_decide; (split; [repeat constructor; unfold printable; lia|]; split; [discriminate|]; split; [discriminate|vm_compute; lia]).
  - split; [reflexivity|reflexivity|discriminate|intros c; reflexivity|reflexivity|reflexivity|]. intros u m.
    cbn [mc_members example_mode_channel]. rewrite !lookup_insert_Some, lookup_empty. intros [[<- _]|[_ [[<- _]|[_ [=]]]]]; reflexivity.
  - exact example_wf.
  - repeat constructor; try (unfold byte_ok; lia); vm_compute; lia.
  - exact Hrun.
  - rewrite Hw. repeat constructor; try (left; lia); discriminate.
  - vm_compute. reflexivity.
  - apply (bool_decide_unpack _). vm_compute. exact I.
  - apply (bool_decide_unpack _). vm_compute. exact I.
  - exact (sync_refl _ _).
Defined.

(** The order of the flags is lost.  An operator that may override the modes of a
    channel changes -i+K; his server ends with +K, sends +K-i and every other server ends
    without it, since -i clears +K there.  A locked letter does not take its parameter:
    with +b locked the mask of the ban becomes the key. *)
Theorem mode_change_defects :
  let E := example_mode_env in
  let run cl samode ch modes args := set_mode E example_directory samode cl example_setter ch (str modes) args in
  (exists ch' t', run (example_operator true) true example_mode_channel "-i+K" [] = Some (ch', [], Some [(str "+K-i", [])]) /\
     replay E example_directory (example_operator false) example_remote_setter example_mode_channel [(str "+K-i", [])] = Some t' /\
     has_channel_mode E ch' 75 = true /\ has_channel_mode E t' 75 = false) /\
  (exists ch', run (example_operator true) false (MkMChan example_ban_channel 0 ∅ (<[1%positive := str "o"]> ∅) (Some (str "b"))) "+bk"
       [str "mask!*@*"; str "secret"] = Some (ch', [MkPv MODE_ADD 107 (str "mask!*@*")], Some [(str "+k", str "mask!*@*")])).
Proof. cbv zeta. split; [do 2 eexists|eexists]; vm_compute; by repeat split. Qed.
