(* ===== verification/Sjoin.v ===== *)
(** * Merging channels: SJOIN (src/modules/sjoin.c)

    Servers that link send each other their channels: the time of creation, the modes,
    the members with their rights and the lists.  The older channel wins; channels of
    the same age are merged.  The file has the sender ([channel_modes] of src/channel.c,
    [send_channel_modes_sjoin3] of src/modules/server.c) and the handler of the line. *)
From S2P Require Import Prelude Chars Strings ChanMode ModeParse Utf8 Client Hash Command Parse Bans Crule CruleFuncs CruleSpec User MatchUser Extban BanMask BanMode ChanParam Mode ModeLine ModeSync.

(** A channel and its [creationtime]. *)
Record schan := MkSChan { sc_ts : Z; sc_chan : mchan }.

Definition IsInvalidChannelTS (ts : Z) : bool := ts <=? 1000000.

(** [%lld], and [atol]. *)
Definition print_long (v : Z) : cstring := if v <? 0 then 45 :: decimal 20 (- v) else decimal 20 v.
Definition c_atol (s : cstring) : Z := Z.max (- 2 ^ 63) (Z.min (2 ^ 63 - 1) (atoi s)).

(** ** The sender *)

Section send.
Context (E : mode_env).

Abbreviation cms := (h_cm <$> e_handlers E).

(** [channel_modes] for a server, without the modes that are local.  [None] is a set
    mode whose parameter is missing. *)
Definition channel_mode (ch : mchan) (r : option (cstring * cstring)) (h : Handler) : option (cstring * cstring) :=
  '(m, p) ← r;
  if negb (h_letter h =? 0) && negb (h_local h) && has (mc_mode ch) (h_mode h) then
    let m := strlcat_letter m (h_letter h) BUFSIZE in
    if paracount (h_cm h) =? 0 then Some (m, p)
    else q ← mc_params ch !! h_letter h; Some (m, (strlcat (strlcat p q BUFSIZE).1 [ch_space] BUFSIZE).1)
  else Some (m, p).

Definition channel_modes (ch : mchan) : option (cstring * cstring) :=
  '(m, p) ← foldl (channel_mode ch) (Some (str "+", [])) (e_handlers E);
  Some (m, take (length p - 1) p).

(** [add_sjsby] *)
Definition add_sjsby (setby : cstring) (seton : Z) : cstring := [60] ++ print_long seton ++ [44] ++ setby ++ [62].

Definition member_item (id : positive -> cstring) (m : positive * cstring) : cstring :=
  modes_to_sjoin_prefix cms m.2 ++ id m.1 ++ [ch_space].

Definition list_item (sjsby : bool) (prefix : Z) (b : Ban) : cstring :=
  (if sjsby then add_sjsby (who b) (when_ b) else []) ++ [prefix] ++ banstr b ++ [ch_space].

(** The text behind the command; [modes] is empty or starts with a blank. *)
Definition sj_head (ts : Z) (name modes : cstring) : cstring := [ch_space] ++ print_long ts ++ [ch_space] ++ name ++ modes ++ [ch_space; ch_colon].

(** The lines that were sent, the fixed part of the current one and its items.  [id] is
    [me.id]: the line starts with ":id SJOIN". *)
Definition sj_add (id : cstring) (ts : Z) (name : cstring) (st : list cstring * cstring * cstring) (item : cstring)
    : list cstring * cstring * cstring :=
  let '(out, head, items) := st in
  if (BUFSIZE - 8 <? length item + (7 + length id + length head + length items))%nat
  then (out ++ [head ++ items], sj_head ts name [], item)
  else (out, head, items ++ item).

(** [send_channel_modes_sjoin3], with the members in the order of their list; [None] is a
    line without a start. *)
Definition send_channel_modes_sjoin3 (id : cstring) (ids : positive -> cstring) (sjsby : bool) (members : list (positive * cstring)) (c : schan)
    : option (list cstring) :=
  let ch := sc_chan c in
  let name := h_name (mc_bans ch) in
  if negb (hd 0 name =? 35) then Some []
  else
    '(modebuf, parabuf) ← channel_modes ch;
    let parabuf := strip_space parabuf in
    modes ← match tl modebuf, parabuf with
            | [], [] => Some []
            | _, [] => Some ([ch_space] ++ modebuf)
            | [], _ => None
            | _, _ => Some ([ch_space] ++ modebuf ++ [ch_space] ++ parabuf)
            end;
    let head := take (1023 - (7 + length id)) (sj_head (sc_ts c) name modes) in
    let items := map (member_item ids) members ++ map (list_item sjsby 38) (banlist (mc_bans ch)) ++
                 map (list_item sjsby 34) (exlist (mc_bans ch)) ++ map (list_item sjsby 39) (invexlist (mc_bans ch)) in
    let '(out, head, rest) := foldl (sj_add id (sc_ts c) name) ([], head, []) items in
    Some (if nonempty rest || bool_decide (out = []) then out ++ [head ++ rest] else out).
End send.

(** ** The receiver *)

(** Where a user is: on this server ([MyUser], with [IsSecureConnect] and [IsULine]), in
    the direction that the line comes from, or elsewhere. *)
Inductive place := Here (secure uline : bool) | There | Elsewhere.

(** The server that the line comes from. *)
Record peer := MkPeer {
  p_name : cstring;                              (** [client->name] *)
  p_sjsby : bool;                                (** [SupportSJSBY(client->direction)] *)
  p_place : positive -> place
}.

(** [acptr->direction == client->direction] *)
Definition p_behind (P : peer) (u : positive) : bool := match p_place P u with There => true | _ => false end.

(** [MyUser(client) && !IsSecureConnect(client) && !IsULine(client)] *)
Definition p_insecure (P : peer) (u : positive) : bool := match p_place P u with Here secure uline => negb secure && negb uline | _ => false end.

Definition mode_letter_to_extbantype (c : Z) : ExtbanType :=
  if c =? 101 then EXBTYPE_EXCEPT else if c =? 73 then EXBTYPE_INVEX else EXBTYPE_BAN.

Section receive.
Context (E : mode_env) (D : directory) (P : peer) (now : Z).

Definition server_client : mclient := MkMClient None false true false false (fun _ => true) (my_chanmodes E).
Definition server_setter : setter := MkSetter (p_name P) false now.

(** The time and setter in front of an item, and the rest; [None] skips the item. *)
Definition sj_setter (s : cstring) : option (Z * cstring * cstring) :=
  if p_sjsby P && (hd 0 s =? 60) then
    '(tp, rest) ← strchr 62 s;
    '(at_, by_) ← strchr 44 tp;
    Some (c_atol (tl at_), take (NICKLEN + USERLEN + HOSTLEN + 3) by_, rest)
  else Some (now, p_name P, s).

(** The modes of the prefixes, and the item behind them. *)
Fixpoint sj_prefixes (p modes : cstring) : cstring * cstring :=
  match p with
  | [] => (modes, [])
  | c :: p' =>
      let m := sjoin_prefix_to_mode (h_cm <$> e_handlers E) c in
      if m =? 0 then (modes, p)
      else
        let modes := strlcat_letter modes m MEMBERMODESLEN in
        if contains m (str "beI") then (modes, p') else sj_prefixes p' modes
  end.

Definition add_user_to_channel (ch : mchan) (u : positive) (modes : cstring) : mchan :=
  set_members ch (<[u := foldl (addlettertomstring (h_cm <$> e_handlers E)) [] modes]> (mc_members ch)).

Definition sj_member (removetheirs : bool) (ch : mchan) (item modes : cstring) : mchan :=
  match d_find_user D item with
  | None => ch
  | Some u =>
      if negb (p_behind P u) then ch
      else if bool_decide (is_Some (mc_members ch !! u)) then ch
      else add_user_to_channel ch u (if removetheirs then [] else modes)
  end.

(** [None] is the fault of comparing two empty masks. *)
Definition sj_list (removetheirs : bool) (ch : mchan) (item modes setby : cstring) (setat : Z) : option mchan :=
  if removetheirs then Some ch
  else if negb (hd 0 item =? 126) && (negb (contains 33 item) || negb (contains 64 item) || (hd 0 item =? 33)) then Some ch
  else
    let letter := hd 0 modes in
    let t := mode_letter_to_extbantype letter in
    match clean_ban_mask (e_conv E) (MkConvCtx false (Some (mc_bans ch)) MODE_ADD t false) item with
    | None => Some ch
    | Some s =>
        if contains letter (str "beI") then
          l ← list_of t (mc_bans ch);
          '(l, _) ← add_listmode_ex (e_maxbans E) false l (take 1023 s) setby setat;
          Some (set_bans ch (put_list t (mc_bans ch) l))
        else Some ch
    end.

Definition sj_item (removetheirs : bool) (ch : mchan) (s : cstring) : option mchan :=
  match sj_setter s with
  | None => Some ch
  | Some (setat, setby, tp) =>
      let '(modes, p) := sj_prefixes tp [] in
      let item := take 1023 p in
      if bool_decide (item = []) then Some ch
      else if existsb (fun c => contains c (str "beI")) modes then sj_list removetheirs ch item modes setby setat
      else Some (sj_member removetheirs ch item modes)
  end.

Definition sj_items (removetheirs : bool) (ch : mchan) (items : cstring) : option mchan :=
  foldl (fun r s => ch ← r; sj_item removetheirs ch s) (Some ch) (tokens [ch_space] items).

(** The modes of the channel are taken from the line. *)
Definition sj_set (ch : mchan) (modes parabuf : cstring) : option mchan :=
  '(ch, _, _) ← set_mode E D false server_client server_setter ch modes (tokens [ch_space] parabuf); Some ch.

(** Everything that was ours goes, but for the members and the local modes. *)
Definition remove_ours (ch : mchan) : option mchan :=
  '(modebuf, parabuf) ← channel_modes E ch;
  let modebuf := 45 :: tl modebuf in
  ch ← (if empty_mode modebuf then Some ch else sj_set ch modebuf parabuf);
  Some (MkMChan (MkBanChannel (h_name (mc_bans ch)) [] [] []) (mc_mode ch) (mc_params ch) ((fun _ => []) <$> mc_members ch) None).

(** +p and +s: the channel stays +s. *)
Definition stay_secret (old new : Z) : Z :=
  if has old (handler_bit E 115) && has new (handler_bit E 112) then Z.lor (Z.ldiff new (handler_bit E 112)) (handler_bit E 115) else new.

(** A parameter that is set on both sides. *)
Definition merge_param (old : mchan) (ch : mchan) (h : Handler) : mchan :=
  match i_param (h_info h) with
  | Some ph =>
      if has (mc_mode old) (h_mode h) && has (mc_mode ch) (h_mode h) then
        match mc_params old !! h_letter h, mc_params ch !! h_letter h with
        | Some ours, Some theirs =>
            match ph_sjoin ph ours theirs with
            | EXSJ_WEWON => set_params ch (<[h_letter h := ph_store ph ours]> (mc_params ch))
            | EXSJ_MERGE p => set_params ch (<[h_letter h := ph_store ph p]> (mc_params ch))
            | EXSJ_THEYWON | EXSJ_SAME => ch
            end
        | _, _ => ch
        end
      else ch
  | None => ch
  end.

Definition merge_modes (ch : mchan) (modes parabuf : cstring) : option mchan :=
  new ← sj_set ch modes parabuf;
  let new := set_mode_bits new (stay_secret (mc_mode ch) (mc_mode new)) in
  Some (foldl (merge_param ch) new (e_handlers E)).

(** [make_channel]: the name is cut at its length and at a byte that it must not have. *)
Definition make_channel (name : cstring) : schan :=
  MkSChan now (MkMChan (MkBanChannel (span (fun c => negb ((c <? 33) || (c =? 44) || (c =? 58))) (take CHANNELLEN name)).1 [] [] []) 0 ∅ ∅ None).

(** The parameters of the modes, each with a blank behind it. *)
Definition mode_params (parv : list cstring) : cstring := (strlcpy [] (concat (map (fun p => p ++ [ch_space]) parv)) BUFSIZE).1.

(** One round of the loop of [secureonly_kick_insecure_users], with the users that were
    kicked so far.  The LOCAL_KICK hooks are called with the arguments in the wrong
    places; a module that has such a hook, which is issecure (+Z), takes the user for the
    channel.  That is a fault. *)
Definition kick_insecure (r : option (mchan * list positive)) (u : positive) : option (mchan * list positive) :=
  '(ch, out) ← r;
  if p_insecure P u then
    if bool_decide (is_Some (find_handler E 90)) then None
    else Some (set_members ch (delete u (mc_members ch)), out ++ [u])
  else Some (ch, out).

Definition secureonly_kick_insecure_users (ch : mchan) : option (mchan * list positive) :=
  if has (mc_mode ch) (handler_bit E 122) then foldl kick_insecure (Some (ch, [])) (fst <$> map_to_list (mc_members ch)) else Some (ch, []).

(** The hook of HOOKTYPE_CHANNEL_SYNCED. *)
Definition secureonly_channel_sync (merge removetheirs nomode : bool) (ch : mchan) : option (mchan * list positive) :=
  if negb merge && negb removetheirs && negb nomode then secureonly_kick_insecure_users ch else Some (ch, []).

(** [cmd_sjoin] on the channel that [find_channel] finds for the name.  The result is the
    channel afterwards, unless it was destroyed, and the users for whom a KICK is sent to
    the other servers. *)
Definition cmd_sjoin (c : option schan) (parv : list cstring) : option (option schan * list positive) :=
  match parv with
  | ts :: name :: (_ :: _) as rest =>
      if negb (hd 0 name =? 35) then Some (c, [])
      else
        let nomode := (length rest =? 1)%nat in
        let start := match c with Some c => c | None => make_channel name end in
        let ts := if IsInvalidChannelTS (c_atol ts) then sc_ts start else c_atol ts in
        let old := bool_decide (is_Some c) in
        let removeours := old && (ts <? sc_ts start) in
        let removetheirs := old && (sc_ts start <? ts) in
        let merge := old && (sc_ts start =? ts) in
        ch ← (if removeours then remove_ours (sc_chan start) else Some (sc_chan start));
        ch ← sj_items removetheirs ch (take 16383 (default [] (last rest)));
        let modes := take 511 (hd [] rest) in
        let para := mode_params (removelast (tl rest)) in
        ch ← (if negb nomode && negb removetheirs then if merge then merge_modes ch modes para else sj_set ch modes para else Some ch);
        '(ch, kicked) ← secureonly_channel_sync merge removetheirs nomode ch;
        Some (if bool_decide (mc_members ch = ∅) && negb (has (mc_mode ch) (handler_bit E 80)) then None
              else Some (MkSChan (if removetheirs then sc_ts start else ts) ch), kicked)
  | _ => Some (c, [])
  end.

(** The lines of a burst. *)
Definition sj_receive (c : option schan) (lines : list cstring) : option (option schan * list positive) :=
  foldl (fun r l => '(c, out) ← r; '(c, kicked) ← cmd_sjoin c (para MAXPARA l); Some (c, out ++ kicked)) (Some (c, [])) lines.

(** [cmd_kick] for one user and a server that kicks him. *)
Definition cmd_kick (c : option schan) (user : cstring) : option schan :=
  match c, d_find_user D user with
  | Some c, Some u =>
      if bool_decide (is_Some (mc_members (sc_chan c) !! u)) then
        let ch := set_members (sc_chan c) (delete u (mc_members (sc_chan c))) in
        if bool_decide (mc_members ch = ∅) && negb (has (mc_mode ch) (handler_bit E 80)) then None else Some (MkSChan (sc_ts c) ch)
      else Some c
  | c, _ => c
  end.
End receive.
