(* ===== verification/SjoinSync.v ===== *)
(** * Two servers merge a channel (src/modules/sjoin.c)

    When two servers link, each of them handles the SJOIN lines of the other.  The file
    proves that they end with the same channel: the one that is older, or, if they are of
    the same age, the union of both, with one of the two parameters where they differ and
    the older one of two entries for the same mask. *)
From S2P Require Import Prelude Chars Strings ChanMode ModeParse Utf8 Client Hash Command Parse Bans Crule CruleFuncs CruleSpec User MatchUser Extban BanMask BanMode ChanParam Mode ModeLine ModeSync Sjoin.

(** ** Words and blanks *)

Definition spaced (ws : list cstring) : cstring := concat (map (fun w => w ++ [ch_space]) ws).
Definition blanks (ws : list cstring) : cstring := concat (map (fun w => ch_space :: w) ws).

Lemma spaced_app ws vs : spaced (ws ++ vs) = spaced ws ++ spaced vs.
Proof. unfold spaced. by rewrite map_app, concat_app. Qed.

Lemma tokens_spaced ws rest : Forall word ws -> tokens [ch_space] (spaced ws ++ rest) = ws ++ tokens [ch_space] rest.
Proof.
  induction 1 as [|w ws Hw _ IH]; [done|]. unfold spaced in *. cbn [map concat]. rewrite <- !app_assoc. cbn [app].
  rewrite tokens_word by done. by rewrite IH.
Qed.

Lemma tokens_all ws : Forall word ws -> tokens [ch_space] (spaced ws) = ws.
Proof. intros Hw. rewrite <- (app_nil_r (spaced ws)), tokens_spaced by done. cbn. by rewrite app_nil_r. Qed.

(** Without the blank at the end. *)
Definition joined (ws : list cstring) : cstring := take (length (spaced ws) - 1) (spaced ws).

Lemma joined_snoc ws w : joined (ws ++ [w]) = spaced ws ++ w.
Proof.
  unfold joined. rewrite spaced_app. unfold spaced at 2 4. cbn [map concat]. rewrite app_nil_r, !length_app. cbn [length].
  replace (length (spaced ws) + (length w + 1) - 1)%nat with (length (spaced ws ++ w))%nat by (rewrite length_app; lia).
  by rewrite app_assoc, take_app_length.
Qed.

Lemma tokens_joined ws : Forall word ws -> tokens [ch_space] (joined ws) = ws.
Proof.
  intros Hw. destruct (decide (ws = [])) as [->|Hne]; [done|]. destruct (exists_last Hne) as (vs & w & ->).
  apply Forall_app in Hw as [Hv Hw]. rewrite Forall_singleton in Hw. rewrite joined_snoc, tokens_spaced by done. by rewrite tokens_last.
Qed.

Lemma joined_strip ws : Forall word ws -> strip_space (joined ws) = joined ws.
Proof.
  intros Hw. destruct (decide (ws = [])) as [->|Hne]; [done|]. destruct (exists_last Hne) as (vs & w & ->).
  apply Forall_app in Hw as [Hv Hw]. rewrite Forall_singleton in Hw. rewrite joined_snoc. destruct Hw as [Hwn Hws].
  unfold strip_space. rewrite bool_decide_false; [done|]. rewrite last_app. destruct (exists_last Hwn) as (x & c & ->). rewrite last_snoc.
  intros [= ->]. apply Hws, elem_of_app. right. left.
Qed.

Lemma joined_blanks ws : ws <> [] -> [ch_space] ++ joined ws = blanks ws.
Proof.
  intros Hne. destruct (exists_last Hne) as (vs & w & ->). rewrite joined_snoc. clear. unfold spaced, blanks.
  induction vs as [|v vs IH]; cbn [map concat app]; [by rewrite app_nil_r|]. cbn [app] in IH. by rewrite <- IH, <- !app_assoc.
Qed.

Lemma joined_nil ws : Forall word ws -> joined ws = [] -> ws = [].
Proof. intros Hw Hj. rewrite <- (tokens_joined ws Hw), Hj. done. Qed.

(** A line is split into its words and the rest behind the colon. *)
Lemma split_blanks ws : forall fuel n i items, Forall (fun w => word w /\ hd 0 w <> ch_colon) ws -> (length ws < fuel)%nat -> i + Z.of_nat (length ws) < n ->
  split_params fuel n i (blanks ws ++ [ch_space; ch_colon] ++ items) = ws ++ [items].
Proof.
  induction ws as [|w ws IH]; intros fuel n i items Hw Hf Hn; (destruct fuel as [|fuel]; [simpl in Hf; lia|]).
  - done.
  - apply Forall_cons in Hw as [[[Hne Hs] Hc] Hw]. unfold blanks. cbn [map concat]. fold (blanks ws). cbn [app].
    destruct w as [|c w]; [done|]. cbn [split_params app]. cbn [hd] in Hc.
    assert (Hsp : forall d, d ∈ c :: w -> is_space d = false).
    { intros d Hd. unfold is_space. apply Z.eqb_neq. intros ->. done. }
    cbn [skip_while]. change (is_space ch_space) with true. cbv iota. rewrite (Hsp c) by left. rewrite (proj2 (Z.eqb_neq c ch_colon)) by done.
    cbn [length] in Hf, Hn. rewrite (proj2 (Z.leb_gt n (i + 1))) by lia.
    assert (Hspan : forall x, span (fun d => negb (is_space d)) ((c :: w) ++ ch_space :: x) = (c :: w, ch_space :: x)).
    { intros x. clear -Hsp. induction (c :: w) as [|d v IHv]; [done|]. cbn [app span]. rewrite (Hsp d) by left. cbn [negb].
      rewrite IHv; [done|]. intros e He. apply Hsp. by right. }
    assert (Hb : exists x, blanks ws ++ [ch_space; ch_colon] ++ items = ch_space :: x) by (destruct ws; eexists; reflexivity).
    cbn [app] in Hb. destruct Hb as [x Hb]. rewrite <- app_assoc. cbn [app]. rewrite Hb. change (c :: w ++ ch_space :: x) with ((c :: w) ++ ch_space :: x). rewrite (Hspan x). rewrite <- Hb. cbn [app]. f_equal. apply (IH fuel n (i + 1) items); [done|lia|lia].
Qed.

(** ** The modes of a channel as words *)

Section modes.
Context (E : mode_env) (HT : table_ok (e_handlers E)).

(** A parameter as it is kept: converting it changes nothing. *)
Definition kept_param (ph : ParamHandler) (name p : cstring) : Prop :=
  ph_ok ph name p = true /\ ph_conv ph p = Some p /\ ph_store ph p = p /\ param_text p.

Definition shared (h : Handler) : Prop := normal E h /\ h_local h = false.

(** Every mode with a parameter that is set has one. *)
Definition modes_ok (ch : mchan) : Prop :=
  forall h ph, shared h -> i_param (h_info h) = Some ph -> cm_set (mc_mode ch) h = true ->
  exists p, mc_params ch !! h_letter h = Some p /\ kept_param ph (h_name (mc_bans ch)) p.

Definition shown (m : Z) : list Handler := base.filter (fun h => h_local h = false /\ cm_set m h = true) (e_handlers E).

Definition par (ch : mchan) (c : Z) : cstring := default [] (mc_params ch !! c).

(** The parameters of modes, in the order of the modes. *)
Definition params_for (ch : mchan) (hs : list Handler) : list cstring :=
  (fun h => par ch (h_letter h)) <$> base.filter (fun h => is_Some (i_param (h_info h))) hs.

Lemma shown_shared m h : h ∈ shown m <-> shared h /\ cm_set m h = true.
Proof using HT.
  unfold shown, shared, normal. rewrite list_elem_of_filter. split; [|tauto]. intros [[Hl Hs] Hh]. split; [|done]. split; [|done]. split; [done|].
  destruct (ctype (h_cm h)) eqn:Ht; [done|]. destruct (ho_member _ (to_handlers _ HT) h Hh Ht) as (Hz & _). unfold cm_set in Hs. rewrite Hz in Hs.
  unfold has in Hs. by rewrite Z.land_0_r in Hs.
Qed.

Lemma param_word ch h ph : modes_ok ch -> shared h -> i_param (h_info h) = Some ph -> cm_set (mc_mode ch) h = true ->
  mc_params ch !! h_letter h = Some (par ch (h_letter h)) /\ kept_param ph (h_name (mc_bans ch)) (par ch (h_letter h)).
Proof using Type. intros Hm Hh Hp Hs. destruct (Hm h ph Hh Hp Hs) as (p & E1 & E2). unfold par. rewrite E1. done. Qed.

Lemma params_words ch hs : modes_ok ch -> Forall (fun h => shared h /\ cm_set (mc_mode ch) h = true) hs ->
  Forall (fun p => word p /\ hd 0 p <> ch_colon /\ (length p <= 200)%nat) (params_for ch hs).
Proof using Type.
  intros Hm Hhs. apply Forall_fmap, Forall_forall. intros h [[ph Hp] Hh]%list_elem_of_filter. rewrite Forall_forall in Hhs.
  destruct (Hhs h Hh) as [H1 H2]. destruct (param_word ch h ph Hm H1 Hp H2) as [_ (_ & _ & _ & Ht)]. cbn. split; [by apply param_text_word|].
  unfold param_text in Ht. tauto.
Qed.

(** What fits into the buffers of a server. *)
Definition modes_fit (ch : mchan) : Prop :=
  (length (shown (mc_mode ch)) + length (spaced (params_for ch (shown (mc_mode ch)))) <= 400)%nat /\
  (length (params_for ch (shown (mc_mode ch))) <= 12)%nat.

Lemma channel_mode_fold ch : modes_ok ch -> forall hs m ws,
  (forall h, h ∈ hs -> h ∈ e_handlers E) ->
  let sh := base.filter (fun h => h_local h = false /\ cm_set (mc_mode ch) h = true) hs in
  (length m + length sh <= 500)%nat -> (length (spaced (ws ++ params_for ch sh)) <= 500)%nat ->
  foldl (channel_mode ch) (Some (m, spaced ws)) hs = Some (m ++ (h_letter <$> sh), spaced (ws ++ params_for ch sh)).
Proof using HT.
  intros Hm hs. induction hs as [|h hs IH]; intros m ws Hin sh Hl1 Hl2; subst sh; [cbn; by rewrite !app_nil_r|]. cbn [foldl].
  rewrite filter_cons in *. assert (Hh : h ∈ e_handlers E) by (apply Hin; left).
  assert (Hz : negb (h_letter h =? 0) = true).
  { apply negb_true_iff, Z.eqb_neq. pose proof (to_letter _ HT h Hh) as Hn. rewrite not_elem_of_cons in Hn. tauto. }
  unfold channel_mode at 2. cbn [mbind option_bind]. rewrite Hz. cbn [andb]. fold (cm_set (mc_mode ch) h).
  destruct (decide (h_local h = false /\ cm_set (mc_mode ch) h = true)) as [[Hloc Hs]|Hno].
  - rewrite Hloc, Hs. cbn [negb andb]. cbn [length] in Hl1. rewrite strlcat_letter_fits by lia.
    assert (Hsh : shared h /\ cm_set (mc_mode ch) h = true).
    { apply shown_shared. apply list_elem_of_filter. done. }
    destruct Hsh as [Hsh _]. destruct Hsh as [Hn _]. pose proof (to_normal _ HT h Hh (proj2 Hn)) as Hf.
    destruct Hf as [(Hp & Hnone & _)|(Hp & ph & Hsome & _)].
    + rewrite Hp. cbn [Z.eqb]. unfold params_for in Hl2 |- *. rewrite filter_cons, decide_False in Hl2 |- * by (rewrite Hnone; by intros [? ?]).
      rewrite IH by (try (intros x Hx; apply Hin; by right); (rewrite length_app; simpl; lia) || done). rewrite fmap_cons, <- app_assoc. done.
    + rewrite Hp. change (1 =? 0) with false. cbv iota. destruct (param_word ch h ph Hm (conj Hn Hloc) Hsome Hs) as [Hq _]. rewrite Hq. cbn [mbind option_bind].
      unfold params_for in Hl2 |- *. rewrite filter_cons, decide_True in Hl2 |- * by (rewrite Hsome; eauto). rewrite fmap_cons in Hl2. rewrite !fmap_cons.
      set (q := par ch (h_letter h)) in *. rewrite (cons_middle q ws), app_assoc in Hl2 |- *. rewrite spaced_app, length_app in Hl2.
      assert (Hsp : (strlcat (strlcat (spaced ws) q BUFSIZE).1 [ch_space] BUFSIZE).1 = spaced (ws ++ [q])).
      { rewrite spaced_app in Hl2 |- *. unfold spaced at 2 in Hl2. unfold spaced at 3. cbn [map concat] in Hl2 |- *. rewrite app_nil_r in Hl2 |- *. rewrite !length_app in Hl2. cbn [length] in Hl2.
        rewrite (line_strlcat_fits (spaced ws)) by lia. rewrite line_strlcat_fits by (rewrite length_app; simpl; lia). by rewrite <- app_assoc. }
      rewrite Hsp. rewrite IH by (try (intros x Hx; apply Hin; by right); (rewrite length_app; simpl; lia) || (rewrite spaced_app, length_app; unfold params_for; lia)).
      rewrite <- app_assoc. done.
  - assert (negb (h_local h) && cm_set (mc_mode ch) h = false) as ->.
    { destruct (h_local h); [done|]. destruct (cm_set (mc_mode ch) h); [|done]. by destruct Hno. }
    apply IH; try done. intros x Hx. apply Hin. by right.
Qed.

Lemma channel_modes_spec ch : modes_ok ch -> modes_fit ch ->
  channel_modes E ch = Some (str "+" ++ (h_letter <$> shown (mc_mode ch)), joined (params_for ch (shown (mc_mode ch)))).
Proof using HT.
  intros Hm [Hf _]. unfold channel_modes. change (Some (str "+", [])) with (Some (str "+", spaced [])). rewrite (channel_mode_fold ch Hm (e_handlers E) (str "+") []).
  - cbn [mbind option_bind app]. done.
  - done.
  - unfold shown in Hf. simpl. lia.
  - unfold shown in Hf. simpl. lia.
Qed.
End modes.

(** ** The modes on the receiving side *)

Section setting.
Context (E : mode_env) (D : directory) (P : peer) (now : Z) (HT : table_ok (e_handlers E)).

Abbreviation scl := (server_client E).
Abbreviation sby := (server_setter P now).
Abbreviation loop := (mode_loop E D false scl sby).

Lemma server_unrestricted c : restricted E scl c = false.
Proof using Type. unfold restricted. by destruct (e_restrict E). Qed.

Definition add_eff (q : Z -> cstring) (t : mchan) (h : Handler) : mchan :=
  match i_param (h_info h) with
  | None => extmode_set E h MODE_ADD [] t
  | Some _ => if same_param t h (q (h_letter h)) then t else extmode_set E h MODE_ADD (q (h_letter h)) t
  end.

Lemma add_eff_fields q t h : mc_bans (add_eff q t h) = mc_bans t /\ mc_members (add_eff q t h) = mc_members t /\ mc_lock (add_eff q t h) = mc_lock t.
Proof using Type. unfold add_eff. destruct (i_param _) as [ph|] eqn:Hp; [destruct (same_param _ _ _); [done|]|]; unfold extmode_set; by rewrite Hp. Qed.

Lemma add_effs_fields q hs t : let t' := foldl (add_eff q) t hs in mc_bans t' = mc_bans t /\ mc_members t' = mc_members t /\ mc_lock t' = mc_lock t.
Proof using Type. revert t. induction hs as [|h hs IH]; intros t; [done|]. cbn [foldl]. destruct (IH (add_eff q t h)) as (-> & -> & ->). apply add_eff_fields. Qed.

Lemma flag_eff_lock w t h : mc_lock (flag_eff E w t h) = mc_lock t.
Proof using Type. unfold flag_eff. destruct (h_local h); [done|]. destruct (i_param _) as [ph|] eqn:Hp; [destruct (has _ _); [|done]|]; unfold extmode_set; rewrite Hp; by destruct w. Qed.

(** The words that the letters take. *)
Definition words_for (q : Z -> cstring) (hs : list Handler) : list cstring :=
  (fun h => q (h_letter h)) <$> base.filter (fun h => is_Some (i_param (h_info h))) hs.

Definition addable (name : cstring) (q : Z -> cstring) (h : Handler) : Prop :=
  shared E h /\ forall ph, i_param (h_info h) = Some ph -> kept_param ph name (q (h_letter h)).

Lemma flag_bare w h : shared E h -> i_param (h_info h) = None -> w <> MODE_NULL -> bare E w h.
Proof using HT.
  intros [Hn Hl] Hp Hw. split; [done|]. destruct (to_normal _ HT h (proj1 Hn) (proj2 Hn)) as [(H1 & _ & H2)|(_ & ph & H1 & _)]; [|congruence].
  destruct w; [done|by left|by right].
Qed.

Lemma fresh_cons (h : Handler) hs (pvr : list pv) (pvr' : list pv) :
  NoDup (h_letter <$> h :: hs) -> (forall g, g ∈ h :: hs -> h_letter g ∉ (p_letter <$> pvr)) ->
  (forall c, c ∈ (p_letter <$> pvr') -> c ∈ (p_letter <$> pvr) \/ c = h_letter h) ->
  NoDup (h_letter <$> hs) /\ (forall g, g ∈ hs -> h_letter g ∉ (p_letter <$> pvr')).
Proof using Type.
  rewrite fmap_cons. intros [Hh Hd]%NoDup_cons Hf Hs. split; [done|]. intros g Hg Hin. apply Hs in Hin as [Hin|Heq].
  - apply (Hf g); [by right|done].
  - apply Hh. rewrite <- Heq. apply list_elem_of_fmap. by exists g.
Qed.

Lemma add_loop name q hs : forall t pvr args,
  h_name (mc_bans t) = name -> Forall (addable name q) hs -> NoDup (h_letter <$> hs) -> (forall g, g ∈ hs -> h_letter g ∉ (p_letter <$> pvr)) ->
  (length pvr + length (words_for q hs) <= MAXMODEPARAMS)%nat ->
  exists pvr', loop (MkMState t pvr (words_for q hs ++ args) MODE_ADD) (h_letter <$> hs) = Some (MkMState (foldl (add_eff q) t hs) pvr' args MODE_ADD).
Proof using HT.
  induction hs as [|h hs IH]; intros t pvr args Hname Ha Hd Hf Hl; [by exists pvr|]. apply Forall_cons in Ha as [[Hsh Hp] Ha].
  rewrite (fmap_cons h_letter). unfold mode_loop. rewrite foldl_step. cbn [foldl]. unfold words_for in Hl |- *. rewrite filter_cons in Hl |- *.
  destruct (i_param (h_info h)) as [ph|] eqn:Hph.
  - rewrite decide_True in Hl |- * by eauto. rewrite fmap_cons in Hl |- *. cbn [length app] in Hl |- *. destruct (Hp ph eq_refl) as (H1 & H2 & H3 & H4).
    destruct (add_step E E D scl sby HT eq_refl eq_refl server_unrestricted t h ph (q (h_letter h)) (proj1 Hsh) Hph) with (pvr := pvr)
      (args := words_for q hs ++ args) as (pvr' & Hc & Hl' & Hin); [by rewrite Hname|done|unfold param_text in H4; tauto|lia|intros _; apply Hf; left|].
    cbn [p_text p_what p_letter] in Hc, Hin. unfold words_for in Hc. rewrite Hc. cbn [mbind option_bind]. rewrite (proj2 Hsh). cbn [orb].
    destruct (fresh_cons h hs pvr pvr' Hd Hf Hin) as [Hd' Hf']. unfold add_eff at 2. rewrite Hph. apply IH; [|done|done|done|].
    + destruct (same_param t h _); [done|]. by rewrite (proj1 (set_fields E h MODE_ADD (q (h_letter h)) t)).
    + unfold words_for. lia.
  - rewrite decide_False in Hl |- * by (by intros [? ?]).
    rewrite (flag_char E E D scl sby HT eq_refl eq_refl server_unrestricted); [|by apply flag_bare|apply Hf; left]. cbn [mbind option_bind].
    destruct (fresh_cons h hs pvr pvr Hd Hf) as [Hd' Hf']; [by left|]. unfold flag_eff, add_eff at 2. rewrite (proj2 Hsh), Hph.
    apply IH; try done. by rewrite (proj1 (set_fields E h MODE_ADD [] t)).
Qed.

Lemma del_loop hs : forall t pvr args,
  Forall (shared E) hs -> NoDup (h_letter <$> hs) -> (forall g, g ∈ hs -> h_letter g ∉ (p_letter <$> pvr)) ->
  let n := length (base.filter (fun h => is_Some (i_param (h_info h))) hs) in
  (length pvr + n <= MAXMODEPARAMS)%nat -> (n <= length args)%nat -> Forall (fun a => (length a <= 200)%nat) args ->
  exists pvr' args', loop (MkMState t pvr args MODE_DEL) (h_letter <$> hs) = Some (MkMState (foldl (flag_eff E MODE_DEL) t hs) pvr' args' MODE_DEL).
Proof using HT.
  induction hs as [|h hs IH]; intros t pvr args Hs Hd Hf n Hl Hn Hargs; subst n; [by exists pvr, args|]. apply Forall_cons in Hs as [Hsh Hs].
  rewrite (fmap_cons h_letter). unfold mode_loop. rewrite foldl_step. cbn [foldl]. rewrite filter_cons in Hl, Hn.
  destruct (unset_with_param (h_cm h)) eqn:Hu.
  - assert (exists ph, i_param (h_info h) = Some ph) as [ph Hph].
    { destruct (to_normal _ HT h (proj1 (proj1 Hsh)) (proj2 (proj1 Hsh))) as [(_ & _ & H)|(_ & ph & H & _)]; [congruence|eauto]. }
    rewrite decide_True in Hl, Hn by (rewrite Hph; eauto). destruct args as [|a args]; [simpl in Hn; lia|]. cbn [length] in Hl, Hn. apply Forall_cons in Hargs as [Ha Hargs].
    destruct (del_step E E D scl sby HT eq_refl eq_refl server_unrestricted t h ph a (proj1 Hsh) Hph Hu Ha) with (pvr := pvr)
      (args := args) as (pvr' & Hc & Hl' & Hin); [lia|intros _; apply Hf; left|].
    cbn [p_text p_what p_letter] in Hc, Hin. rewrite Hc. cbn [mbind option_bind]. rewrite (proj2 Hsh). cbn [orb].
    destruct (fresh_cons h hs pvr pvr' Hd Hf Hin) as [Hd' Hf'].
    assert ((if negb (cm_set (mc_mode t) h) then t else extmode_set E h MODE_DEL [] t) = flag_eff E MODE_DEL t h) as ->.
    { unfold flag_eff. rewrite (proj2 Hsh), Hph. unfold cm_set. by destruct (has (mc_mode t) (h_mode h)). }
    apply IH; (done || lia).
  - rewrite (flag_char E E D scl sby HT eq_refl eq_refl server_unrestricted);
      [|split; [apply Hsh|by right]|apply Hf; left]. cbn [mbind option_bind].
    destruct (fresh_cons h hs pvr pvr Hd Hf) as [Hd' Hf']; [by left|]. apply IH; try done; case_decide; simpl in *; lia.
Qed.

(** *** What is set in the end *)

Definition named (hs : list Handler) (h : Handler) : bool := existsb (fun g => h_letter g =? h_letter h) hs.
Definition cleared (hs : list Handler) (h : Handler) : bool := existsb (fun g => add_clears (h_letter g) (h_letter h)) hs.

Lemma named_in hs h : Forall (normal E) hs -> normal E h -> named hs h = true <-> h ∈ hs.
Proof using HT.
  intros Hhs Hh. unfold named. rewrite existsb_exists. split.
  - intros (g & Hg & El%Z.eqb_eq). apply list_elem_of_In in Hg. rewrite Forall_forall in Hhs.
    apply (same_letter _ (to_handlers _ HT)) in El; [by subst|apply Hhs; done|apply Hh].
  - intros Hin. exists h. split; [by apply list_elem_of_In|apply Z.eqb_refl].
Qed.

Lemma add_eff_set q t g h : normal E g -> normal E h ->
  cm_set (mc_mode (add_eff q t g)) h = (cm_set (mc_mode t) h || (h_letter g =? h_letter h)) && negb (add_clears (h_letter g) (h_letter h)).
Proof using HT.
  intros Hg Hh. unfold add_eff. destruct (i_param (h_info g)) as [ph|] eqn:Hp; [|by apply (set_add E HT)].
  destruct (same_param t g _) eqn:Es; [|by apply (set_add E HT)]. apply andb_prop in Es as [Es _].
  destruct (param_count E HT g ph Hg Hp) as [Hpc _]. assert (Hn : h_letter g ∉ [112; 115; 105; 75]).
  { intros Hin. apply (to_hooks _ HT g (proj1 Hg)) in Hin as [_ Hin]. lia. }
  rewrite !not_elem_of_cons in Hn. destruct Hn as (H1 & H2 & _). unfold add_clears.
  rewrite (proj2 (Z.eqb_neq (h_letter g) 115)), (proj2 (Z.eqb_neq (h_letter g) 112)) by done. cbn [andb orb negb]. rewrite andb_true_r.
  destruct (Z.eqb_spec (h_letter g) (h_letter h)) as [El|]; [|by rewrite orb_false_r].
  apply (same_letter _ (to_handlers _ HT)) in El as ->; [|apply Hg|apply Hh]. unfold cm_set. rewrite Es. done.
Qed.

Lemma add_effs_set q hs t h : Forall (normal E) hs -> normal E h -> (named hs h = true -> cleared hs h = false) ->
  cm_set (mc_mode (foldl (add_eff q) t hs)) h = named hs h || (cm_set (mc_mode t) h && negb (cleared hs h)).
Proof using HT.
  intros Hhs Hh. revert t. induction Hhs as [|g hs Hg Hhs IH]; intros t Hc; [cbn; by rewrite andb_true_r|]. cbn [foldl]. unfold named, cleared in *. cbn [existsb] in *.
  rewrite IH, add_eff_set by (done || (intros Hn; rewrite Hn, orb_true_r in Hc; specialize (Hc eq_refl); by apply orb_false_iff in Hc as [_ ?])).
  destruct (h_letter g =? h_letter h) eqn:El; cbn [orb] in *.
  - specialize (Hc eq_refl). apply orb_false_iff in Hc as [-> ->]. rewrite orb_true_r. cbn [negb andb]. by rewrite orb_true_r.
  - rewrite orb_false_r, <- andb_assoc, negb_orb. done.
Qed.

Lemma add_effs_params q hs t h ph : Forall (addable (h_name (mc_bans t)) q) hs -> normal E h -> i_param (h_info h) = Some ph ->
  mc_params (foldl (add_eff q) t hs) !! h_letter h = if named hs h then Some (q (h_letter h)) else mc_params t !! h_letter h.
Proof using HT.
  intros Hhs Hh Hph. remember (h_name (mc_bans t)) as name eqn:Hname. revert t Hname. induction Hhs as [|g hs [Hg Hgp] Hhs IH]; intros t Hname; [done|]. cbn [foldl]. unfold named in *. cbn [existsb].
  rewrite IH by (by rewrite (proj1 (add_eff_fields q t g))). destruct (existsb _ hs); [by rewrite orb_true_r|]. rewrite orb_false_r.
  unfold add_eff. destruct (Z.eqb_spec (h_letter g) (h_letter h)) as [El|Hne].
  - apply (same_letter _ (to_handlers _ HT)) in El as ->; [|apply Hg|apply Hh]. rewrite Hph. destruct (Hgp ph Hph) as (_ & _ & Hst & _).
    destruct (same_param t h _) eqn:Es; [apply andb_prop in Es as [_ Es]; by apply bool_decide_eq_true in Es|]. rewrite params_of_set, Hph, Z.eqb_refl. by rewrite Hst.
  - destruct (i_param (h_info g)) as [gph|] eqn:Hg2; [destruct (same_param t g _); [done|]|]; rewrite params_of_set, Hg2, ?(proj2 (Z.eqb_neq _ _)) by done; done.
Qed.

(** *** Setting the modes of a line *)

Lemma shown_nodup m : NoDup (h_letter <$> shown E m).
Proof using HT.
  unfold shown. pose proof (ho_letters _ (to_handlers _ HT)) as Hn. clear HT. induction (e_handlers E) as [|h hs IH]; [apply NoDup_nil_2|].
  rewrite fmap_cons in Hn. apply NoDup_cons in Hn as [Hh Hn]. rewrite filter_cons. case_decide; [|by apply IH]. rewrite fmap_cons. apply NoDup_cons.
  split; [|by apply IH]. intros (g & El & Hg)%list_elem_of_fmap. apply Hh. rewrite El. apply list_elem_of_fmap. exists g. split; [done|].
  by apply list_elem_of_filter in Hg as [_ Hg].
Qed.

Lemma shown_good m : Forall (fun h => shared E h /\ cm_set m h = true) (shown E m).
Proof using HT. apply Forall_forall. intros h Hh. by apply (shown_shared E HT). Qed.

Lemma shown_addable b name : modes_ok E b -> h_name (mc_bans b) = name -> Forall (addable name (par b)) (shown E (mc_mode b)).
Proof using HT.
  intros Hm Hname. eapply Forall_impl; [apply shown_good|]. intros h [Hs Hc]. split; [done|]. intros ph Hp.
  destruct (param_word E b h ph Hm Hs Hp Hc) as [_ Hk]. by rewrite <- Hname.
Qed.

Lemma plus_loop s ms : loop s (str "+" ++ ms) = loop (MkMState (s_ch s) (s_pvar s) (s_args s) MODE_ADD) ms.
Proof using Type. unfold mode_loop. cbn [str app String.list_ascii_of_string map]. by rewrite foldl_step. Qed.

(** The channel takes over the modes of [b]. *)
Lemma sj_set_spec ch b para :
  modes_ok E b -> modes_fit E b -> h_name (mc_bans ch) = h_name (mc_bans b) -> tokens [ch_space] para = params_for b (shown E (mc_mode b)) ->
  sj_set E D P now ch (str "+" ++ (h_letter <$> shown E (mc_mode b))) para = Some (foldl (add_eff (par b)) ch (shown E (mc_mode b))).
Proof using HT.
  intros Hm [_ Hf] Hname Htok. unfold sj_set, set_mode. rewrite plus_loop, Htok. cbn [s_ch s_pvar s_args].
  destruct (add_loop (h_name (mc_bans ch)) (par b) (shown E (mc_mode b)) ch [] []) as (pvr & Hl).
  - done.
  - by apply shown_addable.
  - apply shown_nodup.
  - intros g _. apply not_elem_of_nil.
  - unfold MAXMODEPARAMS. cbn [length]. unfold words_for. unfold params_for in Hf. lia.
  - rewrite app_nil_r in Hl. unfold words_for in Hl. unfold params_for. rewrite Hl. done.
Qed.

(** Our modes go. *)
Lemma remove_ours_spec ch : modes_ok E ch -> modes_fit E ch ->
  exists t, remove_ours E D P now ch = Some t /\ h_name (mc_bans t) = h_name (mc_bans ch) /\ mc_members t = (fun _ => []) <$> mc_members ch /\
    (forall ty, get_list ty (mc_bans t) = []) /\ (forall h, shared E h -> cm_set (mc_mode t) h = false).
Proof using HT.
  intros Hm Hf. unfold remove_ours. rewrite (channel_modes_spec E HT ch Hm Hf). cbn [mbind option_bind].
  change (45 :: tl (str "+" ++ (h_letter <$> shown E (mc_mode ch)))) with (45 :: (h_letter <$> shown E (mc_mode ch))).
  set (hs := shown E (mc_mode ch)). assert (Hdone : forall ch1, h_name (mc_bans ch1) = h_name (mc_bans ch) -> mc_members ch1 = mc_members ch ->
    (forall h, shared E h -> cm_set (mc_mode ch1) h = false) ->
    let t := MkMChan (MkBanChannel (h_name (mc_bans ch1)) [] [] []) (mc_mode ch1) (mc_params ch1) ((fun _ => []) <$> mc_members ch1) None in
    h_name (mc_bans t) = h_name (mc_bans ch) /\ mc_members t = (fun _ => []) <$> mc_members ch /\
    (forall ty, get_list ty (mc_bans t) = []) /\ (forall h, shared E h -> cm_set (mc_mode t) h = false)).
  { intros ch1 H1 H2 H3. cbn. rewrite H1, H2. split_and!; try done. by intros []. }
  assert (Hoff : forall h, shared E h -> h ∉ hs -> cm_set (mc_mode ch) h = false).
  { intros h Hh Hn. destruct (cm_set (mc_mode ch) h) eqn:Hc; [|done]. destruct Hn. by apply (shown_shared E HT). }
  destruct (empty_mode (45 :: (h_letter <$> hs))) eqn:Ee.
  - assert (hs = []) as Hnil by (destruct hs; [done|by cbn in Ee]). cbn [mbind option_bind]. eexists. split; [reflexivity|]. apply (Hdone ch); try done.
    intros h Hh. apply Hoff; [done|]. rewrite Hnil. apply not_elem_of_nil.
  - pose proof (params_words E ch hs Hm (shown_good _)) as Hw.
    assert (Hlen : length (params_for ch hs) = length (base.filter (fun h => is_Some (i_param (h_info h))) hs)) by (unfold params_for; by rewrite length_fmap).
    destruct (del_loop hs ch [] (params_for ch hs)) as (pvr & args & Hl).
    { eapply Forall_impl; [apply shown_good|]. by intros h [? _]. }
    { apply shown_nodup. }
    { intros g _. apply not_elem_of_nil. }
    { unfold MAXMODEPARAMS. cbn [length]. destruct Hf as [_ Hf]. fold hs in Hf. lia. }
    { lia. }
    { eapply Forall_impl; [exact Hw|]. cbn. tauto. }
    unfold sj_set, set_mode. rewrite tokens_joined by (eapply Forall_impl; [exact Hw|]; cbn; tauto).
    assert (Hsign : loop (MkMState ch [] (params_for ch hs) MODE_ADD) (45 :: (h_letter <$> hs)) = loop (MkMState ch [] (params_for ch hs) MODE_DEL) (h_letter <$> hs)).
    { unfold mode_loop at 1. by rewrite foldl_step. }
    rewrite Hsign, Hl. cbn [mbind option_bind s_ch]. eexists. split; [reflexivity|].
    destruct (effs_fields E MODE_DEL hs ch) as [F1 F2]. apply Hdone; [by rewrite F1|done|]. intros h Hh. apply (effs_del_off E HT); [|apply Hh|apply Hh|].
    + eapply Forall_impl; [apply shown_good|]. by intros g [[? _] _].
    + destruct (cm_set (mc_mode ch) h) eqn:Hc; [right|by left]. by apply (shown_shared E HT).
Qed.

(** *** Merging modes *)

Definition not_both (m : Z) : bool := negb (has m (handler_bit E 112) && has m (handler_bit E 115)).

(** The modes of both; a channel that is secret is not private. *)
Definition joint (a b : Z) (h : Handler) : bool :=
  (cm_set a h || cm_set b h) && negb ((h_letter h =? 112) && (has a (handler_bit E 115) || has b (handler_bit E 115))).

Definition hooks_public : Prop := forall h, h ∈ e_handlers E -> h_letter h = 112 \/ h_letter h = 115 -> h_local h = false.

Lemma bit_set m c : has m (handler_bit E c) = match find_handler E c with Some g => cm_set m g | None => false end.
Proof using Type. unfold handler_bit, cm_set. destruct (find_handler E c); [done|]. unfold has. by rewrite Z.land_0_r. Qed.

Lemma find_public c g : hooks_public -> c = 112 \/ c = 115 -> find_handler E c = Some g -> shared E g /\ h_letter g = c.
Proof using HT.
  intros Hp Hc Hf. apply find_handler_some in Hf as [Hg Hl]. split; [|done]. rewrite <- Hl in Hc. split; [|by apply Hp].
  split; [done|]. apply (to_hooks _ HT g Hg). rewrite !elem_of_cons. destruct Hc; auto.
Qed.

Lemma has_letter m h : normal E h -> has m (handler_bit E (h_letter h)) = cm_set m h.
Proof using HT. intros [Hh _]. by rewrite (bit_self E HT). Qed.

(** Which modes the modes of a line clear. *)
Lemma shown_cleared b h : hooks_public -> normal E h ->
  cleared (shown E b) h = (h_letter h =? 112) && has b (handler_bit E 115) || (h_letter h =? 115) && has b (handler_bit E 112).
Proof using HT.
  intros Hp Hh. apply eq_true_iff_eq. unfold cleared. rewrite existsb_exists, orb_true_iff, !andb_true_iff, !Z.eqb_eq. unfold add_clears. split.
  - intros (g & Hg & Hc). apply list_elem_of_In, (shown_shared E HT) in Hg as [[Hg _] Hs]. rewrite <- (has_letter b g Hg) in Hs.
    apply orb_true_iff in Hc as [Hc|Hc]; apply andb_prop in Hc as [H1%Z.eqb_eq H2%Z.eqb_eq]; rewrite H1 in Hs; auto.
  - intros Hor. assert (Hex : forall c, c = 112 \/ c = 115 -> has b (handler_bit E c) = true -> exists g, g ∈ shown E b /\ h_letter g = c).
    { intros c Hc Hb. rewrite bit_set in Hb. destruct (find_handler E c) as [g|] eqn:Ef; [|done]. destruct (find_public c g Hp Hc Ef) as [Hg Hl].
      exists g. split; [|done]. by apply (shown_shared E HT). }
    destruct Hor as [[Hl Hb]|[Hl Hb]]; (apply Hex in Hb as (g & Hg & Hgl); [|auto]); exists g; rewrite list_elem_of_In in Hg; (split; [done|]); by rewrite Hgl, Hl.
Qed.

Lemma shown_named b h : shared E h -> named (shown E b) h = cm_set b h.
Proof using HT.
  intros Hh. apply eq_true_iff_eq. rewrite named_in; [|eapply Forall_impl; [apply shown_good|]; by intros g [[? _] _]|apply Hh].
  rewrite (shown_shared E HT). tauto.
Qed.

(** The modes after those of [b] were set. *)
Lemma taken_set ch b h : hooks_public -> not_both (mc_mode b) = true -> shared E h ->
  cm_set (mc_mode (foldl (add_eff (par b)) ch (shown E (mc_mode b)))) h =
  cm_set (mc_mode b) h || cm_set (mc_mode ch) h &&
    negb ((h_letter h =? 112) && has (mc_mode b) (handler_bit E 115) || (h_letter h =? 115) && has (mc_mode b) (handler_bit E 112)).
Proof using HT.
  intros Hp Hb Hh. rewrite add_effs_set, shown_named, shown_cleared; [done|done|apply Hh|done| |apply Hh|].
  - eapply Forall_impl; [apply shown_good|]. by intros g [[? _] _].
  - rewrite shown_named, shown_cleared by (done || apply Hh). intros Hs. rewrite <- (has_letter _ h (proj1 Hh)) in Hs. unfold not_both in Hb.
    destruct (Z.eqb_spec (h_letter h) 112) as [El|]; [rewrite El in Hs; rewrite Hs in Hb; cbn [andb] in Hb; apply negb_true_iff in Hb; rewrite Hb, El; reflexivity|].
    destruct (Z.eqb_spec (h_letter h) 115) as [El|]; [|done]. rewrite El in Hs. rewrite Hs, andb_true_r in Hb. apply negb_true_iff in Hb. by rewrite Hb.
Qed.

Lemma stay_set old new h : hooks_public -> shared E h ->
  cm_set (stay_secret E old new) h =
  if has old (handler_bit E 115) && has new (handler_bit E 112) then (cm_set new h && negb (h_letter h =? 112)) || (h_letter h =? 115) else cm_set new h.
Proof using HT.
  intros Hp Hh. unfold stay_secret. destruct (has old (handler_bit E 115)) eqn:Ho; [|done]. destruct (has new (handler_bit E 112)); [|done]. cbn [andb].
  rewrite bit_set in Ho. unfold handler_bit at 2. destruct (find_handler E 115) as [g|] eqn:Ef; [|done]. destruct (find_public 115 g Hp) as [Hg Hl]; [auto|done|].
  rewrite (cm_set_lor _ (to_handlers _ HT)), (clear_letter E HT), Hl by (apply Hg || apply Hh || apply (normal_mode E HT), Hg).
  by rewrite (Z.eqb_sym 112), (Z.eqb_sym 115).
Qed.

Lemma merged_set ch b h : hooks_public -> not_both (mc_mode b) = true -> not_both (mc_mode ch) = true -> shared E h ->
  cm_set (stay_secret E (mc_mode ch) (mc_mode (foldl (add_eff (par b)) ch (shown E (mc_mode b))))) h = joint (mc_mode ch) (mc_mode b) h.
Proof using HT.
  intros Hp Hb Ha Hh. rewrite stay_set by done. set (new := foldl (add_eff (par b)) ch (shown E (mc_mode b))).
  set (aS := has (mc_mode ch) (handler_bit E 115)). set (aP := has (mc_mode ch) (handler_bit E 112)).
  set (bS := has (mc_mode b) (handler_bit E 115)). set (bP := has (mc_mode b) (handler_bit E 112)).
  assert (Hnew : has (mc_mode new) (handler_bit E 112) = bP || aP && negb bS).
  { unfold aP, bP. rewrite !bit_set. destruct (find_handler E 112) as [g|] eqn:Ef; [|done]. destruct (find_public 112 g Hp) as [Hg Hl]; [auto|done|].
    unfold new. rewrite taken_set, Hl by done. cbn [Z.eqb Pos.eqb andb orb]. by rewrite orb_false_r. }
  unfold not_both in Ha, Hb. fold aS aP in Ha. fold bS bP in Hb. rewrite Hnew. unfold new. rewrite taken_set by done. fold bS bP. unfold joint. fold aS bS.
  destruct (Z.eqb_spec (h_letter h) 112) as [El|Hn1].
  - rewrite <- (has_letter (mc_mode ch) h (proj1 Hh)), <- (has_letter (mc_mode b) h (proj1 Hh)), El. fold aP bP. change (112 =? 115) with false.
    destruct aS, aP, bS, bP; done.
  - destruct (Z.eqb_spec (h_letter h) 115) as [El|Hn2].
    + rewrite <- (has_letter (mc_mode ch) h (proj1 Hh)), <- (has_letter (mc_mode b) h (proj1 Hh)), El. fold aS bS. destruct aS, aP, bS, bP; done.
    + cbn [andb orb negb]. rewrite !andb_true_r, !orb_false_r, (orb_comm (cm_set (mc_mode b) h)). by destruct (aS && (bP || aP && negb bS)).
Qed.

(** The winner of two parameters. *)
Definition winner (ph : ParamHandler) (ours theirs : cstring) : cstring :=
  match ph_sjoin ph ours theirs with EXSJ_WEWON => ours | EXSJ_MERGE p => ph_store ph p | EXSJ_THEYWON | EXSJ_SAME => theirs end.

Lemma winner_sym ph a b : ParamLaws ph -> ph_store ph a = a -> ph_store ph b = b -> winner ph a b = winner ph b a.
Proof using Type.
  intros Hl Ha Hb. unfold winner. pose proof (pl_same a b) as H1. pose proof (pl_dual a b) as H2. pose proof (pl_dual b a) as H3. pose proof (pl_merge a b) as H4.
  rewrite Ha, Hb in H1, H2, H3, H4. destruct (ph_sjoin ph a b) as [| | |p] eqn:Ej.
  - assert (a = b) as -> by (by apply H1). by rewrite Ej.
  - by rewrite (proj1 H2).
  - by rewrite (proj2 H3).
  - by rewrite (H4 p).
Qed.

(** The parameter of a mode that is set on one side or on both. *)
Definition joint_param (ph : ParamHandler) (a b : mchan) (h : Handler) : cstring :=
  if cm_set (mc_mode a) h && cm_set (mc_mode b) h then winner ph (par a (h_letter h)) (par b (h_letter h))
  else if cm_set (mc_mode b) h then par b (h_letter h) else par a (h_letter h).

Lemma merge_fields old t h : mc_bans (merge_param old t h) = mc_bans t /\ mc_members (merge_param old t h) = mc_members t /\ mc_mode (merge_param old t h) = mc_mode t.
Proof using Type. unfold merge_param. by repeat case_match. Qed.

Lemma merges_fields old hs t : let t' := foldl (merge_param old) t hs in mc_bans t' = mc_bans t /\ mc_members t' = mc_members t /\ mc_mode t' = mc_mode t.
Proof using Type. revert t. induction hs as [|h hs IH]; intros t; [done|]. cbn [foldl]. destruct (IH (merge_param old t h)) as (-> & -> & ->). apply merge_fields. Qed.

Lemma merge_other old t g c : h_letter g <> c -> mc_params (merge_param old t g) !! c = mc_params t !! c.
Proof using Type.
  intros Hne. unfold merge_param. destruct (i_param _); [|done]. destruct (_ && _); [|done]. destruct (mc_params old !! _), (mc_params t !! h_letter g); try done.
  destruct (ph_sjoin _ _ _); try done; cbn [set_params mc_params]; by rewrite lookup_insert_ne.
Qed.

Lemma merges_other old hs t c : c ∉ (h_letter <$> hs) -> mc_params (foldl (merge_param old) t hs) !! c = mc_params t !! c.
Proof using Type.
  revert t. induction hs as [|g hs IH]; intros t Hn; [done|]. rewrite fmap_cons in Hn. apply not_elem_of_cons in Hn as [Hg Hn]. cbn [foldl]. rewrite IH by done. by apply merge_other.
Qed.

Lemma merges_own old t h ph a b : h ∈ e_handlers E -> i_param (h_info h) = Some ph -> has (mc_mode old) (h_mode h) = true -> has (mc_mode t) (h_mode h) = true ->
  mc_params old !! h_letter h = Some a -> mc_params t !! h_letter h = Some b -> ph_store ph a = a ->
  mc_params (foldl (merge_param old) t (e_handlers E)) !! h_letter h = Some (winner ph a b).
Proof using HT.
  intros Hh Hp Ho Ht Ha Hb Hst. pose proof (ho_letters _ (to_handlers _ HT)) as Hn. apply list_elem_of_split in Hh as (l1 & l2 & Hl). rewrite Hl in Hn |- *.
  rewrite fmap_app, fmap_cons in Hn. apply NoDup_app in Hn as (_ & Hn1 & [Hn2 _]%NoDup_cons). rewrite foldl_app. cbn [foldl]. rewrite merges_other by done.
  set (t1 := foldl (merge_param old) t l1). destruct (merges_fields old l1 t) as (_ & _ & Hm).
  assert (Hp1 : mc_params t1 !! h_letter h = Some b).
  { unfold t1. rewrite merges_other; [done|]. intros Hin. apply (Hn1 _ Hin). left. }
  unfold merge_param. rewrite Hp, Ho. unfold t1 at 1. rewrite Hm, Ht. cbn [andb]. rewrite Ha, Hp1. unfold winner. destruct (ph_sjoin ph a b); try done; cbn [set_params mc_params]; by rewrite lookup_insert_eq, ?Hst.
Qed.

Lemma merges_none old t h : h ∈ e_handlers E -> has (mc_mode old) (h_mode h) && has (mc_mode t) (h_mode h) = false ->
  mc_params (foldl (merge_param old) t (e_handlers E)) !! h_letter h = mc_params t !! h_letter h.
Proof using HT.
  intros Hh Hs. pose proof (ho_letters _ (to_handlers _ HT)) as Hn. apply list_elem_of_split in Hh as (l1 & l2 & Hl). rewrite Hl in Hn |- *.
  rewrite fmap_app, fmap_cons in Hn. apply NoDup_app in Hn as (_ & Hn1 & [Hn2 _]%NoDup_cons). rewrite foldl_app. cbn [foldl]. rewrite merges_other by done.
  destruct (merges_fields old l1 t) as (_ & _ & Hm). assert (Hskip : forall t1, mc_mode t1 = mc_mode t -> merge_param old t1 h = t1).
  { intros t1 E1. unfold merge_param. rewrite E1, Hs. by destruct (i_param (h_info h)). }
  rewrite Hskip by done. apply merges_other. intros Hin. apply (Hn1 _ Hin). left.
Qed.

Lemma merge_modes_spec ch b para :
  hooks_public -> modes_ok E b -> modes_fit E b -> modes_ok E ch -> not_both (mc_mode b) = true -> not_both (mc_mode ch) = true ->
  h_name (mc_bans ch) = h_name (mc_bans b) -> tokens [ch_space] para = params_for b (shown E (mc_mode b)) ->
  exists t, merge_modes E D P now ch (str "+" ++ (h_letter <$> shown E (mc_mode b))) para = Some t /\ mc_bans t = mc_bans ch /\ mc_members t = mc_members ch /\
    (forall h, shared E h -> cm_set (mc_mode t) h = joint (mc_mode ch) (mc_mode b) h) /\
    (forall h ph, shared E h -> i_param (h_info h) = Some ph -> cm_set (mc_mode t) h = true -> mc_params t !! h_letter h = Some (joint_param ph ch b h)).
Proof using HT.
  intros Hp Hb Hf Ha Hnb Hna Hname Htok. unfold merge_modes. rewrite sj_set_spec by done. cbn [mbind option_bind].
  set (new := foldl (add_eff (par b)) ch (shown E (mc_mode b))). set (t0 := set_mode_bits new (stay_secret E (mc_mode ch) (mc_mode new))).
  destruct (add_effs_fields (par b) (shown E (mc_mode b)) ch) as (F1 & F2 & _). destruct (merges_fields ch (e_handlers E) t0) as (G1 & G2 & G3).
  eexists. split; [reflexivity|]. split; [by rewrite G1|]. split; [by rewrite G2|]. rewrite G3. cbn [set_mode_bits mc_mode].
  assert (Hset : forall h, shared E h -> cm_set (mc_mode t0) h = joint (mc_mode ch) (mc_mode b) h) by (intros h Hh; by apply merged_set).
  split; [done|]. intros h ph Hh Hph Hs. fold (mc_mode t0) in Hs. destruct (param_count E HT h ph (proj1 Hh) Hph) as [Hpc Hlaws].
  assert (Hnew : mc_params t0 !! h_letter h = if cm_set (mc_mode b) h then Some (par b (h_letter h)) else mc_params ch !! h_letter h).
  { cbn [set_mode_bits mc_params t0]. unfold new. rewrite (add_effs_params (par b) (shown E (mc_mode b)) ch h ph); [by rewrite shown_named|by apply shown_addable|apply Hh|done]. }
  assert (Hj : joint (mc_mode ch) (mc_mode b) h = cm_set (mc_mode ch) h || cm_set (mc_mode b) h).
  { unfold joint. destruct (Z.eqb_spec (h_letter h) 112) as [El|]; [|by rewrite andb_true_r]. destruct (to_hooks _ HT h (proj1 (proj1 Hh))) as [_ Hz]; [rewrite El; left|]. lia. }
  change (cm_set (mc_mode t0) h = true) in Hs. pose proof (Hset h Hh) as Hs'. rewrite Hs, Hj in Hs'. unfold joint_param.
  destruct (cm_set (mc_mode ch) h) eqn:Ec.
  - destruct (param_word E ch h ph Ha Hh Hph Ec) as [Hpa (_ & _ & Hst & _)]. destruct (cm_set (mc_mode b) h) eqn:Eb; cbn [andb].
    + by apply (merges_own ch t0 h ph); [apply Hh|..].
    + rewrite Hpa in Hnew. rewrite (merges_own ch t0 h ph (par ch (h_letter h)) (par ch (h_letter h))); [|apply Hh|done..]. unfold winner.
      pose proof (proj2 (pl_same (par ch (h_letter h)) (par ch (h_letter h))) eq_refl) as Hsame. by rewrite Hst in Hsame; rewrite Hsame.
  - cbn [andb orb] in Hs' |- *. rewrite <- Hs' in Hnew |- *. rewrite merges_none; [done|apply Hh|]. unfold cm_set in Ec. by rewrite Ec.
Qed.
End setting.

(** ** Members and lists *)

(** What a line carries. *)
Inductive sitem := IMember (u : positive) (modes : cstring) | IBan (t : ExtbanType) (b : Ban).

Definition list_prefix (t : ExtbanType) : Z := match t with EXBTYPE_EXCEPT => 34 | EXBTYPE_INVEX => 39 | _ => 38 end.

Section items.
Context (E : mode_env) (D : directory) (P : peer) (now : Z) (ids : positive -> cstring).
Context (HT : table_ok (e_handlers E)) (Hcm : cmodes_ok (h_cm <$> e_handlers E)) (Hmax : 1 <= e_maxbans E) (Hsj : p_sjsby P = true).
(** No prefix of a member can be taken for the start of a setter or for a blank. *)
Context (Hpre : forall h, h ∈ e_handlers E -> ctype (h_cm h) = CMODE_MEMBER -> sjoin_prefix (h_cm h) ∉ [60; 32]).

Abbreviation cms := (h_cm <$> e_handlers E).

(** The item without the blank behind it. *)
Definition body (x : sitem) : cstring :=
  match x with
  | IMember u modes => modes_to_sjoin_prefix cms modes ++ ids u
  | IBan t b => add_sjsby (who b) (when_ b) ++ [list_prefix t] ++ banstr b
  end.

(** An ID: no prefix, not the start of a setter, a word. *)
Definition id_ok (s : cstring) : Prop := word s /\ sjoin_prefix_to_mode cms (hd 0 s) = 0 /\ hd 0 s <> 60 /\ (length s <= 1023)%nat.

(** An entry that other servers take as it is. *)
Record entry_ok (t : ExtbanType) (b : Ban) : Prop := {
  eo_mask : mask_ok (banstr b);
  eo_word : word (banstr b);
  eo_syntax : hd 0 (banstr b) = 126 \/ contains 33 (banstr b) = true /\ contains 64 (banstr b) = true /\ hd 0 (banstr b) <> 33;
  eo_clean bc : clean_ban_mask (e_conv E) (MkConvCtx false (Some bc) MODE_ADD t false) (banstr b) = Some (banstr b);
  eo_who : setter_ok (who b) /\ ch_space ∉ who b /\ 62 ∉ who b;
  eo_when : 0 < when_ b < 2 ^ 63
}.

Definition item_ok (x : sitem) : Prop :=
  match x with
  | IMember u modes => mode_string cms modes /\ id_ok (ids u) /\ d_find_user D (ids u) = Some u /\ p_behind P u = true
  | IBan t b => t <> EXBTYPE_TKL /\ entry_ok t b
  end.

Definition bans_in (t : ExtbanType) (xs : list sitem) : list Ban := omap (fun x => match x with IBan t' b => if bool_decide (t' = t) then Some b else None | _ => None end) xs.
Definition put_member (theirs : bool) (m : gmap positive cstring) (x : sitem) : gmap positive cstring :=
  match x with
  | IMember u modes => if bool_decide (is_Some (m !! u)) then m else <[u := if theirs then [] else modes]> m
  | IBan _ _ => m
  end.

Definition lists_ok (ch : mchan) : Prop := forall t, list_ok (get_list t (mc_bans ch)).

Lemma print_long_ok v : 0 < v < 2 ^ 63 ->
  Forall (fun d => 48 <= d <= 57) (print_long v) /\ print_long v <> [] /\ c_atol (print_long v) = v /\ (length (print_long v) <= 20)%nat.
Proof using Type.
  intros Hv. unfold print_long. rewrite (proj2 (Z.ltb_ge v 0)) by lia. destruct (decimal_ok 20 v) as (Hd & Hval & Hlen & Hne); [simpl; lia|].
  specialize (Hne ltac:(lia)). split_and!; [done|done| |done]. unfold c_atol. rewrite atoi_digits, Hval by done. lia.
Qed.

Lemma setter_parse b rest : 0 < when_ b < 2 ^ 63 -> setter_ok (who b) -> 62 ∉ who b ->
  sj_setter P now (add_sjsby (who b) (when_ b) ++ rest) = Some (when_ b, who b, rest).
Proof using Hsj.
  intros Hw Hs Hn. destruct (print_long_ok (when_ b) Hw) as (Hd & _ & Hat & _). unfold sj_setter, add_sjsby. rewrite Hsj.
  rewrite <- !app_assoc. change (hd 0 ([60] ++ ?x)) with 60. cbn [andb Z.eqb Pos.eqb].
  assert (H62 : 62 ∉ [60] ++ print_long (when_ b) ++ [44] ++ who b).
  { intros Hin. rewrite !elem_of_app in Hin. rewrite Forall_forall in Hd. destruct Hin as [Hin|[Hin|[Hin|Hin]]].
    - apply elem_of_cons in Hin as [Hin|Hin]; [lia|by apply not_elem_of_nil in Hin].
    - apply Hd in Hin. lia.
    - apply elem_of_cons in Hin as [Hin|Hin]; [lia|by apply not_elem_of_nil in Hin].
    - done. }
  assert (Hs1 : strchr 62 ([60] ++ print_long (when_ b) ++ [44] ++ who b ++ [62] ++ rest) = Some ([60] ++ print_long (when_ b) ++ [44] ++ who b, rest)).
  { apply strchr_some. split; [|done]. by rewrite <- !app_assoc. }
  rewrite Hs1. cbn [mbind option_bind].
  assert (Hs2 : strchr 44 ([60] ++ print_long (when_ b) ++ [44] ++ who b) = Some ([60] ++ print_long (when_ b), who b)).
  { apply strchr_some. split; [by rewrite <- app_assoc|]. intros Hin. rewrite elem_of_app in Hin. rewrite Forall_forall in Hd. destruct Hin as [Hin|Hin].
    - apply elem_of_cons in Hin as [Hin|Hin]; [lia|by apply not_elem_of_nil in Hin].
    - apply Hd in Hin. lia. }
  rewrite Hs2. cbn [mbind option_bind]. change (tl ([60] ++ print_long (when_ b))) with (print_long (when_ b)). rewrite Hat. unfold setter_ok in Hs. by rewrite take_ge.
Qed.

(** *** Members *)

Lemma sjoin_letters modes : mode_string cms modes ->
  map (sjoin_prefix_to_mode cms) (modes_to_sjoin_prefix cms modes) = modes /\
  Forall (fun c => sjoin_prefix_to_mode cms c ∉ [0; 98; 101; 73] /\ c <> 60 /\ c <> 32) (modes_to_sjoin_prefix cms modes) /\ (length modes <= 7)%nat.
Proof using Hcm Hpre.
  intros Hs. destruct (prefixes_roundtrip cms modes Hcm Hs) as (_ & Hr & _). split; [done|]. destruct Hs as (Hv & _ & Hl). split; [|exact Hl].
  assert (Hin : forall c, c ∈ modes_to_sjoin_prefix cms modes -> sjoin_prefix_to_mode cms c ∈ modes).
  { intros c Hc. rewrite <- Hr. apply list_elem_of_In, in_map, list_elem_of_In, Hc. }
  apply Forall_forall. intros c Hc. apply Hin in Hc. rewrite Forall_forall in Hv. specialize (Hv _ Hc). remember (sjoin_prefix_to_mode cms c) as l eqn:El.
  apply (valid_letter_member cms Hcm) in Hv as (cm & Hm & <-). pose proof (co_values cms Hcm) as Hvals. rewrite Forall_forall in Hvals. destruct (Hvals cm Hm) as (Hl1 & _ & Hp & _).
  split; [done|]. unfold sjoin_prefix_to_mode in El. rewrite !not_elem_of_cons in Hl1. destruct Hl1 as (Hz & Hb & He & HI & _).
  destruct (c =? 0); [congruence|]. destruct (c =? 38); [congruence|]. destruct (c =? 34); [congruence|]. destruct (c =? 39); [congruence|].
  destruct (find_cm cms _) as [cm'|] eqn:Ef; [|congruence]. apply find_cm_spec in Ef as [Hcm' [Hpc%Z.eqb_eq Hmem]%andb_prop].
  apply list_elem_of_fmap in Hcm' as (h & -> & Hh). unfold is_member_mode in Hmem. apply bool_decide_eq_true in Hmem. pose proof (Hpre h Hh Hmem) as Hx.
  rewrite Hpc, !not_elem_of_cons in Hx. tauto.
Qed.

Lemma prefixes_loop pre rest : forall acc,
  Forall (fun c => sjoin_prefix_to_mode cms c ∉ [0; 98; 101; 73]) pre -> sjoin_prefix_to_mode cms (hd 0 rest) = 0 -> rest <> [] -> (length acc + length pre <= 7)%nat ->
  sj_prefixes E (pre ++ rest) acc = (acc ++ map (sjoin_prefix_to_mode cms) pre, rest).
Proof using Type.
  induction pre as [|c pre IH]; intros acc Hp Hr Hne Hl; cbn [app sj_prefixes map].
  - destruct rest as [|d rest]; [done|]. cbn [hd] in Hr. cbn [sj_prefixes]. rewrite Hr. cbn [Z.eqb]. by rewrite app_nil_r.
  - apply Forall_cons in Hp as [Hc Hp]. rewrite !not_elem_of_cons in Hc. destruct Hc as (H0 & Hb & He & HI & _). cbn [length] in Hl.
    rewrite (proj2 (Z.eqb_neq _ 0)) by done. assert (Hs : contains (sjoin_prefix_to_mode cms c) (str "beI") = false).
    { unfold contains. cbn. rewrite !(proj2 (Z.eqb_neq (sjoin_prefix_to_mode cms c) _)) by done. done. }
    rewrite Hs. assert (Hcat : forall m, strlcat_letter acc m MEMBERMODESLEN = acc ++ [m]).
    { intros m. unfold strlcat_letter, MEMBERMODESLEN. cbn [Nat.eqb orb]. rewrite (proj2 (Nat.leb_gt _ _)) by lia. done. }
    rewrite Hcat, IH by (done || (rewrite length_app; simpl; lia)). by rewrite <- app_assoc.
Qed.

(** Adding the letters of a string one by one gives the string. *)
Lemma insert_last l s : (forall a, a ∈ s -> valid_channel_access_mode_letter cms a = true /\ letter_rank cms l <= letter_rank cms a) -> insert_letter cms (letter_rank cms l) l s = s ++ [l].
Proof using Type.
  induction s as [|p s IH]; intros H; [done|]. cbn [insert_letter app]. destruct (H p ltac:(left)) as [Hv Hr]. destruct (valid_letter_found cms p Hv) as (cm & -> & _ & Hrk).
  rewrite Hrk, (proj2 (Z.ltb_ge _ _)) by done. rewrite IH; [done|]. intros a Ha. apply H. by right.
Qed.

Lemma rebuild s : mode_string cms s -> foldl (addlettertomstring cms) [] s = s.
Proof using Type.
  intros (Hv & Hso & Hl). assert (Hgen : forall rest done_, done_ ++ rest = s -> foldl (addlettertomstring cms) done_ rest = s); [|by apply Hgen].
  induction rest as [|l rest IH]; intros d Hd; [by rewrite app_nil_r in Hd|]. cbn [foldl].
  assert (Hadd : addlettertomstring cms d l = d ++ [l]); [|rewrite Hadd; apply IH; by rewrite <- app_assoc]. subst s.
  apply Forall_app in Hv as [Hvd [Hvl _]%Forall_cons]. destruct (valid_letter_found cms l Hvl) as (cm & Hf & Hm & Hr). unfold addlettertomstring. rewrite Hf, Hm. cbn [negb].
  rewrite length_app in Hl. cbn [length] in Hl. rewrite (proj2 (Nat.leb_gt _ _)) by lia. rewrite Hr. apply insert_last. intros a Ha. rewrite Forall_forall in Hvd. split; [by apply Hvd|].
  clear -Hso Ha. induction d as [|x d IH]; [by apply not_elem_of_nil in Ha|]. cbn [app] in Hso. inversion Hso as [|? ? Hso' Hx]; subst.
  apply elem_of_cons in Ha as [->|Ha]; [|by apply IH]. rewrite Forall_forall in Hx. apply Hx. apply elem_of_app. right. left.
Qed.

Lemma body_word x : item_ok x -> word (body x).
Proof using Hcm Hpre.
  destruct x as [u modes|t b]; cbn [item_ok body].
  - intros (Hs & (Hw & _) & _). destruct (sjoin_letters modes Hs) as (_ & Hp & _). destruct Hw as [Hne Hsp]. split.
    + intros Hnil. apply app_eq_nil in Hnil as [_ ?]. done.
    + intros [Hin|Hin]%elem_of_app; [|done]. rewrite Forall_forall in Hp. by apply Hp in Hin as (_ & _ & ?).
  - intros (_ & He). destruct (eo_word t b He) as [Hne Hsp], (eo_who t b He) as (_ & Hws & _), (print_long_ok (when_ b) (eo_when t b He)) as (Hd & _).
    rewrite Forall_forall in Hd. split; [done|]. unfold add_sjsby. rewrite !elem_of_app, !list_elem_of_singleton. intros Hin.
    destruct Hin as [[Hin|[Hin|[Hin|[Hin|Hin]]]]|[Hin|Hin]]; try done; [apply Hd in Hin; lia|by destruct t].
Qed.

(** *** The effect of the items *)

Record items_eff (theirs : bool) (ch : mchan) (xs : list sitem) (t : mchan) : Prop := {
  ie_name : h_name (mc_bans t) = h_name (mc_bans ch);
  ie_mode : mc_mode t = mc_mode ch;
  ie_params : mc_params t = mc_params ch;
  ie_members : mc_members t = foldl (put_member theirs) (mc_members ch) xs;
  ie_lists : lists_ok t;
  ie_map ty : to_map (get_list ty (mc_bans t)) =
    if theirs then to_map (get_list ty (mc_bans ch)) else foldl put (to_map (get_list ty (mc_bans ch))) (bans_in ty xs)
}.

Lemma member_effect theirs ch u modes : lists_ok ch -> item_ok (IMember u modes) ->
  exists t, sj_item E D P now theirs ch (body (IMember u modes)) = Some t /\ items_eff theirs ch [IMember u modes] t.
Proof using Hcm Hpre.
  intros Hls (Hs & (Hw & Hz & H60 & Hlen) & Hd & Hb). destruct (sjoin_letters modes Hs) as (Hr & Hp & Hl).
  assert (Hset : sj_setter P now (body (IMember u modes)) = Some (now, p_name P, body (IMember u modes))).
  { unfold sj_setter. cbn [body]. assert (hd 0 (modes_to_sjoin_prefix cms modes ++ ids u) <> 60) as Hne.
    { destruct (modes_to_sjoin_prefix cms modes) as [|c x]; [done|]. apply Forall_cons in Hp as [(_ & ? & _) _]. done. }
    by rewrite (proj2 (Z.eqb_neq _ 60) Hne), andb_false_r. }
  unfold sj_item. rewrite Hset. cbn [body].
  rewrite prefixes_loop; [|eapply Forall_impl; [exact Hp|]; cbn; tauto|done|apply Hw|cbn [length Nat.add]; rewrite <- (length_map (sjoin_prefix_to_mode cms) (modes_to_sjoin_prefix cms modes)), Hr; exact Hl].
  cbn [app]. rewrite Hr, take_ge, bool_decide_false by (done || apply Hw). assert (Hex : existsb (fun c => contains c (str "beI")) modes = false).
  { apply not_true_is_false. intros (m & Hm & Hc')%existsb_exists. rewrite <- Hr in Hm. apply in_map_iff in Hm as (c & <- & Hc).
    apply list_elem_of_In in Hc. rewrite Forall_forall in Hp. destruct (Hp c Hc) as [Hn _]. rewrite !not_elem_of_cons in Hn. destruct Hn as (_ & H1 & H2 & H3 & _).
    unfold contains in Hc'. cbn in Hc'. by rewrite !(proj2 (Z.eqb_neq (sjoin_prefix_to_mode cms c) _)) in Hc' by done. }
  rewrite Hex. eexists. split; [reflexivity|]. unfold sj_member. rewrite Hd, Hb. cbn [negb].
  assert (Hmap : forall (m : gmap cstring Ban), m = if theirs then m else foldl put m []) by (intros; by destruct theirs).
  split; cbn [foldl put_member bans_in]; (case_bool_decide as Hm; [by auto|]); cbn; try done; try (by auto).
  unfold add_user_to_channel. cbn. destruct theirs; [done|]. by rewrite rebuild.
Qed.

Lemma ban_effect theirs ch ty b : lists_ok ch -> item_ok (IBan ty b) ->
  exists t, sj_item E D P now theirs ch (body (IBan ty b)) = Some t /\ items_eff theirs ch [IBan ty b] t.
Proof using Hmax Hsj.
  intros Hls (Hty & He). destruct (eo_who ty b He) as (Hw1 & _ & Hw3). unfold sj_item. cbn [body]. rewrite setter_parse by (done || apply He).
  assert (Hpre' : sj_prefixes E ([list_prefix ty] ++ banstr b) [] = ([match ty with EXBTYPE_EXCEPT => 101 | EXBTYPE_INVEX => 73 | _ => 98 end], banstr b)).
  { by destruct ty. }
  rewrite Hpre'. destruct (eo_mask ty b He) as (Hc & Hne & Hl). unfold MAXBANLEN in Hl.
  rewrite take_ge, bool_decide_false by (done || lia). assert (Hex : existsb (fun c => contains c (str "beI")) [match ty with EXBTYPE_EXCEPT => 101 | EXBTYPE_INVEX => 73 | _ => 98 end] = true) by (by destruct ty).
  rewrite Hex. unfold sj_list. destruct theirs.
  { eexists. split; [reflexivity|]. by split. }
  assert (Hsyn : negb (hd 0 (banstr b) =? 126) && (negb (contains 33 (banstr b)) || negb (contains 64 (banstr b)) || (hd 0 (banstr b) =? 33)) = false).
  { destruct (eo_syntax ty b He) as [->|(-> & -> & Hn)]; [done|]. cbn [negb orb]. by rewrite (proj2 (Z.eqb_neq _ 33) Hn), andb_false_r. }
  rewrite Hsyn. cbn [hd]. assert (Ht : mode_letter_to_extbantype (match ty with EXBTYPE_EXCEPT => 101 | EXBTYPE_INVEX => 73 | _ => 98 end) = ty) by (by destruct ty).
  rewrite Ht, (eo_clean ty b He). assert (Hcl : contains (match ty with EXBTYPE_EXCEPT => 101 | EXBTYPE_INVEX => 73 | _ => 98 end) (str "beI") = true) by (by destruct ty).
  rewrite Hcl. assert (Hlo : list_of ty (mc_bans ch) = Some (get_list ty (mc_bans ch))) by (by destruct ty).
  rewrite Hlo, take_ge by lia. cbn [mbind option_bind].
  destruct (add_listmode_ex_spec (e_maxbans E) false (get_list ty (mc_bans ch)) (banstr b) (who b) (when_ b)) as (l & Hadd & Hok & Hmap); [apply Hls|by split|done|apply He|].
  rewrite Hadd. cbn [mbind option_bind]. eexists. split; [reflexivity|].
  assert (Hfull : full (e_maxbans E) false (length (get_list ty (mc_bans ch))) = false) by (unfold full; destruct (_ =? 0)%nat; [apply Z.ltb_ge; lia|done]).
  rewrite Hfull in Hmap. cbn [andb] in Hmap. clear Hfull Hadd Hlo Hcl Ht Hsyn Hex Hpre'. destruct b as [bs bw bt]. cbn [banstr who when_] in Hmap.
  split; cbn [set_bans mc_bans mc_mode mc_params mc_members foldl put_member]; try done.
  - by destruct ty.
  - intros ty'. cbn. destruct ty, ty'; try done; first [exact Hok|exact (Hls EXBTYPE_BAN)|exact (Hls EXBTYPE_EXCEPT)|exact (Hls EXBTYPE_INVEX)|exact (Hls EXBTYPE_TKL)].
  - intros ty'. cbn [bans_in omap list_omap]. case_bool_decide as Ett.
    + subst ty'. rewrite get_put by done. exact Hmap.
    + by destruct ty, ty'.
Qed.

Lemma items_effect theirs xs : forall ch, lists_ok ch -> Forall item_ok xs ->
  exists t, sj_items E D P now theirs ch (spaced (map body xs)) = Some t /\ items_eff theirs ch xs t.
Proof using Hcm Hmax Hpre Hsj.
  intros ch Hls Hx. unfold sj_items. rewrite tokens_all by (apply Forall_map; eapply Forall_impl; [exact Hx|]; apply body_word).
  revert ch Hls. induction Hx as [|x xs Hx Hxs IH]; intros ch Hls.
  - exists ch. split; [done|]. split; try done. intros ty. by destruct theirs.
  - cbn [map foldl mbind option_bind]. assert (exists t, sj_item E D P now theirs ch (body x) = Some t /\ items_eff theirs ch [x] t) as (t & Ht & He).
    { destruct x; [by apply member_effect|by apply ban_effect]. }
    rewrite Ht. destruct (IH t (ie_lists _ _ _ _ He)) as (t' & Ht' & He'). exists t'. split; [done|]. destruct He as [H1 H2 H3 H4 H5 H6], He' as [G1 G2 G3 G4 G5 G6].
    split; [by rewrite G1|by rewrite G2|by rewrite G3|by rewrite G4, H4|done|]. intros ty. rewrite G6, H6. destruct theirs; [done|]. rewrite <- foldl_app. f_equal. unfold bans_in. by destruct x; [|cbn; case_bool_decide].
Qed.
End items.
