(* ===== verification/SjoinMerge.v ===== *)
(** * The burst of a channel (src/modules/sjoin.c, src/modules/server.c)

    The lines that [send_channel_modes_sjoin3] writes, what [cmd_sjoin] makes of each of
    them, and the theorem that two servers that link end with the same channel. *)
From S2P Require Import Prelude Chars Strings ChanMode ModeParse Utf8 Client Hash Command Parse Bans Crule CruleFuncs CruleSpec User MatchUser Extban BanMask BanMode ChanParam Mode ModeLine ModeSync Sjoin SjoinSync.

(** ** The lines *)

(** The items of a channel, in the order in which they are sent. *)
Definition chan_items (members : list (positive * cstring)) (ch : mchan) : list sitem :=
  map (fun m => IMember m.1 m.2) members ++ map (IBan EXBTYPE_BAN) (banlist (mc_bans ch)) ++
  map (IBan EXBTYPE_EXCEPT) (exlist (mc_bans ch)) ++ map (IBan EXBTYPE_INVEX) (invexlist (mc_bans ch)).

(** The lines for groups of items: the first one has the modes. *)
Definition group_lines (head head' : cstring) (gs : list (list cstring)) : list cstring :=
  match gs with
  | [] => []
  | g :: gs => (head ++ spaced g) :: map (fun g => head' ++ spaced g) gs
  end.

Lemma lines_grouped id ts name ws : forall out head g,
  Forall (fun w => (length w < 2000)%nat) ws -> (length (spaced g) <= 2000)%nat ->
  exists out' head' g' gs,
    foldl (sj_add id ts name) (out, head, spaced g) (map (fun w => w ++ [ch_space]) ws) = (out', head', spaced g') /\
    out' ++ [head' ++ spaced g'] = out ++ group_lines head (sj_head ts name []) gs /\
    concat gs = g ++ ws /\ Forall (fun g => (length (spaced g) <= 2000)%nat) gs /\ (out' = [] \/ g' <> [] \/ out' = out /\ g' = g) /\
    exists r, hd [] gs = g ++ r.
Proof.
  induction ws as [|w ws IH]; intros out head g Hw Hg.
  - exists out, head, g, [g]. cbn. rewrite !app_nil_r. split_and!; auto. exists []. by rewrite app_nil_r.
  - apply Forall_cons in Hw as [Hw Hws]. cbn [map foldl]. unfold sj_add at 2. destruct (_ <? _)%nat eqn:Hl.
    + destruct (IH (out ++ [head ++ spaced g]) (sj_head ts name []) [w] Hws) as (out' & head' & g' & gs & H1 & H2 & H3 & H4 & H5 & _).
      { unfold spaced. cbn. rewrite app_nil_r, length_app. simpl. lia. }
      assert (Hs : spaced [w] = w ++ [ch_space]) by (unfold spaced; cbn; by rewrite app_nil_r). rewrite Hs in H1. rewrite H1.
      exists out', head', g', (g :: gs). split; [done|]. split; [|split; [|split]].
      * rewrite H2, <- app_assoc. f_equal. cbn [group_lines app]. f_equal. by destruct gs.
      * cbn [concat]. by rewrite H3.
      * by constructor.
      * split; [destruct H5 as [H5|[H5|[_ ->]]]; auto|]. exists []. by rewrite app_nil_r.
    + assert (Hs : spaced (g ++ [w]) = spaced g ++ w ++ [ch_space]) by (unfold spaced; by rewrite map_app, concat_app; cbn; rewrite app_nil_r).
      apply Nat.ltb_ge in Hl. unfold Mode.BUFSIZE in Hl. rewrite length_app in Hl. cbn [length] in Hl.
      destruct (IH out head (g ++ [w]) Hws) as (out' & head' & g' & gs & H1 & H2 & H3 & H4 & H5 & r & Hr).
      { rewrite Hs, !length_app. cbn [length]. lia. }
      rewrite Hs in H1. rewrite H1. exists out', head', g', gs. split; [done|]. split; [done|]. split; [by rewrite H3, <- app_assoc|]. split; [done|].
      split; [|exists ([w] ++ r); by rewrite Hr, <- app_assoc]. destruct H5 as [H5|[H5|[_ ->]]]; auto. right. left. by destruct g.
Qed.

(** The first item is in the first line if it fits. *)
Lemma lines_first id ts name ws head : Forall (fun w => (length w < 2000)%nat) ws ->
  exists out' head' g' gs,
    foldl (sj_add id ts name) ([], head, []) (map (fun w => w ++ [ch_space]) ws) = (out', head', spaced g') /\
    out' ++ [head' ++ spaced g'] = group_lines head (sj_head ts name []) gs /\
    concat gs = ws /\ Forall (fun g => (length (spaced g) <= 2000)%nat) gs /\ (out' = [] \/ g' <> []) /\
    (forall w, List.hd_error ws = Some w -> (length w + 8 + length id + length head <= 504)%nat -> hd [] gs <> []).
Proof.
  intros Hw. destruct ws as [|w rest].
  { destruct (lines_grouped id ts name [] [] head [] Hw) as (out' & head' & g' & gs & H1 & H2 & H3 & H4 & H5 & _); [cbn; lia|].
    exists out', head', g', gs. split_and!; try done. destruct H5 as [H5|[H5|[H5 _]]]; auto. }
  destruct (Nat.leb_spec (length w + 8 + length id + length head) 504) as [Hl|Hl].
  - apply Forall_cons in Hw as [Hw Hr]. cbn [map foldl]. unfold sj_add at 2. unfold Mode.BUFSIZE. rewrite length_app. cbn [length].
    rewrite (proj2 (Nat.ltb_ge _ _)) by lia. destruct (lines_grouped id ts name rest [] head [w] Hr) as (out' & head' & g' & gs & H1 & H2 & H3 & H4 & H5 & r & Hg).
    { unfold spaced. cbn. rewrite app_nil_r, length_app. simpl. lia. }
    assert (Hs : spaced [w] = w ++ [ch_space]) by (unfold spaced; cbn; by rewrite app_nil_r). rewrite Hs in H1. cbn [app] in *. rewrite H1.
    exists out', head', g', gs. split_and!; try done; [destruct H5 as [H5|[H5|[H5 _]]]; auto|]. intros _ _ _. by rewrite Hg.
  - destruct (lines_grouped id ts name (w :: rest) [] head [] Hw) as (out' & head' & g' & gs & H1 & H2 & H3 & H4 & H5 & _); [cbn; lia|].
    exists out', head', g', gs. split_and!; try done; [destruct H5 as [H5|[H5|[H5 _]]]; auto|]. intros v [= <-] Hl'. lia.
Qed.

Lemma concat_split {A B} (f : A -> B) gs : forall xs, concat gs = map f xs -> exists xss, gs = map (map f) xss /\ concat xss = xs.
Proof.
  induction gs as [|g gs IH]; intros xs Hc; cbn [concat] in Hc.
  - exists []. split; [done|]. by destruct xs.
  - symmetry in Hc. apply map_eq_app in Hc as (x1 & x2 & -> & <- & H2). symmetry in H2. destruct (IH x2 H2) as (xss & -> & <-). by exists (x1 :: xss).
Qed.

Section burst.
Context (E : mode_env) (HT : table_ok (e_handlers E)) (ids : positive -> cstring).
(** No mode is a blank. *)
Context (Hblank : forall h, h ∈ e_handlers E -> h_letter h <> ch_space).

Definition name_ok (name : cstring) : Prop := hd 0 name = 35 /\ ch_space ∉ name /\ (length name <= CHANNELLEN)%nat.

(** The words of a line in front of the items. *)
Definition mode_words (ch : mchan) : list cstring :=
  match shown E (mc_mode ch) with
  | [] => []
  | hs => (str "+" ++ (h_letter <$> hs)) :: params_for ch hs
  end.

Definition head_words (ts : Z) (name : cstring) (ws : list cstring) : list cstring := print_long ts :: name :: ws.
Definition sj_line (ts : Z) (name : cstring) (ws items : list cstring) : cstring := blanks (head_words ts name ws) ++ [ch_space; ch_colon] ++ spaced items.

Lemma head_blanks ts name ws : sj_head ts name (blanks ws) = blanks (head_words ts name ws) ++ [ch_space; ch_colon].
Proof using Type. unfold sj_head, head_words, blanks. cbn [map concat]. by rewrite <- !app_assoc. Qed.

Lemma items_text members ch :
  map (member_item E ids) members ++ map (list_item true 38) (banlist (mc_bans ch)) ++ map (list_item true 34) (exlist (mc_bans ch)) ++
    map (list_item true 39) (invexlist (mc_bans ch)) = map (fun w => w ++ [ch_space]) (map (body E ids) (chan_items members ch)).
Proof using Type.
  unfold chan_items. rewrite map_map, !map_app, !map_map. f_equal; [|f_equal; [|f_equal]]; apply map_ext; intros; cbn [body fst snd list_prefix];
    unfold member_item, list_item; by rewrite <- !app_assoc.
Qed.

Lemma blanks_length ws : Forall word ws -> (length ws <= length (blanks ws))%nat.
Proof using Type. intros Hw. unfold blanks. induction Hw as [|w ws _ _ IH]; cbn; [lia|]. rewrite length_app. lia. Qed.

Lemma mode_words_ok ch : modes_ok E ch -> Forall (fun w => word w /\ hd 0 w <> ch_colon) (mode_words ch).
Proof using HT Hblank.
  intros Hm. unfold mode_words. pose proof (shown_good E HT (mc_mode ch)) as Hg. destruct (shown E (mc_mode ch)) as [|h hs] eqn:Es; [constructor|]. rewrite <- Es in *.
  constructor; [|eapply Forall_impl; [apply (params_words E ch _ Hm Hg)|]; cbn; tauto]. split; [|done]. split; [done|].
  intros [Hin|(g & El & Hin)%list_elem_of_fmap]%elem_of_app; [by apply list_elem_of_singleton in Hin|]. rewrite Forall_forall in Hg. destruct (Hg g Hin) as [[[Hg' _] _] _].
  by apply (Hblank g).
Qed.

Lemma head_modes ch : modes_ok E ch -> forall (f : cstring -> option (list cstring)),
  (modes ← match h_letter <$> shown E (mc_mode ch), joined (params_for ch (shown E (mc_mode ch))) with
            | [], [] => Some []
            | _, [] => Some ([ch_space] ++ str "+" ++ (h_letter <$> shown E (mc_mode ch)))
            | [], _ => None
            | _, _ => Some ([ch_space] ++ (str "+" ++ (h_letter <$> shown E (mc_mode ch))) ++ [ch_space] ++ joined (params_for ch (shown E (mc_mode ch))))
            end; f modes) = f (blanks (mode_words ch)).
Proof using HT.
  intros Hm f. unfold mode_words. pose proof (params_words E ch _ Hm (shown_good E HT (mc_mode ch))) as Hw. destruct (shown E (mc_mode ch)) as [|h hs]; [done|].
  set (ps := params_for ch (h :: hs)) in *. rewrite fmap_cons. destruct (joined ps) as [|c x] eqn:Hj.
  - apply joined_nil in Hj; [|eapply Forall_impl; [exact Hw|]; cbn; tauto]. rewrite Hj. cbn [mbind option_bind]. f_equal. unfold blanks. cbn [map concat]. by rewrite app_nil_r.
  - cbn [mbind option_bind]. f_equal. rewrite <- Hj, joined_blanks; [done|]. intros ->. done.
Qed.

Lemma blanks_spaced ws : length (blanks ws) = length (spaced ws).
Proof using Type. unfold blanks, spaced. induction ws as [|w ws IH]; [done|]. cbn [map concat length app]. rewrite !length_app, IH. cbn [length]. lia. Qed.

Lemma mode_words_length ch : modes_fit E ch -> (length (blanks (mode_words ch)) <= 402)%nat /\ (length (mode_words ch) <= 13)%nat.
Proof using Type.
  intros [H1 H2]. unfold mode_words. destruct (shown E (mc_mode ch)) as [|h hs] eqn:Es; [cbn; lia|]. split; [|cbn [length]; lia]. rewrite blanks_spaced.
  change (spaced ((str "+" ++ (h_letter <$> h :: hs)) :: params_for ch (h :: hs))) with (((str "+" ++ (h_letter <$> h :: hs)) ++ [ch_space]) ++ spaced (params_for ch (h :: hs))).
  rewrite !length_app, length_fmap. change (length (str "+")) with 1%nat. cbn [length] in *. lia.
Qed.

(** The lines of a channel. *)
Lemma burst_lines id members ts ch :
  modes_ok E ch -> modes_fit E ch -> name_ok (h_name (mc_bans ch)) -> (length id <= 9)%nat -> 0 < ts < 2 ^ 63 ->
  Forall (fun x => (length (body E ids x) < 2000)%nat) (chan_items members ch) ->
  exists xs xss, send_channel_modes_sjoin3 E id ids true members (MkSChan ts ch) =
    Some (sj_line ts (h_name (mc_bans ch)) (mode_words ch) (map (body E ids) xs) :: map (fun xs => sj_line ts (h_name (mc_bans ch)) [] (map (body E ids) xs)) xss) /\
    concat (xs :: xss) = chan_items members ch /\ Forall (fun xs => (length (spaced (map (body E ids) xs)) <= 2000)%nat) (xs :: xss) /\
    (forall x, head (chan_items members ch) = Some x -> (length (body E ids x) <= 16)%nat -> xs <> []).
Proof using HT Hblank.
  intros Hm Hf (Hn1 & Hn2 & Hn3) Hid Hts Hlen. unfold send_channel_modes_sjoin3. cbn [sc_chan sc_ts]. rewrite Hn1. change (35 =? 35) with true. cbn [negb].
  rewrite (channel_modes_spec E HT ch Hm Hf). cbn [mbind option_bind]. pose proof (params_words E ch _ Hm (shown_good E HT (mc_mode ch))) as Hw.
  rewrite joined_strip by (eapply Forall_impl; [exact Hw|]; cbn; tauto). cbn [tl str String.list_ascii_of_string map app].
  pose proof (head_modes ch Hm) as Hh. cbn [str String.list_ascii_of_string map app] in Hh. rewrite Hh. clear Hh.
  rewrite head_blanks. destruct (mode_words_length ch Hf) as [Hl _]. destruct (print_long_ok ts Hts) as (_ & _ & _ & Hpl). unfold CHANNELLEN in Hn3.
  rewrite take_ge; [|unfold head_words, blanks; cbn [map concat]; fold (blanks (mode_words ch)); rewrite !length_app; cbn [length]; lia].
  set (hw := blanks (head_words ts (h_name (mc_bans ch)) (mode_words ch)) ++ [ch_space; ch_colon]).
  assert (Hhw : (length hw <= 470)%nat) by (unfold hw, head_words, blanks; cbn [map concat]; fold (blanks (mode_words ch)); rewrite !length_app; cbn [length]; lia).
  rewrite items_text. destruct (lines_first id ts (h_name (mc_bans ch)) (map (body E ids) (chan_items members ch)) hw) as (out & head & g & gs & H1 & H2 & H3 & H4 & H5 & H6).
  { by apply Forall_map. }
  rewrite H1. destruct (concat_split _ _ _ H3) as (xss & -> & Hxs).
  destruct xss as [|xs xss]; [by destruct out|]. exists xs, xss. split; [|split; [done|split; [by apply Forall_map in H4|]]]; last first.
  { intros x Hx Hl' ->. destruct (chan_items members ch) as [|y ys]; [done|]. injection Hx as ->. apply (H6 (body E ids x)); [done|lia|done]. }
  f_equal.
  assert (nonempty (spaced g) || bool_decide (out = []) = true) as ->.
  { destruct H5 as [->|Hg]; [by rewrite bool_decide_true, orb_true_r|].
    destruct g as [|w g]; [done|]. unfold spaced. cbn. by destruct w. }
  rewrite H2. cbn [map group_lines]. unfold hw, sj_line. rewrite <- app_assoc. f_equal. rewrite map_map. apply map_ext. intros x.
  change (@nil Z) with (blanks []) at 1. by rewrite head_blanks, <- app_assoc.
Qed.

(** A line is taken apart. *)
Lemma line_para ts name ws items : Forall (fun w => word w /\ hd 0 w <> ch_colon) ws -> (length ws <= 13)%nat -> name_ok name -> 0 < ts < 2 ^ 63 ->
  para MAXPARA (sj_line ts name ws items) = print_long ts :: name :: ws ++ [spaced items].
Proof using Type.
  intros Hw Hl (Hn1 & Hn2 & _) Hts. unfold para, sj_line. destruct (print_long_ok ts Hts) as (Hd & Hne & _).
  assert (Hall : Forall (fun w => word w /\ hd 0 w <> ch_colon) (head_words ts name ws)).
  { unfold head_words. rewrite Forall_forall in Hd. constructor; [|constructor; [|done]].
    - split; [split; [done|]|].
      + intros Hin. apply Hd in Hin. lia.
      + destruct (print_long ts) as [|d x]; [done|]. specialize (Hd d ltac:(left)). cbn. lia.
    - split; [split; [|done]|by rewrite Hn1]. by intros ->. }
  rewrite split_blanks; [done|done| |].
  - pose proof (blanks_length _ (Forall_impl _ _ _ Hall (fun w H => proj1 H))) as Hb. rewrite length_app. lia.
  - unfold head_words, MAXPARA. cbn [length]. lia.
Qed.
End burst.

(** ** The insecure users are kicked *)

Section kicking.
Context (E : mode_env) (P : peer).

Definition kept (fires : bool) (m : gmap positive cstring) : gmap positive cstring := base.filter (fun p : positive * cstring => negb (fires && p_insecure P p.1) = true) m.

Lemma kept_lookup fires (m : gmap positive cstring) i : kept fires m !! i = if fires && p_insecure P i then None else m !! i.
Proof.
  unfold kept. rewrite map_lookup_filter. destruct (m !! i) as [x|]; cbn; [|by destruct (_ && _)]. case_guard as Hg; cbn in Hg; destruct (fires && p_insecure P i); done.
Qed.

Lemma kept_none m : kept false m = m.
Proof. apply map_eq. intros i. by rewrite kept_lookup. Qed.

Lemma kick_loop ch keys : forall out, (forall u, u ∈ keys -> p_insecure P u = true -> find_handler E 90 = None) ->
  exists m, foldl (kick_insecure E P) (Some (ch, out)) keys = Some (set_members ch m, out ++ base.filter (fun u => p_insecure P u = true) keys) /\
    forall i, m !! i = if bool_decide (i ∈ keys) && p_insecure P i then None else mc_members ch !! i.
Proof.
  revert ch. induction keys as [|u keys IH]; intros ch out Hk.
  - exists (mc_members ch). split; [by destruct ch; rewrite app_nil_r|done].
  - cbn [foldl]. unfold kick_insecure at 2. cbn [mbind option_bind]. rewrite filter_cons. destruct (p_insecure P u) eqn:Hu.
    + rewrite (Hk u ltac:(left) Hu). rewrite bool_decide_false by (by intros [? ?]). rewrite decide_True by done.
      destruct (IH (set_members ch (delete u (mc_members ch))) (out ++ [u]) (fun v Hv => Hk v ltac:(by right))) as (m & -> & Hm). exists m. split; [by rewrite <- app_assoc|].
      intros i. rewrite Hm. cbn [set_members mc_members]. destruct (decide (i = u)) as [->|Hne].
      * rewrite (bool_decide_true (u ∈ u :: keys)), Hu by left. rewrite lookup_delete_eq. by destruct (_ && _).
      * rewrite lookup_delete_ne by done. assert (Hd : bool_decide (i ∈ u :: keys) = bool_decide (i ∈ keys)) by (apply bool_decide_ext; rewrite elem_of_cons; tauto). by rewrite Hd.
    + rewrite decide_False by done. destruct (IH ch out (fun v Hv => Hk v ltac:(by right))) as (m & -> & Hm). exists m. split; [done|]. intros i. rewrite Hm.
      destruct (decide (i = u)) as [->|Hne]; [by rewrite Hu, !andb_false_r|].
      assert (Hd : bool_decide (i ∈ u :: keys) = bool_decide (i ∈ keys)) by (apply bool_decide_ext; rewrite elem_of_cons; tauto). by rewrite Hd.
Qed.

(** What the hook does. *)
Lemma sync_spec merge theirs nomode ch fires : fires = negb merge && negb theirs && negb nomode && has (mc_mode ch) (handler_bit E 122) ->
  (fires = true -> forall u, is_Some (mc_members ch !! u) -> p_insecure P u = true -> find_handler E 90 = None) ->
  exists kicked, secureonly_channel_sync E P merge theirs nomode ch = Some (set_members ch (kept fires (mc_members ch)), kicked) /\
    forall u, u ∈ kicked <-> fires = true /\ p_insecure P u = true /\ is_Some (mc_members ch !! u).
Proof.
  intros -> Hk. unfold secureonly_channel_sync, secureonly_kick_insecure_users. assert (Hsame : set_members ch (kept false (mc_members ch)) = ch) by (rewrite kept_none; by destruct ch).
  destruct (negb merge && negb theirs && negb nomode); cbn [andb] in *; [|exists []; rewrite Hsame; split; [done|]; intros u; rewrite elem_of_nil; naive_solver].
  destruct (has (mc_mode ch) (handler_bit E 122)); [|exists []; rewrite Hsame; split; [done|]; intros u; rewrite elem_of_nil; naive_solver].
  assert (Hkeys : forall u, u ∈ (map_to_list (mc_members ch)).*1 <-> is_Some (mc_members ch !! u)).
  { intros u. rewrite list_elem_of_fmap. split; [intros ([v x] & -> & Hv%elem_of_map_to_list); by exists x|]. intros [x Hx]. exists (u, x). split; [done|]. by apply elem_of_map_to_list. }
  destruct (kick_loop ch (map_to_list (mc_members ch)).*1 []) as (m & -> & Hm); [intros u Hu%Hkeys; by apply Hk|]. eexists. split.
  - f_equal. f_equal. f_equal. apply map_eq. intros i. rewrite Hm, kept_lookup. cbn [andb]. destruct (p_insecure P i); [|by rewrite andb_false_r]. rewrite andb_true_r.
    case_bool_decide as Hi; [done|]. rewrite Hkeys in Hi. by apply eq_None_not_Some.
  - intros u. cbn [app]. rewrite list_elem_of_filter, Hkeys. tauto.
Qed.

End kicking.

(** ** A line is handled *)

Section handle.
Context (E : mode_env) (D : directory) (P : peer) (now : Z) (ids : positive -> cstring).
Context (HT : table_ok (e_handlers E)) (Hcm : cmodes_ok (h_cm <$> e_handlers E)) (Hmax : 1 <= e_maxbans E) (Hsj : p_sjsby P = true).
Context (Hpre : forall h, h ∈ e_handlers E -> ctype (h_cm h) = CMODE_MEMBER -> sjoin_prefix (h_cm h) ∉ [60; 32]).
Context (Hpub : hooks_public E) (Hz : forall g, find_handler E 122 = Some g -> shared E g).

Abbreviation kept := (kept P).
Abbreviation texts xs := (spaced (map (body E ids) xs)).
Abbreviation cleared_members m := ((fun _ : cstring => @nil Z) <$> m).

(** The command as a function of the times; [old] is whether there was a channel. *)
Definition command (old : bool) (ta tb : Z) (ch : mchan) (ws : list cstring) (items : cstring) : option (option schan * list positive) :=
  ch ← (if old && (tb <? ta) then remove_ours E D P now ch else Some ch);
  ch ← sj_items E D P now (old && (ta <? tb)) ch items;
  ch ← (if negb (bool_decide (ws = [])) && negb (old && (ta <? tb))
        then if old && (ta =? tb) then merge_modes E D P now ch (hd [] ws) (spaced (tl ws)) else sj_set E D P now ch (hd [] ws) (spaced (tl ws))
        else Some ch);
  '(ch, kicked) ← secureonly_channel_sync E P (old && (ta =? tb)) (old && (ta <? tb)) (bool_decide (ws = [])) ch;
  Some (if bool_decide (mc_members ch = ∅) && negb (has (mc_mode ch) (handler_bit E 80)) then None else Some (MkSChan (if old then Z.min ta tb else tb) ch), kicked).

Lemma command_form c tb name ws items : 1000000 < tb < 2 ^ 63 -> hd 0 name = 35 -> (length items <= 2000)%nat ->
  (length (hd [] ws) <= 500)%nat -> (length (spaced (tl ws)) <= 500)%nat ->
  let start := match c with Some c => c | None => make_channel now name end in
  cmd_sjoin E D P now c (print_long tb :: name :: ws ++ [items]) = command (bool_decide (is_Some c)) (sc_ts start) tb (sc_chan start) ws items.
Proof using Type.
  intros Htb Hn Hi H1 H2 start. destruct (print_long_ok tb ltac:(lia)) as (_ & _ & Hat & _). unfold cmd_sjoin.
  assert (Hshape : exists r rest, ws ++ [items] = r :: rest) by (destruct ws; eexists _, _; reflexivity). destruct Hshape as (r & rest & Hshape).
  rewrite Hshape, <- Hshape. rewrite Hn. change (negb (35 =? 35)) with false. cbv iota. rewrite Hat. unfold IsInvalidChannelTS. rewrite (proj2 (Z.leb_gt tb 1000000)) by lia.
  fold start. rewrite last_snoc. cbn [default from_option id]. assert (Hbig : (2000 <= 16383)%nat) by (apply Nat.leb_le; vm_compute; reflexivity).
  rewrite (take_ge items) by (etransitivity; [exact Hi|exact Hbig]). clear Hbig.
  assert (Hno : (length (ws ++ [items]) =? 1)%nat = bool_decide (ws = [])) by (destruct ws as [|w [|]]; done).
  rewrite Hno. set (old := bool_decide (is_Some c)). assert (Hmin : (if old && (sc_ts start <? tb) then sc_ts start else tb) = if old then Z.min (sc_ts start) tb else tb).
  { destruct old; [|done]. cbn [andb]. destruct (Z.ltb_spec (sc_ts start) tb); lia. }
  rewrite Hmin. unfold command. destruct ws as [|w ws]; [done|]. cbn [app hd tl] in *. rewrite removelast_last, take_ge by lia.
  assert (Hmp : mode_params ws = spaced ws); [|by rewrite Hmp]. unfold mode_params. fold (spaced ws). rewrite strlcpy_take by (unfold Mode.BUFSIZE; lia). apply take_ge. unfold Mode.BUFSIZE. lia.
Qed.

(** Whether the hook kicks, for the times [ta] here and [tb] there. *)
Definition kicks (ta tb : Z) (b : mchan) : bool := (tb <? ta) && has (mc_mode b) (handler_bit E 122).

Lemma insecure_behind u : p_behind P u = true -> p_insecure P u = false.
Proof using Type. unfold p_behind, p_insecure. by destruct (p_place P u). Qed.

Lemma put_member_insecure theirs xs : forall m u, Forall (item_ok E D P ids) xs -> p_insecure P u = true -> foldl (put_member theirs) m xs !! u = m !! u.
Proof using Type.
  induction xs as [|x xs IH]; intros m u Hx Hu; [done|]. apply Forall_cons in Hx as [Hx Hxs]. cbn [foldl]. rewrite IH by done. destruct x as [v modes|]; [|done]. cbn [put_member].
  case_bool_decide; [done|]. apply lookup_insert_ne. intros ->. destruct Hx as (_ & _ & _ & Hb). by rewrite insecure_behind in Hu.
Qed.

Lemma put_kept theirs fires xs : forall m, Forall (item_ok E D P ids) xs -> foldl (put_member theirs) (kept fires m) xs = kept fires (foldl (put_member theirs) m xs).
Proof using Type.
  induction xs as [|x xs IH]; intros m Hx; [done|]. apply Forall_cons in Hx as [Hx Hxs]. cbn [foldl]. rewrite <- IH by done. f_equal. destruct x as [v modes|]; [|done]. cbn [put_member].
  destruct Hx as (_ & _ & _ & Hb%insecure_behind). apply map_eq. intros i. rewrite kept_lookup, Hb, andb_false_r. case_bool_decide; [by rewrite kept_lookup|].
  destruct (decide (i = v)) as [->|]; [by rewrite lookup_insert_eq, kept_lookup, Hb, andb_false_r, lookup_insert_eq|].
  by rewrite lookup_insert_ne, !kept_lookup, lookup_insert_ne by done.
Qed.

Lemma put_first theirs m u md xs : is_Some (foldl (put_member theirs) m (IMember u md :: xs) !! u).
Proof using Type.
  cbn [foldl]. assert (H0 : is_Some (put_member theirs m (IMember u md) !! u)) by (cbn [put_member]; case_bool_decide; [done|]; rewrite lookup_insert_eq; eauto).
  revert H0. generalize (put_member theirs m (IMember u md)) as n. induction xs as [|x xs IH]; intros n H0; [done|]. cbn [foldl]. apply IH. destruct x as [v modes|]; [|done].
  cbn [put_member]. case_bool_decide; [done|]. destruct (decide (u = v)) as [->|]; [done|by rewrite lookup_insert_ne].
Qed.

(** The channel after items of [b] were received, for the times [ta] here and [tb] there. *)
Record merged (ta tb : Z) (ch b : mchan) (xs : list sitem) (t : mchan) : Prop := {
  mg_name : h_name (mc_bans t) = h_name (mc_bans ch);
  mg_set h : shared E h -> cm_set (mc_mode t) h =
    if tb <? ta then cm_set (mc_mode b) h else if ta <? tb then cm_set (mc_mode ch) h else joint E (mc_mode ch) (mc_mode b) h;
  mg_param h ph : shared E h -> i_param (h_info h) = Some ph -> cm_set (mc_mode t) h = true -> mc_params t !! h_letter h =
    Some (if tb <? ta then par b (h_letter h) else if ta <? tb then par ch (h_letter h) else joint_param ph ch b h);
  mg_members : mc_members t = kept (kicks ta tb b) (foldl (put_member (ta <? tb)) (if tb <? ta then cleared_members (mc_members ch) else mc_members ch) xs);
  mg_lists : lists_ok t;
  mg_map ty : to_map (get_list ty (mc_bans t)) =
    if tb <? ta then foldl put ∅ (bans_in ty xs) else if ta <? tb then to_map (get_list ty (mc_bans ch))
    else foldl put (to_map (get_list ty (mc_bans ch))) (bans_in ty xs)
}.

Lemma put_members_nonempty theirs xs m : m <> ∅ -> foldl (put_member theirs) m xs <> ∅.
Proof using Type.
  revert m. induction xs as [|x xs IH]; intros m Hm; [done|]. cbn [foldl]. apply IH. destruct x; cbn; [|done]. case_bool_decide; [done|]. apply insert_non_empty.
Qed.

Lemma joint_none a b h : (forall g, shared E g -> cm_set b g = false) -> not_both E a = true -> shared E h -> joint E a b h = cm_set a h.
Proof using HT Hpub.
  intros Hb Ha Hh. unfold joint. rewrite (Hb h Hh), orb_false_r.
  assert (Hs : has b (handler_bit E 115) = false).
  { rewrite bit_set. destruct (find_handler E 115) as [g|] eqn:Ef; [|done]. apply Hb. by destruct (find_public E HT 115 g Hpub) as [Hg _]; [right|done|]. }
  rewrite Hs, orb_false_r. destruct (Z.eqb_spec (h_letter h) 112) as [El|]; [|by rewrite andb_true_r].
  unfold not_both in Ha. pose proof (has_letter E HT a h (proj1 Hh)) as Hl. rewrite El in Hl. rewrite Hl in Ha. destruct (cm_set a h); [|done]. cbn [andb] in *. by rewrite Ha.
Qed.

Lemma shown_nil m : shown E m = [] -> forall h, shared E h -> cm_set m h = false.
Proof using HT. intros Hs h Hh. destruct (cm_set m h) eqn:Hc; [|done]. assert (Hin : h ∈ shown E m) by (by apply (shown_shared E HT)). rewrite Hs in Hin. by apply not_elem_of_nil in Hin. Qed.

(** What holds of a channel on a server. *)
Record chan_ok (ch : mchan) : Prop := {
  ch_modes : modes_ok E ch;
  ch_fit : modes_fit E ch;
  ch_secret : not_both E (mc_mode ch) = true;
  ch_lists : lists_ok ch;
  ch_members : mc_members ch <> ∅
}.

(** The modes of the first line. *)
Lemma line_modes b : modes_ok E b -> modes_fit E b ->
  mode_words E b = [] /\ shown E (mc_mode b) = [] \/
  mode_words E b <> [] /\ hd [] (mode_words E b) = str "+" ++ (h_letter <$> shown E (mc_mode b)) /\ tokens [ch_space] (spaced (tl (mode_words E b))) = params_for b (shown E (mc_mode b)).
Proof using HT.
  intros Hm Hf. unfold mode_words. pose proof (params_words E b _ Hm (shown_good E HT (mc_mode b))) as Hw. destruct (shown E (mc_mode b)) as [|h hs] eqn:Es; [by left|right].
  split; [done|]. split; [done|]. cbn [tl]. apply tokens_all. eapply Forall_impl; [exact Hw|]. cbn. tauto.
Qed.

Lemma words_bounds b : modes_fit E b -> (length (hd [] (mode_words E b)) <= 500)%nat /\ (length (spaced (tl (mode_words E b))) <= 500)%nat.
Proof using Type.
  intros Hf. destruct (mode_words_length E b Hf) as [Hl _]. rewrite blanks_spaced in Hl. destruct (mode_words E b) as [|w ws]; [cbn; lia|]. cbn [hd tl].
  change (spaced (w :: ws)) with ((w ++ [ch_space]) ++ spaced ws) in Hl. rewrite !length_app in Hl. lia.
Qed.

(** The modes of the line are taken over, or merged. *)
Definition line_set (ta tb : Z) (b t : mchan) : option mchan :=
  if negb (bool_decide (mode_words E b = [])) && negb (ta <? tb)
  then if ta =? tb then merge_modes E D P now t (hd [] (mode_words E b)) (spaced (tl (mode_words E b))) else sj_set E D P now t (hd [] (mode_words E b)) (spaced (tl (mode_words E b)))
  else Some t.

Record set_eff (b t u : mchan) (on : Handler -> bool) (pv : Handler -> ParamHandler -> cstring) : Prop := {
  se_bans : mc_bans u = mc_bans t;
  se_members : mc_members u = mc_members t;
  se_set h : shared E h -> cm_set (mc_mode u) h = on h;
  se_param h ph : shared E h -> i_param (h_info h) = Some ph -> cm_set (mc_mode u) h = true -> mc_params u !! h_letter h = Some (pv h ph)
}.

Lemma set_older ta tb b t : tb < ta -> modes_ok E b -> modes_fit E b -> not_both E (mc_mode b) = true -> h_name (mc_bans t) = h_name (mc_bans b) ->
  (forall h, shared E h -> cm_set (mc_mode t) h = false) ->
  exists u, line_set ta tb b t = Some u /\ set_eff b t u (cm_set (mc_mode b)) (fun h _ => par b (h_letter h)).
Proof using HT Hpub.
  intros Hlt Hm Hf Hnb Hname Hoff. unfold line_set. rewrite (proj2 (Z.ltb_ge ta tb)), (proj2 (Z.eqb_neq ta tb)) by lia.
  destruct (line_modes b Hm Hf) as [[Hw Hs]|(Hw & Hh & Hp)].
  - rewrite bool_decide_true by done. exists t. split; [done|]. pose proof (shown_nil _ Hs) as Hb. split; [done|done| |].
    + intros h Hh. by rewrite Hoff, Hb.
    + intros h ph Hh _ Hset. by rewrite Hoff in Hset.
  - rewrite bool_decide_false by done. cbn [negb andb]. rewrite Hh, sj_set_spec by done. eexists. split; [reflexivity|].
    destruct (add_effs_fields E (par b) (shown E (mc_mode b)) t) as (F1 & F2 & _).
    assert (Hset : forall h, shared E h -> cm_set (mc_mode (foldl (add_eff E (par b)) t (shown E (mc_mode b)))) h = cm_set (mc_mode b) h).
    { intros h Hsh. rewrite (taken_set E HT) by done. by rewrite Hoff, orb_false_r. }
    split; [done|done|done|]. intros h ph Hsh Hph Hon. rewrite (Hset h Hsh) in Hon.
    rewrite (add_effs_params E HT (par b) (shown E (mc_mode b)) t h ph); [|by apply (shown_addable E HT)|apply Hsh|done]. by rewrite (shown_named E HT), Hon.
Qed.

Lemma set_equal ta b ch t : chan_ok ch -> modes_ok E b -> modes_fit E b -> not_both E (mc_mode b) = true -> h_name (mc_bans ch) = h_name (mc_bans b) ->
  mc_mode t = mc_mode ch -> mc_params t = mc_params ch -> h_name (mc_bans t) = h_name (mc_bans ch) ->
  exists u, line_set ta ta b t = Some u /\ set_eff b t u (joint E (mc_mode ch) (mc_mode b)) (fun h ph => joint_param ph ch b h).
Proof using HT Hpub.
  intros Hc Hm Hf Hnb Hname E1 E2 E3. unfold line_set. rewrite Z.ltb_irrefl, Z.eqb_refl.
  assert (Ht : modes_ok E t) by (intros h ph Hh Hp; rewrite E1, E2, E3; apply (ch_modes ch Hc); done).
  destruct (line_modes b Hm Hf) as [[Hw Hs]|(Hw & Hh & Hp)].
  - rewrite bool_decide_true by done. exists t. split; [done|]. pose proof (shown_nil _ Hs) as Hb. split; [done|done| |].
    + intros h Hh. rewrite joint_none by (done || apply Hc). by rewrite E1.
    + intros h ph Hh Hph Hset. unfold joint_param. rewrite (Hb h Hh), andb_false_r.
      destruct (param_word E t h ph Ht Hh Hph Hset) as [-> _]. unfold par. by rewrite E2.
  - rewrite bool_decide_false by done. cbn [negb andb]. rewrite Hh.
    destruct (merge_modes_spec E D P now HT t b (spaced (tl (mode_words E b)))) as (u & Hu & G1 & G2 & G3 & G4); try done; [by rewrite E1; apply Hc|by rewrite E3|].
    exists u. split; [done|]. split; [done|done| |].
    + intros h Hsh. by rewrite G3, E1.
    + intros h ph Hsh Hph Hset. rewrite (G4 h ph) by done. unfold joint_param, par. by rewrite E1, E2.
Qed.

(** Which channel the items are added to. *)
Lemma line_start ta tb ch : chan_ok ch ->
  exists t, (if tb <? ta then remove_ours E D P now ch else Some ch) = Some t /\ h_name (mc_bans t) = h_name (mc_bans ch) /\ lists_ok t /\
    mc_members t = (if tb <? ta then cleared_members (mc_members ch) else mc_members ch) /\
    (forall ty, to_map (get_list ty (mc_bans t)) = if tb <? ta then ∅ else to_map (get_list ty (mc_bans ch))) /\
    (if tb <? ta then forall h, shared E h -> cm_set (mc_mode t) h = false else t = ch).
Proof using HT.
  intros Hc. destruct (tb <? ta).
  - destruct (remove_ours_spec E D P now HT ch (ch_modes ch Hc) (ch_fit ch Hc)) as (t & Ht & H1 & H2 & H3 & H4). exists t. split_and!; try done.
    + intros ty. rewrite H3. apply list_ok_nil.
    + intros ty. by rewrite H3.
  - exists ch. split_and!; try done. apply Hc.
Qed.

(** The modes of a line that was handled. *)
Lemma line_finish ta tb ch b t t1 : chan_ok ch -> modes_ok E b -> modes_fit E b -> not_both E (mc_mode b) = true -> h_name (mc_bans ch) = h_name (mc_bans b) ->
  (if tb <? ta then forall h, shared E h -> cm_set (mc_mode t) h = false else t = ch) ->
  mc_mode t1 = mc_mode t -> mc_params t1 = mc_params t -> h_name (mc_bans t1) = h_name (mc_bans ch) ->
  exists u, line_set ta tb b t1 = Some u /\ set_eff b t1 u
    (fun h => if tb <? ta then cm_set (mc_mode b) h else if ta <? tb then cm_set (mc_mode ch) h else joint E (mc_mode ch) (mc_mode b) h)
    (fun h ph => if tb <? ta then par b (h_letter h) else if ta <? tb then par ch (h_letter h) else joint_param ph ch b h).
Proof using HT Hpub.
  intros Hc Hm Hf Hnb Hname Hstart E1 E2 E3. destruct (Z.ltb_spec tb ta) as [Hlt|Hge].
  - apply set_older; try done; [by rewrite E3|]. intros h Hh. rewrite E1. by apply Hstart.
  - subst t. destruct (Z.ltb_spec ta tb) as [Hlt|Hge'].
    + unfold line_set. rewrite (proj2 (Z.ltb_lt ta tb)) by done. rewrite andb_false_r. exists t1. split; [done|]. split; [done|done| |].
      * intros h _. by rewrite E1.
      * intros h ph Hh Hph Hset. rewrite E1 in Hset. destruct (param_word E ch h ph (ch_modes ch Hc) Hh Hph Hset) as [Hp _]. by rewrite E2.
    + assert (ta = tb) as <- by lia. by apply set_equal.
Qed.

(** The line has the mode z. *)
Lemma kicks_now ta tb b u on pv : modes_ok E b -> modes_fit E b -> set_eff b u u on pv -> (tb <? ta = true -> forall h, shared E h -> on h = cm_set (mc_mode b) h) ->
  kicks ta tb b = negb (ta =? tb) && negb (ta <? tb) && negb (bool_decide (mode_words E b = [])) && has (mc_mode u) (handler_bit E 122).
Proof using HT Hz.
  intros Hm Hf [_ _ S3 _] Hon. unfold kicks. destruct (Z.ltb_spec tb ta) as [Hlt|Hge].
  - rewrite (proj2 (Z.eqb_neq ta tb)), (proj2 (Z.ltb_ge ta tb)) by lia. cbn [negb andb]. rewrite !bit_set. destruct (find_handler E 122) as [g|] eqn:Ef; [|by rewrite andb_false_r].
    rewrite S3, Hon by auto. destruct (line_modes b Hm Hf) as [[Hw Hs]|[Hw _]]; [|by rewrite bool_decide_false].
    rewrite bool_decide_true by done. cbn [negb andb]. by apply shown_nil; [done|apply Hz].
  - cbn [andb]. destruct (Z.eqb_spec ta tb); [done|]. by rewrite (proj2 (Z.ltb_lt ta tb)) by lia.
Qed.

Lemma set_eff_self b t u on pv : set_eff b t u on pv -> set_eff b u u on pv.
Proof using Type. by intros [S1 S2 S3 S4]. Qed.

Lemma first_line ta tb ch b xs : chan_ok ch -> modes_ok E b -> modes_fit E b -> not_both E (mc_mode b) = true ->
  1000000 < tb < 2 ^ 63 -> h_name (mc_bans ch) = h_name (mc_bans b) -> hd 0 (h_name (mc_bans b)) = 35 ->
  Forall (item_ok E D P ids) xs -> (length (texts xs) <= 2000)%nat ->
  (kicks ta tb b = true -> (forall u, is_Some (mc_members ch !! u) -> p_insecure P u = true -> find_handler E 90 = None) /\ exists u md xs', xs = IMember u md :: xs') ->
  exists t kicked, cmd_sjoin E D P now (Some (MkSChan ta ch)) (print_long tb :: h_name (mc_bans b) :: mode_words E b ++ [texts xs]) = Some (Some (MkSChan (Z.min ta tb) t), kicked) /\
    merged ta tb ch b xs t /\ mc_members t <> ∅ /\
    (forall u, u ∈ kicked <-> kicks ta tb b = true /\ p_insecure P u = true /\ is_Some (mc_members ch !! u)).
Proof using HT Hcm Hmax Hsj Hpre Hpub Hz.
  intros Hc Hm Hf Hnb Htb Hname H35 Hx Hlen Hkick. destruct (words_bounds b Hf) as [Hb1 Hb2]. rewrite command_form by done. cbn [sc_ts sc_chan]. rewrite bool_decide_true by eauto. unfold command. cbn [andb].
  destruct (line_start ta tb ch Hc) as (t & Ht & N1 & N2 & N3 & N4 & N5). rewrite Ht. cbn [mbind option_bind].
  destruct (items_effect E D P now ids Hcm Hmax Hsj Hpre (ta <? tb) xs t N2 Hx) as (t1 & Ht1 & [I1 I2 I3 I4 I5 I6]). rewrite Ht1. cbn [mbind option_bind]. fold (line_set ta tb b t1).
  destruct (line_finish ta tb ch b t t1 Hc Hm Hf Hnb Hname N5 I2 I3) as (u & Hu & Hse); [by rewrite I1|]. rewrite Hu. cbn [mbind option_bind].
  pose proof (kicks_now ta tb b u _ _ Hm Hf (set_eff_self _ _ _ _ _ Hse) ltac:(by intros -> )) as Hfire. destruct Hse as [S1 S2 S3 S4].
  assert (Hdom : forall v, p_insecure P v = true -> is_Some (mc_members u !! v) <-> is_Some (mc_members ch !! v)).
  { intros v Hv. rewrite S2, I4, N3, (put_member_insecure _ _ _ _ Hx Hv). destruct (tb <? ta); [|done]. rewrite lookup_fmap. apply fmap_is_Some. }
  destruct (sync_spec E P (ta =? tb) (ta <? tb) (bool_decide (mode_words E b = [])) u (kicks ta tb b) Hfire) as (kicked & Hsync & Hkicked).
  { intros Hk v Hv Hi. apply (proj1 (Hkick Hk) v); [by apply Hdom|done]. }
  rewrite Hsync. cbn [mbind option_bind set_members mc_members mc_mode].
  assert (Hne : kept (kicks ta tb b) (mc_members u) <> ∅).
  { rewrite S2, I4, N3. destruct (kicks ta tb b) eqn:Hk.
    - destruct (Hkick eq_refl) as [_ (v & md & xs' & ->)]. apply Forall_inv in Hx as (_ & _ & _ & Hb%insecure_behind). intros He. destruct (put_first (ta <? tb) (if tb <? ta then cleared_members (mc_members ch) else mc_members ch) v md xs') as [x Hv].
      apply (f_equal (lookup v)) in He. rewrite kept_lookup, Hb, andb_false_r, Hv in He. by rewrite lookup_empty in He.
    - rewrite kept_none. apply put_members_nonempty. pose proof (ch_members ch Hc) as H0. destruct (tb <? ta); [|done]. by rewrite fmap_empty_iff. }
  rewrite bool_decide_false by done. cbn [andb]. eexists _, kicked. split; [done|]. split; [|split; [done|intros v; rewrite Hkicked; split; intros (H1 & H2 & H3); split; try done; split; try done; by apply Hdom]].
  split; cbn [mc_bans mc_mode mc_params mc_members set_members]; [by rewrite S1, I1, N1|done|done| | |].
  - by rewrite S2, I4, N3.
  - intros ty. cbn. rewrite S1. apply I5.
  - intros ty. rewrite S1, I6, N4. destruct (Z.ltb_spec tb ta), (Z.ltb_spec ta tb); try done. lia.
Qed.

Lemma later_line ta tb ch b xs ys t : merged ta tb ch b xs t -> mc_members t <> ∅ -> 1000000 < tb < 2 ^ 63 -> hd 0 (h_name (mc_bans b)) = 35 ->
  Forall (item_ok E D P ids) ys -> (length (texts ys) <= 2000)%nat ->
  exists t', cmd_sjoin E D P now (Some (MkSChan (Z.min ta tb) t)) (print_long tb :: h_name (mc_bans b) :: [] ++ [texts ys]) = Some (Some (MkSChan (Z.min ta tb) t'), []) /\
    merged ta tb ch b (xs ++ ys) t' /\ mc_members t' <> ∅.
Proof using Hcm Hmax Hsj Hpre.
  intros [M1 M2 M3 M4 M5 M6] Hc Htb H35 Hy Hlen. rewrite command_form by (done || (cbn; lia)). cbn [sc_ts sc_chan]. rewrite bool_decide_true by eauto. unfold command. cbn [andb]. rewrite (proj2 (Z.ltb_ge tb (Z.min ta tb))) by lia. cbn [mbind option_bind].
  assert (Hth : (Z.min ta tb <? tb) = (ta <? tb)) by (apply eq_true_iff_eq; rewrite !Z.ltb_lt; lia). rewrite Hth.
  destruct (items_effect E D P now ids Hcm Hmax Hsj Hpre (ta <? tb) ys t M5 Hy) as (t1 & Ht1 & [I1 I2 I3 I4 I5 I6]). rewrite Ht1. cbn [mbind option_bind].
  rewrite bool_decide_true by done. cbn [negb andb mbind option_bind]. unfold secureonly_channel_sync. cbn [negb]. rewrite andb_false_r. cbn [mbind option_bind].
  assert (Hne : mc_members t1 <> ∅).
  { rewrite I4. by apply put_members_nonempty. }
  rewrite bool_decide_false by done. cbn [andb]. replace (Z.min (Z.min ta tb) tb) with (Z.min ta tb) by lia. exists t1. split; [done|]. split; [|done].
  split; [by rewrite I1, M1| | | |done|].
  - intros h Hh. rewrite I2. by apply M2.
  - intros h ph Hh Hp. rewrite I2, I3. by apply M3.
  - by rewrite I4, M4, put_kept, foldl_app.
  - intros ty. rewrite I6, M6. unfold bans_in. rewrite omap_app, !foldl_app. destruct (Z.ltb_spec tb ta), (Z.ltb_spec ta tb); try done. lia.
Qed.

Context (Hblank : forall h, h ∈ e_handlers E -> h_letter h <> ch_space).

Lemma body_short x : item_ok E D P ids x -> (length (body E ids x) < 2000)%nat.
Proof using Hcm Hpre.
  destruct x as [u modes|ty b]; cbn [item_ok body].
  - intros (Hs & (_ & _ & _ & Hl) & _). destruct (sjoin_letters E Hcm Hpre modes Hs) as (Hr & _ & Hm).
    rewrite length_app, <- (length_map (sjoin_prefix_to_mode (h_cm <$> e_handlers E)) (modes_to_sjoin_prefix _ modes)), Hr. lia.
  - intros (_ & He). destruct (eo_who E ty b He) as (Hw & _), (print_long_ok (when_ b) (eo_when E ty b He)) as (_ & _ & _ & Hp), (eo_mask E ty b He) as (_ & _ & Hm).
    unfold add_sjsby. rewrite !length_app. unfold setter_ok in Hw. unfold NICKLEN, USERLEN, HOSTLEN in Hw. unfold MAXBANLEN in Hm. cbn [length]. lia.
Qed.

(** The lines behind the first one. *)
Lemma rest_lines ta tb ch b xss : 1000000 < tb < 2 ^ 63 -> name_ok (h_name (mc_bans b)) -> Forall (item_ok E D P ids) (concat xss) ->
  Forall (fun xs => (length (texts xs) <= 2000)%nat) xss -> forall xs t, merged ta tb ch b xs t -> mc_members t <> ∅ ->
  exists t', sj_receive E D P now (Some (MkSChan (Z.min ta tb) t)) (map (fun xs => sj_line tb (h_name (mc_bans b)) [] (map (body E ids) xs)) xss) =
      Some (Some (MkSChan (Z.min ta tb) t'), []) /\ merged ta tb ch b (xs ++ concat xss) t'.
Proof using HT Hcm Hmax Hsj Hpre Hpub.
  intros Htb Hn Hx Hlen. unfold sj_receive. induction Hlen as [|ys xss Hl _ IH]; intros xs t Hm Hne.
  - exists t. cbn. by rewrite app_nil_r.
  - cbn [concat map foldl mbind option_bind] in *. apply Forall_app in Hx as [Hy Hx]. rewrite line_para by (done || lia || (cbn; lia) || constructor).
    destruct (later_line ta tb ch b xs ys t Hm Hne Htb (proj1 Hn) Hy Hl) as (t' & -> & Hm' & Hne'). cbn [mbind option_bind app]. rewrite app_assoc. by apply IH.
Qed.

(** The kicks of the lines come one after the other. *)
Lemma receive_out c lines out : foldl (fun r l => '(c, out) ← r; '(c, kicked) ← cmd_sjoin E D P now c (para MAXPARA l); Some (c, out ++ kicked)) (Some (c, out)) lines =
  '(c, kicked) ← sj_receive E D P now c lines; Some (c, out ++ kicked).
Proof using Type.
  unfold sj_receive. revert c out. induction lines as [|l lines IH]; intros c out; [cbn; by rewrite app_nil_r|]. cbn [foldl mbind option_bind].
  destruct (cmd_sjoin E D P now c (para MAXPARA l)) as [[c' k]|]; cbn [mbind option_bind app]; [|clear; by induction lines].
  rewrite IH, (IH c' k). destruct (foldl _ _ lines) as [[c'' k']|]; cbn [mbind option_bind]; [by rewrite app_assoc|done].
Qed.

(** A burst is received by a server that has the channel. *)
Lemma burst_received id members ta tb ch b :
  chan_ok ch -> chan_ok b -> name_ok (h_name (mc_bans b)) -> h_name (mc_bans ch) = h_name (mc_bans b) -> (length id <= 9)%nat -> 1000000 < tb < 2 ^ 63 ->
  Forall (item_ok E D P ids) (chan_items members b) -> members ≡ₚ map_to_list (mc_members b) ->
  (forall u md, head members = Some (u, md) -> (length md + length (ids u) <= 16)%nat) ->
  (kicks ta tb b = true -> forall u, is_Some (mc_members ch !! u) -> p_insecure P u = true -> find_handler E 90 = None) ->
  exists lines t kicked, send_channel_modes_sjoin3 E id ids true members (MkSChan tb b) = Some lines /\
    sj_receive E D P now (Some (MkSChan ta ch)) lines = Some (Some (MkSChan (Z.min ta tb) t), kicked) /\ merged ta tb ch b (chan_items members b) t /\
    (forall u, u ∈ kicked <-> kicks ta tb b = true /\ p_insecure P u = true /\ is_Some (mc_members ch !! u)).
Proof using HT Hcm Hmax Hsj Hpre Hpub Hblank Hz.
  intros Hc Hb Hn Hname Hid Htb Hx Hperm Hshort Hkick. destruct (burst_lines E HT ids Hblank id members tb b) as (xs & xss & Hsend & Hcat & Hlen & Hfirst); [apply Hb|apply Hb|done|done|lia| |].
  { eapply Forall_impl; [exact Hx|]. apply body_short. }
  assert (Hhead : exists u md xs', xs = IMember u md :: xs').
  { destruct members as [|[u md] members]; [destruct (ch_members b Hb); apply map_to_list_empty_iff; by apply Permutation_nil|].
    specialize (Hfirst (IMember u md) eq_refl). destruct xs as [|x xs]; [exfalso; apply Hfirst; [|done]|].
    - apply Forall_inv in Hx as (Hs & _). destruct (sjoin_letters E Hcm Hpre md Hs) as (Hr & _). cbn [body].
      rewrite length_app, <- (length_map (sjoin_prefix_to_mode (h_cm <$> e_handlers E)) (modes_to_sjoin_prefix _ md)), Hr. by apply Hshort.
    - exists u, md, xs. f_equal. by injection Hcat. }
  rewrite <- Hcat in Hx |- *. apply Forall_cons in Hlen as [Hl0 Hlen]. cbn [concat] in Hx |- *. apply Forall_app in Hx as [Hx0 Hx].
  destruct (first_line ta tb ch b xs Hc (ch_modes b Hb) (ch_fit b Hb) (ch_secret b Hb) Htb Hname (proj1 Hn) Hx0 Hl0) as (t & kicked & Ht & Hm & Hne & Hk); [intros Hk0; split; [exact (Hkick Hk0)|exact Hhead]|].
  destruct (rest_lines ta tb ch b xss Htb Hn Hx Hlen xs t Hm Hne) as (t' & Ht' & Hm'). eexists _, t', kicked. split; [exact Hsend|]. split; [|done].
  unfold sj_receive. cbn [foldl mbind option_bind]. rewrite line_para; [|by apply (mode_words_ok E HT Hblank), Hb|apply (mode_words_length E b), Hb|done|lia].
  rewrite Ht. cbn [mbind option_bind app]. rewrite receive_out, Ht'. cbn [mbind option_bind]. by rewrite app_nil_r.
Qed.

(** The channel that a line makes. *)
Definition new_channel (name : cstring) : mchan := MkMChan (MkBanChannel name [] [] []) 0 ∅ ∅ None.

Lemma make_channel_name name : name_ok name -> Forall (fun c => 33 <= c /\ c <> 44 /\ c <> ch_colon) name -> make_channel now name = MkSChan now (new_channel name).
Proof using Type.
  intros (_ & _ & Hl) Hc. unfold make_channel, new_channel. rewrite take_ge by done. assert (Hs : span (fun c => negb ((c <? 33) || (c =? 44) || (c =? 58))) name = (name, [])).
  { induction Hc as [|c s Hc _ IH]; [done|]. cbn [length] in Hl. cbn [span]. rewrite (proj2 (Z.ltb_ge c 33)), (proj2 (Z.eqb_neq c 44)), (proj2 (Z.eqb_neq c 58)) by lia. cbn [orb negb].
    rewrite IH by lia. done. }
  by rewrite Hs.
Qed.

Lemma created_line tb b xs u md xs' : modes_ok E b -> modes_fit E b -> not_both E (mc_mode b) = true -> 1000000 < tb < 2 ^ 63 -> name_ok (h_name (mc_bans b)) ->
  Forall (fun c => 33 <= c /\ c <> 44 /\ c <> ch_colon) (h_name (mc_bans b)) -> Forall (item_ok E D P ids) xs -> (length (texts xs) <= 2000)%nat -> xs = IMember u md :: xs' ->
  exists t, cmd_sjoin E D P now None (print_long tb :: h_name (mc_bans b) :: mode_words E b ++ [texts xs]) = Some (Some (MkSChan tb t), []) /\
    merged (tb + 1) tb (new_channel (h_name (mc_bans b))) b xs t /\ mc_members t <> ∅.
Proof using HT Hcm Hmax Hsj Hpre Hpub Hz.
  intros Hm Hf Hnb Htb Hn Hnc Hx Hlen Hfirst. set (e := new_channel (h_name (mc_bans b))).
  destruct (items_effect E D P now ids Hcm Hmax Hsj Hpre false xs e) as (t1 & Ht1 & [I1 I2 I3 I4 I5 I6]); [by intros []; apply list_ok_nil|done|].
  destruct (set_older (tb + 1) tb b t1) as (v & Hv & Hse); try done; [lia| |].
  { intros h _. rewrite I2. unfold cm_set, has. cbn [mc_mode e new_channel]. by rewrite Z.land_0_l. }
  assert (Hlt : (tb <? tb + 1) = true) by (apply Z.ltb_lt; lia). assert (Hge : (tb + 1 <? tb) = false) by (apply Z.ltb_ge; lia).
  pose proof (kicks_now (tb + 1) tb b v _ _ Hm Hf (set_eff_self _ _ _ _ _ Hse) ltac:(done)) as Hfire. destruct Hse as [S1 S2 S3 S4]. rewrite Hge, (proj2 (Z.eqb_neq (tb + 1) tb)) in Hfire by lia.
  assert (Hnone : forall w, p_insecure P w = true -> mc_members v !! w = None).
  { intros w Hw. by rewrite S2, I4, (put_member_insecure _ _ _ _ Hx Hw). }
  destruct (sync_spec E P false false (bool_decide (mode_words E b = [])) v (kicks (tb + 1) tb b) Hfire) as (kicked & Hsync & Hkicked); [intros _ w [x Hw] Hi; by rewrite Hnone in Hw|].
  assert (kicked = []) as -> by (apply list_elem_of_nil_inv || (destruct kicked as [|w kicked]; [done|]; destruct (proj1 (Hkicked w) ltac:(left)) as (_ & Hi & [x Hw]); by rewrite Hnone in Hw)).
  assert (Hsame : kept (kicks (tb + 1) tb b) (mc_members v) = mc_members v).
  { apply map_eq. intros i. rewrite kept_lookup. destruct (p_insecure P i) eqn:Hi; [rewrite (Hnone i Hi); by destruct (kicks (tb + 1) tb b)|by rewrite andb_false_r]. }
  assert (Hne : mc_members v <> ∅).
  { rewrite S2, I4, Hfirst. cbn [foldl put_member]. apply put_members_nonempty. rewrite bool_decide_false by (by intros [? Hd]). apply insert_non_empty. }
  exists v. split; [|split; [|done]].
  - destruct (words_bounds b Hf) as [Hb1 Hb2]. rewrite command_form by (done || apply Hn). rewrite make_channel_name by done. cbn [sc_ts sc_chan]. unfold command. rewrite bool_decide_false by (by intros [? ?]).
    cbn [andb mbind option_bind]. fold e. rewrite Ht1. cbn [mbind option_bind]. unfold line_set in Hv. rewrite Hge, (proj2 (Z.eqb_neq (tb + 1) tb)) in Hv by lia. rewrite Hv.
    cbn [mbind option_bind]. rewrite Hsync, Hsame. cbn [mbind option_bind set_members mc_members]. rewrite bool_decide_false by done. by destruct v.
  - split; rewrite ?Hlt, ?Hge; [by rewrite S1, I1|done|done| | |].
    + rewrite <- Hsame at 1. f_equal. rewrite S2, I4. cbn. by rewrite fmap_empty.
    + intros ty. rewrite S1. apply I5.
    + intros ty. rewrite S1, I6. by destruct ty.
Qed.

(** A burst is received by a server that does not have the channel. *)
Lemma burst_created id u md members tb b :
  chan_ok b -> name_ok (h_name (mc_bans b)) -> Forall (fun c => 33 <= c /\ c <> 44 /\ c <> ch_colon) (h_name (mc_bans b)) -> (length id <= 9)%nat -> 1000000 < tb < 2 ^ 63 ->
  Forall (item_ok E D P ids) (chan_items ((u, md) :: members) b) -> (length (body E ids (IMember u md)) <= 16)%nat ->
  exists lines t, send_channel_modes_sjoin3 E id ids true ((u, md) :: members) (MkSChan tb b) = Some lines /\
    sj_receive E D P now None lines = Some (Some (MkSChan tb t), []) /\ merged (tb + 1) tb (new_channel (h_name (mc_bans b))) b (chan_items ((u, md) :: members) b) t.
Proof using HT Hcm Hmax Hsj Hpre Hpub Hblank Hz.
  intros Hb Hn Hnc Hid Htb Hx Hshort. destruct (burst_lines E HT ids Hblank id ((u, md) :: members) tb b) as (xs & xss & Hsend & Hcat & Hlen & Hfirst); [apply Hb|apply Hb|done|done|lia| |].
  { eapply Forall_impl; [exact Hx|]. apply body_short. }
  specialize (Hfirst (IMember u md) eq_refl Hshort). destruct xs as [|x xs]; [done|]. assert (x = IMember u md) as -> by (by injection Hcat).
  rewrite <- Hcat in Hx |- *. apply Forall_cons in Hlen as [Hl0 Hlen]. cbn [concat] in Hx |- *. apply Forall_app in Hx as [Hx0 Hx].
  destruct (created_line tb b (IMember u md :: xs) u md xs (ch_modes b Hb) (ch_fit b Hb) (ch_secret b Hb) Htb Hn Hnc Hx0 Hl0 eq_refl) as (t & Ht & Hm & Hne).
  destruct (rest_lines (tb + 1) tb (new_channel (h_name (mc_bans b))) b xss Htb Hn Hx Hlen _ t Hm Hne) as (t' & Ht' & Hm'). rewrite Z.min_r in Ht' by lia.
  eexists _, t'. split; [exact Hsend|]. split; [|done].
  unfold sj_receive in *. cbn [foldl mbind option_bind]. rewrite line_para; [|by apply (mode_words_ok E HT Hblank), Hb|apply (mode_words_length E b), Hb|done|lia].
  rewrite Ht. cbn [mbind option_bind app]. apply Ht'.
Qed.
End handle.

(** ** Both sides *)

Definition dropped (loses : bool) (m : gmap positive cstring) : gmap positive cstring := if loses then (fun _ => []) <$> m else m.

Lemma dropped_disjoint l l' m m' : m ##ₘ m' -> dropped l m ##ₘ dropped l' m'.
Proof.
  assert (Hn : forall l m i, m !! i = None -> dropped l m !! i = None) by (intros [] n i H; cbn; rewrite ?lookup_fmap, H; done).
  rewrite !map_disjoint_alt. intros Hd i. destruct (Hd i); auto.
Qed.

Lemma put_bans theirs m ty (bs : list Ban) : foldl (put_member theirs) m (map (IBan ty) bs) = m.
Proof. by induction bs. Qed.

Lemma put_members theirs ml : forall m,
  foldl (put_member theirs) m (map (fun p => IMember p.1 p.2) ml) = m ∪ (list_to_map (prod_map Datatypes.id (fun s : cstring => if theirs then [] else s) <$> ml) : gmap positive cstring).
Proof.
  induction ml as [|[u s] ml IH]; intros m; [symmetry; apply map_union_empty|]. cbn [map foldl fst snd]. rewrite IH. apply map_eq. intros k. cbn [put_member].
  rewrite fmap_cons. cbn [list_to_map foldr prod_map fst snd Datatypes.id]. change (foldr _ _ ?l) with (list_to_map (M := gmap positive cstring) l).
  rewrite !lookup_union. case_bool_decide as Hm; destruct (decide (k = u)) as [->|Hne]; rewrite ?lookup_insert_eq, ?(lookup_insert_ne _ u k) by done; try done.
  - destruct Hm as [x ->]. cbn. by destruct (list_to_map _ !! u).
  - destruct (m !! u) as [x|] eqn:E0; [destruct Hm; eauto|]. cbn. by destruct (list_to_map _ !! u).
Qed.

Lemma items_members theirs m ml ch : ml ≡ₚ map_to_list (mc_members ch) ->
  foldl (put_member theirs) m (chan_items ml ch) = m ∪ dropped theirs (mc_members ch).
Proof.
  intros Hml. unfold chan_items. rewrite !foldl_app, !put_bans, put_members. f_equal.
  assert (Hnd : NoDup ml.*1) by (rewrite Hml; apply NoDup_fst_map_to_list). rewrite list_to_map_fmap.
  assert (Heq : list_to_map ml = mc_members ch) by (rewrite <- (list_to_map_to_list (mc_members ch)); by apply list_to_map_proper). rewrite Heq.
  unfold dropped. destruct theirs; [done|]. apply map_fmap_id.
Qed.

Lemma bans_in_app ty xs ys : bans_in ty (xs ++ ys) = bans_in ty xs ++ bans_in ty ys.
Proof. apply omap_app. Qed.

Lemma bans_in_list ty ty' bs : bans_in ty (map (IBan ty') bs) = if bool_decide (ty' = ty) then bs else [].
Proof. induction bs as [|b bs IH]; [by case_bool_decide|]. cbn [map bans_in omap list_omap]. unfold bans_in in IH. rewrite IH. by case_bool_decide. Qed.

Lemma items_bans ty ml ch : bans_in ty (chan_items ml ch) = get_list ty (mc_bans ch).
Proof.
  unfold chan_items. rewrite !bans_in_app, !bans_in_list. assert (bans_in ty (map (fun m => IMember m.1 m.2) ml) = []) as -> by (by induction ml).
  destruct ty; cbn; by rewrite ?app_nil_r.
Qed.

Lemma put_all l : list_ok l -> foldl put ∅ l = to_map l.
Proof.
  intros Hl. rewrite to_map_put by done. apply put_perm; [by rewrite reverse_Permutation|]. intros x y Hx Hy Hk _.
  apply (NoDup_fmap_inj (key ∘ banstr) l); [apply Hl|done..].
Qed.

(** The lists of both. *)
Lemma lists_joined l l' : list_ok l -> list_ok l' -> (forall x y, x ∈ l ++ l' -> y ∈ l ++ l' -> compat x y) ->
  foldl put (to_map l) l' = foldl put (to_map l') l.
Proof.
  intros Hl Hl' Hc. rewrite !to_map_put, <- !foldl_app by done. apply put_perm.
  - rewrite !reverse_Permutation. apply Permutation_app_comm.
  - intros x y. rewrite reverse_Permutation. apply Hc.
Qed.

(** What the servers have in common: the table of the modes. *)
Record env_ok (E : mode_env) : Prop := {
  en_table : table_ok (e_handlers E);
  en_cmodes : cmodes_ok (h_cm <$> e_handlers E);
  en_max : 1 <= e_maxbans E;
  en_prefix h : h ∈ e_handlers E -> ctype (h_cm h) = CMODE_MEMBER -> sjoin_prefix (h_cm h) ∉ [60; 32];
  en_public : hooks_public E;
  en_blank h : h ∈ e_handlers E -> h_letter h <> ch_space;
  en_secureonly h : find_handler E 122 = Some h -> shared E h
}.

(** The same channel, but for the modes that are local and the order of the lists. *)
Record same_channel (E : mode_env) (x y : schan) : Prop := {
  sm_ts : sc_ts x = sc_ts y;
  sm_name : h_name (mc_bans (sc_chan x)) = h_name (mc_bans (sc_chan y));
  sm_members : mc_members (sc_chan x) = mc_members (sc_chan y);
  sm_set h : shared E h -> cm_set (mc_mode (sc_chan x)) h = cm_set (mc_mode (sc_chan y)) h;
  sm_params h : shared E h -> is_Some (i_param (h_info h)) -> cm_set (mc_mode (sc_chan x)) h = true ->
    mc_params (sc_chan x) !! h_letter h = mc_params (sc_chan y) !! h_letter h;
  sm_lists ty : get_list ty (mc_bans (sc_chan x)) ≡ₚ get_list ty (mc_bans (sc_chan y))
}.

Lemma joint_sym E a b h : joint E a b h = joint E b a h.
Proof. unfold joint. by rewrite (orb_comm (cm_set a h)), (orb_comm (has a _)). Qed.

Lemma joint_param_sym E a b h ph : env_ok E -> chan_ok E a -> chan_ok E b -> shared E h -> i_param (h_info h) = Some ph ->
  joint E (mc_mode a) (mc_mode b) h = true -> joint_param ph a b h = joint_param ph b a h.
Proof.
  intros HE Ha Hb Hh Hp Hj. unfold joint_param. destruct (param_count E (en_table E HE) h ph (proj1 Hh) Hp) as [_ Hlaws].
  apply andb_prop in Hj as [Hj _]. destruct (cm_set (mc_mode a) h) eqn:E1, (cm_set (mc_mode b) h) eqn:E2; try done. cbn [andb].
  destruct (param_word E a h ph (ch_modes E a Ha) Hh Hp E1) as [_ (_ & _ & Ka & _)], (param_word E b h ph (ch_modes E b Hb) Hh Hp E2) as [_ (_ & _ & Kb & _)].
  by apply winner_sym.
Qed.

(** The results on both sides are the same, once the members are. *)
Lemma merged_same E P P' ta tb a b ma mb t u m : env_ok E -> chan_ok E a -> chan_ok E b -> h_name (mc_bans a) = h_name (mc_bans b) ->
  (forall ty x y, x ∈ get_list ty (mc_bans a) ++ get_list ty (mc_bans b) -> y ∈ get_list ty (mc_bans a) ++ get_list ty (mc_bans b) -> compat x y) ->
  merged E P ta tb a b (chan_items mb b) t -> merged E P' tb ta b a (chan_items ma a) u ->
  same_channel E (MkSChan (Z.min ta tb) (set_members t m)) (MkSChan (Z.min ta tb) (set_members u m)).
Proof.
  intros HE Ha Hb Hname Hcomp [T1 T2 T3 T4 T5 T6] [U1 U2 U3 U4 U5 U6]. split; cbn [sc_ts sc_chan set_members mc_bans mc_mode mc_params mc_members].
  - done.
  - by rewrite T1, U1.
  - done.
  - intros h Hh. rewrite T2, U2 by done. destruct (Z.ltb_spec tb ta), (Z.ltb_spec ta tb); try done; [lia|apply joint_sym].
  - intros h Hh [ph Hp] Hs. pose proof (T2 h Hh) as Hset. rewrite Hs in Hset. pose proof (U2 h Hh) as Hset'. rewrite (T3 h ph), (U3 h ph); try done.
    + destruct (Z.ltb_spec tb ta), (Z.ltb_spec ta tb); try done; [lia|]. f_equal. by apply (joint_param_sym E).
    + rewrite Hset'. destruct (Z.ltb_spec tb ta), (Z.ltb_spec ta tb); try done; [lia|by rewrite joint_sym].
  - intros ty. apply to_map_perm; [done..|]. rewrite T6, U6, !items_bans.
    pose proof (lists_joined _ _ (ch_lists E a Ha ty) (ch_lists E b Hb ty) (Hcomp ty)) as Hj. rewrite !put_all by (by apply Ha || by apply Hb).
    destruct (Z.ltb_spec tb ta), (Z.ltb_spec ta tb); try done. lia.
Qed.

(** The KICKs of the other server. *)
Abbreviation without ks m := (base.filter (fun p : positive * cstring => p.1 ∉ (ks : list positive)) (m : gmap positive cstring)).

Lemma without_lookup (ks : list positive) (m : gmap positive cstring) i : without ks m !! i = if bool_decide (i ∈ ks) then None else m !! i.
Proof.
  case_bool_decide as Hi.
  - apply map_lookup_filter_None. right. intros x _ Hn. by apply Hn.
  - destruct (m !! i) as [x|] eqn:E; [by apply map_lookup_filter_Some|]. apply map_lookup_filter_None. by left.
Qed.

Lemma kicks_handled E D ids ts ks : forall ch, (forall u, u ∈ ks -> d_find_user D (ids u) = Some u) -> (exists u, is_Some (mc_members ch !! u) /\ u ∉ ks) ->
  foldl (cmd_kick E D) (Some (MkSChan ts ch)) (ids <$> ks) = Some (MkSChan ts (set_members ch (without ks (mc_members ch)))).
Proof.
  induction ks as [|k ks IH]; intros ch Hk (u & Hu & Hn).
  - cbn [fmap list_fmap foldl]. do 2 f_equal. destruct ch as [bans mode params members last]. unfold set_members. cbn. f_equal. apply map_eq. intros i. by rewrite without_lookup.
  - rewrite fmap_cons. cbn [foldl]. apply not_elem_of_cons in Hn as [Hne Hn]. unfold cmd_kick at 2. rewrite (Hk k ltac:(left)). cbn [sc_chan sc_ts set_members mc_members mc_mode].
    assert (Hnext : forall c', mc_members c' = delete k (mc_members ch) -> set_members c' (without ks (delete k (mc_members ch))) = set_members c' (without (k :: ks) (mc_members ch))).
    { intros c' _. f_equal. apply map_eq. intros i. rewrite !without_lookup. destruct (decide (i = k)) as [->|Hi]; [rewrite (bool_decide_true (k ∈ k :: ks)), lookup_delete_eq by left; by case_bool_decide|].
      rewrite lookup_delete_ne by done. assert (Hd : bool_decide (i ∈ k :: ks) = bool_decide (i ∈ ks)) by (apply bool_decide_ext; rewrite elem_of_cons; tauto). by rewrite Hd. }
    case_bool_decide as Hmem.
    + assert (Hleft : is_Some (delete k (mc_members ch) !! u)) by (by rewrite lookup_delete_ne).
      rewrite bool_decide_false by (intros He; rewrite He in Hleft; by destruct Hleft). cbn [andb]. rewrite IH; [|intros v Hv; apply Hk; by right|by exists u].
      cbn [set_members mc_members]. do 2 f_equal. by apply (Hnext (MkMChan _ _ _ _ _)).
    + rewrite IH; [|intros v Hv; apply Hk; by right|by exists u]. do 2 f_equal. rewrite <- (delete_id (mc_members ch) k) at 1 by (by apply eq_None_not_Some). f_equal.
      apply (f_equal mc_members (Hnext (set_members ch (delete k (mc_members ch))) eq_refl)).
Qed.

(** ** The theorems *)

(** Who is kicked from [ch], which is of the time [ta], when [b] of the time [tb] arrives. *)
Definition is_kicked (E : mode_env) (P : peer) (ta tb : Z) (ch b : mchan) (u : positive) : Prop :=
  tb < ta /\ has (mc_mode b) (handler_bit E 122) = true /\ p_insecure P u = true /\ is_Some (mc_members ch !! u).

Lemma kicked_iff E P ta tb ch b u : kicks E ta tb b = true /\ p_insecure P u = true /\ is_Some (mc_members ch !! u) <-> is_kicked E P ta tb ch b u.
Proof. unfold kicks, is_kicked. rewrite andb_true_iff, Z.ltb_lt. tauto. Qed.

Lemma without_app ks ks' m : without ks' (without ks m) = without (ks ++ ks') m.
Proof.
  apply map_eq. intros i. rewrite !without_lookup. repeat case_bool_decide; try done; set_solver.
Qed.

Lemma without_perm (ks ks' : list positive) m : ks ≡ₚ ks' -> without ks m = without ks' m.
Proof. intros Hp. apply map_eq. intros i. rewrite !without_lookup. by rewrite (bool_decide_ext (i ∈ ks) (i ∈ ks')) by (by rewrite Hp). Qed.

(** The members that a line can carry. *)
Lemma members_known E D P ids mb b u : mb ≡ₚ map_to_list (mc_members b) -> Forall (item_ok E D P ids) (chan_items mb b) -> is_Some (mc_members b !! u) ->
  d_find_user D (ids u) = Some u /\ p_behind P u = true.
Proof.
  intros Hmb Hib [x Hx]. apply elem_of_map_to_list in Hx. rewrite <- Hmb in Hx. rewrite Forall_forall in Hib. destruct (Hib (IMember u x)) as (_ & _ & H1 & H2); [|done].
  unfold chan_items. apply elem_of_app. left. by apply (list_elem_of_fmap_2 (fun m => IMember m.1 m.2)) in Hx.
Qed.

Lemma dropped_some l m i : is_Some (dropped l m !! i) <-> is_Some (m !! i).
Proof. unfold dropped. destruct l; [|done]. rewrite lookup_fmap. apply fmap_is_Some. Qed.

(** The members of a server after the lines. *)
Lemma members_kept E D P ids ta tb a b mb t (ks : list positive) : mb ≡ₚ map_to_list (mc_members b) -> Forall (item_ok E D P ids) (chan_items mb b) ->
  merged E P ta tb a b (chan_items mb b) t -> (forall u, u ∈ ks <-> kicks E ta tb b = true /\ p_insecure P u = true /\ is_Some (mc_members a !! u)) ->
  mc_members t = without ks (dropped (tb <? ta) (mc_members a) ∪ dropped (ta <? tb) (mc_members b)).
Proof.
  intros Hmb Hib [_ _ _ T4 _ _] Hks. rewrite T4, items_members by done. fold (dropped (tb <? ta) (mc_members a)). apply map_eq. intros i. rewrite kept_lookup, without_lookup.
  destruct (kicks E ta tb b && p_insecure P i) eqn:Ek.
  - apply andb_prop in Ek as [Ek Hi]. case_bool_decide as Hin; [done|]. symmetry. apply lookup_union_None. split; apply eq_None_not_Some; rewrite dropped_some; intros Hs.
    + apply Hin, Hks. by split_and!.
    + destruct (members_known E D P ids mb b i Hmb Hib Hs) as [_ Hbe]. by rewrite insecure_behind in Hi.
  - rewrite bool_decide_false; [done|]. intros (H1 & H2 & _)%Hks. by rewrite H1, H2 in Ek.
Qed.

Lemma map_member (m : gmap positive cstring) : m <> ∅ -> exists u, is_Some (m !! u).
Proof. intros Hm. apply map_choose in Hm as (u & x & Hx). by exists u, x. Qed.

Lemma someone_left E P P' ta tb a b (ka kb : list positive) r : mc_members a <> ∅ -> mc_members b <> ∅ -> mc_members a ##ₘ mc_members b ->
  (forall u, u ∈ ka <-> kicks E ta tb b = true /\ p_insecure P u = true /\ is_Some (mc_members a !! u)) ->
  (forall u, u ∈ kb <-> kicks E tb ta a = true /\ p_insecure P' u = true /\ is_Some (mc_members b !! u)) ->
  mc_members r = without ka (dropped (tb <? ta) (mc_members a) ∪ dropped (ta <? tb) (mc_members b)) ->
  exists u, is_Some (mc_members r !! u) /\ u ∉ kb.
Proof.
  intros Ha Hb Hdis Hka Hkb Hr. rewrite map_disjoint_alt in Hdis. rewrite Hr. unfold kicks in *. destruct (Z.ltb_spec ta tb) as [Hlt|Hge].
  - destruct (map_member _ Ha) as [u Hu]. exists u. rewrite without_lookup. rewrite bool_decide_false by (intros ([Hk%Z.ltb_lt _]%andb_prop & _)%Hka; lia). split.
    + rewrite lookup_union_is_Some, !dropped_some. by left.
    + intros (_ & _ & Hs)%Hkb. destruct (Hdis u) as [E1|E1]; [by rewrite E1 in Hu; destruct Hu|by rewrite E1 in Hs; destruct Hs].
  - destruct (map_member _ Hb) as [u Hu]. exists u. rewrite without_lookup. rewrite bool_decide_false.
    + split; [rewrite lookup_union_is_Some, !dropped_some; by right|]. intros (Hk & _)%Hkb. done.
    + intros (_ & _ & Hs)%Hka. destruct (Hdis u) as [E1|E1]; [by rewrite E1 in Hs; destruct Hs|by rewrite E1 in Hu; destruct Hu].
Qed.

(** C1: two servers with the same modules link, and both have a channel of that name.
    Each of them sends its channel and handles the lines of the other, then each handles
    the KICKs of the other one.  Afterwards both have the same channel, but for the modes
    that are local to a server and the order of the lists: the time of the older one, the
    members of both, where those of a channel that is newer lose their rights, the modes,
    parameters and lists of the older channel, and if both are of the same age the modes of
    both (+s wins over +p), the greater parameter and the older one of two entries for a
    mask.  Users of the newer channel that are not secure are kicked on their server if the
    older channel is +z, and are gone on both.  The masks are ones that the other server
    keeps as they are, two entries for one mask that are of the same second are equal, and
    the module issecure is not loaded where a user has to be kicked. *)
Theorem sjoin_converges (E : mode_env) (ids : positive -> cstring) (D D' : directory) (P P' : peer) (now now' : Z) (id id' : cstring)
  (ma mb : list (positive * cstring)) (ta tb : Z) (a b : mchan)
  (HE : env_ok E) (HP : p_sjsby P = true) (HP' : p_sjsby P' = true) (Hid : (length id <= 9)%nat) (Hid' : (length id' <= 9)%nat)
  (Hta : 1000000 < ta < 2 ^ 63) (Htb : 1000000 < tb < 2 ^ 63)
  (Ha : chan_ok E a) (Hb : chan_ok E b) (Hn : name_ok (h_name (mc_bans b))) (Hname : h_name (mc_bans a) = h_name (mc_bans b))
  (Hma : ma ≡ₚ map_to_list (mc_members a)) (Hmb : mb ≡ₚ map_to_list (mc_members b)) (Hdis : mc_members a ##ₘ mc_members b)
  (Hia : Forall (item_ok E D' P' ids) (chan_items ma a)) (Hib : Forall (item_ok E D P ids) (chan_items mb b))
  (Hsa : forall u md, head ma = Some (u, md) -> (length md + length (ids u) <= 16)%nat)
  (Hsb : forall u md, head mb = Some (u, md) -> (length md + length (ids u) <= 16)%nat)
  (Hka : forall u, is_kicked E P ta tb a b u -> find_handler E 90 = None) (Hkb : forall u, is_kicked E P' tb ta b a u -> find_handler E 90 = None)
  (Hcomp : forall ty x y, x ∈ get_list ty (mc_bans a) ++ get_list ty (mc_bans b) -> y ∈ get_list ty (mc_bans a) ++ get_list ty (mc_bans b) -> compat x y) :
  exists la lb ra rb ka kb ra' rb',
    send_channel_modes_sjoin3 E id ids true ma (MkSChan ta a) = Some la /\ send_channel_modes_sjoin3 E id' ids true mb (MkSChan tb b) = Some lb /\
    sj_receive E D P now (Some (MkSChan ta a)) lb = Some (Some ra, ka) /\
    sj_receive E D' P' now' (Some (MkSChan tb b)) la = Some (Some rb, kb) /\
    (forall u, u ∈ ka <-> is_kicked E P ta tb a b u) /\ (forall u, u ∈ kb <-> is_kicked E P' tb ta b a u) /\
    foldl (cmd_kick E D) (Some ra) (ids <$> kb) = Some (MkSChan (Z.min ta tb) ra') /\
    foldl (cmd_kick E D') (Some rb) (ids <$> ka) = Some (MkSChan (Z.min ta tb) rb') /\
    same_channel E (MkSChan (Z.min ta tb) ra') (MkSChan (Z.min ta tb) rb') /\
    mc_members ra' = base.filter (fun p => p.1 ∉ ka ++ kb) (dropped (tb <? ta) (mc_members a) ∪ dropped (ta <? tb) (mc_members b)) /\
    (forall h, shared E h -> cm_set (mc_mode ra') h =
       if tb <? ta then cm_set (mc_mode b) h else if ta <? tb then cm_set (mc_mode a) h else joint E (mc_mode a) (mc_mode b) h) /\
    (forall ty, to_map (get_list ty (mc_bans ra')) =
       if tb <? ta then to_map (get_list ty (mc_bans b)) else if ta <? tb then to_map (get_list ty (mc_bans a))
       else foldl put (to_map (get_list ty (mc_bans a))) (get_list ty (mc_bans b))).
Proof.
  pose proof HE as [HT Hcm Hmax Hpre Hpub Hblank Hz].
  destruct (burst_received E D P now ids HT Hcm Hmax HP Hpre Hpub Hz Hblank id' mb ta tb a b) as (lb & ra & ka & Hlb & Hra & Hga & Hka'); try done; [by intros Hk u Hu Hi; apply (Hka u), kicked_iff|].
  destruct (burst_received E D' P' now' ids HT Hcm Hmax HP' Hpre Hpub Hz Hblank id ma tb ta b a) as (la & rb & kb & Hla & Hrb & Hgb & Hkb'); try done; [by rewrite Hname|by intros Hk u Hu Hi; apply (Hkb u), kicked_iff|].
  pose proof (members_kept E D P ids ta tb a b mb ra ka Hmb Hib Hga Hka') as Hmra. pose proof (members_kept E D' P' ids tb ta b a ma rb kb Hma Hia Hgb Hkb') as Hmrb.
  rewrite (map_union_comm (dropped (ta <? tb) _)) in Hmrb by (by symmetry; apply dropped_disjoint).
  set (X := dropped (tb <? ta) (mc_members a) ∪ dropped (ta <? tb) (mc_members b)) in *.
  assert (Hwa : without kb (mc_members ra) = without (ka ++ kb) X) by (rewrite Hmra; apply without_app).
  assert (Hwb : without ka (mc_members rb) = without (ka ++ kb) X) by (rewrite Hmrb, without_app; apply without_perm, Permutation_app_comm).
  rewrite (Z.min_comm tb ta) in Hrb. exists la, lb, (MkSChan (Z.min ta tb) ra), (MkSChan (Z.min ta tb) rb), ka, kb, (set_members ra (without (ka ++ kb) X)), (set_members rb (without (ka ++ kb) X)).
  split; [done|]. split; [done|]. split; [done|]. split; [done|]. split; [intros u; by rewrite Hka', kicked_iff|]. split; [intros u; by rewrite Hkb', kicked_iff|].
  split; [rewrite <- Hwa; apply kicks_handled; [intros u (_ & _ & Hu)%Hkb'; by apply (members_known E D P ids mb b)|apply (someone_left E P P' ta tb a b ka kb ra); try done; [apply Ha|apply Hb]]|].
  split; [rewrite <- Hwb; apply kicks_handled; [intros u (_ & _ & Hu)%Hka'; by apply (members_known E D' P' ids ma a)|]|].
  { apply (someone_left E P' P tb ta b a kb ka rb); try done; [apply Hb|apply Ha|]. by rewrite Hmrb, map_union_comm by (by apply dropped_disjoint). }
  split; [by apply (merged_same E P P' ta tb a b ma mb)|]. split; [done|]. destruct Hga as [_ Hset _ _ _ Hmap]. split; [done|]. intros ty. cbn [set_members mc_bans]. rewrite Hmap, items_bans. by rewrite put_all by apply Hb.
Qed.

(** C16: a server that does not have the channel makes it from the lines of another one
    and then has the same channel, in however many lines it was sent. *)
Theorem sjoin_creates (E : mode_env) (ids : positive -> cstring) (D : directory) (P : peer) (now : Z) (id : cstring)
  (u : positive) (md : cstring) (members : list (positive * cstring)) (ts : Z) (ch : mchan)
  (HE : env_ok E) (HP : p_sjsby P = true) (Hid : (length id <= 9)%nat) (Hts : 1000000 < ts < 2 ^ 63)
  (Hc : chan_ok E ch) (Hn : name_ok (h_name (mc_bans ch))) (Hnc : Forall (fun c => 33 <= c /\ c <> 44 /\ c <> 58) (h_name (mc_bans ch)))
  (Hm : (u, md) :: members ≡ₚ map_to_list (mc_members ch)) (Hi : Forall (item_ok E D P ids) (chan_items ((u, md) :: members) ch))
  (Hshort : (length md + length (ids u) <= 16)%nat) :
  exists lines t, send_channel_modes_sjoin3 E id ids true ((u, md) :: members) (MkSChan ts ch) = Some lines /\
    sj_receive E D P now None lines = Some (Some (MkSChan ts t), []) /\ same_channel E (MkSChan ts ch) (MkSChan ts t).
Proof.
  pose proof HE as [HT Hcm Hmax Hpre Hpub Hblank Hz].
  destruct (burst_created E D P now ids HT Hcm Hmax HP Hpre Hpub Hz Hblank id u md members ts ch) as (lines & t & Hsend & Hrecv & [T1 T2 T3 T4 T5 T6]); try done.
  { apply Forall_inv in Hi. destruct Hi as (Hs & _). destruct (sjoin_letters E Hcm Hpre md Hs) as (Hr & _). cbn [body].
    rewrite length_app, <- (length_map (sjoin_prefix_to_mode (h_cm <$> e_handlers E)) (modes_to_sjoin_prefix _ md)), Hr. done. }
  exists lines, t. split; [done|]. split; [done|]. rewrite (proj2 (Z.ltb_lt ts (ts + 1))) in * by lia. rewrite (proj2 (Z.ltb_ge (ts + 1) ts)) in T4 by lia.
  rewrite items_members in T4 by done. split; cbn [sc_ts sc_chan]; [done|by rewrite T1| | | |].
  - rewrite T4. cbn [new_channel mc_members dropped]. rewrite fmap_empty, map_empty_union. apply map_eq. intros i. rewrite kept_lookup. destruct (mc_members ch !! i) as [x|] eqn:Ex; [|by destruct (_ && _)].
    destruct (members_known E D P ids _ ch i Hm Hi) as [_ Hbe]; [by exists x|]. by rewrite insecure_behind, andb_false_r.
  - intros h Hh. by rewrite T2.
  - intros h Hh [ph Hp] Hs. rewrite (T3 h ph) by (done || by rewrite T2). by destruct (param_word E ch h ph (ch_modes E ch Hc) Hh Hp Hs) as [-> _].
  - intros ty. apply to_map_perm; [apply Hc|apply T5|]. rewrite T6, items_bans. symmetry. apply put_all, Hc.
Qed.

(** ** Examples *)

Definition kept_check (ph : ParamHandler) (name p : cstring) : bool :=
  ph_ok ph name p && bool_decide (ph_conv ph p = Some p) && bool_decide (ph_store ph p = p) && forallb (fun c => (32 <? c) && (c <? 127)) p &&
  negb (bool_decide (p = [])) && negb (hd 0 p =? ch_colon) && (length p <=? 200)%nat.

Definition modes_check (E : mode_env) (ch : mchan) : bool :=
  forallb (fun h => negb (cm_set (mc_mode ch) h) ||
    match i_param (h_info h), mc_params ch !! h_letter h with
    | None, _ => true
    | Some ph, Some p => kept_check ph (h_name (mc_bans ch)) p
    | Some _, None => false
    end) (e_handlers E).

Lemma modes_check_ok E ch : modes_check E ch = true -> modes_ok E ch.
Proof.
  intros Hc h ph [[Hh _] _] Hp Hs. unfold modes_check in Hc. rewrite forallb_forall in Hc. specialize (Hc h (proj1 (list_elem_of_In _ _) Hh)). rewrite Hs, Hp in Hc. cbn [negb orb] in Hc.
  destruct (mc_params ch !! h_letter h) as [p|]; [|discriminate Hc]. exists p. split; [reflexivity|]. unfold kept_check in Hc. rewrite !andb_true_iff in Hc.
  destruct Hc as ((((((H1 & H2%bool_decide_eq_true) & H3%bool_decide_eq_true) & H4) & H5) & H6) & H7). rewrite negb_true_iff in H5, H6. apply bool_decide_eq_false in H5.
  apply Z.eqb_neq in H6. apply Nat.leb_le in H7. rewrite forallb_forall in H4. split; [exact H1|]. split; [exact H2|]. split; [exact H3|]. split; [|by split].
  apply Forall_forall. intros c Hin. apply list_elem_of_In, H4, andb_prop in Hin as [Hx%Z.ltb_lt Hy%Z.ltb_lt]. unfold printable. lia.
Qed.

Definition member_mode (h : Handler) : bool := match ctype (h_cm h) with CMODE_MEMBER => true | CMODE_NORMAL => false end.

Lemma example_modes_ok : env_ok example_mode_env.
Proof.
  split.
  - exact shipped_table_ok.
  - split; apply (bool_decide_unpack _); vm_compute; exact I.
  - cbn. lia.
  - intros h Hh Ht Hin. assert (Hall : forallb (fun h => negb (bool_decide (sjoin_prefix (h_cm h) ∈ [60; 32]))) shipped_handlers = true) by (vm_compute; reflexivity).
    rewrite forallb_forall in Hall. specialize (Hall h (proj1 (list_elem_of_In _ _) Hh)). rewrite bool_decide_true in Hall by exact Hin. discriminate Hall.
  - intros h Hh Hl. assert (Hall : forallb (fun h => negb ((h_letter h =? 112) || (h_letter h =? 115)) || negb (h_local h)) shipped_handlers = true) by (vm_compute; reflexivity).
    rewrite forallb_forall in Hall. specialize (Hall h (proj1 (list_elem_of_In _ _) Hh)). destruct (h_local h); [|reflexivity]. destruct Hl as [Hl|Hl]; rewrite Hl in Hall; discriminate Hall.
  - intros h Hh Hl. assert (Hall : forallb (fun h => negb (h_letter h =? 32)) shipped_handlers = true) by (vm_compute; reflexivity).
    rewrite forallb_forall in Hall. specialize (Hall h (proj1 (list_elem_of_In _ _) Hh)). rewrite Hl in Hall. discriminate Hall.
  - intros h Hf. apply find_handler_some in Hf as [Hh Hl].
    assert (Hall : forallb (fun h => negb (h_letter h =? 122) || (negb (h_local h) && negb (member_mode h))) shipped_handlers = true) by (vm_compute; reflexivity).
    rewrite forallb_forall in Hall. specialize (Hall h (proj1 (list_elem_of_In _ _) Hh)). rewrite Hl in Hall. apply andb_prop in Hall as [H1 H2].
    split; [split; [exact Hh|]|by destruct (h_local h)]. unfold member_mode in H2. by destruct (ctype (h_cm h)).
Qed.

(** A channel +pk with an operator, and one that is +sk with an owner; the ban of the
    second one is older. *)
Definition example_ids (u : positive) : cstring := match u with 1%positive => str "001AAAAAA" | _ => str "002AAAAAA" end.
Definition example_by_id (s : cstring) : option positive :=
  if bool_decide (s = str "001AAAAAA") then Some 1%positive else if bool_decide (s = str "002AAAAAA") then Some 2%positive else None.
Definition example_users : directory := MkDirectory example_by_id example_by_id example_ids (fun _ => false).
Definition example_peer (u : positive) : peer := MkPeer (str "irc.example.org") true (fun v => if bool_decide (v = u) then There else Here false false).

Definition example_left : mchan :=
  MkMChan (MkBanChannel (str "#a") [MkBan (str "x!*@*") (str "op") 1600000005; MkBan (str "y!*@*") (str "op") 1600000006] [] [])
    (Z.lor (handler_bit example_mode_env 112) (handler_bit example_mode_env 107)) {[107 := str "alpha"]} {[1%positive := str "o"]} None.
Definition example_right : mchan :=
  MkMChan (MkBanChannel (str "#a") [MkBan (str "X!*@*") (str "owner") 1600000001] [MkBan (str "z!*@*") (str "owner") 1600000001] [])
    (Z.lor (handler_bit example_mode_env 115) (handler_bit example_mode_env 107)) {[107 := str "beta"]} {[2%positive := str "q"]} None.

(** An entry as a user sets it. *)
Definition entry_check (b : Ban) : bool :=
  negb (bool_decide (banstr b = [])) && forallb (fun c => (32 <? c) && (c <? 127)) (banstr b) && (length (banstr b) <=? MAXBANLEN)%nat &&
  contains 33 (banstr b) && contains 64 (banstr b) && negb (hd 0 (banstr b) =? 33) && forallb (fun c => (62 <? c) && (c <? 127)) (who b) &&
  (length (who b) <=? NICKLEN + USERLEN + HOSTLEN + 3)%nat && (0 <? when_ b) && (when_ b <? 2 ^ 63).

Lemma entry_check_ok E t b : entry_check b = true ->
  (forall bc, clean_ban_mask (e_conv E) (MkConvCtx false (Some bc) MODE_ADD t false) (banstr b) = Some (banstr b)) -> entry_ok E t b.
Proof.
  intros Hc Hclean. unfold entry_check in Hc. rewrite !andb_true_iff, !negb_true_iff in Hc.
  destruct Hc as (((((((((H1%bool_decide_eq_false & H2) & H3%Nat.leb_le) & H4) & H5) & H6%Z.eqb_neq) & H7) & H8%Nat.leb_le) & H9%Z.ltb_lt) & H10%Z.ltb_lt).
  rewrite forallb_forall in H2, H7.
  assert (Hb : forall c, c ∈ banstr b -> 32 < c < 127) by (intros c Hin; apply list_elem_of_In, H2, andb_prop in Hin as [?%Z.ltb_lt ?%Z.ltb_lt]; lia).
  assert (Hw : forall c, c ∈ who b -> 62 < c < 127) by (intros c Hin; apply list_elem_of_In, H7, andb_prop in Hin as [?%Z.ltb_lt ?%Z.ltb_lt]; lia).
  split; [| | |exact Hclean| |lia].
  - split; [|by split]. apply Forall_forall. intros c Hin%Hb. unfold byte_ok. lia.
  - split; [exact H1|]. intros Hin%Hb. lia.
  - right. by split.
  - split; [exact H8|]. split; intros Hin%Hw; lia.
Qed.

Definition list_check (l : list Ban) : bool := forallb entry_check l && bool_decide (NoDup (key ∘ banstr <$> l)).

Lemma list_check_ok l : list_check l = true -> list_ok l.
Proof.
  intros [Hc Hn%bool_decide_eq_true]%andb_prop. split; [|exact Hn]. rewrite forallb_forall in Hc. apply Forall_forall. intros b Hin.
  apply list_elem_of_In, Hc in Hin. unfold entry_check in Hin. rewrite !andb_true_iff, !negb_true_iff in Hin.
  destruct Hin as (((((((((H1%bool_decide_eq_false & H2) & H3%Nat.leb_le) & _) & _) & _) & _) & _) & H9%Z.ltb_lt) & _). split; [|exact H9]. split; [|by split].
  rewrite forallb_forall in H2. apply Forall_forall. intros c Hc'. apply list_elem_of_In, H2, andb_prop in Hc' as [?%Z.ltb_lt ?%Z.ltb_lt]. unfold byte_ok. lia.
Qed.

(** The checks of a channel. *)
Lemma chan_check_ok E ch : modes_check E ch = true ->
  ((length (shown E (mc_mode ch)) + length (spaced (params_for ch (shown E (mc_mode ch)))) <=? 400) && (length (params_for ch (shown E (mc_mode ch))) <=? 12))%nat = true ->
  not_both E (mc_mode ch) = true -> list_check (banlist (mc_bans ch)) && list_check (exlist (mc_bans ch)) && list_check (invexlist (mc_bans ch)) = true ->
  mc_members ch <> ∅ -> chan_ok E ch.
Proof.
  intros H1 [H2%Nat.leb_le H3%Nat.leb_le]%andb_prop H4 [[H5 H6]%andb_prop H7]%andb_prop H8. split; [by apply modes_check_ok|by split|exact H4| |exact H8].
  intros []; [by apply list_check_ok..|apply list_ok_nil].
Qed.

Lemma example_left_ok : chan_ok example_mode_env example_left.
Proof. apply chan_check_ok; [vm_compute; reflexivity..|]. intros H. apply (f_equal (lookup 1%positive)) in H. discriminate H. Qed.

Lemma example_right_ok : chan_ok example_mode_env example_right.
Proof. apply chan_check_ok; [vm_compute; reflexivity..|]. intros H. apply (f_equal (lookup 2%positive)) in H. discriminate H. Qed.

Lemma example_member u m : u = 1%positive \/ u = 2%positive -> m = str "o" \/ m = str "q" -> item_ok example_mode_env example_users (example_peer u) example_ids (IMember u m).
Proof.
  intros Hu Hm. split; [|split; [|split]].
  - split; [|split].
    + destruct Hm as [-> | ->]; apply Forall_cons; (split; [vm_compute; reflexivity|constructor]).
    + destruct Hm as [-> | ->]; repeat constructor.
    + destruct Hm as [-> | ->]; vm_compute; lia.
  - destruct Hu as [-> | ->]; (split; [split; [discriminate|apply (bool_decide_unpack _); vm_compute; exact I]|]); (split; [vm_compute; reflexivity|]); (split; [discriminate|vm_compute; lia]).
  - destruct Hu as [-> | ->]; vm_compute; reflexivity.
  - unfold p_behind. cbn [example_peer p_place]. by rewrite bool_decide_true.
Qed.

Lemma example_entry t b : entry_check b = true -> banstr b ∈ [str "x!*@*"; str "X!*@*"; str "y!*@*"; str "z!*@*"] -> entry_ok example_mode_env t b.
Proof.
  intros Hc Hb. apply entry_check_ok; [exact Hc|]. intros bc. rewrite !elem_of_cons in Hb.
  destruct Hb as [Hb|[Hb|[Hb|[Hb|Hb]]]]; [rewrite Hb; destruct t; vm_compute; reflexivity..|by apply not_elem_of_nil in Hb].
Qed.

Lemma example_items u m ch : u = 1%positive \/ u = 2%positive -> m = str "o" \/ m = str "q" ->
  forallb (fun b => entry_check b && bool_decide (banstr b ∈ [str "x!*@*"; str "X!*@*"; str "y!*@*"; str "z!*@*"])) (banlist (mc_bans ch) ++ exlist (mc_bans ch) ++ invexlist (mc_bans ch)) = true ->
  Forall (item_ok example_mode_env example_users (example_peer u) example_ids) (chan_items [(u, m)] ch).
Proof.
  intros Hu Hm Hb. rewrite !forallb_app, !andb_true_iff, !forallb_forall in Hb. destruct Hb as (H1 & H2 & H3).
  assert (Hl : forall t l, t <> EXBTYPE_TKL -> (forall b, In b l -> entry_check b && bool_decide (banstr b ∈ [str "x!*@*"; str "X!*@*"; str "y!*@*"; str "z!*@*"]) = true) ->
    Forall (item_ok example_mode_env example_users (example_peer u) example_ids) (map (IBan t) l)).
  { intros t l Ht Hall. apply Forall_map, Forall_forall. intros b Hin%list_elem_of_In%Hall. apply andb_prop in Hin as [Hc Hs%bool_decide_eq_true]. split; [exact Ht|]. by apply example_entry. }
  unfold chan_items. constructor; [by apply example_member|]. cbn [map app fst snd]. rewrite !Forall_app. split; [|split]; by apply Hl.
Qed.

#[export] Instance ban_eq_dec : EqDecision Ban.
Proof. solve_decision. Defined.

Definition compat_check (l : list Ban) : bool :=
  forallb (fun x => forallb (fun y => negb (bool_decide (key (banstr x) = key (banstr y))) || negb (when_ x =? when_ y) || bool_decide (x = y)) l) l.

Lemma compat_check_ok l : compat_check l = true -> forall x y, x ∈ l -> y ∈ l -> compat x y.
Proof.
  intros Hc x y Hx%list_elem_of_In Hy%list_elem_of_In Hk Ht. unfold compat_check in Hc. rewrite forallb_forall in Hc. specialize (Hc x Hx). rewrite forallb_forall in Hc. specialize (Hc y Hy).
  rewrite bool_decide_true, Ht, Z.eqb_refl in Hc by exact Hk. by apply bool_decide_eq_true in Hc.
Qed.

(** The two channels are merged: +s wins over +p, the key "beta" over "alpha", and the
    older ban stays. *)
Lemma sjoin_converges_witness : exists la lb ra rb,
  la = [str " 1700000000 #a +kp alpha :@001AAAAAA <1600000005,op>&x!*@* <1600000006,op>&y!*@* "] /\
  lb = [str " 1700000000 #a +ks beta :*002AAAAAA <1600000001,owner>&X!*@* <1600000001,owner>" ++ [34] ++ str "z!*@* "] /\
  sj_receive example_mode_env example_users (example_peer 2) 9 (Some (MkSChan 1700000000 example_left)) lb = Some (Some (MkSChan 1700000000 ra), []) /\
  sj_receive example_mode_env example_users (example_peer 1) 9 (Some (MkSChan 1700000000 example_right)) la = Some (Some (MkSChan 1700000000 rb), []) /\
  same_channel example_mode_env (MkSChan 1700000000 ra) (MkSChan 1700000000 rb) /\ mc_members ra = {[1%positive := str "o"; 2%positive := str "q"]}.
Proof.
  destruct (sjoin_converges example_mode_env example_ids example_users example_users (example_peer 2) (example_peer 1) 9 9 (str "001") (str "002")
    [(1%positive, str "o")] [(2%positive, str "q")] 1700000000 1700000000 example_left example_right) as (la & lb & ra & rb & ka & kb & ra' & rb' & H1 & H2 & H3 & H4 & Hka & Hkb & H5 & H6 & H7 & H8 & _).
  - exact example_modes_ok.
  - reflexivity.
  - reflexivity.
  - vm_compute. lia.
  - vm_compute. lia.
  - lia.
  - lia.
  - exact example_left_ok.
  - exact example_right_ok.
  - split; [reflexivity|]. split; [apply (bool_decide_unpack _); vm_compute; exact I|vm_compute; lia].
  - reflexivity.
  - reflexivity.
  - reflexivity.
  - apply map_disjoint_singleton_l_2, lookup_singleton_ne. discriminate.
  - apply example_items; [left; reflexivity|left; reflexivity|vm_compute; reflexivity].
  - apply example_items; [right; reflexivity|right; reflexivity|vm_compute; reflexivity].
  - intros u md [= <- <-]. vm_compute. lia.
  - intros u md [= <- <-]. vm_compute. lia.
  - intros u (Hlt & _). lia.
  - intros u (Hlt & _). lia.
  - intros ty. apply compat_check_ok. destruct ty; vm_compute; reflexivity.
  - assert (Hea : ka = []) by (destruct ka as [|u ka]; [reflexivity|]; destruct (proj1 (Hka u) ltac:(left)) as (Hlt & _); lia).
    assert (Heb : kb = []) by (destruct kb as [|u kb]; [reflexivity|]; destruct (proj1 (Hkb u) ltac:(left)) as (Hlt & _); lia).
    subst ka kb. injection H5 as ->. injection H6 as ->. rewrite Z.min_id in H3, H4, H7.
    exists la, lb, ra', rb'. split; [|split; [|split; [exact H3|split; [exact H4|split; [exact H7|]]]]].
    + apply (inj Some). rewrite <- H1. vm_compute. reflexivity.
    + apply (inj Some). rewrite <- H2. vm_compute. reflexivity.
    + rewrite H8. vm_compute. reflexivity.
Defined.

(** A user who is not secure is on the newer channel, and the older one is +z: without the
    module issecure he is kicked on both servers; with it his server has a fault. *)
Definition env_without (c : Z) (E : mode_env) : mode_env :=
  MkModeEnv (base.filter (fun h => h_letter h <> c) (e_handlers E)) (e_conv E) (e_groups E) (e_maxbans E) (e_restrict E) (e_services E).

Definition users_on (c : option schan) : list positive := match c with Some c => fst <$> map_to_list (mc_members (sc_chan c)) | None => [] end.
Definition after_sync (r : option (option schan * list positive)) : option (list positive * list positive) := '(c, ks) ← r; Some (users_on c, ks).

Example sync_kicks_insecure :
  let line := str " 1600000000 #a +z :@002AAAAAA " in
  let mine := str " 1700000000 #a +p :@001AAAAAA " in
  let E := env_without 90 example_mode_env in
  let right := MkSChan 1600000000 (set_mode_bits example_right (handler_bit E 122)) in
  after_sync (sj_receive E example_users (example_peer 2) 9 (Some (MkSChan 1700000000 example_left)) [line]) = Some ([2%positive], [1%positive]) /\
  after_sync (sj_receive E example_users (example_peer 1) 9 (Some right) [mine]) = Some ([2%positive; 1%positive], []) /\
  ('(c, _) ← sj_receive E example_users (example_peer 1) 9 (Some right) [mine]; Some (users_on (cmd_kick E example_users c (str "001AAAAAA")))) = Some [2%positive] /\
  sj_receive example_mode_env example_users (example_peer 2) 9 (Some (MkSChan 1700000000 example_left)) [line] = None.
Proof. vm_compute. repeat split. Qed.

Lemma sjoin_creates_witness : exists t,
  sj_receive example_mode_env example_users (example_peer 1) 9 None [str " 1700000000 #a +kp alpha :@001AAAAAA <1600000005,op>&x!*@* <1600000006,op>&y!*@* "] = Some (Some (MkSChan 1700000000 t), []) /\
  same_channel example_mode_env (MkSChan 1700000000 example_left) (MkSChan 1700000000 t).
Proof.
  destruct (sjoin_creates example_mode_env example_ids example_users (example_peer 1) 9 (str "001") 1 (str "o") [] 1700000000 example_left) as (lines & t & H1 & H2 & H3).
  - exact example_modes_ok.
  - reflexivity.
  - vm_compute. lia.
  - lia.
  - exact example_left_ok.
  - split; [reflexivity|]. split; [apply (bool_decide_unpack _); vm_compute; exact I|vm_compute; lia].
  - repeat constructor; discriminate.
  - reflexivity.
  - apply example_items; [left; reflexivity|left; reflexivity|vm_compute; reflexivity].
  - vm_compute. lia.
  - exists t. split; [|exact H3]. assert (Hl : lines = [str " 1700000000 #a +kp alpha :@001AAAAAA <1600000005,op>&x!*@* <1600000006,op>&y!*@* "]); [|rewrite <- Hl; exact H2].
    apply (inj Some). rewrite <- H1. vm_compute. reflexivity.
Defined.
