(* ===== verification/Tags.v ===== *)
(** * Message tags (src/modules/message-tags.c)

    A message may start with tags, "\@name=value;name ...".  The file has the text form
    ([message_tag_escape], [message_tag_unescape], [parse_message_tags],
    [mtags_to_string]), the registry of src/api-messagetag.c and the handlers of the
    modules, which say who may send and who gets a tag. *)
From S2P Require Import Prelude Chars Strings Client MatchUser ModeLine.

Definition SERVER_TAG_SIZE_LIMIT : nat := Z.to_nat 8191.
Definition CLIENT_TAG_SIZE_LIMIT : nat := Z.to_nat 4094.
Definition MSGIDLEN : nat := 22.
Definition MAXBATCHREFLEN : nat := 48.

Record MessageTag := MkTag { tag_name : cstring; tag_value : option cstring }.

(** ** Escaping *)

Fixpoint message_tag_unescape (s : cstring) : cstring :=
  match s with
  | [] => []
  | 92 :: t =>
      match t with
      | [] => []
      | c :: t => (if c =? 58 then 59 else if c =? 115 then 32 else if c =? 114 then 13 else if c =? 110 then 10 else c) :: message_tag_unescape t
      end
  | c :: t => c :: message_tag_unescape t
  end.

(** [room] is [end - o]. *)
Fixpoint message_tag_escape (s : cstring) (room : nat) : cstring :=
  match s with
  | [] => []
  | c :: t =>
      if contains c [59; 32; 92; 13; 10] then
        if (room <? 3)%nat then []
        else 92 :: (if c =? 59 then 58 else if c =? 32 then 115 else if c =? 92 then 92 else if c =? 13 then 114 else 110) :: message_tag_escape t (room - 2)
      else if (room <? 2)%nat then [] else c :: message_tag_escape t (room - 1)
  end.

(** ** Handlers *)

Definition MTAG_HANDLER_FLAGS_NO_CAP_NEEDED : Z := 1.
Definition MTAG_HANDLER_FLAGS_FIRST_ONLY : Z := 2.

(** What the handlers look at. *)
Record tclient := MkTClient {
  tc : Client;
  tc_oper : bool;                                (** [IsOper] *)
  tc_caps : Z;                                   (** [local->caps] *)
  tc_multiline : bool;                           (** is there a multiline batch? *)
  tc_on_channel : cstring -> bool;               (** [find_channel] finds it and the client [IsMember] *)
  tc_no_mtags : bool                             (** [direction] is a server that does not [SupportMTAGS] *)
}.

Record MessageTagHandler := MkTagHandler {
  mh_name : cstring;
  mh_flags : Z;
  mh_is_ok : tclient -> cstring -> cstring -> bool;
  mh_should_send_to_client : option (tclient -> bool);
  mh_cap : option Z;                             (** [clicap_handler->cap] *)
  mh_unloaded : bool
}.

Definition strcasecmp_eq (a b : cstring) : bool := bool_decide (map tolower a = map tolower b).

Definition MessageTagHandlerFind (hs : list MessageTagHandler) (name : cstring) : option MessageTagHandler :=
  List.find (fun m => strcasecmp_eq name (mh_name m)) hs.

Inductive tag_error := TAG_ABORT | TAG_EXISTS.

(** [MessageTagHandlerAdd]; a request that is not consistent aborts the program. *)
Definition replace_handler (m : MessageTagHandler) (hs : list MessageTagHandler) : list MessageTagHandler :=
  (fix go hs := match hs with
                | [] => []
                | h :: hs => if strcasecmp_eq (mh_name m) (mh_name h)
                             then MkTagHandler (mh_name h) (mh_flags m) (mh_is_ok m) (mh_should_send_to_client m) (mh_cap m) false :: hs
                             else h :: go hs
                end) hs.

Definition MessageTagHandlerAdd (hs : list MessageTagHandler) (req : MessageTagHandler) : list MessageTagHandler + tag_error :=
  let no_cap := has (mh_flags req) MTAG_HANDLER_FLAGS_NO_CAP_NEEDED in
  let cap := bool_decide (is_Some (mh_cap req)) in
  if (no_cap && cap) || (negb no_cap && negb cap) then inr TAG_ABORT
  else
    match MessageTagHandlerFind hs (mh_name req) with
    | Some m => if mh_unloaded m then inl (replace_handler req hs) else inr TAG_EXISTS
    | None => inl (MkTagHandler (mh_name req) (mh_flags req) (mh_is_ok req) (mh_should_send_to_client req) (mh_cap req) false :: hs)
    end.

(** [MessageTagHandlerDel]; during a rehash the handler stays for the module that is
    loaded again. *)
Definition MessageTagHandlerDel (rehashing : bool) (hs : list MessageTagHandler) (name : cstring) : list MessageTagHandler :=
  (fix go hs := match hs with
                | [] => []
                | h :: hs => if strcasecmp_eq name (mh_name h)
                             then if rehashing then MkTagHandler (mh_name h) (mh_flags h) (mh_is_ok h) (mh_should_send_to_client h) (mh_cap h) true :: hs else hs
                             else h :: go hs
                end) hs.

Definition unload_all_unused_mtag_handlers (hs : list MessageTagHandler) : list MessageTagHandler := List.filter (fun h => negb (mh_unloaded h)) hs.

(** ** In and out *)

Section tags.
Context (hs : list MessageTagHandler) (CAP_MESSAGE_TAGS : Z).

Definition message_tag_ok (client : tclient) (name value : cstring) : bool :=
  match MessageTagHandlerFind hs name with
  | None => IsServer (tc client) || negb (MyConnect (tc client))
  | Some m => mh_is_ok m client name value
  end.

(** One "name=value" or "name". *)
Definition parse_element (client : tclient) (l : list MessageTag) (element : cstring) : list MessageTag :=
  let '(name, value) := match strchr 61 element with
                        | Some (n, v) => (message_tag_unescape n, message_tag_unescape v)
                        | None => (message_tag_unescape element, [])
                        end in
  if message_tag_ok client name value then MkTag name (match value with [] => None | _ => Some value end) :: l else l.

(** [parse_message_tags]: the rest of the line and the list of tags. *)
Definition parse_message_tags (client : tclient) (line : cstring) (l : list MessageTag) : cstring * list MessageTag :=
  match strchr ch_space line with
  | None => ([], l)
  | Some (tags, rest) =>
      if ((if IsServer (tc client) then SERVER_TAG_SIZE_LIMIT else CLIENT_TAG_SIZE_LIMIT) <? length tags)%nat then ([], l)
      else (rest, foldl (parse_element client) l (tokens [59] (tl tags)))
  end.

Definition client_accepts_tag (token : cstring) (client : tclient) : bool :=
  if IsServer (tc client) || negb (MyConnect (tc client)) then true
  else
    match MessageTagHandlerFind hs token with
    | None => false
    | Some m =>
        if match mh_should_send_to_client m with Some f => negb (f client) | None => false end then false
        else if has (tc_caps client) CAP_MESSAGE_TAGS then true
        else if has (mh_flags m) MTAG_HANDLER_FLAGS_NO_CAP_NEEDED then false
        else match mh_cap m with Some cap => has (tc_caps client) cap | None => false end
    end.

(** One tag with its semicolon, as [snprintf] writes it into [tbuf]. *)
Definition tag_text (m : MessageTag) : cstring :=
  let name := message_tag_escape (tag_name m) (Z.to_nat 8192) in
  take (Z.to_nat 4093) (match tag_value m with
                       | Some v => name ++ [61] ++ message_tag_escape v (Z.to_nat 8192) ++ [59]
                       | None => name ++ [59]
                       end).

Definition mtags_to_string (l : list MessageTag) (client : option tclient) : option cstring :=
  if bool_decide (l = []) then None
  else if match client with Some c => tc_no_mtags c | None => false end then None
  else
    let buf := foldl (fun buf m => if match client with Some c => negb (client_accepts_tag (tag_name m) c) | None => false end then buf
                                   else (strlcat buf (tag_text m) (Z.to_nat 4096)).1) [] l in
    if bool_decide (buf = []) then None else Some (removelast buf).

(** ** Lists of tags (src/misc.c) *)

Definition find_mtag (l : list MessageTag) (token : cstring) : option MessageTag := List.find (fun m => bool_decide (tag_name m = token)) l.

Definition duplicate_mtags_for_subsequent_lines (l : list MessageTag) : list MessageTag :=
  List.filter (fun m => match MessageTagHandlerFind hs (tag_name m) with Some h => negb (has (mh_flags h) MTAG_HANDLER_FLAGS_FIRST_ONLY) | None => true end) l.
End tags.

(** ** The handlers of the modules *)

Definition BadPtr (s : cstring) : bool := bool_decide (s = []).

(** The bits of the capabilities. *)
Record tag_caps := MkTagCaps {
  CAP_ACCOUNT_TAG : Z; CAP_SERVER_TIME : Z; CAP_BATCH : Z; CAP_LABELED_RESPONSE : Z;
  CAP_JSON_LOG : Z; CAP_MULTILINE : Z; CAP_CHATHISTORY : Z
}.

Section shipped.
Context (caps : tag_caps).

Definition server_only (c : tclient) (_ _ : cstring) : bool := IsServer (tc c).
Definition server_or_oper (c : tclient) : bool := IsServer (tc c) || tc_oper c.
Definition no_cap (name : String.string) (first_only : bool) (ok : tclient -> cstring -> cstring -> bool) (send : option (tclient -> bool)) : MessageTagHandler :=
  MkTagHandler (str name) (if first_only then Z.lor MTAG_HANDLER_FLAGS_NO_CAP_NEEDED MTAG_HANDLER_FLAGS_FIRST_ONLY else MTAG_HANDLER_FLAGS_NO_CAP_NEEDED) ok send None false.
Definition with_cap (name : String.string) (cap : Z) (ok : tclient -> cstring -> cstring -> bool) (send : option (tclient -> bool)) : MessageTagHandler :=
  MkTagHandler (str name) 0 ok send (Some cap) false.

Definition msgid_mtag_is_ok (c : tclient) (_ value : cstring) : bool := IsServer (tc c) && negb (BadPtr value).
Definition server_time_mtag_is_ok (c : tclient) (_ value : cstring) : bool := IsServer (tc c) && negb (BadPtr value).
Definition real_quit_reason_should_send (c : tclient) : bool := IsServer (tc c).

Definition labeled_response_mtag_is_ok (c : tclient) (_ value : cstring) : bool :=
  if BadPtr value then false
  else if IsServer (tc c) then true
  else if MyUser (tc c) && (negb (has (tc_caps c) (CAP_LABELED_RESPONSE caps)) || negb (has (tc_caps c) (CAP_BATCH caps))) then false
  else (length value <=? 64)%nat.

Definition ti_mtag_is_ok (_ : tclient) (_ value : cstring) : bool :=
  negb (BadPtr value) && (bool_decide (value = str "active") || bool_decide (value = str "paused") || bool_decide (value = str "done")).

(** [value] is never NULL. *)
Definition bottag_mtag_is_ok (c : tclient) (_ value : cstring) : bool := IsServer (tc c) && false.

Definition valid_batch_reference_tag (ref : cstring) : bool :=
  negb (BadPtr ref || (MAXBATCHREFLEN <? length ref)%nat) && forallb (fun c => isalnum c || (c =? 45)) ref.

Definition batch_mtag_is_ok (c : tclient) (_ value : cstring) : bool :=
  IsServer (tc c) || (MyUser (tc c) && negb (BadPtr value) && valid_batch_reference_tag value).

Definition replytag_mtag_is_ok (_ : tclient) (_ value : cstring) : bool :=
  negb (BadPtr value) && (length value =? MSGIDLEN)%nat && forallb isalnum value.

Definition json_log_mtag_is_ok (c : tclient) (_ _ : cstring) : bool := IsServer (tc c) || IsMe (tc c).
Definition json_log_should_send (c : tclient) : bool :=
  IsServer (tc c) || (MyConnect (tc c) && tc_oper c && has (tc_caps c) (CAP_JSON_LOG caps)).

Definition chancontext_mtag_is_ok (c : tclient) (_ value : cstring) : bool :=
  negb (BadPtr value) && (if MyUser (tc c) then tc_on_channel c value else true).

Definition multiline_concat_mtag_is_ok (c : tclient) (_ value : cstring) : bool :=
  BadPtr value && (IsServer (tc c) || (MyUser (tc c) && tc_multiline c)).

Definition userhost_handler : MessageTagHandler := no_cap "unrealircd.org/userhost" false server_only (Some server_or_oper).
Definition userip_handler : MessageTagHandler := no_cap "unrealircd.org/userip" false server_only (Some server_or_oper).
Definition geoip_handler : MessageTagHandler := no_cap "unrealircd.org/geoip" false server_only (Some server_or_oper).
Definition issued_by_handler : MessageTagHandler := no_cap "unrealircd.org/issued-by" false server_only (Some server_or_oper).
Definition real_quit_reason_handler : MessageTagHandler := no_cap "unrealircd.org/real-quit-reason" false server_only (Some real_quit_reason_should_send).
Definition json_log_handler : MessageTagHandler := with_cap "unrealircd.org/json-log" (CAP_JSON_LOG caps) json_log_mtag_is_ok (Some json_log_should_send).
Definition msgid_handler : MessageTagHandler := no_cap "msgid" true msgid_mtag_is_ok None.
Definition time_handler : MessageTagHandler := with_cap "time" (CAP_SERVER_TIME caps) server_time_mtag_is_ok None.
Definition account_handler : MessageTagHandler := with_cap "account" (CAP_ACCOUNT_TAG caps) server_only None.
Definition bot_handler : MessageTagHandler := no_cap "bot" false bottag_mtag_is_ok None.
Definition chathistory_end_handler : MessageTagHandler := with_cap "draft/chathistory-end" (CAP_CHATHISTORY caps) server_only None.
Definition label_handler : MessageTagHandler := with_cap "label" (CAP_LABELED_RESPONSE caps) labeled_response_mtag_is_ok None.
Definition batch_handler : MessageTagHandler := with_cap "batch" (CAP_BATCH caps) batch_mtag_is_ok None.
Definition typing_handler : MessageTagHandler := no_cap "+typing" false ti_mtag_is_ok None.
Definition draft_typing_handler : MessageTagHandler := no_cap "+draft/typing" false ti_mtag_is_ok None.
Definition reply_handler : MessageTagHandler := no_cap "+reply" true replytag_mtag_is_ok None.
Definition draft_reply_handler : MessageTagHandler := no_cap "+draft/reply" true replytag_mtag_is_ok None.
Definition channel_context_handler : MessageTagHandler := no_cap "+draft/channel-context" false chancontext_mtag_is_ok None.
Definition multiline_concat_handler : MessageTagHandler := with_cap "draft/multiline-concat" (CAP_MULTILINE caps) multiline_concat_mtag_is_ok None.

Definition shipped_tags : list MessageTagHandler :=
  [userhost_handler; userip_handler; geoip_handler; issued_by_handler; real_quit_reason_handler; json_log_handler; msgid_handler; time_handler; account_handler;
   bot_handler; chathistory_end_handler; label_handler; batch_handler; typing_handler; draft_typing_handler; reply_handler; draft_reply_handler;
   channel_context_handler; multiline_concat_handler].
End shipped.

Example unescape_ex : message_tag_unescape (str "a\sb\:\\\x\") = str "a b;\x".
Proof. reflexivity. Qed.
Example escape_ex : message_tag_escape (str "a b;\") 8 = str "a\sb\:".
Proof. reflexivity. Qed.

(** ** The text form *)

Definition escape_char (c : Z) : cstring :=
  if contains c [59; 32; 92; 13; 10] then [92; if c =? 59 then 58 else if c =? 32 then 115 else if c =? 92 then 92 else if c =? 13 then 114 else 110] else [c].

Definition escaped (s : cstring) : cstring := concat (map escape_char s).

Lemma escape_char_shape c : (exists d, escape_char c = [92; d] /\ contains c [59; 32; 92; 13; 10] = true /\ d ∈ [58; 115; 92; 114; 110]) \/ (escape_char c = [c] /\ c ∉ [59; 32; 92; 13; 10]).
Proof.
  unfold escape_char. destruct (contains c [59; 32; 92; 13; 10]) eqn:Hc; [left|right].
  - eexists. split; [reflexivity|]. split; [done|]. rewrite !elem_of_cons. bdestr; tauto.
  - split; [done|]. intros Hin%contains_spec. congruence.
Qed.

Lemma escape_prefix s : forall room, exists n, message_tag_escape s room = escaped (take n s).
Proof.
  induction s as [|c s IH]; intros room; cbn [message_tag_escape]; [by exists 0%nat|]. assert (Hone : forall n, escaped (take (S n) (c :: s)) = escape_char c ++ escaped (take n s)) by done.
  destruct (contains c [59; 32; 92; 13; 10]) eqn:Hc.
  - destruct (room <? 3)%nat; [by exists 0%nat|]. destruct (IH (room - 2)%nat) as [n ->]. exists (S n). rewrite Hone. unfold escape_char. by rewrite Hc.
  - destruct (room <? 2)%nat; [by exists 0%nat|]. destruct (IH (room - 1)%nat) as [n ->]. exists (S n). rewrite Hone. unfold escape_char. by rewrite Hc.
Qed.

Lemma escape_full s : forall room, (length (escaped s) < room)%nat -> message_tag_escape s room = escaped s.
Proof.
  induction s as [|c s IH]; intros room Hr; [done|]. cbn [message_tag_escape]. unfold escaped in *. cbn [map concat] in *. rewrite length_app in Hr. unfold escape_char at 1 in Hr.
  unfold escape_char at 1. destruct (contains c [59; 32; 92; 13; 10]); cbn [length] in Hr.
  - rewrite (proj2 (Nat.ltb_ge _ _)) by lia. rewrite IH by lia. done.
  - rewrite (proj2 (Nat.ltb_ge _ _)) by lia. rewrite IH by lia. done.
Qed.

Lemma escape_length s : forall room, (length (message_tag_escape s room) <= room - 1)%nat.
Proof.
  induction s as [|c s IH]; intros room; cbn [message_tag_escape]; [simpl; lia|]. destruct (contains _ _).
  - destruct (Nat.ltb_spec room 3); [simpl; lia|]. cbn [length]. specialize (IH (room - 2)%nat). lia.
  - destruct (Nat.ltb_spec room 2); [simpl; lia|]. cbn [length]. specialize (IH (room - 1)%nat). lia.
Qed.

Lemma unescape_escaped s : message_tag_unescape (escaped s) = s.
Proof.
  induction s as [|c s IH]; [done|]. unfold escaped in *. cbn [map concat]. destruct (escape_char_shape c) as [(d & Hd & Hc & _)|[Hd Hc]].
  - unfold escape_char in *. rewrite Hc in *. injection Hd as Hd. cbn [app message_tag_unescape]. rewrite IH. f_equal. apply contains_spec in Hc. rewrite !elem_of_cons in Hc.
    destruct Hc as [->|[->|[->|[->|[->|Hc]]]]]; try reflexivity. by apply not_elem_of_nil in Hc.
  - rewrite Hd. rewrite !not_elem_of_cons in Hc. destruct Hc as (_ & _ & H92 & _). cbn [app message_tag_unescape]. rewrite IH.
    destruct (decide (c = 92)); [done|]. by repeat case_match.
Qed.

(** What escaping never leaves in a text. *)
Lemma escaped_chars s c : c ∈ escaped s -> c ∉ [59; 32; 13; 10] /\ (c = 61 -> 61 ∈ s).
Proof.
  intros Hin. unfold escaped in Hin. apply list_elem_of_In, in_concat in Hin as (x & Hx & Hcx). apply in_map_iff in Hx as (d & <- & Hd). apply list_elem_of_In in Hcx, Hd.
  destruct (escape_char_shape d) as [(e & He & _ & Hde)|[He Hne]]; rewrite He in Hcx.
  - rewrite !elem_of_cons in Hcx. rewrite !elem_of_cons in Hde. rewrite !not_elem_of_cons. destruct Hcx as [->|[->|Hn]]; [split; [split_and!; try lia; apply not_elem_of_nil|lia]| |by apply not_elem_of_nil in Hn].
    destruct Hde as [->|[->|[->|[->|[->|Hn]]]]]; try (split; [split_and!; try lia; apply not_elem_of_nil|lia]). by apply not_elem_of_nil in Hn.
  - apply list_elem_of_singleton in Hcx as ->. rewrite !not_elem_of_cons in Hne. rewrite !not_elem_of_cons. split; [tauto|]. by intros ->.
Qed.

(** Words that end with a separator. *)
Definition ended (d : Z) (ws : list cstring) : cstring := concat (map (fun w => w ++ [d]) ws).

Lemma split_on_word d w rest : d ∉ w -> split_on [d] (w ++ d :: rest) = w :: split_on [d] rest.
Proof.
  induction w as [|c w IH]; intros Hn; cbn [app split_on].
  - unfold is_sep, contains. cbn. by rewrite Z.eqb_refl.
  - apply not_elem_of_cons in Hn as [Hc Hn]. rewrite IH by done. unfold is_sep, contains. cbn. by rewrite (proj2 (Z.eqb_neq c d)) by done.
Qed.

Lemma tokens_ended d ws : Forall (fun w => w <> [] /\ d ∉ w) ws -> ws <> [] -> tokens [d] (removelast (ended d ws)) = ws.
Proof.
  intros Hw Hne. destruct (exists_last Hne) as (vs & w & ->). unfold ended. rewrite map_app, concat_app. cbn [map concat]. rewrite app_nil_r, app_assoc, removelast_last.
  clear Hne. apply Forall_app in Hw as [Hv Hw]. rewrite Forall_singleton in Hw. destruct Hw as [Hwn Hwd]. unfold tokens.
  induction Hv as [|v vs [Hvn Hvd] _ IH]; cbn [map concat app].
  - assert (split_on [d] w = [w]) as ->.
    { clear Hwn. induction w as [|c w IH]; [done|]. apply not_elem_of_cons in Hwd as [Hc Hwd]. cbn [split_on]. rewrite IH by done. unfold is_sep, contains. cbn. by rewrite (proj2 (Z.eqb_neq c d)) by done. }
    cbn [List.filter]. by destruct w.
  - rewrite <- !app_assoc. cbn [app]. rewrite split_on_word by done. cbn [List.filter]. destruct v; [done|]. cbn [nonempty]. f_equal. exact IH.
Qed.

(** A tag as a server sends it, in front of its semicolon. *)
Definition element_of (m : MessageTag) : cstring :=
  escaped (tag_name m) ++ match tag_value m with Some v => 61 :: escaped v | None => [] end.

Record tag_ok (m : MessageTag) : Prop := {
  tg_name : tag_name m <> [];
  tg_equals : 61 ∉ tag_name m;
  tg_value : tag_value m <> Some [];
  tg_length : (length (element_of m) < 4093)%nat
}.

Lemma tag_text_ok m : tag_ok m -> tag_text m = element_of m ++ [59].
Proof.
  intros [_ _ _ Hl]. unfold tag_text, element_of in *. destruct (tag_value m) as [v|].
  - rewrite length_app in Hl. cbn [length] in Hl. rewrite !escape_full by lia. rewrite take_ge by (rewrite !length_app; cbn [length]; lia). by rewrite <- app_assoc.
  - rewrite app_nil_r in *. rewrite escape_full by lia. apply take_ge. rewrite length_app. cbn [length]. lia.
Qed.

Lemma element_chars m c : c ∈ element_of m -> c ∉ [59; 32; 13; 10].
Proof.
  unfold element_of. intros [Hin|Hin]%elem_of_app; [by apply escaped_chars in Hin as [? _]|]. destruct (tag_value m) as [v|]; [|by apply not_elem_of_nil in Hin].
  apply elem_of_cons in Hin as [->|Hin]; [|by apply escaped_chars in Hin as [? _]]. rewrite !not_elem_of_cons. split_and!; try lia. apply not_elem_of_nil.
Qed.

Lemma element_word m d : tag_ok m -> d ∈ [59; 32; 13; 10] -> element_of m <> [] /\ d ∉ element_of m.
Proof.
  intros Hm Hd. split; [|by intros Hin%element_chars]. pose proof (tg_name m Hm) as Hn. unfold element_of. destruct (tag_name m) as [|c s]; [done|]. unfold escaped. cbn [map concat].
  destruct (escape_char_shape c) as [(e & He & _)|[He _]]; by rewrite He.
Qed.

Section roundtrip.
Context (hs : list MessageTagHandler).

Lemma element_parsed c l m : tag_ok m ->
  parse_element hs c l (element_of m) = if message_tag_ok hs c (tag_name m) (default [] (tag_value m)) then m :: l else l.
Proof using Type.
  intros [_ Heq Hv _]. unfold parse_element, element_of. assert (Hno : 61 ∉ escaped (tag_name m)) by (intros Hin; apply escaped_chars in Hin as [_ Hin]; by apply Heq, Hin).
  destruct m as [name [v|]]; cbn [tag_name tag_value default from_option] in *.
  - assert (Hs : strchr 61 (escaped name ++ 61 :: escaped v) = Some (escaped name, escaped v)) by (by apply strchr_some). rewrite Hs, !unescape_escaped. by destruct v.
  - rewrite app_nil_r. assert (Hs : strchr 61 (escaped name) = None) by (by apply strchr_none). by rewrite Hs, unescape_escaped.
Qed.

Definition received (c : tclient) (l : list MessageTag) : list MessageTag :=
  List.filter (fun m => message_tag_ok hs c (tag_name m) (default [] (tag_value m))) l.

Lemma elements_parsed c l : Forall tag_ok l -> forall acc, foldl (parse_element hs c) acc (map element_of l) = reverse (received c l) ++ acc.
Proof using Type.
  intros Hl. induction Hl as [|m l Hm _ IH]; intros acc; [done|]. cbn [map foldl]. rewrite element_parsed, IH by done. unfold received. cbn [List.filter].
  destruct (message_tag_ok _ _ _ _); [|done]. by rewrite reverse_cons, <- app_assoc.
Qed.

Context (cap : Z).

Definition sent (c : tclient) (l : list MessageTag) : list MessageTag := List.filter (fun m => client_accepts_tag hs cap (tag_name m) c) l.

Lemma text_sent c l : Forall tag_ok l -> (length (ended 59 (map element_of (sent c l))) < 4096)%nat ->
  mtags_to_string hs cap l (Some c) = if tc_no_mtags c || bool_decide (sent c l = []) then None else Some (removelast (ended 59 (map element_of (sent c l)))).
Proof using Type.
  intros Hl Hlen. unfold mtags_to_string. case_bool_decide as Hnil; [subst l; cbn; by rewrite orb_true_r|]. destruct (tc_no_mtags c); [done|]. cbn [orb].
  assert (Hf : forall buf, (length buf + length (ended 59 (map element_of (sent c l))) < 4096)%nat ->
    foldl (fun buf m => if negb (client_accepts_tag hs cap (tag_name m) c) then buf else (strlcat buf (tag_text m) (Z.to_nat 4096)).1) buf l = buf ++ ended 59 (map element_of (sent c l))).
  { clear Hnil Hlen. induction Hl as [|m l Hm _ IH]; intros buf Hb; cbn [foldl]; [unfold ended; cbn; by rewrite app_nil_r|]. unfold sent in *. cbn [List.filter] in *.
    destruct (client_accepts_tag _ _ _ _); cbn [negb]; [|by apply IH]. unfold ended in *. cbn [map concat] in *. rewrite tag_text_ok by done. rewrite length_app in Hb.
    assert (Hs : (strlcat buf (element_of m ++ [59]) (Z.to_nat 4096)).1 = buf ++ element_of m ++ [59]).
    { rewrite strlcat_take by lia. apply take_ge. rewrite length_app. lia. }
    rewrite Hs, IH by (rewrite length_app; lia). by rewrite <- !app_assoc. }
  rewrite (Hf []) by (cbn; lia). cbn [app]. destruct (sent c l) as [|m ms]; [done|]. rewrite !bool_decide_false; [done|done|]. unfold ended. cbn. by destruct (element_of m).
Qed.
End roundtrip.

(** ** The properties *)

(** C17: tags survive the way over a link.  What [mtags_to_string] writes for another
    server (only the tags that it may get) is read there by [parse_message_tags] as the same
    tags, in reverse order and less those that a handler refuses, whatever bytes their
    values have; the rest of the line is what follows the blank.  There is no text exactly
    if there is no tag to send. *)
Theorem tags_roundtrip (hs hs' : list MessageTagHandler) (cap : Z) (to from : tclient) (l : list MessageTag) (rest : cstring)
  (Hl : Forall tag_ok l) (Hlen : (length (ended 59 (map element_of (sent hs cap to l))) < 4096)%nat) (Hfrom : IsServer (tc from) = true) :
  match mtags_to_string hs cap l (Some to) with
  | None => tc_no_mtags to = true \/ sent hs cap to l = []
  | Some s => parse_message_tags hs' from ([64] ++ s ++ [ch_space] ++ rest) [] = (rest, reverse (received hs' from (sent hs cap to l)))
  end.
Proof.
  rewrite text_sent by done. destruct (tc_no_mtags to); [by left|]. case_bool_decide as Hn; [by right|]. cbn [orb].
  set (s := removelast (ended 59 (map element_of (sent hs cap to l)))).
  assert (Hok : Forall tag_ok (sent hs cap to l)) by (apply Forall_forall; intros m Hm; rewrite Forall_forall in Hl; apply Hl; unfold sent in Hm; apply list_elem_of_In, filter_In in Hm as [Hm _]; by apply list_elem_of_In).
  assert (Hsub : forall c, c ∈ s -> c = 59 \/ exists m, tag_ok m /\ c ∈ element_of m).
  { intros c Hc. assert (Hin : c ∈ ended 59 (map element_of (sent hs cap to l))).
    { unfold s in Hc. destruct (decide (ended 59 (map element_of (sent hs cap to l)) = [])) as [E|E]; [rewrite E in Hc; by apply not_elem_of_nil in Hc|]. rewrite (app_removelast_last 0 E). apply elem_of_app. by left. }
    unfold ended in Hin. apply list_elem_of_In, in_concat in Hin as (x & Hx & Hcx). rewrite map_map in Hx. apply in_map_iff in Hx as (m & <- & Hm). apply list_elem_of_In in Hm, Hcx.
    rewrite Forall_forall in Hok. apply elem_of_app in Hcx as [Hcx|Hcx%list_elem_of_singleton]; [right; by exists m; auto|by left]. }
  unfold parse_message_tags. assert (Hs : strchr ch_space ([64] ++ s ++ [ch_space] ++ rest) = Some ([64] ++ s, rest)).
  { apply strchr_some. split; [by rewrite <- app_assoc|]. intros [Hin%list_elem_of_singleton|Hin]%elem_of_app; [done|]. apply Hsub in Hin as [Hin|(m & _ & Hin)]; [done|].
    apply element_chars in Hin. rewrite !not_elem_of_cons in Hin. tauto. }
  rewrite Hs, Hfrom. assert (Hlim : (SERVER_TAG_SIZE_LIMIT <? length (64%Z :: s))%nat = false).
  { apply Nat.ltb_ge. unfold SERVER_TAG_SIZE_LIMIT. cbn [length]. unfold s. rewrite removelast_firstn_len, length_firstn. lia. }
  cbn [app]. rewrite Hlim. f_equal. cbn [tl app]. unfold s. rewrite tokens_ended.
  - rewrite elements_parsed by done. by rewrite app_nil_r.
  - apply Forall_map. eapply Forall_impl; [exact Hok|]. intros m Hm. apply element_word; [done|]. left.
  - intros Hm%map_eq_nil. done.
Qed.

(** The tags that users may send, and their values. *)
Definition user_tag (c : tclient) (name value : cstring) : Prop :=
  name = str "label" /\ value <> [] /\ (length value <= 64)%nat \/
  name = str "batch" /\ valid_batch_reference_tag value = true \/
  name ∈ [str "+typing"; str "+draft/typing"] /\ value ∈ [str "active"; str "paused"; str "done"] \/
  name ∈ [str "+reply"; str "+draft/reply"] /\ length value = MSGIDLEN /\ forallb isalnum value = true \/
  name = str "+draft/channel-context" /\ tc_on_channel c value = true \/
  name = str "draft/multiline-concat" /\ value = [] /\ tc_multiline c = true.

(** Tags that tell about users. *)
Definition private_tags : list cstring :=
  [str "unrealircd.org/userhost"; str "unrealircd.org/userip"; str "unrealircd.org/geoip"; str "unrealircd.org/issued-by"; str "unrealircd.org/json-log"].

Lemma find_handler_in hs name h : MessageTagHandlerFind hs name = Some h -> In h hs /\ map tolower name = map tolower (mh_name h).
Proof. intros [Hin He]%find_some. split; [done|]. unfold strcasecmp_eq in He. by apply bool_decide_eq_true in He. Qed.

Lemma IsServer_user c : MyUser c = true -> IsServer c = false /\ MyConnect c = true /\ IsMe c = false.
Proof.
  unfold MyUser, IsUser, IsServer, IsMe. intros [Hm Hu%bool_decide_eq_true]%andb_prop. rewrite Hu. by split.
Qed.

(** A tag that is accepted from a user. *)
Lemma user_tag_ok caps c name value : MyUser (tc c) = true -> message_tag_ok (shipped_tags caps) c name value = true -> user_tag c (map tolower name) value.
Proof.
  intros Hu. destruct (IsServer_user _ Hu) as (Hns & Hmc & Hme). unfold message_tag_ok. destruct (MessageTagHandlerFind _ _) as [h|] eqn:Hf; [|by rewrite Hns, Hmc].
  apply find_handler_in in Hf as [Hin ->]. cbn [In shipped_tags] in Hin. unfold user_tag.
  repeat (destruct Hin as [<-|Hin]); [..|done]; cbv [mh_is_ok mh_name no_cap with_cap userhost_handler userip_handler geoip_handler issued_by_handler real_quit_reason_handler
    json_log_handler msgid_handler time_handler account_handler bot_handler chathistory_end_handler label_handler batch_handler typing_handler draft_typing_handler
    reply_handler draft_reply_handler channel_context_handler multiline_concat_handler server_only msgid_mtag_is_ok server_time_mtag_is_ok json_log_mtag_is_ok
    bottag_mtag_is_ok labeled_response_mtag_is_ok batch_mtag_is_ok ti_mtag_is_ok replytag_mtag_is_ok chancontext_mtag_is_ok multiline_concat_mtag_is_ok];
    rewrite ?Hns, ?Hu, ?Hme; cbn [andb orb]; try discriminate.
  - unfold BadPtr. case_bool_decide as Hv; [done|]. destruct (_ || _); [done|]. intros Hl%Nat.leb_le. left. done.
  - intros [_ Hv]%andb_prop. right. left. by split.
  - intros [_ Hv]%andb_prop. right. right. left. split; [left|]. rewrite !orb_true_iff, !bool_decide_eq_true in Hv. rewrite !elem_of_cons. tauto.
  - intros [_ Hv]%andb_prop. right. right. left. split; [right; left|]. rewrite !orb_true_iff, !bool_decide_eq_true in Hv. rewrite !elem_of_cons. tauto.
  - intros [[_ Hv%Nat.eqb_eq]%andb_prop Ha]%andb_prop. right. right. right. left. split; [left|done].
  - intros [[_ Hv%Nat.eqb_eq]%andb_prop Ha]%andb_prop. right. right. right. left. split; [right; left|done].
  - intros [_ Hv]%andb_prop. do 4 right. left. done.
  - unfold BadPtr. intros [Hv%bool_decide_eq_true Hm]%andb_prop. do 5 right. done.
Qed.

(** How much text the tags of a line have. *)
Definition tag_size (m : MessageTag) : nat := (length (tag_name m) + length (default [] (tag_value m)))%nat.

Lemma unescape_length s : (length (message_tag_unescape s) <= length s)%nat.
Proof.
  assert (H : forall n s, (length s <= n)%nat -> (length (message_tag_unescape s) <= length s)%nat); [|by apply (H (length s))].
  clear s. induction n as [|n IH]; intros s Hn; [by destruct s; [|simpl in Hn; lia]|]. destruct s as [|c s]; [done|]. cbn [length] in Hn.
  destruct (decide (c = 92)) as [->|Hc].
  - cbn [message_tag_unescape]. destruct s as [|d s]; [simpl; lia|]. cbn [length] in *. specialize (IH s ltac:(lia)). lia.
  - assert (He : message_tag_unescape (c :: s) = c :: message_tag_unescape s) by (cbn [message_tag_unescape]; by repeat case_match). rewrite He. cbn [length]. specialize (IH s ltac:(lia)). lia.
Qed.

Lemma split_on_size fs s : (sum_list_with length (split_on fs s) <= length s)%nat.
Proof.
  induction s as [|c s IH]; [done|]. cbn [split_on]. destruct (is_sep fs c); [cbn; lia|]. destruct (split_on fs s) as [|w ws]; cbn in *; lia.
Qed.

Lemma tokens_size fs s : (sum_list_with length (tokens fs s) <= length s)%nat.
Proof.
  etransitivity; [|apply (split_on_size fs)]. unfold tokens. induction (split_on fs s) as [|w ws IH]; [done|]. cbn [List.filter]. destruct (nonempty w); cbn; lia.
Qed.

Lemma element_size hs c l e : exists l', parse_element hs c l e = l' ++ l /\ (sum_list_with tag_size (l') <= length e)%nat /\
  Forall (fun m => message_tag_ok hs c (tag_name m) (default [] (tag_value m)) = true) l'.
Proof.
  unfold parse_element. destruct (match strchr 61 e with Some (n, v) => _ | None => _ end) as [name value] eqn:He.
  assert (Hlen : (length name + length value <= length e)%nat).
  { destruct (strchr 61 e) as [[n v]|] eqn:Es; injection He as <- <-.
    - apply strchr_some in Es as [-> _]. rewrite length_app. cbn [length]. pose proof (unescape_length n). pose proof (unescape_length v). lia.
    - pose proof (unescape_length e). cbn [length]. lia. }
  destruct (message_tag_ok hs c name value) eqn:Hok; [|by exists []; split; [done|split; [cbn; lia|constructor]]].
  assert (Hd : default [] match value with [] => None | _ :: _ => Some value end = value) by (by destruct value).
  eexists [_]. split; [reflexivity|]. cbn [sum_list_with]. unfold tag_size. cbn [tag_name tag_value]. rewrite Hd. split; [lia|]. constructor; [|constructor].
  cbn [tag_name tag_value]. by rewrite Hd.
Qed.

Lemma parsed_tags hs c line : let l := (parse_message_tags hs c line []).2 in
  Forall (fun m => message_tag_ok hs c (tag_name m) (default [] (tag_value m)) = true) l /\
  (sum_list_with tag_size (l) <= if IsServer (tc c) then SERVER_TAG_SIZE_LIMIT else CLIENT_TAG_SIZE_LIMIT)%nat.
Proof.
  unfold parse_message_tags. destruct (strchr ch_space line) as [[tags rest]|]; [|split; [constructor|cbn; lia]].
  destruct (Nat.ltb_spec (if IsServer (tc c) then SERVER_TAG_SIZE_LIMIT else CLIENT_TAG_SIZE_LIMIT) (length tags)) as [Hb|Hb]; [split; [constructor|cbn; lia]|]. cbn [snd].
  assert (H : forall es l, exists l', foldl (parse_element hs c) l es = l' ++ l /\ (sum_list_with tag_size (l') <= sum_list_with length (es))%nat /\
    Forall (fun m => message_tag_ok hs c (tag_name m) (default [] (tag_value m)) = true) l').
  { induction es as [|e es IH]; intros l; [by exists []; split; [done|split; [cbn; lia|constructor]]|]. cbn [foldl]. destruct (element_size hs c l e) as (l1 & -> & H1 & F1).
    destruct (IH (l1 ++ l)) as (l2 & -> & H2 & F2). exists (l2 ++ l1). split; [by rewrite app_assoc|]. split; [|by apply Forall_app].
    rewrite sum_list_with_app. cbn [sum_list_with]. lia. }
  destruct (H (tokens [59] (tl tags)) []) as (l' & -> & Hs & Hf). rewrite app_nil_r. split; [done|]. etransitivity; [exact Hs|]. etransitivity; [apply tokens_size|]. destruct tags; cbn in *; lia.
Qed.

Lemma cap_sent caps cap c token : MyUser (tc c) = true -> client_accepts_tag (shipped_tags caps) cap token c = true ->
  exists h, h ∈ shipped_tags caps /\ map tolower token = map tolower (mh_name h) /\
    match mh_should_send_to_client h with Some f => f c = true | None => True end /\
    (has (tc_caps c) cap = true \/ exists k, mh_cap h = Some k /\ has (tc_caps c) k = true).
Proof.
  intros Hu. destruct (IsServer_user _ Hu) as (Hns & Hmc & _). unfold client_accepts_tag. rewrite Hns, Hmc. cbn [orb negb].
  destruct (MessageTagHandlerFind _ _) as [h|] eqn:Hf; [|done]. apply find_handler_in in Hf as [Hin Hn]. exists h. rewrite list_elem_of_In. split; [done|]. split; [done|].
  destruct (mh_should_send_to_client h) as [f|].
  - destruct (f c); [|done]. cbn [negb] in *. split; [done|]. destruct (has (tc_caps c) cap); [by left|]. destruct (has (mh_flags h) _); [done|]. destruct (mh_cap h) as [k|]; [right; eauto|done].
  - split; [done|]. destruct (has (tc_caps c) cap); [by left|]. destruct (has (mh_flags h) _); [done|]. destruct (mh_cap h) as [k|]; [right; eauto|done].
Qed.

Lemma private_handler caps h : h ∈ shipped_tags caps -> map tolower (mh_name h) ∈ private_tags ->
  mh_should_send_to_client h = Some server_or_oper \/ mh_should_send_to_client h = Some (json_log_should_send caps).
Proof.
  intros Hin Hp. apply list_elem_of_In in Hin. cbn [In shipped_tags] in Hin. apply (bool_decide_eq_true_2 (_ ∈ _)) in Hp. revert Hp.
  repeat (destruct Hin as [<-|Hin]); [..|done]; try (intros _; by left); try (intros _; by right); vm_compute; discriminate.
Qed.

(** C23: what users can do with tags, given the handlers of the shipped modules.  A tag
    that a user sends is only kept if it is one of those for users (label, batch, typing,
    reply, channel context, multiline) with a value of the right form, so that none of the
    tags of servers can be forged, and all names and values together have no more than 4094
    bytes.  A user only gets tags if he has the capability for them; the real quit reason is
    never sent to users, and address, location and issuer only to operators. *)
Theorem tags_of_users (caps : tag_caps) (cap : Z) (c : tclient) (line : cstring) (Hu : MyUser (tc c) = true) :
  let l := (parse_message_tags (shipped_tags caps) c line []).2 in
  Forall (fun m => user_tag c (map tolower (tag_name m)) (default [] (tag_value m))) l /\ (sum_list_with tag_size l <= CLIENT_TAG_SIZE_LIMIT)%nat /\
  forall token, client_accepts_tag (shipped_tags caps) cap token c = true ->
    map tolower token <> str "unrealircd.org/real-quit-reason" /\ (map tolower token ∈ private_tags -> tc_oper c = true) /\
    (has (tc_caps c) cap = true \/ exists h k, h ∈ shipped_tags caps /\ map tolower token = map tolower (mh_name h) /\ mh_cap h = Some k /\ has (tc_caps c) k = true).
Proof.
  destruct (IsServer_user _ Hu) as (Hns & Hmc & _). destruct (parsed_tags (shipped_tags caps) c line) as [Hf Hs]. rewrite Hns in Hs. cbn zeta.
  split; [|split; [exact Hs|]]. { eapply Forall_impl; [exact Hf|]. intros m Hm. by apply (user_tag_ok caps). }
  intros token Ht. destruct (cap_sent caps cap c token Hu Ht) as (h & Hh & Hn & Hsend & Hcap). rewrite Hn. split; [|split].
  - intros Hq. assert (Hr : h = real_quit_reason_handler).
    { apply list_elem_of_In in Hh. cbn [In shipped_tags] in Hh. apply (bool_decide_eq_true_2 (_ = _)) in Hq. revert Hq. clear -Hh.
      repeat (destruct Hh as [<-|Hh]); [..|done]; try reflexivity; vm_compute; discriminate. }
    subst h. cbn in Hsend. unfold real_quit_reason_should_send in Hsend. congruence.
  - intros Hp. destruct (private_handler caps h Hh Hp) as [E|E]; rewrite E in Hsend; [unfold server_or_oper in Hsend|unfold json_log_should_send in Hsend]; rewrite Hns in Hsend; cbn [orb] in Hsend; [done|].
    by apply andb_prop in Hsend as [[_ ?]%andb_prop _].
  - destruct Hcap as [?|(k & Hk & Hc)]; [by left|right]. by exists h, k.
Qed.

(** ** Examples *)

Definition example_caps : tag_caps := MkTagCaps 2 4 8 16 32 64 128.
Definition example_local : LocalClient := MkLocal 0 0 0 0 false 0 None (Traffic 0 0) 0 0.
Definition tag_sender (s : ClientStatus) : Client := MkClient (str "x") [] s 0 0 1 0 [] None (Some example_local) None None.
Definition example_link : tclient := MkTClient (tag_sender CLIENT_STATUS_SERVER) false 0 false (fun _ => false) false.
Definition example_tag_user : tclient := MkTClient (tag_sender CLIENT_STATUS_USER) false (1 + 8 + 16) false (fun _ => false) false.
Definition example_tags : list MessageTag := [MkTag (str "time") (Some (str "a b;c\=")); MkTag (str "x/y") None].

Lemma tags_roundtrip_witness :
  mtags_to_string (shipped_tags example_caps) 1 example_tags (Some example_link) = Some (str "time=a\sb\:c\\=;x/y") /\
  parse_message_tags (shipped_tags example_caps) example_link (str "@time=a\sb\:c\\=;x/y PING :a") [] = (str "PING :a", reverse example_tags).
Proof.
  assert (Hs : mtags_to_string (shipped_tags example_caps) 1 example_tags (Some example_link) = Some (str "time=a\sb\:c\\=;x/y")) by (vm_compute; reflexivity).
  split; [exact Hs|].
  pose proof (tags_roundtrip (shipped_tags example_caps) (shipped_tags example_caps) 1 example_link example_link example_tags (str "PING :a")) as H. rewrite Hs in H. apply H.
  - apply Forall_cons. split; [|apply Forall_singleton]; (split; [discriminate|apply (bool_decide_unpack _); vm_compute; exact I|discriminate|apply Nat.ltb_lt; vm_compute; reflexivity]).
  - apply Nat.ltb_lt. vm_compute. reflexivity.
  - reflexivity.
Defined.

Lemma tags_of_users_witness :
  (parse_message_tags (shipped_tags example_caps) example_tag_user (str "@account=op;LABEL=1;+typing=no;batch=b PING") []).2 = [MkTag (str "batch") (Some (str "b")); MkTag (str "LABEL") (Some (str "1"))] /\
  Forall (fun m => user_tag example_tag_user (map tolower (tag_name m)) (default [] (tag_value m))) [MkTag (str "batch") (Some (str "b")); MkTag (str "LABEL") (Some (str "1"))].
Proof.
  assert (Hp : (parse_message_tags (shipped_tags example_caps) example_tag_user (str "@account=op;LABEL=1;+typing=no;batch=b PING") []).2 =
    [MkTag (str "batch") (Some (str "b")); MkTag (str "LABEL") (Some (str "1"))]) by (vm_compute; reflexivity).
  split; [exact Hp|].
  pose proof (tags_of_users example_caps 1 example_tag_user (str "@account=op;LABEL=1;+typing=no;batch=b PING") eq_refl) as H. cbv zeta in H. rewrite Hp in H. exact (proj1 H).
Defined.

(** The tag of a bot is not accepted from any server, and a tag that does not fit into the
    buffer loses its semicolon, so that the next one becomes part of its value. *)
Example tags_defects :
  parse_message_tags (shipped_tags example_caps) example_link (str "@bot PING") [] = (str "PING", []) /\
  mtags_to_string [] 1 [MkTag (str "a") (Some (replicate 4092 120)); MkTag (str "bc") None] (Some example_link) = Some (str "a=" ++ replicate 4091 120 ++ str "b").
Proof. split; vm_compute; reflexivity. Qed.
