(* ===== verification/ConfPre.v ===== *)
(** * The preprocessor of the configuration (src/conf_preprocessor.c)

    [\@define], [\@if], [\@else] and [\@endif] in configuration files: reading such a line,
    replacing variables in names and values, and resolving the conditions.  The
    environment, the modules and the files are parameters. *)
From S2P Require Import Prelude Chars Strings Lists MatchUser.

Inductive ConfigIfCondition :=
  IF_DEFINED | IF_VALUE | IF_MODULE_LOADED | IF_MODULE_EXISTS | IF_MINIMUM_VERSION | IF_FILE_EXISTS | IF_ENVIRONMENT | IF_MODULE_VERSION.

Inductive CompareOp := COMPARE_EQ | COMPARE_NE | COMPARE_GT | COMPARE_GE | COMPARE_LT | COMPARE_LE.

Inductive PreprocessorPhase := PREPROCESSOR_PHASE_INITIAL | PREPROCESSOR_PHASE_SECONDARY | PREPROCESSOR_PHASE_MODULE.

Record ConditionalConfig := MkCC {
  cc_priority : Z;
  cc_condition : ConfigIfCondition;
  cc_negative : bool;
  cc_compare_op : CompareOp;
  cc_had_else : bool;
  cc_name : cstring;
  cc_opt : option cstring
}.

Definition set_priority (cc : ConditionalConfig) (v : Z) : ConditionalConfig :=
  MkCC v (cc_condition cc) (cc_negative cc) (cc_compare_op cc) (cc_had_else cc) (cc_name cc) (cc_opt cc).

Definition flip_else (cc : ConditionalConfig) : ConditionalConfig :=
  MkCC (cc_priority cc) (cc_condition cc) (negb (cc_negative cc)) (cc_compare_op cc) true (cc_name cc) (cc_opt cc).

(** Code outside of the reader. *)
Record conf_env := MkConfEnv {
  cv_getenv : cstring -> option cstring;
  cv_module : cstring -> option (option cstring);  (** [find_testing_module] and the version of the module *)
  cv_loaded : cstring -> bool;                     (** [is_module_loaded] *)
  cv_blacklisted : cstring -> bool;                (** [is_blacklisted_module] *)
  cv_module_exists : cstring -> bool;              (** [file_exists(Module_TransformPath(name))] *)
  cv_file_exists : cstring -> bool;                (** [file_exists] of the absolute path *)
  cv_version : cstring                             (** [VERSIONONLY] *)
}.

(** [config_defines] *)
Abbreviation defines := (list nvp).

Definition find_config_define (d : defines) (name : cstring) : option nvp := find_nvplist d name.
Definition get_config_define (d : defines) (name : cstring) : option cstring := e ← find_nvplist d name; nv_value e.

Definition skip_whitespace (s : cstring) : cstring := skip_while (fun c => (c =? 32) || (c =? 9)) s.
Definition read_until (stop s : cstring) : cstring * cstring := span (fun c => negb (contains c stop)) s.
Definition isupper (c : Z) : bool := isalpha c && (c mod 256 <? 96).
Definition ValidVarCharacter (c : Z) : bool := isupper c || isdigit c || (c =? 95) || (c =? 0).
Definition starts_with (s w : cstring) : bool := strncmp_eq s w (length w).

Section preprocessor.
Context (V : conf_env).

(** ** Lines *)

Inductive PreprocessorItem :=
  | PREPROCESSOR_ERROR | PREPROCESSOR_DEFINE | PREPROCESSOR_IF (cc : ConditionalConfig) | PREPROCESSOR_ENDIF
  | PREPROCESSOR_ELSE | PREPROCESSOR_USER_ERROR | PREPROCESSOR_USER_WARNING.

Definition if_functions : list (cstring * ConfigIfCondition * bool) :=
  [(str "module-loaded", IF_MODULE_LOADED, false); (str "module-exists", IF_MODULE_EXISTS, false); (str "minimum-version", IF_MINIMUM_VERSION, false);
   (str "file-exists", IF_FILE_EXISTS, false); (str "module-version", IF_MODULE_VERSION, true); (str "environment", IF_ENVIRONMENT, true);
   (str "defined", IF_DEFINED, false)].

Definition parse_compare_op (p : cstring) : option (CompareOp * cstring) :=
  if starts_with p (str "==") then Some (COMPARE_EQ, drop 2 p)
  else if starts_with p (str "!=") then Some (COMPARE_NE, drop 2 p)
  else if starts_with p (str ">=") then Some (COMPARE_GE, drop 2 p)
  else if starts_with p (str "<=") then Some (COMPARE_LE, drop 2 p)
  else if hd 0 p =? 62 then Some (COMPARE_GT, drop 1 p)
  else if hd 0 p =? 60 then Some (COMPARE_LT, drop 1 p)
  else None.

Definition parse_compare_op_and_value (p : cstring) : option (CompareOp * cstring) :=
  '(op, p) ← parse_compare_op (skip_whitespace p);
  let p := skip_whitespace p in
  if hd 0 p =? 34 then
    let '(value, rest) := read_until [34] (tl p) in
    match rest with [] => None | _ => Some (op, value) end
  else Some (op, (read_until [32; 9] p).1).

(** The argument in parentheses, and the text behind it. *)
Definition parse_argument (p : cstring) : option (cstring * cstring) :=
  let p := skip_whitespace p in
  if negb (hd 0 p =? 40) then None
  else
    let p := skip_whitespace (tl p) in
    let p := if hd 0 p =? 34 then tl p else p in
    let '(name, rest) := read_until [41; 34] p in
    match rest with [] => None | _ :: rest => Some (name, rest) end.

Definition parse_if_function (p : cstring) (condition : ConfigIfCondition) (negative returns_value : bool) : option ConditionalConfig :=
  '(name, p) ← parse_argument p;
  if returns_value then
    let p := if hd 0 p =? 41 then tl p else p in
    let p := skip_whitespace p in
    match p with
    | [] => Some (MkCC 0 condition negative COMPARE_EQ false name None)
    | _ =>
        if negative then None
        else '(op, value) ← parse_compare_op_and_value p; Some (MkCC 0 condition negative op false name (Some value))
    end
  else Some (MkCC 0 condition negative COMPARE_EQ false name None).

Definition parse_if_value (p : cstring) (negative : bool) : option ConditionalConfig :=
  if negb (hd 0 p =? 36) then None
  else if negative then None
  else
    let '(name, p) := read_until (32 :: 9 :: str "=!<>") (tl p) in
    match p with
    | [] => None
    | _ => '(op, value) ← parse_compare_op_and_value p; Some (MkCC 0 IF_VALUE false op false name (Some value))
    end.

Definition evaluate_preprocessor_if (statement : cstring) : option ConditionalConfig :=
  let p := skip_whitespace statement in
  let p := if hd 0 p =? 64 then tl p else p in
  let '(negative, p) := if hd 0 p =? 33 then (true, skip_whitespace (tl p)) else (false, p) in
  match List.find (fun f => starts_with p f.1.1) if_functions with
  | Some (keyword, condition, returns_value) => parse_if_function (drop (length keyword) p) condition negative returns_value
  | None => parse_if_value p negative
  end.

Definition resolve_define_function (p : cstring) : option cstring :=
  match List.find (fun f => starts_with p f.1.1) if_functions with
  | Some (keyword, condition, true) =>
      '(arg, _) ← parse_argument (drop (length keyword) p);
      match condition with
      | IF_ENVIRONMENT => cv_getenv V arg
      | IF_MODULE_VERSION => version ← cv_module V arg; version
      | _ => None
      end
  | _ => None
  end.

Definition evaluate_preprocessor_define (d : defines) (statement : cstring) : option defines :=
  let '(name, p) := read_until [32; 9] (skip_whitespace statement) in
  match p with
  | [] => None
  | _ =>
      let p := skip_whitespace p in
      value ← (if hd 0 p =? 34 then
                 let '(value, rest) := read_until [34] (tl p) in
                 match rest with [] => None | _ => Some value end
               else resolve_define_function p);
      if negb (hd 0 name =? 36) then None
      else if negb (forallb ValidVarCharacter (tl name)) then None
      else if (512 <? length value)%nat then None
      else Some (add_nvplist d 0 (tl name) (Some value))
  end.

(** [parse_preprocessor_item], on the line and without the message of [\@error] or [\@warning]. *)
Definition parse_preprocessor_item (d : defines) (line : cstring) : defines * PreprocessorItem :=
  let buf := take 511 line in
  if starts_with buf (str "@define") then
    match evaluate_preprocessor_define d (drop 7 buf) with Some d => (d, PREPROCESSOR_DEFINE) | None => (d, PREPROCESSOR_ERROR) end
  else if starts_with buf (str "@if ") then
    (d, match evaluate_preprocessor_if (drop 4 buf) with Some cc => PREPROCESSOR_IF cc | None => PREPROCESSOR_ERROR end)
  else if starts_with buf (str "@else") then (d, PREPROCESSOR_ELSE)
  else if starts_with buf (str "@endif") then (d, PREPROCESSOR_ENDIF)
  else if starts_with buf (str "@error ") then (d, PREPROCESSOR_USER_ERROR)
  else if starts_with buf (str "@warning ") then (d, PREPROCESSOR_USER_WARNING)
  else (d, PREPROCESSOR_ERROR).

(** ** Conditions *)

Definition preprocessor_cc_free_level (l : list ConditionalConfig) (level : Z) : list ConditionalConfig :=
  List.filter (fun cc => negb (level <=? cc_priority cc)) l.

Definition preprocessor_cc_duplicate_list (l : list ConditionalConfig) : list ConditionalConfig := reverse l.

Definition compare_result (op : CompareOp) (cmp : Z) : bool :=
  match op with
  | COMPARE_EQ => cmp =? 0 | COMPARE_NE => negb (cmp =? 0) | COMPARE_GT => 0 <? cmp
  | COMPARE_GE => 0 <=? cmp | COMPARE_LT => cmp <? 0 | COMPARE_LE => cmp <=? 0
  end.

(** [strnatcasecmp] and the operator. *)
Definition compare_values (op : CompareOp) (a b : cstring) : option bool := compare_result op <$> strnatcasecmp a b.

(** One condition, before it is negated; [None] is the fault of comparing a variable that
    has no value. *)
Definition condition_result (d : defines) (phase : PreprocessorPhase) (cc : ConditionalConfig) : option bool :=
  match cc_condition cc with
  | IF_MODULE_LOADED =>
      Some (match phase with
            | PREPROCESSOR_PHASE_INITIAL => true
            | PREPROCESSOR_PHASE_SECONDARY => negb (cv_blacklisted V (cc_name cc))
            | PREPROCESSOR_PHASE_MODULE => cv_loaded V (cc_name cc)
            end)
  | IF_MODULE_VERSION =>
      match phase with
      | PREPROCESSOR_PHASE_MODULE =>
          match cv_module V (cc_name cc) with
          | Some (Some version) => match cc_opt cc with Some opt => compare_values (cc_compare_op cc) version opt | None => Some true end
          | _ => Some false
          end
      | _ => Some true
      end
  | IF_MODULE_EXISTS => Some (cv_module_exists V (cc_name cc))
  | IF_MINIMUM_VERSION => (fun cmp => 0 <=? cmp) <$> strnatcasecmp (cv_version V) (cc_name cc)
  | IF_FILE_EXISTS => Some (cv_file_exists V (cc_name cc))
  | IF_DEFINED => Some (bool_decide (is_Some (find_config_define d (cc_name cc))))
  | IF_ENVIRONMENT =>
      match cv_getenv V (cc_name cc) with
      | Some env => match cc_opt cc with Some opt => compare_values (cc_compare_op cc) env opt | None => Some true end
      | None => Some false
      end
  | IF_VALUE =>
      match find_config_define d (cc_name cc) with
      | Some e => value ← nv_value e; opt ← cc_opt cc; compare_values (cc_compare_op cc) value opt
      | None => Some false
      end
  end.

Fixpoint preprocessor_resolve_if (d : defines) (l : list ConditionalConfig) (phase : PreprocessorPhase) : option bool :=
  match l with
  | [] => Some true
  | cc :: l =>
      result ← condition_result d phase cc;
      if xorb result (cc_negative cc) then preprocessor_resolve_if d l phase else Some false
  end.

(** ** Variables *)

(** [n] is the room in the buffer. *)
Fixpoint replace_loop (d : defines) (fuel : nat) (i : cstring) (n : nat) : cstring :=
  match fuel with
  | O => []
  | S fuel =>
      match i with
      | [] => []
      | c :: t =>
          if negb (c =? 36) then c :: (if (n - 1 =? 0)%nat then [] else replace_loop d fuel t (n - 1))
          else
            let '(var, after) := span ValidVarCharacter t in
            let varname := take 511 (36 :: var) in
            let escape := bool_decide (var = []) && (hd 0 after =? 36) in
            let value := if escape then varname else default varname (get_config_define d (tl varname)) in
            let limit := Nat.min (length value + 1) n in
            take (limit - 1) value ++
              (if (n - limit =? 0)%nat then []
               else match after with [] => [] | _ => replace_loop d fuel (if escape then tl after else after) (n - limit) end)
      end
  end.

Definition preprocessor_replace_defines (d : defines) (item : cstring) : cstring :=
  if contains 36 item then replace_loop d (S (length item)) item (Z.to_nat 4094) else item.
End preprocessor.
