(* ===== verification/Conf.v ===== *)
(** * The reader of configuration files (src/conf.c)

    [config_parse_with_offset] and the quoting functions, with the entries it builds.  The
    file under construction is the list of finished entries, the stack of open blocks and
    the entry that is being read; a file position is what has been read of the text. *)
From S2P Require Import Prelude Chars Strings Lists MatchUser ConfPre.

(** ** Entries *)

Inductive ConfigEntry := MkEntry {
  ce_name : cstring;
  ce_value : option cstring;
  ce_items : list ConfigEntry;
  ce_line_number : Z;
  ce_file_position_start : Z;
  ce_file_position_end : Z;
  ce_section_linenumber : Z;
  ce_conditional_config : list ConditionalConfig;
  ce_escaped : bool
}.

Definition new_entry (name : cstring) (line start : Z) (cc : list ConditionalConfig) : ConfigEntry :=
  MkEntry name None [] line start 0 0 cc false.
Definition set_ce_value (v : cstring) (e : ConfigEntry) : ConfigEntry :=
  MkEntry (ce_name e) (Some v) (ce_items e) (ce_line_number e) (ce_file_position_start e) (ce_file_position_end e) (ce_section_linenumber e) (ce_conditional_config e) (ce_escaped e).
Definition set_ce_items (l : list ConfigEntry) (e : ConfigEntry) : ConfigEntry :=
  MkEntry (ce_name e) (ce_value e) l (ce_line_number e) (ce_file_position_start e) (ce_file_position_end e) (ce_section_linenumber e) (ce_conditional_config e) (ce_escaped e).
Definition set_ce_end (p : Z) (e : ConfigEntry) : ConfigEntry :=
  MkEntry (ce_name e) (ce_value e) (ce_items e) (ce_line_number e) (ce_file_position_start e) p (ce_section_linenumber e) (ce_conditional_config e) (ce_escaped e).
Definition set_ce_section_line (n : Z) (e : ConfigEntry) : ConfigEntry :=
  MkEntry (ce_name e) (ce_value e) (ce_items e) (ce_line_number e) (ce_file_position_start e) (ce_file_position_end e) n (ce_conditional_config e) (ce_escaped e).
Definition set_ce_escaped (e : ConfigEntry) : ConfigEntry :=
  MkEntry (ce_name e) (ce_value e) (ce_items e) (ce_line_number e) (ce_file_position_start e) (ce_file_position_end e) (ce_section_linenumber e) (ce_conditional_config e) true.

(** ** Quotes *)

Fixpoint unreal_del_quotes (s : cstring) : cstring :=
  match s with
  | [] => []
  | c :: t =>
      if c =? 92 then
        match t with
        | d :: t' => if (d =? 92) || (d =? 34) then d :: unreal_del_quotes t' else c :: unreal_del_quotes t
        | [] => [c]
        end
      else c :: unreal_del_quotes t
  end.

(** The loop of [unreal_add_quotes_r]; [len] is the room that is left. *)
Fixpoint add_quotes_loop (s : cstring) (len : nat) : cstring :=
  match s with
  | [] => []
  | c :: t =>
      if (c =? 34) || (c =? 92) then
        if (len <? 2)%nat then [] else 92 :: c :: add_quotes_loop t (len - 2)
      else if (len =? 0)%nat then [] else c :: add_quotes_loop t (len - 1)
  end.

(** What is left in the buffer; [None] when the buffer has no room at all. *)
Definition unreal_add_quotes_r (s : cstring) (len : nat) : option cstring :=
  match len with O => None | S O => Some [] | S len => Some (add_quotes_loop s len) end.

Definition unreal_add_quotes (s : cstring) : cstring := default [] (unreal_add_quotes_r s (Z.to_nat 2048)).

(** ** The state of the parser *)

Record pstate := MkPS {
  p_items : list ConfigEntry;    (** [curcf->items] *)
  p_secs : list ConfigEntry;     (** [cursection] and its parents *)
  p_cur : option ConfigEntry;    (** [curce] *)
  p_line : Z;                    (** [linenumber] *)
  p_errors : Z;                  (** [errors] *)
  p_level : Z;                   (** [preprocessor_level] *)
  p_cc : list ConditionalConfig; (** [cc_list] *)
  p_defs : defines               (** [config_defines] *)
}.

Definition set_cur (e : option ConfigEntry) (st : pstate) : pstate :=
  MkPS (p_items st) (p_secs st) e (p_line st) (p_errors st) (p_level st) (p_cc st) (p_defs st).
Definition set_secs (l : list ConfigEntry) (st : pstate) : pstate :=
  MkPS (p_items st) l (p_cur st) (p_line st) (p_errors st) (p_level st) (p_cc st) (p_defs st).
Definition add_lines (n : Z) (st : pstate) : pstate :=
  MkPS (p_items st) (p_secs st) (p_cur st) (p_line st + n) (p_errors st) (p_level st) (p_cc st) (p_defs st).
Definition add_error (st : pstate) : pstate :=
  MkPS (p_items st) (p_secs st) (p_cur st) (p_line st) (p_errors st + 1) (p_level st) (p_cc st) (p_defs st).
Definition set_level (n : Z) (cc : list ConditionalConfig) (st : pstate) : pstate :=
  MkPS (p_items st) (p_secs st) (p_cur st) (p_line st) (p_errors st) n cc (p_defs st).
Definition set_defs (d : defines) (st : pstate) : pstate :=
  MkPS (p_items st) (p_secs st) (p_cur st) (p_line st) (p_errors st) (p_level st) (p_cc st) d.

(** [*lastce = e]: at the end of the open block, or of the file. *)
Definition add_entry (e : ConfigEntry) (st : pstate) : pstate :=
  match p_secs st with
  | [] => MkPS (p_items st ++ [e]) [] (p_cur st) (p_line st) (p_errors st) (p_level st) (p_cc st) (p_defs st)
  | s :: l => set_secs (set_ce_items (ce_items s ++ [e]) s :: l) st
  end.

(** The entry that is being read is finished, at position [pos]. *)
Definition finish_cur (pos : Z) (e : ConfigEntry) (st : pstate) : pstate := set_cur None (add_entry (set_ce_end pos e) st).

(** What reading one item leads to: go on with the rest of the text, leave the loop, return
    [NULL] at once, or read outside of the buffer or through a null pointer. *)
Inductive outcome := Go (st : pstate) (rest : cstring) | Leave (st : pstate) | RetNull (d : defines) | Fault.

Inductive scan := Closed (body rest : cstring) | Open | Beyond.

Definition scan_cons (c : Z) (r : scan) : scan := match r with Closed b rest => Closed (c :: b) rest | r => r end.

(** The loop that looks for the end of a quoted string; [strchr] finds the end of the text
    too, so that a backslash there makes the loop step over it. *)
Fixpoint scan_quote (close : Z) (s : cstring) : scan :=
  match s with
  | [] => Open
  | c :: t =>
      if c =? 92 then
        match t with
        | [] => Beyond
        | d :: t' =>
            if (d =? 92) || (d =? 34) || (d =? 39) then scan_cons c (scan_cons d (scan_quote close t'))
            else scan_cons c (scan_quote close t)
        end
      else if c =? 10 then Open
      else if c =? close then Closed [] t
      else scan_cons c (scan_quote close t)
  end.

(** The rest after the end of a comment and the lines in it; [None] when it does not end. *)
Fixpoint skip_comment (s : cstring) (lines : Z) : option (cstring * Z) :=
  match s with
  | [] => None
  | c :: t =>
      if c =? 10 then skip_comment t (lines + 1)
      else if (c =? 42) && (hd 0 t =? 47) then Some (tl t, lines)
      else skip_comment t lines
  end.

Definition to_newline (s : cstring) : cstring * cstring := span (fun c => negb (c =? 10)) s.

Section parser.
Context (V : conf_env) (total : Z).

(** [ptr - confdata] when [s] is the text from [ptr] on. *)
Definition position (s : cstring) : Z := total - Z.of_nat (length s).

(** ** Items *)

Definition parse_semicolon (st : pstate) (s t : cstring) : outcome :=
  match p_cur st with
  | None => Go st t
  | Some e => Go (finish_cur (position s) e st) t
  end.

Definition parse_open (st : pstate) (t : cstring) : outcome :=
  match p_cur st with
  | None => Go (add_error st) t
  | Some e =>
      match ce_items e with
      | _ :: _ => Go (add_error st) t
      | [] => Go (set_cur None (set_secs (set_ce_section_line (p_line st) e :: p_secs st) st)) t
      end
  end.

Definition parse_close (st : pstate) (s t : cstring) : outcome :=
  match p_cur st, p_secs st with
  | Some _, _ => RetNull (p_defs st)
  | None, [] => Go (add_error st) t
  | None, sec :: l =>
      let sec := set_ce_end (position s) sec in
      let st := set_secs l st in
      if hd 0 t =? 59 then Go (set_cur (Some sec) st) t else Go (finish_cur (position s) sec st) t
  end.

(** Comments up to the end of the line. *)
Definition parse_line_comment (st : pstate) (t : cstring) : outcome :=
  match (to_newline t).2 with [] => Leave st | rest => Go st rest end.

Definition parse_block_comment (st : pstate) (t : cstring) : outcome :=
  match skip_comment t 0 with
  | Some (rest, lines) => Go (add_lines lines st) rest
  | None => RetNull (p_defs st)
  end.

(** A name or a value has been read; [unquote] removes the quotes of a quoted one. *)
Definition add_word (st : pstate) (start word : cstring) (unquote : cstring -> cstring) : pstate :=
  let word := unquote (preprocessor_replace_defines (p_defs st) word) in
  match p_cur st with
  | Some e => match ce_value e with Some _ => add_error st | None => set_cur (Some (set_ce_value word e)) st end
  | None => set_cur (Some (new_entry word (p_line st) (position start) (preprocessor_cc_duplicate_list (p_cc st)))) st
  end.

Definition parse_quote (st : pstate) (c : Z) (s t : cstring) : outcome :=
  let st := if c =? 39 then set_cur (set_ce_escaped <$> p_cur st) st else st in
  let st :=
    match p_cur st, p_secs st with
    | Some e, _ :: _ => if negb (ce_line_number e =? p_line st) then finish_cur (position s) e (add_error st) else st
    | _, _ => st
    end in
  let close := match p_cur st with Some e => if ce_escaped e then 39 else 34 | None => 34 end in
  match scan_quote close t with
  | Closed body rest => Go (add_word st t body unreal_del_quotes) rest
  | Open => RetNull (p_defs st)
  | Beyond => Fault
  end.

(** [\@else]: the condition of this level is reversed; [None] when it has been already. *)
Fixpoint flip_level (level : Z) (l : list ConditionalConfig) : option (list ConditionalConfig) :=
  match l with
  | [] => Some []
  | cc :: l =>
      if cc_priority cc =? level then if cc_had_else cc then None else Some (flip_else cc :: l)
      else (cons cc) <$> flip_level level l
  end.

Definition next_line (st : pstate) (rest : cstring) : outcome := match rest with [] => Leave st | _ :: rest => Go st rest end.

Definition run_directive (st : pstate) (line rest : cstring) : outcome :=
  let '(d, item) := parse_preprocessor_item V (p_defs st) line in
  let st := add_lines 1 (set_defs d st) in
  match item with
  | PREPROCESSOR_IF cc => next_line (set_level (p_level st + 1) (set_priority cc (p_level st + 1) :: p_cc st) st) rest
  | PREPROCESSOR_ELSE =>
      if p_level st =? 0 then next_line (add_error st) rest
      else match flip_level (p_level st) (p_cc st) with
           | Some l => next_line (set_level (p_level st) l st) rest
           | None => Leave (add_error st)
           end
  | PREPROCESSOR_ENDIF =>
      let st := if p_level st =? 0 then add_error st else st in
      next_line (set_level (p_level st - 1) (preprocessor_cc_free_level (p_cc st) (p_level st)) st) rest
  | PREPROCESSOR_ERROR => Leave (add_error st)
  | PREPROCESSOR_USER_ERROR => next_line (add_error st) rest
  | PREPROCESSOR_DEFINE | PREPROCESSOR_USER_WARNING => next_line st rest
  end.

Definition parse_directive (st : pstate) (s : cstring) : outcome :=
  let '(line, rest) := to_newline s in
  match (match p_cc st with [] => Some true | cc => preprocessor_resolve_if V (p_defs st) cc PREPROCESSOR_PHASE_INITIAL end) with
  | None => Fault
  | Some active =>
      if negb active && negb (starts_with s (str "@if ")) && negb (starts_with s (str "@else")) && negb (starts_with s (str "@endif")) then
        next_line (add_lines 1 st) rest
      else run_directive st line rest
  end.

Definition word_char (c : Z) : bool := negb ((c =? 32) || (c =? 9) || (c =? 10) || (c =? 59)).

(** The label [processchar]. *)
Definition parse_word (st : pstate) (s t : cstring) : outcome :=
  if (hd 0 s =? 42) && (hd 0 t =? 47) then Go st (tl t)
  else
    let '(word, rest) := span word_char s in
    match rest with
    | [] => RetNull (p_defs st)
    | c :: rest' => Go (add_word st s word Datatypes.id) (if (c =? 59) || (c =? 10) then rest else rest')
    end.

(** One turn of the loop, on the text [c :: t]. *)
Definition parse_item (st : pstate) (c : Z) (t : cstring) : outcome :=
  let s := c :: t in
  if c =? 59 then parse_semicolon st s t
  else if c =? 123 then parse_open st t
  else if c =? 125 then parse_close st s t
  else if c =? 35 then parse_line_comment st t
  else if (c =? 47) && (hd 0 t =? 47) then parse_line_comment st (tl t)
  else if (c =? 47) && (hd 0 t =? 42) then parse_block_comment st (tl t)
  else if (c =? 39) || (c =? 34) then parse_quote st c s t
  else if c =? 10 then Go (add_lines 1 st) t
  else if (c =? 9) || (c =? 32) || (c =? 61) || (c =? 13) then Go st t
  else if c =? 64 then parse_directive st s
  else parse_word st s t.

Inductive result := PFault | PNull (d : defines) | PDone (items : list ConfigEntry) (d : defines).

(** The label [breakout]. *)
Definition finish (st : pstate) : result :=
  let errors := p_errors st + match p_cur st, p_secs st with None, [] => 0 | _, _ => 1 end in
  if errors =? 0 then PDone (p_items st) (p_defs st) else PNull (p_defs st).

Fixpoint parse_loop (fuel : nat) (st : pstate) (s : cstring) : result :=
  match s with
  | [] => finish st
  | c :: t =>
      match fuel with
      | O => PFault
      | S fuel =>
          match parse_item st c t with
          | Go st rest => parse_loop fuel st rest
          | Leave st => finish st
          | RetNull d => PNull d
          | Fault => PFault
          end
      end
  end.
End parser.

Definition config_parse_with_offset (V : conf_env) (d : defines) (data : cstring) (line_offset : Z) : result :=
  parse_loop V (Z.of_nat (length data)) (length data)
    (MkPS [] [] None (1 + line_offset) 0 0 [] d) (List.map (fun c => if c =? 13 then 32 else c) data).

Definition config_parse (V : conf_env) (d : defines) (data : cstring) : result := config_parse_with_offset V d data 0.

(** ** Conditional entries *)

Section conditionals.
Context (V : conf_env) (d : defines) (phase : PreprocessorPhase).

Fixpoint resolve_entry (e : ConfigEntry) : option (list ConfigEntry) :=
  keep ← preprocessor_resolve_if V d (ce_conditional_config e) phase;
  if keep : bool then
    items ← (fix go (l : list ConfigEntry) : option (list ConfigEntry) :=
               match l with [] => Some [] | e :: l => a ← resolve_entry e; b ← go l; Some (a ++ b) end) (ce_items e);
    Some [set_ce_items items e]
  else Some [].

Fixpoint preprocessor_resolve_conditionals_ce (l : list ConfigEntry) : option (list ConfigEntry) :=
  match l with
  | [] => Some []
  | e :: l => a ← resolve_entry e; b ← preprocessor_resolve_conditionals_ce l; Some (a ++ b)
  end.
End conditionals.
