(* ===== verification/ConfSync.v ===== *)
(** * Configuration files: what is read back

    The loop of the parser as an equation, text that prints a tree of entries, and what the
    parser and the conditions make of it. *)
From S2P Require Import Prelude Chars Strings Lists MatchUser ConfPre Conf.

(** ** The loop *)

Lemma span_parts p s : (span p s).1 ++ (span p s).2 = s.
Proof. induction s as [|c s IH]; simpl; [done|]. destruct (p c); [|done]. destruct (span p s); simpl in *. by rewrite IH. Qed.

Lemma suffix_span p s : (span p s).2 `suffix_of` s.
Proof. exists (span p s).1. by rewrite span_parts. Qed.

Lemma suffix_tl {A} (s : list A) : tl s `suffix_of` s.
Proof. destruct s; [done|]. by apply suffix_cons_r. Qed.

Lemma scan_cons_closed c r b rest : scan_cons c r = Closed b rest -> exists b', r = Closed b' rest.
Proof. destruct r; simpl; intros; simplify_eq; eauto. Qed.

(** Induction for loops that may take two characters. *)
Lemma two_step_ind {A} (P : list A -> Prop) :
  P [] -> (forall c, P [c]) -> (forall c d s, P s -> P (d :: s) -> P (c :: d :: s)) -> forall s, P s.
Proof. intros H0 H1 H2. enough (forall s, P s /\ forall c, P (c :: s)) as H by (intros s; apply H). induction s as [|c s [IH1 IH2]]; split; eauto. Qed.

Lemma scan_quote_suffix close s b rest : scan_quote close s = Closed b rest -> rest `suffix_of` s.
Proof.
  revert b. induction s as [|c|c d s IH1 IH2] using two_step_ind; intros b H; [done| |].
  - cbn [scan_quote] in H. destruct (c =? 92); [done|]. destruct (c =? 10); [done|]. destruct (c =? close); simplify_eq/=. by apply suffix_cons_r.
  - apply suffix_cons_r. cbn [scan_quote] in H. destruct (c =? 92).
    + destruct (_ || _).
      * apply scan_cons_closed in H as (? & (? & ?%IH1)%scan_cons_closed). by apply suffix_cons_r.
      * apply scan_cons_closed in H as [? H]. by eapply IH2.
    + destruct (c =? 10); [done|]. destruct (c =? close); [by simplify_eq|]. apply scan_cons_closed in H as [? H]. by eapply IH2.
Qed.

(** Only a backslash at the end of the text makes the loop leave it. *)
Lemma scan_quote_beyond close s : scan_quote close s = Beyond -> last s = Some 92.
Proof.
  induction s as [|c|c d s IH1 IH2] using two_step_ind; [done|cbn [scan_quote]; repeat case_match; simpl in *; try done; by intros; f_equal; lia|].
  intros H. rewrite last_cons_cons. cbn [scan_quote] in H.
  assert (forall c r, scan_cons c r = Beyond -> r = Beyond) as Hc by (by intros ? []).
  destruct (c =? 92).
  - destruct (_ || _); apply Hc in H; [apply Hc, IH1 in H; by destruct s|by apply IH2].
  - destruct (c =? 10); [done|]. destruct (c =? close); [done|]. apply IH2. by apply Hc in H.
Qed.

Lemma skip_comment_suffix s n rest k : skip_comment s n = Some (rest, k) -> rest `suffix_of` s.
Proof.
  revert n. induction s as [|c t IH]; simpl; intros n H; [done|]. apply suffix_cons_r.
  repeat case_match; simplify_eq; eauto using suffix_tl.
Qed.

Lemma next_line_suffix st rest st' rest' : next_line st rest = Go st' rest' -> exists c, rest = c :: rest'.
Proof. destruct rest; simpl; intros; simplify_eq; eauto. Qed.

Lemma parse_line_comment_suffix st t st' rest : parse_line_comment st t = Go st' rest -> rest `suffix_of` t.
Proof. unfold parse_line_comment. pose proof (suffix_span (fun c => negb (c =? 10)) t). unfold to_newline. by destruct (span _ t).2; intros; simplify_eq. Qed.

Section loop.
Context (V : conf_env) (total : Z).

Lemma parse_directive_suffix st t st' rest : parse_directive V st (64 :: t) = Go st' rest -> rest `suffix_of` t.
Proof.
  unfold parse_directive, to_newline. cbn [span negb Z.eqb Pos.eqb]. pose proof (suffix_span (fun c => negb (c =? 10)) t) as Hs.
  destruct (span _ t) as [line r]; simpl in Hs. intros H.
  assert (exists st, next_line st r = Go st' rest) as (? & [c ->]%next_line_suffix).
  { unfold run_directive in H. destruct parse_preprocessor_item. repeat case_match; simplify_eq; eauto. }
  etrans; [|exact Hs]. by apply suffix_cons_r.
Qed.

Lemma parse_word_suffix st c t st' rest :
  word_char c = true -> parse_word total st (c :: t) t = Go st' rest -> rest `suffix_of` t.
Proof.
  unfold parse_word. intros Hc. case_match; [intros; simplify_eq; apply suffix_tl|].
  simpl. rewrite Hc. pose proof (suffix_span word_char t) as Hs. destruct (span word_char t) as [w r]; simpl in *.
  destruct r; [done|]. case_match; intros; simplify_eq; [done|]. etrans; [|exact Hs]. by apply suffix_cons_r.
Qed.

(** Every turn of the loop consumes text. *)
Lemma parse_item_suffix st c t st' rest : parse_item V total st c t = Go st' rest -> rest `suffix_of` t.
Proof.
  unfold parse_item. intros H.
  destruct (c =? 59) eqn:E1; [unfold parse_semicolon in H; by case_match; simplify_eq|].
  destruct (c =? 123); [unfold parse_open in H; by repeat case_match; simplify_eq|].
  destruct (c =? 125); [unfold parse_close in H; by repeat case_match; simplify_eq|].
  destruct (c =? 35); [by apply parse_line_comment_suffix in H|].
  destruct (_ && _); [apply parse_line_comment_suffix in H; etrans; [exact H|apply suffix_tl]|].
  destruct (_ && _).
  { unfold parse_block_comment in H. destruct (skip_comment _ _) as [[]|] eqn:E; simplify_eq.
    apply skip_comment_suffix in E. etrans; [exact E|apply suffix_tl]. }
  destruct (_ || _).
  { unfold parse_quote in H. destruct (scan_quote _ t) eqn:E; simplify_eq. by apply scan_quote_suffix in E. }
  destruct (c =? 10) eqn:E2; [by simplify_eq|].
  destruct (_ || _) eqn:E3; [by simplify_eq|].
  destruct (c =? 64) eqn:E4; [apply Z.eqb_eq in E4 as ->; by eapply parse_directive_suffix|].
  eapply parse_word_suffix; [|done]. unfold word_char. lia.
Qed.

Lemma parse_item_length st c t st' rest : parse_item V total st c t = Go st' rest -> (length rest <= length t)%nat.
Proof. intros H%parse_item_suffix. by apply suffix_length. Qed.

Lemma parse_loop_fuel fuel fuel' st s :
  (length s <= fuel)%nat -> (length s <= fuel')%nat -> parse_loop V total fuel st s = parse_loop V total fuel' st s.
Proof.
  revert fuel' st s. induction fuel as [|fuel IH]; intros [|fuel'] st [|c t]; simpl; intros; try lia; try done.
  destruct (parse_item V total st c t) eqn:E; try done. apply parse_item_length in E. apply IH; lia.
Qed.

Definition run (st : pstate) (s : cstring) : result := parse_loop V total (length s) st s.

Lemma run_cons st c t :
  run st (c :: t) =
    match parse_item V total st c t with Go st rest => run st rest | Leave st => finish st | RetNull d => PNull d | Fault => PFault end.
Proof.
  unfold run. simpl. destruct (parse_item V total st c t) eqn:E; try done. apply parse_item_length in E. by apply parse_loop_fuel.
Qed.
End loop.

(** ** Words *)

(** The quoting of [unreal_add_quotes] without the size of its buffer. *)
Definition quote (s : cstring) : cstring := flat_map (fun c => if (c =? 34) || (c =? 92) then [92; c] else [c]) s.

(** A dollar sign is written twice. *)
Definition dollars (s : cstring) : cstring := flat_map (fun c => if c =? 36 then [36; 36] else [c]) s.

(** A word that fits on a line and in the buffer of [unreal_add_quotes]. *)
Definition word_ok (s : cstring) : bool :=
  forallb (fun c => negb ((c =? 0) || (c =? 10) || (c =? 13))) s && (length (quote s) <=? Z.to_nat 2047)%nat.

Definition print_word (s : cstring) : cstring := 34 :: dollars (unreal_add_quotes s) ++ [34].

Lemma add_quotes_loop_fits s len : (length (quote s) <= len)%nat -> add_quotes_loop s len = quote s.
Proof.
  revert len. induction s as [|c s IH]; simpl; intros len H; [done|].
  destruct ((c =? 34) || (c =? 92)); simpl in *.
  - destruct (len <? 2)%nat eqn:E; [apply Nat.ltb_lt in E; lia|]. do 2 f_equal. apply IH. lia.
  - destruct len; simpl; [lia|]. f_equal. apply IH. lia.
Qed.

Lemma unreal_add_quotes_quote s : word_ok s = true -> unreal_add_quotes s = quote s.
Proof.
  intros [_ H%Nat.leb_le]%andb_prop. unfold unreal_add_quotes, unreal_add_quotes_r.
  replace (Z.to_nat 2048) with (S (S (Z.to_nat 2046))) by (vm_compute; reflexivity). simpl. apply add_quotes_loop_fits. lia.
Qed.

Lemma del_quotes_quote s : unreal_del_quotes (quote s) = s.
Proof.
  induction s as [|c s IH]; simpl; [done|]. destruct ((c =? 34) || (c =? 92)) eqn:E; simpl.
  - replace ((c =? 92) || (c =? 34)) with true by lia. by rewrite IH.
  - apply orb_false_iff in E as [E1 E2]. rewrite E2. by rewrite IH.
Qed.

Lemma scan_quote_dollars s rest :
  forallb (fun c => negb ((c =? 0) || (c =? 10) || (c =? 13))) s = true ->
  scan_quote 34 (dollars (quote s) ++ 34 :: rest) = Closed (dollars (quote s)) rest.
Proof.
  induction s as [|c s IH]; intros Hs; [done|]. cbn [forallb] in Hs. apply andb_prop in Hs as [Hc Hs]. specialize (IH Hs).
  unfold quote, dollars in *. cbn [flat_map]. rewrite flat_map_app, <- app_assoc.
  destruct ((c =? 34) || (c =? 92)) eqn:E.
  - cbn [flat_map app]. replace (92 =? 36) with false by done. replace (c =? 36) with false by lia. cbn [app scan_quote Z.eqb].
    replace ((c =? 92) || (c =? 34) || (c =? 39)) with true by lia. cbn -[flat_map]. by rewrite IH.
  - cbn [flat_map app]. apply orb_false_iff in E as [E1 E2]. destruct (c =? 36) eqn:E3.
    + cbn -[flat_map]. by rewrite IH.
    + cbn -[flat_map]. rewrite E1, E2, IH. by replace (c =? 10) with false by lia.
Qed.

Lemma replace_loop_dollar d fuel t n :
  (2 <= n)%nat ->
  replace_loop d (S fuel) (36 :: 36 :: t) n = 36 :: (if (n - 2 =? 0)%nat then [] else replace_loop d fuel t (n - 2)).
Proof.
  intros Hn. cbn [replace_loop negb Z.eqb Pos.eqb]. replace (span ValidVarCharacter (36 :: t)) with (([] : cstring, 36 :: t)) by reflexivity.
  cbn -[Nat.min Nat.sub]. rewrite Nat.min_l by lia. reflexivity.
Qed.

Lemma replace_loop_dollars d s fuel n :
  (length (dollars s) < fuel)%nat -> (length (dollars s) <= n)%nat -> replace_loop d fuel (dollars s) n = s.
Proof.
  revert fuel n. induction s as [|c s IH]; intros [|fuel] n Hf Hn; try (simpl in *; lia); [done|].
  unfold dollars in *. cbn [flat_map] in *. rewrite length_app in Hf, Hn. destruct (c =? 36) eqn:E.
  - apply Z.eqb_eq in E as ->. cbn [app length] in *. rewrite replace_loop_dollar by lia. f_equal. destruct (n - 2 =? 0)%nat eqn:E.
    + apply Nat.eqb_eq in E. destruct s; [done|]. simpl in Hn. rewrite length_app in Hn. repeat case_match; simpl in *; lia.
    + apply IH; lia.
  - cbn -[flat_map Nat.sub] in *. rewrite E. simpl. f_equal. destruct (n - 1 =? 0)%nat eqn:E'.
    + apply Nat.eqb_eq in E'. destruct s; [done|]. simpl in Hn. rewrite length_app in Hn. repeat case_match; simpl in *; lia.
    + apply IH; lia.
Qed.

Lemma length_dollars s : (length (dollars s) <= 2 * length s)%nat.
Proof. induction s as [|c s IH]; simpl; [lia|]. rewrite length_app. case_match; simpl; lia. Qed.

Lemma dollars_none s : contains 36 (dollars s) = false -> dollars s = s.
Proof.
  unfold contains, dollars. induction s as [|c s IH]; simpl; [done|]. case_match; simpl; [done|].
  intros [_ ?]%orb_false_iff. by rewrite IH.
Qed.

Lemma replace_defines_word d s :
  word_ok s = true -> unreal_del_quotes (preprocessor_replace_defines d (dollars (quote s))) = s.
Proof.
  intros [_ H%Nat.leb_le]%andb_prop. unfold preprocessor_replace_defines. destruct (contains _ _) eqn:E.
  - rewrite replace_loop_dollars; [apply del_quotes_quote|lia|]. pose proof (length_dollars (quote s)). lia.
  - rewrite dollars_none by done. apply del_quotes_quote.
Qed.

(** ** Trees *)

(** What a file says, without positions and conditions. *)
Inductive tree := Tree (name : cstring) (value : option cstring) (items : list tree).

Fixpoint tree_of (e : ConfigEntry) : tree := Tree (ce_name e) (ce_value e) (List.map tree_of (ce_items e)).

(** What a file is written as: directives, and [\@if]s with the line of the test. *)
Inductive item := Dir (name : cstring) (value : option cstring) (items : list item) | Cond (test : cstring) (yes no : list item).

Section item_induction.
Context (P : item -> Prop).
Context (HD : forall n v l, Forall P l -> P (Dir n v l)) (HC : forall c l1 l2, Forall P l1 -> Forall P l2 -> P (Cond c l1 l2)).

Fixpoint item_rect' (t : item) : P t :=
  let go := fix go (l : list item) : Forall P l :=
              match l with [] => Forall_nil_2 P | t :: l => Forall_cons_2 P t l (item_rect' t) (go l) end in
  match t with Dir n v l => HD n v l (go l) | Cond c l1 l2 => HC c l1 l2 (go l1) (go l2) end.
End item_induction.

Fixpoint print_item (t : item) : cstring :=
  match t with
  | Dir n v l =>
      print_word n ++ (match v with Some v => 32 :: print_word v | None => [] end) ++
      (match l with [] => [] | _ => 32 :: 123 :: 10 :: flat_map print_item l ++ [125] end) ++ [59; 10]
  | Cond c l1 l2 =>
      str "@if " ++ c ++ 10 :: flat_map print_item l1 ++ str "@else" ++ 10 :: flat_map print_item l2 ++ str "@endif" ++ [10]
  end.

Definition print_items (l : list item) : cstring := flat_map print_item l.

(** All entries, whatever the conditions are. *)
Fixpoint all_of (t : item) : list tree :=
  match t with Dir n v l => [Tree n v (flat_map all_of l)] | Cond _ l1 l2 => flat_map all_of l1 ++ flat_map all_of l2 end.

Section meaning.
Context (V : conf_env) (d : defines).

Definition holds (phase : PreprocessorPhase) (cc : ConditionalConfig) : bool :=
  match condition_result V d phase cc with Some r => xorb r (cc_negative cc) | None => false end.

(** A condition that compares no variable without a value. *)
Definition sane (cc : ConditionalConfig) : bool :=
  forallb (fun phase => bool_decide (is_Some (condition_result V d phase cc)))
    [PREPROCESSOR_PHASE_INITIAL; PREPROCESSOR_PHASE_SECONDARY; PREPROCESSOR_PHASE_MODULE].

(** What is in effect in a phase. *)
Fixpoint meaning (phase : PreprocessorPhase) (t : item) : list tree :=
  match t with
  | Dir n v l => [Tree n v (flat_map (meaning phase) l)]
  | Cond c l1 l2 =>
      match evaluate_preprocessor_if c with
      | Some cc => if holds phase cc then flat_map (meaning phase) l1 else flat_map (meaning phase) l2
      | None => []
      end
  end.

Definition test_ok (c : cstring) : bool :=
  forallb (fun c => negb ((c =? 10) || (c =? 13))) c && (length c <=? 507)%nat &&
  match evaluate_preprocessor_if c with Some cc => sane cc | None => false end.

Fixpoint item_ok (t : item) : bool :=
  match t with
  | Dir n v l => word_ok n && (match v with Some v => word_ok v | None => true end) && forallb item_ok l
  | Cond c l1 l2 => test_ok c && forallb item_ok l1 && forallb item_ok l2
  end.

Lemma sane_Some phase cc : sane cc = true -> condition_result V d phase cc = Some (xorb (holds phase cc) (cc_negative cc)).
Proof.
  unfold sane, holds. simpl. rewrite !andb_true_r, !andb_true_iff, !bool_decide_eq_true. intros ([r1 H1] & [r2 H2] & [r3 H3]).
  destruct phase; rewrite ?H1, ?H2, ?H3; f_equal; [by destruct r1, (cc_negative cc)|by destruct r2, (cc_negative cc)|by destruct r3, (cc_negative cc)].
Qed.

Lemma resolve_if_holds phase l :
  forallb sane l = true -> preprocessor_resolve_if V d l phase = Some (forallb (holds phase) l).
Proof.
  induction l as [|cc l IH]; simpl; [done|]. intros [Hs Hl]%andb_prop. rewrite (sane_Some phase cc Hs). simpl.
  replace (xorb (xorb (holds phase cc) (cc_negative cc)) (cc_negative cc)) with (holds phase cc) by (by destruct (holds phase cc), (cc_negative cc)).
  destruct (holds phase cc); [by apply IH|done].
Qed.

Lemma sane_priority cc n : sane (set_priority cc n) = sane cc.
Proof. done. Qed.

Lemma sane_flip cc : sane (flip_else cc) = sane cc.
Proof. done. Qed.

Lemma holds_flip phase cc : sane cc = true -> holds phase (flip_else cc) = negb (holds phase cc).
Proof.
  intros H%(sane_Some phase). unfold holds. change (condition_result V d phase (flip_else cc)) with (condition_result V d phase cc).
  rewrite H. simpl. by destruct (xorb _ _), (cc_negative cc).
Qed.

Lemma evaluate_had_else c cc : evaluate_preprocessor_if c = Some cc -> cc_had_else cc = false.
Proof.
  unfold evaluate_preprocessor_if. intros H. repeat (case_match; simplify_eq/=); unfold parse_if_function, parse_if_value in *; simpl in *;
  repeat (case_match; simplify_eq/=); try done; repeat (simplify_option_eq; case_match; simplify_eq/=; try done).
Qed.
End meaning.

Definition add_entries (es : list ConfigEntry) (st : pstate) : pstate := foldl (fun st e => add_entry e st) st es.

Lemma add_entries_cons e es st : add_entries (e :: es) st = add_entries es (add_entry e st).
Proof. done. Qed.

Lemma add_entry_lines e k st : add_entry e (add_lines k st) = add_lines k (add_entry e st).
Proof. by destruct st as [? [|]]. Qed.

Lemma add_entries_lines es k st : add_entries es (add_lines k st) = add_lines k (add_entries es st).
Proof. revert st. induction es as [|e es IH]; intros st; [done|]. by rewrite !add_entries_cons, add_entry_lines, IH. Qed.

Lemma add_entries_section es items s secs cur line errors level cc d :
  add_entries es (MkPS items (s :: secs) cur line errors level cc d) =
    MkPS items (set_ce_items (ce_items s ++ es) s :: secs) cur line errors level cc d.
Proof.
  revert s. induction es as [|e es IH]; intros s; [by destruct s; unfold set_ce_items; simpl; rewrite app_nil_r|].
  rewrite add_entries_cons. unfold add_entry; simpl. unfold set_secs; simpl. rewrite IH. simpl. by rewrite <- app_assoc.
Qed.

Lemma add_entries_file es items cur line errors level cc d :
  add_entries es (MkPS items [] cur line errors level cc d) = MkPS (items ++ es) [] cur line errors level cc d.
Proof.
  revert items. induction es as [|e es IH]; intros items; [by rewrite app_nil_r|].
  rewrite add_entries_cons. unfold add_entry; simpl. rewrite IH. by rewrite <- app_assoc.
Qed.

Section reading.
Context (V : conf_env) (d : defines) (total : Z).

Lemma run_word st w rest :
  word_ok w = true ->
  (match p_cur st, p_secs st with Some e, _ :: _ => ce_line_number e = p_line st | _, _ => True end) ->
  (match p_cur st with Some e => ce_escaped e = false /\ ce_value e = None | None => True end) ->
  run V total st (print_word w ++ rest) =
    run V total (match p_cur st with
         | Some e => set_cur (Some (set_ce_value w e)) st
         | None => set_cur (Some (new_entry w (p_line st) (position total (dollars (quote w) ++ 34 :: rest)) (reverse (p_cc st)))) st
         end) rest.
Proof.
  intros Hw Hl He. unfold print_word. rewrite unreal_add_quotes_quote by done. cbn [app]. rewrite <- app_assoc. cbn [app].
  rewrite run_cons. unfold parse_item. cbn -[parse_quote]. unfold parse_quote. cbn -[scan_quote].
  replace (match p_cur st, p_secs st with
    | Some e, _ :: _ => if negb (ce_line_number e =? p_line st) then
        finish_cur (position total (34 :: dollars (quote w) ++ 34 :: rest)) e (add_error st) else st
    | _, _ => st end) with st by (repeat case_match; try done; lia).
  replace (match p_cur st with Some e => if ce_escaped e then 39 else 34 | None => 34 end) with 34
    by (case_match; [by destruct He as [-> _]|done]).
  rewrite scan_quote_dollars by (by apply andb_prop in Hw as [? _]).
  unfold add_word. rewrite replace_defines_word by done. destruct (p_cur st) as [e|]; [|done]. by destruct He as [_ ->].
Qed.

(** After the conditions [ccs], the entries [es] stand for [ts]. *)
Definition resolves (phase : PreprocessorPhase) (ccs : list ConditionalConfig) (es : list ConfigEntry) (ts : list tree) : Prop :=
  List.map tree_of <$> preprocessor_resolve_conditionals_ce V d phase es = Some (if forallb (holds V d phase) ccs then ts else []).

Definition state_ok (st : pstate) : Prop :=
  p_cur st = None /\ p_defs st = d /\ 0 <= p_level st /\ Forall (fun cc => cc_priority cc <= p_level st) (p_cc st) /\
  forallb (sane V d) (p_cc st) = true.

Definition reads (l : list item) (text : cstring) : Prop :=
  forall st rest, state_ok st -> exists es k,
    run V total st (text ++ rest) = run V total (add_lines k (add_entries es st)) rest /\
    List.map tree_of es = flat_map all_of l /\
    forall phase, resolves phase (p_cc st) es (flat_map (meaning V d phase) l).

Lemma resolve_app phase es1 es2 :
  preprocessor_resolve_conditionals_ce V d phase (es1 ++ es2) =
    a ← preprocessor_resolve_conditionals_ce V d phase es1; b ← preprocessor_resolve_conditionals_ce V d phase es2; Some (a ++ b).
Proof.
  induction es1 as [|e es1 IH]; simpl; [by destruct preprocessor_resolve_conditionals_ce|].
  destruct resolve_entry; simpl; [|done]. rewrite IH. destruct (preprocessor_resolve_conditionals_ce V d phase es1); simpl; [|done].
  destruct (preprocessor_resolve_conditionals_ce V d phase es2); simpl; [|done]. by rewrite app_assoc.
Qed.

(** Two groups of entries with conditions of their own. *)
Lemma resolves_join phase ccs ccs1 ccs2 es1 es2 ts1 ts2 ts :
  resolves phase ccs1 es1 ts1 -> resolves phase ccs2 es2 ts2 ->
  (if forallb (holds V d phase) ccs1 then ts1 else []) ++ (if forallb (holds V d phase) ccs2 then ts2 else []) =
    (if forallb (holds V d phase) ccs then ts else []) ->
  resolves phase ccs (es1 ++ es2) ts.
Proof.
  unfold resolves. intros H1 H2 <-. rewrite resolve_app.
  destruct (preprocessor_resolve_conditionals_ce V d phase es1); simplify_eq/=.
  destruct (preprocessor_resolve_conditionals_ce V d phase es2); simplify_eq/=. rewrite List.map_app. congruence.
Qed.

Lemma add_entries_keeps es st :
  p_cur (add_entries es st) = p_cur st /\ p_cc (add_entries es st) = p_cc st /\
  p_level (add_entries es st) = p_level st /\ p_defs (add_entries es st) = p_defs st.
Proof.
  revert st. induction es as [|e es IH]; intros st; [done|]. rewrite add_entries_cons.
  destruct (IH (add_entry e st)) as (-> & -> & -> & ->). by destruct st as [? [|]].
Qed.

Lemma state_ok_entries es k st : state_ok st -> state_ok (add_lines k (add_entries es st)).
Proof. unfold state_ok. simpl. by destruct (add_entries_keeps es st) as (-> & -> & -> & ->). Qed.

Lemma add_lines_add_lines j k st : add_lines j (add_lines k st) = add_lines (k + j) st.
Proof. unfold add_lines; simpl. f_equal. lia. Qed.

Lemma add_entries_app es es' st : add_entries (es ++ es') st = add_entries es' (add_entries es st).
Proof. unfold add_entries. by rewrite foldl_app. Qed.

Lemma reads_nil : reads [] [].
Proof.
  intros st rest _. exists [], 0. split_and!; [|done|]. { by destruct st; unfold add_lines; simpl; rewrite Z.add_0_r. }
  intros phase. unfold resolves; simpl. by case_match.
Qed.

Lemma reads_app l1 l2 s1 s2 : reads l1 s1 -> reads l2 s2 -> reads (l1 ++ l2) (s1 ++ s2).
Proof.
  intros H1 H2 st rest Hst. rewrite <- app_assoc. destruct (H1 st (s2 ++ rest) Hst) as (es & k & -> & E1 & F1).
  destruct (H2 _ rest (state_ok_entries es k st Hst)) as (es' & k' & -> & E2 & F2).
  exists (es ++ es'), (k + k'). rewrite add_entries_lines, add_lines_add_lines, add_entries_app. split_and!; [done| |].
  - by rewrite List.map_app, flat_map_app, E1, E2.
  - intros phase. specialize (F2 phase). simpl in F2. destruct (add_entries_keeps es st) as (_ & Ecc & _). rewrite Ecc in F2.
    eapply resolves_join; [apply F1|apply F2|]. rewrite flat_map_app. by case_match.
Qed.

Lemma reads_list l : Forall (fun t => item_ok V d t = true -> reads [t] (print_item t)) l ->
  forallb (item_ok V d) l = true -> reads l (print_items l).
Proof.
  induction 1 as [|t l Ht Hl IH]; intros Hok; [apply reads_nil|]. simpl in Hok. apply andb_prop in Hok as [Hok1 Hok2].
  apply (reads_app [t]); auto.
Qed.

(** A directive up to its block or its semicolon. *)
Lemma run_head st n v rest :
  p_cur st = None -> word_ok n = true -> (match v with Some v => word_ok v | None => true end) = true ->
  exists e, run V total st (print_word n ++ (match v with Some v => 32 :: print_word v | None => [] end) ++ rest) =
      run V total (set_cur (Some e) st) rest /\
    ce_name e = n /\ ce_value e = v /\ ce_items e = [] /\ ce_conditional_config e = reverse (p_cc st).
Proof.
  intros Hst Hn Hv. rewrite run_word by (rewrite ?Hst; done). rewrite Hst. destruct v as [v|]; cbn [app]; [|eexists; split; [reflexivity|done]].
  rewrite run_cons. cbn -[print_word run]. rewrite run_word by (simpl; try done; by destruct (p_secs st)).
  cbn -[run]. eexists. split; [reflexivity|done].
Qed.

Lemma run_block st e l text rest :
  state_ok st -> ce_items e = [] -> reads l text ->
  exists e' k, run V total (set_cur (Some e) st) (32 :: 123 :: 10 :: text ++ 125 :: 59 :: rest) =
      run V total (set_cur (Some e') (add_lines k st)) (59 :: rest) /\
    ce_name e' = ce_name e /\ ce_value e' = ce_value e /\ List.map tree_of (ce_items e') = flat_map all_of l /\
    ce_conditional_config e' = ce_conditional_config e /\
    forall phase, resolves phase (p_cc st) (ce_items e') (flat_map (meaning V d phase) l).
Proof.
  intros Hst He Hl. rewrite run_cons. cbn -[run]. rewrite run_cons. cbn -[run]. unfold parse_open. cbn -[run]. rewrite He.
  rewrite run_cons. cbn -[run].
  destruct (Hl (add_lines 1 (set_cur None (set_secs (set_ce_section_line (p_line st) e :: p_secs st) (set_cur (Some e) st))))
              (125 :: 59 :: rest)) as (es & k & -> & E & F); [by destruct Hst|].
  rewrite add_entries_lines. unfold set_secs, set_cur; cbn -[run]. rewrite add_entries_section. cbn -[run]. rewrite He.
  rewrite run_cons. unfold parse_item, add_lines; cbn -[run]. eexists _, (1 + k). split.
  { unfold set_cur, set_secs; cbn -[run]. rewrite Z.add_assoc. reflexivity. }
  split_and!; try done.
Qed.

Lemma run_end st e rest :
  p_cur st = None -> exists pos, run V total (set_cur (Some e) st) (59 :: 10 :: rest) = run V total (add_lines 1 (add_entry (set_ce_end pos e) st)) rest.
Proof.
  intros Hst. rewrite run_cons. unfold parse_item. cbn -[run]. rewrite run_cons. unfold parse_item. cbn -[run].
  eexists. unfold finish_cur. do 2 f_equal. destruct st as [? [|] ? ? ? ? ? ?]; simpl in *; by subst.
Qed.

Lemma resolve_entry_eq phase e :
  resolve_entry V d phase e =
    keep ← preprocessor_resolve_if V d (ce_conditional_config e) phase;
    if keep : bool then items ← preprocessor_resolve_conditionals_ce V d phase (ce_items e); Some [set_ce_items items e] else Some [].
Proof. by destruct e. Qed.

Lemma forallb_reverse {A} (f : A -> bool) l : forallb f (reverse l) = forallb f l.
Proof.
  induction l as [|x l IH]; [done|]. rewrite reverse_cons, forallb_app, IH. simpl. rewrite andb_true_r. apply andb_comm.
Qed.

Lemma resolves_entry phase ccs e ts :
  ce_conditional_config e = reverse ccs -> forallb (sane V d) ccs = true -> resolves phase ccs (ce_items e) ts ->
  resolves phase ccs [e] [Tree (ce_name e) (ce_value e) ts].
Proof.
  unfold resolves. intros He Hs H. cbn [preprocessor_resolve_conditionals_ce]. rewrite resolve_entry_eq, He.
  rewrite resolve_if_holds by (by rewrite forallb_reverse). rewrite forallb_reverse. simpl.
  destruct (forallb (holds V d phase) ccs); [|done].
  destruct (preprocessor_resolve_conditionals_ce V d phase (ce_items e)); simpl in *; [by simplify_eq|done].
Qed.

Lemma reads_dir n v l :
  word_ok n = true -> (match v with Some v => word_ok v | None => true end) = true -> reads l (print_items l) ->
  reads [Dir n v l] (print_item (Dir n v l)).
Proof.
  intros Hn Hv Hl st rest Hst. cbn [print_item]. rewrite <- !app_assoc. cbn [app].
  assert (p_cur st = None) as Hcur by apply Hst.
  destruct (run_head st n v ((match l with [] => [] | _ => 32 :: 123 :: 10 :: flat_map print_item l ++ [125] end) ++ 59 :: 10 :: rest))
    as (e & -> & E1 & E2 & E3 & E4); [done..|].
  assert (exists e' k, run V total (set_cur (Some e) st) ((match l with [] => [] | _ => 32 :: 123 :: 10 :: flat_map print_item l ++ [125] end) ++ 59 :: 10 :: rest) =
      run V total (set_cur (Some e') (add_lines k st)) (59 :: 10 :: rest) /\ ce_name e' = n /\ ce_value e' = v /\
      ce_conditional_config e' = reverse (p_cc st) /\ List.map tree_of (ce_items e') = flat_map all_of l /\
      forall phase, resolves phase (p_cc st) (ce_items e') (flat_map (meaning V d phase) l)) as (e' & k & -> & F1 & F2 & F3 & F4 & F5).
  { destruct (decide (l = [])) as [->|Hne].
    - exists e, 0. rewrite E3. split_and!; try done; [by destruct st; unfold add_lines; simpl; rewrite Z.add_0_r|].
      intros phase. unfold resolves; simpl. by destruct (forallb _ _).
    - replace ((match l with [] => [] | _ => 32 :: 123 :: 10 :: flat_map print_item l ++ [125] end) ++ 59 :: 10 :: rest)
        with (32 :: 123 :: 10 :: print_items l ++ 125 :: 59 :: 10 :: rest) by (unfold print_items; destruct l; [done|]; cbn [app]; by rewrite <- app_assoc).
      destruct (run_block st e l _ (10 :: rest) Hst E3 Hl) as (e' & k & -> & F1 & F2 & F3 & F4 & F5).
      exists e', k. split_and!; congruence || done. }
  destruct (run_end (add_lines k st) e' rest) as [pos ->]; [done|]. exists [set_ce_end pos e'], (k + 1). split_and!.
  - cbn. by rewrite add_entry_lines, add_lines_add_lines.
  - cbn. by rewrite F1, F2, F4.
  - intros phase. cbn [flat_map meaning]. rewrite app_nil_r, <- F1, <- F2. apply (resolves_entry phase _ (set_ce_end pos e')); [done|apply Hst|apply F5].
Qed.

(** *** Conditions *)

Lemma to_newline_line line rest : forallb (fun c => negb (c =? 10)) line = true -> to_newline (line ++ 10 :: rest) = (line, 10 :: rest).
Proof. unfold to_newline. induction line as [|c l IH]; simpl; [done|]. intros [-> H]%andb_prop. by rewrite IH. Qed.

(** A line that is read whatever the conditions are. *)
Lemma run_directive_line st line rest :
  state_ok st -> forallb (fun c => negb (c =? 10)) line = true -> hd 0 line = 64 ->
  starts_with (line ++ 10 :: rest) (str "@if ") || starts_with (line ++ 10 :: rest) (str "@else") || starts_with (line ++ 10 :: rest) (str "@endif") = true ->
  run V total st (line ++ 10 :: rest) =
    match run_directive V st line (10 :: rest) with Go st rest => run V total st rest | Leave st => finish st | RetNull d => PNull d | Fault => PFault end.
Proof.
  intros (_ & Hd & _ & _ & Hs) Hline Hhd Hst. destruct line as [|c line]; simpl in Hhd; [done|subst c].
  cbn [app]. rewrite run_cons. replace (parse_item V total st 64 (line ++ 10 :: rest)) with (parse_directive V st ((64 :: line) ++ 10 :: rest)) by reflexivity.
  unfold parse_directive. rewrite to_newline_line by done. rewrite Hd.
  replace (match p_cc st with [] => Some true | cc => preprocessor_resolve_if V d cc PREPROCESSOR_PHASE_INITIAL end)
    with (Some (forallb (holds V d PREPROCESSOR_PHASE_INITIAL) (p_cc st))) by (rewrite <- resolve_if_holds by done; by destruct (p_cc st)).
  match goal with |- context [if ?b then _ else _] => replace b with false end; [done|].
  symmetry. revert Hst. change ((64 :: line) ++ 10 :: rest) with (64 :: line ++ 10 :: rest).
  generalize (starts_with (64 :: line ++ 10 :: rest) (str "@if ")), (starts_with (64 :: line ++ 10 :: rest) (str "@else")),
    (starts_with (64 :: line ++ 10 :: rest) (str "@endif")). intros [] [] []; simpl; try done; intros _; by rewrite ?andb_false_r.
Qed.

Lemma set_defs_same st : p_defs st = d -> set_defs d st = st.
Proof. intros <-. by destruct st. Qed.

Lemma run_if st c cc rest :
  state_ok st -> test_ok V d c = true -> evaluate_preprocessor_if c = Some cc ->
  run V total st (str "@if " ++ c ++ 10 :: rest) =
    run V total (set_level (p_level st + 1) (set_priority cc (p_level st + 1) :: p_cc st) (add_lines 1 st)) rest.
Proof.
  intros Hst [[Hc Hlen%Nat.leb_le]%andb_prop _]%andb_prop Hcc. rewrite app_assoc.
  rewrite run_directive_line; [|done| |done|done].
  - unfold run_directive, parse_preprocessor_item. rewrite take_ge by (rewrite length_app; simpl; lia).
    change (starts_with (str "@if " ++ c) (str "@define")) with false. change (starts_with (str "@if " ++ c) (str "@if ")) with true.
    change (drop 4 (str "@if " ++ c)) with c. cbv iota. rewrite Hcc. cbn -[run]. replace (p_defs st) with d by (by destruct Hst as (_ & -> & _)).
    rewrite set_defs_same by apply Hst. reflexivity.
  - rewrite forallb_app. simpl. apply forallb_forall. intros x Hx. rewrite forallb_forall in Hc. specialize (Hc x Hx). lia.
Qed.

Lemma run_else st cc l rest :
  state_ok st -> p_cc st = cc :: l -> cc_priority cc = p_level st -> 0 < p_level st -> cc_had_else cc = false ->
  run V total st (str "@else" ++ 10 :: rest) = run V total (set_level (p_level st) (flip_else cc :: l) (add_lines 1 st)) rest.
Proof.
  intros Hst Hcc Hp Hl He. rewrite run_directive_line by done. unfold run_directive.
  replace (parse_preprocessor_item V (p_defs st) (str "@else")) with ((d, PREPROCESSOR_ELSE)) by (by destruct Hst as (_ & -> & _)).
  rewrite set_defs_same by apply Hst. cbn -[run]. replace (p_level st =? 0) with false by lia.
  rewrite Hcc. simpl. by rewrite Hp, Z.eqb_refl, He.
Qed.

Lemma run_endif st cc l rest :
  state_ok st -> p_cc st = cc :: l -> cc_priority cc = p_level st -> 0 < p_level st ->
  Forall (fun cc => cc_priority cc <= p_level st - 1) l ->
  run V total st (str "@endif" ++ 10 :: rest) = run V total (set_level (p_level st - 1) l (add_lines 1 st)) rest.
Proof.
  intros Hst Hcc Hp Hl Hle. rewrite run_directive_line by done. unfold run_directive.
  replace (parse_preprocessor_item V (p_defs st) (str "@endif")) with ((d, PREPROCESSOR_ENDIF)) by (by destruct Hst as (_ & -> & _)).
  rewrite set_defs_same by apply Hst. cbn -[run preprocessor_cc_free_level]. replace (p_level st =? 0) with false by lia.
  cbn -[run preprocessor_cc_free_level]. rewrite Hcc. replace (preprocessor_cc_free_level (cc :: l) (p_level st)) with l; [done|].
  unfold preprocessor_cc_free_level. simpl. rewrite Hp, Z.leb_refl. simpl. clear -Hle.
  induction Hle as [|x l Hx _ IH]; simpl; [done|]. replace (p_level st <=? cc_priority x) with false by lia. simpl. by rewrite <- IH.
Qed.

Lemma add_entries_level es n cc st : add_entries es (set_level n cc st) = set_level n cc (add_entries es st).
Proof. revert st. induction es as [|e es IH]; intros st; [done|]. rewrite !add_entries_cons, <- IH. by destruct st as [? [|]]. Qed.

Lemma reads_cond c l1 l2 :
  test_ok V d c = true -> reads l1 (print_items l1) -> reads l2 (print_items l2) -> reads [Cond c l1 l2] (print_item (Cond c l1 l2)).
Proof.
  intros Hc H1 H2 st rest Hst. destruct (evaluate_preprocessor_if c) as [cc|] eqn:Hcc; [|by unfold test_ok in Hc; rewrite Hcc, andb_false_r in Hc].
  assert (sane V d cc = true) as Hsane by (unfold test_ok in Hc; rewrite Hcc in Hc; by apply andb_prop in Hc as [_ ?]).
  assert (cc_had_else cc = false) as Helse by (by eapply evaluate_had_else).
  pose proof Hst as (Hcur & Hd & Hlev & Hprio & Hccs).
  set (cc1 := set_priority cc (p_level st + 1)).
  replace (print_item (Cond c l1 l2) ++ rest) with
    (str "@if " ++ c ++ 10 :: flat_map print_item l1 ++ str "@else" ++ 10 :: flat_map print_item l2 ++ str "@endif" ++ 10 :: rest)
    by (cbn [print_item]; by repeat (rewrite <- app_assoc; cbn [app])).
  rewrite (run_if st c cc) by done. fold cc1.
  assert (forall k es x, sane V d x = true -> cc_priority x = p_level st + 1 ->
    state_ok (set_level (p_level st + 1) (x :: p_cc st) (add_lines k (add_entries es st)))) as Hok.
  { intros k es x Hx1 Hx2. unfold state_ok; simpl. destruct (add_entries_keeps es st) as (-> & _ & _ & ->). rewrite Hx1.
    split_and!; try done; try lia. apply Forall_cons. split; [lia|]. eapply Forall_impl; [exact Hprio|]. simpl. lia. }
  destruct (H1 _ (str "@else" ++ 10 :: flat_map print_item l2 ++ str "@endif" ++ 10 :: rest) (Hok 1 [] cc1 Hsane eq_refl))
    as (es1 & k1 & E & T1 & R1). simpl add_entries in E. unfold print_items in E. rewrite E. clear E.
  rewrite add_entries_level, add_entries_lines.
  change (add_lines k1 (set_level ?a ?b ?x)) with (set_level a b (add_lines k1 x)). rewrite add_lines_add_lines.
  rewrite (run_else _ cc1 (p_cc st)); [|by apply Hok|done..|simpl; lia|done]. cbn [p_level set_level].
  change (add_lines ?k (set_level ?a ?b ?x)) with (set_level a b (add_lines k x)). change (set_level ?a ?b (set_level ?a' ?b' ?x)) with (set_level a b x).
  rewrite add_lines_add_lines.
  destruct (H2 _ (str "@endif" ++ 10 :: rest) (Hok (1 + k1 + 1) es1 (flip_else cc1) Hsane eq_refl)) as (es2 & k2 & E & T2 & R2).
  unfold print_items in E. rewrite E. clear E. rewrite add_entries_level, add_entries_lines, <- add_entries_app.
  change (add_lines ?k (set_level ?a ?b ?x)) with (set_level a b (add_lines k x)). rewrite add_lines_add_lines.
  rewrite (run_endif _ (flip_else cc1) (p_cc st)); [|by apply Hok|done..|simpl; lia|simpl; by rewrite Z.add_simpl_r].
  cbn [p_level set_level]. rewrite Z.add_simpl_r.
  change (add_lines ?k (set_level ?a ?b ?x)) with (set_level a b (add_lines k x)). change (set_level ?a ?b (set_level ?a' ?b' ?x)) with (set_level a b x).
  rewrite add_lines_add_lines. exists (es1 ++ es2), (1 + k1 + 1 + k2 + 1). split_and!.
  - f_equal. destruct (add_entries_keeps (es1 ++ es2) st) as (_ & Ec & El & _). rewrite <- Ec, <- El. by destruct (add_entries _ _).
  - rewrite List.map_app, T1, T2. cbn [flat_map all_of]. by rewrite app_nil_r.
  - intros phase. eapply resolves_join; [apply R1|apply R2|]. simpl. rewrite app_nil_r, Hcc, (holds_flip V d phase cc1) by done.
    change (holds V d phase cc1) with (holds V d phase cc). destruct (holds V d phase cc); simpl; by destruct (forallb _ (p_cc st)); rewrite ?app_nil_r.
Qed.

Lemma reads_item t : item_ok V d t = true -> reads [t] (print_item t).
Proof.
  induction t as [n v l IH|c l1 l2 IH1 IH2] using item_rect'; simpl; intros [[H1 H2]%andb_prop H3]%andb_prop.
  - apply reads_dir; [done..|by apply reads_list].
  - apply reads_cond; [done|by apply reads_list..].
Qed.

Lemma reads_items l : forallb (item_ok V d) l = true -> reads l (print_items l).
Proof. apply reads_list, Forall_forall. intros t _. apply reads_item. Qed.
End reading.

(** ** Files *)

Definition no_cr (s : cstring) : bool := forallb (fun c => negb (c =? 13)) s.

Lemma no_cr_map s : no_cr s = true -> List.map (fun c => if c =? 13 then 32 else c) s = s.
Proof. unfold no_cr. induction s as [|c s IH]; simpl; [done|]. intros [Hc H]%andb_prop. rewrite IH by done. by destruct (c =? 13). Qed.

Lemma no_cr_app s1 s2 : no_cr (s1 ++ s2) = no_cr s1 && no_cr s2.
Proof. apply forallb_app. Qed.

Lemma no_cr_word w : word_ok w = true -> no_cr (print_word w) = true.
Proof.
  intros Hw. unfold print_word. rewrite unreal_add_quotes_quote by done. change (no_cr (34 :: ?s)) with (no_cr s).
  rewrite no_cr_app, andb_true_r. apply andb_prop in Hw as [Hw _]. unfold no_cr, dollars, quote.
  induction w as [|c w IH]; [done|]. cbn [forallb] in Hw. apply andb_prop in Hw as [Hc Hw]. cbn [flat_map].
  rewrite flat_map_app, forallb_app, IH by done. rewrite andb_true_r.
  destruct ((c =? 34) || (c =? 92)) eqn:E; cbn [flat_map app]; destruct (c =? 36); simpl; lia.
Qed.

Lemma no_cr_list V d l :
  Forall (fun t => item_ok V d t = true -> no_cr (print_item t) = true) l -> forallb (item_ok V d) l = true ->
  no_cr (flat_map print_item l) = true.
Proof.
  induction 1 as [|t l Ht _ IH]; simpl; [done|]. intros [H1 H2]%andb_prop. by rewrite no_cr_app, Ht, IH.
Qed.

Lemma no_cr_item V d t : item_ok V d t = true -> no_cr (print_item t) = true.
Proof.
  induction t as [n v l IH|c l1 l2 IH1 IH2] using item_rect'; cbn [item_ok print_item]; intros [[H1 H2]%andb_prop H3]%andb_prop.
  - apply (no_cr_list V d) in IH; [|done]. rewrite !no_cr_app, no_cr_word by done. rewrite andb_true_r. cbn [andb]. apply andb_true_iff. split.
    + destruct v; [by apply no_cr_word|done].
    + destruct l; [done|]. change (no_cr (32 :: 123 :: 10 :: ?s)) with (no_cr s). by rewrite no_cr_app, IH.
  - assert (no_cr c = true) as Hc.
    { apply andb_prop in H1 as [[H1 _]%andb_prop _]. apply forallb_forall. intros x Hx. rewrite forallb_forall in H1. specialize (H1 x Hx). lia. }
    apply (no_cr_list V d) in IH1; [|done]. apply (no_cr_list V d) in IH2; [|done].
    rewrite !no_cr_app, Hc. change (no_cr (10 :: ?s)) with (no_cr s). rewrite !no_cr_app, IH1. change (no_cr (10 :: ?s)) with (no_cr s).
    by rewrite !no_cr_app, IH2.
Qed.

Lemma parse_items V d l :
  forallb (item_ok V d) l = true ->
  exists items, config_parse V d (print_items l) = PDone items d /\ List.map tree_of items = flat_map all_of l /\
    forall phase, List.map tree_of <$> preprocessor_resolve_conditionals_ce V d phase items = Some (flat_map (meaning V d phase) l).
Proof.
  intros Hl. unfold config_parse, config_parse_with_offset.
  rewrite no_cr_map by (eapply no_cr_list, Hl; apply Forall_forall; intros t _; apply no_cr_item).
  set (total := Z.of_nat (length (print_items l))).
  destruct (reads_items V d total l Hl (MkPS [] [] None (1 + 0) 0 0 [] d) []) as (es & k & E & T & R); [by split_and!|].
  rewrite app_nil_r in E. unfold run in E at 1. rewrite E. rewrite add_entries_file. exists es. split_and!; [done..|].
  intros phase. apply (R phase).
Qed.

(** C14: configuration text is read back.  A file written as directives, blocks and [\@if]s, with
    names and values quoted by [unreal_add_quotes] and every dollar sign doubled, is accepted
    by [config_parse], whatever variables are defined, and gives exactly the entries that
    were written, in order and nested as they were: quotes, backslashes and dollar signs in
    names and values arrive unchanged. *)
Theorem config_roundtrip V d l :
  forallb (item_ok V d) l = true ->
  exists items, config_parse V d (print_items l) = PDone items d /\ List.map tree_of items = flat_map all_of l.
Proof. intros H. destruct (parse_items V d l H) as (items & E & T & _). eauto. Qed.

(** C7: conditional configuration means what it says.  In a file with [\@if], [\@else] and
    [\@endif], nested and inside of blocks, the entries that [preprocessor_resolve_conditionals_ce]
    keeps in a phase are those of the branch that is selected by each condition, and no others. *)
Theorem config_conditions V d l phase :
  forallb (item_ok V d) l = true ->
  exists items items', config_parse V d (print_items l) = PDone items d /\
    preprocessor_resolve_conditionals_ce V d phase items = Some items' /\
    List.map tree_of items' = flat_map (meaning V d phase) l.
Proof.
  intros H. destruct (parse_items V d l H) as (items & E & _ & R). specialize (R phase).
  destruct (preprocessor_resolve_conditionals_ce V d phase items) as [items'|] eqn:F; simplify_eq/=. eauto 10.
Qed.


Lemma last_suffix {A} (s t : list A) x : s `suffix_of` t -> last s = Some x -> last t = Some x.
Proof. intros [k ->] H. rewrite last_app. by rewrite H. Qed.

(** ** The parser is safe *)

(** What the reader gets from outside are C strings. *)
Record conf_env_ok (V : conf_env) : Prop := {
  ve_version : cstr (cv_version V);
  ve_getenv n v : cv_getenv V n = Some v -> cstr v;
  ve_module n v : cv_module V n = Some (Some v) -> cstr v
}.

(** Every variable has a value. *)
Definition defs_ok (d : defines) : Prop := Forall (fun e => exists v, nv_value e = Some v /\ cstr v) d.

(** A condition as it is read: a variable is compared with something. *)
Definition cc_ok (cc : ConditionalConfig) : Prop :=
  cstr (cc_name cc) /\ (forall o, cc_opt cc = Some o -> cstr o) /\ (cc_condition cc = IF_VALUE -> is_Some (cc_opt cc)).

Definition reader_ok (st : pstate) : Prop := Forall cc_ok (p_cc st) /\ defs_ok (p_defs st).

(** If [s] starts with a definition, it is not that of an empty value. *)
Definition define_given (V : conf_env) (s : cstring) : bool :=
  let buf := take 511 (to_newline s).1 in
  negb (starts_with buf (str "@define")) ||
  match evaluate_preprocessor_define V [] (drop 7 buf) with Some [e] => bool_decide (is_Some (nv_value e)) | _ => true end.

(** No part of the text defines a variable as the empty string. *)
Fixpoint defines_given (V : conf_env) (s : cstring) : bool :=
  match s with [] => true | _ :: t => define_given V s && defines_given V t end.

(** The text as the loop sees it. *)
Definition without_cr (data : cstring) : cstring := List.map (fun c => if c =? 13 then 32 else c) data.

Section safety.
Context (V : conf_env) (HV : conf_env_ok V) (total : Z).

Lemma cstr_span p s : cstr s -> cstr (span p s).1 /\ cstr (span p s).2.
Proof. intros Hs. apply cstr_app. by rewrite span_parts. Qed.

Lemma cstr_until stop s a b : cstr s -> read_until stop s = (a, b) -> cstr a /\ cstr b.
Proof. intros Hs E. pose proof (cstr_span (fun c => negb (contains c stop)) s Hs) as H. unfold read_until in E. by rewrite E in H. Qed.

Lemma cstr_blank s : cstr s -> cstr (skip_whitespace s).
Proof. apply cstr_skip_while. Qed.

Lemma cstr_tl s : cstr s -> cstr (tl s).
Proof. intros H. destruct H; [constructor|done]. Qed.

Lemma compare_values_total op a b : cstr a -> cstr b -> is_Some (compare_values op a b).
Proof. intros Ha Hb. unfold compare_values, strnatcasecmp. destruct (strnatcmp0_antisym true a b Ha Hb) as (r & -> & _). by eexists. Qed.

Lemma find_define_ok d name e : defs_ok d -> find_config_define d name = Some e -> exists v, nv_value e = Some v /\ cstr v.
Proof. intros Hd. unfold find_config_define. induction Hd as [|x d Hx _ IH]; simpl; [done|]. case_match; [by intros [= <-]|done]. Qed.

Lemma resolve_if_total d l : defs_ok d -> Forall cc_ok l -> is_Some (preprocessor_resolve_if V d l PREPROCESSOR_PHASE_INITIAL).
Proof using HV.
  intros Hd Hl. induction Hl as [|cc l (H1 & H2 & H3) _ IH]; [done|]. cbn [preprocessor_resolve_if].
  assert (is_Some (condition_result V d PREPROCESSOR_PHASE_INITIAL cc)) as [b ->]; [|cbn [mbind option_bind]; by case_match].
  unfold condition_result. destruct (cc_condition cc) eqn:Ec; try by eexists.
  - destruct (find_config_define d (cc_name cc)) as [e|] eqn:Ee; [|by eexists].
    destruct (find_define_ok d _ e Hd Ee) as (v & -> & Hv). destruct (H3 eq_refl) as [o Ho]. rewrite Ho. cbn [mbind option_bind].
    apply compare_values_total; [done|by apply H2].
  - unfold strnatcasecmp. destruct (strnatcmp0_antisym true (cv_version V) (cc_name cc) (ve_version V HV) H1) as (r & -> & _). by eexists.
  - destruct (cv_getenv V (cc_name cc)) as [env|] eqn:Ee; [|by eexists]. destruct (cc_opt cc) as [o|]; [|by eexists].
    apply compare_values_total; [by eapply ve_getenv|by apply H2].
Qed.

(** *** Directives *)

Lemma compare_op_ok p op r : cstr p -> parse_compare_op p = Some (op, r) -> cstr r.
Proof. unfold parse_compare_op. intros Hp H. repeat case_match; simplify_eq; by apply Forall_drop. Qed.

Lemma compare_op_and_value_ok p op v : cstr p -> parse_compare_op_and_value p = Some (op, v) -> cstr v.
Proof.
  unfold parse_compare_op_and_value. intros Hp. destruct (parse_compare_op (skip_whitespace p)) as [[op' r]|] eqn:E; [|done]. cbn [mbind option_bind].
  apply compare_op_ok in E; [|by apply cstr_blank]. apply cstr_blank in E. case_match.
  - destruct (read_until [34] (tl (skip_whitespace r))) as [w rest] eqn:Er. apply cstr_until in Er as [Hw _]; [|by apply cstr_tl]. case_match; intros; by simplify_eq.
  - intros. simplify_eq. destruct (read_until [32; 9] (skip_whitespace r)) as [w rest] eqn:Er. by apply cstr_until in Er as [Hw _].
Qed.

Lemma argument_ok p name r : cstr p -> parse_argument p = Some (name, r) -> cstr name /\ cstr r.
Proof.
  unfold parse_argument. intros Hp. case_match; [done|]. set (q := skip_whitespace (tl (skip_whitespace p))).
  assert (cstr q) as Hq by (by apply cstr_blank, cstr_tl, cstr_blank). set (q' := if hd 0 q =? 34 then tl q else q).
  assert (cstr q') as Hq' by (unfold q'; case_match; [by apply cstr_tl|done]). destruct (read_until [41; 34] q') as [a b] eqn:E.
  apply cstr_until in E as [Ha Hb]; [|done]. destruct b; intros; simplify_eq. by apply cstr_cons in Hb as [_ ?].
Qed.

Lemma if_function_ok p c neg rv cc : cstr p -> c <> IF_VALUE -> parse_if_function p c neg rv = Some cc -> cc_ok cc.
Proof.
  unfold parse_if_function. intros Hp Hc. destruct (parse_argument p) as [[name r]|] eqn:E; [|done]. cbn [mbind option_bind].
  apply argument_ok in E as [Hn Hr]; [|done]. destruct rv; [|by intros [= <-]; split_and!].
  set (q := skip_whitespace (if hd 0 r =? 41 then tl r else r)).
  assert (cstr q) as Hq by (apply cstr_blank; case_match; [by apply cstr_tl|done]). destruct q as [|x q]; [by intros [= <-]; split_and!|].
  destruct neg; [done|]. destruct (parse_compare_op_and_value (x :: q)) as [[op v]|] eqn:Eo; [|done]. apply compare_op_and_value_ok in Eo; [|done].
  intros [= <-]. split_and!; [done| |done]. by intros o [= <-].
Qed.

Lemma if_value_ok p neg cc : cstr p -> parse_if_value p neg = Some cc -> cc_ok cc.
Proof.
  unfold parse_if_value. intros Hp. case_match; [done|]. destruct neg; [done|].
  destruct (read_until (32 :: 9 :: str "=!<>") (tl p)) as [name r] eqn:E. apply cstr_until in E as [Hn Hr]; [|by apply cstr_tl].
  destruct r as [|x r]; [done|]. destruct (parse_compare_op_and_value (x :: r)) as [[op v]|] eqn:Eo; [|done]. apply compare_op_and_value_ok in Eo; [|done].
  intros [= <-]. split_and!; [done|by intros o [= <-]|by eexists].
Qed.

Lemma evaluate_if_ok p cc : cstr p -> evaluate_preprocessor_if p = Some cc -> cc_ok cc.
Proof.
  unfold evaluate_preprocessor_if. intros Hp. set (q := if hd 0 (skip_whitespace p) =? 64 then _ else _).
  assert (cstr q) as Hq by (unfold q; case_match; [by apply cstr_tl, cstr_blank|by apply cstr_blank]).
  set (nq := if hd 0 q =? 33 then _ else _). assert (cstr nq.2) as Hn by (unfold nq; case_match; [by apply cstr_blank, cstr_tl|done]).
  destruct nq as [neg r]; simpl in Hn. destruct (List.find _ if_functions) as [[[kw c] rv]|] eqn:Ef; [|by apply if_value_ok].
  apply if_function_ok; [by apply Forall_drop|]. apply find_some in Ef as [Hin _]. intros ->. vm_compute in Hin. by repeat destruct Hin as [Hin|Hin].
Qed.

Lemma define_function_ok p v : cstr p -> resolve_define_function V p = Some v -> cstr v.
Proof using HV.
  unfold resolve_define_function. intros Hp. destruct (List.find _ _) as [[[kw c] []]|]; [|done..].
  destruct (parse_argument _) as [[arg r]|]; [|done]. cbn [mbind option_bind]. destruct c; try done; [by apply ve_getenv|].
  destruct (cv_module V arg) as [[w|]|] eqn:E; simpl; [|done..]. intros [= <-]. by eapply ve_module.
Qed.

(** What a definition adds does not depend on the variables there are. *)
Lemma define_ok d p d' :
  cstr p -> evaluate_preprocessor_define V d p = Some d' ->
  exists name v, d' = add_nvplist d 0 name (Some v) /\ evaluate_preprocessor_define V [] p = Some (add_nvplist [] 0 name (Some v)) /\ cstr v.
Proof using HV.
  unfold evaluate_preprocessor_define. intros Hp. destruct (read_until [32; 9] (skip_whitespace p)) as [name r] eqn:E.
  apply cstr_until in E as [Hn Hr]; [|by apply cstr_blank]. destruct r as [|x r]; [done|]. set (q := skip_whitespace (x :: r)).
  assert (cstr q) as Hq by (by apply cstr_blank). set (ov := if hd 0 q =? 34 then _ else _).
  assert (forall v, ov = Some v -> cstr v) as Hov.
  { unfold ov. intros v. case_match; [|by apply define_function_ok]. destruct (read_until [34] (tl q)) as [w rest] eqn:Ew.
    apply cstr_until in Ew as [Hw _]; [|by apply cstr_tl]. case_match; intros; by simplify_eq. }
  destruct ov as [v|]; [|done]. cbn [mbind option_bind]. repeat (case_match; [done|]). intros [= <-]. eexists _, v. split_and!; [done..|by apply Hov].
Qed.

Lemma defs_ok_add d name v : defs_ok d -> cstr v -> v <> [] -> defs_ok (add_nvplist d 0 name (Some v)).
Proof.
  intros Hd Hv Hne. unfold add_nvplist. assert (nv_normal (Some v) = Some v) as -> by (by destruct v).
  induction Hd as [|e d He Hd IH]; simpl; [repeat constructor; by eexists|]. case_match; [by constructor|]. constructor; [by eexists|by constructor].
Qed.

Lemma preprocessor_item_ok d s d' item :
  cstr s -> define_given V s = true -> defs_ok d -> parse_preprocessor_item V d (to_newline s).1 = (d', item) ->
  defs_ok d' /\ (forall cc, item = PREPROCESSOR_IF cc -> cc_ok cc).
Proof using HV.
  intros Hs Hg Hd. unfold parse_preprocessor_item. unfold define_given in Hg. set (buf := take 511 (to_newline s).1) in *.
  assert (cstr buf) as Hb by (apply Forall_take; by apply cstr_span).
  destruct (starts_with buf (str "@define")) eqn:E1.
  { cbn [negb orb] in Hg. destruct (evaluate_preprocessor_define V d (drop 7 buf)) as [d1|] eqn:Ed; [|by intros [= <- <-]].
    apply define_ok in Ed as (name & v & -> & Ev & Hv); [|by apply Forall_drop]. rewrite Ev in Hg. intros [= <- <-]. split; [|done].
    apply defs_ok_add; [done..|]. intros ->. apply bool_decide_eq_true in Hg as [w Hw]. done. }
  destruct (starts_with buf (str "@if ")).
  { intros [= <- <-]. split; [done|]. intros cc. destruct (evaluate_preprocessor_if (drop 4 buf)) as [c|] eqn:Ee; [|done].
    intros [= <-]. eapply evaluate_if_ok, Ee. by apply Forall_drop. }
  repeat case_match; by intros [= <- <-].
Qed.

Lemma flip_level_ok n l l' : Forall cc_ok l -> flip_level n l = Some l' -> Forall cc_ok l'.
Proof.
  intros Hl. revert l'. induction Hl as [|cc l Hc Hl IH]; intros l'; cbn [flip_level]; [by intros [= <-]|]. case_match.
  - case_match; [done|]. intros [= <-]. by constructor.
  - destruct (flip_level n l); [|done]. intros [= <-]. constructor; [done|by apply IH].
Qed.

Lemma free_level_ok n l : Forall cc_ok l -> Forall cc_ok (preprocessor_cc_free_level l n).
Proof. intros Hl. unfold preprocessor_cc_free_level. induction Hl as [|cc l Hc _ IH]; simpl; [done|]. case_match; [by constructor|done]. Qed.

Lemma directive_ok st s :
  cstr s -> define_given V s = true -> reader_ok st ->
  match parse_directive V st s with Go st' _ => reader_ok st' | Fault => False | _ => True end.
Proof using HV.
  intros Hs Hg [Hc Hd]. unfold parse_directive. destruct (to_newline s) as [line rest] eqn:El.
  assert (Hnext : forall st' r, reader_ok st' -> match next_line st' r with Go st' _ => reader_ok st' | Fault => False | _ => True end)
    by (intros st' []; simpl; done).
  destruct (match p_cc st with [] => Some true | cc => _ end) as [active|] eqn:Ea; cycle 1.
  { destruct (resolve_if_total (p_defs st) (p_cc st) Hd Hc) as [b Hb]. destruct (p_cc st); [done|]. congruence. }
  destruct (_ && _); [by apply Hnext|]. unfold run_directive. destruct (parse_preprocessor_item V (p_defs st) line) as [d item] eqn:Ei.
  destruct (preprocessor_item_ok (p_defs st) s d item Hs Hg Hd) as [Hd' Hi]; [by rewrite El|].
  destruct item; try exact I; try (apply Hnext; by split).
  - apply Hnext. split; [|done]. cbn. constructor; [|done]. by destruct (Hi cc eq_refl).
  - apply Hnext. destruct (p_level (add_lines 1 (set_defs d st)) =? 0); (split; [by apply free_level_ok|done]).
  - destruct (p_level (add_lines 1 (set_defs d st)) =? 0); [by apply Hnext|]. destruct (flip_level _ _) as [l|] eqn:Ef; [|done]. apply Hnext. split; [|done]. by eapply flip_level_ok.
Qed.

(** *** Other items *)

Lemma add_entry_reader e st : reader_ok (add_entry e st) <-> reader_ok st.
Proof. unfold add_entry. by destruct (p_secs st). Qed.

Lemma add_word_reader st a w u : reader_ok st -> reader_ok (add_word total st a w u).
Proof. intros H. unfold add_word. repeat case_match; exact H. Qed.

Lemma finish_cur_reader n e st : reader_ok st -> reader_ok (finish_cur n e st).
Proof. intros H. unfold finish_cur. change (reader_ok (add_entry (set_ce_end n e) st)). by apply add_entry_reader. Qed.

Lemma quote_ok st c s t :
  reader_ok st -> match parse_quote total st c s t with Go st' _ => reader_ok st' | Fault => last t = Some 92 | _ => True end.
Proof.
  intros Hst. unfold parse_quote. set (st1 := if c =? 39 then _ else st). assert (reader_ok st1) as H1 by (unfold st1; by case_match).
  set (st2 := match p_cur st1, p_secs st1 with Some e, _ :: _ => _ | _, _ => st1 end).
  assert (reader_ok st2) as H2 by (unfold st2; repeat case_match; first [done|by apply finish_cur_reader]).
  destruct (scan_quote _ t) as [body rest| |] eqn:E; [by apply add_word_reader|done|by eapply scan_quote_beyond].
Qed.

(** One turn of the loop: the state stays fine, and the only fault is a backslash at the end. *)
Lemma item_safe st c t :
  cstr (c :: t) -> define_given V (c :: t) = true -> reader_ok st ->
  match parse_item V total st c t with Go st' _ => reader_ok st' | Fault => last (c :: t) = Some 92 | _ => True end.
Proof using HV.
  intros Hs Hg Hst. unfold parse_item.
  destruct (c =? 59); [unfold parse_semicolon; destruct (p_cur st); [by apply finish_cur_reader|done]|].
  destruct (c =? 123); [unfold parse_open; destruct (p_cur st) as [e|]; [by destruct (ce_items e)|done]|].
  destruct (c =? 125).
  { unfold parse_close. destruct (p_cur st), (p_secs st) as [|sec l]; try done. destruct (hd 0 t =? 59); [done|by apply finish_cur_reader]. }
  destruct (c =? 35); [unfold parse_line_comment; by destruct (to_newline t).2|].
  destruct (_ && _); [unfold parse_line_comment; by destruct (to_newline (tl t)).2|].
  destruct (_ && _); [unfold parse_block_comment; by destruct (skip_comment _ _) as [[]|]|].
  destruct (_ || _).
  { pose proof (quote_ok st c (c :: t) t Hst) as Hq. destruct (parse_quote total st c (c :: t) t); try done. by eapply last_suffix, Hq; apply suffix_cons_r. }
  destruct (c =? 10); [done|]. destruct (_ || _); [done|]. destruct (c =? 64).
  { pose proof (directive_ok st (c :: t) Hs Hg Hst) as Hd. by destruct (parse_directive V st (c :: t)). }
  unfold parse_word. destruct (_ && _); [done|]. destruct (span word_char (c :: t)) as [w r]. destruct r; [done|]. by apply add_word_reader.
Qed.

Lemma defines_given_suffix s t : s `suffix_of` t -> defines_given V t = true -> defines_given V s = true.
Proof.
  intros [k ->]. induction k as [|c k IH]; [done|]. cbn [app defines_given]. intros [_ H]%andb_prop. by apply IH.
Qed.

Lemma parse_loop_safe fuel st s :
  (length s <= fuel)%nat -> cstr s -> last s <> Some 92 -> defines_given V s = true -> reader_ok st -> parse_loop V total fuel st s <> PFault.
Proof using HV.
  revert st s. induction fuel as [|fuel IH]; intros st [|c t] Hf Hs Hlast Hg Hst; try (simpl in Hf; lia); try (simpl; unfold finish; by case_match).
  cbn [parse_loop]. pose proof Hg as Hg'. cbn [defines_given] in Hg. apply andb_prop in Hg as [Hg1 Hg2]. simpl in Hf.
  pose proof (item_safe st c t Hs Hg1 Hst) as Hi. destruct (parse_item V total st c t) as [st' rest|st'| |] eqn:E; [|unfold finish; by case_match|done|done].
  apply parse_item_suffix in E. apply IH; [apply suffix_length in E; lia| | | |done].
  - destruct E as [k ->]. apply cstr_cons in Hs as [_ Hs]. by apply cstr_app in Hs as [_ ?].
  - intros H. apply Hlast. eapply last_suffix, H. by apply suffix_cons_r.
  - eapply defines_given_suffix, Hg'. by apply suffix_cons_r.
Qed.
End safety.

(** C39: the parser finishes and stays inside of the text, for every file, with or without
    preprocessor lines.  [config_parse] either rejects the file or returns entries, unless the
    last character of the file is a backslash, or a variable is or gets defined as the empty string:
    by an [\@define] of the file with an empty value, or before.  (In both cases it can fail,
    as [config_defects] shows.)  The loop never needs more turns than there are characters. *)
Theorem config_parse_safe V d data :
  conf_env_ok V -> defs_ok d -> cstr data -> last data <> Some 92 -> defines_given V (without_cr data) = true ->
  config_parse V d data <> PFault.
Proof.
  intros HV Hd Hs Hlast Hg. unfold config_parse, config_parse_with_offset. fold (without_cr data). apply parse_loop_safe; [done|..|done|by split; [constructor|]].
  - unfold without_cr. by rewrite length_map.
  - apply Forall_forall. intros x Hx%list_elem_of_In. apply in_map_iff in Hx as (y & <- & Hy%list_elem_of_In). case_match; [unfold byte_ok; lia|].
    by eapply Forall_forall in Hs.
  - intros H. apply Hlast. unfold without_cr in H.
    change (List.map ?f data) with (f <$> data) in H. rewrite fmap_last in H. destruct (last data) as [x|]; simplify_eq/=. case_match; simplify_eq.
Qed.

(** ** Concrete files *)

Definition quiet_env : conf_env :=
  MkConfEnv (fun _ => None) (fun _ => None) (fun m => strcaseeq m (str "geoip")) (fun _ => false) (fun _ => false) (fun _ => false) (str "6.2.5").

Definition sample_defs : defines := add_nvplist [] 0 (str "NET") (Some (str "example")).

(** A block with a quote, a backslash and a dollar sign in a value, and two nested conditions. *)
Definition sample_file : list item :=
  [Dir (str "set") None [Dir (str "name") (Some (34 :: 92 :: str "$NET")) [];
     Cond (str "$NET == example") [Cond (str "minimum-version(6.3.0)") [Dir (str "a") (Some (str "1")) []] [Dir (str "b") None []]] [Dir (str "c") None []]]].

Lemma config_roundtrip_witness :
  exists items, config_parse quiet_env sample_defs (print_items sample_file) = PDone items sample_defs /\
    List.map tree_of items = flat_map all_of sample_file.
Proof. apply (config_roundtrip quiet_env sample_defs sample_file). vm_compute. reflexivity. Defined.

Lemma config_conditions_witness :
  exists items items', config_parse quiet_env sample_defs (print_items sample_file) = PDone items sample_defs /\
    preprocessor_resolve_conditionals_ce quiet_env sample_defs PREPROCESSOR_PHASE_INITIAL items = Some items' /\
    List.map tree_of items' = [Tree (str "set") None [Tree (str "name") (Some (34 :: 92 :: str "$NET")) []; Tree (str "b") None []]].
Proof. apply (config_conditions quiet_env sample_defs sample_file PREPROCESSOR_PHASE_INITIAL). vm_compute. reflexivity. Defined.

Definition safe_file : cstring :=
  str "@define $NET " ++ 34 :: str "example" ++ 34 :: 10 :: str "@if $NET == example" ++ 10 ::
  str "ban user { mask " ++ 34 :: str "*@*.$NET" ++ 34 :: str "; } # abuse@example" ++ 10 :: str "@endif" ++ [10].

Lemma config_parse_safe_witness : config_parse quiet_env [] safe_file <> PFault.
Proof.
  apply (config_parse_safe quiet_env [] safe_file).
  - split; [repeat constructor|done|done].
  - constructor.
  - apply Forall_forall. intros c Hc%list_elem_of_In. assert (forallb (fun c => (1 <=? c) && (c <=? 255)) safe_file = true) as Hf by (vm_compute; reflexivity).
    rewrite forallb_forall in Hf. specialize (Hf c Hc). unfold byte_ok. lia.
  - vm_compute. discriminate.
  - vm_compute. reflexivity.
Defined.

Definition kept (phase : PreprocessorPhase) (d : defines) (text : cstring) : option (list tree) :=
  match config_parse quiet_env d text with
  | PDone items d => List.map tree_of <$> preprocessor_resolve_conditionals_ce quiet_env d phase items
  | _ => None
  end.

(** What goes wrong in configuration files.  (1) The entries under
    [\@if !module-loaded("m")] are removed in the first phase, before any module is loaded,
    although "m" is not a module that gets loaded.  (2) [\@if defined($X)] is false for a
    variable that is defined, because the dollar sign stays part of the name.  (3) Comparing a
    variable that is defined as the empty string dereferences a null pointer.  (4) A quoted
    string whose last character is a backslash, at the end of the file, is read past its end.
    (5) The escape of a single quote is read as such, but its backslash stays in the value.
    (6) A name in single quotes never ends. *)
Example config_defects :
  kept PREPROCESSOR_PHASE_INITIAL [] (str "@if !module-loaded(m)" ++ 10 :: str "a 1;" ++ 10 :: str "@endif" ++ [10]) = Some [] /\
  kept PREPROCESSOR_PHASE_MODULE [] (str "@define $X " ++ [34] ++ str "1" ++ 34 :: 10 :: str "@if defined($X)" ++ 10 :: str "a 1;" ++ 10 :: str "@endif" ++ [10]) = Some [] /\
  config_parse quiet_env [] (str "@define $X " ++ 34 :: 34 :: 10 :: str "@if $X == 1" ++ 10 :: str "a 1;" ++ 10 :: str "@endif" ++ [10]) = PFault /\
  config_parse quiet_env [] (str "a " ++ [34; 92]) = PFault /\
  kept PREPROCESSOR_PHASE_INITIAL [] (str "a 'it" ++ [92] ++ str "'s';") = Some [Tree (str "a") (Some (str "it" ++ [92] ++ str "'s")) []] /\
  config_parse quiet_env [] (str "'a' b;") = PNull [].
Proof. vm_compute. repeat split. Qed.
