(* ===== verification/HTime.v ===== *)
(** * Times of messages

    The "time" tag of a message, [server_time_to_unix_time] and [my_timegm] (src/misc.c), and the
    order of such texts.  Numbers that do not fit into an [int], which the C library leaves
    undefined, are taken as they are. *)
From S2P Require Import Prelude Chars Strings ChanParam.

(** ** [timegm] of the C library *)

Record tm := MkTm { tm_year : Z; tm_mon : Z; tm_mday : Z; tm_hour : Z; tm_min : Z; tm_sec : Z }.

Definition leap_year (y : Z) : bool := (y mod 4 =? 0) && (negb (y mod 100 =? 0) || (y mod 400 =? 0)).
Definition leaps (y : Z) : Z := y / 4 - y / 100 + y / 400.
Definition year_days (y : Z) : Z := 365 * (y - 1970) + leaps (y - 1) - leaps 1969.
Definition month_starts : list Z := [0; 31; 59; 90; 120; 151; 181; 212; 243; 273; 304; 334; 365].
Definition month_days (y m : Z) : Z := nth (Z.to_nat m) month_starts 0 + (if leap_year y && (2 <=? m) then 1 else 0).

Definition my_timegm (t : tm) : Z :=
  let y := tm_year t + 1900 + tm_mon t / 12 in
  let m := tm_mon t mod 12 in
  (year_days y + month_days y m + tm_mday t - 1) * 86400 + tm_hour t * 3600 + tm_min t * 60 + tm_sec t.

(** ** [sscanf] with "%d" and single characters *)

Definition c_isspace (c : Z) : bool := (c =? 32) || ((9 <=? c) && (c <=? 13)).
Definition digit (c : Z) : bool := (48 <=? c) && (c <=? 57).
Definition number (s : cstring) : Z := fold_left (fun acc c => acc * 10 + (c - 48)) s 0.

Definition scan_int (s : cstring) : option (Z * cstring) :=
  let s := skip_while c_isspace s in
  let '(neg, s) := if hd 0 s =? 45 then (true, tl s) else if hd 0 s =? 43 then (false, tl s) else (false, s) in
  match span digit s with
  | ([], _) => None
  | (ds, s) => Some (if neg : bool then - number ds else number ds, s)
  end.

Definition scan_char (c : Z) (s : cstring) : option cstring :=
  match s with d :: s => if d =? c then Some s else None | [] => None end.

Definition server_time_to_unix_time (tbuf : option cstring) : Z :=
  default 0 (
    tbuf ← tbuf;
    if (length tbuf <? 20)%nat then None
    else
      '(year, s) ← scan_int tbuf; s ← scan_char 45 s;
      '(mon, s) ← scan_int s; s ← scan_char 45 s;
      '(mday, s) ← scan_int s; s ← scan_char 84 s;
      '(hour, s) ← scan_int s; s ← scan_char 58 s;
      '(min, s) ← scan_int s; s ← scan_char 58 s;
      '(sec, s) ← scan_int s; s ← scan_char 46 s;
      '(_, _) ← scan_int s;
      Some (my_timegm (MkTm (year - 1900) (mon - 1) mday hour min sec))).

(** ** Texts *)

(** [%0kd] for a number of at most [k] digits. *)
Fixpoint pad (k : nat) (n : Z) : cstring :=
  match k with O => [] | S k => pad k (n / 10) ++ [48 + n mod 10] end.

(** "%04d-%02d-%02dT%02d:%02d:%02d.%03dZ" of a broken-down time and microseconds. *)
Definition format_time (t : tm) (usec : Z) : cstring :=
  pad 4 (tm_year t + 1900) ++ 45 :: pad 2 (tm_mon t + 1) ++ 45 :: pad 2 (tm_mday t) ++ 84 ::
  pad 2 (tm_hour t) ++ 58 :: pad 2 (tm_min t) ++ 58 :: pad 2 (tm_sec t) ++ 46 :: pad 3 (usec / 1000) ++ [90].

(** A date of the calendar, from 1970 on. *)
Definition valid_tm (t : tm) (usec : Z) : bool :=
  (70 <=? tm_year t) && (tm_year t <=? 8099) && (0 <=? tm_mon t) && (tm_mon t <=? 11) &&
  (1 <=? tm_mday t) && (tm_mday t <=? month_days (tm_year t + 1900) (tm_mon t + 1) - month_days (tm_year t + 1900) (tm_mon t)) &&
  (0 <=? tm_hour t) && (tm_hour t <=? 23) && (0 <=? tm_min t) && (tm_min t <=? 59) && (0 <=? tm_sec t) && (tm_sec t <=? 59) &&
  (0 <=? usec) && (usec <=? 999999).

Example timegm_ex : server_time_to_unix_time (Some (str "2024-02-29T12:34:56.789Z")) = 1709210096.
Proof. reflexivity. Qed.
Example timegm_ex2 : server_time_to_unix_time (Some (str "1970-01-01T00:00:00.000Z")) = 0.
Proof. reflexivity. Qed.
Example format_ex : format_time (MkTm 124 1 29 12 34 56) 789000 = str "2024-02-29T12:34:56.789Z".
Proof. reflexivity. Qed.

(** ** Reading what was formatted *)

Lemma pad_digits k n : 0 <= n -> Forall (fun c => 48 <= c <= 57) (pad k n).
Proof.
  revert n. induction k as [|k IH]; intros n Hn; simpl; [done|]. apply Forall_app. split; [apply IH, Z.div_pos; lia|].
  apply Forall_singleton. pose proof (Z.mod_pos_bound n 10). lia.
Qed.

Lemma length_pad k n : length (pad k n) = k.
Proof. revert n. induction k as [|k IH]; intros n; simpl; [done|]. rewrite length_app, IH. simpl. lia. Qed.

Lemma number_pad k n : 0 <= n < 10 ^ Z.of_nat k -> number (pad k n) = n.
Proof.
  revert n. induction k as [|k IH]; intros n Hn; [simpl in *; unfold number; simpl; lia|].
  unfold number in *. simpl. rewrite fold_left_app. simpl. rewrite IH.
  - pose proof (Z.div_mod n 10). lia.
  - rewrite Nat2Z.inj_succ, Z.pow_succ_r in Hn by lia. split; [apply Z.div_pos; lia|apply Z.div_lt_upper_bound; lia].
Qed.

Lemma span_digits ds c s : Forall (fun c => 48 <= c <= 57) ds -> digit c = false -> span digit (ds ++ c :: s) = (ds, c :: s).
Proof.
  intros Hd Hc. induction Hd as [|x ds Hx _ IH]; simpl; [by rewrite Hc|]. unfold digit at 1. replace ((48 <=? x) && (x <=? 57)) with true by lia.
  by rewrite IH.
Qed.

Lemma scan_int_pad k n c s :
  0 <= n < 10 ^ Z.of_nat k -> (0 < k)%nat -> digit c = false -> scan_int (pad k n ++ c :: s) = Some (n, c :: s).
Proof.
  intros Hn Hk Hc. unfold scan_int. pose proof (pad_digits k n ltac:(lia)) as Hd. pose proof (length_pad k n) as Hl.
  pose proof (number_pad k n Hn) as Hv. pose proof (span_digits _ c s Hd Hc) as Hs.
  destruct (pad k n) as [|x ds]; [simpl in Hl; lia|]. apply Forall_cons in Hd as [Hx Hd].
  cbn [app skip_while] in *. replace (c_isspace x) with false by (unfold c_isspace; lia).
  cbn [hd]. replace (x =? 45) with false by lia. replace (x =? 43) with false by lia. rewrite Hs. by rewrite Hv.
Qed.

Lemma month_length y m : 0 <= m <= 11 -> month_days y (m + 1) - month_days y m <= 31.
Proof.
  intros Hm. assert (exists k : nat, m = Z.of_nat k /\ (k < 12)%nat) as (k & -> & Hk) by (exists (Z.to_nat m); lia).
  unfold month_days. destruct (leap_year _); do 12 (destruct k as [|k]; [vm_compute; discriminate|]); lia.
Qed.

Lemma usec_bound usec : 0 <= usec <= 999999 -> 0 <= usec / 1000 < 1000.
Proof. intros H. split; [apply Z.div_pos; lia|apply Z.div_lt_upper_bound; lia]. Qed.

Lemma unix_time_format t usec : valid_tm t usec = true -> server_time_to_unix_time (Some (format_time t usec)) = my_timegm t.
Proof.
  unfold valid_tm. rewrite !andb_true_iff, !Z.leb_le. intros H. decompose [and] H. clear H.
  pose proof (month_length (tm_year t + 1900) (tm_mon t) ltac:(lia)). pose proof (usec_bound usec ltac:(lia)).
  unfold server_time_to_unix_time. cbn [mbind option_bind]. destruct (length (format_time t usec) <? 20)%nat eqn:Hlen.
  { apply Nat.ltb_lt in Hlen. unfold format_time in Hlen. repeat (rewrite length_app, length_pad in Hlen; cbn [length] in Hlen). simpl in Hlen. lia. }
  unfold format_time. repeat (rewrite scan_int_pad; [|change (10 ^ Z.of_nat 4) with 10000; change (10 ^ Z.of_nat 2) with 100; change (10 ^ Z.of_nat 3) with 1000; lia|lia|reflexivity]; cbn [mbind option_bind scan_char Z.eqb Pos.eqb]).
  simpl. f_equal. destruct t; simpl. f_equal; lia.
Qed.

(** ** Order *)

Definition lex (c d : comparison) : comparison := match c with Eq => d | c => c end.

Lemma strcmp_pad k a b x y :
  0 <= a -> 0 <= b -> a < 10 ^ Z.of_nat k -> b < 10 ^ Z.of_nat k -> strcmp (pad k a ++ x) (pad k b ++ y) = lex (a ?= b) (strcmp x y).
Proof.
  revert a b x y. induction k as [|k IH]; intros a b x y Ha Hb Hak Hbk; [simpl in *; replace a with 0 by lia; by replace b with 0 by lia|].
  rewrite Nat2Z.inj_succ, Z.pow_succ_r in Hak, Hbk by lia. cbn [pad]. rewrite <- !app_assoc.
  rewrite IH by first [apply Z.div_pos; lia|apply Z.div_lt_upper_bound; lia].
  pose proof (Z.div_mod a 10 ltac:(lia)) as Ea. pose proof (Z.div_mod b 10 ltac:(lia)) as Eb.
  pose proof (Z.mod_pos_bound a 10 ltac:(lia)). pose proof (Z.mod_pos_bound b 10 ltac:(lia)).
  unfold strcmp. cbn [app List.list_compare]. destruct (Z.compare_spec (a / 10) (b / 10)) as [E|E|E]; simpl.
  - destruct (Z.compare_spec (48 + a mod 10) (48 + b mod 10)) as [F|F|F]; destruct (Z.compare_spec a b); simpl; try done; lia.
  - destruct (Z.compare_spec a b); simpl; try done; lia.
  - destruct (Z.compare_spec a b); simpl; try done; lia.
Qed.

Lemma strcmp_cons c x y : strcmp (c :: x) (c :: y) = strcmp x y.
Proof. unfold strcmp. simpl. by rewrite Z.compare_refl. Qed.

Definition tm_compare (t u : tm) : comparison :=
  lex (tm_year t ?= tm_year u) (lex (tm_mon t ?= tm_mon u) (lex (tm_mday t ?= tm_mday u)
    (lex (tm_hour t ?= tm_hour u) (lex (tm_min t ?= tm_min u) (tm_sec t ?= tm_sec u))))).

Lemma year_days_step y : year_days (y + 1) = year_days y + 365 + (if leap_year y then 1 else 0).
Proof.
  unfold year_days, leaps, leap_year. replace (y + 1 - 1) with y by lia.
  assert (forall k, 0 < k -> y / k - (y - 1) / k = if y mod k =? 0 then 1 else 0) as Hk.
  { intros k Hk. pose proof (Z.div_mod y k ltac:(lia)). pose proof (Z.mod_pos_bound y k Hk).
    destruct (y mod k =? 0) eqn:E.
    - enough ((y - 1) / k = y / k - 1) by lia. symmetry. apply Z.div_unique with (k - 1); lia.
    - enough ((y - 1) / k = y / k) by lia. symmetry. apply Z.div_unique with (y mod k - 1); lia. }
  pose proof (Hk 4 ltac:(lia)) as H4. pose proof (Hk 100 ltac:(lia)) as H100. pose proof (Hk 400 ltac:(lia)) as H400.
  pose proof (Z.div_mod y 4 ltac:(lia)). pose proof (Z.mod_pos_bound y 4 ltac:(lia)).
  pose proof (Z.div_mod y 100 ltac:(lia)). pose proof (Z.mod_pos_bound y 100 ltac:(lia)).
  pose proof (Z.div_mod y 400 ltac:(lia)). pose proof (Z.mod_pos_bound y 400 ltac:(lia)).
  destruct (y mod 4 =? 0) eqn:E4, (y mod 100 =? 0) eqn:E100, (y mod 400 =? 0) eqn:E400; simpl; lia.
Qed.

Lemma year_days_le y z : y <= z -> year_days y <= year_days z.
Proof.
  intros H. replace z with (y + Z.of_nat (Z.to_nat (z - y))) by lia. induction (Z.to_nat (z - y)) as [|n IH]; [rewrite Z.add_0_r; lia|].
  rewrite Nat2Z.inj_succ. replace (y + Z.succ (Z.of_nat n)) with (y + Z.of_nat n + 1) by lia. rewrite year_days_step. case_match; lia.
Qed.

Lemma month_days_lt y m n : 0 <= m < n -> n <= 12 -> month_days y (m + 1) <= month_days y n.
Proof.
  intros Hm Hn. unfold month_days. generalize (leap_year y). intros leap.
  assert (forallb (fun n => forallb (fun m => if (m <? n)%nat then
    nth (Z.to_nat (Z.of_nat m + 1)) month_starts 0 + (if leap && (2 <=? Z.of_nat m + 1) then 1 else 0) <=?
    nth (Z.to_nat (Z.of_nat n)) month_starts 0 + (if leap && (2 <=? Z.of_nat n) then 1 else 0) else true) (seq 0 13)) (seq 0 13) = true) as H
    by (destruct leap; vm_compute; reflexivity).
  rewrite forallb_forall in H. specialize (H (Z.to_nat n) ltac:(apply in_seq; lia)). rewrite forallb_forall in H.
  specialize (H (Z.to_nat m) ltac:(apply in_seq; lia)). rewrite !Z2Nat.id in H by lia.
  destruct (Z.to_nat m <? Z.to_nat n)%nat eqn:E; [by apply Z.leb_le|apply Nat.ltb_ge in E; lia].
Qed.

(** The day within the year. *)
Lemma month_days_year y m d :
  0 <= m <= 11 -> 1 <= d -> d <= month_days y (m + 1) - month_days y m ->
  0 <= month_days y m + d - 1 < 365 + (if leap_year y then 1 else 0).
Proof.
  intros Hm Hd1 Hd2. pose proof (month_days_lt y m 12 ltac:(lia) ltac:(lia)) as H.
  assert (month_days y 12 = 365 + (if leap_year y then 1 else 0)) as H12 by (unfold month_days; by destruct (leap_year y)).
  assert (0 <= month_days y m); [|lia]. unfold month_days.
  assert (exists k : nat, m = Z.of_nat k /\ (k < 12)%nat) as (k & -> & Hk) by (exists (Z.to_nat m); lia).
  destruct (_ && _); do 12 (destruct k as [|k]; [vm_compute; discriminate|]); lia.
Qed.

Lemma my_timegm_valid t usec :
  valid_tm t usec = true ->
  my_timegm t = (year_days (tm_year t + 1900) + month_days (tm_year t + 1900) (tm_mon t) + tm_mday t - 1) * 86400 + tm_hour t * 3600 + tm_min t * 60 + tm_sec t.
Proof.
  unfold valid_tm. rewrite !andb_true_iff, !Z.leb_le. intros H. decompose [and] H. unfold my_timegm.
  rewrite Z.div_small, Z.mod_small by lia. by rewrite Z.add_0_r.
Qed.

Lemma my_timegm_mono t u a b : valid_tm t a = true -> valid_tm u b = true -> tm_compare t u = Lt -> my_timegm t < my_timegm u.
Proof.
  intros Ht Hu H. rewrite (my_timegm_valid t a Ht), (my_timegm_valid u b Hu). unfold valid_tm in Ht, Hu.
  rewrite !andb_true_iff, !Z.leb_le in Ht, Hu. decompose [and] Ht. decompose [and] Hu. clear Ht Hu. unfold tm_compare in H.
  pose proof (month_days_year (tm_year t + 1900) (tm_mon t) (tm_mday t) ltac:(lia) ltac:(lia) ltac:(lia)) as Hdt.
  pose proof (month_days_year (tm_year u + 1900) (tm_mon u) (tm_mday u) ltac:(lia) ltac:(lia) ltac:(lia)) as Hdu.
  destruct (Z.compare_spec (tm_year t) (tm_year u)) as [Ey|Ey|Ey]; cbn [lex] in H; [|clear H|done].
  - rewrite <- Ey in *. destruct (Z.compare_spec (tm_mon t) (tm_mon u)) as [Em|Em|Em]; cbn [lex] in H; [|clear H|done].
    + rewrite <- Em in *. destruct (Z.compare_spec (tm_mday t) (tm_mday u)) as [Ed|Ed|Ed]; cbn [lex] in H; [|lia|done].
      destruct (Z.compare_spec (tm_hour t) (tm_hour u)); cbn [lex] in H; [|lia|done].
      destruct (Z.compare_spec (tm_min t) (tm_min u)); cbn [lex] in H; [|lia|done].
      destruct (Z.compare_spec (tm_sec t) (tm_sec u)); try done; lia.
    + pose proof (month_days_lt (tm_year t + 1900) (tm_mon t) (tm_mon u) ltac:(lia) ltac:(lia)). lia.
  - pose proof (year_days_step (tm_year t + 1900)). pose proof (year_days_le (tm_year t + 1900 + 1) (tm_year u + 1900) ltac:(lia)). lia.
Qed.


Lemma compare_add_r n m p : (n + p ?= m + p) = (n ?= m).
Proof. rewrite !(Z.add_comm _ p). apply Z.add_compare_mono_l. Qed.

Lemma lex_assoc a b c : lex (lex a b) c = lex a (lex b c).
Proof. by destruct a. Qed.

Lemma strcmp_format t u a b :
  valid_tm t a = true -> valid_tm u b = true ->
  strcmp (format_time t a) (format_time u b) = lex (tm_compare t u) (a / 1000 ?= b / 1000).
Proof.
  unfold valid_tm. rewrite !andb_true_iff, !Z.leb_le. intros Ht Hu. decompose [and] Ht. decompose [and] Hu. clear Ht Hu.
  pose proof (month_length (tm_year t + 1900) (tm_mon t) ltac:(lia)). pose proof (usec_bound a ltac:(lia)).
  pose proof (month_length (tm_year u + 1900) (tm_mon u) ltac:(lia)). pose proof (usec_bound b ltac:(lia)).
  unfold format_time. repeat (rewrite strcmp_pad by (change (10 ^ Z.of_nat 4) with 10000; change (10 ^ Z.of_nat 2) with 100; change (10 ^ Z.of_nat 3) with 1000; lia); rewrite strcmp_cons).
  unfold tm_compare. rewrite !lex_assoc, !compare_add_r. repeat (f_equal; []). by destruct (a / 1000 ?= b / 1000).
Qed.

(** A text that the server itself would write. *)
Definition canonical_time (s : cstring) : Prop := exists t usec, valid_tm t usec = true /\ s = format_time t usec.

Lemma tm_compare_eq t u : tm_compare t u = Eq -> t = u.
Proof.
  unfold tm_compare, lex. destruct t, u; simpl. intros H.
  repeat match type of H with context [?a ?= ?b] => destruct (Z.compare_spec a b); try done end; by subst.
Qed.

(** The order of texts is the order of times, and times are positive after the first second. *)
Lemma unix_time_order a b :
  canonical_time a -> canonical_time b -> strcmp a b <> Gt ->
  server_time_to_unix_time (Some a) <= server_time_to_unix_time (Some b).
Proof.
  intros (t & x & Ht & ->) (u & y & Hu & ->) H. rewrite (unix_time_format t x Ht), (unix_time_format u y Hu).
  rewrite strcmp_format in H by done. destruct (tm_compare t u) eqn:E; [by apply tm_compare_eq in E as ->|apply Z.lt_le_incl; by eapply my_timegm_mono|done].
Qed.

Lemma strcmp_antisym a b : strcmp b a = CompOpp (strcmp a b).
Proof.
  unfold strcmp. revert b. induction a as [|x a IH]; intros [|y b]; simpl; try done. rewrite (Z.compare_antisym x y).
  destruct (x ?= y); simpl; [apply IH|done..].
Qed.

Lemma unix_time_lt a b :
  canonical_time a -> canonical_time b -> server_time_to_unix_time (Some a) < server_time_to_unix_time (Some b) -> strcmp a b = Lt.
Proof.
  intros Ha Hb H. destruct (strcmp a b) eqn:E; [| done|]; exfalso; apply (Z.lt_irrefl (server_time_to_unix_time (Some a)));
    (eapply Z.lt_le_trans; [exact H|]); apply unix_time_order; try done; rewrite strcmp_antisym, E; done.
Qed.

Lemma unix_time_nonneg a : canonical_time a -> 0 <= server_time_to_unix_time (Some a).
Proof.
  intros Ha. change 0 with (server_time_to_unix_time (Some (format_time (MkTm 70 0 1 0 0 0) 0))).
  assert (canonical_time (format_time (MkTm 70 0 1 0 0 0) 0)) as H0 by (by exists (MkTm 70 0 1 0 0 0), 0).
  apply unix_time_order; [done..|]. destruct Ha as (t & usec & Ht & ->). rewrite strcmp_format by done.
  unfold valid_tm in Ht. rewrite !andb_true_iff, !Z.leb_le in Ht. decompose [and] Ht. pose proof (usec_bound usec ltac:(lia)).
  unfold tm_compare. cbn [tm_year tm_mon tm_mday tm_hour tm_min tm_sec]. unfold lex.
  repeat match goal with |- context [?a ?= ?b] => destruct (Z.compare_spec a b); try done; try lia end.
  rewrite Z.div_0_l in * by lia. lia.
Qed.
