(* ===== verification/History.v ===== *)
(** * Channel history in memory (src/modules/history_backend_mem.c)

    The log of a channel with its counters, adding, expiring and deleting lines, and the
    requests of CHATHISTORY; and the hash table of all logs.  A log is the list of its
    lines from [head] to [tail]; a place in it is what comes before and after.  The files
    of persistent channels are not modelled. *)
From S2P Require Import Prelude Chars Strings ChanMode Hash ChanParam Tags HTime.

(** ** Data *)

Record MLine := MkMLine { ml_text : option cstring; ml_concat : bool }.

(** A line of a batch after the first one. *)
Record batch_line := MkBatchLine { bl_line : cstring; bl_concat : bool; bl_mtags : list MessageTag }.

Record HistoryLogLine := MkLogLine {
  hl_line : cstring;
  hl_mtags : list MessageTag;
  hl_t : Z;
  hl_time : cstring;
  hl_msgid : cstring;
  hl_num_lines : Z;
  hl_num_bytes : Z;
  hl_concat : bool;
  hl_batch : list batch_line (** [next_in_batch] *)
}.

Record HistoryLogObject := MkLog {
  ho_name : cstring;
  ho_lines : list HistoryLogLine; (** from [head] to [tail] *)
  ho_num_lines : Z;
  ho_oldest_t : Z;
  ho_max_lines : Z;
  ho_max_time : Z;
  ho_dirty : bool
}.

Definition set_lines (l : list HistoryLogLine) (h : HistoryLogObject) : HistoryLogObject :=
  MkLog (ho_name h) l (ho_num_lines h) (ho_oldest_t h) (ho_max_lines h) (ho_max_time h) (ho_dirty h).
Definition count_lines (n : Z) (h : HistoryLogObject) : HistoryLogObject :=
  MkLog (ho_name h) (ho_lines h) (ho_num_lines h + n) (ho_oldest_t h) (ho_max_lines h) (ho_max_time h) true.
Definition set_oldest (t : Z) (h : HistoryLogObject) : HistoryLogObject :=
  MkLog (ho_name h) (ho_lines h) (ho_num_lines h) t (ho_max_lines h) (ho_max_time h) (ho_dirty h).
Definition set_limits (lines time : Z) (h : HistoryLogObject) : HistoryLogObject :=
  MkLog (ho_name h) (ho_lines h) (ho_num_lines h) (ho_oldest_t h) lines time (ho_dirty h).

Inductive HistoryFilterCommand := HFC_SIMPLE | HFC_BEFORE | HFC_AFTER | HFC_LATEST | HFC_AROUND | HFC_BETWEEN.

Record HistoryFilter := MkFilter {
  hf_cmd : HistoryFilterCommand;
  hf_last_lines : Z;
  hf_last_seconds : Z;
  hf_timestamp_a : option cstring;
  hf_msgid_a : option cstring;
  hf_timestamp_b : option cstring;
  hf_msgid_b : option cstring;
  hf_account : option cstring;
  hf_limit : Z
}.

Record HistoryResult := MkResult { r_log : list HistoryLogLine; r_num_lines : Z; r_num_bytes : Z; r_reached_end : bool }.

(** What the system provides: [TStime], the current time of [gettimeofday] and [gmtime], and the
    characters of [gen_random_alnum]. *)
Record henv := MkHEnv { he_now : Z; he_tm : tm; he_usec : Z; he_random : cstring }.

Section history.
Context (E : henv).

(** ** Lines *)

(** The tags of a line with its time and message ID.  A "time" tag without a value, which would
    leave a null pointer in [l->time], has no result. *)
Definition hbm_duplicate_mtags (m : list MessageTag) : option (list MessageTag * Z * cstring * cstring) :=
  let '(tags, n) :=
    match find_mtag m (str "time") with
    | Some n => (m, n)
    | None => let n := MkTag (str "time") (Some (format_time (he_tm E) (he_usec E))) in (n :: m, n)
    end in
  time ← tag_value n;
  let t := server_time_to_unix_time (tag_value n) in
  match (n ← find_mtag tags (str "msgid"); tag_value n) with
  | Some msgid => Some (tags, t, time, msgid)
  | None => Some (MkTag (str "msgid") (Some (he_random E)) :: tags, t, time, he_random E)
  end.

(** The walk of [hbm_history_add_line_in_time], backwards over the lines [rev]: the lines before
    and after the place of the new one; [None] when the line is there. *)
Fixpoint hbm_history_add_line_in_time (l : HistoryLogLine) (rev post : list HistoryLogLine) : option (list HistoryLogLine * list HistoryLogLine) :=
  match rev with
  | [] => Some ([], post)
  | e :: rest =>
      if hl_t e <? hl_t l then Some (reverse (e :: rest), post)
      else if bool_decide (hl_msgid e = hl_msgid l) then None
      else if (hl_t e =? hl_t l) && negb (bool_decide (strcmp (hl_time e) (hl_time l) = Gt)) then Some (reverse (e :: rest), post)
      else hbm_history_add_line_in_time l rest (e :: post)
  end.

(** [hbm_history_add_line_after_position] *)
Definition hbm_history_add_line_after_position (h : HistoryLogObject) (pre : list HistoryLogLine) (n : HistoryLogLine) (post : list HistoryLogLine) : HistoryLogObject :=
  set_lines (pre ++ n :: post) h.

(** The log, and the new line in its place unless it was refused. *)
Definition hbm_history_add_line (h : HistoryLogObject) (m : list MessageTag) (line : cstring)
  : option (HistoryLogObject * option (list HistoryLogLine * HistoryLogLine * list HistoryLogLine)) :=
  '(tags, t, time, msgid) ← hbm_duplicate_mtags m;
  let l := MkLogLine line tags t time msgid 1 (Z.of_nat (length line)) false [] in
  let place :=
    match last (ho_lines h) with
    | None => Some ([], [])
    | Some tail => if hl_t tail <? t then Some (ho_lines h, []) else hbm_history_add_line_in_time l (reverse (ho_lines h)) []
    end in
  match place with
  | None => Some (h, None)
  | Some (pre, post) =>
      let h := count_lines 1 (hbm_history_add_line_after_position h pre l post) in
      Some (if (t <? ho_oldest_t h) || (ho_oldest_t h =? 0) then set_oldest t h else h, Some (pre, l, post))
  end.

(** The line [l] is taken out from between [pre] and [post]. *)
Definition hbm_history_del_line (h : HistoryLogObject) (pre : list HistoryLogLine) (l : HistoryLogLine) (post : list HistoryLogLine) : HistoryLogObject :=
  count_lines (- hl_num_lines l) (set_lines (pre ++ post) h).

(** [while (... && h->head) hbm_history_del_line(h, h->head);] *)
Fixpoint evict (more : HistoryLogObject -> bool) (h : HistoryLogObject) (lines : list HistoryLogLine) : HistoryLogObject :=
  match lines with
  | [] => h
  | l :: rest => if more h then evict more (hbm_history_del_line h [] l rest) rest else h
  end.

(** The default limits of a log that has none. *)
Definition have_limits (h : HistoryLogObject) : HistoryLogObject := if ho_max_lines h =? 0 then set_limits 50 86400 h else h.

Definition log_add (h : HistoryLogObject) (m : list MessageTag) (line : cstring) : option HistoryLogObject :=
  let h := have_limits h in
  let h := evict (fun h => ho_max_lines h <=? ho_num_lines h) h (ho_lines h) in
  '(h, _) ← hbm_history_add_line h m line; Some h.

(** [":%s %s %s :%s"] in a buffer of 512 bytes. *)
Definition batch_text (source cmd target : cstring) (ml : MLine) : cstring :=
  take 511 (58 :: source ++ [ch_space] ++ cmd ++ [ch_space] ++ target ++ [ch_space; 58] ++ default [] (ml_text ml)).

Definition log_add_multiline (h : HistoryLogObject) (m : list MessageTag) (source cmd target : cstring) (lines : list MLine) : option HistoryLogObject :=
  let h := have_limits h in
  match lines with
  | [] => Some h
  | first :: rest =>
      let incoming_count := Z.of_nat (length lines) in
      let h := evict (fun h => ho_max_lines h <? ho_num_lines h + incoming_count) h (ho_lines h) in
      '(h, place) ← hbm_history_add_line h m (batch_text source cmd target first);
      match place with
      | None => Some h
      | Some (pre, l, post) =>
          let batch := List.map (fun ml => MkBatchLine (batch_text source cmd target ml) (ml_concat ml) []) rest in
          let l := MkLogLine (hl_line l) (hl_mtags l) (hl_t l) (hl_time l) (hl_msgid l) incoming_count
                     (foldl (fun n b => n + Z.of_nat (length (bl_line b))) (hl_num_bytes l) batch) (hl_concat l) batch in
          Some (count_lines (Z.of_nat (length rest)) (set_lines (pre ++ l :: post) h))
      end
  end.

(** ** Expiry *)

Fixpoint cleanup_time (redline : Z) (h : HistoryLogObject) (pre rest : list HistoryLogLine) : HistoryLogObject :=
  match rest with
  | [] => h
  | l :: rest =>
      if hl_t l <? redline then cleanup_time redline (hbm_history_del_line h pre l rest) pre rest
      else cleanup_time redline (if (ho_oldest_t h =? 0) || (hl_t l <? ho_oldest_t h) then set_oldest (hl_t l) h else h) (pre ++ [l]) rest
  end.

Fixpoint cleanup_lines (h : HistoryLogObject) (pre rest : list HistoryLogLine) : HistoryLogObject :=
  match rest with
  | [] => h
  | l :: rest =>
      if ho_max_lines h <? ho_num_lines h then
        match rest with [] => h | _ => cleanup_lines (hbm_history_del_line h pre l rest) pre rest end
      else cleanup_lines (if (ho_oldest_t h =? 0) || (hl_t l <? ho_oldest_t h) then set_oldest (hl_t l) h else h) (pre ++ [l]) rest
  end.

Definition hbm_history_cleanup (h : HistoryLogObject) : HistoryLogObject :=
  let redline := he_now E - ho_max_time h in
  let h := if ho_oldest_t h <? redline then cleanup_time redline (set_oldest 0 h) [] (ho_lines h) else h in
  if ho_max_lines h <? ho_num_lines h then cleanup_lines (set_oldest 0 h) [] (ho_lines h) else h.

(** ** Requests *)

Definition duplicate_log_line (l : HistoryLogLine) : option HistoryLogLine :=
  '(tags, t, time, msgid) ← hbm_duplicate_mtags (hl_mtags l);
  Some (MkLogLine (hl_line l) tags t time msgid (hl_num_lines l) (hl_num_bytes l) (hl_concat l) (hl_batch l)).

Definition hbm_result_append_line (r : HistoryResult) (n : HistoryLogLine) : HistoryResult :=
  MkResult (r_log r ++ [n]) (r_num_lines r + hl_num_lines n) (r_num_bytes r + hl_num_bytes n) (r_reached_end r).
Definition hbm_result_prepend_line (r : HistoryResult) (n : HistoryLogLine) : HistoryResult :=
  MkResult (n :: r_log r) (r_num_lines r + hl_num_lines n) (r_num_bytes r + hl_num_bytes n) (r_reached_end r).
Definition set_reached_end (b : bool) (r : HistoryResult) : HistoryResult := MkResult (r_log r) (r_num_lines r) (r_num_bytes r) b.

(** [filter->timestamp && (strcmp(l->time, filter->timestamp) ... 0)] and
    [filter->msgid && !strcmp(l->msgid, filter->msgid)] *)
Definition time_test (ok : comparison -> bool) (ts : option cstring) (l : HistoryLogLine) : bool :=
  match ts with Some ts => ok (strcmp (hl_time l) ts) | None => false end.
Definition is_msgid (msgid : option cstring) (l : HistoryLogLine) : bool := bool_decide (msgid = Some (hl_msgid l)).

Definition c_lt (c : comparison) : bool := match c with Lt => true | _ => false end.
Definition c_gt (c : comparison) : bool := match c with Gt => true | _ => false end.
Definition c_le (c : comparison) : bool := negb (c_gt c).
Definition c_ge (c : comparison) : bool := negb (c_lt c).

Fixpoint after_loop (f : HistoryFilter) (lines : list HistoryLogLine) (started : bool) (written : Z) (r : HistoryResult) : option (HistoryResult * Z) :=
  match lines with
  | [] => Some (set_reached_end true r, written)
  | l :: lines =>
      if negb started && negb (time_test c_gt (hf_timestamp_a f) l) && is_msgid (hf_msgid_a f) l then after_loop f lines true written r
      else if started || time_test c_gt (hf_timestamp_a f) l then
        if time_test c_ge (hf_timestamp_b f) l || is_msgid (hf_msgid_b f) l then Some (set_reached_end true r, written)
        else if hf_limit f <=? written then Some (set_reached_end false r, written)
        else n ← duplicate_log_line l; after_loop f lines true (written + 1) (hbm_result_append_line r n)
      else after_loop f lines false written r
  end.

Definition hbm_return_after (r : HistoryResult) (h : HistoryLogObject) (f : HistoryFilter) : option (HistoryResult * Z) :=
  after_loop f (ho_lines h) false 0 r.

(** Backwards, on the reversed log. *)
Fixpoint before_loop (f : HistoryFilter) (rev : list HistoryLogLine) (started : bool) (written : Z) (r : HistoryResult) : option (HistoryResult * Z) :=
  match rev with
  | [] => Some (set_reached_end true r, written)
  | l :: rev =>
      if negb started && negb (time_test c_lt (hf_timestamp_a f) l) && is_msgid (hf_msgid_a f) l then before_loop f rev true written r
      else if started || time_test c_lt (hf_timestamp_a f) l then
        if time_test c_lt (hf_timestamp_b f) l || is_msgid (hf_msgid_b f) l then Some (set_reached_end true r, written)
        else if hf_limit f <=? written then Some (set_reached_end false r, written)
        else n ← duplicate_log_line l; before_loop f rev true (written + 1) (hbm_result_prepend_line r n)
      else before_loop f rev false written r
  end.

Definition hbm_return_before (r : HistoryResult) (h : HistoryLogObject) (f : HistoryFilter) : option (HistoryResult * Z) :=
  before_loop f (reverse (ho_lines h)) false 0 r.

Fixpoint latest_loop (f : HistoryFilter) (rev : list HistoryLogLine) (written : Z) (r : HistoryResult) : option (HistoryResult * Z) :=
  match rev with
  | [] => Some (set_reached_end true r, written)
  | l :: rev =>
      if time_test c_le (hf_timestamp_a f) l || is_msgid (hf_msgid_a f) l then Some (set_reached_end true r, written)
      else if hf_limit f <=? written then Some (set_reached_end false r, written)
      else n ← duplicate_log_line l; latest_loop f rev (written + 1) (hbm_result_prepend_line r n)
  end.

Definition hbm_return_latest (r : HistoryResult) (h : HistoryLogObject) (f : HistoryFilter) : option (HistoryResult * Z) :=
  latest_loop f (reverse (ho_lines h)) 0 r.

Fixpoint simple_loop (redline to_skip : Z) (lines : list HistoryLogLine) (cnt written : Z) (r : HistoryResult) : option (HistoryResult * Z) :=
  match lines with
  | [] => Some (r, written)
  | l :: lines =>
      if redline <=? hl_t l then
        if to_skip <? cnt + 1 then n ← duplicate_log_line l; simple_loop redline to_skip lines (cnt + 1) (written + 1) (hbm_result_append_line r n)
        else simple_loop redline to_skip lines (cnt + 1) written r
      else simple_loop redline to_skip lines cnt written r
  end.

Definition hbm_return_simple (r : HistoryResult) (h : HistoryLogObject) (f : HistoryFilter) : option (HistoryResult * Z) :=
  let redline := if negb (hf_last_seconds f =? 0) && (hf_last_seconds f <? ho_max_time h) then he_now E - hf_last_seconds f else he_now E - ho_max_time h in
  let lines_sendable := Z.of_nat (length (List.filter (fun l => redline <=? hl_t l) (ho_lines h))) in
  let lines_to_skip := if hf_last_lines f <? lines_sendable then lines_sendable - hf_last_lines f else 0 in
  simple_loop redline lines_to_skip (ho_lines h) 0 0 r.

(** The first loop of [hbm_return_around]; [post] are the lines after the current one, and
    [started] the lines from [started] on, if it is set. *)
Fixpoint around_loop (f : HistoryFilter) (rev post : list HistoryLogLine) (started : list HistoryLogLine) (written : Z) (r : HistoryResult)
  : option (HistoryResult * Z * list HistoryLogLine) :=
  match rev with
  | [] => Some (r, written, started)
  | l :: rev =>
      let before := time_test c_lt (hf_timestamp_a f) l in
      if bool_decide (started = []) && negb before && is_msgid (hf_msgid_a f) l then around_loop f rev (l :: post) (l :: post) written r
      else
        let started := if bool_decide (started = []) && before then post else started in
        match started with
        | [] => around_loop f rev (l :: post) [] written r
        | _ :: next =>
            if time_test c_lt (hf_timestamp_b f) l || is_msgid (hf_msgid_b f) l then Some (r, written, started)
            else
              n ← duplicate_log_line l;
              let r := hbm_result_prepend_line r n in
              let written := written + 1 in
              if (match next with [] => hf_limit f - 1 | _ => Z.quot (hf_limit f) 2 end) <=? written then Some (r, written, started)
              else around_loop f rev (l :: post) started written r
        end
  end.

Fixpoint around_rest (f : HistoryFilter) (lines : list HistoryLogLine) (written : Z) (r : HistoryResult) : option (HistoryResult * Z) :=
  match lines with
  | [] => Some (r, written)
  | l :: lines =>
      n ← duplicate_log_line l;
      let r := hbm_result_append_line r n in
      let written := written + 1 in
      if hf_limit f <=? written then Some (r, written) else around_rest f lines written r
  end.

Definition hbm_return_around (r : HistoryResult) (h : HistoryLogObject) (f : HistoryFilter) : option (HistoryResult * Z) :=
  '(r, written, started) ← around_loop f (reverse (ho_lines h)) [] [] 0 r;
  let started :=
    match hf_timestamp_a f, last (ho_lines h) with
    | Some ts, Some tail =>
        if (written =? 0) && bool_decide (started = []) && (server_time_to_unix_time (Some (hl_time tail)) - server_time_to_unix_time (Some ts) <? 3600)
        then ho_lines h else started
    | _, _ => started
    end in
  around_rest f started written r.

(** [Some true] for forward, [Some false] for backward, [None] for -1. *)
Fixpoint direction_loop (f : HistoryFilter) (lines : list HistoryLogLine) (found_a found_b : bool) : option bool :=
  match lines with
  | [] => None
  | l :: lines =>
      let new_a := negb found_a && (time_test c_ge (hf_timestamp_a f) l || is_msgid (hf_msgid_a f) l) in
      let new_b := negb found_b && (time_test c_ge (hf_timestamp_b f) l || is_msgid (hf_msgid_b f) l) in
      if new_a && found_b then Some false
      else
        match (if new_a then hf_timestamp_b f else None) with
        | Some ts_b => Some (c_le (strcmp (hl_time l) ts_b))
        | None =>
            let found_a := found_a || new_a in
            if new_b && found_a then Some true
            else
              match (if new_b then hf_timestamp_a f else None) with
              | Some ts_a => Some (c_le (strcmp ts_a (hl_time l)))
              | None => direction_loop f lines found_a (found_b || new_b)
              end
        end
  end.

Definition hbm_return_between_figure_out_direction (h : HistoryLogObject) (f : HistoryFilter) : option bool :=
  match hf_timestamp_a f, hf_timestamp_b f with
  | Some a, Some b => Some (c_le (strcmp a b))
  | _, _ => direction_loop f (ho_lines h) false false
  end.

Definition hbm_return_between (r : HistoryResult) (h : HistoryLogObject) (f : HistoryFilter) : option (HistoryResult * Z) :=
  match hbm_return_between_figure_out_direction h f with
  | Some true => hbm_return_after r h f
  | Some false => hbm_return_after r h (MkFilter HFC_BEFORE 0 0 (hf_timestamp_b f) (hf_msgid_b f) (hf_timestamp_a f) (hf_msgid_a f) None (hf_limit f))
  | None => Some (set_reached_end true r, 0)
  end.

(** The log after expiry, and the result. *)
Definition log_request (h : HistoryLogObject) (f : HistoryFilter) : option (HistoryLogObject * HistoryResult) :=
  let h := if ho_oldest_t h <? he_now E - ho_max_time h then hbm_history_cleanup h else h in
  let r := MkResult [] 0 0 false in
  '(r, _) ← match hf_cmd f with
            | HFC_BEFORE => hbm_return_before r h f
            | HFC_AFTER => hbm_return_after r h f
            | HFC_LATEST => hbm_return_latest r h f
            | HFC_AROUND => hbm_return_around r h f
            | HFC_BETWEEN => hbm_return_between r h f
            | HFC_SIMPLE => hbm_return_simple r h f
            end;
  Some (h, r).

(** ** Deletion *)

(** [None] is a tag "account" without a value, which is compared. *)
Definition account_matches (f : HistoryFilter) (l : HistoryLogLine) : option bool :=
  match hf_account f with
  | None => Some true
  | Some account =>
      match find_mtag (hl_mtags l) (str "account") with
      | None => Some false
      | Some m => value ← tag_value m; Some (bool_decide (value = account))
      end
  end.

Fixpoint delete_loop (f : HistoryFilter) (h : HistoryLogObject) (pre rest : list HistoryLogLine) (started : bool) (deleted rejected : Z) : option (HistoryLogObject * Z * Z) :=
  match rest with
  | [] => Some (h, deleted, rejected)
  | l :: rest =>
      let started := started || time_test c_gt (hf_timestamp_a f) l || is_msgid (hf_msgid_a f) l in
      if started then
        if time_test c_ge (hf_timestamp_b f) l || is_msgid (hf_msgid_b f) l then Some (h, deleted, rejected)
        else
          ok ← account_matches f l;
          if (ok : bool) then
            let h := hbm_history_del_line h pre l rest in
            if hf_limit f <=? deleted + 1 then Some (h, deleted + 1, rejected) else delete_loop f h pre rest started (deleted + 1) rejected
          else delete_loop f h (pre ++ [l]) rest started deleted (rejected + 1)
      else if hf_limit f <=? deleted then Some (h, deleted, rejected)
      else delete_loop f h (pre ++ [l]) rest started deleted rejected
  end.

Definition log_delete (h : HistoryLogObject) (f : HistoryFilter) : option (HistoryLogObject * Z * Z) := delete_loop f h [] (ho_lines h) false 0 0.
End history.

(** ** The table of logs *)

Definition OBJECTLEN : nat := Nat.max NICKLEN CHANNELLEN.
Definition HISTORY_BACKEND_MEM_HASH_TABLE_SIZE : Z := 1019.
Definition HISTORY_SPREAD : Z := 60.
Definition HISTORY_CLEAN_PER_LOOP : Z := HISTORY_BACKEND_MEM_HASH_TABLE_SIZE / HISTORY_SPREAD.

(** [history_hash_table] *)
Abbreviation hbm_table := (gmap Z (list HistoryLogObject)).

Section table.
Context (siphashkey : list Z).

Definition hbm_hash (object : cstring) : Z := siphash_nocase object siphashkey mod HISTORY_BACKEND_MEM_HASH_TABLE_SIZE.
Definition hbm_bucket (t : hbm_table) (k : Z) : list HistoryLogObject := default [] (t !! k).

Definition hbm_find_object (t : hbm_table) (object : cstring) : option HistoryLogObject :=
  List.find (fun h => strcasecmp_eq object (ho_name h)) (hbm_bucket t (hbm_hash object)).

Definition new_log (object : cstring) : HistoryLogObject := MkLog (take OBJECTLEN object) [] 0 0 0 0 false.

Definition hbm_find_or_add_object (t : hbm_table) (object : cstring) : hbm_table * HistoryLogObject :=
  match hbm_find_object t object with
  | Some h => (t, h)
  | None => let h := new_log object in (<[hbm_hash object := h :: hbm_bucket t (hbm_hash object)]> t, h)
  end.

(** The log [h] of the table is changed in place. *)
Definition put_log (t : hbm_table) (h : HistoryLogObject) : hbm_table :=
  let k := hbm_hash (ho_name h) in
  <[k := List.map (fun o => if bool_decide (ho_name o = ho_name h) then h else o) (hbm_bucket t k)]> t.

Definition hbm_delete_object_hlo (t : hbm_table) (h : HistoryLogObject) : hbm_table :=
  let k := hbm_hash (ho_name h) in
  <[k := List.filter (fun o => negb (bool_decide (ho_name o = ho_name h))) (hbm_bucket t k)]> t.

Definition hbm_history_add (E : henv) (t : hbm_table) (object : cstring) (m : list MessageTag) (line : cstring) : option hbm_table :=
  let '(t, h) := hbm_find_or_add_object t object in
  h ← log_add E h m line; Some (put_log t h).

Definition hbm_history_add_multiline (E : henv) (t : hbm_table) (object : cstring) (m : list MessageTag) (source cmd target : cstring) (lines : list MLine) : option hbm_table :=
  let '(t, h) := hbm_find_or_add_object t object in
  h ← log_add_multiline E h m source cmd target lines; Some (put_log t h).

Definition hbm_history_request (E : henv) (t : hbm_table) (object : cstring) (f : HistoryFilter) : option (hbm_table * option HistoryResult) :=
  match hbm_find_object t object with
  | None => Some (t, None)
  | Some h => '(h, r) ← log_request E h f; Some (put_log t h, Some r)
  end.

Definition hbm_history_delete (t : hbm_table) (object : cstring) (f : HistoryFilter) : option (hbm_table * Z * Z) :=
  match hbm_find_object t object with
  | None => Some (t, 0, 0)
  | Some h => '(h, deleted, rejected) ← log_delete h f; Some (put_log t h, deleted, rejected)
  end.

Definition hbm_history_destroy (t : hbm_table) (object : cstring) : hbm_table :=
  match hbm_find_object t object with None => t | Some h => hbm_delete_object_hlo t h end.

Definition hbm_history_set_limit (E : henv) (t : hbm_table) (object : cstring) (max_lines max_time : Z) : hbm_table :=
  let '(t, h) := hbm_find_or_add_object t object in
  put_log t (hbm_history_cleanup E (set_limits max_lines max_time h)).

(** The event, with its static variable [hashnum]; files are not written. *)
Fixpoint clean_loop (E : henv) (n : nat) (t : hbm_table) (hashnum : Z) : hbm_table * Z :=
  match n with
  | O => (t, hashnum)
  | S n =>
      let t := <[hashnum := List.map (hbm_history_cleanup E) (hbm_bucket t hashnum)]> t in
      clean_loop E n t (if HISTORY_BACKEND_MEM_HASH_TABLE_SIZE <=? hashnum + 1 then 0 else hashnum + 1)
  end.

Definition history_mem_clean (E : henv) (t : hbm_table) (hashnum : Z) : hbm_table * Z :=
  clean_loop E (Z.to_nat (HISTORY_CLEAN_PER_LOOP + 1)) t hashnum.
End table.
