(* ===== verification/HistorySpec.v ===== *)
(** * Channel history: order, limits and requests

    The invariant of a log and of the table of logs, and what the requests return. *)
From S2P Require Import Prelude Chars Strings ChanMode Hash ChanParam Tags HTime History.
From Stdlib Require Import Sorting.Sorted.

(** ** Order of texts *)

Lemma strcmp_eq a b : strcmp a b = Eq <-> a = b.
Proof.
  unfold strcmp. revert b. induction a as [|x a IH]; intros [|y b]; simpl; try done.
  destruct (Z.compare_spec x y) as [->|H|H]; [rewrite IH; naive_solver|split; [done|intros; simplify_eq; lia]..].
Qed.

Lemma strcmp_trans a b c :
  strcmp a b <> Gt -> strcmp b c <> Gt -> strcmp a c <> Gt /\ (strcmp a c = Eq -> strcmp a b = Eq /\ strcmp b c = Eq).
Proof.
  unfold strcmp. revert b c. induction a as [|x a IH]; intros [|y b] [|z c]; simpl; try done.
  destruct (Z.compare_spec x y) as [->|H1|H1], (Z.compare_spec y z) as [->|H2|H2]; try done; intros Hab Hbc; rewrite ?Z.compare_refl; [by apply IH|..];
    match goal with |- context [?p ?= ?q] => destruct (Z.compare_spec p q); try lia end; split; done.
Qed.

Lemma strcmp_refl a : strcmp a a = Eq.
Proof. by apply strcmp_eq. Qed.

Lemma strcmp_lt_le a b c : strcmp a b = Lt -> strcmp b c <> Gt -> strcmp a c = Lt.
Proof. intros H1 H2. destruct (strcmp_trans a b c) as [H3 H4]; [congruence|done|]. destruct (strcmp a c); [|done|done]. destruct H4; congruence. Qed.

Lemma strcmp_le_lt a b c : strcmp a b <> Gt -> strcmp b c = Lt -> strcmp a c = Lt.
Proof. intros H1 H2. destruct (strcmp_trans a b c) as [H3 H4]; [done|congruence|]. destruct (strcmp a c); [|done|done]. destruct H4; congruence. Qed.

Lemma strcmp_swap a b : strcmp a b = Gt <-> strcmp b a = Lt.
Proof. rewrite (strcmp_antisym b a). by destruct (strcmp b a). Qed.

(** ** Lines *)

Definition tags_of (tags : list MessageTag) (time msgid : cstring) : Prop :=
  (exists n, find_mtag tags (str "time") = Some n /\ tag_value n = Some time) /\
  (n ← find_mtag tags (str "msgid"); tag_value n) = Some msgid.

(** The lines of a log, in two degrees: [strict] says that all messages have a time as the
    server writes it, otherwise a time is any text. *)
Section invariant.
Context (strict : bool).

Record line_ok (l : HistoryLogLine) : Prop := {
  lk_t : hl_t l = server_time_to_unix_time (Some (hl_time l));
  lk_tags : tags_of (hl_mtags l) (hl_time l) (hl_msgid l);
  lk_account : forall n, find_mtag (hl_mtags l) (str "account") = Some n -> tag_value n <> None;
  lk_num : hl_num_lines l = 1 + Z.of_nat (length (hl_batch l));
  lk_strict : strict = true -> canonical_time (hl_time l) /\ 0 < hl_t l
}.

(** The order of a log: by the second, and by the text of the time within a second. *)
Definition le_line (a b : HistoryLogLine) : Prop := hl_t a < hl_t b \/ (hl_t a = hl_t b /\ strcmp (hl_time a) (hl_time b) <> Gt).

Lemma le_line_trans a b c : le_line a b -> le_line b c -> le_line a c.
Proof using Type. intros [H1|[H1 H2]] [H3|[H3 H4]]; [left; lia..|right]. split; [lia|]. by apply (strcmp_trans _ _ _ H2 H4). Qed.

(** The tags of a message that is stored: an account has a name, and a time, if there is
    one, has a value; in the strict case it is as the server writes it. *)
Definition mtags_ok (E : henv) (m : list MessageTag) : Prop :=
  (forall n, find_mtag m (str "account") = Some n -> tag_value n <> None) /\
  match find_mtag m (str "time") with
  | Some n => exists time, tag_value n = Some time /\ (strict = true -> canonical_time time /\ 0 < server_time_to_unix_time (Some time))
  | None => strict = true -> valid_tm (he_tm E) (he_usec E) = true /\ 0 < my_timegm (he_tm E)
  end.

Lemma find_mtag_cons n m name : find_mtag (n :: m) name = if bool_decide (tag_name n = name) then Some n else find_mtag m name.
Proof. done. Qed.

Lemma duplicate_mtags_known E tags time msgid :
  tags_of tags time msgid -> hbm_duplicate_mtags E tags = Some (tags, server_time_to_unix_time (Some time), time, msgid).
Proof. intros [(n & Hn & Hv) Hm]. unfold hbm_duplicate_mtags. rewrite Hn, Hv. cbn -[find_mtag str]. by rewrite Hm. Qed.

Lemma duplicate_mtags_ok E m :
  mtags_ok E m -> exists tags t time msgid, hbm_duplicate_mtags E m = Some (tags, t, time, msgid) /\
    tags_of tags time msgid /\ t = server_time_to_unix_time (Some time) /\
    (forall n, find_mtag tags (str "account") = Some n -> tag_value n <> None) /\
    (strict = true -> canonical_time time /\ 0 < t).
Proof using Type.
  intros [Ha Hm]. unfold hbm_duplicate_mtags in *.
  set (p := match find_mtag m (str "time") with Some n => (m, n) | None => _ end).
  assert ((forall n, find_mtag p.1 (str "account") = Some n -> tag_value n <> None) /\
    exists time, find_mtag p.1 (str "time") = Some p.2 /\ tag_value p.2 = Some time /\
      (strict = true -> canonical_time time /\ 0 < server_time_to_unix_time (Some time)))
    as (Hac & time & H1 & H2 & H3).
  { unfold p. destruct (find_mtag m (str "time")) as [n|] eqn:En; [split; [done|]; destruct Hm as (time & ? & ?); by exists time|].
    split; [cbn [fst]; rewrite find_mtag_cons, bool_decide_false by (vm_compute; discriminate); done|].
    eexists. cbn [fst snd]. split; [by rewrite find_mtag_cons, bool_decide_true|]. split; [done|].
    intros Hst. destruct (Hm Hst) as [Hv Hpos]. split; [by eexists _, _|]. by rewrite unix_time_format. }
  destruct p as [tags n]; simpl in *. rewrite H2. cbn -[find_mtag str server_time_to_unix_time]. destruct (_ ≫= tag_value) as [msgid|] eqn:Em.
  - exists tags, (server_time_to_unix_time (Some time)), time, msgid. split_and!; try done. split; [by exists n|done].
  - eexists _, _, _, _. split; [reflexivity|]. split_and!; try done.
    split; [|done]. exists n. rewrite find_mtag_cons, bool_decide_false by (vm_compute; discriminate). done.
Qed.

Lemma duplicate_log_line_ok E l : line_ok l -> duplicate_log_line E l = Some l.
Proof using Type.
  intros Hl. unfold duplicate_log_line. rewrite (duplicate_mtags_known E _ _ _ (lk_tags l Hl)). simpl. f_equal.
  rewrite <- (lk_t l Hl). by destruct l.
Qed.

(** ** Insertion *)

Lemma StronglySorted_insert {A} (R : A -> A -> Prop) pre x post :
  StronglySorted R (pre ++ post) -> Forall (fun y => R y x) pre -> Forall (R x) post -> StronglySorted R (pre ++ x :: post).
Proof.
  induction pre as [|y pre IH]; simpl; intros Hs Hpre Hpost; [by constructor|].
  apply StronglySorted_inv in Hs as [Hs Hy]. apply Forall_cons in Hpre as [Hyx Hpre]. constructor; [by apply IH|].
  apply Forall_app in Hy as [H1 H2]. apply Forall_app. split; [done|]. by constructor.
Qed.

Lemma StronglySorted_app_inv {A} (R : A -> A -> Prop) l k :
  StronglySorted R (l ++ k) -> StronglySorted R l /\ StronglySorted R k /\ Forall (fun x => Forall (R x) k) l.
Proof.
  induction l as [|x l IH]; simpl; intros H; [by split_and!; [constructor|done|]|].
  apply StronglySorted_inv in H as [H Hx]. destruct (IH H) as (H1 & H2 & H3). apply Forall_app in Hx as [Hx1 Hx2].
  split_and!; [by constructor|done|by constructor].
Qed.

(** All lines up to [e] come before [l] if [e] does. *)
Lemma sorted_before pre e post l : StronglySorted le_line (pre ++ e :: post) -> le_line e l -> Forall (fun x => le_line x l) (pre ++ [e]).
Proof.
  intros Hs He. apply StronglySorted_app_inv in Hs as (_ & _ & Hs). apply Forall_app. split; [|by apply Forall_singleton].
  eapply Forall_impl; [exact Hs|]. simpl. intros x [Hx _]%Forall_cons. by eapply le_line_trans.
Qed.

Lemma add_in_time_ok l rev post pre post' :
  Forall line_ok rev -> line_ok l -> StronglySorted le_line (reverse rev ++ post) -> Forall (le_line l) post ->
  hbm_history_add_line_in_time l rev post = Some (pre, post') ->
  pre ++ post' = reverse rev ++ post /\ Forall (fun x => le_line x l) pre /\ Forall (le_line l) post'.
Proof.
  intros Hrev Hl. revert post. induction Hrev as [|e rest He Hrest IH]; intros post Hs Hpost H; cbn [hbm_history_add_line_in_time] in H.
  { simplify_eq. done. }
  rewrite reverse_cons, <- app_assoc in Hs. cbn [app] in Hs.
  destruct (hl_t e <? hl_t l) eqn:E1.
  { simplify_eq. split_and!; [done| |done]. rewrite reverse_cons. eapply sorted_before; [exact Hs|]. left. lia. }
  destruct (bool_decide _); [done|].
  destruct (_ && _) eqn:E2.
  { simplify_eq. split_and!; [done| |done]. rewrite reverse_cons. eapply sorted_before; [exact Hs|]. right.
    apply andb_prop in E2 as [E3%Z.eqb_eq E2%negb_true_iff]. split; [done|]. by apply bool_decide_eq_false in E2. }
  assert (le_line l e) as Hle.
  { destruct (decide (hl_t l < hl_t e)) as [H1|H1]; [by left|right; split; [lia|]]. replace (hl_t e =? hl_t l) with true in E2 by lia.
    apply negb_false_iff, bool_decide_eq_true in E2. apply strcmp_swap in E2. by rewrite E2. }
  rewrite reverse_cons, <- app_assoc. cbn [app]. apply IH; try done. by constructor.
Qed.

(** ** The invariant of a log *)

Fixpoint total (l : list HistoryLogLine) : Z := match l with [] => 0 | x :: l => hl_num_lines x + total l end.

Lemma total_app l k : total (l ++ k) = total l + total k.
Proof. induction l as [|x l IH]; simpl; lia. Qed.

Lemma total_length l : Forall line_ok l -> Z.of_nat (length l) <= total l.
Proof. induction 1 as [|x l Hx _ IH]; simpl length; simpl total; [lia|]. pose proof (lk_num x Hx). lia. Qed.

Record core_ok (h : HistoryLogObject) : Prop := {
  co_lines : Forall line_ok (ho_lines h);
  co_sorted : StronglySorted le_line (ho_lines h);
  co_num : ho_num_lines h = total (ho_lines h);
  co_old : strict = true -> 0 <= ho_oldest_t h /\ Forall (fun l => ho_oldest_t h <= hl_t l) (ho_lines h)
}.

(** [T] is a time before which the server did not run. *)
Record log_ok (T : Z) (h : HistoryLogObject) : Prop := {
  lo_core : core_ok h;
  lo_zero : strict = true -> ho_oldest_t h = 0 -> ho_lines h = [] \/ (length (ho_lines h) = 1%nat /\ ho_max_lines h < ho_num_lines h);
  lo_max : ho_num_lines h <= ho_max_lines h \/ (length (ho_lines h) <= 1)%nat;
  lo_limit : 0 <= ho_max_lines h /\ (ho_max_lines h = 0 -> ho_lines h = []);
  lo_time : ho_max_time h < T
}.

(** What removing lines leaves. *)
Record shrunk (h h' : HistoryLogObject) : Prop := {
  sh_name : ho_name h' = ho_name h;
  sh_lines : ho_lines h' `sublist_of` ho_lines h;
  sh_num : ho_num_lines h = total (ho_lines h) -> ho_num_lines h' = total (ho_lines h');
  sh_old : ho_oldest_t h' = ho_oldest_t h;
  sh_max : ho_max_lines h' = ho_max_lines h;
  sh_time : ho_max_time h' = ho_max_time h
}.

Lemma shrunk_refl h : shrunk h h.
Proof. by constructor. Qed.

Lemma shrunk_trans h1 h2 h3 : shrunk h1 h2 -> shrunk h2 h3 -> shrunk h1 h3.
Proof. intros [A1 A2 A3 A4 A5 A6] [B1 B2 B3 B4 B5 B6]. constructor; try congruence; [by etrans|auto]. Qed.

Lemma del_line_shrunk h pre l post : ho_lines h = pre ++ l :: post -> shrunk h (hbm_history_del_line h pre l post).
Proof.
  intros Hh. constructor; simpl; try done.
  - rewrite Hh. apply sublist_app; [done|by apply sublist_cons].
  - intros ->. rewrite Hh, !total_app. simpl. lia.
Qed.

Lemma Forall_sub {A} (P : A -> Prop) l k : l `sublist_of` k -> Forall P k -> Forall P l.
Proof. induction 1 as [|x l k Hs IH|x l k Hs IH]; [done|intros [? ?]%Forall_cons; constructor; auto|intros [? ?]%Forall_cons; auto]. Qed.

Lemma sublist_same {A} (l k : list A) : l `sublist_of` k -> (length k <= length l)%nat -> l = k.
Proof.
  induction 1 as [|x l k Hs IH|x l k Hs IH]; simpl; intros H; [done|f_equal; apply IH; lia|].
  apply sublist_length in Hs. lia.
Qed.

Lemma StronglySorted_sublist {A} (R : A -> A -> Prop) l k : l `sublist_of` k -> StronglySorted R k -> StronglySorted R l.
Proof.
  induction 1 as [|x l k Hs IH|x l k Hs IH]; intros H; [done| |]; apply StronglySorted_inv in H as [H Hx]; [|by apply IH].
  constructor; [by apply IH|]. by eapply Forall_sub.
Qed.

Lemma core_shrunk h h' : shrunk h h' -> core_ok h -> core_ok h'.
Proof.
  intros [S1 S2 S3 S4 S5 S6] [C1 C2 C3 C4]. constructor; rewrite ?S4; auto.
  - by eapply Forall_sub.
  - by eapply StronglySorted_sublist.
  - intros Hst. destruct (C4 Hst). split; [done|]. by eapply Forall_sub.
Qed.

Lemma total_sublist l k : l `sublist_of` k -> Forall line_ok k -> total l <= total k.
Proof.
  induction 1 as [|x l k Hs IH|x l k Hs IH]; intros H; [done| |]; apply Forall_cons in H as [Hx H]; simpl; specialize (IH H); pose proof (lk_num x Hx); lia.
Qed.

Lemma log_shrunk T h h' : shrunk h h' -> log_ok T h -> log_ok T h'.
Proof.
  intros S [C Z M L Ti]. pose proof (core_shrunk _ _ S C) as C'. pose proof (sublist_length _ _ (sh_lines _ _ S)) as Hlen.
  pose proof (total_sublist _ _ (sh_lines _ _ S) (co_lines h C)) as Ht. rewrite <- (co_num h C), <- (co_num h' C') in Ht.
  constructor; rewrite ?(sh_max _ _ S), ?(sh_time _ _ S), ?(sh_old _ _ S); try done.
  - intros Hst Hold. destruct (Z Hst Hold) as [Hz|[H1 H2]]; [left; rewrite Hz in Hlen; destruct (ho_lines h'); [done|simpl in Hlen; lia]|].
    destruct (decide (length (ho_lines h') = 0%nat)) as [E|E]; [left; by destruct (ho_lines h')|].
    right. split; [lia|]. rewrite (co_num h' C'). replace (ho_lines h') with (ho_lines h); [by rewrite <- (co_num h C)|].
    symmetry. apply sublist_same; [apply S|lia].
  - lia.
  - split; [lia|]. intros E. destruct L as [_ L]. rewrite (L E) in Hlen. destruct (ho_lines h'); [done|simpl in Hlen; lia].
Qed.

(** ** Adding *)

Lemma evict_shrunk more h : shrunk h (evict more h (ho_lines h)) /\
  (ho_lines (evict more h (ho_lines h)) = [] \/ more (evict more h (ho_lines h)) = false) /\
  ho_lines (evict more h (ho_lines h)) `suffix_of` ho_lines h.
Proof.
  remember (ho_lines h) as lines eqn:El. symmetry in El. revert h El. induction lines as [|l rest IH]; intros h El; simpl.
  { split_and!; [apply shrunk_refl|by left|by rewrite El]. }
  destruct (more h) eqn:Em; [|split_and!; [apply shrunk_refl|by right|by rewrite El]].
  destruct (IH (hbm_history_del_line h [] l rest)) as (H1 & H2 & H3); [done|]. split_and!; [|done|by apply suffix_cons_r].
  eapply shrunk_trans; [|exact H1]. by apply del_line_shrunk.
Qed.

(** A log with room for a line. *)
Lemma evict_zero T more h :
  strict = true -> log_ok T h -> (forall h, ho_max_lines h < ho_num_lines h -> more h = true) ->
  ho_oldest_t (evict more h (ho_lines h)) = 0 -> ho_lines (evict more h (ho_lines h)) = [].
Proof.
  intros Hst Hh Hmore Hz. destruct (evict_shrunk more h) as (Hs & Hm & _). pose proof (log_shrunk T _ _ Hs Hh) as H'.
  destruct (lo_zero T _ H' Hst Hz) as [|[_ H1]]; [done|]. destruct Hm as [|Hm]; [done|]. apply Hmore in H1. congruence.
Qed.

Lemma have_limits_ok T h : 86400 < T -> log_ok T h -> log_ok T (have_limits h) /\ 0 < ho_max_lines (have_limits h).
Proof.
  intros HT [C Z M L Ti]. unfold have_limits. destruct (ho_max_lines h =? 0) eqn:E; [|split; [by constructor|lia]].
  apply Z.eqb_eq in E. destruct L as [_ L]. specialize (L E). split; [|simpl; lia].
  constructor; simpl; [by destruct C|by intros _ _; left|rewrite (co_num h C), L; simpl; lia|split; [lia|done]|done].
Qed.

(** The new line is in its place and the counters follow. *)
Lemma add_line_ok E h m line :
  mtags_ok E m -> core_ok h -> (strict = true -> ho_oldest_t h = 0 -> ho_lines h = []) ->
  exists h' r, hbm_history_add_line E h m line = Some (h', r) /\
    match r with
    | None => h' = h
    | Some (pre, l, post) =>
        ho_lines h = pre ++ post /\ ho_lines h' = pre ++ l :: post /\ core_ok h' /\ (strict = true -> 0 < ho_oldest_t h') /\ ho_num_lines h' = ho_num_lines h + 1 /\
        ho_name h' = ho_name h /\ ho_max_lines h' = ho_max_lines h /\ ho_max_time h' = ho_max_time h /\ line_ok l /\ hl_line l = line /\ hl_batch l = []
    end.
Proof.
  intros Hm [C1 C2 C3 C4] Hz. unfold hbm_history_add_line. destruct (duplicate_mtags_ok E m Hm) as (tags & t & time & msgid & -> & Htags & Ht & Hacc & Hst).
  cbn -[server_time_to_unix_time]. set (l := MkLogLine line tags t time msgid 1 (Z.of_nat (length line)) false []). assert (line_ok l) as Hl by (by constructor).
  set (place := match last (ho_lines h) with None => _ | Some _ => _ end).
  assert (match place with None => True | Some (pre, post) => pre ++ post = ho_lines h /\ Forall (fun x => le_line x l) pre /\ Forall (le_line l) post end) as Hp.
  { unfold place. destruct (last (ho_lines h)) as [tl|] eqn:El; [|by apply last_None in El as ->].
    apply last_Some in El as [l' El]. destruct (hl_t tl <? t) eqn:Elt.
    - rewrite app_nil_r. split_and!; [done| |done]. rewrite El. apply (sorted_before l' tl []); [by rewrite <- El|]. left. simpl. lia.
    - destruct (hbm_history_add_line_in_time l (reverse (ho_lines h)) []) as [[pre post]|] eqn:Ein; [|done].
      apply add_in_time_ok in Ein; try done; rewrite ?reverse_involutive, ?app_nil_r in *; [done|by apply Forall_reverse|done]. }
  destruct place as [[pre post]|]; [|by eexists h, None]. destruct Hp as (Hsplit & Hpre & Hpost). eexists _, (Some (pre, l, post)). split; [reflexivity|].
  assert (Forall line_ok (pre ++ l :: post)) as F1.
  { rewrite <- Hsplit in C1. apply Forall_app in C1 as [? ?]. apply Forall_app. split; [done|by constructor]. }
  assert (StronglySorted le_line (pre ++ l :: post)) as F2 by (apply StronglySorted_insert; [by rewrite Hsplit|done..]).
  assert (ho_num_lines h + 1 = total (pre ++ l :: post)) as F3 by (rewrite C3, <- Hsplit, !total_app; simpl; lia).
  set (old := if (t <? ho_oldest_t h) || (ho_oldest_t h =? 0) then t else ho_oldest_t h).
  assert (strict = true -> 0 < old /\ Forall (fun x => old <= hl_t x) (pre ++ l :: post)) as F4.
  { intros Hs. destruct (Hst Hs) as [_ Hpos]. destruct (C4 Hs) as [C0 C5]. specialize (Hz Hs). unfold old. split; [case_match; lia|]. rewrite <- Hsplit in C5. apply Forall_app in C5 as [C5 C6]. apply Forall_app. split.
    - destruct (decide (ho_oldest_t h = 0)) as [H0|H0]; [specialize (Hz H0); rewrite Hz in Hsplit; by apply app_nil in Hsplit as [-> _]|].
      eapply Forall_impl; [exact C5|]. simpl. intros x Hx. case_match; lia.
    - constructor; [simpl; case_match; lia|]. destruct (decide (ho_oldest_t h = 0)) as [H0|H0]; [specialize (Hz H0); rewrite Hz in Hsplit; by apply app_nil in Hsplit as [_ ->]|].
      eapply Forall_impl; [exact C6|]. simpl. intros x Hx. case_match; lia. }
  replace (if (t <? ho_oldest_t h) || (ho_oldest_t h =? 0) then set_oldest t (count_lines 1 (hbm_history_add_line_after_position h pre l post)) else count_lines 1 (hbm_history_add_line_after_position h pre l post))
    with (set_oldest old (count_lines 1 (hbm_history_add_line_after_position h pre l post))) by (unfold old; by case_match).
  split_and!; try done; [|by intros Hs; apply F4]. constructor; simpl; try done. intros Hs. destruct (F4 Hs). split; [lia|done].
Qed.

(** A log after eviction for [n] more lines. *)
Definition room_for (T n : Z) (h h' : HistoryLogObject) : Prop :=
  log_ok T h' /\ (strict = true -> ho_oldest_t h' = 0 -> ho_lines h' = []) /\ (ho_lines h' = [] \/ ho_num_lines h' + n <= ho_max_lines h') /\
  ho_name h' = ho_name h /\ 0 < ho_max_lines h'.

Lemma evict_room T n more h :
  86400 < T -> log_ok T h -> 0 < n -> (forall h, more h = (ho_max_lines h <? ho_num_lines h + n)) ->
  room_for T n h (evict more (have_limits h) (ho_lines (have_limits h))).
Proof.
  intros HT Hh Hn Hmore. destruct (have_limits_ok T h HT Hh) as [H1 H2]. destruct (evict_shrunk more (have_limits h)) as (Hs & Hm & _).
  pose proof (log_shrunk T _ _ Hs H1) as H'. split_and!; [done| | | |].
  - intros Hst. apply (evict_zero T); [done..|]. intros x Hx. rewrite Hmore. lia.
  - destruct Hm as [Hm|Hm]; [by left|right]. rewrite Hmore in Hm. lia.
  - rewrite (sh_name _ _ Hs). unfold have_limits. by case_match.
  - by rewrite (sh_max _ _ Hs).
Qed.

Lemma log_grown T n h h' pre l post :
  log_ok T h -> ho_lines h = pre ++ post -> ho_lines h' = pre ++ l :: post -> core_ok h' -> (strict = true -> 0 < ho_oldest_t h') -> ho_num_lines h' = ho_num_lines h + n ->
  ho_max_lines h' = ho_max_lines h -> ho_max_time h' = ho_max_time h -> (ho_lines h = [] \/ ho_num_lines h + n <= ho_max_lines h) -> 0 < ho_max_lines h ->
  log_ok T h'.
Proof.
  intros [C Z M L Ti] Hl Hl' C' Hold Hnum Hmax Htime Hroom Hpos. constructor; try done; [intros Hst; specialize (Hold Hst); lia| |lia|lia].
  destruct Hroom as [E|Hr]; [right|left; lia]. rewrite E in Hl. symmetry in Hl. apply app_nil in Hl as [-> ->]. rewrite Hl'. simpl. lia.
Qed.

Lemma log_add_ok T E h m line :
  86400 < T -> mtags_ok E m -> log_ok T h -> exists h', log_add E h m line = Some h' /\ log_ok T h' /\ ho_name h' = ho_name h.
Proof.
  intros HT Hm Hh. unfold log_add. set (more := fun h => ho_max_lines h <=? ho_num_lines h).
  destruct (evict_room T 1 more h HT Hh ltac:(lia)) as (R1 & R2 & R3 & R4 & R5); [intros x; unfold more; lia|].
  set (h1 := evict more (have_limits h) (ho_lines (have_limits h))) in *.
  destruct (add_line_ok E h1 m line Hm (lo_core T h1 R1) R2) as (h' & r & -> & Hr). cbn. exists h'. split; [done|].
  destruct r as [[[pre l] post]|]; [|by subst]. destruct Hr as (F1 & F2 & F3 & F4 & F5 & F6 & F7 & F8 & _). split; [|congruence].
  by apply (log_grown T 1 h1 h' pre l post).
Qed.

Lemma replace_line_core h pre l l' post :
  core_ok h -> ho_lines h = pre ++ l :: post -> line_ok l' -> hl_time l' = hl_time l ->
  core_ok (count_lines (hl_num_lines l' - hl_num_lines l) (set_lines (pre ++ l' :: post) h)).
Proof.
  intros [C1 C2 C3 C4] Hl Hl' Ht. rewrite Hl in *.
  assert (hl_t l' = hl_t l) as Htt.
  { assert (line_ok l) as Hlk by (apply Forall_app in C1 as [_ [? _]%Forall_cons]; done). by rewrite (lk_t l' Hl'), Ht, <- (lk_t l Hlk). }
  constructor; simpl; try done.
  - apply Forall_app in C1 as [? [? ?]%Forall_cons]. apply Forall_app. split; [done|by constructor].
  - apply StronglySorted_app_inv in C2 as (S1 & S2 & S3). apply StronglySorted_inv in S2 as [S2 S4]. apply StronglySorted_insert.
    + clear -S1 S2 S3. induction pre as [|x pre IH]; [done|]. simpl. apply StronglySorted_inv in S1 as [S1 Sx]. apply Forall_cons in S3 as [Sl S3].
      constructor; [by apply IH|]. apply Forall_app. split; [done|]. by apply Forall_cons in Sl as [_ ?].
    + eapply Forall_impl; [exact S3|]. simpl. intros x [Hx _]%Forall_cons. unfold le_line in *. by rewrite Ht, Htt.
    + eapply Forall_impl; [exact S4|]. simpl. intros x Hx. unfold le_line in *. by rewrite Ht, Htt.
  - rewrite C3, !total_app. simpl. lia.
  - intros Hst. destruct (C4 Hst) as [C0 C5]. split; [done|].
    apply Forall_app in C5 as [? [? ?]%Forall_cons]. apply Forall_app. split; [done|]. constructor; [by rewrite Htt|done].
Qed.

Lemma log_add_multiline_ok T E h m source cmd target lines :
  86400 < T -> mtags_ok E m -> log_ok T h ->
  exists h', log_add_multiline E h m source cmd target lines = Some h' /\ log_ok T h' /\ ho_name h' = ho_name h.
Proof.
  intros HT Hm Hh. unfold log_add_multiline. destruct lines as [|first rest].
  { exists (have_limits h). split_and!; [done|by apply have_limits_ok|]. unfold have_limits. by case_match. }
  set (n := Z.of_nat (length (first :: rest))). assert (n = 1 + Z.of_nat (length rest)) as Hn by (unfold n; simpl; lia).
  set (more := fun h => ho_max_lines h <? ho_num_lines h + n).
  destruct (evict_room T n more h HT Hh ltac:(lia) ltac:(done)) as (R1 & R2 & R3 & R4 & R5).
  set (h1 := evict more (have_limits h) (ho_lines (have_limits h))) in *.
  destruct (add_line_ok E h1 m (batch_text source cmd target first) Hm (lo_core T h1 R1) R2) as (h' & r & -> & Hr). cbn -[batch_text].
  destruct r as [[[pre l] post]|]; [|by exists h1; subst]. destruct Hr as (F1 & F2 & F3 & F4 & F5 & F6 & F7 & F8 & F9 & F10 & F11).
  eexists. split; [reflexivity|]. split; [|simpl; congruence].
  set (l' := MkLogLine _ _ _ _ _ _ _ _ _). assert (line_ok l') as Hl'.
  { destruct F9 as [K1 K2 K3 K4 K5]. constructor; simpl; try done. rewrite length_map. lia. }
  assert (hl_num_lines l = 1) as H1 by (rewrite (lk_num l F9), F11; done).
  pose proof (replace_line_core h' pre l l' post F3 F2 Hl' eq_refl) as Hc. simpl in Hc. rewrite H1, Hn in Hc.
  replace (1 + Z.of_nat (length rest) - 1) with (Z.of_nat (length rest)) in Hc by lia.
  apply (log_grown T n h1 _ pre l' post); simpl; try done. lia.
Qed.

(** ** Expiry *)

Definition live (redline : Z) (l : list HistoryLogLine) : list HistoryLogLine := List.filter (fun x => redline <=? hl_t x) l.

(** [oldest_t] while a loop recomputes it; [pre] are the lines that are kept so far. *)
Definition old_ok (h : HistoryLogObject) (pre : list HistoryLogLine) : Prop :=
  strict = true -> 0 <= ho_oldest_t h /\ Forall (fun l => ho_oldest_t h <= hl_t l) pre /\ (ho_oldest_t h = 0 <-> pre = []).

Definition keeps (h : HistoryLogObject) (l : HistoryLogLine) : HistoryLogObject :=
  if (ho_oldest_t h =? 0) || (hl_t l <? ho_oldest_t h) then set_oldest (hl_t l) h else h.

Lemma old_ok_keeps h pre l : line_ok l -> old_ok h pre -> old_ok (keeps h l) (pre ++ [l]).
Proof.
  intros Hl Ho Hst. destruct (Ho Hst) as (H1 & H2 & H3). pose proof (proj2 (lk_strict l Hl Hst)). unfold keeps. destruct ((ho_oldest_t h =? 0) || (hl_t l <? ho_oldest_t h)) eqn:E; simpl.
  - split_and!; [lia| |split; [lia|by destruct pre]]. apply Forall_app. split; [|by apply Forall_singleton].
    destruct (decide (ho_oldest_t h = 0)) as [H0|H0]; [by apply H3 in H0 as ->|]. eapply Forall_impl; [exact H2|]. simpl. lia.
  - split_and!; [lia| |split; [lia|by destruct pre]]. apply Forall_app. split; [done|]. apply Forall_singleton. lia.
Qed.

Definition same_limits (h h' : HistoryLogObject) : Prop :=
  ho_name h' = ho_name h /\ ho_max_lines h' = ho_max_lines h /\ ho_max_time h' = ho_max_time h.

Lemma cleanup_time_ok redline h pre rest :
  ho_lines h = pre ++ rest -> Forall line_ok rest -> ho_num_lines h = total (pre ++ rest) -> old_ok h pre ->
  let h' := cleanup_time redline h pre rest in
  ho_lines h' = pre ++ live redline rest /\ ho_num_lines h' = total (ho_lines h') /\ old_ok h' (ho_lines h') /\ same_limits h h'.
Proof.
  revert h pre. induction rest as [|l rest IH]; intros h pre Hl Hrest Hn Ho; simpl.
  { rewrite app_nil_r in *. split_and!; [done|congruence|by rewrite Hl|by split_and!]. }
  apply Forall_cons in Hrest as [Hlok Hrest]. rewrite Z.ltb_antisym. destruct (redline <=? hl_t l) eqn:E; simpl.
  - destruct (IH (keeps h l) (pre ++ [l])) as (I1 & I2 & I3 & I4 & I5 & I6); unfold keeps in *.
    + rewrite <- app_assoc. by case_match.
    + done.
    + rewrite <- app_assoc. by case_match.
    + by apply old_ok_keeps.
    + split_and!; [by rewrite I1, <- app_assoc|done|done|..]; unfold same_limits; rewrite ?I4, ?I5, ?I6; by case_match.
  - destruct (IH (hbm_history_del_line h pre l rest) pre) as (I1 & I2 & I3 & I4); try done.
    simpl. rewrite Hn, !total_app. simpl. lia.
Qed.

Lemma cleanup_lines_ok h pre rest :
  ho_lines h = pre ++ rest -> Forall line_ok rest -> ho_num_lines h = total (pre ++ rest) -> old_ok h pre ->
  (pre = [] \/ ho_num_lines h <= ho_max_lines h) ->
  let h' := cleanup_lines h pre rest in
  ho_lines h' `suffix_of` pre ++ rest /\ ho_num_lines h' = total (ho_lines h') /\ same_limits h h' /\
  (strict = true -> 0 <= ho_oldest_t h' /\ Forall (fun l => ho_oldest_t h' <= hl_t l) (ho_lines h') /\
    (ho_oldest_t h' = 0 -> ho_lines h' = [] \/ (length (ho_lines h') = 1%nat /\ ho_max_lines h' < ho_num_lines h'))) /\
  (ho_num_lines h' <= ho_max_lines h' \/ (length (ho_lines h') <= 1)%nat) /\ ((length rest <= 1)%nat -> ho_lines h' = pre ++ rest).
Proof.
  revert h pre. induction rest as [|l rest IH]; intros h pre Hl Hrest Hn Ho Hpre.
  { cbn. rewrite app_nil_r in *. rewrite Hl.
    split_and!; try done; [intros Hst; destruct (Ho Hst) as (O1 & O2 & O3); split_and!; [done..|by left; apply O3]|].
    destruct Hpre as [->|]; [right; simpl; lia|by left]. }
  apply Forall_cons in Hrest as [Hlok Hrest]. cbn [cleanup_lines]. destruct (ho_max_lines h <? ho_num_lines h) eqn:E.
  - destruct Hpre as [->|]; [|lia]. simpl in Hl, Hn. destruct rest as [|l2 rest].
    { cbn. rewrite Hl. split_and!; try done; [|by right]. intros Hst. destruct (Ho Hst) as (O1 & O2 & O3). assert (ho_oldest_t h = 0) as O4 by (by apply O3).
      split_and!; [done|by constructor; [pose proof (proj2 (lk_strict l Hlok Hst)); lia|]|right; split; [done|lia]]. }
    destruct (IH (hbm_history_del_line h [] l (l2 :: rest)) []) as (I1 & I2 & (I3a & I3b & I3c) & I4 & I7 & I8); try done; try (by left).
    { cbn [hbm_history_del_line count_lines ho_num_lines set_lines]. rewrite Hn. cbn [total app]. lia. }
    split_and!; try done; [by apply suffix_cons_r|simpl; lia].
  - destruct (IH (keeps h l) (pre ++ [l])) as (I1 & I2 & (I3a & I3b & I3c) & I4 & I7 & I8); unfold keeps in *.
    + rewrite <- app_assoc. by case_match.
    + done.
    + rewrite <- app_assoc. by case_match.
    + by apply old_ok_keeps.
    + right. case_match; simpl; lia.
    + rewrite <- app_assoc in I1, I8. split_and!; try done; [unfold same_limits; rewrite ?I3a, ?I3b, ?I3c; by case_match..|].
      intros Hlen. apply I8. simpl in Hlen. lia.
Qed.

Lemma live_all redline l : Forall (fun x => redline <= hl_t x) l -> live redline l = l.
Proof. induction 1 as [|x l Hx _ IH]; simpl; [done|]. replace (redline <=? hl_t x) with true by lia. by rewrite IH. Qed.

Lemma live_sublist redline l : live redline l `sublist_of` l.
Proof. induction l as [|x l IH]; simpl; [done|]. case_match; by constructor. Qed.

(** What the removal of expired lines leaves. *)
Lemma cleanup_time_part E h :
  core_ok h -> ho_max_time h < he_now E ->
  let redline := he_now E - ho_max_time h in
  let h1 := if ho_oldest_t h <? redline then cleanup_time redline (set_oldest 0 h) [] (ho_lines h) else h in
  core_ok h1 /\ ho_lines h1 `sublist_of` ho_lines h /\ same_limits h h1 /\
  (strict = true -> ho_lines h1 = live redline (ho_lines h) /\ (ho_oldest_t h1 = 0 -> ho_lines h1 = [])).
Proof using Type.
  intros [C1 C2 C3 C4] HT redline. cbv zeta. destruct (ho_oldest_t h <? redline) eqn:Eold; cycle 1.
  { split_and!; [by constructor|done|done|]. intros Hst. destruct (C4 Hst) as [C0 C5].
    rewrite live_all; [|eapply Forall_impl; [exact C5|]; simpl; lia]. split; [done|]. unfold redline in Eold. lia. }
  destruct (cleanup_time_ok redline (set_oldest 0 h) [] (ho_lines h)) as (I1 & I2 & J & I4); try done.
  pose proof (live_sublist redline (ho_lines h)) as Hsub. cbn [app] in I1. rewrite <- I1 in Hsub. split_and!; [|done|apply I4..|].
  - constructor; [by eapply Forall_sub|by eapply StronglySorted_sublist|done|]. intros Hst. by destruct (J Hst) as (J1 & J2 & _).
  - intros Hst. destruct (J Hst) as (_ & _ & J3). split; [done|]. apply J3.
Qed.

Lemma cleanup_ok T E h :
  core_ok h -> 0 <= ho_max_lines h -> (ho_max_lines h = 0 -> ho_lines h = []) -> ho_max_time h < T -> T <= he_now E ->
  let h' := hbm_history_cleanup E h in
  log_ok T h' /\ same_limits h h' /\
  (strict = true ->
   ho_lines h' `suffix_of` live (he_now E - ho_max_time h) (ho_lines h) /\
   (ho_num_lines h <= ho_max_lines h \/ (length (ho_lines h) <= 1)%nat -> ho_lines h' = live (he_now E - ho_max_time h) (ho_lines h))).
Proof using Type.
  intros C Hmax Hzero Htime HT. unfold hbm_history_cleanup. destruct (cleanup_time_part E h C ltac:(lia)) as (Hc1 & Hsub1 & (M1 & M2 & M3) & Hl1).
  set (redline := he_now E - ho_max_time h) in *.
  set (h1 := if ho_oldest_t h <? redline then cleanup_time redline (set_oldest 0 h) [] (ho_lines h) else h) in *.
  pose proof (sublist_length _ _ Hsub1) as Hlen. pose proof (total_sublist _ _ Hsub1 (co_lines h C)) as Htot.
  rewrite <- (co_num h C), <- (co_num h1 Hc1) in Htot.
  assert (ho_max_lines h = 0 -> ho_lines h1 = []) as Hz1.
  { intros Hz. specialize (Hzero Hz). rewrite Hzero in Hsub1. by apply sublist_nil_r in Hsub1. }
  destruct (ho_max_lines h1 <? ho_num_lines h1) eqn:Emax.
  - destruct (cleanup_lines_ok (set_oldest 0 h1) [] (ho_lines h1)) as (I1 & I2 & (I3 & I4 & I5) & I6 & I9 & I10); try done; try apply Hc1; try (by left).
    set (h2 := cleanup_lines (set_oldest 0 h1) [] (ho_lines h1)) in *. cbn in I1, I3, I4, I5, I10.
    assert (ho_lines h2 `sublist_of` ho_lines h1) as Hsub by (destruct I1 as [k ->]; by apply sublist_inserts_l).
    split_and!; [|unfold same_limits; split_and!; congruence|].
    + constructor; try done; [|by intros Hst; apply I6|rewrite I4, M2|rewrite I5, M3; done].
      * constructor; try done; [by eapply Forall_sub; [exact Hsub|apply Hc1]|by eapply StronglySorted_sublist; [exact Hsub|apply Hc1]|].
        intros Hst. by destruct (I6 Hst) as (? & ? & _).
      * split; [done|]. intros Hz. apply Hz1 in Hz. rewrite Hz in Hsub. by apply sublist_nil_r in Hsub.
    + intros Hst. destruct (Hl1 Hst) as [L1 _]. rewrite <- L1. split; [done|]. intros Hfit. apply I10. destruct Hfit; lia.
  - split_and!; [|by unfold same_limits|].
    + constructor; try done; [intros Hst Hold; left; by apply (proj2 (Hl1 Hst))|left; lia|rewrite M2; done|rewrite M3; done].
    + intros Hst. destruct (Hl1 Hst) as [L1 _]. by rewrite L1.
Qed.

(** ** Deletion *)

Lemma delete_loop_shrunk f h pre rest started d r h' d' r' :
  ho_lines h = pre ++ rest -> delete_loop f h pre rest started d r = Some (h', d', r') -> shrunk h h'.
Proof.
  revert h pre started d r. induction rest as [|l rest IH]; intros h pre started d r Hl H; cbn [delete_loop] in H; [simplify_eq; apply shrunk_refl|].
  assert (ho_lines h = (pre ++ [l]) ++ rest) as Hl' by (by rewrite <- app_assoc).
  destruct (started || _ || _); [|destruct (hf_limit f <=? d); [simplify_eq; apply shrunk_refl|by eapply IH]].
  destruct (_ || _); [simplify_eq; apply shrunk_refl|]. destruct (account_matches f l) as [[]|]; cbn in H; [|by eapply IH|done].
  pose proof (del_line_shrunk h pre l rest Hl) as Hs. destruct (hf_limit f <=? d + 1); [by simplify_eq|].
  eapply shrunk_trans; [exact Hs|]. eapply IH, H. done.
Qed.

Lemma account_matches_total f l : line_ok l -> is_Some (account_matches f l).
Proof using Type.
  intros Hl. unfold account_matches. destruct (hf_account f) as [account|]; [|done].
  destruct (find_mtag (hl_mtags l) (str "account")) as [n|] eqn:En; [|done].
  destruct (tag_value n) eqn:Ev; [done|]. by destruct (lk_account l Hl n En).
Qed.

Lemma delete_loop_total f h pre rest started d r : Forall line_ok rest -> is_Some (delete_loop f h pre rest started d r).
Proof using Type.
  intros Hr. revert h pre started d r. induction Hr as [|l rest Hl _ IH]; intros h pre started d r; cbn [delete_loop]; [done|].
  destruct (account_matches_total f l Hl) as [b ->]. cbn [mbind option_bind]. repeat case_match; eauto.
Qed.

(** ** The table *)

Section table_proofs.
Context (key : list Z) (T : Z).

Definition fold_name (h : HistoryLogObject) : cstring := List.map tolower (ho_name h).

Definition bucket_ok (k : Z) (l : list HistoryLogObject) : Prop :=
  Forall (fun h => hbm_hash key (ho_name h) = k /\ log_ok T h) l /\ NoDup (List.map fold_name l).

Definition table_ok (t : hbm_table) : Prop := forall k, bucket_ok k (hbm_bucket t k).

Lemma strcasecmp_spec a b : strcasecmp_eq a b = true <-> List.map tolower a = List.map tolower b.
Proof. unfold strcasecmp_eq. apply bool_decide_eq_true. Qed.

Lemma hbm_hash_fold a b : List.map tolower a = List.map tolower b -> hbm_hash key a = hbm_hash key b.
Proof. intros H. unfold hbm_hash. rewrite !siphash_nocase_raw. by rewrite H. Qed.

Lemma bucket_insert (t : hbm_table) k l k' : hbm_bucket (<[k := l]> t) k' = if decide (k = k') then l else hbm_bucket t k'.
Proof. unfold hbm_bucket. case_decide as E; [subst; by rewrite lookup_insert_eq|by rewrite lookup_insert_ne]. Qed.

Lemma table_ok_insert (t : hbm_table) k l : table_ok t -> bucket_ok k l -> table_ok (<[k := l]> t).
Proof. intros Ht Hl k'. rewrite bucket_insert. case_decide; [by subst|apply Ht]. Qed.

Lemma find_object_Some t object h :
  table_ok t -> hbm_find_object key t object = Some h ->
  h ∈ hbm_bucket t (hbm_hash key object) /\ List.map tolower object = fold_name h /\ log_ok T h /\ hbm_hash key (ho_name h) = hbm_hash key object.
Proof.
  intros Ht [Hin Hn%strcasecmp_spec]%List.find_some. destruct (Ht (hbm_hash key object)) as [Hf _]. rewrite Forall_forall in Hf.
  apply list_elem_of_In in Hin. destruct (Hf h Hin). done.
Qed.

(** The logs with the name of [h] are replaced by [h']. *)
Lemma map_put_names l h' : List.map fold_name (List.map (fun o => if bool_decide (ho_name o = ho_name h') then h' else o) l) = List.map fold_name l.
Proof. rewrite map_map. apply List.map_ext. intros o. unfold fold_name. case_bool_decide as E; [by rewrite E|done]. Qed.

Lemma put_log_ok t h' : table_ok t -> log_ok T h' -> table_ok (put_log key t h').
Proof.
  intros Ht Hh. unfold put_log. apply table_ok_insert; [done|]. destruct (Ht (hbm_hash key (ho_name h'))) as [H1 H2]. split.
  - apply Forall_forall. intros x. rewrite list_elem_of_In, in_map_iff. intros (o & <- & Hin%list_elem_of_In). rewrite Forall_forall in H1.
    case_bool_decide; [done|]. by apply H1.
  - by rewrite map_put_names.
Qed.

Lemma find_put_same t object h h' :
  table_ok t -> hbm_find_object key t object = Some h -> ho_name h' = ho_name h -> hbm_find_object key (put_log key t h') object = Some h'.
Proof.
  intros Ht Hf Hn. destruct (find_object_Some t object h Ht Hf) as (_ & H1 & _ & H2). unfold hbm_find_object, put_log in *.
  rewrite bucket_insert. rewrite Hn, H2, decide_True by done. destruct (Ht (hbm_hash key object)) as [_ Hnd].
  induction (hbm_bucket t (hbm_hash key object)) as [|o l IH]; [done|]. cbn [List.find List.map] in *. apply NoDup_cons in Hnd as [Hni Hnd].
  destruct (strcasecmp_eq object (ho_name o)) eqn:E.
  - simplify_eq. rewrite bool_decide_true by done. rewrite Hn. by rewrite E.
  - rewrite bool_decide_false; [rewrite E; by apply IH|]. intros E2. rewrite E2 in E. apply not_true_iff_false in E. apply E. by apply strcasecmp_spec.
Qed.

(** A name that is not in the table gets an empty log. *)
Lemma find_or_add_ok t object t' h :
  0 < T -> table_ok t -> (length object <= OBJECTLEN)%nat -> hbm_find_or_add_object key t object = (t', h) ->
  table_ok t' /\ hbm_find_object key t' object = Some h /\ log_ok T h.
Proof.
  intros HT Ht Hlen H. unfold hbm_find_or_add_object in H. destruct (hbm_find_object key t object) as [h0|] eqn:Hf.
  { simplify_eq. split_and!; [done..|]. by eapply find_object_Some. }
  simplify_eq. assert (ho_name (new_log object) = object) as Hname by (unfold new_log; simpl; by rewrite take_ge).
  assert (log_ok T (new_log object)) as Hnew.
  { constructor; simpl; try done; [constructor; simpl; try done; constructor|by left|by left]. }
  split_and!; [|unfold hbm_find_object; rewrite bucket_insert, decide_True by done; cbn [List.find]; rewrite Hname; by rewrite (proj2 (strcasecmp_spec object object))|done].
  apply table_ok_insert; [done|]. destruct (Ht (hbm_hash key object)) as [H1 H2]. split; [constructor; [by rewrite Hname|done]|].
  cbn [List.map]. apply NoDup_cons. split; [|done]. intros Hin. apply list_elem_of_In, in_map_iff in Hin as (o & Ho & Hin).
  unfold hbm_find_object in Hf. apply List.find_none with (x := o) in Hf; [|done]. apply not_true_iff_false in Hf. apply Hf, strcasecmp_spec.
  unfold fold_name in Ho. by rewrite Hname in Ho.
Qed.

Lemma destroy_ok t object : table_ok t -> table_ok (hbm_history_destroy key t object).
Proof.
  intros Ht. unfold hbm_history_destroy. destruct (hbm_find_object key t object) as [h|]; [|done]. apply table_ok_insert; [done|].
  destruct (Ht (hbm_hash key (ho_name h))) as [H1 H2]. induction (hbm_bucket t (hbm_hash key (ho_name h))) as [|o l IH]; [done|].
  apply Forall_cons in H1 as [Ho H1]. cbn [List.map] in H2. apply NoDup_cons in H2 as [Hni H2]. destruct (IH H1 H2) as [I1 I2]. cbn [List.filter]. case_match; [|done].
  split; [by constructor|]. cbn [List.map]. apply NoDup_cons. split; [|done]. intros Hin. apply Hni. apply list_elem_of_In, in_map_iff in Hin as (x & Hx & Hin).
  apply filter_In in Hin as [Hin _]. apply list_elem_of_In, in_map_iff. eauto.
Qed.

Lemma clean_loop_ok E n t hashnum : T <= he_now E -> table_ok t -> table_ok (clean_loop E n t hashnum).1.
Proof.
  intros HT. revert t hashnum. induction n as [|n IH]; intros t k Ht; simpl; [done|]. apply IH. apply table_ok_insert; [done|].
  destruct (Ht k) as [H1 H2]. induction (hbm_bucket t k) as [|h l IHl]; [done|]. apply Forall_cons in H1 as [[Hh Hok] H1]. cbn [List.map] in H2. apply NoDup_cons in H2 as [Hni H2].
  destruct (IHl H1 H2) as [I1 I2]. destruct (cleanup_ok T E h (lo_core T h Hok) (proj1 (lo_limit T h Hok)) (proj2 (lo_limit T h Hok)) (lo_time T h Hok) HT) as (C1 & (C2 & _ & _) & _).
  cbn [List.map]. split; [constructor; [by rewrite C2|done]|]. cbn [List.map]. apply NoDup_cons. split; [|done].
  intros Hin. apply Hni. unfold fold_name at 1. rewrite <- C2. revert Hin. clear -HT H1. induction l as [|x l IHl]; [by intros ?%not_elem_of_nil|].
  apply Forall_cons in H1 as [[_ Hx] H1]. cbn [List.map]. intros [E1|E1]%elem_of_cons; [|apply elem_of_cons; right; by apply IHl].
  destruct (cleanup_ok T E x (lo_core T x Hx) (proj1 (lo_limit T x Hx)) (proj2 (lo_limit T x Hx)) (lo_time T x Hx) HT) as (_ & (D & _ & _) & _).
  apply elem_of_cons. left. unfold fold_name in *. by rewrite <- D.
Qed.
End table_proofs.
End invariant.
