(* ===== verification/HistoryReq.v ===== *)
(** * Channel history: what requests return *)
From S2P Require Import Prelude Chars Strings ChanMode Hash ChanParam Tags HTime History HistorySpec.
From Stdlib Require Import Sorting.Sorted.

(** ** Pages *)

Fixpoint up_to {A} (stop : A -> bool) (l : list A) : list A :=
  match l with [] => [] | x :: l => if stop x then [] else x :: up_to stop l end.
Fixpoint from {A} (start : A -> bool) (l : list A) : list A :=
  match l with [] => [] | x :: l => if start x then x :: l else from start l end.
Fixpoint skip_past {A} (p : A -> bool) (l : list A) : list A :=
  match l with [] => [] | x :: l => if p x then l else skip_past p l end.

Lemma up_to_ext {A} (p q : A -> bool) l : (forall x, p x = q x) -> up_to p l = up_to q l.
Proof. intros H. induction l as [|x l IH]; simpl; [done|]. by rewrite H, IH. Qed.
Lemma up_to_never {A} (p : A -> bool) l : (forall x, p x = false) -> up_to p l = l.
Proof. intros H. induction l as [|x l IH]; simpl; [done|]. by rewrite H, IH. Qed.

(** A predicate that stays true once it is true cuts a sorted list in two. *)
Lemma cut_sorted {A} (R : A -> A -> Prop) (p : A -> bool) l :
  StronglySorted R l -> (forall x y, p x = true -> R x y -> p y = true) ->
  from p l = List.filter p l /\ up_to p l = List.filter (fun x => negb (p x)) l.
Proof.
  intros Hs Hp. induction Hs as [|x l Hs IH Hx]; [done|]. simpl. destruct (p x) eqn:E; simpl; [|by destruct IH as [-> ->]].
  assert (Forall (fun y => p y = true) l) as Hall by (eapply Forall_impl; [exact Hx|]; simpl; eauto).
  clear -Hall. induction Hall as [|y l Hy _ IH]; [done|]. simpl. rewrite Hy. simpl. destruct IH as [IH1 IH2]. split; [|done].
  injection IH1 as IH1. by rewrite <- IH1.
Qed.

Lemma filter_reverse {A} (p : A -> bool) l : List.filter p (reverse l) = reverse (List.filter p l).
Proof.
  induction l as [|x l IH]; [done|]. rewrite reverse_cons, List.filter_app, IH. simpl. destruct (p x); [by rewrite reverse_cons|by rewrite app_nil_r].
Qed.

Lemma StronglySorted_reverse {A} (R : A -> A -> Prop) l : StronglySorted R l -> StronglySorted (fun x y => R y x) (reverse l).
Proof.
  induction 1 as [|x l Hs IH Hx]; [constructor|]. rewrite reverse_cons. apply StronglySorted_insert; [by rewrite app_nil_r|by apply Forall_reverse|done].
Qed.

Definition lastn {A} (n : nat) (l : list A) : list A := reverse (take n (reverse l)).

Definition bytes (l : list HistoryLogLine) : Z := foldr (fun x n => hl_num_bytes x + n) 0 l.
Definition result_of (l : list HistoryLogLine) (reached_end : bool) : HistoryResult := MkResult l (total l) (bytes l) reached_end.

(** The first and the last [n] lines, and whether these are all. *)
Definition first_page (n : Z) (l : list HistoryLogLine) : HistoryResult :=
  result_of (take (Z.to_nat n) l) (Nat.leb (length l) (Z.to_nat n)).
Definition last_page (n : Z) (l : list HistoryLogLine) : HistoryResult :=
  result_of (lastn (Z.to_nat n) l) (Nat.leb (length l) (Z.to_nat n)).

Lemma bytes_app l k : bytes (l ++ k) = bytes l + bytes k.
Proof. induction l as [|x l IH]; simpl; [lia|]. unfold bytes in *. simpl. lia. Qed.

Lemma append_all r l :
  foldl hbm_result_append_line r l = MkResult (r_log r ++ l) (r_num_lines r + total l) (r_num_bytes r + bytes l) (r_reached_end r).
Proof.
  revert r. induction l as [|x l IH]; intros r; cbn [foldl]; [destruct r; simpl; f_equal; [by rewrite app_nil_r|lia|unfold bytes; simpl; lia]|].
  rewrite IH. unfold hbm_result_append_line, bytes. simpl. f_equal; [by rewrite <- app_assoc|lia|lia].
Qed.

Lemma prepend_all r l :
  foldl hbm_result_prepend_line r l = MkResult (reverse l ++ r_log r) (r_num_lines r + total l) (r_num_bytes r + bytes l) (r_reached_end r).
Proof.
  revert r. induction l as [|x l IH]; intros r; cbn [foldl]; [destruct r; simpl; f_equal; [lia|unfold bytes; simpl; lia]|].
  rewrite IH, reverse_cons. unfold hbm_result_prepend_line, bytes. simpl. f_equal; [by rewrite <- app_assoc|lia|lia].
Qed.

Lemma total_reverse l : total (reverse l) = total l.
Proof. induction l as [|x l IH]; [done|]. rewrite reverse_cons, total_app, IH. simpl. lia. Qed.
Lemma bytes_reverse l : bytes (reverse l) = bytes l.
Proof. induction l as [|x l IH]; [done|]. rewrite reverse_cons, bytes_app, IH. unfold bytes. simpl. lia. Qed.

(** ** The loops *)

Section loops.
Context (E : henv) (add : HistoryResult -> HistoryLogLine -> HistoryResult) (stop : HistoryLogLine -> bool) (limit : Z).

(** What the loops have in common once they have started. *)
Fixpoint page_loop (l : list HistoryLogLine) (written : Z) (r : HistoryResult) : option (HistoryResult * Z) :=
  match l with
  | [] => Some (set_reached_end true r, written)
  | x :: l =>
      if stop x then Some (set_reached_end true r, written)
      else if limit <=? written then Some (set_reached_end false r, written)
      else n ← duplicate_log_line E x; page_loop l (written + 1) (add r n)
  end.

Lemma page_loop_ok l written r :
  Forall (line_ok true) l ->
  exists w, page_loop l written r =
    Some (set_reached_end (Nat.leb (length (up_to stop l)) (Z.to_nat (limit - written))) (foldl add r (take (Z.to_nat (limit - written)) (up_to stop l))), w).
Proof.
  intros Hl. revert written r. induction Hl as [|x l Hx _ IH]; intros written r; cbn [page_loop up_to]; [eexists; by rewrite take_nil|].
  destruct (stop x); [eexists; by rewrite take_nil|]. destruct (limit <=? written) eqn:El.
  - replace (Z.to_nat (limit - written)) with 0%nat by lia. eexists. done.
  - rewrite (duplicate_log_line_ok true) by done. cbn. destruct (IH (written + 1) (add r x)) as [w ->].
    replace (Z.to_nat (limit - written)) with (S (Z.to_nat (limit - (written + 1)))) by lia. eexists. done.
Qed.
End loops.

Definition after_stop (f : HistoryFilter) (l : HistoryLogLine) : bool := time_test c_ge (hf_timestamp_b f) l || is_msgid (hf_msgid_b f) l.
Definition before_stop (f : HistoryFilter) (l : HistoryLogLine) : bool := time_test c_lt (hf_timestamp_b f) l || is_msgid (hf_msgid_b f) l.
Definition latest_stop (f : HistoryFilter) (l : HistoryLogLine) : bool := time_test c_le (hf_timestamp_a f) l || is_msgid (hf_msgid_a f) l.

Section reading.
Context (E : henv) (f : HistoryFilter).

Lemma after_started l w r : after_loop E f l true w r = page_loop E hbm_result_append_line (after_stop f) (hf_limit f) l w r.
Proof.
  revert w r. induction l as [|x l IH]; intros w r; cbn [after_loop page_loop negb andb orb]; [done|]. fold (after_stop f x).
  destruct (after_stop f x); [done|]. destruct (hf_limit f <=? w); [done|]. destruct (duplicate_log_line E x); cbn; [apply IH|done].
Qed.

Lemma before_started l w r : before_loop E f l true w r = page_loop E hbm_result_prepend_line (before_stop f) (hf_limit f) l w r.
Proof.
  revert w r. induction l as [|x l IH]; intros w r; cbn [before_loop page_loop negb andb orb]; [done|]. fold (before_stop f x).
  destruct (before_stop f x); [done|]. destruct (hf_limit f <=? w); [done|]. destruct (duplicate_log_line E x); cbn; [apply IH|done].
Qed.

Lemma latest_started l w r : latest_loop E f l w r = page_loop E hbm_result_prepend_line (latest_stop f) (hf_limit f) l w r.
Proof.
  revert w r. induction l as [|x l IH]; intros w r; cbn [latest_loop page_loop]; [done|]. fold (latest_stop f x).
  destruct (latest_stop f x); [done|]. destruct (hf_limit f <=? w); [done|]. destruct (duplicate_log_line E x); cbn; [apply IH|done].
Qed.

(** Where the loops start. *)
Definition start_at (ok : comparison -> bool) (l : list HistoryLogLine) : list HistoryLogLine :=
  match hf_timestamp_a f, hf_msgid_a f with
  | Some _, _ => from (time_test ok (hf_timestamp_a f)) l
  | None, Some _ => skip_past (is_msgid (hf_msgid_a f)) l
  | None, None => []
  end.

Definition one_start : Prop := hf_timestamp_a f = None \/ hf_msgid_a f = None.

Lemma after_unstarted l w r : one_start -> after_loop E f l false w r = after_loop E f (start_at c_gt l) true w r.
Proof.
  intros Hone. unfold start_at. induction l as [|x l IH]; [by repeat case_match|]. cbn [after_loop from skip_past negb andb orb]. destruct Hone as [Ha|Hm].
  - rewrite Ha in *. cbn [time_test negb andb]. destruct (hf_msgid_a f) as [m|] eqn:Em; [|done]. by destruct (is_msgid (Some m) x).
  - rewrite Hm in *. unfold is_msgid at 1. cbn. destruct (hf_timestamp_a f) as [a|]; cbn [time_test] in *; [|done]. rewrite andb_false_r.
    by destruct (c_gt (strcmp (hl_time x) a)).
Qed.

Lemma before_unstarted l w r : one_start -> before_loop E f l false w r = before_loop E f (start_at c_lt l) true w r.
Proof.
  intros Hone. unfold start_at. induction l as [|x l IH]; [by repeat case_match|]. cbn [before_loop from skip_past negb andb orb]. destruct Hone as [Ha|Hm].
  - rewrite Ha in *. cbn [time_test negb andb]. destruct (hf_msgid_a f) as [m|] eqn:Em; [|done]. by destruct (is_msgid (Some m) x).
  - rewrite Hm in *. unfold is_msgid at 1. cbn. destruct (hf_timestamp_a f) as [a|]; cbn [time_test] in *; [|done]. rewrite andb_false_r.
    by destruct (c_lt (strcmp (hl_time x) a)).
Qed.
End reading.

(** ** What a request asks for *)

Definition later (a : cstring) (l : HistoryLogLine) : bool := c_gt (strcmp (hl_time l) a).
Definition earlier (b : cstring) (l : HistoryLogLine) : bool := c_lt (strcmp (hl_time l) b).

(** After a time or a message, up to a time or a message. *)
Definition after_lines (f : HistoryFilter) (l : list HistoryLogLine) : list HistoryLogLine :=
  let l := match hf_timestamp_a f, hf_msgid_a f with
           | Some a, _ => List.filter (later a) l | None, Some m => skip_past (is_msgid (Some m)) l | None, None => [] end in
  match hf_timestamp_b f, hf_msgid_b f with
  | Some b, _ => List.filter (earlier b) l | None, Some m => up_to (is_msgid (Some m)) l | None, None => l end.

(** Before a time or a message, down to a time or a message. *)
Definition before_lines (f : HistoryFilter) (l : list HistoryLogLine) : list HistoryLogLine :=
  let l := match hf_timestamp_a f, hf_msgid_a f with
           | Some a, _ => List.filter (earlier a) l | None, Some m => reverse (skip_past (is_msgid (Some m)) (reverse l)) | None, None => [] end in
  match hf_timestamp_b f, hf_msgid_b f with
  | Some b, _ => List.filter (fun x => negb (earlier b x)) l | None, Some m => reverse (up_to (is_msgid (Some m)) (reverse l)) | None, None => l end.

Definition latest_lines (f : HistoryFilter) (l : list HistoryLogLine) : list HistoryLogLine :=
  match hf_timestamp_a f, hf_msgid_a f with
  | Some a, _ => List.filter (later a) l | None, Some m => reverse (up_to (is_msgid (Some m)) (reverse l)) | None, None => l end.

Definition swapped (f : HistoryFilter) : HistoryFilter :=
  MkFilter HFC_BEFORE 0 0 (hf_timestamp_b f) (hf_msgid_b f) (hf_timestamp_a f) (hf_msgid_a f) None (hf_limit f).

(** The last element that satisfies [p]: what comes before it, and the rest with it. *)
Fixpoint split_last {A} (p : A -> bool) (l : list A) : option (list A * list A) :=
  match l with
  | [] => None
  | x :: l' => match split_last p l' with
               | Some (a, b) => Some (x :: a, b)
               | None => if p x then Some ([], l) else None
               end
  end.

(** The point a window is around: the lines before it, and the others.  With a time it is
    the first line that is not earlier; if all lines are earlier it is the last one.  There is
    none if no line is earlier, or only the last one. *)
Definition middle (f : HistoryFilter) (l : list HistoryLogLine) : option (list HistoryLogLine * list HistoryLogLine) :=
  match hf_timestamp_a f, hf_msgid_a f with
  | Some a, _ =>
      let before := List.filter (earlier a) l in
      let others := List.filter (fun x => negb (earlier a x)) l in
      if bool_decide (before = []) then None
      else if bool_decide (others = []) then
        if (length before =? 1)%nat then None else Some (removelast before, drop (length before - 1) before)
      else Some (before, others)
  | None, Some m => split_last (is_msgid (Some m)) l
  | None, None => None
  end.

(** A window: half of the limit before the point, or all but one if the point is the last
    line, and the rest from the point on; but at least one line each.  If the point is missing,
    the oldest lines when the time is not an hour or more before that of the last line. *)
Definition window (f : HistoryFilter) (l : list HistoryLogLine) : list HistoryLogLine :=
  match middle f l with
  | Some (before, others) =>
      let k := Z.to_nat (Z.max 1 (if (length others =? 1)%nat then hf_limit f - 1 else Z.quot (hf_limit f) 2)) in
      let shown := lastn k before in
      shown ++ take (Z.to_nat (Z.max 1 (hf_limit f - Z.of_nat (length shown)))) others
  | None =>
      match hf_timestamp_a f, last l with
      | Some a, Some newest =>
          if server_time_to_unix_time (Some (hl_time newest)) - server_time_to_unix_time (Some a) <? 3600
          then take (Z.to_nat (Z.max 1 (hf_limit f))) l else []
      | _, _ => []
      end
  end.

(** The answer, on the lines [l] that have not expired. *)
Definition expected (now max_time : Z) (f : HistoryFilter) (l : list HistoryLogLine) : HistoryResult :=
  match hf_cmd f with
  | HFC_AFTER => first_page (hf_limit f) (after_lines f l)
  | HFC_BEFORE => last_page (hf_limit f) (before_lines f l)
  | HFC_LATEST => last_page (hf_limit f) (latest_lines f l)
  | HFC_BETWEEN =>
      match hf_timestamp_a f, hf_timestamp_b f with
           | Some a, Some b => first_page (hf_limit f) (List.filter (fun x => (later a x && earlier b x) || (later b x && earlier a x)) l)
           | _, _ => match direction_loop f l false false with
                     | Some true => first_page (hf_limit f) (after_lines f l)
                     | Some false => first_page (hf_limit f) (after_lines (swapped f) l)
                     | None => result_of [] true
                     end
           end
  | HFC_SIMPLE =>
      let redline := now - (if negb (hf_last_seconds f =? 0) && (hf_last_seconds f <? max_time) then hf_last_seconds f else max_time) in
      result_of (lastn (Z.to_nat (hf_last_lines f)) (live redline l)) false
  | HFC_AROUND => result_of (window f l) false
  end.

(** A request as CHATHISTORY makes it: a point is a time or a message, and a window has one. *)
Definition filter_ok (f : HistoryFilter) : Prop :=
  (hf_timestamp_a f = None \/ hf_msgid_a f = None) /\ (hf_timestamp_b f = None \/ hf_msgid_b f = None) /\ 0 <= hf_last_lines f /\
  (hf_cmd f = HFC_AROUND -> hf_timestamp_b f = None /\ hf_msgid_b f = None).

(** The order of the texts of the times, which is that of the log if these are as the
    server writes them. *)
Definition le_time (a b : HistoryLogLine) : Prop := strcmp (hl_time a) (hl_time b) <> Gt.

Lemma le_line_time a b : line_ok true a -> line_ok true b -> le_line a b -> le_time a b.
Proof.
  intros Ha Hb [H|[_ H]]; [|done]. rewrite (lk_t true a Ha), (lk_t true b Hb) in H. unfold le_time.
  rewrite unix_time_lt; [done| | |done]; by apply (lk_strict true).
Qed.

Lemma sorted_times l : Forall (line_ok true) l -> StronglySorted le_line l -> StronglySorted le_time l.
Proof.
  intros Hl Hs. induction Hs as [|x l Hs IH Hx]; [constructor|]. apply Forall_cons in Hl as [Hxok Hl]. constructor; [by apply IH|].
  apply Forall_forall. intros y Hy. rewrite Forall_forall in Hl, Hx. apply le_line_time; auto.
Qed.

(** *** Cutting a sorted log *)

Lemma later_up a x y : later a x = true -> le_time x y -> later a y = true.
Proof.
  unfold later, le_time. destruct (strcmp (hl_time x) a) eqn:E1; try done. intros _ H. apply strcmp_swap in E1. pose proof (strcmp_lt_le _ _ _ E1 H) as E2.
  apply strcmp_swap in E2. by rewrite E2.
Qed.

Lemma earlier_down b x y : earlier b x = true -> le_time y x -> earlier b y = true.
Proof.
  unfold earlier, le_time. destruct (strcmp (hl_time x) b) eqn:E1; try done. intros _ H. by rewrite (strcmp_le_lt _ _ _ H E1).
Qed.

Lemma later_from a l : StronglySorted le_time l -> from (later a) l = List.filter (later a) l.
Proof. intros Hs. apply (cut_sorted le_time); [done|apply later_up]. Qed.

Lemma earlier_up_to b l : StronglySorted le_time l -> up_to (fun x => negb (earlier b x)) l = List.filter (earlier b) l.
Proof.
  intros Hs. destruct (cut_sorted le_time (fun x => negb (earlier b x)) l Hs) as [_ ->].
  - intros x y H1 H2. apply negb_true_iff. apply negb_true_iff in H1. destruct (earlier b y) eqn:E; [|done]. by rewrite (earlier_down b y x E H2) in H1.
  - apply filter_ext. intros x. apply negb_involutive.
Qed.

Lemma up_to_from {A} (p : A -> bool) l : l = up_to p l ++ from p l.
Proof. induction l as [|x l IH]; simpl; [done|]. destruct (p x); [done|]. simpl. by f_equal. Qed.

Lemma earlier_cut a l : StronglySorted le_time l -> l = List.filter (earlier a) l ++ List.filter (fun x => negb (earlier a x)) l.
Proof.
  intros Hs. rewrite <- earlier_up_to by done. destruct (cut_sorted le_time (fun x => negb (earlier a x)) l Hs) as [<- _]; [|apply up_to_from].
  intros x y H1 H2. apply negb_true_iff. apply negb_true_iff in H1. destruct (earlier a y) eqn:Ey; [|done]. by rewrite (earlier_down a y x Ey H2) in H1.
Qed.

Lemma earlier_from b l : StronglySorted le_time l -> from (earlier b) (reverse l) = reverse (List.filter (earlier b) l).
Proof.
  intros Hs. destruct (cut_sorted (fun x y => le_time y x) (earlier b) (reverse l)) as [-> _]; [by apply StronglySorted_reverse|apply earlier_down|]. apply filter_reverse.
Qed.

Lemma reverse_up_to p l : StronglySorted le_time l -> (forall x y, p x = true -> le_time y x -> p y = true) ->
  up_to p (reverse l) = reverse (List.filter (fun x => negb (p x)) l).
Proof.
  intros Hs Hp. destruct (cut_sorted (fun x y => le_time y x) p (reverse l)) as [_ ->]; [by apply StronglySorted_reverse|done|]. apply filter_reverse.
Qed.

Lemma filter_sublist {A} (p : A -> bool) l : List.filter p l `sublist_of` l.
Proof. induction l as [|x l IH]; simpl; [done|]. case_match; by constructor. Qed.

Lemma reverse_sublist {A} (l k : list A) : l `sublist_of` k -> reverse l `sublist_of` reverse k.
Proof.
  induction 1 as [|x l k Hs IH|x l k Hs IH]; [done|rewrite !reverse_cons; by apply sublist_app|]. rewrite reverse_cons. by apply sublist_inserts_r.
Qed.

Lemma skip_past_sublist {A} (p : A -> bool) l : skip_past p l `sublist_of` l.
Proof. induction l as [|x l IH]; simpl; [done|]. case_match; by constructor. Qed.

(** *** The requests *)

Definition empty_result : HistoryResult := MkResult [] 0 0 false.

Lemma append_page E stop limit l :
  Forall (line_ok true) l -> exists w, page_loop E hbm_result_append_line stop limit l 0 empty_result = Some (first_page limit (up_to stop l), w).
Proof.
  intros Hl. destruct (page_loop_ok E hbm_result_append_line stop limit l 0 empty_result Hl) as [w ->]. exists w.
  rewrite append_all, Z.sub_0_r. done.
Qed.

Lemma prepend_page E stop limit l k :
  Forall (line_ok true) l -> up_to stop l = reverse k -> exists w, page_loop E hbm_result_prepend_line stop limit l 0 empty_result = Some (last_page limit k, w).
Proof.
  intros Hl Hk. destruct (page_loop_ok E hbm_result_prepend_line stop limit l 0 empty_result Hl) as [w ->]. exists w.
  rewrite prepend_all, Z.sub_0_r, Hk. unfold last_page, result_of, lastn, set_reached_end. simpl. rewrite app_nil_r, total_reverse, bytes_reverse, length_reverse. done.
Qed.

Section answers.
Context (E : henv) (h : HistoryLogObject) (Hok : Forall (line_ok true) (ho_lines h)) (Hs : StronglySorted le_time (ho_lines h)).

Lemma after_stop_lines f l :
  hf_timestamp_b f = None \/ hf_msgid_b f = None -> StronglySorted le_time l ->
  up_to (after_stop f) l =
    match hf_timestamp_b f, hf_msgid_b f with
    | Some b, _ => List.filter (earlier b) l | None, Some m => up_to (is_msgid (Some m)) l | None, None => l end.
Proof.
  intros Hone Hl. unfold after_stop. destruct (hf_timestamp_b f) as [b|].
  - destruct Hone as [| ->]; [done|]. rewrite <- earlier_up_to by done. apply up_to_ext. intros x. apply orb_false_r.
  - cbn. destruct (hf_msgid_b f) as [m|]; [done|]. by apply up_to_never.
Qed.

Lemma start_at_after f : one_start f -> start_at f c_gt (ho_lines h) =
  match hf_timestamp_a f, hf_msgid_a f with
  | Some a, _ => List.filter (later a) (ho_lines h) | None, Some m => skip_past (is_msgid (Some m)) (ho_lines h) | None, None => [] end.
Proof using Hs. intros Hone. unfold start_at. destruct (hf_timestamp_a f) as [a|]; [by apply later_from|by destruct (hf_msgid_a f)]. Qed.

Lemma start_sublist f : start_at f c_gt (ho_lines h) `sublist_of` ho_lines h.
Proof using Hs.
  unfold start_at. destruct (hf_timestamp_a f) as [a|]; [change (time_test c_gt (Some a)) with (later a); rewrite later_from by done; apply filter_sublist|].
  destruct (hf_msgid_a f); [apply skip_past_sublist|apply sublist_nil_l].
Qed.

Lemma return_after_ok f :
  one_start f -> hf_timestamp_b f = None \/ hf_msgid_b f = None ->
  exists w, hbm_return_after E empty_result h f = Some (first_page (hf_limit f) (after_lines f (ho_lines h)), w).
Proof using Hok Hs.
  intros Ha Hb. unfold hbm_return_after. rewrite after_unstarted, after_started by done.
  destruct (append_page E (after_stop f) (hf_limit f) (start_at f c_gt (ho_lines h))) as [w ->]; [eapply Forall_sub; [apply start_sublist|done]|].
  exists w. do 2 f_equal. rewrite after_stop_lines; [|done|eapply StronglySorted_sublist; [apply start_sublist|done]]. unfold after_lines. by rewrite <- start_at_after.
Qed.

Lemma return_before_ok f :
  one_start f -> hf_timestamp_b f = None \/ hf_msgid_b f = None ->
  exists w, hbm_return_before E empty_result h f = Some (last_page (hf_limit f) (before_lines f (ho_lines h)), w).
Proof using Hok Hs.
  intros Ha Hb. unfold hbm_return_before. rewrite before_unstarted, before_started by done.
  set (k := match hf_timestamp_a f, hf_msgid_a f with
           | Some a, _ => List.filter (earlier a) (ho_lines h) | None, Some m => reverse (skip_past (is_msgid (Some m)) (reverse (ho_lines h))) | None, None => [] end).
  assert (start_at f c_lt (reverse (ho_lines h)) = reverse k) as ->.
  { unfold start_at, k. destruct (hf_timestamp_a f) as [a|]; [by rewrite <- earlier_from|]. destruct (hf_msgid_a f); [by rewrite reverse_involutive|done]. }
  assert (k `sublist_of` ho_lines h) as Hk.
  { unfold k. destruct (hf_timestamp_a f) as [a|]; [apply filter_sublist|]. destruct (hf_msgid_a f); [|apply sublist_nil_l].
    rewrite <- (reverse_involutive (ho_lines h)) at 2. apply reverse_sublist, skip_past_sublist. }
  apply prepend_page; [by apply Forall_reverse; eapply Forall_sub|]. unfold before_lines. fold k. unfold before_stop.
  assert (StronglySorted le_time k) as Hsk by (by eapply StronglySorted_sublist). destruct (hf_timestamp_b f) as [b|].
  - destruct Hb as [| ->]; [done|]. rewrite <- reverse_up_to by (done || apply earlier_down). apply up_to_ext. intros x. apply orb_false_r.
  - cbn. destruct (hf_msgid_b f) as [m|]; [by rewrite reverse_involutive|by apply up_to_never].
Qed.

Lemma return_latest_ok f : one_start f -> exists w, hbm_return_latest E empty_result h f = Some (last_page (hf_limit f) (latest_lines f (ho_lines h)), w).
Proof using Hok Hs.
  intros Ha. unfold hbm_return_latest. rewrite latest_started. apply prepend_page; [by apply Forall_reverse|]. unfold latest_lines, latest_stop.
  unfold one_start in Ha. destruct (hf_timestamp_a f) as [a|].
  - destruct Ha as [| ->]; [done|]. erewrite filter_ext; [rewrite <- reverse_up_to; [apply up_to_ext; intros x; apply orb_false_r|done|]|].
    + intros x y. cbn. unfold c_le. rewrite !negb_true_iff. change (later a x = false -> le_time y x -> later a y = false).
      intros Hx Hy. destruct (later a y) eqn:Ey; [|done]. by rewrite <- Hx, (later_up a y x Ey Hy).
    + intros x. cbn. unfold c_le. by rewrite negb_involutive.
  - cbn. destruct (hf_msgid_a f) as [m|]; [by rewrite reverse_involutive|by apply up_to_never].
Qed.

Lemma filter_filter {A} (p q : A -> bool) l : List.filter p (List.filter q l) = List.filter (fun x => q x && p x) l.
Proof. induction l as [|x l IH]; simpl; [done|]. destruct (q x); simpl; [|done]. by rewrite IH. Qed.

Lemma not_between a b x : strcmp a b <> Gt -> later b x && earlier a x = false.
Proof.
  intros Hab. unfold later, earlier. destruct (strcmp (hl_time x) b) eqn:E1; try done. destruct (strcmp (hl_time x) a) eqn:E2; try done.
  pose proof (strcmp_lt_le _ _ _ E2 Hab) as E3. congruence.
Qed.

Lemma return_between_ok f :
  one_start f -> hf_timestamp_b f = None \/ hf_msgid_b f = None -> hf_cmd f = HFC_BETWEEN ->
  exists r w, hbm_return_between E empty_result h f = Some (r, w) /\ expected (he_now E) (ho_max_time h) f (ho_lines h) = r.
Proof using Hok Hs.
  intros Ha Hb Hcmd. unfold hbm_return_between, hbm_return_between_figure_out_direction, expected. rewrite Hcmd. fold (swapped f).
  destruct (return_after_ok f Ha Hb) as [w1 H1]. destruct (return_after_ok (swapped f) Hb Ha) as [w2 H2].
  assert (exists r w, match direction_loop f (ho_lines h) false false with
      | Some true => hbm_return_after E empty_result h f | Some false => hbm_return_after E empty_result h (swapped f) | None => Some (set_reached_end true empty_result, 0) end = Some (r, w) /\
    match direction_loop f (ho_lines h) false false with
      | Some true => first_page (hf_limit f) (after_lines f (ho_lines h)) | Some false => first_page (hf_limit f) (after_lines (swapped f) (ho_lines h)) | None => result_of [] true end = r) as Hdir
    by (destruct (direction_loop f (ho_lines h) false false) as [[]|]; eauto).
  set (g := swapped f) in *. destruct (hf_timestamp_a f) as [a|] eqn:Ea, (hf_timestamp_b f) as [b|] eqn:Eb; try exact Hdir. clear Hdir.
  destruct (c_le (strcmp a b)) eqn:Ec.
  - rewrite H1. eexists _, _. split; [done|]. f_equal. unfold after_lines. rewrite Ea, Eb, filter_filter. apply filter_ext. intros x.
    rewrite (not_between a b x); [by rewrite orb_false_r|]. by destruct (strcmp a b).
  - rewrite H2. eexists _, _. split; [done|]. f_equal. unfold after_lines, g, swapped. cbn [hf_timestamp_a hf_timestamp_b hf_msgid_a hf_msgid_b hf_limit]. rewrite Ea, Eb, filter_filter. apply filter_ext. intros x.
    rewrite (not_between b a x); [by rewrite orb_false_l|]. rewrite strcmp_antisym. by destruct (strcmp a b).
Qed.

Lemma simple_loop_ok redline skip l cnt w r :
  Forall (line_ok true) l -> 0 <= cnt ->
  exists w', simple_loop E redline skip l cnt w r = Some (foldl hbm_result_append_line r (drop (Z.to_nat (skip - cnt)) (live redline l)), w').
Proof.
  intros Hl. revert cnt w r. induction Hl as [|x l Hx _ IH]; intros cnt w r Hc; cbn [simple_loop live List.filter]; [eexists; by rewrite drop_nil|].
  destruct (redline <=? hl_t x); [|apply IH; lia]. destruct (skip <? cnt + 1) eqn:Es.
  - rewrite (duplicate_log_line_ok true) by done. cbn. destruct (IH (cnt + 1) (w + 1) (hbm_result_append_line r x)) as [w' ->]; [lia|].
    replace (Z.to_nat (skip - cnt)) with 0%nat by lia. replace (Z.to_nat (skip - (cnt + 1))) with 0%nat by lia. eexists. done.
  - destruct (IH (cnt + 1) w r) as [w' ->]; [lia|]. replace (Z.to_nat (skip - cnt)) with (S (Z.to_nat (skip - (cnt + 1)))) by lia. eexists. done.
Qed.

Lemma lastn_drop {A} n (l : list A) : lastn n l = drop (length l - n) l.
Proof.
  unfold lastn. rewrite take_reverse. by rewrite reverse_involutive.
Qed.

Lemma return_simple_ok f :
  hf_cmd f = HFC_SIMPLE -> 0 <= hf_last_lines f ->
  exists r w, hbm_return_simple E empty_result h f = Some (r, w) /\ expected (he_now E) (ho_max_time h) f (ho_lines h) = r.
Proof using Hok.
  intros Hcmd Hl. unfold hbm_return_simple, expected. rewrite Hcmd.
  set (redline := if negb (hf_last_seconds f =? 0) && (hf_last_seconds f <? ho_max_time h) then he_now E - hf_last_seconds f else he_now E - ho_max_time h).
  replace (he_now E - (if negb (hf_last_seconds f =? 0) && (hf_last_seconds f <? ho_max_time h) then hf_last_seconds f else ho_max_time h)) with redline by (unfold redline; by case_match).
  fold (live redline (ho_lines h)). set (n := length (live redline (ho_lines h))).
  set (skip := if hf_last_lines f <? Z.of_nat n then Z.of_nat n - hf_last_lines f else 0).
  destruct (simple_loop_ok redline skip (ho_lines h) 0 0 empty_result Hok ltac:(lia)) as [w ->]. eexists _, _. split; [done|].
  rewrite append_all, lastn_drop, Z.sub_0_r. fold n. replace (Z.to_nat skip) with (n - Z.to_nat (hf_last_lines f))%nat by (unfold skip; case_match; lia). done.
Qed.

(** *** Windows *)

Lemma split_last_None {A} (p : A -> bool) l : split_last p l = None <-> Forall (fun x => p x = false) l.
Proof.
  induction l as [|x l IH]; simpl; [by split|]. rewrite Forall_cons. destruct (split_last p l) as [[a b]|].
  - split; [done|]. intros [_ H]. by apply IH in H.
  - destruct (p x); [split; [done|by intros []]|]. split; [|done]. intros _. split; [done|by apply IH].
Qed.

Lemma split_last_Some {A} (p : A -> bool) l a b :
  split_last p l = Some (a, b) -> exists x c, b = x :: c /\ l = a ++ b /\ p x = true /\ Forall (fun x => p x = false) c.
Proof.
  revert a b. induction l as [|x l IH]; intros a b H; simpl in H; [done|]. destruct (split_last p l) as [[a' b']|] eqn:Esp.
  - simplify_eq. destruct (IH a' b eq_refl) as (y & c & -> & -> & H1 & H2). by exists y, c.
  - destruct (p x) eqn:Ep; simplify_eq. exists x, l. by apply split_last_None in Esp.
Qed.

(** The first loop once it has started. *)
Lemma around_started f rev post s next w r :
  hf_timestamp_b f = None -> hf_msgid_b f = None -> Forall (line_ok true) rev ->
  let n := Z.to_nat (Z.max 1 ((if (length (s :: next) =? 1)%nat then hf_limit f - 1 else Z.quot (hf_limit f) 2) - w)) in
  around_loop E f rev post (s :: next) w r =
    Some (foldl hbm_result_prepend_line r (take n rev), w + Z.of_nat (length (take n rev)), s :: next).
Proof.
  intros Hb1 Hb2 Hrev. cbv zeta. set (K := if (length (s :: next) =? 1)%nat then _ else _).
  assert ((match next with [] => hf_limit f - 1 | _ => Z.quot (hf_limit f) 2 end) = K) as HK by (unfold K; by destruct next).
  revert post w r. induction Hrev as [|l rev Hl _ IH]; intros post w r; cbn [around_loop].
  { rewrite take_nil. simpl. by rewrite Z.add_0_r. }
  rewrite bool_decide_false by done. rewrite Hb1, Hb2. cbn -[duplicate_log_line Z.quot]. rewrite (duplicate_log_line_ok true) by done. cbn -[Z.quot].
  rewrite HK. destruct (Z.leb_spec K (w + 1)) as [Hle|Hgt].
  - replace (Z.to_nat (Z.max 1 (K - w))) with 1%nat by lia. done.
  - rewrite IH. replace (Z.to_nat (Z.max 1 (K - w))) with (S (Z.to_nat (Z.max 1 (K - (w + 1))))) by lia. cbn [take foldl length].
    do 2 f_equal. f_equal. lia.
Qed.

Lemma around_rest_ok f l w r :
  Forall (line_ok true) l ->
  exists w', around_rest E f l w r = Some (foldl hbm_result_append_line r (take (Z.to_nat (Z.max 1 (hf_limit f - w))) l), w').
Proof.
  intros Hl. revert w r. induction Hl as [|x l Hx _ IH]; intros w r; cbn [around_rest]; [eexists; by rewrite take_nil|].
  rewrite (duplicate_log_line_ok true) by done. cbn. destruct (Z.leb_spec (hf_limit f) (w + 1)) as [Hle|Hgt].
  - replace (Z.to_nat (Z.max 1 (hf_limit f - w))) with 1%nat by lia. eexists. done.
  - destruct (IH (w + 1) (hbm_result_append_line r x)) as [w' ->].
    replace (Z.to_nat (Z.max 1 (hf_limit f - w))) with (S (Z.to_nat (Z.max 1 (hf_limit f - (w + 1))))) by lia. eexists. done.
Qed.

(** Lines that are no starting point are passed over. *)
Lemma around_pass f b rev post r :
  Forall (fun x => time_test c_lt (hf_timestamp_a f) x = false /\ is_msgid (hf_msgid_a f) x = false) b ->
  around_loop E f (reverse b ++ rev) post [] 0 r = around_loop E f rev (b ++ post) [] 0 r.
Proof.
  revert post. induction b as [|x b IH] using rev_ind; intros post Hb; [done|]. apply Forall_app in Hb as [Hb [[H1 H2] _]%Forall_cons].
  rewrite reverse_app. cbn [reverse rev_append app around_loop]. rewrite H1, H2. cbn [negb andb]. rewrite !bool_decide_true by done. cbn [andb].
  rewrite IH by done. by rewrite <- app_assoc.
Qed.

Lemma destruct_last {A} (l : list A) : l <> [] -> exists k x, l = k ++ [x].
Proof. intros H. destruct l as [|x l _] using rev_ind; [done|]. by exists l, x. Qed.

Lemma destruct_last_or_nil {A} (l : list A) : l = [] \/ exists k x, l = k ++ [x].
Proof. destruct l as [|x l]; [by left|right; by apply destruct_last]. Qed.

Lemma middle_split f l before others :
  StronglySorted le_time l -> middle f l = Some (before, others) -> l = before ++ others /\ others <> [].
Proof.
  intros Hsl. unfold middle. destruct (hf_timestamp_a f) as [a|].
  - pose proof (earlier_cut a l Hsl) as Hcut. cbv zeta. case_bool_decide as E1; [done|]. case_bool_decide as E2.
    + destruct (_ =? 1)%nat; [done|]. intros [= <- <-]. rewrite E2, app_nil_r in Hcut. rewrite <- Hcut.
      destruct (destruct_last _ E1) as (k & x & Ek). rewrite <- Hcut in Ek. rewrite Ek, removelast_last, length_app. simpl.
      by replace (length k + 1 - 1)%nat with (length k) by lia; rewrite drop_app_length.
    + intros [= <- <-]. done.
  - destruct (hf_msgid_a f); [|done]. intros (x & c & -> & -> & _)%split_last_Some. done.
Qed.

(** The point where the first loop starts, and what it collects. *)
Lemma around_middle f l :
  one_start f -> hf_timestamp_b f = None -> hf_msgid_b f = None -> Forall (line_ok true) l -> StronglySorted le_time l ->
  around_loop E f (reverse l) [] [] 0 empty_result =
    match middle f l with
    | Some (before, others) =>
        let n := Z.to_nat (Z.max 1 (if (length others =? 1)%nat then hf_limit f - 1 else Z.quot (hf_limit f) 2)) in
        Some (foldl hbm_result_prepend_line empty_result (take n (reverse before)), Z.of_nat (length (lastn n before)), others)
    | None => Some (empty_result, 0, [])
    end.
Proof.
  intros Hone Hb1 Hb2 Hl Hsl. unfold middle.
  assert (Hgo : forall before x others, Forall (line_ok true) before ->
    around_loop E f (reverse before) (x :: others) (x :: others) 0 empty_result =
    let n := Z.to_nat (Z.max 1 (if (length (x :: others) =? 1)%nat then hf_limit f - 1 else Z.quot (hf_limit f) 2)) in
    Some (foldl hbm_result_prepend_line empty_result (take n (reverse before)), Z.of_nat (length (lastn n before)), x :: others)).
  { intros before x others Hbf. rewrite around_started by (done || by apply Forall_reverse). rewrite Z.sub_0_r, Z.add_0_l. unfold lastn. by rewrite length_reverse. }
  destruct (hf_timestamp_a f) as [a|] eqn:Ea; cycle 1.
  { destruct (hf_msgid_a f) as [m|] eqn:Em; cycle 1.
    { rewrite <- (app_nil_r (reverse l)). rewrite around_pass; [done|]. rewrite Ea, Em. by apply Forall_forall. }
    destruct (split_last (is_msgid (Some m)) l) as [[before others]|] eqn:Esp.
    - destruct (split_last_Some _ _ _ _ Esp) as (x & c & -> & -> & Hx & Hc). apply Forall_app in Hl as [Hlb _].
      rewrite reverse_app, reverse_cons, <- app_assoc. rewrite around_pass; [|rewrite Ea, Em; by eapply Forall_impl].
      cbn [app around_loop]. rewrite Ea, Em. cbn [time_test]. rewrite Hx, bool_decide_true by done. cbn [negb andb]. rewrite app_nil_r. by apply Hgo.
    - rewrite <- (app_nil_r (reverse l)). rewrite around_pass; [done|]. rewrite Ea, Em. apply split_last_None in Esp. by eapply Forall_impl. }
  destruct Hone as [|Hm]; [congruence|].
  assert (Hcut : l = List.filter (earlier a) l ++ List.filter (fun x => negb (earlier a x)) l) by (by apply earlier_cut).
  set (before := List.filter (earlier a) l) in *. set (others := List.filter (fun x => negb (earlier a x)) l) in *.
  assert (Hbe : Forall (fun x => earlier a x = true) before) by (apply Forall_forall; intros x Hx%list_elem_of_In; by apply filter_In in Hx as [_ ?]).
  assert (Hot : Forall (fun x => time_test c_lt (hf_timestamp_a f) x = false /\ is_msgid (hf_msgid_a f) x = false) others).
  { rewrite Ea, Hm. apply Forall_forall. intros x Hx%list_elem_of_In. apply filter_In in Hx as [_ Hx%negb_true_iff]. done. }
  assert (Hbok : Forall (line_ok true) before) by (rewrite Hcut in Hl; by apply Forall_app in Hl as [? _]).
  rewrite Hcut at 1. rewrite reverse_app, around_pass by done. rewrite app_nil_r.
  assert (Hearly : forall x rev post, earlier a x = true -> post <> [] ->
    around_loop E f (x :: rev) post [] 0 empty_result = around_loop E f (x :: rev) post post 0 empty_result).
  { intros x rev post Hx Hne. cbn [around_loop]. rewrite Ea, Hm. change (time_test c_lt (Some a) x) with (earlier a x). rewrite Hx. cbn [negb andb].
    rewrite (bool_decide_false (post = [])) by done. by rewrite bool_decide_true. }
  case_bool_decide as E1; [by rewrite E1|]. destruct (destruct_last before E1) as (b & x & Eb). rewrite Eb in *.
  apply Forall_app in Hbe as [Hbe [Hx _]%Forall_cons]. apply Forall_app in Hbok as [Hbok [Hxok _]%Forall_cons].
  case_bool_decide as E2.
  - rewrite E2, reverse_app, length_app, removelast_last. cbn [reverse rev_append app length around_loop].
    rewrite Ea, Hm. change (time_test c_lt (Some a) x) with (earlier a x). rewrite Hx, !bool_decide_true by done. cbn [negb andb].
    destruct (destruct_last_or_nil b) as [->|(c & y & ->)]; [done|]. rewrite length_app. simpl length.
    rewrite (proj2 (Nat.eqb_neq _ _)) by lia. replace (length c + 1 + 1 - 1)%nat with (length (c ++ [y])) by (rewrite length_app; simpl; lia).
    rewrite drop_app_length. rewrite <- (Hgo (c ++ [y])) by done. rewrite reverse_app. cbn [reverse rev_append app].
    apply Forall_app in Hbe as [_ [Hy _]%Forall_cons]. by apply Hearly.
  - destruct others as [|o others']; [done|]. rewrite <- Hgo by (apply Forall_app; split; [done|by apply Forall_singleton]). rewrite reverse_app. cbn [reverse rev_append app].
    by apply Hearly.
Qed.

Lemma return_around_ok f :
  hf_cmd f = HFC_AROUND -> one_start f -> hf_timestamp_b f = None -> hf_msgid_b f = None ->
  exists r w, hbm_return_around E empty_result h f = Some (r, w) /\ expected (he_now E) (ho_max_time h) f (ho_lines h) = r.
Proof using Hok Hs.
  intros Hcmd Hone Hb1 Hb2. unfold hbm_return_around, expected. rewrite Hcmd, around_middle by done. unfold window.
  destruct (middle f (ho_lines h)) as [[before others]|] eqn:Emid; cbn [mbind option_bind].
  - set (n := Z.to_nat (Z.max 1 _)). destruct (middle_split f (ho_lines h) before others Hs Emid) as [Hsplit Hne].
    assert (Forall (line_ok true) others) as Ho by (rewrite Hsplit in Hok; by apply Forall_app in Hok as [_ ?]).
    set (st := match hf_timestamp_a f, last (ho_lines h) with Some ts, Some tail => _ | _, _ => others end).
    assert (st = others) as ->.
    { unfold st. destruct (hf_timestamp_a f), (last (ho_lines h)); try done. rewrite (bool_decide_false (others = [])) by done. by rewrite andb_false_r. }
    destruct (around_rest_ok f others (Z.of_nat (length (lastn n before))) (foldl hbm_result_prepend_line empty_result (take n (reverse before))) Ho) as [w ->].
    eexists _, _. split; [done|]. rewrite append_all, prepend_all. unfold result_of, lastn. cbn. rewrite app_nil_r, total_app, bytes_app, total_reverse, bytes_reverse.
    f_equal; unfold bytes; lia.
  - set (st := match hf_timestamp_a f, last (ho_lines h) with Some ts, Some tail => _ | _, _ => [] end).
    assert (Forall (line_ok true) st) as Hst by (unfold st; repeat case_match; first [done|constructor]).
    destruct (around_rest_ok f st 0 empty_result Hst) as [w ->]. eexists _, _. split; [done|]. rewrite append_all, Z.sub_0_r.
    unfold st, result_of. cbn. f_equal.
    all: destruct (hf_timestamp_a f), (last (ho_lines h)); rewrite ?take_nil; try done; case_match; by rewrite ?take_nil.
Qed.
End answers.

(** ** The backend *)

Inductive history_op :=
  | OpAdd (E : henv) (object : cstring) (m : list MessageTag) (line : cstring)
  | OpAddMultiline (E : henv) (object : cstring) (m : list MessageTag) (source cmd target : cstring) (lines : list MLine)
  | OpRequest (E : henv) (object : cstring) (f : HistoryFilter)
  | OpDelete (object : cstring) (f : HistoryFilter)
  | OpDestroy (object : cstring)
  | OpSetLimit (E : henv) (object : cstring) (max_lines max_time : Z)
  | OpClean (E : henv) (hashnum : Z).

Definition history_step (key : list Z) (t : hbm_table) (op : history_op) : option hbm_table :=
  match op with
  | OpAdd E object m line => hbm_history_add key E t object m line
  | OpAddMultiline E object m source cmd target lines => hbm_history_add_multiline key E t object m source cmd target lines
  | OpRequest E object f => fst <$> hbm_history_request key E t object f
  | OpDelete object f => '(t, _, _) ← hbm_history_delete key t object f; Some t
  | OpDestroy object => Some (hbm_history_destroy key t object)
  | OpSetLimit E object max_lines max_time => Some (hbm_history_set_limit key E t object max_lines max_time)
  | OpClean E hashnum => Some (history_mem_clean E t hashnum).1
  end.

Definition history_run (key : list Z) (ops : list history_op) : option hbm_table :=
  foldl (fun t op => t ← t; history_step key t op) (Some ∅) ops.

(** Names fit, limits are positive, and the clock does not run before [T], the time limits are
    shorter; messages have tags as [mtags_ok] says, in the strict case times as the server writes
    them. *)
Definition op_ok (strict : bool) (T : Z) (op : history_op) : Prop :=
  match op with
  | OpAdd E object m _ | OpAddMultiline E object m _ _ _ _ => T <= he_now E /\ (length object <= OBJECTLEN)%nat /\ mtags_ok strict E m
  | OpRequest E _ _ => T <= he_now E
  | OpDelete _ _ | OpDestroy _ => True
  | OpSetLimit E object max_lines max_time => T <= he_now E /\ (length object <= OBJECTLEN)%nat /\ 0 < max_lines /\ max_time < T
  | OpClean E _ => T <= he_now E
  end.

(** *** Requests return *)

Section totality.
Context (strict : bool) (E : henv).

Ltac walk IH Hl := repeat first [rewrite (duplicate_log_line_ok strict) by exact Hl | progress cbn [mbind option_bind] | case_match | by eauto | by apply IH].

Lemma after_loop_total f l st w r : Forall (line_ok strict) l -> is_Some (after_loop E f l st w r).
Proof. intros Hl. revert st w r. induction Hl as [|x l Hx _ IH]; intros st w r; cbn [after_loop]; [done|]. walk IH Hx. Qed.

Lemma before_loop_total f l st w r : Forall (line_ok strict) l -> is_Some (before_loop E f l st w r).
Proof. intros Hl. revert st w r. induction Hl as [|x l Hx _ IH]; intros st w r; cbn [before_loop]; [done|]. walk IH Hx. Qed.

Lemma latest_loop_total f l w r : Forall (line_ok strict) l -> is_Some (latest_loop E f l w r).
Proof. intros Hl. revert w r. induction Hl as [|x l Hx _ IH]; intros w r; cbn [latest_loop]; [done|]. walk IH Hx. Qed.

Lemma simple_loop_total redline skip l cnt w r : Forall (line_ok strict) l -> is_Some (simple_loop E redline skip l cnt w r).
Proof. intros Hl. revert cnt w r. induction Hl as [|x l Hx _ IH]; intros cnt w r; cbn [simple_loop]; [done|]. walk IH Hx. Qed.

Lemma around_rest_total f l w r : Forall (line_ok strict) l -> is_Some (around_rest E f l w r).
Proof. intros Hl. revert w r. induction Hl as [|x l Hx _ IH]; intros w r; cbn [around_rest]; [done|]. walk IH Hx. Qed.

Lemma around_loop_total f rev post st w r :
  Forall (line_ok strict) rev -> Forall (line_ok strict) post -> Forall (line_ok strict) st ->
  exists r' w' st', around_loop E f rev post st w r = Some (r', w', st') /\ Forall (line_ok strict) st'.
Proof.
  intros Hrev. revert post st w r. induction Hrev as [|x rev Hx _ IH]; intros post st w r Hp Hs; cbn [around_loop]; [by eexists _, _, _|].
  assert (Forall (line_ok strict) (x :: post)) as Hxp by (by constructor).
  destruct (_ && is_msgid _ _); [by apply IH|]. set (st1 := if _ && _ then post else st).
  assert (Forall (line_ok strict) st1) as Hst1 by (unfold st1; by case_match). destruct st1 as [|y next]; [by apply IH|].
  destruct (_ || _); [by eexists _, _, _|]. rewrite (duplicate_log_line_ok strict) by exact Hx. cbn [mbind option_bind].
  destruct (_ <=? _); [by eexists _, _, _|]. by apply IH.
Qed.

Lemma return_total f h r :
  Forall (line_ok strict) (ho_lines h) ->
  is_Some (match hf_cmd f with
           | HFC_BEFORE => hbm_return_before E r h f
           | HFC_AFTER => hbm_return_after E r h f
           | HFC_LATEST => hbm_return_latest E r h f
           | HFC_AROUND => hbm_return_around E r h f
           | HFC_BETWEEN => hbm_return_between E r h f
           | HFC_SIMPLE => hbm_return_simple E r h f
           end).
Proof.
  intros Hl. assert (Forall (line_ok strict) (reverse (ho_lines h))) as Hr by (by apply Forall_reverse).
  assert (forall g, is_Some (hbm_return_after E r h g)) as Hafter by (intros g; by apply after_loop_total). destruct (hf_cmd f).
  - by apply simple_loop_total.
  - by apply before_loop_total.
  - by apply after_loop_total.
  - by apply latest_loop_total.
  - unfold hbm_return_around. destruct (around_loop_total f (reverse (ho_lines h)) [] [] 0 r) as (r' & w & st & -> & Hst); [done..|].
    cbn [mbind option_bind]. apply around_rest_total. by repeat case_match.
  - unfold hbm_return_between. repeat case_match; [by apply Hafter..|done].
Qed.
End totality.

Section backend.
Context (strict : bool) (key : list Z) (T : Z) (HT : 86400 < T).

Definition after_expiry (E : henv) (h : HistoryLogObject) : HistoryLogObject :=
  if ho_oldest_t h <? he_now E - ho_max_time h then hbm_history_cleanup E h else h.

Lemma after_expiry_ok E h :
  log_ok strict T h -> T <= he_now E ->
  log_ok strict T (after_expiry E h) /\ same_limits h (after_expiry E h) /\
  (strict = true -> ho_lines (after_expiry E h) = live (he_now E - ho_max_time h) (ho_lines h)).
Proof using Type.
  intros Hh Hnow. unfold after_expiry. pose proof (lo_limit strict T h Hh) as [Hl1 Hl2].
  destruct (cleanup_ok strict T E h (lo_core strict T h Hh) Hl1 Hl2 (lo_time strict T h Hh) Hnow) as (C1 & C2 & C3).
  case_match; [split_and!; try done; intros Hst; by apply (C3 Hst), lo_max with (strict := strict) (T := T)|].
  split_and!; [done..|]. intros Hst. symmetry. apply live_all. destruct (co_old strict h (lo_core strict T h Hh) Hst) as [_ Ho].
  eapply Forall_impl; [exact Ho|]. simpl. lia.
Qed.

Lemma log_request_total E h f :
  log_ok strict T h -> T <= he_now E -> exists r, log_request E h f = Some (after_expiry E h, r).
Proof using Type.
  intros Hh Hnow. destruct (after_expiry_ok E h Hh Hnow) as (L1 & _ & _). unfold log_request. fold (after_expiry E h).
  destruct (return_total strict E f (after_expiry E h) (MkResult [] 0 0 false)) as [[r w] Hr]; [apply L1|]. rewrite Hr. by exists r.
Qed.

Lemma history_step_ok t op :
  table_ok strict key T t -> op_ok strict T op -> exists t', history_step key t op = Some t' /\ table_ok strict key T t'.
Proof using HT.
  intros Ht Hop. destruct op as [E object m line|E object m source cmd target lines|E object f|object f|object|E object ml mt|E n]; cbn [history_step op_ok] in *.
  - destruct Hop as (H1 & H2 & H3). unfold hbm_history_add. destruct (hbm_find_or_add_object key t object) as [t1 h] eqn:Ef.
    destruct (find_or_add_ok strict key T t object t1 h ltac:(lia) Ht H2 Ef) as (F1 & F2 & F3). destruct (log_add_ok strict T E h m line HT H3 F3) as (h' & -> & G1 & G2).
    cbn. eexists. split; [done|]. by apply put_log_ok.
  - destruct Hop as (H1 & H2 & H3). unfold hbm_history_add_multiline. destruct (hbm_find_or_add_object key t object) as [t1 h] eqn:Ef.
    destruct (find_or_add_ok strict key T t object t1 h ltac:(lia) Ht H2 Ef) as (F1 & F2 & F3).
    destruct (log_add_multiline_ok strict T E h m source cmd target lines HT H3 F3) as (h' & -> & G1 & G2). cbn. eexists. split; [done|]. by apply put_log_ok.
  - unfold hbm_history_request. destruct (hbm_find_object key t object) as [h|] eqn:Ef; [|by exists t].
    destruct (find_object_Some strict key T t object h Ht Ef) as (_ & _ & F3 & _). destruct (log_request_total E h f F3 Hop) as [r ->].
    cbn. eexists. split; [done|]. apply put_log_ok; [done|]. by apply after_expiry_ok.
  - unfold hbm_history_delete. destruct (hbm_find_object key t object) as [h|] eqn:Ef; [|by exists t].
    destruct (find_object_Some strict key T t object h Ht Ef) as (_ & _ & F3 & _). unfold log_delete.
    destruct (delete_loop_total strict f h [] (ho_lines h) false 0 0 (co_lines _ _ (lo_core _ _ _ F3))) as [[[h' d] r] Hd]. rewrite Hd. cbn. eexists. split; [done|]. apply put_log_ok; [done|].
    eapply log_shrunk, F3. by eapply delete_loop_shrunk, Hd.
  - eexists. split; [done|]. by apply destroy_ok.
  - destruct Hop as (H1 & H2 & H3 & H4). eexists. split; [done|]. unfold hbm_history_set_limit. destruct (hbm_find_or_add_object key t object) as [t1 h] eqn:Ef.
    destruct (find_or_add_ok strict key T t object t1 h ltac:(lia) Ht H2 Ef) as (F1 & F2 & F3). apply put_log_ok; [done|].
    apply cleanup_ok; simpl; try lia; try done. destruct (lo_core strict T h F3). by constructor.
  - eexists. split; [done|]. unfold history_mem_clean. exact (clean_loop_ok strict key T E _ t n Hop Ht).
Qed.

Lemma history_run_ok ops :
  Forall (op_ok strict T) ops -> exists t, history_run key ops = Some t /\ table_ok strict key T t.
Proof using HT.
  intros Hops. unfold history_run. assert (table_ok strict key T ∅) as H0 by (intros k; unfold hbm_bucket; rewrite lookup_empty; by split; constructor).
  revert H0. generalize (∅ : hbm_table). induction Hops as [|op ops Hop _ IH]; intros t Ht; cbn [foldl mbind option_bind]; [by exists t|].
  destruct (history_step_ok t op Ht Hop) as (t' & -> & Ht'). by apply IH.
Qed.
End backend.

(** What a request finds and leaves, when times are as the server writes them. *)
Lemma log_request_ok T E h f :
  log_ok true T h -> T <= he_now E -> filter_ok f ->
  log_request E h f =
    Some (after_expiry E h, expected (he_now E) (ho_max_time h) f (live (he_now E - ho_max_time h) (ho_lines h))).
Proof.
  intros Hh Hnow (Fa & Fb & Fl & Fw). destruct (after_expiry_ok true T E h Hh Hnow) as (L1 & (_ & _ & L3) & L4). specialize (L4 eq_refl).
  unfold log_request. fold (after_expiry E h). set (h1 := after_expiry E h) in *. rewrite <- L4, <- L3.
  destruct (lo_core true T h1 L1) as [K1 K2 _ _]. pose proof (sorted_times _ K1 K2) as K3. fold empty_result. destruct (hf_cmd f) eqn:Hcmd.
  - by destruct (return_simple_ok E h1 K1 f Hcmd Fl) as (r & w & -> & ->).
  - destruct (return_before_ok E h1 K1 K3 f Fa Fb) as [w ->]. unfold expected. by rewrite Hcmd.
  - destruct (return_after_ok E h1 K1 K3 f Fa Fb) as [w ->]. unfold expected. by rewrite Hcmd.
  - destruct (return_latest_ok E h1 K1 K3 f Fa) as [w ->]. unfold expected. by rewrite Hcmd.
  - destruct (Fw eq_refl) as [Fw1 Fw2]. by destruct (return_around_ok E h1 K1 K3 f Hcmd Fa Fw1 Fw2) as (r & w & -> & ->).
  - by destruct (return_between_ok E h1 K1 K3 f Fa Fb Hcmd) as (r & w & -> & ->).
Qed.

(** C9: the history of a channel stays in order and within its limits.  After any sequence of
    messages, multi-line messages, requests, deletions, changes of the limits, clean-ups and
    destructions, no operation has failed, and every log is sorted (by the second of the time tags,
    and by their text within a second), has the number of its lines in its counter and has no more
    lines than it may have, unless a single message has more.  Time tags may hold any text
    ([strict = false]).  If all are as the server writes them ([strict = true]), the log is
    also sorted by their text, and the time of its oldest line is at least its [oldest_t], so
    that expired lines are found.  Account tags have a name, names fit, line limits are positive
    and the time limits are shorter than what the clock shows. *)
Theorem history_invariant strict key T ops :
  86400 < T -> Forall (op_ok strict T) ops ->
  exists t, history_run key ops = Some t /\
    forall object h, hbm_find_object key t object = Some h ->
      log_ok strict T h /\ (strict = true -> StronglySorted le_time (ho_lines h)) /\ List.map tolower object = List.map tolower (ho_name h).
Proof.
  intros HT Hops. destruct (history_run_ok strict key T HT ops Hops) as (t & Hr & Ht). exists t. split; [done|]. intros object h Hf.
  destruct (find_object_Some strict key T t object h Ht Hf) as (_ & Hn & Hh & _). split_and!; [done| |done].
  intros ->. by apply sorted_times; apply (lo_core true T h Hh).
Qed.

(** C10: requests for history return what they ask for.  On the log of a channel as it is after
    any sequence of operations with times as the server writes them, expired lines are removed,
    and the answer is exactly, from the lines that are left and in their order: for AFTER the first
    ones after a time or message, for BEFORE the last ones before it, for LATEST the last
    ones, for BETWEEN the first ones between two points in either order, each up to the limit and
    marked as complete exactly if nothing is left out; for a simple request the last lines or
    seconds, and for AROUND the window around a time or message that [window] describes, both never
    marked as complete; with the counts of lines and bytes of what is returned.  (A window around a time
    before all lines is empty if the newest line is an hour or more later.) *)
Theorem history_request_correct key T ops t E object f h :
  86400 < T -> Forall (op_ok true T) ops -> history_run key ops = Some t -> hbm_find_object key t object = Some h -> T <= he_now E -> filter_ok f ->
  exists t' h', hbm_find_object key t' object = Some h' /\ ho_lines h' = live (he_now E - ho_max_time h) (ho_lines h) /\
    hbm_history_request key E t object f = Some (t', Some (expected (he_now E) (ho_max_time h) f (ho_lines h'))).
Proof.
  intros HT Hops Hrun Hf Hnow Hfilter. destruct (history_run_ok true key T HT ops Hops) as (t0 & Hr & Ht). rewrite Hrun in Hr. injection Hr as <-.
  destruct (find_object_Some true key T t object h Ht Hf) as (_ & _ & Hh & _). destruct (after_expiry_ok true T E h Hh Hnow) as (_ & (Hn & _ & _) & Hl).
  exists (put_log key t (after_expiry E h)), (after_expiry E h). split_and!; [by apply (find_put_same true key T t object h)|by apply Hl|].
  unfold hbm_history_request. rewrite Hf, (log_request_ok T E h f Hh Hnow Hfilter), Hl by done. done.
Qed.

(** ** Concrete logs *)

Definition sample_key : list Z := replicate 16 7.
Definition sample_now : henv := MkHEnv 1700000000 (MkTm 123 10 14 22 13 20) 5000 (str "aaaaaaaaaaaaaaaaaaaaaa").
Definition sample_msg (time msgid text : String.string) : history_op :=
  OpAdd sample_now (str "#c") [MkTag (str "time") (Some (str time)); MkTag (str "msgid") (Some (str msgid))] (str text).

Definition sample_ops : list history_op :=
  [OpSetLimit sample_now (str "#C") 3 86400;
   sample_msg "2023-11-14T20:00:00.000Z" "m1" "one"; sample_msg "2023-11-14T20:00:02.000Z" "m2" "two";
   sample_msg "2023-11-14T20:00:01.500Z" "m3" "between"; sample_msg "2023-11-14T20:00:03.000Z" "m4" "four";
   OpAddMultiline sample_now (str "#c") [] (str "a") (str "PRIVMSG") (str "#c") [MkMLine (Some (str "x")) false]].

Definition after_request (ts : String.string) : HistoryFilter := MkFilter HFC_AFTER 0 0 (Some (str ts)) None None None None 1.

Lemma canonical_check t usec s : valid_tm t usec && bool_decide (s = format_time t usec) = true -> canonical_time s.
Proof. intros [H1 H2%bool_decide_eq_true]%andb_prop. by exists t, usec. Qed.

Lemma no_account m : find_mtag m (str "account") = None -> forall n, find_mtag m (str "account") = Some n -> tag_value n <> None.
Proof. congruence. Qed.

Lemma sample_ops_ok : Forall (op_ok true 1000000) sample_ops.
Proof.
  assert (forall time msgid text t usec, valid_tm t usec && bool_decide (str time = format_time t usec) && (0 <? server_time_to_unix_time (Some (str time))) = true ->
    op_ok true 1000000 (sample_msg time msgid text)) as Hmsg.
  { intros time msgid text t usec [H1 H2%Z.ltb_lt]%andb_prop. split_and!; [vm_compute; discriminate|apply Nat.leb_le; vm_compute; reflexivity|].
    split; [by apply no_account|]. rewrite find_mtag_cons, bool_decide_true by done. exists (str time). split; [done|]. intros _. split; [by eapply canonical_check|done]. }
  repeat apply Forall_cons_2; [split_and!; first [vm_compute; discriminate|apply Nat.leb_le; vm_compute; reflexivity|vm_compute; reflexivity]|..|apply Forall_nil_2].
  - by apply (Hmsg _ _ _ (MkTm 123 10 14 20 0 0) 0); vm_compute.
  - by apply (Hmsg _ _ _ (MkTm 123 10 14 20 0 2) 0); vm_compute.
  - by apply (Hmsg _ _ _ (MkTm 123 10 14 20 0 1) 500000); vm_compute.
  - by apply (Hmsg _ _ _ (MkTm 123 10 14 20 0 3) 0); vm_compute.
  - split_and!; [vm_compute; discriminate|apply Nat.leb_le; vm_compute; reflexivity|]. split; [by apply no_account|]. intros _. split; vm_compute; reflexivity.
Qed.

(** A log with a time that the server does not write, and the deletion of an account's lines. *)
Definition loose_ops : list history_op :=
  [OpSetLimit sample_now (str "#C") 3 86400; sample_msg "2023-11-14T20:00:00Z" "m1" "one";
   OpAdd sample_now (str "#c") [MkTag (str "account") (Some (str "bob")); MkTag (str "time") (Some (str "2023-11-14T20:00:02.000Z"))] (str "two");
   OpDelete (str "#c") (MkFilter HFC_AFTER 0 0 (Some []) None None None (Some (str "bob")) 10)].

Lemma history_invariant_witness :
  exists t, history_run sample_key loose_ops = Some t /\
    forall object h, hbm_find_object sample_key t object = Some h ->
      log_ok false 1000000 h /\ (false = true -> StronglySorted le_time (ho_lines h)) /\ List.map tolower object = List.map tolower (ho_name h).
Proof.
  apply (history_invariant false sample_key 1000000 loose_ops); [vm_compute; reflexivity|].
  repeat apply Forall_cons_2; [..|apply Forall_nil_2]; [split_and!; first [vm_compute; discriminate|apply Nat.leb_le; vm_compute; reflexivity|vm_compute; reflexivity]|..|done].
  - split_and!; [vm_compute; discriminate|apply Nat.leb_le; vm_compute; reflexivity|]. split; [by apply no_account|].
    exists (str "2023-11-14T20:00:00Z"). by split.
  - split_and!; [vm_compute; discriminate|apply Nat.leb_le; vm_compute; reflexivity|]. split; [intros n; vm_compute; intros [= <-]; discriminate|].
    exists (str "2023-11-14T20:00:02.000Z"). by split.
Defined.

(** The last two lines and the one after them, around a message. *)
Definition around_request (msgid : String.string) : HistoryFilter := MkFilter HFC_AROUND 0 0 None (Some (str msgid)) None None None 2.

Lemma history_request_correct_witness :
  exists t h, history_run sample_key sample_ops = Some t /\ hbm_find_object sample_key t (str "#c") = Some h /\
  (exists t' h', hbm_find_object sample_key t' (str "#c") = Some h' /\ ho_lines h' = live (1700000000 - ho_max_time h) (ho_lines h) /\
    hbm_history_request sample_key sample_now t (str "#c") (after_request "2023-11-14T20:00:01.000Z") =
      Some (t', Some (expected 1700000000 (ho_max_time h) (after_request "2023-11-14T20:00:01.000Z") (ho_lines h')))) /\
  (exists t' h', hbm_find_object sample_key t' (str "#c") = Some h' /\ ho_lines h' = live (1700000000 - ho_max_time h) (ho_lines h) /\
    hbm_history_request sample_key sample_now t (str "#c") (around_request "m4") =
      Some (t', Some (expected 1700000000 (ho_max_time h) (around_request "m4") (ho_lines h')))).
Proof.
  assert (exists t h, history_run sample_key sample_ops = Some t /\ hbm_find_object sample_key t (str "#c") = Some h) as (t & h & Ht & Hh).
  { eexists _, _. split; vm_compute; reflexivity. }
  exists t, h. split; [exact Ht|split; [exact Hh|]]. split.
  - apply (history_request_correct sample_key 1000000 sample_ops t sample_now (str "#c") (after_request "2023-11-14T20:00:01.000Z") h);
      [vm_compute; reflexivity|exact sample_ops_ok|exact Ht|exact Hh|vm_compute; discriminate|split_and!; [right; reflexivity|right; reflexivity|vm_compute; discriminate|intros Hc; discriminate Hc]].
  - apply (history_request_correct sample_key 1000000 sample_ops t sample_now (str "#c") (around_request "m4") h);
      [vm_compute; reflexivity|exact sample_ops_ok|exact Ht|exact Hh|vm_compute; discriminate|split_and!; [left; reflexivity|right; reflexivity|vm_compute; discriminate|intros _; split; reflexivity]].
Defined.

Definition texts (ops : list history_op) : option (list cstring) :=
  t ← history_run sample_key ops; h ← hbm_find_object sample_key t (str "#c"); Some (List.map hl_line (ho_lines h)).

Example sample_texts : texts sample_ops = Some [str "two"; str "four"; str ":a PRIVMSG #c :x"].
Proof. vm_compute. reflexivity. Qed.

(** Where the history is not what it should be.  (1) A message that is received twice is
    stored twice if another message has the same time to the millisecond.  (2) A message that is
    refused because it is there already has removed the oldest line from a full log.  (3) Deleting
    the messages of an account compares the value of an account tag that has none.  (4) A request around
    a time shortly before the oldest line is refused if the newest line is more than an hour later.
    (5) A time without a fraction of a second is read as zero; the line after it makes the log
    forget its oldest time, and a line that has expired (here the first, after an hour) is returned. *)
Theorem history_defects :
  texts [OpSetLimit sample_now (str "#c") 5 86400; sample_msg "2023-11-14T20:00:00.000Z" "m1" "one"; sample_msg "2023-11-14T20:00:00.000Z" "m2" "two";
         sample_msg "2023-11-14T20:00:00.000Z" "m1" "one"] = Some [str "one"; str "two"; str "one"] /\
  texts [OpSetLimit sample_now (str "#c") 2 86400; sample_msg "2023-11-14T20:00:00.000Z" "m1" "one"; sample_msg "2023-11-14T20:00:01.000Z" "m2" "two";
         sample_msg "2023-11-14T20:00:01.000Z" "m2" "two"] = Some [str "two"] /\
  history_run sample_key [OpAdd sample_now (str "#c") [MkTag (str "account") None] (str "one");
         OpDelete (str "#c") (MkFilter HFC_AFTER 0 0 (Some []) None None None (Some (str "x")) 1)] = None /\
  (t ← history_run sample_key [sample_msg "2023-11-14T20:00:00.000Z" "m1" "one"; sample_msg "2023-11-14T22:00:00.000Z" "m2" "two"];
   '(_, r) ← hbm_history_request sample_key sample_now t (str "#c") (MkFilter HFC_AROUND 0 0 (Some (str "2023-11-14T19:59:00.000Z")) None None None None 10);
   r_log <$> r) = Some [] /\
  (t ← history_run sample_key [OpSetLimit sample_now (str "#c") 5 3600; sample_msg "2023-11-14T22:00:00.000Z" "m1" "one"; sample_msg "2023-11-14T22:05:00Z" "m2" "two";
         sample_msg "2023-11-14T22:10:00.000Z" "m3" "three"];
   '(_, r) ← hbm_history_request sample_key (MkHEnv 1700003100 (MkTm 123 10 14 23 5 0) 0 []) t (str "#c") (MkFilter HFC_LATEST 0 0 None None None None None 10);
   List.map hl_line <$> (r_log <$> r)) = Some [str "two"; str "one"; str "three"].
Proof. vm_compute. repeat split. Qed.
