(* ===== verification/Join.v ===== *)
(** * The JOIN command (src/modules/join.c)

    A JOIN goes through the channels it names: the limits and restrictions of the
    server come first, then the hooks of the modules (forwarding by +L and ~forward,
    +z on creation), then [can_join] with the restrictions of the channel, and only
    then is the user added.  A forward and a redirect of a deny channel block call
    [do_join] again; [bouncedtimes] bounds that.  The channels are the structures of
    [Channel]; what the modules keep beside them is in [jstate]: modes and lists of a
    channel, invitations, and the counters of the join throttle. *)
From S2P Require Import Prelude Chars Strings Client Hash ChanMode Channel Bans Glob Crule MatchUser Extban BanMask ChanParam Tags.

(** ** State *)

(** [channel->mode] and the lists of a channel. *)
Record chan_ext := MkExt {
  x_mode : Z;
  x_params : gmap Z cstring;           (** the parameters as text, by letter *)
  x_banlist : list Ban;
  x_exlist : list Ban;
  x_invexlist : list Ban
}.

Definition no_ext : chan_ext := MkExt 0 ∅ [] [] [].

(** [JoinFlood] *)
Record JoinFlood := MkJoinFlood { jf_name : cstring; jf_firstjoin : Z; jf_numjoins : Z }.

(** What is sent: numerics, notices and lines to the other servers. *)
Inductive jmsg :=
| JNumeric (numeric : Z) (arg : cstring)
| JNotice (arg : cstring)
| JLink (channel linked : cstring)
| JSjoin (creationtime : Z) (channel prefix : cstring)
| JModeTS (channel : cstring) (creationtime : Z)
| JModes (channel : cstring)
| JPart (channel : cstring).

Record jstate := MkJ {
  j_c : cstate;
  j_ext : gmap ptr chan_ext;
  j_cinv : gmap ptr (list cid);        (** [CHANNEL_INVITES] *)
  j_uinv : gmap cid (list ptr);        (** [CLIENT_INVITES] *)
  j_throttle : gmap cid (list JoinFlood);
  j_bounced : Z;                       (** [bouncedtimes] *)
  j_out : list jmsg
}.

Definition set_c (s : jstate) (c : cstate) : jstate :=
  MkJ c (j_ext s) (j_cinv s) (j_uinv s) (j_throttle s) (j_bounced s) (j_out s).
Definition set_ext (s : jstate) (e : gmap ptr chan_ext) : jstate :=
  MkJ (j_c s) e (j_cinv s) (j_uinv s) (j_throttle s) (j_bounced s) (j_out s).
Definition set_invites (s : jstate) (ci : gmap ptr (list cid)) (ui : gmap cid (list ptr)) : jstate :=
  MkJ (j_c s) (j_ext s) ci ui (j_throttle s) (j_bounced s) (j_out s).
Definition set_throttle (s : jstate) (t : gmap cid (list JoinFlood)) : jstate :=
  MkJ (j_c s) (j_ext s) (j_cinv s) (j_uinv s) t (j_bounced s) (j_out s).
Definition set_bounced (s : jstate) (b : Z) : jstate :=
  MkJ (j_c s) (j_ext s) (j_cinv s) (j_uinv s) (j_throttle s) b (j_out s).
Definition say (s : jstate) (m : jmsg) : jstate :=
  MkJ (j_c s) (j_ext s) (j_cinv s) (j_uinv s) (j_throttle s) (j_bounced s) (j_out s ++ [m]).

Definition ext (s : jstate) (ch : ptr) : chan_ext := default no_ext (j_ext s !! ch).
Definition cinv (s : jstate) (ch : ptr) : list cid := default [] (j_cinv s !! ch).
Definition uinv (s : jstate) (u : cid) : list ptr := default [] (j_uinv s !! u).
Definition throttle (s : jstate) (u : cid) : list JoinFlood := default [] (j_throttle s !! u).

Definition set_chan_mode (s : jstate) (ch : ptr) (m : Z) : jstate :=
  let e := ext s ch in
  set_ext s (<[ch := MkExt m (x_params e) (x_banlist e) (x_exlist e) (x_invexlist e)]> (j_ext s)).

(** ** Configuration and other parts of the server *)

Record deny_channel := MkDeny {
  dc_channel : cstring;
  dc_class : option cstring;
  dc_match : option positive;          (** a security group *)
  dc_reason : option cstring;
  dc_redirect : option cstring
}.

Record allow_channel := MkAllow { ac_channel : cstring; ac_class : option cstring; ac_match : option positive }.

(** The hooks on [HOOKTYPE_CAN_JOIN]; they all have priority 0, so that their order is
    that of the modules. *)
Inductive can_join_hook :=
| HookInviteonly | HookKey | HookLimit | HookRegonly | HookSecureonly
| HookOperonly | HookJointhrottle | HookRcmd.

Record join_env := MkJoinEnv {
  v_handlers : list Handler;                     (** [channelmodes] *)
  v_siphashkey : list Z;
  v_channelchars : allowed_channelchars;
  v_ban : ban_env;
  v_extbans : list Extban;
  v_client : cid -> BanClient;
  v_oper : cid -> bool;
  v_uline : cid -> bool;
  v_tls : cid -> bool;                           (** [IsSecure] *)
  v_umode_secure : cid -> bool;                  (** [IsSecureConnect] *)
  v_perm : cid -> option cstring -> cstring -> bool;  (** [ValidatePermissionsForPath], with the channel *)
  v_maxchannels : cid -> Z;                      (** [get_setting_for_user_number] *)
  v_maxtargets : Z;
  v_deny : list deny_channel;
  v_allow : list allow_channel;
  v_class : cid -> cstring;
  v_in_group : cid -> positive -> bool;          (** [user_allowed_by_security_group] *)
  v_qline : cid -> cstring -> bool;              (** [find_qline] *)
  v_viruschan : option cstring;                  (** where [SPAMFILTER_VIRUSCHANDENY] is set *)
  v_vchanoverride : bool;
  v_no_create : cid -> cstring -> bool;          (** [rcmd && !rcmd_canbypass] of [rcmd_block_join] *)
  v_join_period : cid -> Z;                      (** [get_floodsettings_for_user] *)
  v_join_limit : cid -> Z;
  v_default_period : Z;                          (** [iConf.floodsettings->period[FLD_JOIN]] *)
  v_level_on_join : cstring;
  v_modes_on_join : Z;
  v_modes_on_join_params : gmap Z cstring;
  v_hooks : list can_join_hook;
  v_now : Z
}.

Definition MAXBOUNCE : Z := 5.
Definition BUFSIZE : nat := 512.

Definition ERR_NOSUCHCHANNEL : Z := 403.
Definition ERR_TOOMANYCHANNELS : Z := 405.
Definition ERR_TOOMANYTARGETS : Z := 407.
Definition ERR_FORBIDDENCHANNEL : Z := 448.
Definition ERR_NEEDMOREPARAMS : Z := 461.
Definition ERR_CHANNELISFULL : Z := 471.
Definition ERR_INVITEONLYCHAN : Z := 473.
Definition ERR_BANNEDFROMCHAN : Z := 474.
Definition ERR_BADCHANNELKEY : Z := 475.
Definition ERR_NEEDREGGEDNICK : Z := 477.
Definition ERR_SECUREONLYCHAN : Z := 489.
Definition ERR_TOOMANYJOINS : Z := 500.
Definition ERR_OPERONLY : Z := 520.
Definition ERR_CANNOTDOCOMMAND : Z := 972.

(** Removal of the first entry of a list. *)
Fixpoint remove_first {A} `{EqDecision A} (x : A) (l : list A) : list A :=
  match l with
  | [] => []
  | y :: l => if decide (y = x) then l else y :: remove_first x l
  end.

Section join.
Context (V : join_env).

Definition is_local (u : cid) : bool := BMyConnect (v_client V u).
Definition is_user (u : cid) : bool := BIsUser (v_client V u).
Definition has_user (u : cid) : bool := bool_decide (is_Some (bc_user (v_client V u))).
Definition is_my_user (u : cid) : bool := BMyUser (v_client V u).
Definition modes_table : list Cmode := h_cm <$> v_handlers V.

(** The bit of a mode, as [CmodeAdd] gave it to the module. *)
Definition bit (c : Z) : Z :=
  match List.find (fun h => h_letter h =? c) (v_handlers V) with Some h => h_mode h | None => 0 end.

Definition mode_set (s : jstate) (ch : ptr) (c : Z) : bool := has (x_mode (ext s ch)) (bit c).

Definition has_channel_mode (s : jstate) (ch : ptr) (c : Z) : bool :=
  existsb (fun h => (h_letter h =? c) && has (x_mode (ext s ch)) (h_mode h)) (v_handlers V).

Definition name_of (s : jstate) (ch : ptr) : cstring :=
  match chans (j_c s) !! ch with Some c => ch_name c | None => [] end.
Definition users_of (s : jstate) (ch : ptr) : Z :=
  match chans (j_c s) !! ch with Some c => ch_users c | None => 0 end.

Definition find_chan (s : jstate) (nm : cstring) : option ptr :=
  find_channel (v_siphashkey V) (chan_names (j_c s)) (ctabs (j_c s)) nm.

(** *** The client and the channel as the bans see them *)

Definition ban_channel (s : jstate) (ch : ptr) : BanChannel :=
  MkBanChannel (name_of s ch) (x_banlist (ext s ch)) (x_exlist (ext s ch)) (x_invexlist (ext s ch)).

Definition memberships_of (s : jstate) (u : cid) : list (cstring * cstring) :=
  omap (fun mb => MB ← memberships (j_c s) !! mb; Some (name_of s (mb_channel MB), mb_modes MB)) (uch (j_c s) u).

Definition ban_client (s : jstate) (u : cid) : BanClient :=
  let c := v_client V u in
  MkBanClient (bc_name c) (bc_ident c) (bc_info c) (bc_status c) (bc_umodes c) (bc_ip c) (bc_local c)
    ((fun x => MkBanUser (bu_username x) (bu_realhost x) (bu_virthost x) (bu_cloakedhost x) (bu_account x) (memberships_of s u)) <$> bc_user c).

Definition bans_env (s : jstate) : ban_env :=
  let E := v_ban V in
  MkBanEnv (e_UMODE_HIDE E) (e_UMODE_OPER E) (e_inet_pton E) (e_moddata_certfp E) (e_geoip_client E) (e_get_operclass E)
    (e_user_allowed_by_security_group_name E) (fun nm => ban_channel s <$> find_chan s nm).

Definition banned (s : jstate) (u : cid) (ch : ptr) : option bool :=
  r ← is_banned (bans_env s) (v_extbans V) (ban_client s u) (ban_channel s ch) BANCHK_JOIN None;
  Some (bool_decide (is_Some r.1.1)).

Definition has_invex (s : jstate) (u : cid) (ch : ptr) : option bool :=
  find_invex (bans_env s) (v_extbans V) (ban_channel s ch) (ban_client s u).

(** ** Invitations (src/modules/invite.c) *)

Definition del_invite (s : jstate) (u : cid) (ch : ptr) : jstate :=
  set_invites s (<[ch := remove_first u (cinv s ch)]> (j_cinv s)) (<[u := remove_first ch (uinv s u)]> (j_uinv s)).

(** [add_invite]; [last] stands for the walk to the end of a list. *)
Definition add_invite (s : jstate) (from to : cid) (ch : ptr) : option jstate :=
  let s := del_invite s to ch in
  s ← (if v_maxchannels V from <=? Z.of_nat (length (uinv s to)) then
         ch' ← last (uinv s to); Some (del_invite s to ch')
       else Some s);
  s ← (if v_maxchannels V from <=? Z.of_nat (length (cinv s ch)) then
         u' ← last (cinv s ch); Some (del_invite s u' ch)
       else Some s);
  Some (set_invites s (<[ch := to :: cinv s ch]> (j_cinv s)) (<[to := ch :: uinv s to]> (j_uinv s))).

(** The loop takes the first entry until there is none; [del_invite] removes just that. *)
Definition invite_channel_destroy (s : jstate) (ch : ptr) : jstate :=
  foldl (fun s u => del_invite s u ch) s (cinv s ch).

Definition invite_user_quit (s : jstate) (u : cid) : jstate :=
  foldl (fun s ch => del_invite s u ch) s (uinv s u).

Definition invite_is_invited (s : jstate) (u : cid) (ch : ptr) : bool :=
  is_local u && existsb (fun x => bool_decide (x = ch)) (uinv s u).

(** [is_invited]: the only hook on [HOOKTYPE_IS_INVITED]. *)
Definition is_invited (s : jstate) (u : cid) (ch : ptr) : bool := invite_is_invited s u ch.

(** ** The restrictions of a channel *)

Definition flood_entry (s : jstate) (u : cid) (ch : ptr) : option JoinFlood :=
  List.find (fun e => strcasecmp_eq (jf_name e) (name_of s ch)) (throttle s u).

Definition isjthrottled (s : jstate) (u : cid) (ch : ptr) : bool :=
  is_my_user u &&
  match flood_entry s u ch with
  | Some e => (v_now V - jf_firstjoin e <? v_join_period V u) && (v_join_limit V u <=? jf_numjoins e)
  | None => false
  end.

Definition rcmd_block_join (s : jstate) (u : cid) (ch : ptr) : bool :=
  if negb (is_my_user u) || v_oper V u || v_uline V u then false else v_no_create V u (name_of s ch).

(** The limit of +l, where one is set. *)
Definition chan_limit (s : jstate) (ch : ptr) : Z :=
  match x_params (ext s ch) !! 108 with Some p => c_atoi p | None => 0 end.

Definition chan_key (s : jstate) (ch : ptr) : cstring := default [] (x_params (ext s ch) !! 107).

(** The hooks on [HOOKTYPE_CAN_JOIN]: 0 or the numeric of the refusal. *)
Definition inviteonly_can_join (s : jstate) (u : cid) (ch : ptr) : option Z :=
  if mode_set s ch 105 then
    if is_invited s u ch then Some 0
    else i ← has_invex s u ch; Some (if i : bool then 0 else ERR_INVITEONLYCHAN)
  else Some 0.

Definition key_can_join (s : jstate) (ch : ptr) (key : option cstring) : Z :=
  if bool_decide (chan_key s ch = []) || bool_decide (key = Some (chan_key s ch)) then 0 else ERR_BADCHANNELKEY.

Definition limit_can_join (s : jstate) (ch : ptr) : Z :=
  if negb (chan_limit s ch =? 0) && (chan_limit s ch <=? users_of s ch) then ERR_CHANNELISFULL else 0.

Definition regonly_check (s : jstate) (u : cid) (ch : ptr) : Z :=
  if mode_set s ch 82 && negb (BIsLoggedIn (v_client V u)) then ERR_NEEDREGGEDNICK else 0.

Definition secureonly_check_join (s : jstate) (u : cid) (ch : ptr) : Z :=
  if mode_set s ch 122 && negb (v_umode_secure V u) then
    if v_perm V u (Some (name_of s ch)) (str "channel:override:secureonly") && is_invited s u ch then 0 else ERR_SECUREONLYCHAN
  else 0.

Definition operonly_can_join (s : jstate) (u : cid) (ch : ptr) : Z :=
  if mode_set s ch 79 && negb (v_perm V u (Some (name_of s ch)) (str "channel:operonly:join")) then ERR_OPERONLY else 0.

Definition jointhrottle_can_join (s : jstate) (u : cid) (ch : ptr) : Z :=
  if negb (v_perm V u (Some (name_of s ch)) (str "immune:join-flood")) && isjthrottled s u ch then ERR_TOOMANYJOINS else 0.

Definition rcmd_can_join (s : jstate) (u : cid) (ch : ptr) : Z :=
  if negb (users_of s ch =? 0) || has_channel_mode s ch 80 then 0
  else if rcmd_block_join s u ch then ERR_CANNOTDOCOMMAND else 0.

Definition run_can_join (s : jstate) (u : cid) (ch : ptr) (key : option cstring) (h : can_join_hook) : option Z :=
  match h with
  | HookInviteonly => inviteonly_can_join s u ch
  | HookKey => Some (key_can_join s ch key)
  | HookLimit => Some (limit_can_join s ch)
  | HookRegonly => Some (regonly_check s u ch)
  | HookSecureonly => Some (secureonly_check_join s u ch)
  | HookOperonly => Some (operonly_can_join s u ch)
  | HookJointhrottle => Some (jointhrottle_can_join s u ch)
  | HookRcmd => Some (rcmd_can_join s u ch)
  end.

Fixpoint run_hooks (s : jstate) (u : cid) (ch : ptr) (key : option cstring) (l : list can_join_hook) : option Z :=
  match l with
  | [] => Some 0
  | h :: l => i ← run_can_join s u ch key h; if i =? 0 then run_hooks s u ch key l else Some i
  end.

(** [operonly_invite_bypass] returns [HOOK_DENY]. *)
Definition operonly_invite_bypass (s : jstate) (u : cid) (ch : ptr) : bool :=
  mode_set s ch 79 && negb (v_perm V u None (str "channel:operonly:ban")).

(** [_can_join], without [OPEROVERRIDE_VERIFY]. *)
Definition can_join (s : jstate) (u : cid) (ch : ptr) (key : option cstring) : option Z :=
  if is_invited s u ch && negb (operonly_invite_bypass s u ch) then Some 0
  else
    i ← run_hooks s u ch key (v_hooks V);
    if negb (i =? 0) then Some i
    else b ← banned s u ch; Some (if b : bool then ERR_BANNEDFROMCHAN else 0).

(** ** Forwarding (src/modules/chanmodes/link.c) *)

Definition MAX_EB_LEN : nat := 128.

(** The text of a ~forward ban behind its type, copied to [bantmp]; an entry may have a
    time in front. *)
Definition forward_text (b : cstring) : option cstring :=
  let fwd s := match after_prefix (str "~f:") s with Some r => Some r | None => after_prefix (str "~forward:") s end in
  r ← match fwd b with
      | Some r => Some r
      | None =>
          r ← (match after_prefix (str "~t:") b with Some r => Some r | None => after_prefix (str "~time:") b end);
          '(_, rest) ← strchr ch_colon r;
          fwd rest
      end;
  Some (strlcpy [] r (MAX_EB_LEN + 1)).1.

(** The channel and the mask. *)
Definition forward_target (b : cstring) : option (cstring * cstring) :=
  t ← forward_text b;
  '(banchan, banmask) ← strchr ch_colon t;
  if bool_decide (banmask = []) then None else Some (banchan, banmask).

Definition join_context (s : jstate) (u : cid) (ch : ptr) (t : ExtbanType) : BanContext :=
  MkBanContext (ban_client s u) (Some (ban_channel s ch)) BANCHK_JOIN false t.

Fixpoint forward_loop (s : jstate) (u : cid) (ch : ptr) (l : list Ban) : option (option cstring) :=
  let E := bans_env s in
  match l with
  | [] => Some None
  | ban :: l =>
      match forward_target (banstr ban) with
      | None => forward_loop s u ch l
      | Some (banchan, banmask) =>
          r ← ban_check_mask E (v_extbans V) (inherit_is_banned E (v_extbans V)) (join_context s u ch EXBTYPE_BAN) None banmask;
          if fst r : bool then
            e ← scan_bans E (v_extbans V) (inherit_is_banned E (v_extbans V)) (join_context s u ch EXBTYPE_EXCEPT) None
                  (x_exlist (ext s ch));
            Some match fst e with None => Some banchan | Some _ => None end
          else forward_loop s u ch l
      end
  end.

Definition is_member (s : jstate) (u : cid) (ch : ptr) : bool :=
  bool_decide (is_Some (find_membership_link (j_c s) (uch (j_c s) u) ch)).

(** Is a user who is refused with [canjoin] sent on by +L? *)
Definition link_applies (s : jstate) (u : cid) (ch : ptr) (canjoin : Z) : bool :=
  (has_channel_mode s ch 79 && negb (v_oper V u)) ||
  (has_channel_mode s ch 122 && negb (v_umode_secure V u)) ||
  (has_channel_mode s ch 82 && negb (BIsLoggedIn (v_client V u))) ||
  (canjoin =? ERR_BANNEDFROMCHAN) || (canjoin =? ERR_INVITEONLYCHAN) || (canjoin =? ERR_CHANNELISFULL) ||
  (canjoin =? ERR_BADCHANNELKEY).

(** [link_pre_localjoin_cb] up to the call of [link_doforward]: the channel to go to. *)
Definition link_target (s : jstate) (u : cid) (ch : ptr) (key : option cstring) : option (option cstring) :=
  if v_uline V u || is_member s u ch then Some None
  else
    f ← (if is_invited s u ch then Some None else forward_loop s u ch (x_banlist (ext s ch)));
    match f with
    | Some banchan => Some (Some banchan)
    | None =>
        match x_params (ext s ch) !! 76 with
        | Some linked =>
            if negb (mode_set s ch 76) then Some None
            else
              i ← can_join s u ch key;
              Some (if negb (i =? 0) && link_applies s u ch i then Some linked else None)
        | None => Some None
        end
    end.

(** [secureonly_pre_local_join] returns [HOOK_DENY]. *)
Definition secureonly_pre_local_join (s : jstate) (u : cid) (ch : ptr) : bool :=
  (users_of s ch =? 0) && has (v_modes_on_join V) (bit 122) && negb (v_tls V u) && negb (v_oper V u).

(** ** +Z and +d (src/modules/chanmodes/issecure.c and delayjoin.c) *)

Definition channel_has_insecure_users_butone (s : jstate) (ch : ptr) (skip : option cid) : bool :=
  match chans (j_c s) !! ch with
  | Some c =>
      existsb (fun m => match members (j_c s) !! m with
                        | Some M => negb (bool_decide (skip = Some (m_client M))) && negb (v_uline V (m_client M)) &&
                                    negb (v_umode_secure V (m_client M))
                        | None => false
                        end) (ch_members c)
  | None => false
  end.

Definition issecure_set (s : jstate) (ch : ptr) : jstate := set_chan_mode s ch (Z.lor (x_mode (ext s ch)) (bit 90)).
Definition issecure_unset (s : jstate) (ch : ptr) : jstate := set_chan_mode s ch (Z.ldiff (x_mode (ext s ch)) (bit 90)).

Definition issecure_join (s : jstate) (u : cid) (ch : ptr) : jstate :=
  let s := if mode_set s ch 122 && mode_set s ch 90 && negb (v_umode_secure V u) && negb (v_uline V u)
           then issecure_unset s ch else s in
  if (users_of s ch =? 1) && mode_set s ch 122 && negb (mode_set s ch 90) &&
     negb (channel_has_insecure_users_butone s ch None)
  then issecure_set s ch else s.

Definition issecure_part (s : jstate) (u : cid) (ch : ptr) : jstate :=
  if mode_set s ch 122 && negb (mode_set s ch 90) && negb (v_umode_secure V u) &&
     negb (channel_has_insecure_users_butone s ch (Some u))
  then issecure_set s ch else s.

(** [issecure_chanmode], when the line of modes is that of the channel. *)
Definition issecure_chanmode (s : jstate) (ch : ptr) : jstate :=
  if negb (mode_set s ch 122) then s
  else if channel_has_insecure_users_butone s ch None then
    if mode_set s ch 90 then issecure_unset s ch else s
  else if mode_set s ch 90 then s else issecure_set s ch.

Definition moded_join (s : jstate) (u : cid) (ch : ptr) : option jstate :=
  if mode_set s ch 68 then c ← set_user_invisible is_user (j_c s) u ch true; Some (set_c s c) else Some s.

Definition moded_part (s : jstate) (u : cid) (ch : ptr) : option jstate :=
  if mode_set s ch 100 then
    c ← set_user_invisible is_user (j_c s) u ch false;
    let s := set_c s c in
    Some (if negb (channel_has_invisible_users c ch) then set_chan_mode s ch (Z.ldiff (x_mode (ext s ch)) (bit 100)) else s)
  else Some s.

(** ** Leaving a channel *)

(** [HOOKTYPE_CHANNEL_DESTROY]: [permanent_channel_destroy] decides, and
    [invite_channel_destroy] runs in any case. *)
Definition permanent (s : jstate) (ch : ptr) : bool := mode_set s ch 80.

(** What is left of the channel beside [Channel]: nothing once it is freed. *)
Definition settle (s : jstate) (ch : ptr) (emptied : bool) (r : cstate * bool) : jstate :=
  let s := if emptied then invite_channel_destroy s ch else s in
  let s := set_c s r.1 in
  if r.2 then set_ext s (delete ch (j_ext s)) else s.

Definition drop_if_empty (s : jstate) (ch : ptr) : option jstate :=
  if users_of s ch =? 0 then
    r ← sub1_from_channel (v_siphashkey V) (j_c s) ch (negb (permanent s ch));
    Some (settle s ch true r)
  else Some s.

(** A PART from a channel, with the hooks on [HOOKTYPE_LOCAL_PART]. *)
Definition leave_channel (s : jstate) (u : cid) (ch mb : ptr) : option jstate :=
  let s := say s (JPart (name_of s ch)) in
  s ← (if is_local u then moded_part (issecure_part s u ch) u ch else Some s);
  r ← remove_user_from_channel_withmb (v_siphashkey V) (j_c s) u ch mb (negb (permanent s ch));
  Some (settle s ch (users_of s ch - 1 <=? 0) r).

(** [while ((lp = client->user->channel))] of JOIN 0. *)
Fixpoint part_all (fuel : nat) (s : jstate) (u : cid) : option jstate :=
  match uch (j_c s) u with
  | [] => Some s
  | mb :: _ =>
      match fuel with
      | O => None
      | S fuel => MB ← memberships (j_c s) !! mb; s ← leave_channel s u (mb_channel MB) mb; part_all fuel s u
      end
  end.

(** ** [join_channel] *)

Definition jointhrottle_increase_usercounter (s : jstate) (u : cid) (ch : ptr) : jstate :=
  if negb (is_my_user u) then s
  else
    let l := throttle s u in
    set_throttle s (<[u :=
      match list_find (fun e => strcasecmp_eq (jf_name e) (name_of s ch) = true) l with
      | None => MkJoinFlood (strlcpy [] (name_of s ch) (CHANNELLEN + 1)).1 (v_now V) 1 :: l
      | Some (i, e) =>
          <[i := if v_now V - jf_firstjoin e <? v_default_period V
                 then MkJoinFlood (jf_name e) (jf_firstjoin e) ((jf_numjoins e + 1) mod 2 ^ 16)
                 else MkJoinFlood (jf_name e) (v_now V) 1]> l
      end]> (j_throttle s)).

(** [channel->creationtime = t] *)
Definition set_creationtime (s : jstate) (ch : ptr) (t : Z) : jstate :=
  match chans (j_c s) !! ch with
  | Some c =>
      let k := j_c s in
      set_c s (CState (<[ch := MkChannel (ch_name c) t (ch_users c) (ch_members c) (ch_local c)]> (chans k)) (chan_list k)
                 (members k) (lmembers k) (memberships k) (uchannel k) (ujoined k) (nchannels k) (ctabs k))
  | None => s
  end.

Definition creationtime_of (s : jstate) (ch : ptr) : Z :=
  match chans (j_c s) !! ch with Some c => ch_creationtime c | None => 0 end.

Definition fix_creationtime (s : jstate) (ch : ptr) : jstate :=
  if creationtime_of s ch =? 0 then say (set_creationtime s ch (v_now V)) (JModeTS (name_of s ch) (v_now V)) else s.

(** [set::modes-on-join], with the parameters of the modes that have one. *)
Definition modes_on_join (s : jstate) (ch : ptr) : jstate :=
  if (users_of s ch =? 1) && (x_mode (ext s ch) =? 0) && negb (v_modes_on_join V =? 0) then
    let e := ext s ch in
    let put p h :=
      if (paracount (h_cm h) =? 0) || negb (has (v_modes_on_join V) (h_mode h)) then p
      else match i_param (h_info h), v_modes_on_join_params V !! h_letter h with
           | Some ph, Some v => <[h_letter h := ph_store ph v]> p
           | _, _ => p
           end in
    let s := set_ext s (<[ch := MkExt (v_modes_on_join V) (foldl put (x_params e) (v_handlers V))
                                 (x_banlist e) (x_exlist e) (x_invexlist e)]> (j_ext s)) in
    issecure_chanmode (say s (JModes (name_of s ch))) ch
  else s.

(** [_join_channel].  The hooks on [HOOKTYPE_LOCAL_JOIN] change different things, so that
    their order does not matter; [HOOKTYPE_REMOTE_JOIN] has [issecure_join]. *)
Definition join_channel (s : jstate) (ch : ptr) (u : cid) (member_modes : cstring) : option jstate :=
  c ← add_user_to_channel modes_table is_local has_user (j_c s) ch u member_modes;
  s ← moded_join (set_c s c) u ch;
  let s := say s (JSjoin (creationtime_of s ch) (name_of s ch) (modes_to_sjoin_prefix modes_table member_modes)) in
  Some (if is_my_user u then
          let s := modes_on_join (fix_creationtime s ch) ch in
          jointhrottle_increase_usercounter (issecure_join (del_invite s u ch) u ch) u ch
        else issecure_join s u ch).

(** ** [do_join] *)

(** [find_channel_allowed] (src/conf.c): the deny channel block in force. *)
Definition block_for (u : cid) (name mask : cstring) (class : option cstring) (group : option positive) : option bool :=
  m ← match_esc mask name;
  Some (m && match class with Some k => bool_decide (v_class V u = k) | None => true end &&
        match group with Some g => v_in_group V u g | None => true end).

Fixpoint find_deny (u : cid) (name : cstring) (l : list deny_channel) : option (option deny_channel) :=
  match l with
  | [] => Some None
  | d :: l => b ← block_for u name (dc_channel d) (dc_class d) (dc_match d); if b : bool then Some (Some d) else find_deny u name l
  end.

Fixpoint find_allow (u : cid) (name : cstring) (l : list allow_channel) : option bool :=
  match l with
  | [] => Some false
  | a :: l => b ← block_for u name (ac_channel a) (ac_class a) (ac_match a); if b : bool then Some true else find_allow u name l
  end.

Definition find_channel_allowed (u : cid) (name : cstring) : option (option deny_channel) :=
  d ← find_deny u name (v_deny V);
  match d with
  | Some d => a ← find_allow u name (v_allow V); Some (if a : bool then None else Some d)
  | None => Some None
  end.

(** [*name == '0' && !atoi(name)] *)
Definition is_zero (name : cstring) : bool := (hd 0 name =? 48) && (c_atoi name =? 0).

(** The first loop: [jbuf] and what is sent. *)
Fixpoint clean_request (s : jstate) (u : cid) (i ntargets : Z) (jbuf : cstring) (names : list cstring) : jstate * cstring :=
  match names with
  | [] => (s, jbuf)
  | name :: names =>
      if is_my_user u && (v_maxtargets V <? ntargets + 1) then (say s (JNumeric ERR_TOOMANYTARGETS name), jbuf)
      else
        let next s jbuf := clean_request s u (i + 1) (ntargets + 1) jbuf names in
        if is_zero name then if is_my_user u && negb (i =? 0) then next s jbuf else next s (strlcpy jbuf (str "0") BUFSIZE).1
        else if is_local u && negb (valid_channelname (v_channelchars V) name) then
          let s := say s (JNumeric ERR_FORBIDDENCHANNEL name) in
          next (if v_oper V u && bool_decide (is_Some (find_chan s name)) then say s (JNotice name) else s) jbuf
        else if negb (hd 0 name =? 35) then next (if is_my_user u then say s (JNumeric ERR_NOSUCHCHANNEL name) else s) jbuf
        else
          let jbuf := if bool_decide (jbuf = []) then jbuf else (strlcat jbuf (str ",") BUFSIZE).1 in
          next s (strlcat jbuf name BUFSIZE).1
  end.

(** What the second loop does next: go on, or leave it ([RET]). *)
Inductive joined_one := Next (s : jstate) | Stop (s : jstate).

(** The part of the second loop for local clients, before [make_channel].  [inl] means
    that this channel is done with; [rec] is [do_join]. *)
Definition server_checks (rec : jstate -> cstring -> option jstate) (s : jstate) (u : cid) (name : cstring)
    : option (joined_one + jstate) :=
  if negb (v_perm V u None (str "immune:maxchannelsperuser")) && (v_maxchannels V u <=? joined (j_c s) u) then
    Some (inl (Stop (say s (JNumeric ERR_TOOMANYCHANNELS name))))
  else
    d ← (if v_perm V u None (str "immune:server-ban:deny-channel") then Some None else find_channel_allowed u name);
    match d with
    | Some d =>
        let s := if bool_decide (is_Some (dc_reason d)) then say s (JNumeric ERR_FORBIDDENCHANNEL name) else s in
        s ← match dc_redirect d with Some r => rec (say s (JNotice r)) r | None => Some s end;
        Some (inl (Next (if bool_decide (is_Some (dc_class d)) then say s (JNotice name) else s)))
    | None =>
        if negb (v_perm V u None (str "immune:server-ban:deny-channel")) && v_qline V u name then
          Some (inl (Next (say s (JNumeric ERR_FORBIDDENCHANNEL name))))
        else if match v_viruschan V with Some v => strcasecmp_eq name v | None => false end &&
                negb (v_perm V u None (str "immune:server-ban:viruschan")) && negb (v_vchanoverride V) &&
                match find_chan s name with Some ch => negb (is_invited s u ch) | None => true end then
          Some (inl (Next (say s (JNotice name))))
        else Some (inr s)
    end.

(** The hooks on [HOOKTYPE_PRE_LOCAL_JOIN] and [can_join]; [true] when the user may join. *)
Definition channel_checks (rec : jstate -> cstring -> option jstate) (s : jstate) (u : cid) (ch : ptr) (name : cstring)
    (key : option cstring) : option (jstate * bool) :=
  f ← link_target s u ch key;
  match f with
  | Some linked =>
      s ← rec (say s (JLink (name_of s ch) linked)) (strlcpy [] linked (CHANNELLEN + 1)).1;
      Some (s, false)
  | None =>
      if secureonly_pre_local_join s u ch then Some (say s (JNumeric ERR_SECUREONLYCHAN (name_of s ch)), false)
      else
        i ← can_join s u ch key;
        Some (if i =? 0 then (s, true) else (say s (JNumeric i name), false))
  end.

Definition join_one (rec : jstate -> cstring -> option jstate) (s : jstate) (u : cid) (name : cstring) (key : option cstring)
    : option joined_one :=
  if is_zero name then s ← part_all (length (uch (j_c s) u)) s u; Some (Next s)
  else
    let member_modes := if is_local u && negb (bool_decide (is_Some (find_chan s name))) then v_level_on_join V else [] in
    r ← (if is_local u then server_checks rec s u name else Some (inr s));
    match r with
    | inl r => Some r
    | inr s =>
        match make_channel (v_siphashkey V) (v_now V) (j_c s) name with
        | (None, _) => Some (Next s)
        | (Some ch, c) =>
            let s := set_c s c in
            if is_member s u ch then Some (Next s)
            else
              r ← (if is_local u then channel_checks rec s u ch name key else Some (s, true));
              if snd r : bool then s ← join_channel (fst r) ch u member_modes; Some (Next s)
              else s ← drop_if_empty (fst r) ch; Some (Next s)
        end
    end.

Fixpoint join_loop (rec : jstate -> cstring -> option jstate) (s : jstate) (u : cid) (names keys : list cstring) : option jstate :=
  match names with
  | [] => Some s
  | name :: names =>
      r ← join_one rec s u name (head keys);
      match r with
      | Next s => join_loop rec s u names (tail keys)
      | Stop s => Some s
      end
  end.

(** [_do_join]; [bouncedtimes] is raised on the way in and lowered on the way out. *)
Definition do_join_body (rec : jstate -> cstring -> option jstate) (s : jstate) (u : cid) (parv1 parv2 : option cstring) : option jstate :=
  match parv1 with
  | None | Some [] => Some (say s (JNumeric ERR_NEEDMOREPARAMS (str "JOIN")))
  | Some p =>
      let s := set_bounced s (j_bounced s + 1) in
      s ← (if MAXBOUNCE <? j_bounced s then Some (say s (JNotice p))
           else
             let '(s, jbuf) := clean_request s u 0 0 [] (strtoken_all (strlcpy [] p BUFSIZE).1 (str ",")) in
             let keys := match parv2 with Some k => strtoken_all (strlcpy [] k BUFSIZE).1 (str ",") | None => [] end in
             join_loop rec s u (strtoken_all jbuf (str ",")) keys);
      Some (set_bounced s (j_bounced s - 1))
  end.

Fixpoint do_join (fuel : nat) (s : jstate) (u : cid) (parv1 parv2 : option cstring) : option jstate :=
  match fuel with
  | O => None
  | S fuel => do_join_body (fun s p => do_join fuel s u (Some p) None) s u parv1 parv2
  end.

(** The first call and at most [MAXBOUNCE] nested ones. *)
Definition JOIN_FUEL : nat := S (Z.to_nat MAXBOUNCE).

Definition cmd_join (s : jstate) (u : cid) (parv1 parv2 : option cstring) : option jstate :=
  let s := set_bounced s 0 in
  if bool_decide (bc_status (v_client V u) = CLIENT_STATUS_SERVER) then Some s
  else
    s ← do_join JOIN_FUEL s u parv1 parv2;
    Some (set_bounced s 0).

End join.
