(* ===== verification/JoinSafe.v ===== *)
(** * JOIN keeps the structures of the server consistent

    The invariant of [jstate]: the channels represent an abstract view, an empty channel
    is kept only by +P, nothing is stored for a channel that does not exist, and the two
    sides of every invitation agree.  [do_join] preserves it on every path, through
    redirects and forwards, and never looks at a channel that was freed. *)
From S2P Require Import Prelude Chars Strings Client Hash ChanMode Channel Bans Glob Crule MatchUser Extban BanMask ChanParam Tags Join.

(** ** Invitations *)

Lemma remove_first_elem {A} `{EqDecision A} (x y : A) l : NoDup l -> y ∈ remove_first x l <-> y ∈ l /\ y <> x.
Proof.
  induction 1 as [|z l Hz Hnd IH]; simpl; [set_solver|]. case_decide as Hd; [subst z; set_solver|].
  rewrite !elem_of_cons, IH. naive_solver.
Qed.

Lemma remove_first_NoDup {A} `{EqDecision A} (x : A) l : NoDup l -> NoDup (remove_first x l).
Proof.
  induction 1 as [|z l Hz Hnd IH]; simpl; [constructor|]. case_decide; [done|]. constructor; [|done].
  rewrite remove_first_elem by done. naive_solver.
Qed.

(** Both lists of an invitation. *)
Definition invites_ok (s : jstate) : Prop :=
  (forall u ch, ch ∈ uinv s u <-> u ∈ cinv s ch) /\ (forall u, NoDup (uinv s u)) /\ (forall ch, NoDup (cinv s ch)).

Lemma del_invite_elem s u ch :
  invites_ok s ->
  invites_ok (del_invite s u ch) /\
  (forall v x, x ∈ uinv (del_invite s u ch) v <-> x ∈ uinv s v /\ ~ (v = u /\ x = ch)).
Proof.
  intros (Hs & Hu & Hc). unfold del_invite.
  assert (Hel : forall v x, x ∈ uinv (del_invite s u ch) v <-> x ∈ uinv s v /\ ~ (v = u /\ x = ch)).
  { intros v x. unfold uinv at 1. simpl. destruct (decide (v = u)) as [->|Hne].
    - rewrite lookup_insert_eq. simpl. rewrite remove_first_elem by done. naive_solver.
    - rewrite lookup_insert_ne by done. fold (uinv s v). naive_solver. }
  split; [|exact Hel]. split_and!.
  - intros v x. rewrite Hel. unfold cinv. simpl. destruct (decide (x = ch)) as [->|Hne].
    + rewrite lookup_insert_eq. simpl. rewrite (remove_first_elem u v (cinv s ch) (Hc ch)), Hs. naive_solver.
    + rewrite lookup_insert_ne by done. fold (cinv s x). rewrite Hs. naive_solver.
  - intros v. unfold uinv. simpl. destruct (decide (v = u)) as [->|Hne].
    + rewrite lookup_insert_eq. simpl. apply remove_first_NoDup, Hu.
    + rewrite lookup_insert_ne by done. apply Hu.
  - intros x. unfold cinv. simpl. destruct (decide (x = ch)) as [->|Hne].
    + rewrite lookup_insert_eq. simpl. apply remove_first_NoDup, Hc.
    + rewrite lookup_insert_ne by done. apply Hc.
Qed.

Lemma channel_destroy_elem s ch :
  invites_ok s ->
  invites_ok (invite_channel_destroy s ch) /\
  (forall v x, x ∈ uinv (invite_channel_destroy s ch) v <-> x ∈ uinv s v /\ x <> ch).
Proof.
  intros Hok. unfold invite_channel_destroy.
  assert (forall l, invites_ok (foldl (fun s u => del_invite s u ch) s l) /\
    (forall v x, x ∈ uinv (foldl (fun s u => del_invite s u ch) s l) v <-> x ∈ uinv s v /\ ~ (v ∈ l /\ x = ch))) as Hl.
  { intros l. revert s Hok. induction l as [|u l IH]; intros s Hok; simpl; [set_solver|].
    destruct (del_invite_elem s u ch Hok) as [H1 H2]. destruct (IH _ H1) as [H3 H4]. split; [done|].
    intros v x. rewrite H4, H2, elem_of_cons. naive_solver. }
  destruct (Hl (cinv s ch)) as [H1 H2]. split; [done|]. intros v x. rewrite H2.
  split; intros [Hx Hn]; (split; [done|]); [|naive_solver]. intros ->. apply Hn. split; [|done]. by apply Hok.
Qed.

Lemma user_quit_elem s u :
  invites_ok s ->
  invites_ok (invite_user_quit s u) /\ (forall v x, x ∈ uinv (invite_user_quit s u) v <-> x ∈ uinv s v /\ v <> u).
Proof.
  intros Hok. unfold invite_user_quit.
  assert (forall l, invites_ok (foldl (fun s ch => del_invite s u ch) s l) /\
    (forall v x, x ∈ uinv (foldl (fun s ch => del_invite s u ch) s l) v <-> x ∈ uinv s v /\ ~ (v = u /\ x ∈ l))) as Hl.
  { intros l. revert s Hok. induction l as [|ch l IH]; intros s Hok; simpl; [set_solver|].
    destruct (del_invite_elem s u ch Hok) as [H1 H2]. destruct (IH _ H1) as [H3 H4]. split; [done|].
    intros v x. rewrite H4, H2, elem_of_cons. naive_solver. }
  destruct (Hl (uinv s u)) as [H1 H2]. split; [done|]. intros v x. rewrite H2.
  split; intros [Hx Hn]; (split; [done|]); [|naive_solver]. intros ->. by apply Hn.
Qed.

(** [add_invite] adds one invitation, at the expense of at most two others. *)
Lemma add_invite_ok V s from to ch s' :
  invites_ok s -> add_invite V s from to ch = Some s' ->
  invites_ok s' /\ ch ∈ uinv s' to /\
  (forall v x, x ∈ uinv s' v -> x ∈ uinv s v \/ (v = to /\ x = ch)).
Proof.
  intros Hok. unfold add_invite. destruct (del_invite_elem s to ch Hok) as [H1 E1].
  set (s1 := del_invite s to ch) in *. set (r2 := if _ <=? Z.of_nat (length (uinv s1 to)) then _ else _).
  assert (forall s2, r2 = Some s2 -> invites_ok s2 /\ (forall v x, x ∈ uinv s2 v -> x ∈ uinv s1 v)) as H2.
  { intros s2. unfold r2. case_match; [|intros [= <-]; naive_solver]. destruct (last _) as [x0|]; [|done]. simpl.
    intros [= <-]. destruct (del_invite_elem s1 to x0 H1) as [? E]. split; [done|]. intros v x. rewrite E. naive_solver. }
  destruct r2 as [s2|]; [|done]. simpl. destruct (H2 s2 eq_refl) as [Hok2 E2]. clear H2.
  set (r3 := if _ <=? Z.of_nat (length (cinv s2 ch)) then _ else _).
  assert (forall s3, r3 = Some s3 -> invites_ok s3 /\ (forall v x, x ∈ uinv s3 v -> x ∈ uinv s2 v)) as H3.
  { intros s3. unfold r3. case_match; [|intros [= <-]; naive_solver]. destruct (last _) as [x0|]; [|done]. simpl.
    intros [= <-]. destruct (del_invite_elem s2 x0 ch Hok2) as [? E]. split; [done|]. intros v x. rewrite E. naive_solver. }
  destruct r3 as [s3|]; [|done]. simpl. destruct (H3 s3 eq_refl) as [(Hs & Hu & Hc) E3]. clear H3. intros [= <-].
  assert (Hno : ch ∉ uinv s3 to) by (intros H; apply E3, E2, E1 in H; naive_solver).
  assert (Hno' : to ∉ cinv s3 ch) by (by rewrite <- Hs).
  assert (Hel : forall v x, x ∈ uinv (set_invites s3 (<[ch:=to :: cinv s3 ch]> (j_cinv s3)) (<[to:=ch :: uinv s3 to]> (j_uinv s3))) v <->
                  x ∈ uinv s3 v \/ (v = to /\ x = ch)).
  { intros v x. unfold uinv at 1. simpl. destruct (decide (v = to)) as [->|Hne].
    - rewrite lookup_insert_eq. simpl. rewrite elem_of_cons. naive_solver.
    - rewrite lookup_insert_ne by done. fold (uinv s3 v). naive_solver. }
  split; [unfold invites_ok; split_and!|split].
  - intros v x. rewrite Hel. unfold cinv. simpl. destruct (decide (x = ch)) as [->|Hne].
    + rewrite lookup_insert_eq. simpl. rewrite elem_of_cons, Hs. naive_solver.
    + rewrite lookup_insert_ne by done. fold (cinv s3 x). rewrite Hs. naive_solver.
  - intros v. unfold uinv. simpl. destruct (decide (v = to)) as [->|Hne].
    + rewrite lookup_insert_eq. simpl. constructor; [done|apply Hu].
    + rewrite lookup_insert_ne by done. apply Hu.
  - intros x. unfold cinv. simpl. destruct (decide (x = ch)) as [->|Hne].
    + rewrite lookup_insert_eq. simpl. constructor; [done|apply Hc].
    + rewrite lookup_insert_ne by done. apply Hc.
  - apply Hel. by right.
  - intros v x [H|H]%Hel; [|by right]. left. apply E3, E2, E1 in H. naive_solver.
Qed.

(** ** The invariant *)

(** What the configuration and the other parts of the server promise. *)
Record join_env_ok (V : join_env) : Prop := {
  ve_handlers : handlers_ok (v_handlers V);
  ve_pton : pton_ok (e_inet_pton (v_ban V));
  ve_operclass c : opt_cstr (e_get_operclass (v_ban V) c);
  ve_extbans : table_ok (v_extbans V);
  ve_client u : ban_client_ok (v_client V u);
  ve_deny : Forall (fun d => cstr (dc_channel d) /\ forall r, dc_redirect d = Some r -> cstr r) (v_deny V);
  ve_allow : Forall (fun x => cstr (ac_channel x)) (v_allow V);
  ve_params : Forall (fun h => forall ph v, i_param (h_info h) = Some ph ->
                v_modes_on_join_params V !! h_letter h = Some v -> cstr (ph_store ph v)) (v_handlers V)
}.

(** The texts stored for a channel. *)
Definition ext_ok (e : chan_ext) : Prop :=
  Forall (fun x => cstr (banstr x)) (x_banlist e ++ x_exlist e ++ x_invexlist e) /\
  map_Forall (fun _ p => cstr p) (x_params e).

Definition has_chan (a : aview) (ch : ptr) : Prop := is_Some (a_chans a !! ch).

Section safe.
Context (V : join_env) (HV : join_env_ok V).

Definition jrel (c : cstate) (a : aview) : Prop := crel (v_siphashkey V) (is_local V) (has_user V) c a.

(** [ex] is the channel that [do_join] has created and not yet filled. *)
Definition jinv (ex : option ptr) (s : jstate) (a : aview) : Prop :=
  jrel (j_c s) a /\
  (forall ch, has_chan a ch -> on_chan (a_acc a) ch = ∅ -> Some ch = ex \/ permanent V s ch = true) /\
  (forall ch, is_Some (j_ext s !! ch) -> has_chan a ch) /\
  (forall ch, ext_ok (ext s ch)) /\
  invites_ok s /\
  (forall u ch, ch ∈ uinv s u -> has_chan a ch).

(** The channels that a user is on. *)
Definition count (a : aview) (u : cid) : Z := Z.of_nat (size (of_user (a_acc a) u)).

(** What a JOIN of [u] leaves alone: the other users, the permanent channels,
    [bouncedtimes]; and the limit of channels that it respects. *)
Record kept (u : cid) (s : jstate) (a : aview) (s' : jstate) (a' : aview) : Prop := {
  k_others ch v : v <> u -> a_acc a' !! (ch, v) = a_acc a !! (ch, v);
  k_perm ch : has_chan a ch -> permanent V s ch = true -> has_chan a' ch /\ permanent V s' ch = true;
  k_limit : is_local V u = true -> v_perm V u None (str "immune:maxchannelsperuser") = false ->
    count a' u <= Z.max (count a u) (v_maxchannels V u);
  k_bounced : j_bounced s' = j_bounced s
}.

Lemma kept_refl u s a : kept u s a s a.
Proof. split; [done|done|lia|done]. Qed.

Lemma kept_trans u s1 a1 s2 a2 s3 a3 : kept u s1 a1 s2 a2 -> kept u s2 a2 s3 a3 -> kept u s1 a1 s3 a3.
Proof.
  intros [A1 B1 C1 D1] [A2 B2 C2 D2]. split.
  - intros ch v Hv. by rewrite A2, A1.
  - intros ch H1 H2. destruct (B1 ch H1 H2). by apply B2.
  - intros H1 H2. specialize (C1 H1 H2). specialize (C2 H1 H2). lia.
  - congruence.
Qed.

(** A step that changes only what is sent. *)
Lemma kept_quiet u s a s' : j_ext s' = j_ext s -> j_bounced s' = j_bounced s -> kept u s a s' a.
Proof.
  intros He Hb. split; [done| |lia|done]. intros ch H1 H2. split; [done|].
  revert H2. unfold permanent, mode_set, ext. by rewrite He.
Qed.

Lemma jrel_represents c a : jrel c a -> represents (v_siphashkey V) (is_local V) (has_user V) c a.
Proof. by apply (crel_represents _ _ (is_user V)). Qed.

Lemma chan_lookup c a ch : jrel c a -> has_chan a ch <-> is_Some (chans c !! ch).
Proof.
  intros (G & _ & _ & _ & Hh & _). unfold has_chan. rewrite <- Hh. unfold heads. by rewrite lookup_fmap, fmap_is_Some.
Qed.

Lemma acc_chan c a ch u : jrel c a -> is_Some (a_acc a !! (ch, u)) -> has_chan a ch /\ has_user V u = true.
Proof. intros H Hk. destruct (rp_exists _ _ _ _ _ (jrel_represents _ _ H) ch u Hk). by rewrite (chan_lookup c a). Qed.

Lemma users_size s a ch : jrel (j_c s) a -> has_chan a ch -> users_of s ch = Z.of_nat (size (on_chan (a_acc a) ch)).
Proof.
  intros H Hc. apply (chan_lookup _ _ _ H) in Hc as [c Hc]. unfold users_of. rewrite Hc.
  by destruct (rp_chan _ _ _ _ _ (jrel_represents _ _ H) ch c Hc) as (_ & _ & ?).
Qed.

Lemma joined_count c a u : jrel c a -> joined c u = count a u.
Proof. intros H. by destruct (rp_joined _ _ _ _ _ (jrel_represents _ _ H) u). Qed.

Lemma on_chan_nonempty {A} (m : gmap (ptr * cid) A) ch u : is_Some (m !! (ch, u)) -> on_chan m ch <> ∅.
Proof. intros [x Hx] He. by rewrite (empty_no_keys _ _ u He) in Hx. Qed.

Lemma on_chan_elem {A} (m : gmap (ptr * cid) A) ch : on_chan m ch <> ∅ -> exists u, is_Some (m !! (ch, u)).
Proof.
  intros ([ch1 u] & x & Hx)%map_choose. apply map_lookup_filter_Some in Hx as [Hx Hc]. simpl in Hc. subst ch1. eauto.
Qed.

Lemma member_acc s a u ch : jrel (j_c s) a -> is_member s u ch = true <-> is_Some (a_acc a !! (ch, u)).
Proof.
  intros H. pose proof (jrel_represents _ _ H) as R. rewrite <- (rp_membership _ _ _ _ _ R u ch), fmap_is_Some.
  unfold is_member. rewrite bool_decide_eq_true. pose proof (membership_link (j_c s) u ch) as Hl.
  destruct (membership_of (j_c s) u ch) as [MB|]; [destruct Hl as (mb & -> & _)|destruct Hl as [-> _]];
    [split; eauto|split; by intros [? ?]].
Qed.

(** *** Steps that change only the modes of a channel *)

Definition mstep (a : aview) (s s' : jstate) : Prop :=
  (jinv None s a -> jinv None s' a) /\ (forall ch, permanent V s ch = true -> permanent V s' ch = true) /\
  j_bounced s' = j_bounced s /\ j_c s' = j_c s.

Lemma mstep_refl a s : mstep a s s.
Proof. done. Qed.

Lemma mstep_trans a s1 s2 s3 : mstep a s1 s2 -> mstep a s2 s3 -> mstep a s1 s3.
Proof. intros (A1 & B1 & C1 & D1) (A2 & B2 & C2 & D2). split_and!; [auto|auto|congruence..]. Qed.

Lemma ext_insert s ch e ch1 :
  ext (set_ext s (<[ch := e]> (j_ext s))) ch1 = if decide (ch1 = ch) then e else ext s ch1.
Proof.
  unfold ext. simpl. case_decide as Hd; [subst ch1; by rewrite lookup_insert_eq|by rewrite lookup_insert_ne].
Qed.

Lemma chan_ext_step a s ch e :
  on_chan (a_acc a) ch <> ∅ -> (ext_ok (ext s ch) -> ext_ok e) ->
  (has (x_mode (ext s ch)) (bit V 80) = true -> has (x_mode e) (bit V 80) = true) ->
  mstep a s (set_ext s (<[ch := e]> (j_ext s))).
Proof.
  intros Hne He Hp.
  assert (Hperm : forall ch1, permanent V s ch1 = true -> permanent V (set_ext s (<[ch := e]> (j_ext s))) ch1 = true).
  { intros ch1. unfold permanent, mode_set. rewrite ext_insert. case_decide as Hd; [subst ch1; exact Hp|done]. }
  split_and!; [|exact Hperm|done|done]. intros (R & T & D & X & I & L). split_and!; [done| | | |done|done].
  - intros ch1 Hc Hem. destruct (T ch1 Hc Hem) as [H|H]; [by left|right; by apply Hperm].
  - intros ch1. simpl. rewrite lookup_insert_is_Some'. intros [<-|H]; [|by apply D].
    destruct (on_chan_elem _ _ Hne) as [u Hu]. by apply (acc_chan (j_c s) a ch u).
  - intros ch1. rewrite ext_insert. case_decide; [by apply He|apply X].
Qed.

Lemma bit_elem c : bit V c <> 0 -> exists h, h ∈ v_handlers V /\ h_letter h = c /\ h_mode h = bit V c.
Proof.
  unfold bit. destruct (List.find _ _) as [h|] eqn:E; [|done]. intros _. apply find_some in E as [Hin Hl%Z.eqb_eq].
  exists h. by rewrite list_elem_of_In.
Qed.

(** The bit of +P survives a change of another mode. *)
Lemma perm_lor m b : has m (bit V 80) = true -> has (Z.lor m b) (bit V 80) = true.
Proof.
  unfold has. rewrite !negb_true_iff, !Z.eqb_neq, Z.land_lor_distr_l. intros Hm [H _]%Z.lor_eq_0_iff. done.
Qed.

Lemma perm_ldiff m c : c <> 80 -> has m (bit V 80) = true -> has (Z.ldiff m (bit V c)) (bit V 80) = true.
Proof using HV.
  intros Hc Hm. destruct (decide (bit V c = 0)) as [->|Hz]; [by rewrite Z.ldiff_0_r|].
  assert (bit V 80 <> 0) as Hp by (intros E; rewrite E in Hm; unfold has in Hm; by rewrite Z.land_0_r in Hm).
  destruct (bit_elem c Hz) as (h & Hh & El & Em). destruct (bit_elem 80 Hp) as (h' & Hh' & El' & Em').
  pose proof (cm_set_ldiff (v_handlers V) (ve_handlers V HV) m h h' Hh Hh') as H. unfold cm_set in H.
  rewrite Em, Em', El, El' in H. rewrite H by done. rewrite Hm. by apply negb_true_iff, Z.eqb_neq.
Qed.

Lemma set_mode_step a s ch m :
  on_chan (a_acc a) ch <> ∅ ->
  (has (x_mode (ext s ch)) (bit V 80) = true -> has m (bit V 80) = true) -> mstep a s (set_chan_mode s ch m).
Proof. intros Hne Hp. by apply chan_ext_step. Qed.

Lemma secure_set_step a s ch : on_chan (a_acc a) ch <> ∅ -> mstep a s (issecure_set V s ch).
Proof. intros. apply set_mode_step; [done|apply perm_lor]. Qed.

Lemma secure_unset_step a s ch : on_chan (a_acc a) ch <> ∅ -> mstep a s (issecure_unset V s ch).
Proof using HV. intros. apply set_mode_step; [done|by apply perm_ldiff]. Qed.

Ltac mstep_cases :=
  repeat case_match; eauto using mstep_refl, mstep_trans, secure_set_step, secure_unset_step.

Lemma secure_join_step a s u ch : on_chan (a_acc a) ch <> ∅ -> mstep a s (issecure_join V s u ch).
Proof using HV.
  intros Hne. unfold issecure_join.
  match goal with |- context [if ?b then issecure_unset V s ch else s] => set (s1 := if b then issecure_unset V s ch else s) end.
  apply (mstep_trans a s s1); [unfold s1; mstep_cases|clearbody s1; mstep_cases].
Qed.

Lemma secure_part_step a s u ch : on_chan (a_acc a) ch <> ∅ -> mstep a s (issecure_part V s u ch).
Proof using HV. intros Hne. unfold issecure_part. mstep_cases. Qed.

Lemma secure_chanmode_step a s ch : on_chan (a_acc a) ch <> ∅ -> mstep a s (issecure_chanmode V s ch).
Proof using HV. intros Hne. unfold issecure_chanmode. mstep_cases. Qed.

Lemma modes_on_join_step a s ch : on_chan (a_acc a) ch <> ∅ -> mstep a s (modes_on_join V s ch).
Proof using HV.
  intros Hne. unfold modes_on_join. destruct (_ && _ && _) eqn:E; [|apply mstep_refl].
  apply andb_true_iff in E as [[_ E%Z.eqb_eq]%andb_true_iff _].
  match goal with |- context [foldl ?f] => set (put := f) end. set (e := MkExt _ _ _ _ _).
  apply (mstep_trans a s (set_ext s (<[ch := e]> (j_ext s)))).
  - apply chan_ext_step; [done| |rewrite E; unfold has; by rewrite Z.land_0_l]. intros [H1 H2]. split; [exact H1|]. simpl.
    pose proof (ve_params V HV) as Hp. revert H2. generalize (x_params (ext s ch)).
    induction Hp as [|h l Hh Hl IH]; intros p H2; simpl; [done|]. apply IH. unfold put.
    destruct (_ || _); [done|]. destruct (i_param (h_info h)) as [ph|] eqn:E1; [|done].
    destruct (v_modes_on_join_params V !! h_letter h) as [v|] eqn:E2; [|done].
    by apply map_Forall_insert_2; [eapply Hh|].
  - apply (mstep_trans a _ (say (set_ext s (<[ch := e]> (j_ext s))) (JModes (name_of (set_ext s (<[ch := e]> (j_ext s))) ch))));
      [done|by apply secure_chanmode_step].
Qed.

Lemma del_invite_step a s u ch : mstep a s (del_invite s u ch).
Proof.
  split_and!; [|done|done|done]. intros (R & T & D & X & I & L). destruct (del_invite_elem s u ch I) as [I' E].
  split_and!; [done|done|done|done|done|]. intros v x [H _]%E. by eapply L.
Qed.

Lemma throttle_step a s u ch : mstep a s (jointhrottle_increase_usercounter V s u ch).
Proof. unfold jointhrottle_increase_usercounter. case_match; done. Qed.

(** *** A channel that a JOIN finds or makes *)

Lemma jinv_weaken ch s a : jinv None s a -> jinv (Some ch) s a.
Proof.
  intros (R & T & D & X & I & L). split_and!; try done. intros ch1 Hc He. destruct (T ch1 Hc He); [done|by right].
Qed.

Lemma jinv_filled ch s a : jinv (Some ch) s a -> on_chan (a_acc a) ch <> ∅ -> jinv None s a.
Proof.
  intros (R & T & D & X & I & L) Hne. split_and!; try done. intros ch1 Hc He. right.
  destruct (T ch1 Hc He) as [[= ->]|]; done.
Qed.

Lemma cstr_bytes nm : cstr nm -> forallb (fun c => (0 <? c) && (c <? 256)) nm = true.
Proof.
  intros H. apply forallb_forall. intros x Hx%list_elem_of_In. unfold cstr, byte_ok in H. rewrite Forall_forall in H.
  specialize (H x Hx). lia.
Qed.

Lemma make_find c a t nm :
  jrel c a -> cstr nm -> nm <> [] ->
  exists ch c' a', make_channel (v_siphashkey V) t c nm = (Some ch, c') /\ jrel c' a' /\ a_acc a' = a_acc a /\
    ((a' = a /\ c' = c /\ has_chan a ch) \/ (a_chans a' = <[ch := (clean_name nm, t)]> (a_chans a) /\ ~ has_chan a ch)).
Proof.
  intros R Hnm Hne. pose proof (cstr_bytes nm Hnm) as Hb. pose proof (clean_name_cstr nm Hb) as Hcn.
  pose proof (rp_find _ _ _ _ _ (jrel_represents _ _ R) (clean_name nm)) as Hf.
  destruct (cstep_ok (modes_table V) (v_siphashkey V) (is_local V) (is_user V) (has_user V) c a (CMake t nm)
    (match find_channel (v_siphashkey V) (chan_names c) (ctabs c) (clean_name nm) with
     | Some _ => a
     | None => AView (<[fresh (dom (a_chans a)) := (clean_name nm, t)]> (a_chans a)) (a_acc a)
     end) R) as (c' & Hc & R').
  { simpl. rewrite Hb. cbn [negb]. rewrite decide_False by done.
    destruct (find_channel _ _ _ _) as [ch|] eqn:E; case_decide as Hd; [|done|done|].
    - exfalso. destruct (proj1 (Hf ch Hcn) eq_refl) as (b & t' & Hl & Hs). rewrite map_empty_filter in Hd. by apply (Hd ch (b, t')).
    - exfalso. apply Hd. rewrite map_empty_filter. intros ch [b t'] Hl Hs.
      assert (None = Some ch) as H; [|done]. apply (Hf ch Hcn). eauto. }
  simpl in Hc. unfold make_channel in Hc |- *. destruct nm as [|x nm]; [done|].
  assert (Hdom : dom (chans c) = dom (a_chans a)).
  { apply set_eq. intros ch. rewrite !elem_of_dom. symmetry. by apply (chan_lookup c a ch). }
  destruct (find_channel _ _ _ _) as [ch|] eqn:E; simpl in Hc; injection Hc as <-.
  - exists ch, c, a. split_and!; [done|done|done|]. left. split_and!; [done|done|].
    destruct (proj1 (Hf ch Hcn) eq_refl) as (b & t' & Hl & _). unfold has_chan. by rewrite Hl.
  - eexists _, _, _. split_and!; [done|exact R'|done|]. right. simpl. rewrite Hdom. split; [done|].
    unfold has_chan. intros [y Hy]. by rewrite fresh_lookup in Hy.
Qed.

(** The state after [make_channel]: the channel is settled already, or it is new and
    nothing is set on it. *)
Lemma make_step u s a nm :
  jinv None s a -> cstr nm -> nm <> [] ->
  exists ch c a', make_channel (v_siphashkey V) (v_now V) (j_c s) nm = (Some ch, c) /\
    jinv (Some ch) (set_c s c) a' /\ has_chan a' ch /\ kept u s a (set_c s c) a' /\ a_acc a' = a_acc a /\
    ((a' = a /\ c = j_c s /\ has_chan a ch /\ jinv None (set_c s c) a') \/
     (a_chans a' = <[ch := (clean_name nm, v_now V)]> (a_chans a) /\ ~ has_chan a ch /\ ext (set_c s c) ch = no_ext)).
Proof.
  intros J Hnm Hne. pose proof J as (R & T & D & X & I & L).
  destruct (make_find _ _ (v_now V) nm R Hnm Hne) as (ch & c & a' & Hm & R' & Ha & [(-> & -> & Hc)|[Hc Hno]]).
  - exists ch, (j_c s), a. split_and!; [done|by apply jinv_weaken|done|apply kept_quiet; done|done|by left].
  - exists ch, c, a'. assert (Hmono : forall x, has_chan a x -> has_chan a' x).
    { intros x. unfold has_chan. rewrite Hc, lookup_insert_is_Some'. by right. }
    split_and!; [done| |by unfold has_chan; rewrite Hc, lookup_insert_eq| |exact Ha|].
    + split_and!; [done| |by intros x Hx; apply Hmono, D|done|done|by intros v x Hx; eapply Hmono, L].
      intros x. unfold has_chan. rewrite Hc, lookup_insert_is_Some', Ha. intros [<-|H] He; [by left|].
      right. destruct (T x H He); done.
    + split; [by rewrite Ha|by intros x H1 H2; auto|unfold count; rewrite Ha; lia|done].
    + right. split_and!; [done|done|]. unfold ext. simpl. destruct (j_ext s !! ch) as [e|] eqn:E; [|done]. destruct Hno. apply D. by rewrite E.
Qed.

(** *** A channel that is left *)

Lemma sub1_flag c ch sd c' f :
  sub1_from_channel (v_siphashkey V) c ch sd = Some (c', f) -> if f then chans c' = delete ch (chans c) else is_Some (chans c' !! ch).
Proof.
  unfold sub1_from_channel. destruct (chans c !! ch) as [x|]; [|done]. simpl.
  destruct (0 <? ch_users x - 1); [|destruct sd]; intros [= <- <-]; simpl; rewrite ?lookup_insert_eq; eauto.
Qed.

Lemma channel_destroy_frame s ch :
  j_ext (invite_channel_destroy s ch) = j_ext s /\ j_bounced (invite_channel_destroy s ch) = j_bounced s /\
  j_out (invite_channel_destroy s ch) = j_out s.
Proof.
  unfold invite_channel_destroy. generalize (cinv s ch). intros l. revert s.
  induction l as [|v l IH]; intros s; simpl; [done|]. destruct (IH (del_invite s v ch)) as (-> & -> & ->). done.
Qed.

Lemma settle_frame s ch b r :
  j_c (settle s ch b r) = r.1 /\ (j_ext (settle s ch b r) = if r.2 then delete ch (j_ext s) else j_ext s) /\
  j_bounced (settle s ch b r) = j_bounced s /\ j_out (settle s ch b r) = j_out s.
Proof.
  destruct (channel_destroy_frame s ch) as (H1 & H2 & H3). unfold settle. destruct b, r.2; simpl; rewrite ?H1, ?H2, ?H3; done.
Qed.

Lemma settle_perm s ch b r x :
  x <> ch \/ r.2 = false -> permanent V (settle s ch b r) x = permanent V s x.
Proof.
  destruct r as [c f]. simpl in *. intros H. unfold permanent, mode_set, ext.
  rewrite (proj1 (proj2 (settle_frame s ch b (c, f)))). simpl. destruct f; [|done].
  destruct H; [|done]. by rewrite lookup_delete_ne.
Qed.

(** [Channel] removed the channel exactly when [f] is set. *)
Lemma settle_ok s a a' ch c f b :
  jinv (Some ch) s a -> jrel c a' -> a_chans a' = (if f : bool then delete ch (a_chans a) else a_chans a) ->
  (forall x, x <> ch -> on_chan (a_acc a') x = on_chan (a_acc a) x) ->
  (f = false -> on_chan (a_acc a') ch = ∅ -> permanent V s ch = true) -> (f = true -> b = true) ->
  jinv None (settle s ch b (c, f)) a'.
Proof.
  intros (R & T & D & X & I & L) R' Hc Ho Hp Hb.
  assert (Hi : exists s1, settle s ch b (c, f) = (if f then set_ext (set_c s1 c) (delete ch (j_ext s)) else set_c s1 c) /\
    j_ext s1 = j_ext s /\ invites_ok s1 /\ (forall v x, x ∈ uinv s1 v -> x ∈ uinv s v) /\ (b = true -> forall v, ch ∉ uinv s1 v)).
  { exists (if b then invite_channel_destroy s ch else s). unfold settle.
    assert (j_ext (if b then invite_channel_destroy s ch else s) = j_ext s) as He.
    { destruct b; [apply channel_destroy_frame|done]. }
    simpl. rewrite He. destruct (channel_destroy_elem s ch I) as [I1 E1].
    split_and!; [by destruct f|done|by destruct b|destruct b; [intros v x [? _]%E1; done|done]|].
    intros -> v [_ ?]%E1. done. }
  pose proof (settle_perm s ch b (c, f)) as Hperm. simpl in Hperm.
  destruct Hi as (s1 & Es & He & I1 & Hsub & Hno).
  assert (Hch : forall x, has_chan a x -> has_chan a' x \/ (f = true /\ x = ch)).
  { intros x Hx. unfold has_chan. rewrite Hc. destruct f; [|by left]. destruct (decide (x = ch)) as [->|]; [by right|].
    left. by rewrite lookup_delete_ne. }
  assert (Hch' : forall x, has_chan a' x -> has_chan a x /\ (f = true -> x <> ch)).
  { intros x. unfold has_chan. rewrite Hc. destruct f; [|done]. rewrite lookup_delete_is_Some. naive_solver. }
  split_and!.
  - rewrite Es. by destruct f.
  - intros x [Hx Hn]%Hch' Hem. right. destruct (decide (x = ch)) as [->|Hne].
    + destruct f; [by destruct (Hn eq_refl)|]. rewrite Hperm by (by right). by apply Hp.
    + rewrite Hperm by (by left). rewrite Ho in Hem by done. by destruct (T x Hx Hem) as [[= ->]|].
  - intros x. rewrite Es. destruct f; simpl.
    + rewrite lookup_delete_is_Some. intros [Hne Hx]. destruct (Hch x (D x Hx)) as [?|[_ ?]]; done.
    + rewrite He. intros Hx. by destruct (Hch x (D x Hx)) as [?|[? _]].
  - intros x. rewrite Es. unfold ext. destruct f; simpl.
    + destruct (decide (x = ch)) as [->|]; [rewrite lookup_delete_eq|rewrite lookup_delete_ne by done; apply X].
      split; [constructor|]. apply map_Forall_empty.
    + rewrite He. apply X.
  - rewrite Es. by destruct f.
  - intros v x Hx. assert (x ∈ uinv s1 v) as Hx1 by (rewrite Es in Hx; by destruct f).
    destruct (Hch x (L v x (Hsub v x Hx1))) as [?|[-> ->]]; [done|]. by destruct (Hno (Hb eq_refl) v).
Qed.

Lemma drop_step u s a ch :
  jinv (Some ch) s a -> has_chan a ch ->
  exists s' a', drop_if_empty V s ch = Some s' /\ jinv None s' a' /\ kept u s a s' a' /\
    a' = a_sub1 a ch (negb (permanent V s ch)) /\ j_out s' = j_out s.
Proof.
  intros J Hc. pose proof J as (R & _). unfold drop_if_empty. rewrite (users_size s a ch R Hc).
  destruct (decide (on_chan (a_acc a) ch = ∅)) as [He|He]; pose proof (empty_size (a_acc a) ch) as Hs.
  - rewrite (proj2 Hs He). simpl. set (sd := negb (permanent V s ch)).
    destruct (cstep_ok (modes_table V) (v_siphashkey V) (is_local V) (is_user V) (has_user V) (j_c s) a (CSub1 ch sd)
      (a_sub1 a ch sd) R) as (c' & Hs1 & R').
    { simpl. by rewrite !bool_decide_true by done. }
    simpl in Hs1. destruct (sub1_from_channel _ _ _ _) as [[c f]|] eqn:E; [|done]. injection Hs1 as <-.
    simpl. assert (f = sd) as ->.
    { apply sub1_flag in E. pose proof (chan_lookup c _ ch R') as Hl. unfold has_chan, a_sub1 in Hl. simpl in Hl.
      rewrite bool_decide_true in Hl by done. simpl in Hl. destruct f, sd; [done| | |done].
      - rewrite E, lookup_delete_eq in Hl. destruct Hl as [Hl _]. by destruct (Hl Hc).
      - rewrite lookup_delete_eq in Hl. destruct Hl as [_ Hl]. by destruct (Hl E). }
    assert (Hch : a_chans (a_sub1 a ch sd) = if sd then delete ch (a_chans a) else a_chans a).
    { unfold a_sub1. simpl. by rewrite bool_decide_true. }
    exists (settle s ch true (c, sd)), (a_sub1 a ch sd). split_and!; [done| | |done|apply settle_frame].
    + apply (settle_ok s a); [done|exact R'|exact Hch|done|by unfold sd; intros H%negb_false_iff|done].
    + split; [done| |unfold count; simpl; lia|].
      * intros x Hx Hp. destruct (decide (x = ch)) as [->|Hne].
        -- rewrite settle_perm by (right; unfold sd; simpl; by rewrite Hp). split; [|done].
           unfold has_chan. rewrite Hch. unfold sd. by rewrite Hp.
        -- rewrite settle_perm by (by left). split; [|done]. unfold has_chan. rewrite Hch.
           destruct sd; [by rewrite lookup_delete_ne|done].
      * apply settle_frame.
  - destruct (Z.eqb_spec (Z.of_nat (size (on_chan (a_acc a) ch))) 0) as [Hz|]; [destruct He; apply Hs; lia|].
    exists s, a. split_and!; [done|by eapply jinv_filled|apply kept_refl| |done].
    unfold a_sub1. rewrite bool_decide_false by done. by destruct a.
Qed.

(** *** A user who joins *)

(** A change of the channels under which no member goes away. *)
Lemma jinv_chans ex s a c a' :
  jinv ex s a -> jrel c a' -> (forall x, has_chan a' x <-> has_chan a x) ->
  (forall k, is_Some (a_acc a !! k) -> is_Some (a_acc a' !! k)) -> jinv ex (set_c s c) a'.
Proof.
  intros (R & T & D & X & I & L) R' Hc Hk. split_and!; [done| | |done|done|].
  - intros x Hx He. apply (T x); [by apply Hc|]. destruct (decide (on_chan (a_acc a) x = ∅)) as [|Hne]; [done|].
    destruct (on_chan_elem _ _ Hne) as [u Hu]. by destruct (on_chan_nonempty (a_acc a') x u (Hk _ Hu)).
  - intros x Hx. by apply Hc, D.
  - intros u x Hx. by eapply Hc, L.
Qed.

Lemma creationtime_rel c a ch x t :
  jrel c a -> chans c !! ch = Some x ->
  jrel (CState (<[ch := MkChannel (ch_name x) t (ch_users x) (ch_members x) (ch_local x)]> (chans c)) (chan_list c)
          (members c) (lmembers c) (memberships c) (uchannel c) (ujoined c) (nchannels c) (ctabs c))
    (AView (<[ch := (ch_name x, t)]> (a_chans a)) (a_acc a)).
Proof.
  intros (G & [N1 N2 N3 N4 N5 N6 N7 N8 N9] & C & D & Hh & Ha) Hx. exists G. split_and!.
  - split; try done. simpl. intros ch1 u n Hn. rewrite lookup_insert_is_Some'. destruct (N8 _ _ _ Hn) as (?&?&?). tauto.
  - intros ch1 c1. simpl. intros [[<- <-]|[Hne Hc1]]%lookup_insert_Some; [exact (C ch x Hx)|by apply C].
  - unfold chan_names. simpl. rewrite fmap_insert. rewrite insert_id by (by rewrite lookup_fmap, Hx). exact D.
  - unfold heads. simpl. rewrite fmap_insert. simpl. unfold heads in Hh. by rewrite Hh.
  - exact Ha.
Qed.

Lemma fix_creationtime_step s a ch :
  jinv None s a -> has_chan a ch ->
  exists a', jinv None (fix_creationtime V s ch) a' /\ a_acc a' = a_acc a /\ (forall x, has_chan a' x <-> has_chan a x) /\
    j_ext (fix_creationtime V s ch) = j_ext s /\ j_bounced (fix_creationtime V s ch) = j_bounced s.
Proof.
  intros J Hc. unfold fix_creationtime. destruct (_ =? 0); [|by exists a]. pose proof J as (R & _).
  apply (chan_lookup _ _ _ R) in Hc as Hx. destruct Hx as [x Hx]. unfold set_creationtime. rewrite Hx.
  pose proof (creationtime_rel _ _ _ _ (v_now V) R Hx) as R'.
  exists (AView (<[ch := (ch_name x, v_now V)]> (a_chans a)) (a_acc a)).
  assert (Hiff : forall y, has_chan (AView (<[ch := (ch_name x, v_now V)]> (a_chans a)) (a_acc a)) y <-> has_chan a y).
  { intros y. unfold has_chan. simpl. rewrite lookup_insert_is_Some'. split; [|by right]. by intros [<-|?]. }
  split_and!; [|done|exact Hiff|done|done]. exact (jinv_chans None s a _ _ J R' Hiff (fun k H => H)).
Qed.

Lemma change_other acc k f k1 : k1 <> k -> change acc k f !! k1 = acc !! k1.
Proof. intros Hne. unfold change. destruct (acc !! k); [|done]. by rewrite lookup_insert_ne. Qed.

Lemma same_keys (m m' : gmap (ptr * cid) (cstring * bool)) k : fst <$> m' !! k = fst <$> m !! k -> is_Some (m' !! k) <-> is_Some (m !! k).
Proof. intros H. by rewrite <- (fmap_is_Some fst), H, fmap_is_Some. Qed.

Lemma count_ext a a' u :
  (forall ch, is_Some (a_acc a' !! (ch, u)) <-> is_Some (a_acc a !! (ch, u))) -> count a' u = count a u.
Proof.
  intros H. unfold count. f_equal. rewrite <- !size_dom. f_equal. apply set_eq. intros [ch v].
  rewrite !elem_of_dom. unfold of_user, is_Some. setoid_rewrite map_lookup_filter_Some. simpl.
  specialize (H ch). unfold is_Some in H. split; intros (r & Hr & ->).
  - destruct (proj1 H) as [r' Hr']; eauto.
  - destruct (proj2 H) as [r' Hr']; eauto.
Qed.

Lemma invisible_step s a u ch b :
  jinv None s a ->
  exists c a', set_user_invisible (is_user V) (j_c s) u ch b = Some c /\ jinv None (set_c s c) a' /\ a_chans a' = a_chans a /\
    (forall k, fst <$> a_acc a' !! k = fst <$> a_acc a !! k) /\ (forall k, k <> (ch, u) -> a_acc a' !! k = a_acc a !! k).
Proof.
  intros J. pose proof J as (R & _).
  set (a' := if is_user V u then AView (a_chans a) (change (a_acc a) (ch, u) (fun r => (r.1, b))) else a).
  destruct (cstep_ok (modes_table V) (v_siphashkey V) (is_local V) (is_user V) (has_user V) (j_c s) a (CInvisible u ch b)
    a' R) as (c & Hc & R').
  { simpl. unfold a'. by destruct (is_user V u). }
  assert (Hk : forall k, fst <$> a_acc a' !! k = fst <$> a_acc a !! k).
  { intros k. unfold a'. destruct (is_user V u); [|done]. simpl. unfold change.
    destruct (a_acc a !! (ch, u)) as [r|] eqn:E; [|done]. destruct (decide ((ch, u) = k)) as [<-|Hne].
    - by rewrite lookup_insert_eq, E.
    - by rewrite lookup_insert_ne. }
  assert (Hch : a_chans a' = a_chans a) by (unfold a'; by destruct (is_user V u)).
  exists c, a'. split_and!; [exact Hc| |exact Hch|exact Hk|].
  - apply (jinv_chans None s a); [done|exact R'|by intros x; unfold has_chan; rewrite Hch|by intros k; apply same_keys].
  - intros k Hne. unfold a'. destruct (is_user V u); [|done]. by apply change_other.
Qed.

Lemma join_step s a ch u modes :
  jinv (Some ch) s a -> has_chan a ch -> a_acc a !! (ch, u) = None -> has_user V u = true ->
  exists s' a', join_channel V s ch u modes = Some s' /\ jinv None s' a' /\
    (forall k, k <> (ch, u) -> a_acc a' !! k = a_acc a !! k) /\
    fst <$> a_acc a' !! (ch, u) = Some (all_modes (modes_table V) [] modes) /\
    (forall x, has_chan a x -> permanent V s x = true -> has_chan a' x /\ permanent V s' x = true) /\
    j_bounced s' = j_bounced s.
Proof using HV.
  intros J Hc Hno Hu. pose proof J as (R & _).
  set (a1 := AView (a_chans a) (<[(ch, u) := (all_modes (modes_table V) [] modes, false)]> (a_acc a))).
  destruct (cstep_ok (modes_table V) (v_siphashkey V) (is_local V) (is_user V) (has_user V) (j_c s) a (CJoin ch u modes)
    a1 R) as (c1 & Hc1 & R1).
  { simpl. rewrite Hu. simpl. by rewrite !bool_decide_true. }
  unfold join_channel. simpl in Hc1. rewrite Hc1. cbn [mbind option_bind].
  assert (J1 : jinv None (set_c s c1) a1).
  { apply (jinv_filled ch); [|apply (on_chan_nonempty _ ch u); simpl; by rewrite lookup_insert_eq].
    apply (jinv_chans _ s a); [done|exact R1|done|]. intros k Hk. simpl. rewrite lookup_insert_is_Some'. by right. }
  assert (exists s2 a2, moded_join V (set_c s c1) u ch = Some s2 /\ jinv None s2 a2 /\ a_chans a2 = a_chans a /\
    (forall k, fst <$> a_acc a2 !! k = fst <$> a_acc a1 !! k) /\
    (forall k, k <> (ch, u) -> a_acc a2 !! k = a_acc a1 !! k) /\ j_ext s2 = j_ext s /\ j_bounced s2 = j_bounced s)
    as (s2 & a2 & -> & J2 & Hch2 & Hk2 & Ho2 & He2 & Hb2).
  { unfold moded_join. destruct (mode_set _ _ _ _); [|by exists (set_c s c1), a1].
    destruct (invisible_step _ _ u ch true J1) as (c2 & a2 & Hc2 & J2 & Hch2 & Hk2 & Ho2). rewrite Hc2.
    by exists (set_c s c2), a2. }
  cbn [mbind option_bind].
  assert (Hin2 : is_Some (a_acc a2 !! (ch, u))) by (apply (same_keys (a_acc a1)); [done|]; simpl; by rewrite lookup_insert_eq).
  assert (Ho : forall k, k <> (ch, u) -> a_acc a2 !! k = a_acc a !! k).
  { intros k Hk. rewrite Ho2 by done. simpl. by rewrite lookup_insert_ne. }
  assert (Hk : fst <$> a_acc a2 !! (ch, u) = Some (all_modes (modes_table V) [] modes)).
  { rewrite Hk2. simpl. by rewrite lookup_insert_eq. }
  assert (Hp2 : forall x, permanent V s2 x = permanent V s x).
  { intros x. unfold permanent, mode_set, ext. by rewrite He2. }
  set (s3 := say s2 _). destruct (is_my_user V u).
  - destruct (fix_creationtime_step s3 a2 ch J2) as (a3 & J3 & Ha3 & Hc3 & He3 & Hb3).
    { by eapply acc_chan; [apply J2|exact Hin2]. }
    assert (Hne : on_chan (a_acc a3) ch <> ∅) by (rewrite Ha3; by eapply on_chan_nonempty).
    set (s4 := fix_creationtime V s3 ch) in *. set (s7 := jointhrottle_increase_usercounter _ _ _ _).
    assert (mstep a3 s4 s7) as (M1 & M2 & M3 & M4).
    { eapply mstep_trans; [by apply modes_on_join_step|]. eapply mstep_trans; [apply del_invite_step|].
      eapply mstep_trans; [by apply secure_join_step|apply throttle_step]. }
    exists s7, a3. split_and!; [done|by apply M1|by intros; rewrite Ha3; apply Ho|by rewrite Ha3| |].
    + intros x Hx Hp. split; [apply Hc3; unfold has_chan; by rewrite Hch2|]. apply M2.
      unfold permanent, mode_set, ext in *. by rewrite He3; simpl; rewrite He2.
    + rewrite M3, Hb3. exact Hb2.
  - assert (mstep a2 s3 (issecure_join V s3 u ch)) as (M1 & M2 & M3 & M4) by (apply secure_join_step; by eapply on_chan_nonempty).
    exists (issecure_join V s3 u ch), a2. split_and!; [done|by apply M1|exact Ho|exact Hk| |by rewrite M3].
    intros x Hx Hp. split; [unfold has_chan; by rewrite Hch2|]. apply M2. by rewrite <- Hp2 in Hp.
Qed.

(** *** A user who leaves *)

Lemma remove_flag c u ch mb sd c' f :
  remove_user_from_channel_withmb (v_siphashkey V) c u ch mb sd = Some (c', f) ->
  if f then chans c' !! ch = None else is_Some (chans c' !! ch).
Proof.
  unfold remove_user_from_channel_withmb. destruct (memberships c !! mb) as [MB|]; [|done]. cbn [mbind option_bind].
  destruct (members c !! mb_related MB) as [M|]; [|done]. cbn [mbind option_bind].
  destruct (chans c !! ch) as [x|]; [|done]. cbn [mbind option_bind].
  destruct (m_local M) as [lm|]; intros H%sub1_flag; destruct f; try done; by rewrite H, lookup_delete_eq.
Qed.

Lemma invisible_links c u ch b c' :
  set_user_invisible (is_user V) c u ch b = Some c' ->
  uchannel c' = uchannel c /\ forall l x, find_membership_link c' l x = find_membership_link c l x.
Proof.
  unfold set_user_invisible. destruct (is_user V u); simpl; [|by intros [= <-]].
  destruct (find_mbs c u ch) as [[[m mb]|]|]; simpl; [|by intros [= <-]|done].
  destruct (memberships c !! mb) as [MB|] eqn:E; [|done]. simpl. destruct (members c !! m) as [M|]; [|done]. simpl.
  intros [= <-]. split; [done|]. intros l x. unfold find_membership_link. simpl.
  induction l as [|y l IH]; simpl; [done|]. destruct (decide (mb = y)) as [<-|Hne].
  - rewrite lookup_insert_eq, E. simpl. by rewrite IH.
  - rewrite lookup_insert_ne by done. by rewrite IH.
Qed.

Lemma on_chan_delete {A} (m : gmap (ptr * cid) A) ch u x : x <> ch -> on_chan (delete (ch, u) m) x = on_chan m x.
Proof.
  intros Hx. unfold on_chan. rewrite map_filter_delete. apply delete_id, map_lookup_filter_None. right. intros y _. simpl. congruence.
Qed.

Lemma size_delete_key {A} (m : gmap (ptr * cid) A) ch u :
  is_Some (m !! (ch, u)) ->
  Z.of_nat (size (on_chan (delete (ch, u) m) ch)) = Z.of_nat (size (on_chan m ch)) - 1 /\
  Z.of_nat (size (of_user (delete (ch, u) m) u)) = Z.of_nat (size (of_user m u)) - 1.
Proof.
  intros [r Hr]. unfold on_chan, of_user. rewrite !map_filter_delete. rewrite !map_size_delete.
  rewrite !(proj2 (map_lookup_filter_Some _ _ _ _)) by (by split). split.
  - destruct (size (filter (fun kv : ptr * cid * A => kv.1.1 = ch) m)) eqn:E; [|lia]. apply map_size_empty_iff in E.
    assert (filter (fun kv : ptr * cid * A => kv.1.1 = ch) m !! (ch, u) = Some r) as H by (by apply map_lookup_filter_Some).
    by rewrite E in H.
  - destruct (size (filter (fun kv : ptr * cid * A => kv.1.2 = u) m)) eqn:E; [|lia]. apply map_size_empty_iff in E.
    assert (filter (fun kv : ptr * cid * A => kv.1.2 = u) m !! (ch, u) = Some r) as H by (by apply map_lookup_filter_Some).
    by rewrite E in H.
Qed.

(** The hooks on a PART. *)
Lemma part_hooks s a u ch mb :
  jinv None s a -> is_Some (a_acc a !! (ch, u)) -> find_membership_link (j_c s) (uch (j_c s) u) ch = Some mb ->
  exists s' a', (if is_local V u then moded_part V (issecure_part V s u ch) u ch else Some s) = Some s' /\ jinv None s' a' /\
    a_chans a' = a_chans a /\ (forall k, is_Some (a_acc a' !! k) <-> is_Some (a_acc a !! k)) /\
    (forall x v, v <> u -> a_acc a' !! (x, v) = a_acc a !! (x, v)) /\
    (forall x, permanent V s x = true -> permanent V s' x = true) /\ j_bounced s' = j_bounced s /\
    find_membership_link (j_c s') (uch (j_c s') u) ch = Some mb.
Proof using HV.
  intros J Hin Hf. destruct (is_local V u); [|by exists s, a]. pose proof (on_chan_nonempty _ _ _ Hin) as Hne.
  destruct (secure_part_step a s u ch Hne) as (M1 & M2 & M3 & M4). set (s1 := issecure_part V s u ch) in *.
  specialize (M1 J). unfold moded_part. destruct (mode_set V s1 ch 100).
  - destruct (invisible_step s1 a u ch false M1) as (c & a' & Hc & J2 & Hch & Hk' & Ho'). rewrite Hc. cbn [mbind option_bind].
    assert (Hk : forall k, is_Some (a_acc a' !! k) <-> is_Some (a_acc a !! k)) by (intros k; by apply same_keys).
    assert (Ho : forall x v, v <> u -> a_acc a' !! (x, v) = a_acc a !! (x, v)) by (intros x v Hv; apply Ho'; congruence).
    destruct (invisible_links _ _ _ _ _ Hc) as [L1 L2]. rewrite M4 in L1, L2. eexists _, a'. split; [reflexivity|].
    assert (Hne' : on_chan (a_acc a') ch <> ∅) by (eapply on_chan_nonempty; by apply Hk).
    set (s2 := if negb _ then _ else _). assert (mstep a' (set_c s1 c) s2) as (N1 & N2 & N3 & N4).
    { unfold s2. destruct (negb _); [|apply mstep_refl]. apply set_mode_step; [done|by apply perm_ldiff]. }
    split_and!; [by apply N1|done|done|done|intros x Hx; by apply N2, M2|by rewrite N3|].
    rewrite N4. simpl. unfold uch. by rewrite L2, L1.
  - exists s1, a. split_and!; try done. by rewrite M4.
Qed.

Lemma leave_step s a u ch mb :
  jinv None s a -> is_Some (a_acc a !! (ch, u)) -> find_membership_link (j_c s) (uch (j_c s) u) ch = Some mb ->
  exists s' a', leave_channel V s u ch mb = Some s' /\ jinv None s' a' /\ kept u s a s' a' /\ count a' u = count a u - 1.
Proof using HV.
  intros J Hin Hf. unfold leave_channel.
  destruct (part_hooks (say s (JPart (name_of s ch))) a u ch mb J Hin Hf) as (s1 & a1 & -> & J1 & Hch1 & Hk1 & Ho1 & Hp1 & Hb1 & Hf1).
  cbn [mbind option_bind]. pose proof J1 as (R1 & _). set (sd := negb (permanent V s1 ch)).
  assert (Hin1 : is_Some (a_acc a1 !! (ch, u))) by (by apply Hk1). destruct Hin1 as [r Hr].
  set (a2 := a_sub1 (AView (a_chans a1) (delete (ch, u) (a_acc a1))) ch sd).
  destruct (cstep_ok (modes_table V) (v_siphashkey V) (is_local V) (is_user V) (has_user V) (j_c s1) a1 (CPart u ch sd) a2 R1)
    as (c & Hc & R2).
  { simpl. by rewrite Hr. }
  simpl in Hc. unfold remove_user_from_channel in Hc. rewrite Hf1 in Hc.
  destruct (remove_user_from_channel_withmb _ _ _ _ _ _) as [[c' f]|] eqn:E; [|done]. injection Hc as ->. cbn [mbind option_bind].
  set (gone := bool_decide (on_chan (delete (ch, u) (a_acc a1)) ch = ∅) && sd).
  assert (Hc2 : a_chans a2 = if gone then delete ch (a_chans a1) else a_chans a1) by done.
  assert (Hhas : has_chan a1 ch) by (eapply acc_chan; [exact R1|by rewrite Hr]).
  assert (f = gone) as ->.
  { apply remove_flag in E. pose proof (chan_lookup c a2 ch R2) as Hl. unfold has_chan in Hl. rewrite Hc2 in Hl.
    destruct f, gone; [done| | |done].
    - rewrite E in Hl. destruct Hl as [Hl _]. by destruct (Hl Hhas).
    - rewrite lookup_delete_eq in Hl. destruct Hl as [_ Hl]. by destruct (Hl E). }
  destruct (size_delete_key (a_acc a1) ch u) as [Hs1 Hs2]; [by rewrite Hr|].
  eexists _, a2. split_and!; [reflexivity| | |].
  - apply (settle_ok s1 a1); [by apply jinv_weaken|exact R2|exact Hc2|intros x Hx; by apply on_chan_delete| |].
    + intros Hg He. unfold gone in Hg. rewrite bool_decide_true in Hg by done. simpl in Hg. by apply negb_false_iff in Hg.
    + intros [Hg _]%andb_true_iff. apply bool_decide_eq_true, empty_size in Hg. rewrite (users_size s1 a1 ch R1 Hhas).
      apply Z.leb_le. lia.
  - split.
    + intros x v Hv. simpl. rewrite lookup_delete_ne by congruence. by apply Ho1.
    + intros x Hx Hp. specialize (Hp1 x Hp). assert (x <> ch \/ gone = false) as Hx'.
      { destruct (decide (x = ch)) as [->|]; [right|by left]. unfold gone, sd. rewrite Hp1. apply andb_false_r. }
      rewrite settle_perm by done. split; [|done]. unfold has_chan. rewrite Hc2, Hch1.
      destruct gone; [|done]. destruct Hx'; [|done]. by rewrite lookup_delete_ne.
    + intros _ _. rewrite (count_ext a1 a u) by (intros; symmetry; apply Hk1). unfold count. simpl. lia.
    + rewrite (proj1 (proj2 (proj2 (settle_frame _ _ _ _)))). exact Hb1.
  - rewrite (count_ext a1 a u) by (intros; symmetry; apply Hk1). unfold count. simpl. lia.
Qed.

(** JOIN 0 leaves every channel. *)
Lemma part_all_step fuel s a u :
  jinv None s a -> count a u <= Z.of_nat fuel ->
  exists s' a', part_all V fuel s u = Some s' /\ jinv None s' a' /\ kept u s a s' a' /\ count a' u = 0.
Proof using HV.
  revert s a. induction fuel as [|fuel IH]; intros s a J Hf; pose proof J as (R & _);
    pose proof (rp_joined _ _ _ _ _ (jrel_represents _ _ R) u) as [Hj1 Hj2]; fold (count a u) in Hj2.
  - destruct (uch (j_c s) u) as [|mb l] eqn:El; [|simpl in Hj1; lia]. exists s, a. simpl. rewrite El.
    split_and!; [done|done|apply kept_refl|]. simpl in Hj1. lia.
  - simpl. destruct (uch (j_c s) u) as [|mb l] eqn:El.
    { exists s, a. split_and!; [done|done|apply kept_refl|]. simpl in Hj1. lia. }
    pose proof R as (G & N & _ & _ & _ & Ha). destruct (i_user _ _ _ _ N u) as ([_ Hl] & _).
    destruct (proj1 (Hl mb)) as (ch & n & Hn & Hmb); [rewrite El; by left|].
    rewrite <- Hmb, (i_mb _ _ _ _ N _ _ _ Hn), Hmb. cbn [mbind option_bind mb_channel].
    destruct (leave_step s a u ch mb J) as (s1 & a1 & -> & J1 & K1 & C1).
    { rewrite <- Ha, lookup_fmap, Hn. by eexists. }
    { rewrite (find_membership_ghost _ _ _ _ _ _ N), Hn. simpl. by rewrite Hmb. }
    cbn [mbind option_bind]. destruct (IH s1 a1 J1) as (s2 & a2 & -> & J2 & K2 & C2); [lia|].
    exists s2, a2. split_and!; [done|done|by eapply kept_trans|done].
Qed.
End safe.
