(* ===== verification/JoinSpec.v ===== *)
(** * Who may join, and what a JOIN does

    The checks of JOIN never fault, and [can_join] is a statement about the channel and
    the user: an invitation, or none of the restrictions and no ban.  With that every
    path of [do_join] is followed: nested calls are bounded by [bouncedtimes], and the
    invariant of [JoinSafe] holds at the end. *)
From S2P Require Import Prelude Chars Strings Client Hash ChanMode Channel Bans Glob Crule MatchUser Extban BanMask ChanParam Tags Join JoinSafe.

Section spec.
Context (V : join_env) (HV : join_env_ok V).

(** ** The tests of the lists *)

Lemma name_cstr s a ch : jrel V (j_c s) a -> cstr (name_of s ch).
Proof.
  intros (G & _ & _ & D & _). unfold name_of. destruct (chans (j_c s) !! ch) as [c|] eqn:E; [|constructor].
  apply (d_cstr _ _ _ _ _ D ch). unfold chan_names. by rewrite lookup_fmap, E.
Qed.

Lemma ban_client_good s a u : jrel V (j_c s) a -> ban_client_ok (ban_client V s u).
Proof using HV.
  intros R. destruct (ve_client V HV u) as [H1 H2 H3 H4 H5 H6 H7]. split; try done.
  - simpl. intros H. by apply fmap_is_Some, H6.
  - simpl. intros x. destruct (bc_user (v_client V u)) as [y|] eqn:E; [|done]. intros [= <-]. simpl.
    destruct (H7 y eq_refl) as (?&?&?&?&?&_). split_and!; [done..|].
    unfold memberships_of. apply Forall_forall. intros p (mb & _ & Hmb)%list_elem_of_omap.
    destruct (memberships (j_c s) !! mb) as [MB|]; [|done]. injection Hmb as <-. by eapply name_cstr.
Qed.

Lemma bans_env_ok ex s a : jinv V ex s a -> env_ok (bans_env V s).
Proof using HV.
  intros (_ & _ & _ & X & _). split; [apply (ve_pton V HV)|apply (ve_operclass V HV)|].
  intros nm ch. simpl. destruct (find_chan V s nm) as [x|]; [|done]. intros [= <-]. apply (X x).
Qed.

Definition bans_user (s : jstate) (u : cid) (ch : ptr) : Prop :=
  channel_bans (bans_env V s) (v_extbans V) (inherits (bans_env V s) (v_extbans V)) (ban_client V s u) (ban_channel s ch) BANCHK_JOIN.

Definition invex_user (s : jstate) (u : cid) (ch : ptr) : Prop :=
  channel_invites (bans_env V s) (v_extbans V) (inherits (bans_env V s) (v_extbans V)) (ban_client V s u) (ban_channel s ch).

Lemma banned_spec ex s a u ch : jinv V ex s a -> exists b, banned V s u ch = Some b /\ (b = true <-> bans_user s u ch).
Proof using HV.
  intros J. pose proof (bans_env_ok _ _ _ J) as HE. pose proof J as (R & _ & _ & X & _).
  pose proof (ban_client_good s a u R) as Hc. unfold banned, is_banned, is_banned_with_nick.
  destruct (find_ban_decides _ _ HE (ve_extbans V HV) _ _ (inherit_decides _ _ HE (ve_extbans V HV)) (ban_client V s u)
    (ban_channel s ch) BANCHK_JOIN None Hc (proj1 (X ch))) as (r & msg' & -> & Hr & _).
  cbn [mbind option_bind fst]. eexists. split; [done|]. rewrite bool_decide_eq_true. unfold bans_user.
  destruct r as [ban|]; simpl in Hr; [naive_solver|]. split; [by intros [? ?]|done].
Qed.

Lemma invex_spec ex s a u ch : jinv V ex s a -> exists b, has_invex V s u ch = Some b /\ (b = true <-> invex_user s u ch).
Proof using HV.
  intros J. pose proof (bans_env_ok _ _ _ J) as HE. pose proof J as (R & _ & _ & X & _).
  apply (find_invex_decides _ _ HE (ve_extbans V HV) _ _ (inherit_decides _ _ HE (ve_extbans V HV)));
    [by eapply ban_client_good|apply X].
Qed.

(** ** [can_join] *)

Definition invited (s : jstate) (u : cid) (ch : ptr) : Prop := is_local V u = true /\ ch ∈ uinv s u.

Lemma is_invited_spec s u ch : is_invited V s u ch = true <-> invited s u ch.
Proof.
  unfold is_invited, invite_is_invited, invited. rewrite andb_true_iff, existsb_exists.
  split; intros [H1 H2]; (split; [done|]).
  - destruct H2 as (x & Hx & ->%bool_decide_eq_true). by apply list_elem_of_In.
  - exists ch. rewrite <- list_elem_of_In. split; [done|]. by apply bool_decide_eq_true.
Qed.

(** The entry of the throttle for the channel. *)
Definition too_fast (s : jstate) (u : cid) (ch : ptr) : Prop :=
  exists l1 e l2, throttle s u = l1 ++ e :: l2 /\
    Forall (fun e => strcasecmp_eq (jf_name e) (name_of s ch) = false) l1 /\ strcasecmp_eq (jf_name e) (name_of s ch) = true /\
    v_now V - jf_firstjoin e < v_join_period V u /\ v_join_limit V u <= jf_numjoins e.

(** The restriction that a module stands for. *)
Definition restricts (s : jstate) (a : aview) (u : cid) (ch : ptr) (key : option cstring) (h : can_join_hook) : Prop :=
  match h with
  | HookInviteonly => mode_set V s ch 105 = true /\ ~ invited s u ch /\ ~ invex_user s u ch
  | HookKey => exists k, x_params (ext s ch) !! 107 = Some k /\ k <> [] /\ key <> Some k
  | HookLimit =>
      exists p, x_params (ext s ch) !! 108 = Some p /\ c_atoi p <> 0 /\ c_atoi p <= Z.of_nat (size (on_chan (a_acc a) ch))
  | HookRegonly => mode_set V s ch 82 = true /\ BIsLoggedIn (v_client V u) = false
  | HookSecureonly =>
      mode_set V s ch 122 = true /\ v_umode_secure V u = false /\
      ~ (v_perm V u (Some (name_of s ch)) (str "channel:override:secureonly") = true /\ invited s u ch)
  | HookOperonly => mode_set V s ch 79 = true /\ v_perm V u (Some (name_of s ch)) (str "channel:operonly:join") = false
  | HookJointhrottle =>
      v_perm V u (Some (name_of s ch)) (str "immune:join-flood") = false /\ is_my_user V u = true /\ too_fast s u ch
  | HookRcmd =>
      on_chan (a_acc a) ch = ∅ /\ has_channel_mode V s ch 80 = false /\ is_my_user V u = true /\ v_oper V u = false /\
      v_uline V u = false /\ v_no_create V u (name_of s ch) = true
  end.

Definition refusal (h : can_join_hook) : Z :=
  match h with
  | HookInviteonly => ERR_INVITEONLYCHAN
  | HookKey => ERR_BADCHANNELKEY
  | HookLimit => ERR_CHANNELISFULL
  | HookRegonly => ERR_NEEDREGGEDNICK
  | HookSecureonly => ERR_SECUREONLYCHAN
  | HookOperonly => ERR_OPERONLY
  | HookJointhrottle => ERR_TOOMANYJOINS
  | HookRcmd => ERR_CANNOTDOCOMMAND
  end.

Lemma throttled_spec s u ch : isjthrottled V s u ch = true <-> is_my_user V u = true /\ too_fast s u ch.
Proof.
  unfold isjthrottled, flood_entry, too_fast. rewrite andb_true_iff. apply and_iff_compat_l.
  induction (throttle s u) as [|e l IH]; simpl.
  - split; [done|]. intros (l1 & e & l2 & H & _). by destruct l1.
  - destruct (strcasecmp_eq (jf_name e) (name_of s ch)) eqn:E.
    + rewrite andb_true_iff, Z.ltb_lt, Z.leb_le. split.
      * intros [H1 H2]. exists [], e, l. split_and!; try done.
      * intros ([|e' l1] & x & l2 & [= -> ->] & Hl & Hx & H1 & H2); [done|]. apply Forall_cons in Hl as [Hl _]. congruence.
    + rewrite IH. split.
      * intros (l1 & x & l2 & -> & Hl & H). exists (e :: l1), x, l2. split; [done|]. split; [by constructor|done].
      * intros ([|e' l1] & x & l2 & [= -> ->] & Hl & Hx & H); [congruence|]. apply Forall_cons in Hl as [_ Hl]. eauto 10.
Qed.

Lemma if_refusal (b : bool) (P : Prop) (n : Z) :
  (b = true <-> P) -> n <> 0 -> exists i, Some (if b then n else 0) = Some i /\ (i <> 0 -> i = n) /\ (i <> 0 <-> P).
Proof. intros Hb Hn. eexists. split; [done|]. destruct b; naive_solver. Qed.

(** One hook decides its restriction. *)
Lemma hook_spec ex s a u ch key h :
  jinv V ex s a -> has_chan a ch ->
  exists i, run_can_join V s u ch key h = Some i /\ (i <> 0 -> i = refusal h) /\ (i <> 0 <-> restricts s a u ch key h).
Proof using HV.
  intros J Hc. pose proof (is_invited_spec s u ch) as Hi. pose proof J as (R & _).
  pose proof (users_size V s a ch R Hc) as Hus. pose proof (empty_size (a_acc a) ch) as Hes.
  destruct h; cbn [run_can_join restricts refusal];
    unfold inviteonly_can_join, key_can_join, limit_can_join, regonly_check, secureonly_check_join, operonly_can_join,
      jointhrottle_can_join, rcmd_can_join.
  - destruct (mode_set V s ch 105); [|exists 0; naive_solver]. destruct (is_invited V s u ch); [exists 0; naive_solver|].
    destruct (invex_spec ex s a u ch J) as (b & -> & Hb). cbn [mbind option_bind]. exists (if b then 0 else ERR_INVITEONLYCHAN).
    unfold ERR_INVITEONLYCHAN. destruct b; naive_solver.
  - unfold chan_key. destruct (x_params (ext s ch) !! 107) as [k|]; simpl; [|exists 0; naive_solver].
    exists (if bool_decide (k = []) || bool_decide (key = Some k) then 0 else ERR_BADCHANNELKEY). split; [done|].
    unfold ERR_BADCHANNELKEY. do 2 case_bool_decide; simpl; naive_solver.
  - apply if_refusal; [|done]. unfold chan_limit. rewrite andb_true_iff, negb_true_iff, Z.eqb_neq, Z.leb_le, Hus.
    destruct (x_params (ext s ch) !! 108) as [p|]; naive_solver.
  - apply if_refusal; [|done]. by rewrite andb_true_iff, negb_true_iff.
  - destruct (mode_set V s ch 122); [|exists 0; naive_solver]. destruct (v_umode_secure V u); [exists 0; naive_solver|]. simpl.
    eexists. split; [done|]. rewrite <- is_invited_spec.
    destruct (v_perm V u _ _), (is_invited V s u ch); unfold ERR_SECUREONLYCHAN; naive_solver.
  - apply if_refusal; [|done]. by rewrite andb_true_iff, negb_true_iff.
  - apply if_refusal; [|done]. by rewrite andb_true_iff, negb_true_iff, throttled_spec.
  - rewrite Hus. destruct (Z.eqb_spec (Z.of_nat (size (on_chan (a_acc a) ch))) 0) as [Hz|Hz]; simpl.
    + assert (on_chan (a_acc a) ch = ∅) as He by (apply Hes; lia). destruct (has_channel_mode V s ch 80); [exists 0; naive_solver|].
      apply if_refusal; [|done]. unfold rcmd_block_join.
      destruct (is_my_user V u), (v_oper V u), (v_uline V u); simpl; naive_solver.
    + exists 0. split; [done|]. split; [done|]. split; [done|]. intros (He & _). apply Hes in He. lia.
Qed.

(** The first hook that refuses. *)
Definition hooks_say (s : jstate) (a : aview) (u : cid) (ch : ptr) (key : option cstring) (l : list can_join_hook) (i : Z) : Prop :=
  (i = 0 /\ Forall (fun h => ~ restricts s a u ch key h) l) \/
  (i <> 0 /\ exists l1 h l2, l = l1 ++ h :: l2 /\ Forall (fun h => ~ restricts s a u ch key h) l1 /\ restricts s a u ch key h /\ i = refusal h).

Lemma hooks_spec ex s a u ch key l :
  jinv V ex s a -> has_chan a ch -> exists i, run_hooks V s u ch key l = Some i /\ hooks_say s a u ch key l i.
Proof using HV.
  intros J Hc. induction l as [|h l (j & IH & Hj)]; simpl; [exists 0; split; [done|left; by split]|].
  destruct (hook_spec ex s a u ch key h J Hc) as (i & -> & Hi & Hr). cbn [mbind option_bind]. destruct (Z.eqb_spec i 0) as [->|Hz].
  - exists j. split; [done|]. assert (~ restricts s a u ch key h) as Hno by (intros H%Hr; done).
    destruct Hj as [[-> Hl]|(Hj & l1 & h' & l2 & -> & Hl & Hh & ->)]; [left; split; [done|by constructor]|].
    right. split; [done|]. exists (h :: l1), h', l2. split_and!; [done|by constructor|done|done].
  - exists i. split; [done|]. right. split; [done|]. exists [], h, l. split_and!; [done|constructor|by apply Hr|by apply Hi].
Qed.

(** Who may join: an invitation, which +O does not accept from everybody, or no
    restriction and no ban. *)
Definition admits (s : jstate) (a : aview) (u : cid) (ch : ptr) (key : option cstring) : Prop :=
  (invited s u ch /\ ~ (mode_set V s ch 79 = true /\ v_perm V u None (str "channel:operonly:ban") = false)) \/
  (Forall (fun h => ~ restricts s a u ch key h) (v_hooks V) /\ ~ bans_user s u ch).

(** What the refusal says. *)
Definition refuses_with (s : jstate) (a : aview) (u : cid) (ch : ptr) (key : option cstring) (i : Z) : Prop :=
  (exists l1 h l2, v_hooks V = l1 ++ h :: l2 /\ Forall (fun h => ~ restricts s a u ch key h) l1 /\ restricts s a u ch key h /\ i = refusal h) \/
  (Forall (fun h => ~ restricts s a u ch key h) (v_hooks V) /\ bans_user s u ch /\ i = ERR_BANNEDFROMCHAN).

Lemma can_join_spec ex s a u ch key :
  jinv V ex s a -> has_chan a ch ->
  exists i, can_join V s u ch key = Some i /\ (i = 0 <-> admits s a u ch key) /\ (i <> 0 -> refuses_with s a u ch key i).
Proof using HV.
  intros J Hc. unfold can_join.
  assert (Hadm : admits s a u ch key <-> (is_invited V s u ch = true /\ ~ operonly_invite_bypass V s u ch = true) \/
    (Forall (fun h => ~ restricts s a u ch key h) (v_hooks V) /\ ~ bans_user s u ch)).
  { unfold admits. rewrite <- is_invited_spec. unfold operonly_invite_bypass. by rewrite andb_true_iff, negb_true_iff. }
  setoid_rewrite Hadm. clear Hadm. unfold refuses_with.
  destruct (is_invited V s u ch && negb (operonly_invite_bypass V s u ch)) eqn:E.
  { exists 0. apply andb_true_iff in E as [E1 E2%negb_true_iff]. rewrite E1, E2. naive_solver. }
  assert (~ (is_invited V s u ch = true /\ ~ operonly_invite_bypass V s u ch = true)) as Hno.
  { destruct (is_invited V s u ch), (operonly_invite_bypass V s u ch); simpl in *; naive_solver. }
  destruct (hooks_spec ex s a u ch key (v_hooks V) J Hc) as (i & -> & Hi). cbn [mbind option_bind].
  destruct Hi as [[-> Hl]|(Hz & Hi)].
  - simpl. destruct (banned_spec ex s a u ch J) as (b & -> & Hb). cbn [mbind option_bind]. eexists. split; [done|].
    unfold ERR_BANNEDFROMCHAN. destruct b; naive_solver.
  - rewrite (proj2 (Z.eqb_neq i 0) Hz). simpl. exists i. split; [done|]. split; [|by left]. split; [done|].
    intros [?|[Hl _]]; [done|]. destruct Hi as (l1 & h & l2 & Hv & _ & Hh & _). rewrite Hv, Forall_forall in Hl.
    exfalso. apply (Hl h); [|done]. apply elem_of_app. right. by left.
Qed.

(** ** Texts *)

Lemma cstr_take_drop n s : cstr s -> cstr (take n s) /\ cstr (drop n s).
Proof. intros H. split; [by apply Forall_take|by apply Forall_drop]. Qed.

Lemma strlcpy_cstr dst s n : cstr dst -> cstr s -> cstr (strlcpy dst s n).1.
Proof. intros Hd Hs. unfold strlcpy. repeat case_match; simpl; [done|by apply cstr_take_drop..]. Qed.

Lemma strlcat_cstr dst s n : cstr dst -> cstr s -> cstr (strlcat dst s n).1.
Proof.
  intros Hd Hs. unfold strlcat. repeat case_match; simpl; try done; apply Forall_app; (split; [done|by apply cstr_take_drop]).
Qed.

Lemma split_on_cstr fs s : cstr s -> Forall cstr (split_on fs s).
Proof.
  induction s as [|c s IH]; simpl; [by repeat constructor|]. intros [Hc Hs]%Forall_cons. specialize (IH Hs).
  destruct (is_sep fs c); [by constructor; [constructor|]|].
  destruct (split_on fs s) as [|w ws]; [constructor; [apply cstr_cons; by split; [|constructor]|constructor]|]. apply Forall_cons in IH as [H1 H2]. constructor; [by constructor|done].
Qed.

Lemma tokens_cstr s fs : cstr s -> Forall (fun w => cstr w /\ w <> []) (strtoken_all s fs).
Proof.
  intros Hs. unfold strtoken_all. rewrite (token_loop_skip fs _ _ _ s) by (done || lia).
  apply Forall_forall. intros w [Hn Hw]%list_elem_of_filter. split.
  - pose proof (split_on_cstr fs s Hs) as H. rewrite Forall_forall in H. by apply H.
  - by destruct w.
Qed.

Lemma after_prefix_cstr p s r : after_prefix p s = Some r -> cstr s -> cstr r.
Proof. unfold after_prefix. case_match; [|done]. intros [= <-] Hs. by apply cstr_take_drop. Qed.

Lemma forward_target_cstr b c m : forward_target b = Some (c, m) -> cstr b -> cstr c /\ cstr m.
Proof.
  unfold forward_target, forward_text. intros H Hb.
  assert (Hfwd : forall s r, match after_prefix (str "~f:") s with Some r => Some r | None => after_prefix (str "~forward:") s end = Some r ->
            cstr s -> cstr r).
  { intros s r. destruct (after_prefix (str "~f:") s) as [x|] eqn:E; [intros [= <-]; by apply (after_prefix_cstr _ _ _ E)|].
    apply after_prefix_cstr. }
  set (txt := match match after_prefix (str "~f:") b with Some _ => _ | None => _ end with Some _ => _ | None => _ end) in H.
  assert (Htxt : forall r, txt = Some r -> cstr r).
  { intros r. unfold txt. destruct (match after_prefix (str "~f:") b with Some r => Some r | None => _ end) as [x|] eqn:E.
    { intros [= <-]. by apply (Hfwd b). }
    destruct (match after_prefix (str "~t:") b with Some r => Some r | None => after_prefix (str "~time:") b end) as [x|] eqn:E1; [|done].
    assert (cstr x) as Hx.
    { revert E1. destruct (after_prefix (str "~t:") b) as [y|] eqn:E2; [intros [= <-]; by apply (after_prefix_cstr _ _ _ E2)|].
      intros E3. by apply (after_prefix_cstr _ _ _ E3). }
    cbn [mbind option_bind]. destruct (strchr ch_colon x) as [[y z]|] eqn:E2; [|done]. cbn [mbind option_bind].
    intros Hr. apply (Hfwd z); [done|]. by apply (strchr_cstr _ _ _ _ E2). }
  destruct txt as [r|]; [|done]. cbn [mbind option_bind] in H.
  destruct (strchr _ _) as [[y z]|] eqn:E; [|done]. cbn [mbind option_bind] in H. case_bool_decide; [done|]. injection H as <- <-.
  apply (strchr_cstr _ _ _ _ E). apply strlcpy_cstr; [constructor|by apply Htxt].
Qed.

(** ** Forwarding *)

Lemma forward_loop_total ex s a u ch l :
  jinv V ex s a -> Forall (fun x => cstr (banstr x)) l ->
  exists r, forward_loop V s u ch l = Some r /\ forall x, r = Some x -> cstr x /\ l <> [].
Proof using HV.
  intros J Hl. pose proof (bans_env_ok _ _ _ J) as HE. pose proof J as (R & _ & _ & X & _).
  pose proof (inherit_decides _ _ HE (ve_extbans V HV)) as Hinh. pose proof (ban_client_good s a u R) as Hc.
  induction Hl as [|ban l Hb Hl (r & IH & Hr)]; cbn [forward_loop]; [by exists None|].
  destruct (forward_target (banstr ban)) as [[c m]|] eqn:E; [|exists r; split; [done|]; intros x ->; by destruct (Hr x eq_refl)].
  destruct (forward_target_cstr _ _ _ E Hb) as [Hcc Hm]. unfold ban_check_mask.
  destruct (ban_check_decides _ HE _ (ve_extbans V HV) _ _ Hinh (S (length m)) (join_context V s u ch EXBTYPE_BAN) None m eq_refl Hc Hm
    ltac:(lia)) as (b & st & -> & _). cbn [mbind option_bind fst]. destruct b.
  - destruct (scan_bans_decides _ _ HE (ve_extbans V HV) _ _ Hinh (join_context V s u ch EXBTYPE_EXCEPT) None (x_exlist (ext s ch))
      eq_refl Hc) as (e & msg & -> & _).
    { destruct (X ch) as [[_ [H _]%Forall_app]%Forall_app _]. done. }
    cbn [mbind option_bind fst]. eexists. split; [done|]. intros x Hx. destruct e; [done|]. by injection Hx as <-.
  - exists r. split; [done|]. intros x ->. by destruct (Hr x eq_refl).
Qed.

(** A forward is possible only from a channel on which something is set. *)
Lemma link_total ex s a u ch key :
  jinv V ex s a -> has_chan a ch ->
  exists r, link_target V s u ch key = Some r /\ forall x, r = Some x -> cstr x /\ ext s ch <> no_ext.
Proof using HV.
  intros J Hc. pose proof J as (R & _ & _ & X & _). unfold link_target. destruct (_ || _); [by exists None|].
  set (f := if is_invited V s u ch then _ else _).
  assert (exists r, f = Some r /\ forall x, r = Some x -> cstr x /\ ext s ch <> no_ext) as (r & -> & Hr).
  { unfold f. destruct (is_invited V s u ch); [by exists None|].
    destruct (forward_loop_total ex s a u ch (x_banlist (ext s ch)) J) as (r & Er & Hr).
    { by destruct (X ch) as [[H _]%Forall_app _]. }
    exists r. split; [done|]. intros x Hx. destruct (Hr x Hx) as [? Hne]. split; [done|]. intros E. by rewrite E in Hne. }
  cbn [mbind option_bind]. destruct r as [x|]; [by exists (Some x)|].
  destruct (x_params (ext s ch) !! 76) as [linked|] eqn:E; [|by exists None]. destruct (negb _); [by exists None|].
  destruct (can_join_spec ex s a u ch key J Hc) as (i & -> & _). cbn [mbind option_bind]. eexists. split; [done|].
  intros x. destruct (_ && _); [|done]. intros [= <-]. split; [by apply (proj2 (X ch) 76)|]. intros He. by rewrite He in E.
Qed.

(** ** The loop over the channels *)

(** What every part of [do_join] gives: the invariant, and the rest left alone. *)
Definition goes (u : cid) (s : jstate) (a : aview) (s' : jstate) : Prop := exists a', jinv V None s' a' /\ kept V u s a s' a'.

(** A nested call, with [bouncedtimes] at [b]. *)
Definition rec_ok (rec : jstate -> cstring -> option jstate) (u : cid) (b : Z) : Prop :=
  forall s a p, jinv V None s a -> cstr p -> j_bounced s = b -> exists s', rec s p = Some s' /\ goes u s a s'.

(** States that differ in what was sent. *)
Definition quiet (s s' : jstate) : Prop :=
  j_c s' = j_c s /\ j_ext s' = j_ext s /\ j_cinv s' = j_cinv s /\ j_uinv s' = j_uinv s /\ j_bounced s' = j_bounced s.

Lemma quiet_say s m : quiet s (say s m).
Proof. done. Qed.

Lemma quiet_trans s1 s2 s3 : quiet s1 s2 -> quiet s2 s3 -> quiet s1 s3.
Proof. unfold quiet. intros (?&?&?&?&?) (?&?&?&?&?). split_and!; congruence. Qed.

Lemma quiet_jinv ex s s' a : quiet s s' -> jinv V ex s a -> jinv V ex s' a.
Proof.
  destruct s, s'. intros (?&?&?&?&?). simpl in *. subst. done.
Qed.

Lemma quiet_goes u s s' a : quiet s s' -> jinv V None s a -> goes u s a s'.
Proof. intros Hq J. exists a. split; [by eapply quiet_jinv|]. apply kept_quiet; apply Hq. Qed.

Lemma goes_trans u s1 a1 s2 s3 :
  goes u s1 a1 s2 -> (forall a2, jinv V None s2 a2 -> goes u s2 a2 s3) -> goes u s1 a1 s3.
Proof. intros (a2 & J2 & K2) H. destruct (H a2 J2) as (a3 & J3 & K3). exists a3. split; [done|]. by eapply kept_trans. Qed.

Lemma goes_say u s a s' m : goes u s a s' -> goes u s a (say s' m).
Proof. intros H. eapply goes_trans; [exact H|]. intros a2 J2. by apply quiet_goes. Qed.

Lemma clean_request_spec u names : forall s i n jbuf,
  Forall (fun w => cstr w /\ w <> []) names -> cstr jbuf ->
  exists s' jb, clean_request V s u i n jbuf names = (s', jb) /\ quiet s s' /\ cstr jb.
Proof.
  induction names as [|w names IH]; intros s i n jbuf Hn Hj; [by exists s, jbuf|].
  apply Forall_cons in Hn as [[Hw _] Hn]. cbn [clean_request].
  assert (Hstep : forall s1 jb1, quiet s s1 -> cstr jb1 ->
    exists s' jb, clean_request V s1 u (i + 1) (n + 1) jb1 names = (s', jb) /\ quiet s s' /\ cstr jb).
  { intros s1 jb1 Hq Hjb. destruct (IH s1 (i + 1) (n + 1) jb1 Hn Hjb) as (s' & jb & E & Hq' & Hjb').
    exists s', jb. split_and!; [done|by eapply quiet_trans|done]. }
  assert (cstr (str ",") /\ cstr (str "0")) as [Hcomma Hzero] by (split; repeat constructor; done).
  destruct (_ && _); [by eexists _, _|]. destruct (is_zero w).
  { destruct (_ && _); apply Hstep; (done || by apply strlcpy_cstr). }
  destruct (_ && _).
  { apply Hstep; [|done]. by destruct (_ && _). }
  destruct (negb _); [apply Hstep; [by destruct (is_my_user V u)|done]|].
  apply Hstep; [done|]. apply strlcat_cstr; [|done]. case_bool_decide; [done|by apply strlcat_cstr].
Qed.

Lemma find_allowed_total u name :
  cstr name -> exists d, find_channel_allowed V u name = Some d /\ forall x r, d = Some x -> dc_redirect x = Some r -> cstr r.
Proof using HV.
  intros Hn.
  assert (Hb : forall mask k g, cstr mask -> exists b, block_for V u name mask k g = Some b).
  { intros mask k g Hm. unfold block_for. destruct (match_esc_total mask name Hm Hn) as [b ->]. cbn [mbind option_bind]. by eexists. }
  assert (Hd : exists d, find_deny V u name (v_deny V) = Some d /\ forall x r, d = Some x -> dc_redirect x = Some r -> cstr r).
  { pose proof (ve_deny V HV) as H. induction H as [|d l [H1 H2] Hl (r & IH & Hr)]; cbn [find_deny]; [by exists None|].
    destruct (Hb (dc_channel d) (dc_class d) (dc_match d) H1) as [b ->]. cbn [mbind option_bind].
    destruct b; [exists (Some d)|exists r]; split; try done. intros x r0 [= <-]. apply H2. }
  assert (Ha : exists b, find_allow V u name (v_allow V) = Some b).
  { pose proof (ve_allow V HV) as H. induction H as [|d l H1 Hl [r IH]]; cbn [find_allow]; [by eexists|].
    destruct (Hb (ac_channel d) (ac_class d) (ac_match d) H1) as [b ->]. cbn [mbind option_bind]. destruct b; eauto. }
  unfold find_channel_allowed. destruct Hd as (d & -> & Hd), Ha as [b ->]. cbn [mbind option_bind].
  destruct d as [d|]; [|by exists None]. cbn [mbind option_bind]. eexists. split; [done|]. destruct b; [done|exact Hd].
Qed.

(** The user stays below the limit. *)
Definition below_limit (u : cid) (a : aview) : Prop :=
  v_perm V u None (str "immune:maxchannelsperuser") = false -> count a u < v_maxchannels V u.

Lemma server_checks_spec rec u s a name :
  jinv V None s a -> cstr name -> rec_ok rec u (j_bounced s) ->
  exists r, server_checks V rec s u name = Some r /\
    match r with
    | inl (Next s') | inl (Stop s') => goes u s a s'
    | inr s' => s' = s /\ below_limit u a
    end.
Proof using HV.
  intros J Hn Hrec. pose proof J as (R & _). unfold server_checks. rewrite (joined_count V _ a u R).
  destruct (negb _ && _) eqn:E.
  { eexists. split; [done|]. simpl. by apply quiet_goes. }
  assert (Hlim : below_limit u a).
  { intros Hi. rewrite Hi in E. simpl in E. apply Z.leb_gt in E. lia. }
  clear E. destruct (find_allowed_total u name Hn) as (d & Hd & Hr).
  set (d' := if v_perm V u None _ then _ else _).
  assert (exists d2, d' = Some d2 /\ forall x r, d2 = Some x -> dc_redirect x = Some r -> cstr r) as (d2 & -> & Hr2).
  { unfold d'. destruct (v_perm V u None _); [by exists None|by exists d]. }
  cbn [mbind option_bind]. destruct d2 as [x|].
  - set (s1 := if bool_decide _ then _ else _). assert (quiet s s1) as Hq by (unfold s1; by case_bool_decide).
    assert (J1 : jinv V None s1 a) by (by eapply quiet_jinv).
    assert (exists s2, match dc_redirect x with Some r => rec (say s1 (JNotice r)) r | None => Some s1 end = Some s2 /\ goes u s a s2)
      as (s2 & -> & G2).
    { destruct (dc_redirect x) as [r|] eqn:Er; [|exists s1; split; [done|by apply quiet_goes]].
      destruct (Hrec (say s1 (JNotice r)) a r) as (s2 & E2 & G2); [done|by eapply Hr2|apply Hq|].
      exists s2. split; [done|]. destruct G2 as (a2 & J2 & K2). exists a2. split; [done|].
      eapply kept_trans; [|exact K2]. apply kept_quiet; apply Hq. }
    cbn [mbind option_bind]. eexists. split; [done|]. simpl. case_bool_decide; [by apply goes_say|done].
  - destruct (_ && _); [eexists; split; [done|]; simpl; by apply quiet_goes|].
    destruct (_ && _); [eexists; split; [done|]; simpl; by apply quiet_goes|]. by eexists.
Qed.

(** The channel is still there after a nested call. *)
Lemma survives u s a s' a' ch :
  jinv V None s a -> has_chan a ch -> a_acc a !! (ch, u) = None -> jinv V None s' a' -> kept V u s a s' a' -> has_chan a' ch.
Proof.
  intros (R & T & _) Hc Hno (R' & _) K. destruct (decide (on_chan (a_acc a) ch = ∅)) as [He|He].
  - destruct (T ch Hc He) as [?|Hp]; [done|]. by apply (k_perm _ _ _ _ _ _ K ch).
  - destruct (on_chan_elem _ _ He) as [v Hv]. assert (v <> u) by (intros ->; rewrite Hno in Hv; by destruct Hv).
    eapply (acc_chan V (j_c s') a' ch v); [done|]. by rewrite (k_others _ _ _ _ _ _ K).
Qed.

Lemma channel_checks_spec rec u s a ch name key :
  jinv V (Some ch) s a -> has_chan a ch -> a_acc a !! (ch, u) = None -> (jinv V None s a \/ ext s ch = no_ext) ->
  rec_ok rec u (j_bounced s) ->
  exists s' ok, channel_checks V rec s u ch name key = Some (s', ok) /\
    if ok then s' = s else exists a', jinv V (Some ch) s' a' /\ kept V u s a s' a' /\ has_chan a' ch.
Proof using HV.
  intros J Hc Hno Hset Hrec. unfold channel_checks.
  assert (Hq : forall m, exists a', jinv V (Some ch) (say s m) a' /\ kept V u s a (say s m) a' /\ has_chan a' ch).
  { intros m. exists a. split_and!; [exact J|by apply kept_quiet|done]. }
  destruct (link_total _ s a u ch key J Hc) as (f & -> & Hf). cbn [mbind option_bind]. destruct f as [linked|].
  - destruct (Hf linked eq_refl) as [Hl Hne]. destruct Hset as [J0|?]; [|done].
    destruct (Hrec (say s (JLink (name_of s ch) linked)) a (strlcpy [] linked (CHANNELLEN + 1)).1) as (s' & -> & a' & J' & K');
      [done|apply strlcpy_cstr; [constructor|done]|done|].
    cbn [mbind option_bind]. exists s', false. split; [done|]. exists a'.
    assert (K : kept V u s a s' a') by (eapply kept_trans; [apply (kept_quiet V u s a (say s (JLink (name_of s ch) linked))); done|exact K']).
    split_and!; [by apply jinv_weaken|exact K|exact (survives u s a s' a' ch J0 Hc Hno J' K)].
  - destruct (secureonly_pre_local_join V s u ch); [eexists _, false; split; [done|apply Hq]|].
    destruct (can_join_spec _ s a u ch key J Hc) as (i & -> & _). cbn [mbind option_bind].
    destruct (i =? 0); [by exists s, true|eexists _, false; split; [done|apply Hq]].
Qed.

Lemma count_join a a' u ch :
  a_acc a !! (ch, u) = None -> is_Some (a_acc a' !! (ch, u)) -> (forall k, k <> (ch, u) -> a_acc a' !! k = a_acc a !! k) ->
  count a' u = count a u + 1.
Proof.
  intros Hno Hin Hk. rewrite (count_ext (AView (a_chans a) (<[(ch, u) := ([], false)]> (a_acc a))) a' u).
  - unfold count, of_user. simpl. rewrite map_filter_insert_True by done.
    rewrite map_size_insert_None by (apply map_lookup_filter_None; by left). lia.
  - intros x. simpl. rewrite lookup_insert_is_Some'. destruct (decide ((x, u) = (ch, u))) as [[= ->]|Hne]; [naive_solver|].
    rewrite Hk by done. naive_solver.
Qed.

Lemma join_goes u s a s1 a1 ch modes :
  kept V u s a s1 a1 -> count a1 u = count a u -> (is_local V u = true -> below_limit u a) -> has_user V u = true ->
  jinv V (Some ch) s1 a1 -> has_chan a1 ch -> a_acc a1 !! (ch, u) = None ->
  exists s' a', join_channel V s1 ch u modes = Some s' /\ jinv V None s' a' /\ kept V u s a s' a' /\
    (forall k, k <> (ch, u) -> a_acc a' !! k = a_acc a1 !! k) /\ fst <$> a_acc a' !! (ch, u) = Some (all_modes (modes_table V) [] modes).
Proof using HV.
  intros K Hcnt Hlim Hu J Hc Hno.
  destruct (join_step V HV s1 a1 ch u modes J Hc Hno Hu) as (s' & a' & E & J' & Ho & Hm & Hp & Hb).
  exists s', a'. split; [done|]. split; [done|]. split; [|done]. destruct K as [K1 K2 K3 K4]. split.
  - intros x v Hv. rewrite Ho by congruence. by apply K1.
  - intros x H1 H2. destruct (K2 x H1 H2). by apply Hp.
  - intros H1 H2. rewrite (count_join a1 a' u ch Hno), Hcnt by (done || by apply (fmap_is_Some fst); rewrite Hm). specialize (Hlim H1 H2). lia.
  - congruence.
Qed.

Lemma join_one_spec rec u s a name key :
  jinv V None s a -> cstr name -> name <> [] -> has_user V u = true -> rec_ok rec u (j_bounced s) ->
  exists r, join_one V rec s u name key = Some r /\ match r with Next s' | Stop s' => goes u s a s' end.
Proof using HV.
  intros J Hn Hne Hu Hrec. pose proof J as (R & _). unfold join_one. destruct (is_zero name).
  { destruct (part_all_step V HV (length (uch (j_c s) u)) s a u J) as (s' & a' & -> & J' & K' & _).
    { destruct (rp_joined _ _ _ _ _ (jrel_represents V _ _ R) u) as [H1 H2]. unfold count. lia. }
    cbn [mbind option_bind]. eexists. split; [done|]. by exists a'. }
  set (modes := if _ && _ then v_level_on_join V else []).
  assert (exists r, (if is_local V u then server_checks V rec s u name else Some (inr s)) = Some r /\
    match r with inl (Next s') | inl (Stop s') => goes u s a s' | inr s' => s' = s /\ (is_local V u = true -> below_limit u a) end)
    as (r & -> & Hr).
  { destruct (is_local V u); [|by exists (inr s)]. destruct (server_checks_spec rec u s a name J Hn Hrec) as (r & E & Hr).
    exists r. split; [done|]. destruct r as [[]|]; naive_solver. }
  cbn [mbind option_bind]. destruct r as [[s'|s']|s']; [by exists (Next s')|by exists (Stop s')|]. destruct Hr as [-> Hlim].
  destruct (make_step V u s a name J Hn Hne) as (ch & c & a1 & -> & J1 & Hc1 & K1 & Ha1 & Hset').
  assert (Hcnt : count a1 u = count a u) by (unfold count; by rewrite Ha1).
  assert (Hset : jinv V None (set_c s c) a1 \/ ext (set_c s c) ch = no_ext) by (destruct Hset' as [(_ & _ & _ & ?)|(_ & _ & ?)]; auto).
  set (s1 := set_c s c) in *. destruct (is_member s1 u ch) eqn:Em.
  { eexists. split; [done|]. exists a1. split; [|done]. apply (jinv_filled V ch); [done|].
    apply (on_chan_nonempty _ ch u). apply (member_acc V s1 a1 u ch); [apply J1|done]. }
  assert (Hno : a_acc a1 !! (ch, u) = None).
  { destruct (a_acc a1 !! (ch, u)) eqn:E; [|done].
    assert (is_member s1 u ch = true) as Hm; [|congruence]. apply (member_acc V s1 a1 u ch); [apply J1|by rewrite E]. }
  assert (exists s2 ok, (if is_local V u then channel_checks V rec s1 u ch name key else Some (s1, true)) = Some (s2, ok) /\
    if ok : bool then s2 = s1 else exists a', jinv V (Some ch) s2 a' /\ kept V u s1 a1 s2 a' /\ has_chan a' ch)
    as (s2 & ok & -> & Hok).
  { destruct (is_local V u); [|by exists s1, true]. by apply (channel_checks_spec rec u s1 a1). }
  cbn [mbind option_bind fst snd]. destruct ok.
  - subst s2. destruct (join_goes u s a s1 a1 ch modes K1 Hcnt Hlim Hu J1 Hc1 Hno) as (s3 & a3 & -> & J3 & K3 & _).
    cbn [mbind option_bind]. exists (Next s3). split; [done|]. by exists a3.
  - destruct Hok as (a2 & J2 & K2 & Hc2). destruct (drop_step V u s2 a2 ch J2 Hc2) as (s3 & a3 & -> & J3 & K3 & _).
    cbn [mbind option_bind]. exists (Next s3). split; [done|]. exists a3. split; [done|].
    eapply kept_trans; [exact K1|]. by eapply kept_trans.
Qed.

Lemma join_loop_spec rec u names : forall s a keys,
  jinv V None s a -> Forall (fun w => cstr w /\ w <> []) names -> has_user V u = true -> rec_ok rec u (j_bounced s) ->
  exists s', join_loop V rec s u names keys = Some s' /\ goes u s a s'.
Proof using HV.
  induction names as [|w names IH]; intros s a keys J Hn Hu Hrec; cbn [join_loop].
  { exists s. split; [done|]. by apply quiet_goes. }
  apply Forall_cons in Hn as [[Hw Hne] Hn].
  destruct (join_one_spec rec u s a w (head keys) J Hw Hne Hu Hrec) as (r & -> & Hr). cbn [mbind option_bind].
  destruct r as [s1|s1]; [|by exists s1]. destruct Hr as (a1 & J1 & K1).
  destruct (IH s1 a1 (tail keys) J1 Hn Hu) as (s2 & -> & a2 & J2 & K2).
  { rewrite (k_bounced _ _ _ _ _ _ K1). done. }
  exists s2. split; [done|]. exists a2. split; [done|by eapply kept_trans].
Qed.

(** Every nested call raises [bouncedtimes], so that the fuel is enough. *)
Lemma do_join_spec u fuel : forall s a parv1 parv2,
  jinv V None s a -> (forall p, parv1 = Some p -> cstr p) -> has_user V u = true ->
  (0 < fuel)%nat -> MAXBOUNCE + 1 <= Z.of_nat fuel + j_bounced s ->
  exists s', do_join V fuel s u parv1 parv2 = Some s' /\ goes u s a s'.
Proof using HV.
  induction fuel as [|fuel IH]; intros s a parv1 parv2 J H1 Hu Hpos Hf; [lia|]. cbn [do_join]. unfold do_join_body.
  destruct parv1 as [[|x p]|]; [eexists; split; [done|]; by apply quiet_goes| |eexists; split; [done|]; by apply quiet_goes].
  specialize (H1 _ eq_refl). set (p' := x :: p) in *. set (s1 := set_bounced s (j_bounced s + 1)).
  assert (J1 : jinv V None s1 a) by exact J.
  assert (exists s2, (if MAXBOUNCE <? j_bounced s1 then Some (say s1 (JNotice p'))
    else let '(s, jbuf) := clean_request V s1 u 0 0 [] (strtoken_all (strlcpy [] p' BUFSIZE).1 (str ",")) in
         join_loop V (fun s p => do_join V fuel s u (Some p) None) s u (strtoken_all jbuf (str ","))
           (match parv2 with Some k => strtoken_all (strlcpy [] k BUFSIZE).1 (str ",") | None => [] end)) = Some s2 /\ goes u s1 a s2)
    as (s2 & E & a2 & J2 & K2).
  { destruct (Z.ltb_spec MAXBOUNCE (j_bounced s1)) as [Hb|Hb]; [eexists; split; [done|]; by apply quiet_goes|].
    destruct (clean_request_spec u (strtoken_all (strlcpy [] p' BUFSIZE).1 (str ",")) s1 0 0 []) as (s2 & jb & -> & Hq & Hjb);
      [apply tokens_cstr, strlcpy_cstr; [constructor|done]|constructor|].
    destruct (join_loop_spec (fun s p => do_join V fuel s u (Some p) None) u (strtoken_all jb (str ",")) s2 a
      (match parv2 with Some k => strtoken_all (strlcpy [] k BUFSIZE).1 (str ",") | None => [] end)) as (s3 & -> & a3 & J3 & K3);
      [by eapply quiet_jinv|by apply tokens_cstr|done| |].
    - intros s0 a0 q J0 Hq0 Hb0. apply IH; [done|by intros ? [= <-]|done|..]; destruct Hq as (_ & _ & _ & _ & Hqb);
        simpl in Hb, Hb0, Hqb; unfold MAXBOUNCE in *; lia.
    - exists s3. split; [done|]. exists a3. split; [done|]. eapply kept_trans; [|exact K3]. apply kept_quiet; apply Hq. }
  cbn zeta. rewrite E. cbn [mbind option_bind]. eexists. split; [done|]. exists a2. split; [exact J2|].
  destruct K2 as [A B C D]. split; [exact A|exact B|exact C|]. simpl in *. lia.
Qed.

(** ** What the server decides *)

(** A deny channel or allow channel block is about this user and channel. *)
Definition block_applies (u : cid) (name mask : cstring) (class : option cstring) (group : option positive) : Prop :=
  match_esc mask name = Some true /\ (forall k, class = Some k -> v_class V u = k) /\ (forall g, group = Some g -> v_in_group V u g = true).

(** The first deny channel block, unless an allow channel block applies. *)
Definition denies (u : cid) (name : cstring) (d : deny_channel) : Prop :=
  (exists l1 l2, v_deny V = l1 ++ d :: l2 /\ Forall (fun d => ~ block_applies u name (dc_channel d) (dc_class d) (dc_match d)) l1 /\
     block_applies u name (dc_channel d) (dc_class d) (dc_match d)) /\
  Forall (fun a => ~ block_applies u name (ac_channel a) (ac_class a) (ac_match a)) (v_allow V).

Lemma block_for_spec u name mask k g : cstr mask -> cstr name -> exists b, block_for V u name mask k g = Some b /\ (b = true <-> block_applies u name mask k g).
Proof.
  intros Hm Hn. unfold block_for, block_applies. destruct (match_esc_total mask name Hm Hn) as [b ->]. cbn [mbind option_bind]. eexists. split; [done|].
  rewrite !andb_true_iff. destruct k as [k|], g as [g|]; rewrite ?bool_decide_eq_true; naive_solver.
Qed.

Lemma find_deny_spec u name l : cstr name -> Forall (fun d => cstr (dc_channel d)) l ->
  exists r, find_deny V u name l = Some r /\
    match r with
    | Some d => exists l1 l2, l = l1 ++ d :: l2 /\ Forall (fun d => ~ block_applies u name (dc_channel d) (dc_class d) (dc_match d)) l1 /\
                  block_applies u name (dc_channel d) (dc_class d) (dc_match d)
    | None => Forall (fun d => ~ block_applies u name (dc_channel d) (dc_class d) (dc_match d)) l
    end.
Proof.
  intros Hn. induction 1 as [|d l Hd _ (r & IH & Hr)]; cbn [find_deny]; [exists None; split; [done|constructor]|].
  destruct (block_for_spec u name (dc_channel d) (dc_class d) (dc_match d) Hd Hn) as (b & -> & Hb). cbn [mbind option_bind]. destruct b.
  - exists (Some d). split; [done|]. exists [], l. split; [done|]. split; [constructor|by apply Hb].
  - assert (Hno : ~ block_applies u name (dc_channel d) (dc_class d) (dc_match d)) by (intros H%Hb; done). exists r. split; [done|]. destruct r as [x|]; [|by constructor].
    destruct Hr as (l1 & l2 & -> & H1 & H2). exists (d :: l1), l2. split; [done|]. split; [by constructor|done].
Qed.

Lemma find_allow_spec u name l : cstr name -> Forall (fun a => cstr (ac_channel a)) l ->
  exists b, find_allow V u name l = Some b /\ (b = false <-> Forall (fun a => ~ block_applies u name (ac_channel a) (ac_class a) (ac_match a)) l).
Proof.
  intros Hn. induction 1 as [|d l Hd _ (r & IH & Hr)]; cbn [find_allow]; [exists false; by split|].
  destruct (block_for_spec u name (ac_channel d) (ac_class d) (ac_match d) Hd Hn) as (b & -> & Hb). cbn [mbind option_bind]. destruct b.
  - exists true. split; [done|]. split; [done|]. intros [H _]%Forall_cons. by destruct H; apply Hb.
  - exists r. split; [done|]. rewrite Forall_cons, Hr. split; [|tauto]. intros H. split; [by intros ?%Hb|done].
Qed.

Lemma first_applies u name l1 l2 l1' l2' (d d' : deny_channel) : let P d := block_applies u name (dc_channel d) (dc_class d) (dc_match d) in
  l1 ++ d :: l2 = l1' ++ d' :: l2' -> Forall (fun d => ~ P d) l1 -> Forall (fun d => ~ P d) l1' -> P d -> P d' -> d = d'.
Proof.
  intros P. revert l1'. induction l1 as [|x l1 IH]; intros [|y l1'] E H1 H1' Hd Hd'; simpl in E; injection E as Ex E; subst.
  - done.
  - apply Forall_cons in H1' as [H _]. done.
  - apply Forall_cons in H1 as [H _]. done.
  - apply Forall_cons in H1 as [_ H1], H1' as [_ H1']. by apply (IH l1').
Qed.

Lemma find_allowed_spec u name : cstr name -> exists r, find_channel_allowed V u name = Some r /\ forall d, r = Some d <-> denies u name d.
Proof using HV.
  intros Hn. unfold find_channel_allowed.
  destruct (find_deny_spec u name (v_deny V) Hn) as (r & -> & Hr); [eapply Forall_impl; [apply (ve_deny V HV)|]; by intros d [? _]|].
  cbn [mbind option_bind]. destruct r as [d|].
  - destruct (find_allow_spec u name (v_allow V) Hn (ve_allow V HV)) as (b & -> & Hb). cbn [mbind option_bind]. eexists. split; [done|]. intros d'. split.
    + destruct b; [done|]. intros [= <-]. split; [done|by apply Hb].
    + intros ((l1 & l2 & E & H1 & H2) & Ha). apply Hb in Ha as ->. f_equal. destruct Hr as (l1' & l2' & E' & H1' & H2'). rewrite E in E'. by apply (first_applies u name l1' l2' l1 l2).
  - eexists. split; [done|]. intros d. split; [done|]. intros ((l1 & l2 & E & _ & H2) & _). rewrite E in Hr. apply Forall_app in Hr as [_ [Hr _]%Forall_cons]. done.
Qed.

(** The channel of the spam filter. *)
Definition virus (s : jstate) (u : cid) (name : cstring) : Prop :=
  (exists v, v_viruschan V = Some v /\ strcasecmp_eq name v = true) /\ v_perm V u None (str "immune:server-ban:viruschan") = false /\
  v_vchanoverride V = false /\ (forall ch, find_chan V s name = Some ch -> ~ invited s u ch).

Definition immune (u : cid) : Prop := v_perm V u None (str "immune:server-ban:deny-channel") = true.

(** Nothing of the server stands in the way. *)
Record passes (s : jstate) (a : aview) (u : cid) (name : cstring) : Prop := {
  ps_limit : below_limit u a;
  ps_deny d : ~ (~ immune u /\ denies u name d);
  ps_qline : ~ (~ immune u /\ v_qline V u name = true);
  ps_virus : ~ virus s u name
}.

(** ** Forwards *)

Definition hits (s : jstate) (u : cid) (ch : ptr) (t : ExtbanType) (mask : cstring) : Prop :=
  entry_matches (bans_env V s) (v_extbans V) (inherits (bans_env V s) (v_extbans V)) (join_context V s u ch t) mask.

(** The first ~forward entry whose mask matches the user decides. *)
Definition bans_forward (s : jstate) (u : cid) (ch : ptr) (l : list Ban) (t : cstring) : Prop :=
  exists l1 b l2 mask, l = l1 ++ b :: l2 /\ forward_target (banstr b) = Some (t, mask) /\ hits s u ch EXBTYPE_BAN mask /\
    Forall (fun b => forall t m, forward_target (banstr b) = Some (t, m) -> ~ hits s u ch EXBTYPE_BAN m) l1 /\
    Forall (fun x => ~ hits s u ch EXBTYPE_EXCEPT (banstr x)) (x_exlist (ext s ch)).

Lemma bans_forward_skip s u ch b l t : (forall t m, forward_target (banstr b) = Some (t, m) -> ~ hits s u ch EXBTYPE_BAN m) ->
  bans_forward s u ch (b :: l) t <-> bans_forward s u ch l t.
Proof.
  intros Hb. unfold bans_forward. split.
  - intros ([|x l1] & y & l2 & mask & E & H1 & H2 & H3 & H4); simpl in E; injection E as Eb El; subst; [by destruct (Hb t mask)|].
    apply Forall_cons in H3 as [_ H3]. by exists l1, y, l2, mask.
  - intros (l1 & y & l2 & mask & -> & H1 & H2 & H3 & H4). exists (b :: l1), y, l2, mask. split; [done|]. split; [done|]. split; [done|]. split; [by constructor|done].
Qed.

Lemma forward_loop_spec ex s a u ch l : jinv V ex s a -> Forall (fun x => cstr (banstr x)) l ->
  exists r, forward_loop V s u ch l = Some r /\ forall t, r = Some t <-> bans_forward s u ch l t.
Proof using HV.
  intros J Hl. pose proof (bans_env_ok _ _ _ J) as HE. pose proof J as (R & _ & _ & X & _).
  pose proof (inherit_decides _ _ HE (ve_extbans V HV)) as Hinh. pose proof (ban_client_good s a u R) as Hc.
  induction Hl as [|ban l Hb Hl (r & IH & Hr)]; cbn [forward_loop]; [exists None; split; [done|]; intros t; split; [done|]; by intros ([] & ? & ? & ? & ? & _)|].
  destruct (forward_target (banstr ban)) as [[c m]|] eqn:E.
  2: { exists r. split; [done|]. intros t. rewrite bans_forward_skip; [done|]. intros t' m' H. congruence. }
  destruct (forward_target_cstr _ _ _ E Hb) as [Hcc Hm]. unfold ban_check_mask.
  destruct (ban_check_decides _ HE _ (ve_extbans V HV) _ _ Hinh (S (length m)) (join_context V s u ch EXBTYPE_BAN) None m eq_refl Hc Hm
    ltac:(lia)) as (b & st & -> & Hbm & _). cbn [mbind option_bind fst]. destruct b.
  - destruct (scan_bans_decides _ _ HE (ve_extbans V HV) _ _ Hinh (join_context V s u ch EXBTYPE_EXCEPT) None (x_exlist (ext s ch))
      eq_refl Hc) as (e & msg & -> & He & _).
    { destruct (X ch) as [[_ [H _]%Forall_app]%Forall_app _]. done. }
    cbn [mbind option_bind fst]. eexists. split; [done|]. intros t. split.
    + destruct e; [done|]. intros [= <-]. exists [], ban, l, m. split_and!; [done|done|by apply Hbm|constructor|exact He].
    + intros ([|x l1] & y & l2 & mask & Ey & H1 & H2 & H3 & H4); simpl in Ey; injection Ey as Eb El; subst.
      * rewrite E in H1. injection H1 as -> ->. destruct e as [x|]; [|done]. exfalso. destruct He as (e1 & e2 & Ee & _ & Hx). rewrite Ee in H4. by apply Forall_app in H4 as [_ [H4 _]%Forall_cons].
      * apply Forall_cons in H3 as [H3 _]. exfalso. by apply (H3 c m), Hbm.
  - exists r. split; [done|]. intros t. rewrite bans_forward_skip; [done|]. intros t' m' H. rewrite E in H. injection H as -> ->. intros Hh%Hbm. done.
Qed.

(** The user is sent to another channel: by a ~forward ban, or by +L when he is refused
    for one of its reasons. *)
Definition forwards (s : jstate) (u : cid) (ch : ptr) (key : option cstring) (t : cstring) : Prop :=
  v_uline V u = false /\
  ((~ invited s u ch /\ bans_forward s u ch (x_banlist (ext s ch)) t) \/
   ((invited s u ch \/ forall t', ~ bans_forward s u ch (x_banlist (ext s ch)) t') /\ mode_set V s ch 76 = true /\ x_params (ext s ch) !! 76 = Some t /\
    exists i, can_join V s u ch key = Some i /\ i <> 0 /\ link_applies V s u ch i = true)).

Lemma link_spec ex s a u ch key : jinv V ex s a -> has_chan a ch -> a_acc a !! (ch, u) = None ->
  exists r, link_target V s u ch key = Some r /\ forall t, r = Some t <-> forwards s u ch key t.
Proof using HV.
  intros J Hc Hno. pose proof J as (R & _ & _ & X & _). unfold link_target, forwards.
  assert (is_member s u ch = false) as ->.
  { destruct (is_member s u ch) eqn:Em; [|done]. apply (member_acc V s a u ch) in Em; [|done]. rewrite Hno in Em. by destruct Em. }
  rewrite orb_false_r. destruct (v_uline V u); [exists None; split; [done|]; naive_solver|].
  set (f := if is_invited V s u ch then _ else _).
  assert (exists r, f = Some r /\ forall t, r = Some t <-> ~ invited s u ch /\ bans_forward s u ch (x_banlist (ext s ch)) t) as (r & -> & Hr).
  { unfold f. pose proof (is_invited_spec s u ch) as Hi. destruct (is_invited V s u ch); [exists None; split; [done|]; naive_solver|].
    destruct (forward_loop_spec ex s a u ch (x_banlist (ext s ch)) J) as (r & -> & Hr); [by destruct (X ch) as [[H _]%Forall_app _]|].
    exists r. split; [done|]. intros t. rewrite Hr. naive_solver. }
  cbn [mbind option_bind]. destruct r as [x|].
  - exists (Some x). split; [done|]. destruct (proj1 (Hr x) eq_refl) as [Hx1 Hx2]. intros t. split.
    + intros [= <-]. split; [done|]. by left.
    + intros [_ [Ht|[[?|Hn] _]]]; [by apply Hr|done|by destruct (Hn x)].
  - assert (Hnone : forall t, ~ (~ invited s u ch /\ bans_forward s u ch (x_banlist (ext s ch)) t)) by (intros t Ht%Hr; done).
    assert (Hor : invited s u ch \/ forall t', ~ bans_forward s u ch (x_banlist (ext s ch)) t').
    { pose proof (is_invited_spec s u ch) as Hi. destruct (is_invited V s u ch); [left; by apply Hi|right]. intros t Ht. apply (Hnone t). split; [|done]. by intros ?%Hi. }
    destruct (x_params (ext s ch) !! 76) as [linked|] eqn:E; [|exists None; split; [done|]; intros t; split; [done|]; intros [_ [Ht|(_ & _ & ? & _)]]; [by apply Hnone in Ht|done]].
    destruct (mode_set V s ch 76) eqn:Em; cbn [negb]; [|exists None; split; [done|]; intros t; split; [done|]; intros [_ [Ht|(_ & ? & _)]]; [by apply Hnone in Ht|done]].
    destruct (can_join_spec ex s a u ch key J Hc) as (i & -> & _). cbn [mbind option_bind]. eexists. split; [done|]. intros t. split.
    + destruct (negb (i =? 0) && link_applies V s u ch i) eqn:El; [|done]. apply andb_prop in El as [Hz%negb_true_iff%Z.eqb_neq El]. intros [= <-]. split; [done|]. right. split; [done|]. split; [done|]. split; [done|]. by exists i.
    + intros [_ [Ht|(_ & _ & [= ->] & j & [= <-] & Hz & ->)]]; [by apply Hnone in Ht|]. by rewrite (proj2 (Z.eqb_neq i 0) Hz).
Qed.

(** ** One channel *)

Lemma valid_clean name : valid_channelname (v_channelchars V) name = true -> clean_name name = name.
Proof.
  unfold valid_channelname, clean_name. intros [[_ Hl%negb_true_iff%Nat.ltb_ge]%andb_true_iff H]%andb_true_iff.
  rewrite take_ge by done. assert (Hp : forallb (fun c => negb (bad_chan_char c)) name = true).
  { destruct (v_channelchars V); [done| |by apply andb_true_iff in H as [? _]].
    rewrite forallb_forall in H |- *. intros x Hx. specialize (H x Hx). by apply andb_true_iff in H as [? _]. }
  clear -Hp. induction name as [|c l IH]; [done|]. simpl in Hp. apply andb_true_iff in Hp as [Hc Hl]. simpl. rewrite Hc.
  specialize (IH Hl). destruct (span _ l) as [x y]. simpl in *. by rewrite IH.
Qed.

Lemma find_chan_has s a name ch c :
  jrel V (j_c s) a -> cstr name -> name <> [] -> valid_channelname (v_channelchars V) name = true ->
  make_channel (v_siphashkey V) (v_now V) (j_c s) name = (Some ch, c) -> is_Some (find_chan V s name) <-> has_chan a ch.
Proof.
  intros R Hn Hne Hv Hm. pose proof (rp_find _ _ _ _ _ (jrel_represents V _ _ R) name) as Hf.
  unfold make_channel in Hm. destruct name as [|x l]; [done|]. rewrite (valid_clean _ Hv) in Hm. unfold find_chan.
  destruct (find_channel _ _ _ _) as [y|] eqn:E.
  - injection Hm as -> _. destruct (proj1 (Hf ch Hn) eq_refl) as (b & t & Hb & _). unfold has_chan. rewrite Hb. naive_solver.
  - injection Hm as <- _. split; [by intros [? ?]|]. intros [z Hz]%(chan_lookup V _ _ _ R). by rewrite fresh_lookup in Hz.
Qed.

(** What becomes of the user: on the channel with the modes that a new channel gives to
    its creator, or refused and nothing changed. *)
Definition joined_as (a : aview) (u : cid) (ch : ptr) (a' : aview) : Prop :=
  fst <$> a_acc a' !! (ch, u) = Some (if decide (has_chan a ch) then [] else all_modes (modes_table V) [] (v_level_on_join V)) /\
  (forall k, k <> (ch, u) -> a_acc a' !! k = a_acc a !! k).

(** A new channel would be +z, and the user is not secure. *)
Definition new_insecure (a : aview) (u : cid) (ch : ptr) : Prop :=
  on_chan (a_acc a) ch = ∅ /\ has (v_modes_on_join V) (bit V 122) = true /\ v_tls V u = false /\ v_oper V u = false.

(** The request gets as far as the channel, which is made if there is none; [c] and [a1]
    are the channels then. *)
Record at_channel (s : jstate) (a : aview) (u : cid) (name : cstring) (ch : ptr) (c : cstate) (a1 : aview) : Prop := {
  ac_passes : passes s a u name;
  ac_made : make_channel (v_siphashkey V) (v_now V) (j_c s) name = (Some ch, c);
  ac_inv : jinv V (Some ch) (set_c s c) a1;
  ac_outside : a_acc a !! (ch, u) = None
}.

Definition state_of (r : joined_one) : jstate := match r with Next s | Stop s => s end.
Definition with_reason (s : jstate) (name : cstring) (d : deny_channel) : jstate :=
  if bool_decide (is_Some (dc_reason d)) then say s (JNumeric ERR_FORBIDDENCHANNEL name) else s.
Definition with_class (s : jstate) (name : cstring) (d : deny_channel) : jstate :=
  if bool_decide (is_Some (dc_class d)) then say s (JNotice name) else s.

(** Everything that can become of one name of the request, with the members afterwards. *)
Inductive decided (rec : jstate -> cstring -> option jstate) (s : jstate) (a : aview) (u : cid) (name : cstring) (key : option cstring)
    : joined_one -> aview -> Prop :=
| dec_limit : ~ below_limit u a -> decided rec s a u name key (Stop (say s (JNumeric ERR_TOOMANYCHANNELS name))) a
| dec_denied d : below_limit u a -> ~ immune u -> denies u name d -> dc_redirect d = None ->
    decided rec s a u name key (Next (with_class (with_reason s name d) name d)) a
| dec_redirected d r s2 a' : below_limit u a -> ~ immune u -> denies u name d -> dc_redirect d = Some r ->
    rec (say (with_reason s name d) (JNotice r)) r = Some s2 -> decided rec s a u name key (Next (with_class s2 name d)) a'
| dec_qline : below_limit u a -> ~ immune u -> (forall d, ~ denies u name d) -> v_qline V u name = true ->
    decided rec s a u name key (Next (say s (JNumeric ERR_FORBIDDENCHANNEL name))) a
| dec_virus : below_limit u a -> (forall d, ~ (~ immune u /\ denies u name d)) -> ~ (~ immune u /\ v_qline V u name = true) -> virus s u name ->
    decided rec s a u name key (Next (say s (JNotice name))) a
| dec_member ch : passes s a u name -> make_channel (v_siphashkey V) (v_now V) (j_c s) name = (Some ch, j_c s) -> is_Some (a_acc a !! (ch, u)) ->
    decided rec s a u name key (Next s) a
| dec_forward ch c a1 t s2 s' a' : at_channel s a u name ch c a1 -> forwards (set_c s c) u ch key t ->
    rec (say (set_c s c) (JLink (name_of (set_c s c) ch) t)) (strlcpy [] t (CHANNELLEN + 1)).1 = Some s2 -> drop_if_empty V s2 ch = Some s' ->
    decided rec s a u name key (Next s') a'
| dec_insecure ch c a1 s' : at_channel s a u name ch c a1 -> (forall t, ~ forwards (set_c s c) u ch key t) -> new_insecure a u ch ->
    j_out s' = j_out s ++ [JNumeric ERR_SECUREONLYCHAN (name_of (set_c s c) ch)] -> decided rec s a u name key (Next s') a
| dec_joined ch c a1 s' a' : at_channel s a u name ch c a1 -> (forall t, ~ forwards (set_c s c) u ch key t) -> ~ new_insecure a u ch ->
    admits (set_c s c) a1 u ch key -> joined_as a u ch a' -> decided rec s a u name key (Next s') a'
| dec_refused ch c a1 i s' : at_channel s a u name ch c a1 -> (forall t, ~ forwards (set_c s c) u ch key t) -> ~ new_insecure a u ch ->
    ~ admits (set_c s c) a1 u ch key -> refuses_with (set_c s c) a1 u ch key i -> j_out s' = j_out s ++ [JNumeric i name] ->
    decided rec s a u name key (Next s') a.

Lemma limit_reached u s a : jrel V (j_c s) a ->
  (negb (v_perm V u None (str "immune:maxchannelsperuser")) && (v_maxchannels V u <=? joined (j_c s) u) = true <-> ~ below_limit u a).
Proof.
  intros R. rewrite (joined_count V _ a u R), andb_true_iff, negb_true_iff, Z.leb_le. unfold below_limit. split; [intros [H1 H2] H; specialize (H H1); lia|].
  intros H. destruct (v_perm V u None (str "immune:maxchannelsperuser")); [by destruct H|]. split; [done|]. destruct (Z.le_gt_cases (v_maxchannels V u) (count a u)); [done|]. destruct H. intros _. lia.
Qed.

Lemma virus_spec s u name :
  match v_viruschan V with Some v => strcasecmp_eq name v | None => false end && negb (v_perm V u None (str "immune:server-ban:viruschan")) && negb (v_vchanoverride V) &&
    match find_chan V s name with Some ch => negb (is_invited V s u ch) | None => true end = true <-> virus s u name.
Proof.
  unfold virus. rewrite !andb_true_iff, !negb_true_iff.
  assert (Hi : match find_chan V s name with Some ch => negb (is_invited V s u ch) | None => true end = true <-> forall ch, find_chan V s name = Some ch -> ~ invited s u ch).
  { destruct (find_chan V s name) as [ch|]; [|naive_solver]. rewrite negb_true_iff, <- not_true_iff_false, is_invited_spec. naive_solver. }
  rewrite Hi. destruct (v_viruschan V) as [v|]; naive_solver.
Qed.

(** The part that the server decides. *)
Lemma server_decides rec s a u name key : jinv V None s a -> cstr name -> rec_ok rec u (j_bounced s) ->
  exists r, server_checks V rec s u name = Some r /\
    match r with
    | inl r => exists a', jinv V None (state_of r) a' /\ kept V u s a (state_of r) a' /\ decided rec s a u name key r a'
    | inr s' => s' = s /\ passes s a u name
    end.
Proof using HV.
  intros J Hn Hrec. pose proof J as (R & _). unfold server_checks. pose proof (limit_reached u s a R) as Hlim.
  destruct (negb _ && _).
  { eexists. split; [done|]. exists a. split; [done|]. split; [by apply kept_quiet|]. apply dec_limit, Hlim. done. }
  assert (Hbelow : below_limit u a).
  { intros Hi. destruct (Z.le_gt_cases (v_maxchannels V u) (count a u)) as [H|H]; [|lia]. exfalso. assert (false = true); [|done]. apply Hlim. intros Hb. specialize (Hb Hi). lia. }
  destruct (find_allowed_spec u name Hn) as (d & Hd & Hds). destruct (find_allowed_total u name Hn) as (d' & Hd' & Hr). rewrite Hd in Hd'. injection Hd' as <-.
  unfold immune in *. destruct (v_perm V u None (str "immune:server-ban:deny-channel")) eqn:Him.
  - cbn [mbind option_bind negb andb]. pose proof (virus_spec s u name) as Hvir. destruct (_ && _ && _ && _).
    + eexists. split; [done|]. exists a. split; [done|]. split; [by apply kept_quiet|]. apply dec_virus; [done|by intros x [[] _]|by intros [[] _]|by apply Hvir].
    + exists (inr s). split; [done|]. split; [done|]. split; [done|by intros x [[] _]|by intros [[] _]|]. by intros H%Hvir.
  - assert (Him' : ~ immune u) by (unfold immune; by rewrite Him). rewrite Hd. cbn [mbind option_bind]. destruct d as [x|].
    + assert (denies u name x) as Hden by (by apply Hds). fold (with_reason s name x). assert (quiet s (with_reason s name x)) as Hq by (unfold with_reason; by case_bool_decide).
      assert (J1 : jinv V None (with_reason s name x) a) by (by eapply quiet_jinv). destruct (dc_redirect x) as [r|] eqn:Er.
      * destruct (Hrec (say (with_reason s name x) (JNotice r)) a r) as (s2 & E2 & a2 & J2 & K2); [done|by eapply Hr|apply Hq|]. rewrite E2. cbn [mbind option_bind].
        fold (with_class s2 name x). eexists. split; [done|]. exists a2. cbn [state_of]. assert (quiet s2 (with_class s2 name x)) as Hq2 by (unfold with_class; by case_bool_decide).
        split; [by eapply quiet_jinv|]. split; [|by apply (dec_redirected rec s a u name key x r)]. eapply kept_trans; [apply (kept_quiet V u s a (with_reason s name x)); apply Hq|].
        eapply kept_trans; [|apply (kept_quiet V u s2 a2); apply Hq2]. eapply kept_trans; [|exact K2]. by apply kept_quiet.
      * cbn [mbind option_bind]. fold (with_class (with_reason s name x) name x). eexists. split; [done|]. exists a. cbn [state_of].
        assert (quiet s (with_class (with_reason s name x) name x)) as Hq2 by (eapply quiet_trans; [exact Hq|]; unfold with_class; by case_bool_decide).
        split; [by eapply quiet_jinv|]. split; [apply kept_quiet; apply Hq2|by apply dec_denied].
    + assert (Hnone : forall d, ~ denies u name d) by (intros x Hx%Hds; done). cbn [negb andb]. destruct (v_qline V u name) eqn:Hql.
      { eexists. split; [done|]. exists a. split; [done|]. split; [by apply kept_quiet|by apply dec_qline]. }
      pose proof (virus_spec s u name) as Hvir. destruct (_ && _ && _ && _).
      * eexists. split; [done|]. exists a. split; [done|]. split; [by apply kept_quiet|]. apply dec_virus; [done|by intros x [_ ?%Hnone]|by intros [_ Hql']; rewrite Hql in Hql'|by apply Hvir].
      * exists (inr s). split; [done|]. split; [done|]. split; [done|by intros x [_ ?%Hnone]|by intros [_ Hql']; rewrite Hql in Hql'|]. by intros H%Hvir.
Qed.

(** A channel that was made for the attempt is gone when the user is refused. *)
Lemma refused_step s a u name ch c a1 m : jinv V (Some ch) (set_c s c) a1 -> has_chan a1 ch -> a_acc a1 = a_acc a ->
  jrel V (j_c s) a -> kept V u s a (set_c s c) a1 ->
  ((a1 = a /\ c = j_c s /\ has_chan a ch /\ jinv V None (set_c s c) a1) \/
   (a_chans a1 = <[ch := (clean_name name, v_now V)]> (a_chans a) /\ ~ has_chan a ch /\ ext (set_c s c) ch = no_ext)) ->
  exists s', drop_if_empty V (say (set_c s c) m) ch = Some s' /\ jinv V None s' a /\ kept V u s a s' a /\ j_out s' = j_out s ++ [m].
Proof using HV.
  intros J1 Hc1 Ha1 R K1 Hset. set (s1 := set_c s c) in *. destruct (drop_step V u (say s1 m) a1 ch J1 Hc1) as (s' & a' & -> & J' & K' & -> & Hout).
  exists s'. split; [done|]. assert (Heq : a_sub1 a1 ch (negb (permanent V (say s1 m) ch)) = a).
  2: { rewrite Heq in J', K'. split; [done|]. split; [|by rewrite Hout]. eapply kept_trans; [exact K1|]. eapply kept_trans; [|exact K']. by apply kept_quiet. }
  destruct Hset as [(-> & _ & Hc & J0)|(Hc & Hnew & He)].
  - destruct J0 as (_ & T & _). unfold a_sub1. case_bool_decide as Hem; [|by destruct a].
    destruct (T ch Hc Hem) as [?|Hpm]; [done|]. change (permanent V (say s1 m) ch) with (permanent V s1 ch). rewrite Hpm. by destruct a.
  - assert (permanent V (say s1 m) ch = false) as -> by (unfold permanent, mode_set; change (ext (say s1 m) ch) with (ext s1 ch); by rewrite He).
    assert (on_chan (a_acc a1) ch = ∅) as Hem.
    { destruct (decide (on_chan (a_acc a1) ch = ∅)) as [|H]; [done|]. destruct (on_chan_elem _ _ H) as [v Hv']. rewrite Ha1 in Hv'. destruct Hnew. by eapply acc_chan. }
    unfold a_sub1. rewrite bool_decide_true by done. simpl. rewrite Hc, Ha1. assert (a_chans a !! ch = None) as Hn0 by (apply eq_None_not_Some; exact Hnew).
    rewrite delete_insert_eq, delete_id by done. by destruct a.
Qed.

Lemma new_insecure_spec s a u ch : jrel V (j_c s) a -> has_chan a ch -> secureonly_pre_local_join V s u ch = true <-> new_insecure a u ch.
Proof.
  intros R Hc. unfold secureonly_pre_local_join, new_insecure. rewrite (users_size V s a ch R Hc), !andb_true_iff, !negb_true_iff, Z.eqb_eq.
  pose proof (empty_size (a_acc a) ch) as Hs. assert (Z.of_nat (size (on_chan (a_acc a) ch)) = 0 <-> on_chan (a_acc a) ch = ∅) as -> by (rewrite <- Hs; lia). tauto.
Qed.

Lemma join_one_decides rec s a u name key :
  jinv V None s a -> cstr name -> name <> [] -> is_zero name = false -> is_local V u = true -> has_user V u = true ->
  valid_channelname (v_channelchars V) name = true -> rec_ok rec u (j_bounced s) ->
  exists r a', join_one V rec s u name key = Some r /\ jinv V None (state_of r) a' /\ kept V u s a (state_of r) a' /\ decided rec s a u name key r a'.
Proof using HV.
  intros J Hn Hne Hz Hl Hu Hv Hrec. pose proof J as (R & _). unfold join_one. rewrite Hz, Hl. cbn [andb].
  destruct (server_decides rec s a u name key J Hn Hrec) as (r & -> & Hr). cbn [mbind option_bind]. destruct r as [r|s']; [destruct Hr as (a' & ?); by exists r, a'|]. destruct Hr as [-> Hpass].
  destruct (make_step V u s a name J Hn Hne) as (ch & c & a1 & Hm & J1 & Hc1 & K1 & Ha1 & Hset). rewrite Hm.
  pose proof (find_chan_has s a name ch c R Hn Hne Hv Hm) as Hfind. set (s1 := set_c s c) in *. destruct (is_member s1 u ch) eqn:Em.
  { apply (member_acc V s1 a1 u ch) in Em; [|apply J1]. rewrite Ha1 in Em. destruct Hset as [(-> & -> & _ & J0)|(_ & Hnew & _)]; [|destruct Hnew; by eapply acc_chan].
    assert (s1 = s) as -> by (unfold s1; by destruct s). exists (Next s), a. split; [done|]. split; [done|]. split; [apply kept_refl|by apply (dec_member rec s a u name key ch)]. }
  assert (Hno1 : a_acc a1 !! (ch, u) = None).
  { destruct (a_acc a1 !! (ch, u)) eqn:E; [|done]. assert (is_member s1 u ch = true) as H; [|congruence]. apply (member_acc V s1 a1 u ch); [apply J1|by rewrite E]. }
  assert (Hat : at_channel s a u name ch c a1) by (split; [done|done|done|by rewrite <- Ha1]).
  unfold channel_checks. destruct (link_spec _ s1 a1 u ch key J1 Hc1 Hno1) as (f & Hlk & Hf). destruct (link_total _ s1 a1 u ch key J1 Hc1) as (f' & Hlk' & Hf').
  rewrite Hlk in Hlk' |- *. injection Hlk' as <-. cbn [mbind option_bind]. destruct f as [t|].
  - destruct (Hf' t eq_refl) as [Ht He]. destruct Hset as [(-> & _ & _ & J0)|(_ & _ & ?)]; [|done].
    destruct (Hrec (say s1 (JLink (name_of s1 ch) t)) a (strlcpy [] t (CHANNELLEN + 1)).1) as (s2 & E2 & a2 & J2 & K2); [done|apply strlcpy_cstr; [constructor|done]|done|].
    rewrite E2. cbn [mbind option_bind fst snd]. assert (K : kept V u s1 a s2 a2) by (eapply kept_trans; [apply (kept_quiet V u s1 a (say s1 (JLink (name_of s1 ch) t))); done|exact K2]).
    destruct (drop_step V u s2 a2 ch) as (s3 & a3 & E3 & J3 & K3 & _); [by apply jinv_weaken|exact (survives u s1 a s2 a2 ch J0 Hc1 Hno1 J2 K)|].
    rewrite E3. cbn [mbind option_bind]. exists (Next s3), a3. split; [done|]. split; [done|]. split; [eapply kept_trans; [exact K1|]; by eapply kept_trans|].
    apply (dec_forward rec s a u name key ch c a t s2); [done|by apply Hf|done|done].
  - assert (Hnf : forall t, ~ forwards s1 u ch key t) by (intros t Ht%Hf; done). pose proof (new_insecure_spec s1 a1 u ch (proj1 J1) Hc1) as Hins.
    assert (Hins' : new_insecure a1 u ch <-> new_insecure a u ch) by (unfold new_insecure; by rewrite Ha1). rewrite Hins' in Hins. destruct (secureonly_pre_local_join V s1 u ch).
    + cbn [mbind option_bind fst snd]. destruct (refused_step s a u name ch c a1 (JNumeric ERR_SECUREONLYCHAN (name_of s1 ch)) J1 Hc1 Ha1 R K1 Hset) as (s' & E' & J' & K' & Hout). fold s1 in E'. rewrite E'. cbn [mbind option_bind]. exists (Next s'), a. split; [done|]. split; [done|]. split; [done|].
      apply (dec_insecure rec s a u name key ch c a1); [done|done|by apply Hins|done].
    + assert (Hni : ~ new_insecure a u ch) by (intros H%Hins; done). destruct (can_join_spec _ s1 a1 u ch key J1 Hc1) as (i & -> & H0 & Hi). cbn [mbind option_bind fst snd].
      destruct (Z.eqb_spec i 0) as [->|Hnz]; cbn [fst snd].
      * set (modes := if negb (bool_decide (is_Some (find_chan V s name))) then v_level_on_join V else []). destruct (join_goes u s a s1 a1 ch modes K1) as (s' & a' & -> & J' & K' & Ho & Hmo); try done; [unfold count; by rewrite Ha1|by intros _; apply Hpass|].
        cbn [mbind option_bind]. exists (Next s'), a'. split; [done|]. split; [done|]. split; [done|].
        apply (dec_joined rec s a u name key ch c a1); try done; [by apply H0|]. split.
        -- rewrite Hmo. f_equal. unfold modes. case_bool_decide as Hbd; simpl; [by rewrite decide_True by (by apply Hfind)|by rewrite decide_False by (by rewrite <- Hfind)].
        -- intros k Hne'. by rewrite Ho, Ha1.
      * destruct (refused_step s a u name ch c a1 (JNumeric i name) J1 Hc1 Ha1 R K1 Hset) as (s' & E' & J' & K' & Hout). fold s1 in E'. rewrite E'. cbn [mbind option_bind].
        exists (Next s'), a. split; [done|]. split; [done|]. split; [done|]. apply (dec_refused rec s a u name key ch c a1 i); try done; [by intros H%H0|by apply Hi].
Qed.
End spec.

(** What holds after a JOIN. *)
Record join_result (V : join_env) (u : cid) (s : jstate) (a : aview) (s' : jstate) (a' : aview) : Prop := {
  jr_inv : jinv V None s' a';
  jr_represents : represents (v_siphashkey V) (is_local V) (has_user V) (j_c s') a';
  jr_others ch v : v <> u -> a_acc a' !! (ch, v) = a_acc a !! (ch, v);
  jr_permanent ch : has_chan a ch -> permanent V s ch = true -> has_chan a' ch /\ permanent V s' ch = true;
  jr_limit : is_local V u = true -> v_perm V u None (str "immune:maxchannelsperuser") = false ->
    joined (j_c s) u <= v_maxchannels V u -> joined (j_c s') u <= v_maxchannels V u;
  jr_bounced : j_bounced s' = 0
}.

(** C5: JOIN is safe on every path.  Whatever the parameters, the configuration, the
    order of the modules, the modes, bans, invitations and links of the channels, the
    command returns: redirects and forwards stop after [MAXBOUNCE] nested calls, and no
    call looks at a channel that was freed.  Afterwards the channels represent a map of
    members again, a channel without members is one with +P, nothing is kept for a
    channel that is gone (no modes, no lists, no invitation on either side), the other
    users and the permanent channels are as they were, a user without the privilege is
    not on more channels than allowed, and [bouncedtimes] is 0. *)
Theorem join_safe (V : join_env) (HV : join_env_ok V) (s : jstate) (a : aview) (u : cid) (parv1 parv2 : option cstring)
    (J : jinv V None s a) (H1 : forall p, parv1 = Some p -> cstr p) (Hu : has_user V u = true) :
  exists s' a', cmd_join V s u parv1 parv2 = Some s' /\ join_result V u s a s' a'.
Proof.
  pose proof J as (R & _). unfold cmd_join. case_bool_decide.
  { exists (set_bounced s 0), a. split; [done|]. split; try done. by apply jrel_represents. }
  destruct (do_join_spec V HV u JOIN_FUEL (set_bounced s 0) a parv1 parv2 J H1 Hu) as (s' & -> & a' & J' & K').
  { unfold JOIN_FUEL. lia. }
  { done. }
  cbn [mbind option_bind]. exists (set_bounced s' 0), a'. split; [done|]. pose proof J' as (R' & _).
  split; [exact J'|by apply jrel_represents|apply (k_others _ _ _ _ _ _ K')|apply (k_perm _ _ _ _ _ _ K')| |done].
  intros Hl Hp Hj. pose proof (k_limit _ _ _ _ _ _ K' Hl Hp) as Hlim. simpl.
  rewrite (joined_count V _ a u R) in Hj. rewrite (joined_count V _ a' u R'). simpl in *. lia.
Qed.

(** C6: what becomes of a local user's request for one channel, in every case.  He is
    stopped at the limit of channels; a deny channel block that no allow channel block
    overrides refuses or redirects him, a q-line or the channel of the spam filter refuses
    him; on a channel that he is on nothing happens; a ~forward ban, or +L for a user who
    is refused, sends him to another channel; and a user who is not secure does not get
    onto an empty channel if set::modes-on-join has +z.  Otherwise he is put on the
    channel exactly if it admits him: by an invitation (unless +O does not accept it), or
    because no module restricts the channel for him (+i, +k, +l, +R, +z, +O, the throttle,
    the creation of channels) and no ban matches that no exception overrides.  He then has
    the modes of set::level-on-join if he created the channel and none otherwise.  If it
    does not admit him the numeric of the first module that refuses, or of the ban, is
    sent, and channels and members are exactly as before: a channel made for the attempt
    is gone.  Nobody else's membership changes in any case. *)
Theorem join_admission (V : join_env) (HV : join_env_ok V) (fuel : nat) (s : jstate) (a : aview)
    (u : cid) (name : cstring) (key : option cstring)
    (J : jinv V None s a) (Hn : cstr name) (Hv : valid_channelname (v_channelchars V) name = true)
    (Hl : is_local V u = true) (Hu : has_user V u = true) (Hf : MAXBOUNCE + 1 <= Z.of_nat fuel + j_bounced s) (Hpos : (0 < fuel)%nat) :
  let rec s p := do_join V fuel s u (Some p) None in
  exists r a', join_one V rec s u name key = Some r /\ jinv V None (state_of r) a' /\
    decided V rec s a u name key r a' /\ (forall ch v, v <> u -> a_acc a' !! (ch, v) = a_acc a !! (ch, v)).
Proof.
  assert (hd 0 name = 35) as Hd.
  { unfold valid_channelname in Hv. apply andb_true_iff in Hv as [[Hv _]%andb_true_iff _]. by apply Z.eqb_eq in Hv. }
  intros rec. destruct (join_one_decides V HV rec s a u name key J Hn) as (r & a' & H1 & H2 & K & H3); try done; [by intros ->|unfold is_zero; by rewrite Hd| |].
  - intros s0 a0 p J0 Hp Hb. apply (do_join_spec V HV); [done|by intros ? [= <-]|done|done|lia].
  - exists r, a'. split; [done|]. split; [done|]. split; [done|]. apply (k_others _ _ _ _ _ _ K).
Qed.

(** ** A server with two channels

    Alice (1) and Bob (2) are local users.  Bob is on #chan, which has the key "secret";
    #perm is empty, permanent and has a key, too, and Bob is invited to it. *)

Definition sample_letter (c : Z) : Z :=
  match List.find (fun h => h_letter h =? c) shipped_handlers with Some h => h_mode h | None => 0 end.

Definition sample_client (name host : string) : BanClient :=
  MkBanClient (str name) (str name) (str "real name") CLIENT_STATUS_USER 0 (Some (str "192.168.130.7")) (Some (str host))
    (Some (MkBanUser (str name) (str host) None (str "cloak") (str "0") [])).

Definition sample_env (now : Z) : join_env :=
  MkJoinEnv shipped_handlers (seqZ 0 16) ALLOWED_CHANNELCHARS_ASCII example_env extbans
    (fun u => if decide (u = 1%positive) then sample_client "alice" "host.example.net" else sample_client "bob" "host.example.org")
    (fun _ => false) (fun _ => false) (fun _ => true) (fun _ => true) (fun _ _ _ => false) (fun _ => 10) 20 [] [] (fun _ => [])
    (fun _ _ => false) (fun _ _ => false) None false (fun _ _ => false) (fun _ => 90) (fun _ => 2) 60 (str "o") 0 ∅
    [HookInviteonly; HookKey; HookLimit; HookRegonly; HookSecureonly; HookOperonly;
     HookJointhrottle; HookRcmd] now.

Definition sample_ops : list cop := [CMake 1700000000 (str "#chan"); CJoin 1 2 (str "o"); CMake 1700000001 (str "#perm")].

Definition sample_view : aview :=
  AView {[ 1%positive := (str "#chan", 1700000000); 2%positive := (str "#perm", 1700000001) ]}
    {[ (1%positive, 2%positive) := (str "o", false) ]}.

Definition sample_c : cstate :=
  default (no_channels false)
    (crun (cstep (modes_table (sample_env 0)) (seqZ 0 16) (is_local (sample_env 0)) (is_user (sample_env 0)) (has_user (sample_env 0)))
       (no_channels false) sample_ops).

Definition sample_state : jstate :=
  MkJ sample_c
    {[ 1%positive := MkExt (sample_letter 107) {[ 107 := str "secret" ]} [] [] [];
       2%positive := MkExt (Z.lor (sample_letter 80) (sample_letter 107)) {[ 107 := str "other" ]} [] [] [] ]}
    {[ 2%positive := [2%positive] ]} {[ 2%positive := [2%positive] ]} ∅ 0 [].

Lemma sample_env_ok now : join_env_ok (sample_env now).
Proof.
  split.
  - exact shipped_handlers_ok.
  - exact example_pton_ok.
  - intros c s. done.
  - exact extbans_table_ok.
  - intros u. simpl. case_decide; ban_client_ok_tac.
  - constructor.
  - constructor.
  - apply Forall_forall. intros h _ ph v _ H. simpl in H. by rewrite lookup_empty in H.
Qed.

Lemma sample_rel now : jrel (sample_env now) sample_c sample_view.
Proof.
  destruct (crun_ok (modes_table (sample_env now)) (seqZ 0 16) (is_local (sample_env now)) (is_user (sample_env now)) (has_user (sample_env now))
    sample_ops (no_channels false) (AView ∅ ∅) sample_view) as (s & Hs & R); [apply crel_init|vm_compute; reflexivity|].
  unfold sample_c. change (crun (cstep (modes_table (sample_env 0)) (seqZ 0 16) (is_local (sample_env 0)) (is_user (sample_env 0))
    (has_user (sample_env 0))) (no_channels false) sample_ops) with (crun (cstep (modes_table (sample_env now)) (seqZ 0 16)
    (is_local (sample_env now)) (is_user (sample_env now)) (has_user (sample_env now))) (no_channels false) sample_ops).
  rewrite Hs. exact R.
Qed.

Lemma sample_inv now : jinv (sample_env now) None sample_state sample_view.
Proof.
  assert (Hch : forall ch, has_chan sample_view ch <-> ch = 1%positive \/ ch = 2%positive).
  { intros ch. unfold has_chan. simpl. rewrite lookup_insert_is_Some', lookup_singleton_is_Some. naive_solver. }
  assert (Hinv : forall u ch, ch ∈ uinv sample_state u <-> u = 2%positive /\ ch = 2%positive).
  { intros u ch. unfold uinv. simpl. destruct (decide (u = 2%positive)) as [->|Hne].
    - rewrite lookup_singleton_eq. simpl. rewrite list_elem_of_singleton. naive_solver.
    - rewrite lookup_singleton_ne by done. simpl. split; [by intros ?%not_elem_of_nil|naive_solver]. }
  assert (Hcin : forall u ch, u ∈ cinv sample_state ch <-> u = 2%positive /\ ch = 2%positive).
  { intros u ch. unfold cinv. simpl. destruct (decide (ch = 2%positive)) as [->|Hne].
    - rewrite lookup_singleton_eq. simpl. rewrite list_elem_of_singleton. naive_solver.
    - rewrite lookup_singleton_ne by done. simpl. split; [by intros ?%not_elem_of_nil|naive_solver]. }
  split_and!.
  - apply sample_rel.
  - intros ch Hc He. right. apply Hch in Hc as [->| ->]; [|vm_compute; reflexivity]. exfalso. vm_compute in He. done.
  - intros ch. simpl. rewrite lookup_insert_is_Some', lookup_singleton_is_Some, Hch. naive_solver.
  - intros ch. unfold ext. simpl. destruct (decide (ch = 1%positive)) as [->|H1]; [|destruct (decide (ch = 2%positive)) as [->|H2]].
    + rewrite lookup_insert_eq. split; [constructor|]. apply map_Forall_singleton. repeat constructor; done.
    + rewrite lookup_insert_ne, lookup_singleton_eq by done. split; [constructor|]. apply map_Forall_singleton. repeat constructor; done.
    + rewrite lookup_insert_ne, lookup_singleton_ne by done. split; [constructor|apply map_Forall_empty].
  - split_and!; [intros u ch; by rewrite Hinv, Hcin| |].
    + intros u. unfold uinv. simpl. destruct (decide (u = 2%positive)) as [->|]; [rewrite lookup_singleton_eq; apply NoDup_singleton|].
      rewrite lookup_singleton_ne by done. constructor.
    + intros ch. unfold cinv. simpl. destruct (decide (ch = 2%positive)) as [->|]; [rewrite lookup_singleton_eq; apply NoDup_singleton|].
      rewrite lookup_singleton_ne by done. constructor.
  - intros u ch [_ ->]%Hinv. apply Hch. by right.
Qed.

Lemma join_safe_witness :
  exists s' a', cmd_join (sample_env 1700000100) sample_state 1 (Some (str "#chan,#new")) (Some (str "secret")) = Some s' /\
    join_result (sample_env 1700000100) 1 sample_state sample_view s' a'.
Proof.
  apply (join_safe (sample_env 1700000100) (sample_env_ok 1700000100)).
  - apply sample_inv.
  - intros p [= <-]. repeat constructor; done.
  - vm_compute. reflexivity.
Defined.

Lemma join_admission_witness :
  exists r a', join_one (sample_env 1700000100) (fun s p => do_join (sample_env 1700000100) 6 s 1 (Some p) None) sample_state 1 (str "#chan") (Some (str "secret")) = Some r /\
    jinv (sample_env 1700000100) None (state_of r) a' /\
    decided (sample_env 1700000100) (fun s p => do_join (sample_env 1700000100) 6 s 1 (Some p) None) sample_state sample_view 1 (str "#chan") (Some (str "secret")) r a' /\
    (forall ch v, v <> 1%positive -> a_acc a' !! (ch, v) = a_acc sample_view !! (ch, v)).
Proof.
  apply (join_admission (sample_env 1700000100) (sample_env_ok 1700000100) 6);
    [apply sample_inv|repeat constructor; done|vm_compute; reflexivity..|vm_compute; discriminate|lia].
Defined.

(** Which channels a user is on, by name. *)
Definition channels_of (s : jstate) (u : cid) : list cstring := (memberships_of s u).*1.

(** JOIN on examples: the key opens #chan, a wrong one does not and leaves no trace, the
    creator of a channel becomes its operator, and JOIN 0 leaves everything.  Three
    surprises: a name that is refused is dropped from the list while its key is not, so
    that the keys of the following channels are shifted; a refused attempt to join an
    empty permanent channel removes all invitations to it, as [invite_channel_destroy]
    does not look at [should_destroy]; and the throttle of 2 joins in 90 seconds lets a
    third one pass after 61, because the counter is reset by the period of another
    block. *)
Example join_defects :
  let V t := sample_env (1700000000 + t) in
  let join s t n k := x ← s; cmd_join (V t) x 1 (Some (str n)) k in
  let on s := default [] (x ← s; Some (channels_of x 1)) in
  let s0 := Some sample_state in
  on (join s0 0 "#chan,#new" (Some (str "secret"))) = [str "#new"; str "#chan"] /\
  (j_out <$> join s0 0 "#chan" (Some (str "x"))) = Some [JNumeric ERR_BADCHANNELKEY (str "#chan")] /\
  on (join (join s0 0 "#chan,#new" (Some (str "secret"))) 1 "0" None) = [] /\
  on (join s0 0 "bad,#chan" (Some (str "x,secret"))) = [] /\
  on (join s0 0 "bad,#chan" (Some (str "secret"))) = [str "#chan"] /\
  is_invited (V 0) sample_state 2 2 = true /\
  (s ← join s0 0 "#perm" (Some (str "x")); Some (is_invited (V 0) s 2 2, permanent (V 0) s 2)) = Some (false, true) /\
  on (join (join (join (join (join s0 0 "#n" None) 0 "0" None) 60 "#n" None) 60 "0" None) 61 "#n" None) = [str "#n"].
Proof. vm_compute. split_and!; reflexivity. Qed.
